(* ===== verification/_CoqProject ===== *)
-Q . S2P
Prelude.v
Sha256.v
Sha256Facts.v
MtCrypto.v
MtCryptoFacts.v
MtArrayList.v
MtArrayListFacts.v
MerkleTree.v
MerkleSpec.v
MerkleFacts.v
MerkleTheorems.v
Aes128.v
Aes128Facts.v
Cmac.v
CmacFacts.v
Assoc.v
AssocFacts.v
Base64.v
Bipbuffer.v
Itoa.v
Jenkins.v
Murmur3.v
Util.v
Items.v
Slabs.v
SlabsFacts.v
SlabPages.v
SlabGrowth.v
SlabsTheorems.v
ItemAlloc.v
ItemTableAssoc.v
LruFacts.v
ItemsFacts.v
ItemAllocFacts.v
Store.v
StoreFacts.v
DeltaFacts.v
Samples.v
StoreTheorems.v
Conn.v
ProtoText.v
ProtoFacts.v
ServerFacts.v
GetFacts.v
ChunkFacts.v
ServerTheorems.v
ProtoMeta.v
MetaFacts.v
MetaTheorems.v
ProtoAdmin.v
ProtoBin.v
DeltaSafe.v
BinFacts.v
BinTheorems.v
FlushTheorems.v
Authfile.v
ProtoAuth.v
Drive.v
DriveTheorems.v
Crc32c.v
Crc32cFacts.v
AuthFacts.v
AuthTheorems.v
StatsPrefix.v
StatsPrefixFacts.v
ObjCache.v
Transmit.v
TransmitFacts.v
Bumps.v
BumpFacts.v
Crawler.v
CrawlLists.v
CrawlerFacts.v
SlabAutomove.v
Maintainer.v
MaintainerFacts.v
Client.v
ClientFacts.v
SevHelper.v
Workers.v
