(* ===== verification/Prelude.v ===== *)
(** * KVSEV: a verification library

    KVSEV is a key-value server that protects what it stores: memcached (src/memcached), changed so
    that every stored value gets an AES-CMAC whose leaf is kept in a Merkle tree
    (src/src/merkle).  A storage command reads a line and a value ([process_update_command],
    [complete_nread_ascii]), stores the item ([do_store_item], [do_item_link]), computes the code of
    the value ([AES_CMAC]), appends it to the tree ([mt_add]) and notes the leaf's index in the
    item; a get looks the item up ([do_item_get]), asks the tree about the item's code
    ([mt_verify]) and queues a response that points at the value.  This library models these parts
    from the cryptography up to the command line, and proves what each promises to the next, what
    the whole promises to a client, and where it falls short.

    ** How the code is modelled

    Every function of the source is a Rocq function of the same name wherever possible.  Fallible
    and undefined C code is in the monad [outcome] of this file: a result, a failed assertion, or
    undefined behaviour (null or dangling pointers, accesses outside an object, double free, signed
    overflow).  Unsigned integers are [Z] with the wrap-around of their width written out ([u8] to
    [u64]).  Heaps are finite maps from addresses to structures, so that a use after free has no
    result.  What the code gets from outside is an argument: the replies of malloc, the slab
    allocator ([SlabAllocator]), the locks other threads hold, the hash function, the room for
    response objects, the bytes that follow a value in memory.  Assertions are enabled, as in
    memcached-debug; memcached itself is compiled with NDEBUG, and the theorems show that the
    assertions they meet do not fire.

    ** The parts, from the bottom up

    - Sha256, Sha256Facts: sha224-256.c; the streaming code computes FIPS 180-2 for a message cut
      in any way.
    - MtCrypto, MtCryptoFacts: mt_crypto.c and the error codes; [mt_hash] is SHA-256 of the two
      children.  The tree uses it through the class [NodeHash].
    - MtArrayList, MtArrayListFacts: mt_array_list.c; a level of the tree as a refinement of a list,
      with the growth policy, the allocator's refusals and the overflow of the size computation.
    - MerkleTree, MerkleSpec, MerkleFacts, MerkleTheorems: mt_impl.c; the tree is a refinement of
      the list of its leaves under any sequence of calls; verification accepts the stored leaf, and
      another one only if SHA-256 collides on the two ways up to the root.
    - Aes128, Aes128Facts, Cmac, CmacFacts: TI_aes_128.c and aes-cbc-cmac.c against FIPS 197,
      SP 800-38B and RFC 4493, with the bounds of the buffers.
    - Assoc, AssocFacts: assoc.c; the table of chained items is a finite map, also while it is being
      expanded.
    - Base64, Bipbuffer, Itoa, Jenkins, Murmur3, Util: the helpers of the same names, with their proofs.
    - Items, LruFacts, ItemsFacts: items.c; items, reference counts, LRU lists and lookup.  The
      hash table is behind the class [ItemTable], with its laws in [ItemTableLaws];
      ItemTableAssoc shows that assoc.c obeys them.  [store_rep] is the invariant.
    - Slabs, SlabsFacts, SlabPages, SlabGrowth, SlabsTheorems: slabs.c; classes, pages, free lists and
      the memory limit.  The chunks in use never overlap and none is lost, in every reachable state;
      an allocation gives what the class [SlabAllocator] promises to the items.
    - ItemAlloc, ItemAllocFacts: allocation with reclaiming, moves between LRUs and eviction.
    - Store, StoreFacts, DeltaFacts, StoreTheorems: [do_store_item], [do_add_delta] (memcached.c) and
      the entry points of thread.c, against a specification on the map from keys to live values;
      the operations of items.c as a machine with an invariant over all reachable states.
    - Conn, ProtoText, ProtoFacts: response objects, the tokenizer, the dispatcher and the handlers
      of proto_text.c.
    - ServerFacts, GetFacts, ServerTheorems: the composition.  [sealed] is the invariant that ties
      store, codes and tree together; storing keeps it, gets of any number of keys return the
      values, and what is set comes back.  The last theorems are about what the protection does not
      do: values altered in memory, refused commands and increments.
    - Bumps, BumpFacts: the queues through which a get asks the maintainer thread to bump an item; a
      queued item holds a reference, so that it cannot be freed before it is bumped.
    - Crawler, CrawlLists, CrawlerFacts: the LRU crawler.  Its crawlers are fake items in the
      LRU lists; a simulation shows that the item operations behave as if they were not there, and a
      crawl drops exactly the expired items nobody holds.
    - SlabAutomove: the decision which slab class gives a page to which, over IEEE numbers.
    - Maintainer, MaintainerFacts: the maintainer thread, with the automover it asks; a turn of it
      drops no live item, and neither its pauses nor the waits for the crawler grow beyond their
      bounds.
    - ChunkFacts: reading large values into chunks; their codes are those of the memory behind the
      header of the item, and say nothing about the value.
    - ProtoMeta, MetaFacts, MetaTheorems: the meta commands of proto_text.c (mg, ms, md, ma, me) with
      their flags; a meta get is safe on every line, but asks the tree nothing, and a meta delete
      never matches a CAS number.
    - ProtoAdmin, FlushTheorems: flush_all, verbosity, version, quit and shutdown; a flush hides what
      there is and, where CAS numbers are used, nothing that comes later.
    - ProtoBin, DeltaSafe, BinFacts, BinTheorems: proto_bin.c, all requests but the one for
      statistics.  Whatever bytes arrive, any other request is handled without undefined behaviour and
      leaves a consistent store; values are stored as the specification of the storage commands
      says, and not protected.
    - Drive, DriveTheorems: the state machine of a TCP connection, [drive_machine], over the handlers
      of both protocols and the answers of the socket, errors included: a value is received in
      whatever pieces it comes, a connection that breaks gives its references back, and whole
      sessions run from bytes to bytes.
    - Transmit, TransmitFacts: sending the responses with the vectors of [sendmsg]; whatever part the
      socket takes each time, the bytes of the responses go out in order and all of them, and a
      response over UDP is cut into numbered packets.
    - Authfile, AuthFacts, ProtoAuth, AuthTheorems: authfile.c and the text protocol before a login.
      Who is in the file gets in and nobody else, and before that the store is out of reach; but a
      length of 2^31 makes the server read outside its buffer.
    - StatsPrefix, StatsPrefixFacts: stats_prefix.c; the table refines a map of counters as long as
      no prefix starts with another one of its chain.
    - ObjCache: cache.c, the free list in front of malloc, as a machine with an invariant.
    - Crc32c, Crc32cFacts: crc32c.c; the four implementations agree with the checksum defined bit by
      bit.  The instructions of the processor are the class [CrcUnit] with their law.
    - Workers: the queues through which the main thread and side threads hand connections to the
      workers (thread.c), as a step relation; no item is lost, doubled or slept through.
    - Client, ClientFacts: the load generators (src/src/client).  What load.c sends is read by the
      server's tokenizer as the set commands it is meant to be; the calls a thread makes for its
      virtual machines respect the life of an encrypted guest.
    - SevHelper: the kernel module between the clients and the SEV firmware (src/src/module), and
      what its error paths leave behind.
    - Samples: concrete instances and states on which the theorems are tried.

    ** Bounds and fuel

    Chains of the hash table are followed for at most as many steps as there are items; the loop of
    [lru_pull_tail] has six turns more than there are items, as a turn uses up one of five tries or
    passes a crawler; the loop of a get has a turn for every token and two for every byte of the
    rest of the line; copying to and reading into the chunks of a large value takes a turn or two
    for every byte at most; [drive_machine] has sixteen turns for every byte in the buffer and every
    answer of [sendmsg], twice that for a byte that is still to be read, and ten more; reading from
    the network has six turns; the loop of the crawler has a turn more than there
    are items.  In each case a theorem shows that the loop ends before the fuel does, so
    that running out, which is mapped to undefined behaviour, never happens.  The theorems about
    the tree assume fewer than 2^26 leaves (at that size the C code overflows, which is proved), and
    those about the store that reference counts are below the limit that [limited_get] enforces.
    The work-around [tail_repair_time], which its own comment calls corrupting, is modelled and
    assumed to be off in the theorems about allocation.

    ** Not modelled

    Statistics counters, logging and DTrace probes; the addresses of the chunks of large values (an
    item has the list of their sizes and the contents of all of them; what lies behind the header of a
    large item is an argument where its code is computed, and elsewhere code that takes the header for
    the value is undefined); the slab rebalancer, which moves the pages
    between classes, and the crawler's dump of metadata; the event loop, listening sockets and UDP
    connections in [drive_machine] (sending over UDP is modelled for a response); the statistics of both
    protocols and the commands that steer the background threads; extstore, TLS, SASL and start-up.
    Commands run one at a time: the locks other threads hold are visible as refusals of [item_trylock], but interleavings inside a command are not.

    ** Order of work

    The library was built from the bottom up: the tree and its cryptography, the item store, the text
    protocol and the protection of values, then the other protocols, the state machine of a
    connection, the background threads, and the programs around the server.  The largest part that
    is left is the slab rebalancer: it looks at raw chunks of a page that may be items, parts of large
    items or free, while other threads change them, and needs a model of memory that is shared
    between the slab allocator and the items; here they meet only at the class [SlabAllocator].
    External storage, TLS, SASL, the log and option parsing are mostly calls of the operating system
    and of other libraries. *)

From stdpp Require Export base list list_numbers option.
From Stdlib Require Export ZArith Lia Btauto.

#[export] Set Default Goal Selector "1".
Global Open Scope Z_scope.

(** ** Outcomes of C code

    A C function either returns a value, is stopped by a failing [assert]
    (the library is built without [NDEBUG]), or runs into undefined behaviour:
    a null or dangling pointer is dereferenced, an access leaves its object, an
    object is freed twice, or a signed operation overflows. *)

Inductive outcome (A : Type) : Type :=
| Ret (a : A)
| Abort
| Ub.
Arguments Ret {A} a.
Arguments Abort {A}.
Arguments Ub {A}.

#[export] Instance outcome_ret : MRet outcome := fun A a => Ret a.
#[export] Instance outcome_bind : MBind outcome :=
  fun A B f m => match m with Ret a => f a | Abort => Abort | Ub => Ub end.
#[export] Instance outcome_fmap : FMap outcome :=
  fun A B f m => match m with Ret a => Ret (f a) | Abort => Abort | Ub => Ub end.

Lemma ret_bind {A B} (a : A) (f : A -> outcome B) : (Ret a ≫= f) = f a.
Proof. reflexivity. Qed.

(** Whatever a computation returns satisfies [P]. *)
Definition yields {A} (r : outcome A) (P : A -> Prop) : Prop := forall a, r = Ret a -> P a.

Lemma yields_ret {A} (a : A) (P : A -> Prop) : P a -> yields (Ret a) P.
Proof. by intros H ? [= <-]. Qed.
Lemma yields_bind {A B} (r : outcome A) (f : A -> outcome B) (Q : A -> Prop) (P : B -> Prop) :
  yields r Q -> (forall a, Q a -> yields (f a) P) -> yields (r ≫= f) P.
Proof. intros Hr Hf b Hb. destruct r as [a| |]; try discriminate Hb. exact (Hf a (Hr a eq_refl) b Hb). Qed.
Lemma yields_any {A} (r : outcome A) : yields r (fun _ => True).
Proof. done. Qed.
Lemma yields_ub {A} (P : A -> Prop) : yields Ub P.
Proof. by intros ?. Qed.
Lemma yields_abort {A} (P : A -> Prop) : yields Abort P.
Proof. by intros ?. Qed.

(** [assert(b)] with assertions enabled. *)
Definition c_assert (b : bool) : outcome unit := if b then Ret tt else Abort.

(** A memory access that is defined only when [o] has a value. *)
Definition deref {A} (o : option A) : outcome A :=
  match o with Some a => Ret a | None => Ub end.

(** ** Fixed-width integers *)

Definition u8 (z : Z) : Z := z mod 2 ^ 8.
Definition u16 (z : Z) : Z := z mod 2 ^ 16.
Definition u32 (z : Z) : Z := z mod 2 ^ 32.
Definition u64 (z : Z) : Z := z mod 2 ^ 64.

(** Conversion to a signed 32-bit [int], as the compilers in use define it. *)
Definition i32 (z : Z) : Z := (z + 2 ^ 31) mod 2 ^ 32 - 2 ^ 31.
Definition i64 (z : Z) : Z := (z + 2 ^ 63) mod 2 ^ 64 - 2 ^ 63.

(** C's truth value of a comparison. *)
Definition c_bool (b : bool) : Z := if b then 1 else 0.
(** C's [!x]. *)
Definition c_not (z : Z) : Z := c_bool (z =? 0).

Definition byte_ok (b : Z) : Prop := 0 <= b < 256.
Definition bytes_ok (l : list Z) : Prop := Forall byte_ok l.
Definition word_ok (w : Z) : Prop := 0 <= w < 2 ^ 32.

(** ** Arrays *)

(** [memcpy(&dst[off], src, |src|)] inside one object. *)
Definition splice (dst : list Z) (off : nat) (src : list Z) : list Z :=
  take off dst ++ src ++ drop (off + length src) dst.

(** [src[off .. off+n)]. *)
Definition slice {A} (l : list A) (off n : nat) : list A := take n (drop off l).

(** The result of a signed [int] operation. *)
Definition c_int (z : Z) : outcome Z := if (- 2 ^ 31 <=? z) && (z <? 2 ^ 31) then Ret z else Ub.

(** [memcpy(dst, src, n)] into a fresh array: the bytes read. *)
Definition read_bytes (src : list Z) (n : nat) : outcome (list Z) :=
  if (n <=? length src)%nat then Ret (take n src) else Ub.

(** [memcpy(&dst[off], src, |src|)]. *)
Definition write_bytes (dst : list Z) (off : nat) (src : list Z) : outcome (list Z) :=
  if (off + length src <=? length dst)%nat then Ret (splice dst off src) else Ub.

(** The integer a sequence of bytes stands for, on a little- and on a big-endian machine. *)
Definition le_load (bs : list Z) : Z := foldr (fun b acc => b + 256 * acc) 0 bs.
Definition be_load (bs : list Z) : Z := foldl (fun acc b => 256 * acc + b) 0 bs.

(** Array accesses and exclusive or, as the C code writes them. *)
Declare Scope c_scope.
Delimit Scope c_scope with c.
Notation "a .[ i ]" := (lookup_total (i : nat) a) (at level 1, left associativity, format "a .[ i ]") : c_scope.
Notation "a .[ i <- v ]" := (insert (i : nat) v a) (at level 1, left associativity, format "a .[ i <- v ]") : c_scope.
Notation "a ⊕ b" := (Z.lxor a b) (at level 50, left associativity) : c_scope.

(** A [for (i = lo; i < lo + n; i++)] loop over a state. *)
Definition c_for {S} (lo n : nat) (body : nat -> S -> S) (s : S) : S :=
  foldl (fun s i => body i s) s (seq lo n).
Arguments c_for : simpl never.

(** The list cut into pieces of [k] elements; a shorter rest is dropped. *)
Fixpoint chunks {A} (k fuel : nat) (l : list A) : list (list A) :=
  match fuel with
  | O => []
  | S fuel => take k l :: chunks k fuel (drop k l)
  end.

(** ** Tactics *)

(** Case analysis on the boolean comparisons of [Z] in goal and hypotheses. *)
Ltac zcase :=
  repeat match goal with
  | |- context [Z.eqb ?a ?b] => destruct (Z.eqb_spec a b)
  | |- context [Z.ltb ?a ?b] => destruct (Z.ltb_spec a b)
  | |- context [Z.leb ?a ?b] => destruct (Z.leb_spec a b)
  | H : context [Z.eqb ?a ?b] |- _ => destruct (Z.eqb_spec a b)
  | H : context [Z.ltb ?a ?b] |- _ => destruct (Z.ltb_spec a b)
  | H : context [Z.leb ?a ?b] |- _ => destruct (Z.leb_spec a b)
  end.

(** Linear arithmetic with division and remainder by constants. *)
Ltac zdm := Z.to_euclidean_division_equations; lia.

(** Equality of integers, one bit at a time. *)
Ltac bitwise :=
  apply Z.bits_inj'; intros ?i ?Hi;
  repeat first
    [ rewrite Z.lxor_spec | rewrite Z.land_spec | rewrite Z.lor_spec
    | rewrite Z.lnot_spec by lia
    | rewrite Z.shiftr_spec by lia | rewrite Z.shiftl_spec by lia
    | rewrite Z.bits_0 ].

(** Equations between xor expressions. *)
Ltac xor_solve :=
  bitwise;
  repeat match goal with |- context [Z.testbit ?a ?i] => destruct (Z.testbit a i) end;
  reflexivity.

(** Split a list whose length is a known numeral into its elements. *)
Ltac list_of_length l H :=
  repeat (destruct l as [|? l]; [discriminate H |]; try (simpl in H; apply Nat.succ_inj in H));
  destruct l; [clear H | discriminate H].

(** The bounds of the bytes of a list. *)
Ltac bytes_in_context :=
  repeat match goal with
  | H : bytes_ok (_ :: _) |- _ => apply Forall_cons_1 in H; destruct H as [? H]
  | H : Forall byte_ok (_ :: _) |- _ => apply Forall_cons_1 in H; destruct H as [? H]
  end.

Create HintDb kvsev discriminated.

(** ** Integers *)

Lemma u8_range z : 0 <= u8 z < 256.
Proof. apply Z.mod_pos_bound. lia. Qed.

Lemma u32_range z : 0 <= u32 z < 2 ^ 32.
Proof. apply Z.mod_pos_bound. lia. Qed.

Lemma u64_range z : 0 <= u64 z < 2 ^ 64.
Proof. apply Z.mod_pos_bound. lia. Qed.

Lemma u8_id z : 0 <= z < 256 -> u8 z = z.
Proof. intros. apply Z.mod_small. lia. Qed.

Lemma u32_id z : 0 <= z < 2 ^ 32 -> u32 z = z.
Proof. intros. by apply Z.mod_small. Qed.

Lemma u64_id z : 0 <= z < 2 ^ 64 -> u64 z = z.
Proof. intros. by apply Z.mod_small. Qed.

Lemma i64_id z : - 2 ^ 63 <= z < 2 ^ 63 -> i64 z = z.
Proof. intros. unfold i64. rewrite Z.mod_small; lia. Qed.
Lemma i32_id z : - 2 ^ 31 <= z < 2 ^ 31 -> i32 z = z.
Proof. intros. unfold i32. rewrite Z.mod_small; lia. Qed.

Lemma u32_word_ok z : word_ok (u32 z).
Proof. apply u32_range. Qed.

Lemma u8_byte_ok z : byte_ok (u8 z).
Proof. apply u8_range. Qed.

Lemma u32_add_l x y : u32 (u32 x + y) = u32 (x + y).
Proof. apply Z.add_mod_idemp_l. lia. Qed.
Lemma u32_add_r x y : u32 (x + u32 y) = u32 (x + y).
Proof. apply Z.add_mod_idemp_r. lia. Qed.
Lemma u32_add_sub x y : word_ok x -> u32 (u32 (x + y) - y) = x.
Proof. intros. unfold u32, word_ok in *. zdm. Qed.
#[export] Hint Resolve u8_range u32_range u64_range u32_word_ok u8_byte_ok : kvsev.

(** Bits at or above the width of a non-negative number are clear. *)
Lemma testbit_above a n i : 0 <= a < 2 ^ n -> n <= i -> Z.testbit a i = false.
Proof.
  intros Ha Hi. destruct (Z.ltb_spec i 0); [by apply Z.testbit_neg_r|].
  rewrite <- (Z.mod_small a (2 ^ n)) by done.
  assert (0 <= n) by (destruct (Z.ltb_spec n 0); [rewrite Z.pow_neg_r in Ha; lia|lia]).
  by apply Z.mod_pow2_bits_high.
Qed.

(** A number whose bits at and above [n] are clear is below [2 ^ n]. *)
Lemma bits_bound a n :
  0 <= n -> (forall i, n <= i -> Z.testbit a i = false) -> 0 <= a < 2 ^ n.
Proof.
  intros Hn H. assert (a = a mod 2 ^ n) as ->; [|apply Z.mod_pos_bound; lia].
  apply Z.bits_inj'. intros i Hi. destruct (Z.ltb_spec i n).
  - by rewrite Z.mod_pow2_bits_low.
  - rewrite Z.mod_pow2_bits_high by lia. by apply H.
Qed.

Lemma lxor_bound a b n : 0 <= n -> 0 <= a < 2 ^ n -> 0 <= b < 2 ^ n -> 0 <= Z.lxor a b < 2 ^ n.
Proof.
  intros. apply bits_bound; [done|]. intros.
  rewrite Z.lxor_spec, !(testbit_above _ n) by done. done.
Qed.

Lemma lor_bound a b n : 0 <= n -> 0 <= a < 2 ^ n -> 0 <= b < 2 ^ n -> 0 <= Z.lor a b < 2 ^ n.
Proof.
  intros. apply bits_bound; [done|]. intros.
  rewrite Z.lor_spec, !(testbit_above _ n) by done. done.
Qed.

Lemma land_bound a b n : 0 <= n -> 0 <= a < 2 ^ n -> 0 <= Z.land a b < 2 ^ n.
Proof.
  intros. apply bits_bound; [done|]. intros.
  rewrite Z.land_spec, (testbit_above a n) by done. done.
Qed.

Lemma word_lxor a b : word_ok a -> word_ok b -> word_ok (Z.lxor a b).
Proof. apply (lxor_bound a b 32). lia. Qed.

Lemma lxor_twice x y : Z.lxor (Z.lxor x y) y = x.
Proof. by rewrite Z.lxor_assoc, Z.lxor_nilpotent, Z.lxor_0_r. Qed.

#[export] Hint Resolve word_lxor : kvsev.

Lemma byte_lxor a b : byte_ok a -> byte_ok b -> byte_ok (Z.lxor a b).
Proof. apply (lxor_bound a b 8). lia. Qed.

#[export] Hint Resolve byte_lxor : kvsev.

(** Numbers with no common bit: [lor] is addition. *)
Lemma land_disjoint a b n :
  0 <= n -> 0 <= b < 2 ^ n -> a mod 2 ^ n = 0 -> Z.land a b = 0.
Proof.
  intros Hn Hb Ha. apply Z.bits_inj'. intros i Hi. rewrite Z.land_spec, Z.bits_0.
  destruct (Z.ltb_spec i n).
  - rewrite <- (Z.mod_pow2_bits_low a n), Ha, Z.bits_0 by done. done.
  - rewrite (testbit_above b n) by lia. by rewrite andb_false_r.
Qed.

Lemma lor_disjoint_add a b n :
  0 <= n -> 0 <= b < 2 ^ n -> a mod 2 ^ n = 0 -> Z.lor a b = a + b.
Proof. intros. symmetry. eapply Z.add_nocarry_lor, land_disjoint; eauto. Qed.

Lemma lxor_disjoint_add a b n :
  0 <= n -> 0 <= b < 2 ^ n -> a mod 2 ^ n = 0 -> Z.lxor a b = a + b.
Proof. intros. symmetry. eapply Z.add_nocarry_lxor, land_disjoint; eauto. Qed.

(** ** Loops *)

Lemma c_for_S {S} lo n (body : nat -> S -> S) s :
  c_for lo (Datatypes.S n) body s = body (lo + n)%nat (c_for lo n body s).
Proof. unfold c_for. rewrite seq_S, foldl_app. done. Qed.

(** A loop invariant indexed by the loop counter. *)
Lemma c_for_ind {S} (P : nat -> S -> Prop) lo n body s :
  P lo s ->
  (forall i s, (lo <= i < lo + n)%nat -> P i s -> P (Datatypes.S i) (body i s)) ->
  P (lo + n)%nat (c_for lo n body s).
Proof.
  intros H0 HS. induction n as [|n IH].
  - by rewrite Nat.add_0_r.
  - rewrite c_for_S, Nat.add_succ_r. apply HS; [lia|]. apply IH. intros. apply HS; [lia|done].
Qed.

(** ** Lists *)

Lemma lookup_total_take {A} `{!Inhabited A} (l : list A) n i :
  (i < n)%nat -> take n l !!! i = l !!! i.
Proof. intros. by rewrite !list_lookup_total_alt, lookup_take_lt. Qed.

Lemma take_S_insert {A} (l : list A) i x :
  (i < length l)%nat -> take (S i) (<[i := x]> l) = take i l ++ [x].
Proof.
  intros. rewrite (take_S_r _ _ x) by by apply list_lookup_insert_eq.
  by rewrite take_insert_ge.
Qed.

Lemma Forall_lookup_total {A} `{!Inhabited A} (P : A -> Prop) l i :
  Forall P l -> (i < length l)%nat -> P (l !!! i).
Proof. intros H Hi. eapply Forall_lookup_1; [exact H|]. by apply list_lookup_lookup_total_lt. Qed.

Lemma chunks_concat {A} k (bs : list (list A)) m rest :
  Forall (fun b => length b = k) bs ->
  chunks k (length bs + m) (concat bs ++ rest) = bs ++ chunks k m rest.
Proof.
  induction 1 as [|b bs Hb _ IH]; [done|].
  simpl. rewrite <- app_assoc, <- Hb, take_app_length, drop_app_length, Hb, IH. done.
Qed.

Lemma length_concat_const {A} k (bs : list (list A)) :
  Forall (fun b => length b = k) bs -> length (concat bs) = (length bs * k)%nat.
Proof. induction 1; simpl; [done|]. rewrite length_app. lia. Qed.

Lemma length_splice dst off src :
  (off + length src <= length dst)%nat -> length (splice dst off src) = length dst.
Proof. intros. unfold splice. rewrite !length_app, length_take, length_drop. lia. Qed.

Lemma chunks_prefix {A} k n (l r : list A) :
  (k * n <= length l)%nat -> chunks k n (l ++ r) = chunks k n l.
Proof.
  revert l. induction n as [|n IH]; intros l Hl; [done|]. simpl.
  rewrite take_app_le, drop_app_le by lia. f_equal. apply IH. rewrite length_drop. lia.
Qed.

Lemma length_chunks {A} k n (l : list A) : length (chunks k n l) = n.
Proof. revert l. induction n; intros; simpl; auto. Qed.

Lemma chunks_lookup {A} k n (l : list A) i :
  (i < n)%nat -> chunks k n l !! i = Some (slice l (i * k) k).
Proof.
  revert l i. induction n as [|n IH]; intros l i Hi; [lia|].
  destruct i as [|i]; [done|]. simpl. rewrite IH by lia.
  unfold slice. rewrite drop_drop. f_equal. 
Qed.

(** The elements of a slice, one by one. *)
Lemma slice_elements {A} `{!Inhabited A} (l : list A) off n :
  (off + n <= length l)%nat -> slice l off n = map (fun i => l !!! (off + i)%nat) (seq 0 n).
Proof.
  intros H. apply list_eq. intros i. unfold slice.
  rewrite list_lookup_fmap. destruct (decide (i < n)%nat).
  - rewrite lookup_take_lt, lookup_drop, lookup_seq_lt by lia. simpl.
    by apply list_lookup_lookup_total_lt; lia.
  - rewrite lookup_take_ge, lookup_seq_ge by lia. done.
Qed.

Lemma map_seq_S {A} (f : nat -> A) n : map f (seq 0 (S n)) = map f (seq 0 n) ++ [f n].
Proof. by rewrite seq_S, map_app. Qed.

Lemma bytes_ok_app l k : bytes_ok (l ++ k) <-> bytes_ok l /\ bytes_ok k.
Proof. apply Forall_app. Qed.

Lemma bytes_ok_snoc l b : bytes_ok l -> byte_ok b -> bytes_ok (l ++ [b]).
Proof. intros. apply bytes_ok_app. split; [done|by constructor]. Qed.

Lemma bytes_ok_take n l : bytes_ok l -> bytes_ok (take n l).
Proof. apply Forall_take. Qed.

Lemma bytes_ok_drop n l : bytes_ok l -> bytes_ok (drop n l).
Proof. apply Forall_drop. Qed.

Lemma bytes_ok_zeros n : bytes_ok (replicate n 0).
Proof. apply Forall_replicate. unfold byte_ok. lia. Qed.

Lemma length_snoc {A} (l : list A) x : length (l ++ [x]) = S (length l).
Proof. rewrite length_app. simpl. lia. Qed.

#[export] Hint Resolve bytes_ok_snoc bytes_ok_take bytes_ok_drop bytes_ok_zeros : kvsev.

(** ** Exhaustive checks over a byte *)

Definition all_bytes : list Z := map Z.of_nat (seq 0 256).

Lemma byte_forall (f : Z -> bool) : forallb f all_bytes = true -> forall b, byte_ok b -> f b = true.
Proof.
  intros H b Hb. unfold byte_ok in Hb. rewrite forallb_forall in H. apply H.
  apply in_map_iff. exists (Z.to_nat b). split; [lia|]. apply in_seq. lia.
Qed.

(** An equation between functions of one byte, by evaluation at all 256 arguments. *)
Lemma byte_forall_eq (f g : Z -> Z) :
  forallb (fun b => f b =? g b) all_bytes = true -> forall b, byte_ok b -> f b = g b.
Proof. intros H b Hb. apply Z.eqb_eq. by apply (byte_forall (fun b => f b =? g b)). Qed.

(** A byte-valued function, by evaluation. *)
Lemma byte_forall_ok (f : Z -> Z) :
  forallb (fun b => (0 <=? f b) && (f b <? 256)) all_bytes = true ->
  forall b, byte_ok b -> byte_ok (f b).
Proof.
  intros H b Hb. pose proof (byte_forall _ H b Hb) as E. simpl in E.
  apply andb_true_iff in E as [?%Z.leb_le ?%Z.ltb_lt]. done.
Qed.

(** ** Arrays of equal-sized entries *)

Lemma concat_lookup_slice {A} k (bs : list (list A)) rest i b :
  Forall (fun b => length b = k) bs -> bs !! i = Some b ->
  slice (concat bs ++ rest) (i * k) k = b.
Proof.
  intros Hk Hi. pose proof (lookup_lt_Some _ _ _ Hi) as Hlt.
  pose proof (chunks_concat k bs 0 rest Hk) as E. simpl in E.
  rewrite app_nil_r, Nat.add_0_r in E.
  pose proof (chunks_lookup k (length bs) (concat bs ++ rest) i Hlt) as E2.
  rewrite E, Hi in E2. congruence.
Qed.

Lemma splice_append (l rest src : list Z) :
  splice (l ++ rest) (length l) src = (l ++ src) ++ drop (length src) rest.
Proof.
  unfold splice. rewrite take_app_length, drop_app_add, <- app_assoc. done.
Qed.

Lemma splice_concat_insert k (bs : list (list Z)) rest i src :
  Forall (fun b => length b = k) bs -> (i < length bs)%nat -> length src = k ->
  splice (concat bs ++ rest) (i * k) src = concat (<[i := src]> bs) ++ rest.
Proof.
  intros Hk Hi Hs. rewrite insert_take_drop by done.
  destruct (lookup_lt_is_Some_2 bs i Hi) as [x Hx].
  rewrite <- (take_drop_middle bs i x Hx) at 1.
  rewrite !concat_app. simpl. rewrite <- !app_assoc.
  assert (Forall (fun b => length b = k) (take i bs)) as Hk1 by by apply Forall_take.
  assert (length (concat (take i bs)) = (i * k)%nat) as Hl
    by (rewrite (length_concat_const k), length_take by done; f_equal; lia).
  unfold splice. rewrite <- Hl at 1. rewrite take_app_length. f_equal. f_equal.
  rewrite <- Hl, drop_app_add.
  assert (length x = k) as Hxk by (eapply (Forall_lookup_1 _ _ _ _ Hk Hx)).
  rewrite Hs, <- Hxk, drop_app_length. done.
Qed.

(** ** Buffers *)

Lemma mapM_ret {A B} (f : A -> outcome B) (g : A -> B) (l : list A) :
  (forall x, x ∈ l -> f x = Ret (g x)) -> mapM f l = Ret (map g l).
Proof.
  induction l as [|x l IH]; intros Hf; [done|]. cbn [mapM]. rewrite Hf by left.
  cbn [mbind outcome_bind]. by rewrite IH by (intros; apply Hf; by right).
Qed.

Lemma read_bytes_ok l n : (n <= length l)%nat -> read_bytes l n = Ret (take n l).
Proof. intros Hn. unfold read_bytes. by rewrite (proj2 (Nat.leb_le _ _)). Qed.

Lemma c_int_ok z : - 2 ^ 31 <= z < 2 ^ 31 -> c_int z = Ret z.
Proof. intros Hz. unfold c_int. by rewrite (proj2 (Z.leb_le _ _)), (proj2 (Z.ltb_lt _ _)) by lia. Qed.

Lemma splice_nil dst off : splice dst off [] = dst.
Proof. unfold splice. rewrite Nat.add_0_r. apply take_drop. Qed.

Lemma splice_app dst off a b :
  (off + length a <= length dst)%nat ->
  splice (splice dst off a) (off + length a) b = splice dst off (a ++ b).
Proof.
  intros Hl. unfold splice. set (D := drop (off + length a) dst).
  assert (length (take off dst ++ a) = off + length a)%nat as Ht
    by (rewrite length_app, length_take; lia).
  rewrite (app_assoc (take off dst) a D), <- Ht, take_app_length, <- !(app_assoc _ a), <- (app_assoc a b).
  do 3 f_equal.
  rewrite (app_assoc (take off dst) a D), drop_app_add. unfold D. rewrite drop_drop, length_app. f_equal. lia.
Qed.

Lemma write_bytes_ok dst off src :
  (off + length src <= length dst)%nat -> write_bytes dst off src = Ret (splice dst off src).
Proof. intros Hl. unfold write_bytes. by rewrite (proj2 (Nat.leb_le _ _)). Qed.

Lemma splice_all out src : (length src <= length out)%nat -> splice out 0 src = src ++ drop (length src) out.
Proof. done. Qed.

(** A boolean function of two bytes, by evaluation. *)
Lemma byte_forall2 (f : Z -> Z -> bool) :
  forallb (fun a => forallb (f a) all_bytes) all_bytes = true ->
  forall a b, byte_ok a -> byte_ok b -> f a b = true.
Proof.
  intros H a b Ha Hb. apply (byte_forall (f a)); [|done].
  by apply (byte_forall (fun a => forallb (f a) all_bytes)).
Qed.

Lemma byte_forall2_eq (f g : Z -> Z -> Z) :
  forallb (fun a => forallb (fun b => f a b =? g a b) all_bytes) all_bytes = true ->
  forall a b, byte_ok a -> byte_ok b -> f a b = g a b.
Proof. intros H a b Ha Hb. apply Z.eqb_eq. by apply (byte_forall2 (fun a b => f a b =? g a b)). Qed.
