(* ===== verification/Sha256.v ===== *)
(** * SHA-224 and SHA-256 (src/src/merkle/sha224-256.c, sha.h)

    The streaming implementation of RFC 4634 that hashes the nodes of the Merkle
    tree: the context structure, the compression of one block, the input loop with
    its 64-bit length counter, the padding and the result functions. *)

From S2P Require Import Prelude.

(** ** Return codes and constants (sha.h) *)

Definition shaSuccess : Z := 0.
Definition shaNull : Z := 1.
Definition shaInputTooLong : Z := 2.
Definition shaStateError : Z := 3.
Definition shaBadParam : Z := 4.

Definition SHA256_Message_Block_Size : nat := 64.
Definition SHA224HashSize : nat := 28.
Definition SHA256HashSize : nat := 32.

(** ** The context *)

Record SHA256Context := mkSHA256Context {
  Intermediate_Hash : list Z;
  Length_Low : Z;
  Length_High : Z;
  Message_Block_Index : nat;
  Message_Block : list Z;
  Computed : Z;
  Corrupted : Z
}.

Definition with_block (b : list Z) (i : nat) (c : SHA256Context) : SHA256Context :=
  mkSHA256Context (Intermediate_Hash c) (Length_Low c) (Length_High c) i b
    (Computed c) (Corrupted c).

Definition with_corrupted (e : Z) (c : SHA256Context) : SHA256Context :=
  mkSHA256Context (Intermediate_Hash c) (Length_Low c) (Length_High c)
    (Message_Block_Index c) (Message_Block c) (Computed c) e.

(** ** Word operations *)

Definition SHA256_SHR (bits word : Z) : Z := Z.shiftr word bits.
Definition SHA256_ROTL (bits word : Z) : Z :=
  Z.lor (u32 (Z.shiftl word bits)) (Z.shiftr word (32 - bits)).
Definition SHA256_ROTR (bits word : Z) : Z :=
  Z.lor (Z.shiftr word bits) (u32 (Z.shiftl word (32 - bits))).

Definition SHA256_SIGMA0 (word : Z) : Z :=
  Z.lxor (Z.lxor (SHA256_ROTR 2 word) (SHA256_ROTR 13 word)) (SHA256_ROTR 22 word).
Definition SHA256_SIGMA1 (word : Z) : Z :=
  Z.lxor (Z.lxor (SHA256_ROTR 6 word) (SHA256_ROTR 11 word)) (SHA256_ROTR 25 word).
Definition SHA256_sigma0 (word : Z) : Z :=
  Z.lxor (Z.lxor (SHA256_ROTR 7 word) (SHA256_ROTR 18 word)) (SHA256_SHR 3 word).
Definition SHA256_sigma1 (word : Z) : Z :=
  Z.lxor (Z.lxor (SHA256_ROTR 17 word) (SHA256_ROTR 19 word)) (SHA256_SHR 10 word).

Definition SHA_Ch (x y z : Z) : Z := Z.lxor (Z.land x y) (Z.land (u32 (Z.lnot x)) z).
Definition SHA_Maj (x y z : Z) : Z :=
  Z.lxor (Z.lxor (Z.land x y) (Z.land x z)) (Z.land y z).

(** [SHA224_256AddLength]: add to the 64-bit length held in two words; the macro's
    value is the new [Corrupted] flag. *)
Definition SHA224_256AddLength (c : SHA256Context) (length : Z) : SHA256Context :=
  let addTemp := Length_Low c in
  let low := u32 (Length_Low c + length) in
  let high := if low <? addTemp then u32 (Length_High c + 1) else Length_High c in
  let corrupted := c_bool ((low <? addTemp) && (high =? 0)) in
  mkSHA256Context (Intermediate_Hash c) low high (Message_Block_Index c)
    (Message_Block c) (Computed c) corrupted.

Definition SHA224_H0 : list Z :=
  [0xC1059ED8; 0x367CD507; 0x3070DD17; 0xF70E5939;
   0xFFC00B31; 0x68581511; 0x64F98FA7; 0xBEFA4FA4].

Definition SHA256_H0 : list Z :=
  [0x6A09E667; 0xBB67AE85; 0x3C6EF372; 0xA54FF53A;
   0x510E527F; 0x9B05688C; 0x1F83D9AB; 0x5BE0CD19].

(** [K], row by row as in the source. *)
Definition sha256_K : list Z := Eval cbv in concat [
  [0x428a2f98; 0x71374491; 0xb5c0fbcf; 0xe9b5dba5; 0x3956c25b];
  [0x59f111f1; 0x923f82a4; 0xab1c5ed5; 0xd807aa98; 0x12835b01];
  [0x243185be; 0x550c7dc3; 0x72be5d74; 0x80deb1fe; 0x9bdc06a7];
  [0xc19bf174; 0xe49b69c1; 0xefbe4786; 0x0fc19dc6; 0x240ca1cc];
  [0x2de92c6f; 0x4a7484aa; 0x5cb0a9dc; 0x76f988da; 0x983e5152];
  [0xa831c66d; 0xb00327c8; 0xbf597fc7; 0xc6e00bf3; 0xd5a79147];
  [0x06ca6351; 0x14292967; 0x27b70a85; 0x2e1b2138; 0x4d2c6dfc];
  [0x53380d13; 0x650a7354; 0x766a0abb; 0x81c2c92e; 0x92722c85];
  [0xa2bfe8a1; 0xa81a664b; 0xc24b8b70; 0xc76c51a3; 0xd192e819];
  [0xd6990624; 0xf40e3585; 0x106aa070; 0x19a4c116; 0x1e376c08];
  [0x2748774c; 0x34b0bcb5; 0x391c0cb3; 0x4ed8aa4a; 0x5b9cca4f];
  [0x682e6ff3; 0x748f82ee; 0x78a5636f; 0x84c87814; 0x8cc70208];
  [0x90befffa; 0xa4506ceb; 0xbef9a3f7; 0xc67178f2]
].

(** ** Compression of the block held in the context *)

(** The word [W[t]] read big-endian from bytes [4t .. 4t+3]. *)
Definition load_word (block : list Z) (t4 : nat) : Z :=
  Z.lor (Z.lor (Z.lor (u32 (Z.shiftl (block !!! t4) 24))
                      (u32 (Z.shiftl (block !!! (t4 + 1)%nat) 16)))
               (u32 (Z.shiftl (block !!! (t4 + 2)%nat) 8)))
        (block !!! (t4 + 3)%nat).

Definition message_schedule (block : list Z) : list Z :=
  let W := c_for 0 16 (fun t W => <[t := load_word block (4 * t)]> W) (replicate 64 0) in
  c_for 16 48 (fun t W =>
    <[t := u32 (SHA256_sigma1 (W !!! (t - 2)%nat) + W !!! (t - 7)%nat
                + SHA256_sigma0 (W !!! (t - 15)%nat) + W !!! (t - 16)%nat)]> W) W.

(** The eight working variables. *)
Record vars := mkVars { vA : Z; vB : Z; vC : Z; vD : Z; vE : Z; vF : Z; vG : Z; vH : Z }.

Definition sha_round (W : list Z) (t : nat) (v : vars) : vars :=
  let temp1 := u32 (vH v + SHA256_SIGMA1 (vE v) + SHA_Ch (vE v) (vF v) (vG v)
                    + sha256_K !!! t + W !!! t) in
  let temp2 := u32 (SHA256_SIGMA0 (vA v) + SHA_Maj (vA v) (vB v) (vC v)) in
  mkVars (u32 (temp1 + temp2)) (vA v) (vB v) (vC v) (u32 (vD v + temp1)) (vE v) (vF v) (vG v).

Definition load_vars (h : list Z) : vars :=
  mkVars (h !!! 0%nat) (h !!! 1%nat) (h !!! 2%nat) (h !!! 3%nat)
         (h !!! 4%nat) (h !!! 5%nat) (h !!! 6%nat) (h !!! 7%nat).

(** [Intermediate_Hash[i] += ...]. *)
Definition add_at (i : nat) (w : Z) (h : list Z) : list Z := <[i := u32 (h !!! i + w)]> h.

Definition add_vars (v : vars) (h : list Z) : list Z :=
  add_at 7 (vH v) (add_at 6 (vG v) (add_at 5 (vF v) (add_at 4 (vE v)
    (add_at 3 (vD v) (add_at 2 (vC v) (add_at 1 (vB v) (add_at 0 (vA v) h))))))).

Definition SHA224_256ProcessMessageBlock (c : SHA256Context) : SHA256Context :=
  let W := message_schedule (Message_Block c) in
  let v := c_for 0 64 (sha_round W) (load_vars (Intermediate_Hash c)) in
  mkSHA256Context (add_vars v (Intermediate_Hash c)) (Length_Low c) (Length_High c) 0
    (Message_Block c) (Computed c) (Corrupted c).

Arguments message_schedule : simpl never.
Arguments SHA224_256ProcessMessageBlock : simpl never.

(** ** Input *)

(** [context->Message_Block[context->Message_Block_Index++] = b]. *)
Definition put_byte (b : Z) (c : SHA256Context) : outcome SHA256Context :=
  let i := Message_Block_Index c in
  if (i <? SHA256_Message_Block_Size)%nat
  then Ret (with_block (<[i := b]> (Message_Block c)) (S i) c)
  else Ub.

Fixpoint SHA256Input_loop (length : nat) (message_array : list Z) (c : SHA256Context)
  : outcome SHA256Context :=
  match length with
  | O => Ret c
  | S length =>
    if negb (Corrupted c =? 0) then Ret c else
    match message_array with
    | [] => Ub
    | b :: message_array =>
      c ← put_byte (Z.land b 0xFF) c;
      let c := SHA224_256AddLength c 8 in
      let c := if (Corrupted c =? 0) &&
                  (Message_Block_Index c =? SHA256_Message_Block_Size)%nat
               then SHA224_256ProcessMessageBlock c else c in
      SHA256Input_loop length message_array c
    end
  end.

Definition SHA256Input (context : option SHA256Context) (message_array : option (list Z))
    (length : nat) : outcome (Z * option SHA256Context) :=
  if (length =? 0)%nat then Ret (shaSuccess, context) else
  match context, message_array with
  | Some c, Some msg =>
    if negb (Computed c =? 0) then
      Ret (shaStateError, Some (with_corrupted shaStateError c)) else
    if negb (Corrupted c =? 0) then Ret (Corrupted c, Some c) else
    c ← SHA256Input_loop length msg c;
    Ret (shaSuccess, Some c)
  | _, _ => Ret (shaNull, context)
  end.

(** ** Padding and result *)

(** [while (Message_Block_Index < limit) Message_Block[Message_Block_Index++] = 0]. *)
Fixpoint pad_zeros (n : nat) (c : SHA256Context) : outcome SHA256Context :=
  match n with
  | O => Ret c
  | S n => c ← put_byte 0 c; pad_zeros n c
  end.

Definition store_length (c : SHA256Context) : SHA256Context :=
  let hi := Length_High c in
  let lo := Length_Low c in
  let b := Message_Block c in
  let b := <[56%nat := u8 (Z.shiftr hi 24)]> b in
  let b := <[57%nat := u8 (Z.shiftr hi 16)]> b in
  let b := <[58%nat := u8 (Z.shiftr hi 8)]> b in
  let b := <[59%nat := u8 hi]> b in
  let b := <[60%nat := u8 (Z.shiftr lo 24)]> b in
  let b := <[61%nat := u8 (Z.shiftr lo 16)]> b in
  let b := <[62%nat := u8 (Z.shiftr lo 8)]> b in
  let b := <[63%nat := u8 lo]> b in
  with_block b (Message_Block_Index c) c.

Definition SHA224_256PadMessage (c : SHA256Context) (Pad_Byte : Z) : outcome SHA256Context :=
  c ← (if (SHA256_Message_Block_Size - 8 <=? Message_Block_Index c)%nat then
         c ← put_byte Pad_Byte c;
         c ← pad_zeros (SHA256_Message_Block_Size - Message_Block_Index c) c;
         Ret (SHA224_256ProcessMessageBlock c)
       else put_byte Pad_Byte c);
  c ← pad_zeros (SHA256_Message_Block_Size - 8 - Message_Block_Index c) c;
  Ret (SHA224_256ProcessMessageBlock (store_length c)).

Definition SHA224_256Finalize (c : SHA256Context) (Pad_Byte : Z) : outcome SHA256Context :=
  c ← SHA224_256PadMessage c Pad_Byte;
  Ret (mkSHA256Context (Intermediate_Hash c) 0 0 (Message_Block_Index c)
         (c_for 0 SHA256_Message_Block_Size (fun i b => <[i := 0]> b) (Message_Block c))
         1 (Corrupted c)).

Definition masks : list Z := [0x00; 0x80; 0xC0; 0xE0; 0xF0; 0xF8; 0xFC; 0xFE].
Definition markbit : list Z := [0x80; 0x40; 0x20; 0x10; 0x08; 0x04; 0x02; 0x01].

Definition SHA256FinalBits (context : option SHA256Context) (message_bits : Z)
    (length : nat) : outcome (Z * option SHA256Context) :=
  if (length =? 0)%nat then Ret (shaSuccess, context) else
  match context with
  | None => Ret (shaNull, None)
  | Some c =>
    if negb (Computed c =? 0) || (8 <=? length)%nat || (length =? 0)%nat then
      Ret (shaStateError, Some (with_corrupted shaStateError c)) else
    if negb (Corrupted c =? 0) then Ret (Corrupted c, Some c) else
    let c := SHA224_256AddLength c (Z.of_nat length) in
    c ← SHA224_256Finalize c
          (u8 (Z.lor (Z.land message_bits (masks !!! length)) (markbit !!! length)));
    Ret (shaSuccess, Some c)
  end.

Definition SHA224_256Reset (context : option SHA256Context) (H0 : list Z)
  : Z * option SHA256Context :=
  match context with
  | None => (shaNull, None)
  | Some c =>
    (shaSuccess,
     Some (mkSHA256Context
             [H0 !!! 0%nat; H0 !!! 1%nat; H0 !!! 2%nat; H0 !!! 3%nat;
              H0 !!! 4%nat; H0 !!! 5%nat; H0 !!! 6%nat; H0 !!! 7%nat]
             0 0 0 (Message_Block c) 0 0))
  end.

(** [Message_Digest] says whether the caller's array pointer is non-null; the bytes
    written to the array are returned beside the code (none on an error). *)
Definition SHA224_256ResultN (context : option SHA256Context) (Message_Digest : bool)
    (HashSize : nat) : outcome (Z * option SHA256Context * list Z) :=
  match context, Message_Digest with
  | Some c, true =>
    if negb (Corrupted c =? 0) then Ret (Corrupted c, Some c, []) else
    c ← (if Computed c =? 0 then SHA224_256Finalize c 0x80 else Ret c);
    Ret (shaSuccess, Some c,
         map (fun i => u8 (Z.shiftr (Intermediate_Hash c !!! (i / 4)%nat)
                                    (8 * (3 - Z.land (Z.of_nat i) 0x03))))
             (seq 0 HashSize))
  | _, _ => Ret (shaNull, context, [])
  end.

Definition SHA256Reset (context : option SHA256Context) := SHA224_256Reset context SHA256_H0.
Definition SHA224Reset (context : option SHA256Context) := SHA224_256Reset context SHA224_H0.
Definition SHA224Input := SHA256Input.
Definition SHA224FinalBits := SHA256FinalBits.
Definition SHA256Result (context : option SHA256Context) (Message_Digest : bool) :=
  SHA224_256ResultN context Message_Digest SHA256HashSize.
Definition SHA224Result (context : option SHA256Context) (Message_Digest : bool) :=
  SHA224_256ResultN context Message_Digest SHA224HashSize.

(** A caller's session: reset, a sequence of inputs, the result. *)
Fixpoint sha_inputs (parts : list (list Z)) (c : option SHA256Context)
  : outcome (Z * option SHA256Context) :=
  match parts with
  | [] => Ret (shaSuccess, c)
  | p :: parts =>
    '(r, c) ← SHA256Input c (Some p) (length p);
    if r =? shaSuccess then sha_inputs parts c else Ret (r, c)
  end.

(** A session on a context [c0] with arbitrary contents, as it lies on the stack. *)
Definition sha256_session (c0 : SHA256Context) (parts : list (list Z)) : outcome (Z * list Z) :=
  let '(_, c) := SHA256Reset (Some c0) in
  '(r, c) ← sha_inputs parts c;
  if r =? shaSuccess then
    '(r, _, d) ← SHA256Result c true;
    Ret (r, d)
  else Ret (r, []).
