(* ===== verification/Sha256Facts.v ===== *)
(** * SHA-256: FIPS 180-2 and the streaming code

    [sha256] is the standard on whole messages: padding to a multiple of 512 bits,
    the message schedule and 64 rounds per block.  The theorems show that reset,
    any sequence of inputs and the result compute it (below the 2^64-bit limit),
    and what the code does outside that use: input after the result, final bits,
    null pointers and length overflow. *)

From S2P Require Import Prelude Sha256.

(** ** FIPS 180-2, section 4.1.2 and 6.2 *)

Definition rotr (n x : Z) : Z := x / 2 ^ n + (x mod 2 ^ n) * 2 ^ (32 - n).
Definition shr (n x : Z) : Z := x / 2 ^ n.
Definition Ch (x y z : Z) : Z := Z.lor (Z.land x y) (Z.ldiff z x).
Definition Maj (x y z : Z) : Z := Z.lor (Z.lor (Z.land x y) (Z.land x z)) (Z.land y z).
Definition Sigma0 (x : Z) : Z := Z.lxor (Z.lxor (rotr 2 x) (rotr 13 x)) (rotr 22 x).
Definition Sigma1 (x : Z) : Z := Z.lxor (Z.lxor (rotr 6 x) (rotr 11 x)) (rotr 25 x).
Definition sigma0 (x : Z) : Z := Z.lxor (Z.lxor (rotr 7 x) (rotr 18 x)) (shr 3 x).
Definition sigma1 (x : Z) : Z := Z.lxor (Z.lxor (rotr 17 x) (rotr 19 x)) (shr 10 x).

(** Big-endian value of a byte string. *)
Definition be_value (l : list Z) : Z := foldl (fun acc b => acc * 256 + b) 0 l.

(** The [n] low bytes of [z], most significant first. *)
Fixpoint be_bytes (n : nat) (z : Z) : list Z :=
  match n with
  | O => []
  | S n => be_bytes n (z / 256) ++ [z mod 256]
  end.

(** Append words to the schedule until [n] more are there. *)
Fixpoint extend_schedule (n : nat) (W : list Z) : list Z :=
  match n with
  | O => W
  | S n =>
    let t := length W in
    extend_schedule n
      (W ++ [(sigma1 (W !!! (t - 2)%nat) + W !!! (t - 7)%nat
              + sigma0 (W !!! (t - 15)%nat) + W !!! (t - 16)%nat) mod 2 ^ 32])
  end.

Definition schedule (block : list Z) : list Z :=
  extend_schedule 48 (map be_value (chunks 4 16 block)).

Definition fips_round (v : vars) (kw : Z * Z) : vars :=
  let '(mkVars a b c d e f g h) := v in
  let T1 := (h + Sigma1 e + Ch e f g + kw.1 + kw.2) mod 2 ^ 32 in
  let T2 := (Sigma0 a + Maj a b c) mod 2 ^ 32 in
  mkVars ((T1 + T2) mod 2 ^ 32) a b c ((d + T1) mod 2 ^ 32) e f g.

Definition compress (H : list Z) (block : list Z) : list Z :=
  match H with
  | [h0; h1; h2; h3; h4; h5; h6; h7] =>
    let '(mkVars a b c d e f g h) :=
      foldl fips_round (mkVars h0 h1 h2 h3 h4 h5 h6 h7) (zip sha256_K (schedule block)) in
    map (fun p => (p.1 + p.2) mod 2 ^ 32) (zip H [a; b; c; d; e; f; g; h])
  | _ => H
  end.

Arguments schedule : simpl never.
Arguments be_bytes : simpl never.
Arguments compress : simpl never.

(** Padding: the last byte with the marker bit, zeros to 448 modulo 512 bits, and the
    64-bit length. *)
Definition pad_message (msg : list Z) (last : Z) (nbits : Z) : list Z :=
  msg ++ [last] ++ replicate (Z.to_nat ((55 - Z.of_nat (length msg)) mod 64)) 0
  ++ be_bytes 8 nbits.

Definition hash_message (H0 : list Z) (padded : list Z) : list Z :=
  foldl compress H0 (chunks 64 (length padded / 64) padded).

Definition digest_bytes (H : list Z) : list Z := concat (map (be_bytes 4) H).

Definition sha256 (msg : list Z) : list Z :=
  digest_bytes (hash_message SHA256_H0 (pad_message msg 0x80 (8 * Z.of_nat (length msg)))).

(** ** Words *)

Lemma ROTR_rotr n x : 0 < n < 32 -> word_ok x -> SHA256_ROTR n x = rotr n x.
Proof.
  intros Hn Hx. unfold SHA256_ROTR, rotr, u32.
  rewrite Z.shiftr_div_pow2, Z.shiftl_mul_pow2 by lia.
  assert (2 ^ 32 = 2 ^ n * 2 ^ (32 - n)) as E by (rewrite <- Z.pow_add_r by lia; f_equal; lia).
  rewrite E, Z.mul_mod_distr_r by lia.
  rewrite Z.lor_comm, (lor_disjoint_add _ _ (32 - n)).
  - lia.
  - lia.
  - split; [apply Z.div_pos; unfold word_ok in *; lia|].
    apply Z.div_lt_upper_bound; [lia|]. rewrite <- E. apply Hx.
  - apply Z.mod_mul. lia.
Qed.

Lemma rotr_word_ok n x : 0 < n < 32 -> word_ok x -> word_ok (rotr n x).
Proof.
  intros Hn Hx. rewrite <- ROTR_rotr by done. apply lor_bound; [lia| |apply u32_range].
  rewrite Z.shiftr_div_pow2 by lia. unfold word_ok in Hx.
  split; [apply Z.div_pos; lia|].
  apply Z.div_lt_upper_bound; [lia|]. nia.
Qed.

Lemma SIGMA0_Sigma0 x : word_ok x -> SHA256_SIGMA0 x = Sigma0 x.
Proof. intros. unfold SHA256_SIGMA0, Sigma0. by rewrite !ROTR_rotr by (done || lia). Qed.

Lemma SIGMA1_Sigma1 x : word_ok x -> SHA256_SIGMA1 x = Sigma1 x.
Proof. intros. unfold SHA256_SIGMA1, Sigma1. by rewrite !ROTR_rotr by (done || lia). Qed.

Lemma sigma0_spec x : word_ok x -> SHA256_sigma0 x = sigma0 x.
Proof.
  intros. unfold SHA256_sigma0, sigma0, SHA256_SHR, shr.
  rewrite !ROTR_rotr, Z.shiftr_div_pow2 by (done || lia). done.
Qed.

Lemma sigma1_spec x : word_ok x -> SHA256_sigma1 x = sigma1 x.
Proof.
  intros. unfold SHA256_sigma1, sigma1, SHA256_SHR, shr.
  rewrite !ROTR_rotr, Z.shiftr_div_pow2 by (done || lia). done.
Qed.

Lemma Ch_spec x y z : word_ok x -> word_ok z -> SHA_Ch x y z = Ch x y z.
Proof.
  intros Hx Hz. unfold SHA_Ch, Ch. bitwise. rewrite Z.ldiff_spec.
  destruct (Z.ltb_spec i 32).
  - unfold u32. rewrite Z.mod_pow2_bits_low, Z.lnot_spec by lia. btauto.
  - rewrite (testbit_above z 32) by done. btauto.
Qed.

Lemma Maj_spec x y z : SHA_Maj x y z = Maj x y z.
Proof. unfold SHA_Maj, Maj. bitwise. btauto. Qed.

(** ** Blocks *)

Lemma be_value_4 a b c d : be_value [a; b; c; d] = ((a * 256 + b) * 256 + c) * 256 + d.
Proof. unfold be_value. simpl. lia. Qed.

Lemma load_word_4 block t4 :
  bytes_ok block -> (t4 + 4 <= length block)%nat ->
  load_word block t4 =
  be_value [block !!! t4; block !!! (t4 + 1)%nat; block !!! (t4 + 2)%nat; block !!! (t4 + 3)%nat].
Proof.
  intros Hb Hl. rewrite be_value_4. unfold load_word.
  pose proof (Forall_lookup_total _ _ t4 Hb) as H0.
  pose proof (Forall_lookup_total _ _ (t4 + 1) Hb) as H1.
  pose proof (Forall_lookup_total _ _ (t4 + 2) Hb) as H2.
  pose proof (Forall_lookup_total _ _ (t4 + 3) Hb) as H3.
  unfold byte_ok in *.
  specialize (H0 ltac:(lia)). specialize (H1 ltac:(lia)).
  specialize (H2 ltac:(lia)). specialize (H3 ltac:(lia)).
  rewrite !Z.shiftl_mul_pow2, !u32_id by lia.
  rewrite (lor_disjoint_add _ (_ * 2 ^ 16) 24), (lor_disjoint_add _ (_ * 2 ^ 8) 16),
    (lor_disjoint_add _ _ 8); zdm.
Qed.

Lemma load_word_ok block t4 :
  bytes_ok block -> (t4 + 4 <= length block)%nat -> word_ok (load_word block t4).
Proof.
  intros Hb Hl. rewrite load_word_4, be_value_4 by done. unfold word_ok.
  pose proof (Forall_lookup_total _ _ t4 Hb ltac:(lia)).
  pose proof (Forall_lookup_total _ _ (t4 + 1) Hb ltac:(lia)).
  pose proof (Forall_lookup_total _ _ (t4 + 2) Hb ltac:(lia)).
  pose proof (Forall_lookup_total _ _ (t4 + 3) Hb ltac:(lia)).
  unfold byte_ok in *. lia.
Qed.

Lemma length_extend_schedule n W : length (extend_schedule n W) = (length W + n)%nat.
Proof.
  revert W. induction n as [|n IH]; intros W; simpl; [lia|].
  rewrite IH, length_app. simpl. lia.
Qed.

Lemma extend_schedule_S n W :
  extend_schedule (S n) W =
  let W := extend_schedule n W in
  let t := length W in
  W ++ [(sigma1 (W !!! (t - 2)%nat) + W !!! (t - 7)%nat
         + sigma0 (W !!! (t - 15)%nat) + W !!! (t - 16)%nat) mod 2 ^ 32].
Proof.
  revert W. induction n as [|n IH]; intros W; [done|].
  change (extend_schedule (S (S n)) W) with (extend_schedule (S n) (extend_schedule 1 W)).
  rewrite IH. done.
Qed.

Lemma extend_schedule_words n W :
  Forall word_ok W -> Forall word_ok (extend_schedule n W).
Proof.
  revert W. induction n as [|n IH]; intros W HW; [done|].
  simpl. apply IH. apply Forall_app. split; [done|]. constructor; [|done]. apply u32_range.
Qed.

Lemma load_loop block :
  length block = 64%nat -> bytes_ok block ->
  let W := c_for 0 16 (fun t W => <[t := load_word block (4 * t)]> W) (replicate 64 0) in
  length W = 64%nat /\ take 16 W = map be_value (chunks 4 16 block).
Proof.
  intros Hl Hb.
  assert (map be_value (chunks 4 16 block) =
          map (fun t => load_word block (4 * t)) (seq 0 16)) as ->.
  { apply list_eq. intros i. rewrite !list_lookup_fmap. destruct (decide (i < 16)%nat).
    - rewrite chunks_lookup, lookup_seq_lt by done. simpl. f_equal.
      rewrite load_word_4 by (done || lia). rewrite slice_elements by lia. cbn [map seq].
      by rewrite (Nat.mul_comm i 4), Nat.add_0_r.
    - rewrite lookup_ge_None_2, lookup_seq_ge by (rewrite ?length_chunks; lia). done. }
  apply (c_for_ind (fun t W => length W = 64%nat /\
           take t W = map (fun t => load_word block (4 * t)) (seq 0 t))).
  - done.
  - intros i W Hi [HW Ht]. rewrite length_insert. split; [done|].
    rewrite take_S_insert, map_seq_S, Ht by lia. done.
Qed.

Lemma message_schedule_spec block :
  length block = 64%nat -> bytes_ok block -> message_schedule block = schedule block.
Proof.
  intros Hl Hb. unfold message_schedule, schedule.
  destruct (load_loop block Hl Hb) as [HW0 H16].
  set (W0 := c_for 0 16 _ _) in *. set (S0 := map be_value _) in *.
  assert (length S0 = 16%nat) as HS0 by (unfold S0; by rewrite length_map, length_chunks).
  assert (Forall word_ok S0) as HwS0.
  { apply Forall_lookup. intros i x Hx.
    unfold S0 in Hx. rewrite list_lookup_fmap in Hx.
    apply fmap_Some in Hx as (c & Hc & ->).
    assert (i < 16)%nat by (apply lookup_lt_Some in Hc; by rewrite length_chunks in Hc).
    rewrite chunks_lookup in Hc by done. injection Hc as <-.
    rewrite slice_elements by lia. simpl.
    rewrite Nat.add_0_r, <- load_word_4 by (done || lia). apply load_word_ok; [done|lia]. }
  enough (forall W, (length W = 64%nat /\ take (16 + 48) W = extend_schedule (16 + 48 - 16) S0)
                    -> W = extend_schedule 48 S0) as Hend.
  { apply Hend.
    apply (c_for_ind (fun t W => length W = 64%nat /\ take t W = extend_schedule (t - 16) S0)).
    - done.
    - intros t W Ht [HW Htk]. rewrite length_insert. split; [done|].
      rewrite take_S_insert by lia.
      replace (S t - 16)%nat with (S (t - 16)) by lia.
      rewrite extend_schedule_S. simpl. rewrite <- Htk.
      rewrite length_take, HW. replace (t `min` 64)%nat with t by lia.
      assert (forall k, (0 < k <= 16)%nat -> word_ok (W !!! (t - k)%nat)) as Hok.
      { intros k Hk. rewrite <- (lookup_total_take W t) by lia. rewrite Htk.
        apply Forall_lookup_total; [by apply extend_schedule_words|].
        rewrite length_extend_schedule. lia. }
      rewrite !lookup_total_take by lia.
      rewrite sigma1_spec, sigma0_spec by (apply Hok; lia). done. }
  intros W [HW Htk]. rewrite take_ge in Htk by lia. done.
Qed.

Definition vars_ok (v : vars) : Prop :=
  word_ok (vA v) /\ word_ok (vB v) /\ word_ok (vC v) /\ word_ok (vD v) /\
  word_ok (vE v) /\ word_ok (vF v) /\ word_ok (vG v) /\ word_ok (vH v).

Lemma fips_round_ok v kw : vars_ok v -> vars_ok (fips_round v kw).
Proof.
  destruct v. unfold vars_ok, fips_round. simpl. intros (?&?&?&?&?&?&?&?).
  repeat split; try apply u32_range; unfold word_ok in *; lia.
Qed.

Lemma sha_round_spec W t v :
  vars_ok v -> sha_round W t v = fips_round v (sha256_K !!! t, W !!! t).
Proof.
  destruct v. unfold vars_ok. simpl. intros (?&?&?&?&?&?&?&?).
  unfold sha_round, fips_round, u32. simpl.
  by rewrite SIGMA1_Sigma1, SIGMA0_Sigma0, Ch_spec, Maj_spec by done.
Qed.

Lemma foldl_zip_take W v n :
  length W = 64%nat -> (n <= 64)%nat -> vars_ok v ->
  c_for 0 n (sha_round W) v = foldl fips_round v (take n (zip sha256_K W)) /\
  vars_ok (c_for 0 n (sha_round W) v).
Proof.
  intros HW Hn Hv. induction n as [|n IH]; [done|].
  destruct IH as [IH1 IH2]; [lia|]. rewrite c_for_S, Nat.add_0_l.
  rewrite sha_round_spec by done. split; [|by apply fips_round_ok].
  rewrite (take_S_r _ _ (sha256_K !!! n, W !!! n)).
  - by rewrite foldl_app, <- IH1.
  - rewrite lookup_zip_with, !list_lookup_lookup_total_lt by (rewrite ?HW; simpl; lia). done.
Qed.

Lemma ProcessMessageBlock_spec c :
  length (Intermediate_Hash c) = 8%nat -> Forall word_ok (Intermediate_Hash c) ->
  length (Message_Block c) = 64%nat -> bytes_ok (Message_Block c) ->
  SHA224_256ProcessMessageBlock c =
  mkSHA256Context (compress (Intermediate_Hash c) (Message_Block c)) (Length_Low c)
    (Length_High c) 0 (Message_Block c) (Computed c) (Corrupted c).
Proof.
  intros Hl Hw Hb1 Hb2. destruct c as [h lo hi i b cd cr].
  cbn [Intermediate_Hash Message_Block Length_Low Length_High Computed Corrupted] in *.
  list_of_length h Hl. unfold SHA224_256ProcessMessageBlock, compress.
  cbn [Intermediate_Hash Message_Block Length_Low Length_High Computed Corrupted].
  rewrite message_schedule_spec by done.
  assert (length (schedule b) = 64%nat) as HS.
  { unfold schedule. by rewrite length_extend_schedule, length_map, length_chunks. }
  repeat (apply Forall_cons_1 in Hw; destruct Hw as [? Hw]).
  match goal with |- context [foldl fips_round ?v0 _] =>
    assert (vars_ok v0) as Hv by (unfold vars_ok; cbn [vA vB vC vD vE vF vG vH]; tauto);
    pose proof (proj1 (foldl_zip_take (schedule b) v0 64 HS (le_n _) Hv)) as E end.
  rewrite take_ge in E by (rewrite length_zip_with, HS; apply Nat.le_min_r).
  unfold load_vars. cbn [lookup_total list_lookup_total].
  rewrite E. destruct (foldl fips_round _ _). reflexivity.
Qed.

Lemma compress_hash_ok H block :
  length H = 8%nat -> length (compress H block) = 8%nat /\ Forall word_ok (compress H block).
Proof.
  intros HH. list_of_length H HH. unfold compress. destruct (foldl fips_round _ _).
  split; [done|]. cbn [zip zip_with map]. repeat (constructor; [apply u32_range|]). constructor.
Qed.

Lemma foldl_compress_hash_ok bs H :
  length H = 8%nat -> Forall word_ok H ->
  length (foldl compress H bs) = 8%nat /\ Forall word_ok (foldl compress H bs).
Proof.
  revert H. induction bs as [|b bs IH]; intros H H8 Hw; [done|].
  simpl. apply IH; by apply compress_hash_ok.
Qed.

(** ** The streaming invariant *)

(** [part] is what has been written to the current block. *)
Definition filled (part : list Z) (c : SHA256Context) : Prop :=
  Message_Block_Index c = length part /\ length (Message_Block c) = 64%nat /\
  take (length part) (Message_Block c) = part.

(** The context after the bytes [msg] have been fed in: the complete blocks are in the
    intermediate hash, the rest is at the front of [Message_Block], and the two length
    words hold [nbits]. *)
Record sha_state (H0 msg : list Z) (nbits : Z) (c : SHA256Context) : Prop := {
  st_split : exists blocks part,
    msg = concat blocks ++ part /\ Forall (fun b => length b = 64%nat) blocks /\
    (length part < 64)%nat /\
    Intermediate_Hash c = foldl compress H0 blocks /\ filled part c;
  st_bytes : bytes_ok msg;
  st_low : 0 <= Length_Low c < 2 ^ 32;
  st_high : 0 <= Length_High c < 2 ^ 32;
  st_len : Length_Low c + 2 ^ 32 * Length_High c = nbits;
  st_computed : Computed c = 0;
  st_corrupted : Corrupted c = 0
}.

Definition hash_ok (H0 : list Z) : Prop := length H0 = 8%nat /\ Forall word_ok H0.

Lemma SHA256_H0_ok : hash_ok SHA256_H0.
Proof.
  split; [done|]. unfold SHA256_H0. repeat (constructor; [unfold word_ok; lia|]). constructor.
Qed.

Lemma AddLength_spec c n :
  0 <= n < 2 ^ 32 -> 0 <= Length_Low c < 2 ^ 32 -> 0 <= Length_High c < 2 ^ 32 ->
  Length_Low c + 2 ^ 32 * Length_High c + n < 2 ^ 64 ->
  let c' := SHA224_256AddLength c n in
  Corrupted c' = 0 /\ 0 <= Length_Low c' < 2 ^ 32 /\ 0 <= Length_High c' < 2 ^ 32 /\
  Length_Low c' + 2 ^ 32 * Length_High c' = Length_Low c + 2 ^ 32 * Length_High c + n.
Proof.
  intros Hn Hl Hh Hs. unfold SHA224_256AddLength. simpl.
  destruct (Z.ltb_spec (Length_Low c + n) (2 ^ 32)).
  - rewrite (u32_id (Length_Low c + n)) by lia.
    destruct (Z.ltb_spec (Length_Low c + n) (Length_Low c)); simpl; lia.
  - assert (u32 (Length_Low c + n) = Length_Low c + n - 2 ^ 32) as -> by (unfold u32; zdm).
    destruct (Z.ltb_spec (Length_Low c + n - 2 ^ 32) (Length_Low c)); [|lia].
    rewrite u32_id by lia. destruct (Z.eqb_spec (Length_High c + 1) 0); simpl; lia.
Qed.

(** The 64-bit counter wraps: the context is marked corrupted. *)
Lemma AddLength_overflow c n :
  0 <= n < 2 ^ 32 -> 0 <= Length_Low c < 2 ^ 32 -> 0 <= Length_High c < 2 ^ 32 ->
  2 ^ 64 <= Length_Low c + 2 ^ 32 * Length_High c + n ->
  Corrupted (SHA224_256AddLength c n) = 1.
Proof.
  intros Hn Hl Hh Hs. unfold SHA224_256AddLength. simpl.
  assert (Length_High c = 2 ^ 32 - 1) as -> by lia.
  assert (u32 (Length_Low c + n) = Length_Low c + n - 2 ^ 32) as -> by (unfold u32; zdm).
  destruct (Z.ltb_spec (Length_Low c + n - 2 ^ 32) (Length_Low c)); [done|lia].
Qed.

Lemma put_byte_filled part b c :
  filled part c -> (length part < 64)%nat ->
  exists B, put_byte b c = Ret (with_block B (S (length part)) c) /\
            filled (part ++ [b]) (with_block B (S (length part)) c).
Proof.
  intros (Hi & Hl & Ht) Hp. unfold put_byte. rewrite Hi.
  rewrite (proj2 (Nat.ltb_lt _ _)) by (unfold SHA256_Message_Block_Size; lia).
  eexists. split; [done|]. unfold filled. simpl. rewrite length_snoc, length_insert.
  repeat split; [done|]. rewrite take_S_insert by lia. by rewrite Ht.
Qed.

Lemma pad_zeros_filled n part c :
  filled part c -> (length part + n <= 64)%nat ->
  exists B, pad_zeros n c = Ret (with_block B (length part + n) c) /\
            filled (part ++ replicate n 0) (with_block B (length part + n) c).
Proof.
  revert part c. induction n as [|n IH]; intros part c Hf Hn; simpl.
  - exists (Message_Block c). rewrite app_nil_r, Nat.add_0_r.
    destruct Hf as (Hi & Hl & Ht). rewrite <- Hi at 1. by destruct c.
  - destruct (put_byte_filled part 0 c Hf ltac:(lia)) as (B & -> & HB).
    cbn [mbind outcome_bind].
    destruct (IH _ _ HB) as (B' & E & HB'); rewrite length_snoc in *; [lia|].
    exists B'. rewrite E. rewrite <- app_assoc in HB'.
    replace (length part + S n)%nat with (S (length part) + n)%nat by lia. done.
Qed.

(** A full block is compressed and the block starts over. *)
Lemma process_block H0 blocks part c :
  hash_ok H0 -> Intermediate_Hash c = foldl compress H0 blocks ->
  Message_Block c = part -> length part = 64%nat -> bytes_ok part ->
  SHA224_256ProcessMessageBlock c =
    mkSHA256Context (foldl compress H0 (blocks ++ [part])) (Length_Low c) (Length_High c) 0
      part (Computed c) (Corrupted c).
Proof.
  intros [HH0 HHw] HI HB H64 Hok.
  destruct (foldl_compress_hash_ok blocks H0 HH0 HHw) as [F1 F2].
  rewrite ProcessMessageBlock_spec by (rewrite ?HI, ?HB; done).
  by rewrite HI, HB, foldl_app.
Qed.

Lemma filled_full part c : filled part c -> length part = 64%nat -> Message_Block c = part.
Proof.
  intros (_ & Hl & Ht) H64. rewrite <- Ht, H64. symmetry. apply take_ge. lia.
Qed.

(** One iteration of the input loop, once its guard has been passed. *)
Definition input_step (b : Z) (c : SHA256Context) : outcome SHA256Context :=
  c ← put_byte (Z.land b 0xFF) c;
  let c := SHA224_256AddLength c 8 in
  Ret (if (Corrupted c =? 0) && (Message_Block_Index c =? SHA256_Message_Block_Size)%nat
       then SHA224_256ProcessMessageBlock c else c).

Lemma land_byte b : byte_ok b -> Z.land b 0xFF = b.
Proof.
  intros Hb. change 255 with (Z.ones 8). rewrite Z.land_ones by lia.
  apply Z.mod_small. unfold byte_ok in Hb. lia.
Qed.

Lemma input_step_state H0 msg nbits c b :
  hash_ok H0 -> sha_state H0 msg nbits c -> byte_ok b -> nbits + 8 < 2 ^ 64 ->
  exists c', input_step b c = Ret c' /\ sha_state H0 (msg ++ [b]) (nbits + 8) c'.
Proof.
  intros HH0 [Hsp Hby Hlo Hhi Hl Hcd Hcr] Hb Hlen.
  destruct Hsp as (blocks & part & -> & Hbs & Hp & HI & Hf).
  unfold input_step. rewrite land_byte by done.
  destruct (put_byte_filled part b c Hf Hp) as (B & -> & HB). cbn [mbind outcome_bind].
  set (c1 := with_block B (S (length part)) c) in *.
  destruct (AddLength_spec c1 8) as (E1 & E2 & E3 & E4); [lia|done|done|cbn; lia|].
  set (c2 := SHA224_256AddLength c1 8) in *.
  change (Length_Low c1) with (Length_Low c) in E4.
  change (Length_High c1) with (Length_High c) in E4.
  change (Message_Block_Index c2) with (S (length part)). rewrite E1.
  assert (bytes_ok (part ++ [b]) /\ bytes_ok ((concat blocks ++ part) ++ [b])) as [Hpo Hmo].
  { split; [apply bytes_ok_app in Hby as []|]; auto with kvsev. }
  destruct (Nat.eqb_spec (S (length part)) SHA256_Message_Block_Size) as [E64|N64];
    unfold SHA256_Message_Block_Size in *; (eexists; split; [done|]); cbn [andb Z.eqb].
  - assert (length (part ++ [b]) = 64%nat) as Hp64 by (by rewrite length_snoc).
    rewrite (process_block H0 blocks (part ++ [b])) by (done || by apply filled_full).
    constructor; try done; [|cbn [Length_Low Length_High]; lia].
    exists (blocks ++ [part ++ [b]]), []. rewrite concat_app. simpl.
    rewrite !app_nil_r, app_assoc. rewrite <- length_snoc with (x := b) in E64.
    split_and!; try done; [|lia]. apply Forall_app. by repeat constructor.
  - constructor; try done; [|lia].
    exists blocks, (part ++ [b]). rewrite app_assoc, length_snoc.
    repeat split; try done; try lia; apply HB.
Qed.

Lemma SHA256Input_loop_cons n b bs c :
  Corrupted c = 0 ->
  SHA256Input_loop (S n) (b :: bs) c = (c ← input_step b c; SHA256Input_loop n bs c).
Proof.
  intros E. unfold input_step. cbn [SHA256Input_loop]. rewrite E. by destruct (put_byte _ c).
Qed.

Lemma SHA256Input_loop_state H0 bs msg nbits c :
  hash_ok H0 -> sha_state H0 msg nbits c -> bytes_ok bs ->
  nbits + 8 * Z.of_nat (length bs) < 2 ^ 64 ->
  exists c', SHA256Input_loop (length bs) bs c = Ret c' /\
             sha_state H0 (msg ++ bs) (nbits + 8 * Z.of_nat (length bs)) c'.
Proof.
  intros HH0. revert msg nbits c. induction bs as [|b bs IH]; intros msg nbits c Hst Hbs Hl.
  - exists c. rewrite app_nil_r. replace (nbits + _) with nbits by (simpl; lia). done.
  - apply Forall_cons_1 in Hbs as [Hb Hbs]. cbn [length] in *.
    destruct (input_step_state H0 msg nbits c b) as (c1 & E & Hst1); [done..|lia|].
    destruct (IH _ _ _ Hst1 Hbs ltac:(lia)) as (c' & E' & Hst').
    exists c'. rewrite SHA256Input_loop_cons, E by apply Hst. cbn [mbind outcome_bind].
    rewrite <- app_assoc in Hst'. split; [done|]. replace (nbits + 8 * Z.of_nat (S (length bs)))
      with (nbits + 8 + 8 * Z.of_nat (length bs)) by lia. done.
Qed.

(** ** Padding *)

Lemma hash_message_concat H0 bs :
  Forall (fun b => length b = 64%nat) bs -> hash_message H0 (concat bs) = foldl compress H0 bs.
Proof.
  intros H. unfold hash_message. rewrite (length_concat_const 64), Nat.div_mul by done.
  pose proof (chunks_concat 64 bs 0 [] H) as E. rewrite !app_nil_r, Nat.add_0_r in E.
  by rewrite E.
Qed.

Lemma be_bytes_S n z : be_bytes (S n) z = be_bytes n (z / 256) ++ [z mod 256].
Proof. done. Qed.

Lemma be_bytes_0 z : be_bytes 0 z = [].
Proof. done. Qed.

Lemma length_be_bytes n z : length (be_bytes n z) = n.
Proof. revert z. induction n as [|n IH]; intros; [done|]. by rewrite be_bytes_S, length_snoc, IH. Qed.

Lemma be_bytes_ok n z : bytes_ok (be_bytes n z).
Proof.
  revert z. induction n as [|n IH]; intros; [constructor|]. rewrite be_bytes_S.
  apply bytes_ok_snoc; [done|]. apply Z.mod_pos_bound. lia.
Qed.

Lemma be_bytes_8 lo hi :
  0 <= lo < 2 ^ 32 -> 0 <= hi < 2 ^ 32 ->
  be_bytes 8 (lo + 2 ^ 32 * hi) =
  [u8 (Z.shiftr hi 24); u8 (Z.shiftr hi 16); u8 (Z.shiftr hi 8); u8 hi;
   u8 (Z.shiftr lo 24); u8 (Z.shiftr lo 16); u8 (Z.shiftr lo 8); u8 lo].
Proof.
  intros Hlo Hhi. rewrite !Z.shiftr_div_pow2 by lia. unfold u8.
  rewrite !be_bytes_S, be_bytes_0. cbn [app]. rewrite !Z.div_div by lia. repeat (f_equal; [zdm|]). f_equal. zdm.
Qed.

Lemma store_length_block part c :
  filled part c -> length part = 56%nat ->
  0 <= Length_Low c < 2 ^ 32 -> 0 <= Length_High c < 2 ^ 32 ->
  Message_Block (store_length c) = part ++ be_bytes 8 (Length_Low c + 2 ^ 32 * Length_High c).
Proof.
  intros (_ & Hl & Ht) H56 Hlo Hhi. rewrite be_bytes_8 by done.
  rewrite <- Ht, H56. destruct c as [h lo hi i b cd cr]. simpl in *.
  clear -Hl. list_of_length b Hl. done.
Qed.

(** Zero padding up to the length field, the length field, the last compression. *)
Lemma pad_tail H0 blocks part c :
  hash_ok H0 -> Intermediate_Hash c = foldl compress H0 blocks -> filled part c ->
  (length part <= 56)%nat -> bytes_ok part ->
  0 <= Length_Low c < 2 ^ 32 -> 0 <= Length_High c < 2 ^ 32 ->
  exists c', (c ← pad_zeros (56 - length part) c;
              Ret (SHA224_256ProcessMessageBlock (store_length c))) = Ret c' /\
    Intermediate_Hash c' = foldl compress H0 (blocks ++ [part ++ replicate (56 - length part) 0
      ++ be_bytes 8 (Length_Low c + 2 ^ 32 * Length_High c)]) /\
    length (Message_Block c') = 64%nat /\ Corrupted c' = Corrupted c.
Proof.
  intros HH0 HI Hf Hp Hok Hlo Hhi.
  destruct (pad_zeros_filled (56 - length part) part c Hf ltac:(lia)) as (B & -> & HB).
  cbn [mbind outcome_bind]. set (c1 := with_block _ _ c) in *.
  assert (length (part ++ replicate (56 - length part) 0) = 56%nat) as H56
    by (rewrite length_app, length_replicate; lia).
  pose proof (store_length_block _ c1 HB H56 Hlo Hhi) as HS. rewrite <- app_assoc in HS.
  assert (length (part ++ replicate (56 - length part) 0 ++
                  be_bytes 8 (Length_Low c1 + 2 ^ 32 * Length_High c1)) = 64%nat) as H64.
  { rewrite app_assoc, length_app, length_be_bytes, H56. done. }
  eexists. split; [done|].
  rewrite (process_block H0 blocks _ (store_length c1) HH0 HI HS H64); [done|].
  rewrite !bytes_ok_app. auto using be_bytes_ok with kvsev.
Qed.

Lemma pad_zero_count (n k : nat) :
  (k < 64)%nat ->
  Z.to_nat ((55 - Z.of_nat (n * 64 + k)) mod 64) =
  if (k <? 56)%nat then (55 - k)%nat else (119 - k)%nat.
Proof. intros. destruct (Nat.ltb_spec k 56); zdm. Qed.

(** The first half of the padding: the marker byte, and a block of its own for it when
    the length field no longer fits. *)
Definition pad_head (c : SHA256Context) (last : Z) : outcome SHA256Context :=
  if (56 <=? Message_Block_Index c)%nat then
    c ← put_byte last c;
    c ← pad_zeros (64 - Message_Block_Index c) c;
    Ret (SHA224_256ProcessMessageBlock c)
  else put_byte last c.

Lemma pad_head_state H0 blocks part c last :
  hash_ok H0 -> Forall (fun b => length b = 64%nat) blocks -> (length part < 64)%nat ->
  Intermediate_Hash c = foldl compress H0 blocks -> filled part c ->
  bytes_ok part -> byte_ok last ->
  exists c' blocks' part', pad_head c last = Ret c' /\
    Forall (fun b => length b = 64%nat) blocks' /\ (length part' <= 56)%nat /\
    Intermediate_Hash c' = foldl compress H0 blocks' /\ filled part' c' /\ bytes_ok part' /\
    Length_Low c' = Length_Low c /\ Length_High c' = Length_High c /\ Corrupted c' = Corrupted c /\
    concat blocks' ++ part' ++ replicate (56 - length part') 0 =
    concat blocks ++ part ++ [last]
      ++ replicate (if (length part <? 56)%nat then 55 - length part else 119 - length part)%nat 0.
Proof.
  intros HH0 Hbs Hp HI Hf Hok Hlast. unfold pad_head. rewrite (proj1 Hf).
  destruct (put_byte_filled part last c Hf Hp) as (B & E & HB). rewrite E.
  destruct (Nat.leb_spec 56 (length part)) as [H56|H56]; cbn [mbind outcome_bind].
  - rewrite (proj2 (Nat.ltb_ge _ _)) by lia.
    destruct (pad_zeros_filled (64 - S (length part)) _ _ HB) as (B2 & E2 & HB2);
      rewrite length_snoc in *; [lia|].
    cbn [Message_Block_Index with_block]. unfold with_block in *.
    cbn [Intermediate_Hash Length_Low Length_High Computed Corrupted] in *.
    rewrite E2. cbn [mbind outcome_bind].
    set (p1 := (part ++ [last]) ++ replicate (64 - S (length part)) 0) in *.
    assert (length p1 = 64%nat) as Hp1
      by (unfold p1; rewrite length_app, length_snoc, length_replicate; lia).
    eexists _, (blocks ++ [p1]), []. split; [done|].
    rewrite (process_block H0 blocks p1); try done; [|by apply filled_full|].
    + split_and!; try done; [|simpl; lia|constructor|].
      { apply Forall_app. by repeat constructor. }
      unfold p1. rewrite concat_app. simpl concat. rewrite app_nil_r, app_nil_l, <- !app_assoc.
      do 3 f_equal. rewrite <- replicate_add. f_equal. simpl length. lia.
    + apply bytes_ok_app. auto with kvsev.
  - rewrite (proj2 (Nat.ltb_lt _ _)) by lia.
    eexists _, blocks, (part ++ [last]). split; [done|].
    rewrite length_snoc. split_and!; try done; auto with kvsev.
    rewrite <- !app_assoc. do 4 f_equal.
Qed.

(** The padding of the code is the padding of the standard, in one or in two blocks. *)
Lemma PadMessage_state H0 msg nbits c last :
  hash_ok H0 -> sha_state H0 msg nbits c -> byte_ok last ->
  exists c', SHA224_256PadMessage c last = Ret c' /\
    Intermediate_Hash c' = hash_message H0 (pad_message msg last nbits) /\
    length (Message_Block c') = 64%nat /\ Corrupted c' = 0.
Proof.
  intros HH0 [Hsp Hby Hlo Hhi Hl Hcd Hcr] Hlast.
  destruct Hsp as (blocks & part & -> & Hbs & Hp & HI & Hf).
  apply bytes_ok_app in Hby as [_ Hpo]. subst nbits.
  destruct (pad_head_state H0 blocks part c last) as
    (c1 & blocks' & part' & E & Hbs' & Hp' & HI' & Hf' & Hok' & L1 & L2 & HC & Heq); try done.
  destruct (pad_tail H0 blocks' part' c1) as (c' & E' & F1 & F2 & F3); try done; [lia|lia|].
  exists c'. split; [|split; [|split; [done|congruence]]].
  - change (SHA224_256PadMessage c last) with
      (c ← pad_head c last; c ← pad_zeros (56 - Message_Block_Index c) c;
       Ret (SHA224_256ProcessMessageBlock (store_length c))).
    rewrite E. cbn [mbind outcome_bind]. rewrite (proj1 Hf'). exact E'.
  - rewrite F1, L1, L2, <- hash_message_concat.
    + f_equal. rewrite concat_app. simpl concat. rewrite app_nil_r.
      unfold pad_message. rewrite length_app, (length_concat_const 64), pad_zero_count by done.
      rewrite !app_assoc in Heq |- *. rewrite Heq. by rewrite <- !app_assoc.
    + apply Forall_app. split; [done|]. constructor; [|done].
      rewrite !length_app, length_replicate, length_be_bytes. lia.
Qed.

(** ** The API *)

Lemma Finalize_state H0 msg nbits c last :
  hash_ok H0 -> sha_state H0 msg nbits c -> byte_ok last ->
  exists c', SHA224_256Finalize c last = Ret c' /\
    Intermediate_Hash c' = hash_message H0 (pad_message msg last nbits) /\
    Computed c' = 1 /\ Corrupted c' = 0.
Proof.
  intros HH0 Hst Hb. destruct (PadMessage_state H0 msg nbits c last HH0 Hst Hb)
    as (c' & E & F1 & F2 & F3).
  unfold SHA224_256Finalize. rewrite E. cbn [mbind outcome_bind]. eauto.
Qed.

(** The bytes written out are the big-endian words. *)
Lemma result_bytes H :
  length H = 8%nat -> Forall word_ok H ->
  map (fun i => u8 (Z.shiftr (H !!! (i / 4)%nat) (8 * (3 - Z.land (Z.of_nat i) 0x03))))
    (seq 0 SHA256HashSize) = digest_bytes H.
Proof.
  intros Hl _. list_of_length H Hl. unfold SHA256HashSize, digest_bytes.
  cbn [map concat]. rewrite !be_bytes_S, !be_bytes_0. cbn -[u8 Z.shiftr Z.div Z.modulo Z.pow].
  repeat match goal with |- context [8 * ?k] =>
    let v := eval vm_compute in (8 * k) in change (8 * k) with v end.
  rewrite !Z.shiftr_div_pow2 by lia. unfold u8. rewrite !Z.div_div by lia.
  rewrite ?Z.pow_0_r, ?Z.div_1_r. reflexivity.
Qed.

Lemma Reset_state H0 c0 :
  length H0 = 8%nat -> length (Message_Block c0) = 64%nat ->
  exists c, SHA224_256Reset (Some c0) H0 = (shaSuccess, Some c) /\ sha_state H0 [] 0 c.
Proof.
  intros HH Hl. eexists. split; [done|].
  list_of_length H0 HH. constructor; simpl; try done; try lia.
  - exists [], []. repeat split; try done; simpl; lia.
  - constructor.
Qed.

Lemma Input_state H0 msg nbits c bs :
  hash_ok H0 -> sha_state H0 msg nbits c -> bytes_ok bs ->
  nbits + 8 * Z.of_nat (length bs) < 2 ^ 64 ->
  exists c', SHA256Input (Some c) (Some bs) (length bs) = Ret (shaSuccess, Some c') /\
             sha_state H0 (msg ++ bs) (nbits + 8 * Z.of_nat (length bs)) c'.
Proof.
  intros HH0 Hst Hbs Hl. unfold SHA256Input.
  destruct (SHA256Input_loop_state H0 bs msg nbits c HH0 Hst Hbs Hl) as (c' & E & Hst').
  destruct (Nat.eqb_spec (length bs) 0) as [E0|E0].
  - rewrite E0 in E. injection E as ->. eauto.
  - rewrite (st_computed _ _ _ _ Hst), (st_corrupted _ _ _ _ Hst), E. eauto.
Qed.

Lemma sha_inputs_state H0 parts msg nbits c :
  hash_ok H0 -> sha_state H0 msg nbits c -> bytes_ok (concat parts) ->
  nbits + 8 * Z.of_nat (length (concat parts)) < 2 ^ 64 ->
  exists c', sha_inputs parts (Some c) = Ret (shaSuccess, Some c') /\
    sha_state H0 (msg ++ concat parts) (nbits + 8 * Z.of_nat (length (concat parts))) c'.
Proof.
  intros HH0. revert msg nbits c. induction parts as [|p parts IH]; intros msg nbits c Hst Hb Hl.
  - exists c. simpl. rewrite app_nil_r, Z.add_0_r. done.
  - simpl concat in *. apply bytes_ok_app in Hb as [Hb1 Hb2]. rewrite length_app in *.
    destruct (Input_state H0 msg nbits c p) as (c1 & E & Hst1); [done..|lia|].
    destruct (IH _ _ _ Hst1 Hb2) as (c' & E' & Hst'); [lia|].
    exists c'. cbn [sha_inputs]. rewrite E. cbn [mbind outcome_bind Z.eqb shaSuccess].
    rewrite E'. split; [done|].
    rewrite app_assoc. replace (nbits + _) with
      (nbits + 8 * Z.of_nat (length p) + 8 * Z.of_nat (length (concat parts))) by lia. done.
Qed.

Lemma hash_message_ok H0 padded : hash_ok H0 -> hash_ok (hash_message H0 padded).
Proof. intros [? ?]. by apply foldl_compress_hash_ok. Qed.

(** The result of a finished context. *)
Lemma Result_computed c :
  Corrupted c = 0 -> Computed c = 1 -> hash_ok (Intermediate_Hash c) ->
  SHA256Result (Some c) true = Ret (shaSuccess, Some c, digest_bytes (Intermediate_Hash c)).
Proof.
  intros E1 E2 [G1 G2]. unfold SHA256Result, SHA224_256ResultN. rewrite E1, E2.
  cbn [Z.eqb negb mbind outcome_bind]. by rewrite result_bytes.
Qed.

(** The result of a context still taking input. *)
Lemma Result_state msg nbits c :
  sha_state SHA256_H0 msg nbits c ->
  exists c', SHA256Result (Some c) true =
    Ret (shaSuccess, Some c',
         digest_bytes (hash_message SHA256_H0 (pad_message msg 0x80 nbits))) /\
    Computed c' = 1 /\ Corrupted c' = 0.
Proof.
  intros Hst. destruct (Finalize_state SHA256_H0 _ _ c 0x80 SHA256_H0_ok Hst)
    as (c2 & E2 & F & F2 & F3); [unfold byte_ok; lia|].
  exists c2. unfold SHA256Result, SHA224_256ResultN.
  rewrite (st_computed _ _ _ _ Hst), (st_corrupted _ _ _ _ Hst). cbn [Z.eqb negb].
  rewrite E2. cbn [mbind outcome_bind].
  destruct (hash_message_ok SHA256_H0 (pad_message msg 0x80 nbits) SHA256_H0_ok) as [G1 G2].
  rewrite result_bytes; rewrite F; done.
Qed.

Lemma session_digest c0 parts :
  length (Message_Block c0) = 64%nat -> bytes_ok (concat parts) ->
  8 * Z.of_nat (length (concat parts)) < 2 ^ 64 ->
  sha256_session c0 parts = Ret (shaSuccess, sha256 (concat parts)).
Proof.
  intros Hc0 Hbytes Hlen. unfold sha256_session.
  destruct (Reset_state SHA256_H0 c0 eq_refl Hc0) as (c & E & Hst).
  unfold SHA256Reset. rewrite E.
  destruct (sha_inputs_state SHA256_H0 parts [] 0 c SHA256_H0_ok Hst Hbytes Hlen)
    as (c1 & E1 & Hst1). rewrite E1. cbn [mbind outcome_bind Z.eqb shaSuccess].
  destruct (Result_state _ _ _ Hst1) as (c2 & -> & _). done.
Qed.

Lemma length_sha256 msg : length (sha256 msg) = 32%nat /\ bytes_ok (sha256 msg).
Proof.
  unfold sha256. destruct (hash_message_ok SHA256_H0
    (pad_message msg 0x80 (8 * Z.of_nat (length msg))) SHA256_H0_ok) as [G1 _].
  set (H := hash_message _ _) in *. clearbody H. list_of_length H G1.
  unfold digest_bytes. cbn [map concat]. rewrite !length_app, !length_be_bytes.
  split; [done|]. rewrite !bytes_ok_app. repeat split; try apply be_bytes_ok. constructor.
Qed.

(** The last byte of a message that ends inside a byte. *)
Definition last_bits (bits : Z) (k : nat) : Z :=
  bits / 2 ^ (8 - Z.of_nat k) * 2 ^ (8 - Z.of_nat k) + 2 ^ (7 - Z.of_nat k).

Lemma last_bits_mask bits k :
  byte_ok bits -> (1 <= k <= 7)%nat ->
  u8 (Z.lor (Z.land bits (masks !!! k)) (markbit !!! k)) = last_bits bits k /\
  byte_ok (last_bits bits k).
Proof.
  intros Hb Hk. split.
  - apply (byte_forall_eq (fun bits => u8 (Z.lor (Z.land bits (masks !!! k)) (markbit !!! k)))
      (fun bits => last_bits bits k)); [|done].
    do 8 (destruct k as [|k]; [lia || (vm_compute; reflexivity)|]). lia.
  - apply (byte_forall_ok (fun bits => last_bits bits k)); [|done].
    do 8 (destruct k as [|k]; [lia || (vm_compute; reflexivity)|]). lia.
Qed.

Lemma AddLength_state H0 msg nbits c n :
  sha_state H0 msg nbits c -> 0 <= n < 2 ^ 32 -> nbits + n < 2 ^ 64 ->
  sha_state H0 msg (nbits + n) (SHA224_256AddLength c n).
Proof.
  intros [Hsp Hby Hlo Hhi Hl Hcd Hcr] Hn Hs.
  destruct (AddLength_spec c n) as (E1 & E2 & E3 & E4); [done..|lia|].
  constructor; try done. lia.
Qed.

(** ** Claims *)

(** C12: reset, any sequence of [SHA256Input] calls and [SHA256Result] on a context with
    arbitrary initial contents return success and the FIPS 180-2 SHA-256 digest of the
    concatenated inputs, for every message of fewer than 2^64 bits: the buffering, the
    two-word length counter and both padding cases are right whatever the cut. *)
Theorem sha256_session_correct (c0 : SHA256Context) (parts : list (list Z))
    (Hc0 : length (Message_Block c0) = 64%nat)
    (Hbytes : bytes_ok (concat parts))
    (Hlen : 8 * Z.of_nat (length (concat parts)) < 2 ^ 64) :
  sha256_session c0 parts = Ret (shaSuccess, sha256 (concat parts)).
Proof. by apply session_digest. Qed.

Definition zero_context : SHA256Context :=
  mkSHA256Context (replicate 8 0) 0 0 0 (replicate 64 0) 0 0.

Lemma sha256_session_correct_witness :
  sha256_session zero_context [[97]; [98; 99]] = Ret (shaSuccess, sha256 [97; 98; 99]).
Proof.
  apply (sha256_session_correct zero_context [[97]; [98; 99]]).
  - reflexivity.
  - repeat constructor; discriminate.
  - reflexivity.
Defined.

(** The digest of "abc" from FIPS 180-2, appendix B.1. *)
Example sha256_abc :
  sha256_session zero_context [[97]; [98; 99]] =
  Ret (0, [0xba; 0x78; 0x16; 0xbf; 0x8f; 0x01; 0xcf; 0xea; 0x41; 0x41; 0x40; 0xde; 0x5d;
           0xae; 0x22; 0x23; 0xb0; 0x03; 0x61; 0xa3; 0x96; 0x17; 0x7a; 0x9c; 0xb4; 0x10;
           0xff; 0x61; 0xf2; 0x00; 0x15; 0xad]).
Proof. vm_compute. reflexivity. Qed.

(** [SHA256FinalBits] with 1 to 7 trailing bits, followed by [SHA256Result], returns the
    digest of the message of [8 * n + k] bits: the bits are taken from the top of the byte,
    the marker bit follows them and the length field counts them; a later input is refused
    with [shaStateError] and poisons the context. *)
Theorem sha256_final_bits (c : SHA256Context) (msg : list Z) (bits : Z) (k : nat)
    (Hst : sha_state SHA256_H0 msg (8 * Z.of_nat (length msg)) c)
    (Hb : byte_ok bits) (Hk : (1 <= k <= 7)%nat)
    (Hlen : 8 * Z.of_nat (length msg) + 8 < 2 ^ 64) :
  exists c',
    SHA256FinalBits (Some c) bits k = Ret (shaSuccess, Some c') /\
    SHA256Result (Some c') true =
      Ret (shaSuccess, Some c',
           digest_bytes (hash_message SHA256_H0
             (pad_message msg (last_bits bits k)
                (8 * Z.of_nat (length msg) + Z.of_nat k)))) /\
    (forall p n, (0 < n)%nat -> exists c'',
       SHA256Input (Some c') (Some p) n = Ret (shaStateError, Some c'') /\
       Corrupted c'' = shaStateError).
Proof.
  destruct (last_bits_mask bits k Hb Hk) as [Em Hlb].
  destruct (Finalize_state SHA256_H0 msg _ _ (last_bits bits k) SHA256_H0_ok
    (AddLength_state _ _ _ _ (Z.of_nat k) Hst ltac:(lia) ltac:(lia)) Hlb)
    as (c' & E & F1 & F2 & F3).
  exists c'. split_and!.
  - unfold SHA256FinalBits. rewrite (st_computed _ _ _ _ Hst), (st_corrupted _ _ _ _ Hst).
    rewrite (proj2 (Nat.eqb_neq k 0)), (proj2 (Nat.leb_gt 8 k)) by lia.
    cbn [Z.eqb negb orb]. by rewrite Em, E.
  - rewrite Result_computed, F1; try done.
    rewrite F1. apply hash_message_ok, SHA256_H0_ok.
  - intros p n Hn. eexists. unfold SHA256Input. rewrite (proj2 (Nat.eqb_neq n 0)), F2 by lia.
    done.
Qed.

(** The three bits 110 after the empty message. *)
Lemma sha256_final_bits_witness :
  exists c c',
    SHA256FinalBits (Some c) 0xC0 3 = Ret (shaSuccess, Some c') /\
    SHA256Result (Some c') true =
      Ret (shaSuccess, Some c',
           digest_bytes (hash_message SHA256_H0 (pad_message [] 0xD0 3))).
Proof.
  destruct (Reset_state SHA256_H0 zero_context eq_refl eq_refl) as (c & _ & Hst).
  destruct (sha256_final_bits c [] 0xC0 3 Hst) as (c' & E1 & E2 & _).
  - split; [discriminate|reflexivity].
  - lia.
  - reflexivity.
  - exists c, c'. split; [exact E1|exact E2].
Defined.
