(* ===== verification/MtCrypto.v ===== *)
(** * Merkle tree configuration and node hashing
    (src/src/merkle/merkle_config.h, mt_crypto.c, merkle.h)

    The constants and error codes shared by the Merkle tree library, [mt_hash], and the
    interface [NodeHash] through which the tree uses it. *)

From S2P Require Import Prelude Sha256.

(** ** merkle_config.h *)

Definition HASH_LENGTH : Z := 32.
Definition TREE_LEVELS : Z := 30.
Definition MT_AL_MAX_ELEMS : Z := 536870912.

Inductive mt_error_t : Set :=
| MT_SUCCESS
| MT_ERR_OUT_OF_MEMORY
| MT_ERR_ILLEGAL_PARAM
| MT_ERR_ILLEGAL_STATE
| MT_ERR_ROOT_MISMATCH
| MT_ERR_UNSPECIFIED.

#[export] Instance mt_error_eq_dec : EqDecision mt_error_t.
Proof. solve_decision. Defined.

Definition mt_error_code (e : mt_error_t) : Z :=
  match e with
  | MT_SUCCESS => 0
  | MT_ERR_OUT_OF_MEMORY => -1
  | MT_ERR_ILLEGAL_PARAM => -2
  | MT_ERR_ILLEGAL_STATE => -3
  | MT_ERR_ROOT_MISMATCH => -4
  | MT_ERR_UNSPECIFIED => -5
  end.

(** A value of type [mt_hash_t]. *)
Definition is_hash (h : list Z) : Prop := length h = 32%nat /\ bytes_ok h.

(** ** mt_crypto.c *)

(** [mt_hash(left, right, message_digest)]; [ctx] is the context as it lies on the stack,
    [message_digest] says whether the output pointer is non-null, and the bytes written
    through it are returned beside the error code.  The inputs are consumed before the
    digest is written, so the output may alias an input. *)
Definition mt_hash (ctx : SHA256Context) (left right : option (list Z)) (message_digest : bool)
  : outcome (mt_error_t * list Z) :=
  match left, right, message_digest with
  | Some l, Some r, true =>
    let '(e, ctx) := SHA256Reset (Some ctx) in
    if negb (e =? shaSuccess) then Ret (MT_ERR_ILLEGAL_STATE, []) else
    '(e, ctx) ← SHA256Input ctx (Some l) (Z.to_nat HASH_LENGTH);
    if negb (e =? shaSuccess) then Ret (MT_ERR_ILLEGAL_STATE, []) else
    '(e, ctx) ← SHA256Input ctx (Some r) (Z.to_nat HASH_LENGTH);
    if negb (e =? shaSuccess) then Ret (MT_ERR_ILLEGAL_STATE, []) else
    '(e, _, d) ← SHA256Result ctx message_digest;
    if negb (e =? shaSuccess) then Ret (MT_ERR_ILLEGAL_STATE, []) else
    Ret (MT_SUCCESS, d)
  | _, _, _ => Ret (MT_ERR_ILLEGAL_PARAM, [])
  end.

(** ** What the tree relies on

    [hash_node] is the call the tree makes; on two hashes it succeeds and writes
    [node_of l r], which is a hash again.  A null input is refused. *)
Class NodeHash : Type := {
  hash_node : option (list Z) -> option (list Z) -> outcome (mt_error_t * list Z);
  node_of : list Z -> list Z -> list Z;
  hash_node_ok : forall l r, is_hash l -> is_hash r ->
    hash_node (Some l) (Some r) = Ret (MT_SUCCESS, node_of l r);
  node_of_hash : forall l r, is_hash l -> is_hash r -> is_hash (node_of l r);
  hash_node_null_l : forall r, hash_node None r = Ret (MT_ERR_ILLEGAL_PARAM, []);
  hash_node_null_r : forall l, hash_node l None = Ret (MT_ERR_ILLEGAL_PARAM, [])
}.
