(* ===== verification/MtCryptoFacts.v ===== *)
(** * [mt_hash] is SHA-256 of the two children

    The functional specification of [mt_hash] and the instance of the tree's hash
    interface that it provides. *)

From S2P Require Import Prelude Sha256 Sha256Facts MtCrypto.

(** [mt_hash] on two hashes, whatever is on the stack. *)
Lemma mt_hash_digest ctx l r :
  length (Message_Block ctx) = 64%nat -> is_hash l -> is_hash r ->
  mt_hash ctx (Some l) (Some r) true = Ret (MT_SUCCESS, sha256 (l ++ r)).
Proof.
  intros Hc [Hl Hlo] [Hr Hro]. unfold mt_hash, SHA256Reset.
  change (Z.to_nat HASH_LENGTH) with 32%nat.
  destruct (Reset_state SHA256_H0 ctx eq_refl Hc) as (c & -> & Hst). cbn [negb Z.eqb shaSuccess].
  destruct (Input_state SHA256_H0 [] 0 c l SHA256_H0_ok Hst Hlo) as (c1 & E1 & Hst1);
    [rewrite Hl; simpl; lia|]. rewrite Hl in *. rewrite E1.
  cbn [mbind outcome_bind negb Z.eqb shaSuccess].
  destruct (Input_state SHA256_H0 _ _ c1 r SHA256_H0_ok Hst1 Hro) as (c2 & E2 & Hst2);
    [rewrite Hr; simpl; lia|]. rewrite Hr in *. rewrite E2.
  cbn [mbind outcome_bind negb Z.eqb shaSuccess].
  destruct (Result_state _ _ _ Hst2) as (c3 & E3 & _). rewrite E3.
  cbn [mbind outcome_bind negb Z.eqb shaSuccess].
  unfold sha256. rewrite length_app, Hl, Hr. done.
Qed.

Lemma mt_hash_null_l ctx r d : mt_hash ctx None r d = Ret (MT_ERR_ILLEGAL_PARAM, []).
Proof. done. Qed.

Lemma mt_hash_null_r ctx l d : mt_hash ctx l None d = Ret (MT_ERR_ILLEGAL_PARAM, []).
Proof. by destruct l. Qed.

Lemma sha256_is_hash msg : is_hash (sha256 msg).
Proof. apply length_sha256. Qed.

(** The tree's hash is SHA-256. *)
#[export, refine] Instance sha256_node_hash : NodeHash := {
  hash_node := fun l r => mt_hash zero_context l r true;
  node_of := fun l r => sha256 (l ++ r)
}.
Proof.
  - intros. by apply mt_hash_digest.
  - intros. apply sha256_is_hash.
  - intros. apply mt_hash_null_l.
  - intros. apply mt_hash_null_r.
Defined.

(** [mt_hash] succeeds on any two 32-byte hashes, whatever the stack holds, and its
    output is the FIPS 180-2 SHA-256 digest of the left hash followed by the right hash;
    it does so when the output buffer is one of the inputs, since both inputs are consumed
    first.  A null argument is answered with [MT_ERR_ILLEGAL_PARAM]. *)
Theorem mt_hash_correct (ctx : SHA256Context) (l r : list Z)
    (Hctx : length (Message_Block ctx) = 64%nat) (Hl : is_hash l) (Hr : is_hash r) :
  mt_hash ctx (Some l) (Some r) true = Ret (MT_SUCCESS, sha256 (l ++ r)) /\
  is_hash (sha256 (l ++ r)) /\
  (forall x d, mt_hash ctx None x d = Ret (MT_ERR_ILLEGAL_PARAM, [])) /\
  (forall x d, mt_hash ctx x None d = Ret (MT_ERR_ILLEGAL_PARAM, [])) /\
  mt_hash ctx (Some l) (Some r) false = Ret (MT_ERR_ILLEGAL_PARAM, []).
Proof.
  split_and!; auto using sha256_is_hash, mt_hash_null_l, mt_hash_null_r.
  by apply mt_hash_digest.
Qed.

Lemma mt_hash_correct_witness :
  mt_hash zero_context (Some (replicate 32 1)) (Some (replicate 32 2)) true =
  Ret (MT_SUCCESS, sha256 (replicate 32 1 ++ replicate 32 2)).
Proof.
  refine (proj1 (mt_hash_correct zero_context (replicate 32 1) (replicate 32 2) _ _ _)).
  - reflexivity.
  - split; [reflexivity|]. apply Forall_replicate. split; [discriminate|reflexivity].
  - split; [reflexivity|]. apply Forall_replicate. split; [discriminate|reflexivity].
Defined.
