(* ===== verification/MtArrayList.v ===== *)
(** * The growable array of hashes (src/src/merkle/mt_array_list.c, mt_array_list.h)

    One level of the Merkle tree: a count and a heap block of 32-byte hashes that doubles
    when the count reaches a power of two.  The heap block is modelled byte by byte, with
    the allocator's answers as arguments, so that every [memcpy] is checked against the
    size the code really allocated, and the 32-bit arithmetic of the sizes and offsets is
    kept. *)

From S2P Require Import Prelude MtCrypto.

(** ** Heap blocks *)

(** The pointer [store]: null, pointing to a live block, or to a block already freed. *)
Inductive store_t : Type :=
| Null
| Live (bytes : list Z)
| Dangling.

(** The allocator's answer to one request: whether it succeeds, and the indeterminate
    contents of the bytes it adds. *)
Record reply := mkReply { granted : bool; fill : nat -> Z }.

Definition fresh (r : reply) (n : nat) : list Z := map (fun i => u8 (fill r i)) (seq 0 n).

Definition malloc (r : reply) (size : Z) : store_t :=
  if granted r then Live (fresh r (Z.to_nat size)) else Null.

(** [realloc(p, size)] as glibc defines it: the new pointer and what becomes of [p].  A
    size of zero frees the block and returns null. *)
Definition realloc (r : reply) (p : store_t) (size : Z) : outcome (store_t * store_t) :=
  match p with
  | Dangling => Ub
  | Null => Ret (malloc r size, Null)
  | Live bytes =>
    if size =? 0 then Ret (Null, Dangling)
    else if granted r then
      let n := Z.to_nat size in
      Ret (Live (take n (bytes ++ fresh r (n - length bytes))), Dangling)
    else Ret (Null, p)
  end.

Definition free (p : store_t) : outcome store_t :=
  match p with
  | Null => Ret Null
  | Live _ => Ret Dangling
  | Dangling => Ub
  end.

(** [memcpy(&store[off], hash, HASH_LENGTH)]. *)
Definition write_hash (p : store_t) (off : Z) (hash : list Z) : outcome store_t :=
  match p with
  | Live bytes =>
    if (off + HASH_LENGTH <=? Z.of_nat (length bytes)) && (HASH_LENGTH <=? Z.of_nat (length hash))
    then Ret (Live (splice bytes (Z.to_nat off) (take (Z.to_nat HASH_LENGTH) hash)))
    else Ub
  | _ => Ub
  end.

(** The hash a pointer [&store[off]] gives access to. *)
Definition read_hash (p : store_t) (off : Z) : outcome (list Z) :=
  match p with
  | Live bytes =>
    if off + HASH_LENGTH <=? Z.of_nat (length bytes)
    then Ret (slice bytes (Z.to_nat off) (Z.to_nat HASH_LENGTH))
    else Ub
  | _ => Ub
  end.

(** ** The array list *)

Record mt_al_t := mkAl { al_elems : Z; al_store : store_t }.

(** [v |= v >> k]. *)
Definition smear (k v : Z) : Z := Z.lor v (Z.shiftr v k).

Definition round_next_power_two (v : Z) : Z :=
  let v := u32 (v - 1) in
  let v := smear 1 v in
  let v := smear 2 v in
  let v := smear 4 v in
  let v := smear 8 v in
  let v := smear 16 v in
  let v := u32 (v + 1) in
  u32 (v + c_bool (v =? 0)).

Definition is_power_of_two (v : Z) : bool :=
  negb (v =? 0) && (Z.land v (u32 (v - 1)) =? 0).

(** [calloc(1, sizeof(mt_al_t))]. *)
Definition mt_al_create (r : reply) : option mt_al_t :=
  if granted r then Some (mkAl 0 Null) else None.

(** [free(mt_al->store); free(mt_al)]. *)
Definition mt_al_delete (mt_al : option mt_al_t) : outcome unit :=
  al ← deref mt_al;
  _ ← free (al_store al);
  Ret tt.

(** [assert(mt_al->elems < MT_AL_MAX_ELEMS)], the first statement of every operation: it
    dereferences the pointer before the null test. *)
Definition al_enter (mt_al : option mt_al_t) : outcome mt_al_t :=
  al ← deref mt_al;
  _ ← c_assert (al_elems al <? MT_AL_MAX_ELEMS);
  Ret al.

(** The end of [mt_al_add]: copy the hash in and count it. *)
Definition al_append (al : mt_al_t) (hash : list Z) : outcome (mt_error_t * mt_al_t) :=
  store ← write_hash (al_store al) (u32 (al_elems al * HASH_LENGTH)) hash;
  Ret (MT_SUCCESS, mkAl (u32 (al_elems al + 1)) store).

Definition mt_al_add (r : reply) (mt_al : option mt_al_t) (hash : option (list Z))
  : outcome (mt_error_t * mt_al_t) :=
  al ← al_enter mt_al;
  match hash with
  | None => Ret (MT_ERR_ILLEGAL_PARAM, al)
  | Some hash =>
    if al_elems al =? 0 then
      match malloc r HASH_LENGTH with
      | Null => Ret (MT_ERR_OUT_OF_MEMORY, mkAl (al_elems al) Null)
      | store => al_append (mkAl (al_elems al) store) hash
      end
    else if is_power_of_two (al_elems al) then
      if (u32 (Z.shiftl (al_elems al) 1) <? al_elems al)
         || (MT_AL_MAX_ELEMS <? u32 (Z.shiftl (al_elems al) 1))
      then Ret (MT_ERR_ILLEGAL_STATE, al)
      else
        let alloc := u32 (u32 (al_elems al * 2) * HASH_LENGTH) in
        '(tmp, old) ← realloc r (al_store al) alloc;
        match tmp with
        | Null => Ret (MT_ERR_OUT_OF_MEMORY, mkAl (al_elems al) old)
        | tmp => al_append (mkAl (al_elems al) tmp) hash
        end
    else al_append al hash
  end.

Definition mt_al_update (mt_al : option mt_al_t) (hash : option (list Z)) (offset : Z)
  : outcome (mt_error_t * mt_al_t) :=
  al ← al_enter mt_al;
  match hash with
  | Some hash =>
    if offset <? al_elems al then
      store ← write_hash (al_store al) (u32 (offset * HASH_LENGTH)) hash;
      Ret (MT_SUCCESS, mkAl (al_elems al) store)
    else Ret (MT_ERR_ILLEGAL_PARAM, al)
  | None => Ret (MT_ERR_ILLEGAL_PARAM, al)
  end.

Definition mt_al_update_if_exists (mt_al : option mt_al_t) (hash : option (list Z))
    (offset : Z) : outcome (mt_error_t * mt_al_t) :=
  al ← al_enter mt_al;
  match hash with
  | None => Ret (MT_ERR_ILLEGAL_PARAM, al)
  | Some hash =>
    if al_elems al <=? offset then Ret (MT_SUCCESS, al)
    else
      store ← write_hash (al_store al) (u32 (offset * HASH_LENGTH)) hash;
      Ret (MT_SUCCESS, mkAl (al_elems al) store)
  end.

Definition mt_al_add_or_update (r : reply) (mt_al : option mt_al_t) (hash : option (list Z))
    (offset : Z) : outcome (mt_error_t * mt_al_t) :=
  al ← al_enter mt_al;
  match hash with
  | None => Ret (MT_ERR_ILLEGAL_PARAM, al)
  | Some _ =>
    if al_elems al <? offset then Ret (MT_ERR_ILLEGAL_PARAM, al)
    else if offset =? al_elems al then mt_al_add r mt_al hash
    else mt_al_update mt_al hash offset
  end.

(** The count is reduced before the block is shrunk; at zero the block is freed and the
    pointer kept. *)
Definition mt_al_truncate (r : reply) (mt_al : option mt_al_t) (elems : Z)
  : outcome (mt_error_t * mt_al_t) :=
  al ← al_enter mt_al;
  if al_elems al <=? elems then Ret (MT_ERR_ILLEGAL_PARAM, al)
  else if elems =? 0 then
    store ← free (al_store al);
    Ret (MT_SUCCESS, mkAl elems store)
  else
    let alloc := u32 (round_next_power_two elems * HASH_LENGTH) in
    '(tmp, old) ← realloc r (al_store al) alloc;
    match tmp with
    | Null => Ret (MT_ERR_OUT_OF_MEMORY, mkAl elems old)
    | tmp => Ret (MT_SUCCESS, mkAl elems tmp)
    end.

(** The hash behind the returned pointer; [None] is the null pointer. *)
Definition mt_al_get (mt_al : option mt_al_t) (offset : Z) : outcome (option (list Z)) :=
  al ← al_enter mt_al;
  if offset <? al_elems al then
    h ← read_hash (al_store al) (u32 (offset * HASH_LENGTH));
    Ret (Some h)
  else Ret None.

Definition mt_al_get_size (mt_al : option mt_al_t) : Z :=
  match mt_al with None => 0 | Some al => al_elems al end.

Definition mt_al_has_right_neighbor (mt_al : option mt_al_t) (offset : Z) : bool :=
  match mt_al with None => false | Some al => u32 (offset + 1) <? al_elems al end.
