(* ===== verification/MtArrayListFacts.v ===== *)
(** * The array of hashes refines a list

    The bit tricks of the growth policy, the representation invariant, and the operations
    as operations on a list of hashes. *)

From S2P Require Import Prelude MtCrypto MtArrayList.

(** ** Powers of two *)

(** [w] has bit [i] set when [v] has a bit set among [i .. i + n). *)
Definition window (n : nat) (v w : Z) : Prop :=
  forall i, 0 <= i -> Z.testbit w i = existsb (fun j => Z.testbit v (i + Z.of_nat j)) (seq 0 n).

Lemma window_smear n v w : window n v w -> window (n + n) v (smear (Z.of_nat n) w).
Proof.
  intros H i Hi. unfold smear. rewrite Z.lor_spec, Z.shiftr_spec, !H by lia.
  rewrite seq_app, existsb_app. f_equal. simpl.
  rewrite <- (Nat.add_0_r n) at 2. rewrite <- fmap_add_seq.
  generalize (seq 0 n) as l. induction l as [|j l IH]; simpl; [done|].
  rewrite IH. do 2 f_equal. lia.
Qed.

Lemma window_1 v : window 1 v v.
Proof. intros i Hi. simpl. by rewrite Z.add_0_r, orb_false_r. Qed.

Lemma window_ones v w :
  0 < v < 2 ^ 32 -> window 32 v w -> w = Z.ones (Z.log2 v + 1).
Proof.
  intros Hv H. apply Z.bits_inj'. intros i Hi. rewrite H by done.
  assert (0 <= Z.log2 v < 32) by (split; [apply Z.log2_nonneg|apply Z.log2_lt_pow2; lia]).
  destruct (Z.leb_spec i (Z.log2 v)).
  - rewrite Z.ones_spec_low by lia. apply existsb_exists. exists (Z.to_nat (Z.log2 v - i)).
    split; [apply in_seq; lia|].
    replace (i + Z.of_nat (Z.to_nat (Z.log2 v - i))) with (Z.log2 v) by lia.
    apply Z.bit_log2. lia.
  - rewrite Z.ones_spec_high by lia. apply not_true_is_false. intros E.
    apply existsb_exists in E as (j & _ & Hj).
    rewrite Z.bits_above_log2 in Hj by lia. done.
Qed.

Lemma smear_ones v :
  0 < v < 2 ^ 32 -> smear 16 (smear 8 (smear 4 (smear 2 (smear 1 v)))) = Z.ones (Z.log2 v + 1).
Proof.
  intros Hv. apply window_ones; [done|].
  apply (window_smear 16), (window_smear 8), (window_smear 4), (window_smear 2),
    (window_smear 1), window_1.
Qed.

Lemma round_up v :
  1 <= v <= 2 ^ 31 -> round_next_power_two v = 2 ^ Z.log2_up v.
Proof.
  intros Hv. unfold round_next_power_two. rewrite (u32_id (v - 1)) by lia.
  destruct (Z.eqb_spec v 1) as [->|Hne]; [done|].
  rewrite smear_ones by lia.
  replace (Z.log2 (v - 1) + 1) with (Z.log2_up v)
    by (rewrite Z.log2_up_eqn by lia; rewrite <- Z.sub_1_r; lia).
  assert (0 <= Z.log2_up v <= 31).
  { split; [apply Z.log2_up_nonneg|]. rewrite <- (Z.log2_up_pow2 31) by lia.
    apply Z.log2_up_le_mono. lia. }
  rewrite Z.ones_equiv.
  assert (1 <= 2 ^ Z.log2_up v <= 2 ^ 31) by
    (split; [change 1 with (2 ^ 0)|]; apply Z.pow_le_mono_r; lia).
  rewrite (u32_id (_ + 1)) by lia. rewrite (proj2 (Z.eqb_neq _ 0)) by lia.
  rewrite u32_id by (simpl; lia). simpl. lia.
Qed.

Lemma is_power_of_two_iff v :
  0 <= v < 2 ^ 32 -> is_power_of_two v = true <-> exists k, 0 <= k /\ v = 2 ^ k.
Proof.
  intros Hv. unfold is_power_of_two. rewrite andb_true_iff, negb_true_iff, Z.eqb_neq, Z.eqb_eq.
  split.
  - intros [H0 Hl]. rewrite u32_id in Hl by lia. exists (Z.log2 v).
    split; [apply Z.log2_nonneg|]. destruct (Z.log2_spec v) as [L1 L2]; [lia|].
    destruct (Z.eqb_spec v (2 ^ Z.log2 v)) as [|Hne]; [done|exfalso].
    assert (Z.testbit (Z.land v (v - 1)) (Z.log2 v) = true) as E.
    { rewrite Z.land_spec, Z.bit_log2 by lia. simpl.
      assert (Z.log2 (v - 1) = Z.log2 v) as <- by (apply Z.log2_unique; [apply Z.log2_nonneg|lia]).
      apply Z.bit_log2. pose proof (Z.pow_pos_nonneg 2 (Z.log2 v)).
      pose proof (Z.log2_nonneg v). lia. }
    by rewrite Hl, Z.bits_0 in E.
  - intros (k & Hk & ->). pose proof (Z.pow_pos_nonneg 2 k). split; [lia|].
    rewrite u32_id by lia. rewrite Z.sub_1_r, <- Z.ones_equiv, Z.land_ones by done.
    apply Z.mod_same. lia.
Qed.

(** The capacity the growth policy gives to [n] elements. *)
Definition cap (n : Z) : Z := 2 ^ Z.log2_up n.

Lemma cap_ge n : 1 <= n -> n <= cap n.
Proof.
  intros Hn. unfold cap. destruct (Z.eqb_spec n 1) as [->|]; [done|].
  apply Z.log2_up_spec. lia.
Qed.

Lemma cap_le n k : 0 <= k -> n <= 2 ^ k -> cap n <= 2 ^ k.
Proof.
  intros Hk Hn. unfold cap. apply Z.pow_le_mono_r; [lia|].
  rewrite <- (Z.log2_up_pow2 k) by done. by apply Z.log2_up_le_mono.
Qed.

Lemma cap_succ_pow2 n : 1 <= n < 2 ^ 32 -> is_power_of_two n = true -> cap n = n /\ cap (n + 1) = 2 * n.
Proof.
  intros Hn H. apply is_power_of_two_iff in H as (k & Hk & ->); [|lia]. unfold cap.
  rewrite Z.log2_up_pow2, Z.add_1_r, Z.log2_up_succ_pow2, Z.pow_succ_r by done. done.
Qed.

Lemma cap_succ_other n : 1 <= n < 2 ^ 32 -> is_power_of_two n = false -> cap (n + 1) = cap n /\ n < cap n.
Proof.
  intros Hn H.
  assert (forall k, 0 <= k -> n <> 2 ^ k) as Hnp.
  { intros k Hk ->. apply not_true_iff_false in H. apply H. apply is_power_of_two_iff; [lia|eauto]. }
  assert (n <> 1) by (apply (Hnp 0); lia).
  assert (n < cap n).
  { pose proof (cap_ge n ltac:(lia)). pose proof (Hnp _ (Z.log2_up_nonneg n)). unfold cap in *. lia. }
  split; [|done]. unfold cap in *. f_equal. apply Z.log2_up_unique.
  - apply Z.log2_up_pos. lia.
  - destruct (Z.log2_up_spec n); lia.
Qed.

(** ** Representation *)

(** The sizes are computed in 32 bits: the code keeps its promises up to 2^26 elements. *)
Definition AL_LIMIT : Z := 2 ^ 26.

Record al_repr (hs : list (list Z)) (al : mt_al_t) : Prop := {
  ar_elems : al_elems al = Z.of_nat (length hs);
  ar_limit : Z.of_nat (length hs) <= AL_LIMIT;
  ar_hashes : Forall is_hash hs;
  ar_empty : hs = [] -> al_store al = Null \/ al_store al = Dangling;
  ar_store : hs <> [] -> exists rest, al_store al = Live (concat hs ++ rest) /\
    Z.of_nat (length (concat hs ++ rest)) = HASH_LENGTH * cap (Z.of_nat (length hs))
}.

Lemma hashes_length hs : Forall is_hash hs -> Forall (fun b => length b = 32%nat) hs.
Proof. apply Forall_impl. intros ? []. done. Qed.

Lemma al_enter_ok hs al : al_repr hs al -> al_enter (Some al) = Ret al.
Proof.
  intros H. unfold al_enter, c_assert. simpl. rewrite (ar_elems _ _ H).
  pose proof (ar_limit _ _ H). unfold AL_LIMIT, MT_AL_MAX_ELEMS in *.
  rewrite (proj2 (Z.ltb_lt _ _)) by lia. done.
Qed.

(** Offsets do not wrap. *)
Lemma offset_ok (i : nat) : Z.of_nat i <= AL_LIMIT -> u32 (Z.of_nat i * HASH_LENGTH) = Z.of_nat (i * 32).
Proof. intros. unfold HASH_LENGTH. rewrite u32_id; unfold AL_LIMIT in *; lia. Qed.

Lemma al_append_repr hs al h rest :
  al_elems al = Z.of_nat (length hs) -> Z.of_nat (length hs) < AL_LIMIT -> Forall is_hash hs ->
  is_hash h -> al_store al = Live (concat hs ++ rest) ->
  Z.of_nat (length (concat hs ++ rest)) = HASH_LENGTH * cap (Z.of_nat (length hs) + 1) ->
  exists al', al_append al h = Ret (MT_SUCCESS, al') /\ al_repr (hs ++ [h]) al'.
Proof.
  intros He Hlim Hhs Hh Hst Hlen. unfold al_append.
  rewrite He, Hst, offset_ok by lia. unfold write_hash.
  pose proof (hashes_length _ Hhs) as Hk. destruct Hh as [Hh1 Hh2].
  pose proof (cap_ge (Z.of_nat (length hs) + 1) ltac:(lia)).
  assert (length (concat hs) = (length hs * 32)%nat) as Hc by by apply length_concat_const.
  unfold HASH_LENGTH in *.
  rewrite (proj2 (Z.leb_le _ _)), (proj2 (Z.leb_le _ _)) by lia. simpl andb.
  cbn [mbind outcome_bind]. eexists. split; [done|].
  rewrite Nat2Z.id, <- Hc, take_ge, splice_append by lia.
  constructor; simpl.
  - rewrite length_snoc. unfold AL_LIMIT in *. rewrite u32_id; lia.
  - rewrite length_snoc. unfold AL_LIMIT in *. lia.
  - apply Forall_app. split; [done|]. by constructor.
  - by destruct hs.
  - intros _. exists (drop (length h) rest). rewrite concat_app. simpl. rewrite app_nil_r.
    split; [done|]. rewrite length_snoc, Nat2Z.inj_succ, <- Z.add_1_r.
    unfold HASH_LENGTH. rewrite !length_app in *. rewrite length_drop. lia.
Qed.

(** Appending one hash, when the allocator grants the request. *)
Lemma mt_al_add_repr r hs al h :
  al_repr hs al -> is_hash h -> Z.of_nat (length hs) < AL_LIMIT -> granted r = true ->
  exists al', mt_al_add r (Some al) (Some h) = Ret (MT_SUCCESS, al') /\ al_repr (hs ++ [h]) al'.
Proof.
  intros H Hh Hlim Hr. unfold mt_al_add. rewrite (al_enter_ok _ _ H). cbn [mbind outcome_bind].
  destruct H as [He Hl Hhs Hemp Hst]. rewrite He. unfold AL_LIMIT, MT_AL_MAX_ELEMS in *.
  destruct (Z.eqb_spec (Z.of_nat (length hs)) 0) as [E0|E0].
  - assert (hs = []) as -> by (by apply nil_length_inv; lia).
    unfold malloc. rewrite Hr.
    apply (al_append_repr [] _ h (fresh r (Z.to_nat HASH_LENGTH))); done.
  - destruct Hst as (rest & Hst & Hlen); [by intros ->|].
    destruct (is_power_of_two (Z.of_nat (length hs))) eqn:Ep.
    + destruct (cap_succ_pow2 (Z.of_nat (length hs))) as [Hc1 Hc2]; [lia|done|].
      rewrite Z.shiftl_mul_pow2 by lia. change (2 ^ 1) with 2.
      rewrite (u32_id (_ * 2)) by lia.
      rewrite (proj2 (Z.ltb_ge _ _)), (proj2 (Z.ltb_ge _ _)) by lia. simpl orb.
      rewrite u32_id by (unfold HASH_LENGTH; lia).
      unfold realloc. rewrite Hst, Hr. unfold HASH_LENGTH in *.
      rewrite (proj2 (Z.eqb_neq _ _)) by lia. cbn [mbind outcome_bind].
      rewrite take_ge, <- app_assoc by (rewrite length_app; unfold fresh; rewrite length_map, length_seq; lia).
      eapply al_append_repr; try done.
      rewrite app_assoc, length_app. unfold fresh. rewrite length_map, length_seq.
      unfold HASH_LENGTH. lia.
    + destruct (cap_succ_other (Z.of_nat (length hs))) as [Hc1 Hc2]; [lia|done|].
      eapply al_append_repr; try done. by rewrite Hc1.
Qed.

(** Does appending to [n] elements request memory? *)
Definition needs_alloc (n : Z) : bool := (n =? 0) || is_power_of_two n.

(** A refused request leaves the list as it was. *)
Lemma mt_al_add_refused r hs al h :
  al_repr hs al -> is_hash h -> Z.of_nat (length hs) < AL_LIMIT ->
  granted r = false -> needs_alloc (Z.of_nat (length hs)) = true ->
  exists al', mt_al_add r (Some al) (Some h) = Ret (MT_ERR_OUT_OF_MEMORY, al') /\ al_repr hs al'.
Proof.
  intros H Hh Hlim Hr Hn. unfold mt_al_add, needs_alloc in *. rewrite (al_enter_ok _ _ H).
  cbn [mbind outcome_bind]. pose proof H as [He Hl Hhs Hemp Hst]. rewrite He.
  unfold AL_LIMIT, MT_AL_MAX_ELEMS in *.
  destruct (Z.eqb_spec (Z.of_nat (length hs)) 0) as [E0|E0].
  - assert (hs = []) as -> by (by apply nil_length_inv; lia).
    unfold malloc. rewrite Hr. eexists. split; [done|]. constructor; try done. by left.
  - destruct Hst as (rest & Hst & Hlen); [by intros ->|]. simpl in Hn. rewrite Hn.
    destruct (cap_succ_pow2 (Z.of_nat (length hs))) as [Hc1 Hc2]; [lia|done|].
    rewrite Z.shiftl_mul_pow2 by lia. change (2 ^ 1) with 2.
    rewrite (u32_id (_ * 2)) by lia.
    rewrite (proj2 (Z.ltb_ge _ _)), (proj2 (Z.ltb_ge _ _)) by lia. simpl orb.
    rewrite u32_id by (unfold HASH_LENGTH; lia).
    unfold realloc. rewrite Hst, Hr. unfold HASH_LENGTH in *.
    rewrite (proj2 (Z.eqb_neq _ _)) by lia. cbn [mbind outcome_bind].
    eexists. split; [done|]. rewrite <- He, <- Hst. by destruct al.
Qed.

(** At 2^26 elements the byte count [elems * 2 * 32] wraps to zero: [realloc] frees the
    block, and the list is left pointing at freed memory. *)
Lemma mt_al_add_limit r hs al h :
  al_repr hs al -> Z.of_nat (length hs) = AL_LIMIT ->
  mt_al_add r (Some al) (Some h) = Ret (MT_ERR_OUT_OF_MEMORY, mkAl AL_LIMIT Dangling).
Proof.
  intros H Hlim. unfold mt_al_add. rewrite (al_enter_ok _ _ H). cbn [mbind outcome_bind].
  pose proof H as [He Hl Hhs Hemp Hst]. rewrite He, Hlim.
  destruct Hst as (rest & Hst & Hlen); [by intros ->|]. rewrite Hst.
  by vm_compute.
Qed.

Lemma write_hash_repr hs al i h :
  al_repr hs al -> is_hash h -> (i < length hs)%nat ->
  exists store, write_hash (al_store al) (u32 (Z.of_nat i * HASH_LENGTH)) h = Ret store /\
    al_repr (<[i := h]> hs) (mkAl (al_elems al) store).
Proof.
  intros [He Hl Hhs Hemp Hst] [Hh1 Hh2] Hi. unfold AL_LIMIT in *.
  destruct Hst as (rest & Hst & Hlen); [by intros ->; simpl in Hi; lia|].
  pose proof (hashes_length _ Hhs) as Hk.
  assert (length (concat hs) = (length hs * 32)%nat) as Hc by by apply length_concat_const.
  rewrite offset_ok by (unfold AL_LIMIT; lia). unfold write_hash. rewrite Hst.
  pose proof (cap_ge (Z.of_nat (length hs)) ltac:(lia)). unfold HASH_LENGTH in *.
  rewrite (proj2 (Z.leb_le _ _)), (proj2 (Z.leb_le _ _)) by lia. simpl andb.
  eexists. split; [done|].
  rewrite Nat2Z.id, take_ge, (splice_concat_insert 32) by (done || lia).
  constructor; simpl; rewrite ?length_insert; try done.
  - apply Forall_insert; done.
  - intros E. apply (f_equal length) in E. rewrite length_insert in E. simpl in E. lia.
  - intros _. exists rest. split; [done|]. unfold HASH_LENGTH. rewrite <- Hlen, !length_app, Hc.
    rewrite (length_concat_const 32), length_insert; [done|]. by apply Forall_insert.
Qed.

Lemma mt_al_update_repr hs al i h :
  al_repr hs al -> is_hash h -> (i < length hs)%nat ->
  exists al', mt_al_update (Some al) (Some h) (Z.of_nat i) = Ret (MT_SUCCESS, al') /\
              al_repr (<[i := h]> hs) al'.
Proof.
  intros H Hh Hi. unfold mt_al_update. rewrite (al_enter_ok _ _ H). cbn [mbind outcome_bind].
  rewrite (ar_elems _ _ H), (proj2 (Z.ltb_lt _ _)) by lia.
  destruct (write_hash_repr hs al i h H Hh Hi) as (store & -> & Hr).
  cbn [mbind outcome_bind]. rewrite (ar_elems _ _ H) in Hr. eauto.
Qed.

(** Out of range: refused, nothing written. *)
Lemma mt_al_update_range hs al i h :
  al_repr hs al -> (length hs <= i)%nat ->
  mt_al_update (Some al) h (Z.of_nat i) = Ret (MT_ERR_ILLEGAL_PARAM, al).
Proof.
  intros H Hi. unfold mt_al_update. rewrite (al_enter_ok _ _ H). cbn [mbind outcome_bind].
  rewrite (ar_elems _ _ H), (proj2 (Z.ltb_ge _ _)) by lia. by destruct h.
Qed.

(** [<[i := h]>] does nothing out of range, as the operation does. *)
Lemma mt_al_update_if_exists_repr hs al i h :
  al_repr hs al -> is_hash h ->
  exists al', mt_al_update_if_exists (Some al) (Some h) (Z.of_nat i) = Ret (MT_SUCCESS, al') /\
              al_repr (<[i := h]> hs) al'.
Proof.
  intros H Hh. unfold mt_al_update_if_exists. rewrite (al_enter_ok _ _ H).
  cbn [mbind outcome_bind]. rewrite (ar_elems _ _ H).
  destruct (Z.leb_spec (Z.of_nat (length hs)) (Z.of_nat i)).
  - exists al. rewrite list_insert_ge by lia. done.
  - destruct (write_hash_repr hs al i h H Hh ltac:(lia)) as (store & -> & Hr).
    cbn [mbind outcome_bind]. rewrite (ar_elems _ _ H) in Hr. eauto.
Qed.

Lemma mt_al_add_or_update_repr r hs al i h :
  al_repr hs al -> is_hash h -> (i <= length hs)%nat -> Z.of_nat i < AL_LIMIT ->
  granted r = true ->
  exists al', mt_al_add_or_update r (Some al) (Some h) (Z.of_nat i) = Ret (MT_SUCCESS, al') /\
              al_repr (take i hs ++ [h] ++ drop (S i) hs) al'.
Proof.
  intros H Hh Hi Hlim Hr. unfold mt_al_add_or_update. rewrite (al_enter_ok _ _ H).
  cbn [mbind outcome_bind]. rewrite (ar_elems _ _ H), (proj2 (Z.ltb_ge _ _)) by lia.
  destruct (Z.eqb_spec (Z.of_nat i) (Z.of_nat (length hs))) as [E|E].
  - assert (i = length hs) as -> by lia. rewrite take_ge, drop_ge by lia.
    by apply mt_al_add_repr.
  - simpl app. rewrite <- insert_take_drop by lia. apply mt_al_update_repr; [done..|lia].
Qed.

Lemma mt_al_get_repr hs al i :
  al_repr hs al -> mt_al_get (Some al) (Z.of_nat i) = Ret (hs !! i).
Proof.
  intros H. unfold mt_al_get. rewrite (al_enter_ok _ _ H). cbn [mbind outcome_bind].
  destruct H as [He Hl Hhs Hemp Hst]. rewrite He. unfold AL_LIMIT in *.
  destruct (Z.ltb_spec (Z.of_nat i) (Z.of_nat (length hs))) as [Hi|Hi].
  - destruct Hst as (rest & -> & Hlen); [by intros ->; simpl in Hi; lia|].
    rewrite offset_ok by (unfold AL_LIMIT; lia). unfold read_hash, HASH_LENGTH in *.
    pose proof (cap_ge (Z.of_nat (length hs)) ltac:(lia)).
    rewrite (proj2 (Z.leb_le _ _)) by lia. cbn [mbind outcome_bind].
    destruct (lookup_lt_is_Some_2 hs i ltac:(lia)) as [h Hh]. rewrite Hh, Nat2Z.id.
    by rewrite (concat_lookup_slice 32 _ _ _ h) by (done || by apply hashes_length).
  - by rewrite lookup_ge_None_2 by lia.
Qed.

Lemma take_hashes_cap hs rest n :
  Forall is_hash hs -> (n < length hs)%nat ->
  exists rest', concat hs ++ rest = concat (take n hs) ++ rest'.
Proof.
  intros Hhs Hn. exists (concat (drop n hs) ++ rest).
  by rewrite app_assoc, <- concat_app, take_drop.
Qed.

(** Shrinking keeps a prefix; at zero the block is freed and the pointer dangles. *)
Lemma mt_al_truncate_repr r hs al n :
  al_repr hs al -> (n < length hs)%nat -> granted r = true ->
  exists al', mt_al_truncate r (Some al) (Z.of_nat n) = Ret (MT_SUCCESS, al') /\
              al_repr (take n hs) al' /\ (n = 0%nat -> al_store al' = Dangling).
Proof.
  intros H Hn Hr. unfold mt_al_truncate. rewrite (al_enter_ok _ _ H). cbn [mbind outcome_bind].
  destruct H as [He Hl Hhs Hemp Hst]. rewrite He. unfold AL_LIMIT in *.
  destruct Hst as (rest & -> & Hlen); [by intros ->; simpl in Hn; lia|].
  rewrite (proj2 (Z.leb_gt _ _)) by lia.
  assert (length (take n hs) = n) as Hln by (rewrite length_take; lia).
  destruct (Z.eqb_spec (Z.of_nat n) 0) as [E0|E0].
  - assert (n = 0%nat) as -> by lia. simpl. eexists. split; [done|].
    split; [|done]. constructor; simpl; auto; [unfold AL_LIMIT; lia|done].
  - rewrite round_up by lia. fold (cap (Z.of_nat n)).
    pose proof (cap_ge (Z.of_nat n) ltac:(lia)) as Hge.
    pose proof (cap_le (Z.of_nat n) 26 ltac:(lia) ltac:(lia)) as Hle.
    rewrite u32_id by (unfold HASH_LENGTH; lia). unfold realloc.
    rewrite (proj2 (Z.eqb_neq _ _)), Hr by (unfold HASH_LENGTH; lia).
    cbn [mbind outcome_bind]. eexists. split; [done|]. split; [|lia].
    destruct (take_hashes_cap hs rest n Hhs Hn) as [rest' E].
    set (m := Z.to_nat (cap (Z.of_nat n) * HASH_LENGTH)).
    assert (Forall is_hash (take n hs)) as Hh' by by apply Forall_take.
    assert (length (concat (take n hs)) = (n * 32)%nat) as Hc
      by (rewrite (length_concat_const 32), Hln; [done|by apply hashes_length]).
    rewrite E, <- app_assoc, take_app_ge by (unfold m, HASH_LENGTH in *; lia).
    constructor; cbn [al_elems al_store]; rewrite ?Hln; try done; [unfold AL_LIMIT; lia| |].
    + intros E'. rewrite E' in Hln. simpl in Hln. lia.
    + intros _. eexists. split; [done|].
      unfold fresh. rewrite length_app, length_take, length_app, length_map, length_seq.
      rewrite ?length_app, ?Hc. unfold m, HASH_LENGTH. lia.
Qed.

(** ** Refinement of a list of hashes *)

Inductive al_op : Type :=
| OpAdd (h : list Z)
| OpUpdate (i : nat) (h : list Z)
| OpUpdateIfExists (i : nat) (h : list Z)
| OpAddOrUpdate (i : nat) (h : list Z)
| OpTruncate (n : nat)
| OpGet (i : nat).

(** What a call returns: an error code, or the hash behind a pointer. *)
Inductive al_res : Type :=
| RErr (e : mt_error_t)
| RHash (h : option (list Z)).

Definition al_exec (r : reply) (op : al_op) (al : mt_al_t) : outcome (al_res * mt_al_t) :=
  match op with
  | OpAdd h => '(e, al) ← mt_al_add r (Some al) (Some h); Ret (RErr e, al)
  | OpUpdate i h => '(e, al) ← mt_al_update (Some al) (Some h) (Z.of_nat i); Ret (RErr e, al)
  | OpUpdateIfExists i h =>
      '(e, al) ← mt_al_update_if_exists (Some al) (Some h) (Z.of_nat i); Ret (RErr e, al)
  | OpAddOrUpdate i h =>
      '(e, al) ← mt_al_add_or_update r (Some al) (Some h) (Z.of_nat i); Ret (RErr e, al)
  | OpTruncate n => '(e, al) ← mt_al_truncate r (Some al) (Z.of_nat n); Ret (RErr e, al)
  | OpGet i => h ← mt_al_get (Some al) (Z.of_nat i); Ret (RHash h, al)
  end.

(** The specification on lists. *)
Definition list_exec (op : al_op) (hs : list (list Z)) : al_res * list (list Z) :=
  match op with
  | OpAdd h => (RErr MT_SUCCESS, hs ++ [h])
  | OpUpdate i h =>
      if decide (i < length hs)%nat then (RErr MT_SUCCESS, <[i := h]> hs)
      else (RErr MT_ERR_ILLEGAL_PARAM, hs)
  | OpUpdateIfExists i h => (RErr MT_SUCCESS, <[i := h]> hs)
  | OpAddOrUpdate i h =>
      if decide (i <= length hs)%nat then (RErr MT_SUCCESS, take i hs ++ [h] ++ drop (S i) hs)
      else (RErr MT_ERR_ILLEGAL_PARAM, hs)
  | OpTruncate n =>
      if decide (n < length hs)%nat then (RErr MT_SUCCESS, take n hs)
      else (RErr MT_ERR_ILLEGAL_PARAM, hs)
  | OpGet i => (RHash (hs !! i), hs)
  end.

(** Operations on hashes that keep the list below the limit. *)
Definition op_ok (op : al_op) (hs : list (list Z)) : Prop :=
  match op with
  | OpAdd h => is_hash h /\ Z.of_nat (length hs) < AL_LIMIT
  | OpUpdate _ h | OpUpdateIfExists _ h => is_hash h
  | OpAddOrUpdate i h => is_hash h /\ Z.of_nat i < AL_LIMIT
  | OpTruncate _ | OpGet _ => True
  end.

Fixpoint al_run (r : reply) (ops : list al_op) (al : mt_al_t) : outcome (list al_res * mt_al_t) :=
  match ops with
  | [] => Ret ([], al)
  | op :: ops =>
    '(res, al) ← al_exec r op al;
    '(ress, al) ← al_run r ops al;
    Ret (res :: ress, al)
  end.

Fixpoint list_run (ops : list al_op) (hs : list (list Z)) : list al_res * list (list Z) :=
  match ops with
  | [] => ([], hs)
  | op :: ops =>
    let '(res, hs) := list_exec op hs in
    let '(ress, hs) := list_run ops hs in
    (res :: ress, hs)
  end.

Fixpoint ops_ok (ops : list al_op) (hs : list (list Z)) : Prop :=
  match ops with
  | [] => True
  | op :: ops => op_ok op hs /\ ops_ok ops (list_exec op hs).2
  end.

Lemma al_exec_repr r op hs al :
  al_repr hs al -> op_ok op hs -> granted r = true ->
  exists al', al_exec r op al = Ret ((list_exec op hs).1, al') /\
              al_repr (list_exec op hs).2 al'.
Proof.
  intros H Hok Hr. destruct op as [h|i h|i h|i h|n|i]; simpl in *.
  - destruct Hok as [Hh Hl]. destruct (mt_al_add_repr r hs al h) as (al' & -> & Ha); eauto.
  - case_decide; simpl.
    + destruct (mt_al_update_repr hs al i h) as (al' & -> & Ha); eauto.
    + rewrite (mt_al_update_range hs) by (done || lia). eauto.
  - destruct (mt_al_update_if_exists_repr hs al i h) as (al' & -> & Ha); eauto.
  - destruct Hok as [Hh Hl]. case_decide; simpl.
    + destruct (mt_al_add_or_update_repr r hs al i h) as (al' & -> & Ha); eauto.
    + unfold mt_al_add_or_update. rewrite (al_enter_ok _ _ H). cbn [mbind outcome_bind].
      rewrite (ar_elems _ _ H), (proj2 (Z.ltb_lt _ _)) by lia. eauto.
  - case_decide; simpl.
    + destruct (mt_al_truncate_repr r hs al n) as (al' & -> & Ha & _); eauto.
    + unfold mt_al_truncate. rewrite (al_enter_ok _ _ H). cbn [mbind outcome_bind].
      rewrite (ar_elems _ _ H), (proj2 (Z.leb_le _ _)) by lia. eauto.
  - rewrite (mt_al_get_repr hs) by done. eauto.
Qed.

Lemma al_create_repr r al : mt_al_create r = Some al -> al_repr [] al.
Proof.
  unfold mt_al_create. destruct (granted r); intros [= <-].
  constructor; simpl; auto; [unfold AL_LIMIT; lia|done].
Qed.

Lemma al_run_repr r ops hs al :
  al_repr hs al -> ops_ok ops hs -> granted r = true ->
  exists al', al_run r ops al = Ret ((list_run ops hs).1, al') /\
              al_repr (list_run ops hs).2 al'.
Proof.
  revert hs al. induction ops as [|op ops IH]; intros hs al H Hok Hr; simpl; [eauto|].
  destruct Hok as [Hop Hops].
  destruct (al_exec_repr r op hs al H Hop Hr) as (al1 & -> & H1).
  destruct (list_exec op hs) as [res hs1]. simpl in *.
  destruct (IH hs1 al1 H1 Hops Hr) as (al2 & -> & H2).
  destruct (list_run ops hs1) as [ress hs2]. simpl in *. eauto.
Qed.

(** ** Claims *)

(** [round_next_power_two] returns the least power of two that is not below its
    argument, for every argument up to 2^31. *)
Theorem round_next_power_two_least (v : Z) (Hv : 1 <= v <= 2 ^ 31) :
  v <= round_next_power_two v /\
  (exists k, 0 <= k <= 31 /\ round_next_power_two v = 2 ^ k) /\
  (forall k, 0 <= k -> v <= 2 ^ k -> round_next_power_two v <= 2 ^ k).
Proof.
  rewrite round_up by done. fold (cap v). split_and!.
  - apply cap_ge. lia.
  - exists (Z.log2_up v). split; [|done]. split; [apply Z.log2_up_nonneg|].
    rewrite <- (Z.log2_up_pow2 31) by lia. apply Z.log2_up_le_mono. lia.
  - intros k. apply cap_le.
Qed.

Lemma round_next_power_two_least_witness :
  5 <= round_next_power_two 5 /\ round_next_power_two 5 <= 2 ^ 3.
Proof.
  destruct (round_next_power_two_least 5) as (H1 & _ & H3); [lia|].
  split; [exact H1|apply H3; lia].
Defined.

Definition sample_hash : list Z := replicate 32 7.
Definition sample_reply : reply := mkReply true (fun i => Z.of_nat i).

Lemma sample_is_hash : is_hash sample_hash.
Proof. split; [reflexivity|]. apply Forall_replicate. split; [discriminate|reflexivity]. Qed.

(** With an allocator that grants every request, any sequence of add, update,
    update-if-exists, add-or-update, truncate and get calls on a fresh array list that
    stays within 2^26 elements runs without undefined behaviour or a failing assertion
    (every [memcpy] lies inside the block the growth policy allocated) and returns exactly
    what the same operations on a list of hashes return, error codes included. *)
Theorem mt_al_refines_list (r : reply) (ops : list al_op) (al : mt_al_t)
    (Hr : granted r = true) (Hc : mt_al_create r = Some al) (Hops : ops_ok ops []) :
  exists al', al_run r ops al = Ret ((list_run ops []).1, al') /\
              al_repr (list_run ops []).2 al'.
Proof. apply al_run_repr; eauto using al_create_repr. Qed.

Lemma mt_al_refines_list_witness :
  exists al', al_run sample_reply
      [OpAdd sample_hash; OpAdd sample_hash; OpTruncate 1; OpUpdate 1 sample_hash; OpGet 0]
      (mkAl 0 Null) =
    Ret ([RErr MT_SUCCESS; RErr MT_SUCCESS; RErr MT_SUCCESS; RErr MT_ERR_ILLEGAL_PARAM;
          RHash (Some sample_hash)], al').
Proof.
  destruct (mt_al_refines_list sample_reply
    [OpAdd sample_hash; OpAdd sample_hash; OpTruncate 1; OpUpdate 1 sample_hash; OpGet 0]
    (mkAl 0 Null)) as (al' & E & _).
  - reflexivity.
  - reflexivity.
  - repeat split; apply sample_is_hash.
  - exists al'. exact E.
Defined.

(** A refused allocation is reported as [MT_ERR_OUT_OF_MEMORY] and loses nothing: the
    list still represents the same hashes. *)
Theorem mt_al_add_out_of_memory (r : reply) (hs : list (list Z)) (al : mt_al_t) (h : list Z)
    (Hal : al_repr hs al) (Hh : is_hash h) (Hlim : Z.of_nat (length hs) < AL_LIMIT)
    (Hr : granted r = false) (Hn : needs_alloc (Z.of_nat (length hs)) = true) :
  exists al', mt_al_add r (Some al) (Some h) = Ret (MT_ERR_OUT_OF_MEMORY, al') /\ al_repr hs al'.
Proof. by apply mt_al_add_refused. Qed.

Lemma mt_al_add_out_of_memory_witness :
  exists al', mt_al_add (mkReply false (fun _ => 0)) (Some (mkAl 0 Null)) (Some sample_hash) =
              Ret (MT_ERR_OUT_OF_MEMORY, al') /\ al_repr [] al'.
Proof.
  apply (mt_al_add_out_of_memory (mkReply false (fun _ => 0)) [] (mkAl 0 Null) sample_hash).
  - apply (al_create_repr sample_reply). reflexivity.
  - apply sample_is_hash.
  - reflexivity.
  - reflexivity.
  - reflexivity.
Defined.

(** C39: the capacity of a level is 2^26 hashes, not the [MT_AL_MAX_ELEMS] = 2^29 the guards
    admit: when a list of 2^26 hashes grows, the 32-bit product [elems * 2 * HASH_LENGTH]
    is zero, so [realloc] frees the block whatever memory is available, the call reports
    [MT_ERR_OUT_OF_MEMORY], and the next access to the list reads freed memory. *)
Theorem mt_al_add_overflow (r : reply) (hs : list (list Z)) (al : mt_al_t) (h : list Z)
    (Hal : al_repr hs al) (Hlen : Z.of_nat (length hs) = AL_LIMIT) :
  2 * AL_LIMIT <= MT_AL_MAX_ELEMS /\
  exists al', mt_al_add r (Some al) (Some h) = Ret (MT_ERR_OUT_OF_MEMORY, al') /\
    al_elems al' = AL_LIMIT /\ mt_al_get (Some al') 0 = Ub.
Proof.
  split; [unfold AL_LIMIT, MT_AL_MAX_ELEMS; lia|].
  eexists. split; [by eapply mt_al_add_limit|]. done.
Qed.

(** A list of [n] copies of a hash, in a block of exactly its size. *)
Definition copies (n : nat) : list (list Z) := replicate n sample_hash.

Lemma copies_repr (k : Z) :
  0 <= k <= 26 ->
  al_repr (copies (Z.to_nat (2 ^ k))) (mkAl (2 ^ k) (Live (concat (copies (Z.to_nat (2 ^ k)))))).
Proof.
  intros Hk. pose proof (Z.pow_pos_nonneg 2 k ltac:(lia) ltac:(lia)).
  pose proof (Z.pow_le_mono_r 2 k 26 ltac:(lia) ltac:(lia)).
  assert (Forall is_hash (copies (Z.to_nat (2 ^ k)))) as Hh
    by (apply Forall_replicate, sample_is_hash).
  assert (length (copies (Z.to_nat (2 ^ k))) = Z.to_nat (2 ^ k)) as Hl
    by (unfold copies; by rewrite length_replicate).
  constructor; cbn [al_elems al_store]; try done; rewrite ?Hl; unfold AL_LIMIT; try lia.
  - intros E. rewrite E in Hl. simpl in Hl. lia.
  - intros _. exists []. rewrite app_nil_r. split; [done|].
    rewrite (length_concat_const 32), Hl by by apply hashes_length.
    unfold cap, HASH_LENGTH. rewrite Nat2Z.inj_mul, Z2Nat.id, Z.log2_up_pow2 by lia. lia.
Qed.

Lemma mt_al_add_overflow_witness :
  exists al', mt_al_add sample_reply
      (Some (mkAl AL_LIMIT (Live (concat (copies (Z.to_nat (2 ^ 26))))))) (Some sample_hash) =
      Ret (MT_ERR_OUT_OF_MEMORY, al') /\
    al_elems al' = AL_LIMIT /\ mt_al_get (Some al') 0 = Ub.
Proof.
  refine (proj2 (mt_al_add_overflow sample_reply (copies (Z.to_nat (2 ^ 26))) _ sample_hash _ _)).
  - apply (copies_repr 26). lia.
  - unfold copies. rewrite length_replicate, Z2Nat.id; [reflexivity|lia].
Defined.

(** Truncating a list to zero elements frees the block but keeps the pointer: deleting
    the list afterwards frees the block a second time, while adding to it again is safe. *)
Theorem mt_al_truncate_zero (r : reply) (hs : list (list Z)) (al : mt_al_t) (h : list Z)
    (Hal : al_repr hs al) (Hne : (0 < length hs)%nat) (Hr : granted r = true) (Hh : is_hash h) :
  exists al', mt_al_truncate r (Some al) 0 = Ret (MT_SUCCESS, al') /\ al_repr [] al' /\
    mt_al_delete (Some al') = Ub /\
    exists al'', mt_al_add r (Some al') (Some h) = Ret (MT_SUCCESS, al'') /\ al_repr [h] al'' /\
      mt_al_delete (Some al'') = Ret tt.
Proof.
  destruct (mt_al_truncate_repr r hs al 0 Hal Hne Hr) as (al' & E & Ha & Hd).
  exists al'. split; [exact E|]. split; [exact Ha|].
  split; [unfold mt_al_delete; simpl; by rewrite (Hd eq_refl)|].
  destruct (mt_al_add_repr r [] al' h Ha Hh) as (al'' & E2 & Ha2); [done..|].
  exists al''. split; [done|]. split; [exact Ha2|].
  destruct (ar_store _ _ Ha2) as (rest & Es & _); [done|].
  unfold mt_al_delete. simpl. by rewrite Es.
Qed.

Lemma mt_al_truncate_zero_witness :
  exists al', mt_al_truncate sample_reply (Some (mkAl 1 (Live (concat (copies 1))))) 0 =
              Ret (MT_SUCCESS, al') /\ mt_al_delete (Some al') = Ub.
Proof.
  destruct (mt_al_truncate_zero sample_reply (copies 1) (mkAl 1 (Live (concat (copies 1))))
              sample_hash) as (al' & E & _ & Hd & _).
  - apply (copies_repr 0). lia.
  - vm_compute. lia.
  - reflexivity.
  - apply sample_is_hash.
  - exists al'. split; [exact E|exact Hd].
Defined.
