(* ===== verification/MerkleTree.v ===== *)
(** * The Merkle tree (src/src/merkle/mt_impl.c, merkle.h)

    A tree over the item MACs, stored as 30 array lists: level 0 holds the leaves, level
    [l + 1] the hashes of pairs of level [l].  A node without a right sibling is not
    copied upwards; the code climbs with the digest it has and looks for a right
    neighbour further down the levels.  Operations are translated with their early
    returns, null-pointer tests and assertions, over the hash interface of MtCrypto. *)

From S2P Require Import Prelude MtCrypto MtArrayList.

(** The mutex of the structure is taken and released by the server, see [SevServer]. *)
Record mt_t := mkMt { mt_elems : Z; mt_level : list mt_al_t }.

Definition level_at (mt : mt_t) (l : nat) : outcome mt_al_t := deref (mt_level mt !! l).

Definition set_level (mt : mt_t) (l : nat) (al : mt_al_t) : mt_t :=
  mkMt (mt_elems mt) (<[l := al]> (mt_level mt)).

(** ** Creation and deletion *)

Fixpoint delete_levels (levels : list mt_al_t) : outcome unit :=
  match levels with
  | [] => Ret tt
  | al :: levels => _ ← mt_al_delete (Some al); delete_levels levels
  end.

(** The loop of [mt_create]: [n] levels left to create, [levels] created so far. *)
Fixpoint create_levels (r : nat -> reply) (n : nat) (levels : list mt_al_t)
  : outcome (option (list mt_al_t)) :=
  match n with
  | O => Ret (Some levels)
  | S n =>
    match mt_al_create (r (length levels)) with
    | None => _ ← delete_levels levels; Ret None
    | Some tmp => create_levels r n (levels ++ [tmp])
    end
  end.

(** [r0] answers the allocation of the structure, [r l] that of level [l]. *)
Definition mt_create (r0 : reply) (r : nat -> reply) : outcome (option mt_t) :=
  if granted r0 then
    levels ← create_levels r (Z.to_nat TREE_LEVELS) [];
    Ret (option_map (mkMt 0) levels)
  else Ret None.

Definition mt_delete (mt : option mt_t) : outcome unit :=
  match mt with
  | None => Ret tt
  | Some mt => delete_levels (mt_level mt)
  end.

(** ** Helpers *)

Definition mt_right (offset : Z) : bool := negb (Z.land offset 0x01 =? 0).
Definition mt_left (offset : Z) : bool := Z.land offset 0x01 =? 0.

(** The tag, padded with zeros to the hash length. *)
Definition mt_init_hash (tag : list Z) (len : Z) : outcome (list Z) :=
  _ ← c_assert (len <=? HASH_LENGTH);
  if Z.of_nat (length tag) <? len then Ub else
  Ret (take (Z.to_nat len) tag ++ replicate (Z.to_nat (HASH_LENGTH - len)) 0).

Definition is_success (e : mt_error_t) : bool := bool_decide (e = MT_SUCCESS).

(** [memcmp(a, b, HASH_LENGTH) == 0] for a pointer [b] that may be null. *)
Definition same_hash (a : list Z) (b : option (list Z)) : outcome bool :=
  b ← deref b;
  Ret (bool_decide (a = b)).

Definition mt_get_size (mt : option mt_t) : outcome Z :=
  match mt with
  | None => Ret (u32 (mt_error_code MT_ERR_ILLEGAL_PARAM))
  | Some mt => al ← level_at mt 0; Ret (mt_al_get_size (Some al))
  end.

Definition mt_exists (mt : option mt_t) (offset : Z) : outcome Z :=
  match mt with
  | None => Ret (mt_error_code MT_ERR_ILLEGAL_PARAM)
  | Some mt =>
    if MT_AL_MAX_ELEMS <? offset then Ret (mt_error_code MT_ERR_ILLEGAL_PARAM) else
    al ← level_at mt 0;
    h ← mt_al_get (Some al) offset;
    Ret (c_bool (bool_decide (is_Some h)))
  end.

(** The two conditions are joined by [&]: both are evaluated. *)
Definition hasNextLevelExceptRoot (mt : mt_t) (cur_lvl : nat) : outcome bool :=
  al ← level_at mt (S cur_lvl);
  Ret ((Z.of_nat cur_lvl + 1 <? TREE_LEVELS - 1) && (0 <? mt_al_get_size (Some al))).

(** The node with index [offset] of level [l], or the node that stands for it further down. *)
Fixpoint findRightNeighbor (mt : mt_t) (offset : Z) (l : nat) : outcome (option (list Z)) :=
  al ← level_at mt l;
  if offset <? mt_al_get_size (Some al) then mt_al_get (Some al) offset
  else match l with
       | O => Ret None
       | S l => findRightNeighbor mt (u32 (Z.shiftl offset 1)) l
       end.

Section Operations.
Context `{NodeHash}.

(** ** mt_add *)

(** The loop of [mt_add]: [fuel] is [TREE_LEVELS - l], so that running out of it is the
    loop's own bound [l < TREE_LEVELS].  An error code other than success is an early
    return. *)
Fixpoint add_loop (fuel : nat) (r : nat -> reply) (mt : mt_t) (q : Z) (l : nat)
    (message_digest : list Z) : outcome (mt_error_t * mt_t * Z * nat * list Z) :=
  match fuel with
  | O => Ret (MT_SUCCESS, mt, q, l, message_digest)
  | S fuel =>
    if q =? 0 then Ret (MT_SUCCESS, mt, q, l, message_digest)
    else if mt_right q then
      al ← level_at mt l;
      left ← mt_al_get (Some al) (u32 (q - 1));
      '(e, message_digest') ← hash_node left (Some message_digest);
      if negb (is_success e) then Ret (e, mt, q, l, message_digest) else
      up ← level_at mt (S l);
      '(e, up) ← mt_al_add_or_update (r (S l)) (Some up) (Some message_digest') (Z.shiftr q 1);
      let mt := set_level mt (S l) up in
      if negb (is_success e) then Ret (e, mt, q, l, message_digest') else
      add_loop fuel r mt (Z.shiftr q 1) (S l) message_digest'
    else add_loop fuel r mt (Z.shiftr q 1) (S l) message_digest
  end.

(** [r l] answers the allocation request of level [l]. *)
Definition mt_add (r : nat -> reply) (mt : option mt_t) (tag : option (list Z)) (len : Z)
  : outcome (mt_error_t * option mt_t) :=
  match mt, tag with
  | Some mt, Some tag =>
    if HASH_LENGTH <? len then Ret (MT_ERR_ILLEGAL_PARAM, Some mt) else
    message_digest ← mt_init_hash tag len;
    al ← level_at mt 0;
    '(e, al) ← mt_al_add (r 0%nat) (Some al) (Some message_digest);
    let mt := set_level mt 0 al in
    if negb (is_success e) then Ret (e, Some mt) else
    let mt := mkMt (u32 (mt_elems mt + 1)) (mt_level mt) in
    if mt_elems mt =? 1 then Ret (MT_SUCCESS, Some mt) else
    '(e, mt, q, l, message_digest) ←
      add_loop (Z.to_nat TREE_LEVELS) r mt (u32 (mt_elems mt - 1)) 0 message_digest;
    if negb (is_success e) then Ret (e, Some mt) else
    al ← level_at mt l;
    root ← mt_al_get (Some al) q;
    same ← same_hash message_digest root;
    _ ← c_assert same;
    Ret (MT_SUCCESS, Some mt)
  | _, _ => Ret (MT_ERR_ILLEGAL_PARAM, mt)
  end.

(** ** mt_verify *)

(** One step up from node [q] of level [l]: the digest of the parent. *)
Definition climb (mt : mt_t) (q : Z) (l : nat) (message_digest : list Z)
  : outcome (mt_error_t * list Z) :=
  if mt_left q then
    right ← findRightNeighbor mt (u32 (q + 1)) l;
    match right with
    | Some _ => hash_node (Some message_digest) right
    | None => Ret (MT_SUCCESS, message_digest)
    end
  else
    al ← level_at mt l;
    left ← mt_al_get (Some al) (u32 (q - 1));
    hash_node left (Some message_digest).

(** The loop of [mt_verify].  [hasNextLevelExceptRoot] stops it at level 28 at the latest;
    running out of fuel is reported as undefined behaviour and shown not to happen. *)
Fixpoint verify_loop (fuel : nat) (mt : mt_t) (q : Z) (l : nat) (message_digest : list Z)
  : outcome (mt_error_t * Z * nat * list Z) :=
  match fuel with
  | O => Ub
  | S fuel =>
    more ← hasNextLevelExceptRoot mt l;
    if negb more then Ret (MT_SUCCESS, q, l, message_digest) else
    '(e, message_digest) ← climb mt q l message_digest;
    if negb (is_success e) then Ret (e, q, l, message_digest) else
    verify_loop fuel mt (Z.shiftr q 1) (S l) message_digest
  end.

Definition mt_verify (mt : option mt_t) (tag : option (list Z)) (len offset : Z)
  : outcome mt_error_t :=
  match mt, tag with
  | Some mt, Some tag =>
    if negb ((len <=? HASH_LENGTH) && (offset <? mt_elems mt)) then Ret MT_ERR_ILLEGAL_PARAM else
    message_digest ← mt_init_hash tag len;
    '(e, q, l, message_digest) ← verify_loop (Z.to_nat TREE_LEVELS) mt offset 0 message_digest;
    if negb (is_success e) then Ret e else
    al ← level_at mt l;
    root ← mt_al_get (Some al) q;
    same ← same_hash message_digest root;
    if same : bool then Ret MT_SUCCESS else Ret MT_ERR_ROOT_MISMATCH
  | _, _ => Ret MT_ERR_ILLEGAL_PARAM
  end.

(** ** mt_update *)

Fixpoint update_loop (fuel : nat) (mt : mt_t) (q : Z) (l : nat) (message_digest : list Z)
  : outcome (mt_error_t * mt_t * Z * nat * list Z) :=
  match fuel with
  | O => Ub
  | S fuel =>
    more ← hasNextLevelExceptRoot mt l;
    if negb more then Ret (MT_SUCCESS, mt, q, l, message_digest) else
    '(e, message_digest) ← climb mt q l message_digest;
    if negb (is_success e) then Ret (e, mt, q, l, message_digest) else
    let q := Z.shiftr q 1 in
    al ← level_at mt (S l);
    '(e, al) ← mt_al_update_if_exists (Some al) (Some message_digest) q;
    let mt := set_level mt (S l) al in
    if negb (is_success e) then Ret (e, mt, q, S l, message_digest) else
    update_loop fuel mt q (S l) message_digest
  end.

Definition mt_update (mt : option mt_t) (tag : option (list Z)) (len offset : Z)
  : outcome (mt_error_t * option mt_t) :=
  match mt, tag with
  | Some mt, Some tag =>
    if negb ((len <=? HASH_LENGTH) && (offset <? mt_elems mt))
    then Ret (MT_ERR_ILLEGAL_PARAM, Some mt) else
    message_digest ← mt_init_hash tag len;
    al ← level_at mt 0;
    '(e, al) ← mt_al_update (Some al) (Some message_digest) offset;
    let mt := set_level mt 0 al in
    if negb (is_success e) then Ret (e, Some mt) else
    '(e, mt, q, l, message_digest) ←
      update_loop (Z.to_nat TREE_LEVELS) mt offset 0 message_digest;
    if negb (is_success e) then Ret (e, Some mt) else
    al ← level_at mt l;
    root ← mt_al_get (Some al) q;
    same ← same_hash message_digest root;
    _ ← c_assert same;
    Ret (MT_SUCCESS, Some mt)
  | _, _ => Ret (MT_ERR_ILLEGAL_PARAM, mt)
  end.
End Operations.

(** ** mt_get_root *)

Fixpoint root_level (fuel : nat) (mt : mt_t) (l : nat) : outcome nat :=
  match fuel with
  | O => Ub
  | S fuel =>
    more ← hasNextLevelExceptRoot mt l;
    if negb more then Ret l else root_level fuel mt (S l)
  end.

(** [root] says whether the output pointer is non-null. *)
Definition mt_get_root (mt : option mt_t) (root : bool) : outcome (mt_error_t * list Z) :=
  match mt, root with
  | Some mt, true =>
    l ← root_level (Z.to_nat TREE_LEVELS) mt 0;
    al ← level_at mt l;
    h ← mt_al_get (Some al) 0;
    h ← deref h;
    Ret (MT_SUCCESS, h)
  | _, _ => Ret (MT_ERR_ILLEGAL_PARAM, [])
  end.
