(* ===== verification/MerkleSpec.v ===== *)
(** * What the Merkle tree stands for

    The abstract tree over a list of leaves, which of its nodes the levels store, and the
    relation between the C structure and the list of leaves. *)

From S2P Require Import Prelude MtCrypto MtArrayList MtArrayListFacts MerkleTree.

Section Spec.
Context `{NodeHash}.
Implicit Types (ls : list (list Z)) (d h : list Z) (l q i n : nat).

(** ** The abstract tree *)

(** Node [i] of level [l] covers the leaves [i * 2^l .. (i+1) * 2^l); a node whose right half
    is empty is its left child. *)
Fixpoint node ls l i : option (list Z) :=
  match l with
  | O => ls !! i
  | S l =>
    match node ls l (2 * i)%nat, node ls l (2 * i + 1)%nat with
    | Some a, Some b => Some (node_of a b)
    | Some a, None => Some a
    | None, _ => None
    end
  end.

(** How many nodes of level [l] are stored for [n] leaves: those with both children. *)
Definition count n l : nat :=
  match l with
  | O => n
  | S l => (n + 2 ^ l - 1) / (2 * 2 ^ l)
  end.

Definition level_nodes ls l : list (list Z) :=
  map (fun i => default [] (node ls l i)) (seq 0 (count (length ls) l)).

(** The level of the root. *)
Definition top n : nat := Nat.log2_up n.

Definition root ls : option (list Z) := node ls (top (length ls)) 0.

(** The digest of the parent of node [q] when the digest of [q] is [d]. *)
Definition parent ls l q d : list Z :=
  if Nat.even q then
    match node ls l (q + 1)%nat with Some r => node_of d r | None => d end
  else
    match node ls l (q - 1)%nat with Some a => node_of a d | None => d end.

(** The digest reached after [k] steps up. *)
Fixpoint path ls l q d (k : nat) : list Z :=
  match k with
  | O => d
  | S k => path ls (S l) (q / 2)%nat (parent ls l q d) k
  end.

(** The two hashes that are hashed into the parent of node [q] when the digest of [q] is [d], if
    [q] has a sibling, and those of [k] steps up. *)
Definition parent_pair ls l q d : option (list Z * list Z) :=
  if Nat.even q then
    match node ls l (q + 1)%nat with Some r => Some (d, r) | None => None end
  else
    match node ls l (q - 1)%nat with Some a => Some (a, d) | None => None end.

Fixpoint path_pairs ls l q d (k : nat) : list (option (list Z * list Z)) :=
  match k with
  | O => []
  | S k => parent_pair ls l q d :: path_pairs ls (S l) (q / 2)%nat (parent ls l q d) k
  end.

(** The ways up from the digests [d] and [d'] hash different pairs into the same parent at one and
    the same level. *)
Definition path_collision ls l q d d' (k : nat) : Prop :=
  exists i p p', path_pairs ls l q d k !! i = Some (Some p) /\ path_pairs ls l q d' k !! i = Some (Some p') /\
    p <> p' /\ node_of p.1 p.2 = node_of p'.1 p'.2.

(** ** The C structure *)

Definition lvl_ok (mt : mt_t) ls (k : nat) : Prop :=
  exists al, mt_level mt !! k = Some al /\ al_repr (level_nodes ls k) al.

Record mt_repr ls (mt : mt_t) : Prop := {
  mr_elems : mt_elems mt = Z.of_nat (length ls);
  mr_limit : Z.of_nat (length ls) <= AL_LIMIT;
  mr_hashes : Forall is_hash ls;
  mr_length : length (mt_level mt) = 30%nat;
  mr_levels : forall k, (k < 30)%nat -> lvl_ok mt ls k
}.

(** The leaf made from a tag. *)
Definition leaf_of (tag : list Z) (len : Z) : list Z :=
  take (Z.to_nat len) tag ++ replicate (Z.to_nat (HASH_LENGTH - len)) 0.

(** ** Arithmetic of the levels *)

Lemma pow2_pos l : (0 < 2 ^ l)%nat.
Proof. apply Nat.neq_0_lt_0, Nat.pow_nonzero. done. Qed.

Lemma count_lt n l i : (i < count n (S l))%nat <-> ((2 * i + 1) * 2 ^ l < n)%nat.
Proof.
  simpl. pose proof (pow2_pos l). set (p := (2 ^ l)%nat) in *.
  pose proof (Nat.div_mod_eq (n + p - 1) (p + (p + 0))).
  pose proof (Nat.mod_upper_bound (n + p - 1) (p + (p + 0))).
  split; nia.
Qed.

Lemma div_pow2_S n l : (n / 2 ^ S l = n / 2 ^ l / 2)%nat.
Proof. rewrite Nat.Div0.div_div. f_equal. simpl. lia. Qed.

Lemma even_half q : Nat.even q = true -> q = (2 * (q / 2))%nat.
Proof. intros E%Nat.even_spec. destruct E as [m ->]. rewrite (Nat.mul_comm 2 m), Nat.div_mul; lia. Qed.

Lemma odd_half q : Nat.even q = false -> q = (2 * (q / 2) + 1)%nat.
Proof.
  intros E. assert (Nat.odd q = true) as O by (rewrite <- Nat.negb_even; by rewrite E).
  apply Nat.odd_spec in O as [m ->].
  rewrite (Nat.mul_comm 2 m), Nat.div_add_l by lia. simpl. lia.
Qed.

Lemma top_spec n : (0 < n)%nat -> (n <= 2 ^ top n)%nat /\ (forall l, l < top n <-> 2 ^ l < n)%nat.
Proof.
  intros Hn. unfold top. destruct (decide (n = 1)%nat) as [->|].
  - split; [done|]. intros l. pose proof (pow2_pos l). change (Nat.log2_up 1) with 0%nat. lia.
  - destruct (Nat.log2_up_spec n) as [L1 L2]; [lia|]. split; [done|]. intros l. split; intros Hl.
    + apply (Nat.le_lt_trans _ (2 ^ pred (Nat.log2_up n))); [|done].
      apply Nat.pow_le_mono_r; lia.
    + apply (Nat.pow_lt_mono_r_iff 2); lia.
Qed.

Lemma count_pos n l : (0 < count n (S l))%nat <-> (2 ^ l < n)%nat.
Proof. rewrite count_lt. simpl. lia. Qed.

Lemma count_top n : (0 < n)%nat -> (0 < count n (top n))%nat.
Proof.
  intros Hn. destruct (top n) as [|t] eqn:E; [done|]. apply count_pos.
  apply top_spec; [done|]. lia.
Qed.

Lemma count_above n l : (n <= 2 ^ l)%nat -> count n (S l) = 0%nat.
Proof. intros Hn. destruct (count n (S l)) eqn:E; [done|]. pose proof (count_pos n l). lia. Qed.

(** ** Nodes *)

Lemma node_is_Some ls l i : is_Some (node ls l i) <-> (i * 2 ^ l < length ls)%nat.
Proof.
  revert i. induction l as [|l IH]; intros i; cbn [node].
  - rewrite lookup_lt_is_Some, Nat.pow_0_r. lia.
  - pose proof (IH (2 * i)%nat) as H1. rewrite Nat.pow_succ_r'.
    replace (i * (2 * 2 ^ l))%nat with (2 * i * 2 ^ l)%nat by lia. rewrite <- H1.
    destruct (node ls l (2 * i)); [|done]. by destruct (node ls l (2 * i + 1)).
Qed.

Lemma node_None ls l i : (length ls <= i * 2 ^ l)%nat -> node ls l i = None.
Proof. intros. apply eq_None_not_Some. rewrite node_is_Some. lia. Qed.

Lemma node_hash ls l i h : Forall is_hash ls -> node ls l i = Some h -> is_hash h.
Proof.
  intros Hls. revert i h. induction l as [|l IH]; intros i h; cbn [node].
  - intros Hi. by apply (Forall_lookup_1 _ _ _ _ Hls Hi).
  - destruct (node ls l (2 * i)) as [a|] eqn:Ea; [|done].
    destruct (node ls l (2 * i + 1)) as [b|] eqn:Eb; intros [= <-]; eauto using node_of_hash.
Qed.

(** A node depends only on the leaves below it. *)
Lemma node_agree ls ls' l i :
  (forall j, (i * 2 ^ l <= j < (i + 1) * 2 ^ l)%nat -> ls !! j = ls' !! j) ->
  node ls l i = node ls' l i.
Proof.
  revert i. induction l as [|l IH]; intros i Hj; cbn [node].
  - apply Hj. rewrite Nat.pow_0_r. lia.
  - rewrite Nat.pow_succ_r' in Hj.
    rewrite (IH (2 * i)%nat), (IH (2 * i + 1)%nat); [done| |];
      intros j Hr; apply Hj; lia.
Qed.

Lemma node_unstored ls l i :
  (length ls <= (2 * i + 1) * 2 ^ l)%nat -> node ls (S l) i = node ls l (2 * i).
Proof.
  intros Hl. cbn [node]. rewrite (node_None ls l (2 * i + 1)) by done.
  by destruct (node ls l (2 * i)).
Qed.

Lemma parent_node ls l q d :
  node ls l q = Some d -> node ls (S l) (q / 2) = Some (parent ls l q d).
Proof.
  intros E. unfold parent. destruct (Nat.even q) eqn:Ev; cbn [node].
  - apply even_half in Ev. rewrite <- Ev, E. by destruct (node ls l (q + 1)).
  - apply odd_half in Ev. rewrite <- Ev, E. replace (q - 1)%nat with (2 * (q / 2))%nat by lia.
    destruct (node ls l (2 * (q / 2))) eqn:E2; [done|].
    exfalso. assert (is_Some (node ls l q)) as Hs by by rewrite E.
    apply node_is_Some in Hs.
    assert (is_Some (node ls l (2 * (q / 2)))) as [? ?] by (apply node_is_Some; nia).
    congruence.
Qed.

Lemma parent_hash ls l q d : Forall is_hash ls -> is_hash d -> is_hash (parent ls l q d).
Proof.
  intros Hls Hd. unfold parent.
  destruct (Nat.even q); destruct (node ls l _) eqn:E; eauto using node_of_hash, node_hash.
Qed.

Lemma parent_inj ls l q d d' :
  parent ls l q d = parent ls l q d' ->
  d = d' \/ exists p p', parent_pair ls l q d = Some p /\ parent_pair ls l q d' = Some p' /\
    p <> p' /\ node_of p.1 p.2 = node_of p'.1 p'.2.
Proof.
  unfold parent, parent_pair. destruct (decide (d = d')) as [|Hne]; [auto|].
  destruct (Nat.even q); destruct (node ls l _) as [s|] eqn:E; intros Heq; try tauto; right.
  - exists (d, s), (d', s). split_and!; try done. congruence.
  - exists (s, d), (s, d'). split_and!; try done. congruence.
Qed.

Lemma path_node ls l q d k :
  node ls l q = Some d -> node ls (l + k) (q / 2 ^ k) = Some (path ls l q d k).
Proof.
  revert l q d. induction k as [|k IH]; intros l q d E.
  - by rewrite Nat.add_0_r, Nat.pow_0_r, Nat.div_1_r.
  - cbn [path]. rewrite <- IH by by apply parent_node.
    replace (l + S k)%nat with (S l + k)%nat by lia.
    rewrite Nat.Div0.div_div, <- Nat.pow_succ_r'. done.
Qed.

Lemma path_inj ls l q d d' k :
  path ls l q d k = path ls l q d' k -> d = d' \/ path_collision ls l q d d' k.
Proof.
  revert l q d d'. induction k as [|k IH]; intros l q d d' E; [auto|]. simpl in E.
  destruct (IH _ _ _ _ E) as [Ep|(i & p & p' & H1 & H2 & H3)]; [|right; by exists (S i), p, p'].
  destruct (parent_inj ls l q d d' Ep) as [->|(p & p' & H1 & H2 & H3)]; [by left|].
  right. exists 0%nat, p, p'. simpl. by rewrite H1, H2.
Qed.

(** ** Stored levels *)

Lemma length_level_nodes ls l : length (level_nodes ls l) = count (length ls) l.
Proof. unfold level_nodes. by rewrite length_map, length_seq. Qed.

Lemma count_node ls l i : (i < count (length ls) l)%nat -> is_Some (node ls l i).
Proof.
  intros Hi. apply node_is_Some. destruct l as [|l]; [simpl in *; lia|].
  apply count_lt in Hi. simpl. pose proof (pow2_pos l). nia.
Qed.

Lemma level_nodes_lookup ls l i :
  (i < count (length ls) l)%nat -> level_nodes ls l !! i = node ls l i.
Proof.
  intros Hi. unfold level_nodes. rewrite list_lookup_fmap, lookup_seq_lt by done. simpl.
  by destruct (count_node ls l i Hi) as [h ->].
Qed.

(** Lists of leaves that store the same nodes at level [l]. *)
Lemma level_nodes_ext ls ls' l :
  count (length ls) l = count (length ls') l ->
  (forall i, (i < count (length ls) l)%nat -> node ls l i = node ls' l i) ->
  level_nodes ls l = level_nodes ls' l.
Proof.
  intros Hc Hn. unfold level_nodes. rewrite <- Hc. apply map_ext_in.
  intros i Hi%in_seq. by rewrite Hn by lia.
Qed.

Lemma level_nodes_above ls l : (length ls <= 2 ^ l)%nat -> level_nodes ls (S l) = [].
Proof. intros Hl. unfold level_nodes. by rewrite count_above. Qed.

Lemma level_nodes_0 ls : level_nodes ls 0 = ls.
Proof.
  apply list_eq. intros i. destruct (decide (i < length ls)%nat).
  - by rewrite level_nodes_lookup.
  - by rewrite !lookup_ge_None_2 by (rewrite ?length_level_nodes; simpl; lia).
Qed.

Lemma length_leaf_of tag len :
  0 <= len <= HASH_LENGTH -> len <= Z.of_nat (length tag) -> bytes_ok tag -> is_hash (leaf_of tag len).
Proof.
  intros Hl Ht Hok. unfold leaf_of, HASH_LENGTH in *. split.
  - rewrite length_app, length_take, length_replicate. lia.
  - apply bytes_ok_app. auto with kvsev.
Qed.

Lemma mt_init_hash_leaf tag len :
  0 <= len <= HASH_LENGTH -> len <= Z.of_nat (length tag) ->
  mt_init_hash tag len = Ret (leaf_of tag len).
Proof.
  intros Hl Ht. unfold mt_init_hash, c_assert. rewrite (proj2 (Z.leb_le _ _)) by lia.
  cbn [mbind outcome_bind]. by rewrite (proj2 (Z.ltb_ge _ _)) by lia.
Qed.
End Spec.
