(* ===== verification/MerkleFacts.v ===== *)
(** * Correctness of the Merkle tree operations

    Every operation preserves the representation of the leaves; verification accepts the
    stored leaves and, unless two node hashes collide, nothing else. *)

From S2P Require Import Prelude MtCrypto MtArrayList MtArrayListFacts MerkleTree MerkleSpec.

Section Facts.
Context `{NodeHash}.
Implicit Types (ls : list (list Z)) (d h : list Z) (l q i n : nat) (mt : mt_t).

(** ** Indices as machine words *)

Lemma shiftr_half q : Z.shiftr (Z.of_nat q) 1 = Z.of_nat (q / 2).
Proof. rewrite Z.shiftr_div_pow2 by lia. change (2 ^ 1) with 2. by rewrite Nat2Z.inj_div. Qed.

Lemma land_one q : Z.land (Z.of_nat q) 1 = Z.of_nat (q mod 2).
Proof.
  change 1 with (Z.ones 1) at 1. rewrite Z.land_ones by lia. change (2 ^ 1) with 2.
  by rewrite Nat2Z.inj_mod.
Qed.

Lemma mt_left_even q : mt_left (Z.of_nat q) = Nat.even q.
Proof.
  unfold mt_left. rewrite land_one. destruct (Nat.even q) eqn:E.
  - rewrite (even_half q E), Nat.mul_comm, Nat.Div0.mod_mul. done.
  - rewrite (odd_half q E), Nat.add_comm, Nat.mul_comm, Nat.Div0.mod_add. done.
Qed.

Lemma mt_right_odd q : mt_right (Z.of_nat q) = negb (Nat.even q).
Proof. rewrite <- mt_left_even. done. Qed.

Lemma pow2_Z l : Z.of_nat (2 ^ l) = 2 ^ Z.of_nat l.
Proof. by rewrite Nat2Z.inj_pow. Qed.

Lemma is_success_ok : is_success MT_SUCCESS = true.
Proof. done. Qed.

Lemma top_le_26 n : (0 < n)%nat -> Z.of_nat n <= AL_LIMIT -> (top n <= 26)%nat.
Proof.
  intros Hn Hlim. unfold top. apply Nat.log2_up_le_pow2; [done|]. unfold AL_LIMIT in Hlim.
  apply Nat2Z.inj_le. rewrite pow2_Z. simpl Z.of_nat. lia.
Qed.

(** ** Reading the levels *)

Lemma level_at_ok mt ls k :
  lvl_ok mt ls k -> exists al, level_at mt k = Ret al /\ al_repr (level_nodes ls k) al.
Proof. intros (al & E & Hr). exists al. unfold level_at. by rewrite E. Qed.

Lemma level_size mt ls k al :
  al_repr (level_nodes ls k) al -> mt_al_get_size (Some al) = Z.of_nat (count (length ls) k).
Proof. intros Hr. simpl. by rewrite (ar_elems _ _ Hr), length_level_nodes. Qed.

Lemma hasNext_spec mt ls l :
  lvl_ok mt ls (S l) -> (l < 28)%nat ->
  hasNextLevelExceptRoot mt l = Ret (bool_decide (2 ^ l < length ls)%nat).
Proof.
  intros Hl Hb. unfold hasNextLevelExceptRoot.
  destruct (level_at_ok _ _ _ Hl) as (al & -> & Hr). cbn [mbind outcome_bind].
  rewrite (level_size mt ls _ _ Hr). f_equal. unfold TREE_LEVELS.
  rewrite (proj2 (Z.ltb_lt _ _)) by lia. rewrite andb_true_l.
  case_bool_decide as E.
  - apply Z.ltb_lt. apply count_pos in E. lia.
  - apply Z.ltb_ge. rewrite <- count_pos in E. lia.
Qed.

(** The search for a right neighbour finds the abstract node. *)
Lemma findRightNeighbor_node mt ls l j :
  (forall k, (k <= l)%nat -> lvl_ok mt ls k) -> Z.of_nat (j * 2 ^ l) < 2 ^ 32 ->
  findRightNeighbor mt (Z.of_nat j) l = Ret (node ls l j).
Proof.
  revert j. induction l as [|l IH]; intros j Hk Hb; cbn [findRightNeighbor].
  - destruct (level_at_ok _ _ _ (Hk 0%nat ltac:(lia))) as (al & -> & Hr). cbn [mbind outcome_bind].
    rewrite (level_size mt ls _ _ Hr), (mt_al_get_repr _ _ _ Hr). simpl count.
    destruct (Z.ltb_spec (Z.of_nat j) (Z.of_nat (length ls))).
    + by rewrite level_nodes_lookup by (simpl; lia).
    + simpl. by rewrite lookup_ge_None_2 by lia.
  - destruct (level_at_ok _ _ _ (Hk (S l) ltac:(lia))) as (al & -> & Hr). cbn [mbind outcome_bind].
    rewrite (level_size mt ls _ _ Hr).
    destruct (Z.ltb_spec (Z.of_nat j) (Z.of_nat (count (length ls) (S l)))) as [Hc|Hc].
    + rewrite (mt_al_get_repr _ _ _ Hr), level_nodes_lookup by lia. done.
    + rewrite Nat.pow_succ_r' in Hb. pose proof (pow2_pos l).
      rewrite Z.shiftl_mul_pow2 by lia. rewrite u32_id by (split; nia).
      replace (Z.of_nat j * 2 ^ 1) with (Z.of_nat (2 * j)) by lia.
      rewrite IH; [|intros; apply Hk; lia|nia].
      f_equal. symmetry. apply node_unstored.
      assert (~ (j < count (length ls) (S l))%nat) as Hn by lia. rewrite count_lt in Hn. lia.
Qed.

Lemma climb_parent mt ls l q d :
  (forall k, (k <= l)%nat -> lvl_ok mt ls k) -> Forall is_hash ls -> is_hash d ->
  (l <= 28)%nat -> Z.of_nat (length ls) <= AL_LIMIT -> (q * 2 ^ l < length ls)%nat ->
  climb mt (Z.of_nat q) l d = Ret (MT_SUCCESS, parent ls l q d).
Proof.
  intros Hk Hls Hd Hl Hlim Hq. unfold climb, parent, AL_LIMIT in *. rewrite mt_left_even.
  pose proof (pow2_pos l) as Hp.
  assert (Z.of_nat (2 ^ l) <= 2 ^ 28) as Hp28
    by (rewrite pow2_Z; apply Z.pow_le_mono_r; lia).
  destruct (Nat.even q) eqn:Ev.
  - rewrite u32_id by nia. replace (Z.of_nat q + 1) with (Z.of_nat (q + 1)) by lia.
    rewrite (findRightNeighbor_node mt ls) by (done || nia). cbn [mbind outcome_bind].
    destruct (node ls l (q + 1)) as [r|] eqn:E; [|done].
    apply hash_node_ok; [done|]. by eapply node_hash.
  - pose proof (odd_half q Ev) as Eq. rewrite u32_id by nia.
    destruct (level_at_ok _ _ _ (Hk l ltac:(lia))) as (al & -> & Hr). cbn [mbind outcome_bind].
    replace (Z.of_nat q - 1) with (Z.of_nat (q - 1)) by lia.
    rewrite (mt_al_get_repr _ _ _ Hr).
    assert (q - 1 < count (length ls) l)%nat as Hc.
    { destruct l as [|l]; [simpl in *; lia|]. apply count_lt. rewrite Nat.pow_succ_r' in Hq. nia. }
    rewrite level_nodes_lookup by done. cbn [mbind outcome_bind].
    destruct (count_node ls l _ Hc) as [a Ea]. rewrite Ea.
    apply hash_node_ok; [|done]. by eapply node_hash.
Qed.

(** ** Verification *)

Lemma verify_loop_path mt ls fuel l q d :
  mt_repr ls mt -> (0 < length ls)%nat -> is_hash d -> (q * 2 ^ l < length ls)%nat ->
  (l <= top (length ls))%nat -> (top (length ls) - l < fuel)%nat ->
  verify_loop fuel mt (Z.of_nat q) l d =
  Ret (MT_SUCCESS, Z.of_nat (q / 2 ^ (top (length ls) - l)), top (length ls),
       path ls l q d (top (length ls) - l)).
Proof.
  intros Hm Hn. pose proof Hm as [He Hlim Hls Hlen Hlev].
  destruct (top_spec (length ls) Hn) as [Ht1 Ht2].
  pose proof (top_le_26 _ Hn Hlim) as Ht26.
  revert l q d. induction fuel as [|fuel IH]; intros l q d Hd Hq Hlt Hf; [lia|].
  cbn [verify_loop]. rewrite (hasNext_spec mt ls) by (try apply Hlev; lia).
  cbn [mbind outcome_bind]. case_bool_decide as E; cbn [negb].
  - assert (l < top (length ls))%nat as Hlt' by by apply Ht2.
    rewrite (climb_parent mt ls) by (done || lia || (intros; apply Hlev; lia)).
    cbn [mbind outcome_bind]. rewrite is_success_ok. cbn [negb].
    rewrite shiftr_half, IH.
    + replace (top (length ls) - l)%nat with (S (top (length ls) - S l)) by lia.
      rewrite Nat.Div0.div_div, <- Nat.pow_succ_r'. done.
    + by apply parent_hash.
    + rewrite Nat.pow_succ_r'. pose proof (Nat.Div0.mul_div_le q 2). pose proof (pow2_pos l). nia.
    + lia.
    + lia.
  - assert (l = top (length ls)) as <- by (rewrite <- Ht2 in E; lia).
    rewrite Nat.sub_diag, Nat.pow_0_r, Nat.div_1_r. done.
Qed.

Lemma top_root mt ls :
  mt_repr ls mt -> (0 < length ls)%nat ->
  exists al h, level_at mt (top (length ls)) = Ret al /\ mt_al_get (Some al) 0 = Ret (Some h) /\
    root ls = Some h /\ (top (length ls) <= 26)%nat.
Proof.
  intros [He Hlim Hls Hlen Hlev] Hn.
  pose proof (top_le_26 _ Hn Hlim) as Ht26.
  destruct (level_at_ok _ _ _ (Hlev (top (length ls)) ltac:(lia))) as (al & E & Hr).
  pose proof (count_top _ Hn) as Hc. destruct (count_node ls _ _ Hc) as [h Hh].
  exists al, h. split_and!; try done.
  change 0 with (Z.of_nat 0). rewrite (mt_al_get_repr _ _ _ Hr), level_nodes_lookup by done.
  by rewrite Hh.
Qed.

(** The result of [mt_verify], as a comparison of digests. *)
Lemma mt_verify_path mt ls tag len off :
  mt_repr ls mt -> (off < length ls)%nat -> 0 <= len <= HASH_LENGTH ->
  len <= Z.of_nat (length tag) -> bytes_ok tag ->
  mt_verify (Some mt) (Some tag) len (Z.of_nat off) =
  Ret (if decide (root ls = Some (path ls 0 off (leaf_of tag len) (top (length ls))))
       then MT_SUCCESS else MT_ERR_ROOT_MISMATCH).
Proof.
  intros Hm Hoff Hlen Htag Hok. pose proof Hm as [He Hlim Hls Hlv Hlev].
  destruct (top_root mt ls Hm ltac:(lia)) as (al & h & E1 & E2 & E3 & Ht).
  unfold mt_verify. rewrite He, (proj2 (Z.leb_le _ _)), (proj2 (Z.ltb_lt _ _)) by lia.
  cbn [negb andb]. rewrite mt_init_hash_leaf by done. cbn [mbind outcome_bind].
  rewrite (verify_loop_path mt ls) by
    (done || lia || (by apply length_leaf_of) || (rewrite Nat.pow_0_r; lia) ||
     (change (Z.to_nat TREE_LEVELS) with 30%nat; lia)).
  cbn [mbind outcome_bind]. rewrite is_success_ok. cbn [negb].
  rewrite E1, Nat.sub_0_r. cbn [mbind outcome_bind].
  rewrite (Nat.div_small off) by (destruct (top_spec (length ls)); lia).
  change (Z.of_nat 0) with 0. rewrite E2, E3. cbn [mbind outcome_bind same_hash deref].
  case_decide as Ed; case_bool_decide as Eb; congruence.
Qed.

Lemma mt_verify_complete mt ls tag len off :
  mt_repr ls mt -> 0 <= len <= HASH_LENGTH -> len <= Z.of_nat (length tag) -> bytes_ok tag ->
  ls !! off = Some (leaf_of tag len) ->
  mt_verify (Some mt) (Some tag) len (Z.of_nat off) = Ret MT_SUCCESS.
Proof.
  intros Hm Hlen Htag Hok Hl. pose proof (lookup_lt_Some _ _ _ Hl) as Hlt.
  rewrite (mt_verify_path mt ls) by done. rewrite decide_True; [done|].
  pose proof (path_node ls 0 off _ (top (length ls)) Hl) as E.
  rewrite Nat.add_0_l, Nat.div_small in E; [done|].
  destruct (top_spec (length ls)); lia.
Qed.

Lemma mt_verify_sound mt ls tag len off :
  mt_repr ls mt -> (off < length ls)%nat -> 0 <= len <= HASH_LENGTH ->
  len <= Z.of_nat (length tag) -> bytes_ok tag ->
  mt_verify (Some mt) (Some tag) len (Z.of_nat off) = Ret MT_SUCCESS ->
  exists h, ls !! off = Some h /\ (h = leaf_of tag len \/ path_collision ls 0 off (leaf_of tag len) h (top (length ls))).
Proof.
  intros Hm Hlt Hlen Htag Hok. rewrite (mt_verify_path mt ls) by done.
  case_decide as E; [intros _|discriminate].
  destruct (lookup_lt_is_Some_2 ls off Hlt) as [h Hh]. exists h. split; [done|].
  pose proof (path_node ls 0 off h (top (length ls)) Hh) as E2.
  rewrite Nat.add_0_l, Nat.div_small in E2 by (destruct (top_spec (length ls)); lia).
  unfold root in E. rewrite E in E2. injection E2 as E2.
  destruct (path_inj ls 0 off (leaf_of tag len) h (top (length ls))); auto.
Qed.

(** ** Changing one level *)

Lemma set_level_same mt ls k al :
  (k < length (mt_level mt))%nat -> al_repr (level_nodes ls k) al ->
  lvl_ok (set_level mt k al) ls k.
Proof. intros Hk Hr. exists al. split; [|done]. by apply list_lookup_insert_eq. Qed.

Lemma set_level_other mt ls k j al :
  lvl_ok mt ls j -> j <> k -> lvl_ok (set_level mt k al) ls j.
Proof.
  intros (al' & E & Hr) Hj. exists al'. split; [|done].
  simpl. by rewrite list_lookup_insert_ne.
Qed.

(** During a climb the levels up to [l] hold the new leaves, those above the old ones. *)
Definition mixed mt ls ls' l : Prop :=
  length (mt_level mt) = 30%nat /\
  (forall k, (k <= l)%nat -> (k < 30)%nat -> lvl_ok mt ls' k) /\
  (forall k, (l < k)%nat -> (k < 30)%nat -> lvl_ok mt ls k).

Lemma mixed_step mt ls ls' l al :
  mixed mt ls ls' l -> (S l < 30)%nat -> al_repr (level_nodes ls' (S l)) al ->
  mixed (set_level mt (S l) al) ls ls' (S l).
Proof.
  intros (Hlen & H1 & H2) Hl Hr. unfold mixed. split_and!.
  - simpl. by rewrite length_insert.
  - intros k Hk Hk30. destruct (decide (k = S l)) as [->|].
    + apply set_level_same; [lia|done].
    + apply set_level_other; [apply H1; lia|done].
  - intros k Hk Hk30. apply set_level_other; [apply H2; lia|lia].
Qed.

(** A level that stores the same nodes for both lists is already right. *)
Lemma mixed_skip mt ls ls' l :
  mixed mt ls ls' l -> level_nodes ls (S l) = level_nodes ls' (S l) -> mixed mt ls ls' (S l).
Proof.
  intros (Hlen & H1 & H2) E. unfold mixed. split_and!; [done| |].
  - intros k Hk Hk30. destruct (decide (k = S l)) as [->|]; [|apply H1; lia].
    destruct (H2 (S l) ltac:(lia) ltac:(lia)) as (al & Ea & Hr). exists al. by rewrite <- E.
  - intros k Hk Hk30. apply H2; lia.
Qed.

(** The climb is over when nothing is stored above. *)
Lemma mixed_done mt ls ls' l :
  mixed mt ls ls' l -> (length ls <= 2 ^ l)%nat -> (length ls' <= 2 ^ l)%nat ->
  forall k, (k < 30)%nat -> lvl_ok mt ls' k.
Proof.
  intros (Hlen & H1 & H2) Hl Hl' k Hk. destruct (decide (k <= l)%nat); [by apply H1|].
  destruct k as [|k]; [lia|].
  assert (2 ^ l <= 2 ^ k)%nat by (apply Nat.pow_le_mono_r; lia).
  destruct (H2 (S k) ltac:(lia) Hk) as (al & Ea & Hr). exists al. split; [done|].
  rewrite level_nodes_above in Hr |- * by lia. done.
Qed.

(** ** mt_update *)

Lemma update_level_nodes ls ls' off x l d :
  ls' = <[off := x]> ls ->
  node ls' (S l) (off / 2 ^ S l) = Some d ->
  <[(off / 2 ^ S l)%nat := d]> (level_nodes ls (S l)) = level_nodes ls' (S l).
Proof.
  intros -> Hd. apply list_eq. intros i.
  assert (count (length (<[off := x]> ls)) (S l) = count (length ls) (S l)) as Hc
    by by rewrite length_insert.
  destruct (decide (i < count (length ls) (S l))%nat) as [Hi|Hi].
  - rewrite (level_nodes_lookup (<[off := x]> ls)) by lia.
    destruct (decide (i = off / 2 ^ S l)%nat) as [->|Hne].
    + rewrite list_lookup_insert_eq by by rewrite length_level_nodes. done.
    + rewrite list_lookup_insert_ne, level_nodes_lookup by done. apply node_agree. intros j Hj.
      rewrite list_lookup_insert_ne; [done|]. intros ->. apply Hne.
      apply (Nat.div_unique _ _ _ (j - i * 2 ^ S l)); lia.
  - rewrite !lookup_ge_None_2; [done| |];
      rewrite ?length_insert, length_level_nodes; rewrite ?length_insert; lia.
Qed.

Lemma update_loop_ok mt ls off x fuel l d :
  let ls' := <[off := x]> ls in
  mixed mt ls ls' l -> Forall is_hash ls' -> Z.of_nat (length ls) <= AL_LIMIT ->
  (off < length ls)%nat -> node ls' l (off / 2 ^ l) = Some d ->
  (l <= top (length ls))%nat -> (top (length ls) - l < fuel)%nat ->
  exists mt' d', update_loop fuel mt (Z.of_nat (off / 2 ^ l)) l d =
      Ret (MT_SUCCESS, mt', 0, top (length ls), d') /\
    mt_elems mt' = mt_elems mt /\ length (mt_level mt') = 30%nat /\
    (forall k, (k < 30)%nat -> lvl_ok mt' ls' k) /\ root ls' = Some d'.
Proof.
  intros ls'. assert (length ls' = length ls) as Hl' by apply length_insert.
  revert mt l d. induction fuel as [|fuel IH]; intros mt l d Hm Hh Hlim Hoff Hd Hl Hf; [lia|].
  pose proof (top_le_26 (length ls) ltac:(lia) Hlim) as Ht.
  destruct (top_spec (length ls) ltac:(lia)) as [Ht1 Ht2].
  pose proof Hm as (Hlen & H1 & H2).
  cbn [update_loop]. rewrite (hasNext_spec mt ls) by (try apply H2; lia).
  cbn [mbind outcome_bind]. case_bool_decide as E; cbn [negb].
  - assert (l < top (length ls))%nat as Hlt by by apply Ht2.
    assert (off / 2 ^ l * 2 ^ l < length ls')%nat as Hq.
    { rewrite Hl'. pose proof (Nat.Div0.mul_div_le off (2 ^ l)). lia. }
    rewrite (climb_parent mt ls'); [|intros; apply H1; lia|done|by eapply node_hash|lia|lia|done].
    cbn [mbind outcome_bind]. rewrite is_success_ok. cbn [negb].
    set (d1 := parent ls' l (off / 2 ^ l) d).
    assert (node ls' (S l) (off / 2 ^ S l) = Some d1) as Hd1
      by (rewrite div_pow2_S; by apply parent_node).
    rewrite shiftr_half, <- div_pow2_S.
    destruct (level_at_ok _ _ _ (H2 (S l) ltac:(lia) ltac:(lia))) as (al & -> & Hr).
    cbn [mbind outcome_bind].
    destruct (mt_al_update_if_exists_repr _ _ (off / 2 ^ S l) d1 Hr) as (al' & -> & Hr');
      [by eapply node_hash|].
    cbn [mbind outcome_bind]. rewrite is_success_ok. cbn [negb].
    rewrite (update_level_nodes ls ls' off x) in Hr' by done.
    destruct (IH (set_level mt (S l) al') (S l) d1) as (mt' & d' & -> & F);
      [apply mixed_step; [done|lia|done]|done|done|done|done|lia|lia|]. eauto.
  - assert (l = top (length ls)) as -> by (rewrite <- Ht2 in E; lia).
    rewrite (Nat.div_small off) in * by lia.
    exists mt, d. split_and!; try done.
    + apply (mixed_done mt ls ls' (top (length ls))); [done|lia|lia].
    + unfold root. by rewrite Hl'.
Qed.

Lemma mt_update_repr mt ls tag len off :
  mt_repr ls mt -> (off < length ls)%nat -> 0 <= len <= HASH_LENGTH ->
  len <= Z.of_nat (length tag) -> bytes_ok tag ->
  exists mt', mt_update (Some mt) (Some tag) len (Z.of_nat off) = Ret (MT_SUCCESS, Some mt') /\
              mt_repr (<[off := leaf_of tag len]> ls) mt'.
Proof.
  intros Hm Hoff Hlen Htag Hok. pose proof Hm as [He Hlim Hls Hlv Hlev].
  set (x := leaf_of tag len). assert (is_hash x) as Hx by by apply length_leaf_of.
  set (ls' := <[off := x]> ls).
  assert (length ls' = length ls) as Hl' by apply length_insert.
  assert (Forall is_hash ls') as Hls' by by apply Forall_insert.
  unfold mt_update. rewrite He, (proj2 (Z.leb_le _ _)), (proj2 (Z.ltb_lt _ _)) by lia.
  cbn [negb andb]. rewrite mt_init_hash_leaf by done. cbn [mbind outcome_bind]. fold x.
  destruct (level_at_ok _ _ _ (Hlev 0%nat ltac:(lia))) as (al & -> & Hr). cbn [mbind outcome_bind].
  destruct (mt_al_update_repr _ _ off x Hr Hx) as (al' & -> & Hr');
    [by rewrite length_level_nodes|]. cbn [mbind outcome_bind]. rewrite is_success_ok. cbn [negb].
  rewrite level_nodes_0 in Hr'. rewrite <- (level_nodes_0 (<[off := x]> ls)) in Hr'.
  destruct (update_loop_ok (set_level mt 0 al') ls off x 30 0 x) as
    (mt' & d' & E & F1 & F2 & F3 & F4); try done.
  - unfold mixed. split_and!; [simpl; by rewrite length_insert| |].
    + intros k Hk _. assert (k = 0%nat) as -> by lia. apply set_level_same; [lia|done].
    + intros k Hk Hk30. apply set_level_other; [by apply Hlev|lia].
  - cbn [node]. rewrite Nat.pow_0_r, Nat.div_1_r. by apply list_lookup_insert_eq.
  - lia.
  - pose proof (top_le_26 (length ls)). lia.
  - rewrite Nat.pow_0_r, Nat.div_1_r in E. change (Z.to_nat TREE_LEVELS) with 30%nat.
    rewrite E. cbn [mbind outcome_bind]. rewrite is_success_ok. cbn [negb].
    assert (mt_repr ls' mt') as Hm'.
    { constructor; try done; rewrite ?Hl'; [|done]. by rewrite F1. }
    destruct (top_root mt' ls' Hm' ltac:(lia)) as (al2 & h & E1 & E2 & E3 & _).
    rewrite Hl' in E1. rewrite E1. cbn [mbind outcome_bind]. rewrite E2.
    unfold ls' in E3. rewrite F4 in E3. injection E3 as ->.
    cbn [mbind outcome_bind same_hash deref]. rewrite bool_decide_true by done.
    exists mt'. done.
Qed.

(** ** mt_add *)

(** Leaves [ls], and one more: what changes at level [l + 1]. *)
Lemma count_add n l :
  count (n + 1) (S l) =
  if Nat.even (n / 2 ^ l) then count n (S l) else S (n / 2 ^ S l).
Proof.
  pose proof (pow2_pos l) as Hp. set (q := (n / 2 ^ l)%nat).
  pose proof (Nat.div_mod_eq n (2 ^ l)) as Hdm. fold q in Hdm.
  pose proof (Nat.mod_upper_bound n (2 ^ l) ltac:(lia)) as Hmod.
  assert (forall a b, (forall i, (i < a)%nat <-> (i < b)%nat) -> a = b) as Hext.
  { intros a b Hab. pose proof (Hab a). pose proof (Hab b). lia. }
  rewrite div_pow2_S. fold q.
  destruct (Nat.even q) eqn:Ev; apply Hext; intros i; rewrite !count_lt.
  - apply even_half in Ev. split; intros; [|lia].
    destruct (decide ((2 * i + 1) * 2 ^ l = n)%nat); [|lia]. exfalso.
    assert (2 * i + 1 = q)%nat by (apply (Nat.div_unique_exact n); lia). lia.
  - apply odd_half in Ev. split; intros; nia.
Qed.

(** The old level has the new node, or ends just before it. *)
Lemma count_old n l :
  Nat.even (n / 2 ^ l) = false ->
  (count n (S l) = n / 2 ^ S l \/ count n (S l) = S (n / 2 ^ S l))%nat.
Proof.
  intros Ev. pose proof (pow2_pos l) as Hp. rewrite div_pow2_S. set (q := (n / 2 ^ l)%nat) in *.
  pose proof (Nat.div_mod_eq n (2 ^ l)) as Hdm. fold q in Hdm.
  pose proof (Nat.mod_upper_bound n (2 ^ l) ltac:(lia)) as Hmod. apply odd_half in Ev.
  pose proof (count_lt n l (q / 2)). pose proof (count_lt n l (q / 2 - 1)).
  pose proof (count_lt n l (S (q / 2))).
  destruct (decide (q / 2 = 0)%nat); nia.
Qed.

Lemma node_old ls x l i :
  ((i + 1) * 2 ^ l <= length ls)%nat -> node (ls ++ [x]) l i = node ls l i.
Proof. intros Hi. apply node_agree. intros j Hj. apply lookup_app_l. lia. Qed.

(** A node whose index is below that of the new leaf's ancestor is complete. *)
Lemma below_complete n l i : (i < n / 2 ^ l)%nat -> ((i + 1) * 2 ^ l <= n)%nat.
Proof.
  intros Hi. pose proof (pow2_pos l). pose proof (Nat.Div0.mul_div_le n (2 ^ l)). nia.
Qed.

Lemma add_level_even ls x l :
  Nat.even (length ls / 2 ^ l) = true -> level_nodes ls (S l) = level_nodes (ls ++ [x]) (S l).
Proof.
  intros Ev. pose proof (count_add (length ls) l) as Hc. rewrite Ev in Hc.
  apply level_nodes_ext; rewrite ?length_app; simpl length; [done|].
  intros i Hi. symmetry. apply node_old. apply below_complete.
  apply count_lt in Hi. pose proof (pow2_pos l) as Hp.
  pose proof (Nat.div_mod_eq (length ls) (2 ^ l)) as Hdm.
  pose proof (Nat.mod_upper_bound (length ls) (2 ^ l) ltac:(lia)) as Hmod.
  rewrite div_pow2_S. set (q := (length ls / 2 ^ l)%nat) in *.
  apply even_half in Ev. nia.
Qed.

Lemma add_level_odd ls x l d :
  Nat.even (length ls / 2 ^ l) = false ->
  node (ls ++ [x]) (S l) (length ls / 2 ^ S l) = Some d ->
  let i := (length ls / 2 ^ S l)%nat in
  take i (level_nodes ls (S l)) ++ [d] ++ drop (S i) (level_nodes ls (S l)) =
  level_nodes (ls ++ [x]) (S l).
Proof.
  intros Ev Hd i. fold i in Hd. pose proof (count_add (length ls) l) as Hc. rewrite Ev in Hc.
  destruct (count_old (length ls) l Ev) as [Ho|Ho];
    (rewrite drop_ge by (rewrite length_level_nodes, Ho; unfold i; lia)); rewrite app_nil_r.
  all: apply list_eq; intros j.
  all: assert (length (ls ++ [x]) = length ls + 1)%nat as Hl by by rewrite length_app.
  all: assert (length (take i (level_nodes ls (S l))) = i) as Hi
         by (rewrite length_take, length_level_nodes, Ho; unfold i; lia).
  all: destruct (decide (j < i)%nat) as [Hj|Hj];
    [rewrite lookup_app_l, lookup_take_lt, !level_nodes_lookup by
       (rewrite ?Hi, ?Hl, ?Ho, ?Hc; unfold i in *; lia);
     symmetry; apply node_old, below_complete; done|].
  all: destruct (decide (j = i)) as [->|Hne];
    [rewrite lookup_app_r, Hi, Nat.sub_diag, level_nodes_lookup by (rewrite ?Hi, ?Hl, ?Hc; unfold i; lia);
     by rewrite Hd|].
  all: rewrite (lookup_ge_None_2 (take i _ ++ [d])) by (rewrite length_snoc, Hi; lia).
  all: by rewrite lookup_ge_None_2 by (rewrite length_level_nodes, Hl, Hc; unfold i in *; lia).
Qed.

(** The climb of [mt_add]: it stops at the first level where the new leaf is in node 0. *)
Lemma add_loop_ok r mt ls x fuel l d :
  let ls' := ls ++ [x] in
  mixed mt ls ls' l -> Forall is_hash ls' -> Z.of_nat (length ls') <= AL_LIMIT ->
  node ls' l (length ls / 2 ^ l) = Some d -> (forall k, granted (r k) = true) ->
  (0 < length ls)%nat -> (l + fuel = 30)%nat ->
  (length ls / 2 ^ l = 0 -> l = top (length ls'))%nat ->
  exists mt' d', add_loop fuel r mt (Z.of_nat (length ls / 2 ^ l)) l d =
      Ret (MT_SUCCESS, mt', 0, top (length ls'), d') /\
    mt_elems mt' = mt_elems mt /\ length (mt_level mt') = 30%nat /\
    (forall k, (k < 30)%nat -> lvl_ok mt' ls' k) /\ root ls' = Some d'.
Proof.
  intros ls'. assert (length ls' = length ls + 1)%nat as Hl' by apply length_app.
  revert mt l d. induction fuel as [|fuel IH]; intros mt l d Hm Hh Hlim Hd Hr Hn Hf Htop.
  { exfalso. assert (length ls / 2 ^ l = 0)%nat as E.
    { apply Nat.div_small. apply Nat2Z.inj_lt. rewrite pow2_Z. replace l with 30%nat by lia.
      unfold AL_LIMIT in Hlim. simpl Z.of_nat. lia. }
    pose proof (top_le_26 (length ls') ltac:(lia) Hlim). specialize (Htop E). lia. }
  set (q := (length ls / 2 ^ l)%nat) in *.
  cbn [add_loop]. destruct (Z.eqb_spec (Z.of_nat q) 0) as [E0|E0].
  - assert (q = 0%nat) as Hq0 by lia. specialize (Htop Hq0). subst l.
    destruct (top_spec (length ls') ltac:(lia)) as [Ht1 _].
    rewrite Hq0 in *. exists mt, d. split_and!; try done; [apply Hm|].
    apply (mixed_done mt ls ls' (top (length ls'))); [done|lia|lia].
  - assert (2 ^ l <= length ls)%nat as Hpow.
    { apply Nat.nlt_ge. intros Hlt. apply E0. unfold q. rewrite Nat.div_small; done. }
    assert (S l <= top (length ls'))%nat as Hltop.
    { destruct (top_spec (length ls') ltac:(lia)) as [_ Ht2]. apply Ht2. lia. }
    pose proof (top_le_26 (length ls') ltac:(lia) Hlim) as Ht26.
    assert (length ls / 2 ^ S l = 0 -> S l = top (length ls'))%nat as Htop'.
    { intros E. destruct (decide (S l = top (length ls'))) as [|Hne]; [done|exfalso].
      destruct (top_spec (length ls') ltac:(lia)) as [_ Ht2].
      assert (2 ^ S l < length ls')%nat as Hlt by (apply Ht2; lia).
      pose proof (Nat.div_str_pos (length ls) (2 ^ S l)). pose proof (pow2_pos (S l)). lia. }
    pose proof Hm as (Hlen & H1 & H2).
    assert (q / 2 = length ls / 2 ^ S l)%nat as Eq2 by (symmetry; apply div_pow2_S).
    rewrite mt_right_odd, shiftr_half, Eq2.
    destruct (Nat.even q) eqn:Ev; cbn [negb].
    + apply IH; [|done|done| |done|done|lia|done].
      * apply mixed_skip; [done|]. by apply add_level_even.
      * rewrite <- Eq2, (parent_node _ _ _ _ Hd). unfold parent. rewrite Ev.
        rewrite node_None; [done|]. rewrite Hl'.
        pose proof (Nat.mod_upper_bound (length ls) (2 ^ l)). pose proof (pow2_pos l).
        pose proof (Nat.div_mod_eq (length ls) (2 ^ l)) as Hdm. fold q in Hdm. lia.
    + destruct (level_at_ok _ _ _ (H1 l ltac:(lia) ltac:(lia))) as (al & -> & Hal).
      cbn [mbind outcome_bind].
      pose proof (odd_half q Ev) as Eq.
      pose proof (Nat.Div0.mul_div_le (length ls) (2 ^ l)) as Hql. fold q in Hql.
      pose proof (pow2_pos l) as Hp.
      assert (q <= length ls)%nat as Hqn by nia.
      rewrite u32_id by (unfold AL_LIMIT in Hlim; lia).
      replace (Z.of_nat q - 1) with (Z.of_nat (q - 1)) by lia. rewrite (mt_al_get_repr _ _ _ Hal).
      assert (q - 1 < count (length ls') l)%nat as Hc.
      { destruct l as [|l]; [simpl in *; lia|]. apply count_lt. rewrite Nat.pow_succ_r' in Hql. nia. }
      rewrite level_nodes_lookup by done. cbn [mbind outcome_bind].
      destruct (count_node ls' l _ Hc) as [a Ea]. rewrite Ea.
      assert (is_hash a /\ is_hash d) as [Ha Hdh] by (split; by eapply node_hash).
      rewrite hash_node_ok by done. cbn [mbind outcome_bind]. rewrite is_success_ok. cbn [negb].
      assert (node ls' (S l) (length ls / 2 ^ S l) = Some (node_of a d)) as Hd1.
      { rewrite <- Eq2, (parent_node _ _ _ _ Hd). unfold parent. by rewrite Ev, Ea. }
      destruct (level_at_ok _ _ _ (H2 (S l) ltac:(lia) ltac:(lia))) as (up & -> & Hup).
      cbn [mbind outcome_bind].
      destruct (mt_al_add_or_update_repr (r (S l)) _ up (length ls / 2 ^ S l) (node_of a d) Hup)
        as (up' & -> & Hup'); [by apply node_of_hash| | |done|].
      { rewrite length_level_nodes. destruct (count_old (length ls) l Ev) as [-> | ->]; lia. }
      { rewrite <- Eq2. unfold AL_LIMIT in *. lia. }
      cbn [mbind outcome_bind]. rewrite is_success_ok. cbn [negb].
      rewrite (add_level_odd ls x l _ Ev Hd1) in Hup'.
      destruct (IH (set_level mt (S l) up') (S l) (node_of a d)) as (mt' & d' & -> & F);
        [apply mixed_step; [done|lia|done]|done|done|done|done|done|lia|done|]. eauto.
Qed.

Lemma mt_add_repr r mt ls tag len :
  mt_repr ls mt -> Z.of_nat (length ls) < AL_LIMIT -> 0 <= len <= HASH_LENGTH ->
  len <= Z.of_nat (length tag) -> bytes_ok tag -> (forall k, granted (r k) = true) ->
  exists mt', mt_add r (Some mt) (Some tag) len = Ret (MT_SUCCESS, Some mt') /\
              mt_repr (ls ++ [leaf_of tag len]) mt'.
Proof.
  intros Hm Hlim Hlen Htag Hok Hr. pose proof Hm as [He _ Hls Hlv Hlev].
  set (x := leaf_of tag len). assert (is_hash x) as Hx by by apply length_leaf_of.
  set (ls' := ls ++ [x]).
  assert (length ls' = length ls + 1)%nat as Hl' by apply length_app.
  assert (Z.of_nat (length ls') <= AL_LIMIT) as Hlim' by lia.
  assert (Forall is_hash ls') as Hls' by (apply Forall_app; split; [done|by constructor]).
  unfold mt_add. rewrite (proj2 (Z.ltb_ge _ _)) by lia.
  rewrite mt_init_hash_leaf by done. cbn [mbind outcome_bind]. fold x.
  destruct (level_at_ok _ _ _ (Hlev 0%nat ltac:(lia))) as (al & -> & Hal). cbn [mbind outcome_bind].
  destruct (mt_al_add_repr (r 0%nat) _ _ x Hal Hx) as (al' & -> & Hal');
    [by rewrite length_level_nodes|done|].
  cbn [mbind outcome_bind]. rewrite is_success_ok. cbn [negb].
  rewrite level_nodes_0 in Hal'. rewrite <- (level_nodes_0 (ls ++ [x])) in Hal'.
  cbn [mt_elems set_level]. rewrite He, u32_id by (unfold AL_LIMIT in *; lia).
  set (mt1 := mkMt (Z.of_nat (length ls) + 1) _).
  assert (mixed mt1 ls ls' 0) as Hmix.
  { unfold mixed, mt1. split_and!; [simpl; by rewrite length_insert| |].
    + intros k Hk _. assert (k = 0%nat) as -> by lia. by apply set_level_same; [lia|].
    + intros k Hk Hk30. by apply set_level_other; [apply Hlev|lia]. }
  destruct (Z.eqb_spec (Z.of_nat (length ls) + 1) 1) as [E1|E1].
  - (* the first leaf *)
    exists mt1. split; [done|]. assert (ls = []) as -> by (apply nil_length_inv; lia).
    constructor; [done|done|done|apply Hmix|].
    apply (mixed_done mt1 [] ls' 0); [done|simpl; lia|simpl; lia].
  - assert (0 < length ls)%nat as Hn by lia.
    destruct (add_loop_ok r mt1 ls x 30 0 x) as (mt' & d' & E & F1 & F2 & F3 & F4);
      try done; rewrite ?Nat.pow_0_r, ?Nat.div_1_r in *.
    + cbn [node]. rewrite lookup_app_r, Nat.sub_diag by lia. done.
    + lia.
    + change (Z.to_nat TREE_LEVELS) with 30%nat.
      replace (u32 (Z.of_nat (length ls) + 1 - 1)) with (Z.of_nat (length ls))
        by (rewrite u32_id; unfold AL_LIMIT in *; lia).
      rewrite E. cbn [mbind outcome_bind]. rewrite is_success_ok. cbn [negb].
      assert (mt_repr ls' mt') as Hm'.
      { constructor; try done. rewrite F1. simpl. lia. }
      destruct (top_root mt' ls' Hm' ltac:(lia)) as (al2 & h & G1 & G2 & G3 & _).
      fold ls'. rewrite G1. cbn [mbind outcome_bind]. rewrite G2.
      unfold ls' in G3. rewrite F4 in G3. injection G3 as ->.
      cbn [mbind outcome_bind same_hash deref]. rewrite bool_decide_true by done.
      exists mt'. done.
Qed.
End Facts.
