(* ===== verification/MerkleTheorems.v ===== *)
(** * The Merkle tree as a component

    Creation, deletion and root lookup; the tree as a refinement of a list of leaves under
    any sequence of calls; what verification guarantees when nodes are hashed by SHA-256. *)

From S2P Require Import Prelude Sha256Facts MtCrypto MtCryptoFacts MtArrayList MtArrayListFacts.
From S2P Require Import MerkleTree MerkleSpec MerkleFacts.

Section Ops.
Context `{NodeHash}.
Implicit Types (ls : list (list Z)) (mt : mt_t).

(** ** mt_get_root *)

Lemma root_level_top mt ls fuel l :
  mt_repr ls mt -> (0 < length ls)%nat -> (l <= top (length ls))%nat ->
  (top (length ls) - l < fuel)%nat -> root_level fuel mt l = Ret (top (length ls)).
Proof.
  intros Hm Hn. pose proof Hm as [He Hlim Hls Hlen Hlev].
  destruct (top_spec (length ls) Hn) as [Ht1 Ht2].
  pose proof (top_le_26 _ Hn Hlim) as Ht26.
  revert l. induction fuel as [|fuel IH]; intros l Hl Hf; [lia|].
  cbn [root_level]. rewrite (hasNext_spec mt ls) by (try apply Hlev; lia).
  cbn [mbind outcome_bind]. case_bool_decide as E; cbn [negb].
  - apply Ht2 in E. apply IH; lia.
  - rewrite <- Ht2 in E. f_equal. lia.
Qed.

Lemma mt_get_root_repr mt ls :
  mt_repr ls mt -> (0 < length ls)%nat ->
  exists h, mt_get_root (Some mt) true = Ret (MT_SUCCESS, h) /\ root ls = Some h.
Proof.
  intros Hm Hn. destruct (top_root mt ls Hm Hn) as (al & h & E1 & E2 & E3 & Ht).
  exists h. split; [|done]. unfold mt_get_root.
  rewrite (root_level_top mt ls) by (done || lia || (change (Z.to_nat TREE_LEVELS) with 30%nat; lia)).
  cbn [mbind outcome_bind]. rewrite E1. cbn [mbind outcome_bind]. rewrite E2. done.
Qed.

(** The empty tree: [mt_al_get] returns null, which [memcpy] then reads. *)
Lemma mt_get_root_empty mt : mt_repr [] mt -> mt_get_root (Some mt) true = Ub.
Proof.
  intros Hm. pose proof Hm as [He Hlim Hls Hlen Hlev]. unfold mt_get_root.
  change (Z.to_nat TREE_LEVELS) with 30%nat. cbn [root_level].
  rewrite (hasNext_spec mt [] 0) by (try apply Hlev; lia). cbn [mbind outcome_bind negb].
  rewrite bool_decide_false by (simpl; lia). cbn [negb mbind outcome_bind].
  destruct (level_at_ok _ _ _ (Hlev 0%nat ltac:(lia))) as (al & -> & Hr). cbn [mbind outcome_bind].
  change 0 with (Z.of_nat 0). by rewrite (mt_al_get_repr _ _ _ Hr).
Qed.

Lemma mt_get_size_repr mt ls : mt_repr ls mt -> mt_get_size (Some mt) = Ret (Z.of_nat (length ls)).
Proof.
  intros [He Hlim Hls Hlen Hlev]. unfold mt_get_size.
  destruct (level_at_ok _ _ _ (Hlev 0%nat ltac:(lia))) as (al & -> & Hr).
  cbn [mbind outcome_bind]. by rewrite (level_size mt ls 0 al Hr).
Qed.

Lemma mt_exists_repr mt ls (off : nat) :
  mt_repr ls mt -> Z.of_nat off <= MT_AL_MAX_ELEMS ->
  mt_exists (Some mt) (Z.of_nat off) = Ret (c_bool (bool_decide (off < length ls)%nat)).
Proof.
  intros [He Hlim Hls Hlen Hlev] Ho. unfold mt_exists. rewrite (proj2 (Z.ltb_ge _ _)) by lia.
  destruct (level_at_ok _ _ _ (Hlev 0%nat ltac:(lia))) as (al & -> & Hr).
  cbn [mbind outcome_bind]. rewrite (mt_al_get_repr _ _ _ Hr), level_nodes_0.
  cbn [mbind outcome_bind]. do 2 f_equal. apply bool_decide_ext. apply lookup_lt_is_Some.
Qed.

(** ** mt_create and mt_delete *)

Lemma create_levels_ok r n levels :
  (forall k, granted (r k) = true) ->
  create_levels r n levels = Ret (Some (levels ++ replicate n (mkAl 0 Null))).
Proof.
  intros Hr. revert levels. induction n as [|n IH]; intros levels; cbn [create_levels].
  - by rewrite app_nil_r.
  - unfold mt_al_create. by rewrite Hr, IH, <- app_assoc.
Qed.

Lemma empty_levels_delete n : delete_levels (replicate n (mkAl 0 Null)) = Ret tt.
Proof. by induction n. Qed.

(** A refused allocation releases the levels already created. *)
Lemma create_levels_refused r n m k :
  granted (r k) = false -> (m <= k < m + n)%nat ->
  create_levels r n (replicate m (mkAl 0 Null)) = Ret None.
Proof.
  intros Hk. revert m. induction n as [|n IH]; intros m Hm; [lia|].
  cbn [create_levels]. rewrite length_replicate. unfold mt_al_create.
  destruct (granted (r m)) eqn:E.
  - change [mkAl 0 Null] with (replicate 1 (mkAl 0 Null)). rewrite <- replicate_add.
    rewrite IH; [done|]. destruct (decide (k = m)); [congruence|lia].
  - by rewrite empty_levels_delete.
Qed.

Lemma mt_create_repr r0 r :
  granted r0 = true -> (forall k, granted (r k) = true) ->
  mt_create r0 r = Ret (Some (mkMt 0 (replicate 30 (mkAl 0 Null)))) /\
  mt_repr [] (mkMt 0 (replicate 30 (mkAl 0 Null))).
Proof.
  intros Hr0 Hr. unfold mt_create. rewrite Hr0, create_levels_ok by done. split; [done|].
  constructor; [done|unfold AL_LIMIT; simpl; lia|done|done|].
  intros k Hk. exists (mkAl 0 Null). split; [by apply lookup_replicate_2|].
  assert (level_nodes [] k = []) as ->.
  { destruct k as [|k]; [done|]. apply level_nodes_above. simpl. lia. }
  by apply (al_create_repr (mkReply true (fun _ => 0))).
Qed.

(** A level can be freed unless its block already was. *)
Definition deletable mt : Prop := Forall (fun al => al_store al <> Dangling) (mt_level mt).

Lemma mt_delete_ok mt : deletable mt -> mt_delete (Some mt) = Ret tt.
Proof.
  unfold deletable, mt_delete. induction 1 as [|al levels Hal _ IH]; [done|].
  cbn [delete_levels]. unfold mt_al_delete, free. simpl.
  destruct (al_store al); [exact IH|exact IH|done].
Qed.

Lemma set_level_deletable mt k al :
  deletable mt -> al_store al <> Dangling -> deletable (set_level mt k al).
Proof. intros. by apply Forall_insert. Qed.

(** A successful write leaves a live block. *)
Lemma write_hash_live p off h p' : write_hash p off h = Ret p' -> p' <> Dangling.
Proof. unfold write_hash. destruct p; try done. case_match; congruence. Qed.

Lemma al_append_live al h e al' : al_append al h = Ret (e, al') -> al_store al' <> Dangling.
Proof.
  unfold al_append. destruct (write_hash _ _ _) eqn:E; simpl; intros [= <- <-].
  by eapply write_hash_live.
Qed.

Lemma al_enter_same al al' : al_enter (Some al) = Ret al' -> al' = al.
Proof. unfold al_enter, c_assert. simpl. case_match; simpl; congruence. Qed.

Lemma mt_al_add_live r al h al' :
  mt_al_add r (Some al) (Some h) = Ret (MT_SUCCESS, al') -> al_store al' <> Dangling.
Proof.
  unfold mt_al_add. destruct (al_enter _) as [al0| |] eqn:E; cbn [mbind outcome_bind]; try done.
  apply al_enter_same in E as ->.
  destruct (al_elems al =? 0).
  { destruct (malloc r HASH_LENGTH); [done|apply al_append_live..]. }
  destruct (is_power_of_two _); [|apply al_append_live].
  destruct (_ || _); [done|].
  destruct (realloc _ _ _) as [[tmp old]| |]; cbn [mbind outcome_bind]; try done.
  destruct tmp; [done|apply al_append_live..].
Qed.

Lemma mt_al_update_live al h off e al' :
  al_store al <> Dangling -> mt_al_update (Some al) (Some h) off = Ret (e, al') ->
  al_store al' <> Dangling.
Proof.
  intros Hal. unfold mt_al_update.
  destruct (al_enter _) as [al0| |] eqn:E; cbn [mbind outcome_bind]; try done.
  apply al_enter_same in E as ->. case_match; [|congruence].
  destruct (write_hash _ _ _) eqn:Ew; simpl; intros [= <- <-]. by eapply write_hash_live.
Qed.

Lemma mt_al_update_if_exists_live al h off e al' :
  al_store al <> Dangling -> mt_al_update_if_exists (Some al) (Some h) off = Ret (e, al') ->
  al_store al' <> Dangling.
Proof.
  intros Hal. unfold mt_al_update_if_exists.
  destruct (al_enter _) as [al0| |] eqn:E; cbn [mbind outcome_bind]; try done.
  apply al_enter_same in E as ->. case_match; [congruence|].
  destruct (write_hash _ _ _) eqn:Ew; simpl; intros [= <- <-]. by eapply write_hash_live.
Qed.

Lemma mt_al_add_or_update_live r al h off al' :
  al_store al <> Dangling -> mt_al_add_or_update r (Some al) (Some h) off = Ret (MT_SUCCESS, al') ->
  al_store al' <> Dangling.
Proof.
  intros Hal. unfold mt_al_add_or_update.
  destruct (al_enter _) as [al0| |]; cbn [mbind outcome_bind]; try done.
  case_match; [congruence|]. case_match; [apply mt_al_add_live|by apply mt_al_update_live].
Qed.

Lemma level_at_deletable mt l al : deletable mt -> level_at mt l = Ret al -> al_store al <> Dangling.
Proof.
  intros Hd. unfold level_at. destruct (mt_level mt !! l) as [al'|] eqn:E; simpl; intros [= <-].
  by apply (Forall_lookup_1 _ _ _ _ Hd E).
Qed.

(** Run the first call of a sequence that returns. *)
Ltac bind_step :=
  match goal with
  | |- (mbind _ ?m = Ret _ -> _) =>
    let E := fresh "E" in
    destruct m as [?| |] eqn:E; cbn [mbind outcome_bind]; [|discriminate|discriminate]
  end.

Lemma add_loop_deletable fuel r mt q l d mt' q' l' d' :
  deletable mt -> add_loop fuel r mt q l d = Ret (MT_SUCCESS, mt', q', l', d') -> deletable mt'.
Proof.
  revert mt q l d. induction fuel as [|fuel IH]; intros mt q l d Hd; cbn [add_loop].
  { by intros [= <- _ _ _]. }
  destruct (q =? 0); [by intros [= <- _ _ _]|].
  destruct (mt_right q); [|by apply IH].
  bind_step. bind_step. bind_step. destruct a1 as [e d1].
  destruct e; cbn [is_success negb bool_decide]; try discriminate. rewrite is_success_ok. cbn [negb].
  bind_step. bind_step. destruct a2 as [e up].
  destruct e; try discriminate. rewrite is_success_ok. cbn [negb].
  apply IH, set_level_deletable; [done|].
  eapply mt_al_add_or_update_live; [|done]. by eapply level_at_deletable.
Qed.

Lemma mt_add_deletable r mt tag len mt' :
  deletable mt -> mt_add r (Some mt) (Some tag) len = Ret (MT_SUCCESS, Some mt') -> deletable mt'.
Proof.
  intros Hd. unfold mt_add. destruct (HASH_LENGTH <? len); [discriminate|].
  bind_step. bind_step. bind_step. destruct a1 as [e al].
  destruct e; try discriminate. rewrite is_success_ok. cbn [negb].
  assert (deletable (set_level mt 0 al)) as Hd1.
  { apply set_level_deletable; [done|]. by eapply mt_al_add_live. }
  destruct (_ =? 1); [by intros [= <-]|].
  bind_step. destruct a1 as [[[[e mt1] q] l] d].
  destruct e; try discriminate. rewrite is_success_ok. cbn [negb].
  bind_step. bind_step. bind_step. bind_step. intros [= <-].
  eapply add_loop_deletable; [|done]. exact Hd1.
Qed.

Lemma update_loop_deletable fuel mt q l d e mt' q' l' d' :
  deletable mt -> update_loop fuel mt q l d = Ret (e, mt', q', l', d') -> deletable mt'.
Proof.
  revert mt q l d. induction fuel as [|fuel IH]; intros mt q l d Hd; cbn [update_loop]; [done|].
  bind_step. destruct a; cbn [negb]; [|by intros [= _ <- _ _ _]].
  bind_step. destruct a as [e1 d1]. destruct (is_success e1); cbn [negb];
    [|by intros [= _ <- _ _ _]].
  bind_step. bind_step. destruct a0 as [e2 al].
  assert (deletable (set_level mt (S l) al)) as Hd1.
  { apply set_level_deletable; [done|].
    eapply mt_al_update_if_exists_live; [|done]. by eapply level_at_deletable. }
  destruct (is_success e2); cbn [negb]; [by apply IH|by intros [= _ <- _ _ _]].
Qed.

Lemma mt_update_deletable mt tag len off e mt' :
  deletable mt -> mt_update (Some mt) (Some tag) len off = Ret (e, Some mt') -> deletable mt'.
Proof.
  intros Hd. unfold mt_update. destruct (negb _); [by intros [= _ <-]|].
  bind_step. bind_step. bind_step. destruct a1 as [e1 al].
  assert (deletable (set_level mt 0 al)) as Hd1.
  { apply set_level_deletable; [done|].
    eapply mt_al_update_live; [|done]. by eapply level_at_deletable. }
  destruct (is_success e1); cbn [negb]; [|by intros [= _ <-]].
  bind_step. destruct a1 as [[[[e2 mt1] q] l] d].
  pose proof (update_loop_deletable _ _ _ _ _ _ _ _ _ _ Hd1 E2) as Hd2.
  destruct (is_success e2); cbn [negb]; [|by intros [= _ <-]].
  bind_step. bind_step. bind_step. bind_step. by intros [= _ <-].
Qed.
End Ops.

(** ** The tree against a list of leaves *)

Inductive mt_op : Type :=
| OpAdd (tag : list Z) (len : Z)
| OpUpdate (tag : list Z) (len : Z) (off : nat)
| OpVerify (tag : list Z) (len : Z) (off : nat)
| OpRoot
| OpSize
| OpExists (off : nat).

Inductive mt_res : Type :=
| RCode (e : mt_error_t)
| RRoot (h : list Z)
| RNum (z : Z).

Section Refinement.
Context `{NodeHash}.
Implicit Types (ls : list (list Z)) (mt : mt_t).

(** One call of the library; [r] answers the allocations of the call. *)
Definition mt_exec (r : nat -> reply) (op : mt_op) mt : outcome (mt_res * mt_t) :=
  match op with
  | OpAdd tag len =>
    '(e, mt) ← mt_add r (Some mt) (Some tag) len; mt ← deref mt; Ret (RCode e, mt)
  | OpUpdate tag len off =>
    '(e, mt) ← mt_update (Some mt) (Some tag) len (Z.of_nat off); mt ← deref mt; Ret (RCode e, mt)
  | OpVerify tag len off =>
    e ← mt_verify (Some mt) (Some tag) len (Z.of_nat off); Ret (RCode e, mt)
  | OpRoot => '(_, h) ← mt_get_root (Some mt) true; Ret (RRoot h, mt)
  | OpSize => n ← mt_get_size (Some mt); Ret (RNum n, mt)
  | OpExists off => b ← mt_exists (Some mt) (Z.of_nat off); Ret (RNum b, mt)
  end.

(** What the call means for the leaves. *)
Definition leaves_exec (op : mt_op) ls : mt_res * list (list Z) :=
  match op with
  | OpAdd tag len =>
    if HASH_LENGTH <? len then (RCode MT_ERR_ILLEGAL_PARAM, ls)
    else (RCode MT_SUCCESS, ls ++ [leaf_of tag len])
  | OpUpdate tag len off =>
    if (len <=? HASH_LENGTH) && bool_decide (off < length ls)%nat
    then (RCode MT_SUCCESS, <[off := leaf_of tag len]> ls)
    else (RCode MT_ERR_ILLEGAL_PARAM, ls)
  | OpVerify tag len off =>
    if (len <=? HASH_LENGTH) && bool_decide (off < length ls)%nat then
      if decide (root ls = Some (path ls 0 off (leaf_of tag len) (top (length ls))))
      then (RCode MT_SUCCESS, ls) else (RCode MT_ERR_ROOT_MISMATCH, ls)
    else (RCode MT_ERR_ILLEGAL_PARAM, ls)
  | OpRoot => (RRoot (default [] (root ls)), ls)
  | OpSize => (RNum (Z.of_nat (length ls)), ls)
  | OpExists off => (RNum (c_bool (bool_decide (off < length ls)%nat)), ls)
  end.

(** What a caller must respect: tags are readable bytes, the tree holds at most 2^26
    leaves, and the root is asked for only when there is a leaf. *)
Definition tag_ok (tag : list Z) (len : Z) : Prop :=
  0 <= len <= Z.of_nat (length tag) /\ bytes_ok tag.

Definition mt_op_ok (op : mt_op) ls : Prop :=
  match op with
  | OpAdd tag len => tag_ok tag len /\ Z.of_nat (length ls) < AL_LIMIT
  | OpUpdate tag len _ | OpVerify tag len _ => tag_ok tag len
  | OpRoot => (0 < length ls)%nat
  | OpSize => True
  | OpExists off => Z.of_nat off <= MT_AL_MAX_ELEMS
  end.

Fixpoint mt_run (r : nat -> reply) (ops : list mt_op) mt : outcome (list mt_res * mt_t) :=
  match ops with
  | [] => Ret ([], mt)
  | op :: ops =>
    '(x, mt) ← mt_exec r op mt;
    '(xs, mt) ← mt_run r ops mt;
    Ret (x :: xs, mt)
  end.

Fixpoint leaves_run (ops : list mt_op) ls : list mt_res * list (list Z) :=
  match ops with
  | [] => ([], ls)
  | op :: ops =>
    let '(x, ls) := leaves_exec op ls in
    let '(xs, ls) := leaves_run ops ls in (x :: xs, ls)
  end.

Fixpoint mt_ops_ok (ops : list mt_op) ls : Prop :=
  match ops with
  | [] => True
  | op :: ops => mt_op_ok op ls /\ mt_ops_ok ops (leaves_exec op ls).2
  end.

(** The tree stands for the leaves and can be deleted. *)
Definition tree_ok ls mt : Prop := mt_repr ls mt /\ deletable mt.

Lemma leaf_guard mt ls len (off : nat) :
  mt_repr ls mt ->
  (len <=? HASH_LENGTH) && (Z.of_nat off <? mt_elems mt) =
  (len <=? HASH_LENGTH) && bool_decide (off < length ls)%nat.
Proof.
  intros Hm. f_equal. rewrite (mr_elems _ _ Hm). case_bool_decide; [apply Z.ltb_lt|apply Z.ltb_ge]; lia.
Qed.

Lemma mt_update_refused mt ls tag len (off : nat) :
  mt_repr ls mt -> (len <=? HASH_LENGTH) && bool_decide (off < length ls)%nat = false ->
  mt_update (Some mt) (Some tag) len (Z.of_nat off) = Ret (MT_ERR_ILLEGAL_PARAM, Some mt).
Proof. intros Hm E. unfold mt_update. by rewrite (leaf_guard mt ls), E. Qed.

Lemma mt_verify_refused mt ls tag len (off : nat) :
  mt_repr ls mt -> (len <=? HASH_LENGTH) && bool_decide (off < length ls)%nat = false ->
  mt_verify (Some mt) (Some tag) len (Z.of_nat off) = Ret MT_ERR_ILLEGAL_PARAM.
Proof. intros Hm E. unfold mt_verify. by rewrite (leaf_guard mt ls), E. Qed.

Lemma guard_true len (off n : nat) :
  (len <=? HASH_LENGTH) && bool_decide (off < n)%nat = true -> len <= HASH_LENGTH /\ (off < n)%nat.
Proof. rewrite andb_true_iff, Z.leb_le, bool_decide_eq_true. done. Qed.

Lemma mt_exec_repr r op ls mt :
  tree_ok ls mt -> mt_op_ok op ls -> (forall k, granted (r k) = true) ->
  exists mt', mt_exec r op mt = Ret ((leaves_exec op ls).1, mt') /\ tree_ok (leaves_exec op ls).2 mt'.
Proof.
  intros [Hm Hd] Hop Hr. destruct op as [tag len|tag len off|tag len off| | |off];
    cbn [mt_exec leaves_exec mt_op_ok] in *.
  - destruct Hop as [[Hlen Hok] Hlim]. destruct (Z.ltb_spec HASH_LENGTH len) as [El|El].
    + unfold mt_add. rewrite (proj2 (Z.ltb_lt _ _)) by lia. exists mt. done.
    + destruct (mt_add_repr r mt ls tag len) as (mt' & E & Hm'); [done..|lia|lia|done|done|].
      rewrite E. exists mt'. split; [done|]. split; [done|]. by eapply mt_add_deletable.
  - destruct Hop as [Hlen Hok]. destruct ((len <=? HASH_LENGTH) && _) eqn:Eg.
    + apply guard_true in Eg as [? ?].
      destruct (mt_update_repr mt ls tag len off) as (mt' & E & Hm'); [done..|lia|lia|done|].
      rewrite E. exists mt'. split; [done|]. split; [done|]. by eapply mt_update_deletable.
    + rewrite (mt_update_refused mt ls) by done. exists mt. done.
  - destruct Hop as [Hlen Hok]. destruct ((len <=? HASH_LENGTH) && _) eqn:Eg.
    + apply guard_true in Eg as [? ?]. rewrite (mt_verify_path mt ls) by (done || lia).
      exists mt. by case_decide.
    + rewrite (mt_verify_refused mt ls) by done. exists mt. done.
  - destruct (mt_get_root_repr mt ls Hm Hop) as (h & -> & ->). exists mt. done.
  - rewrite (mt_get_size_repr mt ls Hm). exists mt. done.
  - rewrite (mt_exists_repr mt ls off Hm Hop). exists mt. done.
Qed.

Lemma mt_run_repr r ops ls mt :
  tree_ok ls mt -> mt_ops_ok ops ls -> (forall k, granted (r k) = true) ->
  exists mt', mt_run r ops mt = Ret ((leaves_run ops ls).1, mt') /\ tree_ok (leaves_run ops ls).2 mt'.
Proof.
  revert ls mt. induction ops as [|op ops IH]; intros ls mt Ht Hok Hr; cbn [mt_run leaves_run]; [eauto|].
  destruct Hok as [Hop Hops]. destruct (mt_exec_repr r op ls mt Ht Hop Hr) as (mt1 & -> & Ht1).
  destruct (leaves_exec op ls) as [x ls1]. simpl in *.
  destruct (IH ls1 mt1 Ht1 Hops Hr) as (mt2 & -> & Ht2).
  destruct (leaves_run ops ls1) as [xs ls2]. simpl in *. eauto.
Qed.

(** ** Allocation failure *)

(** When the leaf itself cannot be stored, nothing changes. *)
Lemma mt_add_refused r mt ls tag len :
  mt_repr ls mt -> needs_alloc (Z.of_nat (length ls)) = true -> granted (r 0%nat) = false ->
  0 <= len <= HASH_LENGTH -> len <= Z.of_nat (length tag) -> bytes_ok tag ->
  Z.of_nat (length ls) < AL_LIMIT ->
  exists mt', mt_add r (Some mt) (Some tag) len = Ret (MT_ERR_OUT_OF_MEMORY, Some mt') /\
              mt_repr ls mt'.
Proof.
  intros Hm Hal Hr Hlen Htag Hok Hlim. pose proof Hm as [He Hl Hls Hlv Hlev].
  unfold mt_add. rewrite (proj2 (Z.ltb_ge _ _)) by lia.
  rewrite mt_init_hash_leaf by done. cbn [mbind outcome_bind].
  destruct (level_at_ok _ _ _ (Hlev 0%nat ltac:(lia))) as (al & -> & Ha). cbn [mbind outcome_bind].
  destruct (mt_al_add_refused (r 0%nat) _ al (leaf_of tag len) Ha) as (al' & -> & Ha');
    rewrite ?level_nodes_0; [by apply length_leaf_of|done..|].
  cbn [mbind outcome_bind]. eexists. split; [done|].
  constructor; [done|done|done|simpl; by rewrite length_insert|].
  intros k Hk. destruct (decide (k = 0)%nat) as [->|].
  - by apply set_level_same; [lia|].
  - by apply set_level_other; [apply Hlev|].
Qed.
End Refinement.

(** ** The properties *)

Section Claims.
Context `{NodeHash}.

(** C4: the tree refines a list of leaves.  From [mt_create], any sequence of [mt_add],
    [mt_update], [mt_verify], [mt_get_root], [mt_get_size] and [mt_exists] calls with
    readable tags and at most 2^26 leaves returns (no assertion fails, no access leaves an
    allocated block, the loops end within the 30 levels), answers exactly what the list of
    leaves answers, refused parameters included, and the resulting tree can be deleted. *)
Theorem mt_refines_leaves (r0 : reply) (r : nat -> reply) (ops : list mt_op)
    (Hr0 : granted r0 = true) (Hr : forall k, granted (r k) = true) (Hops : mt_ops_ok ops []) :
  exists mt mt', mt_create r0 r = Ret (Some mt) /\
    mt_run r ops mt = Ret ((leaves_run ops []).1, mt') /\
    mt_repr (leaves_run ops []).2 mt' /\ mt_delete (Some mt') = Ret tt.
Proof.
  destruct (mt_create_repr r0 r Hr0 Hr) as [Ec Hm].
  assert (tree_ok [] (mkMt 0 (replicate 30 (mkAl 0 Null)))) as Ht
    by (split; [done|]; by apply Forall_replicate).
  destruct (mt_run_repr r ops [] _ Ht Hops Hr) as (mt' & E & Hm' & Hd).
  exists (mkMt 0 (replicate 30 (mkAl 0 Null))), mt'. auto using mt_delete_ok.
Qed.

(** Creation with an allocation refused.  Whichever allocation of [mt_create] is
    refused, it returns null and releases the levels it had created without freeing
    anything twice. *)
Theorem mt_create_refused (r0 : reply) (r : nat -> reply) (k : nat)
    (Hk : granted r0 = false \/ (k < 30)%nat /\ granted (r k) = false) :
  mt_create r0 r = Ret None.
Proof.
  unfold mt_create. destruct Hk as [-> |[Hk E]]; [done|]. destruct (granted r0); [|done].
  change (@nil mt_al_t) with (replicate 0 (mkAl 0 Null)).
  rewrite (create_levels_refused r (Z.to_nat TREE_LEVELS) 0 k E); [done|].
  change (Z.to_nat TREE_LEVELS) with 30%nat. lia.
Qed.

(** C9: [mt_add] appends the leaf made from the tag (the tag padded with zeros to 32
    bytes) and brings every level up to date, so that the tree again stores exactly the
    nodes of the abstract tree; if the memory for the leaf is refused, it reports
    [MT_ERR_OUT_OF_MEMORY] and the tree stands for the same leaves as before. *)
Theorem mt_add_correct (r : nat -> reply) (ls : list (list Z)) (mt : mt_t) (tag : list Z) (len : Z)
    (Hm : mt_repr ls mt) (Hlim : Z.of_nat (length ls) < AL_LIMIT) (Hlen : 0 <= len <= HASH_LENGTH)
    (Htag : len <= Z.of_nat (length tag)) (Hok : bytes_ok tag) :
  ((forall k, granted (r k) = true) ->
   exists mt', mt_add r (Some mt) (Some tag) len = Ret (MT_SUCCESS, Some mt') /\
               mt_repr (ls ++ [leaf_of tag len]) mt') /\
  (needs_alloc (Z.of_nat (length ls)) = true -> granted (r 0%nat) = false ->
   exists mt', mt_add r (Some mt) (Some tag) len = Ret (MT_ERR_OUT_OF_MEMORY, Some mt') /\
               mt_repr ls mt').
Proof. split; intros; [by apply mt_add_repr|by apply mt_add_refused]. Qed.

(** C10: [mt_update] replaces one leaf and rehashes its path to the root; the final
    assertion of the code holds. *)
Theorem mt_update_correct (ls : list (list Z)) (mt : mt_t) (tag : list Z) (len : Z) (off : nat)
    (Hm : mt_repr ls mt) (Hoff : (off < length ls)%nat) (Hlen : 0 <= len <= HASH_LENGTH)
    (Htag : len <= Z.of_nat (length tag)) (Hok : bytes_ok tag) :
  exists mt', mt_update (Some mt) (Some tag) len (Z.of_nat off) = Ret (MT_SUCCESS, Some mt') /\
              mt_repr (<[off := leaf_of tag len]> ls) mt'.
Proof. by apply mt_update_repr. Qed.

(** [mt_get_root] returns the root of the abstract tree when there is a leaf, and
    reads through a null pointer when there is none. *)
Theorem mt_get_root_correct (ls : list (list Z)) (mt : mt_t) (Hm : mt_repr ls mt) :
  (ls <> [] -> exists h, mt_get_root (Some mt) true = Ret (MT_SUCCESS, h) /\ root ls = Some h) /\
  (ls = [] -> mt_get_root (Some mt) true = Ub).
Proof.
  split; intros Hl.
  - apply mt_get_root_repr; [done|]. destruct ls; [done|simpl; lia].
  - subst. by apply mt_get_root_empty.
Qed.
End Claims.

(** The messages that [mt_verify] hashes on its way up from the digest [d] at index [off], level by
    level; a node without a sibling is not hashed. *)
Definition path_messages (ls : list (list Z)) (off : nat) (d : list Z) : list (option (list Z)) :=
  map (option_map (fun p => p.1 ++ p.2)) (path_pairs ls 0 off d (top (length ls))).

(** On the ways up from [d] and from [d'], the messages hashed at level [i] differ and have the same
    SHA-256 digest. *)
Definition sha256_collision_at (ls : list (list Z)) (off : nat) (d d' : list Z) (i : nat) : Prop :=
  exists m m', path_messages ls off d !! i = Some (Some m) /\ path_messages ls off d' !! i = Some (Some m') /\
    m <> m' /\ sha256 m = sha256 m'.

Lemma parent_pair_inj (ls : list (list Z)) l q d d' p p' :
  length d = length d' -> parent_pair ls l q d = Some p -> parent_pair ls l q d' = Some p' ->
  p.1 ++ p.2 = p'.1 ++ p'.2 -> p = p'.
Proof.
  unfold parent_pair. intros Hl.
  destruct (Nat.even q); destruct (node ls l _); intros [= <-] [= <-]; simpl; intros E;
    apply app_inj_1 in E as [? ?]; congruence.
Qed.

Lemma path_pairs_inj (ls : list (list Z)) k : forall l q d d' i p p',
  Forall is_hash ls -> is_hash d -> is_hash d' ->
  path_pairs ls l q d k !! i = Some (Some p) -> path_pairs ls l q d' k !! i = Some (Some p') ->
  p.1 ++ p.2 = p'.1 ++ p'.2 -> p = p'.
Proof.
  induction k as [|k IH]; intros l q d d' i p p' Hls Hd Hd'; [done|]. destruct i as [|i]; simpl.
  - intros [= H1] [= H2]. eapply parent_pair_inj; [|done..]. destruct Hd, Hd'. congruence.
  - apply IH; auto using parent_hash.
Qed.

Lemma path_collision_messages (ls : list (list Z)) off d d' :
  Forall is_hash ls -> is_hash d -> is_hash d' -> path_collision ls 0 off d d' (top (length ls)) ->
  exists i, (i < top (length ls))%nat /\ sha256_collision_at ls off d d' i.
Proof.
  intros Hls Hd Hd' (i & p & p' & H1 & H2 & Hne & E). exists i.
  assert (length (path_pairs ls 0 off d (top (length ls))) = top (length ls)) as Hk.
  { generalize (top (length ls)). clear. intros k. generalize 0%nat. revert off d.
    induction k as [|k IH]; intros off d l; [done|]. simpl. by rewrite IH. }
  split; [rewrite <- Hk; by eapply lookup_lt_Some|]. exists (p.1 ++ p.2), (p'.1 ++ p'.2).
  unfold path_messages. rewrite !list_lookup_fmap, H1, H2. split_and!; [done..| |exact E].
  intros Ea. apply Hne. eapply (path_pairs_inj ls _ 0 off d d'); done.
Qed.

(** C3: integrity of the stored MACs.  With SHA-256 as the node hash, [mt_verify] at an index of the
    tree answers success or [MT_ERR_ROOT_MISMATCH].  It accepts a tag exactly when the digest reached
    from its leaf is the root: so it accepts the tag whose leaf [h] is stored there, and if it accepts
    a tag with another leaf, then at some level the two messages that are hashed on the ways up from
    this leaf and from [h] differ and have the same SHA-256 digest; without such a level the answer is
    [MT_ERR_ROOT_MISMATCH]. *)
Theorem mt_verify_integrity (ls : list (list Z)) (mt : mt_t) (tag : list Z) (len : Z) (off : nat) (h : list Z)
    (Hm : mt_repr ls mt) (Hoff : ls !! off = Some h) (Hlen : 0 <= len <= HASH_LENGTH)
    (Htag : len <= Z.of_nat (length tag)) (Hok : bytes_ok tag) :
  let verify := mt_verify (Some mt) (Some tag) len (Z.of_nat off) in
  let collision := exists i, (i < top (length ls))%nat /\ sha256_collision_at ls off (leaf_of tag len) h i in
  (verify = Ret MT_SUCCESS \/ verify = Ret MT_ERR_ROOT_MISMATCH) /\
  (verify = Ret MT_SUCCESS <-> root ls = Some (path ls 0 off (leaf_of tag len) (top (length ls)))) /\
  (h = leaf_of tag len -> verify = Ret MT_SUCCESS) /\
  (verify = Ret MT_SUCCESS -> h = leaf_of tag len \/ collision) /\
  (h <> leaf_of tag len -> ~ collision -> verify = Ret MT_ERR_ROOT_MISMATCH).
Proof.
  intros verify collision. pose proof (lookup_lt_Some _ _ _ Hoff) as Hlt.
  assert (verify = Ret MT_SUCCESS -> h = leaf_of tag len \/ collision) as Hs.
  { intros E. destruct (mt_verify_sound mt ls tag len off Hm Hlt Hlen Htag Hok E) as (h' & Eh & Hc).
    rewrite Hoff in Eh. injection Eh as <-. destruct Hc as [|Hc]; [by left|right].
    apply path_collision_messages; [apply Hm|by apply length_leaf_of| |done].
    apply (Forall_lookup_1 _ _ _ _ (mr_hashes _ _ Hm) Hoff). }
  assert (verify = Ret MT_SUCCESS \/ verify = Ret MT_ERR_ROOT_MISMATCH) as Ha.
  { unfold verify. rewrite (mt_verify_path mt ls) by done. case_decide; auto. }
  split_and!; [done| | |done|].
  - unfold verify. rewrite (mt_verify_path mt ls) by done. by case_decide.
  - intros ->. by apply (mt_verify_complete mt ls).
  - intros Hne Hc. destruct Ha as [E|]; [|done]. destruct (Hs E); done.
Qed.

(** ** Witnesses *)

Definition grant_all : nat -> reply := fun _ => sample_reply.
Definition empty_mt : mt_t := mkMt 0 (replicate 30 (mkAl 0 Null)).

Lemma empty_mt_repr : mt_repr [] empty_mt.
Proof. by apply (mt_create_repr sample_reply grant_all). Qed.

(** Three leaves made from one-byte tags. *)
Definition sample_ops : list mt_op := [OpAdd [1] 1; OpAdd [2] 1; OpAdd [3] 1].
Definition sample_leaves : list (list Z) := [leaf_of [1] 1; leaf_of [2] 1; leaf_of [3] 1].
Definition sample_mt : mt_t :=
  match mt_run grant_all sample_ops empty_mt with Ret (_, mt) => mt | _ => empty_mt end.

Lemma byte_tag_ok b : byte_ok b -> tag_ok [b] 1.
Proof. intros Hb. split; [simpl; lia|]. by constructor. Qed.

Lemma sample_ops_ok : mt_ops_ok sample_ops [].
Proof.
  repeat split; cbn [length leaves_exec snd app]; unfold AL_LIMIT, byte_ok; try lia;
    repeat constructor; unfold byte_ok; lia.
Qed.

Lemma sample_mt_repr : mt_repr sample_leaves sample_mt.
Proof.
  destruct (mt_run_repr grant_all sample_ops [] empty_mt) as (mt & E & [Hm _]);
    [split; [apply empty_mt_repr|by apply Forall_replicate]|apply sample_ops_ok|done|].
  unfold sample_mt. rewrite E. exact Hm.
Qed.

Lemma mt_refines_leaves_witness :
  exists mt mt', mt_create sample_reply grant_all = Ret (Some mt) /\
    mt_run grant_all sample_ops mt = Ret ((leaves_run sample_ops []).1, mt') /\
    mt_repr (leaves_run sample_ops []).2 mt' /\ mt_delete (Some mt') = Ret tt.
Proof.
  refine (mt_refines_leaves sample_reply grant_all sample_ops _ _ sample_ops_ok).
  - reflexivity.
  - intros k. reflexivity.
Defined.

Lemma mt_create_refused_witness :
  mt_create sample_reply (fun k => mkReply (negb (Nat.eqb k 7)) (fun _ => 0)) = Ret None.
Proof.
  apply (mt_create_refused sample_reply (fun k => mkReply (negb (Nat.eqb k 7)) (fun _ => 0)) 7).
  right. split; [lia|reflexivity].
Defined.

Lemma mt_add_correct_witness :
  exists mt', mt_add grant_all (Some sample_mt) (Some [4]) 1 = Ret (MT_SUCCESS, Some mt') /\
              mt_repr (sample_leaves ++ [leaf_of [4] 1]) mt'.
Proof.
  refine (proj1 (mt_add_correct grant_all sample_leaves sample_mt [4] 1 _ _ _ _ _) _).
  - exact sample_mt_repr.
  - vm_compute. reflexivity.
  - unfold HASH_LENGTH. lia.
  - simpl. lia.
  - constructor; [unfold byte_ok; lia|constructor].
  - intros k. reflexivity.
Defined.

Lemma mt_update_correct_witness :
  exists mt', mt_update (Some sample_mt) (Some [4]) 1 2 = Ret (MT_SUCCESS, Some mt') /\
              mt_repr (<[2%nat := leaf_of [4] 1]> sample_leaves) mt'.
Proof.
  refine (mt_update_correct sample_leaves sample_mt [4] 1 2 _ _ _ _ _).
  - exact sample_mt_repr.
  - simpl. lia.
  - unfold HASH_LENGTH. lia.
  - simpl. lia.
  - constructor; [unfold byte_ok; lia|constructor].
Defined.

Lemma mt_get_root_correct_witness :
  exists h, mt_get_root (Some sample_mt) true = Ret (MT_SUCCESS, h) /\ root sample_leaves = Some h.
Proof.
  refine (proj1 (mt_get_root_correct sample_leaves sample_mt _) _).
  - exact sample_mt_repr.
  - discriminate.
Defined.

(** A stored leaf is accepted, another tag in its place only with a collision on the two levels above. *)
Lemma mt_verify_integrity_witness :
  mt_verify (Some sample_mt) (Some [2]) 1 1 = Ret MT_SUCCESS /\
  (mt_verify (Some sample_mt) (Some [5]) 1 1 = Ret MT_SUCCESS ->
   exists i, (i < 2)%nat /\ sha256_collision_at sample_leaves 1 (leaf_of [5] 1) (leaf_of [2] 1) i).
Proof.
  split.
  - apply (mt_verify_integrity sample_leaves sample_mt [2] 1 1 (leaf_of [2] 1) sample_mt_repr); try reflexivity.
    + unfold HASH_LENGTH. lia.
    + constructor; [unfold byte_ok; lia|constructor].
  - intros E. destruct (mt_verify_integrity sample_leaves sample_mt [5] 1 1 (leaf_of [2] 1) sample_mt_repr) as (_ & _ & _ & H & _); try reflexivity.
    + unfold HASH_LENGTH. lia.
    + constructor; [unfold byte_ok; lia|constructor].
    + destruct (H E) as [Hl|Hc]; [vm_compute in Hl; discriminate|exact Hc].
Defined.

(** ** A failed [mt_add] can leave the tree inconsistent *)

(** The allocator refuses the request of level 1. *)
Definition refuse_level_1 : nat -> reply := fun k => mkReply (negb (Nat.eqb k 1)) (fun _ => 0).

Definition failed_add : outcome (mt_error_t * option mt_t) :=
  mt_add refuse_level_1 (Some sample_mt) (Some [4]) 1.

(** [mt_add] is not atomic.  With three leaves in the tree and the allocation of level 1
    refused, the call reports [MT_ERR_OUT_OF_MEMORY] but has already counted the new leaf:
    the size is 4, the root is still that of three leaves, and the third leaf, which verified
    before the call, is now answered with [MT_ERR_ROOT_MISMATCH]. *)
Theorem mt_add_not_atomic :
  mt_verify (Some sample_mt) (Some [3]) 1 2 = Ret MT_SUCCESS /\
  exists mt', failed_add = Ret (MT_ERR_OUT_OF_MEMORY, Some mt') /\
    mt_get_size (Some mt') = Ret 4 /\
    mt_get_root (Some mt') true = mt_get_root (Some sample_mt) true /\
    mt_verify (Some mt') (Some [3]) 1 2 = Ret MT_ERR_ROOT_MISMATCH.
Proof.
  split; [vm_compute; reflexivity|].
  destruct failed_add as [[e [mt'|]]| |] eqn:E; [|vm_compute in E; discriminate..].
  exists mt'. vm_compute in E. injection E as <- <-.
  split_and!; vm_compute; reflexivity.
Qed.
