(* ===== verification/Aes128.v ===== *)
(** * AES-128 (src/src/merkle/TI_aes_128.c)

    The table-driven block cipher under the item MACs.  Encryption and decryption share one
    function that overwrites both the block and the key: the round keys are computed on the
    fly, forwards when encrypting and backwards when decrypting.  The arrays are lists of 16
    bytes, every assignment is an update of one element, and the temporaries are [let]s. *)

From S2P Require Import Prelude.
Local Open Scope c_scope.

Definition sbox : list Z :=
  [0x63; 0x7c; 0x77; 0x7b; 0xf2; 0x6b; 0x6f; 0xc5; 0x30; 0x01; 0x67; 0x2b; 0xfe; 0xd7; 0xab; 0x76;
   0xca; 0x82; 0xc9; 0x7d; 0xfa; 0x59; 0x47; 0xf0; 0xad; 0xd4; 0xa2; 0xaf; 0x9c; 0xa4; 0x72; 0xc0;
   0xb7; 0xfd; 0x93; 0x26; 0x36; 0x3f; 0xf7; 0xcc; 0x34; 0xa5; 0xe5; 0xf1; 0x71; 0xd8; 0x31; 0x15;
   0x04; 0xc7; 0x23; 0xc3; 0x18; 0x96; 0x05; 0x9a; 0x07; 0x12; 0x80; 0xe2; 0xeb; 0x27; 0xb2; 0x75;
   0x09; 0x83; 0x2c; 0x1a; 0x1b; 0x6e; 0x5a; 0xa0; 0x52; 0x3b; 0xd6; 0xb3; 0x29; 0xe3; 0x2f; 0x84;
   0x53; 0xd1; 0x00; 0xed; 0x20; 0xfc; 0xb1; 0x5b; 0x6a; 0xcb; 0xbe; 0x39; 0x4a; 0x4c; 0x58; 0xcf;
   0xd0; 0xef; 0xaa; 0xfb; 0x43; 0x4d; 0x33; 0x85; 0x45; 0xf9; 0x02; 0x7f; 0x50; 0x3c; 0x9f; 0xa8;
   0x51; 0xa3; 0x40; 0x8f; 0x92; 0x9d; 0x38; 0xf5; 0xbc; 0xb6; 0xda; 0x21; 0x10; 0xff; 0xf3; 0xd2;
   0xcd; 0x0c; 0x13; 0xec; 0x5f; 0x97; 0x44; 0x17; 0xc4; 0xa7; 0x7e; 0x3d; 0x64; 0x5d; 0x19; 0x73;
   0x60; 0x81; 0x4f; 0xdc; 0x22; 0x2a; 0x90; 0x88; 0x46; 0xee; 0xb8; 0x14; 0xde; 0x5e; 0x0b; 0xdb;
   0xe0; 0x32; 0x3a; 0x0a; 0x49; 0x06; 0x24; 0x5c; 0xc2; 0xd3; 0xac; 0x62; 0x91; 0x95; 0xe4; 0x79;
   0xe7; 0xc8; 0x37; 0x6d; 0x8d; 0xd5; 0x4e; 0xa9; 0x6c; 0x56; 0xf4; 0xea; 0x65; 0x7a; 0xae; 0x08;
   0xba; 0x78; 0x25; 0x2e; 0x1c; 0xa6; 0xb4; 0xc6; 0xe8; 0xdd; 0x74; 0x1f; 0x4b; 0xbd; 0x8b; 0x8a;
   0x70; 0x3e; 0xb5; 0x66; 0x48; 0x03; 0xf6; 0x0e; 0x61; 0x35; 0x57; 0xb9; 0x86; 0xc1; 0x1d; 0x9e;
   0xe1; 0xf8; 0x98; 0x11; 0x69; 0xd9; 0x8e; 0x94; 0x9b; 0x1e; 0x87; 0xe9; 0xce; 0x55; 0x28; 0xdf;
   0x8c; 0xa1; 0x89; 0x0d; 0xbf; 0xe6; 0x42; 0x68; 0x41; 0x99; 0x2d; 0x0f; 0xb0; 0x54; 0xbb; 0x16].

Definition rsbox : list Z :=
  [0x52; 0x09; 0x6a; 0xd5; 0x30; 0x36; 0xa5; 0x38; 0xbf; 0x40; 0xa3; 0x9e; 0x81; 0xf3; 0xd7; 0xfb;
   0x7c; 0xe3; 0x39; 0x82; 0x9b; 0x2f; 0xff; 0x87; 0x34; 0x8e; 0x43; 0x44; 0xc4; 0xde; 0xe9; 0xcb;
   0x54; 0x7b; 0x94; 0x32; 0xa6; 0xc2; 0x23; 0x3d; 0xee; 0x4c; 0x95; 0x0b; 0x42; 0xfa; 0xc3; 0x4e;
   0x08; 0x2e; 0xa1; 0x66; 0x28; 0xd9; 0x24; 0xb2; 0x76; 0x5b; 0xa2; 0x49; 0x6d; 0x8b; 0xd1; 0x25;
   0x72; 0xf8; 0xf6; 0x64; 0x86; 0x68; 0x98; 0x16; 0xd4; 0xa4; 0x5c; 0xcc; 0x5d; 0x65; 0xb6; 0x92;
   0x6c; 0x70; 0x48; 0x50; 0xfd; 0xed; 0xb9; 0xda; 0x5e; 0x15; 0x46; 0x57; 0xa7; 0x8d; 0x9d; 0x84;
   0x90; 0xd8; 0xab; 0x00; 0x8c; 0xbc; 0xd3; 0x0a; 0xf7; 0xe4; 0x58; 0x05; 0xb8; 0xb3; 0x45; 0x06;
   0xd0; 0x2c; 0x1e; 0x8f; 0xca; 0x3f; 0x0f; 0x02; 0xc1; 0xaf; 0xbd; 0x03; 0x01; 0x13; 0x8a; 0x6b;
   0x3a; 0x91; 0x11; 0x41; 0x4f; 0x67; 0xdc; 0xea; 0x97; 0xf2; 0xcf; 0xce; 0xf0; 0xb4; 0xe6; 0x73;
   0x96; 0xac; 0x74; 0x22; 0xe7; 0xad; 0x35; 0x85; 0xe2; 0xf9; 0x37; 0xe8; 0x1c; 0x75; 0xdf; 0x6e;
   0x47; 0xf1; 0x1a; 0x71; 0x1d; 0x29; 0xc5; 0x89; 0x6f; 0xb7; 0x62; 0x0e; 0xaa; 0x18; 0xbe; 0x1b;
   0xfc; 0x56; 0x3e; 0x4b; 0xc6; 0xd2; 0x79; 0x20; 0x9a; 0xdb; 0xc0; 0xfe; 0x78; 0xcd; 0x5a; 0xf4;
   0x1f; 0xdd; 0xa8; 0x33; 0x88; 0x07; 0xc7; 0x31; 0xb1; 0x12; 0x10; 0x59; 0x27; 0x80; 0xec; 0x5f;
   0x60; 0x51; 0x7f; 0xa9; 0x19; 0xb5; 0x4a; 0x0d; 0x2d; 0xe5; 0x7a; 0x9f; 0x93; 0xc9; 0x9c; 0xef;
   0xa0; 0xe0; 0x3b; 0x4d; 0xae; 0x2a; 0xf5; 0xb0; 0xc8; 0xeb; 0xbb; 0x3c; 0x83; 0x53; 0x99; 0x61;
   0x17; 0x2b; 0x04; 0x7e; 0xba; 0x77; 0xd6; 0x26; 0xe1; 0x69; 0x14; 0x63; 0x55; 0x21; 0x0c; 0x7d].

Definition Rcon : list Z := [0x01; 0x02; 0x04; 0x08; 0x10; 0x20; 0x40; 0x80; 0x1b; 0x36].

(** [sbox[b]] and [rsbox[b]]. *)
Definition sbox_at (b : Z) : Z := sbox.[Z.to_nat b].
Definition rsbox_at (b : Z) : Z := rsbox.[Z.to_nat b].

Definition galois_mul2 (value : Z) : Z :=
  if negb (Z.shiftr value 7 =? 0) then u8 (Z.shiftl value 1 ⊕ 0x1b) else u8 (Z.shiftl value 1).

(** ** The parts of [aes_enc_dec] *)

(** [key[0] = sbox[key[13]]^key[0]^Rcon[rc]; ...; key[3] = sbox[key[12]]^key[3]]. *)
Definition key_first_word (rc : nat) (key : list Z) : list Z :=
  let key := key.[0 <- sbox_at key.[13] ⊕ key.[0] ⊕ Rcon.[rc]] in
  let key := key.[1 <- sbox_at key.[14] ⊕ key.[1]] in
  let key := key.[2 <- sbox_at key.[15] ⊕ key.[2]] in
  key.[3 <- sbox_at key.[12] ⊕ key.[3]].

(** The key schedule, in place: [for (i=4; i<16; i++) key[i] = key[i] ^ key[i-4]]. *)
Definition key_schedule (round : nat) (key : list Z) : list Z :=
  c_for 4 12 (fun i key => key.[i <- key.[i] ⊕ key.[i - 4]]) (key_first_word round key).

(** The inverse key schedule: [for (i=15; i>3; --i) key[i] = key[i] ^ key[i-4]]. *)
Definition inv_key_schedule (round : nat) (key : list Z) : list Z :=
  key_first_word (9 - round)
    (c_for 0 12 (fun j key => let i := (15 - j)%nat in key.[i <- key.[i] ⊕ key.[i - 4]]) key).

(** [for (i = 0; i < 16; i++) state[i] = state[i] ^ key[i]]. *)
Definition add_round_key (key state : list Z) : list Z :=
  c_for 0 16 (fun i state => state.[i <- state.[i] ⊕ key.[i]]) state.

(** [state[i] = sbox[state[i] ^ key[i]]]. *)
Definition add_key_sub (key state : list Z) : list Z :=
  c_for 0 16 (fun i state => state.[i <- sbox_at (state.[i] ⊕ key.[i])]) state.

(** [state[i] = rsbox[state[i]] ^ key[i]]. *)
Definition inv_sub_add_key (key state : list Z) : list Z :=
  c_for 0 16 (fun i state => state.[i <- rsbox_at state.[i] ⊕ key.[i]]) state.

Definition shift_rows (state : list Z) : list Z :=
  let buf1 := state.[1] in
  let state := state.[1 <- state.[5]] in
  let state := state.[5 <- state.[9]] in
  let state := state.[9 <- state.[13]] in
  let state := state.[13 <- buf1] in
  let buf1 := state.[2] in
  let buf2 := state.[6] in
  let state := state.[2 <- state.[10]] in
  let state := state.[6 <- state.[14]] in
  let state := state.[10 <- buf1] in
  let state := state.[14 <- buf2] in
  let buf1 := state.[15] in
  let state := state.[15 <- state.[11]] in
  let state := state.[11 <- state.[7]] in
  let state := state.[7 <- state.[3]] in
  state.[3 <- buf1].

Definition inv_shift_rows (state : list Z) : list Z :=
  let buf1 := state.[13] in
  let state := state.[13 <- state.[9]] in
  let state := state.[9 <- state.[5]] in
  let state := state.[5 <- state.[1]] in
  let state := state.[1 <- buf1] in
  let buf1 := state.[10] in
  let buf2 := state.[14] in
  let state := state.[10 <- state.[2]] in
  let state := state.[14 <- state.[6]] in
  let state := state.[2 <- buf1] in
  let state := state.[6 <- buf2] in
  let buf1 := state.[3] in
  let state := state.[3 <- state.[7]] in
  let state := state.[7 <- state.[11]] in
  let state := state.[11 <- state.[15]] in
  state.[15 <- buf1].

(** The precomputation for decryption, on column [buf4 / 4]. *)
Definition inv_mix_prepare (buf4 : nat) (state : list Z) : list Z :=
  let buf1 := galois_mul2 (galois_mul2 (state.[buf4] ⊕ state.[buf4 + 2])) in
  let buf2 := galois_mul2 (galois_mul2 (state.[buf4 + 1] ⊕ state.[buf4 + 3])) in
  let state := state.[buf4 <- state.[buf4] ⊕ buf1] in
  let state := state.[buf4 + 1 <- state.[buf4 + 1] ⊕ buf2] in
  let state := state.[buf4 + 2 <- state.[buf4 + 2] ⊕ buf1] in
  state.[buf4 + 3 <- state.[buf4 + 3] ⊕ buf2].

Definition mix_column (buf4 : nat) (state : list Z) : list Z :=
  let buf1 := state.[buf4] ⊕ state.[buf4 + 1] ⊕ state.[buf4 + 2] ⊕ state.[buf4 + 3] in
  let buf2 := state.[buf4] in
  let buf3 := galois_mul2 (state.[buf4] ⊕ state.[buf4 + 1]) in
  let state := state.[buf4 <- state.[buf4] ⊕ buf3 ⊕ buf1] in
  let buf3 := galois_mul2 (state.[buf4 + 1] ⊕ state.[buf4 + 2]) in
  let state := state.[buf4 + 1 <- state.[buf4 + 1] ⊕ buf3 ⊕ buf1] in
  let buf3 := galois_mul2 (state.[buf4 + 2] ⊕ state.[buf4 + 3]) in
  let state := state.[buf4 + 2 <- state.[buf4 + 2] ⊕ buf3 ⊕ buf1] in
  let buf3 := galois_mul2 (state.[buf4 + 3] ⊕ buf2) in
  state.[buf4 + 3 <- state.[buf4 + 3] ⊕ buf3 ⊕ buf1].

(** [for (i=0; i<4; i++)] over the columns. *)
Definition mix_columns (dir : bool) (state : list Z) : list Z :=
  c_for 0 4 (fun i state =>
    let buf4 := (i * 4)%nat in
    mix_column buf4 (if dir then inv_mix_prepare buf4 state else state)) state.

(** ** The cipher *)

(** One pass of the main loop. *)
Definition aes_round (dir : bool) (round : nat) (sk : list Z * list Z) : list Z * list Z :=
  let '(state, key) := sk in
  let '(state, key) :=
    if dir then (state, inv_key_schedule round key)
    else (shift_rows (add_key_sub key state), key) in
  let state :=
    if ((0 <? round)%nat && dir) || ((round <? 9)%nat && negb dir)
    then mix_columns dir state else state in
  if dir then (inv_sub_add_key key (inv_shift_rows state), key)
  else (state, key_schedule round key).

(** [aes_enc_dec(state, key, dir)]: the final contents of both arrays. *)
Definition aes_enc_dec (state key : list Z) (dir : bool) : list Z * list Z :=
  let '(state, key) :=
    if dir then
      let key := c_for 0 10 key_schedule key in
      (add_round_key key state, key)
    else (state, key) in
  let '(state, key) := c_for 0 10 (aes_round dir) (state, key) in
  if dir then (state, key) else (add_round_key key state, key).
