(* ===== verification/Aes128Facts.v ===== *)
(** * AES-128 against FIPS-197

    The standard's cipher, written from the field arithmetic up, and the proof that the
    in-place code computes it and that its decryption mode inverts it. *)

From S2P Require Import Prelude Aes128.
Local Open Scope c_scope.

(** ** FIPS-197 *)

(** Multiplication by x in GF(2^8) modulo x^8 + x^4 + x^3 + x + 1. *)
Definition xtime (b : Z) : Z :=
  if Z.testbit b 7 then Z.land (2 * b) 0xff ⊕ 0x1b else 2 * b.

(** The sum of the [b * x^i] for the bits [i] of [a]. *)
Definition gmul (a b : Z) : Z :=
  (c_for 0 8 (fun i '(acc, b) =>
     (if Z.testbit a (Z.of_nat i) then acc ⊕ b else acc, xtime b)) (0, b)).1.

(** b^254, the multiplicative inverse (and 0 for 0). *)
Definition ginv (b : Z) : Z :=
  let b2 := gmul b b in let b4 := gmul b2 b2 in let b8 := gmul b4 b4 in
  let b16 := gmul b8 b8 in let b32 := gmul b16 b16 in let b64 := gmul b32 b32 in
  let b128 := gmul b64 b64 in
  gmul b2 (gmul b4 (gmul b8 (gmul b16 (gmul b32 (gmul b64 b128))))).

(** Bit [i] of the S-box is b_i + b_(i+4) + b_(i+5) + b_(i+6) + b_(i+7) + c_i, c = 0x63. *)
Definition affine (b : Z) : Z :=
  foldr (fun i acc =>
    let bit j := Z.testbit b ((i + j) mod 8) in
    acc + (if xorb (xorb (xorb (xorb (xorb (bit 0) (bit 4)) (bit 5)) (bit 6)) (bit 7))
                   (Z.testbit 0x63 i) then 2 ^ i else 0)) 0 [0; 1; 2; 3; 4; 5; 6; 7].

Definition S_box (b : Z) : Z := affine (ginv b).

(** The state is 16 bytes, column after column: byte [r + 4c] is row [r] of column [c]. *)
Definition SubBytes (s : list Z) : list Z := map S_box s.

Definition ShiftRows (s : list Z) : list Z :=
  map (fun i => s.[i mod 4 + 4 * ((i / 4 + i mod 4) mod 4)]) (seq 0 16).

Definition dot (row col : list Z) : Z := foldr Z.lxor 0 (zip_with gmul row col).

Definition MixColumns (s : list Z) : list Z :=
  concat (map (fun col => map (fun row => dot row col)
                [[2; 3; 1; 1]; [1; 2; 3; 1]; [1; 1; 2; 3]; [3; 1; 1; 2]]) (chunks 4 4 s)).

Definition AddRoundKey (k s : list Z) : list Z := zip_with Z.lxor s k.

Definition SubWord (w : list Z) : list Z := map S_box w.
Definition RotWord (w : list Z) : list Z := drop 1 w ++ take 1 w.
Definition xor_words (a b : list Z) : list Z := zip_with Z.lxor a b.
(** Rcon[j] = (x^(j-1), 0, 0, 0). *)
Definition round_constant (j : nat) : list Z := [Nat.iter (j - 1) xtime 1; 0; 0; 0].

(** Word [i] of the key expansion from the words [ws] before it, Nk = 4. *)
Definition next_word (ws : list (list Z)) : list Z :=
  let i := length ws in
  let temp := ws.[i - 1] in
  let temp := if (i mod 4 =? 0)%nat
              then xor_words (SubWord (RotWord temp)) (round_constant (i / 4)) else temp in
  xor_words ws.[i - 4] temp.

Fixpoint KeyExpansion (key : list Z) (n : nat) : list (list Z) :=
  match n with
  | O => chunks 4 4 key
  | S n => let ws := KeyExpansion key n in ws ++ [next_word ws]
  end.

Definition round_key (key : list Z) (r : nat) : list Z :=
  concat (slice (KeyExpansion key 40) (4 * r) 4).

Definition cipher_round (key : list Z) (r : nat) (s : list Z) : list Z :=
  AddRoundKey (round_key key r) (MixColumns (ShiftRows (SubBytes s))).

Definition Cipher (key s : list Z) : list Z :=
  let s := AddRoundKey (round_key key 0) s in
  let s := c_for 1 9 (cipher_round key) s in
  AddRoundKey (round_key key 10) (ShiftRows (SubBytes s)).

(** A block or a key. *)
Definition is_block (s : list Z) : Prop := length s = 16%nat /\ bytes_ok s.

(** ** The tables *)

Lemma sbox_fips b : byte_ok b -> sbox_at b = S_box b.
Proof. apply (byte_forall_eq sbox_at S_box). vm_compute. reflexivity. Qed.

Lemma sbox_ok b : byte_ok b -> byte_ok (sbox_at b).
Proof. apply (byte_forall_ok sbox_at). vm_compute. reflexivity. Qed.

Lemma rsbox_sbox b : byte_ok b -> rsbox_at (sbox_at b) = b.
Proof. apply (byte_forall_eq (fun b => rsbox_at (sbox_at b)) (fun b => b)). vm_compute. reflexivity. Qed.

Lemma gmul_2 b : byte_ok b -> gmul 2 b = galois_mul2 b.
Proof. apply (byte_forall_eq (gmul 2) galois_mul2). vm_compute. reflexivity. Qed.

Lemma gmul_3 b : byte_ok b -> gmul 3 b = galois_mul2 b ⊕ b.
Proof. apply (byte_forall_eq (gmul 3) (fun b => galois_mul2 b ⊕ b)). vm_compute. reflexivity. Qed.

Lemma gmul_1 b : gmul 1 b = b.
Proof. reflexivity. Qed.

Lemma galois_mul2_ok b : byte_ok (galois_mul2 b).
Proof. unfold galois_mul2. case_match; apply u8_byte_ok. Qed.

(** The same function as a sum, which shows that it is linear. *)
Lemma galois_mul2_split b :
  byte_ok b -> galois_mul2 b = Z.land (Z.shiftl b 1) 0xff ⊕ (if Z.testbit b 7 then 0x1b else 0).
Proof.
  apply (byte_forall_eq galois_mul2
           (fun b => Z.land (Z.shiftl b 1) 0xff ⊕ (if Z.testbit b 7 then 0x1b else 0))).
  vm_compute. reflexivity.
Qed.

Lemma galois_mul2_xor a b :
  byte_ok a -> byte_ok b -> galois_mul2 (a ⊕ b) = galois_mul2 a ⊕ galois_mul2 b.
Proof.
  intros Ha Hb. rewrite !galois_mul2_split by auto using byte_lxor.
  rewrite Z.lxor_spec. destruct (Z.testbit a 7), (Z.testbit b 7); cbn [xorb]; xor_solve.
Qed.

(** ** The steps *)

Lemma block_elements s : is_block s -> exists a0 a1 a2 a3 a4 a5 a6 a7 a8 a9 a10 a11 a12 a13 a14 a15,
  s = [a0; a1; a2; a3; a4; a5; a6; a7; a8; a9; a10; a11; a12; a13; a14; a15].
Proof. intros [Hl _]. list_of_length s Hl. eauto 20. Qed.

(** Split a block into its bytes, with the range of each. *)
Ltac block_split s H :=
  let Hl := fresh in let Hb := fresh in
  destruct H as [Hl Hb]; list_of_length s Hl; unfold bytes_ok in Hb;
  repeat match goal with Hb : Forall byte_ok (_ :: _) |- _ =>
    apply Forall_cons_1 in Hb; destruct Hb as [? Hb] end.

Lemma add_round_key_spec key state :
  is_block key -> is_block state -> add_round_key key state = AddRoundKey key state.
Proof. intros Hk Hs. block_split key Hk. block_split state Hs. reflexivity. Qed.

Lemma bytes_ok_xor a b : bytes_ok a -> bytes_ok b -> bytes_ok (zip_with Z.lxor a b).
Proof.
  intros Ha. revert b. induction Ha as [|x a Hx Ha IH]; intros b Hb; [constructor|].
  destruct Hb; [constructor|]. constructor; [by apply byte_lxor|by apply IH].
Qed.

Lemma zip_xor_block a b : is_block a -> is_block b -> is_block (zip_with Z.lxor a b).
Proof. intros [La Ha] [Lb Hb]. split; [rewrite length_zip_with; lia|by apply bytes_ok_xor]. Qed.

(** A list of 16 elements in range, by cases. *)
Ltac block_ok :=
  split; [reflexivity|]; unfold bytes_ok;
  repeat apply Forall_cons_2; try apply Forall_nil_2;
  repeat first [apply byte_lxor | apply sbox_ok | apply galois_mul2_ok | assumption].

Lemma add_key_sub_spec key state :
  is_block key -> is_block state -> add_key_sub key state = SubBytes (AddRoundKey key state).
Proof.
  intros Hk Hs. block_split key Hk. block_split state Hs.
  cbn [SubBytes AddRoundKey zip_with map].
  rewrite <- !sbox_fips by auto using byte_lxor. reflexivity.
Qed.

Lemma SubBytes_block s : is_block s -> is_block (SubBytes s).
Proof.
  intros Hs. block_split s Hs. cbn [SubBytes map]. rewrite <- !sbox_fips by done. block_ok.
Qed.

Lemma shift_rows_spec s : is_block s -> shift_rows s = ShiftRows s.
Proof. intros Hs. block_split s Hs. reflexivity. Qed.

Lemma shift_rows_block s : is_block s -> is_block (shift_rows s).
Proof. intros Hs. block_split s Hs. vm_compute shift_rows. block_ok. Qed.

Lemma inv_shift_shift s : is_block s -> inv_shift_rows (shift_rows s) = s.
Proof. intros Hs. block_split s Hs. reflexivity. Qed.

(** Equality of two lists of xor expressions. *)
Ltac xor_ring := apply Z.bits_inj'; intros ? ?; rewrite ?Z.lxor_spec, ?Z.bits_0; btauto.
Ltac list_xor := repeat (apply (f_equal2 cons); [xor_ring|]); reflexivity.

(** One column of the mixing step. *)
Definition mixed_column (a b c d : Z) : list Z :=
  let t := a ⊕ b ⊕ c ⊕ d in
  [a ⊕ galois_mul2 (a ⊕ b) ⊕ t; b ⊕ galois_mul2 (b ⊕ c) ⊕ t;
   c ⊕ galois_mul2 (c ⊕ d) ⊕ t; d ⊕ galois_mul2 (d ⊕ a) ⊕ t].

Definition prepared_column (a b c d : Z) : list Z :=
  let u := galois_mul2 (galois_mul2 (a ⊕ c)) in
  let v := galois_mul2 (galois_mul2 (b ⊕ d)) in
  [a ⊕ u; b ⊕ v; c ⊕ u; d ⊕ v].

Lemma mixed_column_ok a b c d :
  byte_ok a -> byte_ok b -> byte_ok c -> byte_ok d -> bytes_ok (mixed_column a b c d).
Proof.
  intros. unfold mixed_column, bytes_ok. repeat apply Forall_cons_2; try apply Forall_nil_2;
  repeat first [apply byte_lxor | apply galois_mul2_ok | assumption].
Qed.

Lemma mixed_column_dot a b c d :
  byte_ok a -> byte_ok b -> byte_ok c -> byte_ok d ->
  mixed_column a b c d =
  map (fun row => dot row [a; b; c; d]) [[2; 3; 1; 1]; [1; 2; 3; 1]; [1; 1; 2; 3]; [3; 1; 1; 2]].
Proof.
  intros. unfold mixed_column, dot. cbn [map zip_with foldr].
  rewrite !gmul_2, !gmul_3, !gmul_1, !galois_mul2_xor by done.
  list_xor.
Qed.

(** The preparation and one mixing step undo a mixing step. *)
Definition unmixed_column (a b c d : Z) : list Z :=
  match mixed_column a b c d with
  | [a'; b'; c'; d'] =>
    match prepared_column a' b' c' d' with
    | [x; y; z; w] => mixed_column x y z w
    | _ => []
    end
  | _ => []
  end.

Lemma unmixed_column_id a b c d :
  byte_ok a -> byte_ok b -> byte_ok c -> byte_ok d -> unmixed_column a b c d = [a; b; c; d].
Proof.
  intros. unfold unmixed_column, mixed_column, prepared_column.
  rewrite !galois_mul2_xor by auto 10 using byte_lxor, galois_mul2_ok.
  list_xor.
Qed.

Lemma mix_columns_spec s :
  is_block s -> mix_columns false s = MixColumns s /\ is_block (mix_columns false s).
Proof.
  intros Hs. block_split s Hs.
  match goal with |- context [[?a0; ?a1; ?a2; ?a3; ?a4; ?a5; ?a6; ?a7;
                               ?a8; ?a9; ?a10; ?a11; ?a12; ?a13; ?a14; ?a15]] =>
    assert (mix_columns false [a0; a1; a2; a3; a4; a5; a6; a7; a8; a9; a10; a11; a12; a13; a14; a15] =
      mixed_column a0 a1 a2 a3 ++ mixed_column a4 a5 a6 a7 ++
      mixed_column a8 a9 a10 a11 ++ mixed_column a12 a13 a14 a15) as -> by reflexivity
  end.
  split.
  - unfold MixColumns. cbn [chunks take drop map concat]. rewrite !mixed_column_dot by done.
    rewrite app_nil_r. reflexivity.
  - split; [reflexivity|]. rewrite !bytes_ok_app. auto using mixed_column_ok.
Qed.

Lemma inv_mix_mix s : is_block s -> mix_columns true (mix_columns false s) = s.
Proof.
  intros Hs. block_split s Hs.
  match goal with |- context [[?a0; ?a1; ?a2; ?a3; ?a4; ?a5; ?a6; ?a7;
                               ?a8; ?a9; ?a10; ?a11; ?a12; ?a13; ?a14; ?a15]] =>
    transitivity (unmixed_column a0 a1 a2 a3 ++ unmixed_column a4 a5 a6 a7 ++
                  unmixed_column a8 a9 a10 a11 ++ unmixed_column a12 a13 a14 a15)
  end; [reflexivity|].
  rewrite !unmixed_column_id by done. reflexivity.
Qed.

(** ** The key schedule *)

Lemma Rcon_spec r : (r < 10)%nat -> Rcon.[r] = Nat.iter r xtime 1.
Proof. intros Hr. do 10 (destruct r as [|r]; [reflexivity|]). lia. Qed.

Lemma Rcon_ok r : (r < 10)%nat -> byte_ok Rcon.[r].
Proof. intros Hr. do 10 (destruct r as [|r]; [unfold byte_ok; simpl; lia|]). lia. Qed.

(** The four words of the next round key. *)
Definition next_words (r : nat) (ws : list (list Z)) : list (list Z) :=
  let t0 := xor_words ws.[0] (xor_words (SubWord (RotWord ws.[3])) (round_constant (S r))) in
  let t1 := xor_words ws.[1] t0 in
  let t2 := xor_words ws.[2] t1 in
  [t0; t1; t2; xor_words ws.[3] t2].

Lemma key_schedule_words r k :
  is_block k -> (r < 10)%nat ->
  chunks 4 4 (key_schedule r k) = next_words r (chunks 4 4 k) /\ is_block (key_schedule r k).
Proof.
  intros Hk Hr. pose proof (Rcon_spec r Hr) as HR. pose proof (Rcon_ok r Hr).
  block_split k Hk. unfold key_schedule, key_first_word, c_for.
  cbn [seq foldl insert list_insert lookup_total list_lookup_total Nat.sub].
  split; [|block_ok].
  unfold next_words, xor_words, SubWord, RotWord, round_constant.
  cbn [chunks take drop app map zip_with lookup_total list_lookup_total].
  rewrite Nat.sub_succ, Nat.sub_0_r, <- HR, <- !sbox_fips by done.
  repeat (apply (f_equal2 cons); [list_xor|]). reflexivity.
Qed.

Lemma lxor_cancel a b : a ⊕ b ⊕ b = a.
Proof. xor_ring. Qed.

Lemma inv_key_schedule_spec r k :
  is_block k -> (r < 10)%nat -> inv_key_schedule (9 - r) (key_schedule r k) = k.
Proof.
  intros Hk Hr. block_split k Hk. unfold inv_key_schedule, key_schedule, key_first_word, c_for.
  replace (9 - (9 - r))%nat with r by lia. generalize (Rcon.[r]). intros rc.
  cbn [seq foldl insert list_insert lookup_total list_lookup_total Nat.sub].
  rewrite !lxor_cancel. list_xor.
Qed.

(** The round keys as the code computes them. *)
Definition code_key (key : list Z) (r : nat) : list Z := c_for 0 r key_schedule key.

Lemma code_key_S key r : code_key key (S r) = key_schedule r (code_key key r).
Proof. unfold code_key. by rewrite c_for_S. Qed.

Lemma code_key_block key r : is_block key -> (r <= 10)%nat -> is_block (code_key key r).
Proof.
  intros Hk. induction r as [|r IH]; intros Hr; [done|].
  rewrite code_key_S. apply key_schedule_words; [apply IH; lia|lia].
Qed.

Lemma next_word_first ws a b c d r :
  length ws = (4 * r)%nat ->
  next_word (ws ++ [a; b; c; d]) =
  xor_words a (xor_words (SubWord (RotWord d)) (round_constant (S r))).
Proof.
  intros Hl. unfold next_word. rewrite length_app. cbn [length].
  rewrite !lookup_total_app_r by lia.
  replace (length ws + 4 - 1 - length ws)%nat with 3%nat by lia.
  replace (length ws + 4 - 4 - length ws)%nat with 0%nat by lia.
  replace (length ws + 4)%nat with (S r * 4)%nat by lia.
  rewrite Nat.Div0.mod_mul, Nat.div_mul by lia. reflexivity.
Qed.

Lemma next_word_rest ws a b c d :
  (length ws mod 4 <> 0)%nat -> next_word (ws ++ [a; b; c; d]) = xor_words a d.
Proof.
  intros Hl. unfold next_word. rewrite length_app. cbn [length].
  rewrite !lookup_total_app_r by lia.
  replace (length ws + 4 - 1 - length ws)%nat with 3%nat by lia.
  replace (length ws + 4 - 4 - length ws)%nat with 0%nat by lia.
  replace (length ws + 4)%nat with (length ws + 1 * 4)%nat by lia.
  rewrite Nat.Div0.mod_add. by rewrite (proj2 (Nat.eqb_neq _ _)).
Qed.

Lemma expansion_first key n ws a b c d r :
  KeyExpansion key n = ws ++ [a; b; c; d] -> length ws = (4 * r)%nat ->
  KeyExpansion key (S n) =
  (ws ++ [a]) ++ [b; c; d; xor_words a (xor_words (SubWord (RotWord d)) (round_constant (S r)))].
Proof.
  intros E Hl. cbn [KeyExpansion]. rewrite E, (next_word_first ws _ _ _ _ r) by done.
  by rewrite <- !app_assoc.
Qed.

Lemma expansion_rest key n ws a b c d r j :
  KeyExpansion key n = ws ++ [a; b; c; d] -> length ws = (4 * r + j)%nat -> (0 < j < 4)%nat ->
  KeyExpansion key (S n) = (ws ++ [a]) ++ [b; c; d; xor_words a d].
Proof.
  intros E Hl Hj. cbn [KeyExpansion]. rewrite E, next_word_rest.
  - by rewrite <- !app_assoc.
  - rewrite Hl, Nat.add_comm, Nat.mul_comm, Nat.Div0.mod_add, Nat.mod_small; lia.
Qed.

(** Four steps of the expansion are one round of the code's schedule. *)
Lemma expansion_round key n ws r w :
  KeyExpansion key n = ws ++ w -> length ws = (4 * r)%nat -> length w = 4%nat ->
  KeyExpansion key (4 + n) = ws ++ w ++ next_words r w.
Proof.
  intros E Hl Hw. list_of_length w Hw.
  apply (expansion_first _ _ _ _ _ _ _ r) in E; [|done].
  apply (expansion_rest _ _ _ _ _ _ _ r 1) in E; [|rewrite length_app, Hl; done|lia].
  apply (expansion_rest _ _ _ _ _ _ _ r 2) in E; [|rewrite !length_app, Hl; simpl; lia|lia].
  apply (expansion_rest _ _ _ _ _ _ _ r 3) in E; [|rewrite !length_app, Hl; simpl; lia|lia].
  cbn [Nat.add]. rewrite E, <- !app_assoc. reflexivity.
Qed.

Definition key_words (key : list Z) (r : nat) : list (list Z) :=
  concat (map (fun j => chunks 4 4 (code_key key j)) (seq 0 r)).

Lemma length_key_words key r : length (key_words key r) = (4 * r)%nat.
Proof.
  unfold key_words. rewrite (length_concat_const 4), length_map, length_seq; [lia|].
  apply Forall_fmap, Forall_true. intros. apply length_chunks.
Qed.

Lemma key_words_S key r : key_words key (S r) = key_words key r ++ chunks 4 4 (code_key key r).
Proof. unfold key_words. rewrite map_seq_S, concat_app. cbn [concat]. by rewrite app_nil_r. Qed.

Lemma expansion_words key r :
  is_block key -> (r <= 10)%nat -> KeyExpansion key (4 * r) = key_words key (S r).
Proof.
  intros Hk. induction r as [|r IH]; intros Hr; [reflexivity|].
  replace (4 * S r)%nat with (4 + 4 * r)%nat by lia.
  rewrite (expansion_round key (4 * r) (key_words key r) r (chunks 4 4 (code_key key r))).
  - rewrite (key_words_S key (S r)), (key_words_S key r), code_key_S, <- app_assoc. do 2 f_equal.
    symmetry. apply key_schedule_words; [|lia]. apply code_key_block; [done|lia].
  - rewrite IH by lia. apply key_words_S.
  - apply length_key_words.
  - apply length_chunks.
Qed.

(** The code's round keys are the standard's. *)
Lemma round_key_code key r : is_block key -> (r <= 10)%nat -> round_key key r = code_key key r.
Proof.
  intros Hk Hr. unfold round_key. change 40%nat with (4 * 10)%nat.
  rewrite (expansion_words key 10) by (assumption || lia).
  unfold key_words. rewrite <- (app_nil_r (concat (map _ _))), (Nat.mul_comm 4).
  rewrite (concat_lookup_slice 4 _ [] r (chunks 4 4 (code_key key r))).
  - pose proof (code_key_block key r Hk Hr) as Hb. generalize dependent (code_key key r).
    intros k Hb. block_split k Hb. reflexivity.
  - apply Forall_fmap, Forall_true. intros. apply length_chunks.
  - rewrite list_lookup_fmap, lookup_seq_lt by lia. done.
Qed.

(** ** The cipher *)

(** The two modes of one pass of the main loop. *)
Lemma aes_round_enc_eq r s k :
  aes_round false r (s, k) =
  (if (r <? 9)%nat then mix_columns false (shift_rows (add_key_sub k s))
   else shift_rows (add_key_sub k s), key_schedule r k).
Proof. unfold aes_round. by rewrite andb_false_r, orb_false_l, andb_true_r. Qed.

Lemma aes_round_dec_eq r s k :
  aes_round true r (s, k) =
  let k' := inv_key_schedule r k in
  (inv_sub_add_key k' (inv_shift_rows (if (0 <? r)%nat then mix_columns true s else s)), k').
Proof. unfold aes_round. by rewrite andb_true_r, andb_false_r, orb_false_r. Qed.

Lemma aes_round_enc key r s :
  is_block key -> is_block s -> (r < 9)%nat ->
  exists s', aes_round false r (s, code_key key r) = (s', code_key key (S r)) /\ is_block s' /\
    AddRoundKey (code_key key (S r)) s' =
    cipher_round key (S r) (AddRoundKey (code_key key r) s).
Proof.
  intros Hk Hs Hr. pose proof (code_key_block key r Hk ltac:(lia)) as Hkr.
  rewrite aes_round_enc_eq, (proj2 (Nat.ltb_lt r 9)), code_key_S by lia.
  eexists. split; [reflexivity|]. rewrite add_key_sub_spec by done.
  assert (is_block (SubBytes (AddRoundKey (code_key key r) s))) as Hb
    by by apply SubBytes_block, zip_xor_block.
  destruct (mix_columns_spec (shift_rows (SubBytes (AddRoundKey (code_key key r) s)))) as [E Hm];
    [by apply shift_rows_block|].
  split; [done|]. unfold cipher_round. rewrite round_key_code, code_key_S, E by (assumption || lia).
  by rewrite shift_rows_spec.
Qed.

(** After [r] rounds the block, with the pending round key added, is the standard's state. *)
Lemma aes_rounds_enc key s r :
  is_block key -> is_block s -> (r <= 9)%nat ->
  exists s', c_for 0 r (aes_round false) (s, key) = (s', code_key key r) /\ is_block s' /\
    AddRoundKey (code_key key r) s' = c_for 1 r (cipher_round key) (AddRoundKey key s).
Proof.
  intros Hk Hs. induction r as [|r IH]; intros Hr; [by exists s|].
  destruct (IH ltac:(lia)) as (s' & E & Hs' & Eq). rewrite !c_for_S, E, Nat.add_0_l.
  destruct (aes_round_enc key r s' Hk Hs' ltac:(lia)) as (s'' & -> & Hs'' & Eq').
  exists s''. rewrite Eq', Eq. done.
Qed.

Lemma aes_encrypt key s :
  is_block key -> is_block s ->
  exists s', c_for 0 10 (aes_round false) (s, key) = (s', code_key key 10) /\ is_block s' /\
    aes_enc_dec s key false = (Cipher key s, code_key key 10).
Proof.
  intros Hk Hs. destruct (aes_rounds_enc key s 9 Hk Hs ltac:(lia)) as (s' & E & Hs' & Eq).
  pose proof (code_key_block key 9 Hk ltac:(lia)) as Hk9.
  pose proof (code_key_block key 10 Hk ltac:(lia)) as Hk10.
  assert (is_block (SubBytes (AddRoundKey (code_key key 9) s'))) as Hb
    by by apply SubBytes_block, zip_xor_block.
  assert (is_block (shift_rows (add_key_sub (code_key key 9) s'))) as Hb2
    by (rewrite add_key_sub_spec by done; by apply shift_rows_block).
  assert (c_for 0 10 (aes_round false) (s, key) =
          (shift_rows (add_key_sub (code_key key 9) s'), code_key key 10)) as E10
    by (rewrite c_for_S, E, Nat.add_0_l, aes_round_enc_eq, <- code_key_S; done).
  exists (shift_rows (add_key_sub (code_key key 9) s')). split; [done|]. split; [done|].
  unfold aes_enc_dec. rewrite E10. f_equal.
  rewrite add_round_key_spec, add_key_sub_spec, shift_rows_spec, Eq by done.
  unfold Cipher. rewrite (round_key_code key 0), (round_key_code key 10) by (assumption || lia).
  reflexivity.
Qed.

(** A decryption round undoes the encryption round it mirrors. *)
Lemma aes_round_dec r s k :
  is_block s -> is_block k -> (r < 10)%nat ->
  aes_round true (9 - r) (aes_round false r (s, k)) = (s, k).
Proof.
  intros Hs Hk Hr.
  assert (is_block (add_key_sub k s)) as Hb
    by (rewrite add_key_sub_spec by done; by apply SubBytes_block, zip_xor_block).
  pose proof (shift_rows_block _ Hb) as Hsr.
  assert (inv_sub_add_key k (add_key_sub k s) = s) as Hinv.
  { block_split k Hk. block_split s Hs.
    unfold inv_sub_add_key, add_key_sub, c_for.
    cbn [seq foldl insert list_insert lookup_total list_lookup_total].
    rewrite !rsbox_sbox, !lxor_cancel by auto using byte_lxor. reflexivity. }
  rewrite aes_round_enc_eq, aes_round_dec_eq, inv_key_schedule_spec by done. cbv zeta. f_equal.
  destruct (decide (r = 9)%nat) as [->|Hne].
  - cbn [Nat.ltb Nat.leb Nat.sub]. by rewrite inv_shift_shift, Hinv.
  - rewrite (proj2 (Nat.ltb_lt r 9)), (proj2 (Nat.ltb_lt 0 (9 - r))) by lia.
    by rewrite inv_mix_mix, inv_shift_shift, Hinv.
Qed.

Lemma c_for_cons {S} lo n (body : nat -> S -> S) s :
  c_for lo (Datatypes.S n) body s = c_for (Datatypes.S lo) n body (body lo s).
Proof. reflexivity. Qed.

(** The blocks met during encryption. *)
Lemma aes_rounds_block key s r :
  is_block key -> is_block s -> (r <= 9)%nat ->
  exists s', c_for 0 r (aes_round false) (s, key) = (s', code_key key r) /\ is_block s' /\
             is_block (code_key key r).
Proof.
  intros Hk Hs Hr. destruct (aes_rounds_enc key s r Hk Hs Hr) as (s' & E & Hs' & _).
  exists s'. split; [done|]. split; [done|]. apply code_key_block; [done|lia].
Qed.

Lemma aes_rounds_dec key s n :
  is_block key -> is_block s -> (n <= 10)%nat ->
  c_for (10 - n) n (aes_round true) (c_for 0 n (aes_round false) (s, key)) = (s, key).
Proof.
  intros Hk Hs. induction n as [|n IH]; intros Hn; [reflexivity|].
  rewrite c_for_cons, c_for_S, Nat.add_0_l.
  destruct (aes_rounds_block key s n Hk Hs ltac:(lia)) as (s' & E & Hs' & Hk').
  replace (10 - S n)%nat with (9 - n)%nat by lia. rewrite E, aes_round_dec by (assumption || lia).
  rewrite <- E. replace (S (9 - n)) with (10 - n)%nat by lia. apply IH. lia.
Qed.

Lemma Cipher_block key s : is_block key -> is_block s -> is_block (Cipher key s).
Proof.
  intros Hk Hs. destruct (aes_encrypt key s Hk Hs) as (s' & E & Hs' & E2).
  unfold aes_enc_dec in E2. rewrite E in E2. injection E2 as <-.
  rewrite add_round_key_spec by (assumption || (apply code_key_block; [assumption|lia])).
  apply zip_xor_block; [done|]. apply code_key_block; [done|lia].
Qed.

Lemma aes_enc_dec_dec key s :
  aes_enc_dec s key true =
  c_for 0 10 (aes_round true) (add_round_key (code_key key 10) s, code_key key 10).
Proof. unfold aes_enc_dec, code_key. by destruct (c_for 0 10 (aes_round true) _). Qed.

Lemma aes_decrypt key s :
  is_block key -> is_block s -> aes_enc_dec (Cipher key s) key true = (s, key).
Proof.
  intros Hk Hs. destruct (aes_encrypt key s Hk Hs) as (s' & E & Hs' & E2).
  pose proof (code_key_block key 10 Hk ltac:(lia)) as Hk10.
  assert (add_round_key (code_key key 10) (Cipher key s) = s') as Ec.
  { unfold aes_enc_dec in E2. rewrite E in E2. injection E2 as <-.
    generalize dependent (code_key key 10). intros k ? Hk10.
    block_split k Hk10. block_split s' Hs'.
    unfold add_round_key, c_for.
    cbn [seq foldl insert list_insert lookup_total list_lookup_total].
    by rewrite !lxor_cancel. }
  rewrite aes_enc_dec_dec, Ec, <- E.
  pose proof (aes_rounds_dec key s 10 Hk Hs ltac:(lia)) as Ed. rewrite Nat.sub_diag in Ed.
  exact Ed.
Qed.

(** Decryption maps blocks to blocks, whatever they are. *)
Lemma rsbox_ok b : byte_ok b -> byte_ok (rsbox_at b).
Proof. apply (byte_forall_ok rsbox_at). vm_compute. reflexivity. Qed.

Lemma inv_shift_rows_block s : is_block s -> is_block (inv_shift_rows s).
Proof. intros Hs. block_split s Hs. vm_compute inv_shift_rows. block_ok. Qed.

Lemma inv_sub_add_key_block k s : is_block k -> is_block s -> is_block (inv_sub_add_key k s).
Proof.
  intros Hk Hs. block_split k Hk. block_split s Hs.
  unfold inv_sub_add_key, c_for. cbn [seq foldl insert list_insert lookup_total list_lookup_total].
  split; [reflexivity|]. repeat apply Forall_cons_2; try apply Forall_nil_2;
    apply byte_lxor; auto using rsbox_ok.
Qed.

Lemma inv_mix_columns_block s : is_block s -> is_block (mix_columns true s).
Proof.
  intros Hs. block_split s Hs. unfold mix_columns, inv_mix_prepare, mix_column, c_for.
  cbn [seq foldl insert list_insert lookup_total list_lookup_total Nat.mul Nat.add]. block_ok.
Qed.

Lemma inv_key_schedule_block r k : is_block k -> (r < 10)%nat -> is_block (inv_key_schedule r k).
Proof.
  intros Hk Hr. pose proof (Rcon_ok (9 - r) ltac:(lia)) as HR. block_split k Hk.
  unfold inv_key_schedule, key_first_word, c_for. generalize dependent (Rcon.[9 - r]). intros rc HR.
  cbn [seq foldl insert list_insert lookup_total list_lookup_total Nat.sub]. block_ok.
Qed.

Lemma aes_round_dec_block r s k :
  is_block s -> is_block k -> (r < 10)%nat ->
  is_block (aes_round true r (s, k)).1 /\ is_block (aes_round true r (s, k)).2.
Proof.
  intros Hs Hk Hr. rewrite aes_round_dec_eq. cbv zeta. cbn [fst snd].
  pose proof (inv_key_schedule_block r k Hk Hr) as Hk'. split; [|assumption].
  apply inv_sub_add_key_block; [assumption|]. apply inv_shift_rows_block.
  destruct (0 <? r)%nat; [by apply inv_mix_columns_block|assumption].
Qed.

Lemma aes_dec_block key s : is_block key -> is_block s -> is_block (aes_enc_dec s key true).1.
Proof.
  intros Hk Hs. rewrite aes_enc_dec_dec. pose proof (code_key_block key 10 Hk ltac:(lia)) as Hk10.
  apply (c_for_ind (fun _ sk => is_block sk.1 /\ is_block sk.2) 0 10 (aes_round true)).
  - rewrite add_round_key_spec by assumption. split; [by apply zip_xor_block|assumption].
  - intros r [s' k'] Hr [H1 H2]. apply aes_round_dec_block; [assumption..|lia].
Qed.

(** ** The properties *)

(** [aes_enc_dec] with [dir = 0] is the FIPS-197 AES-128 cipher (field arithmetic,
    S-box as inverse and affine map, row shifts, column mixing by the standard's matrix, key
    expansion by words), although it substitutes before it shifts, mixes columns by shared
    sums and computes the key schedule in place; the key array ends as the last round key. *)
Theorem aes_encrypt_fips (key state : list Z) (Hk : is_block key) (Hs : is_block state) :
  aes_enc_dec state key false = (Cipher key state, round_key key 10) /\
  is_block (Cipher key state).
Proof.
  split; [|by apply Cipher_block]. rewrite round_key_code by (assumption || lia).
  by destruct (aes_encrypt key state Hk Hs) as (? & _ & _ & E).
Qed.

(** [aes_enc_dec] with [dir = 1] and the same key recovers the block that was encrypted,
    and leaves the key array as it was, having run the key schedule forwards and back. *)
Theorem aes_decrypt_encrypt (key state : list Z) (Hk : is_block key) (Hs : is_block state) :
  aes_enc_dec (aes_enc_dec state key false).1 key true = (state, key).
Proof.
  destruct (aes_encrypt key state Hk Hs) as (? & _ & _ & ->). by apply aes_decrypt.
Qed.

(** The example of FIPS-197, appendix C.1. *)
Definition fips_key : list Z := [0; 1; 2; 3; 4; 5; 6; 7; 8; 9; 10; 11; 12; 13; 14; 15].
Definition fips_plain : list Z :=
  [0x00; 0x11; 0x22; 0x33; 0x44; 0x55; 0x66; 0x77; 0x88; 0x99; 0xaa; 0xbb; 0xcc; 0xdd; 0xee; 0xff].
Definition fips_cipher : list Z :=
  [0x69; 0xc4; 0xe0; 0xd8; 0x6a; 0x7b; 0x04; 0x30; 0xd8; 0xcd; 0xb7; 0x80; 0x70; 0xb4; 0xc5; 0x5a].

Lemma fips_key_block : is_block fips_key.
Proof. split; [reflexivity|]. repeat constructor; done. Qed.

Lemma fips_plain_block : is_block fips_plain.
Proof. split; [reflexivity|]. repeat constructor; done. Qed.

Example fips_vector : Cipher fips_key fips_plain = fips_cipher.
Proof. vm_compute. reflexivity. Qed.

Lemma aes_encrypt_fips_witness :
  aes_enc_dec fips_plain fips_key false = (Cipher fips_key fips_plain, round_key fips_key 10).
Proof. exact (proj1 (aes_encrypt_fips fips_key fips_plain fips_key_block fips_plain_block)). Defined.

Lemma aes_decrypt_encrypt_witness :
  aes_enc_dec (aes_enc_dec fips_plain fips_key false).1 fips_key true = (fips_plain, fips_key).
Proof. exact (aes_decrypt_encrypt fips_key fips_plain fips_key_block fips_plain_block). Defined.
