(* ===== verification/Cmac.v ===== *)
(** * AES-CBC and AES-CMAC (src/src/merkle/aes-cbc-cmac.c)

    Buffers are lists of bytes that start at the pointer the code holds; reading or writing
    past the end of one is undefined behaviour.  Lengths are C [int]s: their sums are checked
    for overflow, division truncates towards zero. *)

From S2P Require Import Prelude Aes128.
Local Open Scope c_scope.

Definition BLOCK_SIZE : Z := 16.
Definition LAST_INDEX : Z := BLOCK_SIZE - 1.

Definition const_Rb : list Z := replicate 15 0 ++ [0x87].
Definition const_Zero : list Z := replicate 16 0.

(** The pointer [&p[off]], which must stay inside the array or just past it. *)
Definition advance (p : list Z) (off : Z) : outcome (list Z) :=
  if (0 <=? off) && (off <=? Z.of_nat (length p)) then Ret (drop (Z.to_nat off) p) else Ub.

(** The sign of [memcmp(a, b, n)]. *)
Fixpoint memcmp (a b : list Z) (n : nat) : outcome Z :=
  match n with
  | O => Ret 0
  | S n =>
    match a, b with
    | x :: a, y :: b => if x =? y then memcmp a b n else Ret (Z.sgn (x - y))
    | _, _ => Ub
    end
  end.

Definition AES_128_ENC (key msg : list Z) : outcome (list Z) :=
  cipher ← read_bytes msg 16;
  key_copy ← read_bytes key 16;
  Ret (aes_enc_dec cipher key_copy false).1.

Definition AES_128_DEC (key msg : list Z) : outcome (list Z) :=
  cipher ← read_bytes msg 16;
  key_copy ← read_bytes key 16;
  Ret (aes_enc_dec cipher key_copy true).1.

Definition xor_128 (a b : list Z) : outcome (list Z) :=
  mapM (fun i => x ← deref (a !! i); y ← deref (b !! i); Ret (x ⊕ y)) (seq 0 16).

(** ** CBC *)

Definition padding_AES (lastb : list Z) (length : Z) : outcome (list Z) :=
  let length := Z.rem length BLOCK_SIZE in
  if length =? 0 then read_bytes lastb 16
  else mapM (fun j => if Z.of_nat j <? length then deref (lastb !! j) else Ret 0) (seq 0 16).

(** The loop of [AES_CBC_ENC]: [k] blocks left of [n], [pos] the distance [output] moved. *)
Fixpoint cbc_enc_loop (key input M_last : list Z) (k : nat) (n i : Z)
    (X output : list Z) (pos : nat) (outputLength : Z) : outcome (list Z) :=
  match k with
  | O => Ret output
  | S k =>
    if 0 <? outputLength then
      text ← (if i =? n - 1 then Ret M_last else advance input (BLOCK_SIZE * i));
      let outLen := if BLOCK_SIZE <? outputLength then BLOCK_SIZE else outputLength in
      Y ← xor_128 X text;
      X ← AES_128_ENC key Y;
      output ← write_bytes output pos (take (Z.to_nat outLen) X);
      cbc_enc_loop key input M_last k n (i + 1) X output (pos + Z.to_nat outLen)
        (outputLength - outLen)
    else Ret output
  end.

(** The return value and the final contents of [output]. *)
Definition AES_CBC_ENC (IV key input : list Z) (inputLength : Z) (output : list Z)
    (outputLength : Z) : outcome (Z * list Z) :=
  if inputLength <=? 0 then Ret (0, output) else
  t ← c_int (inputLength + LAST_INDEX);
  let n := Z.quot t BLOCK_SIZE in
  X ← read_bytes IV 16;
  last ← advance input (BLOCK_SIZE * (n - 1));
  M_last ← padding_AES last inputLength;
  output ← cbc_enc_loop key input M_last (Z.to_nat n) n 0 X output 0 outputLength;
  Ret (n * BLOCK_SIZE, output).

Fixpoint cbc_dec_loop (key input : list Z) (k : nat) (i : Z)
    (Zb output : list Z) (pos : nat) (outputLength : Z) : outcome (list Z) :=
  match k with
  | O => Ret output
  | S k =>
    if 0 <? outputLength then
      cipher ← advance input (BLOCK_SIZE * i);
      X ← AES_128_DEC key cipher;
      text ← xor_128 Zb X;
      Zb ← read_bytes cipher 16;
      output ← write_bytes output pos text;
      cbc_dec_loop key input k (i + 1) Zb output (pos + 16) (outputLength - BLOCK_SIZE)
    else Ret output
  end.

Definition AES_CBC_DEC (IV key input : list Z) (inputLength : Z) (output : list Z)
    (outputLength : Z) : outcome (Z * list Z) :=
  if inputLength <=? 0 then Ret (0, output) else
  let inputLength := Z.quot inputLength BLOCK_SIZE * BLOCK_SIZE in
  t ← c_int (inputLength + LAST_INDEX);
  let n := Z.quot t BLOCK_SIZE in
  Zb ← read_bytes IV 16;
  output ← cbc_dec_loop key input (Z.to_nat n) 0 Zb output 0 outputLength;
  Ret (n * BLOCK_SIZE, output).

(** ** CMAC *)

(** [for (i = LAST_INDEX; i >= 0; i--)], on an input of 16 bytes. *)
Definition leftshift_onebit (input : list Z) : list Z :=
  (c_for 0 16 (fun j '(output, overflow) =>
     let i := (15 - j)%nat in
     let output := output.[i <- u8 (Z.shiftl input.[i] 1)] in
     let output := output.[i <- Z.lor output.[i] overflow] in
     (output, if Z.land input.[i] 0x80 =? 0 then 0 else 1)) (replicate 16 0, 0)).1.

(** One of the two subkeys from the value before it. *)
Definition subkey_step (L : list Z) : outcome (list Z) :=
  if Z.land L.[0] 0x80 =? 0 then Ret (leftshift_onebit L)
  else xor_128 (leftshift_onebit L) const_Rb.

Definition generate_subkey (key : list Z) : outcome (list Z * list Z) :=
  L ← AES_128_ENC key const_Zero;
  K1 ← subkey_step L;
  K2 ← subkey_step K1;
  Ret (K1, K2).

Definition padding (lastb : list Z) (length : Z) : outcome (list Z) :=
  mapM (fun j =>
    if Z.of_nat j <? length then deref (lastb !! j)
    else if Z.of_nat j =? length then Ret 0x80
    else Ret 0x00) (seq 0 16).

(** [for (i = 0; i < n - 1; i++)]. *)
Fixpoint cmac_loop (key input : list Z) (k : nat) (i : Z) (X : list Z) : outcome (list Z) :=
  match k with
  | O => Ret X
  | S k =>
    text ← advance input (BLOCK_SIZE * i);
    Y ← xor_128 X text;
    X ← AES_128_ENC key Y;
    cmac_loop key input k (i + 1) X
  end.

Definition AES_CMAC (key input : list Z) (length : Z) : outcome (list Z) :=
  '(K1, K2) ← generate_subkey key;
  t ← c_int (length + LAST_INDEX);
  let n := Z.quot t BLOCK_SIZE in
  let '(n, flag) :=
    if n =? 0 then (1, false) else (n, Z.rem length BLOCK_SIZE =? 0) in
  last ← advance input (BLOCK_SIZE * (n - 1));
  M_last ← (if flag : bool then xor_128 last K1
            else padded ← padding last (Z.rem length BLOCK_SIZE); xor_128 padded K2);
  X ← cmac_loop key input (Z.to_nat (n - 1)) 0 (replicate 16 0);
  Y ← xor_128 X M_last;
  AES_128_ENC key Y.

Definition AES_CMAC_CHECK (key input : list Z) (length : Z) (mac : list Z) : outcome Z :=
  T ← AES_CMAC key input length;
  memcmp mac T 16.
