(* ===== verification/CmacFacts.v ===== *)
(** * AES-CBC and AES-CMAC against their specifications

    CMAC as in RFC 4493 and SP 800-38B, with the subkeys computed on 128-bit integers; CBC
    with zero padding; round trip, truncation and the bounds of the output buffers. *)

From S2P Require Import Prelude Aes128 Aes128Facts Cmac.
Local Open Scope c_scope.

(** ** Specifications *)

(** A byte string as a big-endian integer, and back. *)
Definition be_val (l : list Z) : Z := foldl (fun acc b => 256 * acc + b) 0 l.

Fixpoint be_bytes (n : nat) (x : Z) : list Z :=
  match n with
  | O => []
  | S n => be_bytes n (x / 256) ++ [x mod 256]
  end.

(** Doubling in GF(2^128) modulo x^128 + x^7 + x^2 + x + 1. *)
Definition dbl (x : Z) : Z :=
  if 2 ^ 127 <=? x then (2 * x) mod 2 ^ 128 ⊕ 0x87 else 2 * x.

Definition dbl_block (b : list Z) : list Z := be_bytes 16 (dbl (be_val b)).

Definition xor_blocks (a b : list Z) : list Z := zip_with Z.lxor a b.

(** The number of blocks of a message; an empty one has one. *)
Definition cmac_blocks (len : nat) : nat := Nat.max 1 ((len + 15) / 16).

Definition cmac_last (key msg : list Z) : list Z :=
  let K1 := dbl_block (Cipher key (replicate 16 0)) in
  let K2 := dbl_block K1 in
  let Mn := drop (16 * (cmac_blocks (length msg) - 1)) msg in
  if (length Mn =? 16)%nat then xor_blocks Mn K1
  else xor_blocks (Mn ++ 0x80 :: replicate (15 - length Mn) 0) K2.

Definition cmac (key msg : list Z) : list Z :=
  foldl (fun X M => Cipher key (xor_blocks X M)) (replicate 16 0)
    (chunks 16 (cmac_blocks (length msg) - 1) msg ++ [cmac_last key msg]).

(** CBC over a list of blocks with block cipher [E], and its inverse with [D]. *)
Fixpoint cbc (E : list Z -> list Z) (X : list Z) (bs : list (list Z)) : list (list Z) :=
  match bs with
  | [] => []
  | b :: bs => E (xor_blocks X b) :: cbc E (E (xor_blocks X b)) bs
  end.

Fixpoint uncbc (D : list Z -> list Z) (Zb : list Z) (cs : list (list Z)) : list (list Z) :=
  match cs with
  | [] => []
  | c :: cs => xor_blocks Zb (D c) :: uncbc D c cs
  end.

Definition decipher (key c : list Z) : list Z := (aes_enc_dec c key true).1.

Definition cbc_count (len : nat) : nat := ((len + 15) / 16)%nat.

(** The message padded with zeros to whole blocks. *)
Definition pad0 (msg : list Z) : list Z :=
  msg ++ replicate (16 * cbc_count (length msg) - length msg) 0.

#[local] Opaque Cipher aes_enc_dec.

(** ** Buffers *)

Lemma take_elements (l : list Z) n : (n <= length l)%nat -> take n l = map (fun i => l.[i]) (seq 0 n).
Proof. intros Hn. by rewrite <- (slice_elements l 0 n) by lia. Qed.

Lemma deref_at (l : list Z) i : (i < length l)%nat -> deref (l !! i) = Ret l.[i].
Proof. intros Hi. destruct (lookup_lt_is_Some_2 l i Hi) as [x E]. by rewrite (list_lookup_total_correct _ _ _ E), E. Qed.

Lemma xor_128_ok a b :
  (16 <= length a)%nat -> (16 <= length b)%nat ->
  xor_128 a b = Ret (xor_blocks (take 16 a) (take 16 b)).
Proof.
  intros Ha Hb. unfold xor_128. rewrite (mapM_ret _ (fun i => a.[i] ⊕ b.[i])).
  - rewrite !take_elements by done. reflexivity.
  - intros i Hi%elem_of_seq. rewrite !deref_at by lia. reflexivity.
Qed.

Lemma AES_128_ENC_ok key msg :
  is_block key -> (16 <= length msg)%nat -> bytes_ok msg ->
  AES_128_ENC key msg = Ret (Cipher key (take 16 msg)) /\ is_block (Cipher key (take 16 msg)).
Proof.
  intros Hk Hl Hm. assert (is_block (take 16 msg)) as Hb
    by (split; [rewrite length_take; lia|by apply bytes_ok_take]).
  unfold AES_128_ENC. rewrite !read_bytes_ok by (done || (destruct Hk; lia)).
  cbn [mbind outcome_bind]. rewrite (take_ge key) by (destruct Hk; lia).
  destruct (aes_encrypt key (take 16 msg) Hk Hb) as (s & _ & _ & ->).
  split; [reflexivity|]. by apply Cipher_block.
Qed.

Lemma block_take b : is_block b -> take 16 b = b.
Proof. intros [Hl _]. apply take_ge. lia. Qed.

Lemma AES_128_ENC_block key b :
  is_block key -> is_block b -> AES_128_ENC key b = Ret (Cipher key b).
Proof.
  intros Hk [Hl Hb]. destruct (AES_128_ENC_ok key b Hk) as [E _]; [lia|done|].
  by rewrite take_ge in E by lia.
Qed.

Lemma zeros_block : is_block (replicate 16 0).
Proof. split; [done|apply bytes_ok_zeros]. Qed.

Lemma xor_blocks_block a b : is_block a -> is_block b -> is_block (xor_blocks a b).
Proof. apply zip_xor_block. Qed.

Lemma xor_128_block a b : is_block a -> is_block b -> xor_128 a b = Ret (xor_blocks a b).
Proof.
  intros Ha Hb. rewrite xor_128_ok by (destruct Ha, Hb; lia). by rewrite !block_take.
Qed.
#[export] Hint Resolve zeros_block xor_blocks_block Cipher_block : kvsev.

(** ** Subkeys *)

Lemma be_val_snoc l b : be_val (l ++ [b]) = 256 * be_val l + b.
Proof. unfold be_val. by rewrite foldl_app. Qed.

Lemma be_bytes_val l : bytes_ok l -> be_bytes (length l) (be_val l) = l.
Proof.
  induction l as [|b l IH] using rev_ind; [done|]. intros [Hl Hb]%bytes_ok_app.
  apply Forall_cons_1 in Hb as [Hb _]. unfold byte_ok in Hb.
  rewrite length_app, Nat.add_comm, be_val_snoc. cbn [length Nat.add be_bytes].
  replace ((256 * be_val l + b) / 256) with (be_val l) by zdm.
  replace ((256 * be_val l + b) mod 256) with b by zdm. by rewrite IH.
Qed.

Lemma be_val_cons b l : be_val (b :: l) = b * 256 ^ Z.of_nat (length l) + be_val l.
Proof.
  induction l as [|x l IH] using rev_ind; [unfold be_val; simpl; lia|].
  rewrite app_comm_cons, !be_val_snoc, IH, length_app, Nat2Z.inj_add, Z.pow_add_r by lia.
  change (256 ^ Z.of_nat (length [x])) with 256. lia.
Qed.

Lemma be_val_bound l : bytes_ok l -> 0 <= be_val l < 256 ^ Z.of_nat (length l).
Proof.
  induction 1 as [|b l Hb Hl IH]; [unfold be_val; simpl; lia|].
  rewrite be_val_cons. cbn [length]. rewrite Nat2Z.inj_succ, Z.pow_succ_r by lia.
  unfold byte_ok in Hb. nia.
Qed.

(** The shift on lists of any length: the bytes and the bit shifted out. *)
Fixpoint shl_list (l : list Z) : list Z * Z :=
  match l with
  | [] => ([], 0)
  | b :: l =>
    let '(l', o) := shl_list l in
    (Z.lor (u8 (Z.shiftl b 1)) o :: l', if Z.land b 0x80 =? 0 then 0 else 1)
  end.

Lemma leftshift_list b : is_block b -> leftshift_onebit b = (shl_list b).1.
Proof. intros Hb. block_split b Hb. reflexivity. Qed.

Lemma shl_byte b o :
  byte_ok b -> o = 0 \/ o = 1 ->
  let hi := if Z.land b 0x80 =? 0 then 0 else 1 in
  Z.lor (u8 (Z.shiftl b 1)) o + 256 * hi = 2 * b + o /\ byte_ok (Z.lor (u8 (Z.shiftl b 1)) o).
Proof.
  intros Hb Ho hi. destruct Ho as [-> | ->]; split.
  all: revert b Hb hi; intros b Hb; cbv zeta.
  - revert b Hb. apply (byte_forall_eq (fun b => Z.lor (u8 (Z.shiftl b 1)) 0 + 256 * (if Z.land b 0x80 =? 0 then 0 else 1)) (fun b => 2 * b + 0)). vm_compute. reflexivity.
  - revert b Hb. apply (byte_forall_ok (fun b => Z.lor (u8 (Z.shiftl b 1)) 0)). vm_compute. reflexivity.
  - revert b Hb. apply (byte_forall_eq (fun b => Z.lor (u8 (Z.shiftl b 1)) 1 + 256 * (if Z.land b 0x80 =? 0 then 0 else 1)) (fun b => 2 * b + 1)). vm_compute. reflexivity.
  - revert b Hb. apply (byte_forall_ok (fun b => Z.lor (u8 (Z.shiftl b 1)) 1)). vm_compute. reflexivity.
Qed.

Lemma shl_list_val l :
  bytes_ok l ->
  let '(l', o) := shl_list l in
  be_val l' + 256 ^ Z.of_nat (length l) * o = 2 * be_val l /\ bytes_ok l' /\
  length l' = length l /\ (o = 0 \/ o = 1).
Proof.
  induction 1 as [|b l Hb Hl IH]; [simpl; repeat split; auto; constructor|].
  cbn [shl_list]. destruct (shl_list l) as [l' o]. destruct IH as (Hv & Hok & Hlen & Ho).
  destruct (shl_byte b o Hb Ho) as [E Hx].
  split_and!; [|by constructor|cbn [length]; lia|case_match; auto].
  rewrite !be_val_cons, Hlen. cbn [length]. rewrite Nat2Z.inj_succ, Z.pow_succ_r by lia. nia.
Qed.

Lemma leftshift_val b :
  is_block b ->
  be_val (leftshift_onebit b) = (2 * be_val b) mod 2 ^ 128 /\ is_block (leftshift_onebit b).
Proof.
  intros Hb. rewrite leftshift_list by done. destruct Hb as [Hl Hb].
  pose proof (shl_list_val b Hb) as H. destruct (shl_list b) as [l' o].
  destruct H as (Hv & Hok & Hlen & Ho). cbn [fst]. rewrite Hl in *.
  split; [|split; [lia|done]]. pose proof (be_val_bound l' Hok) as Hbd. rewrite Hlen in Hbd.
  change (256 ^ Z.of_nat 16) with (2 ^ 128) in *.
  apply (Z.mod_unique_pos _ _ o); lia.
Qed.

Lemma msb_val b : is_block b -> (Z.land b.[0] 0x80 =? 0) = negb (2 ^ 127 <=? be_val b).
Proof.
  intros [Hl Hb]. destruct b as [|x b]; [done|]. injection Hl as Hl.
  apply Forall_cons_1 in Hb as [Hx Hb]. cbn [lookup_total list_lookup_total].
  rewrite be_val_cons, Hl. pose proof (be_val_bound b Hb) as Hbd. rewrite Hl in Hbd.
  change (256 ^ Z.of_nat 15) with (2 ^ 120) in *.
  assert ((Z.land x 0x80 =? 0) = (x <? 128)) as ->.
  { apply Bool.eqb_prop. revert x Hx.
    apply (byte_forall (fun x => Bool.eqb (Z.land x 0x80 =? 0) (x <? 128))). vm_compute. reflexivity. }
  change (2 ^ 127) with (128 * 2 ^ 120).
  destruct (Z.ltb_spec x 128), (Z.leb_spec (128 * 2 ^ 120) (x * 2 ^ 120 + be_val b)); try done; exfalso; nia.
Qed.

(** Exclusive or with the constant changes the last byte only. *)
Lemma xor_Rb_val b :
  is_block b -> be_val (xor_blocks b const_Rb) = be_val b ⊕ 0x87.
Proof.
  intros Hb. assert (exists pre x, b = pre ++ [x] /\ length pre = 15%nat /\ byte_ok x) as (l & x & -> & Hl & Hx).
  { block_split b Hb. by eexists [_;_;_;_;_;_;_;_;_;_;_;_;_;_;_], _. }
  assert (xor_blocks (l ++ [x]) const_Rb = l ++ [x ⊕ 0x87]) as ->.
  { list_of_length l Hl. unfold xor_blocks, const_Rb. cbn [app replicate zip_with].
    by rewrite !Z.lxor_0_r. }
  rewrite !be_val_snoc. unfold byte_ok in Hx.
  assert (byte_ok (x ⊕ 0x87)) as Hx2 by (apply byte_lxor; unfold byte_ok; lia). unfold byte_ok in Hx2.
  rewrite <- !(lor_disjoint_add _ _ 8) by (lia || zdm).
  apply Z.bits_inj'. intros i Hi. rewrite !Z.lxor_spec, !Z.lor_spec, Z.lxor_spec.
  destruct (decide (8 <= i)).
  - rewrite (testbit_above 0x87 8) by lia. by rewrite !xorb_false_r.
  - replace (256 * be_val l) with (Z.shiftl (be_val l) 8) by (rewrite Z.shiftl_mul_pow2; lia).
    rewrite Z.shiftl_spec_low by lia. done.
Qed.

Lemma subkey_step_ok L : is_block L -> subkey_step L = Ret (dbl_block L) /\ is_block (dbl_block L).
Proof.
  intros HL. destruct (leftshift_val L HL) as [Hv Hb].
  assert (forall b, is_block b -> be_bytes 16 (be_val b) = b) as Hinv
    by (intros b [<- ?]; by apply be_bytes_val).
  pose proof (be_val_bound L (proj2 HL)) as Hbd. rewrite (proj1 HL) in Hbd.
  change (256 ^ Z.of_nat 16) with (2 ^ 128) in Hbd.
  unfold subkey_step, dbl_block, dbl. rewrite msb_val by done.
  destruct (Z.leb_spec (2 ^ 127) (be_val L)); cbn [negb].
  - assert (is_block const_Rb) as HRb
      by (split; [done|]; unfold bytes_ok, const_Rb; repeat constructor; done).
    rewrite xor_128_block by done. rewrite <- Hv, <- xor_Rb_val by done.
    rewrite Hinv by auto with kvsev. auto with kvsev.
  - rewrite Z.mod_small in Hv by lia. rewrite <- Hv, Hinv by assumption. auto.
Qed.

Lemma generate_subkey_ok key L :
  AES_128_ENC key const_Zero = Ret L -> is_block L ->
  generate_subkey key = Ret (dbl_block L, dbl_block (dbl_block L)) /\
  is_block (dbl_block L) /\ is_block (dbl_block (dbl_block L)).
Proof.
  intros E HL. unfold generate_subkey. rewrite E. cbn [mbind outcome_bind].
  destruct (subkey_step_ok L HL) as [-> HK1]. cbn [mbind outcome_bind].
  destruct (subkey_step_ok _ HK1) as [-> HK2]. auto.
Qed.

(** ** CMAC *)

Lemma advance_ok l i :
  (i <= length l)%nat -> advance l (Z.of_nat i) = Ret (drop i l).
Proof.
  intros Hi. unfold advance. rewrite (proj2 (Z.leb_le _ _)), (proj2 (Z.leb_le _ _)) by lia.
  by rewrite Nat2Z.id.
Qed.

Lemma cmac_loop_ok key input k i X :
  is_block key -> is_block X -> bytes_ok input -> (16 * (i + k) <= length input)%nat ->
  let Y := foldl (fun X M => Cipher key (xor_blocks X M)) X (chunks 16 k (drop (16 * i) input)) in
  cmac_loop key input k (Z.of_nat i) X = Ret Y /\ is_block Y.
Proof.
  intros Hk HX Hin. revert i X HX. induction k as [|k IH]; intros i X HX Hl; [done|].
  cbn [cmac_loop chunks foldl]. unfold BLOCK_SIZE.
  replace (16 * Z.of_nat i) with (Z.of_nat (16 * i)) by lia. rewrite advance_ok by lia.
  cbn [mbind outcome_bind].
  assert (is_block (take 16 (drop (16 * i) input))) as Hb.
  { split; [rewrite length_take, length_drop; lia|]. by apply bytes_ok_take, bytes_ok_drop. }
  rewrite xor_128_ok, (block_take X) by (try assumption; try (destruct HX; lia); rewrite length_drop; lia).
  cbn [mbind outcome_bind].
  rewrite AES_128_ENC_block by auto with kvsev. cbn [mbind outcome_bind].
  replace (Z.of_nat i + 1) with (Z.of_nat (S i)) by lia.
  rewrite drop_drop. replace (16 * i + 16)%nat with (16 * S i)%nat by lia.
  apply IH; [auto with kvsev|lia].
Qed.

Lemma map_lookup_total (l : list Z) n : length l = n -> map (fun i => l.[i]) (seq 0 n) = l.
Proof. intros <-. rewrite <- take_elements by done. by apply take_ge. Qed.

Lemma padding_ok Mn rest :
  (length Mn < 16)%nat ->
  padding (Mn ++ rest) (Z.of_nat (length Mn)) = Ret (Mn ++ 0x80 :: replicate (15 - length Mn) 0).
Proof.
  intros Hl. set (P := Mn ++ 0x80 :: replicate (15 - length Mn) 0). unfold padding.
  rewrite (mapM_ret _ (fun i => P.[i])).
  - rewrite map_lookup_total; [done|]. unfold P. rewrite length_app. cbn [length].
    rewrite length_replicate. lia.
  - intros j Hj%elem_of_seq. unfold P.
    destruct (Z.ltb_spec (Z.of_nat j) (Z.of_nat (length Mn))).
    + rewrite lookup_app_l, lookup_total_app_l, deref_at by lia. done.
    + rewrite lookup_total_app_r by lia.
      destruct (Z.eqb_spec (Z.of_nat j) (Z.of_nat (length Mn))).
      * replace (j - length Mn)%nat with 0%nat by lia. done.
      * destruct (j - length Mn)%nat as [|m] eqn:E; [lia|]. change (Ret 0 = Ret (replicate (15 - length Mn) 0).[m]).
        by rewrite lookup_total_replicate_2 by lia.
Qed.

Lemma quot_blocks len : Z.quot (Z.of_nat len + 15) 16 = Z.of_nat ((len + 15) / 16).
Proof. rewrite Z.quot_div_nonneg by lia. rewrite Nat2Z.inj_div. f_equal. lia. Qed.

Lemma rem_blocks len : Z.rem (Z.of_nat len) 16 = Z.of_nat (len mod 16).
Proof. rewrite Z.rem_mod_nonneg by lia. by rewrite Nat2Z.inj_mod. Qed.

(** The last block: how long it is, and when it is complete. *)
Lemma last_length len :
  let m := (len - 16 * (cmac_blocks len - 1))%nat in
  (m <= 16 /\ 16 * (cmac_blocks len - 1) <= len)%nat /\
  (m = 16 <-> len <> 0 /\ len mod 16 = 0)%nat /\ (m <> 16 -> m = len mod 16)%nat.
Proof.
  cbv zeta. unfold cmac_blocks. pose proof (Nat.div_mod_eq (len + 15) 16).
  pose proof (Nat.mod_upper_bound (len + 15) 16). pose proof (Nat.div_mod_eq len 16).
  pose proof (Nat.mod_upper_bound len 16). destruct (decide (len = 0)%nat) as [->|].
  - simpl. lia.
  - assert ((len + 15) / 16 = len / 16 + (if decide (len mod 16 = 0) then 0 else 1))%nat as E.
    { case_decide; [replace (len + 15)%nat with (15 + len / 16 * 16)%nat by lia
                   |replace (len + 15)%nat with (len mod 16 - 1 + (len / 16 + 1) * 16)%nat by lia];
        rewrite Nat.div_add by lia; rewrite Nat.div_small; lia. }
    case_decide; lia.
Qed.

Lemma cmac_flag len :
  (if Z.of_nat ((len + 15) / 16) =? 0 then (1, false)
   else (Z.of_nat ((len + 15) / 16), Z.of_nat (len mod 16) =? 0)) =
  (Z.of_nat (cmac_blocks len),
   bool_decide (len - 16 * (cmac_blocks len - 1) = 16)%nat).
Proof.
  destruct (last_length len) as (_ & Hf & _). unfold cmac_blocks at 1.
  destruct (Z.eqb_spec (Z.of_nat ((len + 15) / 16)) 0) as [E|E].
  - assert (len = 0)%nat as ->.
    { destruct len; [done|]. pose proof (Nat.div_str_pos (S len + 15) 16). lia. }
    reflexivity.
  - f_equal; [lia|]. assert (len <> 0)%nat by (intros ->; done).
    case_bool_decide; [apply Z.eqb_eq|apply Z.eqb_neq]; lia.
Qed.

(** The loop over the complete blocks and the final encryption. *)
Lemma cmac_tail key msg rest last :
  is_block key -> bytes_ok (msg ++ rest) -> last = cmac_last key msg -> is_block last ->
  (X ← cmac_loop key (msg ++ rest) (Z.to_nat (Z.of_nat (cmac_blocks (length msg)) - 1)) 0 (replicate 16 0);
   Y ← xor_128 X last; AES_128_ENC key Y) = Ret (cmac key msg) /\ is_block (cmac key msg).
Proof.
  intros Hk Hin -> Hlast. destruct (last_length (length msg)) as ([Hn1 Hn2] & _).
  set (N := cmac_blocks (length msg)) in *.
  assert (1 <= N)%nat as HN by (unfold N, cmac_blocks; lia).
  destruct (cmac_loop_ok key (msg ++ rest) (N - 1) 0 (replicate 16 0)) as [E Hb];
    [assumption|auto with kvsev|assumption|rewrite length_app; lia|].
  replace (Z.to_nat (Z.of_nat N - 1)) with (N - 1)%nat by lia.
  change (Z.of_nat 0) with 0 in E. rewrite E. cbn [mbind outcome_bind].
  rewrite xor_128_block by assumption. cbn [mbind outcome_bind].
  rewrite AES_128_ENC_block by auto with kvsev. unfold cmac. fold N.
  rewrite foldl_app. cbn [foldl].
  assert (chunks 16 (N - 1) (drop (16 * 0) (msg ++ rest)) = chunks 16 (N - 1) msg) as Ec.
  { rewrite Nat.mul_0_r, drop_0. apply chunks_prefix. lia. }
  rewrite Ec in *. split; [reflexivity|]. auto with kvsev.
Qed.

Lemma AES_CMAC_ok key msg rest :
  is_block key -> bytes_ok (msg ++ rest) -> Z.of_nat (length msg) <= 2 ^ 31 - 16 ->
  AES_CMAC key (msg ++ rest) (Z.of_nat (length msg)) = Ret (cmac key msg) /\ is_block (cmac key msg).
Proof.
  intros Hk Hin Hlen. pose proof Hin as [Hm Hrest]%bytes_ok_app.
  unfold AES_CMAC.
  destruct (generate_subkey_ok key (Cipher key (replicate 16 0))) as (-> & HK1 & HK2);
    [apply AES_128_ENC_block; auto with kvsev|auto with kvsev|].
  cbn [mbind outcome_bind]. unfold LAST_INDEX, BLOCK_SIZE. change (16 - 1) with 15.
  rewrite c_int_ok by lia. cbn [mbind outcome_bind].
  rewrite quot_blocks, rem_blocks, cmac_flag.
  destruct (last_length (length msg)) as ([Hn1 Hn2] & Hn3 & Hn4).
  set (N := cmac_blocks (length msg)) in *.
  assert (1 <= N)%nat as HN by (unfold N, cmac_blocks; lia).
  replace (16 * (Z.of_nat N - 1)) with (Z.of_nat (16 * (N - 1))) by lia.
  rewrite advance_ok by (rewrite length_app; lia). cbn [mbind outcome_bind].
  rewrite drop_app_le by lia. set (Mn := drop (16 * (N - 1)) msg).
  assert (length Mn = length msg - 16 * (N - 1))%nat as HMn by apply length_drop.
  assert (bytes_ok Mn) as HMb by by apply bytes_ok_drop.
  set (K1 := dbl_block (Cipher key (replicate 16 0))) in *.
  case_bool_decide as Ef.
  - rewrite xor_128_ok, take_app_le, (take_ge Mn), (block_take K1)
      by (try assumption; rewrite ?length_app; destruct HK1; lia).
    cbn [mbind outcome_bind]. apply cmac_tail; [assumption..| |].
    + unfold cmac_last. fold N Mn K1. by rewrite HMn, Ef.
    + apply xor_blocks_block; [split; [lia|assumption]|assumption].
  - rewrite <- (Hn4 Ef), <- HMn, padding_ok by lia. cbn [mbind outcome_bind].
    assert (is_block (Mn ++ 128 :: replicate (15 - length Mn) 0)) as Hp.
    { split; [rewrite length_app; cbn [length]; rewrite length_replicate; lia|].
      apply bytes_ok_app. split; [assumption|].
      apply Forall_cons_2; [unfold byte_ok; lia|apply bytes_ok_zeros]. }
    rewrite xor_128_block by assumption. cbn [mbind outcome_bind]. apply cmac_tail; [assumption..| |].
    + unfold cmac_last. fold N Mn K1. rewrite (proj2 (Nat.eqb_neq _ _)) by lia. reflexivity.
    + auto with kvsev.
Qed.

(** A code over more bytes than can be read reads beyond them. *)
Lemma mapM_ub {A B} (f : A -> outcome B) l x : (forall y, f y <> Abort) -> x ∈ l -> f x = Ub -> mapM f l = Ub.
Proof.
  intros Hf Hx E. induction l as [|y l IH]; [by apply not_elem_of_nil in Hx|]. cbn [mapM]. apply elem_of_cons in Hx as [<-|Hx].
  - by rewrite E.
  - specialize (Hf y). destruct (f y); [|done|done]. cbn [mbind outcome_bind]. by rewrite IH.
Qed.

Lemma deref_no_abort {A} (x : option A) : deref x <> Abort.
Proof. by destruct x. Qed.

Lemma xor_128_short a b : (length a < 16)%nat -> xor_128 a b = Ub.
Proof.
  intros Hl. unfold xor_128. apply (mapM_ub _ _ (length a)).
  - intros i. destruct (a !! i), (b !! i); done.
  - apply elem_of_seq. lia.
  - rewrite (lookup_ge_None_2 a) by lia. reflexivity.
Qed.

Lemma padding_short a n : (length a < n)%nat -> (n <= 16)%nat -> padding a (Z.of_nat n) = Ub.
Proof.
  intros Hl Hn. unfold padding. apply (mapM_ub _ _ (length a)).
  - intros i. case_match; [apply deref_no_abort|]. by case_match.
  - apply elem_of_seq. lia.
  - rewrite (proj2 (Z.ltb_lt _ _)) by lia. by rewrite lookup_ge_None_2.
Qed.

Lemma AES_CMAC_short key input (n : nat) :
  is_block key -> (length input < n)%nat -> Z.of_nat n <= 2 ^ 31 - 16 -> AES_CMAC key input (Z.of_nat n) = Ub.
Proof.
  intros Hk Hs Hn. unfold AES_CMAC.
  destruct (generate_subkey_ok key (Cipher key (replicate 16 0))) as (-> & _ & _);
    [apply AES_128_ENC_block; auto with kvsev|auto with kvsev|].
  cbn [mbind outcome_bind]. unfold LAST_INDEX, BLOCK_SIZE. change (16 - 1) with 15.
  rewrite c_int_ok by lia. cbn [mbind outcome_bind]. rewrite quot_blocks, rem_blocks, cmac_flag.
  destruct (last_length n) as ([Hn1 Hn2] & Hn3 & Hn4). set (N := cmac_blocks n) in *.
  assert (1 <= N)%nat as HN by (unfold N, cmac_blocks; lia).
  replace (16 * (Z.of_nat N - 1)) with (Z.of_nat (16 * (N - 1))) by lia.
  destruct (decide (16 * (N - 1) <= length input)%nat) as [Hle|Hgt].
  - rewrite advance_ok by done. cbn [mbind outcome_bind]. assert (length (drop (16 * (N - 1)) input) < n - 16 * (N - 1))%nat as Hl by (rewrite length_drop; lia).
    case_bool_decide as Ef.
    + rewrite xor_128_short by lia. done.
    + rewrite <- (Hn4 Ef), padding_short by lia. done.
  - unfold advance. rewrite (proj2 (Z.leb_gt (Z.of_nat _) (Z.of_nat (length input)))) by lia. by rewrite andb_false_r.
Qed.

(** ** CBC *)

Lemma cbc_blocks key X bs :
  is_block key -> is_block X -> Forall is_block bs -> Forall is_block (cbc (Cipher key) X bs).
Proof.
  intros Hk HX Hbs. revert X HX. induction Hbs as [|b bs Hb Hbs IH]; intros X HX; cbn [cbc];
    [constructor|]. apply Forall_cons_2; [|apply IH]; auto with kvsev.
Qed.

(** The text of block [i] as the encryption loop finds it. *)
Definition enc_text (input M_last : list Z) (n i : Z) : outcome (list Z) :=
  if i =? n - 1 then Ret M_last else advance input (BLOCK_SIZE * i).

Lemma cbc_enc_loop_ok key input M_last bs k n i X out pos ol :
  is_block key -> is_block X -> Forall is_block bs -> length bs = k ->
  (forall j b, bs !! j = Some b ->
     exists t, enc_text input M_last n (Z.of_nat (i + j)) = Ret t /\ take 16 t = b) ->
  (pos + ol <= length out)%nat ->
  cbc_enc_loop key input M_last k n (Z.of_nat i) X out pos (Z.of_nat ol) =
  Ret (splice out pos (take ol (concat (cbc (Cipher key) X bs)))).
Proof.
  intros Hk HX Hbs. revert k i X HX out pos ol.
  induction Hbs as [|b bs Hb Hbs IH]; intros k i X HX out pos ol Hlen Htext Hout;
    subst k; cbn [length cbc_enc_loop].
  { cbn [cbc concat]. by rewrite take_nil, splice_nil. }
  destruct (Z.ltb_spec 0 (Z.of_nat ol)) as [Hol|Hol];
    [|replace ol with 0%nat by lia; cbn [take]; by rewrite splice_nil].
  destruct (Htext 0%nat b eq_refl) as (t & Et & Htb). rewrite Nat.add_0_r in Et.
  unfold enc_text in Et. rewrite Et. cbn [mbind outcome_bind].
  assert (16 <= length t)%nat as Ht16.
  { destruct Hb as [Hb _]. rewrite <- Htb, length_take in Hb. lia. }
  rewrite xor_128_ok, Htb, block_take by (try assumption; destruct HX; lia).
  cbn [mbind outcome_bind]. rewrite AES_128_ENC_block by auto with kvsev. cbn [mbind outcome_bind].
  cbn [cbc concat]. set (C := Cipher key (xor_blocks X b)).
  assert (is_block C) as HC by (unfold C; auto with kvsev). pose proof (proj1 HC) as HCl.
  set (m := Nat.min 16 ol).
  assert ((if BLOCK_SIZE <? Z.of_nat ol then BLOCK_SIZE else Z.of_nat ol) = Z.of_nat m) as ->.
  { unfold BLOCK_SIZE, m. destruct (Z.ltb_spec 16 (Z.of_nat ol)); lia. }
  rewrite Nat2Z.id. assert (length (take m C) = m) as HmC by (rewrite length_take; lia).
  rewrite write_bytes_ok by lia. cbn [mbind outcome_bind].
  replace (Z.of_nat i + 1) with (Z.of_nat (S i)) by lia.
  replace (Z.of_nat ol - Z.of_nat m) with (Z.of_nat (ol - m)) by lia.
  rewrite IH; [|assumption|done| |rewrite length_splice; lia].
  - rewrite <- HmC at 2. rewrite splice_app by lia. do 2 f_equal. rewrite take_app, HCl.
    unfold m. destruct (decide (ol <= 16)%nat).
    + replace (ol - Nat.min 16 ol)%nat with 0%nat by lia. replace (ol - 16)%nat with 0%nat by lia.
      by rewrite Nat.min_r by lia.
    + rewrite Nat.min_l by lia. by rewrite !(take_ge C) by lia.
  - intros j b' Hj. destruct (Htext (S j) b' Hj) as (t' & Et' & Ht').
    exists t'. by replace (S i + j)%nat with (i + S j)%nat by lia.
Qed.

Lemma cbc_count_last len :
  (0 < len)%nat ->
  (0 < cbc_count len /\ 16 * (cbc_count len - 1) < len <= 16 * cbc_count len)%nat.
Proof.
  intros Hl. unfold cbc_count. pose proof (Nat.div_mod_eq (len + 15) 16).
  pose proof (Nat.mod_upper_bound (len + 15) 16). lia.
Qed.

Lemma length_pad0 msg : length (pad0 msg) = (16 * cbc_count (length msg))%nat.
Proof.
  unfold pad0. rewrite length_app, length_replicate.
  destruct (decide (length msg = 0)%nat) as [->|]; [done|].
  destruct (cbc_count_last (length msg)); lia.
Qed.

Lemma pad0_ok msg : bytes_ok msg -> bytes_ok (pad0 msg).
Proof. intros. apply bytes_ok_app. auto using bytes_ok_zeros. Qed.

(** The last block of the padded message. *)
Lemma padding_AES_ok msg rest :
  (0 < length msg)%nat ->
  let n := cbc_count (length msg) in
  padding_AES (drop (16 * (n - 1)) (msg ++ rest)) (Z.of_nat (length msg)) =
  Ret (drop (16 * (n - 1)) (pad0 msg)).
Proof.
  intros Hl n. destruct (cbc_count_last (length msg) Hl) as [Hn Hb]. fold n in Hn, Hb.
  unfold pad0. fold n. rewrite !drop_app_le by lia. set (Mn := drop (16 * (n - 1)) msg).
  assert (length Mn = length msg - 16 * (n - 1))%nat as HMn by apply length_drop.
  unfold padding_AES, BLOCK_SIZE. rewrite rem_blocks.
  pose proof (Nat.div_mod_eq (length msg) 16). pose proof (Nat.mod_upper_bound (length msg) 16).
  destruct (Z.eqb_spec (Z.of_nat (length msg mod 16)) 0) as [E|E].
  - replace (16 * n - length msg)%nat with 0%nat by lia. rewrite read_bytes_ok by (rewrite length_app; lia).
    rewrite app_nil_r, take_app_le, take_ge by lia. done.
  - assert (length Mn = length msg mod 16)%nat as HMm by lia. rewrite <- HMm.
    replace (16 * n - length msg)%nat with (16 - length Mn)%nat by lia.
    rewrite (mapM_ret _ (fun j => (Mn ++ replicate (16 - length Mn) 0).[j])).
    + rewrite map_lookup_total; [done|]. rewrite length_app, length_replicate. lia.
    + intros j Hj%elem_of_seq. destruct (Z.ltb_spec (Z.of_nat j) (Z.of_nat (length Mn))).
      * rewrite lookup_app_l, lookup_total_app_l, deref_at by lia. done.
      * rewrite lookup_total_app_r, lookup_total_replicate_2 by lia. done.
Qed.

Lemma chunks_blocks n l :
  (16 * n <= length l)%nat -> bytes_ok l -> Forall is_block (chunks 16 n l).
Proof.
  revert l. induction n as [|n IH]; intros l Hl Hb; cbn [chunks]; [constructor|].
  apply Forall_cons_2.
  - split; [rewrite length_take; lia|by apply bytes_ok_take].
  - apply IH; [rewrite length_drop; lia|by apply bytes_ok_drop].
Qed.

Lemma enc_text_ok msg rest j b :
  (0 < length msg)%nat ->
  let n := cbc_count (length msg) in
  chunks 16 n (pad0 msg) !! j = Some b ->
  exists t, enc_text (msg ++ rest) (drop (16 * (n - 1)) (pad0 msg)) (Z.of_nat n) (Z.of_nat j) = Ret t /\
            take 16 t = b.
Proof.
  intros Hl n Hj. destruct (cbc_count_last (length msg) Hl) as [Hn Hb]. fold n in Hn, Hb.
  pose proof (lookup_lt_Some _ _ _ Hj) as Hjn. rewrite length_chunks in Hjn.
  rewrite chunks_lookup in Hj by done. injection Hj as <-. unfold enc_text.
  destruct (Z.eqb_spec (Z.of_nat j) (Z.of_nat n - 1)) as [E|E].
  - exists (drop (16 * (n - 1)) (pad0 msg)). split; [done|]. unfold slice. do 2 f_equal. lia.
  - unfold BLOCK_SIZE. replace (16 * Z.of_nat j) with (Z.of_nat (j * 16)) by lia.
    rewrite advance_ok by (rewrite length_app; lia). exists (drop (j * 16) (msg ++ rest)).
    split; [done|]. unfold slice, pad0. rewrite !drop_app_le, !take_app_le by (rewrite ?length_drop; lia).
    done.
Qed.

Definition cbc_encrypt (key IV msg : list Z) : list Z :=
  concat (cbc (Cipher key) IV (chunks 16 (cbc_count (length msg)) (pad0 msg))).

Lemma AES_CBC_ENC_ok IV key msg rest out ol :
  is_block IV -> is_block key -> bytes_ok msg -> (0 < length msg)%nat ->
  Z.of_nat (length msg) <= 2 ^ 31 - 16 -> (ol <= length out)%nat ->
  AES_CBC_ENC IV key (msg ++ rest) (Z.of_nat (length msg)) out (Z.of_nat ol) =
  Ret (16 * Z.of_nat (cbc_count (length msg)), splice out 0 (take ol (cbc_encrypt key IV msg))).
Proof.
  intros HIV Hk Hm Hl Hlen Hol. unfold AES_CBC_ENC. rewrite (proj2 (Z.leb_gt _ _)) by lia.
  unfold LAST_INDEX, BLOCK_SIZE. change (16 - 1) with 15. rewrite c_int_ok by lia.
  cbn [mbind outcome_bind]. rewrite quot_blocks. fold (cbc_count (length msg)).
  destruct (cbc_count_last (length msg) Hl) as [Hn Hb]. set (n := cbc_count (length msg)) in *.
  rewrite read_bytes_ok, block_take by (try assumption; destruct HIV; lia). cbn [mbind outcome_bind].
  replace (16 * (Z.of_nat n - 1)) with (Z.of_nat (16 * (n - 1))) by lia.
  rewrite advance_ok by (rewrite length_app; lia). cbn [mbind outcome_bind].
  pose proof (padding_AES_ok msg rest Hl) as Ep. cbv zeta in Ep. fold n in Ep. rewrite Ep.
  cbn [mbind outcome_bind].
  change 0 with (Z.of_nat 0) at 1. rewrite Nat2Z.id.
  rewrite (cbc_enc_loop_ok key _ _ (chunks 16 n (pad0 msg))); try assumption.
  - cbn [mbind outcome_bind]. unfold cbc_encrypt. fold n. do 2 f_equal. lia.
  - apply chunks_blocks; [rewrite length_pad0; done|by apply pad0_ok].
  - apply length_chunks.
  - intros j b Hj. rewrite Nat.add_0_l. by apply enc_text_ok.
Qed.

(** ** Decryption *)

Lemma xor_blocks_cancel a b : length a = length b -> xor_blocks a (xor_blocks a b) = b.
Proof.
  revert b. induction a as [|x a IH]; intros [|y b] Hl; try done.
  unfold xor_blocks in *. cbn [zip_with]. rewrite IH by (injection Hl; done). f_equal.
  by rewrite <- Z.lxor_assoc, Z.lxor_nilpotent, Z.lxor_0_l.
Qed.

Lemma decipher_cipher key b : is_block key -> is_block b -> decipher key (Cipher key b) = b.
Proof. intros Hk Hb. unfold decipher. by rewrite aes_decrypt. Qed.

Lemma decipher_block key c : is_block key -> is_block c -> is_block (decipher key c).
Proof. apply aes_dec_block. Qed.

Lemma uncbc_cbc key X bs :
  is_block key -> is_block X -> Forall is_block bs ->
  uncbc (decipher key) X (cbc (Cipher key) X bs) = bs.
Proof.
  intros Hk HX Hbs. revert X HX. induction Hbs as [|b bs Hb Hbs IH]; intros X HX; [reflexivity|].
  cbn [cbc uncbc]. rewrite decipher_cipher, xor_blocks_cancel, IH by
    (auto with kvsev; destruct HX, Hb; congruence). reflexivity.
Qed.

Lemma AES_128_DEC_ok key c :
  is_block key -> (16 <= length c)%nat -> AES_128_DEC key c = Ret (decipher key (take 16 c)).
Proof.
  intros Hk Hl. unfold AES_128_DEC, decipher. rewrite !read_bytes_ok by (try (destruct Hk; lia); lia).
  cbn [mbind outcome_bind]. by rewrite (block_take key).
Qed.

(** How many blocks the decryption loop writes. *)
Definition dec_blocks (k : nat) (ol : Z) : nat := Nat.min k (Z.to_nat ((ol + 15) / 16)).


Lemma cbc_dec_loop_ok key input cs k i Zb out pos ol :
  is_block key -> is_block Zb -> Forall is_block cs -> length cs = k ->
  (forall j c, cs !! j = Some c ->
     exists t, advance input (BLOCK_SIZE * Z.of_nat (i + j)) = Ret t /\ take 16 t = c) ->
  cbc_dec_loop key input k (Z.of_nat i) Zb out pos ol =
  if (pos + 16 * dec_blocks k ol <=? length out)%nat || (dec_blocks k ol =? 0)%nat
  then Ret (splice out pos (concat (take (dec_blocks k ol) (uncbc (decipher key) Zb cs))))
  else Ub.
Proof.
  intros Hk HZ Hcs. revert k i Zb HZ out pos ol.
  induction Hcs as [|c cs Hc Hcs IH]; intros k i Zb HZ out pos ol Hlen Htext;
    subst k; cbn [length cbc_dec_loop].
  { unfold dec_blocks. rewrite Nat.min_0_l. cbn [take concat]. by rewrite splice_nil, orb_true_r. }
  destruct (Z.ltb_spec 0 ol) as [Hol|Hol].
  2: { assert (dec_blocks (S (length cs)) ol = 0%nat) as ->.
       { unfold dec_blocks. assert ((ol + 15) / 16 <= 0) by zdm. lia. }
       cbn [take concat]. by rewrite splice_nil, orb_true_r. }
  assert (dec_blocks (S (length cs)) ol = S (dec_blocks (length cs) (ol - 16))) as ->.
  { unfold dec_blocks. assert ((ol - 16 + 15) / 16 = (ol + 15) / 16 - 1) by zdm.
    assert (1 <= (ol + 15) / 16) by zdm. lia. }
  rewrite orb_false_r.
  destruct (Htext 0%nat c eq_refl) as (t & Et & Htc). rewrite Nat.add_0_r in Et. rewrite Et.
  cbn [mbind outcome_bind]. assert (16 <= length t)%nat as Ht16.
  { destruct Hc as [Hc _]. rewrite <- Htc, length_take in Hc. lia. }
  pose proof (decipher_block key c Hk Hc) as Hd.
  rewrite AES_128_DEC_ok, Htc by assumption. cbn [mbind outcome_bind].
  rewrite xor_128_block, read_bytes_ok, Htc by assumption. cbn [mbind outcome_bind].
  set (p := xor_blocks Zb (decipher key c)).
  assert (length p = 16%nat) as Hp by (by apply xor_blocks_block).
  unfold write_bytes. rewrite Hp. set (m := dec_blocks (length cs) (ol - 16)) in *.
  destruct (Nat.leb_spec (pos + 16) (length out)) as [Hw|Hw]; cbn [mbind outcome_bind].
  2: { rewrite (proj2 (Nat.leb_gt _ _)) by lia. reflexivity. }
  replace (Z.of_nat i + 1) with (Z.of_nat (S i)) by lia. unfold BLOCK_SIZE.
  rewrite (IH (length cs)); [|assumption|done|].
  2: { intros j c' Hj. destruct (Htext (S j) c' Hj) as (t' & Et' & Ht').
       exists t'. by replace (S i + j)%nat with (i + S j)%nat by lia. }
  fold m. rewrite length_splice by lia.
  replace (pos + 16 + 16 * m)%nat with (pos + 16 * S m)%nat by lia.
  cbn [uncbc take concat]. fold p.
  destruct (Nat.leb_spec (pos + 16 * S m) (length out)); cbn [orb].
  - rewrite <- Hp, splice_app by lia. reflexivity.
  - rewrite (proj2 (Nat.eqb_neq _ _)) by lia. reflexivity.
Qed.

Lemma dec_count il : Z.quot (Z.quot (Z.of_nat il) 16 * 16 + 15) 16 = Z.of_nat (il / 16).
Proof.
  rewrite (Z.quot_div_nonneg (Z.of_nat il)) by lia. rewrite Z.quot_div_nonneg by zdm.
  rewrite Nat2Z.inj_div. change (Z.of_nat 16) with 16. zdm.
Qed.

Lemma AES_CBC_DEC_ok IV key input il out ol :
  is_block IV -> is_block key -> bytes_ok input -> (0 < il <= length input)%nat ->
  Z.of_nat il <= 2 ^ 31 - 16 ->
  let m := dec_blocks (il / 16) ol in
  AES_CBC_DEC IV key input (Z.of_nat il) out ol =
  if (16 * m <=? length out)%nat
  then Ret (16 * Z.of_nat (il / 16),
            splice out 0 (concat (take m (uncbc (decipher key) IV (chunks 16 (il / 16) input)))))
  else Ub.
Proof.
  intros HIV Hk Hin Hil Hlen m. unfold AES_CBC_DEC. rewrite (proj2 (Z.leb_gt _ _)) by lia.
  unfold LAST_INDEX, BLOCK_SIZE. change (16 - 1) with 15.
  rewrite c_int_ok by (rewrite Z.quot_div_nonneg by lia; zdm).
  cbn [mbind outcome_bind]. rewrite dec_count.
  rewrite read_bytes_ok, block_take by (try assumption; destruct HIV; lia). cbn [mbind outcome_bind].
  pose proof (Nat.Div0.mul_div_le il 16) as Hn.
  change 0 with (Z.of_nat 0) at 1. rewrite Nat2Z.id.
  rewrite (cbc_dec_loop_ok key input (chunks 16 (il / 16) input)); try assumption.
  - fold m. rewrite Nat.add_0_l. destruct (Nat.leb_spec (16 * m) (length out)); cbn [orb].
    + cbn [mbind outcome_bind]. do 2 f_equal. lia.
    + by rewrite (proj2 (Nat.eqb_neq _ _)) by lia.
  - apply chunks_blocks; [lia|assumption].
  - apply length_chunks.
  - intros j c Hj. pose proof (lookup_lt_Some _ _ _ Hj) as Hlt. rewrite length_chunks in Hlt.
    rewrite chunks_lookup in Hj by done. injection Hj as <-. rewrite Nat.add_0_l.
    exists (drop (j * 16) input). split; [|done]. unfold BLOCK_SIZE.
    replace (16 * Z.of_nat j) with (Z.of_nat (j * 16)) by lia. apply advance_ok. lia.
Qed.

Lemma length_cbc E X bs : length (cbc E X bs) = length bs.
Proof. revert X. induction bs as [|b bs IH]; intros X; [done|]. cbn [cbc length]. by rewrite IH. Qed.

Lemma blocks_length bs : Forall is_block bs -> Forall (fun b => length b = 16%nat) bs.
Proof. apply Forall_impl. intros b [? _]. done. Qed.

Lemma blocks_bytes bs : Forall is_block bs -> bytes_ok (concat bs).
Proof. induction 1 as [|b bs [_ Hb] _ IH]; [constructor|]. apply bytes_ok_app. done. Qed.

(** The ciphertext of a message: its length, its bytes, its blocks. *)
Lemma cbc_encrypt_shape key IV msg :
  is_block key -> is_block IV -> bytes_ok msg ->
  let bs := chunks 16 (cbc_count (length msg)) (pad0 msg) in
  length (cbc_encrypt key IV msg) = (16 * cbc_count (length msg))%nat /\
  bytes_ok (cbc_encrypt key IV msg) /\ Forall is_block bs /\
  forall rest, chunks 16 (cbc_count (length msg)) (cbc_encrypt key IV msg ++ rest) =
               cbc (Cipher key) IV bs.
Proof.
  intros Hk HIV Hm bs. assert (Forall is_block bs) as Hbs
    by (apply chunks_blocks; [rewrite length_pad0; done|by apply pad0_ok]).
  pose proof (cbc_blocks key IV bs Hk HIV Hbs) as Hcs.
  unfold cbc_encrypt. fold bs. split_and!; [|by apply blocks_bytes|assumption|].
  - rewrite (length_concat_const 16) by by apply blocks_length.
    rewrite length_cbc. unfold bs. rewrite length_chunks. lia.
  - intros rest. pose proof (chunks_concat 16 (cbc (Cipher key) IV bs) 0 rest) as Ec.
    assert (length bs = cbc_count (length msg)) as Hlb by apply length_chunks.
    rewrite length_cbc, Hlb, Nat.add_0_r in Ec.
    cbn [chunks] in Ec. rewrite app_nil_r in Ec. apply Ec. by apply blocks_length.
Qed.

Lemma chunks_all n (l : list Z) : length l = (16 * n)%nat -> concat (chunks 16 n l) = l.
Proof.
  revert l. induction n as [|n IH]; intros l Hl; cbn [chunks concat].
  - by destruct l.
  - rewrite IH by (rewrite length_drop; lia). apply take_drop.
Qed.

Lemma memcmp_zero a b n : length a = n -> length b = n -> memcmp a b n = Ret 0 <-> a = b.
Proof.
  revert a b. induction n as [|n IH]; intros [|x a] [|y b] Ha Hb; try done.
  cbn [memcmp]. injection Ha as Ha. injection Hb as Hb. destruct (Z.eqb_spec x y) as [->|Hne].
  - rewrite IH by done. split; [by intros ->|by intros [= ->]].
  - split; [|by intros [= -> _]]. intros [= E]. lia.
Qed.

(** ** The properties *)

(** C8: [AES_CMAC] is the CMAC of RFC 4493 with AES-128 of the first [length] bytes of the
    input (subkeys by doubling in GF(2^128), last block completed with 10..0 when it is
    short or the message empty), for every length up to [INT_MAX - 15]; it reads no byte
    past the message, and [AES_CMAC_CHECK] answers 0 exactly for that tag. *)
Theorem AES_CMAC_correct (key msg rest : list Z) (Hk : is_block key) (Hb : bytes_ok (msg ++ rest))
    (Hlen : Z.of_nat (length msg) <= 2 ^ 31 - 16) :
  AES_CMAC key (msg ++ rest) (Z.of_nat (length msg)) = Ret (cmac key msg) /\
  is_block (cmac key msg) /\
  forall mac, length mac = 16%nat ->
    AES_CMAC_CHECK key (msg ++ rest) (Z.of_nat (length msg)) mac = Ret 0 <-> mac = cmac key msg.
Proof.
  destruct (AES_CMAC_ok key msg rest Hk Hb Hlen) as [E Hc]. split; [exact E|]. split; [exact Hc|].
  intros mac Hmac. unfold AES_CMAC_CHECK. rewrite E. cbn [mbind outcome_bind].
  apply memcmp_zero; [assumption|apply Hc].
Qed.

(** CBC round trip.  Encrypting a message into a buffer that holds the whole blocks and
    decrypting the result with the same key and initialisation vector gives back the message
    padded with zeros to whole blocks; both calls return its length and leave the rest of
    their buffers alone. *)
Theorem AES_CBC_round_trip (IV key msg out out' : list Z) (HIV : is_block IV) (Hk : is_block key)
    (Hm : bytes_ok msg) (Hne : (0 < length msg)%nat) (Hlen : Z.of_nat (length msg) <= 2 ^ 31 - 16)
    (Ho : bytes_ok out) :
  let n := (16 * cbc_count (length msg))%nat in
  (n <= length out)%nat -> (n <= length out')%nat ->
  exists c, AES_CBC_ENC IV key msg (Z.of_nat (length msg)) out (Z.of_nat n) = Ret (Z.of_nat n, c) /\
    drop n c = drop n out /\
    AES_CBC_DEC IV key c (Z.of_nat n) out' (Z.of_nat n) = Ret (Z.of_nat n, pad0 msg ++ drop n out').
Proof.
  intros n Ho1 Ho2. destruct (cbc_encrypt_shape key IV msg Hk HIV Hm) as (Hl & Hcb & Hbs & Hch).
  destruct (cbc_count_last (length msg) Hne) as [Hn Hnb].
  set (k := cbc_count (length msg)) in *. set (bs := chunks 16 k (pad0 msg)) in *.
  exists (cbc_encrypt key IV msg ++ drop n out).
  pose proof (AES_CBC_ENC_ok IV key msg [] out n HIV Hk Hm Hne Hlen Ho1) as E.
  rewrite app_nil_r, take_ge, splice_all, Hl in E by lia. fold k n in E.
  split; [rewrite E; do 2 f_equal; lia|]. split; [by rewrite drop_app_length' by lia|].
  rewrite AES_CBC_DEC_ok; try assumption;
    [|apply bytes_ok_app; auto using bytes_ok_drop|rewrite length_app; lia|lia].
  replace (n / 16)%nat with k by (unfold n; rewrite Nat.mul_comm, Nat.div_mul; lia).
  assert (dec_blocks k (Z.of_nat n) = k) as Hd
    by (unfold dec_blocks; assert ((Z.of_nat n + 15) / 16 = Z.of_nat k) by zdm; lia).
  rewrite Hd, (proj2 (Nat.leb_le _ _)), Hch, uncbc_cbc by assumption.
  rewrite take_ge by (unfold bs; rewrite length_chunks; lia).
  assert (concat bs = pad0 msg) as -> by (apply chunks_all, length_pad0).
  rewrite splice_all by (rewrite length_pad0; assumption). rewrite length_pad0. fold k n.
  do 2 f_equal. lia.
Qed.

(** The output limits of the two CBC calls.  Encryption writes at most [outputLength]
    bytes, truncating the ciphertext.  Decryption writes whole blocks: with an output buffer
    of exactly [outputLength] bytes that is smaller than the message and not a multiple of
    16, it writes past the end of the buffer. *)
Theorem AES_CBC_output_bounds (IV key msg out : list Z) (HIV : is_block IV) (Hk : is_block key)
    (Hm : bytes_ok msg) (Hne : (0 < length msg)%nat) (Hlen : Z.of_nat (length msg) <= 2 ^ 31 - 16)
    (Hout : (0 < length out)%nat) :
  AES_CBC_ENC IV key msg (Z.of_nat (length msg)) out (Z.of_nat (length out)) =
    Ret (16 * Z.of_nat (cbc_count (length msg)),
         splice out 0 (take (length out) (cbc_encrypt key IV msg))) /\
  ((length out mod 16 <> 0)%nat -> (length out < 16 * (length msg / 16))%nat ->
   AES_CBC_DEC IV key msg (Z.of_nat (length msg)) out (Z.of_nat (length out)) = Ub).
Proof.
  split.
  - pose proof (AES_CBC_ENC_ok IV key msg [] out (length out) HIV Hk Hm Hne Hlen) as E.
    rewrite app_nil_r in E. apply E. lia.
  - intros Hmod Hsmall. rewrite AES_CBC_DEC_ok by (try assumption; lia).
    pose proof (Nat.div_mod_eq (length out) 16). pose proof (Nat.mod_upper_bound (length out) 16).
    assert ((Z.of_nat (length out) + 15) / 16 = Z.of_nat (length out / 16) + 1) as E by zdm.
    rewrite (proj2 (Nat.leb_gt _ _)); [reflexivity|]. unfold dec_blocks. rewrite E. lia.
Qed.

(** ** Witnesses *)

(** The key and the first message block of RFC 4493, section 4. *)
Definition rfc_key : list Z :=
  [0x2b; 0x7e; 0x15; 0x16; 0x28; 0xae; 0xd2; 0xa6; 0xab; 0xf7; 0x15; 0x88; 0x09; 0xcf; 0x4f; 0x3c].
Definition rfc_block : list Z :=
  [0x6b; 0xc1; 0xbe; 0xe2; 0x2e; 0x40; 0x9f; 0x96; 0xe9; 0x3d; 0x7e; 0x11; 0x73; 0x93; 0x17; 0x2a].

Lemma rfc_key_block : is_block rfc_key.
Proof. split; [reflexivity|]. repeat constructor; done. Qed.

Lemma rfc_block_ok : bytes_ok rfc_block.
Proof. repeat constructor; done. Qed.

Lemma rfc_message_ok : bytes_ok (rfc_block ++ [1; 2; 3; 4]).
Proof. apply bytes_ok_app. split; [apply rfc_block_ok|]. repeat constructor; done. Qed.

(** Examples 1 and 2 of the RFC. *)
Example rfc_vectors :
  cmac rfc_key [] =
    [0xbb; 0x1d; 0x69; 0x29; 0xe9; 0x59; 0x37; 0x28; 0x7f; 0xa3; 0x7d; 0x12; 0x9b; 0x75; 0x67; 0x46] /\
  cmac rfc_key rfc_block =
    [0x07; 0x0a; 0x16; 0xb4; 0x6b; 0x4d; 0x41; 0x44; 0xf7; 0x9b; 0xdd; 0x9d; 0xd0; 0x4a; 0x28; 0x7c].
Proof. split; vm_compute; reflexivity. Qed.

Lemma AES_CMAC_correct_witness :
  AES_CMAC rfc_key (rfc_block ++ [1; 2; 3; 4]) 16 = Ret (cmac rfc_key rfc_block).
Proof.
  refine (proj1 (AES_CMAC_correct rfc_key rfc_block [1; 2; 3; 4] rfc_key_block rfc_message_ok _)).
  vm_compute. discriminate.
Defined.

Lemma AES_CBC_round_trip_witness :
  exists c, AES_CBC_ENC rfc_key rfc_key (rfc_block ++ [1; 2; 3; 4]) 20 (replicate 40 0) 32 = Ret (32, c) /\
    drop 32 c = drop 32 (replicate 40 0) /\
    AES_CBC_DEC rfc_key rfc_key c 32 (replicate 32 9) 32 =
      Ret (32, pad0 (rfc_block ++ [1; 2; 3; 4]) ++ drop 32 (replicate 32 9)).
Proof.
  refine (AES_CBC_round_trip rfc_key rfc_key (rfc_block ++ [1; 2; 3; 4]) (replicate 40 0)
            (replicate 32 9) rfc_key_block rfc_key_block rfc_message_ok _ _ _ _ _).
  - simpl. lia.
  - vm_compute. discriminate.
  - apply bytes_ok_zeros.
  - vm_compute. lia.
  - vm_compute. lia.
Defined.

Lemma AES_CBC_output_bounds_witness :
  AES_CBC_DEC rfc_key rfc_key (rfc_block ++ rfc_block) 32 (replicate 20 0) 20 = Ub.
Proof.
  refine (proj2 (AES_CBC_output_bounds rfc_key rfc_key (rfc_block ++ rfc_block) (replicate 20 0)
            rfc_key_block rfc_key_block _ _ _ _) _ _).
  - apply bytes_ok_app. split; apply rfc_block_ok.
  - simpl. lia.
  - vm_compute. discriminate.
  - simpl. lia.
  - vm_compute. discriminate.
  - vm_compute. lia.
Defined.
