(* ===== verification/Assoc.v ===== *)
(** * The item hash table (src/memcached/assoc.c)

    Buckets are chains of items linked through the items' own [h_next] fields, so the model
    keeps a heap of items addressed by pointers and two arrays of bucket pointers.  While the
    table is being expanded, keys whose old bucket has not been migrated are still looked up
    in the old array.  The hash function is a parameter: the server chooses one at start-up. *)

From S2P Require Import Prelude.
From stdpp Require Export list gmap.

Local Open Scope Z_scope.

(** The address of an item; the null pointer is [None]. *)
Abbreviation ptr := positive (only parsing).

(** The part of an item the hash table uses. *)
Record hnode := mkHnode { it_key : list Z; h_next : option ptr }.

Definition set_h_next (v : option ptr) (n : hnode) : hnode := mkHnode (it_key n) v.

(** The counters of [stats_state] that assoc.c maintains. *)
Record hash_stats := mkHashStats {
  hash_power_level : Z; hash_bytes : Z; hash_is_expanding : bool
}.

Record assoc := mkAssoc {
  hashpower : Z;
  primary_hashtable : list (option ptr);
  old_hashtable : list (option ptr);
  expanding : bool;
  expand_bucket : Z;
  items : gmap ptr hnode;
  stats : hash_stats
}.

(** [hashpower] stays below 32 wherever these are used; the shift is undefined from 32 on,
    which [assoc_init] and [assoc_expand] check. *)
Definition hashsize (n : Z) : Z := u32 (Z.shiftl 1 n).
Definition hashmask (n : Z) : Z := u32 (hashsize n - 1).

Definition HASHPOWER_DEFAULT : Z := 16.
Definition HASHPOWER_MAX : Z := 32.
Definition POINTER_SIZE : Z := 8.

Definition with_tables (p o : list (option ptr)) (a : assoc) : assoc :=
  mkAssoc (hashpower a) p o (expanding a) (expand_bucket a) (items a) (stats a).
Definition with_items (h : gmap ptr hnode) (a : assoc) : assoc :=
  mkAssoc (hashpower a) (primary_hashtable a) (old_hashtable a) (expanding a) (expand_bucket a) h (stats a).

(** [granted]: whether [calloc] succeeds; a refusal ends the process. *)
Definition assoc_init (hashtable_init : Z) (granted : bool) (heap : gmap ptr hnode) : outcome assoc :=
  let hp := if hashtable_init =? 0 then HASHPOWER_DEFAULT else hashtable_init in
  if (32 <=? hp) || (hp <? 0) then Ub else
  if granted then
    Ret (mkAssoc hp (replicate (Z.to_nat (hashsize hp)) None) [] false 0 heap
           (mkHashStats hp (hashsize hp * POINTER_SIZE) false))
  else Abort.

(** ** Buckets *)

(** A bucket of one of the two arrays. *)
Inductive slot := InOld (i : nat) | InPrimary (i : nat).

#[export] Instance slot_eq_dec : EqDecision slot.
Proof. solve_decision. Defined.

(** The bucket of a hash value, the test every operation starts with. *)
Definition slot_of (a : assoc) (hv : Z) : slot :=
  let oldbucket := Z.land hv (hashmask (hashpower a - 1)) in
  if expanding a && (expand_bucket a <=? oldbucket)
  then InOld (Z.to_nat oldbucket)
  else InPrimary (Z.to_nat (Z.land hv (hashmask (hashpower a)))).

Definition table_at (a : assoc) (s : slot) : option (option ptr) :=
  match s with
  | InOld i => old_hashtable a !! i
  | InPrimary i => primary_hashtable a !! i
  end.

Definition read_slot (a : assoc) (s : slot) : outcome (option ptr) := deref (table_at a s).

Definition set_slot (a : assoc) (s : slot) (v : option ptr) : assoc :=
  match s with
  | InOld i => with_tables (primary_hashtable a) (<[i := v]> (old_hashtable a)) a
  | InPrimary i => with_tables (<[i := v]> (primary_hashtable a)) (old_hashtable a) a
  end.

Definition write_slot (a : assoc) (s : slot) (v : option ptr) : outcome assoc :=
  _ ← read_slot a s; Ret (set_slot a s v).

Definition node_at (a : assoc) (p : ptr) : outcome hnode := deref (items a !! p).

Definition write_next (a : assoc) (p : ptr) (v : option ptr) : outcome assoc :=
  n ← node_at a p; Ret (with_items (<[p := set_h_next v n]> (items a)) a).

(** ** Lookup *)

(** Walking a chain: [fuel] bounds the steps by the number of items in the heap. *)
Fixpoint find_loop (fuel : nat) (heap : gmap ptr hnode) (key : list Z) (it : option ptr)
  : outcome (option ptr) :=
  match it with
  | None => Ret None
  | Some p =>
    match fuel with
    | O => Ub
    | S fuel =>
      n ← deref (heap !! p);
      if decide (it_key n = key) then Ret (Some p) else find_loop fuel heap key (h_next n)
    end
  end.

Definition chain_fuel (a : assoc) : nat := S (size (items a)).

Definition assoc_find (key : list Z) (hv : Z) (a : assoc) : outcome (option ptr) :=
  it ← read_slot a (slot_of a hv);
  find_loop (chain_fuel a) (items a) key it.

(** The address of a pointer to an item: a bucket or an [h_next] field. *)
Inductive position := AtSlot (s : slot) | AtNext (p : ptr).

Definition read_pos (a : assoc) (pos : position) : outcome (option ptr) :=
  match pos with
  | AtSlot s => read_slot a s
  | AtNext p => n ← node_at a p; Ret (h_next n)
  end.

Definition write_pos (a : assoc) (pos : position) (v : option ptr) : outcome assoc :=
  match pos with
  | AtSlot s => write_slot a s v
  | AtNext p => write_next a p v
  end.

Fixpoint before_loop (fuel : nat) (a : assoc) (key : list Z) (pos : position) : outcome position :=
  match fuel with
  | O => Ub
  | S fuel =>
    it ← read_pos a pos;
    match it with
    | None => Ret pos
    | Some p =>
      n ← node_at a p;
      if decide (it_key n = key) then Ret pos else before_loop fuel a key (AtNext p)
    end
  end.

Definition _hashitem_before (key : list Z) (hv : Z) (a : assoc) : outcome position :=
  before_loop (chain_fuel a) a key (AtSlot (slot_of a hv)).

(** ** Insertion and deletion *)

Definition assoc_insert (it : ptr) (hv : Z) (a : assoc) : outcome assoc :=
  let s := slot_of a hv in
  head ← read_slot a s;
  a ← write_next a it head;
  write_slot a s (Some it).

Definition assoc_delete (key : list Z) (hv : Z) (a : assoc) : outcome assoc :=
  before ← _hashitem_before key hv a;
  it ← read_pos a before;
  match it with
  | Some p =>
    n ← node_at a p;
    a ← write_next a p None;
    write_pos a before (h_next n)
  | None => Abort
  end.

(** ** Expansion *)

(** When [calloc] is refused the old pointer is kept as the table; the array it leaves in
    [old_hashtable] is not used until the next expansion. *)
Definition assoc_expand (granted : bool) (a : assoc) : outcome assoc :=
  if 32 <=? hashpower a + 1 then Ub else
  if granted then
    let hp := hashpower a + 1 in
    Ret (mkAssoc hp (replicate (Z.to_nat (hashsize hp)) None) (primary_hashtable a) true 0 (items a)
           (mkHashStats hp (u64 (hash_bytes (stats a) + hashsize hp * POINTER_SIZE)) true))
  else Ret (with_tables (primary_hashtable a) (primary_hashtable a) a).

(** Whether the maintenance thread is signalled; [free_lock]: the lock could be taken. *)
Definition assoc_start_expand (free_lock : bool) (curr_items : Z) (a : assoc) : bool :=
  free_lock && (u32 (hashsize (hashpower a) * 3) / 2 <? curr_items) && (hashpower a <? HASHPOWER_MAX).

Section Hashed.
Context (hash : list Z -> Z).

(** Moving one chain: the item [it] and all that follow it. *)
Fixpoint move_loop (fuel : nat) (a : assoc) (it : option ptr) : outcome assoc :=
  match it with
  | None => Ret a
  | Some p =>
    match fuel with
    | O => Ub
    | S fuel =>
      n ← node_at a p;
      let next := h_next n in
      let bucket := InPrimary (Z.to_nat (Z.land (hash (it_key n)) (hashmask (hashpower a)))) in
      head ← read_slot a bucket;
      a ← write_next a p head;
      a ← write_slot a bucket (Some p);
      move_loop fuel a next
    end
  end.

(** The bookkeeping after a bucket was moved. *)
Definition finish_bucket (a : assoc) : assoc :=
  let eb := u32 (expand_bucket a + 1) in
  if eb =? hashsize (hashpower a - 1) then
    mkAssoc (hashpower a) (primary_hashtable a) [] false eb (items a)
      (mkHashStats (hash_power_level (stats a))
         (u64 (hash_bytes (stats a) - hashsize (hashpower a - 1) * POINTER_SIZE)) false)
  else mkAssoc (hashpower a) (primary_hashtable a) (old_hashtable a) (expanding a) eb (items a) (stats a).

(** One pass of the inner loop of the maintenance thread; [locked]: the item lock of the
    bucket was free. *)
Definition move_bucket (locked : bool) (a : assoc) : outcome assoc :=
  if locked then
    let s := InOld (Z.to_nat (expand_bucket a)) in
    it ← read_slot a s;
    a ← move_loop (chain_fuel a) a it;
    a ← write_slot a s None;
    Ret (finish_bucket a)
  else Ret a.

(** [for (ii = 0; ii < hash_bulk_move && expanding; ++ii)]. *)
Fixpoint bulk_move (locks : list bool) (a : assoc) : outcome assoc :=
  match locks with
  | [] => Ret a
  | locked :: locks =>
    if expanding a then a ← move_bucket locked a; bulk_move locks a else Ret a
  end.

(** One pass of the thread's outer loop after which the thread was signalled: [granted]
    answers the allocation of the expansion. *)
Definition maintenance_pass (locks : list bool) (granted : bool) (a : assoc) : outcome assoc :=
  a ← bulk_move locks a;
  if expanding a then Ret a else assoc_expand granted a.
End Hashed.

(** ** Iteration *)

Record assoc_iterator := mkIter {
  iter_bucket : Z; bucket_locked : bool; iter_it : option ptr; iter_next : option ptr
}.

Definition assoc_get_iterator : assoc_iterator := mkIter 0 false None None.

(** The result is [false] at the end; the item of the step may be null. *)
Definition assoc_iterate (a : assoc) (iter : assoc_iterator)
  : outcome (bool * option ptr * assoc_iterator) :=
  if bucket_locked iter then
    match iter_next iter with
    | Some p =>
      n ← node_at a p;
      Ret (true, Some p, mkIter (iter_bucket iter) true (Some p) (h_next n))
    | None => Ret (true, None, mkIter (u32 (iter_bucket iter + 1)) false (iter_it iter) None)
    end
  else if negb (iter_bucket iter =? hashsize (hashpower a)) then
    it ← read_slot a (InPrimary (Z.to_nat (iter_bucket iter)));
    match it with
    | Some p =>
      n ← node_at a p;
      Ret (true, Some p, mkIter (iter_bucket iter) true (Some p) (h_next n))
    | None => Ret (true, None, mkIter (u32 (iter_bucket iter + 1)) false None (iter_next iter))
    end
  else Ret (false, None, iter).

(** The caller's loop: the items an iteration visits. *)
Fixpoint iterate_all (fuel : nat) (a : assoc) (iter : assoc_iterator) : outcome (list ptr) :=
  match fuel with
  | O => Ub
  | S fuel =>
    '(more, it, iter) ← assoc_iterate a iter;
    if more : bool then
      rest ← iterate_all fuel a iter;
      Ret (match it with Some p => p :: rest | None => rest end)
    else Ret []
  end.
