(* ===== verification/AssocFacts.v ===== *)
(** * The hash table refines a finite map

    The invariant that ties bucket chains to a map from keys to items, and the proof that
    every operation, the incremental expansion included, keeps it. *)

From S2P Require Import Prelude Assoc.

Local Open Scope Z_scope.

(** ** Chains *)

Fixpoint chain (h : gmap positive hnode) (o : option positive) (l : list positive) : Prop :=
  match l with
  | [] => o = None
  | p :: l => o = Some p /\ exists n, h !! p = Some n /\ chain h (h_next n) l
  end.

Lemma chain_frame h o l p n : chain h o l -> p ∉ l -> chain (<[p := n]> h) o l.
Proof.
  revert o. induction l as [|q l IH]; intros o Hc Hp; [done|].
  destruct Hc as (-> & nq & Hq & Hc). apply not_elem_of_cons in Hp as [Hne Hp].
  split; [done|]. exists nq. rewrite lookup_insert_ne by done. auto.
Qed.

Lemma chain_ext h h' o l :
  (forall x, x ∈ l -> h' !! x = h !! x) -> chain h o l -> chain h' o l.
Proof.
  intros Hsame. revert o. induction l as [|x l IH]; intros o Hcl; [done|].
  destruct Hcl as (-> & nx & Hx & Hcl). split; [done|]. exists nx.
  rewrite Hsame by left. split; [done|]. apply IH; [|done]. intros; apply Hsame; by right.
Qed.

Lemma chain_elem h o l p : chain h o l -> p ∈ l -> is_Some (h !! p).
Proof.
  revert o. induction l as [|q l IH]; intros o Hc Hp; [by apply not_elem_of_nil in Hp|].
  destruct Hc as (-> & nq & Hq & Hc). apply elem_of_cons in Hp as [->|Hp]; eauto.
Qed.

(** A chain without repetition is no longer than the heap is large. *)
Lemma chain_size h o l : chain h o l -> NoDup l -> (length l <= size h)%nat.
Proof.
  intros Hc Hnd. rewrite <- size_dom, <- (size_list_to_set (C := gset positive)) by done.
  apply subseteq_size. intros p Hp%elem_of_list_to_set. apply elem_of_dom. by eapply chain_elem.
Qed.

(** ** Walking a chain *)

Lemma find_loop_spec fuel h key o l :
  chain h o l -> (length l <= fuel)%nat ->
  exists r, find_loop fuel h key o = Ret r /\
    match r with
    | Some p => p ∈ l /\ exists n, h !! p = Some n /\ it_key n = key
    | None => forall p n, p ∈ l -> h !! p = Some n -> it_key n <> key
    end.
Proof.
  revert fuel o. induction l as [|q l IH]; intros fuel o Hc Hf.
  - simpl in Hc. subst o. exists None. split; [by destruct fuel|].
    intros p n Hp. by apply not_elem_of_nil in Hp.
  - destruct Hc as (-> & nq & Hq & Hc). destruct fuel as [|fuel]; [simpl in Hf; lia|].
    cbn [find_loop]. rewrite Hq. cbn [deref mbind outcome_bind]. case_decide as Ek.
    + exists (Some q). split; [done|]. split; [left|eauto].
    + destruct (IH fuel (h_next nq) Hc) as (r & -> & Hr); [simpl in Hf; lia|].
      exists r. split; [done|]. destruct r as [p|].
      * destruct Hr as [Hp He]. split; [by right|done].
      * intros p n [->|Hp]%elem_of_cons Hn; [congruence|by apply (Hr p)].
Qed.

(** What the position [pos] gives access to, and the end of the walk: just before [p]. *)
Lemma before_loop_spec fuel a key pos o l1 p n l2 :
  read_pos a pos = Ret o -> chain (items a) o (l1 ++ p :: l2) ->
  (forall q nq, q ∈ l1 -> items a !! q = Some nq -> it_key nq <> key) ->
  items a !! p = Some n -> it_key n = key -> (length l1 < fuel)%nat ->
  exists pos', before_loop fuel a key pos = Ret pos' /\ read_pos a pos' = Ret (Some p) /\
    (l1 = [] /\ pos' = pos \/ exists l0 q, l1 = l0 ++ [q] /\ pos' = AtNext q).
Proof.
  revert fuel pos o. induction l1 as [|q l1 IH]; intros fuel pos o Hr Hc Hk Hp Hkey Hf;
    (destruct fuel as [|fuel]; [simpl in Hf; lia|]); cbn [before_loop]; rewrite Hr;
    cbn [mbind outcome_bind].
  - destruct Hc as (-> & n' & Hn' & Hc). unfold node_at. rewrite Hn'. cbn [deref mbind outcome_bind].
    rewrite decide_True by congruence. exists pos. auto.
  - destruct Hc as (-> & nq & Hq & Hc). unfold node_at. rewrite Hq. cbn [deref mbind outcome_bind].
    rewrite decide_False by (apply (Hk q); [left|done]).
    destruct (IH fuel (AtNext q) (h_next nq)) as (pos' & -> & Hr' & Hpos); try done.
    + simpl. unfold node_at. by rewrite Hq.
    + intros q' n' Hq'. apply Hk. by right.
    + simpl in Hf. lia.
    + exists pos'. split; [done|]. split; [done|]. right.
      destruct Hpos as [[-> ->]|(l0 & q' & -> & ->)]; [by exists [], q|by exists (q :: l0), q'].
Qed.

(** The walk ends at a null pointer when the key is not in the chain. *)
Lemma before_loop_none fuel a key pos o l :
  read_pos a pos = Ret o -> chain (items a) o l -> (length l < fuel)%nat ->
  (forall q nq, q ∈ l -> items a !! q = Some nq -> it_key nq <> key) ->
  exists pos', before_loop fuel a key pos = Ret pos' /\ read_pos a pos' = Ret None.
Proof.
  revert fuel pos o. induction l as [|q l IH]; intros fuel pos o Hrd Hc Hf Hk;
    (destruct fuel as [|fuel]; [simpl in Hf; lia|]); cbn [before_loop]; rewrite Hrd; cbn [mbind outcome_bind].
  - simpl in Hc. subst o. by exists pos.
  - destruct Hc as (-> & nq & Hq & Hc). unfold node_at. rewrite Hq. cbn [deref mbind outcome_bind].
    rewrite decide_False by (apply (Hk q); [left|done]).
    apply (IH _ _ (h_next nq)); [|done|simpl in Hf; lia|].
    + simpl. unfold node_at. by rewrite Hq.
    + intros q' n' Hq'. apply Hk. by right.
Qed.

(** Taking [p] out of a chain: its predecessor, if any, gets its successor. *)
Lemma chain_remove_head h o p n l2 v :
  chain h o (p :: l2) -> NoDup (p :: l2) -> h !! p = Some n ->
  chain (<[p := set_h_next v n]> h) (h_next n) l2.
Proof.
  intros (-> & n' & Hn' & Hc) [Hp _]%NoDup_cons Hn. replace n' with n in Hc by congruence.
  by apply chain_frame.
Qed.

Lemma chain_remove_mid h o l0 q nq p n l2 v :
  chain h o (l0 ++ q :: p :: l2) -> NoDup (l0 ++ q :: p :: l2) ->
  h !! q = Some nq -> h !! p = Some n ->
  chain (<[q := set_h_next (h_next n) nq]> (<[p := set_h_next v n]> h)) o (l0 ++ q :: l2).
Proof.
  intros Hc Hnd Hq Hp. revert o Hc. induction l0 as [|x l0 IH]; intros o Hc.
  - destruct Hc as (-> & nq' & Hq' & Hc). split; [done|].
    exists (set_h_next (h_next n) nq). split; [by apply lookup_insert_eq|]. simpl.
    replace nq' with nq in Hc by congruence. apply NoDup_cons in Hnd as [Hnq Hnd].
    apply chain_frame; [|set_solver]. eapply chain_remove_head; [exact Hc|done|done].
  - destruct Hc as (-> & nx & Hx & Hc). apply NoDup_cons in Hnd as [Hnx Hnd].
    split; [done|]. exists nx. split; [|by apply IH].
    rewrite !lookup_insert_ne by set_solver. done.
Qed.

(** ** Buckets of keys *)

Lemma hashsize_pow n : 0 <= n < 32 -> hashsize n = 2 ^ n.
Proof.
  intros Hn. unfold hashsize. rewrite Z.shiftl_mul_pow2, Z.mul_1_l by lia. apply u32_id.
  pose proof (Z.pow_lt_mono_r 2 n 32). pose proof (Z.pow_pos_nonneg 2 n). lia.
Qed.

Lemma land_mask hv n : 0 <= n < 32 -> Z.land hv (hashmask n) = hv mod 2 ^ n.
Proof.
  intros Hn. unfold hashmask. rewrite hashsize_pow by done.
  pose proof (Z.pow_le_mono_r 2 n 31 ltac:(lia) ltac:(lia)). pose proof (Z.pow_pos_nonneg 2 n).
  rewrite u32_id by lia. rewrite <- Z.land_ones by lia. by rewrite Z.ones_equiv, Z.sub_1_r.
Qed.

(** The tables have the sizes the code relies on. *)
Record shape_ok (a : assoc) : Prop := {
  sh_power : 0 <= hashpower a < 32;
  sh_primary : Z.of_nat (length (primary_hashtable a)) = 2 ^ hashpower a;
  sh_old : expanding a = true ->
    1 <= hashpower a /\ Z.of_nat (length (old_hashtable a)) = 2 ^ (hashpower a - 1) /\
    0 <= expand_bucket a < 2 ^ (hashpower a - 1)
}.

(** The old array is meaningful only during an expansion. *)
Definition live (a : assoc) (s : slot) : Prop :=
  match s with InOld _ => expanding a = true | InPrimary _ => True end.

Lemma slot_of_spec a hv :
  shape_ok a ->
  slot_of a hv =
  if expanding a && (expand_bucket a <=? hv mod 2 ^ (hashpower a - 1))
  then InOld (Z.to_nat (hv mod 2 ^ (hashpower a - 1)))
  else InPrimary (Z.to_nat (hv mod 2 ^ hashpower a)).
Proof.
  intros [Hp Hpr Ho]. unfold slot_of. rewrite (land_mask hv (hashpower a)) by done.
  destruct (expanding a); [|done]. destruct (Ho eq_refl) as (? & ? & ?).
  by rewrite land_mask by lia.
Qed.

Lemma slot_of_live a hv : shape_ok a -> live a (slot_of a hv) /\ is_Some (table_at a (slot_of a hv)).
Proof.
  intros Hs. rewrite slot_of_spec by done. destruct Hs as [Hp Hpr Ho].
  destruct (expanding a && _) eqn:E; simpl.
  - apply andb_true_iff in E as [E _]. split; [done|]. destruct (Ho E) as (H1 & H2 & _).
    apply lookup_lt_is_Some. pose proof (Z.mod_pos_bound hv (2 ^ (hashpower a - 1))).
    pose proof (Z.pow_pos_nonneg 2 (hashpower a - 1)). lia.
  - split; [done|]. apply lookup_lt_is_Some. pose proof (Z.mod_pos_bound hv (2 ^ hashpower a)).
    pose proof (Z.pow_pos_nonneg 2 (hashpower a)). lia.
Qed.

(** ** The invariant *)

(** Every bucket of [Q] is a chain of exactly the items [P] assigns to it. *)
Definition chains (a : assoc) (Q : slot -> Prop) (P : slot -> positive -> Prop) : Prop :=
  forall s o, Q s -> table_at a s = Some o ->
  exists l, chain (items a) o l /\ NoDup l /\ forall p, p ∈ l <-> P s p.

Section Refinement.
Context (hash : list Z -> Z).

(** The items of a bucket according to the map. *)
Definition bucket_of (a : assoc) (m : gmap (list Z) positive) (s : slot) (p : positive) : Prop :=
  exists k, m !! k = Some p /\ slot_of a (hash k) = s.

Record represents (a : assoc) (m : gmap (list Z) positive) : Prop := {
  rep_shape : shape_ok a;
  rep_chains : chains a (live a) (bucket_of a m);
  rep_items : forall k p, m !! k = Some p -> exists n, items a !! p = Some n /\ it_key n = k
}.

Lemma rep_slot a m hv :
  represents a m ->
  exists o l, read_slot a (slot_of a hv) = Ret o /\ table_at a (slot_of a hv) = Some o /\
    chain (items a) o l /\ NoDup l /\ (length l <= chain_fuel a)%nat /\
    forall p, p ∈ l <-> bucket_of a m (slot_of a hv) p.
Proof.
  intros [Hs Hc _]. destruct (slot_of_live a hv Hs) as [Hl [o Ho]].
  destruct (Hc _ _ Hl Ho) as (l & H1 & H2 & H3). exists o, l.
  unfold read_slot. rewrite Ho. pose proof (chain_size _ _ _ H1 H2).
  unfold chain_fuel. repeat split; try done; try lia; by apply H3.
Qed.

Lemma rep_key_inj a m k k' p : represents a m -> m !! k = Some p -> m !! k' = Some p -> k = k'.
Proof.
  intros Hr H1 H2. destruct (rep_items _ _ Hr _ _ H1) as (n & Hn & <-).
  destruct (rep_items _ _ Hr _ _ H2) as (n' & Hn' & <-). congruence.
Qed.

Lemma assoc_find_rep a m key : represents a m -> assoc_find key (hash key) a = Ret (m !! key).
Proof.
  intros Hr. destruct (rep_slot a m (hash key) Hr) as (o & l & Er & _ & Hc & Hnd & Hf & Hm).
  unfold assoc_find. rewrite Er. cbn [mbind outcome_bind].
  destruct (find_loop_spec (chain_fuel a) (items a) key o l Hc Hf) as (r & -> & Hres).
  f_equal. destruct r as [p|].
  - destruct Hres as (Hp & n & Hn & Hk). apply Hm in Hp as (k & Hmk & _).
    destruct (rep_items _ _ Hr _ _ Hmk) as (n' & Hn' & Hk'). congruence.
  - destruct (m !! key) as [p|] eqn:E; [|done]. exfalso.
    destruct (rep_items _ _ Hr _ _ E) as (n & Hn & Hk).
    apply (Hres p n); [|done|done]. apply Hm. by exists key.
Qed.

(** ** Insertion *)

Lemma table_set_same a s v : is_Some (table_at a s) -> table_at (set_slot a s v) s = Some v.
Proof. destruct s; simpl; intros ?%lookup_lt_is_Some; by apply list_lookup_insert_eq. Qed.

Lemma table_set_other a s s' v : s <> s' -> table_at (set_slot a s v) s' = table_at a s'.
Proof. destruct s, s'; simpl; intros ?; try done; apply list_lookup_insert_ne; congruence. Qed.

Lemma shape_set_slot a s v : shape_ok a -> shape_ok (set_slot a s v).
Proof. intros [H1 H2 H3]. destruct s; constructor; simpl; rewrite ?length_insert; done. Qed.

Lemma shape_with_items a h : shape_ok a -> shape_ok (with_items h a).
Proof. intros [H1 H2 H3]. by constructor. Qed.

Lemma slot_of_set_slot a s v hv : slot_of (set_slot a s v) hv = slot_of a hv.
Proof. by destruct s. Qed.

Lemma live_set_slot a s s' v : live (set_slot a s v) s' <-> live a s'.
Proof. by destruct s, s'. Qed.

Lemma items_set_slot a s v : items (set_slot a s v) = items a.
Proof. by destruct s. Qed.

Lemma write_slot_ok a s v o : table_at a s = Some o -> write_slot a s v = Ret (set_slot a s v).
Proof. intros E. unfold write_slot, read_slot. by rewrite E. Qed.

Lemma write_next_ok a p n v :
  items a !! p = Some n ->
  write_next a p v = Ret (with_items (<[p := set_h_next v n]> (items a)) a).
Proof. intros E. unfold write_next, node_at. by rewrite E. Qed.

(** Putting an item that is in no chain at the head of bucket [s]. *)
Lemma chains_push a Q P s o p n :
  chains a Q P -> Q s -> table_at a s = Some o -> items a !! p = Some n ->
  (forall s', Q s' -> ~ P s' p) ->
  chains (set_slot (with_items (<[p := set_h_next o n]> (items a)) a) s (Some p)) Q
         (fun s' q => P s' q \/ s' = s /\ q = p).
Proof.
  intros Hc Hl Ho Hn Hp s' o' Hl' Ho'. rewrite items_set_slot. simpl items.
  destruct (decide (s = s')) as [<-|Hne].
  - rewrite table_set_same in Ho' by by destruct s; eauto. injection Ho' as <-.
    destruct (Hc s o Hl Ho) as (l & Hcl & Hnd & Hm).
    assert (p ∉ l) as Hpl by (intros Hpl; apply (Hp s Hl); by apply Hm).
    exists (p :: l). split_and!.
    + split; [done|]. exists (set_h_next o n). split; [by apply lookup_insert_eq|].
      by apply chain_frame.
    + by constructor.
    + intros q. rewrite elem_of_cons, Hm. naive_solver.
  - rewrite table_set_other in Ho' by done.
    change (table_at (with_items _ a) s') with (table_at a s') in Ho'.
    destruct (Hc s' o' Hl' Ho') as (l & Hcl & Hnd & Hm).
    exists l. split_and!; [|done|].
    + apply chain_frame; [done|]. intros Hpl. by apply (Hp s' Hl'), Hm.
    + intros q. rewrite Hm. naive_solver.
Qed.

Lemma assoc_insert_rep a m k p n :
  represents a m -> m !! k = None -> (forall k', m !! k' <> Some p) ->
  items a !! p = Some n -> it_key n = k ->
  exists a', assoc_insert p (hash k) a = Ret a' /\ represents a' (<[k := p]> m).
Proof.
  intros Hr Hk Hp Hn Hkey. pose proof Hr as [Hs Hc Hi].
  destruct (rep_slot a m (hash k) Hr) as (o & l & Er & Ho & _).
  destruct (slot_of_live a (hash k) Hs) as [Hl _].
  unfold assoc_insert. rewrite Er. cbn [mbind outcome_bind].
  rewrite (write_next_ok _ _ n) by done. cbn [mbind outcome_bind].
  rewrite (write_slot_ok _ _ _ o) by done.
  eexists. split; [done|]. set (s := slot_of a (hash k)) in *. constructor.
  - by apply shape_set_slot, shape_with_items.
  - pose proof (chains_push a (live a) (bucket_of a m) s o p n Hc Hl Ho Hn) as Hpush.
    intros s' o' Hl' Ho'. apply live_set_slot in Hl'.
    destruct (Hpush) with (s := s') (o := o') as (l' & H1 & H2 & H3); try done.
    { intros s2 _ (k2 & Hk2 & _). by apply (Hp k2). }
    exists l'. split; [done|]. split; [done|]. intros q. rewrite H3. unfold bucket_of.
    setoid_rewrite slot_of_set_slot. change (slot_of (with_items _ a)) with (slot_of a). split.
    + intros [(k2 & Hk2 & <-)|[-> ->]].
      * exists k2. split; [|done]. rewrite lookup_insert_ne; [done|congruence].
      * exists k. split; [by apply lookup_insert_eq|done].
    + intros (k2 & Hk2 & <-). destruct (decide (k2 = k)) as [->|Hne].
      * rewrite lookup_insert_eq in Hk2. injection Hk2 as <-. by right.
      * rewrite lookup_insert_ne in Hk2 by done. left. by exists k2.
  - intros k2 p2 Hk2. rewrite items_set_slot. simpl.
    destruct (decide (k2 = k)) as [->|Hne].
    + rewrite lookup_insert_eq in Hk2. injection Hk2 as <-.
      exists (set_h_next o n). split; [by apply lookup_insert_eq|done].
    + rewrite lookup_insert_ne in Hk2 by done. destruct (Hi _ _ Hk2) as (n2 & Hn2 & Hk2').
      exists n2. split; [|done]. rewrite lookup_insert_ne; [done|].
      intros <-. by apply (Hp k2).
Qed.

(** ** Deletion *)

(** The new heap and table of a deletion, at either kind of position. *)
Lemma write_pos_remove a s o l1 p n l2 pos :
  table_at a s = Some o -> chain (items a) o (l1 ++ p :: l2) -> NoDup (l1 ++ p :: l2) ->
  items a !! p = Some n ->
  (l1 = [] /\ pos = AtSlot s \/ exists l0 q, l1 = l0 ++ [q] /\ pos = AtNext q) ->
  exists a' o', write_pos (with_items (<[p := set_h_next None n]> (items a)) a) pos (h_next n) = Ret a' /\
    a' = set_slot (with_items (items a') a) s o' /\ chain (items a') o' (l1 ++ l2) /\
    (forall x, x <> p -> x ∉ l1 -> items a' !! x = items a !! x) /\
    (forall x, it_key <$> items a' !! x = it_key <$> items a !! x).
Proof.
  intros Ho Hc Hnd Hn Hpos. destruct Hpos as [[-> ->]|(l0 & q & -> & ->)].
  - exists (set_slot (with_items (<[p := set_h_next None n]> (items a)) a) s (h_next n)), (h_next n).
    rewrite items_set_slot. split_and!.
    + simpl. by apply (write_slot_ok _ _ _ o).
    + done.
    + by apply (chain_remove_head _ o).
    + intros x Hx _. simpl. by rewrite lookup_insert_ne.
    + intros x. simpl. destruct (decide (x = p)) as [->|].
      * by rewrite lookup_insert_eq, Hn.
      * by rewrite lookup_insert_ne.
  - rewrite <- app_assoc in Hc, Hnd. simpl in Hc, Hnd.
    destruct (chain_elem _ _ _ q Hc) as [nq Hq]; [set_solver|].
    assert (p <> q) as Hpq.
    { intros ->. apply NoDup_app in Hnd as (_ & _ & Hnd). apply NoDup_cons in Hnd as [Hnd _]. set_solver. }
    set (h' := <[q := set_h_next (h_next n) nq]> (<[p := set_h_next None n]> (items a))).
    exists (with_items h' a), o. split_and!.
    + simpl. rewrite (write_next_ok _ _ nq); [done|]. simpl. by rewrite lookup_insert_ne.
    + simpl. destruct a, s; unfold with_items, set_slot, with_tables; simpl in *; f_equal;
        symmetry; by apply list_insert_id.
    + simpl. rewrite <- app_assoc. simpl. by apply chain_remove_mid.
    + intros x Hx Hx2. simpl. unfold h'. rewrite !lookup_insert_ne by set_solver. done.
    + intros x. simpl. unfold h'. destruct (decide (x = q)) as [->|].
      * by rewrite lookup_insert_eq, Hq.
      * rewrite lookup_insert_ne by done. destruct (decide (x = p)) as [->|].
        -- by rewrite lookup_insert_eq, Hn.
        -- by rewrite lookup_insert_ne.
Qed.

(** The chains after a deletion: bucket [s] without [p], the others as before. *)
Lemma delete_chains a m a' k p s o' l1 l2 :
  represents a m -> m !! k = Some p -> s = slot_of a (hash k) -> is_Some (table_at a s) ->
  NoDup (l1 ++ p :: l2) -> (forall q, q ∈ l1 ++ p :: l2 <-> bucket_of a m s q) ->
  a' = set_slot (with_items (items a') a) s o' -> chain (items a') o' (l1 ++ l2) ->
  (forall x, x <> p -> x ∉ l1 -> items a' !! x = items a !! x) ->
  chains a' (live a') (bucket_of a' (delete k m)).
Proof.
  intros Hr Hk Es Hs Hnd Hm Ea Hc' Hother s' o2 Hl' Ho2. pose proof Hr as [_ Hc _].
  assert (forall hv, slot_of a' hv = slot_of a hv) as Hso
    by (intros; rewrite Ea, slot_of_set_slot; done).
  unfold bucket_of. setoid_rewrite Hso. rewrite Ea in Hl', Ho2. apply live_set_slot in Hl'.
  change (live (with_items _ a) s') with (live a s') in Hl'.
  destruct (decide (s = s')) as [<-|Hne].
  - rewrite table_set_same in Ho2 by by destruct s. injection Ho2 as <-.
    exists (l1 ++ l2). split; [done|]. rewrite <- Permutation_middle in Hnd.
    apply NoDup_cons in Hnd as [Hpl Hnd]. split; [done|]. intros q. split.
    + intros Hq. assert (bucket_of a m s q) as (k' & Hk' & E) by (apply Hm; set_solver).
      exists k'. split; [|done]. apply lookup_delete_Some. split; [congruence|done].
    + intros (k' & [Hk1 Hk']%lookup_delete_Some & E).
      assert (q ∈ l1 ++ p :: l2) as Hq by (apply Hm; by exists k').
      assert (q <> p) by (intros ->; by apply Hk1, (rep_key_inj a m _ _ p)). set_solver.
  - rewrite table_set_other in Ho2 by done.
    change (table_at (with_items _ a) s') with (table_at a s') in Ho2.
    destruct (Hc s' o2 Hl' Ho2) as (l & Hcl' & Hnd' & Hm'). exists l. split_and!; [|done|].
    + apply (chain_ext (items a)); [|done]. intros x Hx.
      apply Hm' in Hx as (k' & Hk' & Es'). apply Hother.
      * intros ->. apply Hne. rewrite <- Es', Es. do 2 f_equal. by apply (rep_key_inj a m _ _ p).
      * intros Hx1. assert (bucket_of a m s x) as (k2 & Hk2 & Es2) by (apply Hm; set_solver).
        apply Hne. rewrite <- Es', <- Es2. do 2 f_equal. by apply (rep_key_inj a m _ _ x).
    + intros q. rewrite Hm'. split.
      * intros (k' & Hk' & E). exists k'. split; [|done]. apply lookup_delete_Some.
        split; [|done]. intros <-. congruence.
      * intros (k' & [_ Hk']%lookup_delete_Some & E). by exists k'.
Qed.

Lemma assoc_delete_rep a m k p :
  represents a m -> m !! k = Some p ->
  exists a', assoc_delete k (hash k) a = Ret a' /\ represents a' (delete k m) /\
    (forall x, it_key <$> items a' !! x = it_key <$> items a !! x).
Proof.
  intros Hr Hk. pose proof Hr as [Hs Hc Hi]. destruct (Hi _ _ Hk) as (n & Hn & Hkey).
  destruct (rep_slot a m (hash k) Hr) as (o & l & Er & Ho & Hcl & Hnd & Hf & Hm).
  set (s := slot_of a (hash k)) in *.
  assert (p ∈ l) as Hp by (apply Hm; by exists k).
  apply list_elem_of_split in Hp as (l1 & l2 & ->).
  destruct (before_loop_spec (chain_fuel a) a k (AtSlot s) o l1 p n l2) as (pos & E & Erd & Hpos);
    try done.
  { intros q nq Hq Hnq Hkq. assert (bucket_of a m s q) as (k' & Hk' & _) by (apply Hm; set_solver).
    destruct (Hi _ _ Hk') as (nq' & Hnq' & Hk2). assert (q = p) as -> by congruence.
    apply NoDup_app in Hnd as (_ & Hnd & _). by apply (Hnd p); [|left]. }
  { rewrite length_app in Hf. simpl in Hf. lia. }
  unfold assoc_delete, _hashitem_before. fold s. rewrite E. cbn [mbind outcome_bind].
  rewrite Erd. cbn [mbind outcome_bind]. unfold node_at at 1. rewrite Hn. cbn [deref mbind outcome_bind].
  rewrite (write_next_ok _ _ n) by done. cbn [mbind outcome_bind].
  destruct (write_pos_remove a s o l1 p n l2 pos Ho Hcl Hnd Hn Hpos)
    as (a' & o' & -> & Ea & Hc' & Hother & Hkeys).
  exists a'. split; [done|]. split; [|done]. constructor.
  - rewrite Ea. by apply shape_set_slot, shape_with_items.
  - by apply (delete_chains a m a' k p s o' l1 l2).
  - intros k' p' [_ Hk']%lookup_delete_Some. destruct (Hi _ _ Hk') as (n' & Hn' & Hk2).
    pose proof (Hkeys p') as Hkp. rewrite Hn' in Hkp. simpl in Hkp.
    destruct (items a' !! p') as [n2|]; [|done]. exists n2. split; [done|]. simpl in Hkp. congruence.
Qed.

Lemma assoc_delete_absent a m k : represents a m -> m !! k = None -> assoc_delete k (hash k) a = Abort.
Proof.
  intros Hr Hk. destruct (rep_slot a m (hash k) Hr) as (o & l & Er & Ho & Hcl & Hnd & Hf & Hm).
  set (s := slot_of a (hash k)) in *.
  destruct (before_loop_none (chain_fuel a) a k (AtSlot s) o l) as (pos & E & Erd); try done.
  { unfold chain_fuel. pose proof (chain_size _ _ _ Hcl Hnd). lia. }
  { intros q nq Hq Hnq Hkq. apply Hm in Hq as (k' & Hk' & _).
    destruct (rep_items _ _ Hr _ _ Hk') as (n' & Hn' & Hk2). congruence. }
  unfold assoc_delete, _hashitem_before. fold s. rewrite E. cbn [mbind outcome_bind]. by rewrite Erd.
Qed.
End Refinement.

(** ** Expansion *)

Section Expansion.
Context (hash : list Z -> Z).
Implicit Types (m : gmap (list Z) positive).

Lemma assoc_expand_rep g a m :
  represents hash a m -> expanding a = false -> hashpower a + 1 < 32 ->
  exists a', assoc_expand g a = Ret a' /\ represents hash a' m /\ expanding a' = g /\
    items a' = items a.
Proof.
  intros Hr He Hp. pose proof Hr as [Hs Hc Hi]. pose proof Hs as [Hp0 Hl _].
  unfold assoc_expand. rewrite (proj2 (Z.leb_gt _ _)) by lia. destruct g; eexists;
    (split; [reflexivity|]); (split; [|split; done]).
  - set (a' := mkAssoc _ _ _ _ _ _ _).
    assert (shape_ok a') as Hs'.
    { constructor; simpl; [lia| |].
      - rewrite length_replicate, hashsize_pow, Z2Nat.id by lia. done.
      - intros _. replace (hashpower a + 1 - 1) with (hashpower a) by lia. lia. }
    assert (forall hv, slot_of a' hv = InOld (Z.to_nat (hv mod 2 ^ hashpower a))) as Hso'.
    { intros hv. rewrite slot_of_spec by done. simpl. replace (hashpower a + 1 - 1) with (hashpower a) by lia.
      rewrite (proj2 (Z.leb_le _ _)); [done|].
      apply Z.mod_pos_bound, Z.pow_pos_nonneg; lia. }
    assert (forall hv, slot_of a hv = InPrimary (Z.to_nat (hv mod 2 ^ hashpower a))) as Hso
      by (intros; by rewrite slot_of_spec, He).
    constructor; [done| |done]. intros s o _ Ho. unfold bucket_of. setoid_rewrite Hso'.
    destruct s as [i|i]; simpl in Ho.
    + destruct (Hc (InPrimary i) o I Ho) as (l & H1 & H2 & H3).
      exists l. split; [done|]. split; [done|]. intros p. rewrite H3. unfold bucket_of.
      setoid_rewrite Hso. naive_solver.
    + apply lookup_replicate in Ho as [-> _]. exists []. split; [done|]. split; [constructor|].
      intros p. split; [by intros ?%not_elem_of_nil|naive_solver].
  - constructor; [| |done].
    + constructor; simpl; [done|done|congruence].
    + intros [i|i] o Hl' Ho; [simpl in Hl'; congruence|]. exact (Hc (InPrimary i) o I Ho).
Qed.

(** The bucket of a key after the bucket being moved is counted as moved. *)
Lemma finish_slot a hv :
  shape_ok a -> expanding a = true ->
  shape_ok (finish_bucket a) /\
  slot_of (finish_bucket a) hv =
  if decide (hv mod 2 ^ (hashpower a - 1) = expand_bucket a)
  then InPrimary (Z.to_nat (hv mod 2 ^ hashpower a)) else slot_of a hv.
Proof.
  intros Hs He. pose proof Hs as [Hp Hl Ho]. destruct (Ho He) as (H1 & H2 & H3).
  rewrite (slot_of_spec a) by done. rewrite He.
  pose proof (Z.pow_le_mono_r 2 (hashpower a - 1) 30 ltac:(lia) ltac:(lia)) as Hpow.
  pose proof (Z.mod_pos_bound hv (2 ^ (hashpower a - 1)) ltac:(lia)) as Hm.
  unfold finish_bucket. rewrite u32_id, hashsize_pow by lia.
  destruct (Z.eqb_spec (expand_bucket a + 1) (2 ^ (hashpower a - 1))) as [E|E].
  - assert (shape_ok (mkAssoc (hashpower a) (primary_hashtable a) [] false (expand_bucket a + 1) (items a)
      (mkHashStats (hash_power_level (stats a))
         (u64 (hash_bytes (stats a) - 2 ^ (hashpower a - 1) * POINTER_SIZE)) false))) as Hs'
      by (constructor; simpl; done).
    split; [done|]. rewrite slot_of_spec by done. simpl. case_decide; [done|].
    by rewrite (proj2 (Z.leb_gt _ _)) by lia.
  - assert (shape_ok (mkAssoc (hashpower a) (primary_hashtable a) (old_hashtable a) (expanding a)
      (expand_bucket a + 1) (items a) (stats a))) as Hs' by (constructor; simpl; try done; lia).
    split; [done|]. rewrite slot_of_spec by done. simpl. rewrite He. cbn [andb]. case_decide.
    + by rewrite (proj2 (Z.leb_gt _ _)) by lia.
    + destruct (Z.leb_spec (expand_bucket a) (hv mod 2 ^ (hashpower a - 1)));
        [rewrite (proj2 (Z.leb_le _ _)) by lia|rewrite (proj2 (Z.leb_gt _ _)) by lia]; done.
Qed.

(** The items of bucket [s] while the items [rest] are still to be moved. *)
Definition moving (a : assoc) m (rest : list positive) (s : slot) (p : positive) : Prop :=
  exists k, m !! k = Some p /\ slot_of (finish_bucket a) (hash k) = s /\ p ∉ rest.

(** Every bucket but the one being moved. *)
Definition other_buckets (a : assoc) (s : slot) : Prop :=
  live a s /\ s <> InOld (Z.to_nat (expand_bucket a)).

Record moving_ok (a : assoc) m (rest : list positive) : Prop := {
  mv_shape : shape_ok a;
  mv_expanding : expanding a = true;
  mv_chains : chains a (other_buckets a) (moving a m rest);
  mv_items : forall k p, m !! k = Some p -> exists n, items a !! p = Some n /\ it_key n = k;
  mv_rest : forall p, p ∈ rest -> exists k, m !! k = Some p /\
    slot_of (finish_bucket a) (hash k) = InPrimary (Z.to_nat (hash k mod 2 ^ hashpower a))
}.

Lemma finish_bucket_slot a b hv :
  hashpower a = hashpower b -> expanding a = expanding b -> expand_bucket a = expand_bucket b ->
  slot_of (finish_bucket a) hv = slot_of (finish_bucket b) hv.
Proof.
  intros H1 H2 H3. unfold finish_bucket. rewrite H1, H2, H3.
  destruct (_ =? _); unfold slot_of; done.
Qed.

Lemma set_slot_fields a s v :
  hashpower (set_slot a s v) = hashpower a /\ expanding (set_slot a s v) = expanding a /\
  expand_bucket (set_slot a s v) = expand_bucket a.
Proof. by destruct s. Qed.

(** One item moves to the head of its new bucket. *)
Lemma moving_step a m p rest n o :
  moving_ok a m (p :: rest) -> NoDup (p :: rest) -> items a !! p = Some n ->
  let b := InPrimary (Z.to_nat (hash (it_key n) mod 2 ^ hashpower a)) in
  table_at a b = Some o ->
  moving_ok (set_slot (with_items (<[p := set_h_next o n]> (items a)) a) b (Some p)) m rest.
Proof.
  intros [Hs He Hc Hi Hrest] [Hpr Hnd]%NoDup_cons Hn b Ho.
  set (a' := set_slot _ b (Some p)).
  assert (forall hv, slot_of (finish_bucket a') hv = slot_of (finish_bucket a) hv) as Hso
    by (intros; by apply finish_bucket_slot).
  destruct (Hrest p) as (k & Hk & Hks); [left|]. destruct (Hi _ _ Hk) as (n' & Hn' & Hkey).
  assert (n' = n) as -> by congruence.
  constructor.
  - by apply shape_set_slot, shape_with_items.
  - done.
  - intros s o' Hl Ho'.
    destruct (chains_push a (other_buckets a) (moving a m (p :: rest)) b o p n Hc) with (s := s) (o := o')
      as (l & H1 & H2 & H3); try done.
    { intros s' _ (k' & _ & _ & Hx). apply Hx. left. }
    exists l. split; [done|]. split; [done|]. intros q. rewrite H3. unfold moving. setoid_rewrite Hso.
    split.
    + intros [(k' & Hk' & Es & Hq)|[-> ->]].
      * exists k'. split; [done|]. split; [done|]. set_solver.
      * exists k. split; [done|]. split; [|done]. rewrite Hks. unfold b. by rewrite Hkey.
    + intros (k' & Hk' & Es & Hq). destruct (decide (q = p)) as [->|Hne].
      * right. split; [|done]. rewrite <- Es. destruct (Hi _ _ Hk') as (n2 & Hn2 & Hk2).
        assert (k' = k) as -> by congruence. unfold b. rewrite Hks. by rewrite Hkey.
      * left. exists k'. split; [done|]. split; [done|]. set_solver.
  - intros k' p' Hk'. destruct (Hi _ _ Hk') as (n2 & Hn2 & Hk2). unfold a'. rewrite items_set_slot. simpl.
    destruct (decide (p' = p)) as [->|].
    + exists (set_h_next o n). split; [by apply lookup_insert_eq|]. simpl. congruence.
    + exists n2. by rewrite lookup_insert_ne.
  - intros q Hq. destruct (Hrest q) as (k' & Hk' & Es); [by right|]. exists k'. rewrite Hso. done.
Qed.

Lemma move_loop_ok fuel a m it rest :
  moving_ok a m rest -> chain (items a) it rest -> NoDup rest -> (length rest <= fuel)%nat ->
  exists a', move_loop hash fuel a it = Ret a' /\ moving_ok a' m [] /\
    hashpower a' = hashpower a /\ expand_bucket a' = expand_bucket a.
Proof.
  revert fuel a it. induction rest as [|p rest IH]; intros fuel a it Hm Hc Hnd Hf.
  { simpl in Hc. subst it. exists a. split; [by destruct fuel|auto]. }
  destruct fuel as [|fuel]; [simpl in Hf; lia|]. destruct Hc as (-> & n & Hn & Hc).
  pose proof Hm as [Hs He _ _ _]. cbn [move_loop]. unfold node_at. rewrite Hn. cbn [deref mbind outcome_bind].
  rewrite land_mask by apply Hs. set (b := InPrimary _).
  assert (exists o, table_at a b = Some o) as [o Ho].
  { apply lookup_lt_is_Some. destruct Hs as [Hp Hl _].
    pose proof (Z.mod_pos_bound (hash (it_key n)) (2 ^ hashpower a) ltac:(lia)). lia. }
  unfold read_slot at 1. rewrite Ho. cbn [deref mbind outcome_bind].
  rewrite (write_next_ok _ _ n) by done. cbn [mbind outcome_bind].
  rewrite (write_slot_ok _ _ _ o) by done. cbn [mbind outcome_bind].
  destruct (IH fuel (set_slot (with_items (<[p:=set_h_next o n]> (items a)) a) b (Some p)) (h_next n))
    as (a' & -> & Hm' & E1 & E2).
  - by apply moving_step.
  - rewrite items_set_slot. simpl. apply chain_frame; [done|]. by apply NoDup_cons in Hnd as [? _].
  - by apply NoDup_cons in Hnd as [_ ?].
  - simpl in Hf. lia.
  - exists a'. done.
Qed.

(** The start of a move: the items of the old bucket are the ones to move. *)
Lemma moving_start a m o l :
  represents hash a m -> expanding a = true ->
  table_at a (InOld (Z.to_nat (expand_bucket a))) = Some o -> chain (items a) o l ->
  (forall p, p ∈ l <-> bucket_of hash a m (InOld (Z.to_nat (expand_bucket a))) p) ->
  moving_ok a m l.
Proof.
  intros Hr He Ho Hcl Hm. pose proof Hr as [Hs Hc Hi]. pose proof Hs as [Hp _ Hold].
  destruct (Hold He) as (H1 & H2 & H3).
  assert (forall k, slot_of a (hash k) = InOld (Z.to_nat (expand_bucket a)) <->
                    hash k mod 2 ^ (hashpower a - 1) = expand_bucket a) as Hold_iff.
  { intros k. rewrite slot_of_spec, He by done.
    pose proof (Z.mod_pos_bound (hash k) (2 ^ (hashpower a - 1)) ltac:(lia)). cbn [andb].
    destruct (Z.leb_spec (expand_bucket a) (hash k mod 2 ^ (hashpower a - 1))); split; intros E;
      try discriminate; try lia; [injection E; lia|by rewrite E]. }
  constructor; try done.
  - intros s o' [Hl Hne] Ho'. destruct (Hc s o' Hl Ho') as (l' & E1 & E2 & E3).
    exists l'. split; [done|]. split; [done|]. intros p. rewrite E3. unfold bucket_of, moving. split.
    + intros (k & Hk & Es). exists k. split; [done|].
      destruct (finish_slot a (hash k) Hs He) as [_ ->]. rewrite decide_False.
      * split; [done|]. intros (k' & Hk' & Es')%Hm. apply Hne. rewrite <- Es, <- Es'. do 2 f_equal.
        by apply (rep_key_inj hash a m _ _ p).
      * rewrite <- Hold_iff. congruence.
    + intros (k & Hk & Es & Hp'). exists k. split; [done|].
      destruct (finish_slot a (hash k) Hs He) as [_ E]. rewrite E in Es. case_decide as Ed; [|done].
      exfalso. apply Hp', Hm. exists k. split; [done|]. by apply Hold_iff.
  - intros p (k & Hk & Es)%Hm. exists k. split; [done|].
    destruct (finish_slot a (hash k) Hs He) as [_ ->]. by rewrite decide_True by by apply Hold_iff.
Qed.

(** The end of a move: the emptied bucket is counted. *)
Lemma moving_end a m :
  moving_ok a m [] ->
  represents hash (finish_bucket (set_slot a (InOld (Z.to_nat (expand_bucket a))) None)) m.
Proof.
  intros [Hs He Hc Hi _]. set (e := InOld (Z.to_nat (expand_bucket a))). set (a1 := set_slot a e None).
  assert (shape_ok a1) as Hs1 by by apply shape_set_slot.
  destruct (finish_slot a1 0 Hs1 He) as [Hsf _].
  assert (forall hv, slot_of (finish_bucket a1) hv = slot_of (finish_bucket a) hv) as Hso
    by (intros; by apply finish_bucket_slot).
  assert (forall hv, slot_of (finish_bucket a) hv <> e) as Hne.
  { intros hv E. destruct (finish_slot a hv Hs He) as [_ E2]. rewrite E2 in E.
    case_decide as Ed; [discriminate|]. rewrite slot_of_spec, He in E by done. cbn [andb] in E.
    destruct (sh_old _ Hs He) as (? & ? & ?).
    pose proof (Z.mod_pos_bound hv (2 ^ (hashpower a - 1)) ltac:(lia)).
    destruct (Z.leb_spec (expand_bucket a) (hv mod 2 ^ (hashpower a - 1))); [|discriminate].
    injection E. lia. }
  assert (items (finish_bucket a1) = items a) as Hit
    by (unfold finish_bucket; by destruct (_ =? _)).
  constructor; [done| |by rewrite Hit].
  intros s o Hl Ho. rewrite Hit. unfold bucket_of. setoid_rewrite Hso.
  assert (live a s /\ table_at a1 s = Some o) as [Hla Ho1].
  { unfold finish_bucket in Hl, Ho. destruct (_ =? _); destruct s; simpl in *; try done. }
  destruct (decide (e = s)) as [<-|Hes].
  - unfold a1 in Ho1. rewrite table_set_same in Ho1.
    + injection Ho1 as <-. exists []. split; [done|]. split; [constructor|]. intros p.
      split; [by intros ?%not_elem_of_nil|]. intros (k & _ & E). by apply Hne in E.
    + apply lookup_lt_is_Some. destruct (sh_old _ Hs He) as (? & ? & ?). lia.
  - unfold a1 in Ho1. rewrite table_set_other in Ho1 by done.
    destruct (Hc s o) as (l & E1 & E2 & E3); [by split|done|].
    exists l. split; [done|]. split; [done|]. intros p. rewrite E3. unfold moving.
    split; [naive_solver|]. intros (k & Hk & E). exists k. split; [done|]. split; [done|].
    apply not_elem_of_nil.
Qed.

Lemma move_bucket_rep a m :
  represents hash a m -> expanding a = true ->
  exists a', move_bucket hash true a = Ret a' /\ represents hash a' m /\
    expand_bucket a' = expand_bucket a + 1 /\ hashpower a' = hashpower a /\
    expanding a' = negb (expand_bucket a + 1 =? 2 ^ (hashpower a - 1)).
Proof.
  intros Hr He. pose proof Hr as [Hs Hc Hi]. destruct (sh_old _ Hs He) as (H1 & H2 & H3).
  set (e := InOld (Z.to_nat (expand_bucket a))).
  destruct (lookup_lt_is_Some_2 (old_hashtable a) (Z.to_nat (expand_bucket a))) as [o Ho]; [lia|].
  destruct (Hc e o He Ho) as (l & Hcl & Hnd & Hm).
  pose proof (chain_size _ _ _ Hcl Hnd) as Hsz.
  assert (read_slot a e = Ret o) as Er by (unfold read_slot; simpl; by rewrite Ho).
  unfold move_bucket. fold e. rewrite Er. cbn [mbind outcome_bind].
  destruct (move_loop_ok (chain_fuel a) a m o l) as (a1 & E & Hm1 & Ep & Eb); try done.
  { by apply (moving_start a m o). }
  { unfold chain_fuel. lia. }
  rewrite E. cbn [mbind outcome_bind].
  assert (is_Some (table_at a1 e)) as [o1 Ho1].
  { apply lookup_lt_is_Some. destruct (sh_old _ (mv_shape _ _ _ Hm1) (mv_expanding _ _ _ Hm1)) as (? & ? & ?).
    rewrite Ep in *. lia. }
  rewrite (write_slot_ok _ _ _ o1) by done. cbn [mbind outcome_bind].
  eexists. split; [reflexivity|]. split.
  { unfold e. rewrite <- Eb. by apply moving_end. }
  pose proof (sh_power _ Hs).
  pose proof (Z.pow_le_mono_r 2 (hashpower a - 1) 30 ltac:(lia) ltac:(lia)).
  unfold finish_bucket. simpl. rewrite Ep, Eb, u32_id, hashsize_pow by lia.
  pose proof (mv_expanding _ _ _ Hm1) as He1.
  destruct (_ =? _); simpl; rewrite ?He1; done.
Qed.

Lemma bulk_move_rep locks a m :
  represents hash a m -> exists a', bulk_move hash locks a = Ret a' /\ represents hash a' m.
Proof.
  revert a. induction locks as [|b locks IH]; intros a Hr; cbn [bulk_move]; [eauto|].
  destruct (expanding a) eqn:He; [|eauto]. destruct b.
  - destruct (move_bucket_rep a m Hr He) as (a' & -> & Hr' & _). by apply IH.
  - by apply IH.
Qed.

(** Enough passes with the lock complete the expansion. *)
Lemma bulk_move_done n a m :
  represents hash a m -> expanding a = true ->
  2 ^ (hashpower a - 1) - expand_bucket a <= Z.of_nat n ->
  exists a', bulk_move hash (replicate n true) a = Ret a' /\ represents hash a' m /\
    expanding a' = false /\ hashpower a' = hashpower a.
Proof.
  revert a. induction n as [|n IH]; intros a Hr He Hn.
  { exfalso. destruct (sh_old _ (rep_shape _ _ _ Hr) He) as (? & ? & ?). lia. }
  cbn [replicate bulk_move]. rewrite He.
  destruct (move_bucket_rep a m Hr He) as (a' & -> & Hr' & Eb & Ep & Ee). cbn [mbind outcome_bind].
  destruct (expanding a') eqn:He'.
  - destruct (IH a' Hr' He') as (a2 & E & Hr2 & He2 & Ep2); [rewrite Ep, Eb; lia|].
    exists a2. rewrite Ep2, Ep. done.
  - exists a'. split; [|done]. destruct n; cbn [replicate bulk_move]; by rewrite ?He'.
Qed.
End Expansion.

(** ** Iteration *)

Section Iteration.
Context (hash : list Z -> Z).

(** The rest of a locked bucket, and the step that leaves it. *)
Lemma iterate_drain a l b it next fuel :
  chain (items a) next l ->
  exists it', iterate_all (length l + S fuel) a (mkIter b true it next) =
    (rest ← iterate_all fuel a (mkIter (u32 (b + 1)) false it' None); Ret (l ++ rest)).
Proof.
  revert it next. induction l as [|p l IH]; intros it next Hc.
  - simpl in Hc. subst next. exists it. cbn [length Nat.add iterate_all assoc_iterate bucket_locked iter_next].
    cbn [mbind outcome_bind iter_bucket iter_it]. by destruct (iterate_all fuel _ _).
  - destruct Hc as (-> & n & Hn & Hc). destruct (IH (Some p) (h_next n) Hc) as [it' E].
    exists it'. cbn [length Nat.add iterate_all]. unfold assoc_iterate at 1.
    cbn [bucket_locked iter_next iter_bucket]. unfold node_at. rewrite Hn.
    cbn [deref mbind outcome_bind]. rewrite E. by destruct (iterate_all fuel _ _).
Qed.

(** A bucket that is not locked yet. *)
Lemma iterate_bucket a l b it nx o fuel :
  table_at a (InPrimary (Z.to_nat b)) = Some o -> chain (items a) o l ->
  b <> hashsize (hashpower a) ->
  exists it' nx', iterate_all (length l + S fuel) a (mkIter b false it nx) =
    (rest ← iterate_all fuel a (mkIter (u32 (b + 1)) false it' nx'); Ret (l ++ rest)).
Proof.
  intros Ho Hc Hb. destruct l as [|p l].
  - simpl in Hc. subst o. exists None, nx. cbn [length Nat.add iterate_all]. unfold assoc_iterate at 1.
    cbn [bucket_locked iter_bucket iter_next]. rewrite (proj2 (Z.eqb_neq _ _)) by done. cbn [negb].
    unfold read_slot. rewrite Ho. cbn [deref mbind outcome_bind]. by destruct (iterate_all fuel _ _).
  - destruct Hc as (-> & n & Hn & Hc). destruct (iterate_drain a l b (Some p) (h_next n) fuel Hc) as [it' E].
    exists it', None. cbn [length Nat.add iterate_all]. unfold assoc_iterate at 1.
    cbn [bucket_locked iter_bucket]. rewrite (proj2 (Z.eqb_neq _ _)) by done. cbn [negb].
    unfold read_slot. rewrite Ho. cbn [deref mbind outcome_bind]. unfold node_at. rewrite Hn.
    cbn [deref mbind outcome_bind]. rewrite E. by destruct (iterate_all fuel _ _).
Qed.

(** The items from bucket [b] on. *)
Lemma iterate_from (a : assoc) (m : gmap (list Z) positive) (k : nat) (b : Z) :
  represents hash a m -> expanding a = false -> 0 <= b -> b + Z.of_nat k = 2 ^ hashpower a ->
  exists ps, (forall it nx fuel, (length ps + k < fuel)%nat ->
                iterate_all fuel a (mkIter b false it nx) = Ret ps) /\
    NoDup ps /\
    forall p, p ∈ ps <->
      exists key i, m !! key = Some p /\ slot_of a (hash key) = InPrimary i /\ (Z.to_nat b <= i)%nat.
Proof.
  intros Hr He. pose proof Hr as [Hs Hc Hi]. pose proof Hs as [Hp Hl _].
  pose proof (Z.pow_le_mono_r 2 (hashpower a) 31 ltac:(lia) ltac:(lia)) as Hpow.
  assert (forall hv, exists i, slot_of a hv = InPrimary i /\ (i < length (primary_hashtable a))%nat) as Hslot.
  { intros hv. rewrite slot_of_spec, He by done. eexists. split; [reflexivity|].
    pose proof (Z.mod_pos_bound hv (2 ^ hashpower a) ltac:(lia)). lia. }
  revert b. induction k as [|k IH]; intros b Hb Hk.
  - exists []. split; [|split; [constructor|]].
    + intros it nx [|fuel] Hf; [lia|]. cbn [iterate_all]. unfold assoc_iterate.
      cbn [bucket_locked iter_bucket]. rewrite hashsize_pow by done.
      by rewrite (proj2 (Z.eqb_eq _ _)) by lia.
    + intros p. split; [by intros ?%not_elem_of_nil|]. intros (key & i & _ & Es & Hbi).
      destruct (Hslot (hash key)) as (i' & Es' & Hi'). rewrite Es in Es'. injection Es' as <-. lia.
  - destruct (lookup_lt_is_Some_2 (primary_hashtable a) (Z.to_nat b)) as [o Ho]; [lia|].
    destruct (Hc (InPrimary (Z.to_nat b)) o I Ho) as (l & Hcl & Hnd & Hm).
    destruct (IH (b + 1)) as (ps & Eps & Hndp & Hps); [lia|lia|].
    exists (l ++ ps). split_and!.
    + intros it nx fuel Hf. rewrite length_app in Hf.
      replace fuel with (length l + S (fuel - length l - 1))%nat by lia.
      destruct (iterate_bucket a l b it nx o (fuel - length l - 1) Ho Hcl) as (it' & nx' & ->).
      { rewrite hashsize_pow by done. lia. }
      rewrite u32_id by lia. rewrite Eps by lia. done.
    + apply NoDup_app. split; [done|]. split; [|done]. intros p (key & Hk1 & Es)%Hm.
      intros (key2 & i & Hk2 & Es2 & Hi2)%Hps.
      assert (key2 = key) as -> by by apply (rep_key_inj hash a m _ _ p).
      rewrite Es in Es2. injection Es2 as <-. lia.
    + intros p. rewrite elem_of_app, Hm, Hps. split.
      * intros [(key & Hk1 & Es)|(key & i & Hk1 & Es & Hi2)]; [by exists key, (Z.to_nat b)|].
        exists key, i. split; [done|]. split; [done|]. lia.
      * intros (key & i & Hk1 & Es & Hi2). destruct (decide (i = Z.to_nat b)) as [->|].
        -- left. by exists key.
        -- right. exists key, i. split; [done|]. split; [done|]. lia.
Qed.
End Iteration.

(** ** Runs *)

Lemma assoc_init_rep hash hp heap a :
  assoc_init hp true heap = Ret a -> represents hash a ∅ /\ items a = heap /\ expanding a = false.
Proof.
  unfold assoc_init. set (p := if hp =? 0 then HASHPOWER_DEFAULT else hp).
  destruct (Z.leb_spec 32 p), (Z.ltb_spec p 0); cbn [orb]; try discriminate. intros [= <-].
  split; [|done]. constructor.
  - constructor; simpl; [lia| |done]. rewrite length_replicate, hashsize_pow, Z2Nat.id by lia. done.
  - intros [i|i] o Hl Ho; [done|]. simpl in Ho. apply lookup_replicate in Ho as [-> _].
    exists []. split; [done|]. split; [constructor|]. intros q.
    split; [by intros ?%not_elem_of_nil|]. intros (k & Hk & _). by rewrite lookup_empty in Hk.
  - intros k q Hk. by rewrite lookup_empty in Hk.
Qed.

(** The states the server can bring the table into, with the map they stand for: insertions
    of items whose key is absent, deletions of present keys, and passes of the maintenance
    thread, in any order. *)
Inductive assoc_run (hash : list Z -> Z) : assoc -> gmap (list Z) positive -> Prop :=
| run_init hp heap a : assoc_init hp true heap = Ret a -> assoc_run hash a ∅
| run_insert a m p n a' :
    assoc_run hash a m -> items a !! p = Some n -> m !! it_key n = None ->
    (forall k, m !! k <> Some p) -> assoc_insert p (hash (it_key n)) a = Ret a' ->
    assoc_run hash a' (<[it_key n := p]> m)
| run_delete a m k a' :
    assoc_run hash a m -> is_Some (m !! k) -> assoc_delete k (hash k) a = Ret a' ->
    assoc_run hash a' (delete k m)
| run_maintenance a m locks granted a' :
    assoc_run hash a m -> maintenance_pass hash locks granted a = Ret a' -> assoc_run hash a' m.

Lemma maintenance_rep hash locks g a m a' :
  represents hash a m -> maintenance_pass hash locks g a = Ret a' -> represents hash a' m.
Proof.
  intros Hr. unfold maintenance_pass. destruct (bulk_move_rep hash locks a m Hr) as (a1 & -> & Hr1).
  cbn [mbind outcome_bind]. destruct (expanding a1) eqn:E; [by intros [= <-]|]. intros Ex.
  assert (hashpower a1 + 1 < 32).
  { unfold assoc_expand in Ex. destruct (Z.leb_spec 32 (hashpower a1 + 1)); [discriminate|lia]. }
  destruct (assoc_expand_rep hash g a1 m Hr1 E) as (a2 & E2 & Hr2 & _); [done|]. congruence.
Qed.

Lemma assoc_run_rep hash a m : assoc_run hash a m -> represents hash a m.
Proof.
  induction 1 as [hp heap a Ei|a m p n a' _ IH Hn Hk Hp Ea|a m k a' _ IH [p Hk] Ed|a m locks g a' _ IH Em].
  - by destruct (assoc_init_rep hash hp heap a Ei).
  - destruct (assoc_insert_rep hash a m (it_key n) p n IH Hk Hp Hn eq_refl) as (a2 & E2 & Hr). congruence.
  - destruct (assoc_delete_rep hash a m k p IH Hk) as (a2 & E2 & Hr & _). congruence.
  - by apply (maintenance_rep hash locks g a).
Qed.

(** ** The properties *)

(** C15: the hash table is a finite map, whatever the expansion is doing.  In every state
    reachable by insertions, deletions and maintenance passes, [assoc_find] returns the item
    last inserted for the key and not deleted since; inserting an absent key and deleting a
    present one succeed, and deleting an absent one trips the assertion. *)
Theorem assoc_is_a_map (hash : list Z -> Z) (a : assoc) (m : gmap (list Z) positive)
    (Hrun : assoc_run hash a m) :
  (forall k, assoc_find k (hash k) a = Ret (m !! k)) /\
  (forall p n, items a !! p = Some n -> m !! it_key n = None -> (forall k, m !! k <> Some p) ->
     exists a', assoc_insert p (hash (it_key n)) a = Ret a' /\
       forall k, assoc_find k (hash k) a' = Ret (if decide (k = it_key n) then Some p else m !! k)) /\
  (forall k, is_Some (m !! k) ->
     exists a', assoc_delete k (hash k) a = Ret a' /\
       forall k', assoc_find k' (hash k') a' = Ret (if decide (k' = k) then None else m !! k')) /\
  (forall k, m !! k = None -> assoc_delete k (hash k) a = Abort).
Proof.
  apply assoc_run_rep in Hrun as Hr. split_and!.
  - intros k. by apply assoc_find_rep.
  - intros p n Hn Hk Hp. destruct (assoc_insert_rep hash a m (it_key n) p n Hr Hk Hp Hn) as (a' & E & Hr'); [done|].
    exists a'. split; [done|]. intros k. rewrite (assoc_find_rep hash a' _ k Hr').
    case_decide as Ek; [by rewrite Ek, lookup_insert_eq|by rewrite lookup_insert_ne].
  - intros k [p Hk]. destruct (assoc_delete_rep hash a m k p Hr Hk) as (a' & E & Hr' & _).
    exists a'. split; [done|]. intros k'. rewrite (assoc_find_rep hash a' _ k' Hr').
    case_decide as Ek; [by rewrite Ek, lookup_delete_eq|by rewrite lookup_delete_ne].
  - intros k. by apply assoc_delete_absent.
Qed.

(** C40: expansion makes progress and loses nothing.  Starting an expansion and running the
    maintenance loop as often as there are old buckets, with the bucket locks free, ends the
    expansion with twice the buckets; every lookup gives the same answer after as before. *)
Theorem assoc_expansion_completes (hash : list Z -> Z) (a : assoc) (m : gmap (list Z) positive)
    (Hrun : assoc_run hash a m) (He : expanding a = false) (Hp : hashpower a + 1 < 32) :
  exists a1 a2, assoc_expand true a = Ret a1 /\ expanding a1 = true /\
    bulk_move hash (replicate (Z.to_nat (2 ^ hashpower a)) true) a1 = Ret a2 /\
    expanding a2 = false /\ hashpower a2 = hashpower a + 1 /\
    (forall k, assoc_find k (hash k) a1 = assoc_find k (hash k) a) /\
    (forall k, assoc_find k (hash k) a2 = assoc_find k (hash k) a).
Proof.
  apply assoc_run_rep in Hrun as Hr. pose proof (sh_power _ (rep_shape _ _ _ Hr)) as Hp0.
  destruct (assoc_expand_rep hash true a m Hr He Hp) as (a1 & E1 & Hr1 & He1 & _).
  assert (hashpower a1 = hashpower a + 1 /\ expand_bucket a1 = 0) as [Hp1 Hb1].
  { unfold assoc_expand in E1. rewrite (proj2 (Z.leb_gt _ _)) in E1 by lia. by injection E1 as <-. }
  destruct (bulk_move_done hash (Z.to_nat (2 ^ hashpower a)) a1 m Hr1 He1) as (a2 & E2 & Hr2 & He2 & Hp2).
  { rewrite Hp1, Hb1. replace (hashpower a + 1 - 1) with (hashpower a) by lia.
    pose proof (Z.pow_pos_nonneg 2 (hashpower a)). lia. }
  exists a1, a2. split_and!; try done; [congruence| |];
    intros k; rewrite (assoc_find_rep hash a m k Hr); by apply assoc_find_rep.
Qed.

(** Iteration visits every item once.  With no expansion in progress (the iterator holds
    the maintenance lock), the caller's loop ends and yields the items of the table, each
    exactly once. *)
Theorem assoc_iterate_all (hash : list Z -> Z) (a : assoc) (m : gmap (list Z) positive)
    (Hrun : assoc_run hash a m) (He : expanding a = false) :
  exists ps, iterate_all (Z.to_nat (2 ^ hashpower a) + S (size (items a))) a assoc_get_iterator = Ret ps /\
    NoDup ps /\ forall p, p ∈ ps <-> exists k, m !! k = Some p.
Proof.
  apply assoc_run_rep in Hrun as Hr. pose proof (sh_power _ (rep_shape _ _ _ Hr)) as Hp0.
  pose proof (Z.pow_pos_nonneg 2 (hashpower a)) as Hpos.
  destruct (iterate_from hash a m (Z.to_nat (2 ^ hashpower a)) 0 Hr He) as (ps & E & Hnd & Hps); [lia|lia|].
  assert (forall p, p ∈ ps <-> exists k, m !! k = Some p) as Hin.
  { intros p. rewrite Hps. split; [naive_solver|]. intros (k & Hk).
    pose proof (slot_of_spec a (hash k) (rep_shape _ _ _ Hr)) as Es. rewrite He in Es. simpl in Es.
    exists k, (Z.to_nat (hash k mod 2 ^ hashpower a)). split; [done|]. split; [done|]. lia. }
  exists ps. split; [|done]. apply E.
  assert (length ps <= size (items a))%nat; [|lia].
  rewrite <- size_dom, <- (size_list_to_set (C := gset positive)) by done. apply subseteq_size.
  intros p Hp%elem_of_list_to_set. apply Hin in Hp as (k & Hk).
  destruct (rep_items _ _ _ Hr _ _ Hk) as (n & Hn & _). apply elem_of_dom. by exists n.
Qed.

(** The limit on the hash power is one too high.  At hash power 31 the growth test still
    fires (its bound has wrapped to 2^30 items), and the expansion it asks for shifts 1 by 32. *)
Theorem assoc_expand_limit (a : assoc) (g : bool) (Hp : hashpower a = 31) :
  assoc_start_expand true (2 ^ 30 + 1) a = true /\ assoc_expand g a = Ub.
Proof. unfold assoc_start_expand, assoc_expand. rewrite Hp. split; reflexivity. Qed.

(** ** Witnesses *)

(** Two items with one-byte keys; the hash is the first byte. *)
Definition first_byte (k : list Z) : Z := match k with b :: _ => u8 b | [] => 0 end.
Definition sample_heap : gmap positive hnode :=
  {[ 1%positive := mkHnode [7] None; 2%positive := mkHnode [9] None ]}.
Definition sample_assoc : assoc :=
  match assoc_init 1 true sample_heap with
  | Ret a => match assoc_insert 1 (first_byte [7]) a with Ret a => a | _ => a end
  | _ => mkAssoc 0 [] [] false 0 ∅ (mkHashStats 0 0 false)
  end.

Lemma sample_assoc_run : assoc_run first_byte sample_assoc {[ [7] := 1%positive ]}.
Proof.
  change (assoc_run first_byte sample_assoc (<[it_key (mkHnode [7] None) := 1%positive]> ∅)).
  eapply run_insert.
  - eapply (run_init _ 1 sample_heap). reflexivity.
  - reflexivity.
  - reflexivity.
  - intros k. by rewrite lookup_empty.
  - reflexivity.
Qed.

Lemma assoc_is_a_map_witness :
  assoc_find [7] 7 sample_assoc = Ret (Some 1%positive) /\ assoc_find [9] 9 sample_assoc = Ret None.
Proof.
  destruct (assoc_is_a_map first_byte sample_assoc {[ [7] := 1%positive ]} sample_assoc_run) as (H & _).
  split; [exact (H [7])|exact (H [9])].
Defined.

Lemma assoc_expansion_completes_witness :
  exists a1 a2, assoc_expand true sample_assoc = Ret a1 /\ expanding a1 = true /\
    bulk_move first_byte (replicate 2 true) a1 = Ret a2 /\ expanding a2 = false /\ hashpower a2 = 2.
Proof.
  destruct (assoc_expansion_completes first_byte sample_assoc {[ [7] := 1%positive ]} sample_assoc_run)
    as (a1 & a2 & H1 & H2 & H3 & H4 & H5 & _).
  - reflexivity.
  - reflexivity.
  - exists a1, a2. split; [exact H1|]. split; [exact H2|]. split; [exact H3|]. split; [exact H4|exact H5].
Defined.

Lemma assoc_iterate_all_witness :
  exists ps, iterate_all 5 sample_assoc assoc_get_iterator = Ret ps /\ NoDup ps.
Proof.
  destruct (assoc_iterate_all first_byte sample_assoc {[ [7] := 1%positive ]} sample_assoc_run) as (ps & H1 & H2 & _).
  - reflexivity.
  - exists ps. split; [exact H1|exact H2].
Defined.

Lemma assoc_expand_limit_witness :
  assoc_expand true (mkAssoc 31 [] [] false 0 ∅ (mkHashStats 31 0 false)) = Ub.
Proof.
  refine (proj2 (assoc_expand_limit (mkAssoc 31 [] [] false 0 ∅ (mkHashStats 31 0 false)) true _)).
  reflexivity.
Defined.
