(* ===== verification/Base64.v ===== *)
(** * Base64 (src/memcached/base64.c)

    The encoding of binary keys in meta commands.  Output is written to a buffer whose size
    the caller states; the model writes to the real buffer, so that a wrong bound would be
    undefined behaviour.  Sizes are [size_t], 64 bits wide. *)

From S2P Require Import Prelude.
Local Open Scope c_scope.

(** The characters of the string constant, then its terminating zero. *)
Definition base64_table : list Z :=
  [65; 66; 67; 68; 69; 70; 71; 72; 73; 74; 75; 76; 77; 78; 79; 80;
   81; 82; 83; 84; 85; 86; 87; 88; 89; 90; 97; 98; 99; 100; 101; 102;
   103; 104; 105; 106; 107; 108; 109; 110; 111; 112; 113; 114; 115; 116; 117; 118;
   119; 120; 121; 122; 48; 49; 50; 51; 52; 53; 54; 55; 56; 57; 43; 47; 0].

Definition dtable : list Z :=
  [128; 128; 128; 128; 128; 128; 128; 128; 128; 128; 128; 128; 128; 128; 128; 128;
   128; 128; 128; 128; 128; 128; 128; 128; 128; 128; 128; 128; 128; 128; 128; 128;
   128; 128; 128; 128; 128; 128; 128; 128; 128; 128; 128; 62; 128; 128; 128; 63;
   52; 53; 54; 55; 56; 57; 58; 59; 60; 61; 128; 128; 128; 0; 128; 128;
   128; 0; 1; 2; 3; 4; 5; 6; 7; 8; 9; 10; 11; 12; 13; 14;
   15; 16; 17; 18; 19; 20; 21; 22; 23; 24; 25; 128; 128; 128; 128; 128;
   128; 26; 27; 28; 29; 30; 31; 32; 33; 34; 35; 36; 37; 38; 39; 40;
   41; 42; 43; 44; 45; 46; 47; 48; 49; 50; 51; 128; 128; 128; 128; 128;
   128; 128; 128; 128; 128; 128; 128; 128; 128; 128; 128; 128; 128; 128; 128; 128;
   128; 128; 128; 128; 128; 128; 128; 128; 128; 128; 128; 128; 128; 128; 128; 128;
   128; 128; 128; 128; 128; 128; 128; 128; 128; 128; 128; 128; 128; 128; 128; 128;
   128; 128; 128; 128; 128; 128; 128; 128; 128; 128; 128; 128; 128; 128; 128; 128;
   128; 128; 128; 128; 128; 128; 128; 128; 128; 128; 128; 128; 128; 128; 128; 128;
   128; 128; 128; 128; 128; 128; 128; 128; 128; 128; 128; 128; 128; 128; 128; 128;
   128; 128; 128; 128; 128; 128; 128; 128; 128; 128; 128; 128; 128; 128; 128; 128;
   128; 128; 128; 128; 128; 128; 128; 128; 128; 128; 128; 128; 128; 128; 128; 128].

Definition enc_char (i : Z) : Z := base64_table.[Z.to_nat i].
Definition dec_char (c : Z) : Z := dtable.[Z.to_nat c].
Definition pad_char : Z := 61.

(** ** Encoding *)

(** The required size, with the wrap-around of [size_t]. *)
Definition encode_olen (len : Z) : Z :=
  let olen := u64 (u64 (len * 4) / 3 + 4) in
  let olen := u64 (olen + olen / 72) in
  u64 (olen + 1).

(** The characters written, in order: three bytes at a time while at least three are left. *)
Fixpoint encode_loop (inp : list Z) : list Z :=
  match inp with
  | a :: b :: c :: rest =>
    enc_char (Z.shiftr a 2) ::
    enc_char (Z.lor (Z.shiftl (Z.land a 0x03) 4) (Z.shiftr b 4)) ::
    enc_char (Z.lor (Z.shiftl (Z.land b 0x0f) 2) (Z.shiftr c 6)) ::
    enc_char (Z.land c 0x3f) :: encode_loop rest
  | [a; b] =>
    [enc_char (Z.shiftr a 2);
     enc_char (Z.lor (Z.shiftl (Z.land a 0x03) 4) (Z.shiftr b 4));
     enc_char (Z.shiftl (Z.land b 0x0f) 2); pad_char]
  | [a] => [enc_char (Z.shiftr a 2); enc_char (Z.shiftl (Z.land a 0x03) 4); pad_char; pad_char]
  | [] => []
  end.

(** The return value and the buffer; [out] is null or a buffer, [out_len] the stated size. *)
Definition base64_encode (src : list Z) (len : nat) (out : option (list Z)) (out_len : Z)
  : outcome (Z * option (list Z)) :=
  let olen := encode_olen (Z.of_nat len) in
  if olen <? Z.of_nat len then Ret (0, out) else
  if out_len <? olen then Ret (0, out) else
  match out with
  | None => Ret (0, None)
  | Some buf =>
    inp ← read_bytes src len;
    let text := encode_loop inp in
    buf ← write_bytes buf 0 (text ++ [0]);
    Ret (Z.of_nat (length text), Some buf)
  end.

(** ** Decoding *)

(** The first pass: how many characters are of the alphabet (the padding included). *)
Definition decode_count (src : list Z) : nat :=
  length (filter (fun c => dec_char c <> 0x80) src).

(** Three bytes from a complete block. *)
Definition decode_block (b0 b1 b2 b3 : Z) : list Z :=
  [u8 (Z.lor (Z.shiftl b0 2) (Z.shiftr b1 4));
   u8 (Z.lor (Z.shiftl b1 4) (Z.shiftr b2 2));
   u8 (Z.lor (Z.shiftl b2 6) b3)].

(** The second pass: the bytes written to the buffer and the number returned.  [block] holds
    the pending characters, [written] the bytes so far; [pos--] only changes the number. *)
Fixpoint decode_loop (src : list Z) (block : list Z) (pad : nat) (written : list Z)
  : list Z * Z :=
  match src with
  | [] => (written, Z.of_nat (length written))
  | c :: src =>
    let tmp := dec_char c in
    if tmp =? 0x80 then decode_loop src block pad written else
    let pad := if c =? pad_char then S pad else pad in
    match block with
    | [b0; b1; b2] =>
      let written := written ++ decode_block b0 b1 b2 tmp in
      match pad with
      | O => decode_loop src [] pad written
      | 1%nat => (written, Z.of_nat (length written) - 1)
      | 2%nat => (written, Z.of_nat (length written) - 2)
      | _ => (written, 0)
      end
    | _ => decode_loop src (block ++ [tmp]) pad written
    end
  end.

Definition base64_decode (src : list Z) (len : nat) (out : option (list Z)) (out_len : Z)
  : outcome (Z * option (list Z)) :=
  src ← read_bytes src len;
  let count := decode_count src in
  if (count =? 0)%nat || negb (count mod 4 =? 0)%nat then Ret (0, out) else
  let olen := Z.of_nat (count / 4 * 3) in
  if out_len <? olen then Ret (0, out) else
  match out with
  | None => Ret (0, None)
  | Some buf =>
    let '(written, ret) := decode_loop src [] 0 [] in
    buf ← write_bytes buf 0 written;
    Ret (ret, Some buf)
  end.

(** ** Base64: round trip and buffer bounds *)

(** ** Induction three elements at a time *)

Lemma list_ind3 {A} (P : list A -> Prop) :
  P [] -> (forall a, P [a]) -> (forall a b, P [a; b]) ->
  (forall a b c l, P l -> P (a :: b :: c :: l)) -> forall l, P l.
Proof.
  intros H0 H1 H2 H3. fix IH 1. intros [|a [|b [|c l]]]; [done|by apply H1|by apply H2|].
  apply H3, IH.
Qed.

(** ** The alphabet *)

Lemma six_forall (f : Z -> bool) :
  forallb f (map Z.of_nat (seq 0 64)) = true -> forall i, 0 <= i < 64 -> f i = true.
Proof.
  intros H i Hi. rewrite forallb_forall in H. apply H. apply in_map_iff.
  exists (Z.to_nat i). split; [lia|]. apply in_seq. lia.
Qed.

Lemma enc_char_spec i :
  0 <= i < 64 -> dec_char (enc_char i) = i /\ enc_char i <> pad_char /\ byte_ok (enc_char i).
Proof.
  intros Hi.
  assert ((dec_char (enc_char i) =? i) && negb (enc_char i =? pad_char) &&
          ((0 <=? enc_char i) && (enc_char i <? 256)) = true) as E.
  { revert i Hi. apply (six_forall (fun i => (dec_char (enc_char i) =? i) && negb (enc_char i =? pad_char) &&
          ((0 <=? enc_char i) && (enc_char i <? 256)))). vm_compute. reflexivity. }
  apply andb_true_iff in E as [[E1%Z.eqb_eq E2]%andb_true_iff [E3%Z.leb_le E4%Z.ltb_lt]%andb_true_iff].
  split; [done|]. split; [|done]. intros E. by rewrite E in E2.
Qed.

Lemma dec_pad : dec_char pad_char = 0.
Proof. reflexivity. Qed.

(** ** Four characters carry three bytes *)

Definition sextet1 (a b : Z) : Z := Z.lor (Z.shiftl (Z.land a 0x03) 4) (Z.shiftr b 4).
Definition sextet2 (b c : Z) : Z := Z.lor (Z.shiftl (Z.land b 0x0f) 2) (Z.shiftr c 6).

Lemma sextets a b :
  byte_ok a -> byte_ok b ->
  0 <= Z.shiftr a 2 < 64 /\ 0 <= sextet1 a b < 64 /\ 0 <= sextet2 a b < 64 /\
  0 <= Z.land a 0x3f < 64 /\ 0 <= Z.shiftl (Z.land a 0x03) 4 < 64 /\ 0 <= Z.shiftl (Z.land a 0x0f) 2 < 64.
Proof.
  intros Ha Hb.
  pose (in64 x := (0 <=? x) && (x <? 64)).
  assert (in64 (Z.shiftr a 2) && in64 (sextet1 a b) && in64 (sextet2 a b) && in64 (Z.land a 0x3f) &&
          in64 (Z.shiftl (Z.land a 0x03) 4) && in64 (Z.shiftl (Z.land a 0x0f) 2) = true) as E.
  { revert a b Ha Hb. apply (byte_forall2 (fun a b => in64 (Z.shiftr a 2) && in64 (sextet1 a b) &&
      in64 (sextet2 a b) && in64 (Z.land a 0x3f) && in64 (Z.shiftl (Z.land a 0x03) 4) &&
      in64 (Z.shiftl (Z.land a 0x0f) 2))). vm_compute. reflexivity. }
  unfold in64 in E. rewrite !andb_true_iff, !Z.leb_le, !Z.ltb_lt in E. tauto.
Qed.

Lemma u8_lor x y : u8 (Z.lor x y) = Z.lor (u8 x) (u8 y).
Proof. unfold u8. rewrite <- !Z.land_ones by lia. apply Z.land_lor_distr_l. Qed.

Lemma byte0 a b : byte_ok a -> byte_ok b ->
  u8 (Z.lor (Z.shiftl (Z.shiftr a 2) 2) (Z.shiftr (sextet1 a b) 4)) = a.
Proof.
  apply (byte_forall2_eq
    (fun a b => u8 (Z.lor (Z.shiftl (Z.shiftr a 2) 2) (Z.shiftr (sextet1 a b) 4))) (fun a _ => a)).
  vm_compute. reflexivity.
Qed.

Lemma byte1_hi a b : byte_ok a -> byte_ok b -> u8 (Z.shiftl (sextet1 a b) 4) = Z.land b 0xf0.
Proof.
  apply (byte_forall2_eq (fun a b => u8 (Z.shiftl (sextet1 a b) 4)) (fun _ b => Z.land b 0xf0)).
  vm_compute. reflexivity.
Qed.

Lemma byte1_lo b c : byte_ok b -> byte_ok c -> u8 (Z.shiftr (sextet2 b c) 2) = Z.land b 0x0f.
Proof.
  apply (byte_forall2_eq (fun b c => u8 (Z.shiftr (sextet2 b c) 2)) (fun b _ => Z.land b 0x0f)).
  vm_compute. reflexivity.
Qed.

Lemma byte2 b c : byte_ok b -> byte_ok c ->
  u8 (Z.lor (Z.shiftl (sextet2 b c) 6) (Z.land c 0x3f)) = c.
Proof.
  apply (byte_forall2_eq (fun b c => u8 (Z.lor (Z.shiftl (sextet2 b c) 6) (Z.land c 0x3f))) (fun _ c => c)).
  vm_compute. reflexivity.
Qed.

Lemma nibbles b : byte_ok b -> Z.lor (Z.land b 0xf0) (Z.land b 0x0f) = b.
Proof. apply (byte_forall_eq (fun b => Z.lor (Z.land b 0xf0) (Z.land b 0x0f)) (fun b => b)). vm_compute. reflexivity. Qed.

Lemma block_round_trip a b c :
  byte_ok a -> byte_ok b -> byte_ok c ->
  decode_block (Z.shiftr a 2) (sextet1 a b) (sextet2 b c) (Z.land c 0x3f) = [a; b; c].
Proof.
  intros. unfold decode_block. rewrite byte0, byte2, u8_lor, byte1_hi, byte1_lo, nibbles by done. done.
Qed.

(** A short block decodes to its bytes and zeros. *)
Lemma block_round_trip2 a b :
  byte_ok a -> byte_ok b ->
  exists x, decode_block (Z.shiftr a 2) (sextet1 a b) (Z.shiftl (Z.land b 0x0f) 2) 0 = [a; b; x].
Proof.
  intros Ha Hb. assert (sextet2 b 0 = Z.shiftl (Z.land b 0x0f) 2) as E by apply Z.lor_0_r.
  pose proof (block_round_trip a b 0 Ha Hb) as Hr. rewrite E in Hr.
  exists 0. apply Hr. unfold byte_ok. lia.
Qed.

Lemma block_round_trip1 a :
  byte_ok a -> exists x y, decode_block (Z.shiftr a 2) (Z.shiftl (Z.land a 0x03) 4) 0 0 = [a; x; y].
Proof.
  intros Ha. assert (sextet1 a 0 = Z.shiftl (Z.land a 0x03) 4) as E by apply Z.lor_0_r.
  pose proof (block_round_trip a 0 0 Ha) as Hr. rewrite E in Hr.
  exists 0, 0. apply Hr; unfold byte_ok; lia.
Qed.

(** ** Decoding what was encoded *)

(** One character of the alphabet that is not the padding. *)
Lemma decode_step i src block W :
  0 <= i < 64 -> (length block < 3)%nat ->
  decode_loop (enc_char i :: src) block 0 W = decode_loop src (block ++ [i]) 0 W.
Proof.
  intros Hi Hb. destruct (enc_char_spec i Hi) as (E1 & E2 & _). cbn [decode_loop].
  rewrite E1, (proj2 (Z.eqb_neq i 0x80)), (proj2 (Z.eqb_neq _ _)) by (done || lia).
  destruct block as [|b0 [|b1 [|b2 block]]]; done || (simpl in Hb; lia).
Qed.

Lemma decode_encode src W :
  bytes_ok src ->
  exists g, decode_loop (encode_loop src) [] 0 W = (W ++ src ++ g, Z.of_nat (length (W ++ src))) /\
            (length g <= 2)%nat.
Proof.
  intros Hb. revert W Hb. induction src as [|a|a b|a b c src IH] using list_ind3; intros W Hb.
  - exists []. rewrite !app_nil_r. simpl. split; [done|lia].
  - apply Forall_cons_1 in Hb as [Ha _]. destruct (sextets a a Ha Ha) as (S0 & _ & _ & _ & S1 & _).
    destruct (block_round_trip1 a Ha) as (x & y & Ex). exists [x; y]. split; [|simpl; lia].
    cbn [encode_loop]. rewrite !decode_step by (done || simpl; lia). cbn [app decode_loop].
    rewrite dec_pad. cbn [Z.eqb]. rewrite Z.eqb_refl. cbn [app]. rewrite Ex. f_equal.
    rewrite !length_app. simpl. lia.
  - apply Forall_cons_1 in Hb as [Ha Hb]. apply Forall_cons_1 in Hb as [Hb _].
    destruct (sextets a b Ha Hb) as (S0 & S1 & _). destruct (sextets b b Hb Hb) as (_ & _ & _ & _ & _ & S2).
    destruct (block_round_trip2 a b Ha Hb) as (x & Ex). exists [x]. split; [|simpl; lia].
    cbn [encode_loop]. fold (sextet1 a b). rewrite !decode_step by (done || simpl; lia).
    cbn [app decode_loop]. rewrite dec_pad. cbn [Z.eqb]. rewrite Z.eqb_refl. cbn [app]. rewrite Ex. f_equal.
    rewrite !length_app. simpl. lia.
  - apply Forall_cons_1 in Hb as [Ha Hb]. apply Forall_cons_1 in Hb as [Hb Hc].
    apply Forall_cons_1 in Hc as [Hc Hs].
    destruct (sextets a b Ha Hb) as (S0 & S1 & _). destruct (sextets b c Hb Hc) as (_ & _ & S2 & _).
    destruct (sextets c c Hc Hc) as (_ & _ & _ & S3 & _).
    cbn [encode_loop]. fold (sextet1 a b) (sextet2 b c). rewrite !decode_step by (done || simpl; lia).
    destruct (enc_char_spec (Z.land c 0x3f) S3) as (E1 & E2 & _). cbn [app decode_loop].
    rewrite E1, (proj2 (Z.eqb_neq _ 0x80)), (proj2 (Z.eqb_neq _ _)) by (done || lia).
    rewrite block_round_trip by done.
    destruct (IH (W ++ [a; b; c]) Hs) as (g & E & Hg). exists g. split; [|done].
    rewrite E, <- !app_assoc. done.
Qed.

(** ** Sizes *)

Definition quads (len : nat) : nat := ((len + 2) / 3)%nat.

Lemma quads_S3 n : quads (S (S (S n))) = S (quads n).
Proof.
  unfold quads. replace (S (S (S n)) + 2)%nat with (n + 2 + 1 * 3)%nat by lia.
  rewrite Nat.div_add by lia. lia.
Qed.

Lemma length_encode src : length (encode_loop src) = (4 * quads (length src))%nat.
Proof.
  induction src as [|a|a b|a b c src IH] using list_ind3; [done..|].
  cbn [encode_loop length]. rewrite quads_S3, IH. lia.
Qed.

Lemma encode_valid src : bytes_ok src -> decode_count (encode_loop src) = length (encode_loop src).
Proof.
  assert (forall i l, 0 <= i < 64 -> decode_count (enc_char i :: l) = S (decode_count l)) as Hc.
  { intros i l Hi. unfold decode_count. rewrite filter_cons_True; [done|].
    destruct (enc_char_spec i Hi) as (-> & _). lia. }
  assert (forall l, decode_count (pad_char :: l) = S (decode_count l)) as Hp by done.
  intros Hb. induction src as [|a|a b|a b c src IH] using list_ind3; [done|..].
  - apply Forall_cons_1 in Hb as [Ha _]. destruct (sextets a a Ha Ha) as (S0 & _ & _ & _ & S1 & _).
    cbn [encode_loop length]. by rewrite !Hc, !Hp by done.
  - apply Forall_cons_1 in Hb as [Ha Hb]. apply Forall_cons_1 in Hb as [Hb _].
    destruct (sextets a b Ha Hb) as (S0 & S1 & _). destruct (sextets b b Hb Hb) as (_ & _ & _ & _ & _ & S2).
    cbn [encode_loop length]. fold (sextet1 a b). by rewrite !Hc, !Hp by done.
  - apply Forall_cons_1 in Hb as [Ha Hb]. apply Forall_cons_1 in Hb as [Hb Hc'].
    apply Forall_cons_1 in Hc' as [Hc' Hs].
    destruct (sextets a b Ha Hb) as (S0 & S1 & _). destruct (sextets b c Hb Hc') as (_ & _ & S2 & _).
    destruct (sextets c c Hc' Hc') as (_ & _ & _ & S3 & _).
    cbn [encode_loop length]. fold (sextet1 a b) (sextet2 b c). rewrite !Hc by done.
    by rewrite IH by done.
Qed.

Lemma encode_bytes src : bytes_ok src -> bytes_ok (encode_loop src).
Proof.
  assert (forall i, 0 <= i < 64 -> byte_ok (enc_char i)) as He by (intros; by apply enc_char_spec).
  assert (byte_ok pad_char) as Hp by (unfold byte_ok, pad_char; lia).
  intros Hb. induction src as [|a|a b|a b c src IH] using list_ind3; [constructor|..].
  - apply Forall_cons_1 in Hb as [Ha _]. destruct (sextets a a Ha Ha) as (S0 & _ & _ & _ & S1 & _).
    cbn [encode_loop]. repeat apply Forall_cons_2; auto; apply Forall_nil_2.
  - apply Forall_cons_1 in Hb as [Ha Hb]. apply Forall_cons_1 in Hb as [Hb _].
    destruct (sextets a b Ha Hb) as (S0 & S1 & _). destruct (sextets b b Hb Hb) as (_ & _ & _ & _ & _ & S2).
    cbn [encode_loop]. repeat apply Forall_cons_2; auto; apply Forall_nil_2.
  - apply Forall_cons_1 in Hb as [Ha Hb]. apply Forall_cons_1 in Hb as [Hb Hc'].
    apply Forall_cons_1 in Hc' as [Hc' Hs].
    destruct (sextets a b Ha Hb) as (S0 & S1 & _). destruct (sextets b c Hb Hc') as (_ & _ & S2 & _).
    destruct (sextets c c Hc' Hc') as (_ & _ & _ & S3 & _).
    cbn [encode_loop]. do 4 (apply Forall_cons_2; [by auto|]). by apply IH.
Qed.

(** The size the code asks for is enough for the text and its terminator. *)
Lemma encode_olen_enough len :
  Z.of_nat len < 2 ^ 61 ->
  Z.of_nat (4 * quads len) + 1 <= encode_olen (Z.of_nat len) /\ Z.of_nat len <= encode_olen (Z.of_nat len).
Proof.
  intros Hl. unfold encode_olen. rewrite (u64_id (_ * 4)) by lia.
  rewrite (u64_id (_ / 3 + 4)) by zdm. set (o := Z.of_nat len * 4 / 3 + 4).
  assert (0 <= o / 72 <= o) by (unfold o; zdm).
  assert (o <= 2 ^ 62) by (unfold o; zdm).
  rewrite (u64_id (o + o / 72)) by lia. rewrite u64_id by lia.
  assert (Z.of_nat (4 * quads len) <= o).
  { unfold o, quads. pose proof (Nat.div_mod_eq (len + 2) 3). pose proof (Nat.mod_upper_bound (len + 2) 3).
    zdm. }
  assert (Z.of_nat len <= o) by (unfold o; zdm). lia.
Qed.

Lemma base64_encode_ok src rest buf out_len :
  Z.of_nat (length src) < 2 ^ 61 -> encode_olen (Z.of_nat (length src)) <= out_len ->
  out_len <= Z.of_nat (length buf) ->
  base64_encode (src ++ rest) (length src) (Some buf) out_len =
  Ret (Z.of_nat (4 * quads (length src)), Some (splice buf 0 (encode_loop src ++ [0]))).
Proof.
  intros Hl Ho Hb. destruct (encode_olen_enough (length src) Hl) as [H1 H2].
  unfold base64_encode. rewrite !(proj2 (Z.ltb_ge _ _)) by lia.
  rewrite read_bytes_ok, take_app_length by (rewrite length_app; lia). cbn [mbind outcome_bind].
  rewrite write_bytes_ok by (rewrite length_snoc, length_encode; lia).
  by rewrite length_encode.
Qed.

(** ** What decoding writes *)

Lemma decode_loop_bound src block pad W :
  (length block <= 3)%nat ->
  let '(w, r) := decode_loop src block pad W in
  (length w <= length W + 3 * ((length block + decode_count src) / 4))%nat /\ 0 <= r <= Z.of_nat (length w).
Proof.
  revert block pad W. induction src as [|c src IH]; intros block pad W Hb; cbn [decode_loop].
  { split; [|lia]. lia. }
  unfold decode_count. destruct (Z.eqb_spec (dec_char c) 0x80) as [E|E].
  { rewrite filter_cons_False by lia. apply IH. done. }
  rewrite filter_cons_True by done. cbn [length]. fold (decode_count src).
  set (pad' := if c =? pad_char then S pad else pad).
  assert (forall blk, (length blk < 3)%nat ->
    let '(w, r) := decode_loop src (blk ++ [dec_char c]) pad' W in
    (length w <= length W + 3 * ((length blk + S (decode_count src)) / 4))%nat /\ 0 <= r <= Z.of_nat (length w))
    as Hshort.
  { intros blk Hblk. pose proof (IH (blk ++ [dec_char c]) pad' W) as H. rewrite length_snoc in H.
    replace (length blk + S (decode_count src))%nat with (S (length blk) + decode_count src)%nat by lia.
    apply H. lia. }
  destruct block as [|b0 [|b1 [|b2 [|b3 block]]]];
    [apply (Hshort []); simpl; lia|apply (Hshort [b0]); simpl; lia|apply (Hshort [b0; b1]); simpl; lia| |simpl in Hb; lia].
  set (W' := W ++ decode_block b0 b1 b2 (dec_char c)).
  assert (length W' = length W + 3)%nat as HW by (unfold W'; rewrite length_app; done).
  assert (length [b0; b1; b2] + S (decode_count src) = decode_count src + 1 * 4)%nat as -> by (simpl; lia).
  rewrite Nat.div_add by lia.
  destruct pad' as [|[|[|pad2]]]; [|rewrite HW; lia..].
  pose proof (IH [] 0%nat W') as H. destruct (decode_loop src [] 0 W') as [w r].
  destruct H as [H1 H2]; [simpl; lia|]. split; [|done]. cbn [length Nat.add] in H1. lia.
Qed.

Lemma base64_decode_ok src buf out_len :
  out_len <= Z.of_nat (length buf) ->
  exists ret buf', base64_decode src (length src) (Some buf) out_len = Ret (ret, Some buf') /\
    0 <= ret <= Z.max 0 out_len /\ length buf' = length buf.
Proof.
  intros Hb. unfold base64_decode. rewrite read_bytes_ok, take_ge by lia. cbn [mbind outcome_bind].
  destruct (_ || _); [by exists 0, buf; split; [|split; [lia|]]|].
  destruct (Z.ltb_spec out_len (Z.of_nat (decode_count src / 4 * 3))); [by exists 0, buf; split; [|split; [lia|]]|].
  pose proof (decode_loop_bound src [] 0 []) as Hd. destruct (decode_loop src [] 0 []) as [w r].
  destruct Hd as [H1 H2]; [simpl; lia|]. cbn [length Nat.add] in H1.
  rewrite write_bytes_ok by lia. exists r, (splice buf 0 w). split; [done|].
  split; [lia|]. apply length_splice. lia.
Qed.

(** ** The properties *)

(** Base64 round trip.  For any non-empty byte string shorter than 2^61, encoding it into a
    buffer of the size the code asks for returns the length of the text and terminates it with
    a zero byte, and decoding that text into a buffer that holds whole groups of three bytes
    returns the length of the string and leaves exactly the string at the start of the buffer. *)
Theorem base64_round_trip (src buf buf' : list Z) (Hb : bytes_ok src) (Hne : src <> [])
    (Hlen : Z.of_nat (length src) < 2 ^ 61)
    (Hbuf : encode_olen (Z.of_nat (length src)) <= Z.of_nat (length buf))
    (Hbuf' : (3 * quads (length src) <= length buf')%nat) :
  exists n text decoded,
    base64_encode src (length src) (Some buf) (Z.of_nat (length buf)) = Ret (Z.of_nat n, Some text) /\
    text !! n = Some 0 /\
    base64_decode text n (Some buf') (Z.of_nat (length buf')) =
      Ret (Z.of_nat (length src), Some decoded) /\
    take (length src) decoded = src.
Proof.
  pose proof (base64_encode_ok src [] buf (Z.of_nat (length buf)) Hlen Hbuf ltac:(lia)) as E.
  rewrite app_nil_r in E. destruct (encode_olen_enough (length src) Hlen) as [Ho _].
  set (t := encode_loop src) in *. assert (length t = 4 * quads (length src))%nat as Hlt by apply length_encode.
  assert (1 <= quads (length src))%nat as Hq.
  { destruct src; [done|]. apply Nat.div_str_pos. simpl. lia. }
  destruct (decode_encode src [] Hb) as (g & Ed & Hg). cbn [app] in Ed. fold t in Ed.
  exists (4 * quads (length src))%nat, (splice buf 0 (t ++ [0])), (splice buf' 0 (src ++ g)).
  split; [done|]. split.
  { rewrite splice_all by (rewrite length_snoc; lia). rewrite <- app_assoc, <- Hlt, lookup_app_r, Nat.sub_diag by lia. done. }
  assert (take (4 * quads (length src)) (splice buf 0 (t ++ [0])) = t) as Et.
  { rewrite splice_all by (rewrite length_snoc; lia). rewrite <- app_assoc. apply take_app_length'. lia. }
  split.
  - unfold base64_decode. rewrite read_bytes_ok, Et
      by (rewrite length_splice by (rewrite length_snoc; lia); lia).
    cbn [mbind outcome_bind]. unfold t. rewrite encode_valid by done. fold t. rewrite Hlt.
    rewrite (proj2 (Nat.eqb_neq _ _)) by lia. rewrite (Nat.mul_comm 4), Nat.Div0.mod_mul, Nat.div_mul by lia.
    cbn [Nat.eqb negb orb]. rewrite (proj2 (Z.ltb_ge _ _)) by lia. rewrite Ed.
    pose proof (decode_loop_bound t [] 0 []) as Hbd. rewrite Ed in Hbd.
    destruct Hbd as [Hbd _]; [simpl; lia|]. cbn [length Nat.add] in Hbd.
    unfold t in Hbd. rewrite encode_valid in Hbd by done. fold t in Hbd.
    rewrite Hlt, (Nat.mul_comm 4), Nat.div_mul in Hbd by lia.
    by rewrite write_bytes_ok by lia.
  - change (splice buf' 0 (src ++ g)) with ((src ++ g) ++ drop (length (src ++ g)) buf').
    rewrite <- app_assoc. apply take_app_length.
Qed.

(** Base64 buffer safety.  Whatever the input text, decoding into a buffer of at least
    [out_len] bytes writes inside the buffer and returns a length of at most [out_len]; encoding
    does the same, and refuses when the buffer is too small. *)
Theorem base64_in_bounds (src buf : list Z) (out_len : Z) (Hbuf : 0 <= out_len <= Z.of_nat (length buf))
    (Hlen : Z.of_nat (length src) < 2 ^ 61) :
  (exists ret buf', base64_decode src (length src) (Some buf) out_len = Ret (ret, Some buf') /\
     0 <= ret <= out_len /\ length buf' = length buf) /\
  (exists ret buf', base64_encode src (length src) (Some buf) out_len = Ret (ret, Some buf') /\
     0 <= ret <= out_len /\ length buf' = length buf).
Proof.
  split.
  - destruct (base64_decode_ok src buf out_len) as (ret & buf' & E & Hr & Hl); [lia|].
    exists ret, buf'. split; [done|]. split; [lia|done].
  - destruct (encode_olen_enough (length src) Hlen) as [H1 H2].
    destruct (Z.ltb_spec out_len (encode_olen (Z.of_nat (length src)))) as [E|E].
    + exists 0, buf. split; [|split; [lia|done]]. unfold base64_encode.
      by rewrite (proj2 (Z.ltb_ge _ (Z.of_nat _))), (proj2 (Z.ltb_lt _ _)) by lia.
    + pose proof (base64_encode_ok src [] buf out_len Hlen E ltac:(lia)) as Ee. rewrite app_nil_r in Ee.
      eexists _, _. split; [exact Ee|]. split; [lia|].
      apply length_splice. rewrite length_snoc, length_encode. lia.
Qed.

(** ** Witnesses *)

Lemma base64_round_trip_witness :
  exists n text decoded,
    base64_encode [77; 97] 2 (Some (replicate 20 0)) 20 = Ret (Z.of_nat n, Some text) /\
    text !! n = Some 0 /\ base64_decode text n (Some (replicate 3 0)) 3 = Ret (2, Some decoded) /\
    take 2 decoded = [77; 97].
Proof.
  refine (base64_round_trip [77; 97] (replicate 20 0) (replicate 3 0) _ _ _ _ _).
  - repeat constructor; discriminate.
  - discriminate.
  - vm_compute. reflexivity.
  - vm_compute. discriminate.
  - vm_compute. lia.
Defined.

Lemma base64_in_bounds_witness :
  exists ret buf', base64_decode [81; 81; 61; 61] 4 (Some [0; 0; 0; 0; 0]) 3 = Ret (ret, Some buf') /\
    0 <= ret <= 3 /\ length buf' = 5%nat.
Proof.
  refine (proj1 (base64_in_bounds [81; 81; 61; 61] [0; 0; 0; 0; 0] 3 _ _)).
  - simpl. lia.
  - vm_compute. reflexivity.
Defined.
