(* ===== verification/Bipbuffer.v ===== *)
(** * The bip buffer (src/memcached/bipbuffer.c, bipbuffer.h)

    The byte queue between worker threads and the logger.  It keeps two regions of one array:
    readers take from region A; once the room behind A is smaller than the room before it,
    writers fill region B at the start of the array, and B becomes A when A is drained.
    Cursors are 32-bit unsigned, the size is 64-bit, the results are [int]s. *)

From S2P Require Import Prelude.

Record bipbuf_t := mkBip {
  bb_size : Z; a_start : Z; a_end : Z; b_end : Z; b_inuse : bool; bb_data : list Z
}.

(** ** Operations *)

Definition bipbuf_unused (me : bipbuf_t) : Z :=
  if b_inuse me then i32 (u32 (a_start me - b_end me)) else i32 (u64 (bb_size me - a_end me)).

Definition bipbuf_size (me : bipbuf_t) : Z := i32 (bb_size me).

Definition bipbuf_used (me : bipbuf_t) : Z := i32 (u32 (u32 (a_end me - a_start me) + b_end me)).

(** [bipbuf_new] on a granted allocation: the cursors are reset, the data are indeterminate. *)
Definition bipbuf_init (size : Z) (data : list Z) : bipbuf_t := mkBip size 0 0 0 false data.

Definition bipbuf_new (granted : bool) (fill : nat -> Z) (size : Z) : option bipbuf_t :=
  if granted then Some (bipbuf_init size (map (fun i => u8 (fill i)) (seq 0 (Z.to_nat size)))) else None.

Definition bipbuf_is_empty (me : bipbuf_t) : bool := a_start me =? a_end me.

Definition check_for_switch_to_b (me : bipbuf_t) : bipbuf_t :=
  if u64 (bb_size me - a_end me) <? u32 (a_start me - b_end me)
  then mkBip (bb_size me) (a_start me) (a_end me) (b_end me) true (bb_data me)
  else me.

(** The offset of the free region, or null. *)
Definition bipbuf_request (me : bipbuf_t) (size : Z) : option Z :=
  if bipbuf_unused me <? size then None
  else Some (if b_inuse me then b_end me else a_end me).

(** [b_end += size] or [a_end += size]. *)
Definition advance_end (me : bipbuf_t) (size : Z) : bipbuf_t :=
  if b_inuse me
  then mkBip (bb_size me) (a_start me) (a_end me) (u32 (b_end me + size)) true (bb_data me)
  else mkBip (bb_size me) (a_start me) (u32 (a_end me + size)) (b_end me) false (bb_data me).

Definition bipbuf_push (me : bipbuf_t) (size : Z) : Z * bipbuf_t :=
  if bipbuf_unused me <? size then (0, me)
  else (size, check_for_switch_to_b (advance_end me size)).

(** The caller's write through the pointer of [bipbuf_request], or [memcpy] in [bipbuf_offer]. *)
Definition store_at (me : bipbuf_t) (off : Z) (data : list Z) : outcome bipbuf_t :=
  d ← write_bytes (bb_data me) (Z.to_nat off) data;
  Ret (mkBip (bb_size me) (a_start me) (a_end me) (b_end me) (b_inuse me) d).

Definition bipbuf_offer (me : bipbuf_t) (data : list Z) (size : Z) : outcome (Z * bipbuf_t) :=
  if bipbuf_unused me <? size then Ret (0, me) else
  if size <? 0 then Ub else
  src ← read_bytes data (Z.to_nat size);
  me ← store_at me (if b_inuse me then b_end me else a_end me) src;
  Ret (size, check_for_switch_to_b (advance_end me size)).

Definition bipbuf_peek (me : bipbuf_t) (size : Z) : option Z :=
  if bb_size me <? u32 (a_start me + size) then None
  else if bipbuf_is_empty me then None
  else Some (a_start me).

(** The offset and the number of bytes, or null. *)
Definition bipbuf_peek_all (me : bipbuf_t) : option (Z * Z) :=
  if bipbuf_is_empty me then None else Some (a_start me, u32 (a_end me - a_start me)).

Definition bipbuf_poll (me : bipbuf_t) (size : Z) : option Z * bipbuf_t :=
  if bipbuf_is_empty me then (None, me) else
  if bb_size me <? u32 (a_start me + size) then (None, me) else
  let start := u32 (a_start me + size) in
  let me' :=
    if start =? a_end me then
      if b_inuse me then mkBip (bb_size me) 0 (b_end me) 0 false (bb_data me)
      else mkBip (bb_size me) 0 0 (b_end me) false (bb_data me)
    else mkBip (bb_size me) start (a_end me) (b_end me) (b_inuse me) (bb_data me) in
  (Some (a_start me), check_for_switch_to_b me').

(** The reader's access through a returned pointer. *)
Definition bytes_at (me : bipbuf_t) (off n : Z) : list Z :=
  slice (bb_data me) (Z.to_nat off) (Z.to_nat n).

(** ** The queue *)

Definition region_a (me : bipbuf_t) : list Z := bytes_at me (a_start me) (a_end me - a_start me).
Definition region_b (me : bipbuf_t) : list Z := bytes_at me 0 (b_end me).

(** The bytes in the order in which they were offered. *)
Definition queue (me : bipbuf_t) : list Z := region_a me ++ region_b me.

Record bip_ok (me : bipbuf_t) : Prop := {
  bip_size : 0 <= bb_size me < 2 ^ 31;
  bip_data : Z.of_nat (length (bb_data me)) = bb_size me;
  bip_a : 0 <= a_start me <= a_end me /\ a_end me <= bb_size me;
  bip_b : if b_inuse me then 0 <= b_end me <= a_start me else b_end me = 0;
  bip_nonempty : a_start me = a_end me -> b_inuse me = false /\ a_start me = 0
}.

(** ** Lemmas *)

Lemma unused_spec me :
  bip_ok me ->
  bipbuf_unused me = (if b_inuse me then a_start me - b_end me else bb_size me - a_end me) /\
  0 <= bipbuf_unused me.
Proof.
  intros [Hs Hd Ha Hb _]. unfold bipbuf_unused. destruct (b_inuse me).
  - rewrite u32_id, i32_id by lia. lia.
  - rewrite u64_id, i32_id by lia. lia.
Qed.

Lemma used_spec me : bip_ok me -> bipbuf_used me = Z.of_nat (length (queue me)).
Proof.
  intros [Hs Hd Ha Hb _]. unfold bipbuf_used, queue, region_a, region_b, bytes_at, slice.
  rewrite length_app, !length_take, !length_drop.
  destruct (b_inuse me); rewrite !u32_id, i32_id by (rewrite ?u32_id; lia); lia.
Qed.

(** Slices of a spliced array. *)
Lemma slice_app {A} (l : list A) off n m : slice l off (n + m) = slice l off n ++ slice l (off + n) m.
Proof. unfold slice. by rewrite <- take_take_drop, drop_drop. Qed.

Lemma slice_splice_same d off src :
  (off + length src <= length d)%nat -> slice (splice d off src) off (length src) = src.
Proof.
  intros Hl. unfold slice, splice. rewrite drop_app_length' by (rewrite length_take; lia).
  by rewrite take_app_length.
Qed.

Lemma slice_splice_before d off src i n :
  (i + n <= off)%nat -> (off + length src <= length d)%nat -> slice (splice d off src) i n = slice d i n.
Proof.
  intros Hi Hl. unfold slice, splice. rewrite drop_app_le by (rewrite length_take; lia).
  rewrite take_app_le by (rewrite length_drop, length_take; lia).
  rewrite skipn_firstn_comm, take_take. f_equal. lia.
Qed.

Lemma slice_splice_after d off src i n :
  (off + length src <= i)%nat -> (off + length src <= length d)%nat ->
  slice (splice d off src) i n = slice d i n.
Proof.
  intros Hi Hl. unfold slice, splice. f_equal.
  rewrite app_assoc, drop_app_ge by (rewrite length_app, length_take; lia).
  rewrite drop_drop, length_app, length_take. f_equal. lia.
Qed.

(** Switching to region B changes nothing the queue shows. *)
Lemma switch_ok me :
  0 <= bb_size me < 2 ^ 31 -> Z.of_nat (length (bb_data me)) = bb_size me ->
  0 <= a_start me <= a_end me -> a_end me <= bb_size me ->
  (if b_inuse me then 0 <= b_end me <= a_start me else b_end me = 0) ->
  (a_start me = a_end me -> b_inuse me = false /\ a_start me = 0) ->
  bip_ok (check_for_switch_to_b me) /\ queue (check_for_switch_to_b me) = queue me.
Proof.
  intros Hs Hd Ha Ha2 Hb Hn. unfold check_for_switch_to_b.
  destruct (Z.ltb_spec (u64 (bb_size me - a_end me)) (u32 (a_start me - b_end me))) as [E|E].
  - split; [|done]. assert (0 <= b_end me <= a_start me) as Hb' by (destruct (b_inuse me); lia).
    rewrite u64_id, u32_id in E by lia. constructor; cbn [bb_size a_start a_end b_end b_inuse bb_data]; try done.
    intros E2. destruct (Hn E2) as [H1 H2]. rewrite H1 in Hb. lia.
  - split; [|done]. by constructor.
Qed.

Lemma bipbuf_offer_spec me data size :
  bip_ok me -> 0 <= size <= Z.of_nat (length data) -> 0 < size ->
  if bipbuf_unused me <? size then bipbuf_offer me data size = Ret (0, me)
  else exists me', bipbuf_offer me data size = Ret (size, me') /\ bip_ok me' /\
         queue me' = queue me ++ take (Z.to_nat size) data.
Proof.
  intros Hok Hsz Hpos. destruct (unused_spec me Hok) as [Eu Hu]. pose proof Hok as [Hs Hd Ha Hb Hn].
  unfold bipbuf_offer. destruct (Z.ltb_spec (bipbuf_unused me) size) as [E|E]; [done|].
  rewrite (proj2 (Z.ltb_ge size 0)) by lia. rewrite read_bytes_ok by lia. cbn [mbind outcome_bind].
  set (src := take (Z.to_nat size) data).
  assert (length src = Z.to_nat size) as Hsrc by (unfold src; rewrite length_take; lia).
  unfold store_at, queue, region_a, region_b, bytes_at. destruct (b_inuse me) eqn:Ebi.
  - rewrite write_bytes_ok by lia. cbn [mbind outcome_bind].
    eexists. split; [reflexivity|]. unfold advance_end. cbn [b_inuse bb_size a_start a_end b_end bb_data].
    rewrite u32_id by lia.
    destruct (switch_ok (mkBip (bb_size me) (a_start me) (a_end me) (b_end me + size) true
                           (splice (bb_data me) (Z.to_nat (b_end me)) src))) as [Hok' Hq];
      cbn [b_inuse bb_size a_start a_end b_end bb_data];
      [lia|rewrite length_splice; lia|lia|lia|lia|intros E2; destruct (Hn E2); congruence|].
    split; [done|]. unfold queue, region_a, region_b, bytes_at in Hq. rewrite Hq.
    cbn [a_start a_end b_end bb_data].
    rewrite slice_splice_after, <- app_assoc by lia. f_equal.
    replace (Z.to_nat (b_end me + size)) with (Z.to_nat (b_end me) + length src)%nat by lia.
    rewrite slice_app. change (Z.to_nat 0) with 0%nat.
    rewrite slice_splice_before, Nat.add_0_l, slice_splice_same by lia. done.
  - rewrite write_bytes_ok by lia. cbn [mbind outcome_bind].
    eexists. split; [reflexivity|]. unfold advance_end. cbn [b_inuse bb_size a_start a_end b_end bb_data].
    rewrite u32_id by lia. rewrite Hb.
    destruct (switch_ok (mkBip (bb_size me) (a_start me) (a_end me + size) 0 false
                           (splice (bb_data me) (Z.to_nat (a_end me)) src))) as [Hok' Hq];
      cbn [b_inuse bb_size a_start a_end b_end bb_data];
      [lia|rewrite length_splice; lia|lia|lia|lia|lia|].
    split; [done|]. unfold queue, region_a, region_b, bytes_at in Hq. rewrite Hq.
    cbn [a_start a_end b_end bb_data]. change (slice _ (Z.to_nat 0) (Z.to_nat 0)) with (@nil Z).
    change (slice (bb_data me) (Z.to_nat 0) (Z.to_nat 0)) with (@nil Z). rewrite !app_nil_r.
    replace (Z.to_nat (a_end me + size - a_start me)) with (Z.to_nat (a_end me - a_start me) + length src)%nat by lia.
    rewrite slice_app, slice_splice_before by lia. f_equal.
    replace (Z.to_nat (a_start me) + Z.to_nat (a_end me - a_start me))%nat with (Z.to_nat (a_end me)) by lia.
    apply slice_splice_same. lia.
Qed.

Lemma length_bytes_at me off n :
  0 <= off -> 0 <= n -> off + n <= Z.of_nat (length (bb_data me)) -> length (bytes_at me off n) = Z.to_nat n.
Proof. intros. unfold bytes_at, slice. rewrite length_take, length_drop. lia. Qed.

Lemma empty_queue me : bip_ok me -> bipbuf_is_empty me = true <-> queue me = [].
Proof.
  intros [Hs Hd Ha Hb Hn]. unfold bipbuf_is_empty, queue, region_a, region_b. rewrite Z.eqb_eq. split.
  - intros E. destruct (Hn E) as [E1 E2]. rewrite E1 in Hb. rewrite E, Z.sub_diag, Hb. done.
  - intros [E _]%app_nil. apply (f_equal length) in E. rewrite length_bytes_at in E by lia.
    simpl in E. lia.
Qed.

Lemma bipbuf_poll_spec me size :
  bip_ok me -> 0 < size <= a_end me - a_start me ->
  exists me', bipbuf_poll me size = (Some (a_start me), me') /\ bip_ok me' /\
    bytes_at me (a_start me) size = take (Z.to_nat size) (queue me) /\
    queue me' = drop (Z.to_nat size) (queue me).
Proof.
  intros Hok Hsz. pose proof Hok as [Hs Hd Ha Hb Hn]. unfold bipbuf_poll, bipbuf_is_empty.
  rewrite (proj2 (Z.eqb_neq _ _)) by lia. rewrite u32_id, (proj2 (Z.ltb_ge _ _)) by lia.
  assert (length (region_a me) = Z.to_nat (a_end me - a_start me)) as Hla
    by (apply length_bytes_at; lia).
  assert (bytes_at me (a_start me) size = take (Z.to_nat size) (queue me)) as Ht.
  { unfold queue. rewrite take_app_le by lia. unfold region_a, bytes_at, slice. rewrite take_take. f_equal. lia. }
  match goal with |- exists _, (_, ?X) = _ /\ _ =>
    cut (bip_ok X /\ queue X = drop (Z.to_nat size) (queue me)); [intros [? ?]; by exists X|] end.
  unfold queue at 2. rewrite drop_app_le by lia.
  destruct (Z.eqb_spec (a_start me + size) (a_end me)) as [E|E].
  - rewrite (drop_ge (region_a me)) by lia. destruct (b_inuse me) eqn:Eb.
    + destruct (switch_ok (mkBip (bb_size me) 0 (b_end me) 0 false (bb_data me))) as [H1 H2];
        cbn [bb_size a_start a_end b_end b_inuse bb_data]; [lia|lia|lia|lia|lia|auto|].
      split; [done|]. rewrite H2. unfold queue, region_a, region_b, bytes_at.
      cbn [a_start a_end b_end bb_data]. rewrite Z.sub_0_r. apply app_nil_r.
    + rewrite Hb. destruct (switch_ok (mkBip (bb_size me) 0 0 0 false (bb_data me))) as [H1 H2];
        cbn [bb_size a_start a_end b_end b_inuse bb_data]; [lia|lia|lia|lia|lia|auto|].
      split; [done|]. rewrite H2. unfold region_b. rewrite Hb. done.
  - destruct (switch_ok (mkBip (bb_size me) (a_start me + size) (a_end me) (b_end me) (b_inuse me) (bb_data me))) as [H1 H2];
      cbn [bb_size a_start a_end b_end b_inuse bb_data]; [lia|lia|lia|lia|destruct (b_inuse me); lia|lia|].
    split; [done|]. rewrite H2. unfold queue. f_equal.
    unfold region_a, bytes_at, slice. cbn [a_start a_end bb_data].
    rewrite skipn_firstn_comm, drop_drop. f_equal; [lia|]. f_equal. lia.
Qed.

(** ** Runs of a producer and a consumer *)

Inductive bip_op : Type :=
| OpOffer (data : list Z)
| OpPoll.

(** The consumer reads all of region A, as the logger does. *)
Definition bip_exec (op : bip_op) (me : bipbuf_t) : outcome (list Z * bipbuf_t) :=
  match op with
  | OpOffer data =>
    '(n, me) ← bipbuf_offer me data (Z.of_nat (length data));
    Ret (if n =? 0 then [] else data, me)
  | OpPoll =>
    match bipbuf_peek_all me with
    | None => Ret ([], me)
    | Some (off, n) =>
      let bytes := bytes_at me off n in
      let '(_, me) := bipbuf_poll me n in Ret (bytes, me)
    end
  end.

(** The bytes accepted from the producer and the bytes the consumer got. *)
Fixpoint bip_run (ops : list bip_op) (me : bipbuf_t) : outcome (list Z * list Z * bipbuf_t) :=
  match ops with
  | [] => Ret ([], [], me)
  | op :: ops =>
    '(bytes, me) ← bip_exec op me;
    '(sent, got, me) ← bip_run ops me;
    Ret (match op with OpOffer _ => (bytes ++ sent, got, me) | OpPoll => (sent, bytes ++ got, me) end)
  end.

Definition bip_op_ok (op : bip_op) : Prop :=
  match op with OpOffer data => data <> [] | OpPoll => True end.

Lemma bip_poll_exec me :
  bip_ok me -> exists bytes me', bip_exec OpPoll me = Ret (bytes, me') /\ bip_ok me' /\ queue me = bytes ++ queue me'.
Proof.
  intros Hok. pose proof Hok as [Hs Hd Ha Hb Hn]. unfold bip_exec, bipbuf_peek_all.
  destruct (bipbuf_is_empty me) eqn:E; [by exists [], me|].
  assert (a_start me <> a_end me) by (by apply Z.eqb_neq in E).
  rewrite u32_id by lia.
  destruct (bipbuf_poll_spec me (a_end me - a_start me) Hok) as (me' & -> & Hok' & Hb' & Hq); [lia|].
  eexists _, me'. split; [reflexivity|]. split; [done|]. rewrite Hb', Hq. symmetry. apply take_drop.
Qed.

Lemma bip_run_fifo ops me :
  bip_ok me -> Forall bip_op_ok ops ->
  exists sent got me', bip_run ops me = Ret (sent, got, me') /\ bip_ok me' /\
    queue me ++ sent = got ++ queue me'.
Proof.
  intros Hok Hops. revert me Hok. induction Hops as [|op ops Hop Hops IH]; intros me Hok.
  { exists [], [], me. by rewrite app_nil_r. }
  cbn [bip_run]. destruct op as [data|].
  - simpl in Hop. assert (0 < length data)%nat by (destruct data; [done|simpl; lia]).
    pose proof (bipbuf_offer_spec me data (Z.of_nat (length data)) Hok ltac:(lia) ltac:(lia)) as H0.
    cbn [bip_exec]. destruct (bipbuf_unused me <? Z.of_nat (length data)).
    + rewrite H0. cbn [mbind outcome_bind Z.eqb].
      destruct (IH me Hok) as (sent & got & me' & -> & Hok' & Hq). exists sent, got, me'. done.
    + destruct H0 as (me1 & -> & Hok1 & Hq1). cbn [mbind outcome_bind].
      rewrite (proj2 (Z.eqb_neq _ _)) by lia.
      destruct (IH me1 Hok1) as (sent & got & me' & -> & Hok' & Hq).
      exists (data ++ sent), got, me'. split; [done|]. split; [done|].
      rewrite Nat2Z.id, take_ge in Hq1 by lia. by rewrite app_assoc, <- Hq1.
  - destruct (bip_poll_exec me Hok) as (bytes & me1 & -> & Hok1 & Hq1). cbn [mbind outcome_bind].
    destruct (IH me1 Hok1) as (sent & got & me' & -> & Hok' & Hq).
    exists sent, (bytes ++ got), me'. split; [done|]. split; [done|].
    by rewrite Hq1, <- !app_assoc, Hq.
Qed.

(** ** The properties *)

(** The bip buffer is a lossless first-in first-out queue.  Starting from a new buffer of
    fewer than 2^31 bytes, any interleaving of offers and of reads of all contiguous data stays
    inside the array, and the bytes accepted so far are the bytes read so far followed by what
    the buffer still holds; [bipbuf_used] is the number of the latter. *)
Theorem bipbuf_fifo (size : Z) (fill : nat -> Z) (me : bipbuf_t) (ops : list bip_op)
    (Hsize : 0 <= size < 2 ^ 31) (Hnew : bipbuf_new true fill size = Some me)
    (Hops : Forall bip_op_ok ops) :
  exists sent got me', bip_run ops me = Ret (sent, got, me') /\
    sent = got ++ queue me' /\ bipbuf_used me' = Z.of_nat (length (queue me')).
Proof.
  injection Hnew as <-.
  set (me := bipbuf_init size _). assert (bip_ok me) as Hok.
  { constructor; simpl; try done; try lia. rewrite length_map, length_seq. lia. }
  destruct (bip_run_fifo ops me Hok Hops) as (sent & got & me' & E & Hok' & Hq).
  exists sent, got, me'. split; [done|]. split; [exact Hq|]. by apply used_spec.
Qed.

(** [bipbuf_poll] does not check how much there is.  It compares the request with the end of
    the array only, not with the end of the data, so asking for more than region A holds (but
    not more than the array) succeeds, hands out bytes that were never offered and moves the
    read cursor past the write cursor, after which the buffer reports a negative fill. *)
Theorem bipbuf_poll_overrun (me : bipbuf_t) (size : Z) (Hok : bip_ok me) (Hb : b_inuse me = false)
    (Hne : a_start me < a_end me) (Hsz : a_end me - a_start me < size) (Hfit : a_start me + size <= bb_size me) :
  exists me', bipbuf_poll me size = (Some (a_start me), me') /\
    a_end me' < a_start me' /\ bipbuf_used me' < 0.
Proof.
  destruct Hok as [Hs Hd Ha Hb2 Hn]. rewrite Hb in Hb2. unfold bipbuf_poll, bipbuf_is_empty.
  rewrite (proj2 (Z.eqb_neq (a_start me) _)) by lia. rewrite u32_id, (proj2 (Z.ltb_ge _ _)) by lia.
  rewrite (proj2 (Z.eqb_neq _ _)) by lia. eexists. split; [reflexivity|].
  unfold check_for_switch_to_b, bipbuf_used. cbn [bb_size a_start a_end b_end b_inuse bb_data].
  assert (i32 (u32 (u32 (a_end me - (a_start me + size)) + b_end me)) < 0) as Hneg.
  { rewrite Hb2, Z.add_0_r. assert (u32 (a_end me - (a_start me + size)) = a_end me - (a_start me + size) + 2 ^ 32) as ->.
    { unfold u32. symmetry. apply (Z.mod_unique_pos _ _ (-1)); lia. }
    rewrite u32_id by lia. unfold i32.
    rewrite <- (Z.mod_unique_pos _ (2 ^ 32) 1 (a_end me - (a_start me + size) + 2 ^ 31)) by lia. lia. }
  destruct (_ <? _); cbn [a_start a_end b_end]; split; try lia; exact Hneg.
Qed.

(** ** Witnesses *)

Lemma bipbuf_fifo_witness :
  exists sent got me', bip_run [OpOffer [1; 2; 3]; OpPoll; OpOffer [4; 5]; OpOffer [6]] (bipbuf_init 4 [0; 0; 0; 0]) =
    Ret (sent, got, me') /\ sent = got ++ queue me' /\ bipbuf_used me' = Z.of_nat (length (queue me')).
Proof.
  refine (bipbuf_fifo 4 (fun _ => 0) _ _ _ _ _).
  - lia.
  - reflexivity.
  - repeat constructor; discriminate.
Defined.

Lemma bipbuf_poll_overrun_witness :
  exists me', bipbuf_poll (mkBip 10 0 2 0 false (replicate 10 7)) 5 = (Some 0, me') /\
    a_end me' < a_start me' /\ bipbuf_used me' < 0.
Proof.
  refine (bipbuf_poll_overrun (mkBip 10 0 2 0 false (replicate 10 7)) 5 _ _ _ _ _).
  - constructor; simpl; try lia; reflexivity.
  - reflexivity.
  - simpl. lia.
  - simpl. lia.
  - simpl. lia.
Defined.
