(* ===== verification/Itoa.v ===== *)
(** * Decimal conversion (src/memcached/itoa_ljust.c)

    Numbers are printed two digits at a time from a table, with a [switch] that falls through.
    A function returns the characters it appended at [p]; the terminating zero that follows
    them is overwritten by the next call and not part of the result. *)

From S2P Require Import Prelude.
Local Open Scope c_scope.

(** The characters of a two-digit number, the content of [lut]. *)
Definition lut : list Z := concat (map (fun i => [48 + i / 10; 48 + i mod 10]) (seqZ 0 100)).

(** [memcpy(p, &((uint16_t * )lut)[d], 2)]. *)
Definition out2 (d : Z) : list Z := slice lut (Z.to_nat (2 * d)) 2.
Definition out1 (c : Z) : list Z := [c].

(** The new [n], [d] and the character printed, if any; [d] is 0 before. *)
Definition digits (u k n : Z) : Z * Z * list Z :=
  if u <? u32 (k * 10) then
    let d := u / k in (n - 1, d, out1 (48 + d))
  else (n, 0, []).

(** Falling through from [case n]: [print] prints two digits, [reduce] removes them. *)
Definition print (c : Z) (n : Z) (k : Z) (s : Z * Z * list Z) : Z * Z * list Z :=
  let '(u, d, text) := s in
  if c <=? n then let d := u / k in (u, d, text ++ out2 d) else s.

Definition reduce (c : Z) (n : Z) (k : Z) (s : Z * Z * list Z) : Z * Z * list Z :=
  let '(u, d, text) := s in
  if c <=? n then (u32 (u - d * k), d, text) else s.

Definition itoa (u d n : Z) : list Z :=
  let s := (u, d, []) in
  let s := print 10 n 100000000 s in
  let s := reduce 9 n 100000000 s in
  let s := print 8 n 1000000 s in
  let s := reduce 7 n 1000000 s in
  let s := print 6 n 10000 s in
  let s := reduce 5 n 10000 s in
  let s := print 4 n 100 s in
  let s := reduce 3 n 100 s in
  let s := print 2 n 1 s in
  s.2.

Definition itoa_u32 (u : Z) : list Z :=
  let '(n, d, text) :=
    if 100000000 <=? u then digits u 100000000 10
    else if u <? 100 then digits u 1 2
    else if u <? 10000 then digits u 100 4
    else if u <? 1000000 then digits u 10000 6
    else digits u 1000000 8 in
  text ++ itoa u d n.

Definition itoa_32 (i : Z) : list Z :=
  if i <? 0 then 45 :: itoa_u32 (u32 (- u32 i)) else itoa_u32 (u32 i).

(** Each recursive call divides by 10^9, so three levels are enough for 64 bits. *)
Fixpoint itoa_u64_rec (fuel : nat) (u : Z) : list Z :=
  let lower := u32 u in
  match fuel with
  | O => itoa_u32 lower
  | S fuel =>
    if lower =? u then itoa_u32 lower else
    let upper := u / 1000000000 in
    let text := itoa_u64_rec fuel upper in
    let lower := u32 (u64 (u - upper * 1000000000)) in
    let d := lower / 100000000 in
    text ++ out1 (48 + d) ++ itoa lower d 9
  end.

Definition itoa_u64 (u : Z) : list Z := itoa_u64_rec 3 u.

Definition itoa_64 (i : Z) : list Z :=
  if i <? 0 then 45 :: itoa_u64 (u64 (- u64 i)) else itoa_u64 (u64 i).

(** ** Decimal notation *)

(** The decimal digits of a number, most significant first; [fuel] bounds their count. *)
Fixpoint dec_fuel (fuel : nat) (u : Z) : list Z :=
  match fuel with
  | O => []
  | S fuel => if u <? 10 then [48 + u] else dec_fuel fuel (u / 10) ++ [48 + u mod 10]
  end.

Definition dec (u : Z) : list Z := dec_fuel 20 u.

(** The number a digit string stands for. *)
Definition undec (text : list Z) : Z := foldl (fun acc c => 10 * acc + (c - 48)) 0 text.

(** ** Lemmas *)

Lemma dec_fuel_enough n m u :
  0 <= u < 10 ^ Z.of_nat n -> 0 <= u < 10 ^ Z.of_nat m -> (0 < n)%nat -> (0 < m)%nat ->
  dec_fuel n u = dec_fuel m u.
Proof.
  revert m u. induction n as [|n IH]; intros m u Hn Hm Hn0 Hm0; [lia|]. destruct m as [|m]; [lia|].
  cbn [dec_fuel]. destruct (Z.ltb_spec u 10); [done|]. f_equal.
  rewrite !Nat2Z.inj_succ, !Z.pow_succ_r in * by lia.
  apply IH; try zdm.
  - destruct n; [simpl in Hn; lia|lia].
  - destruct m; [simpl in Hm; lia|lia].
Qed.

Lemma dec_fuel_S n u :
  dec_fuel (S n) u = if u <? 10 then [48 + u] else dec_fuel n (u / 10) ++ [48 + u mod 10].
Proof. reflexivity. Qed.

Lemma dec_small u : 0 <= u < 10 -> dec u = [48 + u].
Proof.
  intros Hu. change (dec u) with (dec_fuel (S 19) u).
  by rewrite dec_fuel_S, (proj2 (Z.ltb_lt _ _)) by lia.
Qed.

Lemma dec_step u : 10 <= u < 10 ^ 20 -> dec u = dec (u / 10) ++ [48 + u mod 10].
Proof.
  intros Hu. change (dec u) with (dec_fuel (S 19) u).
  rewrite dec_fuel_S, (proj2 (Z.ltb_ge _ _)) by lia.
  apply (f_equal (fun l => l ++ [48 + u mod 10])).
  assert (0 <= u / 10 < 10 ^ 19) by (split; [apply Z.div_pos; lia|apply Z.div_lt_upper_bound; lia]).
  unfold dec. apply (dec_fuel_enough 19 20); [exact H| |lia|lia].
  split; [lia|]. apply (Z.lt_trans _ (10 ^ 19)); [lia|reflexivity].
Qed.

Lemma out2_digits d : 0 <= d < 100 -> out2 d = [48 + d / 10; 48 + d mod 10].
Proof.
  intros Hd. assert (bool_decide (out2 d = [48 + d / 10; 48 + d mod 10]) = true) as E.
  { assert (forallb (fun d => bool_decide (out2 d = [48 + d / 10; 48 + d mod 10])) (map Z.of_nat (seq 0 100)) = true) as H
      by (vm_compute; reflexivity).
    rewrite forallb_forall in H. apply H, in_map_iff. exists (Z.to_nat d). split; [lia|]. apply in_seq. lia. }
  by apply bool_decide_eq_true in E.
Qed.

(** Two digits at a time. *)
Lemma dec_step2 u : 100 <= u < 10 ^ 20 -> dec u = dec (u / 100) ++ out2 (u mod 100).
Proof.
  intros Hu. rewrite dec_step by lia.
  assert (10 <= u / 10 < 10 ^ 20) by (split; [apply Z.div_le_lower_bound; lia|apply Z.div_lt_upper_bound; lia]).
  rewrite dec_step by done. rewrite <- app_assoc.
  rewrite out2_digits by zdm. replace (u / 10 / 10) with (u / 100) by zdm.
  replace (u / 10 mod 10) with (u mod 100 / 10) by zdm. by replace (u mod 10) with (u mod 100 mod 10) by zdm.
Qed.

Lemma dec_two u : 10 <= u < 100 -> dec u = out2 u.
Proof.
  intros Hu. rewrite dec_step, dec_small, out2_digits by zdm. done.
Qed.

(** [m] pairs of digits. *)
Fixpoint pairs (m : nat) (x : Z) : list Z :=
  match m with
  | O => []
  | S m => pairs m (x / 100) ++ out2 (x mod 100)
  end.

Lemma dec_pairs m u :
  100 ^ Z.of_nat m <= u < 10 ^ 20 -> dec u = dec (u / 100 ^ Z.of_nat m) ++ pairs m (u mod 100 ^ Z.of_nat m).
Proof.
  revert u. induction m as [|m IH]; intros u Hu.
  { cbn [pairs]. rewrite app_nil_r. change (100 ^ Z.of_nat 0) with 1. by rewrite Z.div_1_r. }
  rewrite Nat2Z.inj_succ, Z.pow_succ_r in * by lia.
  assert (0 < 100 ^ Z.of_nat m) as Hp by (apply Z.pow_pos_nonneg; lia). set (p := 100 ^ Z.of_nat m) in *.
  rewrite dec_step2 by nia. rewrite IH.
  2: { split; [apply Z.div_le_lower_bound; lia|apply Z.div_lt_upper_bound; lia]. }
  rewrite <- app_assoc. cbn [pairs].
  rewrite <- (Z.div_div u 100 p), Z.rem_mul_r by lia. f_equal.
  pose proof (Z.mod_pos_bound u 100 ltac:(lia)) as Hr.
  set (r := u mod 100) in *. set (x := (u / 100) mod p).
  replace ((r + 100 * x) / 100) with x by zdm. by replace ((r + 100 * x) mod 100) with r by zdm.
Qed.

Lemma reduce_mod u k : 0 <= u < 2 ^ 32 -> 0 < k -> u32 (u - u / k * k) = u mod k.
Proof.
  intros Hu Hk. rewrite Z.mod_eq, (Z.mul_comm k) by lia. apply u32_id.
  pose proof (Z.mul_div_le u k Hk). pose proof (Z.div_pos u k). nia.
Qed.

(** What the fall-through prints, by the case it starts at. *)
Ltac run_itoa :=
  intros Hu; cbv beta iota zeta delta [itoa print reduce Z.leb Z.compare Pos.compare Pos.compare_cont snd];
  rewrite ?reduce_mod by zdm; cbn [pairs app]; rewrite ?Z.div_1_r, ?app_nil_l, <- ?app_assoc;
  repeat (apply (f_equal2 app)); try reflexivity; apply (f_equal out2); zdm.

Lemma itoa_1 u d : itoa u d 1 = [].
Proof. reflexivity. Qed.

Lemma itoa_2 u d : 0 <= u < 100 -> itoa u d 2 = out2 u.
Proof. run_itoa. Qed.

Lemma itoa_3 u : 0 <= u < 2 ^ 32 -> itoa u (u / 100) 3 = pairs 1 (u mod 100).
Proof. run_itoa. Qed.

Lemma itoa_4 u d : 0 <= u < 2 ^ 32 -> itoa u d 4 = out2 (u / 100) ++ pairs 1 (u mod 100).
Proof. run_itoa. Qed.

Lemma itoa_5 u : 0 <= u < 2 ^ 32 -> itoa u (u / 10000) 5 = pairs 2 (u mod 10000).
Proof. run_itoa. Qed.

Lemma itoa_6 u d : 0 <= u < 2 ^ 32 -> itoa u d 6 = out2 (u / 10000) ++ pairs 2 (u mod 10000).
Proof. run_itoa. Qed.

Lemma itoa_7 u : 0 <= u < 2 ^ 32 -> itoa u (u / 1000000) 7 = pairs 3 (u mod 1000000).
Proof. run_itoa. Qed.

Lemma itoa_8 u d : 0 <= u < 2 ^ 32 -> itoa u d 8 = out2 (u / 1000000) ++ pairs 3 (u mod 1000000).
Proof. run_itoa. Qed.

Lemma itoa_9 u : 0 <= u < 2 ^ 32 -> itoa u (u / 100000000) 9 = pairs 4 (u mod 100000000).
Proof. run_itoa. Qed.

Lemma itoa_10 u d : 0 <= u < 2 ^ 32 -> itoa u d 10 = out2 (u / 100000000) ++ pairs 4 (u mod 100000000).
Proof. run_itoa. Qed.

Lemma dec_split m k u :
  100 ^ Z.of_nat m = k -> k <= u < 2 ^ 32 ->
  dec u = dec (u / k) ++ pairs m (u mod k).
Proof. intros <- Hu. apply dec_pairs. split; [lia|]. apply (Z.lt_trans _ (2 ^ 32)); [lia|reflexivity]. Qed.

(** The two branches of [digits]: one leading digit, or a leading pair. *)
Lemma itoa_range m k n u :
  100 ^ Z.of_nat m = k -> k * 10 < 2 ^ 32 -> 0 <= n ->
  k <= u < 2 ^ 32 -> u < 100 * k ->
  itoa u (u / k) (n - 1) = pairs m (u mod k) ->
  (forall d, itoa u d n = out2 (u / k) ++ pairs m (u mod k)) ->
  (let '(n, d, text) := digits u k n in text ++ itoa u d n) = dec u.
Proof.
  intros Hk H10 Hn Hu Hu2 Ho He. assert (0 < k) by (subst k; apply Z.pow_pos_nonneg; lia).
  rewrite (dec_split m k u Hk Hu). unfold digits. rewrite u32_id by lia.
  destruct (Z.ltb_spec u (k * 10)) as [E|E].
  - rewrite Ho, dec_small; [done|]. split; [apply Z.div_pos; lia|apply Z.div_lt_upper_bound; lia].
  - rewrite He, dec_two; [done|]. split; [apply Z.div_le_lower_bound; lia|apply Z.div_lt_upper_bound; lia].
Qed.

Lemma itoa_u32_dec u : 0 <= u < 2 ^ 32 -> itoa_u32 u = dec u.
Proof.
  intros Hu. unfold itoa_u32. destruct (Z.leb_spec 100000000 u).
  { apply (itoa_range 4 100000000 10); try done; try lia; [by apply itoa_9|intros; by apply itoa_10]. }
  destruct (Z.ltb_spec u 100).
  { unfold digits. change (u32 (1 * 10)) with 10. destruct (Z.ltb_spec u 10).
    - rewrite dec_small, Z.div_1_r by lia. reflexivity.
    - rewrite itoa_2, dec_two by lia. reflexivity. }
  destruct (Z.ltb_spec u 10000).
  { apply (itoa_range 1 100 4); try done; try lia; [by apply itoa_3|intros; by apply itoa_4]. }
  destruct (Z.ltb_spec u 1000000).
  { apply (itoa_range 2 10000 6); try done; try lia; [by apply itoa_5|intros; by apply itoa_6]. }
  apply (itoa_range 3 1000000 8); try done; try lia; [by apply itoa_7|intros; by apply itoa_8].
Qed.

(** ** 64 bits *)

Lemma dec_nine u :
  10 ^ 9 <= u < 10 ^ 20 ->
  dec u = dec (u / 10 ^ 9) ++ [48 + u mod 10 ^ 9 / 10 ^ 8] ++ pairs 4 (u mod 10 ^ 8).
Proof.
  intros Hu. rewrite (dec_pairs 4) by (simpl Z.of_nat; lia). change (100 ^ Z.of_nat 4) with (10 ^ 8).
  rewrite dec_step.
  2: { split; [apply Z.div_le_lower_bound; lia|apply Z.div_lt_upper_bound; lia]. }
  rewrite <- app_assoc. change (10 ^ 9) with (10 ^ 8 * 10). rewrite Z.div_div by lia. do 3 f_equal.
  rewrite Z.rem_mul_r by lia. rewrite (Z.mul_comm (10 ^ 8)), Z.div_add by lia.
  rewrite (Z.div_small (u mod 10 ^ 8)); [lia|]. apply Z.mod_pos_bound. lia.
Qed.

Lemma itoa_u64_rec_dec fuel u :
  0 <= u < 2 ^ 32 * 10 ^ (9 * Z.of_nat fuel) -> u < 2 ^ 64 -> itoa_u64_rec fuel u = dec u.
Proof.
  revert u. induction fuel as [|fuel IH]; intros u Hu H64.
  - cbn [itoa_u64_rec]. change (10 ^ (9 * Z.of_nat 0)) with 1 in Hu. rewrite u32_id by lia. apply itoa_u32_dec. lia.
  - cbn [itoa_u64_rec]. destruct (Z.eqb_spec (u32 u) u) as [E|E].
    { rewrite E. apply itoa_u32_dec. pose proof (u32_range u). lia. }
    assert (2 ^ 32 <= u) as Hbig.
    { destruct (Z.ltb_spec u (2 ^ 32)); [|done]. rewrite u32_id in E by lia. done. }
    change 1000000000 with (10 ^ 9). change 100000000 with (10 ^ 8).
    replace (u - u / 10 ^ 9 * 10 ^ 9) with (u mod 10 ^ 9) by (rewrite Z.mod_eq by lia; lia).
    pose proof (Z.mod_pos_bound u (10 ^ 9) ltac:(lia)) as Hm.
    rewrite u64_id by lia. rewrite u32_id by lia.
    rewrite Nat2Z.inj_succ, Z.mul_succ_r, Z.pow_add_r in Hu by lia.
    assert (0 <= u / 10 ^ 9 < 2 ^ 64) by (split; [apply Z.div_pos; lia|apply Z.div_lt_upper_bound; lia]).
    rewrite IH; [|split; [lia|apply Z.div_lt_upper_bound; lia]|lia].
    rewrite (dec_nine u) by (split; [|apply (Z.lt_trans _ (2 ^ 64)); [|reflexivity]]; lia). f_equal. unfold out1. f_equal.
    change (10 ^ 8) with 100000000 at 1. rewrite itoa_9 by lia.
    f_equal. change (10 ^ 9) with (100000000 * 10). rewrite Z.rem_mul_r by lia.
    rewrite (Z.mul_comm 100000000), Z.mod_add, Z.mod_mod by lia. done.
Qed.

Lemma itoa_u64_dec u : 0 <= u < 2 ^ 64 -> itoa_u64 u = dec u.
Proof.
  intros Hu. apply itoa_u64_rec_dec; [|lia]. split; [lia|].
  apply (Z.lt_trans _ (2 ^ 64)); [lia|reflexivity].
Qed.

(** Reading the digits back, and how many there are. *)
Lemma undec_snoc l c : undec (l ++ [c]) = 10 * undec l + (c - 48).
Proof. unfold undec. by rewrite foldl_app. Qed.

Lemma dec_fuel_spec n u :
  0 <= u < 10 ^ Z.of_nat n -> (0 < n)%nat ->
  undec (dec_fuel n u) = u /\ (length (dec_fuel n u) <= n)%nat /\
  Forall (fun c => 48 <= c <= 57) (dec_fuel n u) /\
  (0 < u -> exists c l, dec_fuel n u = c :: l /\ c <> 48).
Proof.
  revert u. induction n as [|n IH]; intros u Hu Hn; [lia|]. rewrite dec_fuel_S.
  destruct (Z.ltb_spec u 10) as [E|E].
  - split_and!; [unfold undec; simpl; lia|simpl; lia|repeat constructor; lia|].
    intros Hp. exists (48 + u), []. split; [done|]. lia.
  - rewrite Nat2Z.inj_succ, Z.pow_succ_r in Hu by lia. assert (0 < n)%nat by (destruct n; [simpl in Hu|]; lia).
    destruct (IH (u / 10)) as (I1 & I2 & I3 & I4);
      [split; [apply Z.div_pos; lia|apply Z.div_lt_upper_bound; lia]|done|].
    assert (0 < u / 10) as Hp by (apply Z.div_str_pos; lia).
    split_and!.
    + rewrite undec_snoc, I1. zdm.
    + rewrite length_snoc. lia.
    + apply Forall_app. split; [done|]. repeat constructor; zdm.
    + intros _. destruct (I4 Hp) as (c & l & -> & Hc). by exists c, (l ++ [48 + u mod 10]).
Qed.

(** ** The properties *)

(** [itoa_u32] and [itoa_u64] print the decimal notation of their argument, for every value
    of the type: reading the digits gives the number back, there is no leading zero except for
    zero itself, and at most 20 characters are written. *)
Theorem itoa_unsigned (u : Z) (Hu : 0 <= u < 2 ^ 64) :
  (u < 2 ^ 32 -> itoa_u32 u = itoa_u64 u) /\ undec (itoa_u64 u) = u /\
  Forall (fun c => 48 <= c <= 57) (itoa_u64 u) /\ (length (itoa_u64 u) <= 20)%nat /\
  (0 < u -> exists c l, itoa_u64 u = c :: l /\ c <> 48) /\ itoa_u64 0 = [48].
Proof.
  rewrite (itoa_u64_dec u Hu). assert (0 <= u < 10 ^ Z.of_nat 20) as H20
    by (split; [lia|]; apply (Z.lt_trans _ (2 ^ 64)); [lia|reflexivity]).
  destruct (dec_fuel_spec 20 u H20 ltac:(lia)) as (I1 & I2 & I3 & I4).
  split_and!; try assumption; [|reflexivity]. intros H32. apply itoa_u32_dec. lia.
Qed.

(** [itoa_32] and [itoa_64] print signed numbers: a minus sign and the magnitude, for every
    value of the type, the most negative one included. *)
Theorem itoa_signed (i : Z) :
  (- 2 ^ 31 <= i < 2 ^ 31 -> itoa_32 i = if i <? 0 then 45 :: itoa_u32 (- i) else itoa_u32 i) /\
  (- 2 ^ 63 <= i < 2 ^ 63 -> itoa_64 i = if i <? 0 then 45 :: itoa_u64 (- i) else itoa_u64 i).
Proof.
  split; intros Hi; unfold itoa_32, itoa_64; destruct (Z.ltb_spec i 0).
  - do 2 f_equal. unfold u32. symmetry.
    apply (Z.mod_unique_pos _ _ (-1)); [lia|]. rewrite <- (Z.mod_unique_pos i (2 ^ 32) (-1) (i + 2 ^ 32)); lia.
  - by rewrite u32_id by lia.
  - do 2 f_equal. unfold u64. symmetry.
    apply (Z.mod_unique_pos _ _ (-1)); [lia|]. rewrite <- (Z.mod_unique_pos i (2 ^ 64) (-1) (i + 2 ^ 64)); lia.
  - by rewrite u64_id by lia.
Qed.

(** ** Witnesses *)

Lemma itoa_unsigned_witness : undec (itoa_u64 18446744073709551615) = 18446744073709551615.
Proof. refine (proj1 (proj2 (itoa_unsigned 18446744073709551615 _))). lia. Defined.

Lemma itoa_signed_witness : itoa_32 (-2147483648) = 45 :: itoa_u32 2147483648.
Proof. refine (proj1 (itoa_signed (-2147483648)) _). lia. Defined.
