(* ===== verification/Jenkins.v ===== *)
(** * Bob Jenkins' hash (src/memcached/jenkins_hash.c)

    The function reads its key in 32-bit words when the pointer is aligned to four bytes, in
    16-bit words when it is aligned to two, and byte by byte otherwise; there is a little-
    and a big-endian version of it, and a version of the aligned path for runs under
    valgrind.  [k] is the memory from the key on, [u] the address of the key, and a read
    beyond the memory is undefined.  [jenkins_spec] is the hash of the bytes of the key
    alone; all the paths compute it. *)

From S2P Require Import Prelude.

(** The internal state [(a, b, c)]. *)
Definition abc : Type := Z * Z * Z.

Definition rot (x k : Z) : Z := Z.lxor (u32 (Z.shiftl x k)) (Z.shiftr x (32 - k)).

Definition mix (s : abc) : abc :=
  let '(a, b, c) := s in
  let a := u32 (a - c) in let a := Z.lxor a (rot c 4) in let c := u32 (c + b) in
  let b := u32 (b - a) in let b := Z.lxor b (rot a 6) in let a := u32 (a + c) in
  let c := u32 (c - b) in let c := Z.lxor c (rot b 8) in let b := u32 (b + a) in
  let a := u32 (a - c) in let a := Z.lxor a (rot c 16) in let c := u32 (c + b) in
  let b := u32 (b - a) in let b := Z.lxor b (rot a 19) in let a := u32 (a + c) in
  let c := u32 (c - b) in let c := Z.lxor c (rot b 4) in let b := u32 (b + a) in
  (a, b, c).

Definition final (s : abc) : abc :=
  let '(a, b, c) := s in
  let c := Z.lxor c b in let c := u32 (c - rot b 14) in
  let a := Z.lxor a c in let a := u32 (a - rot c 11) in
  let b := Z.lxor b a in let b := u32 (b - rot a 25) in
  let c := Z.lxor c b in let c := u32 (c - rot b 16) in
  let a := Z.lxor a c in let a := u32 (a - rot c 4) in
  let b := Z.lxor b a in let b := u32 (b - rot a 14) in
  let c := Z.lxor c b in let c := u32 (c - rot b 24) in
  (a, b, c).

(** [a += v], [b += v], [c += v]. *)
Definition add_a (v : outcome Z) (s : abc) : outcome abc :=
  x ← v; let '(a, b, c) := s in Ret (u32 (a + x), b, c).
Definition add_b (v : outcome Z) (s : abc) : outcome abc :=
  x ← v; let '(a, b, c) := s in Ret (a, u32 (b + x), c).
Definition add_c (v : outcome Z) (s : abc) : outcome abc :=
  x ← v; let '(a, b, c) := s in Ret (a, b, u32 (c + x)).

(** Statements in sequence. *)
Notation "s1 ;;> s2" := (fun s : abc => s' ← s1 s; s2 s')
  (at level 90, right associativity, only parsing).

(** ** Memory reads *)

(** [k8[i]], [((uint16_t * )k)[i]] and [((uint32_t * )k)[i]]. *)
Definition rd8 (k : list Z) (i : nat) : outcome Z := deref (k !! i).
Definition rd16 (ld : list Z -> Z) (k : list Z) (i : nat) : outcome Z :=
  bs ← read_bytes (drop (2 * i) k) 2; Ret (ld bs).
Definition rd32 (ld : list Z -> Z) (k : list Z) (i : nat) : outcome Z :=
  bs ← read_bytes (drop (4 * i) k) 4; Ret (ld bs).

(** [v & m] and [((uint32_t)v) << n]. *)
Definition masked (v : outcome Z) (m : Z) : outcome Z := x ← v; Ret (Z.land x m).
Definition shl (v : outcome Z) (n : Z) : outcome Z := x ← v; Ret (u32 (Z.shiftl x n)).
(** [k[i] + (((uint32_t)k[j]) << 16)]. *)
Definition pair16 (k : list Z) (i j : nat) : outcome Z :=
  x ← rd16 le_load k i; y ← shl (rd16 le_load k j) 16; Ret (u32 (x + y)).

(** [while (length > 12)]: the blocks but the last, [k] advancing by twelve bytes. *)
Fixpoint blocks (fuel : nat) (block : list Z -> abc -> outcome abc) (k : list Z) (length : nat)
    (s : abc) : outcome (list Z * nat * abc) :=
  match fuel with
  | O => Ret (k, length, s)
  | S fuel =>
      if (12 <? length)%nat then
        s ← block k s;
        blocks fuel block (drop 12 k) (length - 12) (mix s)
      else Ret (k, length, s)
  end.

(** ** Little-endian machines *)


Definition words_le (k : list Z) : abc -> outcome abc :=
  add_a (rd32 le_load k 0) ;;> add_b (rd32 le_load k 1) ;;> add_c (rd32 le_load k 2).

(** The [switch] on the length of the last block; [None] is [return c]. *)
Definition last_words_le (k : list Z) (length : nat) (s : abc) : outcome (option abc) :=
  let k' := rd32 le_load k in
  let ba := add_b (k' 1%nat) ;;> add_a (k' 0%nat) in
  match length with
  | 12%nat => Some <$> (add_c (k' 2%nat) ;;> ba) s
  | 11%nat => Some <$> (add_c (masked (k' 2%nat) 0xffffff) ;;> ba) s
  | 10%nat => Some <$> (add_c (masked (k' 2%nat) 0xffff) ;;> ba) s
  | 9%nat => Some <$> (add_c (masked (k' 2%nat) 0xff) ;;> ba) s
  | 8%nat => Some <$> ba s
  | 7%nat => Some <$> (add_b (masked (k' 1%nat) 0xffffff) ;;> add_a (k' 0%nat)) s
  | 6%nat => Some <$> (add_b (masked (k' 1%nat) 0xffff) ;;> add_a (k' 0%nat)) s
  | 5%nat => Some <$> (add_b (masked (k' 1%nat) 0xff) ;;> add_a (k' 0%nat)) s
  | 4%nat => Some <$> add_a (k' 0%nat) s
  | 3%nat => Some <$> add_a (masked (k' 0%nat) 0xffffff) s
  | 2%nat => Some <$> add_a (masked (k' 0%nat) 0xffff) s
  | 1%nat => Some <$> add_a (masked (k' 0%nat) 0xff) s
  | 0%nat => Ret None
  | _ => Ret (Some s)
  end.

(** The same [switch] compiled with VALGRIND. *)
Definition last_words_valgrind_le (k : list Z) (length : nat) (s : abc) : outcome (option abc) :=
  let k' := rd32 le_load k in
  let case8 := add_b (k' 1%nat) ;;> add_a (k' 0%nat) in
  let case9 := add_c (rd8 k 8) ;;> case8 in
  let case10 := add_c (shl (rd8 k 9) 8) ;;> case9 in
  let case11 := add_c (shl (rd8 k 10) 16) ;;> case10 in
  let case4 := add_a (k' 0%nat) in
  let case5 := add_b (rd8 k 4) ;;> case4 in
  let case6 := add_b (shl (rd8 k 5) 8) ;;> case5 in
  let case7 := add_b (shl (rd8 k 6) 16) ;;> case6 in
  let case1 := add_a (rd8 k 0) in
  let case2 := add_a (shl (rd8 k 1) 8) ;;> case1 in
  let case3 := add_a (shl (rd8 k 2) 16) ;;> case2 in
  match length with
  | 12%nat => Some <$> (add_c (k' 2%nat) ;;> add_b (k' 1%nat) ;;> add_a (k' 0%nat)) s
  | 11%nat => Some <$> case11 s
  | 10%nat => Some <$> case10 s
  | 9%nat => Some <$> case9 s
  | 8%nat => Some <$> case8 s
  | 7%nat => Some <$> case7 s
  | 6%nat => Some <$> case6 s
  | 5%nat => Some <$> case5 s
  | 4%nat => Some <$> case4 s
  | 3%nat => Some <$> case3 s
  | 2%nat => Some <$> case2 s
  | 1%nat => Some <$> case1 s
  | 0%nat => Ret None
  | _ => Ret (Some s)
  end.

Definition halves_le (k : list Z) : abc -> outcome abc :=
  add_a (pair16 k 0 1) ;;> add_b (pair16 k 2 3) ;;> add_c (pair16 k 4 5).

Definition last_halves_le (k : list Z) (length : nat) (s : abc) : outcome (option abc) :=
  let k' := rd16 le_load k in
  let ba := add_b (pair16 k 2 3) ;;> add_a (pair16 k 0 1) in
  let case10 := add_c (k' 4%nat) ;;> ba in
  let case8 := ba in
  let case6 := add_b (k' 2%nat) ;;> add_a (pair16 k 0 1) in
  let case4 := add_a (pair16 k 0 1) in
  let case2 := add_a (k' 0%nat) in
  match length with
  | 12%nat => Some <$> (add_c (pair16 k 4 5) ;;> ba) s
  | 11%nat => Some <$> (add_c (shl (rd8 k 10) 16) ;;> case10) s
  | 10%nat => Some <$> case10 s
  | 9%nat => Some <$> (add_c (rd8 k 8) ;;> case8) s
  | 8%nat => Some <$> case8 s
  | 7%nat => Some <$> (add_b (shl (rd8 k 6) 16) ;;> case6) s
  | 6%nat => Some <$> case6 s
  | 5%nat => Some <$> (add_b (rd8 k 4) ;;> case4) s
  | 4%nat => Some <$> case4 s
  | 3%nat => Some <$> (add_a (shl (rd8 k 2) 16) ;;> case2) s
  | 2%nat => Some <$> case2 s
  | 1%nat => Some <$> add_a (rd8 k 0) s
  | 0%nat => Ret None
  | _ => Ret (Some s)
  end.

Definition bytes_le (k : list Z) : abc -> outcome abc :=
  add_a (rd8 k 0) ;;> add_a (shl (rd8 k 1) 8) ;;> add_a (shl (rd8 k 2) 16) ;;>
  add_a (shl (rd8 k 3) 24) ;;>
  add_b (rd8 k 4) ;;> add_b (shl (rd8 k 5) 8) ;;> add_b (shl (rd8 k 6) 16) ;;>
  add_b (shl (rd8 k 7) 24) ;;>
  add_c (rd8 k 8) ;;> add_c (shl (rd8 k 9) 8) ;;> add_c (shl (rd8 k 10) 16) ;;>
  add_c (shl (rd8 k 11) 24).

Definition last_bytes_le (k : list Z) (length : nat) (s : abc) : outcome (option abc) :=
  let case1 := add_a (rd8 k 0) in
  let case2 := add_a (shl (rd8 k 1) 8) ;;> case1 in
  let case3 := add_a (shl (rd8 k 2) 16) ;;> case2 in
  let case4 := add_a (shl (rd8 k 3) 24) ;;> case3 in
  let case5 := add_b (rd8 k 4) ;;> case4 in
  let case6 := add_b (shl (rd8 k 5) 8) ;;> case5 in
  let case7 := add_b (shl (rd8 k 6) 16) ;;> case6 in
  let case8 := add_b (shl (rd8 k 7) 24) ;;> case7 in
  let case9 := add_c (rd8 k 8) ;;> case8 in
  let case10 := add_c (shl (rd8 k 9) 8) ;;> case9 in
  let case11 := add_c (shl (rd8 k 10) 16) ;;> case10 in
  let case12 := add_c (shl (rd8 k 11) 24) ;;> case11 in
  match length with
  | 12%nat => Some <$> case12 s
  | 11%nat => Some <$> case11 s
  | 10%nat => Some <$> case10 s
  | 9%nat => Some <$> case9 s
  | 8%nat => Some <$> case8 s
  | 7%nat => Some <$> case7 s
  | 6%nat => Some <$> case6 s
  | 5%nat => Some <$> case5 s
  | 4%nat => Some <$> case4 s
  | 3%nat => Some <$> case3 s
  | 2%nat => Some <$> case2 s
  | 1%nat => Some <$> case1 s
  | 0%nat => Ret None
  | _ => Ret (Some s)
  end.


(** ** Big-endian machines *)
Definition words_be (k : list Z) : abc -> outcome abc :=
  add_a (rd32 be_load k 0) ;;> add_b (rd32 be_load k 1) ;;> add_c (rd32 be_load k 2).

Definition last_words_be (k : list Z) (length : nat) (s : abc) : outcome (option abc) :=
  let k' := rd32 be_load k in
  let ba := add_b (k' 1%nat) ;;> add_a (k' 0%nat) in
  match length with
  | 12%nat => Some <$> (add_c (k' 2%nat) ;;> ba) s
  | 11%nat => Some <$> (add_c (masked (k' 2%nat) 0xffffff00) ;;> ba) s
  | 10%nat => Some <$> (add_c (masked (k' 2%nat) 0xffff0000) ;;> ba) s
  | 9%nat => Some <$> (add_c (masked (k' 2%nat) 0xff000000) ;;> ba) s
  | 8%nat => Some <$> ba s
  | 7%nat => Some <$> (add_b (masked (k' 1%nat) 0xffffff00) ;;> add_a (k' 0%nat)) s
  | 6%nat => Some <$> (add_b (masked (k' 1%nat) 0xffff0000) ;;> add_a (k' 0%nat)) s
  | 5%nat => Some <$> (add_b (masked (k' 1%nat) 0xff000000) ;;> add_a (k' 0%nat)) s
  | 4%nat => Some <$> add_a (k' 0%nat) s
  | 3%nat => Some <$> add_a (masked (k' 0%nat) 0xffffff00) s
  | 2%nat => Some <$> add_a (masked (k' 0%nat) 0xffff0000) s
  | 1%nat => Some <$> add_a (masked (k' 0%nat) 0xff000000) s
  | 0%nat => Ret None
  | _ => Ret (Some s)
  end.

Definition last_words_valgrind_be (k : list Z) (length : nat) (s : abc) : outcome (option abc) :=
  let k' := rd32 be_load k in
  let case8 := add_b (k' 1%nat) ;;> add_a (k' 0%nat) in
  let case9 := add_c (shl (rd8 k 8) 24) ;;> case8 in
  let case10 := add_c (shl (rd8 k 9) 16) ;;> case9 in
  let case11 := add_c (shl (rd8 k 10) 8) ;;> case10 in
  let case4 := add_a (k' 0%nat) in
  let case5 := add_b (shl (rd8 k 4) 24) ;;> case4 in
  let case6 := add_b (shl (rd8 k 5) 16) ;;> case5 in
  let case7 := add_b (shl (rd8 k 6) 8) ;;> case6 in
  let case1 := add_a (shl (rd8 k 0) 24) in
  let case2 := add_a (shl (rd8 k 1) 16) ;;> case1 in
  let case3 := add_a (shl (rd8 k 2) 8) ;;> case2 in
  match length with
  | 12%nat => Some <$> (add_c (k' 2%nat) ;;> add_b (k' 1%nat) ;;> add_a (k' 0%nat)) s
  | 11%nat => Some <$> case11 s
  | 10%nat => Some <$> case10 s
  | 9%nat => Some <$> case9 s
  | 8%nat => Some <$> case8 s
  | 7%nat => Some <$> case7 s
  | 6%nat => Some <$> case6 s
  | 5%nat => Some <$> case5 s
  | 4%nat => Some <$> case4 s
  | 3%nat => Some <$> case3 s
  | 2%nat => Some <$> case2 s
  | 1%nat => Some <$> case1 s
  | 0%nat => Ret None
  | _ => Ret (Some s)
  end.

Definition bytes_be (k : list Z) : abc -> outcome abc :=
  add_a (shl (rd8 k 0) 24) ;;> add_a (shl (rd8 k 1) 16) ;;> add_a (shl (rd8 k 2) 8) ;;>
  add_a (rd8 k 3) ;;>
  add_b (shl (rd8 k 4) 24) ;;> add_b (shl (rd8 k 5) 16) ;;> add_b (shl (rd8 k 6) 8) ;;>
  add_b (rd8 k 7) ;;>
  add_c (shl (rd8 k 8) 24) ;;> add_c (shl (rd8 k 9) 16) ;;> add_c (shl (rd8 k 10) 8) ;;>
  add_c (rd8 k 11).

Definition last_bytes_be (k : list Z) (length : nat) (s : abc) : outcome (option abc) :=
  let case1 := add_a (shl (rd8 k 0) 24) in
  let case2 := add_a (shl (rd8 k 1) 16) ;;> case1 in
  let case3 := add_a (shl (rd8 k 2) 8) ;;> case2 in
  let case4 := add_a (rd8 k 3) ;;> case3 in
  let case5 := add_b (shl (rd8 k 4) 24) ;;> case4 in
  let case6 := add_b (shl (rd8 k 5) 16) ;;> case5 in
  let case7 := add_b (shl (rd8 k 6) 8) ;;> case6 in
  let case8 := add_b (rd8 k 7) ;;> case7 in
  let case9 := add_c (shl (rd8 k 8) 24) ;;> case8 in
  let case10 := add_c (shl (rd8 k 9) 16) ;;> case9 in
  let case11 := add_c (shl (rd8 k 10) 8) ;;> case10 in
  let case12 := add_c (rd8 k 11) ;;> case11 in
  match length with
  | 12%nat => Some <$> case12 s
  | 11%nat => Some <$> case11 s
  | 10%nat => Some <$> case10 s
  | 9%nat => Some <$> case9 s
  | 8%nat => Some <$> case8 s
  | 7%nat => Some <$> case7 s
  | 6%nat => Some <$> case6 s
  | 5%nat => Some <$> case5 s
  | 4%nat => Some <$> case4 s
  | 3%nat => Some <$> case3 s
  | 2%nat => Some <$> case2 s
  | 1%nat => Some <$> case1 s
  | 0%nat => Ret None
  | _ => Ret (Some s)
  end.


(** ** The two functions *)

(** The loop, the [switch], [final] and [return c]. *)
Definition hash_path (block : list Z -> abc -> outcome abc)
    (last : list Z -> nat -> abc -> outcome (option abc)) (k : list Z) (length : nat)
    : outcome Z :=
  let init := u32 (0xdeadbeef + u32 (Z.of_nat length) + 0) in
  '(k, rest, s) ← blocks length block k length (init, init, init);
  r ← last k rest s;
  match r with
  | None => Ret s.2
  | Some s => Ret (final s).2
  end.

Definition jenkins_hash_little (valgrind : bool) (u : Z) (k : list Z) (length : nat) : outcome Z :=
  if Z.land u 0x3 =? 0 then
    hash_path words_le
      (if valgrind then last_words_valgrind_le else last_words_le) k length
  else if Z.land u 0x1 =? 0 then hash_path halves_le last_halves_le k length
  else hash_path bytes_le last_bytes_le k length.

Definition jenkins_hash_big (valgrind : bool) (u : Z) (k : list Z) (length : nat) : outcome Z :=
  if Z.land u 0x3 =? 0 then
    hash_path words_be (if valgrind then last_words_valgrind_be else last_words_be) k length
  else hash_path bytes_be last_bytes_be k length.

(** ** The specification: twelve-byte blocks, the last one filled with zeros *)

Definition absorb (ld : list Z -> Z) (block : list Z) (s : abc) : abc :=
  let '(a, b, c) := s in
  let block := block ++ replicate (12 - length block) 0 in
  (u32 (a + ld (slice block 0 4)), u32 (b + ld (slice block 4 4)), u32 (c + ld (slice block 8 4))).

Fixpoint jenkins_rounds (fuel : nat) (ld : list Z -> Z) (key : list Z) (s : abc) : abc :=
  match fuel with
  | O => s
  | S fuel =>
      if (length key <=? 12)%nat then
        match key with [] => s | _ => final (absorb ld key s) end
      else jenkins_rounds fuel ld (drop 12 key) (mix (absorb ld (take 12 key) s))
  end.

Definition jenkins_spec (ld : list Z -> Z) (key : list Z) : Z :=
  let init := u32 (0xdeadbeef + Z.of_nat (length key)) in
  (jenkins_rounds (S (length key)) ld key (init, init, init)).2.

(** ** Correctness of Jenkins' hash

    Every way of reading the key gives the hash of its bytes, whatever follows the key in
    memory, and the mixing step loses no information. *)

(** ** Words *)

Definition abc_ok (s : abc) : Prop := let '(a, b, c) := s in word_ok a /\ word_ok b /\ word_ok c.

Lemma rot_ok x k : word_ok x -> 0 <= k <= 32 -> word_ok (rot x k).
Proof.
  intros [Hx0 Hx] Hk. apply lxor_bound; [lia|apply u32_range|].
  rewrite Z.shiftr_div_pow2 by lia.
  pose proof (Z.pow_pos_nonneg 2 (32 - k) ltac:(lia) ltac:(lia)) as Hp.
  split; [by apply Z.div_pos|].
  apply Z.div_lt_upper_bound; [done|]. nia.
Qed.

#[export] Hint Extern 1 (word_ok (rot _ _)) => apply rot_ok; [|lia] : kvsev.

Lemma mix_ok s : abc_ok s -> abc_ok (mix s).
Proof. destruct s as [[a b] c]. intros (Ha & Hb & Hc). cbv beta iota zeta delta [mix abc_ok]. auto 20 with kvsev. Qed.

Lemma absorb_ok ld block s : abc_ok (absorb ld block s).
Proof. destruct s as [[a b] c]. cbn. auto with kvsev. Qed.

(** ** Masks *)

Lemma land_low x n : 0 <= n -> Z.land x (Z.ones n) = x mod 2 ^ n.
Proof. intros. by apply Z.land_ones. Qed.

Lemma land_high x n :
  0 <= n <= 32 -> word_ok x -> Z.land x (Z.shiftl (Z.ones (32 - n)) n) = x - x mod 2 ^ n.
Proof.
  intros Hn Hx. transitivity (Z.shiftl (Z.shiftr x n) n).
  - apply Z.bits_inj'. intros i Hi. rewrite Z.land_spec.
    destruct (decide (i < n)).
    + rewrite !Z.shiftl_spec_low by lia. by rewrite andb_false_r.
    + rewrite !Z.shiftl_spec_high, Z.shiftr_spec by lia. rewrite Z.sub_add.
      destruct (decide (i < 32)).
      * rewrite Z.ones_spec_low by lia. by rewrite andb_true_r.
      * by rewrite (testbit_above x 32) by (done || lia).
  - rewrite Z.shiftl_mul_pow2, Z.shiftr_div_pow2 by lia.
    pose proof (Z.div_mod x (2 ^ n)). lia.
Qed.

Lemma land_ff x : Z.land x 0xff = x mod 256.
Proof. by apply (land_low x 8). Qed.
Lemma land_ffff x : Z.land x 0xffff = x mod 65536.
Proof. by apply (land_low x 16). Qed.
Lemma land_ffffff x : Z.land x 0xffffff = x mod 16777216.
Proof. by apply (land_low x 24). Qed.
Lemma land_ff000000 x : word_ok x -> Z.land x 0xff000000 = x - x mod 16777216.
Proof. by apply (land_high x 24). Qed.
Lemma land_ffff0000 x : word_ok x -> Z.land x 0xffff0000 = x - x mod 65536.
Proof. by apply (land_high x 16). Qed.
Lemma land_ffffff00 x : word_ok x -> Z.land x 0xffffff00 = x - x mod 256.
Proof. by apply (land_high x 8). Qed.

(** ** The ways of reading a block *)

(** Equalities between sums of shifted bytes, modulo [2 ^ 32]. *)
Ltac word_sum :=
  unfold byte_ok, word_ok in *; cbn [foldr foldl] in *;
  rewrite ?land_ff, ?land_ffff, ?land_ffffff;
  rewrite ?land_ff000000, ?land_ffff0000, ?land_ffffff00 by (unfold word_ok; lia);
  rewrite ?Z.shiftl_mul_pow2 by lia;
  change (2 ^ 8) with 256; change (2 ^ 16) with 65536; change (2 ^ 24) with 16777216;
  repeat first [rewrite u32_add_l | rewrite u32_add_r];
  first [ apply (f_equal u32); zdm | symmetry; apply u32_id; lia | apply u32_id; lia | unfold u32; change (2 ^ 32) with 4294967296 in *; zdm ].

Lemma ret_abc (a a' b b' c c' : Z) :
  a = a' -> b = b' -> c = c' -> Ret (a, b, c) = Ret (a', b', c').
Proof. congruence. Qed.

Lemma ret_some_abc (a a' b b' c c' : Z) :
  a = a' -> b = b' -> c = c' -> Ret (Some (a, b, c)) = Ret (Some (a', b', c')).
Proof. congruence. Qed.

Ltac block_solve :=
  match goal with s : abc |- _ => destruct s as [[?a ?b] ?c] end;
  bytes_in_context;
  cbn -[Z.shiftl Z.land u32 Z.pow Z.add Z.mul];
  rewrite ?take_0; unfold le_load, be_load; cbn -[Z.shiftl Z.land u32 Z.pow Z.add Z.mul];
  apply ret_abc; word_sum.

(** A way of reading keys: its block and last-block code compute [absorb], where [pad] says
    how much memory after the key the last block needs. *)
Record reader (ld : list Z -> Z) (pad : nat -> nat -> Prop)
    (block : list Z -> abc -> outcome abc)
    (last : list Z -> nat -> abc -> outcome (option abc)) : Prop := {
  block_ok : forall k s, bytes_ok k -> (12 <= length k)%nat ->
    block k s = Ret (absorb ld (take 12 k) s);
  last_ok : forall key tail s, bytes_ok (key ++ tail) -> (length key <= 12)%nat ->
    pad (length key) (length tail) -> abc_ok s ->
    last (key ++ tail) (length key) s =
      Ret (match key with [] => None | _ => Some (absorb ld key s) end);
  pad_step : forall n m, pad (12 + n)%nat m -> pad n m
}.

(** The aligned reads touch the rest of the word the key ends in: [m] bytes after a key of
    [n] bytes reach the next multiple of four. *)
Definition word_pad (n m : nat) : Prop := ((3 * n) mod 4 <= m)%nat.
Definition no_pad (n m : nat) : Prop := True.

Lemma take_drop_12 (k : list Z) : (12 <= length k)%nat -> exists b0 b1 b2 b3 b4 b5 b6 b7 b8 b9 b10 b11 r,
  k = b0 :: b1 :: b2 :: b3 :: b4 :: b5 :: b6 :: b7 :: b8 :: b9 :: b10 :: b11 :: r.
Proof.
  intros H. do 12 (destruct k as [|? k]; [simpl in H; lia|]). eauto 20.
Qed.

Ltac block_cases :=
  intros k s Hk Hl;
  destruct (take_drop_12 k Hl) as (?&?&?&?&?&?&?&?&?&?&?&?&?&->); block_solve.

(** A last block by the number of its bytes, and of those after it in its last word. *)
Ltac last_cases :=
  intros key tail [[a b] c] Hk Hl Hp (Ha & Hb & Hc);
  destruct key as [|x0 [|x1 [|x2 [|x3 [|x4 [|x5 [|x6 [|x7 [|x8 [|x9 [|x10 [|x11 [|? ?]]]]]]]]]]]]];
  [.. | exfalso; simpl in Hl; lia];
  unfold word_pad in Hp; cbn in Hp;
  repeat match type of Hp with
  | (S _ <= length ?tail)%nat =>
      destruct tail as [|? ?]; cbn [length] in Hp; [exfalso; lia | apply le_S_n in Hp]
  end;
  cbn [app] in *; bytes_in_context.

Ltac last_solve :=
  cbn -[Z.shiftl Z.land u32 Z.pow Z.add Z.mul];
  rewrite ?take_0; unfold le_load, be_load; cbn -[Z.shiftl Z.land u32 Z.pow Z.add Z.mul];
  try reflexivity; apply ret_some_abc; word_sum.

Lemma word_pad_step n m : word_pad (12 + n) m -> word_pad n m.
Proof.
  unfold word_pad. replace (3 * (12 + n))%nat with (3 * n + 9 * 4)%nat by lia.
  by rewrite Nat.Div0.mod_add.
Qed.

Ltac reader_solve :=
  split; [block_cases | last_cases; last_solve | try exact word_pad_step; done].

Lemma words_le_reader : reader le_load word_pad words_le last_words_le.
Proof. reader_solve. Qed.

Lemma words_valgrind_le_reader : reader le_load no_pad words_le last_words_valgrind_le.
Proof. reader_solve. Qed.

Lemma halves_le_reader : reader le_load no_pad halves_le last_halves_le.
Proof. reader_solve. Qed.

Lemma bytes_le_reader : reader le_load no_pad bytes_le last_bytes_le.
Proof. reader_solve. Qed.

Lemma words_be_reader : reader be_load word_pad words_be last_words_be.
Proof. reader_solve. Qed.

Lemma words_valgrind_be_reader : reader be_load no_pad words_be last_words_valgrind_be.
Proof. reader_solve. Qed.

Lemma bytes_be_reader : reader be_load no_pad bytes_be last_bytes_be.
Proof. reader_solve. Qed.

(** ** From the blocks to the key *)

Section Reader.
Context (ld : list Z -> Z) (pad : nat -> nat -> Prop).
Context (block : list Z -> abc -> outcome abc).
Context (last : list Z -> nat -> abc -> outcome (option abc)).
Context (R : reader ld pad block last).

(** The rest of [hash_path] after [n] bytes remain. *)
Definition run (fuel n : nat) (k : list Z) (s : abc) : outcome Z :=
  '(k, rest, s) ← blocks fuel block k n s;
  r ← last k rest s;
  match r with None => Ret s.2 | Some s => Ret (final s).2 end.

Lemma run_correct fuel key tail s :
  (length key <= fuel)%nat -> bytes_ok (key ++ tail) -> pad (length key) (length tail) -> abc_ok s ->
  run fuel (length key) (key ++ tail) s = Ret (jenkins_rounds (S fuel) ld key s).2.
Proof.
  revert key s. induction fuel as [|fuel IH]; intros key s Hf Hb Hp Hs.
  - destruct key; [|simpl in Hf; lia]. pose proof (last_ok _ _ _ _ R [] tail s Hb) as Hlast.
    unfold run. cbn [blocks mbind outcome_bind length app] in *. by rewrite Hlast by (done || lia).
  - unfold run. cbn [blocks]. change (jenkins_rounds (S (S fuel)) ld key s) with
      (if (length key <=? 12)%nat then match key with [] => s | _ => final (absorb ld key s) end
       else jenkins_rounds (S fuel) ld (drop 12 key) (mix (absorb ld (take 12 key) s))).
    destruct (Nat.ltb_spec 12 (length key)) as [Hl|Hl].
    + rewrite (proj2 (Nat.leb_gt _ _)) by done.
      rewrite (block_ok _ _ _ _ R) by (done || rewrite length_app; lia).
      cbn [mbind outcome_bind]. rewrite take_app_le, drop_app_le by lia.
      replace (length key - 12)%nat with (length (drop 12 key)) by apply length_drop.
      apply IH.
      * rewrite length_drop. lia.
      * rewrite bytes_ok_app in *. destruct Hb. split; [by apply bytes_ok_drop|done].
      * apply (pad_step _ _ _ _ R). rewrite length_drop.
        by replace (12 + (length key - 12))%nat with (length key) by lia.
      * apply mix_ok, absorb_ok.
    + rewrite (proj2 (Nat.leb_le _ _)) by done. cbn [mbind outcome_bind].
      rewrite (last_ok _ _ _ _ R) by done. by destruct key.
Qed.

Lemma hash_path_correct key tail :
  bytes_ok (key ++ tail) -> pad (length key) (length tail) ->
  hash_path block last (key ++ tail) (length key) = Ret (jenkins_spec ld key).
Proof.
  intros Hb Hp. unfold hash_path, jenkins_spec.
  replace (u32 (0xdeadbeef + u32 (Z.of_nat (length key)) + 0))
    with (u32 (0xdeadbeef + Z.of_nat (length key))) by (rewrite Z.add_0_r, u32_add_r; done).
  apply (run_correct _ key tail); auto. repeat split; apply u32_range.
Qed.
End Reader.

(** Jenkins_hash is a function of the bytes of the key alone.  On little- and on
    big-endian machines, at every address, compiled for valgrind or not, and whatever follows
    the key in memory, it returns the hash of the key's bytes cut into twelve-byte blocks with
    the last one filled with zeros; only the aligned path reads past the key, and never past
    the 32-bit word the key ends in. *)
Theorem jenkins_hash_correct (valgrind : bool) (u : Z) (key tail : list Z) :
  bytes_ok (key ++ tail) ->
  ((if valgrind then 0 else if (u mod 4 =? 0)%Z then (3 * length key) mod 4 else 0) <= length tail)%nat ->
  jenkins_hash_little valgrind u (key ++ tail) (length key) = Ret (jenkins_spec le_load key) /\
  jenkins_hash_big valgrind u (key ++ tail) (length key) = Ret (jenkins_spec be_load key).
Proof.
  intros Hb Ht. unfold jenkins_hash_little, jenkins_hash_big.
  change 0x3 with (Z.ones 2). rewrite Z.land_ones by lia. change (2 ^ 2) with 4.
  destruct valgrind, (Z.eqb_spec (u mod 4) 0); split;
    repeat case_match; eapply hash_path_correct;
    eauto using words_le_reader, words_valgrind_le_reader, halves_le_reader, bytes_le_reader,
      words_be_reader, words_valgrind_be_reader, bytes_be_reader; done.
Qed.

Lemma jenkins_hash_correct_witness :
  jenkins_hash_little false 0x1000 [107; 101; 121; 49; 51; 255; 255; 255] 5 =
    Ret (jenkins_spec le_load [107; 101; 121; 49; 51]).
Proof.
  refine (proj1 (jenkins_hash_correct false 0x1000 [107; 101; 121; 49; 51] [255; 255; 255] _ _)).
  - repeat (apply Forall_cons_2; [unfold byte_ok; lia|]). apply Forall_nil_2.
  - vm_compute. lia.
Defined.

(** ** [mix] loses no information *)

(** The three kinds of line in [mix], and the same lines undone. *)
Definition mix_a (k : Z) (s : abc) : abc :=
  let '(a, b, c) := s in (Z.lxor (u32 (a - c)) (rot c k), b, u32 (c + b)).
Definition mix_b (k : Z) (s : abc) : abc :=
  let '(a, b, c) := s in (u32 (a + c), Z.lxor (u32 (b - a)) (rot a k), c).
Definition mix_c (k : Z) (s : abc) : abc :=
  let '(a, b, c) := s in (a, u32 (b + a), Z.lxor (u32 (c - b)) (rot b k)).

Definition unmix_a (k : Z) (s : abc) : abc :=
  let '(a, b, c) := s in let c := u32 (c - b) in (u32 (Z.lxor a (rot c k) + c), b, c).
Definition unmix_b (k : Z) (s : abc) : abc :=
  let '(a, b, c) := s in let a := u32 (a - c) in (a, u32 (Z.lxor b (rot a k) + a), c).
Definition unmix_c (k : Z) (s : abc) : abc :=
  let '(a, b, c) := s in let b := u32 (b - a) in (a, b, u32 (Z.lxor c (rot b k) + b)).

Definition unmix (s : abc) : abc :=
  unmix_a 4 (unmix_b 6 (unmix_c 8 (unmix_a 16 (unmix_b 19 (unmix_c 4 s))))).

Lemma u32_sub_add x y : word_ok x -> u32 (u32 (x - y) + y) = x.
Proof. intros. unfold u32, word_ok in *. zdm. Qed.

(** [g] undoes [f] on states of words. *)
Definition undoes (g f : abc -> abc) : Prop :=
  forall s, abc_ok s -> g (f s) = s /\ abc_ok (f s).

Lemma undoes_compose g f g' f' :
  undoes g f -> undoes g' f' -> undoes (fun s => g' (g s)) (fun s => f (f' s)).
Proof.
  intros H H' s Hs. destruct (H' s Hs) as [E Hf]. destruct (H _ Hf) as [E2 Hf2].
  split; [by rewrite E2|done].
Qed.

#[local] Ltac undo_solve :=
  intros Hk [[a b] c] (Ha & Hb & Hc);
  unfold mix_a, mix_b, mix_c, unmix_a, unmix_b, unmix_c;
  split; [| refine (conj _ (conj _ _)); auto using word_lxor, rot_ok, u32_word_ok];
  rewrite ?(u32_add_sub a), ?(u32_add_sub b), ?(u32_add_sub c) by done;
  rewrite ?(u32_sub_add a), ?(u32_sub_add b), ?(u32_sub_add c) by done;
  rewrite ?u32_add_sub by auto using word_lxor, rot_ok, u32_word_ok;
  rewrite ?lxor_twice; rewrite ?u32_sub_add by done; reflexivity.

Lemma unmix_mix_a k : 0 <= k <= 32 -> undoes (unmix_a k) (mix_a k).
Proof. undo_solve. Qed.
Lemma unmix_mix_b k : 0 <= k <= 32 -> undoes (unmix_b k) (mix_b k).
Proof. undo_solve. Qed.
Lemma unmix_mix_c k : 0 <= k <= 32 -> undoes (unmix_c k) (mix_c k).
Proof. undo_solve. Qed.
Lemma mix_unmix_a k : 0 <= k <= 32 -> undoes (mix_a k) (unmix_a k).
Proof. undo_solve. Qed.
Lemma mix_unmix_b k : 0 <= k <= 32 -> undoes (mix_b k) (unmix_b k).
Proof. undo_solve. Qed.
Lemma mix_unmix_c k : 0 <= k <= 32 -> undoes (mix_c k) (unmix_c k).
Proof. undo_solve. Qed.

Lemma mix_steps s : mix s = mix_c 4 (mix_b 19 (mix_a 16 (mix_c 8 (mix_b 6 (mix_a 4 s))))).
Proof. by destruct s as [[a b] c]. Qed.

(** Mix is reversible, as the comment above it says: from the three words after a round
    [unmix] recovers the three words before it, and every triple of words is the result of
    exactly one round. *)
Theorem mix_reversible (s : abc) : abc_ok s -> unmix (mix s) = s /\ mix (unmix s) = s.
Proof.
  intros Hs. split.
  - rewrite mix_steps.
    exact (proj1 (undoes_compose _ _ _ _ (unmix_mix_c 4 ltac:(lia))
      (undoes_compose _ _ _ _ (unmix_mix_b 19 ltac:(lia))
      (undoes_compose _ _ _ _ (unmix_mix_a 16 ltac:(lia))
      (undoes_compose _ _ _ _ (unmix_mix_c 8 ltac:(lia))
      (undoes_compose _ _ _ _ (unmix_mix_b 6 ltac:(lia)) (unmix_mix_a 4 ltac:(lia)))))) s Hs)).
  - rewrite mix_steps.
    exact (proj1 (undoes_compose _ _ _ _ (mix_unmix_a 4 ltac:(lia))
      (undoes_compose _ _ _ _ (mix_unmix_b 6 ltac:(lia))
      (undoes_compose _ _ _ _ (mix_unmix_c 8 ltac:(lia))
      (undoes_compose _ _ _ _ (mix_unmix_a 16 ltac:(lia))
      (undoes_compose _ _ _ _ (mix_unmix_b 19 ltac:(lia)) (mix_unmix_c 4 ltac:(lia)))))) s Hs)).
Qed.

Lemma mix_reversible_witness : unmix (mix (0xdeadbef4, 0xdeadbef4, 0xdeadbef4)) = (0xdeadbef4, 0xdeadbef4, 0xdeadbef4).
Proof. refine (proj1 (mix_reversible _ _)). unfold abc_ok, word_ok. lia. Defined.
