(* ===== verification/Murmur3.v ===== *)
(** * MurmurHash3 (src/memcached/murmur3_hash.c)

    The 32-bit version with the seed 0.  The blocks are read through a pointer to their end
    with a negative index; the machine is little-endian. *)

From S2P Require Import Prelude.

Definition rotl32 (x r : Z) : Z := Z.lor (u32 (Z.shiftl x r)) (Z.shiftr x (32 - r)).

(** [p[i]], where [p] points [base] bytes into the memory [data]. *)
Definition getblock32 (data : list Z) (base i : Z) : outcome Z :=
  let off := base + 4 * i in
  if off <? 0 then Ub else
  bs ← read_bytes (drop (Z.to_nat off) data) 4; Ret (le_load bs).

Definition fmix32 (h : Z) : Z :=
  let h := Z.lxor h (Z.shiftr h 16) in
  let h := u32 (h * 0x85ebca6b) in
  let h := Z.lxor h (Z.shiftr h 13) in
  let h := u32 (h * 0xc2b2ae35) in
  let h := Z.lxor h (Z.shiftr h 16) in
  h.

Definition murmur_c1 : Z := 0xcc9e2d51.
Definition murmur_c2 : Z := 0x1b873593.

(** [for (int i = -nblocks; i; i++)]; the fuel is the number of iterations. *)
Fixpoint murmur_body (fuel : nat) (data : list Z) (base i h1 : Z) : outcome Z :=
  if i =? 0 then Ret h1 else
  match fuel with
  | O => Ub
  | S fuel =>
      k1 ← getblock32 data base i;
      let k1 := u32 (k1 * murmur_c1) in
      let k1 := rotl32 k1 15 in
      let k1 := u32 (k1 * murmur_c2) in
      let h1 := Z.lxor h1 k1 in
      let h1 := rotl32 h1 13 in
      let h1 := u32 (u32 (h1 * 5) + 0xe6546b64) in
      murmur_body fuel data base (i + 1) h1
  end.

(** The [switch (length & 3)], whose cases fall through. *)
Definition murmur_tail (tail : list Z) (rest h1 : Z) : outcome Z :=
  let k1 := 0 in
  k1 ← (if rest =? 3 then t ← deref (tail !! 2%nat); Ret (Z.lxor k1 (Z.shiftl t 16)) else Ret k1);
  k1 ← (if 2 <=? rest then t ← deref (tail !! 1%nat); Ret (Z.lxor k1 (Z.shiftl t 8)) else Ret k1);
  if 1 <=? rest then
    t ← deref (tail !! 0%nat);
    let k1 := Z.lxor k1 t in
    let k1 := u32 (k1 * murmur_c1) in
    let k1 := rotl32 k1 15 in
    let k1 := u32 (k1 * murmur_c2) in
    Ret (Z.lxor h1 k1)
  else Ret h1.

Definition MurmurHash3_x86_32 (data : list Z) (length : nat) : outcome Z :=
  let len := Z.of_nat length in
  let nblocks := i32 (len / 4) in
  let base := nblocks * 4 in
  if base <? 0 then Ub else
  h1 ← murmur_body (Z.to_nat nblocks) data base (- nblocks) 0;
  h1 ← murmur_tail (drop (Z.to_nat base) data) (Z.land len 3) h1;
  let h1 := u32 (Z.lxor h1 len) in
  Ret (fmix32 h1).

(** ** The specification *)

Definition scramble (k : Z) : Z := u32 (rotl32 (u32 (k * murmur_c1)) 15 * murmur_c2).

Definition murmur_round (h : Z) (block : list Z) : Z :=
  u32 (rotl32 (Z.lxor h (scramble (le_load block))) 13 * 5 + 0xe6546b64).

(** Whole blocks are mixed in order, then the remaining bytes, then the length. *)
Definition murmur3_spec (key : list Z) : Z :=
  let n := (length key / 4)%nat in
  let h := foldl murmur_round 0 (chunks 4 n key) in
  let h := Z.lxor h (scramble (le_load (drop (4 * n) key))) in
  fmix32 (u32 (Z.lxor h (Z.of_nat (length key)))).

(** ** Reading the blocks *)

Lemma murmur_body_correct fuel key rest h :
  (4 * fuel <= length key)%nat ->
  murmur_body fuel (rest ++ key) (Z.of_nat (length rest) + 4 * Z.of_nat fuel) (- Z.of_nat fuel) h
  = Ret (foldl murmur_round h (chunks 4 fuel key)).
Proof.
  revert key rest h. induction fuel as [|fuel IH]; intros key rest h Hl; [done|].
  cbn [murmur_body]. destruct (Z.eqb_spec (- Z.of_nat (S fuel)) 0); [lia|].
  unfold getblock32.
  replace (_ + 4 * - Z.of_nat (S fuel)) with (Z.of_nat (length rest)) by lia.
  destruct (Z.ltb_spec (Z.of_nat (length rest)) 0); [lia|].
  rewrite Nat2Z.id, drop_app_length, read_bytes_ok by lia. cbn [mbind outcome_bind].
  cbn [chunks foldl]. unfold murmur_round at 2, scramble. rewrite u32_add_l.
  rewrite <- (IH (drop 4 key) (rest ++ take 4 key)) by (rewrite length_drop; lia).
  rewrite <- app_assoc, take_drop, length_app, length_take. f_equal; lia.
Qed.

Lemma scramble_0 : scramble 0 = 0.
Proof. done. Qed.

(** Bytes xor-ed in at their places are added. *)
Lemma lxor_shifted x n r : 0 <= n -> 0 <= r < 2 ^ n -> Z.lxor (Z.shiftl x n) r = x * 2 ^ n + r.
Proof.
  intros. rewrite Z.shiftl_mul_pow2 by done. apply (lxor_disjoint_add _ _ n); try done.
  apply Z.mod_mul. lia.
Qed.

Lemma murmur_tail_correct tail more h rest :
  bytes_ok tail -> (length tail < 4)%nat -> rest = Z.of_nat (length tail) ->
  murmur_tail (tail ++ more) rest h = Ret (Z.lxor h (scramble (le_load tail))).
Proof.
  intros Hb Hl ->. unfold murmur_tail.
  destruct tail as [|x0 [|x1 [|x2 [|]]]]; [..|simpl in Hl; lia];
    bytes_in_context;
    cbn [app length Z.of_nat Pos.of_succ_nat Pos.succ Z.eqb Pos.eqb Z.leb Z.compare Pos.compare Pos.compare_cont
      mbind outcome_bind deref lookup list_lookup]; unfold byte_ok in *;
    unfold scramble; apply (f_equal Ret).
  - by rewrite Z.lxor_0_r.
  - replace (Z.lxor 0 x0) with (le_load [x0]); [done|]. cbn [foldr le_load]. rewrite Z.lxor_0_l. lia.
  - rewrite Z.lxor_0_l, lxor_shifted by lia.
    replace (x1 * 2 ^ 8 + x0) with (le_load [x0; x1]); [done|]. cbn [foldr le_load]. lia.
  - rewrite Z.lxor_0_l, Z.lxor_assoc, (lxor_shifted x1), lxor_shifted by lia.
    replace (x2 * 2 ^ 16 + (x1 * 2 ^ 8 + x0)) with (le_load [x0; x1; x2]); [done|].
    cbn [foldr le_load]. lia.
Qed.

Lemma murmur3_meets_spec (key tail : list Z) :
  bytes_ok key -> Z.of_nat (length key) < 2 ^ 33 ->
  MurmurHash3_x86_32 (key ++ tail) (length key) = Ret (murmur3_spec key).
Proof.
  intros Hb Hl. unfold MurmurHash3_x86_32.
  set (n := (length key / 4)%nat).
  assert (Hn : i32 (Z.of_nat (length key) / 4) = Z.of_nat n).
  { unfold n. rewrite Nat2Z.inj_div. unfold i32. change (Z.of_nat 4) with 4. zdm. }
  rewrite Hn. destruct (Z.ltb_spec (Z.of_nat n * 4) 0); [lia|].
  rewrite Nat2Z.id. replace (Z.to_nat (Z.of_nat n * 4)) with (4 * n)%nat by lia.
  pose proof (Nat.div_mod_eq (length key) 4) as Hdm. fold n in Hdm.
  pose proof (Nat.mod_upper_bound (length key) 4).
  pose proof (murmur_body_correct n (key ++ tail) [] 0) as Hbody.
  cbn [app length Z.of_nat] in Hbody. rewrite Z.add_0_l, Z.mul_comm in Hbody.
  rewrite Hbody by (rewrite length_app; lia). cbn [mbind outcome_bind].
  rewrite drop_app_le by lia.
  rewrite murmur_tail_correct; cycle 1.
  { by apply bytes_ok_drop. }
  { rewrite length_drop. lia. }
  { change 3 with (Z.ones 2). rewrite Z.land_ones, length_drop by lia. change (2 ^ 2) with (Z.of_nat 4).
    rewrite <- Nat2Z.inj_mod. lia. }
  cbn [mbind outcome_bind]. unfold murmur3_spec. fold n.
  by rewrite (chunks_prefix 4 n key tail) by lia.
Qed.

(** MurmurHash3_x86_32, whose loop runs over a negative index from the end of the blocks
    and whose switch falls through, mixes the whole four-byte blocks of the key in order, then
    its last bytes, then its length, and reads nothing outside the key. *)
Theorem murmur3_correct (key tail : list Z) :
  bytes_ok key -> Z.of_nat (length key) < 2 ^ 33 ->
  MurmurHash3_x86_32 (key ++ tail) (length key) = Ret (murmur3_spec key).
Proof. apply murmur3_meets_spec. Qed.

Lemma murmur3_correct_witness :
  MurmurHash3_x86_32 [116; 101; 115; 116; 49; 0] 5 = Ret (murmur3_spec [116; 101; 115; 116; 49]).
Proof.
  refine (murmur3_correct [116; 101; 115; 116; 49] [0] _ _).
  - repeat (apply Forall_cons_2; [unfold byte_ok; lia|]). apply Forall_nil_2.
  - simpl. lia.
Defined.

(** ** Keys of one block do not collide *)

Lemma mul_inj c c' x y :
  u32 (c * c') = 1 -> word_ok x -> word_ok y -> u32 (x * c) = u32 (y * c) -> x = y.
Proof.
  intros Hc Hx Hy H. rewrite <- (u32_id x Hx), <- (u32_id y Hy).
  assert (E : forall z, u32 (u32 (z * c) * c') = u32 z).
  { intros z. unfold u32 in *. rewrite Z.mul_mod_idemp_l, <- Z.mul_assoc, <- Z.mul_mod_idemp_r, Hc by lia.
    by rewrite Z.mul_1_r. }
  by rewrite <- (E x), <- (E y), H.
Qed.

Lemma testbit_word x i : word_ok x -> 32 <= i -> Z.testbit x i = false.
Proof. intros. by apply (testbit_above x 32). Qed.

(** [rotl32] the other way round. *)
Lemma rotl32_bits x r i : word_ok x -> 0 < r < 32 -> 0 <= i < 32 ->
  Z.testbit (rotl32 x r) i = if i <? r then Z.testbit x (i + (32 - r)) else Z.testbit x (i - r).
Proof.
  intros Hx Hr Hi. unfold rotl32, u32.
  rewrite Z.lor_spec, Z.mod_pow2_bits_low, Z.shiftr_spec by lia.
  destruct (Z.ltb_spec i r).
  - by rewrite Z.shiftl_spec_low by lia.
  - rewrite Z.shiftl_spec_high, (testbit_word x (i + (32 - r))) by (done || lia). by rewrite orb_false_r.
Qed.

Lemma rotl32_ok x r : word_ok x -> 0 < r < 32 -> word_ok (rotl32 x r).
Proof.
  intros Hx Hr. apply lor_bound; [lia|apply u32_range|]. rewrite Z.shiftr_div_pow2 by lia.
  pose proof (Z.pow_pos_nonneg 2 (32 - r) ltac:(lia) ltac:(lia)). unfold word_ok in Hx.
  split; [apply Z.div_pos; lia|]. apply Z.div_lt_upper_bound; nia.
Qed.

Lemma rotl32_inj x y r : 0 < r < 32 -> word_ok x -> word_ok y -> rotl32 x r = rotl32 y r -> x = y.
Proof.
  intros Hr Hx Hy H. apply Z.bits_inj'. intros i Hi.
  destruct (Z.ltb_spec i 32); [|by rewrite !testbit_word].
  destruct (Z.ltb_spec (i + r) 32).
  - pose proof (rotl32_bits x r (i + r) Hx) as Ex. pose proof (rotl32_bits y r (i + r) Hy) as Ey.
    rewrite H in Ex. rewrite Ex in Ey by lia. destruct (Z.ltb_spec (i + r) r); [lia|].
    by rewrite Z.add_simpl_r in Ey; apply Ey; lia.
  - pose proof (rotl32_bits x r (i + r - 32) Hx) as Ex. pose proof (rotl32_bits y r (i + r - 32) Hy) as Ey.
    rewrite H in Ex. rewrite Ex in Ey by lia. destruct (Z.ltb_spec (i + r - 32) r); [|lia].
    replace (i + r - 32 + (32 - r)) with i in Ey by lia. apply Ey; lia.
Qed.

(** The high bits survive [h ^= h >> n], and the others follow from them. *)
Lemma xorshift_inj x y n :
  0 < n -> word_ok x -> word_ok y ->
  Z.lxor x (Z.shiftr x n) = Z.lxor y (Z.shiftr y n) -> x = y.
Proof.
  intros Hn Hx Hy H.
  assert (A : forall m i, 32 - Z.of_nat m <= i -> 0 <= i -> Z.testbit x i = Z.testbit y i).
  { induction m as [|m IH]; intros i Hm Hi; [by rewrite !testbit_word by (done || lia)|].
    pose proof (f_equal (fun z => Z.testbit z i) H) as Hbit. cbn beta in Hbit.
    rewrite !Z.lxor_spec, !Z.shiftr_spec, (IH (i + n)) in Hbit by lia.
    destruct (Z.testbit x i), (Z.testbit y i), (Z.testbit y (i + n)); done. }
  apply Z.bits_inj'. intros i Hi. apply (A 32%nat); lia.
Qed.

Lemma shiftr_ok x n : 0 <= n -> word_ok x -> word_ok (Z.shiftr x n).
Proof.
  intros Hn Hx. rewrite Z.shiftr_div_pow2 by done. unfold word_ok in *.
  pose proof (Z.pow_pos_nonneg 2 n ltac:(lia) Hn).
  split; [apply Z.div_pos; lia|]. apply Z.div_lt_upper_bound; nia.
Qed.

#[local] Hint Extern 1 (word_ok (rotl32 _ _)) => apply rotl32_ok; [|lia] : kvsev.
#[local] Hint Extern 1 (word_ok (Z.shiftr _ _)) => apply shiftr_ok; [lia|] : kvsev.

(** Undo one step of the mixing in the equation [H]. *)
Ltac unmix_step H :=
  first
  [ apply xorshift_inj in H; [|lia|by auto with kvsev|by auto with kvsev]
  | apply rotl32_inj in H; [|lia|by auto with kvsev|by auto with kvsev]
  | apply (mul_inj 0xc2b2ae35 0x7ed1b41d) in H; [|done|by auto with kvsev|by auto with kvsev]
  | apply (mul_inj 0x85ebca6b 0xa5cb9243) in H; [|done|by auto with kvsev|by auto with kvsev]
  | apply (mul_inj murmur_c1 0xdee13bb1) in H; [|done|by auto with kvsev|by auto with kvsev]
  | apply (mul_inj murmur_c2 0x56ed309b) in H; [|done|by auto with kvsev|by auto with kvsev] ].

Lemma fmix32_inj x y : word_ok x -> word_ok y -> fmix32 x = fmix32 y -> x = y.
Proof. intros Hx Hy H. unfold fmix32 in H. repeat unmix_step H. done. Qed.

Lemma scramble_ok k : word_ok (scramble k).
Proof. apply u32_word_ok. Qed.

Lemma scramble_inj x y : word_ok x -> word_ok y -> scramble x = scramble y -> x = y.
Proof. intros Hx Hy H. unfold scramble in H. repeat unmix_step H. done. Qed.

Lemma lxor_inj_r x y z : Z.lxor x z = Z.lxor y z -> x = y.
Proof. intros H. by rewrite <- (lxor_twice x z), H, lxor_twice. Qed.

Lemma murmur_round_inj h x y :
  word_ok h -> word_ok (le_load x) -> word_ok (le_load y) ->
  murmur_round h x = murmur_round h y -> le_load x = le_load y.
Proof.
  intros Hh Hx Hy H. unfold murmur_round in H.
  apply (f_equal (fun z => u32 (z - 0xe6546b64))) in H.
  rewrite <- !(u32_add_l (_ * 5)), !u32_add_sub in H by auto with kvsev.
  apply (mul_inj 5 0xcccccccd) in H; [|done|auto using scramble_ok with kvsev..].
  apply rotl32_inj in H; [|lia|auto using scramble_ok with kvsev..].
  rewrite !(Z.lxor_comm h) in H. apply lxor_inj_r in H. by apply scramble_inj in H.
Qed.

Lemma le_load_4_inj x y :
  bytes_ok x -> bytes_ok y -> length x = 4%nat -> length y = 4%nat ->
  word_ok (le_load x) /\ (le_load x = le_load y -> x = y).
Proof.
  intros Hx Hy Lx Ly. list_of_length x Lx. list_of_length y Ly. bytes_in_context.
  unfold byte_ok, word_ok in *. cbn [le_load foldr]. split; [lia|].
  intros. repeat (f_equal; [lia|]). f_equal; lia.
Qed.

(** MurmurHash3_x86_32 is injective on keys of four bytes: every step of the mixing
    (odd multiplications, rotations and xor-shifts) can be undone, so two different keys of
    one block never share a hash value. *)
Theorem murmur3_four_bytes_injective (x y : list Z) :
  bytes_ok x -> bytes_ok y -> length x = 4%nat -> length y = 4%nat -> x <> y ->
  MurmurHash3_x86_32 x 4 <> MurmurHash3_x86_32 y 4.
Proof.
  intros Hx Hy Lx Ly Hne H. apply Hne.
  destruct (le_load_4_inj x y Hx Hy Lx Ly) as [Wx Hinj]. apply Hinj.
  destruct (le_load_4_inj y x Hy Hx Ly Lx) as [Wy _].
  assert (E : forall k, bytes_ok k -> length k = 4%nat -> MurmurHash3_x86_32 k 4 =
      Ret (fmix32 (u32 (Z.lxor (Z.lxor (murmur_round 0 k) 0) 4)))).
  { intros k Hk Lk. pose proof (murmur3_meets_spec k [] Hk) as M. rewrite app_nil_r, Lk in M.
    rewrite M by (simpl; lia). unfold murmur3_spec. rewrite Lk. by list_of_length k Lk. }
  rewrite !E in H by done. injection H as H.
  rewrite !Z.lxor_0_r in H.
  apply fmix32_inj in H; [|auto with kvsev..].
  rewrite !u32_id in H by (apply (lxor_bound _ _ 32); [lia|apply u32_range|lia]).
  apply lxor_inj_r in H. apply (murmur_round_inj 0) in H; [done| |done..]. unfold word_ok. lia.
Qed.

Lemma murmur3_four_bytes_injective_witness :
  MurmurHash3_x86_32 [97; 97; 97; 97] 4 <> MurmurHash3_x86_32 [97; 97; 97; 98] 4.
Proof.
  refine (murmur3_four_bytes_injective [97; 97; 97; 97] [97; 97; 97; 98] _ _ eq_refl eq_refl _); [..|discriminate];
    repeat (apply Forall_cons_2; [unfold byte_ok; lia|]); apply Forall_nil_2.
Defined.
