(* ===== verification/Util.v ===== *)
(** * String utilities (src/memcached/util.c)

    Number parsing on top of the C library's [strto...] functions, percent-encoding of keys,
    bounded copying, constant-time comparison and byte swapping.  A C string is the list of
    its bytes before the terminating zero; reading the byte at its length gives the zero. *)

From S2P Require Import Prelude.

(** ** What the C library's [strtoull] and [strtoll] do (64-bit [long] and [long long]) *)

Definition isspace (c : Z) : bool := ((9 <=? c) && (c <=? 13)) || (c =? 32).
Definition isdigit (c : Z) : bool := (48 <=? c) && (c <=? 57).
Definition isalpha (c : Z) : bool :=
  ((65 <=? c) && (c <=? 90)) || ((97 <=? c) && (c <=? 122)).
Definition isalnum (c : Z) : bool := isalpha c || isdigit c.

(** [str[i]]. *)
Definition char_at (str : list Z) (i : nat) : Z := default 0 (str !! i).

Fixpoint take_while (p : Z -> bool) (l : list Z) : list Z :=
  match l with [] => [] | c :: l => if p c then c :: take_while p l else [] end.

(** The value of a digit in any base up to 36; 36 if it is none. *)
Definition digit_value (c : Z) : Z :=
  if isdigit c then c - 48
  else if (65 <=? c) && (c <=? 90) then c - 55
  else if (97 <=? c) && (c <=? 122) then c - 87
  else 36.

Definition is_base_digit (base c : Z) : bool := digit_value c <? base.

Definition number_value (base : Z) (ds : list Z) : Z :=
  foldl (fun acc c => base * acc + digit_value c) 0 ds.

(** White space, a sign, the prefix 0x in base 16, digits: the sign, the magnitude and the
    number of characters consumed; nothing if there is no digit. *)
Definition scan_number (base : Z) (str : list Z) : option (bool * Z * nat) :=
  let ws := length (take_while isspace str) in
  let c := char_at str ws in
  let neg := c =? 45 in
  let sg := if neg || (c =? 43) then 1%nat else 0%nat in
  let p := (ws + sg)%nat in
  let x := char_at str (p + 1) in
  let pre := if (base =? 16) && (char_at str p =? 48) && ((x =? 120) || (x =? 88))
                && is_base_digit 16 (char_at str (p + 2)) then 2%nat else 0%nat in
  let ds := take_while (is_base_digit base) (drop (p + pre) str) in
  match ds with
  | [] => None
  | _ => Some (neg, number_value base ds, (p + pre + length ds)%nat)
  end.

(** The value, [endptr - str] and whether [errno] is set to [ERANGE]. *)
Definition strtoull (base : Z) (str : list Z) : Z * nat * bool :=
  match scan_number base str with
  | None => (0, 0%nat, false)
  | Some (neg, mag, n) =>
      if 2 ^ 64 <=? mag then (2 ^ 64 - 1, n, true)
      else (u64 (if neg then - mag else mag), n, false)
  end.

Definition strtoll (base : Z) (str : list Z) : Z * nat * bool :=
  match scan_number base str with
  | None => (0, 0%nat, false)
  | Some (true, mag, n) => if 2 ^ 63 <? mag then (- 2 ^ 63, n, true) else (- mag, n, false)
  | Some (false, mag, n) => if 2 ^ 63 <=? mag then (2 ^ 63 - 1, n, true) else (mag, n, false)
  end.

Definition strtoul := strtoull.
Definition strtol := strtoll.

(** ** The parsers: the returned truth value and [*out] *)

(** [xisspace( *endptr) || ( *endptr == '\0' && endptr != str)]. *)
Definition ends_well (str : list Z) (endptr : nat) : bool :=
  let c := char_at str endptr in
  isspace c || ((c =? 0) && negb (endptr =? 0)%nat).

(** [strchr(str, '-') != NULL]. *)
Definition has_minus (str : list Z) : bool := existsb (fun c => c =? 45) str.

Definition safe_strtoull (str : list Z) (out : bool) : outcome (bool * Z) :=
  _ ← c_assert out;
  let '(ull, endptr, erange) := strtoull 10 str in
  if erange || (endptr =? 0)%nat then Ret (false, 0) else
  if ends_well str endptr then
    if (i64 ull <? 0) && has_minus str then Ret (false, 0) else Ret (true, ull)
  else Ret (false, 0).

Definition safe_strtoull_hex (str : list Z) (out : bool) : outcome (bool * Z) :=
  _ ← c_assert out;
  let '(ull, endptr, erange) := strtoull 16 str in
  if erange || (endptr =? 0)%nat then Ret (false, 0) else
  if ends_well str endptr then
    if (i64 ull <? 0) && has_minus str then Ret (false, 0) else Ret (true, ull)
  else Ret (false, 0).

Definition safe_strtoll (str : list Z) (out : bool) : outcome (bool * Z) :=
  _ ← c_assert out;
  let '(ll, endptr, erange) := strtoll 10 str in
  if erange || (endptr =? 0)%nat then Ret (false, 0) else
  if ends_well str endptr then Ret (true, ll) else Ret (false, 0).

Definition safe_strtoul (str : option (list Z)) (out : bool) : outcome (bool * Z) :=
  _ ← c_assert out;
  _ ← c_assert (bool_decide (is_Some str));
  str ← deref str;
  let '(l, endptr, erange) := strtoul 10 str in
  if erange || (endptr =? 0)%nat then Ret (false, 0) else
  if ends_well str endptr then
    if (i64 l <? 0) && has_minus str then Ret (false, 0) else Ret (true, u32 l)
  else Ret (false, 0).

Definition safe_strtol (str : list Z) (out : bool) : outcome (bool * Z) :=
  _ ← c_assert out;
  let '(l, endptr, erange) := strtol 10 str in
  if erange || (endptr =? 0)%nat then Ret (false, 0) else
  if ends_well str endptr then Ret (true, i32 l) else Ret (false, 0).

(** ** Percent-encoding *)

Definition hex_digit (n : Z) : Z := if n <? 10 then 48 + n else 55 + n.

(** [snprintf(str, 4, "%%%02hhX", x)] without its terminator. *)
Definition percent (x : Z) : list Z := [37; hex_digit (x / 16); hex_digit (x mod 16)].

(** The entry of [uriencode_map] for a byte: [None] for the null pointer. *)
Definition uriencode_entry (x : Z) : option (list Z) :=
  if isalnum x || (x =? 45) || (x =? 46) || (x =? 95) || (x =? 126) then None
  else Some (percent x).

Definition uriencode_init : list (option (list Z)) := map uriencode_entry (seqZ 0 256).

(** The loop over [src]; [dst] and [d] are the output and the number of bytes in it. *)
Fixpoint uriencode_loop (map : list (option (list Z))) (src : list Z) (dst : list Z) (d : nat)
    (dstlen : Z) : outcome (bool * nat * list Z) :=
  match src with
  | [] => Ret (true, d, dst)
  | c :: src =>
      if dstlen <? u64 (Z.of_nat d + 4) then Ret (false, d, dst) else
      e ← deref (map !! Z.to_nat c);
      match e with
      | Some enc => dst ← write_bytes dst d enc; uriencode_loop map src dst (d + 3) dstlen
      | None => dst ← write_bytes dst d [c]; uriencode_loop map src dst (d + 1) dstlen
      end
  end.

Definition uriencode (map : list (option (list Z))) (src dst : list Z) (srclen : nat) (dstlen : Z)
    : outcome (bool * list Z) :=
  bytes ← read_bytes src srclen;
  '(ok, d, dst) ← uriencode_loop map bytes dst 0 dstlen;
  if (ok : bool) then dst ← write_bytes dst d [0]; Ret (true, dst) else Ret (false, dst).

(** ** Copying and comparing *)

(** [for (x = 0; x < dstmax - 1 && src[x] != '\0'; x++) dst[x] = src[x]]: the final [x]. *)
Fixpoint strcpy_loop (src : list Z) (limit : Z) (dst : list Z) (x : nat) : outcome (nat * list Z) :=
  match src with
  | c :: src =>
      if Z.of_nat x <? limit then
        dst ← write_bytes dst x [c]; strcpy_loop src limit dst (S x)
      else Ret (x, dst)
  | [] => Ret (x, dst)
  end.

Definition safe_strcpy (dst : list Z) (src : list Z) (dstmax : Z) : outcome (bool * list Z) :=
  '(x, dst) ← strcpy_loop src (u64 (dstmax - 1)) dst 0;
  dst ← write_bytes dst x [0];
  Ret (char_at src x =? 0, dst).

Definition safe_memcmp (a b : list Z) (len : nat) : outcome bool :=
  ua ← read_bytes a len;
  ub ← read_bytes b len;
  let delta := foldl (fun delta xy => Z.lor delta (Z.lxor xy.1 xy.2)) 0 (zip ua ub) in
  Ret (delta =? 0).

(** ** Byte order *)

(** [mc_swap64] on a little-endian machine: [rv] is signed, its bits are those of the result. *)
Definition mc_swap64 (val : Z) : Z :=
  (c_for 0 8 (fun _ '(rv, inp) =>
     (u64 (Z.lor (Z.shiftl rv 8) (Z.land inp 0xff)), Z.shiftr inp 8)) (0, val)).1.

Definition ntohll (val : Z) : Z := mc_swap64 val.
Definition htonll (val : Z) : Z := mc_swap64 val.

(** ** Correctness of the string utilities

    Parsing undoes printing for every integer type, numbers that do not fit wrap silently,
    percent-encoding stays in its buffer and can be decoded, and byte swapping is its own
    inverse. *)

From S2P Require Import Itoa.

(** ** Scanning digits *)

Definition digit_chars (ds : list Z) : Prop := Forall (fun c => 48 <= c <= 57) ds.

(** What may follow a number: the end of the string or white space. *)
Definition terminated (rest : list Z) : bool :=
  match rest with [] => true | c :: _ => isspace c end.

Lemma isdigit_ok c : 48 <= c <= 57 -> isdigit c = true.
Proof. intros. unfold isdigit. lia. Qed.

Lemma digit_value_ok c : 48 <= c <= 57 -> digit_value c = c - 48.
Proof. intros. unfold digit_value. by rewrite isdigit_ok. Qed.

Lemma space_not_digit c : isspace c = true -> is_base_digit 10 c = false.
Proof.
  unfold isspace, is_base_digit, digit_value, isdigit. intros.
  repeat case_match; lia.
Qed.

Lemma take_while_app (p : Z -> bool) ds rest :
  Forall (fun c => p c = true) ds -> match rest with [] => True | c :: _ => p c = false end ->
  take_while p (ds ++ rest) = ds.
Proof.
  intros Hd Hr. induction Hd as [|c ds Hc Hd IH]; simpl.
  - destruct rest; [done|]. simpl. by rewrite Hr.
  - by rewrite Hc, IH.
Qed.

Lemma number_value_undec ds : digit_chars ds -> number_value 10 ds = undec ds.
Proof.
  unfold number_value, undec. generalize 0. intros a Hd. revert a.
  induction Hd as [|c ds Hc Hd IH]; intros a; [done|]. simpl. rewrite IH. by rewrite digit_value_ok.
Qed.

Lemma digits_scanned ds rest :
  digit_chars ds -> terminated rest = true ->
  take_while (is_base_digit 10) (ds ++ rest) = ds.
Proof.
  intros Hd Hr. apply take_while_app.
  - eapply Forall_impl; [|exact Hd]. cbn beta. intros c Hc. unfold is_base_digit. rewrite digit_value_ok by done. lia.
  - destruct rest; [done|]. by apply space_not_digit.
Qed.

Lemma take_while_none p c l : p c = false -> take_while p (c :: l) = [].
Proof. intros H. simpl. by rewrite H. Qed.

(** A number with or without a minus sign. *)
Lemma scan_digits (neg : bool) ds rest :
  digit_chars ds -> ds <> [] -> terminated rest = true ->
  scan_number 10 ((if neg then [45] else []) ++ ds ++ rest) =
    Some (neg, undec ds, ((if neg then 1 else 0) + length ds)%nat).
Proof.
  intros Hd Hne Hr. destruct ds as [|c ds]; [done|].
  pose proof (Forall_cons_1 _ _ _ Hd) as [Hc _].
  pose proof (digits_scanned (c :: ds) rest Hd Hr) as Hs.
  pose proof (number_value_undec _ Hd) as Hv.
  unfold scan_number. destruct neg.
  - cbn [app]. rewrite take_while_none by done. cbn [length].
    change (char_at (45 :: c :: ds ++ rest) 0) with 45. cbn [Z.eqb Pos.eqb orb Nat.add andb].
    cbn [drop]. cbn [app] in Hs. rewrite Hs, Hv. done.
  - cbn [app]. assert (isspace c = false) as E by (unfold isspace; lia). rewrite take_while_none by done.
    cbn [length]. change (char_at (c :: ds ++ rest) 0) with c.
    destruct (Z.eqb_spec c 45); [lia|]. destruct (Z.eqb_spec c 43); [lia|]. cbn [orb Nat.add andb Z.eqb Pos.eqb].
    cbn [drop]. cbn [app] in Hs. rewrite Hs, Hv. done.
Qed.

Lemma ends_well_ok pre ds rest :
  terminated rest = true -> (pre ++ ds <> []) -> ends_well (pre ++ ds ++ rest) (length pre + length ds) = true.
Proof.
  intros Hr Hne. unfold ends_well, char_at.
  rewrite app_assoc, lookup_app_r by (rewrite length_app; lia).
  rewrite <- length_app, Nat.sub_diag. destruct rest as [|c rest]; simpl.
  - destruct (pre ++ ds) eqn:E; [done|]. done.
  - simpl in Hr. by rewrite Hr.
Qed.

Lemma no_minus ds rest : digit_chars ds -> has_minus (ds ++ rest) = has_minus rest.
Proof.
  intros Hd. unfold has_minus. rewrite existsb_app.
  induction Hd as [|c ds Hc Hd IH]; [done|]. simpl. destruct (Z.eqb_spec c 45); [lia|]. exact IH.
Qed.

Lemma dec_digits u : 0 <= u < 2 ^ 64 ->
  digit_chars (dec u) /\ undec (dec u) = u /\ dec u <> [].
Proof.
  intros Hu. assert (0 <= u < 10 ^ Z.of_nat 20) as H20
    by (split; [lia|]; apply (Z.lt_trans _ (2 ^ 64)); [lia|reflexivity]).
  destruct (dec_fuel_spec 20 u H20 ltac:(lia)) as (I1 & I2 & I3 & I4).
  split; [exact I3|]. split; [exact I1|]. intros E. unfold dec in E. rewrite E in *.
  destruct (decide (u = 0)) as [->|]; [discriminate E|].
  destruct I4 as (c & l & D & _); [lia|discriminate D].
Qed.

Lemma itoa_u64_length u : 0 <= u < 2 ^ 64 -> (length (itoa_u64 u) <= 20)%nat.
Proof.
  intros Hu. rewrite (itoa_u64_dec u Hu). apply (dec_fuel_spec 20 u); [|lia].
  split; [lia|]. apply (Z.lt_trans _ (2 ^ 64)); [lia|reflexivity].
Qed.

Lemma itoa_u32_length u : 0 <= u < 2 ^ 32 -> (length (itoa_u32 u) <= 20)%nat.
Proof. intros Hu. rewrite (itoa_u32_dec u Hu), <- (itoa_u64_dec u) by lia. apply itoa_u64_length. lia. Qed.

(** ** The parsers on a signed digit string *)

Section Parsers.
Context (neg : bool) (ds rest : list Z).
Context (Hd : digit_chars ds) (Hne : ds <> []) (Hr : terminated rest = true).

Definition text : list Z := (if neg then [45] else []) ++ ds ++ rest.
Definition signed_value : Z := if neg then - undec ds else undec ds.

Lemma text_scan : scan_number 10 text = Some (neg, undec ds, ((if neg then 1 else 0) + length ds)%nat).
Proof. by apply scan_digits. Qed.

Lemma text_ends : ends_well text ((if neg then 1 else 0) + length ds) = true.
Proof.
  pose proof (ends_well_ok (if neg then [45] else []) ds rest Hr) as H. unfold text. destruct neg; apply H; [done|].
  by rewrite app_nil_l.
Qed.

Lemma text_length : ((if neg then 1 else 0) + length ds =? 0)%nat = false.
Proof. destruct ds; [done|]. destruct neg; done. Qed.

Lemma text_minus : has_minus text = neg || has_minus rest.
Proof. unfold text. destruct neg; [done|]. exact (no_minus ds rest Hd). Qed.

Lemma safe_strtoull_text :
  safe_strtoull text true =
    Ret (if (undec ds <? 2 ^ 64) && negb ((i64 (u64 signed_value) <? 0) && (neg || has_minus rest))
         then (true, u64 signed_value) else (false, 0)).
Proof.
  unfold safe_strtoull, strtoull. rewrite text_scan. cbn [c_assert mbind outcome_bind].
  destruct (Z.leb_spec (2 ^ 64) (undec ds)).
  - by rewrite (proj2 (Z.ltb_ge (undec ds) (2 ^ 64))) by lia.
  - rewrite (proj2 (Z.ltb_lt (undec ds) (2 ^ 64))), text_length, text_ends, text_minus by lia. cbn [orb andb].
    fold signed_value. by destruct ((i64 (u64 signed_value) <? 0) && (neg || has_minus rest)).
Qed.

Lemma safe_strtoul_text :
  safe_strtoul (Some text) true =
    Ret (if (undec ds <? 2 ^ 64) && negb ((i64 (u64 signed_value) <? 0) && (neg || has_minus rest))
         then (true, u32 (u64 signed_value)) else (false, 0)).
Proof.
  unfold safe_strtoul, strtoul, strtoull. cbn [c_assert mbind outcome_bind deref].
  rewrite bool_decide_eq_true_2 by eauto. cbn [c_assert]. rewrite text_scan.
  destruct (Z.leb_spec (2 ^ 64) (undec ds)).
  - by rewrite (proj2 (Z.ltb_ge (undec ds) (2 ^ 64))) by lia.
  - rewrite (proj2 (Z.ltb_lt (undec ds) (2 ^ 64))), text_length, text_ends, text_minus by lia. cbn [orb andb].
    fold signed_value. by destruct ((i64 (u64 signed_value) <? 0) && (neg || has_minus rest)).
Qed.

Lemma strtoll_text :
  - 2 ^ 63 <= signed_value < 2 ^ 63 ->
  strtoll 10 text = (signed_value, ((if neg then 1 else 0) + length ds)%nat, false).
Proof.
  unfold strtoll, signed_value. intros H. rewrite text_scan. destruct neg.
  - by rewrite (proj2 (Z.ltb_ge _ _)) by lia.
  - by rewrite (proj2 (Z.leb_gt _ _)) by lia.
Qed.

Lemma safe_strtoll_text :
  - 2 ^ 63 <= signed_value < 2 ^ 63 -> safe_strtoll text true = Ret (true, signed_value).
Proof.
  intros H. unfold safe_strtoll. rewrite strtoll_text by done. cbn [c_assert mbind outcome_bind].
  by rewrite text_length, text_ends.
Qed.

Lemma safe_strtol_text :
  - 2 ^ 63 <= signed_value < 2 ^ 63 -> safe_strtol text true = Ret (true, i32 signed_value).
Proof.
  intros H. unfold safe_strtol, strtol. rewrite strtoll_text by done. cbn [c_assert mbind outcome_bind].
  by rewrite text_length, text_ends.
Qed.

End Parsers.

(** The text of a number and its digits. *)
Lemma itoa_64_text i rest : - 2 ^ 63 <= i < 2 ^ 63 ->
  itoa_64 i ++ rest = text (i <? 0) (dec (Z.abs i)) rest /\
  signed_value (i <? 0) (dec (Z.abs i)) = i /\
  digit_chars (dec (Z.abs i)) /\ dec (Z.abs i) <> [].
Proof.
  intros Hi. destruct (dec_digits (Z.abs i)) as (D1 & D2 & D3); [lia|].
  unfold itoa_64, text, signed_value. rewrite D2. destruct (Z.ltb_spec i 0).
  - replace (u64 (- u64 i)) with (Z.abs i) by (unfold u64; rewrite <- (Z.mod_unique_pos i (2 ^ 64) (-1) (i + 2 ^ 64)) by lia;
      apply (Z.mod_unique_pos _ _ (-1)); lia).
    rewrite itoa_u64_dec by lia. split; [done|]. split; [lia|]. done.
  - rewrite u64_id, itoa_u64_dec, Z.abs_eq by lia. rewrite Z.abs_eq in * by lia. done.
Qed.

Lemma itoa_32_64 i : - 2 ^ 31 <= i < 2 ^ 31 -> itoa_32 i = itoa_64 i.
Proof.
  intros Hi. unfold itoa_32, itoa_64. destruct (Z.ltb_spec i 0).
  - replace (u32 (- u32 i)) with (- i) by (unfold u32; rewrite <- (Z.mod_unique_pos i (2 ^ 32) (-1) (i + 2 ^ 32)) by lia;
      apply (Z.mod_unique_pos _ _ (-1)); lia).
    replace (u64 (- u64 i)) with (- i) by (unfold u64; rewrite <- (Z.mod_unique_pos i (2 ^ 64) (-1) (i + 2 ^ 64)) by lia;
      apply (Z.mod_unique_pos _ _ (-1)); lia).
    by rewrite itoa_u32_dec, itoa_u64_dec by lia.
  - by rewrite u32_id, u64_id, itoa_u32_dec, itoa_u64_dec by lia.
Qed.

Lemma safe_strtoull_dec u rest : 0 <= u < 2 ^ 64 -> terminated rest = true ->
  u < 2 ^ 63 \/ has_minus rest = false ->
  safe_strtoull (dec u ++ rest) true = Ret (true, u) /\
  safe_strtoul (Some (dec u ++ rest)) true = Ret (true, u32 u).
Proof.
  intros Hu Hr Hm. destruct (dec_digits u Hu) as (D1 & D2 & D3).
  pose proof (safe_strtoull_text false (dec u) rest D1 D3 Hr) as H.
  pose proof (safe_strtoul_text false (dec u) rest D1 D3 Hr) as H'.
  unfold signed_value, text in H, H'. rewrite D2 in H, H'. cbn [app] in H, H'. rewrite H, H', u64_id by lia.
  rewrite (proj2 (Z.ltb_lt u (2 ^ 64))) by lia. destruct Hm as [Hm| ->].
  - rewrite i64_id by lia. rewrite (proj2 (Z.ltb_ge u 0)) by lia. done.
  - by rewrite andb_false_r.
Qed.

(** ** The claims *)

(** Parsing undoes printing.  For each of the four integer types, the parser applied to
    what the printer wrote, followed by the end of the string or by white space and anything
    else, accepts and returns the number; for unsigned numbers of 2^63 and above this needs
    that no minus sign appears anywhere later in the string, which the code searches whole. *)
Theorem strto_round_trip (rest : list Z) :
  terminated rest = true ->
  (forall u, 0 <= u < 2 ^ 64 -> u < 2 ^ 63 \/ has_minus rest = false ->
     safe_strtoull (itoa_u64 u ++ rest) true = Ret (true, u)) /\
  (forall u, 0 <= u < 2 ^ 32 -> safe_strtoul (Some (itoa_u32 u ++ rest)) true = Ret (true, u)) /\
  (forall i, - 2 ^ 63 <= i < 2 ^ 63 -> safe_strtoll (itoa_64 i ++ rest) true = Ret (true, i)) /\
  (forall i, - 2 ^ 31 <= i < 2 ^ 31 -> safe_strtol (itoa_32 i ++ rest) true = Ret (true, i)).
Proof.
  intros Hr. split_and!.
  - intros u Hu Hm. rewrite itoa_u64_dec by done. by apply safe_strtoull_dec.
  - intros u Hu. rewrite itoa_u32_dec by done.
    destruct (safe_strtoull_dec u rest) as [_ ->]; [lia|done|lia|]. by rewrite u32_id.
  - intros i Hi. destruct (itoa_64_text i rest Hi) as (-> & E & D1 & D2).
    rewrite safe_strtoll_text by (done || lia). by rewrite E.
  - intros i Hi. rewrite itoa_32_64 by done. destruct (itoa_64_text i rest) as (-> & E & D1 & D2); [lia|].
    rewrite safe_strtol_text by (done || lia). by rewrite E, i32_id.
Qed.

Lemma strto_round_trip_witness : safe_strtol (itoa_32 (-2147483648) ++ [32; 102]) true = Ret (true, -2147483648).
Proof.
  destruct (strto_round_trip [32; 102] eq_refl) as (_ & _ & _ & H). apply H. lia.
Defined.

(** Numbers that do not fit their type are accepted and wrap.  [safe_strtoul] takes numbers
    of 33 to 63 bits and keeps the low 32, [safe_strtol] likewise, and [safe_strtoull] takes a
    negative number whose two's complement is below 2^63 for that positive number, because the
    sign is looked for only when the value is 2^63 or more; numbers of more than 64 bits are
    refused. *)
Theorem strto_wraps (rest : list Z) :
  terminated rest = true ->
  (forall u, 2 ^ 32 <= u < 2 ^ 63 ->
     safe_strtoul (Some (itoa_u64 u ++ rest)) true = Ret (true, u mod 2 ^ 32)) /\
  (forall i, 2 ^ 31 <= i < 2 ^ 63 -> safe_strtol (itoa_64 i ++ rest) true = Ret (true, i32 i)) /\
  (forall n, 0 < n < 2 ^ 63 -> safe_strtoull (45 :: itoa_u64 (2 ^ 64 - n) ++ rest) true = Ret (true, n)) /\
  (forall ds, digit_chars ds -> ds <> [] -> 2 ^ 64 <= undec ds ->
     safe_strtoull (ds ++ rest) true = Ret (false, 0) /\ safe_strtoul (Some (ds ++ rest)) true = Ret (false, 0)).
Proof.
  intros Hr. split_and!.
  - intros u Hu. rewrite itoa_u64_dec by lia.
    destruct (safe_strtoull_dec u rest) as [_ ->]; [lia|done|lia|]. done.
  - intros i Hi. destruct (itoa_64_text i rest) as (-> & E & D1 & D2); [lia|].
    rewrite safe_strtol_text by (done || lia). by rewrite E.
  - intros n Hn. rewrite itoa_u64_dec by lia. destruct (dec_digits (2 ^ 64 - n)) as (D1 & D2 & D3); [lia|].
    pose proof (safe_strtoull_text true _ rest D1 D3 Hr) as H. unfold text, signed_value in H.
    rewrite D2 in H. replace (u64 (- (2 ^ 64 - n))) with n in H
      by (unfold u64; apply (Z.mod_unique_pos _ _ (-1)); lia).
    cbn [app] in H. rewrite H, (proj2 (Z.ltb_lt _ (2 ^ 64))), i64_id, (proj2 (Z.ltb_ge n 0)) by lia. done.
  - intros ds D1 D2 Hb.
    pose proof (safe_strtoull_text false ds rest D1 D2 Hr) as H.
    pose proof (safe_strtoul_text false ds rest D1 D2 Hr) as H'.
    unfold text in *. cbn [app] in *. by rewrite H, H', (proj2 (Z.ltb_ge (undec ds) (2 ^ 64))) by lia.
Qed.

Lemma strto_wraps_witness : safe_strtoul (Some (itoa_u64 4294967297 ++ [])) true = Ret (true, 4294967297 mod 2 ^ 32).
Proof. destruct (strto_wraps [] eq_refl) as (H & _). apply H. lia. Defined.

(** ** Percent-encoding *)

Definition encoded_byte (c : Z) : list Z :=
  match uriencode_entry c with Some e => e | None => [c] end.
Definition encoded (src : list Z) : list Z := concat (map encoded_byte src).

(** A decoder for percent-encoded text. *)
Definition hex_value (c : Z) : Z := if isdigit c then c - 48 else c - 55.
Fixpoint uridecode (fuel : nat) (l : list Z) : list Z :=
  match fuel, l with
  | S fuel, 37 :: h :: d :: l => 16 * hex_value h + hex_value d :: uridecode fuel l
  | S fuel, c :: l => c :: uridecode fuel l
  | _, _ => []
  end.

Lemma uriencode_map_lookup c : byte_ok c -> uriencode_init !! Z.to_nat c = Some (uriencode_entry c).
Proof.
  intros [H0 H1]. unfold uriencode_init. rewrite list_lookup_fmap.
  rewrite lookup_seqZ_lt by lia. simpl. do 2 f_equal. lia.
Qed.

Lemma encoded_byte_length c : length (encoded_byte c) = match uriencode_entry c with Some _ => 3%nat | None => 1%nat end.
Proof. unfold encoded_byte, uriencode_entry. destruct (_ || _); done. Qed.

(** Decoding one encoded byte. *)
Lemma uridecode_byte fuel c l : byte_ok c ->
  uridecode (S fuel) (encoded_byte c ++ l) = c :: uridecode fuel l.
Proof.
  intros Hc. unfold encoded_byte, uriencode_entry.
  destruct (isalnum c || (c =? 45) || (c =? 46) || (c =? 95) || (c =? 126)) eqn:E; simpl.
  - destruct (Z.eqb_spec c 37) as [->|]; [discriminate E|].
    repeat case_match; try done; congruence.
  - f_equal. apply (byte_forall_eq (fun c => 16 * hex_value (hex_digit (c / 16)) + hex_value (hex_digit (c mod 16))) id);
      [by vm_compute|done].
Qed.

Lemma uridecode_encoded src : bytes_ok src -> uridecode (length src) (encoded src) = src.
Proof.
  induction 1 as [|c src Hc Hs IH]; [done|]. cbn [length]. change (encoded (c :: src)) with (encoded_byte c ++ encoded src).
  by rewrite uridecode_byte, IH.
Qed.

(** Whether the loop gets to the end: there must be room for four bytes before each byte. *)
Fixpoint fits (src : list Z) (d : nat) (dstlen : Z) : bool :=
  match src with
  | [] => true
  | c :: src => (Z.of_nat d + 4 <=? dstlen) && fits src (d + length (encoded_byte c)) dstlen
  end.

Lemma uriencode_loop_correct src pre dst :
  bytes_ok src -> Z.of_nat (length (pre ++ dst)) < 2 ^ 63 ->
  let dstlen := Z.of_nat (length (pre ++ dst)) in
  exists n dst', uriencode_loop uriencode_init src (pre ++ dst) (length pre) dstlen
      = Ret (fits src (length pre) dstlen, n, dst') /\ length dst' = length (pre ++ dst) /\
    (fits src (length pre) dstlen = true ->
       n = length (pre ++ encoded src) /\
       dst' = pre ++ encoded src ++ drop (length (encoded src)) dst /\
       (src <> [] -> (length pre + length (encoded src) < length (pre ++ dst))%nat)).
Proof.
  intros Hs. revert pre dst. induction Hs as [|c src Hc Hs IH]; intros pre dst Hl; cbn [uriencode_loop fits].
  { exists (length pre), (pre ++ dst). split; [done|]. split; [done|]. intros _.
    by rewrite app_nil_r. }
  set (L := Z.of_nat (length (pre ++ dst))) in *. pose proof (encoded_byte_length c) as Hlen.
  unfold u64. rewrite Z.mod_small by (unfold L in *; rewrite length_app in *; lia).
  destruct (Z.leb_spec (Z.of_nat (length pre) + 4) L) as [Hf|Hf]; cycle 1.
  { rewrite (proj2 (Z.ltb_lt _ _)) by lia. eexists _, _. split; [done|]. by split. }
  rewrite (proj2 (Z.ltb_ge _ _)) by lia. rewrite uriencode_map_lookup by done. cbn [deref mbind outcome_bind andb].
  assert (Hstep : exists dst1, write_bytes (pre ++ dst) (length pre) (encoded_byte c) = Ret (pre ++ encoded_byte c ++ dst1) /\
      dst1 = drop (length (encoded_byte c)) dst /\ length (encoded_byte c ++ dst1) = length dst).
  { exists (drop (length (encoded_byte c)) dst). assert (length (encoded_byte c) <= length dst)%nat.
    { unfold L in Hf. rewrite length_app in Hf. destruct (uriencode_entry c); lia. }
    rewrite write_bytes_ok by (rewrite length_app; lia). split; [|split; [done|rewrite length_app, length_drop; lia]].
    by rewrite splice_append, <- app_assoc. }
  destruct Hstep as (dst1 & Hw & -> & Hl1).
  specialize (IH (pre ++ encoded_byte c) (drop (length (encoded_byte c)) dst)).
  rewrite <- app_assoc in IH. assert (length (pre ++ encoded_byte c ++ drop (length (encoded_byte c)) dst) = length (pre ++ dst)) as EL
    by (rewrite !(length_app pre), Hl1; done).
  rewrite EL in IH. destruct (IH Hl) as (n & dst' & IH1 & IH2 & IH3). fold L in IH1.
  exists n, dst'. rewrite length_app in IH1. fold L in IH3. rewrite length_app in IH3. split; [|split; [done|]].
  - unfold encoded_byte in Hw, Hlen, IH1 |- *.
    destruct (uriencode_entry c) as [e|]; rewrite Hw; cbn [mbind outcome_bind];
      rewrite Hlen in IH1 |- *; exact IH1.
  - intros Hfit. destruct (IH3 Hfit) as (-> & -> & Hlt). change (encoded (c :: src)) with (encoded_byte c ++ encoded src).
    split; [by rewrite <- app_assoc|]. split.
    + rewrite drop_drop, length_app. by rewrite <- !app_assoc.
    + intros _. rewrite length_app. destruct src as [|c' src]; [|specialize (Hlt ltac:(done)); lia].
      cbn [encoded map concat length]. unfold L in Hf. destruct (uriencode_entry c); lia.
Qed.

(** [uriencode] never writes outside a destination of [dstlen] bytes.  It succeeds exactly
    when four bytes were free before each byte of the source; the destination then starts with
    the percent-encoded source and a terminating zero, and decoding it gives the source
    back. *)
Theorem uriencode_correct (src dst : list Z) :
  bytes_ok src -> (0 < length dst)%nat -> Z.of_nat (length dst) < 2 ^ 63 ->
  exists dst', uriencode uriencode_init src dst (length src) (Z.of_nat (length dst)) =
      Ret (fits src 0 (Z.of_nat (length dst)), dst') /\ length dst' = length dst /\
    (fits src 0 (Z.of_nat (length dst)) = true ->
       take (length (encoded src) + 1) dst' = encoded src ++ [0] /\
       uridecode (length src) (encoded src) = src).
Proof.
  intros Hs Hd Hl. unfold uriencode. rewrite read_bytes_ok, take_ge by lia. cbn [mbind outcome_bind].
  destruct (uriencode_loop_correct src [] dst Hs Hl) as (n & dst' & E & L & H).
  cbn [app length] in *. rewrite E. cbn [mbind outcome_bind].
  destruct (fits src 0 (Z.of_nat (length dst))); [|by exists dst'].
  destruct (H eq_refl) as (-> & -> & Hlt). rewrite length_app, length_drop in L.
  assert (Hroom : (length (encoded src) < length dst)%nat).
  { destruct src; [done|]. by apply Hlt. }
  rewrite write_bytes_ok by (rewrite length_app, length_drop; simpl; lia). cbn [mbind outcome_bind].
  rewrite splice_append. eexists. split; [done|]. split.
  - rewrite !length_app, !length_drop. simpl. lia.
  - intros _. split; [|by apply uridecode_encoded].
    replace (length (encoded src) + 1)%nat with (length (encoded src ++ [0])) by (rewrite length_app; simpl; lia).
    by rewrite take_app_length.
Qed.

Lemma uriencode_correct_witness :
  exists dst', uriencode uriencode_init [97; 32; 98] (replicate 16 0) 3 16 = Ret (true, dst') /\ length dst' = 16%nat.
Proof.
  destruct (uriencode_correct [97; 32; 98] (replicate 16 0)) as (dst' & E & L & _).
  - repeat (apply Forall_cons_2; [unfold byte_ok; lia|]). apply Forall_nil_2.
  - simpl. lia.
  - simpl. lia.
  - exists dst'. split; [exact E|exact L].
Defined.

(** ** Copying, comparing and swapping *)

Lemma strcpy_loop_correct src pre dst limit :
  Z.of_nat (length pre) <= limit -> limit < Z.of_nat (length (pre ++ dst)) ->
  exists copied dst', copied = take (Z.to_nat limit - length pre) src /\
    strcpy_loop src limit (pre ++ dst) (length pre) = Ret (length (pre ++ copied), (pre ++ copied) ++ dst') /\
    length (copied ++ dst') = length dst.
Proof.
  revert pre dst. induction src as [|c src IH]; intros pre dst Hp Hl; cbn [strcpy_loop].
  { exists [], dst. by rewrite take_nil, app_nil_r. }
  destruct (Z.ltb_spec (Z.of_nat (length pre)) limit) as [Hlt|Hge]; cycle 1.
  { exists [], dst. replace (Z.to_nat limit - length pre)%nat with 0%nat by lia. by rewrite take_0, app_nil_r. }
  destruct dst as [|x dst]; [rewrite app_nil_r in Hl; lia|].
  rewrite write_bytes_ok by (rewrite length_app; simpl; lia). cbn [mbind outcome_bind].
  rewrite splice_append. cbn [length drop].
  destruct (IH (pre ++ [c]) dst) as (copied & dst' & E1 & E2 & E3).
  { rewrite length_snoc. lia. }
  { rewrite length_app in *. rewrite length_snoc. simpl in *. lia. }
  rewrite length_snoc in E1, E2. exists (c :: copied), dst'. rewrite drop_0.
  split; [|split].
  - replace (Z.to_nat limit - length pre)%nat with (S (Z.to_nat limit - S (length pre))) by lia. by rewrite E1.
  - rewrite E2. by rewrite <- !app_assoc.
  - cbn [app length]. by rewrite E3.
Qed.

(** [safe_strcpy] into a buffer of [dstmax] bytes, at least one, keeps as much of the source as
    fits before the terminator, terminates it, and reports whether that was all of it. *)
Lemma safe_strcpy_correct (dst src : list Z) :
  (0 < length dst)%nat -> Z.of_nat (length dst) < 2 ^ 64 -> Forall (fun c => 0 < c) src ->
  exists dst', safe_strcpy dst src (Z.of_nat (length dst)) =
      Ret (bool_decide (length src < length dst)%nat, dst') /\ length dst' = length dst /\
    take (S (Nat.min (length src) (length dst - 1))) dst' = take (length dst - 1) src ++ [0].
Proof.
  intros Hd Hl Hs. unfold safe_strcpy. rewrite u64_id by lia.
  destruct (strcpy_loop_correct src [] dst (Z.of_nat (length dst) - 1)) as (copied & dst' & E1 & E2 & E3); [simpl; lia..|].
  cbn [app length] in *. rewrite E2. cbn [mbind outcome_bind].
  replace (Z.to_nat (Z.of_nat (length dst) - 1) - 0)%nat with (length dst - 1)%nat in E1 by lia. subst copied.
  assert (Hc : length (take (length dst - 1) src) = Nat.min (length src) (length dst - 1)) by (rewrite length_take; lia).
  rewrite length_app in E3. rewrite write_bytes_ok by (rewrite length_app; simpl; lia). cbn [mbind outcome_bind].
  rewrite splice_append. eexists. split.
  - do 2 f_equal. unfold char_at. rewrite Hc. case_bool_decide as Hb.
    + by rewrite lookup_ge_None_2 by lia.
    + destruct (lookup_lt_is_Some_2 src (Nat.min (length src) (length dst - 1))) as [c Hcc]; [lia|].
      rewrite Hcc. cbn. apply Z.eqb_neq. pose proof (proj1 (Forall_lookup _ _) Hs _ _ Hcc) as H0. simpl in H0. lia.
  - split; [rewrite !length_app, length_drop; simpl; lia|].
    replace (S (Nat.min (length src) (length dst - 1))) with (length (take (length dst - 1) src ++ [0])) by (rewrite length_snoc; lia).
    by rewrite take_app_length.
Qed.

Lemma lor_fold_zero (ps : list (Z * Z)) d :
  foldl (fun delta xy => Z.lor delta (Z.lxor xy.1 xy.2)) d ps = 0 <-> d = 0 /\ Forall (fun xy => xy.1 = xy.2) ps.
Proof.
  revert d. induction ps as [|[x y] ps IH]; intros d; simpl.
  - split; [by intros ->|naive_solver].
  - rewrite IH, Z.lor_eq_0_iff, Z.lxor_eq_0_iff, Forall_cons_iff. simpl. tauto.
Qed.

Lemma zip_equal (a b : list Z) : length a = length b -> Forall (fun xy => xy.1 = xy.2) (zip a b) <-> a = b.
Proof.
  revert b. induction a as [|x a IH]; intros [|y b] H; simpl in *; try done.
  rewrite Forall_cons_iff, IH by lia. simpl. split; [intros [-> ->]; done|by intros [= -> ->]].
Qed.

(** [safe_memcmp] looks at all [len] bytes and answers whether they agree. *)
Lemma safe_memcmp_correct (a b : list Z) (len : nat) :
  (len <= length a)%nat -> (len <= length b)%nat ->
  safe_memcmp a b len = Ret (bool_decide (take len a = take len b)).
Proof.
  intros Ha Hb. unfold safe_memcmp. rewrite !read_bytes_ok by done. cbn [mbind outcome_bind]. f_equal.
  apply eq_bool_prop_intro. rewrite bool_decide_spec, Is_true_true, Z.eqb_eq, lor_fold_zero.
  rewrite zip_equal by (rewrite !length_take; lia). tauto.
Qed.

Lemma swap_rest b r : byte_ok b -> Z.shiftr (b + 256 * r) 8 = r /\ Z.land (b + 256 * r) 0xff = b.
Proof.
  unfold byte_ok. intros Hb. change 0xff with (Z.ones 8).
  rewrite Z.land_ones, Z.shiftr_div_pow2 by lia. change (2 ^ 8) with 256. split; zdm.
Qed.

Lemma swap_acc rv b : 0 <= rv < 2 ^ 56 -> byte_ok b -> u64 (Z.lor (Z.shiftl rv 8) b) = 256 * rv + b.
Proof.
  unfold byte_ok. intros Hr Hb. rewrite Z.shiftl_mul_pow2 by lia.
  rewrite (lor_disjoint_add _ _ 8), u64_id by (lia || (apply Z.mod_mul; lia)). lia.
Qed.

Lemma mc_swap64_reverse (bs : list Z) : bytes_ok bs -> length bs = 8%nat -> mc_swap64 (le_load bs) = be_load bs.
Proof.
  intros Hb Hl. list_of_length bs Hl. bytes_in_context. unfold mc_swap64, c_for.
  cbn [seq foldl le_load foldr be_load fst].
  repeat match goal with H : byte_ok ?b |- context [?b + 256 * ?r] =>
    rewrite ?(proj1 (swap_rest b r H)), !(proj2 (swap_rest b r H)) end.
  unfold byte_ok in *.
  repeat match goal with |- context [u64 (Z.lor (Z.shiftl ?rv 8) ?b)] =>
    rewrite (swap_acc rv b) by (unfold byte_ok; lia) end.
  done.
Qed.

Lemma le_bytes_exist n v : 0 <= v < 256 ^ Z.of_nat n ->
  exists bs, bytes_ok bs /\ length bs = n /\ le_load bs = v.
Proof.
  revert v. induction n as [|n IH]; intros v Hv.
  - exists []. simpl in *. split; [apply Forall_nil_2|]. split; [done|]. lia.
  - rewrite Nat2Z.inj_succ, Z.pow_succ_r in Hv by lia. destruct (IH (v / 256)) as (bs & H1 & H2 & H3).
    { split; [apply Z.div_pos; lia|apply Z.div_lt_upper_bound; lia]. }
    exists (v mod 256 :: bs). split; [apply Forall_cons_2; [unfold byte_ok; zdm|done]|]. split; [simpl; lia|].
    cbn [le_load foldr]. change (foldr _ 0 bs) with (le_load bs). rewrite H3. zdm.
Qed.

Lemma le_load_reverse bs : le_load (reverse bs) = be_load bs.
Proof.
  induction bs as [|b bs IH] using rev_ind; [done|]. rewrite reverse_snoc. unfold be_load.
  rewrite foldl_app. cbn [foldl le_load foldr]. change (foldr _ 0 (reverse bs)) with (le_load (reverse bs)).
  rewrite IH. unfold be_load. lia.
Qed.

(** Swapping twice gives the number back, so [ntohll] undoes [htonll]. *)
Lemma ntohll_htonll v : 0 <= v < 2 ^ 64 -> ntohll (htonll v) = v.
Proof.
  intros Hv. destruct (le_bytes_exist 8 v) as (bs & H1 & H2 & <-); [exact Hv|].
  unfold ntohll, htonll. rewrite (mc_swap64_reverse bs), <- le_load_reverse by done.
  rewrite mc_swap64_reverse; [|apply Forall_reverse, H1|by rewrite length_reverse].
  by rewrite <- le_load_reverse, reverse_involutive.
Qed.
