(* ===== verification/Items.v ===== *)
(** * Items and the LRU lists (src/memcached/items.c, memcached.h)

    An item carries its links in the doubly linked list of its LRU, its reference count, its
    flags, and, in this version of the server, the message authentication code of its value
    and the index of its leaf in the Merkle tree.  The store is a heap of items, the hash table
    behind an interface, and the heads, tails and sizes of the LRUs.  The operations are those
    that run with the locks held; assertions are enabled, as in memcached-debug, so that the
    theorems also show that none of them fires.  The tracking of item sizes for statistics, the
    per-thread counters and the extended storage are left out. *)

From S2P Require Import Prelude.
From stdpp Require Export list gmap.

Local Open Scope Z_scope.

(** ** Flags and sizes (memcached.h) *)

Definition ITEM_LINKED : Z := 1.
Definition ITEM_CAS : Z := 2.
Definition ITEM_SLABBED : Z := 4.
Definition ITEM_FETCHED : Z := 8.
Definition ITEM_ACTIVE : Z := 16.
Definition ITEM_CHUNKED : Z := 32.
Definition ITEM_CFLAGS : Z := 256.
Definition ITEM_TOKEN_SENT : Z := 512.
Definition ITEM_STALE : Z := 2048.

Definition HOT_LRU : Z := 0.
Definition WARM_LRU : Z := 64.
Definition COLD_LRU : Z := 128.
Definition TEMP_LRU : Z := 192.

Definition ITEM_UPDATE_INTERVAL : Z := 60.
Definition IT_REFCOUNT_LIMIT : Z := 60000.

(** [struct _stritem]; the hash chain pointer lives in the hash table's component, and the
    key, the CAS number, the client flags and the value are the parts of [data].  The value of a
    large item is kept in a chain of chunks that are filled one after the other ([item_chunk]):
    [it_chunks] has their sizes after the empty one in the item itself, and [it_data] is the
    contents of all of them. *)
Record item := mkItem {
  it_next : option positive;
  it_prev : option positive;
  it_time : Z;
  it_exptime : Z;
  it_nbytes : Z;
  it_refcount : Z;
  it_flags : Z;
  it_slabs_clsid : Z;
  item_key : list Z;
  it_mac : list Z;
  it_mt_index : Z;
  it_cas : Z;
  it_cflags : Z;
  it_data : list Z;
  it_chunks : list Z
}.

Definition set_next (v : option positive) (i : item) : item :=
  mkItem v (it_prev i) (it_time i) (it_exptime i) (it_nbytes i) (it_refcount i) (it_flags i)
    (it_slabs_clsid i) (item_key i) (it_mac i) (it_mt_index i) (it_cas i) (it_cflags i) (it_data i) (it_chunks i).
Definition set_prev (v : option positive) (i : item) : item :=
  mkItem (it_next i) v (it_time i) (it_exptime i) (it_nbytes i) (it_refcount i) (it_flags i)
    (it_slabs_clsid i) (item_key i) (it_mac i) (it_mt_index i) (it_cas i) (it_cflags i) (it_data i) (it_chunks i).
Definition set_time (v : Z) (i : item) : item :=
  mkItem (it_next i) (it_prev i) v (it_exptime i) (it_nbytes i) (it_refcount i) (it_flags i)
    (it_slabs_clsid i) (item_key i) (it_mac i) (it_mt_index i) (it_cas i) (it_cflags i) (it_data i) (it_chunks i).
Definition set_exptime (v : Z) (i : item) : item :=
  mkItem (it_next i) (it_prev i) (it_time i) v (it_nbytes i) (it_refcount i) (it_flags i)
    (it_slabs_clsid i) (item_key i) (it_mac i) (it_mt_index i) (it_cas i) (it_cflags i) (it_data i) (it_chunks i).
Definition set_refcount (v : Z) (i : item) : item :=
  mkItem (it_next i) (it_prev i) (it_time i) (it_exptime i) (it_nbytes i) v (it_flags i)
    (it_slabs_clsid i) (item_key i) (it_mac i) (it_mt_index i) (it_cas i) (it_cflags i) (it_data i) (it_chunks i).
Definition set_flags (v : Z) (i : item) : item :=
  mkItem (it_next i) (it_prev i) (it_time i) (it_exptime i) (it_nbytes i) (it_refcount i) v
    (it_slabs_clsid i) (item_key i) (it_mac i) (it_mt_index i) (it_cas i) (it_cflags i) (it_data i) (it_chunks i).
Definition set_slabs_clsid (v : Z) (i : item) : item :=
  mkItem (it_next i) (it_prev i) (it_time i) (it_exptime i) (it_nbytes i) (it_refcount i) (it_flags i)
    v (item_key i) (it_mac i) (it_mt_index i) (it_cas i) (it_cflags i) (it_data i) (it_chunks i).
Definition set_mac (m : list Z) (n : Z) (i : item) : item :=
  mkItem (it_next i) (it_prev i) (it_time i) (it_exptime i) (it_nbytes i) (it_refcount i) (it_flags i)
    (it_slabs_clsid i) (item_key i) m n (it_cas i) (it_cflags i) (it_data i) (it_chunks i).
Definition set_cas (v : Z) (i : item) : item :=
  mkItem (it_next i) (it_prev i) (it_time i) (it_exptime i) (it_nbytes i) (it_refcount i) (it_flags i)
    (it_slabs_clsid i) (item_key i) (it_mac i) (it_mt_index i) v (it_cflags i) (it_data i) (it_chunks i).
Definition set_data (v : list Z) (i : item) : item :=
  mkItem (it_next i) (it_prev i) (it_time i) (it_exptime i) (it_nbytes i) (it_refcount i) (it_flags i)
    (it_slabs_clsid i) (item_key i) (it_mac i) (it_mt_index i) (it_cas i) (it_cflags i) v (it_chunks i).
Definition set_chunks (v : list Z) (i : item) : item :=
  mkItem (it_next i) (it_prev i) (it_time i) (it_exptime i) (it_nbytes i) (it_refcount i) (it_flags i)
    (it_slabs_clsid i) (item_key i) (it_mac i) (it_mt_index i) (it_cas i) (it_cflags i) (it_data i) v.

(** What is left in the last chunk: [ch->size - ch->used]. *)
Definition chunk_room (i : item) : Z := foldr Z.add 0 (it_chunks i) - Z.of_nat (length (it_data i)).

(** [(it->it_flags & f) != 0]. *)
Definition has_flag (f : Z) (i : item) : bool := negb (Z.land (it_flags i) f =? 0).
Definition raise_flag (f : Z) (i : item) : item := set_flags (Z.lor (it_flags i) f) i.
(** [it->it_flags &= ~f] on a [uint16_t]. *)
Definition clear_flag (f : Z) (i : item) : item := set_flags (Z.land (it_flags i) (u16 (Z.lnot f))) i.

Definition ITEM_get_cas (i : item) : Z := if has_flag ITEM_CAS i then it_cas i else 0.
Definition ITEM_set_cas (v : Z) (i : item) : item := if has_flag ITEM_CAS i then set_cas v i else i.

(** [sizeof(struct _stritem)] is 80. *)
Definition ITEM_ntotal (i : item) : Z :=
  80 + Z.of_nat (length (item_key i)) + 1 + it_nbytes i
  + (if has_flag ITEM_CFLAGS i then 4 else 0) + (if has_flag ITEM_CAS i then 8 else 0).

Definition ITEM_clsid (i : item) : Z := Z.land (it_slabs_clsid i) (Z.lnot (Z.shiftl 3 6)).
Definition ITEM_lruid (i : item) : Z := Z.land (it_slabs_clsid i) (Z.shiftl 3 6).

(** The client flags ([FLAGS_CONV]). *)
Definition FLAGS_CONV (i : item) : Z := if has_flag ITEM_CFLAGS i then it_cflags i else 0.

(** ** The interface of the hash table

    What items.c calls in assoc.c, and what it relies on: the table behaves as a finite map
    from keys to items.  [tbl_insert] gets the address and the key of the item. *)
Class ItemTable (T : Type) := {
  tbl_find : list Z -> Z -> T -> outcome (option positive);
  tbl_insert : positive -> list Z -> Z -> T -> outcome T;
  tbl_delete : list Z -> Z -> T -> outcome T
}.

Class ItemTableLaws (hash : list Z -> Z) (T : Type) `{!ItemTable T} := {
  tbl_rep : T -> gmap (list Z) positive -> Prop;
  tbl_find_law t m k : tbl_rep t m -> tbl_find k (hash k) t = Ret (m !! k);
  tbl_insert_law t m k p :
    tbl_rep t m -> m !! k = None -> (forall k', m !! k' <> Some p) ->
    exists t', tbl_insert p k (hash k) t = Ret t' /\ tbl_rep t' (<[k := p]> m);
  tbl_delete_law t m k p :
    tbl_rep t m -> m !! k = Some p ->
    exists t', tbl_delete k (hash k) t = Ret t' /\ tbl_rep t' (base.delete k m)
}.

(** ** The store *)

(** The settings items.c reads, and the time. *)
Record settings := mkSettings {
  use_cas : bool;
  lru_segmented : bool;
  temp_lru : bool;
  temporary_ttl : Z;
  oldest_live : Z;
  oldest_cas : Z;
  item_size_max : Z;
  slab_chunk_size_max : Z;
  (** The chunk sizes of the slab classes from 1 on ([slabclass[i].size]). *)
  slabclass_sizes : list Z;
  current_time : Z;
  evict_to_free : bool;
  tail_repair_time : Z;
  hot_lru_pct : Z;
  warm_lru_pct : Z
}.

Record store (T : Type) := mkStore {
  heap : gmap positive item;
  table : T;
  heads : gmap Z positive;
  tails : gmap Z positive;
  sizes : gmap Z Z;
  sizes_bytes : gmap Z Z;
  curr_items : Z;
  curr_bytes : Z;
  total_items : Z;
  cas_id : Z
}.
Arguments mkStore {T}.
Arguments heap {T}.
Arguments table {T}.
Arguments heads {T}.
Arguments tails {T}.
Arguments sizes {T}.
Arguments sizes_bytes {T}.
Arguments curr_items {T}.
Arguments curr_bytes {T}.
Arguments total_items {T}.
Arguments cas_id {T}.

Section Operations.
Context {T : Type} `{!ItemTable T} (cfg : settings).

Definition with_heap (h : gmap positive item) (s : store T) : store T :=
  mkStore h (table s) (heads s) (tails s) (sizes s) (sizes_bytes s)
    (curr_items s) (curr_bytes s) (total_items s) (cas_id s).
Definition with_table (t : T) (s : store T) : store T :=
  mkStore (heap s) t (heads s) (tails s) (sizes s) (sizes_bytes s)
    (curr_items s) (curr_bytes s) (total_items s) (cas_id s).
Definition with_lru (h t : gmap Z positive) (n b : gmap Z Z) (s : store T) : store T :=
  mkStore (heap s) (table s) h t n b (curr_items s) (curr_bytes s) (total_items s) (cas_id s).
Definition with_counts (ci cb ti : Z) (s : store T) : store T :=
  mkStore (heap s) (table s) (heads s) (tails s) (sizes s) (sizes_bytes s) ci cb ti (cas_id s).
Definition with_cas_id (c : Z) (s : store T) : store T :=
  mkStore (heap s) (table s) (heads s) (tails s) (sizes s) (sizes_bytes s)
    (curr_items s) (curr_bytes s) (total_items s) c.

(** [*it] and an assignment to a field of it. *)
Definition get_item (p : positive) (s : store T) : outcome item := deref (heap s !! p).
Definition upd_item (p : positive) (f : item -> item) (s : store T) : outcome (store T) :=
  i ← get_item p s; Ret (with_heap (<[p := f i]> (heap s)) s).

(** [if (q) q->field = ...] for a pointer that may be null. *)
Definition upd_link (q : option positive) (f : item -> item) (s : store T) : outcome (store T) :=
  match q with Some q => upd_item q f s | None => Ret s end.

Definition get_cas_id (s : store T) : Z * store T :=
  let next_id := u64 (cas_id s + 1) in (next_id, with_cas_id next_id s).

(** The value of [(settings.use_cas) ? get_cas_id() : 0]. *)
Definition next_cas (s : store T) : Z * store T :=
  if use_cas cfg then get_cas_id s else (0, s).

Definition item_is_flushed (i : item) : bool :=
  if (oldest_live cfg =? 0) || (current_time cfg <? oldest_live cfg) then false
  else (it_time i <=? oldest_live cfg)
    || (negb (oldest_cas cfg =? 0) && negb (ITEM_get_cas i =? 0) && (ITEM_get_cas i <? oldest_cas cfg)).

(** [refcount_incr] and [refcount_decr] on an [unsigned short]. *)
Definition refcount_incr (p : positive) (s : store T) : outcome (store T) :=
  upd_item p (fun i => set_refcount (u16 (it_refcount i + 1)) i) s.
Definition refcount_decr (p : positive) (s : store T) : outcome (store T) :=
  upd_item p (fun i => set_refcount (u16 (it_refcount i - 1)) i) s.

(** ** LRU lists *)

(** An entry of one of the arrays of counters, which start with zeros. *)
Definition count_at (m : gmap Z Z) (id : Z) : Z := default 0 (m !! id).

Definition opt_is (q : option positive) (p : positive) : bool := bool_decide (q = Some p).
Definition is_null (q : option positive) : bool := bool_decide (q = None).

Definition do_item_link_q (p : positive) (s : store T) : outcome (store T) :=
  it ← get_item p s;
  _ ← c_assert (negb (has_flag ITEM_SLABBED it));
  let id := it_slabs_clsid it in
  let head := heads s !! id in
  let tail := tails s !! id in
  _ ← c_assert (negb (opt_is head p));
  _ ← c_assert (Bool.eqb (is_null head) (is_null tail));
  s ← upd_item p (fun i => set_next head (set_prev None i)) s;
  s ← upd_link head (set_prev (Some p)) s;
  Ret (with_lru (<[id := p]> (heads s))
         (if is_null tail then <[id := p]> (tails s) else tails s)
         (<[id := u32 (count_at (sizes s) id + 1)]> (sizes s))
         (<[id := u64 (count_at (sizes_bytes s) id + ITEM_ntotal it)]> (sizes_bytes s)) s).

(** [*head = v] where [v] may be null. *)
Definition assign (id : Z) (v : option positive) (m : gmap Z positive) : gmap Z positive :=
  match v with Some p => <[id := p]> m | None => base.delete id m end.

Definition do_item_unlink_q (p : positive) (s : store T) : outcome (store T) :=
  it ← get_item p s;
  let id := it_slabs_clsid it in
  let head := heads s !! id in
  let tail := tails s !! id in
  _ ← c_assert (negb (opt_is head p) || is_null (it_prev it));
  let heads' := if opt_is head p then assign id (it_next it) (heads s) else heads s in
  _ ← c_assert (negb (opt_is tail p) || is_null (it_next it));
  let tails' := if opt_is tail p then assign id (it_prev it) (tails s) else tails s in
  _ ← c_assert (negb (opt_is (it_next it) p));
  _ ← c_assert (negb (opt_is (it_prev it) p));
  s ← upd_link (it_next it) (set_prev (it_prev it)) s;
  s ← upd_link (it_prev it) (set_next (it_next it)) s;
  Ret (with_lru heads' tails' (<[id := u32 (count_at (sizes s) id - 1)]> (sizes s))
         (<[id := u64 (count_at (sizes_bytes s) id - ITEM_ntotal it)]> (sizes_bytes s)) s).

(** ** Linking, unlinking and releasing *)

(** The memory goes back to the slab allocator. *)
Definition item_free (p : positive) (s : store T) : outcome (store T) :=
  it ← get_item p s;
  _ ← c_assert (negb (has_flag ITEM_LINKED it));
  _ ← c_assert (negb (opt_is (heads s !! it_slabs_clsid it) p));
  _ ← c_assert (negb (opt_is (tails s !! it_slabs_clsid it) p));
  _ ← c_assert (it_refcount it =? 0);
  Ret (with_heap (base.delete p (heap s)) s).

Definition do_item_remove (p : positive) (s : store T) : outcome (store T) :=
  it ← get_item p s;
  _ ← c_assert (negb (has_flag ITEM_SLABBED it));
  _ ← c_assert (0 <? it_refcount it);
  s ← refcount_decr p s;
  it ← get_item p s;
  if it_refcount it =? 0 then item_free p s else Ret s.

Definition do_item_link (p : positive) (hv : Z) (s : store T) : outcome (store T) :=
  it ← get_item p s;
  _ ← c_assert (negb (has_flag (Z.lor ITEM_LINKED ITEM_SLABBED) it));
  s ← upd_item p (fun i => set_time (current_time cfg) (raise_flag ITEM_LINKED i)) s;
  it ← get_item p s;
  let s := with_counts (u64 (curr_items s + 1)) (u64 (curr_bytes s + ITEM_ntotal it))
             (u64 (total_items s + 1)) s in
  let '(cas, s) := next_cas s in
  s ← upd_item p (ITEM_set_cas cas) s;
  t ← tbl_insert p (item_key it) hv (table s);
  let s := with_table t s in
  s ← do_item_link_q p s;
  refcount_incr p s.

Definition do_item_unlink (p : positive) (hv : Z) (s : store T) : outcome (store T) :=
  it ← get_item p s;
  if has_flag ITEM_LINKED it then
    s ← upd_item p (clear_flag ITEM_LINKED) s;
    it ← get_item p s;
    let s := with_counts (u64 (curr_items s - 1)) (u64 (curr_bytes s - ITEM_ntotal it))
               (total_items s) s in
    t ← tbl_delete (item_key it) hv (table s);
    let s := with_table t s in
    s ← do_item_unlink_q p s;
    do_item_remove p s
  else Ret s.

Definition do_item_replace (p new_p : positive) (hv : Z) (s : store T) : outcome (store T) :=
  it ← get_item p s;
  _ ← c_assert (negb (has_flag ITEM_SLABBED it));
  s ← do_item_unlink p hv s;
  do_item_link new_p hv s.

Definition do_item_update (p : positive) (s : store T) : outcome (store T) :=
  it ← get_item p s;
  if lru_segmented cfg then
    _ ← c_assert (negb (has_flag ITEM_SLABBED it));
    if has_flag ITEM_LINKED it then
      if (ITEM_lruid it =? COLD_LRU) && has_flag ITEM_ACTIVE it then
        s ← upd_item p (set_time (current_time cfg)) s;
        s ← do_item_unlink_q p s;
        s ← upd_item p (fun i => clear_flag ITEM_ACTIVE
               (set_slabs_clsid (Z.lor (ITEM_clsid i) WARM_LRU) i)) s;
        do_item_link_q p s
      else upd_item p (set_time (current_time cfg)) s
    else Ret s
  else if it_time it <? u32 (current_time cfg - ITEM_UPDATE_INTERVAL) then
    _ ← c_assert (negb (has_flag ITEM_SLABBED it));
    if has_flag ITEM_LINKED it then
      s ← upd_item p (set_time (current_time cfg)) s;
      s ← do_item_unlink_q p s;
      do_item_link_q p s
    else Ret s
  else Ret s.

(** [queued] is what [lru_bump_async] answers: whether there was room in the bump buffer,
    which then holds a reference to the item. *)
Definition do_item_bump (queued : bool) (p : positive) (s : store T) : outcome (store T) :=
  it ← get_item p s;
  if lru_segmented cfg then
    if has_flag ITEM_ACTIVE it then Ret s
    else if has_flag ITEM_FETCHED it then
      s ← upd_item p (raise_flag ITEM_ACTIVE) s;
      if negb (ITEM_lruid it =? COLD_LRU) then upd_item p (set_time (current_time cfg)) s
      else if queued then refcount_incr p s
      else upd_item p (clear_flag ITEM_ACTIVE) s
    else upd_item p (raise_flag ITEM_FETCHED) s
  else
    s ← upd_item p (raise_flag ITEM_FETCHED) s;
    do_item_update p s.

Definition do_item_get (key : list Z) (hv : Z) (do_update queued : bool) (s : store T)
    : outcome (option positive * store T) :=
  r ← tbl_find key hv (table s);
  match r with
  | None => Ret (None, s)
  | Some p =>
      s ← refcount_incr p s;
      it ← get_item p s;
      if item_is_flushed it then
        s ← do_item_unlink p hv s;
        s ← do_item_remove p s;
        Ret (None, s)
      else if negb (it_exptime it =? 0) && (it_exptime it <=? current_time cfg) then
        s ← do_item_unlink p hv s;
        s ← do_item_remove p s;
        Ret (None, s)
      else if do_update then s ← do_item_bump queued p s; Ret (Some p, s)
      else Ret (Some p, s)
  end.

Definition do_item_touch (key : list Z) (exptime hv : Z) (queued : bool) (s : store T)
    : outcome (option positive * store T) :=
  '(r, s) ← do_item_get key hv true queued s;
  match r with
  | Some p => s ← upd_item p (set_exptime exptime) s; Ret (Some p, s)
  | None => Ret (None, s)
  end.

End Operations.
