(* ===== verification/Slabs.v ===== *)
(** * The slab allocator (src/memcached/slabs.c)

    Memory is taken from the system in pages, which are given to size classes and cut into chunks
    of the size of the class.  The free chunks of a class form a doubly linked list through their
    own headers; a chunk that is freed goes to its front and an allocation takes it from there.
    Pages that belong to no class are kept in class 0.  The functions are those that run with the
    lock of the slabs held; moving pages between classes is not modelled. *)

From S2P Require Import Prelude Items.

Local Open Scope Z_scope.

Definition POWER_SMALLEST : Z := 1.
Definition SLAB_GLOBAL_PAGE_POOL : Z := 0.
Definition CHUNK_ALIGN_BYTES : Z := 8.
Definition SLABS_ALLOC_NO_NEWPAGE : Z := 1.
Definition ITEM_CHUNK : Z := 64.

(** ** State *)

(** The header of a chunk, which [item] and [item_chunk] lay out alike; [sub_next] and
    [orig_clsid] are those of the [item_chunk] inside the header of a large item
    ([ITEM_schunk]). *)
Record header := mkHeader {
  h_next : option Z;
  h_prev : option Z;
  h_refcount : Z;
  h_flags : Z;
  h_clsid : Z;
  sub_next : option Z;
  orig_clsid : Z
}.

Definition zero_header : header := mkHeader None None 0 0 0 None 0.

Definition h_set_next (v : option Z) (h : header) : header :=
  mkHeader v (h_prev h) (h_refcount h) (h_flags h) (h_clsid h) (sub_next h) (orig_clsid h).
Definition h_set_prev (v : option Z) (h : header) : header :=
  mkHeader (h_next h) v (h_refcount h) (h_flags h) (h_clsid h) (sub_next h) (orig_clsid h).
Definition h_set_refcount (v : Z) (h : header) : header :=
  mkHeader (h_next h) (h_prev h) v (h_flags h) (h_clsid h) (sub_next h) (orig_clsid h).
Definition h_set_flags (v : Z) (h : header) : header :=
  mkHeader (h_next h) (h_prev h) (h_refcount h) v (h_clsid h) (sub_next h) (orig_clsid h).
Definition h_set_clsid (v : Z) (h : header) : header :=
  mkHeader (h_next h) (h_prev h) (h_refcount h) (h_flags h) v (sub_next h) (orig_clsid h).

(** [slabclass_t]; [slabs] is the length of [slab_list]. *)
Record slabclass_t := mkClass {
  cls_size : Z;
  perslab : Z;
  slots : option Z;
  sl_curr : Z;
  slab_list : list Z;
  list_size : Z
}.

Definition slabs_of (c : slabclass_t) : Z := Z.of_nat (length (slab_list c)).

Definition set_slots (v : option Z) (n : Z) (c : slabclass_t) : slabclass_t :=
  mkClass (cls_size c) (perslab c) v n (slab_list c) (list_size c).
Definition set_slab_list (l : list Z) (c : slabclass_t) : slabclass_t :=
  mkClass (cls_size c) (perslab c) (slots c) (sl_curr c) l (list_size c).
Definition set_list_size (n : Z) (c : slabclass_t) : slabclass_t :=
  mkClass (cls_size c) (perslab c) (slots c) (sl_curr c) (slab_list c) n.

(** The settings slabs.c reads. *)
Record slab_settings := mkSlabSettings {
  slab_page_size : Z;
  chunk_size_max : Z;
  slab_reassign : bool
}.

(** The variables of the file, and the headers of the chunks in memory; [prealloc] is whether
    [mem_base] is not null. *)
Record slabs_t := mkSlabs {
  slabclass : list slabclass_t;
  power_largest : Z;
  mem_limit : Z;
  mem_malloced : Z;
  mem_limit_reached : bool;
  prealloc : bool;
  mem_current : Z;
  mem_avail : Z;
  memory : gmap Z header
}.

Definition with_class (l : list slabclass_t) (s : slabs_t) : slabs_t :=
  mkSlabs l (power_largest s) (mem_limit s) (mem_malloced s) (mem_limit_reached s) (prealloc s)
    (mem_current s) (mem_avail s) (memory s).
Definition with_malloced (n : Z) (s : slabs_t) : slabs_t :=
  mkSlabs (slabclass s) (power_largest s) (mem_limit s) n (mem_limit_reached s) (prealloc s)
    (mem_current s) (mem_avail s) (memory s).
Definition with_limit (n : Z) (reached : bool) (s : slabs_t) : slabs_t :=
  mkSlabs (slabclass s) (power_largest s) n (mem_malloced s) reached (prealloc s)
    (mem_current s) (mem_avail s) (memory s).
Definition with_pool (cur avail : Z) (s : slabs_t) : slabs_t :=
  mkSlabs (slabclass s) (power_largest s) (mem_limit s) (mem_malloced s) (mem_limit_reached s) (prealloc s)
    cur avail (memory s).
Definition with_memory (m : gmap Z header) (s : slabs_t) : slabs_t :=
  mkSlabs (slabclass s) (power_largest s) (mem_limit s) (mem_malloced s) (mem_limit_reached s) (prealloc s)
    (mem_current s) (mem_avail s) m.

Definition get_class (id : Z) (s : slabs_t) : outcome slabclass_t :=
  if id <? 0 then Ub else deref (slabclass s !! Z.to_nat id).
Definition upd_class (id : Z) (f : slabclass_t -> slabclass_t) (s : slabs_t) : outcome slabs_t :=
  c ← get_class id s;
  Ret (with_class (<[Z.to_nat id := f c]> (slabclass s)) s).
Definition get_header (a : Z) (s : slabs_t) : outcome header := deref (memory s !! a).
Definition upd_header (a : Z) (f : header -> header) (s : slabs_t) : outcome slabs_t :=
  h ← get_header a s;
  Ret (with_memory (<[a := f h]> (memory s)) s).

(** What the system answers: [malloc], and whether [realloc] finds memory. *)
Record sys := mkSys {
  sys_malloc : option Z;
  sys_realloc : bool
}.

(** ** Pages *)

Definition grow_slab_list (e : sys) (id : Z) (s : slabs_t) : outcome (bool * slabs_t) :=
  c ← get_class id s;
  if slabs_of c =? list_size c then
    let new_size := if list_size c =? 0 then 16 else list_size c * 2 in
    if negb (sys_realloc e) then Ret (false, s)
    else s ← upd_class id (set_list_size new_size) s; Ret (true, s)
  else Ret (true, s).

(** [p->slab_list[p->slabs++] = ptr]. *)
Definition add_slab (id ptr : Z) (s : slabs_t) : outcome slabs_t :=
  c ← get_class id s;
  if list_size c <=? slabs_of c then Ub
  else upd_class id (fun c => set_slab_list (slab_list c ++ [ptr]) c) s.

Definition get_page_from_global_pool (s : slabs_t) : outcome (option Z * slabs_t) :=
  c ← get_class SLAB_GLOBAL_PAGE_POOL s;
  match last (slab_list c) with
  | None => Ret (None, s)
  | Some ret =>
      s ← upd_class SLAB_GLOBAL_PAGE_POOL (fun c => set_slab_list (removelast (slab_list c)) c) s;
      Ret (Some ret, s)
  end.

Definition align_up (size : Z) : Z :=
  if size mod CHUNK_ALIGN_BYTES =? 0 then size
  else size + (CHUNK_ALIGN_BYTES - size mod CHUNK_ALIGN_BYTES).

(** When [malloc] refuses, [mem_malloced] grows all the same. *)
Definition memory_allocate (e : sys) (size : Z) (s : slabs_t) : option Z * slabs_t :=
  if negb (prealloc s) then (sys_malloc e, with_malloced (u64 (mem_malloced s + size)) s)
  else if mem_avail s <? size then (None, s)
  else
    let ret := mem_current s in
    let size := align_up size in
    let s := with_pool (mem_current s + size) (if size <? mem_avail s then mem_avail s - size else 0) s in
    (Some ret, with_malloced (u64 (mem_malloced s + size)) s).

(** ** Freeing *)

(** The sequence [it->prev = 0; it->next = p->slots; if (it->next) it->next->prev = it;
    p->slots = it; p->sl_curr++]. *)
Definition push_slot (id it : Z) (s : slabs_t) : outcome slabs_t :=
  c ← get_class id s;
  s ← upd_header it (fun h => h_set_next (slots c) (h_set_prev None h)) s;
  s ← match slots c with
      | Some next => upd_header next (h_set_prev (Some it)) s
      | None => Ret s
      end;
  upd_class id (set_slots (Some it) (u32 (sl_curr c + 1))) s.

(** The loop over the chunks of a large item; a chain has at most as many as there are. *)
Fixpoint free_chunks (fuel : nat) (chunk : option Z) (s : slabs_t) : outcome slabs_t :=
  match chunk with
  | None => Ret s
  | Some a =>
      match fuel with
      | O => Ub
      | S fuel =>
          h ← get_header a s;
          _ ← c_assert (h_flags h =? ITEM_CHUNK);
          s ← upd_header a (h_set_flags ITEM_SLABBED) s;
          s ← push_slot (h_clsid h) a s;
          free_chunks fuel (h_next h) s
      end
  end.

Definition do_slabs_free_chunked (it : Z) (s : slabs_t) : outcome slabs_t :=
  h ← get_header it s;
  s ← upd_header it (fun h => h_set_clsid (orig_clsid h) (h_set_prev None (h_set_flags ITEM_SLABBED h))) s;
  s ← match sub_next h with
      | Some chunk => upd_header chunk (h_set_prev None) s
      | None => Ret s
      end;
  s ← push_slot (orig_clsid h) it s;
  free_chunks (size (memory s)) (sub_next h) s.

Definition do_slabs_free (it id : Z) (s : slabs_t) : outcome slabs_t :=
  _ ← c_assert ((POWER_SMALLEST <=? id) && (id <=? power_largest s));
  h ← get_header it s;
  if Z.land (h_flags h) ITEM_CHUNKED =? 0 then
    s ← upd_header it (fun h => h_set_clsid id (h_set_flags ITEM_SLABBED h)) s;
    push_slot id it s
  else do_slabs_free_chunked it s.

(** ** New pages *)

(** [memset(ptr, 0, len)], as the headers see it: what was there is gone, and there is a header of
    zeros where a chunk is going to be. *)
Fixpoint zero_headers (n : nat) (ptr size : Z) (m : gmap Z header) : gmap Z header :=
  match n with
  | O => m
  | S n => zero_headers n (ptr + size) size (<[ptr := zero_header]> m)
  end.
Definition wipe (ptr len : Z) (c : slabclass_t) (m : gmap Z header) : gmap Z header :=
  zero_headers (Z.to_nat (perslab c)) ptr (cls_size c)
    (filter (fun x => ~ (ptr <= x.1 < ptr + len)) m).

(** The loop [for (x = 0; x < p->perslab; x++)], [n] turns of which are left. *)
Fixpoint split_slab_page_into_freelist (n : nat) (ptr id size : Z) (s : slabs_t) : outcome slabs_t :=
  match n with
  | O => Ret s
  | S n =>
      s ← do_slabs_free ptr id s;
      split_slab_page_into_freelist n (ptr + size) id size s
  end.

Definition do_slabs_newslab (cfg : slab_settings) (e : sys) (id : Z) (s : slabs_t) : outcome (bool * slabs_t) :=
  p ← get_class id s;
  g ← get_class SLAB_GLOBAL_PAGE_POOL s;
  let len := if slab_reassign cfg || negb (chunk_size_max cfg =? slab_page_size cfg)
             then slab_page_size cfg else cls_size p * perslab p in
  if negb (mem_limit s =? 0) && (mem_limit s <? u64 (mem_malloced s + len)) && (0 <? slabs_of p) && (slabs_of g =? 0) then
    Ret (false, with_limit (mem_limit s) true s)
  else
    '(grown, s) ← grow_slab_list e id s;
    if negb grown then Ret (false, s) else
    '(ptr, s) ← get_page_from_global_pool s;
    let '(ptr, s) := match ptr with Some a => (Some a, s) | None => memory_allocate e len s end in
    match ptr with
    | None => Ret (false, s)
    | Some ptr =>
        let s := with_memory (wipe ptr len p (memory s)) s in
        s ← split_slab_page_into_freelist (Z.to_nat (perslab p)) ptr id (cls_size p) s;
        s ← add_slab id ptr s;
        Ret (true, s)
    end.

(** ** Allocating *)

Definition do_slabs_alloc (cfg : slab_settings) (e : sys) (size id flags : Z) (s : slabs_t) : outcome (option Z * slabs_t) :=
  if (id <? POWER_SMALLEST) || (power_largest s <? id) then Ret (None, s) else
  p ← get_class id s;
  slabbed ← (if sl_curr p =? 0 then Ret true
             else a ← deref (slots p); h ← get_header a s; Ret (negb (Z.land (h_flags h) ITEM_SLABBED =? 0)));
  _ ← c_assert slabbed;
  _ ← c_assert (size <=? cls_size p);
  s ← (if (sl_curr p =? 0) && negb (flags =? SLABS_ALLOC_NO_NEWPAGE)
       then '(_, s) ← do_slabs_newslab cfg e id s; Ret s else Ret s);
  p ← get_class id s;
  if sl_curr p =? 0 then Ret (None, s) else
  it ← deref (slots p);
  h ← get_header it s;
  s ← upd_class id (set_slots (h_next h) (sl_curr p)) s;
  s ← match h_next h with
      | Some next => upd_header next (h_set_prev None) s
      | None => Ret s
      end;
  s ← upd_header it (fun h => h_set_refcount 1 (h_set_flags (Z.land (h_flags h) (u16 (Z.lnot ITEM_SLABBED))) h)) s;
  s ← upd_class id (fun c => set_slots (slots c) (u32 (sl_curr c - 1)) c) s;
  Ret (Some it, s).

(** ** The limit *)

(** The loop of [memory_release]; a turn takes a page from the pool. *)
Fixpoint memory_release_loop (cfg : slab_settings) (fuel : nat) (s : slabs_t) : outcome slabs_t :=
  match fuel with
  | O => Ub
  | S fuel =>
      if mem_malloced s <=? mem_limit s then Ret s else
      '(p, s) ← get_page_from_global_pool s;
      match p with
      | None => Ret s
      | Some _ => memory_release_loop cfg fuel (with_malloced (u64 (mem_malloced s - slab_page_size cfg)) s)
      end
  end.

Definition memory_release (cfg : slab_settings) (s : slabs_t) : outcome slabs_t :=
  if prealloc s then Ret s
  else if negb (slab_reassign cfg) then Ret s
  else
    g ← get_class SLAB_GLOBAL_PAGE_POOL s;
    memory_release_loop cfg (S (length (slab_list g))) s.

(** [settings.maxbytes] is not part of the state. *)
Definition do_slabs_adjust_mem_limit (cfg : slab_settings) (new_mem_limit : Z) (s : slabs_t) : outcome (bool * slabs_t) :=
  if prealloc s then Ret (false, s)
  else
    s ← memory_release cfg (with_limit new_mem_limit false s);
    Ret (true, s).

(** ** Questions *)

Definition slabs_size (clsid : Z) (s : slabs_t) : outcome Z := c ← get_class clsid s; Ret (cls_size c).

Definition global_page_pool_size (s : slabs_t) : outcome (bool * Z) :=
  c ← get_class SLAB_GLOBAL_PAGE_POOL s;
  Ret (mem_limit s <=? mem_malloced s, slabs_of c).

Definition slabs_available_chunks (id : Z) (s : slabs_t) : outcome (Z * bool * Z) :=
  p ← get_class id s;
  Ret (sl_curr p, mem_limit s <=? mem_malloced s, perslab p).

(** ** Start-up *)

(** The loop of [slabs_init] when the sizes are given: the classes from [i] on.  At most [n] turns are
    left ([i < MAX_NUMBER_OF_SLAB_CLASSES - 1]). *)
Fixpoint init_classes (cfg : slab_settings) (n : nat) (slab_sizes : list Z) : outcome (list slabclass_t) :=
  match n with
  | O => Ret []
  | S n =>
      size ← deref (head slab_sizes);
      if size =? 0 then Ret [] else
      let size := align_up size in
      rest ← init_classes cfg n (drop 1 slab_sizes);
      Ret (mkClass size (slab_page_size cfg / size) None 0 [] 0 :: rest)
  end.

Definition zero_class : slabclass_t := mkClass 0 0 None 0 [] 0.

Definition MAX_NUMBER_OF_SLAB_CLASSES : nat := 64.

(** [slabs_init] without preallocation, with a table of sizes that ends with 0. *)
Definition slabs_init (cfg : slab_settings) (limit : Z) (slab_sizes : list Z) : outcome slabs_t :=
  small ← init_classes cfg 62 slab_sizes;
  let largest := mkClass (chunk_size_max cfg) (slab_page_size cfg / chunk_size_max cfg) None 0 [] 0 in
  let classes := zero_class :: small ++ [largest] in
  Ret (mkSlabs (classes ++ replicate (MAX_NUMBER_OF_SLAB_CLASSES - length classes) zero_class)
         (Z.of_nat (length small) + 1) limit 0 false false 0 0 ∅).
