(* ===== verification/SlabsFacts.v ===== *)
(** * The slab allocator hands out chunks that do not overlap

    The free chunks of a class are those on its list and the chunks in use are the others: every
    chunk of every page is in exactly one of the two.  The invariant [slabs_rep] says so, and that
    pages do not overlap; the operations keep it, trip no assertion, and an allocation hands out a
    chunk that nobody has. *)

From S2P Require Import Prelude Items Slabs.
Local Open Scope Z_scope.

Implicit Types (s : slabs_t) (m : gmap Z header) (id a : Z) (l : list Z).

(** ** Lists of free chunks *)

Fixpoint free_list m id (prev head : option Z) l : Prop :=
  match l with
  | [] => head = None
  | a :: l => head = Some a /\ exists h, m !! a = Some h /\ h_prev h = prev /\ h_flags h = ITEM_SLABBED /\
      h_clsid h = id /\ free_list m id (Some a) (h_next h) l
  end.

Lemma free_list_frame m m' id prev head l :
  (forall x, x ∈ l -> m' !! x = m !! x) -> free_list m id prev head l -> free_list m' id prev head l.
Proof.
  revert prev head. induction l as [|a l IH]; intros prev head H; [done|].
  intros (-> & h & Eh & Hp & Hf & Hc & Hl). split; [done|]. exists h. rewrite H by set_solver.
  split_and!; try done. apply IH; [set_solver|done].
Qed.

(** The first chunk of a list gets another predecessor. *)
Lemma free_list_prev m id prev prev' head l :
  NoDup l -> free_list m id prev head l ->
  match head with
  | None => l = []
  | Some a => exists h, m !! a = Some h /\ free_list (<[a := h_set_prev prev' h]> m) id prev' head l
  end.
Proof.
  destruct l as [|a l]; [by intros _ ->|]. intros [Ha Hn]%NoDup_cons (-> & h & Eh & Hp & Hf & Hc & Hl).
  exists h. split; [done|]. split; [done|]. exists (h_set_prev prev' h). rewrite lookup_insert_eq.
  split_and!; try done. eapply free_list_frame; [|exact Hl]. intros x Hx. apply lookup_insert_ne. congruence.
Qed.

(** ** Classes *)

(** [tot] are the chunks of a class, [fl] the free ones and [us] those in use. *)
Record class_rep m id (c : slabclass_t) (tot fl us : list Z) : Prop := {
  cr_list : free_list m id None (slots c) fl;
  cr_count : sl_curr c = Z.of_nat (length fl);
  cr_parts : fl ++ us ≡ₚ tot;
  cr_used : forall a, a ∈ us -> is_Some (m !! a);
  cr_small : Z.of_nat (length tot) < 2 ^ 32
}.

Lemma class_rep_frame m m' id c tot fl us :
  (forall x, x ∈ tot -> m' !! x = m !! x) -> class_rep m id c tot fl us -> class_rep m' id c tot fl us.
Proof.
  intros H [A1 A2 A3 A4 A5]. assert (forall x, x ∈ fl ++ us -> m' !! x = m !! x) as H'.
  { intros x Hx. apply H. by rewrite <- A3. }
  split; try done.
  - eapply free_list_frame; [|exact A1]. intros x Hx. apply H'. set_solver.
  - intros x Hx. rewrite H' by set_solver. by apply A4.
Qed.

Lemma class_rep_perm m id c tot fl us us' : us ≡ₚ us' -> class_rep m id c tot fl us -> class_rep m id c tot fl us'.
Proof. intros P [A1 A2 A3 A4 A5]. split; try done; [by rewrite <- P|]. intros a Ha. apply A4. by rewrite P. Qed.

Lemma class_rep_nodup m id c tot fl us : NoDup tot -> class_rep m id c tot fl us -> NoDup (fl ++ us).
Proof. intros H [_ _ A _ _]. by rewrite A. Qed.

(** The memory after [a] was put in front of the list that starts with [head]. *)
Definition pushed (a : Z) (head : option Z) (h : header) m : gmap Z header :=
  let m1 := <[a := h_set_next head (h_set_prev None h)]> m in
  match head with
  | Some b => match m1 !! b with Some hb => <[b := h_set_prev (Some a) hb]> m1 | None => m1 end
  | None => m1
  end.

Lemma free_head m id prev head l b : free_list m id prev head l -> head = Some b -> b ∈ l.
Proof. destruct l as [|a l]; [by intros ->|]. intros (-> & _) [= ->]. set_solver. Qed.

Lemma pushed_other a head h m id l x : free_list m id None head l -> x <> a -> x ∉ l -> pushed a head h m !! x = m !! x.
Proof.
  intros Hl Ha Hx. unfold pushed. destruct head as [b|]; [|by rewrite lookup_insert_ne].
  pose proof (free_head _ _ _ _ _ b Hl eq_refl) as Hb. destruct (_ !! b); rewrite ?lookup_insert_ne by congruence; done.
Qed.

Lemma class_push m id c tot fl us a h :
  NoDup tot -> class_rep m id c tot fl (a :: us) -> m !! a = Some h -> h_flags h = ITEM_SLABBED -> h_clsid h = id ->
  class_rep (pushed a (slots c) h m) id (set_slots (Some a) (u32 (sl_curr c + 1)) c) tot (a :: fl) us.
Proof.
  intros Hnd R Eh Hf Hc. pose proof (class_rep_nodup _ _ _ _ _ _ Hnd R) as Hnd'. destruct R as [A1 A2 A3 A4 A5].
  assert (a ∉ fl /\ NoDup fl) as [Ha Hfl].
  { rewrite NoDup_app in Hnd'. destruct Hnd' as (N1 & N2 & _). split; [|done]. intros H. apply (N2 a H). set_solver. }
  assert (a ∉ us) as Hu by (rewrite NoDup_app in Hnd'; destruct Hnd' as (_ & _ & N3); by apply NoDup_cons in N3 as [? _]).
  set (h1 := h_set_next (slots c) (h_set_prev None h)). set (m1 := <[a := h1]> m).
  assert (free_list m1 id None (slots c) fl) as A1'.
  { eapply free_list_frame; [|exact A1]. intros x Hx. apply lookup_insert_ne. congruence. }
  assert (free_list (pushed a (slots c) h m) id (Some a) (slots c) fl /\ pushed a (slots c) h m !! a = Some h1) as [Hl Ea].
  { pose proof (free_list_prev m1 id None (Some a) (slots c) fl Hfl A1') as H. unfold pushed. fold h1 m1.
    destruct (slots c) as [b|] eqn:Es; [|subst fl; split; [done|apply lookup_insert_eq]].
    destruct H as (hb & Eb & H). rewrite Eb. split; [done|].
    assert (b <> a) as Hba by (intros ->; apply Ha; by eapply free_head).
    rewrite lookup_insert_ne by done. apply lookup_insert_eq. }
  split.
  - split; [done|]. exists h1. split; [done|]. simpl. done.
  - simpl. rewrite A2. unfold u32. rewrite Z.mod_small; [lia|]. rewrite <- A3, length_app in A5. simpl in A5. lia.
  - by rewrite <- A3, <- Permutation_middle.
  - intros x Hx. destruct (decide (x ∈ fl)) as [Hxf|Hxf].
    { exfalso. rewrite NoDup_app in Hnd'. destruct Hnd' as (_ & N2 & _). apply (N2 x Hxf). set_solver. }
    rewrite (pushed_other a (slots c) h m id fl x A1); [apply A4; set_solver|congruence|done].
  - done.
Qed.

(** The memory after the first chunk [a] of a list was taken from it and made ready. *)
Definition popped (a : Z) (h : header) m : gmap Z header :=
  let m1 := match h_next h with
            | Some b => match m !! b with Some hb => <[b := h_set_prev None hb]> m | None => m end
            | None => m
            end in
  <[a := h_set_refcount 1 (h_set_flags (Z.land (h_flags h) (u16 (Z.lnot ITEM_SLABBED))) h)]> m1.

Lemma popped_other a h m id prev fl x :
  free_list m id prev (h_next h) fl -> x <> a -> x ∉ fl -> popped a h m !! x = m !! x.
Proof.
  intros Hl Ha Hx. unfold popped. rewrite lookup_insert_ne by done. destruct (h_next h) as [b|]; [|done].
  pose proof (free_head _ _ _ _ _ b Hl eq_refl) as Hb. destruct (m !! b); [|done]. apply lookup_insert_ne. congruence.
Qed.

Lemma class_pop m id c tot fl us a :
  NoDup tot -> class_rep m id c tot (a :: fl) us ->
  exists h, slots c = Some a /\ m !! a = Some h /\ h_flags h = ITEM_SLABBED /\ free_list m id (Some a) (h_next h) fl /\
    class_rep (popped a h m) id (set_slots (h_next h) (u32 (sl_curr c - 1)) c) tot fl (a :: us).
Proof.
  intros Hnd R. pose proof (class_rep_nodup _ _ _ _ _ _ Hnd R) as Hnd'. destruct R as [(Es & h & Eh & Hp & Hf & Hc & Hl) A2 A3 A4 A5].
  exists h. split; [done|]. split; [done|]. split; [done|]. split; [done|].
  simpl in Hnd'. apply NoDup_cons in Hnd' as [Ha Hnd']. apply NoDup_app in Hnd' as (Hfl & N2 & N3).
  set (h1 := h_set_refcount 1 (h_set_flags (Z.land (h_flags h) (u16 (Z.lnot ITEM_SLABBED))) h)).
  assert (a ∉ fl) as Haf by set_solver.
  split.
  - unfold popped. fold h1. pose proof (free_list_prev m id (Some a) None (h_next h) fl Hfl Hl) as H. simpl.
    destruct (h_next h) as [b|] eqn:En; [|by subst fl].
    destruct H as (hb & Eb & H). rewrite Eb. eapply free_list_frame; [|exact H]. intros x Hx. apply lookup_insert_ne. congruence.
  - simpl in *. rewrite A2. unfold u32. rewrite Z.mod_small; [lia|]. rewrite <- A3 in A5. simpl in A5. rewrite length_app in A5. lia.
  - rewrite <- A3. simpl. by rewrite <- Permutation_middle.
  - intros x [-> | Hx]%elem_of_cons; [unfold popped; rewrite lookup_insert_eq; by eexists|].
    rewrite (popped_other a h m id (Some a) fl x Hl); [by apply A4|set_solver|]. intros Hxf. by apply (N2 x Hxf).
  - done.
Qed.

(** ** All classes *)

Definition valid s id : Prop := 1 <= id <= power_largest s.

(** A family of lists changed at one class. *)
Definition upd (id : Z) (v : list Z) (f : Z -> list Z) : Z -> list Z := fun i => if decide (i = id) then v else f i.

Lemma upd_eq id v f : upd id v f id = v.
Proof. unfold upd. by rewrite decide_True. Qed.
Lemma upd_ne id v f i : i <> id -> upd id v f i = f i.
Proof. intros H. unfold upd. by rewrite decide_False. Qed.

Implicit Types (tot fl us : Z -> list Z).

Record core s tot fl us : Prop := {
  co_class : forall id, valid s id -> exists c, slabclass s !! Z.to_nat id = Some c /\
    class_rep (memory s) id c (tot id) (fl id) (us id);
  co_nodup : forall id, NoDup (tot id);
  co_apart : forall i j a, a ∈ tot i -> a ∈ tot j -> i = j
}.

(** What freeing and allocating chunks leaves alone. *)
Definition shape (c : slabclass_t) : Z * Z * list Z * Z := (cls_size c, perslab c, slab_list c, list_size c).

Record quiet s s' : Prop := {
  qu_shape : forall i, shape <$> slabclass s' !! i = shape <$> slabclass s !! i;
  qu_largest : power_largest s' = power_largest s;
  qu_malloced : mem_malloced s' = mem_malloced s /\ mem_limit s' = mem_limit s;
  qu_pool : prealloc s' = prealloc s /\ mem_current s' = mem_current s /\ mem_avail s' = mem_avail s
}.

Lemma quiet_refl s : quiet s s.
Proof. by split. Qed.
Lemma quiet_trans s1 s2 s3 : quiet s1 s2 -> quiet s2 s3 -> quiet s1 s3.
Proof.
  intros [A1 A2 (A3 & A4) (A5 & A6 & A7)] [B1 B2 (B3 & B4) (B5 & B6 & B7)]. split; [intros i; by rewrite B1|congruence|split; congruence|].
  split_and!; congruence.
Qed.

Lemma quiet_memory m s : quiet s (with_memory m s).
Proof. by split. Qed.

Lemma get_class_ok id s c : 0 <= id -> slabclass s !! Z.to_nat id = Some c -> get_class id s = Ret c.
Proof. intros H E. unfold get_class. by rewrite (proj2 (Z.ltb_ge _ _)), E by done. Qed.

Lemma upd_class_ok id s c f : 0 <= id -> slabclass s !! Z.to_nat id = Some c ->
  upd_class id f s = Ret (with_class (<[Z.to_nat id := f c]> (slabclass s)) s).
Proof. intros H E. unfold upd_class. by rewrite (get_class_ok id s c). Qed.

Lemma upd_header_ok a s h f : memory s !! a = Some h -> upd_header a f s = Ret (with_memory (<[a := f h]> (memory s)) s).
Proof. intros E. unfold upd_header, get_header. by rewrite E. Qed.

Lemma shape_insert (l : list slabclass_t) n c c' i : l !! n = Some c -> shape c' = shape c ->
  shape <$> <[n := c']> l !! i = shape <$> l !! i.
Proof.
  intros E H. destruct (decide (i = n)) as [->|Hi]; [|by rewrite list_lookup_insert_ne].
  rewrite list_lookup_insert_eq by (by eapply lookup_lt_Some). rewrite E. simpl. by rewrite H.
Qed.

(** A change of one class and of the headers of its chunks. *)
Lemma core_set s tot fl us id c m' c' (fl' us' : list Z) :
  core s tot fl us -> valid s id -> slabclass s !! Z.to_nat id = Some c ->
  class_rep m' id c' (tot id) fl' us' -> shape c' = shape c -> (forall x, x ∉ tot id -> m' !! x = memory s !! x) ->
  let s' := with_memory m' (with_class (<[Z.to_nat id := c']> (slabclass s)) s) in
  core s' tot (upd id fl' fl) (upd id us' us) /\ quiet s s'.
Proof.
  intros C V Ec R Hs Hm s'. split.
  - split; [|apply C|apply C]. intros i Vi. change (valid s i) in Vi. simpl. destruct (decide (i = id)) as [->|Hi].
    + exists c'. rewrite !upd_eq. split; [|done]. apply list_lookup_insert_eq. by eapply lookup_lt_Some.
    + destruct (co_class _ _ _ _ C i Vi) as (ci & Ei & Ri). exists ci. rewrite !upd_ne by done.
      unfold valid in *. rewrite list_lookup_insert_ne by lia. split; [done|]. eapply class_rep_frame; [|exact Ri].
      intros x Hx. apply Hm. intros Hx'. by apply Hi, (co_apart _ _ _ _ C i id x).
  - split; try done. intros i. by eapply shape_insert.
Qed.

(** Clients write to the headers of the chunks they have. *)
Lemma core_write s tot fl us id a h :
  core s tot fl us -> valid s id -> a ∈ us id -> core (with_memory (<[a := h]> (memory s)) s) tot fl us.
Proof.
  intros C V Ha. split; [|apply C|apply C]. intros i Vi. change (valid s i) in Vi.
  destruct (co_class _ _ _ _ C i Vi) as (c & Ec & R). exists c. split; [done|]. simpl.
  pose proof (class_rep_nodup _ _ _ _ _ _ (co_nodup _ _ _ _ C i) R) as Hnd. destruct R as [A1 A2 A3 A4 A5].
  assert (a ∉ fl i) as Hf.
  { intros Hf. assert (i = id) as ->.
    { apply (co_apart _ _ _ _ C i id a); [rewrite <- A3; set_solver|]. destruct (co_class _ _ _ _ C id V) as (c' & _ & R').
      rewrite <- (cr_parts _ _ _ _ _ _ R'). set_solver. }
    rewrite NoDup_app in Hnd. destruct Hnd as (_ & N & _). by apply (N a). }
  split; try done.
  - eapply free_list_frame; [|exact A1]. intros x Hx. apply lookup_insert_ne. congruence.
  - intros x Hx. destruct (decide (a = x)) as [->|Hne]; [rewrite lookup_insert_eq; by eexists|].
    rewrite lookup_insert_ne by done. by apply A4.
Qed.

Lemma class_used_perm s tot fl us id (us' : list Z) : core s tot fl us -> us id ≡ₚ us' -> core s tot fl (upd id us' us).
Proof.
  intros C P. split; [|apply C|apply C]. intros i Vi. destruct (co_class _ _ _ _ C i Vi) as (c & Ec & R). exists c. split; [done|].
  destruct (decide (i = id)) as [->|Hi]; [rewrite upd_eq; by eapply class_rep_perm|by rewrite upd_ne].
Qed.

(** ** Pushing and popping *)

Lemma push_slot_ok s tot fl us id a h (us' : list Z) :
  core s tot fl us -> valid s id -> us id ≡ₚ a :: us' -> memory s !! a = Some h -> h_flags h = ITEM_SLABBED -> h_clsid h = id ->
  exists s', push_slot id a s = Ret s' /\ core s' tot (upd id (a :: fl id) fl) (upd id us' us) /\ quiet s s' /\
    (forall x, x <> a -> x ∉ fl id -> memory s' !! x = memory s !! x).
Proof.
  intros C V P Eh Hf Hc. destruct (co_class _ _ _ _ C id V) as (c & Ec & R). pose proof V as [V1 V2].
  pose proof (cr_list _ _ _ _ _ _ R) as Hl. apply (class_rep_perm _ _ _ _ _ _ _ P) in R.
  pose proof (class_push _ _ _ _ _ _ _ h (co_nodup _ _ _ _ C id) R Eh Hf Hc) as R'.
  destruct (core_set s tot fl us id c _ _ _ _ C V Ec R') as [C' Q]; [done| |].
  { intros x Hx. apply (pushed_other a (slots c) h _ id (fl id)); [done| |];
      intros H; apply Hx; rewrite <- (cr_parts _ _ _ _ _ _ R); set_solver. }
  eexists. split; [|split; [exact C'|split; [exact Q|]]].
  - unfold push_slot. rewrite (get_class_ok id s c) by (done || lia). cbn [mbind outcome_bind].
    rewrite (upd_header_ok a s h) by done. cbn [mbind outcome_bind]. unfold pushed.
    destruct (slots c) as [b|] eqn:Es.
    + assert (b <> a) as Hba.
      { intros ->. pose proof (free_head _ _ _ _ _ a Hl eq_refl) as Hb.
        pose proof (class_rep_nodup _ _ _ _ _ _ (co_nodup _ _ _ _ C id) R) as Hnd. rewrite NoDup_app in Hnd.
        destruct Hnd as (_ & N & _). apply (N a Hb). set_solver. }
      assert (exists hb, memory s !! b = Some hb) as (hb & Eb).
      { destruct (fl id) as [|x l']; [discriminate Hl|]. destruct Hl as ([= ->] & hb & Eb & _). by exists hb. }
      rewrite (upd_header_ok b _ hb) by (simpl; by rewrite lookup_insert_ne). cbn [mbind outcome_bind].
      rewrite lookup_insert_ne by done. rewrite Eb. rewrite (upd_class_ok id _ c) by (done || lia). reflexivity.
    + cbn [mbind outcome_bind]. rewrite (upd_class_ok id _ c) by (done || lia). reflexivity.
  - intros x Hxa Hx. simpl. by apply (pushed_other a (slots c) h _ id (fl id)).
Qed.

(** The end of [do_slabs_alloc]. *)
Lemma pop_ok s tot fl us id a l :
  core s tot fl us -> valid s id -> fl id = a :: l ->
  exists c h s', slabclass s !! Z.to_nat id = Some c /\ slots c = Some a /\ sl_curr c <> 0 /\ memory s !! a = Some h /\
    (s ← upd_class id (set_slots (h_next h) (sl_curr c)) s;
     s ← match h_next h with Some next => upd_header next (h_set_prev None) s | None => Ret s end;
     s ← upd_header a (fun h => h_set_refcount 1 (h_set_flags (Z.land (h_flags h) (u16 (Z.lnot ITEM_SLABBED))) h)) s;
     s ← upd_class id (fun c => set_slots (slots c) (u32 (sl_curr c - 1)) c) s;
     Ret (Some a, s)) = Ret (Some a, s') /\
    core s' tot (upd id l fl) (upd id (a :: us id) us) /\ quiet s s' /\
    memory s' !! a = Some (h_set_refcount 1 (h_set_flags 0 h)) /\
    (forall x, x <> a -> x ∉ fl id -> memory s' !! x = memory s !! x).
Proof.
  intros C V El. destruct (co_class _ _ _ _ C id V) as (c & Ec & R). pose proof V as [V1 V2]. rewrite El in R.
  destruct (class_pop _ _ _ _ _ _ _ (co_nodup _ _ _ _ C id) R) as (h & Es & Eh & Hf & Hl & R').
  destruct (core_set s tot fl us id c _ _ _ _ C V Ec R') as [C' Q]; [done| |].
  { intros x Hx. apply (popped_other a h _ id (Some a) l); [done| |];
      intros H; apply Hx; rewrite <- (cr_parts _ _ _ _ _ _ R); set_solver. }
  exists c, h. eexists. split; [done|]. split; [done|]. split; [rewrite (cr_count _ _ _ _ _ _ R); simpl; lia|]. split; [done|].
  assert (NoDup (a :: l)) as Hnd.
  { pose proof (class_rep_nodup _ _ _ _ _ _ (co_nodup _ _ _ _ C id) R) as Hnd. by apply NoDup_app in Hnd as (? & _). }
  apply NoDup_cons in Hnd as [Hal _].
  split; [|split; [exact C'|split; [exact Q|split]]].
  - rewrite (upd_class_ok id s c) by (done || lia). cbn [mbind outcome_bind]. unfold popped.
    destruct (h_next h) as [b|] eqn:En.
    + destruct l as [|x l']; [discriminate Hl|]. destruct Hl as ([= ->] & hb & Eb & _). assert (x <> a) as Hxa by set_solver.
      rewrite (upd_header_ok x _ hb) by done. cbn [mbind outcome_bind]. rewrite Eb.
      rewrite (upd_header_ok a _ h) by (simpl; by rewrite lookup_insert_ne). cbn [mbind outcome_bind].
      rewrite (upd_class_ok id _ (set_slots (Some x) (sl_curr c) c));
        [|lia|simpl; apply list_lookup_insert_eq; by eapply lookup_lt_Some].
      cbn [mbind outcome_bind]. simpl. unfold with_class, with_memory. simpl. rewrite list_insert_insert_eq. reflexivity.
    + cbn [mbind outcome_bind]. rewrite (upd_header_ok a _ h) by done. cbn [mbind outcome_bind].
      rewrite (upd_class_ok id _ (set_slots None (sl_curr c) c));
        [|lia|simpl; apply list_lookup_insert_eq; by eapply lookup_lt_Some].
      cbn [mbind outcome_bind]. simpl. unfold with_class, with_memory. simpl. rewrite list_insert_insert_eq. reflexivity.
  - simpl. unfold popped. rewrite lookup_insert_eq, Hf. reflexivity.
  - intros x Hxa Hx. simpl. apply (popped_other a h _ id (Some a) l); try done. rewrite El in Hx. set_solver.
Qed.

(** ** Freeing *)

(** [dead] have been freed: nothing else happened to the chunks in use. *)
Definition released s us (dead : list Z) s' tot : Prop :=
  exists fl' us', core s' tot fl' us' /\ quiet s s' /\ (forall i x, x ∈ us' i <-> x ∈ us i /\ x ∉ dead) /\
    (forall i x, valid s i -> x ∈ us' i -> memory s' !! x = memory s !! x).

Lemma used_class s tot fl us i j a : core s tot fl us -> valid s i -> valid s j -> a ∈ us i -> a ∈ fl j ++ us j -> i = j.
Proof.
  intros C Vi Vj Hi Hj. destruct (co_class _ _ _ _ C i Vi) as (ci & _ & Ri). destruct (co_class _ _ _ _ C j Vj) as (cj & _ & Rj).
  apply (co_apart _ _ _ _ C i j a); [rewrite <- (cr_parts _ _ _ _ _ _ Ri); set_solver|by rewrite <- (cr_parts _ _ _ _ _ _ Rj)].
Qed.

Lemma used_free s tot fl us i j a : core s tot fl us -> valid s i -> valid s j -> a ∈ us i -> a ∈ fl j -> False.
Proof.
  intros C Vi Vj Hi Hj. assert (i = j) as -> by (eapply (used_class s tot fl us); try done; set_solver).
  destruct (co_class _ _ _ _ C j Vj) as (c & _ & R). pose proof (class_rep_nodup _ _ _ _ _ _ (co_nodup _ _ _ _ C j) R) as Hnd.
  rewrite NoDup_app in Hnd. destruct Hnd as (_ & N & _). by apply (N a).
Qed.

Lemma push_released s tot fl us id a h :
  core s tot fl us -> (forall j x, x ∈ us j -> valid s j) -> a ∈ us id -> memory s !! a = Some h -> h_flags h = ITEM_SLABBED -> h_clsid h = id ->
  exists s', push_slot id a s = Ret s' /\ released s us [a] s' tot.
Proof.
  intros C Hv Ha Eh Hf Hc. pose proof (Hv _ _ Ha) as V. apply elem_of_Permutation in Ha as Ha'. destruct Ha' as (us' & P).
  destruct (push_slot_ok s tot fl us id a h us' C V P Eh Hf Hc) as (s' & E & C' & Q & Fr).
  exists s'. split; [done|]. exists (upd id (a :: fl id) fl), (upd id us' us). split; [done|]. split; [done|].
  assert (NoDup (us id)) as Hnd.
  { destruct (co_class _ _ _ _ C id V) as (c & _ & R). pose proof (class_rep_nodup _ _ _ _ _ _ (co_nodup _ _ _ _ C id) R) as Hnd.
    by apply NoDup_app in Hnd as (_ & _ & ?). }
  rewrite P in Hnd. apply NoDup_cons in Hnd as [Hau _].
  assert (forall i x, x ∈ upd id us' us i <-> x ∈ us i /\ x ∉ [a]) as Hset.
  { intros i x. destruct (decide (i = id)) as [->|Hi]; [rewrite upd_eq, P; set_solver|]. rewrite upd_ne by done.
    split; [|by intros [? _]]. intros Hx. split; [done|]. intros Hxa. assert (x = a) as -> by set_solver.
    apply Hi. eapply (used_class s tot fl us); [done|by eapply Hv|done|exact Hx|set_solver]. }
  split; [done|]. intros i x Vi Hx. apply Hset in Hx as [Hx Hxa]. apply Fr; [set_solver|]. intros Hxf. by eapply (used_free s tot fl us i id x).
Qed.

Lemma do_slabs_free_ok s tot fl us id a h :
  core s tot fl us -> (forall j x, x ∈ us j -> valid s j) -> a ∈ us id -> memory s !! a = Some h -> Z.land (h_flags h) ITEM_CHUNKED = 0 ->
  exists s', do_slabs_free a id s = Ret s' /\ released s us [a] s' tot.
Proof.
  intros C Hv Ha Eh Hf. pose proof (Hv _ _ Ha) as V. pose proof V as [V1 V2]. unfold do_slabs_free, POWER_SMALLEST.
  rewrite !(proj2 (Z.leb_le _ _)) by lia. cbn [andb c_assert mbind outcome_bind]. unfold get_header at 1. rewrite Eh.
  cbn [deref mbind outcome_bind]. rewrite Hf. cbn [Z.eqb]. rewrite (upd_header_ok a s h) by done. cbn [mbind outcome_bind].
  set (h1 := h_set_clsid id (h_set_flags ITEM_SLABBED h)).
  pose proof (core_write s tot fl us id a h1 C V Ha) as C1.
  destruct (push_released _ tot fl us id a h1 C1) as (s' & E & fl' & us' & C' & Q & S' & F); try done; [by simpl; rewrite lookup_insert_eq|].
  exists s'. split; [done|]. exists fl', us'. split; [done|]. split; [eapply quiet_trans; [apply quiet_memory|exact Q]|].
  split; [done|]. intros i x Vi Hx.   rewrite (F i x Vi Hx). simpl. apply lookup_insert_ne. apply S' in Hx as [_ Hx]. set_solver.
Qed.

(** The chunks of a large item, which follow its header. *)
Fixpoint chain s us (head : option Z) l : Prop :=
  match l with
  | [] => head = None
  | a :: l => head = Some a /\ exists h, memory s !! a = Some h /\ h_flags h = ITEM_CHUNK /\ a ∈ us (h_clsid h) /\
      chain s us (h_next h) l
  end.

Definition hlinks (h : header) : Z * Z * option Z := (h_flags h, h_clsid h, h_next h).

Lemma slab_chain_frame s us s' us' head l :
  (forall x, x ∈ l -> hlinks <$> memory s' !! x = hlinks <$> memory s !! x) -> (forall i x, x ∈ l -> x ∈ us i -> x ∈ us' i) ->
  chain s us head l -> chain s' us' head l.
Proof.
  revert head. induction l as [|a l IH]; intros head Hm Hu; [done|]. intros (-> & h & Eh & Hf & Ha & Hl). split; [done|].
  specialize (Hm a ltac:(set_solver)) as Hma. rewrite Eh in Hma. destruct (memory s' !! a) as [h'|]; [|done].
  injection Hma as E1 E2 E3. exists h'. rewrite E1, E2, E3. split_and!; try done; [apply Hu; set_solver|].
  apply IH; [intros x Hx; apply Hm; set_solver|intros i x Hx; apply Hu; set_solver|done].
Qed.

Lemma chain_used s us head l x : chain s us head l -> x ∈ l -> exists j, x ∈ us j.
Proof.
  revert head. induction l as [|b l IH]; intros head Hl Hx; [set_solver|].
  destruct Hl as (_ & hb & _ & _ & Hb & Hl). apply elem_of_cons in Hx as [-> | Hx]; [by eexists|by eapply IH].
Qed.

Lemma free_chunks_ok fuel head l s tot fl us :
  core s tot fl us -> (forall j x, x ∈ us j -> valid s j) -> NoDup l -> chain s us head l -> (length l <= fuel)%nat ->
  exists s', free_chunks fuel head s = Ret s' /\ released s us l s' tot.
Proof.
  revert head l s fl us. induction fuel as [|fuel IH]; intros head l s fl us C Hv Hnd Hl Hf; destruct l as [|a l]; try (simpl in Hf; lia).
  1,2: rewrite Hl; exists s; (split; [done|]); exists fl, us; (split; [done|]); (split; [apply quiet_refl|]); (split; [set_solver|done]).
  destruct Hl as (-> & h & Eh & Hfl & Ha & Hl). apply NoDup_cons in Hnd as [Hal Hnd]. simpl in Hf. pose proof (Hv _ _ Ha) as V.
  cbn [free_chunks]. unfold get_header at 1. rewrite Eh. cbn [deref mbind outcome_bind]. rewrite Hfl. cbn [Z.eqb Pos.eqb c_assert mbind outcome_bind].
  rewrite (upd_header_ok a s h) by done. cbn [mbind outcome_bind].
  pose proof (core_write s tot fl us _ a (h_set_flags ITEM_SLABBED h) C V Ha) as C1. set (s1 := with_memory _ s) in *.
  destruct (push_released s1 tot fl us (h_clsid h) a (h_set_flags ITEM_SLABBED h) C1) as (s2 & -> & Rel); try done; [by simpl; rewrite lookup_insert_eq|].
  cbn [mbind outcome_bind]. destruct Rel as (fl2 & us2 & C2 & Q2 & S2 & F2).
  assert (forall j x, x ∈ us2 j -> valid s2 j) as Hv2.
  { intros j x Hx. unfold valid. rewrite (qu_largest _ _ Q2). apply S2 in Hx as [Hx _]. exact (Hv j x Hx). }
  assert (forall j x, valid s j -> x ∈ us2 j -> memory s2 !! x = memory s !! x) as Fm.
  { intros j x Vj Hx. rewrite (F2 j x Vj Hx). simpl. apply lookup_insert_ne. apply S2 in Hx as [_ Hx]. set_solver. }
  assert (forall i x, x ∈ l -> x ∈ us i -> x ∈ us2 i) as Hu by (intros i x Hx Hxi; apply S2; set_solver).
  assert (chain s2 us2 (h_next h) l) as Hl2.
  { apply (slab_chain_frame s us); [|done|done]. intros x Hx. f_equal.
    destruct (chain_used _ _ _ _ x Hl Hx) as [j Hj]. apply (Fm j); [by eapply Hv|by apply Hu]. }
  destruct (IH (h_next h) l s2 fl2 us2 C2 Hv2 Hnd Hl2) as (s' & E & fl' & us' & C' & Q' & S' & F'); [lia|].
  exists s'. split; [exact E|]. exists fl', us'. split; [done|]. split.
  { eapply quiet_trans; [apply quiet_memory|eapply quiet_trans; [exact Q2|exact Q']]. }
  split.
  - intros i x. rewrite S', S2. set_solver.
  - intros i x Vi Hx. assert (x ∈ us2 i) as Hx2 by (apply S' in Hx; tauto). rewrite (F' i x); [by apply (Fm i)| |done].
    unfold valid. by rewrite (qu_largest _ _ Q2).
Qed.

Lemma chain_length s us head l : NoDup l -> chain s us head l -> (length l <= size (memory s))%nat.
Proof.
  intros Hnd Hl. rewrite <- (size_list_to_set (C := gset Z) l) by done. rewrite <- size_dom. apply subseteq_size.
  intros x Hx%elem_of_list_to_set. apply elem_of_dom. revert head Hl Hx. clear Hnd. induction l as [|b l IH]; intros head Hl Hx; [set_solver|].
  destruct Hl as (_ & hb & Eb & _ & _ & Hl). apply elem_of_cons in Hx as [-> | Hx]; [by eexists|by eapply IH].
Qed.

(** A large item: its header and its chunks. *)
Record large s us (a : Z) (h : header) l : Prop := {
  lg_header : memory s !! a = Some h;
  lg_chunked : Z.land (h_flags h) ITEM_CHUNKED <> 0;
  lg_used : a ∈ us (orig_clsid h);
  lg_chain : chain s us (sub_next h) l;
  lg_nodup : NoDup (a :: l)
}.

Lemma do_slabs_free_chunked_ok s tot fl us a h l :
  core s tot fl us -> (forall j x, x ∈ us j -> valid s j) -> large s us a h l ->
  exists s', do_slabs_free_chunked a s = Ret s' /\ released s us (a :: l) s' tot.
Proof.
  intros C Hv [Eh Hc Ha Hl Hnd]. pose proof (Hv _ _ Ha) as V. apply NoDup_cons in Hnd as [Hal Hnd].
  unfold do_slabs_free_chunked, get_header. rewrite Eh. cbn [deref mbind outcome_bind]. rewrite (upd_header_ok a s h) by done. cbn [mbind outcome_bind].
  set (h1 := h_set_clsid (orig_clsid h) (h_set_prev None (h_set_flags ITEM_SLABBED h))).
  pose proof (core_write s tot fl us _ a h1 C V Ha) as C1. set (s1 := with_memory (<[a := h1]> (memory s)) s) in *.
  assert (exists s2, match sub_next h with Some chunk => upd_header chunk (h_set_prev None) s1 | None => Ret s1 end = Ret s2 /\
    core s2 tot fl us /\ quiet s s2 /\ memory s2 !! a = Some h1 /\
    (forall x, x <> a -> hlinks <$> memory s2 !! x = hlinks <$> memory s !! x) /\
    (forall x, x <> a -> x ∉ l -> memory s2 !! x = memory s !! x)) as (s2 & -> & C2 & Q2 & Ea2 & L2 & F2).
  { destruct l as [|b l]; [rewrite Hl; exists s1; split_and!; try done|].
    - by simpl; rewrite lookup_insert_eq.
    - intros x Hx. simpl. by rewrite lookup_insert_ne.
    - intros x Hx _. simpl. by rewrite lookup_insert_ne.
    - destruct Hl as (-> & hb & Eb & Hfb & Hub & Hl). assert (a <> b) as Hab by set_solver.
      rewrite (upd_header_ok b s1 hb) by (simpl; by rewrite lookup_insert_ne). eexists. split; [done|].
      split; [eapply (core_write s1 tot fl us (h_clsid hb)); [done|by eapply Hv|done]|]. split; [by split|].
      split; [simpl; rewrite lookup_insert_ne by done; apply lookup_insert_eq|]. split.
      + intros x Hx. simpl. destruct (decide (b = x)) as [->|Hne]; [by rewrite lookup_insert_eq, Eb|by rewrite !lookup_insert_ne].
      + intros x Hx Hxl. simpl. rewrite !lookup_insert_ne by set_solver. done. }
  cbn [mbind outcome_bind].
  assert (forall j x, x ∈ us j -> valid s2 j) as Hv2 by (intros j x Hx; unfold valid; rewrite (qu_largest _ _ Q2); by eapply Hv).
  destruct (push_released s2 tot fl us (orig_clsid h) a h1 C2 Hv2 Ha Ea2 eq_refl eq_refl) as (s3 & -> & Rel). cbn [mbind outcome_bind].
  destruct Rel as (fl3 & us3 & C3 & Q3 & S3 & F3).
  assert (forall j x, x ∈ us3 j -> valid s3 j) as Hv3.
  { intros j x Hx. unfold valid. rewrite (qu_largest _ _ Q3). apply S3 in Hx as [Hx _]. by eapply Hv2. }
  assert (chain s3 us3 (sub_next h) l) as Hl3.
  { apply (slab_chain_frame s us); [| |done]; [|intros i x Hx Hxi; apply S3; set_solver].
    intros x Hx. assert (x <> a) as Hxa by set_solver. rewrite <- (L2 x Hxa). f_equal. destruct (chain_used _ _ _ _ x Hl Hx) as [j Hj].
    apply (F3 j); [by eapply Hv2|apply S3; set_solver]. }
  destruct (free_chunks_ok (size (memory s3)) (sub_next h) l s3 tot fl3 us3 C3 Hv3 Hnd Hl3 (chain_length _ _ _ _ Hnd Hl3))
    as (s' & E & fl' & us' & C' & Q' & S' & F').
  exists s'. split; [exact E|]. exists fl', us'. split; [done|]. split; [by eapply quiet_trans; [|eapply quiet_trans]|]. split.
  - intros i x. rewrite S', S3. set_solver.
  - intros i x Vi Hx. assert (x ∈ us3 i /\ x ∉ l) as [Hx3 Hxl] by (by apply S' in Hx).
    assert (x ∈ us i /\ x <> a) as [_ Hxa] by (apply S3 in Hx3; set_solver).
    rewrite (F' i x), (F3 i x); [by apply F2|unfold valid; by rewrite (qu_largest _ _ Q2)|done| |done].
    unfold valid. by rewrite (qu_largest _ _ Q3), (qu_largest _ _ Q2).
Qed.
