(* ===== verification/SlabPages.v ===== *)
(** * Pages and chunks

    Where the chunks of a class lie in its pages, the invariant of the slab allocator with the
    layout of memory in it, and that taking a new page for a class keeps it. *)

From S2P Require Import Prelude Items Slabs SlabsFacts.
Local Open Scope Z_scope.

Implicit Types (s : slabs_t) (m : gmap Z header) (id a : Z) (l : list Z) (tot fl us : Z -> list Z).

(** ** Layout *)

(** The addresses of [n] chunks from [base] on. *)
Fixpoint chunk_addrs (n : nat) (base size : Z) : list Z :=
  match n with O => [] | S n => base :: chunk_addrs n (base + size) size end.

Definition page_chunks (c : slabclass_t) (base : Z) : list Z := chunk_addrs (Z.to_nat (perslab c)) base (cls_size c).
Definition class_chunks (c : slabclass_t) : list Z := concat (map (page_chunks c) (slab_list c)).

Lemma elem_of_chunk_addrs n base size a :
  a ∈ chunk_addrs n base size <-> exists k, (k < n)%nat /\ a = base + Z.of_nat k * size.
Proof.
  revert base. induction n as [|n IH]; intros base; cbn [chunk_addrs]; [split; [set_solver|intros (k & ? & _); lia]|].
  rewrite elem_of_cons, IH. split.
  - intros [-> |(k & Hk & ->)]; [exists 0%nat; lia|exists (S k); lia].
  - intros ([|k] & Hk & ->); [left; lia|right; exists k; lia].
Qed.

Lemma chunk_addrs_nodup n base size : 0 < size -> NoDup (chunk_addrs n base size).
Proof.
  intros Hs. revert base. induction n as [|n IH]; intros base; cbn [chunk_addrs]; constructor; [|apply IH].
  rewrite elem_of_chunk_addrs. intros (k & _ & H). nia.
Qed.

Lemma length_chunk_addrs n base size : length (chunk_addrs n base size) = n.
Proof. revert base. induction n as [|n IH]; intros base; simpl; auto. Qed.

Lemma length_class_chunks c : 0 <= perslab c -> Z.of_nat (length (class_chunks c)) = slabs_of c * perslab c.
Proof.
  intros H. unfold class_chunks, slabs_of. induction (slab_list c) as [|p l IH]; [done|]. simpl. rewrite length_app.
  unfold page_chunks at 1. rewrite length_chunk_addrs. lia.
Qed.

Section Pages.
Context (cfg : slab_settings).

Let page := slab_page_size cfg.

(** The chunks of a class fit into a page. *)
Definition fits (c : slabclass_t) : Prop := 0 < cls_size c /\ 0 <= perslab c /\ cls_size c * perslab c <= page.

Definition apart (a b : Z) : Prop := a + page <= b \/ b + page <= a.

(** A chunk lies inside its page. *)
Lemma chunk_in_page c base a : fits c -> a ∈ page_chunks c base -> base <= a /\ a + cls_size c <= base + page.
Proof. intros (F1 & F2 & F3) (k & Hk & ->)%elem_of_chunk_addrs. nia. Qed.

(** Two chunks of one page do not overlap. *)
Lemma chunks_disjoint n base size a b : 0 < size ->
  a ∈ chunk_addrs n base size -> b ∈ chunk_addrs n base size -> a <> b -> a + size <= b \/ b + size <= a.
Proof.
  intros Hs (k & Hk & ->)%elem_of_chunk_addrs (j & Hj & ->)%elem_of_chunk_addrs Hne.
  assert (Z.of_nat k + 1 <= Z.of_nat j \/ Z.of_nat j + 1 <= Z.of_nat k) as [H|H]; [|left|right].
  - assert (k <> j) by congruence. lia.
  - pose proof (Z.mul_le_mono_nonneg_r _ _ size ltac:(lia) H). lia.
  - pose proof (Z.mul_le_mono_nonneg_r _ _ size ltac:(lia) H). lia.
Qed.

Definition all_apart l : Prop := forall x y a b, l !! x = Some a -> l !! y = Some b -> x <> y -> apart a b.

Lemma all_apart_cons a l : all_apart (a :: l) -> all_apart l /\ forall b, b ∈ l -> apart a b.
Proof.
  intros H. split.
  - intros x y p q Hx Hy Hxy. apply (H (S x) (S y)); try done. lia.
  - intros b (k & Hk)%list_elem_of_lookup. by apply (H 0%nat (S k)).
Qed.

Lemma elem_of_pages c l a : a ∈ concat (map (page_chunks c) l) <-> exists base, base ∈ l /\ a ∈ page_chunks c base.
Proof.
  induction l as [|b l IH]; simpl; [split; [set_solver|intros (? & ? & _); set_solver]|].
  rewrite elem_of_app, IH. split.
  - intros [H|(base & H1 & H2)]; [exists b; set_solver|exists base; set_solver].
  - intros (base & [-> | H]%elem_of_cons & H2); [by left|right; eauto].
Qed.

Lemma class_chunks_nodup c : fits c -> all_apart (slab_list c) -> NoDup (class_chunks c).
Proof.
  intros F. unfold class_chunks. induction (slab_list c) as [|b l IH]; intros Hap; simpl; [constructor|].
  apply all_apart_cons in Hap as [Hap Hb]. apply NoDup_app. split; [apply chunk_addrs_nodup, F|]. split; [|by apply IH].
  intros a Ha Ha'. apply elem_of_pages in Ha' as (base & Hbase & Hl').
  pose proof (chunk_in_page c b a F Ha). pose proof (chunk_in_page c base a F Hl'). destruct F as (F1 & _).
  destruct (Hb base Hbase); lia.
Qed.

(** ** The invariant *)

Definition owner s (i x : nat) (a : Z) : Prop := exists c, slabclass s !! i = Some c /\ slab_list c !! x = Some a.

Definition chunks_of s id : list Z :=
  if decide (valid s id) then match slabclass s !! Z.to_nat id with Some c => class_chunks c | None => [] end else [].

Record geometry s : Prop := {
  ge_pages : forall i x a j y b, owner s i x a -> owner s j y b -> (i, x) <> (j, y) -> apart a b;
  ge_class : forall id c, valid s id -> slabclass s !! Z.to_nat id = Some c -> fits c /\ slabs_of c <= list_size c;
  ge_pool : is_Some (slabclass s !! 0%nat);
  ge_bump : prealloc s = true -> forall i x a, owner s i x a -> a + page <= mem_current s
}.

Record slabs_rep s fl us : Prop := {
  sl_core : core s (chunks_of s) fl us;
  sl_geo : geometry s;
  sl_used : forall j x, x ∈ us j -> valid s j
}.

Lemma valid_dec_eq s s' id : power_largest s' = power_largest s -> valid s' id <-> valid s id.
Proof. intros H. unfold valid. by rewrite H. Qed.

Lemma chunks_of_valid s id c : valid s id -> slabclass s !! Z.to_nat id = Some c -> chunks_of s id = class_chunks c.
Proof. intros V E. unfold chunks_of. by rewrite decide_True, E. Qed.

Lemma chunks_of_shape s s' id : power_largest s' = power_largest s ->
  shape <$> slabclass s' !! Z.to_nat id = shape <$> slabclass s !! Z.to_nat id -> chunks_of s' id = chunks_of s id.
Proof.
  intros Hp Hs. unfold chunks_of. destruct (decide (valid s id)) as [V|V].
  - rewrite decide_True by by apply (valid_dec_eq s). destruct (slabclass s' !! _), (slabclass s !! _); try discriminate Hs; [|done].
    injection Hs as E1 E2 E3 E4. unfold class_chunks, page_chunks. by rewrite E1, E2, E3.
  - rewrite decide_False; [done|]. intros V'. apply V. by apply (valid_dec_eq s s').
Qed.

Lemma quiet_owner s s' i x a : quiet s s' -> owner s' i x a <-> owner s i x a.
Proof.
  intros Q. pose proof (qu_shape _ _ Q i) as H. unfold owner.
  split; intros (c & Ec & Ex); rewrite Ec in H; [destruct (slabclass s !! i) as [c'|]|destruct (slabclass s' !! i) as [c'|]];
    try discriminate H; injection H as E1 E2 E3 E4; exists c'; split; congruence.
Qed.

Lemma quiet_geometry s s' : quiet s s' -> geometry s -> geometry s'.
Proof.
  intros Q G. pose proof (qu_pool _ _ Q) as (P1 & P2 & P3). split.
  - intros i x a j y b H1%(quiet_owner s s') H2%(quiet_owner s s'); [|done..]. by apply (ge_pages _ G).
  - intros id c V Ec. pose proof (qu_shape _ _ Q (Z.to_nat id)) as H. rewrite Ec in H.
    destruct (slabclass s !! Z.to_nat id) as [c'|] eqn:Ec'; [|discriminate H]. injection H as E1 E2 E3 E4.
    destruct (ge_class _ G id c') as [(F1 & F2 & F3) F4]; [by apply (valid_dec_eq s s'); [apply Q|]|done|].
    unfold fits, slabs_of in *. rewrite E1, E2, E3, E4. done.
  - pose proof (qu_shape _ _ Q 0%nat) as H. destruct (ge_pool _ G) as [c Ec]. rewrite Ec in H.
    destruct (slabclass s' !! 0%nat); [by eexists|discriminate H].
  - intros Hp i x a H%(quiet_owner s s'); [|done]. rewrite P1 in Hp. rewrite P2. by apply (ge_bump _ G Hp i x).
Qed.

(** The layout keeps the chunks apart. *)
Lemma chunks_of_owner s id a : geometry s -> a ∈ chunks_of s id ->
  exists c x base, valid s id /\ slabclass s !! Z.to_nat id = Some c /\ slab_list c !! x = Some base /\ a ∈ page_chunks c base /\
    base <= a /\ a + cls_size c <= base + page /\ 0 < cls_size c.
Proof.
  intros G Ha. unfold chunks_of in Ha. destruct (decide (valid s id)) as [V|]; [|set_solver].
  destruct (slabclass s !! Z.to_nat id) as [c|] eqn:Ec; [|set_solver]. apply elem_of_pages in Ha as (base & (x & Hx)%list_elem_of_lookup & Ha).
  destruct (ge_class _ G id c V Ec) as [F _]. pose proof (chunk_in_page c base a F Ha) as [H1 H2]. destruct F as (F & _).
  by exists c, x, base.
Qed.

Lemma chunks_of_nodup s id : geometry s -> NoDup (chunks_of s id).
Proof.
  intros G. unfold chunks_of. destruct (decide (valid s id)) as [V|]; [|constructor].
  destruct (slabclass s !! Z.to_nat id) as [c|] eqn:Ec; [|constructor]. apply class_chunks_nodup; [apply (ge_class _ G id c V Ec)|].
  intros x y a b Hx Hy Hne. apply (ge_pages _ G (Z.to_nat id) x a (Z.to_nat id) y b); [by exists c|by exists c|congruence].
Qed.

Lemma chunks_of_apart s i j a : geometry s -> a ∈ chunks_of s i -> a ∈ chunks_of s j -> i = j.
Proof.
  intros G Hi Hj. destruct (chunks_of_owner s i a G Hi) as (c & x & b & [V1 _] & Ec & Ex & _ & B1 & B2 & B3).
  destruct (chunks_of_owner s j a G Hj) as (c' & y & b' & [V1' _] & Ec' & Ey & _ & B1' & B2' & B3').
  destruct (decide (i = j)) as [|Hne]; [done|]. exfalso.
  assert (apart b b') as Hap by (apply (ge_pages _ G (Z.to_nat i) x b (Z.to_nat j) y b'); [by exists c|by exists c'|];
    intros [= H _]; lia).
  destruct Hap; lia.
Qed.

(** Two chunks in use never overlap. *)
Lemma used_disjoint s fl us i j a b c c' : slabs_rep s fl us -> a ∈ us i -> b ∈ us j -> a <> b ->
  slabclass s !! Z.to_nat i = Some c -> slabclass s !! Z.to_nat j = Some c' ->
  a + cls_size c <= b \/ b + cls_size c' <= a.
Proof.
  intros [C G Hv] Ha Hb Hne Ec Ec'. pose proof (Hv _ _ Ha) as Vi. pose proof (Hv _ _ Hb) as Vj.
  assert (a ∈ chunks_of s i) as Ha'.
  { destruct (co_class _ _ _ _ C i Vi) as (x & _ & R). rewrite <- (cr_parts _ _ _ _ _ _ R). set_solver. }
  assert (b ∈ chunks_of s j) as Hb'.
  { destruct (co_class _ _ _ _ C j Vj) as (x & _ & R). rewrite <- (cr_parts _ _ _ _ _ _ R). set_solver. }
  destruct (chunks_of_owner s i a G Ha') as (d & x & p & _ & Ed & Ex & Pa & A1 & A2 & A3).
  destruct (chunks_of_owner s j b G Hb') as (d' & y & q & _ & Ed' & Ey & Pb & B1 & B2 & B3).
  assert (d = c) as -> by congruence. assert (d' = c') as -> by congruence.
  destruct (decide ((Z.to_nat i, x) = (Z.to_nat j, y))) as [[= E1 E2]|Hpq].
  - assert (c' = c) as -> by congruence. assert (q = p) as -> by congruence. by apply (chunks_disjoint (Z.to_nat (perslab c)) p).
  - assert (apart p q) as [H|H] by (apply (ge_pages _ G (Z.to_nat i) x p (Z.to_nat j) y q); [by exists c|by exists c'|done]); lia.
Qed.
End Pages.
