(* ===== verification/SlabGrowth.v ===== *)
(** * Taking pages

    Where a class gets a new page from, the pool of free pages or the system, and how it is cut
    into free chunks.  The invariant of the allocator is kept, and no chunk in use is touched. *)

From S2P Require Import Prelude Items Slabs SlabsFacts SlabPages.
Local Open Scope Z_scope.

Implicit Types (s : slabs_t) (m : gmap Z header) (id a : Z) (l : list Z) (tot fl us : Z -> list Z).

(** ** Taking a page *)

Lemma core_ext s tot tot' fl us : (forall i, tot' i = tot i) -> core s tot fl us -> core s tot' fl us.
Proof.
  intros H [C1 C2 C3]. split.
  - intros id V. rewrite H. by apply C1.
  - intros id. rewrite H. apply C2.
  - intros i j a. rewrite !H. apply C3.
Qed.

(** A change of a class that does not concern its list of free chunks. *)
Lemma core_relist s tot fl us id c c' :
  core s tot fl us -> 0 <= id -> slabclass s !! Z.to_nat id = Some c -> slots c' = slots c -> sl_curr c' = sl_curr c ->
  core (with_class (<[Z.to_nat id := c']> (slabclass s)) s) tot fl us.
Proof.
  intros C H0 Ec H1 H2. split; [|apply C|apply C]. intros i V. change (valid s i) in V.
  destruct (co_class _ _ _ _ C i V) as (ci & Ei & R). simpl. destruct (decide (i = id)) as [->|Hi].
  - exists c'. rewrite list_lookup_insert_eq by (by eapply lookup_lt_Some). split; [done|]. assert (ci = c) as -> by congruence.
    destruct R as [A1 A2 A3 A4 A5]. split; try done; [by rewrite H1|by rewrite H2].
  - exists ci. unfold valid in V. rewrite list_lookup_insert_ne by lia. done.
Qed.

Lemma zero_headers_lookup n ptr size m x :
  (x ∈ chunk_addrs n ptr size -> zero_headers n ptr size m !! x = Some zero_header) /\
  (x ∉ chunk_addrs n ptr size -> zero_headers n ptr size m !! x = m !! x).
Proof.
  revert ptr m. induction n as [|n IH]; intros ptr m; cbn [zero_headers chunk_addrs]; [split; [set_solver|done]|].
  destruct (IH (ptr + size) (<[ptr := zero_header]> m)) as [IH1 IH2]. split.
  - intros Hx. destruct (decide (x ∈ chunk_addrs n (ptr + size) size)) as [H|H]; [by apply IH1|].
    rewrite IH2 by done. assert (x = ptr) as -> by set_solver. apply lookup_insert_eq.
  - intros Hx. rewrite IH2 by set_solver. apply lookup_insert_ne. set_solver.
Qed.

Lemma split_ok n ptr id size s tot fl us :
  core s tot fl us -> (forall j x, x ∈ us j -> valid s j) -> 0 < size ->
  (forall x, x ∈ chunk_addrs n ptr size -> x ∈ us id /\ memory s !! x = Some zero_header) ->
  exists s', split_slab_page_into_freelist n ptr id size s = Ret s' /\ released s us (chunk_addrs n ptr size) s' tot.
Proof.
  intros C Hv Hs. revert ptr s fl us C Hv. induction n as [|n IH]; intros ptr s fl us C Hv Hz; cbn [split_slab_page_into_freelist chunk_addrs].
  { exists s. split; [done|]. exists fl, us. split; [done|]. split; [apply quiet_refl|]. split; [set_solver|done]. }
  destruct (Hz ptr ltac:(cbn [chunk_addrs]; set_solver)) as [Hp Eh].
  destruct (do_slabs_free_ok s tot fl us id ptr zero_header C Hv Hp Eh eq_refl) as (s1 & -> & fl1 & us1 & C1 & Q1 & S1 & F1).
  cbn [mbind outcome_bind]. pose proof (chunk_addrs_nodup (S n) ptr size Hs) as Hnd. cbn [chunk_addrs] in Hnd. apply NoDup_cons in Hnd as [Hpn _].
  destruct (IH (ptr + size) s1 fl1 us1 C1) as (s' & E & fl' & us' & C' & Q' & S' & F').
  { intros j x Hx. apply (valid_dec_eq s s1); [apply Q1|]. apply S1 in Hx as [Hx _]. by eapply Hv. }
  { intros x Hx. destruct (Hz x ltac:(cbn [chunk_addrs]; set_solver)) as [Hxu Ex]. assert (x ∈ us1 id) as Hx1 by (apply S1; set_solver).
    split; [done|]. rewrite (F1 id x); [done|by eapply Hv|done]. }
  exists s'. split; [done|]. exists fl', us'. split; [done|]. split; [by eapply quiet_trans|]. split.
  - intros i x. rewrite S', S1. set_solver.
  - intros i x Vi Hx. assert (x ∈ us1 i) as Hx1 by (apply S' in Hx; tauto). rewrite (F' i x); [by apply (F1 i)| |done].
    by apply (valid_dec_eq s s1); [apply Q1|].
Qed.

Section Slabs.
Context (cfg : slab_settings).

Let page := slab_page_size cfg.

(** Pages all have the same size, as they do unless slab_reassign is off and large chunks are whole
    pages. *)
Context (uniform : slab_reassign cfg || negb (chunk_size_max cfg =? slab_page_size cfg) = true).

(** The page [ptr] belongs to nobody. *)
Definition fresh_page s (ptr : Z) : Prop :=
  (forall i x a, owner s i x a -> apart cfg ptr a) /\ (prealloc s = true -> ptr + page <= mem_current s).

(** What an operation may do to the others' chunks: nothing. *)
Definition keeps_used s us s' : Prop := forall i x, x ∈ us i -> memory s' !! x = memory s !! x.
Definition same_used us us' : Prop := forall i x, x ∈ us' i <-> x ∈ us i.

Lemma wipe_lookup c ptr m x : fits cfg c ->
  (x ∈ page_chunks c ptr -> wipe ptr page c m !! x = Some zero_header) /\
  (~ (ptr <= x < ptr + page) -> wipe ptr page c m !! x = m !! x).
Proof.
  intros F. unfold wipe. destruct (zero_headers_lookup (Z.to_nat (perslab c)) ptr (cls_size c)
    (filter (fun x => ~ (ptr <= x.1 < ptr + page)) m) x) as [H1 H2]. split; [exact H1|].
  intros Hx. rewrite H2.
  - destruct (m !! x) as [h|] eqn:E; [by apply map_lookup_filter_Some|]. apply map_lookup_filter_None. by left.
  - intros Hin. pose proof (chunk_in_page cfg c ptr x F Hin) as [B1 B2]. destruct F as (F & _). apply Hx. fold page in B2. lia.
Qed.

(** The page [ptr] is wiped for the class [id]. *)
Section Wiped.
Context (s : slabs_t) (fl us : Z -> list Z) (id : Z) (c : slabclass_t) (ptr : Z).
Context (C : core s (chunks_of s) fl us) (G : geometry cfg s) (Hv : forall j x, x ∈ us j -> valid s j).
Context (V : valid s id) (Ec : slabclass s !! Z.to_nat id = Some c) (F : fits cfg c).
Context (Hap : forall i x a, owner s i x a -> apart cfg ptr a).

Let m1 := wipe ptr page c (memory s).
Let s1 := with_memory m1 s.
Let us1 := upd id (us id ++ page_chunks c ptr) us.
Let tot := upd id (class_chunks c ++ page_chunks c ptr) (chunks_of s).

Lemma old_outside i x : x ∈ chunks_of s i -> ~ (ptr <= x < ptr + page).
Proof.
  intros Hx. destruct (chunks_of_owner cfg s i x G Hx) as (d & y & b & _ & Ed & Ey & _ & B1 & B2 & B3). fold page in B2.
  destruct (Hap (Z.to_nat i) y b) as [H|H]; [by exists d|fold page in H; lia..].
Qed.

Lemma old_kept i x : x ∈ chunks_of s i -> m1 !! x = memory s !! x.
Proof. intros Hx. apply (wipe_lookup c); [done|by eapply old_outside]. Qed.

Lemma new_inside x : x ∈ page_chunks c ptr -> ptr <= x < ptr + page.
Proof.
  intros Hx. pose proof (chunk_in_page cfg c ptr x F Hx) as [B1 B2]. destruct F as (F1 & _). fold page in B2. lia.
Qed.

Lemma used_old i x : x ∈ us i -> x ∈ chunks_of s i.
Proof. intros Hx. destruct (co_class _ _ _ _ C i (Hv _ _ Hx)) as (ci & _ & R). rewrite <- (cr_parts _ _ _ _ _ _ R). set_solver. Qed.

Lemma wiped_core : (slabs_of c + 1) * perslab c < 2 ^ 32 -> core s1 tot fl us1.
Proof.
  intros Hsmall. split.
  - intros i Vi. change (valid s i) in Vi. destruct (co_class _ _ _ _ C i Vi) as (ci & Ei & R). exists ci. split; [done|].
    apply (class_rep_frame _ m1) in R; [|intros x Hx; by eapply old_kept]. destruct (decide (i = id)) as [->|Hi].
    + unfold tot, us1. rewrite !upd_eq. assert (ci = c) as -> by congruence. rewrite (chunks_of_valid s id c V Ec) in R.
      destruct R as [A1 A2 A3 A4 A5]. split; try done.
      * by rewrite app_assoc, A3.
      * intros x [Hx|Hx]%elem_of_app; [by apply A4|]. change (is_Some (wipe ptr page c (memory s) !! x)). rewrite (proj1 (wipe_lookup c ptr (memory s) x F) Hx). by eexists.
      * rewrite length_app. unfold page_chunks at 1. rewrite length_chunk_addrs. pose proof (length_class_chunks c (proj1 (proj2 F))) as HL.
        destruct F as (_ & F2 & _). lia.
    + unfold tot, us1. by rewrite !upd_ne.
  - intros i. unfold tot. destruct (decide (i = id)) as [->|Hi]; [|rewrite upd_ne by done; by apply (chunks_of_nodup cfg)].
    rewrite upd_eq. apply NoDup_app. pose proof (chunks_of_nodup cfg s id G) as Hnd. rewrite (chunks_of_valid s id c V Ec) in Hnd.
    split; [done|]. split; [|apply chunk_addrs_nodup, F]. intros x Hx Hx'. apply (old_outside id x); [by rewrite (chunks_of_valid s id c V Ec)|by apply new_inside].
  - intros i j x. unfold tot. destruct (decide (i = id)) as [->|Hi], (decide (j = id)) as [->|Hj]; try done;
      rewrite ?upd_eq, ?upd_ne by done; rewrite <- ?(chunks_of_valid s id c V Ec); rewrite ?elem_of_app.
    + intros [Hx|Hx] Hx'; [by apply (chunks_of_apart cfg s id j x G)|exfalso; eapply old_outside; [exact Hx'|by apply new_inside]].
    + intros Hx [Hx'|Hx']; [by apply (chunks_of_apart cfg s i id x G)|exfalso; eapply old_outside; [exact Hx|by apply new_inside]].
    + apply (chunks_of_apart cfg s i j x G).
Qed.

(** It is cut into free chunks. *)
Lemma wiped_split : (slabs_of c + 1) * perslab c < 2 ^ 32 ->
  exists s' fl' us', split_slab_page_into_freelist (Z.to_nat (perslab c)) ptr id (cls_size c) s1 = Ret s' /\
    core s' tot fl' us' /\ quiet s s' /\ same_used us us' /\ keeps_used s us s' /\ (0 < perslab c -> fl' id <> []).
Proof.
  intros Hsmall.
  destruct (split_ok (Z.to_nat (perslab c)) ptr id (cls_size c) s1 tot fl us1 (wiped_core Hsmall)) as (s' & E & fl' & us' & C' & Q & S' & F').
  { intros j x. unfold us1. destruct (decide (j = id)) as [->|Hj]; [by intros _|]. rewrite upd_ne by done. apply Hv. }
  { apply F. }
  { intros x Hx. unfold us1. rewrite upd_eq. split; [apply elem_of_app; by right|]. by apply (wipe_lookup c ptr (memory s) x F). }
  assert (same_used us us') as Hsame.
  { intros i x. rewrite S'. unfold us1. destruct (decide (i = id)) as [->|Hi]; rewrite ?upd_eq, ?upd_ne by done.
    - split; [intros [[H|H]%elem_of_app Hn]; [done|by destruct Hn]|]. intros Hx. split; [apply elem_of_app; by left|].
      intros Hx'. eapply old_outside; [by eapply used_old|by apply new_inside].
    - split; [by intros [? _]|]. intros Hx. split; [done|]. intros Hx'. eapply old_outside; [by eapply used_old|by apply new_inside]. }
  exists s', fl', us'. split; [exact E|]. split; [done|]. split; [eapply quiet_trans; [apply quiet_memory|exact Q]|]. split; [done|].
  split; [intros i x Hx; rewrite (F' i x); [by eapply old_kept, used_old|by eapply Hv|by apply Hsame]|].
  intros Hper Hnil. destruct (co_class _ _ _ _ C' id) as (c' & _ & R'); [by apply (valid_dec_eq s1 s'); [apply Q|]|].
  assert (ptr ∈ page_chunks c ptr) as Hptr by (apply elem_of_chunk_addrs; exists 0%nat; lia).
  assert (ptr ∈ us' id) as H.
  { pose proof (cr_parts _ _ _ _ _ _ R') as P. rewrite Hnil in P. simpl in P. rewrite P. unfold tot. rewrite upd_eq. apply elem_of_app. by right. }
  by apply S' in H as [_ H].
Qed.
End Wiped.

Lemma class_chunks_snoc c ptr : class_chunks (set_slab_list (slab_list c ++ [ptr]) c) = class_chunks c ++ page_chunks c ptr.
Proof. unfold class_chunks. simpl. rewrite map_app, concat_app. simpl. by rewrite app_nil_r. Qed.

(** The page becomes the last one of its class. *)
Lemma page_added s fl us id c ptr tot :
  geometry cfg s -> core s tot fl us -> (forall j x, x ∈ us j -> valid s j) -> valid s id -> slabclass s !! Z.to_nat id = Some c ->
  fresh_page s ptr -> slabs_of c < list_size c ->
  (forall i, tot i = upd id (class_chunks c ++ page_chunks c ptr) (chunks_of s) i) ->
  exists s', add_slab id ptr s = Ret s' /\ slabs_rep cfg s' fl us /\ memory s' = memory s /\ power_largest s' = power_largest s /\
    (cls_size <$> slabclass s' !! Z.to_nat id) = Some (cls_size c).
Proof.
  intros G C Hv V Ec [Hap Hb] Hlen Htot. pose proof V as [V1 _]. unfold add_slab. rewrite (get_class_ok id s c) by (done || lia).
  cbn [mbind outcome_bind]. rewrite (proj2 (Z.leb_gt _ _)) by done. rewrite (upd_class_ok id s c) by (done || lia).
  set (c' := set_slab_list (slab_list c ++ [ptr]) c). set (s' := with_class (<[Z.to_nat id := c']> (slabclass s)) s).
  assert (slabclass s' !! Z.to_nat id = Some c') as Ec' by (apply list_lookup_insert_eq; by eapply lookup_lt_Some).
  assert (forall i x a, owner s' i x a -> owner s i x a \/ (i = Z.to_nat id /\ x = length (slab_list c) /\ a = ptr)) as Ho.
  { intros i x a (d & Ed & Ex). destruct (decide (i = Z.to_nat id)) as [->|Hi].
    - assert (d = c') as -> by congruence. simpl in Ex. apply lookup_app_Some in Ex as [Ex|[Hx Ex]]; [left; by exists c|right].
      apply list_lookup_singleton_Some in Ex as [H <-]. split; [done|]. split; [lia|done].
    - simpl in Ed. rewrite list_lookup_insert_ne in Ed by done. left. by exists d. }
  exists s'. split; [done|]. split; [|split; [done|split; [done|by rewrite Ec']]]. split.
  - apply (core_ext _ tot).
    + intros i. rewrite Htot. destruct (decide (i = id)) as [->|Hi].
      * rewrite upd_eq, (chunks_of_valid s' id c') by done. apply class_chunks_snoc.
      * rewrite upd_ne by done. unfold chunks_of. simpl. destruct (decide (valid s i)) as [Vi|Vi].
        -- rewrite decide_True by done. simpl. unfold valid in Vi. rewrite list_lookup_insert_ne by lia. done.
        -- rewrite decide_False by done. done.
    + apply (core_relist s tot fl us id c c'); done || lia.
  - split.
    + intros i x a j y b Hi%Ho Hj%Ho Hne.
      destruct Hi as [Hi|(-> & -> & ->)], Hj as [Hj|(-> & -> & ->)]; [by apply (ge_pages _ _ G i x a j y b)|..|done].
      * destruct (Hap i x a Hi) as [H|H]; [by right|by left].
      * by apply (Hap j y b).
    + intros i d Vi Ed. destruct (decide (i = id)) as [->|Hi].
      * assert (d = c') as -> by congruence. destruct (ge_class _ _ G id c V Ec) as [F _]. split; [exact F|].
        unfold slabs_of in *. simpl. rewrite length_app. simpl. lia.
      * unfold valid in Vi. simpl in Ed. rewrite list_lookup_insert_ne in Ed by lia. by apply (ge_class _ _ G i d).
    + simpl. rewrite list_lookup_insert_ne by lia. apply G.
    + intros Hp i x a [H|(-> & -> & ->)]%Ho; [by apply (ge_bump _ _ G Hp i x a)|by apply Hb].
  - exact Hv.
Qed.

Lemma add_page_ok s fl us id c ptr :
  slabs_rep cfg s fl us -> valid s id -> slabclass s !! Z.to_nat id = Some c -> fresh_page s ptr ->
  slabs_of c < list_size c -> (slabs_of c + 1) * perslab c < 2 ^ 32 ->
  exists s' fl' us', (s ← split_slab_page_into_freelist (Z.to_nat (perslab c)) ptr id (cls_size c)
      (with_memory (wipe ptr page c (memory s)) s); s ← add_slab id ptr s; Ret (true, s)) = Ret (true, s') /\
    slabs_rep cfg s' fl' us' /\ same_used us us' /\ keeps_used s us s' /\ power_largest s' = power_largest s /\
    (0 < perslab c -> fl' id <> []) /\ (cls_size <$> slabclass s' !! Z.to_nat id) = Some (cls_size c).
Proof.
  intros R V Ec [Hap Hb] Hlen Hsmall. destruct R as [C G Hv].
  destruct (wiped_split s fl us id c ptr C G Hv V Ec (proj1 (ge_class _ _ G id c V Ec)) Hap Hsmall) as (s1 & fl1 & us1 & -> & C1 & Q & S1 & K1 & N1).
  cbn [mbind outcome_bind]. pose proof (qu_shape _ _ Q (Z.to_nat id)) as H. rewrite Ec in H.
  destruct (slabclass s1 !! Z.to_nat id) as [c1|] eqn:Ec1; [|discriminate H]. injection H as E1 E2 E3 E4.
  destruct (page_added s1 fl1 us1 id c1 ptr (upd id (class_chunks c ++ page_chunks c ptr) (chunks_of s))) as (s2 & -> & R2 & M2 & P2 & Z2); try done.
  - by eapply quiet_geometry.
  - intros j x Hx. apply (valid_dec_eq s s1); [apply Q|]. apply S1 in Hx. by eapply Hv.
  - by apply (valid_dec_eq s s1); [apply Q|].
  - destruct (qu_pool _ _ Q) as (P1 & P2 & _). split.
    + intros i x a Ho. apply (quiet_owner s s1) in Ho; [|done]. by eapply Hap.
    + rewrite P1, P2. exact Hb.
  - unfold slabs_of in *. by rewrite E3, E4.
  - intros i. unfold class_chunks, page_chunks. rewrite E1, E2, E3. destruct (decide (i = id)) as [->|Hi]; [by rewrite !upd_eq|].
    rewrite !upd_ne by done. symmetry. apply chunks_of_shape; apply Q.
  - exists s2, fl1, us1. split; [done|]. split; [done|]. split; [done|].
    split; [intros i x Hx; rewrite M2; by apply (K1 i)|]. split; [by rewrite P2, (qu_largest _ _ Q)|]. split; [done|].
    by rewrite Z2, E1.
Qed.

(** ** Where pages come from *)

(** The invariant says nothing of the limit and the counters. *)
Lemma rep_same s s' fl us :
  slabclass s' = slabclass s -> power_largest s' = power_largest s -> memory s' = memory s -> prealloc s' = prealloc s ->
  mem_current s <= mem_current s' -> slabs_rep cfg s fl us -> slabs_rep cfg s' fl us.
Proof.
  destruct s, s'. simpl. intros -> -> -> -> Hcur [[C1 C2 C3] [G1 G2 G3 G4] Hv]. split; [by split|split; try done|done].
  simpl. intros Hp i x a Ho. simpl in *. specialize (G4 Hp i x a Ho). lia.
Qed.

(** [s'] has more room for pages of the class [id], or is [s]. *)
Lemma grow_slab_list_ok e s fl us id c :
  slabs_rep cfg s fl us -> valid s id -> slabclass s !! Z.to_nat id = Some c ->
  exists ok s' c', grow_slab_list e id s = Ret (ok, s') /\ slabs_rep cfg s' fl us /\ memory s' = memory s /\
    power_largest s' = power_largest s /\ prealloc s' = prealloc s /\ mem_current s' = mem_current s /\
    slabclass s' !! Z.to_nat id = Some c' /\ cls_size c' = cls_size c /\ perslab c' = perslab c /\ slab_list c' = slab_list c /\
    (forall i x a, owner s' i x a <-> owner s i x a) /\ (ok = true -> slabs_of c' < list_size c').
Proof.
  intros [C G Hv] V Ec. pose proof V as [V1 _]. destruct (ge_class _ _ G id c V Ec) as [F Hle].
  unfold grow_slab_list. rewrite (get_class_ok id s c) by (done || lia). cbn [mbind outcome_bind].
  destruct (Z.eqb_spec (slabs_of c) (list_size c)) as [Heq|Hne].
  2:{ exists true, s, c. split_and!; try done. lia. }
  destruct (sys_realloc e); cbn [negb]; [|exists false, s, c; split_and!; done].
  rewrite (upd_class_ok id s c) by (done || lia). cbn [mbind outcome_bind].
  set (n := if list_size c =? 0 then 16 else list_size c * 2). set (c' := set_list_size n c).
  assert (slabs_of c < n) as Hn by (unfold n, slabs_of in *; destruct (Z.eqb_spec (list_size c) 0); lia).
  set (s' := with_class (<[Z.to_nat id := c']> (slabclass s)) s).
  assert (slabclass s' !! Z.to_nat id = Some c') as Ec' by (apply list_lookup_insert_eq; by eapply lookup_lt_Some).
  assert (forall i, slab_list <$> slabclass s' !! i = slab_list <$> slabclass s !! i) as Hl.
  { intros i. simpl. destruct (decide (i = Z.to_nat id)) as [->|Hi]; [|by rewrite list_lookup_insert_ne].
    rewrite list_lookup_insert_eq by (by eapply lookup_lt_Some). by rewrite Ec. }
  assert (forall i x a, owner s' i x a <-> owner s i x a) as Ho.
  { intros i x a. specialize (Hl i). unfold owner. split; intros (d & Ed & Ex); rewrite Ed in Hl;
      [destruct (slabclass s !! i) as [d'|]|destruct (slabclass s' !! i) as [d'|]]; try discriminate Hl;
      injection Hl as Hl; exists d'; split; congruence. }
  exists true, s', c'. split; [done|]. split; [|split_and!; done]. split; [|split|exact Hv].
  - apply (core_ext _ (chunks_of s)); [|apply (core_relist s _ fl us id c c'); done || lia].
    intros i. unfold chunks_of. destruct (decide (valid s i)) as [Vi|Vi]; [|by rewrite decide_False].
    rewrite decide_True by done. destruct (decide (i = id)) as [->|Hi]; [by rewrite Ec', Ec|].
    unfold valid in Vi. simpl. by rewrite list_lookup_insert_ne by lia.
  - intros i x a j y b Hi%Ho Hj%Ho. by apply (ge_pages _ _ G).
  - intros i d Vi Ed. destruct (decide (i = id)) as [->|Hi].
    + assert (d = c') as -> by congruence. split; [exact F|]. unfold slabs_of in *. simpl. lia.
    + unfold valid in Vi. simpl in Ed. rewrite list_lookup_insert_ne in Ed by lia. by apply (ge_class _ _ G i d).
  - simpl. rewrite list_lookup_insert_ne by lia. apply G.
  - intros Hp i x a H%Ho. by apply (ge_bump _ _ G Hp i x a).
Qed.

Definition pool_size s : nat := match slabclass s !! 0%nat with Some g => length (slab_list g) | None => 0 end.

Lemma get_page_ok s fl us :
  slabs_rep cfg s fl us ->
  exists r s', get_page_from_global_pool s = Ret (r, s') /\ slabs_rep cfg s' fl us /\ memory s' = memory s /\
    power_largest s' = power_largest s /\ prealloc s' = prealloc s /\ (forall i, (0 < i)%nat -> slabclass s' !! i = slabclass s !! i) /\
    (forall i x a, owner s' i x a -> owner s i x a) /\
    match r with
    | Some ptr => fresh_page s' ptr /\ pool_size s = S (pool_size s')
    | None => s' = s
    end.
Proof.
  intros [C G Hv]. destruct (ge_pool _ _ G) as [g Eg]. unfold get_page_from_global_pool, SLAB_GLOBAL_PAGE_POOL.
  rewrite (get_class_ok 0 s g) by done. cbn [mbind outcome_bind].
  destruct (last (slab_list g)) as [ptr|] eqn:El; [|exists None, s; split_and!; done].
  apply last_Some in El as (l0 & El). rewrite (upd_class_ok 0 s g) by done. cbn [mbind outcome_bind Z.to_nat]. rewrite El, removelast_last.
  set (g' := set_slab_list l0 g). set (s' := with_class (<[0%nat := g']> (slabclass s)) s).
  assert (slabclass s' !! 0%nat = Some g') as Eg' by (apply list_lookup_insert_eq; by eapply lookup_lt_Some).
  assert (forall i, (0 < i)%nat -> slabclass s' !! i = slabclass s !! i) as Hi by (intros i Hi; apply list_lookup_insert_ne; lia).
  assert (forall i x a, owner s' i x a -> owner s i x a /\ (i, x) <> (0%nat, length l0)) as Ho.
  { intros i x a (d & Ed & Ex). destruct i as [|i].
    - assert (d = g') as -> by congruence. simpl in Ex. pose proof (lookup_lt_Some _ _ _ Ex). split; [|intros [= ->]; lia].
      exists g. split; [done|]. rewrite El. by apply lookup_app_l_Some.
    - split; [|done]. exists d. by rewrite <- Hi by lia. }
  assert (owner s 0 (length l0) ptr) as Hown by (exists g; split; [done|rewrite El; by apply list_lookup_middle]).
  exists (Some ptr), s'. split; [done|]. split; [|split_and!; try done].
  - split; [|split|exact Hv].
    + apply (core_ext _ (chunks_of s)); [|exact (core_relist s _ fl us 0 g g' C ltac:(lia) Eg eq_refl eq_refl)].
      intros i. unfold chunks_of. destruct (decide (valid s i)) as [Vi|Vi]; [|by rewrite decide_False].
      rewrite decide_True by done. unfold valid in Vi. by rewrite Hi by lia.
    + intros i x a j y b [H1 _]%Ho [H2 _]%Ho. by apply (ge_pages _ _ G).
    + intros i d Vi Ed. unfold valid in Vi. rewrite Hi in Ed by (simpl in Vi; lia). by apply (ge_class _ _ G i d).
    + by rewrite Eg'.
    + intros Hp i x a [H _]%Ho. by apply (ge_bump _ _ G Hp i x a).
  - intros i x a H. by apply Ho in H as [H _].
  - split; [|intros Hp; by apply (ge_bump _ _ G Hp 0%nat (length l0))].
    intros i x a H. apply Ho in H as [H Hne]. by apply (ge_pages _ _ G 0%nat (length l0) ptr i x a).
  - unfold pool_size. rewrite Eg, Eg', El, length_app. simpl. lia.
Qed.

(** [malloc] returns memory that is in no page. *)
Definition sys_ok s (e : sys) : Prop :=
  prealloc s = false -> forall ptr, sys_malloc e = Some ptr -> forall i x a, owner s i x a -> apart cfg ptr a.

Lemma memory_allocate_ok e s fl us :
  slabs_rep cfg s fl us -> sys_ok s e -> 0 <= page ->
  exists r s', memory_allocate e page s = (r, s') /\ slabs_rep cfg s' fl us /\ memory s' = memory s /\
    power_largest s' = power_largest s /\ slabclass s' = slabclass s /\
    match r with Some ptr => fresh_page s' ptr | None => True end.
Proof.
  intros R Hsys Hpage. pose proof (sl_geo _ _ _ _ R) as G. unfold memory_allocate. destruct (prealloc s) eqn:Hp; cbn [negb].
  - destruct (mem_avail s <? page); [by exists None, s|].
    assert (page <= align_up page) as Hal.
    { unfold align_up, CHUNK_ALIGN_BYTES. pose proof (Z.mod_pos_bound page 8 ltac:(lia)). destruct (_ =? 0); lia. }
    eexists (Some (mem_current s)), _. split; [reflexivity|].
    split; [by apply (rep_same s); [done..|simpl; lia|]|]. split_and!; try done.
    split; [|intros _; simpl; lia]. intros i x a H. right. exact (ge_bump _ _ G Hp i x a H).
  - eexists (sys_malloc e), _. split; [reflexivity|]. split; [by apply (rep_same s)|]. split_and!; try done.
    destruct (sys_malloc e) as [ptr|] eqn:Em; [|done]. split; [by apply Hsys|]. simpl. congruence.
Qed.

Lemma do_slabs_newslab_ok e s fl us id c :
  slabs_rep cfg s fl us -> sys_ok s e -> 0 <= page -> valid s id -> slabclass s !! Z.to_nat id = Some c ->
  (slabs_of c + 1) * perslab c < 2 ^ 32 ->
  exists ok s' fl' us', do_slabs_newslab cfg e id s = Ret (ok, s') /\ slabs_rep cfg s' fl' us' /\ same_used us us' /\
    keeps_used s us s' /\ power_largest s' = power_largest s /\ (ok = true -> 0 < perslab c -> fl' id <> []) /\
    (cls_size <$> slabclass s' !! Z.to_nat id) = Some (cls_size c).
Proof.
  intros R Hsys Hpage V Ec Hsmall. pose proof V as [V1 _]. destruct (ge_pool _ _ (sl_geo _ _ _ _ R)) as [g Eg].
  unfold do_slabs_newslab, SLAB_GLOBAL_PAGE_POOL. rewrite (get_class_ok id s c) by (done || lia). cbn [mbind outcome_bind].
  rewrite (get_class_ok 0 s g) by done. cbn [mbind outcome_bind]. rewrite uniform. fold page.
  destruct (_ && _ && _ && _).
  { exists false, (with_limit (mem_limit s) true s), fl, us. split; [done|]. split; [by apply (rep_same s)|]. split_and!; try done.
    exact (f_equal (fmap cls_size) Ec). }
  destruct (grow_slab_list_ok e s fl us id c R V Ec) as (ok & s1 & c1 & -> & R1 & M1 & L1 & P1 & B1 & Ec1 & E1 & E2 & E3 & O1 & Hlt).
  cbn [mbind outcome_bind]. destruct ok; cbn [negb].
  2:{ exists false, s1, fl, us. split_and!; try done; [by intros i x _; rewrite M1|by rewrite Ec1; simpl; rewrite E1]. }
  destruct (get_page_ok s1 fl us R1) as (r & s2 & -> & R2 & M2 & L2 & P2 & I2 & O2 & Hr). cbn [mbind outcome_bind].
  assert (exists r' s3, match r with Some a => (Some a, s2) | None => memory_allocate e page s2 end = (r', s3) /\ slabs_rep cfg s3 fl us /\
    memory s3 = memory s /\ power_largest s3 = power_largest s /\ slabclass s3 !! Z.to_nat id = Some c1 /\
    match r' with Some ptr => fresh_page s3 ptr | None => True end) as (r' & s3 & -> & R3 & M3 & L3 & Ec3 & Hr').
  { destruct r as [ptr|].
    - exists (Some ptr), s2. split_and!; try done; [congruence|congruence|rewrite I2 by lia; done|apply Hr].
    - subst s2. destruct (memory_allocate_ok e s1 fl us R1) as (r' & s3 & E & R3 & M3 & L3 & S3 & Hr'); [|done|].
      { intros Hp ptr Hm i x a Ho. apply O1 in Ho. rewrite P1 in Hp. by apply (Hsys Hp ptr Hm i x). }
      exists r', s3. split_and!; try done; [congruence|congruence|by rewrite S3]. }
  destruct r' as [ptr|].
  2:{ exists false, s3, fl, us. split_and!; try done; [by intros i x _; rewrite M3|by rewrite Ec3; simpl; rewrite E1]. }
  assert (valid s3 id) as V3 by (by apply (valid_dec_eq s s3)).
  destruct (add_page_ok s3 fl us id c1 ptr R3 V3 Ec3 Hr' (Hlt eq_refl)) as (s4 & fl4 & us4 & E4 & R4 & S4 & K4 & L4 & N4 & Z4).
  { unfold slabs_of in *. rewrite E2, E3. done. }
  assert (wipe ptr page c (memory s3) = wipe ptr page c1 (memory s3)) as -> by (unfold wipe; by rewrite E1, E2).
  rewrite <- E1, <- E2. exists true, s4, fl4, us4. split; [exact E4|]. split_and!; try done; [|congruence].
  intros i x Hx. rewrite (K4 i x Hx). by rewrite M3.
Qed.
End Slabs.
