(* ===== verification/SlabsTheorems.v ===== *)
(** * The contract of the slab allocator

    From the start, whatever its clients do with the chunks they have, the chunks in use never
    overlap, no assertion fails and no chunk is lost. *)

From S2P Require Import Prelude Items Slabs SlabsFacts SlabPages SlabGrowth.
Local Open Scope Z_scope.

Implicit Types (s : slabs_t) (id a : Z) (fl us : Z -> list Z) (U : list (Z * Z)).

Section Slabs.
Context (cfg : slab_settings).
Context (uniform : slab_reassign cfg || negb (chunk_size_max cfg =? slab_page_size cfg) = true).
Context (Hpage : 0 < slab_page_size cfg).

(** ** Allocating *)

(** What a client may ask for: a size that fits the class, of which there are not too many chunks
    to count. *)
Definition askable s (size id : Z) : Prop :=
  forall c, valid s id -> slabclass s !! Z.to_nat id = Some c -> size <= cls_size c /\ (slabs_of c + 1) * perslab c < 2 ^ 32.

(** The chunk [a] of class [id] is handed out. *)
Record handed_out s us (size id a : Z) s' us' : Prop := {
  ho_new : forall i, a ∉ us i;
  ho_used : forall i x, x ∈ us' i <-> x ∈ us i \/ (i = id /\ x = a);
  ho_header : exists h, memory s' !! a = Some h /\ h_refcount h = 1 /\ h_flags h = 0;
  ho_size : exists c, slabclass s' !! Z.to_nat id = Some c /\ size <= cls_size c
}.

Lemma pop_rep s fl us id a l size c :
  slabs_rep cfg s fl us -> valid s id -> fl id = a :: l -> slabclass s !! Z.to_nat id = Some c -> size <= cls_size c ->
  exists s' us', (if sl_curr c =? 0 then Ret (None, s) else
      it ← deref (slots c);
      h ← get_header it s;
      s ← upd_class id (set_slots (h_next h) (sl_curr c)) s;
      s ← match h_next h with Some next => upd_header next (h_set_prev None) s | None => Ret s end;
      s ← upd_header it (fun h => h_set_refcount 1 (h_set_flags (Z.land (h_flags h) (u16 (Z.lnot ITEM_SLABBED))) h)) s;
      s ← upd_class id (fun c => set_slots (slots c) (u32 (sl_curr c - 1)) c) s;
      Ret (Some it, s)) = Ret (Some a, s') /\
    slabs_rep cfg s' (upd id l fl) us' /\ handed_out s us size id a s' us' /\ keeps_used s us s' /\ power_largest s' = power_largest s.
Proof.
  intros [C G Hv] V El Ec Hsize.
  destruct (pop_ok s (chunks_of s) fl us id a l C V El) as (c0 & h & s' & Ec0 & Es & Hn & Eh & E & C' & Q & Ea & Fr).
  assert (c0 = c) as -> by congruence. exists s', (upd id (a :: us id) us).
  rewrite (proj2 (Z.eqb_neq _ _)) by done. rewrite Es. cbn [deref mbind outcome_bind]. unfold get_header. rewrite Eh. cbn [deref mbind outcome_bind].
  split; [exact E|]. split; [|split; [|split; [|apply Q]]].
  - split; [|by eapply quiet_geometry|].
    + eapply core_ext; [|exact C']. intros i. apply chunks_of_shape; apply Q.
    + intros j x Hx. apply (valid_dec_eq s s'); [apply Q|]. destruct (decide (j = id)) as [->|Hj]; [done|].
      rewrite upd_ne in Hx by done. by eapply Hv.
  - split.
    + intros i Hi. apply (used_free s (chunks_of s) fl us i id a C (Hv _ _ Hi) V Hi). rewrite El. set_solver.
    + intros i x. destruct (decide (i = id)) as [->|Hi]; [rewrite upd_eq; set_solver|rewrite upd_ne by done]. naive_solver.
    + by eexists.
    + pose proof (qu_shape _ _ Q (Z.to_nat id)) as H. rewrite Ec in H. destruct (slabclass s' !! Z.to_nat id) as [c'|]; [|discriminate H].
      injection H as H _ _ _. exists c'. split; [done|]. by rewrite H.
  - intros i x Hx. apply Fr.
    + intros ->. apply (used_free s (chunks_of s) fl us i id a C (Hv _ _ Hx) V Hx). rewrite El. set_solver.
    + intros Hf. by apply (used_free s (chunks_of s) fl us i id x C (Hv _ _ Hx) V Hx).
Qed.

Lemma do_slabs_alloc_ok e size id flags s fl us :
  slabs_rep cfg s fl us -> sys_ok cfg s e -> askable s size id ->
  exists r s' fl' us', do_slabs_alloc cfg e size id flags s = Ret (r, s') /\ slabs_rep cfg s' fl' us' /\ keeps_used s us s' /\
    power_largest s' = power_largest s /\
    match r with
    | None => same_used us us' /\
        (~ valid s id \/ (fl id = [] /\ (flags = SLABS_ALLOC_NO_NEWPAGE \/ exists ok s1, do_slabs_newslab cfg e id s = Ret (ok, s1) /\
           (ok = true -> exists c, slabclass s !! Z.to_nat id = Some c /\ perslab c = 0))))
    | Some a => handed_out s us size id a s' us'
    end.
Proof.
  intros R Hsys Hask. unfold do_slabs_alloc, POWER_SMALLEST.
  destruct ((id <? 1) || (power_largest s <? id)) eqn:Hrange.
  { exists None, s, fl, us. split_and!; try done. left. intros [V1 V2].
    apply orb_true_iff in Hrange as [H|H]; apply Z.ltb_lt in H; lia. }
  apply orb_false_iff in Hrange as [V1%Z.ltb_ge V2%Z.ltb_ge]. assert (valid s id) as V by done.
  destruct (co_class _ _ _ _ (sl_core _ _ _ _ R) id V) as (c & Ec & Rc). destruct (Hask c V Ec) as [Hsize Hsmall].
  rewrite (get_class_ok id s c) by (done || lia). cbn [mbind outcome_bind].
  pose proof (cr_count _ _ _ _ _ _ Rc) as Hcount. pose proof (cr_list _ _ _ _ _ _ Rc) as Hlist.
  match goal with |- context [mbind _ (if sl_curr c =? 0 then Ret true else ?x)] =>
    assert ((if sl_curr c =? 0 then Ret true else x) = Ret true) as -> end.
  { destruct (fl id) as [|a l] eqn:El; [by rewrite Hcount|]. rewrite (proj2 (Z.eqb_neq _ _)) by (rewrite Hcount; simpl; lia).
    destruct Hlist as (-> & h & Eh & _ & Hf & _). cbn [deref mbind outcome_bind]. unfold get_header. rewrite Eh. cbn [deref mbind outcome_bind].
    by rewrite Hf. }
  cbn [mbind outcome_bind c_assert]. rewrite (proj2 (Z.leb_le _ _)) by done. cbn [mbind outcome_bind c_assert].
  destruct (fl id) as [|a l] eqn:El.
  - rewrite Hcount. simpl (Z.of_nat _ =? 0). cbn [andb]. destruct (Z.eqb_spec flags SLABS_ALLOC_NO_NEWPAGE) as [Hflags|Hflags]; cbn [negb].
    { rewrite ret_bind, (get_class_ok id s c) by (done || lia). rewrite ret_bind, Hcount. exists None, s, fl, us. split_and!; try done. right. auto. }
    destruct (do_slabs_newslab_ok cfg uniform e s fl us id c R Hsys) as (ok & s1 & fl1 & us1 & En & R1 & S1 & K1 & L1 & N1 & Z1); try done; [lia|].
    rewrite En, !ret_bind. destruct (slabclass s1 !! Z.to_nat id) as [c1|] eqn:Ec1; [|discriminate Z1]. injection Z1 as Z1.
    rewrite (get_class_ok id s1 c1) by (done || lia). rewrite ret_bind. assert (valid s1 id) as V' by (by apply (valid_dec_eq s s1)).
    destruct (fl1 id) as [|a l] eqn:El1.
    + destruct (co_class _ _ _ _ (sl_core _ _ _ _ R1) id V') as (c2 & Ec2 & Rc1). assert (c2 = c1) as -> by congruence.
      pose proof (cr_count _ _ _ _ _ _ Rc1) as Hc1. rewrite El1 in Hc1. rewrite Hc1. exists None, s1, fl1, us1. split_and!; try done.
      right. split; [done|]. right. exists ok, s1. split; [done|]. intros ->. exists c. split; [done|].
      destruct (ge_class _ _ (sl_geo _ _ _ _ R) id c V Ec) as [(_ & F & _) _].
      destruct (Z.eq_dec (perslab c) 0); [done|]. exfalso. apply (N1 eq_refl); [lia|done].
    + destruct (pop_rep s1 fl1 us1 id a l size c1 R1 V' El1 Ec1) as (s' & us' & E & R' & [H1 H2 H3 H4] & K' & L'); [lia|].
      exists (Some a), s', (upd id l fl1), us'. split; [exact E|]. split; [done|].
      split; [intros i x Hx; rewrite (K' i x); [by apply (K1 i)|by apply S1]|]. split; [congruence|].
      split; [intros i Hi; apply (H1 i); by apply S1| |done|done]. intros i x. rewrite H2. by rewrite (S1 i x).
  - rewrite (proj2 (Z.eqb_neq _ _)) by (rewrite Hcount; simpl; lia). cbn [andb]. rewrite ret_bind, (get_class_ok id s c) by (done || lia).
    rewrite ret_bind. destruct (pop_rep s fl us id a l size c R V El Ec Hsize) as (s' & us' & E & R' & H & K' & L').
    rewrite (proj2 (Z.eqb_neq _ _)) in E by (rewrite Hcount; simpl; lia).
    exists (Some a), s', (upd id l fl), us'. split; [|done]. rewrite (proj2 (Z.eqb_neq _ _)) by (rewrite Hcount; simpl; lia). exact E.
Qed.

(** ** The limit *)

Lemma release_loop_ok fuel s fl us : slabs_rep cfg s fl us -> (pool_size s < fuel)%nat ->
  exists s', memory_release_loop cfg fuel s = Ret s' /\ slabs_rep cfg s' fl us /\ memory s' = memory s /\ power_largest s' = power_largest s.
Proof.
  revert s. induction fuel as [|fuel IH]; intros s R Hf; [lia|]. cbn [memory_release_loop].
  destruct (mem_malloced s <=? mem_limit s); [by exists s|].
  destruct (get_page_ok cfg s fl us R) as (r & s1 & -> & R1 & M1 & L1 & _ & _ & _ & Hr). cbn [mbind outcome_bind].
  destruct r as [ptr|]; [|exists s1; by subst s1]. destruct Hr as [_ Hr].
  destruct (IH (with_malloced (u64 (mem_malloced s1 - slab_page_size cfg)) s1)) as (s' & E & R' & M' & L').
  { by apply (rep_same cfg s1). }
  { change (pool_size s1 < fuel)%nat. lia. }
  exists s'. split; [done|]. split; [done|]. simpl in *. split; congruence.
Qed.

Lemma adjust_ok n s fl us : slabs_rep cfg s fl us ->
  exists ok s', do_slabs_adjust_mem_limit cfg n s = Ret (ok, s') /\ slabs_rep cfg s' fl us /\ memory s' = memory s /\
    power_largest s' = power_largest s.
Proof.
  intros R. unfold do_slabs_adjust_mem_limit. destruct (prealloc s) eqn:Hp; [by exists false, s|].
  assert (slabs_rep cfg (with_limit n false s) fl us) as R1 by (by apply (rep_same cfg s)).
  unfold memory_release. simpl (prealloc _). rewrite Hp. destruct (slab_reassign cfg); cbn [negb].
  2:{ rewrite ret_bind. by exists true, (with_limit n false s). }
  destruct (ge_pool _ _ (sl_geo _ _ _ _ R1)) as [g Eg]. rewrite (get_class_ok SLAB_GLOBAL_PAGE_POOL _ g (Z.le_refl 0) Eg), ret_bind.
  destruct (release_loop_ok (S (length (slab_list g))) _ fl us R1) as (s' & -> & R' & M' & L').
  { unfold pool_size. rewrite Eg. lia. }
  rewrite ret_bind. by exists true, s'.
Qed.

(** ** The start *)

Lemma init_classes_ok n sizes l : init_classes cfg n sizes = Ret l -> Forall (fun x => 0 <= x) sizes ->
  Forall (fun c => fits cfg c /\ slots c = None /\ sl_curr c = 0 /\ slab_list c = [] /\ list_size c = 0) l.
Proof.
  revert sizes l. induction n as [|n IH]; intros sizes l; cbn [init_classes]; [by intros [= <-]|].
  destruct sizes as [|x sizes]; [done|]. cbn [head deref]. rewrite ret_bind. intros H [Hx Hs]%Forall_cons. revert H.
  destruct (Z.eqb_spec x 0) as [|Hx0]; [by intros [= <-]|]. cbn [drop]. rewrite drop_0.
  destruct (init_classes cfg n sizes) as [rest| |] eqn:E; [|done..]. rewrite ret_bind. intros [= <-].
  constructor; [|by apply (IH sizes)]. split; [|done].
  assert (0 < align_up x) as Ha.
  { unfold align_up, CHUNK_ALIGN_BYTES. pose proof (Z.mod_pos_bound x 8 ltac:(lia)). destruct (_ =? 0); lia. }
  split; [done|]. simpl. split; [apply Z.div_pos; lia|]. by apply Z.mul_div_le.
Qed.

Lemma init_lookup limit sizes s : slabs_init cfg limit sizes = Ret s -> Forall (fun x => 0 <= x) sizes -> 0 < chunk_size_max cfg ->
  (forall i c, slabclass s !! i = Some c -> slab_list c = []) /\ is_Some (slabclass s !! 0%nat) /\ prealloc s = false /\
  forall id, valid s id -> exists c, slabclass s !! Z.to_nat id = Some c /\ fits cfg c /\ slots c = None /\ sl_curr c = 0 /\ list_size c = 0.
Proof.
  intros H Hs Hmax. unfold slabs_init in H. destruct (init_classes cfg 62 sizes) as [small| |] eqn:E; [|done..].
  pose proof (init_classes_ok 62 sizes small E Hs) as Hok. rewrite ret_bind in H. injection H as <-. simpl slabclass. simpl power_largest.
  set (largest := mkClass (chunk_size_max cfg) (slab_page_size cfg / chunk_size_max cfg) None 0 [] 0).
  assert (fits cfg largest) as Fl.
  { split; [done|]. split; [apply Z.div_pos; simpl; lia|]. by apply Z.mul_div_le. }
  split; [|split; [by eexists|split; [done|]]].
  - intros i c Hi. apply list_elem_of_lookup_2 in Hi. rewrite elem_of_cons in Hi. destruct Hi as [->|Hi]; [done|].
    rewrite !elem_of_app in Hi. destruct Hi as [[Hi|Hi]|Hi].
    + rewrite Forall_forall in Hok. by apply Hok in Hi as (_ & _ & _ & -> & _).
    + apply list_elem_of_singleton in Hi as ->. done.
    + by apply elem_of_replicate in Hi as [-> _].
  - intros id [V1 V2]. simpl in V2. destruct (Z.to_nat id) as [|k] eqn:Ek; [lia|]. simpl. rewrite lookup_app_l by (rewrite length_app; simpl; lia).
    destruct (decide (k < length small)%nat) as [Hk|Hk].
    + rewrite lookup_app_l by done. destruct (lookup_lt_is_Some_2 small k Hk) as [c Hc]. exists c. split; [done|].
      rewrite Forall_forall in Hok. by destruct (Hok c (list_elem_of_lookup_2 _ _ _ Hc)) as (A1 & A2 & A3 & A4 & A5).
    + exists largest. split; [|done]. rewrite lookup_app_r by lia. replace (k - length small)%nat with 0%nat by lia. done.
Qed.

Lemma init_rep limit sizes s : slabs_init cfg limit sizes = Ret s -> Forall (fun x => 0 <= x) sizes -> 0 < chunk_size_max cfg ->
  slabs_rep cfg s (fun _ => []) (fun _ => []).
Proof.
  intros H Hs Hmax. destruct (init_lookup limit sizes s H Hs Hmax) as (Hnil & Hpool & Hpre & Hcls).
  assert (forall i x a, ~ owner s i x a) as Hno by (intros i x a (c & Ec & Ex); by rewrite (Hnil i c Ec) in Ex).
  assert (forall id, chunks_of s id = []) as Hch.
  { intros id. unfold chunks_of. destruct (decide (valid s id)); [|done]. destruct (slabclass s !! Z.to_nat id) as [c|] eqn:Ec; [|done].
    unfold class_chunks. by rewrite (Hnil _ c Ec). }
  split; [|split|set_solver].
  - split; [|intros id; rewrite Hch; constructor|intros i j a; rewrite Hch; set_solver].
    intros id V. destruct (Hcls id V) as (c & Ec & _ & A2 & A3 & _). exists c. split; [done|]. rewrite Hch. split; try done. set_solver.
  - intros i x a j y b Hi. by apply Hno in Hi.
  - intros id c V Ec. destruct (Hcls id V) as (c' & Ec' & F & _ & _ & A5). assert (c' = c) as -> by congruence. split; [done|].
    unfold slabs_of. rewrite (Hnil _ c Ec), A5. done.
  - done.
  - congruence.
Qed.

(** ** The machine *)

(** The chunks in use, with their classes. *)
Definition used_in U : Z -> list Z := fun i => map snd (filter (fun p => p.1 = i) U).
Definition without (dead : list Z) U : list (Z * Z) := filter (fun p => p.2 ∉ dead) U.

Lemma elem_of_used_in U i x : x ∈ used_in U i <-> (i, x) ∈ U.
Proof.
  unfold used_in. rewrite list_elem_of_fmap. split.
  - intros ([j y] & -> & Hin). apply list_elem_of_filter in Hin as [H Hin]. simpl in *. by subst j.
  - intros H. exists (i, x). split; [done|]. by apply list_elem_of_filter.
Qed.

(** An operation of a client, which uses only chunks it has. *)
Inductive slab_step : slabs_t -> list (Z * Z) -> slabs_t -> list (Z * Z) -> Prop :=
| step_alloc e size id flags s U r s' :
    sys_ok cfg s e -> askable s size id -> do_slabs_alloc cfg e size id flags s = Ret (r, s') ->
    slab_step s U s' (match r with Some a => (id, a) :: U | None => U end)
| step_free a id h s U s' :
    (id, a) ∈ U -> memory s !! a = Some h -> Z.land (h_flags h) ITEM_CHUNKED = 0 -> do_slabs_free a id s = Ret s' ->
    slab_step s U s' (without [a] U)
| step_free_large a id h l s U s' :
    valid s id -> large s (used_in U) a h l -> do_slabs_free a id s = Ret s' -> slab_step s U s' (without (a :: l) U)
| step_write a id h s U : (id, a) ∈ U -> slab_step s U (with_memory (<[a := h]> (memory s)) s) U
| step_limit n s U ok s' : do_slabs_adjust_mem_limit cfg n s = Ret (ok, s') -> slab_step s U s' U.

Inductive slabs_reachable : slabs_t -> list (Z * Z) -> Prop :=
| reach_init limit sizes s :
    slabs_init cfg limit sizes = Ret s -> Forall (fun x => 0 <= x) sizes -> 0 < chunk_size_max cfg -> slabs_reachable s []
| reach_step s U s' U' : slabs_reachable s U -> slab_step s U s' U' -> slabs_reachable s' U'.

Definition machine_rep s U : Prop := NoDup U /\ exists fl, slabs_rep cfg s fl (used_in U).

Lemma rep_used s fl us U : slabs_rep cfg s fl us -> NoDup U -> same_used us (used_in U) -> machine_rep s U.
Proof.
  intros [C G Hv] Hnd Hsame. split; [done|]. exists fl. split; [|done|].
  - split; [|apply C|apply C]. intros id V. destruct (co_class _ _ _ _ C id V) as (c & Ec & R). exists c. split; [done|].
    eapply class_rep_perm; [|exact R]. apply NoDup_Permutation.
    + pose proof (class_rep_nodup _ _ _ _ _ _ (co_nodup _ _ _ _ C id) R) as H. by apply NoDup_app in H as (_ & _ & ?).
    + apply NoDup_fmap_2_strong; [|by apply NoDup_filter]. intros [i x] [j y] [H1 _]%list_elem_of_filter [H2 _]%list_elem_of_filter H.
      simpl in *. congruence.
    + intros x. symmetry. apply Hsame.
  - intros j x Hx. apply Hsame in Hx. by eapply Hv.
Qed.

Lemma elem_of_without dead U i x : (i, x) ∈ without dead U <-> (i, x) ∈ U /\ x ∉ dead.
Proof. unfold without. rewrite list_elem_of_filter. simpl. tauto. Qed.

(** A chunk that is freed: what [released] says is the invariant again. *)
Lemma released_rep s fl us dead s' U : slabs_rep cfg s fl us -> us = used_in U -> NoDup U -> released s us dead s' (chunks_of s) ->
  machine_rep s' (without dead U).
Proof.
  intros [C G Hv] -> Hnd (fl' & us' & C' & Q & S' & _). apply (rep_used s' fl' us').
  - split; [|by eapply quiet_geometry|].
    + eapply core_ext; [|exact C']. intros i. apply chunks_of_shape; apply Q.
    + intros j x Hx. apply (valid_dec_eq s s'); [apply Q|]. apply S' in Hx as [Hx _]. by eapply Hv.
  - by apply NoDup_filter.
  - intros i x. by rewrite elem_of_used_in, elem_of_without, S', elem_of_used_in.
Qed.

(** Freeing, whatever the item is. *)
Lemma free_large_ok s fl us a id h l : slabs_rep cfg s fl us -> valid s id -> large s us a h l ->
  exists s', do_slabs_free a id s = Ret s' /\ released s us (a :: l) s' (chunks_of s).
Proof.
  intros [C G Hv] [V1 V2] L. destruct (do_slabs_free_chunked_ok s (chunks_of s) fl us a h l C Hv L) as (s' & E & Rel).
  exists s'. split; [|done]. unfold do_slabs_free, POWER_SMALLEST. rewrite !(proj2 (Z.leb_le _ _)) by lia. cbn [andb c_assert]. rewrite ret_bind.
  unfold get_header. rewrite (lg_header _ _ _ _ _ L). cbn [deref]. rewrite ret_bind.
  by rewrite (proj2 (Z.eqb_neq _ _)) by apply (lg_chunked _ _ _ _ _ L).
Qed.

Lemma step_rep s U s' U' : machine_rep s U -> slab_step s U s' U' -> machine_rep s' U'.
Proof.
  intros M Hst. revert M. destruct Hst as [e size id flags s0 U0 r s1 Hsys Hask E|a id h s0 U0 s1 Ha Eh Hf E|a id h l s0 U0 s1 V L E
    |a id h s0 U0 Ha|n s0 U0 ok s1 E]; intros [Hnd [fl R]]; pose proof R as [C G Hv].
  - destruct (do_slabs_alloc_ok e size id flags s0 fl _ R Hsys Hask) as (r' & s2 & fl' & us' & E' & R' & _ & _ & Hr).
    rewrite E in E'. injection E' as <- <-. destruct r as [a|].
    + destruct Hr as [H1 H2 _ _]. apply (rep_used s1 fl' us' _ R').
      * constructor; [|done]. intros Hin. apply (H1 id). by apply elem_of_used_in.
      * intros i x. rewrite H2, !elem_of_used_in, elem_of_cons. split; [intros [[= -> ->]|H]; auto|intros [H|[-> ->]]; auto].
    + destruct Hr as [Hs _]. apply (rep_used s1 fl' us' _ R' Hnd). intros i x. symmetry. apply Hs.
  - destruct (do_slabs_free_ok s0 (chunks_of s0) fl _ id a h C Hv) as (s2 & E' & Rel); try done; [by apply elem_of_used_in|].
    rewrite E in E'. injection E' as <-. by eapply released_rep.
  - destruct (free_large_ok s0 fl _ a id h l R V L) as (s2 & E' & Rel). rewrite E in E'. injection E' as <-. by eapply released_rep.
  - assert (a ∈ used_in U0 id) as Ha' by (by apply elem_of_used_in). split; [done|]. exists fl. split; [|by eapply quiet_geometry; [apply quiet_memory|]|done].
    eapply core_ext; [|by apply (core_write s0 (chunks_of s0) fl (used_in U0) id a h C (Hv _ _ Ha'))]. done.
  - destruct (adjust_ok n s0 fl _ R) as (ok' & s2 & E' & R' & _). rewrite E in E'. injection E' as <- <-. split; [done|]. by exists fl.
Qed.

Lemma reachable_rep s U : slabs_reachable s U -> machine_rep s U.
Proof.
  induction 1 as [limit sizes s H Hs Hmax|s U s' U' _ IH Hst]; [|by eapply step_rep].
  split; [constructor|]. exists (fun _ => []). by eapply init_rep.
Qed.

(** ** Theorems *)

(** C16: chunks in use never overlap.  From [slabs_init] on, whatever clients allocate, free and write
    to the chunks they have, and however the limit is moved: every chunk in use lies inside a page
    of its class and shares no byte with another one; free and used chunks of a class add up to
    those of its pages; and the next allocation or release of a client, of a large item too, returns
    without tripping an assertion or touching memory that is not a chunk. *)
Theorem slabs_safe (s : slabs_t) (U : list (Z * Z)) (H : slabs_reachable s U) :
  (forall i a, (i, a) ∈ U -> exists c base, slabclass s !! Z.to_nat i = Some c /\ base ∈ slab_list c /\
     base <= a /\ a + cls_size c <= base + slab_page_size cfg) /\
  (forall i a j b, (i, a) ∈ U -> (j, b) ∈ U -> (i, a) <> (j, b) -> exists c c', slabclass s !! Z.to_nat i = Some c /\
     slabclass s !! Z.to_nat j = Some c' /\ (a + cls_size c <= b \/ b + cls_size c' <= a)) /\
  (forall id c, valid s id -> slabclass s !! Z.to_nat id = Some c ->
     sl_curr c + Z.of_nat (length (used_in U id)) = slabs_of c * perslab c) /\
  (forall e size id flags, sys_ok cfg s e -> askable s size id -> exists r s', do_slabs_alloc cfg e size id flags s = Ret (r, s')) /\
  (forall a id h, (id, a) ∈ U -> memory s !! a = Some h -> Z.land (h_flags h) ITEM_CHUNKED = 0 ->
     exists s', do_slabs_free a id s = Ret s') /\
  (forall a id h l, valid s id -> large s (used_in U) a h l -> exists s', do_slabs_free a id s = Ret s').
Proof.
  apply reachable_rep in H as [Hnd [fl R]]. pose proof R as [C G Hv].
  assert (forall i a, (i, a) ∈ U -> a ∈ chunks_of s i) as Hin.
  { intros i a Ha%elem_of_used_in. destruct (co_class _ _ _ _ C i (Hv _ _ Ha)) as (c & _ & Rc). rewrite <- (cr_parts _ _ _ _ _ _ Rc). set_solver. }
  split_and!.
  - intros i a Ha. destruct (chunks_of_owner cfg s i a G (Hin i a Ha)) as (c & x & base & _ & Ec & Ex & _ & B1 & B2 & _).
    exists c, base. split; [done|]. split; [by eapply list_elem_of_lookup_2|done].
  - intros i a j b Ha Hb Hne. destruct (chunks_of_owner cfg s i a G (Hin i a Ha)) as (c & _ & _ & _ & Ec & _).
    destruct (chunks_of_owner cfg s j b G (Hin j b Hb)) as (c' & _ & _ & _ & Ec' & _). exists c, c'. split; [done|]. split; [done|].
    apply (used_disjoint cfg s fl (used_in U) i j a b c c' R); try done; [by apply elem_of_used_in..|].
    intros ->. apply Hne. f_equal. by apply (chunks_of_apart cfg s i j b G); apply Hin.
  - intros id c V Ec. destruct (co_class _ _ _ _ C id V) as (c' & Ec' & Rc). assert (c' = c) as -> by congruence.
    destruct (ge_class _ _ G id c V Ec) as [(_ & F & _) _]. rewrite <- (length_class_chunks c F), (cr_count _ _ _ _ _ _ Rc).
    rewrite <- (chunks_of_valid s id c V Ec), <- (cr_parts _ _ _ _ _ _ Rc), length_app. lia.
  - intros e size id flags Hsys Hask. destruct (do_slabs_alloc_ok e size id flags s fl _ R Hsys Hask) as (r & s' & _ & _ & E & _). eauto.
  - intros a id h Ha Eh Hf. destruct (do_slabs_free_ok s (chunks_of s) fl (used_in U) id a h C Hv) as (s' & E & _); try done; [by apply elem_of_used_in|]. eauto.
  - intros a id h l V L. destruct (free_large_ok s fl (used_in U) a id h l R V L) as (s' & E & _). eauto.
Qed.

(** C17: what an allocation gives.  In any reachable state [do_slabs_alloc] returns a chunk nobody has,
    large enough, with its flags cleared and one reference, and leaves the headers of all chunks in
    use alone; it returns nothing only for a class that does not exist, or when the class has no
    free chunk and no page for it was asked for, could be had or would hold a chunk. *)
Theorem slabs_alloc_correct (s : slabs_t) (U : list (Z * Z)) (e : sys) (size id flags : Z) (H : slabs_reachable s U)
    (Hsys : sys_ok cfg s e) (Hask : askable s size id) :
  exists r s', do_slabs_alloc cfg e size id flags s = Ret (r, s') /\
    (forall i x, (i, x) ∈ U -> memory s' !! x = memory s !! x) /\
    match r with
    | Some a => (forall i, (i, a) ∉ U) /\ (exists h, memory s' !! a = Some h /\ h_refcount h = 1 /\ h_flags h = 0) /\
        (exists c, slabclass s' !! Z.to_nat id = Some c /\ size <= cls_size c)
    | None => ~ valid s id \/ exists c, slabclass s !! Z.to_nat id = Some c /\ sl_curr c = 0 /\
        (flags = SLABS_ALLOC_NO_NEWPAGE \/ perslab c = 0 \/ exists s1, do_slabs_newslab cfg e id s = Ret (false, s1))
    end.
Proof.
  apply reachable_rep in H as [_ [fl R]].
  destruct (do_slabs_alloc_ok e size id flags s fl _ R Hsys Hask) as (r & s' & fl' & us' & E & _ & K & _ & Hr).
  exists r, s'. split; [done|]. split; [intros i x Hx; apply (K i); by apply elem_of_used_in|]. destruct r as [a|].
  - destruct Hr as [H1 _ H3 H4]. split; [|done]. intros i Hi. apply (H1 i). by apply elem_of_used_in.
  - destruct Hr as [_ [Hr|[Hf Hr]]]; [by left|]. destruct (decide (valid s id)) as [V|V]; [right|by left].
    destruct (co_class _ _ _ _ (sl_core _ _ _ _ R) id V) as (c & Ec & Rc). exists c. split; [done|].
    split; [by rewrite (cr_count _ _ _ _ _ _ Rc), Hf|]. destruct Hr as [Hr|(ok & s1 & En & Hok)]; [by left|right].
    destruct ok; [left|right; by exists s1]. destruct (Hok eq_refl) as (c' & Ec' & Hz). congruence.
Qed.

(** A page that [malloc] refuses to a class without pages. *)
Lemma newslab_refused e s id c : valid s id -> slabclass s !! Z.to_nat id = Some c -> slab_list c = [] -> prealloc s = false ->
  is_Some (slabclass s !! 0%nat) -> pool_size s = 0%nat -> sys_malloc e = None -> sys_realloc e = true ->
  exists s1, do_slabs_newslab cfg e id s = Ret (false, s1) /\ mem_malloced s1 = u64 (mem_malloced s + slab_page_size cfg) /\
    mem_limit s1 = mem_limit s /\ power_largest s1 = power_largest s /\
    (forall i, i <> Z.to_nat id -> slabclass s1 !! i = slabclass s !! i) /\
    exists c1, slabclass s1 !! Z.to_nat id = Some c1 /\ sl_curr c1 = sl_curr c /\ slab_list c1 = slab_list c.
Proof.
  intros V Ec Hnil Hpre [g Eg] Hpool Hm Hr. pose proof V as [V1 _]. unfold pool_size in Hpool. rewrite Eg in Hpool.
  assert (forall s', slabclass s' !! 0%nat = Some g -> get_page_from_global_pool s' = Ret (None, s')) as Hget.
  { intros s' Es'. unfold get_page_from_global_pool. rewrite (get_class_ok SLAB_GLOBAL_PAGE_POOL s' g (Z.le_refl 0) Es'), ret_bind.
    apply nil_length_inv in Hpool. by rewrite Hpool. }
  unfold do_slabs_newslab. rewrite (get_class_ok id s c) by (done || lia). rewrite ret_bind.
  rewrite (get_class_ok SLAB_GLOBAL_PAGE_POOL s g (Z.le_refl 0) Eg), ret_bind, uniform.
  assert (0 <? slabs_of c = false) as -> by (unfold slabs_of; by rewrite Hnil). rewrite !andb_false_r. cbn [andb].
  unfold grow_slab_list. rewrite (get_class_ok id s c) by (done || lia). rewrite ret_bind, Hr. cbn [negb].
  destruct (slabs_of c =? list_size c).
  - rewrite (upd_class_ok id s c) by (done || lia). rewrite !ret_bind.
    rewrite Hget by (simpl; by rewrite list_lookup_insert_ne by lia). rewrite ret_bind. unfold memory_allocate. simpl (prealloc _). rewrite Hpre, Hm.
    cbn [negb]. eexists. split; [reflexivity|]. split; [done|]. split; [done|]. split; [done|]. split.
    + intros i Hi. simpl. by rewrite list_lookup_insert_ne.
    + eexists. split; [simpl; apply list_lookup_insert_eq; by eapply lookup_lt_Some|done].
  - rewrite ret_bind, Hget by done. rewrite ret_bind. unfold memory_allocate. rewrite Hpre, Hm. cbn [negb].
    eexists. split; [reflexivity|]. split_and!; try done. by exists c.
Qed.

(** [do_slabs_alloc] for a class without free chunks. *)
Lemma alloc_empty e s id size c : valid s id -> slabclass s !! Z.to_nat id = Some c -> sl_curr c = 0 -> size <= cls_size c ->
  forall s1 c1, do_slabs_newslab cfg e id s = Ret (false, s1) -> slabclass s1 !! Z.to_nat id = Some c1 -> sl_curr c1 = 0 ->
  do_slabs_alloc cfg e size id 0 s = Ret (None, s1).
Proof.
  intros [V1 V2] Ec Hcurr Hsize s1 c1 En Ec1 Hc1. unfold do_slabs_alloc, POWER_SMALLEST.
  rewrite !(proj2 (Z.ltb_ge _ _)) by lia. cbn [orb]. rewrite (get_class_ok id s c) by (done || lia). rewrite ret_bind, Hcurr.
  cbn [Z.eqb]. rewrite ret_bind. cbn [c_assert]. rewrite ret_bind, (proj2 (Z.leb_le _ _)) by done. cbn [c_assert]. rewrite ret_bind.
  cbn [andb negb Z.eqb SLABS_ALLOC_NO_NEWPAGE]. rewrite En, !ret_bind, (get_class_ok id s1 c1) by (done || lia). by rewrite ret_bind, Hc1.
Qed.

(** Memory that was refused counts as used.  When [malloc] refuses a page for a class that has
    none, [mem_malloced] grows by a page all the same.  Once that has carried it past the limit, a
    class whose chunks are all in use is denied a page whatever the system would give. *)
Theorem refused_malloc_counts (s : slabs_t) (U : list (Z * Z)) (e e' : sys) (size size' id id' : Z) (c c' : slabclass_t)
    (H : slabs_reachable s U) (Hpre : prealloc s = false) (Hpool : pool_size s = 0%nat)
    (Hid : valid s id) (Hc : slabclass s !! Z.to_nat id = Some c) (Hempty : slab_list c = []) (Hsize : size <= cls_size c)
    (Hmalloc : sys_malloc e = None) (Hrealloc : sys_realloc e = true)
    (Hover : 0 < mem_limit s < u64 (u64 (mem_malloced s + slab_page_size cfg) + slab_page_size cfg))
    (Hid' : valid s id') (Hc' : slabclass s !! Z.to_nat id' = Some c') (Hpages : slab_list c' <> []) (Hfull : sl_curr c' = 0)
    (Hsize' : size' <= cls_size c') :
  exists s1, do_slabs_alloc cfg e size id 0 s = Ret (None, s1) /\
    mem_malloced s1 = u64 (mem_malloced s + slab_page_size cfg) /\ (forall i x a, owner s1 i x a <-> owner s i x a) /\
    do_slabs_alloc cfg e' size' id' 0 s1 = Ret (None, with_limit (mem_limit s) true s1).
Proof.
  apply reachable_rep in H as [_ [fl R]]. pose proof (sl_geo _ _ _ _ R) as G.
  assert (sl_curr c = 0) as Hcurr.
  { destruct (co_class _ _ _ _ (sl_core _ _ _ _ R) id Hid) as (d & Ed & Rd). assert (d = c) as -> by congruence.
    pose proof (cr_parts _ _ _ _ _ _ Rd) as P. rewrite (chunks_of_valid s id c Hid Hc) in P. unfold class_chunks in P. rewrite Hempty in P.
    apply Permutation_nil_r, app_nil in P as [Hfl _]. by rewrite (cr_count _ _ _ _ _ _ Rd), Hfl. }
  destruct (newslab_refused e s id c Hid Hc Hempty Hpre (ge_pool _ _ G) Hpool Hmalloc Hrealloc)
    as (s1 & En & Hm1 & Hl1 & Hp1 & Hi1 & c1 & Ec1 & Hc1 & Hs1).
  assert (Z.to_nat id' <> Z.to_nat id) as Hne by (intros Heq; rewrite Heq, Hc in Hc'; congruence).
  exists s1. split; [apply (alloc_empty e s id size c Hid Hc Hcurr Hsize s1 c1 En Ec1); congruence|]. split; [done|]. split.
  - intros i x a. unfold owner. destruct (decide (i = Z.to_nat id)) as [->|Hi]; [|by rewrite Hi1].
    rewrite Ec1, Hc. split; intros (d & [= <-] & Ex); [exists c|exists c1]; (split; [done|]); congruence.
  - assert (valid s1 id') as V1 by (by apply (valid_dec_eq s s1)). assert (slabclass s1 !! Z.to_nat id' = Some c') as Ec' by (by rewrite Hi1).
    apply (alloc_empty e' s1 id' size' c' V1 Ec' Hfull Hsize' _ c'); [|done|done].
    destruct (ge_pool _ _ G) as [g Eg]. unfold pool_size in Hpool. rewrite Eg in Hpool. pose proof Hid as [V _]. pose proof Hid' as [V' _].
    unfold do_slabs_newslab. rewrite (get_class_ok id' s1 c') by (done || lia). rewrite ret_bind.
    assert (slabclass s1 !! 0%nat = Some g) as Eg1 by (rewrite Hi1 by lia; done).
    rewrite (get_class_ok SLAB_GLOBAL_PAGE_POOL s1 g (Z.le_refl 0) Eg1), ret_bind, uniform, Hl1, Hm1.
    assert (slabs_of g =? 0 = true) as -> by (unfold slabs_of; by rewrite Hpool).
    assert (0 <? slabs_of c' = true) as -> by (apply Z.ltb_lt; unfold slabs_of; destruct (slab_list c'); [done|simpl; lia]).
    rewrite (proj2 (Z.ltb_lt _ _)) by lia. rewrite (proj2 (Z.eqb_neq (mem_limit s) 0)) by lia. done.
Qed.
End Slabs.

(** ** A small allocator *)

Definition sample_slabs : slab_settings := mkSlabSettings 1024 512 true.
Definition slabs0 : slabs_t :=
  match slabs_init sample_slabs 2048 [300; 0] with Ret s => s | _ => mkSlabs [] 0 0 0 false false 0 0 ∅ end.

(** The first page comes from the system, later requests are refused. *)
Definition first_page : sys := mkSys (Some 65536) true.
Definition no_memory : sys := mkSys None true.

Definition alloc_next (e : sys) (x : slabs_t * list (Z * Z)) : slabs_t * list (Z * Z) :=
  match do_slabs_alloc sample_slabs e 200 1 0 x.1 with
  | Ret (r, s) => (s, match r with Some a => (1, a) :: x.2 | None => x.2 end)
  | _ => x
  end.

(** A page of the first class holds three chunks, which are all in use at the end. *)
Definition slabs1 : slabs_t * list (Z * Z) := alloc_next first_page (slabs0, []).
Definition slabs3 : slabs_t * list (Z * Z) := alloc_next no_memory (alloc_next no_memory slabs1).

Lemma slabs0_reachable : slabs_reachable sample_slabs slabs0 [].
Proof. apply (reach_init sample_slabs 2048 [300; 0]); [reflexivity|repeat constructor; lia|reflexivity]. Qed.

Lemma alloc_next_reachable e x : slabs_reachable sample_slabs x.1 x.2 -> sys_ok sample_slabs x.1 e -> askable x.1 200 1 ->
  slabs_reachable sample_slabs (alloc_next e x).1 (alloc_next e x).2.
Proof.
  intros R Hs Ha. unfold alloc_next. destruct (do_slabs_alloc sample_slabs e 200 1 0 x.1) as [[r s]| |] eqn:E; [|done..].
  eapply reach_step; [exact R|]. by eapply step_alloc.
Qed.

Lemma slabs1_reachable : slabs_reachable sample_slabs slabs1.1 slabs1.2.
Proof.
  apply alloc_next_reachable; [apply slabs0_reachable| |].
  - intros _ ptr _ i x a (c & Ec & Ex). exfalso. revert Ec.
    destruct (init_lookup sample_slabs eq_refl 2048 [300; 0] slabs0 eq_refl) as [Hnil _]; [repeat constructor; lia|reflexivity|].
    intros Ec. by rewrite (Hnil i c Ec) in Ex.
  - intros c _ Ec. vm_compute in Ec. injection Ec as <-. vm_compute. split; congruence.
Qed.

Lemma slabs3_reachable : slabs_reachable sample_slabs slabs3.1 slabs3.2.
Proof.
  assert (forall x, sys_ok sample_slabs x no_memory) as Hs by (intros x _ ptr H; discriminate H).
  apply alloc_next_reachable; [apply alloc_next_reachable; [apply slabs1_reachable|apply Hs|]|apply Hs|];
    intros c _ Ec; vm_compute in Ec; injection Ec as <-; vm_compute; split; congruence.
Qed.

Lemma slabs_safe_witness : exists c, slabclass slabs3.1 !! 1%nat = Some c /\ sl_curr c + Z.of_nat (length (used_in slabs3.2 1)) = slabs_of c * perslab c /\
  length (used_in slabs3.2 1) = 3%nat /\
  forall i a, (i, a) ∈ slabs3.2 -> exists c base, slabclass slabs3.1 !! Z.to_nat i = Some c /\ base ∈ slab_list c /\
     base <= a /\ a + cls_size c <= base + slab_page_size sample_slabs.
Proof.
  destruct (slabs_safe sample_slabs eq_refl eq_refl slabs3.1 slabs3.2 slabs3_reachable) as (H1 & _ & H3 & _).
  destruct (slabclass slabs3.1 !! 1%nat) as [c|] eqn:Ec; [|exfalso; vm_compute in Ec; discriminate Ec].
  exists c. split; [reflexivity|]. split; [apply (H3 1 c); [vm_compute; split; congruence|exact Ec]|]. split; [vm_compute; reflexivity|exact H1].
Defined.

Lemma slabs_alloc_correct_witness : exists a s', do_slabs_alloc sample_slabs no_memory 200 1 0 slabs1.1 = Ret (Some a, s') /\
  (forall i, (i, a) ∉ slabs1.2) /\ exists c, slabclass s' !! Z.to_nat 1 = Some c /\ 200 <= cls_size c.
Proof.
  destruct (slabs_alloc_correct sample_slabs eq_refl eq_refl slabs1.1 slabs1.2 no_memory 200 1 0 slabs1_reachable) as (r & s' & E & _ & Hr).
  - intros _ ptr H. discriminate H.
  - intros c _ Ec. vm_compute in Ec. injection Ec as <-. vm_compute. split; congruence.
  - destruct r as [a|]; [exists a, s'; split; [exact E|]; split; apply Hr|]. exfalso.
    assert (fmap (fun x => match x.1 with Some _ => true | None => false end) (do_slabs_alloc sample_slabs no_memory 200 1 0 slabs1.1) = Ret true) as Hs
      by (vm_compute; reflexivity).
    rewrite E in Hs. discriminate Hs.
Defined.

Lemma slabs3_classes : exists c c', slabclass slabs3.1 !! Z.to_nat 2 = Some c /\ slabclass slabs3.1 !! Z.to_nat 1 = Some c' /\
  slab_list c = [] /\ 400 <= cls_size c /\ slab_list c' <> [] /\ sl_curr c' = 0 /\ 200 <= cls_size c'.
Proof.
  eexists _, _. split; [vm_compute; reflexivity|]. split; [vm_compute; reflexivity|]. split; [reflexivity|]. split; [vm_compute; congruence|].
  split; [vm_compute; congruence|]. split; [reflexivity|vm_compute; congruence].
Qed.

Lemma slabs3_memory : prealloc slabs3.1 = false /\ pool_size slabs3.1 = 0%nat /\ mem_limit slabs3.1 = 2048 /\ mem_malloced slabs3.1 = 1024 /\
  power_largest slabs3.1 = 2.
Proof. split_and!; vm_compute; reflexivity. Qed.

Lemma refused_malloc_counts_witness : exists s1, do_slabs_alloc sample_slabs no_memory 400 2 0 slabs3.1 = Ret (None, s1) /\
  mem_malloced s1 = 2048 /\ do_slabs_alloc sample_slabs (mkSys (Some 131072) true) 200 1 0 s1 = Ret (None, with_limit 2048 true s1).
Proof.
  destruct slabs3_classes as (c & c' & Ec & Ec' & H1 & H2 & H3 & H4 & H5). destruct slabs3_memory as (M1 & M2 & M3 & M4 & M5).
  assert (valid slabs3.1 2 /\ valid slabs3.1 1) as [V2 V1] by (unfold valid; rewrite M5; lia).
  assert (0 < mem_limit slabs3.1 < u64 (u64 (mem_malloced slabs3.1 + slab_page_size sample_slabs) + slab_page_size sample_slabs)) as Hov
    by (rewrite M3, M4; vm_compute; split; reflexivity).
  destruct (refused_malloc_counts sample_slabs eq_refl eq_refl slabs3.1 slabs3.2 no_memory (mkSys (Some 131072) true) 400 200 2 1 c c'
    slabs3_reachable M1 M2 V2 Ec H1 H2 eq_refl eq_refl Hov V1 Ec' H3 H4 H5) as (s1 & E & Hm & _ & E').
  exists s1. split; [exact E|]. rewrite M3 in E'. rewrite M4 in Hm. split; [exact Hm|exact E'].
Defined.
