(* ===== verification/ItemAlloc.v ===== *)
(** * Allocation and eviction (src/memcached/items.c, slabs.c)

    [do_item_alloc] asks the slab allocator for a chunk and makes room by pulling items from
    the tail of an LRU when there is none: [lru_pull_tail] reclaims expired items, moves items
    between the LRUs and evicts.  The slab allocator is behind an interface; the locks of the
    hash buckets that other threads, or the caller, hold are a parameter. *)

From S2P Require Import Prelude Items.

Local Open Scope Z_scope.

Definition LRU_PULL_EVICT : Z := 1.
Definition LRU_PULL_CRAWL_BLOCKS : Z := 2.
Definition LRU_PULL_RETURN_ITEM : Z := 4.

(** ** The interface of the slab allocator

    [slabs_alloc n ntotal id h] answers the [n]-th request of an operation when the items in use
    are those of [h]: the address and the old contents of a free chunk, or nothing.  What items.c
    relies on: the chunk is not in use, carries no flag and has the size asked for. *)
Class SlabAllocator := slabs_alloc : nat -> Z -> Z -> gmap positive item -> option (positive * item).

Class SlabAllocatorLaws `{!SlabAllocator} := slabs_alloc_law n ntotal id h p junk :
  slabs_alloc n ntotal id h = Some (p, junk) ->
  h !! p = None /\ it_flags junk = 0 /\ ntotal <= Z.of_nat (length (it_data junk)) /\
  bytes_ok (it_data junk).

Section Alloc.
Context {T : Type} `{!ItemTable T} `{!SlabAllocator} (hash : list Z -> Z) (cfg : settings).

(** Whether [item_trylock] gets the lock of a hash value. *)
Context (item_trylock : Z -> bool).

(** ** Size classes *)

(** [slabs_clsid] (slabs.c): the first class whose chunks are large enough. *)
Fixpoint find_class (sizes : list Z) (res size : Z) : Z :=
  match sizes with
  | [] => res
  | [_] => res
  | sz :: rest => if sz <? size then find_class rest (res + 1) size else res
  end.

Definition slabs_clsid (size : Z) : Z :=
  if (size =? 0) || (item_size_max cfg <? size) then 0
  else find_class (slabclass_sizes cfg) 1 size.

(** [item_make_header]: the total and [nsuffix]; [nkey] is a [uint8_t]. *)
Definition item_make_header (nkey flags nbytes : Z) : Z * Z :=
  let nsuffix := if flags =? 0 then 0 else 4 in
  (80 + u8 nkey + nsuffix + nbytes, nsuffix).

Definition item_size_ok (nkey flags nbytes : Z) : bool :=
  if nbytes <? 2 then false else
  let ntotal := (item_make_header (nkey + 1) flags nbytes).1 in
  let ntotal := if use_cas cfg then ntotal + 8 else ntotal in
  negb (slabs_clsid ntotal =? 0).

(** ** Pulling items from the tail of an LRU *)

(** The copy of [do_item_unlink] that is called with the lock of the LRU held. *)
Definition do_item_unlink_nolock (p : positive) (hv : Z) (s : store T) : outcome (store T) :=
  do_item_unlink p hv s.

(** What one turn of the loop does: go on with the next item, or stop at this one ([it = search])
    with the LRU it has to move to, if any; and how much it adds to [removed]. *)
Inductive pulled :=
| Next (removed : Z)
| Stop (removed : Z) (move_to_lru : option Z).

Definition pull_hot_warm (id cur_lru total_bytes max_age : Z) (p : positive) (s : store T)
    : outcome (pulled * store T) :=
  it ← get_item p s;
  let limit := if cur_lru =? HOT_LRU then u64 (total_bytes * hot_lru_pct cfg) / 100 else 0 in
  let limit := if limit =? 0 then u64 (total_bytes * warm_lru_pct cfg) / 100 else limit in
  if has_flag ITEM_ACTIVE it then
    s ← upd_item p (clear_flag ITEM_ACTIVE) s;
    s ← do_item_unlink_q p s;
    if cur_lru =? WARM_LRU then
      s ← do_item_link_q p s;
      s ← do_item_remove p s;
      Ret (Next 1, s)
    else Ret (Stop 1 (Some WARM_LRU), s)
  else if (limit <? count_at (sizes_bytes s) id) || (max_age <? u32 (current_time cfg - it_time it)) then
    s ← do_item_unlink_q p s;
    Ret (Stop 1 (Some COLD_LRU), s)
  else Ret (Stop 0 None, s).

Definition pull_cold (flags : Z) (p : positive) (hv : Z) (s : store T) : outcome (pulled * store T) :=
  it ← get_item p s;
  if negb (Z.land flags LRU_PULL_EVICT =? 0) then
    if negb (evict_to_free cfg) then Ret (Stop 0 None, s) else
    s ← do_item_unlink_nolock p hv s;
    Ret (Stop 1 None, s)
  else if negb (Z.land flags LRU_PULL_RETURN_ITEM =? 0) then Ret (Stop 0 None, s)
  else if has_flag ITEM_ACTIVE it && lru_segmented cfg then
    s ← upd_item p (clear_flag ITEM_ACTIVE) s;
    s ← do_item_unlink_q p s;
    Ret (Stop 1 (Some WARM_LRU), s)
  else Ret (Stop 0 None, s).

(** The body of the loop for an item that is not a crawler. *)
Definition pull_item (id cur_lru total_bytes flags max_age : Z) (p : positive) (s : store T)
    : outcome (pulled * store T) :=
  it ← get_item p s;
  let hv := hash (item_key it) in
  if negb (item_trylock hv) then Ret (Next 0, s) else
  s ← refcount_incr p s;
  it ← get_item p s;
  if negb (it_refcount it =? 2) && negb (tail_repair_time cfg =? 0)
     && (u32 (it_time it + tail_repair_time cfg) <? current_time cfg) then
    s ← upd_item p (set_refcount 1) s;
    s ← do_item_unlink_nolock p hv s;
    Ret (Next 0, s)
  else if (negb (it_exptime it =? 0) && (it_exptime it <? current_time cfg)) || item_is_flushed cfg it then
    s ← do_item_unlink_nolock p hv s;
    s ← do_item_remove p s;
    Ret (Next 1, s)
  else if (cur_lru =? HOT_LRU) || (cur_lru =? WARM_LRU) then
    pull_hot_warm id cur_lru total_bytes max_age p s
  else if cur_lru =? COLD_LRU then pull_cold flags p hv s
  else Ret (Stop 0 None, s).

(** After the loop: the item moves to its new LRU and the reference is dropped, unless the
    caller asked for the item. *)
Definition pull_finish (flags : Z) (p : positive) (move_to_lru : option Z) (s : store T)
    : outcome (store T) :=
  s ← match move_to_lru with
      | Some lru =>
          s ← upd_item p (fun i => set_slabs_clsid (Z.lor (ITEM_clsid i) lru) i) s;
          do_item_link_q p s
      | None => Ret s
      end;
  if Z.land flags LRU_PULL_RETURN_ITEM =? 0 then do_item_remove p s else Ret s.

Definition is_crawler (i : item) : bool :=
  (it_nbytes i =? 0) && (length (item_key i) =? 0)%nat && (it_flags i =? 1).

(** The loop; [ret_it] of the result is the item handed to a caller that asked for it. *)
Fixpoint pull_loop (fuel : nat) (id cur_lru total_bytes flags max_age tries removed : Z)
    (search : option positive) (s : store T) : outcome (Z * option positive * store T) :=
  match fuel with
  | O => Ub
  | S fuel =>
      match search with
      | None => Ret (removed, None, s)
      | Some p =>
          if tries <=? 0 then Ret (removed, None, s) else
          it ← get_item p s;
          let next_it := it_prev it in
          if is_crawler it then
            if negb (Z.land flags LRU_PULL_CRAWL_BLOCKS =? 0) then Ret (0, None, s)
            else pull_loop fuel id cur_lru total_bytes flags max_age tries removed next_it s
          else
            '(r, s) ← pull_item id cur_lru total_bytes flags max_age p s;
            match r with
            | Next n =>
                pull_loop fuel id cur_lru total_bytes flags max_age (tries - 1) (removed + n) next_it s
            | Stop n move_to_lru =>
                s ← pull_finish flags p move_to_lru s;
                Ret (removed + n, if Z.land flags LRU_PULL_RETURN_ITEM =? 0 then None else Some p, s)
            end
      end
  end.

(** A turn uses up a try or steps over a crawler, so that the size of the heap bounds them. *)
Definition lru_pull_tail (orig_id cur_lru total_bytes flags max_age : Z) (s : store T)
    : outcome (Z * option positive * store T) :=
  if orig_id =? 0 then Ret (0, None, s) else
  let id := Z.lor orig_id cur_lru in
  pull_loop (6 + size (heap s)) id cur_lru total_bytes flags max_age 5 0 (tails s !! id) s.

(** ** Allocation *)

(** The loop [for (i = 0; i < 10; i++)], [n] turns of which are left. *)
Fixpoint pull_attempts (n i : nat) (ntotal id : Z) (s : store T)
    : outcome (option (positive * item) * store T) :=
  match n with
  | O => Ret (None, s)
  | S n =>
      s ← (if lru_segmented cfg then Ret s
           else '(_, _, s) ← lru_pull_tail id COLD_LRU 0 0 0 s; Ret s);
      match slabs_alloc i ntotal id (heap s) with
      | Some chunk => Ret (Some chunk, s)
      | None =>
          '(removed, _, s) ← lru_pull_tail id COLD_LRU 0 LRU_PULL_EVICT 0 s;
          if removed <=? 0 then
            if lru_segmented cfg then
              '(_, _, s) ← lru_pull_tail id HOT_LRU 0 0 0 s;
              pull_attempts n (S i) ntotal id s
            else Ret (None, s)
          else pull_attempts n (S i) ntotal id s
      end
  end.

Definition do_item_alloc_pull (ntotal id : Z) (s : store T) : outcome (option (positive * item) * store T) :=
  pull_attempts 10 0 ntotal id s.

(** Another chunk for the value of the large item [p], of which [bytes_remain] bytes are still to
    come: whether there was memory for it.  [sizeof(item_chunk)] is 48. *)
Definition do_item_alloc_chunk (p : positive) (bytes_remain : Z) (s : store T) : outcome (bool * store T) :=
  let size := bytes_remain + 48 in
  let size := if slab_chunk_size_max cfg <? size then slab_chunk_size_max cfg else size in
  '(nch, s) ← do_item_alloc_pull size (slabs_clsid size) s;
  match nch with
  | None => Ret (false, s)
  | Some _ => s ← upd_item p (fun i => set_chunks (it_chunks i ++ [size - 48]) i) s; Ret (true, s)
  end.

(** The chunks of a large item are allocated while its value arrives: there are none at first. *)
Definition do_item_alloc (key : list Z) (flags exptime nbytes : Z) (s : store T)
    : outcome (option positive * store T) :=
  if nbytes <? 2 then Ret (None, s) else
  let nkey := Z.of_nat (length key) in
  let '(ntotal, nsuffix) := item_make_header (nkey + 1) flags nbytes in
  let ntotal := if use_cas cfg then ntotal + 8 else ntotal in
  let id := slabs_clsid ntotal in
  if id =? 0 then Ret (None, s) else
  let large := slab_chunk_size_max cfg <? ntotal in
  '(chunk, s) ← (if large then
                   let htotal := nkey + 1 + nsuffix + 80 + 48 in
                   let htotal := if use_cas cfg then htotal + 8 else htotal in
                   do_item_alloc_pull htotal (slabs_clsid htotal) s
                 else do_item_alloc_pull ntotal id s);
  match chunk with
  | None => Ret (None, s)
  | Some (p, junk) =>
      let flags0 := if large then Z.lor (it_flags junk) ITEM_CHUNKED else it_flags junk in
      _ ← c_assert ((flags0 =? 0) || (flags0 =? ITEM_CHUNKED));
      let id := Z.lor id
        (if temp_lru cfg && (u32 (exptime - current_time cfg) <=? temporary_ttl cfg) then TEMP_LRU
         else if lru_segmented cfg then HOT_LRU else COLD_LRU) in
      let flags1 := Z.lor (Z.lor flags0 (if use_cas cfg then ITEM_CAS else 0))
                      (if nsuffix =? 0 then 0 else ITEM_CFLAGS) in
      let it := mkItem None None (it_time junk) exptime nbytes 1 flags1 (u8 id) key
                  (it_mac junk) (it_mt_index junk) (it_cas junk)
                  (if nsuffix =? 0 then it_cflags junk else flags)
                  (if large then [] else take (Z.to_nat nbytes) (it_data junk)) [] in
      Ret (Some p, with_heap (<[p := it]> (heap s)) s)
  end.

End Alloc.
