(* ===== verification/ItemTableAssoc.v ===== *)
(** * The hash table behind the store

    assoc.c implements the interface through which items.c uses it: the state of the table, with
    the chain pointers it keeps in the items, is an [ItemTable] that obeys the laws.  An item is
    registered with its key and a null chain pointer, as [do_item_alloc] leaves it, when it is
    inserted. *)

From S2P Require Import Prelude Items Assoc AssocFacts.

Local Open Scope Z_scope.

Definition register (p : positive) (key : list Z) (a : assoc) : assoc :=
  with_items (<[p := mkHnode key None]> (items a)) a.

#[export] Instance assoc_item_table : ItemTable assoc := {
  tbl_find := assoc_find;
  tbl_insert p key hv a := assoc_insert p hv (register p key a);
  tbl_delete := assoc_delete
}.

(** The memory of an item that is in no bucket may change. *)
Lemma register_represents hash a m p key :
  represents hash a m -> (forall k, m !! k <> Some p) -> represents hash (register p key a) m.
Proof.
  intros R Hp. split.
  - apply shape_with_items, R.
  - intros s o Hs Ho. destruct (rep_chains _ _ _ R s o Hs Ho) as (l & Hc & Hn & Hl).
    exists l. split; [|done]. apply chain_frame; [done|]. rewrite Hl. intros (k & Hk & _). by apply (Hp k).
  - intros k q Hk. destruct (rep_items _ _ _ R k q Hk) as (n & Hn & Kn). exists n. split; [|done].
    simpl. rewrite lookup_insert_ne; [done|]. intros ->. by apply (Hp k).
Qed.

#[export] Instance assoc_item_table_laws (hash : list Z -> Z) : ItemTableLaws hash assoc.
Proof.
  refine {| tbl_rep := represents hash |}.
  - intros. by apply assoc_find_rep.
  - intros a m k p R Hk Hp. apply (assoc_insert_rep hash (register p k a) m k p (mkHnode k None)); try done.
    + by apply register_represents.
    + apply lookup_insert_eq.
  - intros a m k p R Hk. destruct (assoc_delete_rep hash a m k p R Hk) as (a' & E & R' & _). by exists a'.
Defined.
