(* ===== verification/LruFacts.v ===== *)
(** * The LRU lists are doubly linked lists

    [lru_rep s lru] says that for every LRU the heads, tails and links of the store represent
    the list [lru id]; linking an item puts it in front, unlinking takes it out, and neither
    changes anything else of any item.  The lists may have members that the sizes do not count, which is
    what [extra] is for: the crawlers. *)

From S2P Require Import Prelude Items.
Local Open Scope Z_scope.

(** ** Doubly linked lists in the heap *)

Definition links (i : item) : option positive * option positive := (it_prev i, it_next i).

(** An item with its links erased: all that the LRU operations leave alone. *)
Definition body (i : item) : item := set_next None (set_prev None i).

Definition body_eq (h h' : gmap positive item) : Prop :=
  forall q, body <$> h' !! q = body <$> h !! q.

(** Every element points to its neighbours. *)
Definition linked_list (h : gmap positive item) (l : list positive) : Prop :=
  forall l1 p l2, l = l1 ++ p :: l2 -> links <$> h !! p = Some (last l1, head l2).

Lemma linked_list_frame h h' l :
  linked_list h l -> (forall p, p ∈ l -> links <$> h' !! p = links <$> h !! p) -> linked_list h' l.
Proof. intros H F l1 p l2 ->. rewrite F by set_solver. by apply H. Qed.

Lemma last_cons_cons {A} (x y : A) l : last (x :: y :: l) = last (y :: l).
Proof. done. Qed.

(** A new first element [q]: it points to the old first one, which points back. *)
Lemma linked_list_cons h h' q l :
  linked_list h l -> NoDup (q :: l) ->
  links <$> h' !! q = Some (None, head l) ->
  (forall p, head l = Some p -> exists nx, links <$> h !! p = Some (None, nx) /\ links <$> h' !! p = Some (Some q, nx)) ->
  (forall p, p ∈ l -> head l <> Some p -> links <$> h' !! p = links <$> h !! p) ->
  linked_list h' (q :: l).
Proof.
  intros H Hnd Hq Hhead Hrest l1 p l2 E. destruct l1 as [|x l1]; injection E as -> E.
  - by subst l2.
  - subst l. pose proof (H l1 p l2 eq_refl) as Hp. destruct l1 as [|y l1].
    + destruct (Hhead p) as (nx & H1 & H2); [done|]. rewrite Hp in H1. injection H1 as <-. by rewrite H2.
    + rewrite Hrest; [|set_solver|]; [by rewrite Hp, last_cons_cons|].
      apply NoDup_cons_1_2, NoDup_cons_1_1 in Hnd. simpl. intros [= ->]. set_solver.
Qed.

(** Taking [q] out: its neighbours are joined. *)
Lemma linked_list_remove h h' a q b :
  linked_list h (a ++ q :: b) -> NoDup (a ++ q :: b) ->
  (forall p, p ∈ a ++ b -> links <$> h' !! p =
     (fun lk => (if bool_decide (head b = Some p) then last a else lk.1,
                 if bool_decide (last a = Some p) then head b else lk.2)) <$> (links <$> h !! p)) ->
  linked_list h' (a ++ b).
Proof.
  intros H Hnd Hl l1 p l2 E. rewrite Hl by (rewrite E; set_solver).
  apply app_eq_inv in E as [(k & -> & E)|(k & -> & E)].
  - destruct k as [|x k]; simpl in E.
    + subst b. rewrite app_nil_r in *. rewrite (H (l1 ++ [q]) p l2) by (by rewrite <- app_assoc).
      simpl. rewrite bool_decide_eq_true_2 by done. rewrite bool_decide_eq_false_2; [done|].
      intros Hlast. apply last_Some in Hlast as [a' ->]. apply NoDup_app in Hnd. set_solver.
    + injection E as -> E. subst l2.
      rewrite (H l1 x (k ++ q :: b)) by (by rewrite <- app_assoc). simpl.
      assert (head b <> Some x) as Hx.
      { intros Hb. apply head_Some_elem_of in Hb. apply NoDup_app in Hnd as (_ & Hd & _).
        apply (Hd x); set_solver. }
      rewrite (bool_decide_eq_false_2 _ Hx). destruct k as [|y k].
      * rewrite last_snoc, bool_decide_eq_true_2 by done. done.
      * rewrite bool_decide_eq_false_2; [done|]. intros Hlast.
        change (x :: y :: k) with ([x] ++ y :: k) in Hlast. rewrite app_assoc, last_app_cons in Hlast.
        apply last_Some in Hlast as [k' Hk].
        apply NoDup_app in Hnd as (Hnd & _).
        apply NoDup_app in Hnd as (_ & _ & Hnd). apply NoDup_cons_1_1 in Hnd. apply Hnd. rewrite Hk. set_solver.
  - subst b. rewrite (H (a ++ q :: k) p l2) by (by rewrite <- app_assoc). simpl.
    assert (last a <> Some p) as Hx.
    { intros Ha. apply last_Some in Ha as [a' ->]. apply NoDup_app in Hnd as (_ & Hd & _). apply (Hd p); set_solver. }
    rewrite (bool_decide_eq_false_2 _ Hx). destruct k as [|y k].
    + simpl. rewrite bool_decide_eq_true_2, app_nil_r by done. done.
    + simpl. rewrite bool_decide_eq_false_2; [|].
      * by rewrite last_app_cons, last_app_cons.
      * intros [= ->]. apply NoDup_app in Hnd as (_ & _ & Hnd). apply NoDup_cons_1_2, NoDup_cons_1_1 in Hnd. set_solver.
Qed.

(** ** Families of lists *)

(** The lists after a change to one of them. *)
Definition set_lru (id : Z) (l : list positive) (lru : Z -> list positive) : Z -> list positive :=
  fun id' => if decide (id' = id) then l else lru id'.

Lemma set_lru_eq id l lru : set_lru id l lru id = l.
Proof. unfold set_lru. by rewrite decide_True. Qed.
Lemma set_lru_ne id id' l lru : id' <> id -> set_lru id l lru id' = lru id'.
Proof. intros. unfold set_lru. by rewrite decide_False. Qed.

(** Case analysis on whether an LRU is the one that changed. *)
Ltac lru_case id' id :=
  destruct (decide (id' = id)) as [->|];
  [rewrite ?set_lru_eq in *|rewrite ?set_lru_ne in * by done].

Lemma count_at_eq m id v : count_at (<[id := v]> m) id = v.
Proof. unfold count_at. by rewrite lookup_insert_eq. Qed.
Lemma count_at_ne m id id' v : id' <> id -> count_at (<[id := v]> m) id' = count_at m id'.
Proof. intros. unfold count_at. by rewrite lookup_insert_ne. Qed.

(** ** Heap updates *)

Section Lru.
Context {T : Type} `{!ItemTable T} {extra : Z -> Z}.
Implicit Types (s : store T) (lru : Z -> list positive).

(** What the LRU operations leave alone. *)
Definition rest_eq s s' : Prop :=
  table s' = table s /\ curr_items s' = curr_items s /\ curr_bytes s' = curr_bytes s /\
  total_items s' = total_items s /\ cas_id s' = cas_id s.

Lemma rest_eq_refl s : rest_eq s s.
Proof. by repeat split. Qed.

Lemma rest_eq_trans s1 s2 s3 : rest_eq s1 s2 -> rest_eq s2 s3 -> rest_eq s1 s3.
Proof. unfold rest_eq. intros (?&?&?&?&?) (?&?&?&?&?). repeat split; congruence. Qed.

Lemma upd_item_ok p f s it :
  heap s !! p = Some it -> upd_item p f s = Ret (with_heap (<[p := f it]> (heap s)) s).
Proof. intros H. unfold upd_item, get_item. by rewrite H. Qed.

Lemma get_item_ok p s it : heap s !! p = Some it -> get_item p s = Ret it.
Proof. intros H. unfold get_item. by rewrite H. Qed.

Lemma body_eq_trans h1 h2 h3 : body_eq h1 h2 -> body_eq h2 h3 -> body_eq h1 h3.
Proof. intros H1 H2 q. by rewrite H2, H1. Qed.

Lemma body_eq_insert h p it f :
  h !! p = Some it -> body (f it) = body it -> body_eq h (<[p := f it]> h).
Proof.
  intros H Hf q. destruct (decide (q = p)) as [->|].
  - rewrite lookup_insert_eq, H. simpl. by rewrite Hf.
  - by rewrite lookup_insert_ne.
Qed.

(** ** The representation *)

Record lru_rep_with s lru : Prop := {
  lru_heads : forall id, heads s !! id = head (lru id);
  lru_tails : forall id, tails s !! id = last (lru id);
  lru_nodup : forall id, NoDup (lru id);
  lru_lists : forall id, linked_list (heap s) (lru id);
  lru_class : forall id p, p ∈ lru id -> it_slabs_clsid <$> heap s !! p = Some id;
  lru_sizes : forall id, count_at (sizes s) id = u32 (Z.of_nat (length (lru id)) - extra id)
}.

Lemma lru_disjoint s lru id id' p : lru_rep_with s lru -> p ∈ lru id -> p ∈ lru id' -> id = id'.
Proof.
  intros R H1 H2. apply (lru_class _ _ R) in H1. apply (lru_class _ _ R) in H2. congruence.
Qed.

(** Links and classes of the members are all that matters of the heap. *)
Lemma lru_rep_frame s s' lru :
  lru_rep_with s lru -> heads s' = heads s -> tails s' = tails s -> sizes s' = sizes s ->
  (forall id p, p ∈ lru id -> links <$> heap s' !! p = links <$> heap s !! p /\
     it_slabs_clsid <$> heap s' !! p = it_slabs_clsid <$> heap s !! p) ->
  lru_rep_with s' lru.
Proof.
  intros R Eh Et Es F. split; intros id.
  - by rewrite Eh, (lru_heads _ _ R).
  - by rewrite Et, (lru_tails _ _ R).
  - by apply (lru_nodup _ _ R).
  - eapply linked_list_frame; [by apply (lru_lists _ _ R)|]. intros p Hp. by apply (F id).
  - intros p Hp. rewrite (proj2 (F id p Hp)). by apply (lru_class _ _ R).
  - by rewrite Es, (lru_sizes _ _ R).
Qed.

Lemma lru_rep_same s s' lru :
  lru_rep_with s lru -> heap s' = heap s -> heads s' = heads s -> tails s' = tails s -> sizes s' = sizes s ->
  lru_rep_with s' lru.
Proof. intros R E1 E2 E3 E4. eapply lru_rep_frame; [exact R|done..|]. intros. by rewrite E1. Qed.

Lemma lru_rep_upd s lru p it f :
  lru_rep_with s lru -> heap s !! p = Some it -> links (f it) = links it ->
  it_slabs_clsid (f it) = it_slabs_clsid it ->
  lru_rep_with (with_heap (<[p := f it]> (heap s)) s) lru.
Proof.
  intros R Hp Hl Hc. eapply lru_rep_frame; [exact R|done..|]. intros id q _.
  destruct (decide (q = p)) as [->|].
  - simpl. rewrite lookup_insert_eq, Hp. simpl. by rewrite Hl, Hc.
  - simpl. by rewrite lookup_insert_ne.
Qed.

Lemma lru_rep_delete s lru p :
  lru_rep_with s lru -> (forall id, p ∉ lru id) -> lru_rep_with (with_heap (base.delete p (heap s)) s) lru.
Proof.
  intros R Hp. eapply lru_rep_frame; [exact R|done..|]. intros id q Hq.
  assert (q <> p) by (intros ->; by apply (Hp id)). simpl. by rewrite lookup_delete_ne.
Qed.

Lemma set_prev_links v i : links (set_prev v i) = (v, it_next i).
Proof. done. Qed.

Lemma has_flag_body f i i' : body i = body i' -> has_flag f i = has_flag f i'.
Proof. intros H. unfold has_flag. apply (f_equal it_flags) in H. cbn in H. by rewrite H. Qed.

(** ** Linking *)

Lemma lru_member_some s lru id p : lru_rep_with s lru -> p ∈ lru id -> exists it, heap s !! p = Some it.
Proof.
  intros R Hp. apply (lru_class _ _ R) in Hp. destruct (heap s !! p) as [it|]; [by exists it|done].
Qed.

Lemma head_null_last_null (l : list positive) : is_null (head l) = is_null (last l).
Proof.
  destruct l as [|x l]; [done|]. simpl. destruct (last (x :: l)) eqn:E; [done|].
  apply last_None in E. discriminate E.
Qed.

(** The heap part: [p] becomes the first element. *)
Definition linked_in (h h2 : gmap positive item) (l : list positive) (p : positive) : Prop :=
  body_eq h h2 /\ links <$> h2 !! p = Some (None, head l) /\
  (forall q, head l = Some q -> exists nx,
     links <$> h !! q = Some (None, nx) /\ links <$> h2 !! q = Some (Some p, nx)) /\
  (forall q, q <> p -> head l <> Some q -> h2 !! q = h !! q).

Lemma link_heap s lru id p it :
  lru_rep_with s lru -> heap s !! p = Some it -> head (lru id) <> Some p ->
  let h1 := <[p := set_next (head (lru id)) (set_prev None it)]> (heap s) in
  exists h2, upd_link (head (lru id)) (set_prev (Some p)) (with_heap h1 s) = Ret (with_heap h2 s) /\
    linked_in (heap s) h2 (lru id) p.
Proof.
  intros R Hp Hh h1. unfold linked_in.
  assert (body_eq (heap s) h1) as B1 by (by apply (body_eq_insert _ _ _ (fun i => set_next (head (lru id)) (set_prev None i)))).
  destruct (head (lru id)) as [q|] eqn:Eh; simpl; cycle 1.
  { exists h1. split; [done|]. split; [done|]. split; [by unfold h1; rewrite lookup_insert_eq|].
    split; [done|]. intros q Hq _. unfold h1. by rewrite lookup_insert_ne. }
  assert (q <> p) as Hqp by congruence.
  assert (q ∈ lru id) as Hq by (by apply head_Some_elem_of).
  destruct (lru_member_some _ _ _ _ R Hq) as [iq Hiq].
  assert (h1 !! q = Some iq) as Hq1 by (unfold h1; by rewrite lookup_insert_ne).
  exists (<[q := set_prev (Some p) iq]> h1). split; [by rewrite (upd_item_ok _ _ (with_heap h1 s) iq)|].
  split; [eapply body_eq_trans; [exact B1|]; by apply (body_eq_insert _ _ _ (set_prev (Some p)))|].
  split; [unfold h1; by rewrite lookup_insert_ne, lookup_insert_eq|]. split.
  - intros q' [= <-]. exists (it_next iq). rewrite lookup_insert_eq, Hiq. split; [|done].
    destruct (lru id) as [|q' l] eqn:El; [done|]. injection Eh as ->.
    pose proof (lru_lists _ _ R id [] q l El) as Hl. rewrite Hiq in Hl. simpl in Hl |- *.
    unfold links in *. congruence.
  - intros q' Hq' Hne. rewrite lookup_insert_ne by congruence. unfold h1. by rewrite lookup_insert_ne.
Qed.

Lemma body_eq_clsid h h' q : body_eq h h' -> it_slabs_clsid <$> h' !! q = it_slabs_clsid <$> h !! q.
Proof.
  intros B. specialize (B q). destruct (h' !! q) as [x|], (h !! q) as [y|]; try done. simpl in *.
  apply (f_equal (fmap it_slabs_clsid)) in B. simpl in B. congruence.
Qed.

Lemma lru_rep_cons s lru p h2 t2 :
  lru_rep_with s lru -> (forall id, p ∉ lru id) ->
  forall id, it_slabs_clsid <$> heap s !! p = Some id -> linked_in (heap s) h2 (lru id) p ->
  t2 = (if is_null (last (lru id)) then <[id := p]> (tails s) else tails s) ->
  forall b, lru_rep_with (with_lru (<[id := p]> (heads s)) t2 (<[id := u32 (count_at (sizes s) id + 1)]> (sizes s)) b (with_heap h2 s))
    (set_lru id (p :: lru id) lru).
Proof.
  intros R Hnew id Hid (B2 & Lp & Lh & Lr) -> b. split; intros id'; simpl.
  - lru_case id' id; [by rewrite lookup_insert_eq|]. rewrite lookup_insert_ne by done. apply (lru_heads _ _ R).
  - unfold is_null. lru_case id' id.
    + case_bool_decide as El; [rewrite lookup_insert_eq; apply last_None in El; by rewrite El|].
      rewrite (lru_tails _ _ R). destruct (lru id); [done|]. by rewrite last_cons_cons.
    + case_bool_decide; [rewrite lookup_insert_ne by done|]; apply (lru_tails _ _ R).
  - lru_case id' id; [|apply (lru_nodup _ _ R)]. apply NoDup_cons_2; [apply Hnew|apply (lru_nodup _ _ R)].
  - lru_case id' id.
    + apply (linked_list_cons (heap s)); [apply (lru_lists _ _ R)| |done|done|].
      * apply NoDup_cons_2; [apply Hnew|apply (lru_nodup _ _ R)].
      * intros q Hq Hne. rewrite Lr; [done| |done]. intros ->. by apply (Hnew id).
    + eapply linked_list_frame; [apply (lru_lists _ _ R)|]. intros q Hq. rewrite Lr; [done| |].
      * intros ->. by apply (Hnew id').
      * intros E. apply head_Some_elem_of in E. by pose proof (lru_disjoint _ _ _ _ _ R Hq E).
  - intros q Hq. rewrite (body_eq_clsid _ _ q B2). lru_case id' id; [|by apply (lru_class _ _ R)].
    apply elem_of_cons in Hq as [->|Hq]; [done|by apply (lru_class _ _ R)].
  - lru_case id' id; [|rewrite count_at_ne by done; apply (lru_sizes _ _ R)].
    rewrite count_at_eq, (lru_sizes _ _ R). cbn [length]. rewrite u32_add_l. f_equal. lia.
Qed.

Lemma do_item_link_q_ok s lru p it :
  lru_rep_with s lru -> heap s !! p = Some it -> has_flag ITEM_SLABBED it = false ->
  (forall id, p ∉ lru id) ->
  let id := it_slabs_clsid it in
  exists s', do_item_link_q p s = Ret s' /\ lru_rep_with s' (set_lru id (p :: lru id) lru) /\
    body_eq (heap s) (heap s') /\ rest_eq s s'.
Proof.
  intros R Hp Hslab Hnew id. unfold do_item_link_q. rewrite (get_item_ok _ _ _ Hp). cbn [mbind outcome_bind].
  rewrite Hslab. fold id. cbn [negb c_assert]. rewrite (lru_heads _ _ R), (lru_tails _ _ R).
  assert (head (lru id) <> Some p) as Hh by (intros E; apply head_Some_elem_of in E; by apply (Hnew id)).
  unfold opt_is. rewrite (bool_decide_eq_false_2 _ Hh). cbn [negb c_assert].
  rewrite head_null_last_null, Bool.eqb_reflx. cbn [c_assert].
  rewrite (upd_item_ok _ _ _ _ Hp). cbn [mbind outcome_bind].
  destruct (link_heap s lru id p it R Hp Hh) as (h2 & -> & L). cbn [mbind outcome_bind].
  eexists. split; [done|]. split; [|split; [apply L|by repeat split]].
  apply (lru_rep_cons s lru p h2); try done. by rewrite Hp.
Qed.

(** ** Unlinking *)

Definition remove_ptr (p : positive) (l : list positive) : list positive := filter (fun q => q <> p) l.

Lemma remove_ptr_absent p l : p ∉ l -> remove_ptr p l = l.
Proof.
  unfold remove_ptr. induction l as [|x l IH]; [done|]. intros H.
  rewrite filter_cons_True by set_solver. rewrite IH by set_solver. done.
Qed.

Lemma remove_ptr_split a p b : NoDup (a ++ p :: b) -> remove_ptr p (a ++ p :: b) = a ++ b.
Proof.
  intros Hnd. apply NoDup_app in Hnd as (_ & Hd & Hnd). apply NoDup_cons_1_1 in Hnd.
  unfold remove_ptr. rewrite filter_app, filter_cons_False by naive_solver. fold (remove_ptr p a) (remove_ptr p b).
  rewrite !remove_ptr_absent; [done|done|]. intros Ha. apply (Hd p Ha). set_solver.
Qed.

Lemma elem_of_remove_ptr p q l : q ∈ remove_ptr p l <-> q ∈ l /\ q <> p.
Proof. unfold remove_ptr. rewrite list_elem_of_filter. tauto. Qed.

(** The heap part: the neighbours of [p] are joined. *)
Lemma unlink_heap s lru id p it a b :
  lru_rep_with s lru -> heap s !! p = Some it -> lru id = a ++ p :: b ->
  exists h', (s1 ← upd_link (it_next it) (set_prev (it_prev it)) s;
              upd_link (it_prev it) (set_next (it_next it)) s1) = Ret (with_heap h' s) /\
    body_eq (heap s) h' /\ it_prev it = last a /\ it_next it = head b /\
    (forall q, links <$> h' !! q =
       (fun lk => (if bool_decide (head b = Some q) then last a else lk.1,
                   if bool_decide (last a = Some q) then head b else lk.2)) <$> (links <$> heap s !! q)).
Proof.
  intros R Hp El.
  pose proof (lru_lists _ _ R id a p b El) as Hl. rewrite Hp in Hl. simpl in Hl. injection Hl as Hprev Hnext.
  rewrite Hprev, Hnext.
  assert (exists h1, upd_link (head b) (set_prev (last a)) s = Ret (with_heap h1 s) /\ body_eq (heap s) h1 /\
    forall q, links <$> h1 !! q = (fun lk => (if bool_decide (head b = Some q) then last a else lk.1, lk.2)) <$> (links <$> heap s !! q))
    as (h1 & -> & B1 & L1).
  { destruct (head b) as [q|] eqn:Eb; simpl; cycle 1.
    { exists (heap s). split; [by destruct s|]. split; [done|]. intros q. destruct (heap s !! q); [|done].
      done. }
    assert (q ∈ lru id) as Hq by (rewrite El; apply head_Some_elem_of in Eb; set_solver).
    destruct (lru_member_some _ _ _ _ R Hq) as [iq Hiq]. rewrite (upd_item_ok _ _ _ _ Hiq).
    eexists. split; [done|]. split; [by apply (body_eq_insert _ _ _ (set_prev (last a)))|].
    intros q'. destruct (decide (q' = q)) as [->|].
    - rewrite lookup_insert_eq, Hiq. simpl. by rewrite bool_decide_eq_true_2 by done.
    - rewrite lookup_insert_ne by done. destruct (heap s !! q'); [|done]. simpl.
      by rewrite bool_decide_eq_false_2 by congruence. }
  cbn [mbind outcome_bind].
  destruct (last a) as [q|] eqn:Ea; simpl; cycle 1.
  { exists h1. split; [done|]. split; [done|]. split; [done|]. split; [done|]. intros q. rewrite L1.
    by destruct (heap s !! q). }
  assert (q ∈ lru id) as Hq by (rewrite El; apply last_Some in Ea as [a' ->]; set_solver).
  destruct (lru_member_some _ _ _ _ R Hq) as [iq Hiq].
  assert (exists iq1, h1 !! q = Some iq1) as [iq1 Hiq1].
  { specialize (B1 q). rewrite Hiq in B1. destruct (h1 !! q); [by eexists|done]. }
  rewrite (upd_item_ok _ _ (with_heap h1 s) iq1) by done. eexists. split; [done|].
  split; [eapply body_eq_trans; [exact B1|]; by apply (body_eq_insert _ _ _ (set_next (head b)))|].
  split; [done|]. split; [done|]. intros q'. simpl.
  destruct (decide (q' = q)) as [->|].
  - pose proof (L1 q) as L1q. rewrite Hiq1, Hiq in L1q. rewrite lookup_insert_eq, Hiq. simpl in *.
    rewrite (bool_decide_eq_true_2 (Some q = Some q)) by done. injection L1q as E1 E2. unfold links. simpl. by rewrite E1.
  - rewrite lookup_insert_ne, L1 by done. destruct (heap s !! q'); [|done]. simpl.
    by rewrite (bool_decide_eq_false_2 (Some q = Some q')) by congruence.
Qed.

Lemma assign_lookup id v m id' : assign id v m !! id' = if decide (id' = id) then v else m !! id'.
Proof.
  unfold assign. destruct v as [p|]; case_decide as E.
  - by rewrite E, lookup_insert_eq.
  - by rewrite lookup_insert_ne.
  - by rewrite E, lookup_delete_eq.
  - by rewrite lookup_delete_ne.
Qed.

(** First and last elements after taking [p] out. *)
Lemma head_remove a (p : positive) b : NoDup (a ++ p :: b) ->
  head (a ++ b) = if bool_decide (head (a ++ p :: b) = Some p) then head b else head (a ++ p :: b).
Proof.
  intros Hnd. destruct a as [|x a]; simpl; [by rewrite bool_decide_eq_true_2|].
  rewrite bool_decide_eq_false_2; [done|]. intros [= ->]. apply NoDup_cons_1_1 in Hnd. set_solver.
Qed.

Lemma last_remove a (p : positive) b : NoDup (a ++ p :: b) ->
  last (a ++ b) = if bool_decide (last (a ++ p :: b) = Some p) then last a else last (a ++ p :: b).
Proof.
  intros Hnd. destruct b as [|x b] using rev_ind.
  - rewrite last_snoc, bool_decide_eq_true_2, app_nil_r by done. done.
  - rewrite app_comm_cons, !app_assoc, !last_snoc.
    rewrite bool_decide_eq_false_2; [done|]. intros [= ->].
    apply NoDup_app in Hnd as (_ & _ & Hnd). apply NoDup_cons_1_1 in Hnd. set_solver.
Qed.

(** The assertions of [do_item_unlink_q] hold: an item at an end of its list has no
    neighbour there, and none is its own neighbour. *)
Lemma unlink_asserts a (p : positive) b : NoDup (a ++ p :: b) ->
  (head (a ++ p :: b) = Some p -> last a = None) /\ (last (a ++ p :: b) = Some p -> head b = None) /\
  head b <> Some p /\ last a <> Some p.
Proof.
  intros Hnd. pose proof Hnd as Hnd'. apply NoDup_app in Hnd' as (_ & Hd & Hb). apply NoDup_cons_1_1 in Hb. split_and!.
  - destruct a as [|x a]; [done|]. intros [= ->]. exfalso. apply (Hd p); set_solver.
  - destruct b as [|x b] using rev_ind; [done|]. rewrite app_comm_cons, app_assoc, last_snoc. intros [= ->]. set_solver.
  - intros E. apply head_Some_elem_of in E. done.
  - intros E. apply last_Some in E as [a' ->]. apply (Hd p); set_solver.
Qed.

Lemma length_remove (a : list positive) p b :
  Z.of_nat (length (a ++ p :: b)) - 1 = Z.of_nat (length (a ++ b)).
Proof. rewrite !length_app. simpl. lia. Qed.

Lemma lru_rep_remove s lru id p a b h' hd tl :
  lru_rep_with s lru -> lru id = a ++ p :: b -> body_eq (heap s) h' ->
  (forall q, links <$> h' !! q =
     (fun lk => (if bool_decide (head b = Some q) then last a else lk.1,
                 if bool_decide (last a = Some q) then head b else lk.2)) <$> (links <$> heap s !! q)) ->
  hd = (if bool_decide (head (lru id) = Some p) then assign id (head b) (heads s) else heads s) ->
  tl = (if bool_decide (last (lru id) = Some p) then assign id (last a) (tails s) else tails s) ->
  forall by', lru_rep_with (with_lru hd tl (<[id := u32 (count_at (sizes s) id - 1)]> (sizes s)) by' (with_heap h' s))
    (set_lru id (a ++ b) lru).
Proof.
  intros R El B L -> -> by'. pose proof (lru_nodup _ _ R id) as Hnd. rewrite El in Hnd.
  split; intros id'; simpl.
  - rewrite El. lru_case id' id.
    + rewrite (head_remove _ _ _ Hnd), <- El. case_bool_decide; [by rewrite assign_lookup, decide_True|apply (lru_heads _ _ R)].
    + case_bool_decide; [rewrite assign_lookup, decide_False by done|]; apply (lru_heads _ _ R).
  - rewrite El. lru_case id' id.
    + rewrite (last_remove _ _ _ Hnd), <- El. case_bool_decide; [by rewrite assign_lookup, decide_True|apply (lru_tails _ _ R)].
    + case_bool_decide; [rewrite assign_lookup, decide_False by done|]; apply (lru_tails _ _ R).
  - lru_case id' id; [|apply (lru_nodup _ _ R)]. rewrite <- (remove_ptr_split a p b Hnd). by apply NoDup_filter.
  - lru_case id' id.
    + apply (linked_list_remove (heap s) h' a p b); [rewrite <- El; apply (lru_lists _ _ R)|done|]. intros q _. apply L.
    + eapply linked_list_frame; [apply (lru_lists _ _ R)|]. intros q Hq. rewrite L.
      assert (q ∉ lru id) as Hn by (intros H; by pose proof (lru_disjoint _ _ _ _ _ R Hq H)).
      rewrite El in Hn. destruct (heap s !! q) as [iq|]; [|done]. simpl.
      rewrite bool_decide_eq_false_2 by (intros E; apply head_Some_elem_of in E; set_solver).
      rewrite bool_decide_eq_false_2 by (intros E; apply last_Some in E as [? ->]; set_solver). done.
  - intros q Hq. rewrite (body_eq_clsid _ _ q B). apply (lru_class _ _ R). lru_case id' id; [rewrite El; set_solver|done].
  - lru_case id' id; [|rewrite count_at_ne by done; apply (lru_sizes _ _ R)].
    rewrite count_at_eq, (lru_sizes _ _ R), El, <- (length_remove a p b).
    unfold u32. rewrite Zminus_mod_idemp_l. f_equal. lia.
Qed.

Lemma do_item_unlink_q_ok s lru p it :
  lru_rep_with s lru -> heap s !! p = Some it -> p ∈ lru (it_slabs_clsid it) ->
  let id := it_slabs_clsid it in
  exists s', do_item_unlink_q p s = Ret s' /\ lru_rep_with s' (set_lru id (remove_ptr p (lru id)) lru) /\
    body_eq (heap s) (heap s') /\ rest_eq s s'.
Proof.
  intros R Hp Hin id. fold id in Hin. apply list_elem_of_split in Hin as (a & b & El).
  pose proof (lru_nodup _ _ R id) as Hnd. rewrite El in Hnd.
  destruct (unlink_heap s lru id p it a b R Hp El) as (h' & E & B & Hprev & Hnext & L).
  destruct (unlink_asserts a p b Hnd) as (A1 & A2 & A3 & A4).
  unfold do_item_unlink_q. rewrite (get_item_ok _ _ _ Hp). cbn [mbind outcome_bind]. fold id.
  rewrite (lru_heads _ _ R), (lru_tails _ _ R). unfold opt_is, is_null. rewrite Hprev, Hnext in *.
  rewrite (bool_decide_eq_false_2 _ A3), (bool_decide_eq_false_2 _ A4).
  assert (negb (bool_decide (head (lru id) = Some p)) || bool_decide (last a = None) = true) as ->.
  { rewrite El. case_bool_decide as C; [|done]. by rewrite bool_decide_eq_true_2 by (by apply A1). }
  assert (negb (bool_decide (last (lru id) = Some p)) || bool_decide (head b = None) = true) as ->.
  { rewrite El. case_bool_decide as C; [|done]. by rewrite bool_decide_eq_true_2 by (by apply A2). }
  cbn [negb c_assert mbind outcome_bind].
  destruct (upd_link (head b) (set_prev (last a)) s) as [s1| |] eqn:E1; [|discriminate E..].
  cbn [mbind outcome_bind] in E |- *. rewrite E. cbn [mbind outcome_bind].
  eexists. split; [done|]. split; [|split; [done|by repeat split]].
  replace (remove_ptr p (lru id)) with (a ++ b) by (by rewrite El, remove_ptr_split).
  by apply (lru_rep_remove s lru id p a b h').
Qed.

End Lru.

Arguments lru_rep_with {T} extra s lru.

(** The lists without crawlers. *)
Notation lru_rep := (lru_rep_with (fun _ => 0)).
