(* ===== verification/ItemsFacts.v ===== *)
(** * The item store

    [store_rep s m lru refs] ties the store to a finite map [m] from keys to items: the hash
    table represents [m], the linked items are exactly those of [m] and each is once in the LRU
    of its class, and every item's reference count is the number [refs] of references held by
    the rest of the server plus one for being linked.  Every operation keeps this, never touches
    a freed item and trips no assertion. *)

From S2P Require Import Prelude Items LruFacts.
Local Open Scope Z_scope.

(** ** Flags *)

Lemma has_flag_bit n i : 0 <= n -> has_flag (2 ^ n) i = Z.testbit (it_flags i) n.
Proof.
  intros Hn. unfold has_flag. destruct (Z.testbit (it_flags i) n) eqn:E.
  - apply negb_true_iff, Z.eqb_neq. intros H. apply (f_equal (fun z => Z.testbit z n)) in H.
    rewrite Z.land_spec, Z.pow2_bits_true, E, Z.bits_0 in H by done. discriminate H.
  - apply negb_false_iff, Z.eqb_eq. apply Z.bits_inj'. intros k Hk. rewrite Z.land_spec, Z.bits_0.
    destruct (decide (k = n)) as [->|]; [by rewrite E|]. rewrite Z.pow2_bits_false by done. by rewrite andb_false_r.
Qed.

Lemma has_flag_raise n k i : 0 <= n -> 0 <= k ->
  has_flag (2 ^ n) (raise_flag (2 ^ k) i) = (n =? k) || has_flag (2 ^ n) i.
Proof.
  intros. rewrite !has_flag_bit by done. unfold raise_flag. simpl. rewrite Z.lor_spec, Z.pow2_bits_eqb by done.
  rewrite Z.eqb_sym. apply orb_comm.
Qed.

Lemma has_flag_clear n k i : 0 <= n < 16 -> 0 <= k ->
  has_flag (2 ^ n) (clear_flag (2 ^ k) i) = negb (n =? k) && has_flag (2 ^ n) i.
Proof.
  intros Hn Hk. rewrite !has_flag_bit by lia. unfold clear_flag, u16. simpl.
  rewrite Z.land_spec, Z.mod_pow2_bits_low, Z.lnot_spec, Z.pow2_bits_eqb by lia.
  rewrite Z.eqb_sym. apply andb_comm.
Qed.

Lemma has_flag_5 i : has_flag ITEM_LINKED i = false -> has_flag ITEM_SLABBED i = false ->
  has_flag (Z.lor ITEM_LINKED ITEM_SLABBED) i = false.
Proof.
  unfold has_flag. intros H1 H2. apply negb_false_iff, Z.eqb_eq in H1, H2.
  apply negb_false_iff, Z.eqb_eq. by rewrite Z.land_lor_distr_r, H1, H2.
Qed.

Lemma LINKED_pow : ITEM_LINKED = 2 ^ 0. Proof. done. Qed.
Lemma CAS_pow : ITEM_CAS = 2 ^ 1. Proof. done. Qed.
Lemma SLABBED_pow : ITEM_SLABBED = 2 ^ 2. Proof. done. Qed.
Lemma FETCHED_pow : ITEM_FETCHED = 2 ^ 3. Proof. done. Qed.
Lemma ACTIVE_pow : ITEM_ACTIVE = 2 ^ 4. Proof. done. Qed.
Lemma CHUNKED_pow : ITEM_CHUNKED = 2 ^ 5. Proof. done. Qed.
Lemma CFLAGS_pow : ITEM_CFLAGS = 2 ^ 8. Proof. done. Qed.
Lemma STALE_pow : ITEM_STALE = 2 ^ 11. Proof. done. Qed.
Lemma TOKEN_pow : ITEM_TOKEN_SENT = 2 ^ 9. Proof. done. Qed.

(** Compute a flag after flags were raised or cleared. *)
Ltac flags :=
  rewrite ?LINKED_pow, ?CAS_pow, ?SLABBED_pow, ?FETCHED_pow, ?ACTIVE_pow, ?CHUNKED_pow, ?CFLAGS_pow,
    ?STALE_pow, ?TOKEN_pow in *;
  rewrite ?has_flag_raise, ?has_flag_clear in * by lia;
  cbn [Z.eqb Pos.eqb orb andb negb] in *.

(** ** What a client sees of an item *)

Definition linked (i : item) : bool := has_flag ITEM_LINKED i.
Definition slabbed (i : item) : bool := has_flag ITEM_SLABBED i.

Record value := mkValue {
  v_key : list Z; v_nbytes : Z; v_exptime : Z; v_has_cas : bool; v_cas : Z; v_cflags : Z; v_data : list Z;
  v_mac : list Z; v_index : Z; v_chunked : bool; v_chunks : list Z
}.

Definition value_of (i : item) : value :=
  mkValue (item_key i) (it_nbytes i) (it_exptime i) (has_flag ITEM_CAS i) (ITEM_get_cas i) (FLAGS_CONV i) (it_data i)
    (it_mac i) (it_mt_index i) (has_flag ITEM_CHUNKED i) (it_chunks i).

(** The items of [h'] are items of [h] with the same value. *)
Definition keeps (h h' : gmap positive item) : Prop :=
  forall q i', h' !! q = Some i' -> exists i, h !! q = Some i /\ value_of i' = value_of i.

Lemma keeps_refl h : keeps h h.
Proof. intros q i H. by exists i. Qed.

Lemma keeps_trans h1 h2 h3 : keeps h1 h2 -> keeps h2 h3 -> keeps h1 h3.
Proof.
  intros H1 H2 q i3 E3. destruct (H2 q i3 E3) as (i2 & E2 & V2). destruct (H1 q i2 E2) as (i1 & E1 & V1).
  exists i1. split; [done|congruence].
Qed.

Lemma value_of_body i i' : body i = body i' -> value_of i = value_of i'.
Proof. intros H. apply (f_equal value_of) in H. exact H. Qed.

Lemma keeps_body_eq h h' : body_eq h h' -> keeps h h'.
Proof.
  intros B q i' E. specialize (B q). rewrite E in B. destruct (h !! q) as [i|]; [|done].
  exists i. split; [done|]. apply value_of_body. by apply (inj Some).
Qed.

Lemma keeps_upd h p i f : h !! p = Some i -> value_of (f i) = value_of i -> keeps h (<[p := f i]> h).
Proof.
  intros H V q i' E. destruct (decide (q = p)) as [->|].
  - rewrite lookup_insert_eq in E. injection E as <-. by exists i.
  - rewrite lookup_insert_ne in E by done. by exists i'.
Qed.

Lemma keeps_delete h p : keeps h (base.delete p h).
Proof. intros q i' E. apply lookup_delete_Some in E as [_ E]. by exists i'. Qed.

#[export] Hint Resolve keeps_refl keeps_body_eq keeps_delete : kvsev.

(** ** The invariant *)

Section Store.
Context {T : Type} `{!ItemTable T} (hash : list Z -> Z) `{!ItemTableLaws hash T} (cfg : settings).
Implicit Types (s : store T) (m : gmap (list Z) positive) (refs : positive -> Z).

Record store_rep s m (lru : Z -> list positive) refs : Prop := {
  sr_table : tbl_rep (table s) m;
  sr_lru : lru_rep s lru;
  sr_flag : forall p i, heap s !! p = Some i -> linked i = true <-> m !! item_key i = Some p;
  sr_item : forall k p, m !! k = Some p -> exists i, heap s !! p = Some i /\ item_key i = k;
  sr_member : forall p i, heap s !! p = Some i -> linked i = true -> p ∈ lru (it_slabs_clsid i);
  sr_linked : forall id p, p ∈ lru id -> exists i, heap s !! p = Some i /\ linked i = true;
  sr_refs : forall p i, heap s !! p = Some i ->
    it_refcount i = refs p + (if linked i then 1 else 0) /\ 0 <= refs p /\
    0 < it_refcount i < 2 ^ 16 /\ slabbed i = false;
  sr_free : forall p, heap s !! p = None -> refs p = 0;
  sr_count : curr_items s = u64 (Z.of_nat (size m))
}.

Definition store_ok s m refs : Prop := exists lru, store_rep s m lru refs.

Definition set_refs (p : positive) (n : Z) refs : positive -> Z :=
  fun q => if decide (q = p) then n else refs q.

Lemma set_refs_eq p n refs : set_refs p n refs p = n.
Proof. unfold set_refs. by rewrite decide_True. Qed.
Lemma set_refs_ne p q n refs : q <> p -> set_refs p n refs q = refs q.
Proof. intros. unfold set_refs. by rewrite decide_False. Qed.

(** An update of one item that keeps its links, class, key and place in the table. *)
Lemma store_rep_upd s m lru refs p i f n :
  store_rep s m lru refs -> heap s !! p = Some i ->
  links (f i) = links i -> it_slabs_clsid (f i) = it_slabs_clsid i -> item_key (f i) = item_key i ->
  linked (f i) = linked i -> slabbed (f i) = false ->
  it_refcount (f i) = n + (if linked i then 1 else 0) -> 0 <= n -> 0 < it_refcount (f i) < 2 ^ 16 ->
  store_rep (with_heap (<[p := f i]> (heap s)) s) m lru (set_refs p n refs).
Proof.
  intros R Hp H1 H2 H3 H4 H5 H6 H7 H8. split; simpl.
  - apply R.
  - by apply lru_rep_upd; [apply R|..].
  - intros q j E. destruct (decide (q = p)) as [->|].
    + rewrite lookup_insert_eq in E. injection E as <-. rewrite H4, H3. by apply R.
    + rewrite lookup_insert_ne in E by done. by apply R.
  - intros k q E. destruct (sr_item _ _ _ _ R k q E) as (j & Ej & Kj). destruct (decide (q = p)) as [->|].
    + exists (f i). rewrite lookup_insert_eq. split; [done|]. rewrite H3. congruence.
    + exists j. by rewrite lookup_insert_ne.
  - intros q j E L. destruct (decide (q = p)) as [->|].
    + rewrite lookup_insert_eq in E. injection E as <-. rewrite H2. apply R; [done|]. by rewrite <- H4.
    + rewrite lookup_insert_ne in E by done. by apply R.
  - intros id q E. destruct (sr_linked _ _ _ _ R id q E) as (j & Ej & Lj). destruct (decide (q = p)) as [->|].
    + exists (f i). rewrite lookup_insert_eq. split; [done|]. rewrite H4. congruence.
    + exists j. by rewrite lookup_insert_ne.
  - intros q j E. destruct (decide (q = p)) as [->|].
    + rewrite lookup_insert_eq in E. injection E as <-. rewrite set_refs_eq, H4. done.
    + rewrite lookup_insert_ne in E by done. rewrite set_refs_ne by done. by apply R.
  - intros q E. destruct (decide (q = p)) as [->|]; [by rewrite lookup_insert_eq in E|].
    rewrite lookup_insert_ne in E by done. rewrite set_refs_ne by done. by apply R.
  - apply R.
Qed.

(** Changing [refs] pointwise. *)
Lemma store_rep_refs s m lru refs refs' :
  store_rep s m lru refs -> (forall q, refs' q = refs q) -> store_rep s m lru refs'.
Proof.
  intros R E. split; try apply R.
  - intros p i. rewrite E. apply R.
  - intros p. rewrite E. apply R.
Qed.

(** The same with an unchanged reference count. *)
Lemma store_rep_upd' s m lru refs p i f :
  store_rep s m lru refs -> heap s !! p = Some i ->
  links (f i) = links i -> it_slabs_clsid (f i) = it_slabs_clsid i -> item_key (f i) = item_key i ->
  linked (f i) = linked i -> slabbed (f i) = false -> it_refcount (f i) = it_refcount i ->
  store_rep (with_heap (<[p := f i]> (heap s)) s) m lru refs.
Proof.
  intros R Hp H1 H2 H3 H4 H5 H6. destruct (sr_refs _ _ _ _ R p i Hp) as (E & E0 & E1 & E2).
  apply (store_rep_refs _ _ _ (set_refs p (refs p) refs)).
  - apply (store_rep_upd s m lru refs p i f (refs p)); auto; congruence.
  - intros q. unfold set_refs. case_decide; congruence.
Qed.

(** ** Holding and releasing references *)

Lemma store_linked s m lru refs k p : store_rep s m lru refs -> m !! k = Some p ->
  exists i, heap s !! p = Some i /\ item_key i = k /\ linked i = true.
Proof.
  intros R H. destruct (sr_item _ _ _ _ R k p H) as (i & E & K). exists i. split; [done|]. split; [done|].
  apply (sr_flag _ _ _ _ R p i E). by rewrite K.
Qed.

Lemma store_held s m lru refs p : store_rep s m lru refs -> 0 < refs p -> exists i, heap s !! p = Some i.
Proof.
  intros R H. destruct (heap s !! p) as [i|] eqn:E; [by exists i|]. apply (sr_free _ _ _ _ R) in E. lia.
Qed.

Definition same_globals s s' : Prop := total_items s' = total_items s /\ cas_id s' = cas_id s.

Lemma same_globals_refl s : same_globals s s.
Proof. done. Qed.

Lemma same_globals_trans s1 s2 s3 : same_globals s1 s2 -> same_globals s2 s3 -> same_globals s1 s3.
Proof. unfold same_globals. intros [] []. split; congruence. Qed.

Lemma refcount_incr_ok s m lru refs p i :
  store_rep s m lru refs -> heap s !! p = Some i -> it_refcount i + 1 < 2 ^ 16 ->
  exists s', refcount_incr p s = Ret s' /\ store_rep s' m lru (set_refs p (refs p + 1) refs) /\
    keeps (heap s) (heap s') /\ same_globals s s' /\
    heap s' = <[p := set_refcount (it_refcount i + 1) i]> (heap s).
Proof.
  intros R Hp Hb. destruct (sr_refs _ _ _ _ R p i Hp) as (E & E0 & E1 & E2).
  unfold refcount_incr. rewrite (upd_item_ok _ _ _ _ Hp). eexists. split; [done|].
  assert (u16 (it_refcount i + 1) = it_refcount i + 1) as EW by (apply Z.mod_small; lia).
  cbn beta. rewrite EW. split; [|split; [by apply (keeps_upd _ _ _ (set_refcount _))|by repeat split]].
  apply (store_rep_upd s m lru refs p i (set_refcount (it_refcount i + 1))); try done; simpl; lia.
Qed.

Lemma refcount_decr_ok s m lru refs p i :
  store_rep s m lru refs -> heap s !! p = Some i -> 0 < refs p -> 1 < it_refcount i ->
  exists s', refcount_decr p s = Ret s' /\ store_rep s' m lru (set_refs p (refs p - 1) refs) /\
    keeps (heap s) (heap s') /\ same_globals s s' /\ heap s' !! p = Some (set_refcount (it_refcount i - 1) i).
Proof.
  intros R Hp Hr Hi. destruct (sr_refs _ _ _ _ R p i Hp) as (E & E0 & E1 & E2).
  unfold refcount_decr. rewrite (upd_item_ok _ _ _ _ Hp). eexists. split; [done|].
  assert (u16 (it_refcount i - 1) = it_refcount i - 1) as EW by (apply Z.mod_small; lia).
  cbn beta. rewrite EW. split; [|split; [by apply (keeps_upd _ _ _ (set_refcount _))|split; [by repeat split|apply lookup_insert_eq]]].
  apply (store_rep_upd s m lru refs p i (set_refcount (it_refcount i - 1))); try done; simpl; lia.
Qed.

(** Freeing an item that is neither linked nor referenced. *)
Lemma item_free_ok s m lru refs p i n :
  store_rep s m lru refs -> heap s !! p = Some i -> linked i = false -> refs p = 1 ->
  n = set_refcount 0 i ->
  let s1 := with_heap (<[p := n]> (heap s)) s in
  exists s', item_free p s1 = Ret s' /\ store_rep s' m lru (set_refs p 0 refs) /\
    keeps (heap s) (heap s') /\ same_globals s s'.
Proof.
  intros R Hp Hl Hr -> s1. assert (forall id, p ∉ lru id) as Hn.
  { intros id H. destruct (sr_linked _ _ _ _ R id p H) as (j & Ej & Lj). congruence. }
  pose proof (sr_lru _ _ _ _ R) as L.
  unfold item_free, get_item. simpl. rewrite lookup_insert_eq. cbn [deref mbind outcome_bind].
  change (has_flag ITEM_LINKED (set_refcount 0 i)) with (linked i). rewrite Hl. cbn [negb c_assert].
  unfold opt_is. rewrite (lru_heads _ _ L), (lru_tails _ _ L).
  assert (head (lru (it_slabs_clsid i)) <> Some p) as H1 by (intros H; apply head_Some_elem_of in H; by apply Hn in H).
  assert (last (lru (it_slabs_clsid i)) <> Some p) as H2
    by (intros H; apply last_Some in H as [l H]; apply (Hn (it_slabs_clsid i)); rewrite H; set_solver).
  cbn [it_slabs_clsid set_refcount]. rewrite (bool_decide_eq_false_2 _ H1), (bool_decide_eq_false_2 _ H2).
  cbn [negb c_assert mbind outcome_bind Z.eqb it_refcount set_refcount]. eexists. split; [done|].
  rewrite delete_insert_eq. split; [|split; [apply keeps_delete|by repeat split]].
  assert (forall q j, base.delete p (heap s) !! q = Some j -> heap s !! q = Some j /\ q <> p) as D
    by (intros q j [? ?]%lookup_delete_Some; done).
  split; simpl.
  - apply R.
  - exact (lru_rep_delete s lru p L Hn).
  - intros q j [E _]%D. by apply R.
  - intros k q E. destruct (store_linked _ _ _ _ _ _ R E) as (j & Ej & Kj & Lj). exists j.
    rewrite lookup_delete_ne; [done|]. intros ->. congruence.
  - intros q j [E _]%D. by apply R.
  - intros id q E. destruct (sr_linked _ _ _ _ R id q E) as (j & Ej & Lj). exists j.
    rewrite lookup_delete_ne; [done|]. intros ->. congruence.
  - intros q j [E Hq]%D. rewrite set_refs_ne by done. by apply R.
  - intros q E. destruct (decide (q = p)) as [->|]; [apply set_refs_eq|].
    rewrite lookup_delete_ne in E by done. rewrite set_refs_ne by done. by apply R.
  - apply R.
Qed.

Lemma do_item_remove_ok s m lru refs p i :
  store_rep s m lru refs -> heap s !! p = Some i -> 0 < refs p ->
  exists s', do_item_remove p s = Ret s' /\ store_rep s' m lru (set_refs p (refs p - 1) refs) /\
    keeps (heap s) (heap s') /\ same_globals s s'.
Proof.
  intros R Hp Hr. destruct (sr_refs _ _ _ _ R p i Hp) as (E & E0 & E1 & E2).
  unfold do_item_remove. rewrite (get_item_ok _ _ _ Hp). cbn [mbind outcome_bind].
  change (has_flag ITEM_SLABBED i) with (slabbed i). rewrite E2, (proj2 (Z.ltb_lt 0 _)) by lia.
  cbn [negb c_assert mbind outcome_bind].
  unfold refcount_decr. rewrite (upd_item_ok _ _ _ _ Hp). cbn [mbind outcome_bind].
  assert (u16 (it_refcount i - 1) = it_refcount i - 1) as EW by (apply Z.mod_small; lia). rewrite EW.
  unfold get_item at 1. cbn [heap with_heap]. rewrite lookup_insert_eq. cbn [deref mbind outcome_bind].
  cbn [it_refcount set_refcount]. destruct (Z.eqb_spec (it_refcount i - 1) 0) as [Z0|Z0].
  - assert (linked i = false) as Hl by (destruct (linked i); [lia|done]). rewrite Hl in E.
    rewrite Z0. replace (refs p - 1) with 0 by lia. by apply (item_free_ok s m lru refs p i); [..|lia|].
  - eexists. split; [done|]. split; [|split; [by apply (keeps_upd _ _ _ (set_refcount _))|by repeat split]].
    apply (store_rep_upd s m lru refs p i (set_refcount (it_refcount i - 1))); try done; simpl; lia.
Qed.

(** ** Linking and unlinking *)

Lemma body_fields i j : body i = body j ->
  linked i = linked j /\ slabbed i = slabbed j /\ item_key i = item_key j /\
  it_refcount i = it_refcount j /\ it_slabs_clsid i = it_slabs_clsid j.
Proof.
  intros H. split_and!; [apply (f_equal linked) in H|apply (f_equal slabbed) in H|
    apply (f_equal item_key) in H|apply (f_equal it_refcount) in H|apply (f_equal it_slabs_clsid) in H]; exact H.
Qed.

Lemma body_eq_some h h' q i : body_eq h h' -> h' !! q = Some i -> exists j, h !! q = Some j /\ body i = body j.
Proof.
  intros B E. specialize (B q). rewrite E in B. destruct (h !! q) as [j|]; [|done]. exists j. split; [done|].
  by apply (inj Some).
Qed.

Lemma body_eq_sym h h' : body_eq h h' -> body_eq h' h.
Proof. intros B q. by rewrite B. Qed.

(** The conditions on the items may be checked before the links were changed. *)
Lemma store_rep_build s m lru refs h :
  tbl_rep (table s) m -> lru_rep s lru -> body_eq h (heap s) ->
  (forall p i, h !! p = Some i -> linked i = true <-> m !! item_key i = Some p) ->
  (forall k p, m !! k = Some p -> exists i, h !! p = Some i /\ item_key i = k) ->
  (forall p i, h !! p = Some i -> linked i = true -> p ∈ lru (it_slabs_clsid i)) ->
  (forall id p, p ∈ lru id -> exists i, h !! p = Some i /\ linked i = true) ->
  (forall p i, h !! p = Some i -> it_refcount i = refs p + (if linked i then 1 else 0) /\
     0 <= refs p /\ 0 < it_refcount i < 2 ^ 16 /\ slabbed i = false) ->
  (forall p, h !! p = None -> refs p = 0) ->
  curr_items s = u64 (Z.of_nat (size m)) -> store_rep s m lru refs.
Proof.
  intros H1 H2 B H3 H4 H5 H6 H7 H8 H9. split; [done|done|..|done].
  - intros p i E. destruct (body_eq_some _ _ _ _ B E) as (j & Ej & Bj).
    destruct (body_fields _ _ Bj) as (-> & _ & -> & _). by apply H3.
  - intros k p E. destruct (H4 k p E) as (j & Ej & <-).
    destruct (body_eq_some _ _ _ _ (body_eq_sym _ _ B) Ej) as (i & Ei & Bi).
    destruct (body_fields _ _ Bi) as (_ & _ & -> & _). by exists i.
  - intros p i E L. destruct (body_eq_some _ _ _ _ B E) as (j & Ej & Bj).
    destruct (body_fields _ _ Bj) as (Lj & _ & _ & _ & ->). apply H5; congruence.
  - intros id p E. destruct (H6 id p E) as (j & Ej & Lj).
    destruct (body_eq_some _ _ _ _ (body_eq_sym _ _ B) Ej) as (i & Ei & Bi).
    destruct (body_fields _ _ Bi) as (Li & _). exists i. split; congruence.
  - intros p i E. destruct (body_eq_some _ _ _ _ B E) as (j & Ej & Bj).
    destruct (body_fields _ _ Bj) as (-> & -> & _ & -> & _). by apply H7.
  - intros p E. apply H8. specialize (B p). rewrite E in B. by destruct (h !! p).
Qed.

Lemma clear_linked i : linked (clear_flag ITEM_LINKED i) = false /\
  slabbed (clear_flag ITEM_LINKED i) = slabbed i /\ value_of (clear_flag ITEM_LINKED i) = value_of i.
Proof. unfold linked, slabbed, value_of, ITEM_get_cas, FLAGS_CONV. flags. done. Qed.

Lemma raise_linked t i : linked (set_time t (raise_flag ITEM_LINKED i)) = true /\
  slabbed (set_time t (raise_flag ITEM_LINKED i)) = slabbed i /\
  value_of (set_time t (raise_flag ITEM_LINKED i)) = value_of i.
Proof.
  unfold linked, slabbed, value_of, ITEM_get_cas, FLAGS_CONV.
  change (has_flag ?f (set_time t ?x)) with (has_flag f x). flags. done.
Qed.

Lemma size_delete_count m k p : m !! k = Some p ->
  u64 (u64 (Z.of_nat (size m)) - 1) = u64 (Z.of_nat (size (base.delete k m))).
Proof.
  intros H. rewrite map_size_delete_Some by eauto.
  assert (0 < size m)%nat by (assert (size m <> 0)%nat; [intros E; apply map_size_empty_inv in E; by rewrite E, lookup_empty in H|lia]).
  unfold u64. rewrite Zminus_mod_idemp_l. f_equal. lia.
Qed.

Section Unlinked.
Context (s : store T) (m : gmap (list Z) positive) (lru : Z -> list positive) (refs : positive -> Z).
Context (p : positive) (i : item).
Context (R : store_rep s m lru refs) (Hp : heap s !! p = Some i) (Hl : linked i = true).

Let i1 := clear_flag ITEM_LINKED i.
Let id := it_slabs_clsid i.
Let lru' := set_lru id (remove_ptr p (lru id)) lru.

(** The state of the store between taking an item out and dropping the table's reference. *)
Lemma unlinked_rep s4 :
  tbl_rep (table s4) (base.delete (item_key i) m) -> lru_rep s4 lru' ->
  body_eq (<[p := i1]> (heap s)) (heap s4) -> curr_items s4 = u64 (curr_items s - 1) ->
  store_rep s4 (base.delete (item_key i) m) lru' (set_refs p (refs p + 1) refs).
Proof.
  intros Ht L4 B4 Hc. destruct (clear_linked i) as (C1 & C2 & C3). fold i1 in C1, C2, C3.
  pose proof (proj1 (sr_flag _ _ _ _ R p i Hp) Hl) as Hm.
  destruct (sr_refs _ _ _ _ R p i Hp) as (E & E0 & E1 & E2). rewrite Hl in E.
  assert (forall q j, <[p := i1]> (heap s) !! q = Some j -> (q = p /\ j = i1) \/ (q <> p /\ heap s !! q = Some j)) as D.
  { intros q j. rewrite lookup_insert_Some. naive_solver. }
  apply (store_rep_build _ _ _ _ (<[p := i1]> (heap s))); [done..| | | | | | |].
  - intros q j [[-> ->]|[Hq Ej]]%D; rewrite lookup_delete_Some; [by rewrite C1; naive_solver|].
    rewrite (sr_flag _ _ _ _ R q j Ej). split; [|tauto]. intros Hj. split; [|done]. intros Ek. congruence.
  - intros k q [Hk Hq]%lookup_delete_Some. destruct (sr_item _ _ _ _ R k q Hq) as (j & Ej & Kj).
    exists j. rewrite lookup_insert_ne; [done|]. intros ->. congruence.
  - intros q j [[-> ->]|[Hq Ej]]%D Lj; [congruence|]. pose proof (sr_member _ _ _ _ R q j Ej Lj) as M.
    unfold lru'. remember (it_slabs_clsid j) as idj. lru_case idj id; [|done]. by apply elem_of_remove_ptr.
  - intros id' q Hq. assert (q ∈ lru id' /\ q <> p) as [Hq1 Hq2].
    { unfold lru' in Hq. lru_case id' id; [by apply elem_of_remove_ptr in Hq|]. split; [done|]. intros ->.
      by pose proof (lru_disjoint _ _ _ _ _ (sr_lru _ _ _ _ R) Hq (sr_member _ _ _ _ R p i Hp Hl)). }
    destruct (sr_linked _ _ _ _ R id' q Hq1) as (j & Ej & Lj). exists j. by rewrite lookup_insert_ne.
  - intros q j [[-> ->]|[Hq Ej]]%D.
    + rewrite set_refs_eq, C1, C2. simpl. split_and!; [lia..|done].
    + rewrite set_refs_ne by done. by apply R.
  - intros q [Eq Hq]%lookup_insert_None. rewrite set_refs_ne by done. by apply R.
  - rewrite Hc, (sr_count _ _ _ _ R). by apply size_delete_count with p.
Qed.

Lemma do_item_unlink_ok :
  exists s', do_item_unlink p (hash (item_key i)) s = Ret s' /\
    store_rep s' (base.delete (item_key i) m) lru' refs /\ keeps (heap s) (heap s') /\ same_globals s s'.
Proof.
  pose proof (proj1 (sr_flag _ _ _ _ R p i Hp) Hl) as Hm.
  unfold do_item_unlink. rewrite (get_item_ok _ _ _ Hp). cbn [mbind outcome_bind].
  change (has_flag ITEM_LINKED i) with (linked i). rewrite Hl, (upd_item_ok _ _ _ _ Hp). cbn [mbind outcome_bind]. fold i1.
  unfold get_item at 1. cbn [heap with_heap]. rewrite lookup_insert_eq. cbn [deref mbind outcome_bind].
  change (item_key i1) with (item_key i).
  destruct (tbl_delete_law _ _ _ _ (sr_table _ _ _ _ R) Hm) as (t & Et & Rt).
  cbn [table with_counts with_heap]. rewrite Et. cbn [mbind outcome_bind]. set (s3 := with_table t _).
  assert (lru_rep s3 lru) as L3.
  { eapply lru_rep_same; [exact (lru_rep_upd s lru p i (clear_flag ITEM_LINKED) (sr_lru _ _ _ _ R) Hp eq_refl eq_refl)|done..]. }
  assert (heap s3 !! p = Some i1) as Hp3 by apply lookup_insert_eq.
  destruct (do_item_unlink_q_ok s3 lru p i1 L3 Hp3) as (s4 & -> & L4 & B4 & F1 & F2 & F3 & F4 & F5);
    [exact (sr_member _ _ _ _ R p i Hp Hl)|].
  cbn [mbind outcome_bind].
  assert (store_rep s4 (base.delete (item_key i) m) lru' (set_refs p (refs p + 1) refs)) as R4
    by (apply unlinked_rep; [by rewrite F1|done..]).
  destruct (body_eq_some _ _ _ _ (body_eq_sym _ _ B4) Hp3) as (i4 & Hp4 & B4p).
  pose proof (sr_refs _ _ _ _ R p i Hp) as (_ & E0 & _).
  destruct (do_item_remove_ok _ _ _ _ p i4 R4 Hp4) as (s5 & E5 & R5 & K5 & G5); [rewrite set_refs_eq; lia|].
  exists s5. split; [done|]. split.
  - eapply store_rep_refs; [exact R5|]. intros q. unfold set_refs. repeat case_decide; subst; lia || done.
  - split; [|unfold same_globals in *; simpl in *; destruct G5; split; congruence].
    eapply keeps_trans; [apply (keeps_upd (heap s) p i (clear_flag ITEM_LINKED) Hp), clear_linked|].
    eapply keeps_trans; [by apply keeps_body_eq|done].
Qed.
End Unlinked.

(** The value of an item after it was linked: only its CAS number is new. *)
Definition relinked (c : Z) (v : value) : value :=
  mkValue (v_key v) (v_nbytes v) (v_exptime v) (v_has_cas v) (if v_has_cas v then c else 0) (v_cflags v)
    (v_data v) (v_mac v) (v_index v) (v_chunked v) (v_chunks v).

Definition new_cas s : Z := if use_cas cfg then u64 (cas_id s + 1) else 0.

Definition keeps_but (p : positive) (h h' : gmap positive item) : Prop :=
  forall q i', q <> p -> h' !! q = Some i' -> exists i, h !! q = Some i /\ value_of i' = value_of i.

Lemma keeps_but_trans q h1 h2 h3 : keeps_but q h1 h2 -> keeps_but q h2 h3 -> keeps_but q h1 h3.
Proof.
  intros H1 H2 x i3 Hx E3. destruct (H2 x i3 Hx E3) as (i2 & E2 & V2). destruct (H1 x i2 Hx E2) as (i1 & E1 & V1).
  exists i1. split; [done|congruence].
Qed.

Lemma keeps_keeps_but q h h' : keeps h h' -> keeps_but q h h'.
Proof. intros K x i' _. apply K. Qed.

Lemma relink_item t c i : let i2 := ITEM_set_cas c (set_time t (raise_flag ITEM_LINKED i)) in
  linked i2 = true /\ slabbed i2 = slabbed i /\ value_of i2 = relinked c (value_of i) /\
  item_key i2 = item_key i /\ it_refcount i2 = it_refcount i /\ it_slabs_clsid i2 = it_slabs_clsid i /\ links i2 = links i.
Proof.
  destruct (raise_linked t i) as (L & S & V). set (i1 := set_time t (raise_flag ITEM_LINKED i)) in *.
  assert (has_flag ITEM_CAS i1 = has_flag ITEM_CAS i /\ has_flag ITEM_CFLAGS i1 = has_flag ITEM_CFLAGS i /\
    has_flag ITEM_CHUNKED i1 = has_flag ITEM_CHUNKED i) as (F1 & F2 & F3).
  { unfold i1. change (has_flag ?f (set_time t ?x)) with (has_flag f x). flags. done. }
  unfold ITEM_set_cas, value_of, relinked, ITEM_get_cas, FLAGS_CONV, linked, slabbed in *.
  rewrite F1. destruct (has_flag ITEM_CAS i) eqn:E; cbn zeta.
  - change (has_flag ?f (set_cas c i1)) with (has_flag f i1). rewrite ?F1, ?F2, ?F3, ?E. done.
  - rewrite ?F1, ?F2, ?F3, ?E. done.
Qed.

Lemma size_insert_count m k p : m !! k = None ->
  u64 (u64 (Z.of_nat (size m)) + 1) = u64 (Z.of_nat (size (<[k := p]> m))).
Proof.
  intros H. rewrite map_size_insert_None by done. unfold u64. rewrite Zplus_mod_idemp_l. f_equal. lia.
Qed.

Lemma not_in_lru s m lru refs p i id :
  store_rep s m lru refs -> heap s !! p = Some i -> linked i = false -> p ∉ lru id.
Proof. intros R Hp Hl H. destruct (sr_linked _ _ _ _ R id p H) as (j & Ej & Lj). congruence. Qed.

Section Linked.
Context (s : store T) (m : gmap (list Z) positive) (lru : Z -> list positive) (refs : positive -> Z).
Context (p : positive) (i i2 : item).
Context (R : store_rep s m lru refs) (Hp : heap s !! p = Some i) (Hl : linked i = false).
Context (Hm : m !! item_key i = None).
Context (L2 : linked i2 = true) (S2 : slabbed i2 = slabbed i) (K2 : item_key i2 = item_key i).
Context (N2 : it_refcount i2 = it_refcount i) (C2 : it_slabs_clsid i2 = it_slabs_clsid i).

Let id := it_slabs_clsid i.
Let lru' := set_lru id (p :: lru id) lru.

(** The state between putting an item in and counting the table's reference to it. *)
Lemma linked_rep s5 :
  tbl_rep (table s5) (<[item_key i := p]> m) -> lru_rep s5 lru' ->
  body_eq (<[p := i2]> (heap s)) (heap s5) -> curr_items s5 = u64 (curr_items s + 1) ->
  store_rep s5 (<[item_key i := p]> m) lru' (set_refs p (refs p - 1) refs).
Proof.
  intros Ht L5 B5 Hc. destruct (sr_refs _ _ _ _ R p i Hp) as (E & E0 & E1 & E2). rewrite Hl in E.
  assert (forall q j, <[p := i2]> (heap s) !! q = Some j -> (q = p /\ j = i2) \/ (q <> p /\ heap s !! q = Some j)) as D.
  { intros q j. rewrite lookup_insert_Some. naive_solver. }
  assert (forall q j, heap s !! q = Some j -> linked j = true -> q <> p) as Hne by (intros q j Ej Lj ->; congruence).
  apply (store_rep_build _ _ _ _ (<[p := i2]> (heap s))); [done..| | | | | | |].
  - intros q j [[-> ->]|[Hq Ej]]%D; [by rewrite K2, lookup_insert_eq|].
    rewrite (sr_flag _ _ _ _ R q j Ej), lookup_insert_Some. split; [|naive_solver]. intros Hj. right. split; [congruence|done].
  - intros k q [[<- <-]|[Hk Hq]]%lookup_insert_Some; [exists i2; by rewrite lookup_insert_eq|].
    destruct (store_linked _ _ _ _ _ _ R Hq) as (j & Ej & Kj & Lj). exists j. rewrite lookup_insert_ne; [done|].
    intros ->. congruence.
  - intros q j [[-> ->]|[Hq Ej]]%D Lj; [rewrite C2; unfold lru'; fold id; rewrite set_lru_eq; set_solver|].
    pose proof (sr_member _ _ _ _ R q j Ej Lj) as M. remember (it_slabs_clsid j) as idj.
    unfold lru'. lru_case idj id; set_solver.
  - intros id' q Hq. assert (q = p \/ q ∈ lru id') as [->|Hq1].
    { unfold lru' in Hq. lru_case id' id; set_solver. }
    + exists i2. by rewrite lookup_insert_eq.
    + destruct (sr_linked _ _ _ _ R id' q Hq1) as (j & Ej & Lj). exists j. rewrite lookup_insert_ne; [done|].
      intros ->. congruence.
  - intros q j [[-> ->]|[Hq Ej]]%D.
    + rewrite set_refs_eq, L2, S2, N2. split_and!; [lia..|done].
    + rewrite set_refs_ne by done. by apply R.
  - intros q [Eq Hq]%lookup_insert_None. rewrite set_refs_ne by done. by apply R.
  - rewrite Hc, (sr_count _ _ _ _ R). by apply size_insert_count.
Qed.
End Linked.

Lemma do_item_link_timed s m lru refs p i :
  store_rep s m lru refs -> heap s !! p = Some i -> linked i = false -> m !! item_key i = None ->
  it_refcount i + 1 < 2 ^ 16 ->
  exists s' lru' i', do_item_link cfg p (hash (item_key i)) s = Ret s' /\
    store_rep s' (<[item_key i := p]> m) lru' refs /\ keeps_but p (heap s) (heap s') /\
    heap s' !! p = Some i' /\ value_of i' = relinked (new_cas s) (value_of i) /\ total_items s' = u64 (total_items s + 1) /\
    it_time i' = current_time cfg.
Proof.
  intros R Hp Hl Hm Hb. destruct (sr_refs _ _ _ _ R p i Hp) as (E & E0 & E1 & E2). rewrite Hl in E.
  pose proof (fun id => not_in_lru s m lru refs p i id R Hp Hl) as Hn.
  destruct (relink_item (current_time cfg) (new_cas s) i) as (L2 & S2 & V2 & K2 & N2 & C2 & K2').
  set (i1 := set_time (current_time cfg) (raise_flag ITEM_LINKED i)) in *. set (i2 := ITEM_set_cas (new_cas s) i1) in *.
  unfold do_item_link. rewrite (get_item_ok _ _ _ Hp). cbn [mbind outcome_bind]. rewrite has_flag_5 by done.
  cbn [negb c_assert mbind outcome_bind]. rewrite (upd_item_ok _ _ _ _ Hp). cbn [mbind outcome_bind]. fold i1.
  unfold get_item at 1. cbn [heap with_heap]. rewrite lookup_insert_eq. cbn [deref mbind outcome_bind].
  set (sc := with_counts _ _ _ _).
  assert (exists s2, next_cas cfg sc = (new_cas s, s2) /\ heap s2 = <[p := i1]> (heap s) /\ table s2 = table s /\
      heads s2 = heads s /\ tails s2 = tails s /\ sizes s2 = sizes s /\ curr_items s2 = u64 (curr_items s + 1) /\
      total_items s2 = u64 (total_items s + 1)) as (s2 & -> & H1 & H2 & H3 & H4 & H5 & H6 & H7).
  { unfold next_cas, get_cas_id, new_cas. destruct (use_cas cfg); by eexists. }
  rewrite (upd_item_ok p _ s2 i1) by (rewrite H1; apply lookup_insert_eq). cbn [mbind outcome_bind]. fold i2.
  rewrite H1, insert_insert_eq. change (item_key i1) with (item_key i). cbn [table with_heap]. rewrite H2.
  destruct (tbl_insert_law _ _ (item_key i) p (sr_table _ _ _ _ R) Hm) as (t & -> & Rt).
  { intros k Hk. destruct (store_linked _ _ _ _ _ _ R Hk) as (j & Ej & _ & Lj). congruence. }
  cbn [mbind outcome_bind]. set (s4 := with_table t _).
  assert (lru_rep s4 lru) as L4.
  { eapply lru_rep_same; [exact (lru_rep_upd s lru p i (fun _ => i2) (sr_lru _ _ _ _ R) Hp K2' C2)|done..]. }
  assert (heap s4 !! p = Some i2) as Hp4 by apply lookup_insert_eq.
  destruct (do_item_link_q_ok s4 lru p i2 L4 Hp4) as (s5 & -> & L5 & B5 & F1 & F2 & F3 & F4 & F5);
    [by rewrite <- E2|done|]. cbn [mbind outcome_bind]. rewrite C2 in L5.
  pose proof (linked_rep s m lru refs p i i2 R Hp Hl Hm L2 S2 K2 N2 C2 s5) as R5.
  specialize (R5 ltac:(by rewrite F1) L5 B5 ltac:(by rewrite F2)).
  destruct (body_eq_some _ _ _ _ (body_eq_sym _ _ B5) Hp4) as (i5 & Hp5 & B5p).
  assert (it_refcount i5 = it_refcount i) as N5 by (destruct (body_fields _ _ B5p) as (_ & _ & _ & <- & _); done).
  destruct (refcount_incr_ok _ _ _ _ p i5 R5 Hp5) as (s6 & E6 & R6 & K6 & G6 & H6'); [lia|].
  eexists s6, _, _. split; [exact E6|]. split; [|split; [|split; [rewrite H6'; apply lookup_insert_eq|split; [|split]]]].
  - eapply store_rep_refs; [exact R6|]. intros q. unfold set_refs. repeat case_decide; subst; lia || done.
  - intros q j Hq Ej. rewrite H6', lookup_insert_ne in Ej by done.
    destruct (body_eq_some _ _ _ _ B5 Ej) as (j' & Ej' & Bj). simpl in Ej'. rewrite lookup_insert_ne in Ej' by done.
    exists j'. split; [done|]. by apply value_of_body.
  - rewrite <- V2. symmetry. exact (value_of_body _ _ B5p).
  - destruct G6 as [-> _]. rewrite F4. exact H7.
  - apply (f_equal it_time) in B5p. transitivity (it_time i5); [done|]. transitivity (it_time i2); [exact B5p || (symmetry; exact B5p)|].
    unfold i2, ITEM_set_cas, i1. by case_match.
Qed.

Lemma do_item_link_ok s m lru refs p i :
  store_rep s m lru refs -> heap s !! p = Some i -> linked i = false -> m !! item_key i = None ->
  it_refcount i + 1 < 2 ^ 16 ->
  exists s' lru' i', do_item_link cfg p (hash (item_key i)) s = Ret s' /\
    store_rep s' (<[item_key i := p]> m) lru' refs /\ keeps_but p (heap s) (heap s') /\
    heap s' !! p = Some i' /\ value_of i' = relinked (new_cas s) (value_of i) /\ total_items s' = u64 (total_items s + 1).
Proof.
  intros R Hp Hl Hm Hb. destruct (do_item_link_timed s m lru refs p i R Hp Hl Hm Hb) as (s' & lru' & i' & H1 & H2 & H3 & H4 & H5 & H6 & _).
  by exists s', lru', i'.
Qed.

(** ** Moving an item to the front of a list *)

Lemma body_eq_insert_both h h' p i j :
  body_eq h h' -> body i = body j -> body_eq (<[p := i]> h) (<[p := j]> h').
Proof.
  intros B Hb q. destruct (decide (q = p)) as [->|].
  - rewrite !lookup_insert_eq. simpl. by rewrite Hb.
  - by rewrite !lookup_insert_ne.
Qed.

Lemma keeps_insert h p i j : h !! p = Some i -> value_of j = value_of i -> keeps h (<[p := j]> h).
Proof. intros Hp V. exact (keeps_upd h p i (fun _ => j) Hp V). Qed.

Section Relink.
Context (s : store T) (m : gmap (list Z) positive) (lru : Z -> list positive) (refs : positive -> Z).
Context (p : positive) (i : item) (f : item -> item).
Context (R : store_rep s m lru refs) (Hp : heap s !! p = Some i) (Hl : linked i = true).
Context (f_body : forall x y, body x = body y -> body (f x) = body (f y)).
Context (f_linked : forall x, linked (f x) = linked x) (f_slabbed : forall x, slabbed (f x) = slabbed x).
Context (f_key : forall x, item_key (f x) = item_key x) (f_refs : forall x, it_refcount (f x) = it_refcount x).
Context (f_value : forall x, value_of (f x) = value_of x).

Let id := it_slabs_clsid i.
Let lru1 := set_lru id (remove_ptr p (lru id)) lru.
Let id2 := it_slabs_clsid (f i).
Let lru2 := set_lru id2 (p :: lru1 id2) lru1.

Lemma lru1_spec id' q : q ∈ lru1 id' <-> q ∈ lru id' /\ q <> p.
Proof.
  unfold lru1. lru_case id' id; [apply elem_of_remove_ptr|]. split; [|tauto]. intros Hq. split; [done|]. intros ->.
  by pose proof (lru_disjoint _ _ _ _ _ (sr_lru _ _ _ _ R) Hq (sr_member _ _ _ _ R p i Hp Hl)).
Qed.

Lemma lru2_spec id' q : q ∈ lru2 id' <-> (q = p /\ id' = id2) \/ (q ∈ lru id' /\ q <> p).
Proof.
  unfold lru2. lru_case id' id2; [|rewrite lru1_spec; naive_solver].
  rewrite elem_of_cons, lru1_spec. naive_solver.
Qed.

Lemma relink_rep s' :
  lru_rep s' lru2 -> body_eq (<[p := f i]> (heap s)) (heap s') ->
  table s' = table s -> curr_items s' = curr_items s -> store_rep s' m lru2 refs.
Proof.
  intros L B Ht Hc.
  assert (forall q j, <[p := f i]> (heap s) !! q = Some j -> (q = p /\ j = f i) \/ (q <> p /\ heap s !! q = Some j)) as D.
  { intros q j. rewrite lookup_insert_Some. naive_solver. }
  apply (store_rep_build _ _ _ _ (<[p := f i]> (heap s))); [rewrite Ht; apply R|done|done|..].
  - intros q j [[-> ->]|[Hq Ej]]%D; [rewrite f_linked, f_key|]; by apply R.
  - intros k q Hk. destruct (sr_item _ _ _ _ R k q Hk) as (j & Ej & Kj). destruct (decide (q = p)) as [->|].
    + exists (f i). rewrite lookup_insert_eq, f_key. split; congruence.
    + exists j. by rewrite lookup_insert_ne.
  - intros q j [[-> ->]|[Hq Ej]]%D Lj; apply lru2_spec; [by left|]. right. split; [by apply R|done].
  - intros id' q [[-> ->]|[Hq1 Hq2]]%lru2_spec.
    + exists (f i). by rewrite lookup_insert_eq, f_linked.
    + destruct (sr_linked _ _ _ _ R id' q Hq1) as (j & Ej & Lj). exists j. by rewrite lookup_insert_ne.
  - intros q j [[-> ->]|[Hq Ej]]%D; [rewrite f_linked, f_refs, f_slabbed|]; by apply R.
  - intros q [Eq Hq]%lookup_insert_None. by apply R.
  - rewrite Hc. apply R.
Qed.

(** [s3] is the store after unlinking, with [f] applied to the item. *)
Lemma relink_ok :
  exists s2 i2, do_item_unlink_q p s = Ret s2 /\ heap s2 !! p = Some i2 /\ body i2 = body i /\
    forall s3, heap s3 = <[p := f i2]> (heap s2) -> heads s3 = heads s2 -> tails s3 = tails s2 ->
      sizes s3 = sizes s2 -> rest_eq s2 s3 ->
      exists s', do_item_link_q p s3 = Ret s' /\ store_rep s' m lru2 refs /\
        keeps (heap s) (heap s') /\ same_globals s s'.
Proof.
  destruct (do_item_unlink_q_ok s lru p i (sr_lru _ _ _ _ R) Hp) as (s2 & E2 & L2 & B2 & F2); [by apply R|].
  destruct (body_eq_some _ _ _ _ (body_eq_sym _ _ B2) Hp) as (i2 & Hp2 & Bi).
  exists s2, i2. split; [done|]. split; [done|]. split; [done|]. intros s3 H1 H2 H3 H4 F3.
  assert (heap s3 !! p = Some (f i2)) as Hp3 by (rewrite H1; apply lookup_insert_eq).
  assert (body (f i) = body (f i2)) as Bf by auto.
  destruct (body_fields _ _ Bf) as (_ & Sf & _ & _ & Cf).
  assert (forall id', p ∉ lru1 id') as Hn by (intros id' H; apply lru1_spec in H; naive_solver).
  assert (lru_rep s3 lru1) as L3.
  { eapply lru_rep_frame; [exact L2|done..|]. intros id' q Hq. rewrite H1, lookup_insert_ne; [done|].
    intros ->. by apply (Hn id'). }
  destruct (do_item_link_q_ok s3 lru1 p (f i2) L3 Hp3) as (s4 & E4 & L4 & B4 & F4); [|done|].
  { change (slabbed (f i2) = false). rewrite <- Sf, f_slabbed. by apply (sr_refs _ _ _ _ R p i Hp). }
  rewrite <- Cf in L4. exists s4. split; [done|].
  pose proof (rest_eq_trans _ _ _ (rest_eq_trans _ _ _ F2 F3) F4) as (F1 & Fc & _ & Ft & Fi).
  assert (body_eq (<[p := f i]> (heap s)) (heap s4)) as B.
  { eapply body_eq_trans; [|exact B4]. rewrite H1. by apply body_eq_insert_both. }
  split; [by apply relink_rep|]. split; [|by split].
  eapply keeps_trans; [apply (keeps_insert _ _ _ (f i) Hp (f_value i))|by apply keeps_body_eq].
Qed.
End Relink.

(** ** Bumping *)

(** An update of fields that neither the store's structure nor a client sees. *)
Definition invisible (f : item -> item) : Prop :=
  forall i, links (f i) = links i /\ it_slabs_clsid (f i) = it_slabs_clsid i /\ item_key (f i) = item_key i /\
    linked (f i) = linked i /\ slabbed (f i) = slabbed i /\ it_refcount (f i) = it_refcount i /\
    value_of (f i) = value_of i.

Lemma invisible_upd f s m lru refs p i :
  invisible f -> store_rep s m lru refs -> heap s !! p = Some i ->
  exists s', upd_item p f s = Ret s' /\ store_rep s' m lru refs /\ keeps (heap s) (heap s') /\
    same_globals s s' /\ heap s' !! p = Some (f i).
Proof.
  intros Hf R Hp. rewrite (upd_item_ok _ _ _ _ Hp). destruct (Hf i) as (F1 & F2 & F3 & F4 & F5 & F6 & F7).
  eexists. split; [done|]. split; [|split; [by apply keeps_upd|split; [done|apply lookup_insert_eq]]].
  apply store_rep_upd'; try done. rewrite F5. by apply (sr_refs _ _ _ _ R p i Hp).
Qed.

Lemma chain4 (A B : Prop) s1 s2 s3 :
  A -> B -> keeps (heap s1) (heap s2) -> keeps (heap s2) (heap s3) -> same_globals s1 s2 -> same_globals s2 s3 ->
  A /\ B /\ keeps (heap s1) (heap s3) /\ same_globals s1 s3.
Proof. eauto 10 using keeps_trans, same_globals_trans. Qed.

Lemma invisible_time t : invisible (set_time t).
Proof. intros i. done. Qed.

(** Raising or clearing FETCHED, ACTIVE, STALE or TOKEN_SENT. *)
Lemma invisible_raise n : n = 3 \/ n = 4 \/ n = 9 \/ n = 11 -> invisible (raise_flag (2 ^ n)).
Proof.
  intros Hn i. unfold linked, slabbed, value_of, ITEM_get_cas, FLAGS_CONV.
  destruct Hn as [->|[->|[->| ->]]]; flags; done.
Qed.

Lemma invisible_clear n : n = 3 \/ n = 4 -> invisible (clear_flag (2 ^ n)).
Proof.
  intros Hn i. unfold linked, slabbed, value_of, ITEM_get_cas, FLAGS_CONV.
  destruct Hn as [->| ->]; flags; done.
Qed.

Lemma to_warm_ok :
  let f := fun i => clear_flag ITEM_ACTIVE (set_slabs_clsid (Z.lor (ITEM_clsid i) WARM_LRU) i) in
  (forall x y, body x = body y -> body (f x) = body (f y)) /\ (forall x, linked (f x) = linked x) /\
  (forall x, slabbed (f x) = slabbed x) /\ (forall x, value_of (f x) = value_of x).
Proof.
  intros f. split_and!.
  - intros x y H. apply (f_equal (fun i => body (f i))) in H. exact H.
  - intros x. unfold f, linked. flags. done.
  - intros x. unfold f, slabbed. flags. done.
  - intros x. unfold f, value_of, ITEM_get_cas, FLAGS_CONV. flags. done.
Qed.

Lemma do_item_update_ok s m lru refs p i :
  store_rep s m lru refs -> heap s !! p = Some i ->
  exists s' lru', do_item_update cfg p s = Ret s' /\ store_rep s' m lru' refs /\
    keeps (heap s) (heap s') /\ same_globals s s'.
Proof.
  intros R Hp. destruct (sr_refs _ _ _ _ R p i Hp) as (_ & _ & _ & E2).
  destruct (invisible_upd _ s m lru refs p i (invisible_time (current_time cfg)) R Hp) as (s1 & E1 & R1 & K1 & G1 & Hp1).
  set (i1 := set_time (current_time cfg) i) in *.
  assert (exists s' lru', Ret s = Ret s' /\ store_rep s' m lru' refs /\ keeps (heap s) (heap s') /\ same_globals s s')
    as Hskip by (exists s, lru; auto using keeps_refl, same_globals_refl).
  unfold do_item_update. rewrite (get_item_ok _ _ _ Hp). cbn [mbind outcome_bind].
  change (has_flag ITEM_SLABBED i) with (slabbed i). change (has_flag ITEM_LINKED i) with (linked i). rewrite E2.
  destruct (lru_segmented cfg).
  - cbn [negb c_assert mbind outcome_bind]. destruct (linked i) eqn:Hl; [|done].
    destruct ((ITEM_lruid i =? COLD_LRU) && has_flag ITEM_ACTIVE i).
    + rewrite E1. cbn [mbind outcome_bind]. destruct to_warm_ok as (W1 & W2 & W3 & W4).
      destruct (relink_ok s1 m lru refs p i1 _ R1 Hp1 Hl W1 W2 W3 (fun _ => eq_refl) (fun _ => eq_refl) W4)
        as (s2 & i2 & -> & Hp2 & B2 & H). cbn [mbind outcome_bind].
      rewrite (upd_item_ok _ _ _ _ Hp2). cbn [mbind outcome_bind].
      destruct (H (with_heap (<[p := clear_flag ITEM_ACTIVE (set_slabs_clsid (Z.lor (ITEM_clsid i2) WARM_LRU) i2)]> (heap s2)) s2))
        as (s' & E' & R' & K' & G'); [done|done|done|done|by repeat split|].
      eexists s', _. split; [done|]. split; [done|]. eauto using keeps_trans, same_globals_trans.
    + exists s1, lru. auto.
  - destruct (it_time i <? u32 (current_time cfg - ITEM_UPDATE_INTERVAL)); [|done].
    cbn [negb c_assert mbind outcome_bind]. destruct (linked i) eqn:Hl; [|done].
    rewrite E1. cbn [mbind outcome_bind].
    destruct (relink_ok s1 m lru refs p i1 (fun i => i) R1 Hp1 Hl (fun _ _ h => h) (fun _ => eq_refl) (fun _ => eq_refl)
      (fun _ => eq_refl) (fun _ => eq_refl) (fun _ => eq_refl)) as (s2 & i2 & -> & Hp2 & B2 & H). cbn [mbind outcome_bind].
    destruct (H s2) as (s' & E' & R' & K' & G'); [by rewrite insert_id|done|done|done|by repeat split|].
    eexists s', _. split; [done|]. split; [done|]. eauto using keeps_trans, same_globals_trans.
Qed.

(** What [refs] becomes when the bump buffer takes a reference. *)
Definition bump_refs (queued : bool) (p : positive) (i : item) refs : positive -> Z :=
  if lru_segmented cfg && negb (has_flag ITEM_ACTIVE i) && has_flag ITEM_FETCHED i &&
     (ITEM_lruid i =? COLD_LRU) && queued
  then set_refs p (refs p + 1) refs else refs.

Lemma do_item_bump_ok queued s m lru refs p i :
  store_rep s m lru refs -> heap s !! p = Some i -> it_refcount i + 1 < 2 ^ 16 ->
  exists s' lru', do_item_bump cfg queued p s = Ret s' /\ store_rep s' m lru' (bump_refs queued p i refs) /\
    keeps (heap s) (heap s') /\ same_globals s s'.
Proof.
  intros R Hp Hb. unfold do_item_bump, bump_refs. rewrite (get_item_ok _ _ _ Hp). cbn [mbind outcome_bind].
  rewrite ACTIVE_pow, FETCHED_pow.
  destruct (lru_segmented cfg); cbn [andb].
  - destruct (has_flag (2 ^ 4) i); cbn [negb andb]; [exists s, lru; auto using keeps_refl, same_globals_refl|].
    destruct (has_flag (2 ^ 3) i); cbn [andb].
    + destruct (invisible_upd _ s m lru refs p i (invisible_raise 4 ltac:(lia)) R Hp) as (s1 & -> & R1 & K1 & G1 & Hp1).
      cbn [mbind outcome_bind]. destruct (ITEM_lruid i =? COLD_LRU); cbn [negb andb].
      * destruct queued.
        -- destruct (refcount_incr_ok s1 m lru refs p _ R1 Hp1 Hb) as (s2 & E2 & R2 & K2 & G2 & _).
           exists s2, lru. by apply (chain4 _ _ s s1 s2).
        -- destruct (invisible_upd _ s1 m lru refs p _ (invisible_clear 4 ltac:(lia)) R1 Hp1) as (s2 & E2 & R2 & K2 & G2 & _).
           exists s2, lru. by apply (chain4 _ _ s s1 s2).
      * destruct (invisible_upd _ s1 m lru refs p _ (invisible_time (current_time cfg)) R1 Hp1) as (s2 & E2 & R2 & K2 & G2 & _).
        exists s2, lru. by apply (chain4 _ _ s s1 s2).
    + destruct (invisible_upd _ s m lru refs p i (invisible_raise 3 ltac:(lia)) R Hp) as (s1 & E1 & R1 & K1 & G1 & Hp1).
      exists s1, lru. auto.
  - destruct (invisible_upd _ s m lru refs p i (invisible_raise 3 ltac:(lia)) R Hp) as (s1 & -> & R1 & K1 & G1 & Hp1).
    cbn [mbind outcome_bind].
    destruct (do_item_update_ok s1 m lru refs p _ R1 Hp1) as (s2 & lru2 & E2 & R2 & K2 & G2).
    exists s2, lru2. by apply (chain4 _ _ s s1 s2).
Qed.

(** ** Looking items up *)

(** An item a lookup returns: neither flushed nor expired. *)
Definition live (i : item) : bool :=
  negb (item_is_flushed cfg i) && ((it_exptime i =? 0) || (current_time cfg <? it_exptime i)).

(** Unlinking an item the caller holds a reference to, and dropping that reference. *)
Lemma drop_item s m lru refs p i :
  store_rep s m lru refs -> heap s !! p = Some i -> linked i = true -> 0 < refs p ->
  exists s' lru', (s1 ← do_item_unlink p (hash (item_key i)) s; s2 ← do_item_remove p s1; Ret (@None positive, s2)) = Ret (None, s') /\
    store_rep s' (base.delete (item_key i) m) lru' (set_refs p (refs p - 1) refs) /\
    keeps (heap s) (heap s') /\ same_globals s s'.
Proof.
  intros R Hp Hl Hr. destruct (do_item_unlink_ok s m lru refs p i R Hp Hl) as (s1 & -> & R1 & K1 & G1).
  cbn [mbind outcome_bind]. destruct (store_held _ _ _ _ p R1 Hr) as (i1 & Hp1).
  destruct (do_item_remove_ok _ _ _ _ p i1 R1 Hp1 Hr) as (s2 & -> & R2 & K2 & G2).
  eexists s2, _. by apply (chain4 _ _ s s1 s2).
Qed.

Lemma do_item_get_none s m lru refs k upd queued :
  store_rep s m lru refs -> m !! k = None -> do_item_get cfg k (hash k) upd queued s = Ret (None, s).
Proof.
  intros R Hk. unfold do_item_get. rewrite (tbl_find_law _ _ _ (sr_table _ _ _ _ R)), Hk. done.
Qed.

Lemma do_item_get_some s m lru refs k p i (upd queued : bool) :
  store_rep s m lru refs -> m !! k = Some p -> heap s !! p = Some i -> it_refcount i + 2 < 2 ^ 16 ->
  let refs1 := set_refs p (refs p + 1) refs in
  let refs2 := if upd then bump_refs queued p i refs1 else refs1 in
  exists s' lru', do_item_get cfg k (hash k) upd queued s = Ret (if live i then Some p else None, s') /\
    store_rep s' (if live i then m else base.delete k m) lru' (if live i then refs2 else refs) /\
    keeps (heap s) (heap s') /\ same_globals s s'.
Proof.
  intros R Hk Hp Hb refs1 refs2. destruct (store_linked _ _ _ _ _ _ R Hk) as (j & Ej & Kj & Lj).
  assert (j = i) as -> by congruence. subst k.
  unfold do_item_get. rewrite (tbl_find_law _ _ _ (sr_table _ _ _ _ R)), Hk. cbn [mbind outcome_bind].
  destruct (sr_refs _ _ _ _ R p i Hp) as (_ & E0 & _).
  destruct (refcount_incr_ok s m lru refs p i R Hp) as (s1 & -> & R1 & K1 & G1 & H1); [lia|]. cbn [mbind outcome_bind].
  set (i1 := set_refcount (it_refcount i + 1) i) in *.
  assert (heap s1 !! p = Some i1) as Hp1 by (rewrite H1; apply lookup_insert_eq).
  rewrite (get_item_ok _ _ _ Hp1). cbn [mbind outcome_bind].
  assert (exists s' lru', (s2 ← do_item_unlink p (hash (item_key i)) s1; s3 ← do_item_remove p s2; Ret (@None positive, s3)) = Ret (None, s') /\
    store_rep s' (base.delete (item_key i) m) lru' refs /\ keeps (heap s) (heap s') /\ same_globals s s') as Hdrop.
  { destruct (drop_item s1 m lru refs1 p i1 R1 Hp1 Lj) as (s2 & lru2 & E2 & R2 & K2 & G2); [unfold refs1; rewrite set_refs_eq; lia|].
    exists s2, lru2. apply (chain4 _ _ s s1 s2); try done. eapply store_rep_refs; [exact R2|].
    intros q. unfold refs1, set_refs. repeat case_decide; subst; lia || done. }
  unfold live. change (item_is_flushed cfg i1) with (item_is_flushed cfg i). change (it_exptime i1) with (it_exptime i).
  destruct (item_is_flushed cfg i); cbn [negb andb]; [exact Hdrop|].
  replace (negb (it_exptime i =? 0) && (it_exptime i <=? current_time cfg))
    with (negb ((it_exptime i =? 0) || (current_time cfg <? it_exptime i))) by (zcase; simpl; lia || done).
  destruct ((it_exptime i =? 0) || (current_time cfg <? it_exptime i)); cbn [negb]; [|exact Hdrop].
  unfold refs2. destruct upd; [|exists s1, lru; auto].
  destruct (do_item_bump_ok queued s1 m lru refs1 p i1 R1 Hp1) as (s2 & lru2 & -> & R2 & K2 & G2); [simpl; lia|].
  exists s2, lru2. by apply (chain4 _ _ s s1 s2).
Qed.

(** ** Replacing and allocating *)

(** An unlinked item in the hands of the caller is still there after other operations. *)
Lemma held_item s m lru refs s' m' lru' refs' q j :
  store_rep s m lru refs -> heap s !! q = Some j -> linked j = false ->
  store_rep s' m' lru' refs' -> refs' q = refs q ->
  (forall j', heap s' !! q = Some j' -> exists i, heap s !! q = Some i /\ value_of j' = value_of i) ->
  m' !! item_key j <> Some q ->
  exists j', heap s' !! q = Some j' /\ value_of j' = value_of j /\ linked j' = false /\
    it_refcount j' = it_refcount j /\ item_key j' = item_key j.
Proof.
  intros R Hq Hl R' Hr K Hm. destruct (sr_refs _ _ _ _ R q j Hq) as (E & E0 & E1 & _). rewrite Hl in E.
  destruct (store_held _ _ _ _ q R') as (j' & Hq'); [lia|]. exists j'.
  destruct (K j' Hq') as (j0 & Ej0 & V). assert (j0 = j) as -> by congruence.
  assert (item_key j' = item_key j) as Hk by (apply (f_equal v_key) in V; exact V).
  assert (linked j' = false) as Hl'.
  { destruct (linked j') eqn:L; [|done]. apply (sr_flag _ _ _ _ R' q j' Hq') in L. congruence. }
  destruct (sr_refs _ _ _ _ R' q j' Hq') as (E' & _). rewrite Hl' in E'. split_and!; try done. lia.
Qed.

Lemma do_item_replace_ok s m lru refs p i q j :
  store_rep s m lru refs -> heap s !! p = Some i -> linked i = true ->
  heap s !! q = Some j -> linked j = false -> item_key j = item_key i -> it_refcount j + 1 < 2 ^ 16 ->
  exists s' lru' j', do_item_replace cfg p q (hash (item_key i)) s = Ret s' /\
    store_rep s' (<[item_key i := q]> m) lru' refs /\ keeps_but q (heap s) (heap s') /\
    heap s' !! q = Some j' /\ value_of j' = relinked (new_cas s) (value_of j) /\
    total_items s' = u64 (total_items s + 1).
Proof.
  intros R Hp Hl Hq Hlq Hk Hb. destruct (sr_refs _ _ _ _ R p i Hp) as (_ & _ & _ & E2).
  unfold do_item_replace. rewrite (get_item_ok _ _ _ Hp). cbn [mbind outcome_bind].
  change (has_flag ITEM_SLABBED i) with (slabbed i). rewrite E2. cbn [negb c_assert mbind outcome_bind].
  destruct (do_item_unlink_ok s m lru refs p i R Hp Hl) as (s1 & -> & R1 & K1 & [G1 G2]). cbn [mbind outcome_bind].
  destruct (held_item _ _ _ _ _ _ _ _ q j R Hq Hlq R1 eq_refl (K1 q)) as (j1 & Hq1 & V1 & L1 & N1 & Kj).
  { rewrite Hk, lookup_delete_eq. done. }
  destruct (do_item_link_ok s1 _ _ refs q j1 R1 Hq1 L1) as (s2 & lru2 & j2 & E & R' & K2 & Hq2 & V2 & T2).
  { rewrite Kj, Hk. apply lookup_delete_eq. }
  { lia. }
  rewrite Kj, Hk in E, R'. exists s2, lru2, j2. split; [done|]. rewrite insert_delete_eq in R'. split; [done|].
  split; [|split; [done|split; [|congruence]]].
  - intros x y Hx Ey. destruct (K2 x y Hx Ey) as (y1 & Ey1 & Vy). destruct (K1 x y1 Ey1) as (y2 & Ey2 & Vy2).
    exists y2. split; [done|congruence].
  - rewrite V2, V1. unfold new_cas. by rewrite G2.
Qed.

(** A fresh item belongs to the caller alone. *)
Lemma store_rep_alloc s m lru refs p i :
  store_rep s m lru refs -> heap s !! p = None -> linked i = false -> slabbed i = false -> it_refcount i = 1 ->
  store_rep (with_heap (<[p := i]> (heap s)) s) m lru (set_refs p 1 refs).
Proof.
  intros R Hp Hl Hs Hn.
  assert (forall q j, <[p := i]> (heap s) !! q = Some j -> (q = p /\ j = i) \/ (q <> p /\ heap s !! q = Some j)) as D.
  { intros q j. rewrite lookup_insert_Some. naive_solver. }
  assert (forall q j, heap s !! q = Some j -> q <> p) as Hne by congruence.
  split; simpl.
  - apply R.
  - eapply lru_rep_frame; [apply R|done..|]. intros id q Hq. destruct (lru_member_some _ _ _ _ (sr_lru _ _ _ _ R) Hq) as [j Ej].
    simpl. rewrite lookup_insert_ne; [done|]. by apply not_eq_sym, (Hne q j).
  - intros q j [[-> ->]|[Hq Ej]]%D; [|by apply R]. rewrite Hl. split; [done|]. intros Hm.
    destruct (sr_item _ _ _ _ R _ _ Hm) as (x & Ex & _). congruence.
  - intros k q Hk. destruct (sr_item _ _ _ _ R _ _ Hk) as (x & Ex & Kx). exists x.
    rewrite lookup_insert_ne; [done|]. by apply not_eq_sym, (Hne q x).
  - intros q j [[-> ->]|[Hq Ej]]%D Lj; [congruence|by apply R].
  - intros id q Hq. destruct (sr_linked _ _ _ _ R id q Hq) as (x & Ex & Lx). exists x.
    rewrite lookup_insert_ne; [done|]. by apply not_eq_sym, (Hne q x).
  - intros q j [[-> ->]|[Hq Ej]]%D.
    + rewrite set_refs_eq, Hl, Hs, Hn. lia.
    + rewrite set_refs_ne by done. by apply R.
  - intros q [Eq Hq]%lookup_insert_None. rewrite set_refs_ne by done. by apply R.
  - apply R.
Qed.

(** ** The start *)

(** The state of a server that has just started. *)
Definition initial s : Prop :=
  heap s = ∅ /\ heads s = ∅ /\ tails s = ∅ /\ sizes s = ∅ /\ curr_items s = 0 /\ tbl_rep (table s) ∅.

Lemma initial_rep s : initial s -> store_rep s ∅ (fun _ => []) (fun _ => 0).
Proof.
  intros (Hh & H1 & H2 & H3 & H4 & H5). split; rewrite ?Hh; try done.
  - split; rewrite ?Hh, ?H1, ?H2, ?H3; try done.
    + intros id. apply NoDup_nil_2.
    + intros id l1 p l2 H. by destruct l1.
    + intros id p H. by apply not_elem_of_nil in H.
  - intros id p H. by apply not_elem_of_nil in H.
Qed.

End Store.
