(* ===== verification/ItemAllocFacts.v ===== *)
(** * Allocation keeps the store's invariant

    [lru_pull_tail] and the allocation built on it end, trip no assertion and use no freed item.
    They may take items out of the table, but never one whose lock somebody else, or the caller,
    holds, and they change the value of none. *)

From S2P Require Import Prelude Items LruFacts ItemsFacts ItemAlloc.
Local Open Scope Z_scope.

Section Alloc.
Context {T : Type} {table_ops : ItemTable T} {slabs : SlabAllocator} (hash : list Z -> Z).
Context {table_laws : ItemTableLaws hash T} {slab_laws : SlabAllocatorLaws} (cfg : settings) (item_trylock : Z -> bool).
Context (no_repair : tail_repair_time cfg = 0).
Implicit Types (s : store T) (m : gmap (list Z) positive) (refs : positive -> Z).

(** Reference counts stay below the width of the field with room for one more. *)
Definition room refs : Prop := forall q, refs q + 2 < 2 ^ 16.

(** No item of the table is a crawler in disguise. *)
Definition no_crawler s m : Prop :=
  forall k p i, m !! k = Some p -> heap s !! p = Some i -> 2 <= it_nbytes i.

Lemma no_crawler_keeps s m s' m' : no_crawler s m -> keeps (heap s) (heap s') -> m' ⊆ m -> no_crawler s' m'.
Proof.
  intros H K Hm k p i' Hk E. destruct (K p i' E) as (i & Ei & V). apply (f_equal v_nbytes) in V. simpl in V.
  rewrite V. eapply (H k p); [by eapply lookup_weaken|done].
Qed.

(** [m'] is what pulling items may leave of [m]: [k] is the key of the one item it may drop. *)
Definition dropped (k : list Z) m m' : Prop :=
  m' = m \/ (item_trylock (hash k) = true /\ m' = base.delete k m).

(** What pulling items may leave of [m] in the end. *)
Definition reclaimed m m' : Prop :=
  m' ⊆ m /\ forall k, item_trylock (hash k) = false -> m' !! k = m !! k.

Lemma reclaimed_refl m : reclaimed m m.
Proof. done. Qed.

Lemma reclaimed_trans m1 m2 m3 : reclaimed m1 m2 -> reclaimed m2 m3 -> reclaimed m1 m3.
Proof.
  intros [S1 L1] [S2 L2]. split; [by trans m2|]. intros k H. rewrite L2, L1; done.
Qed.

Lemma dropped_reclaimed k m m' : dropped k m m' -> reclaimed m m'.
Proof.
  intros [->|[Hk ->]]; [apply reclaimed_refl|]. split; [apply delete_subseteq|].
  intros k' Hk'. apply lookup_delete_ne. congruence.
Qed.

(** [s'] has the references of [s], and may have lost the item with key [k] from the table. *)
Definition pulled_ok (k : list Z) s m refs s' : Prop :=
  exists m' lru', store_rep hash s' m' lru' refs /\ dropped k m m' /\
    keeps (heap s) (heap s') /\ same_globals s s'.

Lemma pulled_same k s m lru refs s' :
  store_rep hash s' m lru refs -> keeps (heap s) (heap s') -> same_globals s s' -> pulled_ok k s m refs s'.
Proof. intros. exists m, lru. split; [done|]. split; [by left|done]. Qed.

Lemma pulled_ok_step k s s1 m refs s2 :
  keeps (heap s) (heap s1) -> same_globals s s1 -> pulled_ok k s1 m refs s2 -> pulled_ok k s m refs s2.
Proof.
  intros K G (m' & lru' & R & D & K' & G'). exists m', lru'. split; [done|]. split; [done|].
  split; [by eapply keeps_trans|by eapply same_globals_trans].
Qed.

(** Dropping the reference [lru_pull_tail] took. *)
Lemma drop_ref s m lru refs p i :
  store_rep hash s m lru (set_refs p (refs p + 1) refs) -> heap s !! p = Some i -> 0 <= refs p ->
  exists s', do_item_remove p s = Ret s' /\ store_rep hash s' m lru refs /\
    keeps (heap s) (heap s') /\ same_globals s s'.
Proof.
  intros R Hp H0. destruct (do_item_remove_ok hash s m lru _ p i R Hp) as (s' & E & R' & K & G).
  { rewrite set_refs_eq. lia. }
  exists s'. split; [done|]. split; [|done]. eapply store_rep_refs; [exact R'|].
  intros q. unfold set_refs. repeat case_decide; subst; lia || done.
Qed.

(** The moves between the lists. *)
Definition to_lru (mv : option Z) (i : item) : item :=
  match mv with Some l => set_slabs_clsid (Z.lor (ITEM_clsid i) l) i | None => i end.

Lemma to_lru_ok mv :
  (forall x y, body x = body y -> body (to_lru mv x) = body (to_lru mv y)) /\
  (forall x, linked (to_lru mv x) = linked x) /\ (forall x, slabbed (to_lru mv x) = slabbed x) /\
  (forall x, item_key (to_lru mv x) = item_key x) /\ (forall x, it_refcount (to_lru mv x) = it_refcount x) /\
  (forall x, value_of (to_lru mv x) = value_of x).
Proof.
  destruct mv as [l|]; simpl; split_and!; try done. intros x y H. unfold ITEM_clsid.
  assert (it_slabs_clsid x = it_slabs_clsid y) as -> by apply (f_equal it_slabs_clsid H).
  exact (f_equal (set_slabs_clsid (Z.lor (Z.land (it_slabs_clsid y) (Z.lnot (Z.shiftl 3 6))) l)) H).
Qed.

(** Taking an item out of its list, putting it in front of another and dropping the reference. *)
Lemma move_ok s m lru refs p i mv :
  store_rep hash s m lru (set_refs p (refs p + 1) refs) -> heap s !! p = Some i -> linked i = true -> 0 <= refs p ->
  exists s1 i1, do_item_unlink_q p s = Ret s1 /\ heap s1 !! p = Some i1 /\
    exists s2 s3, do_item_link_q p (with_heap (<[p := to_lru mv i1]> (heap s1)) s1) = Ret s2 /\
      do_item_remove p s2 = Ret s3 /\ exists lru3, store_rep hash s3 m lru3 refs /\
      keeps (heap s) (heap s3) /\ same_globals s s3.
Proof.
  intros R Hp Hl H0. destruct (to_lru_ok mv) as (F1 & F2 & F3 & F4 & F5 & F6).
  destruct (relink_ok hash s m lru _ p i (to_lru mv) R Hp Hl F1 F2 F3 F4 F5 F6) as (s1 & i1 & E1 & Hp1 & B1 & H).
  exists s1, i1. split; [done|]. split; [done|].
  destruct (H (with_heap (<[p := to_lru mv i1]> (heap s1)) s1)) as (s2 & E2 & R2 & K2 & G2);
    [done|done|done|done|by repeat split|].
  destruct (store_held _ _ _ _ _ p R2) as (i2 & Hp2); [rewrite set_refs_eq; lia|].
  destruct (drop_ref s2 m _ refs p i2 R2 Hp2 H0) as (s3 & E3 & R3 & K3 & G3).
  exists s2, s3. split; [done|]. split; [done|]. eexists. split; [exact R3|].
  split; [by eapply keeps_trans|by eapply same_globals_trans].
Qed.

(** What follows a turn of the loop. *)
Definition turn_ok (flags : Z) (k : list Z) (p : positive) s m refs (r : pulled) s1 : Prop :=
  match r with
  | Next n => 0 <= n /\ pulled_ok k s m refs s1
  | Stop n mv => 0 <= n /\ exists s2, pull_finish flags p mv s1 = Ret s2 /\ pulled_ok k s m refs s2
  end.

(** No caller here asks for the item itself. *)
Definition plain (flags : Z) : Prop := Z.land flags LRU_PULL_RETURN_ITEM = 0.

Section Turn.
Context (flags : Z) (s : store T) (m : gmap (list Z) positive) (lru : Z -> list positive) (refs : positive -> Z).
Context (p : positive) (i : item).
Context (Hf : plain flags) (R : store_rep hash s m lru (set_refs p (refs p + 1) refs)).
Context (Hp : heap s !! p = Some i) (Hl : linked i = true) (H0 : 0 <= refs p).

(** Stopping at an item that stays where it is. *)
Lemma stop_here n : 0 <= n -> turn_ok flags (item_key i) p s m refs (Stop n None) s.
Proof.
  intros Hn. split; [done|]. destruct (drop_ref s m lru refs p i R Hp H0) as (s' & E & R' & K & G).
  exists s'. split; [|by apply (pulled_same _ _ _ lru)]. unfold pull_finish. cbn [mbind outcome_bind].
  rewrite Hf. done.
Qed.

(** Stopping at an item that moves. *)
Lemma stop_move n mv s1 : 0 <= n -> do_item_unlink_q p s = Ret s1 ->
  turn_ok flags (item_key i) p s m refs (Stop n (Some mv)) s1.
Proof.
  intros Hn E1. split; [done|].
  destruct (move_ok s m lru refs p i (Some mv) R Hp Hl H0) as (s1' & i1 & E1' & Hp1 & s2 & s3 & E2 & E3 & lru3 & R3 & K3 & G3).
  assert (s1' = s1) as -> by congruence.
  exists s3. split; [|by apply (pulled_same _ _ _ lru3)]. unfold pull_finish.
  rewrite (upd_item_ok _ _ _ _ Hp1). cbn [mbind outcome_bind]. simpl to_lru in E2. rewrite E2. cbn [mbind outcome_bind].
  rewrite Hf. done.
Qed.

(** The item is out of its list for a moment. *)
Lemma unlink_q_returns : exists s1, do_item_unlink_q p s = Ret s1.
Proof. destruct (move_ok s m lru refs p i None R Hp Hl H0) as (s1 & _ & E & _). by exists s1. Qed.

(** Taking the item out of the table, when its lock is free. *)
Lemma evict_ok : item_trylock (hash (item_key i)) = true ->
  exists s1 s2, do_item_unlink p (hash (item_key i)) s = Ret s1 /\ do_item_remove p s1 = Ret s2 /\
    pulled_ok (item_key i) s m refs s2.
Proof.
  intros Ht. destruct (do_item_unlink_ok hash s m lru _ p i R Hp Hl) as (s1 & E1 & R1 & K1 & G1).
  destruct (store_held _ _ _ _ _ p R1) as (i1 & Hp1); [rewrite set_refs_eq; lia|].
  destruct (drop_ref s1 _ _ refs p i1 R1 Hp1 H0) as (s2 & E2 & R2 & K2 & G2).
  exists s1, s2. split; [done|]. split; [done|]. eexists _, _. split; [exact R2|]. split; [by right|].
  split; [by eapply keeps_trans|by eapply same_globals_trans].
Qed.

End Turn.

Lemma turn_step flags k p s s1 m refs r s2 :
  keeps (heap s) (heap s1) -> same_globals s s1 -> turn_ok flags k p s1 m refs r s2 -> turn_ok flags k p s m refs r s2.
Proof.
  intros K G. destruct r as [n|n mv]; simpl.
  - intros [Hn P]. split; [done|]. by eapply pulled_ok_step.
  - intros [Hn (s3 & E & P)]. split; [done|]. exists s3. split; [done|]. by eapply pulled_ok_step.
Qed.

Section Classes.
Context (flags : Z) (s : store T) (m : gmap (list Z) positive) (lru : Z -> list positive) (refs : positive -> Z).
Context (p : positive) (i : item).
Context (Hf : plain flags) (R : store_rep hash s m lru (set_refs p (refs p + 1) refs)).
Context (Hp : heap s !! p = Some i) (Hl : linked i = true) (H0 : 0 <= refs p).

(** An active item loses its mark and leaves its list. *)
Lemma active_moves : exists s1 s2, upd_item p (clear_flag ITEM_ACTIVE) s = Ret s1 /\ do_item_unlink_q p s1 = Ret s2 /\
  (forall n mv, 0 <= n -> turn_ok flags (item_key i) p s m refs (Stop n (Some mv)) s2) /\
  exists s3 s4, do_item_link_q p s2 = Ret s3 /\ do_item_remove p s3 = Ret s4 /\ pulled_ok (item_key i) s m refs s4.
Proof.
  rewrite ACTIVE_pow. destruct (invisible_upd hash _ s m lru _ p i (invisible_clear 4 ltac:(lia)) R Hp)
    as (s1 & E1 & R1 & K1 & G1 & Hp1).
  assert (linked (clear_flag (2 ^ 4) i) = true) as Hl1 by (unfold linked in *; by flags).
  destruct (move_ok s1 m lru refs p _ None R1 Hp1 Hl1 H0) as (s2 & i2 & E2 & Hp2 & s3 & s4 & E3 & E4 & lru4 & R4 & K4 & G4).
  exists s1, s2. split; [done|]. split; [done|]. split.
  - intros n mv Hn. apply (turn_step _ _ _ _ s1); [done..|].
    by apply (stop_move flags s1 m lru refs p (clear_flag (2 ^ 4) i)).
  - simpl to_lru in E3. rewrite insert_id in E3 by done.
    assert (with_heap (heap s2) s2 = s2) as Es2 by by destruct s2. rewrite Es2 in E3.
    exists s3, s4. split; [done|]. split; [done|]. apply (pulled_ok_step _ _ s1); [done..|]. by apply (pulled_same _ _ _ lru4).
Qed.

Lemma pull_cold_ok : item_trylock (hash (item_key i)) = true ->
  exists r s1, pull_cold cfg flags p (hash (item_key i)) s = Ret (r, s1) /\
    turn_ok flags (item_key i) p s m refs r s1.
Proof.
  intros Ht. unfold pull_cold. rewrite (get_item_ok _ _ _ Hp). cbn [mbind outcome_bind].
  assert (turn_ok flags (item_key i) p s m refs (Stop 0 None) s) as Hstop by by apply (stop_here flags s m lru).
  destruct (negb (Z.land flags LRU_PULL_EVICT =? 0)).
  { destruct (evict_to_free cfg); [|by eexists _, _].
    destruct (evict_ok s m lru refs p i R Hp Hl H0 Ht) as (s1 & s2 & E1 & E2 & P2).
    unfold do_item_unlink_nolock. cbn [negb]. rewrite E1.
    cbn [mbind outcome_bind]. eexists _, _. split; [done|]. split; [done|]. exists s2. split; [|done].
    unfold pull_finish. cbn [mbind outcome_bind]. by rewrite Hf. }
  rewrite Hf. cbn [negb Z.eqb].
  destruct (has_flag ITEM_ACTIVE i && lru_segmented cfg); [|by eexists _, _].
  destruct active_moves as (s1 & s2 & -> & E2 & HS & _). cbn [mbind outcome_bind]. rewrite E2. cbn [mbind outcome_bind].
  eexists _, _. split; [done|]. by apply HS.
Qed.

Lemma pull_hot_warm_ok id cur_lru total_bytes max_age :
  exists r s1, pull_hot_warm cfg id cur_lru total_bytes max_age p s = Ret (r, s1) /\
    turn_ok flags (item_key i) p s m refs r s1.
Proof.
  unfold pull_hot_warm. rewrite (get_item_ok _ _ _ Hp). cbn [mbind outcome_bind].
  destruct (has_flag ITEM_ACTIVE i).
  - destruct active_moves as (s1 & s2 & -> & E2 & HS & s3 & s4 & E3 & E4 & P4). cbn [mbind outcome_bind].
    rewrite E2. cbn [mbind outcome_bind]. destruct (cur_lru =? WARM_LRU).
    + rewrite E3. cbn [mbind outcome_bind]. rewrite E4. cbn [mbind outcome_bind]. by eexists _, _.
    + eexists _, _. split; [done|]. by apply HS.
  - case_match.
    + destruct (unlink_q_returns s m lru refs p i R Hp Hl H0) as [s1 E1]. rewrite E1. cbn [mbind outcome_bind].
      eexists _, _. split; [done|]. by apply (stop_move flags s m lru).
    + eexists _, _. split; [done|]. by apply (stop_here flags s m lru).
Qed.
End Classes.

Lemma pull_item_ok id cur_lru total_bytes flags max_age s m lru refs p i :
  plain flags -> room refs -> store_rep hash s m lru refs -> heap s !! p = Some i -> linked i = true ->
  exists r s1, pull_item hash cfg item_trylock id cur_lru total_bytes flags max_age p s = Ret (r, s1) /\
    turn_ok flags (item_key i) p s m refs r s1.
Proof.
  intros Hf Hroom R Hp Hl. destruct (sr_refs _ _ _ _ _ R p i Hp) as (E & E0 & _ & _). specialize (Hroom p).
  unfold pull_item. rewrite (get_item_ok _ _ _ Hp). cbn [mbind outcome_bind].
  destruct (item_trylock (hash (item_key i))) eqn:Ht; cbn [negb].
  2:{ eexists _, _. split; [done|]. split; [done|]. apply (pulled_same _ _ _ lru); auto using keeps_refl, same_globals_refl. }
  destruct (refcount_incr_ok hash s m lru refs p i R Hp) as (s1 & -> & R1 & K1 & G1 & H1); [rewrite Hl in E; lia|].
  cbn [mbind outcome_bind]. set (i1 := set_refcount (it_refcount i + 1) i) in *.
  assert (heap s1 !! p = Some i1) as Hp1 by (rewrite H1; apply lookup_insert_eq).
  rewrite (get_item_ok _ _ _ Hp1), no_repair. cbn [mbind outcome_bind]. rewrite Z.eqb_refl, andb_false_r. cbn [andb negb].
  change (hash (item_key i)) with (hash (item_key i1)) in *. change (item_key i) with (item_key i1).
  assert (forall r s2, turn_ok flags (item_key i1) p s1 m refs r s2 -> turn_ok flags (item_key i1) p s m refs r s2) as Hst
    by (intros; by apply (turn_step _ _ _ _ s1)).
  destruct (_ || item_is_flushed cfg i1).
  { destruct (evict_ok s1 m lru refs p i1 R1 Hp1 Hl E0 Ht) as (s2 & s3 & E2 & E3 & P3).
    unfold do_item_unlink_nolock. rewrite E2. cbn [mbind outcome_bind]. rewrite E3. cbn [mbind outcome_bind].
    eexists _, _. split; [done|]. by apply Hst. }
  destruct (_ || _).
  { destruct (pull_hot_warm_ok flags s1 m lru refs p i1 Hf R1 Hp1 Hl E0 id cur_lru total_bytes max_age) as (r & s2 & -> & H).
    eauto. }
  destruct (cur_lru =? COLD_LRU).
  { destruct (pull_cold_ok flags s1 m lru refs p i1 Hf R1 Hp1 Hl E0 Ht) as (r & s2 & -> & H). eauto. }
  eexists _, _. split; [done|]. apply Hst, (stop_here flags s1 m lru); done.
Qed.

(** ** The loop *)

(** The neighbour of a linked item is another linked item. *)
Lemma lru_prev s m lru refs p i q :
  store_rep hash s m lru refs -> heap s !! p = Some i -> linked i = true -> it_prev i = Some q ->
  q <> p /\ exists k, m !! k = Some q.
Proof.
  intros R Hp Hl Hq. pose proof (sr_member _ _ _ _ _ R p i Hp Hl) as Hin.
  pose proof (sr_lru _ _ _ _ _ R) as L. apply list_elem_of_split in Hin as (a & b & Hab).
  pose proof (lru_lists _ _ L _ _ _ _ Hab) as HL. rewrite Hp in HL. injection HL as HL _. rewrite Hq in HL.
  symmetry in HL. apply last_Some in HL as (a' & ->).
  pose proof (lru_nodup _ _ L (it_slabs_clsid i)) as HN. rewrite Hab in HN. split.
  - intros ->. apply NoDup_app in HN as (_ & HN & _). apply (HN p); set_solver.
  - destruct (sr_linked _ _ _ _ _ R (it_slabs_clsid i) q) as (j & Hj & Lj).
    { rewrite Hab. set_solver. }
    exists (item_key j). by apply (sr_flag _ _ _ _ _ R q j).
Qed.

Definition freed_ok s m refs s' : Prop :=
  exists m' lru', store_rep hash s' m' lru' refs /\ reclaimed m m' /\ keeps (heap s) (heap s') /\ same_globals s s'.

Lemma freed_refl s m lru refs : store_rep hash s m lru refs -> freed_ok s m refs s.
Proof. intros R. exists m, lru. auto using reclaimed_refl, keeps_refl, same_globals_refl. Qed.

Lemma pulled_freed k s m refs s' : pulled_ok k s m refs s' -> freed_ok s m refs s'.
Proof. intros (m' & lru' & R & D & K). exists m', lru'. eauto using dropped_reclaimed. Qed.

Lemma freed_step s m m1 refs s1 s2 :
  reclaimed m m1 -> keeps (heap s) (heap s1) -> same_globals s s1 -> freed_ok s1 m1 refs s2 -> freed_ok s m refs s2.
Proof.
  intros HD K G (m' & lru' & R & D & K' & G'). exists m', lru'. split; [done|]. split; [by eapply reclaimed_trans|].
  split; [by eapply keeps_trans|by eapply same_globals_trans].
Qed.

(** Consecutive steps, each from whatever map the one before left. *)
Lemma freed_trans s m refs s1 s2 :
  freed_ok s m refs s1 -> (forall m1 lru1, store_rep hash s1 m1 lru1 refs -> freed_ok s1 m1 refs s2) -> freed_ok s m refs s2.
Proof. intros (m1 & lru1 & R1 & D & K & G) H. apply (freed_step _ _ m1 _ s1); eauto. Qed.

Lemma pull_loop_ok fuel id cur_lru total_bytes flags max_age tries removed search s m lru refs :
  plain flags -> room refs -> store_rep hash s m lru refs -> no_crawler s m ->
  (Z.to_nat tries < fuel)%nat -> (forall q, search = Some q -> exists k, m !! k = Some q) ->
  exists n s', pull_loop hash cfg item_trylock fuel id cur_lru total_bytes flags max_age tries removed search s = Ret (n, None, s') /\
    freed_ok s m refs s'.
Proof.
  intros Hf Hroom. revert tries removed search s m lru.
  induction fuel as [|fuel IH]; intros tries removed search s m lru R Hc Hfuel Hs; [lia|]. cbn [pull_loop].
  destruct search as [p|]; [|eexists _, _; split; [done|by eapply freed_refl]].
  destruct (Z.leb_spec tries 0); [eexists _, _; split; [done|by eapply freed_refl]|].
  destruct (Hs p eq_refl) as [k Hk]. destruct (store_linked _ _ _ _ _ _ _ R Hk) as (i & Hp & Hki & Hl).
  rewrite (get_item_ok _ _ _ Hp). cbn [mbind outcome_bind]. unfold is_crawler.
  pose proof (Hc k p i Hk Hp). rewrite (proj2 (Z.eqb_neq (it_nbytes i) 0)) by lia. cbn [andb].
  destruct (pull_item_ok id cur_lru total_bytes flags max_age s m lru refs p i Hf Hroom R Hp Hl) as (r & s1 & -> & Ht).
  cbn [mbind outcome_bind]. destruct r as [n|n mv]; destruct Ht as [_ Ht].
  - destruct Ht as (m1 & lru1 & R1 & D1 & K1 & G1).
    destruct (IH (tries - 1) (removed + n) (it_prev i) s1 m1 lru1) as (n' & s' & E & F); [done|eapply no_crawler_keeps; [done..|apply (dropped_reclaimed _ _ _ D1)]|lia| |].
    { intros q Hq. destruct (lru_prev _ _ _ _ _ _ _ R Hp Hl Hq) as [Hne [kq Hkq]]. exists kq.
      destruct D1 as [->|[_ ->]]; [done|]. rewrite lookup_delete_ne; [done|]. congruence. }
    exists n', s'. split; [exact E|]. apply (freed_step _ _ m1 _ s1); eauto using dropped_reclaimed.
  - destruct Ht as (s2 & -> & P). cbn [mbind outcome_bind]. rewrite Hf. eexists _, _. split; [done|]. by eapply pulled_freed.
Qed.

Lemma lru_pull_tail_ok orig_id cur_lru total_bytes flags max_age s m lru refs :
  plain flags -> room refs -> store_rep hash s m lru refs -> no_crawler s m ->
  exists n s', lru_pull_tail hash cfg item_trylock orig_id cur_lru total_bytes flags max_age s = Ret (n, None, s') /\
    freed_ok s m refs s'.
Proof.
  intros Hf Hroom R Hc. unfold lru_pull_tail. destruct (orig_id =? 0); [eexists _, _; split; [done|by eapply freed_refl]|].
  apply (pull_loop_ok _ _ _ _ _ _ _ _ _ s m lru refs); try done; [change (Z.to_nat 5) with 5%nat; lia|].
  intros q Hq. rewrite (lru_tails _ _ (sr_lru _ _ _ _ _ R)) in Hq. apply last_Some in Hq as (a & Ha).
  destruct (sr_linked _ _ _ _ _ R (Z.lor orig_id cur_lru) q) as (j & Hj & Lj); [rewrite Ha; set_solver|].
  exists (item_key j). by apply (sr_flag _ _ _ _ _ R q j).
Qed.

(** ** Allocation *)

Lemma pull_attempts_ok n i ntotal id s m lru refs :
  room refs -> store_rep hash s m lru refs -> no_crawler s m ->
  exists chunk s', pull_attempts hash cfg item_trylock n i ntotal id s = Ret (chunk, s') /\ freed_ok s m refs s' /\
    forall p junk, chunk = Some (p, junk) -> heap s' !! p = None /\ it_flags junk = 0 /\
      ntotal <= Z.of_nat (length (it_data junk)) /\ bytes_ok (it_data junk).
Proof.
  intros Hroom. revert i s m lru. induction n as [|n IH]; intros i s m lru R Hc; cbn [pull_attempts].
  { eexists _, _. split; [done|]. split; [by eapply freed_refl|done]. }
  assert (exists s1, (if lru_segmented cfg then Ret s
     else '(_, _, s) ← lru_pull_tail hash cfg item_trylock id COLD_LRU 0 0 0 s; Ret s) = Ret s1 /\ freed_ok s m refs s1) as (s1 & -> & F1).
  { destruct (lru_segmented cfg); [exists s; split; [done|by eapply freed_refl]|].
    destruct (lru_pull_tail_ok id COLD_LRU 0 0 0 s m lru refs) as (k & s1 & -> & F1); [done..|]. by exists s1. }
  cbn [mbind outcome_bind]. destruct F1 as (m1 & lru1 & R1 & D1 & K1 & G1).
  assert (no_crawler s1 m1) as Hc1 by (eapply no_crawler_keeps; [done..|apply D1]).
  destruct (slabs_alloc i ntotal id (heap s1)) as [[p junk]|] eqn:Ea.
  { eexists _, _. split; [done|]. split; [by exists m1, lru1|]. intros p' junk' [= <- <-]. by eapply slab_laws. }
  destruct (lru_pull_tail_ok id COLD_LRU 0 LRU_PULL_EVICT 0 s1 m1 lru1 refs) as (k & s2 & -> & F2); [done..|].
  cbn [mbind outcome_bind]. destruct F2 as (m2 & lru2 & R2 & D2 & K2 & G2).
  assert (no_crawler s2 m2) as Hc2 by (eapply no_crawler_keeps; [done..|apply D2]).
  assert (forall s3 m3 lru3, store_rep hash s3 m3 lru3 refs -> reclaimed m2 m3 -> keeps (heap s2) (heap s3) -> same_globals s2 s3 ->
    exists chunk s', pull_attempts hash cfg item_trylock n (S i) ntotal id s3 = Ret (chunk, s') /\ freed_ok s m refs s' /\
    forall p junk, chunk = Some (p, junk) -> heap s' !! p = None /\ it_flags junk = 0 /\
      ntotal <= Z.of_nat (length (it_data junk)) /\ bytes_ok (it_data junk)) as Hgo.
  { intros s3 m3 lru3 R3 D3 K3 G3. destruct (IH (S i) s3 m3 lru3 R3) as (chunk & s' & E & F & Hch); [eapply no_crawler_keeps; [exact Hc2|done|apply D3]|].
    exists chunk, s'. split; [done|]. split; [|done]. apply (freed_step _ _ m1 _ s1); [done..|].
    apply (freed_step _ _ m2 _ s2); [done..|]. by apply (freed_step _ _ m3 _ s3). }
  destruct (k <=? 0); [|apply (Hgo s2 m2 lru2); auto using reclaimed_refl, keeps_refl, same_globals_refl].
  destruct (lru_segmented cfg).
  - destruct (lru_pull_tail_ok id HOT_LRU 0 0 0 s2 m2 lru2 refs) as (k' & s3 & -> & m3 & lru3 & R3 & D3 & K3 & G3); [done..|].
    by apply (Hgo s3 m3 lru3).
  - eexists _, _. split; [done|]. split; [|done]. apply (freed_step _ _ m1 _ s1); [done..|]. by exists m2, lru2.
Qed.

(** The size of an item and whether it is kept in chunks. *)
Definition item_total (key : list Z) (flags nbytes : Z) : Z :=
  (item_make_header (Z.of_nat (length key) + 1) flags nbytes).1 + (if use_cas cfg then 8 else 0).
Definition is_large (key : list Z) (flags nbytes : Z) : bool :=
  slab_chunk_size_max cfg <? item_total key flags nbytes.

(** What the caller gets. *)
Record fresh_item (key : list Z) (flags exptime nbytes : Z) (i : item) : Prop := {
  fi_key : item_key i = key;
  fi_nbytes : it_nbytes i = nbytes;
  fi_exptime : it_exptime i = exptime;
  fi_linked : linked i = false;
  fi_slabbed : slabbed i = false;
  fi_refs : it_refcount i = 1;
  fi_cas : has_flag ITEM_CAS i = use_cas cfg;
  fi_flags : FLAGS_CONV i = flags;
  fi_chunked : has_flag ITEM_CHUNKED i = is_large key flags nbytes;
  fi_data : length (it_data i) = if is_large key flags nbytes then 0%nat else Z.to_nat nbytes;
  fi_chunks : it_chunks i = []
}.

Definition alloc_result (key : list Z) (flags exptime nbytes : Z) s m refs (r : option positive) s' : Prop :=
  match r with
  | None => freed_ok s m refs s'
  | Some p => exists m' lru' i, store_rep hash s' m' lru' (set_refs p 1 refs) /\ reclaimed m m' /\
      refs p = 0 /\ (forall k, m' !! k <> Some p) /\ keeps_but p (heap s) (heap s') /\ same_globals s s' /\
      heap s' !! p = Some i /\ fresh_item key flags exptime nbytes i
  end.

Lemma item_total_eq key flags nbytes :
  (if use_cas cfg then (item_make_header (Z.of_nat (length key) + 1) flags nbytes).1 + 8
   else (item_make_header (Z.of_nat (length key) + 1) flags nbytes).1) = item_total key flags nbytes.
Proof. unfold item_total. destruct (use_cas cfg); lia. Qed.

Lemma item_total_data key flags nbytes : nbytes <= item_total key flags nbytes.
Proof.
  unfold item_total, item_make_header, u8. simpl.
  pose proof (Z.mod_pos_bound (Z.of_nat (length key) + 1) (2 ^ 8) ltac:(lia)). repeat case_match; lia.
Qed.

(** The item [do_item_alloc] fills in, in a chunk that had no flags. *)
Lemma fresh_item_ok key flags exptime nbytes junk id large :
  large = is_large key flags nbytes -> it_flags junk = 0 -> 2 <= nbytes ->
  (large = false -> nbytes <= Z.of_nat (length (it_data junk))) ->
  let nsuffix := if flags =? 0 then 0 else 4 in
  let flags0 := if large then Z.lor (it_flags junk) ITEM_CHUNKED else it_flags junk in
  c_assert ((flags0 =? 0) || (flags0 =? ITEM_CHUNKED)) = Ret tt /\
  fresh_item key flags exptime nbytes
    (mkItem None None (it_time junk) exptime nbytes 1
       (Z.lor (Z.lor flags0 (if use_cas cfg then ITEM_CAS else 0)) (if nsuffix =? 0 then 0 else ITEM_CFLAGS)) id key
       (it_mac junk) (it_mt_index junk) (it_cas junk) (if nsuffix =? 0 then it_cflags junk else flags)
       (if large then [] else take (Z.to_nat nbytes) (it_data junk)) []).
Proof.
  intros Hlarge Hj Hn Hd nsuffix flags0. unfold flags0, nsuffix. rewrite Hj. split; [by destruct large|].
  assert (length (if large then [] else take (Z.to_nat nbytes) (it_data junk)) = if large then 0%nat else Z.to_nat nbytes).
  { destruct large; [done|]. rewrite length_take. specialize (Hd eq_refl). lia. }
  split; simpl; try done; rewrite <- ?Hlarge; try done; unfold linked, slabbed, FLAGS_CONV, has_flag; simpl it_flags;
    destruct large, (use_cas cfg), (Z.eqb_spec flags 0) as [->|]; reflexivity.
Qed.

Lemma do_item_alloc_ok key flags exptime nbytes s m lru refs :
  room refs -> store_rep hash s m lru refs -> no_crawler s m ->
  exists r s', do_item_alloc hash cfg item_trylock key flags exptime nbytes s = Ret (r, s') /\
    alloc_result key flags exptime nbytes s m refs r s' /\ (is_Some r -> 2 <= nbytes).
Proof.
  intros Hroom R Hc. unfold do_item_alloc.
  assert (forall t, exists r s', Ret (@None positive, s) = Ret (r, s') /\ alloc_result key flags exptime t s m refs r s' /\
    (is_Some r -> 2 <= nbytes)) as Hnone.
  { intros t. exists None, s. split; [done|]. split; [by eapply freed_refl|]. by intros []. }
  destruct (Z.ltb_spec nbytes 2) as [|Hn]; [apply Hnone|].
  destruct (item_make_header (Z.of_nat (length key) + 1) flags nbytes) as [ntotal nsuffix] eqn:Eh.
  pose proof (item_total_eq key flags nbytes) as Et. rewrite Eh in Et. simpl in Et. rewrite Et. clear Et.
  assert (nsuffix = if flags =? 0 then 0 else 4) as -> by (unfold item_make_header in Eh; congruence). clear Eh ntotal.
  destruct (slabs_clsid cfg (item_total key flags nbytes) =? 0); [apply Hnone|].
  fold (is_large key flags nbytes).
  match goal with |- context [mbind _ ?e] => assert (exists chunk s1, e = Ret (chunk, s1) /\ freed_ok s m refs s1 /\
    forall p junk, chunk = Some (p, junk) -> heap s1 !! p = None /\ it_flags junk = 0 /\
      (is_large key flags nbytes = false -> nbytes <= Z.of_nat (length (it_data junk)))) as (chunk & s1 & -> & F & Hch) end.
  { unfold do_item_alloc_pull. pose proof (item_total_data key flags nbytes).
    destruct (is_large key flags nbytes).
    - destruct (pull_attempts_ok 10 0 (if use_cas cfg then Z.of_nat (length key) + 1 + (if flags =? 0 then 0 else 4) + 80 + 48 + 8
        else Z.of_nat (length key) + 1 + (if flags =? 0 then 0 else 4) + 80 + 48)
        (slabs_clsid cfg (if use_cas cfg then Z.of_nat (length key) + 1 + (if flags =? 0 then 0 else 4) + 80 + 48 + 8
        else Z.of_nat (length key) + 1 + (if flags =? 0 then 0 else 4) + 80 + 48)) s m lru refs)
        as (chunk & s1 & E & F & Hch); [done..|].
      exists chunk, s1. split; [exact E|]. split; [done|]. intros p junk Hpj. by destruct (Hch p junk Hpj) as (? & ? & _).
    - destruct (pull_attempts_ok 10 0 (item_total key flags nbytes) (slabs_clsid cfg (item_total key flags nbytes)) s m lru refs)
        as (chunk & s1 & E & F & Hch); [done..|].
      exists chunk, s1. split; [exact E|]. split; [done|]. intros p junk Hpj. destruct (Hch p junk Hpj) as (? & ? & ? & _).
      split_and!; try done. lia. }
  cbn [mbind outcome_bind]. destruct chunk as [[p junk]|].
  2:{ exists None, s1. split; [done|]. split; [done|]. by intros []. }
  destruct (Hch p junk eq_refl) as (Hp & Hj & Hd). destruct F as (m1 & lru1 & R1 & D1 & K1 & G1).
  match goal with |- context [u8 ?x] => destruct (fresh_item_ok key flags exptime nbytes junk (u8 x) _ eq_refl Hj Hn Hd) as [-> Hi] end.
  cbn [mbind outcome_bind]. match goal with |- context [<[p := ?x]> _] => set (i := x) in * end.
  exists (Some p), (with_heap (<[p := i]> (heap s1)) s1). split; [done|]. split; [|done].
  exists m1, lru1, i. split; [by apply store_rep_alloc; [..|apply Hi|apply Hi|apply Hi]|]. split; [done|].
  split; [by apply (sr_free _ _ _ _ _ R1)|]. split.
  { intros k Hk. destruct (sr_item _ _ _ _ _ R1 k p Hk) as (x & Ex & _). congruence. }
  split; [|split; [done|split; [apply lookup_insert_eq|done]]].
  intros q j Hq Ej. simpl in Ej. rewrite lookup_insert_ne in Ej by done. by apply K1.
Qed.

(** ** Filling the chunks of a large item *)

(** The item [p] got the value [v']; room may have been made for it. *)
Definition grown (p : positive) s m refs s' (v' : value) : Prop :=
  exists m' lru' i', store_rep hash s' m' lru' refs /\ reclaimed m m' /\ keeps_but p (heap s) (heap s') /\
    same_globals s s' /\ heap s' !! p = Some i' /\ value_of i' = v'.

Lemma no_crawler_but p s m s' m' i' :
  no_crawler s m -> keeps_but p (heap s) (heap s') -> m' ⊆ m -> heap s' !! p = Some i' -> 2 <= it_nbytes i' -> no_crawler s' m'.
Proof.
  intros H K Hm Hp Hn k q j Hk E. destruct (decide (q = p)) as [->|Hq]; [congruence|].
  destruct (K q j Hq E) as (i & Ei & V). apply (f_equal v_nbytes) in V. simpl in V.
  rewrite V. eapply (H k q); [by eapply lookup_weaken|done].
Qed.

Lemma grown_here p s m lru refs i : store_rep hash s m lru refs -> heap s !! p = Some i -> grown p s m refs s (value_of i).
Proof. intros R Hp. exists m, lru, i. split_and!; try done. intros q j _ E. by exists j. Qed.

Lemma grown_step p s m s1 m1 refs s2 v2 :
  reclaimed m m1 -> keeps_but p (heap s) (heap s1) -> same_globals s s1 -> grown p s1 m1 refs s2 v2 -> grown p s m refs s2 v2.
Proof.
  intros D K G (m2 & lru2 & i2 & R2 & D2 & K2 & G2 & H2). exists m2, lru2, i2. split; [done|].
  split; [by eapply reclaimed_trans|]. split; [by eapply keeps_but_trans|]. split; [by eapply same_globals_trans|done].
Qed.

(** A change of the contents or of the chunks. *)
Lemma grown_upd p s m lru refs i d c :
  store_rep hash s m lru refs -> heap s !! p = Some i ->
  grown p s m refs (with_heap (<[p := set_chunks c (set_data d i)]> (heap s)) s) (value_of (set_chunks c (set_data d i))).
Proof.
  intros R Hp. exists m, lru, (set_chunks c (set_data d i)). split_and!; try done; [| |apply lookup_insert_eq].
  - apply (store_rep_upd' hash s m lru refs p i (fun i => set_chunks c (set_data d i))); try done.
    by destruct (sr_refs _ _ _ _ _ R p i Hp) as (_ & _ & _ & ?).
  - intros q j Hq E. simpl in E. rewrite lookup_insert_ne in E by done. by exists j.
Qed.

Definition add_chunk (n : Z) (v : value) : value :=
  mkValue (v_key v) (v_nbytes v) (v_exptime v) (v_has_cas v) (v_cas v) (v_cflags v) (v_data v) (v_mac v) (v_index v)
    (v_chunked v) (v_chunks v ++ [Z.min n (slab_chunk_size_max cfg - 48)]).

Lemma do_item_alloc_chunk_ok p n s m lru refs i :
  room refs -> store_rep hash s m lru refs -> no_crawler s m -> heap s !! p = Some i -> 0 < refs p ->
  exists ok s', do_item_alloc_chunk hash cfg item_trylock p n s = Ret (ok, s') /\
    grown p s m refs s' (if ok then add_chunk n (value_of i) else value_of i).
Proof.
  intros Hroom R Hc Hp Hr. unfold do_item_alloc_chunk, do_item_alloc_pull.
  set (size := if _ : bool then _ else _).
  assert (size - 48 = Z.min n (slab_chunk_size_max cfg - 48)) as Esz.
  { unfold size. destruct (Z.ltb_spec (slab_chunk_size_max cfg) (n + 48)); lia. }
  destruct (pull_attempts_ok 10 0 size (slabs_clsid cfg size) s m lru refs) as (nch & s1 & -> & F & _); [done..|].
  cbn [mbind outcome_bind]. destruct F as (m1 & lru1 & R1 & D1 & K1 & G1).
  destruct (store_held _ _ _ _ _ p R1 Hr) as (i1 & Hp1). destruct (K1 p i1 Hp1) as (x & Ex & V1).
  assert (x = i) as -> by congruence.
  assert (grown p s m refs s1 (value_of i)) as Hg.
  { exists m1, lru1, i1. split_and!; try done. by apply keeps_keeps_but. }
  destruct nch as [|]; [|by exists false, s1].
  rewrite (upd_item_ok _ _ _ _ Hp1). cbn [mbind outcome_bind]. eexists true, _. split; [done|]. rewrite Esz.
  destruct (grown_upd p s1 m1 lru1 refs i1 (it_data i1) (it_chunks i1 ++ [Z.min n (slab_chunk_size_max cfg - 48)]) R1 Hp1)
    as (m2 & lru2 & i2 & R2 & D2 & K2 & G2 & Hp2 & V2).
  exists m2, lru2, i2. split; [exact R2|]. split; [by eapply reclaimed_trans|].
  split; [eapply keeps_but_trans; [by apply keeps_keeps_but|exact K2]|].
  split; [by eapply same_globals_trans|]. split; [exact Hp2|]. rewrite V2, <- V1. reflexivity.
Qed.
End Alloc.
