(* ===== verification/Store.v ===== *)
(** * Storing items (src/memcached/memcached.c, thread.c)

    The semantics of the storage commands on top of the items: [do_store_item] for set, add,
    replace, append, prepend and cas, [do_add_delta] for incr and decr, and the entry points of
    thread.c, which hash the key and take the lock of its hash value.  A command runs with that
    lock held, so that the eviction an allocation may do cannot touch the item it works on. *)

From S2P Require Import Prelude Items ItemAlloc Util Itoa.

Local Open Scope Z_scope.

(** ** Results and commands (memcached.h) *)

Inductive store_item_type := NOT_STORED | STORED | EXISTS | NOT_FOUND | TOO_LARGE | NO_MEMORY.

Inductive delta_result_type := OK | NON_NUMERIC | EOM | DELTA_ITEM_NOT_FOUND | DELTA_ITEM_CAS_MISMATCH.

Inductive nread := NREAD_ADD | NREAD_SET | NREAD_REPLACE | NREAD_APPEND | NREAD_PREPEND | NREAD_CAS.

Inductive cas_result := CAS_NONE | CAS_MATCH | CAS_BADVAL | CAS_STALE | CAS_MISS.

#[export] Instance store_item_type_eq : EqDecision store_item_type.
Proof. solve_decision. Defined.
#[export] Instance nread_eq : EqDecision nread.
Proof. solve_decision. Defined.
#[export] Instance cas_result_eq : EqDecision cas_result.
Proof. solve_decision. Defined.

(** ** The value of an item *)

(** [ITEM_data(it)], the memory behind the header, which the macro computes without looking at the
    kind of the item.  Behind the header of a large item lies none of its value but the header of its
    first chunk and then memory of other items: [behind], which comes from outside. *)
Definition ITEM_data (behind : list Z) (i : item) : list Z :=
  if has_flag ITEM_CHUNKED i then behind else it_data i.

(** The value, where the code takes the item for one that is not large, having tested its flags or made
    it so.  With a large item the access would miss the value; that is counted as undefined. *)
Definition plain_data (i : item) : outcome (list Z) :=
  if has_flag ITEM_CHUNKED i then Ub else Ret (ITEM_data [] i).

(** [memcpy(ITEM_data(it) + off, src, n)]. *)
Definition write_data (p : positive) (off : nat) (src : list Z) (n : Z) {T} (s : store T) : outcome (store T) :=
  it ← get_item p s;
  bytes ← read_bytes src (Z.to_nat n);
  data ← plain_data it;
  data ← write_bytes data off bytes;
  upd_item p (set_data data) s.

Section Store.
Context {T : Type} `{!ItemTable T} `{!SlabAllocator} (hash : list Z -> Z) (cfg : settings).

(** What the outside answers during a command: the locks other threads hold, whether the bump
    queue has room, and the bytes that happen to follow a value, or the header of a large item, in
    memory. *)
Record env := mkEnv {
  trylock : Z -> bool;
  queued : bool;
  beyond : list Z
}.

(** [item_trylock] with the lock of [hv] held by the caller. *)
Definition holding (hv : Z) (e : env) : Z -> bool := fun h => trylock e h && negb (h =? hv).

(** ** Concatenating values *)

(** The loops of [_store_item_copy_chunks]: [src] is what follows in the source, and [remain]
    bytes are to be copied.  Where one chunk of the source ends only cuts the copying into more
    turns.  A turn that fills the last chunk of the destination allocates the next one, also when
    no byte is left for it. *)
Fixpoint copy_chunks_loop (fuel : nat) (hv : Z) (e : env) (d_it : positive) (chunked : bool) (src : list Z)
    (remain : Z) (s : store T) : outcome (bool * store T) :=
  match fuel with
  | O => Ub
  | S fuel =>
      if remain =? 0 then Ret (true, s) else
      dch ← get_item d_it s;
      let room := chunk_room dch in
      let todo := if chunked then Z.min room (Z.of_nat (length src)) else room in
      let todo := Z.min todo remain in
      bytes ← read_bytes src (Z.to_nat todo);
      s ← upd_item d_it (fun i => set_data (it_data i ++ bytes) i) s;
      let src := drop (Z.to_nat todo) src in
      let remain := remain - todo in
      '(ok, s) ← (if todo =? room then do_item_alloc_chunk hash cfg (holding hv e) d_it remain s else Ret (true, s));
      if negb ok then Ret (false, s) else
      _ ← (if chunked && (length src =? 0)%nat then c_assert (remain =? 0) else Ret tt);
      copy_chunks_loop fuel hv e d_it chunked src remain s
  end.

(** [_store_item_copy_chunks]: [len] bytes of the value of an item go to the end of the value of
    a large one.  A chunk that is allocated while bytes are left has room for one at least, so that
    every turn but the first copies some. *)
Definition store_item_copy_chunks (hv : Z) (e : env) (d_it s_it : positive) (len : Z) (s : store T)
    : outcome (bool * store T) :=
  src ← get_item s_it s;
  let chunked := has_flag ITEM_CHUNKED src in
  if len <? 0 then (if chunked then Ub else _ ← c_assert false; Ret (false, s)) else
  copy_chunks_loop (2 + Z.to_nat len) hv e d_it chunked (it_data src) len s.

(** [_store_item_copy_data]; the answer is whether it succeeded. *)
Definition store_item_copy_data (hv : Z) (e : env) (comm : nread) (old_it new_it add_it : positive) (s : store T)
    : outcome (bool * store T) :=
  old ← get_item old_it s;
  new ← get_item new_it s;
  add ← get_item add_it s;
  let '(first, snd) := if bool_decide (comm = NREAD_APPEND) then (old, add) else (add, old) in
  let '(first_it, snd_it) := if bool_decide (comm = NREAD_APPEND) then (old_it, add_it) else (add_it, old_it) in
  if has_flag ITEM_CHUNKED new then
    '(ok, s) ← store_item_copy_chunks hv e new_it first_it (it_nbytes first - 2) s;
    if ok : bool then store_item_copy_chunks hv e new_it snd_it (it_nbytes snd) s else Ret (false, s)
  else
    src ← plain_data first;
    s ← write_data new_it 0 src (it_nbytes first) s;
    src ← plain_data snd;
    s ← write_data new_it (Z.to_nat (it_nbytes first - 2)) src (it_nbytes snd) s;
    Ret (true, s).

(** ** do_store_item *)

Definition cas_test (set_stale : bool) (it_cas old_cas : Z) : cas_result :=
  if it_cas =? 0 then CAS_NONE
  else if it_cas =? old_cas then CAS_MATCH
  else if set_stale && (it_cas <? old_cas) then CAS_STALE
  else CAS_BADVAL.

(** What the [switch] decides when the key has an item: the item to store, if any, the one that
    append and prepend made, and the answer if nothing is stored. *)
Definition switch_old (e : env) (p old_p : positive) (comm : nread) (cas_res : cas_result) (hv : Z) (s : store T)
    : outcome (option positive * option positive * store_item_type * store T) :=
  match comm with
  | NREAD_ADD =>
      s ← do_item_update cfg old_p s;
      Ret (None, None, NOT_STORED, s)
  | NREAD_CAS =>
      match cas_res with
      | CAS_MATCH => Ret (Some p, None, NOT_STORED, s)
      | CAS_STALE =>
          old ← get_item old_p s;
          s ← upd_item p (fun i => raise_flag ITEM_STALE (set_exptime (it_exptime old) i)) s;
          s ← (if has_flag ITEM_TOKEN_SENT old then upd_item p (raise_flag ITEM_TOKEN_SENT) s else Ret s);
          Ret (Some p, None, NOT_STORED, s)
      | _ => Ret (None, None, EXISTS, s)
      end
  | NREAD_APPEND | NREAD_PREPEND =>
      if bool_decide (cas_res <> CAS_NONE) && bool_decide (cas_res <> CAS_MATCH) then
        Ret (None, None, EXISTS, s)
      else
        it ← get_item p s;
        old ← get_item old_p s;
        sum ← c_int (it_nbytes it + it_nbytes old);
        nbytes ← c_int (sum - 2);
        '(new_p, s) ← do_item_alloc hash cfg (holding hv e) (item_key it) (FLAGS_CONV old) (it_exptime old) nbytes s;
        match new_p with
        | None => Ret (None, None, NOT_STORED, s)
        | Some new_p =>
            '(ok, s) ← store_item_copy_data hv e comm old_p new_p p s;
            Ret (if ok : bool then Some new_p else None, Some new_p, NOT_STORED, s)
        end
  | NREAD_REPLACE | NREAD_SET => Ret (Some p, None, NOT_STORED, s)
  end.

(** What follows the [switch]: the item is replaced, and the references are dropped. *)
Definition finish_store (old_p : positive) (hv : Z)
    (r : option positive * option positive * store_item_type * store T)
    : outcome (store_item_type * option Z * store T) :=
  let '(do_store, new_it, stored, s) := r in
  '(stored, s) ← match do_store with
                 | Some it => s ← do_item_replace cfg old_p it hv s; Ret (STORED, s)
                 | None => Ret (stored, s)
                 end;
  s ← do_item_remove old_p s;
  s ← match new_it with Some new_it => do_item_remove new_it s | None => Ret s end;
  match do_store with
  | Some it => it ← get_item it s; Ret (stored, Some (ITEM_get_cas it), s)
  | None => Ret (stored, None, s)
  end.

(** The result, and [c->cas], which is assigned when something was stored. *)
Definition do_store_item (e : env) (set_stale : bool) (p : positive) (comm : nread) (hv : Z) (s : store T)
    : outcome (store_item_type * option Z * store T) :=
  it ← get_item p s;
  '(old_it, s) ← do_item_get cfg (item_key it) hv false (queued e) s;
  match old_it with
  | Some old_p =>
      it ← get_item p s;
      old ← get_item old_p s;
      let cas_res := cas_test set_stale (ITEM_get_cas it) (ITEM_get_cas old) in
      r ← switch_old e p old_p comm cas_res hv s;
      finish_store old_p hv r
  | None =>
      match comm with
      | NREAD_ADD | NREAD_SET =>
          s ← do_item_link cfg p hv s;
          it ← get_item p s;
          Ret (STORED, Some (ITEM_get_cas it), s)
      | NREAD_CAS => Ret (NOT_FOUND, None, s)
      | NREAD_REPLACE | NREAD_APPEND | NREAD_PREPEND => Ret (NOT_STORED, None, s)
      end
  end.

(** ** do_add_delta *)

(** A pointer into memory read as a string: the bytes before the first zero. *)
Definition c_string (l : list Z) : list Z := take_while (fun c => negb (c =? 0)) l.

(** The new value: the sum wraps around, a difference stops at zero. *)
Definition delta_value (incr : bool) (value delta : Z) : Z :=
  if incr then u64 (value + delta) else if value <? delta then 0 else value - delta.

(** [cas] is what the pointer of that name points to, if it is not null, and becomes the
    second component of the result; the third is [buf]; [keep] says that the caller asked for
    the item ([it_ret != NULL]), and the fourth component is it. *)
Definition do_add_delta (e : env) (key : list Z) (incr : bool) (delta : Z) (cas : option Z) (hv : Z)
    (keep : bool) (s : store T)
    : outcome (delta_result_type * option Z * list Z * option positive * store T) :=
  '(r, s) ← do_item_get cfg key hv false (queued e) s;
  match r with
  | None => Ret (DELTA_ITEM_NOT_FOUND, cas, [], None, s)
  | Some p =>
      it ← get_item p s;
      if (it_nbytes it <=? 2) || has_flag ITEM_CHUNKED it then
        s ← do_item_remove p s; Ret (NON_NUMERIC, cas, [], None, s)
      else if match cas with Some c => negb (c =? 0) && negb (ITEM_get_cas it =? c) | None => false end then
        s ← do_item_remove p s; Ret (DELTA_ITEM_CAS_MISMATCH, cas, [], None, s)
      else
        ptr ← plain_data it;
        '(ok, value) ← safe_strtoull (c_string (ptr ++ beyond e)) true;
        if negb ok then s ← do_item_remove p s; Ret (NON_NUMERIC, cas, [], None, s) else
        let buf := itoa_u64 (delta_value incr value delta) in
        let res := Z.of_nat (length buf) in
        let finish s :=
          it ← get_item p s;
          let cas := match cas with Some _ => Some (ITEM_get_cas it) | None => None end in
          if keep then Ret (OK, cas, buf, Some p, s)
          else s ← do_item_remove p s; Ret (OK, cas, buf, None, s) in
        if (res + 2 <=? it_nbytes it) && (it_refcount it =? 2) then
          let '(new_cas, s) := next_cas cfg s in
          s ← upd_item p (ITEM_set_cas new_cas) s;
          s ← write_data p 0 buf res s;
          s ← write_data p (length buf) (replicate (Z.to_nat (it_nbytes it - res - 2)) 32) (it_nbytes it - res - 2) s;
          s ← do_item_update cfg p s;
          finish s
        else if 1 <? it_refcount it then
          '(new_it, s) ← do_item_alloc hash cfg (holding hv e) (item_key it) (FLAGS_CONV it) (it_exptime it) (res + 2) s;
          match new_it with
          | None => s ← do_item_remove p s; Ret (EOM, cas, buf, None, s)
          | Some new_p =>
              s ← write_data new_p 0 buf res s;
              s ← write_data new_p (length buf) [13; 10] 2 s;
              s ← do_item_replace cfg p new_p hv s;
              new ← get_item new_p s;
              s ← upd_item p (ITEM_set_cas (if use_cas cfg then ITEM_get_cas new else 0)) s;
              s ← do_item_remove new_p s;
              finish s
          end
        else
          s ← (if it_refcount it =? 1 then do_item_remove p s else Ret s);
          Ret (DELTA_ITEM_NOT_FOUND, cas, buf, None, s)
  end.

(** ** The entry points of thread.c *)

Definition item_alloc (e : env) (key : list Z) (flags exptime nbytes : Z) (s : store T)
    : outcome (option positive * store T) :=
  do_item_alloc hash cfg (trylock e) key flags exptime nbytes s.

Definition item_get (e : env) (key : list Z) (do_update : bool) (s : store T)
    : outcome (option positive * store T) :=
  do_item_get cfg key (hash key) do_update (queued e) s.

Definition item_touch (e : env) (key : list Z) (exptime : Z) (s : store T)
    : outcome (option positive * store T) :=
  do_item_touch cfg key exptime (hash key) (queued e) s.

Definition item_link (p : positive) (s : store T) : outcome (store T) :=
  it ← get_item p s; do_item_link cfg p (hash (item_key it)) s.

Definition item_remove (p : positive) (s : store T) : outcome (store T) :=
  do_item_remove p s.

Definition item_unlink (p : positive) (s : store T) : outcome (store T) :=
  it ← get_item p s; do_item_unlink p (hash (item_key it)) s.

Definition add_delta (e : env) (key : list Z) (incr : bool) (delta : Z) (cas : option Z) (s : store T)
    : outcome (delta_result_type * option Z * list Z * option positive * store T) :=
  do_add_delta e key incr delta cas (hash key) false s.

Definition store_item (e : env) (set_stale : bool) (p : positive) (comm : nread) (s : store T)
    : outcome (store_item_type * option Z * store T) :=
  it ← get_item p s; do_store_item e set_stale p comm (hash (item_key it)) s.

(** [limited_get]: the item, and [*overflow]. *)
Definition limited_get (e : env) (key : list Z) (exptime : Z) (should_touch do_update : bool) (s : store T)
    : outcome (option positive * bool * store T) :=
  '(r, s) ← (if should_touch then item_touch e key exptime s else item_get e key do_update s);
  match r with
  | None => Ret (None, false, s)
  | Some p =>
      it ← get_item p s;
      if IT_REFCOUNT_LIMIT <? it_refcount it then
        s ← item_remove p s; Ret (None, true, s)
      else Ret (Some p, false, s)
  end.

End Store.
