(* ===== verification/StoreFacts.v ===== *)
(** * The storage commands implement their specification

    What a client sees of the store is the map from keys to the values of the live items.
    [do_store_item] changes it as the protocol prescribes for each command, answers accordingly,
    and keeps the invariant of the store. *)

From S2P Require Import Prelude Items LruFacts ItemsFacts ItemAlloc ItemAllocFacts Util Itoa Store.
Local Open Scope Z_scope.

Section Facts.
Context {T : Type} {table_ops : ItemTable T} {slabs : SlabAllocator} (hash : list Z -> Z).
Context {table_laws : ItemTableLaws hash T} {slab_laws : SlabAllocatorLaws} (cfg : settings).
Context (no_repair : tail_repair_time cfg = 0).
Implicit Types (s : store T) (m : gmap (list Z) positive) (refs : positive -> Z) (e : env).

(** ** What a client sees *)

Definition value_at s m (k : list Z) : option value :=
  match m !! k with Some p => value_of <$> heap s !! p | None => None end.

(** The value a lookup returns: that of an item neither flushed nor expired. *)
Definition live_at s m (k : list Z) : option value :=
  match m !! k with
  | Some p => match heap s !! p with
              | Some i => if live cfg i then Some (value_of i) else None
              | None => None
              end
  | None => None
  end.

Lemma value_at_same s m s' m' lru' refs' k :
  store_rep hash s' m' lru' refs' -> m' !! k = m !! k ->
  (forall p i', m !! k = Some p -> heap s' !! p = Some i' -> exists i, heap s !! p = Some i /\ value_of i' = value_of i) ->
  value_at s' m' k = value_at s m k.
Proof.
  intros R' Hm K. unfold value_at. rewrite Hm. destruct (m !! k) as [p|] eqn:E; [|done].
  destruct (sr_item _ _ _ _ _ R' k p Hm) as (i' & Ei' & _). destruct (K p i' eq_refl Ei') as (i & Ei & V).
  rewrite Ei', Ei. simpl. by rewrite V.
Qed.

(** References stay below the limit that [limited_get] enforces. *)
Definition below (n : Z) refs : Prop := forall q, refs q + n <= IT_REFCOUNT_LIMIT.

Lemma below_set n p v refs : below n refs -> v + n <= IT_REFCOUNT_LIMIT -> below n (set_refs p v refs).
Proof. intros H Hv q. unfold set_refs. case_decide; [done|apply H]. Qed.

Lemma below_le n n' refs : below n refs -> n' <= n -> below n' refs.
Proof. intros H Hn q. specialize (H q). lia. Qed.

Lemma below_room n refs : below n refs -> 0 <= n -> room refs.
Proof. intros H Hn q. specialize (H q). unfold IT_REFCOUNT_LIMIT in *. lia. Qed.

(** ** Looking up *)

(** The reference a lookup takes. *)
Definition got_refs (r : option positive) refs : positive -> Z :=
  match r with Some p => set_refs p (refs p + 1) refs | None => refs end.

(** [m'] is [m] except perhaps at [k]. *)
Definition same_but (k : list Z) m m' : Prop := forall k', k' <> k -> m' !! k' = m !! k'.

Lemma do_item_get_ok s m lru refs k q :
  store_rep hash s m lru refs -> below 0 refs ->
  exists r s' m' lru', do_item_get cfg k (hash k) false q s = Ret (r, s') /\
    store_rep hash s' m' lru' (got_refs r refs) /\ keeps (heap s) (heap s') /\ same_globals s s' /\
    same_but k m m' /\ m' !! k = r /\
    live_at s m k = match r with Some p => value_of <$> heap s !! p | None => None end /\
    (is_Some r -> m' = m).
Proof.
  intros R Hb. unfold live_at. destruct (m !! k) as [p|] eqn:Hk.
  - destruct (store_linked _ _ _ _ _ _ _ R Hk) as (i & Hp & Hki & Hl). rewrite Hp.
    destruct (sr_refs _ _ _ _ _ R p i Hp) as (Er & E0 & E1 & _). specialize (Hb p). unfold IT_REFCOUNT_LIMIT in Hb.
    rewrite Hl in Er.
    destruct (do_item_get_some hash cfg s m lru refs k p i false q R Hk Hp) as (s' & lru' & E & R' & K & G); [lia|].
    destruct (live cfg i).
    + exists (Some p), s', m, lru'. rewrite Hp. split_and!; try done. all: by destruct G.
    + exists None, s', (base.delete k m), lru'. split_and!; try done; try by destruct G.
      * intros k' Hk'. by rewrite lookup_delete_ne.
      * apply lookup_delete_eq.
  - exists None, s, m, lru. rewrite (do_item_get_none hash cfg s m lru refs) by done.
    split_and!; auto using keeps_refl; done.
Qed.

(** ** Releasing and replacing *)

Lemma release s m lru refs p :
  store_rep hash s m lru refs -> 0 < refs p ->
  exists s', do_item_remove p s = Ret s' /\ store_rep hash s' m lru (set_refs p (refs p - 1) refs) /\
    keeps (heap s) (heap s') /\ same_globals s s'.
Proof.
  intros R Hr. destruct (store_held _ _ _ _ _ p R Hr) as [i Hp].
  by apply (do_item_remove_ok hash s m lru refs p i).
Qed.

(** Replacing the item of a key, and dropping the reference the lookup took. *)
Lemma store_over s m lru refs k old_p p it :
  store_rep hash s m lru refs -> m !! k = Some old_p -> 0 < refs old_p -> below 1 refs ->
  heap s !! p = Some it -> linked it = false -> item_key it = k -> 
  exists s1 s' lru' it', do_item_replace cfg old_p p (hash k) s = Ret s1 /\ do_item_remove old_p s1 = Ret s' /\
    store_rep hash s' (<[k := p]> m) lru' (set_refs old_p (refs old_p - 1) refs) /\ keeps_but p (heap s) (heap s') /\
    heap s' !! p = Some it' /\ value_of it' = relinked (new_cas cfg s) (value_of it) /\
    total_items s' = u64 (total_items s + 1).
Proof.
  intros R Hk Hr Hb Hp Hl Hki. destruct (store_linked _ _ _ _ _ _ _ R Hk) as (old & Ho & Hko & Hlo).
  destruct (sr_refs _ _ _ _ _ R p it Hp) as (E & _). specialize (Hb p). rewrite Hl in E. unfold IT_REFCOUNT_LIMIT in Hb.
  destruct (do_item_replace_ok hash cfg s m lru refs old_p old p it R Ho Hlo Hp Hl) as (s1 & lru1 & it1 & E1 & R1 & K1 & Hp1 & V1 & T1);
    [congruence|lia|]. rewrite Hko in E1, R1.
  destruct (release s1 _ _ refs old_p R1 Hr) as (s' & E' & R' & K' & G').
  assert (exists it', heap s' !! p = Some it') as (it' & Hp').
  { destruct (sr_item _ _ _ _ _ R' k p) as (x & Ex & _); [apply lookup_insert_eq|]. by exists x. }
  destruct (K' p it' Hp') as (x & Ex & Vx). assert (x = it1) as -> by congruence.
  exists s1, s', lru1, it'. split_and!; try done; [|congruence|by rewrite (proj1 G')].
  eapply keeps_but_trans; [exact K1|by apply keeps_keeps_but].
Qed.

(** ** Joining values *)

Definition value_ok (v : value) : Prop :=
  2 <= v_nbytes v /\ Z.of_nat (length (v_data v)) = v_nbytes v.

(** The value without its final line break. *)
Definition trimmed (v : value) : list Z := take (Z.to_nat (v_nbytes v - 2)) (v_data v).

(** What append ([old] first) and prepend ([new] first) make. *)
Definition joined_data (comm : nread) (old new : value) : list Z :=
  if bool_decide (comm = NREAD_APPEND) then trimmed old ++ v_data new else trimmed new ++ v_data old.

Lemma splice_join junk d1 d2 :
  (2 <= length d1)%nat -> (2 <= length d2)%nat -> length junk = (length d1 + length d2 - 2)%nat ->
  splice (splice junk 0 d1) (length d1 - 2) d2 = take (length d1 - 2) d1 ++ d2.
Proof.
  intros H1 H2 H3. unfold splice. rewrite take_0, app_nil_l.
  rewrite take_app_le by lia. f_equal. rewrite drop_ge; [by rewrite app_nil_r|].
  rewrite length_app, length_drop. lia.
Qed.

(** A change of the data of an item that is not linked. *)
Lemma upd_data_ok s m lru refs p i d :
  store_rep hash s m lru refs -> heap s !! p = Some i ->
  upd_item p (set_data d) s = Ret (with_heap (<[p := set_data d i]> (heap s)) s) /\
  store_rep hash (with_heap (<[p := set_data d i]> (heap s)) s) m lru refs /\
  keeps_but p (heap s) (<[p := set_data d i]> (heap s)).
Proof.
  intros R Hp. split; [by apply upd_item_ok|]. split.
  - apply (store_rep_upd' hash s m lru refs p i (set_data d)); try done. by destruct (sr_refs _ _ _ _ _ R p i Hp) as (_ & _ & _ & ?).
  - intros q j Hq E. rewrite lookup_insert_ne in E by done. by exists j.
Qed.

Lemma write_data_ok s m lru refs p i off src :
  store_rep hash s m lru refs -> heap s !! p = Some i -> has_flag ITEM_CHUNKED i = false ->
  (off + length src <= length (it_data i))%nat ->
  write_data p off src (Z.of_nat (length src)) s =
    Ret (with_heap (<[p := set_data (splice (it_data i) off src) i]> (heap s)) s).
Proof.
  intros R Hp Hc Hl. unfold write_data. rewrite (get_item_ok _ _ _ Hp). cbn [mbind outcome_bind].
  unfold read_bytes. rewrite Nat2Z.id, Nat.leb_refl. cbn [mbind outcome_bind]. rewrite take_ge by lia.
  unfold plain_data, ITEM_data. rewrite Hc. cbn [mbind outcome_bind]. unfold write_bytes. rewrite (proj2 (Nat.leb_le _ _)) by lia.
  cbn [mbind outcome_bind]. by apply upd_item_ok.
Qed.

(** *** The chunks of a large item *)

Definition filled (d c : list Z) (v : value) : value :=
  mkValue (v_key v) (v_nbytes v) (v_exptime v) (v_has_cas v) (v_cas v) (v_cflags v) d (v_mac v) (v_index v) (v_chunked v) c.

Definition v_room (v : value) : Z := foldr Z.add 0 (v_chunks v) - Z.of_nat (length (v_data v)).

Lemma sum_snoc l x : foldr Z.add 0 (l ++ [x]) = foldr Z.add 0 l + x.
Proof. induction l as [|y l IH]; simpl; lia. Qed.

Section Chunks.
Context (hv : Z) (e : env) (refs : positive -> Z) (new_p : positive).
Context (Hroom : room refs) (Hheld : 0 < refs new_p) (Hmax : 48 < slab_chunk_size_max cfg).

Let grows s m s' v' := grown hash (holding hv e) new_p s m refs s' v'.

(** A turn that fills the last chunk gets another one, or the copying ends here. *)
Lemma copy_turn_ok s m lru i bytes n full :
  store_rep hash s m lru refs -> no_crawler s m -> heap s !! new_p = Some i -> 2 <= it_nbytes i -> 0 <= n ->
  Z.of_nat (length bytes) <= chunk_room i -> (full = true -> Z.of_nat (length bytes) = chunk_room i) ->
  exists ok s' c, (s ← upd_item new_p (fun i => set_data (it_data i ++ bytes) i) s;
      if full : bool then do_item_alloc_chunk hash cfg (holding hv e) new_p n s else Ret (true, s)) = Ret (ok, s') /\
    grows s m s' (filled (it_data i ++ bytes) c (value_of i)) /\
    v_room (filled (it_data i ++ bytes) c (value_of i)) =
      if full && ok then Z.min n (slab_chunk_size_max cfg - 48) else chunk_room i - Z.of_nat (length bytes).
Proof.
  intros R Hc Hp Hn Hn0 Hlen Hfull. rewrite (upd_item_ok _ _ _ _ Hp). cbn [mbind outcome_bind].
  set (i1 := set_data (it_data i ++ bytes) i).
  assert (grows s m (with_heap (<[new_p := i1]> (heap s)) s) (value_of i1)) as Hg.
  { exact (grown_upd hash (holding hv e) new_p s m lru refs i (it_data i ++ bytes) (it_chunks i) R Hp). }
  assert (v_room (value_of i1) = chunk_room i - Z.of_nat (length bytes)) as Hr.
  { unfold v_room, chunk_room. simpl. rewrite length_app. lia. }
  destruct full; [|by eexists true, _, (it_chunks i)].
  destruct Hg as (m1 & lru1 & i1' & R1 & D1 & K1 & G1 & Hp1 & V1). simpl in Hp1. rewrite lookup_insert_eq in Hp1. injection Hp1 as <-.
  destruct (do_item_alloc_chunk_ok hash cfg (holding hv e) no_repair new_p n (with_heap (<[new_p := i1]> (heap s)) s) m1 lru1 refs i1)
    as (ok & s2 & -> & Hg2); try done.
  { apply (no_crawler_but new_p s m _ m1 i1); try done; [apply D1|]. apply lookup_insert_eq. }
  { apply lookup_insert_eq. }
  exists ok, s2, (if ok then it_chunks i ++ [Z.min n (slab_chunk_size_max cfg - 48)] else it_chunks i). split; [done|]. split.
  - eapply grown_step; [exact D1|exact K1|exact G1|]. by destruct ok.
  - specialize (Hfull eq_refl). destruct ok; simpl; [|exact Hr].
    unfold v_room in *. simpl in *. rewrite sum_snoc. lia.
Qed.

(** The turns that are left. *)
Definition turns (remain room : Z) : Z := if remain =? 0 then 0 else remain + (if room =? 0 then 1 else 0).

Lemma copy_chunks_loop_ok fuel chunked src remain s m lru i :
  store_rep hash s m lru refs -> no_crawler s m -> heap s !! new_p = Some i -> 2 <= it_nbytes i -> 0 <= chunk_room i ->
  0 <= remain <= Z.of_nat (length src) -> turns remain (chunk_room i) < Z.of_nat fuel ->
  exists ok s' d c, copy_chunks_loop hash cfg fuel hv e new_p chunked src remain s = Ret (ok, s') /\
    grows s m s' (filled d c (value_of i)) /\ 0 <= v_room (filled d c (value_of i)) /\
    (ok = true -> d = it_data i ++ take (Z.to_nat remain) src).
Proof.
  revert src remain s m lru i. induction fuel as [|fuel IH]; intros src remain s m lru i R Hc Hp Hn Hi Hrem Hf.
  { unfold turns in Hf. repeat case_match; lia. }
  cbn [copy_chunks_loop]. destruct (Z.eqb_spec remain 0) as [->|Hz].
  { exists true, s, (it_data i), (it_chunks i). split; [done|]. split; [by eapply (grown_here _ _ _ s m lru)|]. split; [done|].
    intros _. simpl. by rewrite app_nil_r. }
  rewrite (get_item_ok _ _ _ Hp). cbn [mbind outcome_bind].
  assert (Z.min (if chunked then Z.min (chunk_room i) (Z.of_nat (length src)) else chunk_room i) remain =
    Z.min (chunk_room i) remain) as -> by (destruct chunked; lia).
  set (todo := Z.min (chunk_room i) remain). assert (0 <= todo <= remain /\ todo <= chunk_room i) as Ht by (unfold todo; lia).
  unfold read_bytes. rewrite (proj2 (Nat.leb_le _ _)) by lia. cbn [mbind outcome_bind].
  set (bytes := take (Z.to_nat todo) src). assert (Z.of_nat (length bytes) = todo) as Hb by (unfold bytes; rewrite length_take; lia).
  destruct (copy_turn_ok s m lru i bytes (remain - todo) (todo =? chunk_room i) R Hc Hp Hn) as (ok & s1 & c & E & Hg & Hr);
    [lia|lia|intros H; apply Z.eqb_eq in H; lia|].
  rewrite (upd_item_ok _ _ _ _ Hp) in E |- *. cbn [mbind outcome_bind] in E |- *. rewrite E. cbn [mbind outcome_bind]. clear E.
  set (v1 := filled (it_data i ++ bytes) c (value_of i)) in *.
  destruct ok; cbn [negb].
  2:{ exists false, s1, (it_data i ++ bytes), c. split; [done|]. split; [done|]. split; [|done].
      fold v1. rewrite andb_false_r in Hr. lia. }
  assert (chunked && (length (drop (Z.to_nat todo) src) =? 0)%nat = false \/ remain - todo = 0) as Ha.
  { destruct chunked; [|by left]. rewrite length_drop. destruct (Nat.eqb_spec (length src - Z.to_nat todo) 0); [right; lia|by left]. }
  assert ((if chunked && (length (drop (Z.to_nat todo) src) =? 0)%nat then c_assert (remain - todo =? 0) else Ret tt) = Ret tt) as ->.
  { destruct Ha as [-> | ->]; [done|]. by destruct (chunked && _). }
  cbn [mbind outcome_bind]. destruct Hg as (m1 & lru1 & i1 & R1 & D1 & K1 & G1 & Hp1 & V1).
  assert (chunk_room i1 = v_room v1) as Hr1 by (rewrite <- V1; done). rewrite andb_true_r in Hr.
  assert (2 <= it_nbytes i1) as Hn1 by (apply (f_equal v_nbytes) in V1; simpl in V1; lia).
  destruct (IH (drop (Z.to_nat todo) src) (remain - todo) s1 m1 lru1 i1 R1) as (ok & s2 & d & c' & E & Hg & Hr2 & Hd); try done.
  { by apply (no_crawler_but new_p s m s1 m1 i1); [..|apply D1|done|]. }
  { rewrite Hr1, Hr. case_match; lia. }
  { rewrite length_drop. lia. }
  { rewrite Hr1, Hr. unfold turns in *. rewrite (proj2 (Z.eqb_neq remain 0)) in Hf by done.
    destruct (Z.eqb_spec (remain - todo) 0); [repeat case_match; lia|].
    destruct (Z.eqb_spec todo (chunk_room i)) as [Et|]; [|lia].
    rewrite (proj2 (Z.eqb_neq _ 0)) by lia. destruct (Z.eqb_spec (chunk_room i) 0); lia. }
  exists ok, s2, d, c'. split; [done|]. rewrite V1 in Hg, Hr2. split; [|split].
  - eapply grown_step; [exact D1|exact K1|exact G1|exact Hg].
  - exact Hr2.
  - intros ->. rewrite (Hd eq_refl). apply (f_equal v_data) in V1. simpl in V1. rewrite V1, <- app_assoc. f_equal. unfold bytes.
    replace (Z.to_nat remain) with (Z.to_nat todo + Z.to_nat (remain - todo))%nat by lia. apply take_take_drop.
Qed.
End Chunks.

(** The two copies, whichever value comes first. *)
Section Copy.
Context (hv : Z) (e : env) (s : store T) (m : gmap (list Z) positive) (lru : Z -> list positive) (refs : positive -> Z).
Context (fst_p snd_p new_p : positive) (first snd new : item).
Context (R : store_rep hash s m lru refs) (Hc : no_crawler s m) (Hroom : room refs) (Hmax : 48 < slab_chunk_size_max cfg).
Context (Hf : heap s !! fst_p = Some first) (Hs : heap s !! snd_p = Some snd) (Hn : heap s !! new_p = Some new).
Context (Nf : new_p <> fst_p) (Ns : new_p <> snd_p).
Context (Vf : value_ok (value_of first)) (Vs : value_ok (value_of snd)) (Hheld : 0 < refs new_p) (Hsnd : 0 < refs snd_p).
Context (Hsize : it_nbytes new = it_nbytes first + it_nbytes snd - 2).

Let copied (ok : bool) s' : Prop := exists d c, grown hash (holding hv e) new_p s m refs s' (filled d c (value_of new)) /\
  (ok = true -> d = trimmed (value_of first) ++ it_data snd).

Lemma copy_plain : has_flag ITEM_CHUNKED new = false -> Z.of_nat (length (it_data new)) = it_nbytes new ->
  has_flag ITEM_CHUNKED first = false -> has_flag ITEM_CHUNKED snd = false ->
  exists s', (src ← plain_data first;
    s ← write_data new_p 0 src (it_nbytes first) s;
    src ← plain_data snd;
    s ← write_data new_p (Z.to_nat (it_nbytes first - 2)) src (it_nbytes snd) s;
    Ret (true, s)) = Ret (true, s') /\ copied true s'.
Proof.
  intros Hch Hlen Cf Cs. destruct Vf as [F1 F2], Vs as [S1 S2]. simpl in *.
  unfold plain_data, ITEM_data. rewrite Cf, Cs. cbn [mbind outcome_bind]. rewrite <- F2, <- S2.
  rewrite (write_data_ok s m lru refs new_p new) by (done || lia). cbn [mbind outcome_bind].
  set (d1 := splice (it_data new) 0 (it_data first)).
  destruct (upd_data_ok s m lru refs new_p new d1 R Hn) as (_ & R1 & K1).
  assert (length d1 = length (it_data new)) as Hd1 by (apply length_splice; lia).
  rewrite (write_data_ok _ m lru refs new_p (set_data d1 new)) by (done || (simpl; rewrite ?lookup_insert_eq; done || lia)).
  cbn [mbind outcome_bind]. eexists. split; [done|].
  set (d2 := splice d1 (Z.to_nat (Z.of_nat (length (it_data first)) - 2)) (it_data snd)).
  destruct (upd_data_ok _ m lru refs new_p (set_data d1 new) d2 R1) as (_ & R2 & K2); [apply lookup_insert_eq|].
  exists d2, (it_chunks new). split.
  - exists m, lru, (set_data d2 (set_data d1 new)). split; [exact R2|]. split; [apply reclaimed_refl|].
    split; [by eapply keeps_but_trans|]. split; [done|]. split; [apply lookup_insert_eq|done].
  - intros _. unfold d2, d1, trimmed. simpl. rewrite <- F2.
    replace (Z.to_nat (Z.of_nat (length (it_data first)) - 2)) with (length (it_data first) - 2)%nat by lia.
    apply splice_join; lia.
Qed.

Lemma copy_chunks_ok s0 m0 lru0 sp si n i :
  store_rep hash s0 m0 lru0 refs -> no_crawler s0 m0 -> heap s0 !! sp = Some si -> heap s0 !! new_p = Some i ->
  2 <= it_nbytes i -> 0 <= chunk_room i -> 0 <= n <= Z.of_nat (length (it_data si)) ->
  exists ok s' d c, store_item_copy_chunks hash cfg hv e new_p sp n s0 = Ret (ok, s') /\
    grown hash (holding hv e) new_p s0 m0 refs s' (filled d c (value_of i)) /\ 0 <= v_room (filled d c (value_of i)) /\
    (ok = true -> d = it_data i ++ take (Z.to_nat n) (it_data si)).
Proof.
  intros R0 Hc0 Hsp Hnp Hnb Hr Hlen. unfold store_item_copy_chunks. rewrite (get_item_ok _ _ _ Hsp). cbn [mbind outcome_bind].
  rewrite (proj2 (Z.ltb_ge n 0)) by lia. apply (copy_chunks_loop_ok hv e refs new_p Hroom Hheld Hmax _ _ _ _ s0 m0 lru0 i); try done.
  unfold turns. repeat case_match; lia.
Qed.

Lemma copy_chunked : it_data new = [] -> it_chunks new = [] ->
  exists ok s', ('(ok, s) ← store_item_copy_chunks hash cfg hv e new_p fst_p (it_nbytes first - 2) s;
    if ok : bool then store_item_copy_chunks hash cfg hv e new_p snd_p (it_nbytes snd) s else Ret (false, s)) = Ret (ok, s') /\ copied ok s'.
Proof.
  intros Hd Hch. destruct Vf as [F1 F2], Vs as [S1 S2]. simpl in *.
  destruct (copy_chunks_ok s m lru fst_p first (it_nbytes first - 2) new R Hc Hf Hn) as (ok & s1 & d1 & c1 & -> & Hg & Hr & Hd1);
    [lia|unfold chunk_room; by rewrite Hd, Hch|lia|].
  cbn [mbind outcome_bind]. destruct ok; [|by exists false, s1; split; [done|]; exists d1, c1].
  specialize (Hd1 eq_refl). rewrite Hd, app_nil_l in Hd1. subst d1.
  destruct Hg as (m1 & lru1 & new1 & R1 & D1 & K1 & G1 & Hn1 & V1).
  destruct (store_held _ _ _ _ _ snd_p R1 Hsnd) as (snd1 & Hs1). destruct (K1 snd_p snd1 (not_eq_sym Ns) Hs1) as (x & Ex & Vx).
  assert (x = snd) as -> by congruence. assert (it_data snd1 = it_data snd) as Ed by exact (f_equal v_data Vx).
  assert (it_nbytes new1 = it_nbytes new) as En by exact (f_equal v_nbytes V1).
  destruct (copy_chunks_ok s1 m1 lru1 snd_p snd1 (it_nbytes snd) new1 R1) as (ok & s2 & d2 & c2 & E2 & Hg2 & _ & Hd2); try done.
  { apply (no_crawler_but new_p s m s1 m1 new1); try done; [apply D1|lia]. }
  { lia. }
  { change (0 <= v_room (value_of new1)). by rewrite V1. }
  { rewrite Ed. lia. }
  exists ok, s2. split; [exact E2|]. exists d2, c2. rewrite V1 in Hg2. split; [eapply grown_step; [exact D1|exact K1|exact G1|exact Hg2]|].
  intros ->. rewrite (Hd2 eq_refl), Ed. apply (f_equal v_data) in V1. simpl in V1. rewrite V1. unfold trimmed. simpl. f_equal.
  apply take_ge. lia.
Qed.
End Copy.

Lemma copy_data_ok hv e comm s m lru refs old_p p new_p old it new :
  store_rep hash s m lru refs -> no_crawler s m -> room refs -> 48 < slab_chunk_size_max cfg ->
  heap s !! old_p = Some old -> heap s !! p = Some it -> heap s !! new_p = Some new -> new_p <> old_p -> new_p <> p ->
  0 < refs old_p -> 0 < refs p -> 0 < refs new_p ->
  value_ok (value_of old) -> value_ok (value_of it) -> it_nbytes new = it_nbytes it + it_nbytes old - 2 ->
  Z.of_nat (length (it_data new)) = (if has_flag ITEM_CHUNKED new then 0 else it_nbytes new) -> it_chunks new = [] ->
  (has_flag ITEM_CHUNKED new = false -> has_flag ITEM_CHUNKED old = false /\ has_flag ITEM_CHUNKED it = false) ->
  exists ok s' d c, store_item_copy_data hash cfg hv e comm old_p new_p p s = Ret (ok, s') /\
    grown hash (holding hv e) new_p s m refs s' (filled d c (value_of new)) /\
    (ok = true -> d = joined_data comm (value_of old) (value_of it)).
Proof.
  intros R Hc Hroom Hmax Ho Hp Hn No Np Ro Rp Rn Vo Vi Hsize Hlen Hchunks Hch. unfold store_item_copy_data, joined_data.
  rewrite (get_item_ok _ _ _ Ho), (get_item_ok _ _ _ Hn), (get_item_ok _ _ _ Hp). cbn [mbind outcome_bind].
  assert (has_flag ITEM_CHUNKED new = true -> it_data new = []) as Hnil.
  { intros H. rewrite H in Hlen. apply nil_length_inv. lia. }
  destruct (bool_decide (comm = NREAD_APPEND)); destruct (has_flag ITEM_CHUNKED new) eqn:Hf.
  - destruct (copy_chunked hv e s m lru refs old_p p new_p old it new) as (ok & s' & E & d & c & H); auto; [lia|].
    by exists ok, s', d, c.
  - destruct (Hch eq_refl) as [C1 C2]. destruct (copy_plain hv e s m lru refs old_p p new_p old it new) as (s' & E & d & c & H); auto; [lia|].
    by exists true, s', d, c.
  - destruct (copy_chunked hv e s m lru refs p old_p new_p it old new) as (ok & s' & E & d & c & H); auto.
    by exists ok, s', d, c.
  - destruct (Hch eq_refl) as [C1 C2]. destruct (copy_plain hv e s m lru refs p old_p new_p it old new) as (s' & E & d & c & H); auto.
    by exists true, s', d, c.
Qed.

(** ** The specification of the storage commands *)

Definition joins (comm : nread) : bool :=
  match comm with NREAD_APPEND | NREAD_PREPEND => true | _ => false end.

Definition with_exptime (t : Z) (v : value) : value :=
  mkValue (v_key v) (v_nbytes v) t (v_has_cas v) (v_cas v) (v_cflags v) (v_data v) (v_mac v) (v_index v) (v_chunked v) (v_chunks v).

(** What append and prepend store.  Nothing is said of its authentication code and its leaf. *)
Definition joined (comm : nread) (c : Z) (old v w : value) : Prop :=
  v_key w = v_key v /\ v_nbytes w = v_nbytes v + v_nbytes old - 2 /\ v_exptime w = v_exptime old /\
  v_cflags w = v_cflags old /\ v_data w = joined_data comm old v /\
  v_has_cas w = use_cas cfg /\ v_cas w = if use_cas cfg then c else 0.

(** The answer, and the value the key gets, if it gets one; [c] is the next CAS number. *)
Definition store_spec (comm : nread) (set_stale : bool) (c : Z) (v : value) (old : option value)
    : store_item_type * option (value -> Prop) :=
  let store := (STORED, Some (eq (relinked c v))) in
  match old with
  | None =>
      match comm with
      | NREAD_ADD | NREAD_SET => store
      | NREAD_CAS => (NOT_FOUND, None)
      | NREAD_REPLACE | NREAD_APPEND | NREAD_PREPEND => (NOT_STORED, None)
      end
  | Some o =>
      match comm with
      | NREAD_ADD => (NOT_STORED, None)
      | NREAD_SET | NREAD_REPLACE => store
      | NREAD_CAS =>
          if v_cas v =? 0 then (EXISTS, None)
          else if v_cas v =? v_cas o then store
          else if set_stale && (v_cas v <? v_cas o) then (STORED, Some (eq (relinked c (with_exptime (v_exptime o) v))))
          else (EXISTS, None)
      | NREAD_APPEND | NREAD_PREPEND =>
          if (v_cas v =? 0) || (v_cas v =? v_cas o) then (STORED, Some (joined comm c o v)) else (EXISTS, None)
      end
  end.

(** The cases by the result of the CAS test. *)
Lemma store_spec_found comm set_stale c v o :
  store_spec comm set_stale c v (Some o) =
  match comm, cas_test set_stale (v_cas v) (v_cas o) with
  | NREAD_ADD, _ => (NOT_STORED, None)
  | NREAD_SET, _ | NREAD_REPLACE, _ | NREAD_CAS, CAS_MATCH => (STORED, Some (eq (relinked c v)))
  | NREAD_CAS, CAS_STALE => (STORED, Some (eq (relinked c (with_exptime (v_exptime o) v))))
  | NREAD_CAS, _ => (EXISTS, None)
  | (NREAD_APPEND | NREAD_PREPEND), (CAS_NONE | CAS_MATCH) => (STORED, Some (joined comm c o v))
  | (NREAD_APPEND | NREAD_PREPEND), _ => (EXISTS, None)
  end.
Proof.
  unfold store_spec, cas_test. by destruct comm, (v_cas v =? 0), (v_cas v =? v_cas o), (set_stale && (v_cas v <? v_cas o)).
Qed.

(** Nothing was stored for [k]: an item that had expired is gone. *)
Definition unchanged (k : list Z) s m (cas : option Z) s' m' : Prop :=
  cas = None /\ value_at s' m' k = live_at s m k /\ total_items s' = total_items s.

(** A value that satisfies [P] was stored for [k]. *)
Definition changed (P : value -> Prop) (k : list Z) s (cas : option Z) s' m' : Prop :=
  exists w, value_at s' m' k = Some w /\ P w /\ cas = Some (v_cas w) /\ total_items s' = u64 (total_items s + 1).

(** The caller's item [p] is still there with its value. *)
Definition holds_payload (p : positive) (v : value) s' : Prop :=
  exists it', heap s' !! p = Some it' /\ item_key it' = v_key v /\ it_nbytes it' = v_nbytes v /\
    it_data it' = v_data v /\ has_flag ITEM_CHUNKED it' = v_chunked v.

Definition store_result (comm : nread) (set_stale : bool) (p : positive) (v : value) s m refs
    (ret : store_item_type) (cas : option Z) s' m' lru' : Prop :=
  let k := v_key v in
  store_rep hash s' m' lru' refs /\ holds_payload p v s' /\
  (forall k', k' <> k -> value_at s' m' k' = value_at s m k' \/ (joins comm = true /\ m' !! k' = None)) /\
  match store_spec comm set_stale (new_cas cfg s) v (live_at s m k) with
  | (r, None) => ret = r /\ unchanged k s m cas s' m' /\ m' !! k <> Some p
  | (r, Some P) =>
      (ret = r /\ changed P k s cas s' m' /\ (joins comm = false -> m' !! k = Some p)) \/
      (joins comm = true /\ ret = NOT_STORED /\ unchanged k s m cas s' m')
  end.

Lemma value_at_some s m lru refs k p i :
  store_rep hash s m lru refs -> m !! k = Some p -> heap s !! p = Some i -> value_at s m k = Some (value_of i).
Proof. intros R Hk Hp. unfold value_at. by rewrite Hk, Hp. Qed.

Lemma payload_of p v s' it' : heap s' !! p = Some it' ->
  (value_of it' = v \/ exists c, value_of it' = relinked c v) -> holds_payload p v s'.
Proof. intros Hp H. exists it'. split; [done|]. destruct H as [<-|[c H]]; [done|]. by injection H as -> -> _ _ _ _ -> _ _ ->. Qed.

(** Replacing the item a lookup found. *)
Lemma replace_found s m s2 lru2 refs old_p p it2 v :
  let k := item_key it2 in
  m !! k = Some old_p -> store_rep hash s2 m lru2 (set_refs old_p (refs old_p + 1) refs) -> below 2 refs -> 0 <= refs old_p ->
  keeps_but p (heap s) (heap s2) -> same_globals s s2 ->
  heap s2 !! p = Some it2 -> linked it2 = false -> value_of it2 = v ->
  exists s3 s4 lru4 it4, do_item_replace cfg old_p p (hash k) s2 = Ret s3 /\ do_item_remove old_p s3 = Ret s4 /\
    heap s4 !! p = Some it4 /\ value_of it4 = relinked (new_cas cfg s) v /\
    store_rep hash s4 (<[k := p]> m) lru4 refs /\ keeps_but p (heap s) (heap s4) /\
    (forall k', k' <> k -> value_at s4 (<[k := p]> m) k' = value_at s m k') /\
    changed (eq (relinked (new_cas cfg s) v)) k s (Some (ITEM_get_cas it4)) s4 (<[k := p]> m).
Proof.
  intros k Hk R2 Hb Hr K2 [G1 G2] Hp Hl Hv.
  destruct (store_over s2 m lru2 _ k old_p p it2 R2 Hk) as (s3 & s4 & lru4 & it4 & E3 & E4 & R4 & K4 & Hp4 & V4 & T4); try done.
  { rewrite set_refs_eq. lia. }
  { apply below_set; [by apply (below_le 2); [|lia]|]. specialize (Hb old_p). lia. }
  assert (new_cas cfg s2 = new_cas cfg s) as Hc by (unfold new_cas; by rewrite G2).
  rewrite Hc, Hv in V4.
  assert (store_rep hash s4 (<[k := p]> m) lru4 refs) as R4'.
  { eapply store_rep_refs; [exact R4|]. intros q. unfold set_refs. repeat case_decide; subst; lia || done. }
  assert (keeps_but p (heap s) (heap s4)) as K by by eapply keeps_but_trans.
  exists s3, s4, lru4, it4. split_and!; try done.
  - intros k' Hk'. eapply (value_at_same s m s4 _ lru4); [exact R4'|by rewrite lookup_insert_ne|].
    intros q i' Hq Ei'. apply (K q i'); [|done].
    intros ->.
    destruct (sr_item _ _ _ _ _ R2 k' p Hq) as (x & Ex & Kx). assert (x = it2) as -> by congruence. by apply Hk'.
  - exists (relinked (new_cas cfg s) v). rewrite (value_at_some s4 _ lru4 refs k p it4); try done; [|apply lookup_insert_eq].
    split; [by rewrite V4|]. split; [done|]. split; [by rewrite <- V4|]. rewrite T4, G1. done.
Qed.

(** Nothing is stored: the reference the lookup took is dropped. *)
Lemma finish_none s m s2 m2 lru2 refs old_p k o ret p v :
  m2 !! k = Some old_p -> m !! k = Some old_p -> live_at s m k = Some o -> value_at s m k = Some o ->
  store_rep hash s2 m2 lru2 (set_refs old_p (refs old_p + 1) refs) -> 0 <= refs old_p -> 0 < refs p -> p <> old_p ->
  keeps (heap s) (heap s2) -> same_globals s s2 -> value_of <$> heap s !! p = Some v ->
  exists s', finish_store cfg old_p (hash k) (None, None, ret, s2) = Ret (ret, None, s') /\
    store_rep hash s' m2 lru2 refs /\ holds_payload p v s' /\ keeps (heap s) (heap s') /\ unchanged k s m None s' m2.
Proof.
  intros Hk2 Hk Ho Hv R2 Hr Hrp Hne K2 G2 Hp.
  destruct (release s2 m2 lru2 _ old_p R2) as (s' & E & R' & K' & G'); [rewrite set_refs_eq; lia|].
  assert (store_rep hash s' m2 lru2 refs) as R''.
  { eapply store_rep_refs; [exact R'|]. intros q. unfold set_refs. repeat case_decide; subst; lia || done. }
  assert (keeps (heap s) (heap s')) as K by by eapply keeps_trans.
  exists s'. split; [unfold finish_store; cbn [mbind outcome_bind]; rewrite E; done|]. split; [done|].
  split; [|split; [done|split; [done|split; [|destruct G2, G'; congruence]]]].
  - destruct (store_held _ _ _ _ _ p R'' Hrp) as (it' & Hp'). destruct (K p it' Hp') as (x & Ex & Vx).
    rewrite Ex in Hp. injection Hp as <-. eapply payload_of; [exact Hp'|by left].
  - rewrite Ho, <- Hv. eapply value_at_same; [exact R''|congruence|]. intros q i' _. apply K.
Qed.

(** The bounds under which values can be joined. *)
Definition joinable (v o : value) : Prop :=
  value_ok v /\ value_ok o /\ v_nbytes v + v_nbytes o < 2 ^ 31 /\ 48 < slab_chunk_size_max cfg /\
  (is_large cfg (v_key v) (v_cflags o) (v_nbytes v + v_nbytes o - 2) = false -> v_chunked v = false /\ v_chunked o = false).

Lemma reclaimed_value s m m2 hv e k : reclaimed hash (holding hv e) m m2 -> value_at s m2 k = value_at s m k \/ m2 !! k = None.
Proof.
  intros [Hsub _]. destruct (m2 !! k) as [q|] eqn:E; [left|by right]. unfold value_at.
  by rewrite E, (lookup_weaken _ _ _ _ E Hsub).
Qed.

Section Join.
Context (e : env) (comm : nread) (s s1 : store T) (m : gmap (list Z) positive) (lru1 : Z -> list positive) (refs : positive -> Z).
Context (old_p p : positive) (it old : item) (v o : value).
Context (Hb : below 2 refs) (Hrp : 0 < refs p) (Hro : 0 <= refs old_p) (Hne : p <> old_p).
Context (R1 : store_rep hash s1 m lru1 (set_refs old_p (refs old_p + 1) refs)).
Context (K1 : keeps (heap s) (heap s1)) (G1 : same_globals s s1) (Hc : no_crawler s1 m).
Context (Hp : heap s1 !! p = Some it) (Hl : linked it = false) (Hv : value_of it = v).
Context (Hold : heap s1 !! old_p = Some old) (Ho : value_of old = o).
Context (Hk : m !! v_key v = Some old_p) (Hlive : live_at s m (v_key v) = Some o) (Hval : value_at s m (v_key v) = Some o).
Context (Hps : value_of <$> heap s !! p = Some v) (Hj : joinable v o).

(** The results of append and prepend: joined, or out of memory. *)
Definition join_result (ret : store_item_type) (cas : option Z) s' m' : Prop :=
  (ret = STORED /\ changed (joined comm (new_cas cfg s) o v) (v_key v) s cas s' m') \/
  (ret = NOT_STORED /\ unchanged (v_key v) s m cas s' m').

Let hv := hash (v_key v).

Lemma join_alloc_failed s2 m2 lru2 :
  store_rep hash s2 m2 lru2 (set_refs old_p (refs old_p + 1) refs) -> reclaimed hash (holding hv e) m m2 ->
  keeps (heap s1) (heap s2) -> same_globals s1 s2 ->
  exists ret cas s' m' lru', finish_store cfg old_p hv (None, None, NOT_STORED, s2) = Ret (ret, cas, s') /\
    store_rep hash s' m' lru' refs /\ holds_payload p v s' /\ reclaimed hash (holding hv e) m m' /\
    keeps (heap s) (heap s') /\ join_result ret cas s' m'.
Proof.
  intros R2 D2 K2 G2.
  assert (m2 !! v_key v = Some old_p) as Hk2.
  { rewrite (proj2 D2); [done|]. unfold holding, hv. by rewrite Z.eqb_refl, andb_false_r. }
  destruct (finish_none s m s2 m2 lru2 refs old_p (v_key v) o NOT_STORED p v) as (s' & E & R' & P & K & U); try done.
  { by eapply keeps_trans. } { by eapply same_globals_trans. }
  exists NOT_STORED, None, s', m2, lru2. split_and!; try done. by right.
Qed.

(** The new item [new_p] is filled. *)
Section Filled.
Context (s3 : store T) (m2 : gmap (list Z) positive) (lru2 : Z -> list positive) (new_p : positive) (new : item).
Context (R3 : store_rep hash s3 m2 lru2 (set_refs new_p 1 (set_refs old_p (refs old_p + 1) refs))).
Context (D2 : reclaimed hash (holding hv e) m m2) (Hnew : refs new_p = 0) (Nold : new_p <> old_p) (Np : new_p <> p).
Context (K3 : keeps_but new_p (heap s) (heap s3)) (G3 : same_globals s s3) (Hn : heap s3 !! new_p = Some new).
Context (Nl : linked new = false) (Nk : item_key new = v_key v).

Lemma join_key : m2 !! v_key v = Some old_p.
Proof. rewrite (proj2 D2); [done|]. unfold holding, hv. by rewrite Z.eqb_refl, andb_false_r. Qed.

(** Dropping the reference to the new item. *)
Lemma drop_new s4 m4 lru4 : store_rep hash s4 m4 lru4 (set_refs new_p 1 refs) ->
  exists s5, do_item_remove new_p s4 = Ret s5 /\ store_rep hash s5 m4 lru4 refs /\ keeps (heap s4) (heap s5) /\ same_globals s4 s5.
Proof.
  intros R4. destruct (release s4 m4 lru4 _ new_p R4) as (s5 & E & R5 & K & G); [rewrite set_refs_eq; lia|].
  exists s5. split; [done|]. split; [|done]. eapply store_rep_refs; [exact R5|].
  intros q. unfold set_refs. repeat case_decide; subst; lia || done.
Qed.

Lemma payload_held s5 m5 lru5 : store_rep hash s5 m5 lru5 refs -> keeps_but new_p (heap s) (heap s5) -> holds_payload p v s5.
Proof.
  intros R5 K5. destruct (store_held _ _ _ _ _ p R5 Hrp) as (it' & Hp'). destruct (K5 p it' (not_eq_sym Np) Hp') as (x & Ex & Vx).
  rewrite Ex in Hps. injection Hps as <-. eapply payload_of; [exact Hp'|by left].
Qed.

Lemma refs_swap q : set_refs old_p (set_refs new_p 1 refs old_p + 1) (set_refs new_p 1 refs) q =
  set_refs new_p 1 (set_refs old_p (refs old_p + 1) refs) q.
Proof. unfold set_refs. repeat case_decide; subst; done. Qed.

Lemma join_stored :
  joined comm (new_cas cfg s) o v (relinked (new_cas cfg s) (value_of new)) ->
  exists cas s' m' lru', finish_store cfg old_p hv (Some new_p, Some new_p, NOT_STORED, s3) = Ret (STORED, cas, s') /\
    store_rep hash s' m' lru' refs /\ holds_payload p v s' /\
    (forall k', k' <> v_key v -> value_at s' m' k' = value_at s m k' \/ m' !! k' = None) /\
    join_result STORED cas s' m'.
Proof.
  intros HJ. destruct (replace_found s m2 s3 lru2 (set_refs new_p 1 refs) old_p new_p new (value_of new))
    as (s4 & s5 & lru5 & it5 & E4 & E5 & Hp5 & V5 & R5 & K5 & O5 & w & Hw & <- & Hcas & HT); try done.
  { rewrite Nk. apply join_key. }
  { eapply store_rep_refs; [exact R3|]. apply refs_swap. }
  { apply below_set; [done|]. unfold IT_REFCOUNT_LIMIT. lia. }
  { rewrite set_refs_ne by done. lia. }
  rewrite Nk in *. destruct (drop_new s5 _ _ R5) as (s6 & E6 & R6 & K6 & G6).
  destruct (sr_item _ _ _ _ _ R6 (v_key v) new_p) as (it6 & Hp6 & _); [apply lookup_insert_eq|].
  destruct (K6 new_p it6 Hp6) as (x & Ex & V6). assert (x = it5) as -> by congruence.
  exists (Some (ITEM_get_cas it6)), s6, (<[v_key v := new_p]> m2), lru5. split_and!; try done.
  - unfold finish_store, hv. rewrite E4. cbn [mbind outcome_bind]. rewrite E5. cbn [mbind outcome_bind]. rewrite E6.
    cbn [mbind outcome_bind]. by rewrite (get_item_ok _ _ _ Hp6).
  - apply (payload_held s6 _ lru5 R6). intros q j Hq Ej. destruct (K6 q j Ej) as (j5 & Ej5 & Vj5).
    destruct (K5 q j5 Hq Ej5) as (j0 & Ej0 & Vj0). exists j0. split; [done|congruence].
  - intros k' Hk'. destruct (reclaimed_value s m m2 hv e k' D2) as [H|H]; [left|right; by rewrite lookup_insert_ne].
    rewrite <- H, <- (O5 k' Hk'). eapply value_at_same; [exact R6|done|]. intros q i' _. apply K6.
  - left. split; [done|]. exists (value_of it5). split.
    + rewrite (value_at_some s6 _ lru5 refs (v_key v) new_p it6); try done; [by rewrite V6|apply lookup_insert_eq].
    + rewrite V5. split; [done|]. split; [|by rewrite (proj1 G6)]. f_equal. change (ITEM_get_cas it6) with (v_cas (value_of it6)).
      by rewrite V6, V5.
Qed.

Lemma join_copy_failed :
  exists cas s' m' lru', finish_store cfg old_p hv (None, Some new_p, NOT_STORED, s3) = Ret (NOT_STORED, cas, s') /\
    store_rep hash s' m' lru' refs /\ holds_payload p v s' /\
    (forall k', k' <> v_key v -> value_at s' m' k' = value_at s m k' \/ m' !! k' = None) /\
    join_result NOT_STORED cas s' m'.
Proof.
  destruct (release s3 m2 lru2 _ old_p R3) as (s4 & E4 & R4 & K4 & G4).
  { rewrite set_refs_ne, set_refs_eq by done. lia. }
  destruct (drop_new s4 m2 lru2) as (s5 & E5 & R5 & K5 & G5).
  { eapply store_rep_refs; [exact R4|]. intros q. unfold set_refs. repeat case_decide; subst; lia || done. }
  assert (keeps_but new_p (heap s) (heap s5)) as K.
  { eapply keeps_but_trans; [exact K3|]. apply keeps_keeps_but. by eapply keeps_trans. }
  assert (forall k' , m2 !! k' <> Some new_p) as Hno.
  { intros k' H. destruct (sr_item _ _ _ _ _ R3 k' new_p H) as (x & Ex & Kx). assert (x = new) as -> by congruence.
    rewrite <- Kx in H. apply (sr_flag _ _ _ _ _ R3 new_p new Hn) in H. congruence. }
  assert (forall k', value_at s5 m2 k' = value_at s m2 k') as HV.
  { intros k'. eapply value_at_same; [exact R5|done|]. intros q i' Hq. apply K. intros ->. by apply (Hno k'). }
  exists None, s5, m2, lru2. split_and!; try done.
  - unfold finish_store. cbn [mbind outcome_bind]. rewrite E4. cbn [mbind outcome_bind]. by rewrite E5.
  - by apply (payload_held s5 m2 lru2).
  - intros k' _. rewrite HV. by apply (reclaimed_value s m m2 hv e).
  - right. split; [done|]. split; [done|]. split.
    + rewrite HV, Hlive, <- Hval. unfold value_at. by rewrite join_key, Hk.
    + destruct G3, G4, G5. congruence.
Qed.
End Filled.

(** The item was allocated: it is filled and stored, or dropped again. *)
Lemma join_copy_ok new_p s2 :
  let nb := v_nbytes v + v_nbytes o - 2 in
  alloc_result hash cfg (holding hv e) (v_key v) (v_cflags o) (v_exptime o) nb s1 m (set_refs old_p (refs old_p + 1) refs) (Some new_p) s2 ->
  exists ret cas s' m' lru', ('(ok, s3) ← store_item_copy_data hash cfg hv e comm old_p new_p p s2;
      finish_store cfg old_p hv (if ok : bool then Some new_p else None, Some new_p, NOT_STORED, s3)) = Ret (ret, cas, s') /\
    store_rep hash s' m' lru' refs /\ holds_payload p v s' /\
    (forall k', k' <> v_key v -> value_at s' m' k' = value_at s m k' \/ m' !! k' = None) /\
    join_result ret cas s' m'.
Proof.
  intros nb (m2 & lru2 & new & R2 & D2 & Hr0 & Hno & K2 & G2 & Hn & Hfresh).
  destruct Hj as (Vv & Vo & Hsum & Hmax & Hlarge). fold nb in Hlarge. pose proof Vv as [Vv1 Vv2]. pose proof Vo as [Vo1 Vo2].
  assert (new_p <> old_p /\ new_p <> p) as [Nold Np].
  { split; intros ->; [rewrite set_refs_eq in Hr0; lia|rewrite set_refs_ne in Hr0 by done; lia]. }
  rewrite set_refs_ne in Hr0 by done.
  destruct (store_linked _ _ _ _ _ _ _ R2 (join_key m2 D2)) as (old2 & Hold2 & _).
  destruct (store_held _ _ _ _ _ p R2) as (it2 & Hp2); [by rewrite !set_refs_ne by done|].
  destruct (K2 old_p old2 (not_eq_sym Nold) Hold2) as (x & Hx & V1). assert (x = old) as -> by congruence.
  destruct (K2 p it2 (not_eq_sym Np) Hp2) as (x & Hx2 & V2). assert (x = it) as -> by congruence.
  rewrite Ho in V1. rewrite Hv in V2. destruct Hfresh as [Fk Fn Fe Fl Fs Fr Fc Ff Fch Fd Fcs].
  destruct (copy_data_ok hv e comm s2 m2 lru2 _ old_p p new_p old2 it2 new R2) as (ok & s3 & d & c & -> & Hg & Hd); try done.
  { apply (no_crawler_but new_p s1 m s2 m2 new); try done; [apply D2|]. unfold nb in Fn. lia. }
  { apply (below_room 1); [|lia]. apply below_set; [|unfold IT_REFCOUNT_LIMIT; lia]. apply below_set; [by apply (below_le 2); [|lia]|].
    specialize (Hb old_p). lia. }
  { rewrite set_refs_ne, set_refs_eq by done. lia. } { by rewrite !set_refs_ne by done. } { rewrite set_refs_eq. lia. }
  { by rewrite V1. } { by rewrite V2. }
  { rewrite Fn. unfold nb. rewrite <- V1, <- V2. done. }
  { rewrite Fd, Fch, Fn. destruct (is_large _ _ _ _); [done|]. unfold nb. lia. }
  { rewrite Fch. intros H. destruct (Hlarge H) as [H1 H2]. rewrite <- V1 in H2. rewrite <- V2 in H1. done. }
  cbn [mbind outcome_bind]. destruct Hg as (m3 & lru3 & new3 & R3 & D3 & K3 & G3 & Hn3 & V3).
  assert (keeps_but new_p (heap s) (heap s3)) as Ks.
  { eapply keeps_but_trans; [apply keeps_keeps_but, K1|]. by eapply keeps_but_trans. }
  assert (same_globals s s3) as Gs by (eapply same_globals_trans; [exact G1|by eapply same_globals_trans]).
  assert (linked new3 = false) as L3.
  { destruct (linked new3) eqn:L; [|done]. apply (sr_flag _ _ _ _ _ R3 new_p new3 Hn3) in L.
    exfalso. apply (Hno (item_key new3)). eapply lookup_weaken; [exact L|apply D3]. }
  assert (item_key new3 = v_key v) as Fk3 by (rewrite <- Fk; exact (f_equal v_key V3)).
  assert (reclaimed hash (holding hv e) m m3) as D23 by (by eapply reclaimed_trans).
  destruct ok.
  - destruct (join_stored s3 m3 lru3 new_p new3 R3 D23 Hr0 Nold Np Ks Gs Hn3 L3 Fk3) as (cas & s' & m' & lru' & H).
    { unfold joined. rewrite V3, (Hd eq_refl), V1, V2.
      split_and!; [exact Fk|exact Fn|exact Fe|exact Ff|reflexivity|exact Fc|].
      change (v_cas _) with (if has_flag ITEM_CAS new then new_cas cfg s else 0). by rewrite Fc. }
    by exists STORED, cas, s', m', lru'.
  - destruct (join_copy_failed s3 m3 lru3 new_p new3 R3 D23 Hr0 Nold Np Ks Gs Hn3 L3 Fk3) as (cas & s' & m' & lru' & H).
    by exists NOT_STORED, cas, s', m', lru'.
Qed.

Lemma join_ok cas_res : joins comm = true -> cas_res = CAS_NONE \/ cas_res = CAS_MATCH ->
  exists ret cas s' m' lru', (r ← switch_old hash cfg e p old_p comm cas_res hv s1; finish_store cfg old_p hv r) = Ret (ret, cas, s') /\
    store_rep hash s' m' lru' refs /\ holds_payload p v s' /\
    (forall k', k' <> v_key v -> value_at s' m' k' = value_at s m k' \/ m' !! k' = None) /\
    join_result ret cas s' m'.
Proof.
  intros Hcomm Hcas. destruct Hj as (Vv & Vo & Hsum & Hmax & Hlarge). pose proof Vv as [Vv1 Vv2]. pose proof Vo as [Vo1 Vo2].
  assert (bool_decide (cas_res <> CAS_NONE) && bool_decide (cas_res <> CAS_MATCH) = false) as Hcr by (destruct Hcas as [-> | ->]; done).
  assert (item_key it = v_key v /\ it_nbytes it = v_nbytes v /\ it_nbytes old = v_nbytes o /\ FLAGS_CONV old = v_cflags o /\
    it_exptime old = v_exptime o) as (Ek & En & Eo & Ef & Ex) by (subst v o; done).
  assert (forall x, - 2 ^ 31 <= x < 2 ^ 31 -> c_int x = Ret x) as Hint.
  { intros x Hx. unfold c_int. by rewrite (proj2 (Z.leb_le _ _)), (proj2 (Z.ltb_lt _ _)) by lia. }
  set (nb := v_nbytes v + v_nbytes o - 2) in *.
  destruct (do_item_alloc_ok hash cfg (holding hv e) no_repair (v_key v) (v_cflags o) (v_exptime o) nb s1 m lru1
    (set_refs old_p (refs old_p + 1) refs)) as (r & s2 & Ea & Hres & _); [| |done|].
  { apply (below_room 1); [|lia]. apply below_set; [by apply (below_le 2); [|lia]|]. specialize (Hb old_p). lia. }
  { done. }
  assert ((r ← switch_old hash cfg e p old_p comm cas_res hv s1; finish_store cfg old_p hv r) =
    match r with
    | None => finish_store cfg old_p hv (None, None, NOT_STORED, s2)
    | Some new_p => '(ok, s3) ← store_item_copy_data hash cfg hv e comm old_p new_p p s2;
        finish_store cfg old_p hv (if ok : bool then Some new_p else None, Some new_p, NOT_STORED, s3)
    end) as ->.
  { unfold switch_old. destruct comm; try discriminate Hcomm;
      rewrite Hcr, (get_item_ok _ _ _ Hp); cbn [mbind outcome_bind]; rewrite (get_item_ok _ _ _ Hold); cbn [mbind outcome_bind];
      rewrite Ek, En, Eo, Ef, Ex, !Hint by (unfold nb; lia); cbn [mbind outcome_bind]; fold nb;
      rewrite Hint by (unfold nb; lia); cbn [mbind outcome_bind]; rewrite Ea; cbn [mbind outcome_bind];
      (destruct r as [new_p|]; cbn [mbind outcome_bind]; [|done]); by destruct (store_item_copy_data _ _ _ _ _ _ _ _ _) as [[ok s3]| |]. }
  destruct r as [new_p|].
  2:{ destruct Hres as (m2 & lru2 & R2 & D2 & K2 & G2).
      destruct (join_alloc_failed s2 m2 lru2 R2 D2 K2 G2) as (ret & cas & s' & m' & lru' & E & R' & P & D & K & J).
      exists ret, cas, s', m', lru'. split_and!; try done. intros k' _.
      destruct (reclaimed_value s m m' hv e k' D) as [H|H]; [left|by right].
      rewrite <- H. eapply value_at_same; [exact R'|done|]. intros q i' _. apply K. }
  by apply join_copy_ok.
Qed.
End Join.

(** ** Every command *)

(** What a command may assume of the item it is given and of the one it finds. *)
Definition store_ready s m refs (p : positive) (it : item) (comm : nread) : Prop :=
  below 2 refs /\ no_crawler s m /\ heap s !! p = Some it /\ linked it = false /\ 0 < refs p /\
  (joins comm = true -> forall o, live_at s m (item_key it) = Some o -> joinable (value_of it) o).

(** The key had no live item. *)
Lemma store_absent e set_stale s s1 m m1 lru1 refs p it it1 comm :
  live_at s m (item_key it) = None -> m1 !! item_key it = None -> store_rep hash s1 m1 lru1 refs -> same_but (item_key it) m m1 ->
  keeps (heap s) (heap s1) -> same_globals s s1 -> below 2 refs -> 0 < refs p ->
  heap s !! p = Some it -> linked it = false ->
  heap s1 !! p = Some it1 -> value_of it1 = value_of it -> linked it1 = false ->
  exists ret cas s' m' lru', match comm with
      | NREAD_ADD | NREAD_SET => s ← do_item_link cfg p (hash (item_key it)) s1; it ← get_item p s; Ret (STORED, Some (ITEM_get_cas it), s)
      | NREAD_CAS => Ret (NOT_FOUND, None, s1)
      | NREAD_REPLACE | NREAD_APPEND | NREAD_PREPEND => Ret (NOT_STORED, None, s1)
      end = Ret (ret, cas, s') /\ store_result comm set_stale p (value_of it) s m refs ret cas s' m' lru'.
Proof.
  intros Hlive Hm1 R1 Hsame K1 G1 Hb Hr Hp Hl Hp1 V1 Hl1. set (k := item_key it) in *.
  assert (item_key it1 = k) as Hk1 by (apply (f_equal v_key) in V1; exact V1).
  assert (forall k', k' <> k -> value_at s1 m1 k' = value_at s m k') as Hother.
  { intros k' Hk'. eapply value_at_same; [exact R1|by apply Hsame|]. intros q i' _. apply K1. }
  assert (unchanged k s m None s1 m1) as U.
  { split; [done|]. split; [|by destruct G1]. rewrite Hlive. unfold value_at. by rewrite Hm1. }
  assert (holds_payload p (value_of it) s1) as P1 by (eapply payload_of; [exact Hp1|by left]).
  unfold store_result. simpl v_key. fold k. rewrite Hlive.
  destruct comm; cbn [store_spec].
  3-6: eexists _, None, s1, m1, lru1; split; [done|]; split; [exact R1|]; split; [exact P1|];
    split; [intros k' Hk'; left; by apply Hother|]; split; [done|]; split; [done|]; rewrite Hm1; discriminate.
  all: destruct (sr_refs _ _ _ _ _ R1 p it1 Hp1) as (E & _); rewrite Hl1 in E; specialize (Hb p); unfold IT_REFCOUNT_LIMIT in Hb;
    destruct (do_item_link_ok hash cfg s1 m1 lru1 refs p it1 R1 Hp1 Hl1) as (s' & lru' & it' & E' & R' & K' & Hp' & V' & T');
    [by rewrite Hk1|lia|]; rewrite Hk1 in E', R'; rewrite E'; cbn [mbind outcome_bind]; rewrite (get_item_ok _ _ _ Hp');
    cbn [mbind outcome_bind].
  all: assert (new_cas cfg s1 = new_cas cfg s) as Hc by (unfold new_cas; by rewrite (proj2 G1)); rewrite Hc, V1 in V'.
  all: eexists STORED, _, s', _, lru'; split; [done|]; split; [exact R'|].
  all: split; [eapply payload_of; [exact Hp'|right; by eexists]|]; split.
  all: try (left; split; [done|]; split; [|intros _; apply lookup_insert_eq]; exists (value_of it');
    rewrite (value_at_some s' _ lru' refs k p it') by (done || apply lookup_insert_eq); split; [done|]; split; [done|]; split; [done|];
    by rewrite T', (proj1 G1)).
  all: intros k' Hk'; left; rewrite <- (Hother k' Hk'); eapply value_at_same; [exact R'|by rewrite lookup_insert_ne|];
    intros q i' Hq; apply K'; intros ->; destruct (sr_item _ _ _ _ _ R1 k' p Hq) as (x & Ex & Kx); congruence.
Qed.

(** The key had a live item [old_p]. *)
Section Found.
Context (e : env) (set_stale : bool) (s s1 : store T) (m : gmap (list Z) positive) (lru1 : Z -> list positive) (refs : positive -> Z).
Context (old_p p : positive) (it it1 old1 : item) (o : value).
Context (Hb : below 2 refs) (Hrp : 0 < refs p) (Hro : 0 <= refs old_p) (Hne : p <> old_p).
Context (R1 : store_rep hash s1 m lru1 (set_refs old_p (refs old_p + 1) refs)).
Context (K1 : keeps (heap s) (heap s1)) (G1 : same_globals s s1) (Hc : no_crawler s1 m).
Context (Hp : heap s !! p = Some it) (Hl : linked it = false).
Context (Hp1 : heap s1 !! p = Some it1) (Hl1 : linked it1 = false) (V1 : value_of it1 = value_of it).
Context (Hold : heap s1 !! old_p = Some old1) (Ho : value_of old1 = o).
Context (Hk : m !! item_key it = Some old_p).
Context (Hlive : live_at s m (item_key it) = Some o) (Hval : value_at s m (item_key it) = Some o).

Let k := item_key it.
Let v := value_of it.
Let cas_res := cas_test set_stale (v_cas v) (v_cas o).

(** Nothing is stored. *)
Lemma found_none comm s2 lru2 r : store_spec comm set_stale (new_cas cfg s) v (Some o) = (r, None) ->
  store_rep hash s2 m lru2 (set_refs old_p (refs old_p + 1) refs) -> keeps (heap s) (heap s2) -> same_globals s s2 ->
  exists ret cas s' m' lru', finish_store cfg old_p (hash k) (None, None, r, s2) = Ret (ret, cas, s') /\
    store_result comm set_stale p v s m refs ret cas s' m' lru'.
Proof.
  intros Hs R2 K2 G2. destruct (finish_none s m s2 m lru2 refs old_p k o r p v) as (s' & E & R' & P' & K' & U'); try done.
  { by rewrite Hp. }
  exists r, None, s', m, lru2. split; [done|]. split; [done|]. split; [done|]. split.
  - intros k' _. left. eapply value_at_same; [exact R'|done|]. intros q i' _. apply K'.
  - change (v_key v) with k. unfold k. rewrite Hlive, Hs. split; [done|]. split; [done|]. rewrite Hk. congruence.
Qed.

(** The item [p] is stored, with the value [w] it has by then. *)
Lemma found_stored comm s2 it2 w r : store_spec comm set_stale (new_cas cfg s) v (Some o) = (STORED, Some (eq (relinked (new_cas cfg s) w))) ->
  joins comm = false -> store_rep hash s2 m lru1 (set_refs old_p (refs old_p + 1) refs) -> keeps_but p (heap s) (heap s2) -> same_globals s s2 ->
  heap s2 !! p = Some it2 -> linked it2 = false -> value_of it2 = w -> item_key it2 = k ->
  (exists t, w = with_exptime t v) ->
  exists ret cas s' m' lru', finish_store cfg old_p (hash k) (Some p, None, r, s2) = Ret (ret, cas, s') /\
    store_result comm set_stale p v s m refs ret cas s' m' lru'.
Proof.
  intros Hs Hjn R2 K2 G2 Hp2 Hl2 V2 Hk2 [t Ht].
  destruct (replace_found s m s2 lru1 refs old_p p it2 w) as (s3 & s4 & lru4 & it4 & E3 & E4 & Hp4 & V4 & R4 & K4 & O4 & C4); try done.
  { by rewrite Hk2. }
  rewrite Hk2 in *. exists STORED, (Some (ITEM_get_cas it4)), s4, (<[k := p]> m), lru4. split.
  { unfold finish_store. rewrite E3. cbn [mbind outcome_bind]. rewrite E4. cbn [mbind outcome_bind].
    by rewrite (get_item_ok _ _ _ Hp4). }
  split; [done|]. split.
  { exists it4. split; [done|]. rewrite Ht in V4. injection V4 as -> -> _ _ _ _ -> _ _ ->. done. }
  split; [intros k' Hk'; left; by apply O4|].
  change (v_key v) with k. unfold k at 1. rewrite Hlive, Hs. left. split; [done|]. split; [done|]. intros _. apply lookup_insert_eq.
Qed.

Lemma found_now comm r : store_spec comm set_stale (new_cas cfg s) v (Some o) = (STORED, Some (eq (relinked (new_cas cfg s) v))) ->
  joins comm = false ->
  exists ret cas s' m' lru', finish_store cfg old_p (hash k) (Some p, None, r, s1) = Ret (ret, cas, s') /\
    store_result comm set_stale p v s m refs ret cas s' m' lru'.
Proof.
  intros Hs Hjn. apply (found_stored comm s1 it1 v r); try done.
  - by apply keeps_keeps_but.
  - by apply (f_equal v_key) in V1.
  - exists (v_exptime v). done.
Qed.

(** A stale value: the expiry time of the old one is kept. *)
Lemma stale_update : exists s2 it2, (s ← upd_item p (fun i => raise_flag ITEM_STALE (set_exptime (it_exptime old1) i)) s1;
    if has_flag ITEM_TOKEN_SENT old1 then upd_item p (raise_flag ITEM_TOKEN_SENT) s else Ret s) = Ret s2 /\
  store_rep hash s2 m lru1 (set_refs old_p (refs old_p + 1) refs) /\ keeps_but p (heap s) (heap s2) /\ same_globals s s2 /\
  heap s2 !! p = Some it2 /\ linked it2 = false /\ value_of it2 = with_exptime (v_exptime o) v /\ item_key it2 = k.
Proof.
  destruct (invisible_raise 11 ltac:(lia) (set_exptime (it_exptime old1) it1)) as (A1 & A2 & A3 & A4 & A5 & A6 & A7).
  set (it2 := raise_flag (2 ^ 11) (set_exptime (it_exptime old1) it1)) in *.
  rewrite (upd_item_ok _ _ _ _ Hp1), STALE_pow. cbn [mbind outcome_bind]. fold it2.
  set (s2 := with_heap (<[p := it2]> (heap s1)) s1).
  assert (store_rep hash s2 m lru1 (set_refs old_p (refs old_p + 1) refs)) as R2.
  { apply (store_rep_upd' hash s1 m lru1 _ p it1 (fun _ => it2)); try done. rewrite A5.
    by destruct (sr_refs _ _ _ _ _ R1 p it1 Hp1) as (_ & _ & _ & ?). }
  assert (heap s2 !! p = Some it2) as Hp2 by apply lookup_insert_eq.
  assert (keeps_but p (heap s) (heap s2)) as K2.
  { intros q j Hq Ej. simpl in Ej. rewrite lookup_insert_ne in Ej by done. by apply K1. }
  assert (linked it2 = false /\ value_of it2 = with_exptime (v_exptime o) v /\ item_key it2 = k) as (B1 & B2 & B3).
  { split; [by rewrite A4|]. split; [|rewrite A3; by apply (f_equal v_key) in V1].
    rewrite A7. change (value_of (set_exptime (it_exptime old1) it1)) with (with_exptime (it_exptime old1) (value_of it1)).
    rewrite V1, <- Ho. done. }
  destruct (has_flag ITEM_TOKEN_SENT old1); [|by exists s2, it2].
  rewrite TOKEN_pow. destruct (invisible_upd hash _ s2 m lru1 _ p it2 (invisible_raise 9 ltac:(lia)) R2 Hp2) as (s3 & E3 & R3 & K3 & G3 & Hp3).
  destruct (invisible_raise 9 ltac:(lia) it2) as (_ & _ & C3 & C4 & _ & _ & C7).
  exists s3, (raise_flag (2 ^ 9) it2). split; [done|]. split; [done|].
  split; [eapply keeps_but_trans; [exact K2|by apply keeps_keeps_but]|].
  split; [exact (same_globals_trans s s1 s3 G1 G3)|]. split; [done|]. split_and!; congruence.
Qed.

Lemma store_found comm : (joins comm = true -> joinable (value_of it) o) ->
  exists ret cas s' m' lru', (r ← switch_old hash cfg e p old_p comm cas_res (hash k) s1; finish_store cfg old_p (hash k) r) = Ret (ret, cas, s') /\
    store_result comm set_stale p v s m refs ret cas s' m' lru'.
Proof.
  intros Hj. destruct (joins comm) eqn:Hjoin.
  { pose proof (Hj eq_refl) as HJ.
    destruct (decide (cas_res = CAS_NONE \/ cas_res = CAS_MATCH)) as [Hcr|Hcr].
    - destruct (join_ok e comm s s1 m lru1 refs old_p p it1 old1 v o Hb Hrp Hro Hne R1 K1 G1 Hc Hp1 V1 Hold Ho Hk Hlive Hval) with (cas_res := cas_res)
        as (ret & cas & s' & m' & lru' & E & R' & P' & O' & J'); [by rewrite Hp|done..|].
      exists ret, cas, s', m', lru'. split; [exact E|]. split; [done|]. split; [done|]. split.
      { intros k' Hk'. destruct (O' k' Hk'); auto. }
      change (v_key v) with k in *. unfold k at 1. rewrite Hlive.
      assert (store_spec comm set_stale (new_cas cfg s) v (Some o) = (STORED, Some (joined comm (new_cas cfg s) o v))) as ->.
      { rewrite store_spec_found. fold cas_res. by destruct comm; try discriminate Hjoin; destruct Hcr as [-> | ->]. }
      rewrite Hjoin. destruct J' as [[-> C]|[-> U]]; [left|right]; done.
    - assert (bool_decide (cas_res <> CAS_NONE) && bool_decide (cas_res <> CAS_MATCH) = true) as Hbd.
      { rewrite !bool_decide_eq_true_2; tauto. }
      assert (store_spec comm set_stale (new_cas cfg s) v (Some o) = (EXISTS, None)) as Hsp.
      { rewrite store_spec_found. fold cas_res. destruct comm; try discriminate Hjoin; destruct cas_res; tauto. }
      replace (switch_old hash cfg e p old_p comm cas_res (hash k) s1) with (Ret (@None positive, @None positive, EXISTS, s1))
        by (unfold switch_old; destruct comm; try discriminate Hjoin; by rewrite Hbd).
      cbn [mbind outcome_bind]. by apply (found_none _ s1 lru1). }
  destruct comm; try discriminate Hjoin; cbn [switch_old].
  - destruct (do_item_update_ok hash cfg s1 m lru1 _ old_p old1 R1 Hold) as (s2 & lru2 & -> & R2 & K2 & G2). cbn [mbind outcome_bind].
    apply (found_none _ s2 lru2); try done; [by eapply keeps_trans|by eapply same_globals_trans].
  - by apply found_now.
  - by apply found_now.
  - destruct cas_res eqn:Hcr; cbn [mbind outcome_bind].
    4:{ rewrite (get_item_ok _ _ _ Hold). cbn [mbind outcome_bind].
        destruct stale_update as (s2 & it2 & E2 & R2 & K2 & G2 & Hp2 & Hl2 & V2 & Hk2).
        assert (forall (A : Type) (f : store T -> outcome A), (s0 ← upd_item p (fun i => raise_flag ITEM_STALE (set_exptime (it_exptime old1) i)) s1;
          s0 ← (if has_flag ITEM_TOKEN_SENT old1 then upd_item p (raise_flag ITEM_TOKEN_SENT) s0 else Ret s0); f s0) = f s2) as Hbind.
        { intros A f. destruct (upd_item p (fun i => raise_flag ITEM_STALE _) s1) as [x| |]; cbn [mbind outcome_bind] in E2 |- *;
            [by rewrite E2|discriminate E2..]. }
        rewrite Hbind. apply (found_stored _ s2 it2 (with_exptime (v_exptime o) v)); try done; [|by eexists].
        rewrite store_spec_found. fold cas_res. by rewrite Hcr. }
    2:{ apply found_now; [|done]. rewrite store_spec_found. fold cas_res. by rewrite Hcr. }
    all: apply (found_none _ s1 lru1); try done; rewrite store_spec_found; fold cas_res; by rewrite Hcr.
Qed.
End Found.

Lemma do_store_item_ok e set_stale s m lru refs p it comm :
  store_rep hash s m lru refs -> store_ready s m refs p it comm ->
  exists ret cas s' m' lru', do_store_item hash cfg e set_stale p comm (hash (item_key it)) s = Ret (ret, cas, s') /\
    store_result comm set_stale p (value_of it) s m refs ret cas s' m' lru'.
Proof.
  intros R (Hb & Hc & Hp & Hl & Hr & Hj). unfold do_store_item. rewrite (get_item_ok _ _ _ Hp). cbn [mbind outcome_bind].
  destruct (do_item_get_ok s m lru refs (item_key it) (queued e) R) as (r & s1 & m1 & lru1 & -> & R1 & K1 & G1 & Hs1 & Hk1 & Hlive & Hm1).
  { by apply (below_le 2); [|lia]. }
  cbn [mbind outcome_bind].
  assert (m !! item_key it <> Some p) as Hnot.
  { intros H. apply (sr_flag _ _ _ _ _ R p it Hp) in H. congruence. }
  assert (m1 !! item_key it <> Some p) as Hnot1.
  { rewrite Hk1. destruct r; [|done]. intros [= ->]. rewrite (Hm1 ltac:(by eexists)) in Hk1. done. }
  destruct (held_item hash s m lru refs s1 m1 lru1 (got_refs r refs) p it R Hp Hl R1) as (it1 & Hp1 & V1 & Hl1 & _ & Hki); [|apply K1|done|].
  { destruct r as [q|]; [|done]. apply set_refs_ne. congruence. }
  destruct r as [old_p|].
  - pose proof (Hm1 ltac:(by eexists)) as ->. rewrite (get_item_ok _ _ _ Hp1). cbn [mbind outcome_bind].
    destruct (store_linked _ _ _ _ _ _ _ R Hk1) as (old & Ho & Hko & Hlo). rewrite Ho in Hlive. simpl in Hlive.
    destruct (store_linked _ _ _ _ _ _ _ R1 Hk1) as (old1 & Ho1 & _). rewrite (get_item_ok _ _ _ Ho1). cbn [mbind outcome_bind].
    destruct (K1 old_p old1 Ho1) as (x & Ex & Vx). assert (x = old) as -> by congruence.
    assert (ITEM_get_cas it1 = v_cas (value_of it) /\ ITEM_get_cas old1 = v_cas (value_of old)) as [-> ->].
    { rewrite <- V1, <- Vx. done. }
    apply (store_found e set_stale s s1 m lru1 refs old_p p it it1 old1 (value_of old)); try done.
    + destruct (sr_refs _ _ _ _ _ R old_p old Ho) as (_ & ? & _). done.
    + congruence.
    + by eapply no_crawler_keeps.
    + by apply (value_at_some s m lru refs (item_key it) old_p).
    + intros H. by apply Hj.
  - by apply (store_absent e set_stale s s1 m m1 lru1 refs p it it1).
Qed.
End Facts.
