(* ===== verification/DeltaFacts.v ===== *)
(** * Increments and decrements

    [do_add_delta] on an item whose value is a decimal number, perhaps followed by the blanks an
    earlier decrement left: the new number, where it is written, and what it costs. *)

From S2P Require Import Prelude Items LruFacts ItemsFacts ItemAlloc ItemAllocFacts Util Itoa Store.
From S2P Require Import StoreFacts.
Local Open Scope Z_scope.

(** A value that spells [n]: its digits, blanks, and the line break. *)
Definition numeral (d : list Z) (n : Z) : Prop := exists pad, d = itoa_u64 n ++ replicate pad 32 ++ [13; 10].

Lemma take_while_all p l : Forall (fun c => p c = true) l -> forall r, take_while p (l ++ r) = l ++ take_while p r.
Proof. induction 1 as [|c l H _ IH]; intros r; simpl; [done|]. by rewrite H, IH. Qed.

(** A value made of decimal digits, perhaps with leading zeros, blanks, and the line break. *)
Definition spells (d : list Z) (n : Z) : Prop :=
  exists ds pad, digit_chars ds /\ ds <> [] /\ undec ds = n /\ d = ds ++ replicate pad 32 ++ [13; 10].

Lemma numeral_spells d n : 0 <= n < 2 ^ 64 -> numeral d n -> spells d n.
Proof. intros Hn [pad ->]. destruct (dec_digits n Hn) as (D1 & D2 & D3). exists (dec n), pad. by rewrite itoa_u64_dec. Qed.

(** Numbers that [do_add_delta] refuses: those of 2^64 and above, and those of 2^63 and above when a
    minus sign comes before the next zero byte in memory, be it behind the value. *)
Definition refused_number (d rest : list Z) (n : Z) : bool :=
  (2 ^ 64 <=? n) || ((2 ^ 63 <=? n) && has_minus (c_string (d ++ rest))).

Lemma undec_nonneg ds : digit_chars ds -> 0 <= undec ds.
Proof.
  intros H. unfold undec. generalize (Z.le_refl 0). generalize 0 at 2 4. induction H as [|c ds Hc _ IH]; intros acc Ha; simpl; [done|]. apply IH. lia.
Qed.

Lemma spells_parsed d n rest : spells d n ->
  exists x, safe_strtoull (c_string (d ++ rest)) true = Ret (negb (refused_number d rest n), x) /\ (refused_number d rest n = false -> x = n /\ 0 <= n < 2 ^ 64).
Proof.
  intros (ds & pad & Hd & Hne & <- & ->). pose proof (undec_nonneg ds Hd) as H0.
  assert (c_string ((ds ++ replicate pad 32 ++ [13; 10]) ++ rest) = ds ++ replicate pad 32 ++ [13; 10] ++ c_string rest) as Hs.
  { unfold c_string. rewrite take_while_all; [by rewrite <- !app_assoc|].
    apply Forall_app. split; [|apply Forall_app; split; [apply Forall_replicate; done|by repeat constructor]].
    eapply Forall_impl; [exact Hd|]. simpl. intros c Hc. apply negb_true_iff, Z.eqb_neq. lia. }
  unfold refused_number. rewrite Hs. set (tl := replicate pad 32 ++ [13; 10] ++ c_string rest).
  assert (terminated tl = true) as Ht by (unfold tl; by destruct pad).
  pose proof (safe_strtoull_text false ds tl Hd Hne Ht) as H. unfold Util.text, signed_value in H. cbn [app orb] in H. rewrite H, no_minus by done.
  destruct (Z.leb_spec (2 ^ 64) (undec ds)).
  - rewrite (proj2 (Z.ltb_ge (undec ds) (2 ^ 64))) by lia. by exists 0.
  - rewrite (proj2 (Z.ltb_lt (undec ds) (2 ^ 64))), u64_id by lia. cbn [andb orb].
    assert ((i64 (undec ds) <? 0) = (2 ^ 63 <=? undec ds)) as ->.
    { destruct (Z.leb_spec (2 ^ 63) (undec ds)); [apply Z.ltb_lt|apply Z.ltb_ge].
      - unfold i64. zdm.
      - rewrite i64_id by lia. lia. }
    destruct ((2 ^ 63 <=? undec ds) && has_minus tl); [by exists 0|]. exists (undec ds). split; [done|]. intros _. lia.
Qed.

Lemma splice_number data buf tail k :
  data = take (length data - 2) data ++ tail -> length tail = 2%nat -> (length buf + k + 2 = length data)%nat ->
  splice (splice data 0 buf) (length buf) (replicate k 32) = buf ++ replicate k 32 ++ tail.
Proof.
  intros Hd Ht Hk. unfold splice. rewrite take_0, app_nil_l, take_app_length. f_equal. f_equal.
  rewrite drop_app_ge by lia. rewrite length_replicate. simpl. rewrite drop_drop. rewrite Hd. apply drop_app_length'.
  rewrite length_take. lia.
Qed.

Section Delta.
Context {T : Type} {table_ops : ItemTable T} {slabs : SlabAllocator} (hash : list Z -> Z).
Context {table_laws : ItemTableLaws hash T} {slab_laws : SlabAllocatorLaws} (cfg : settings).
Context (no_repair : tail_repair_time cfg = 0).
Implicit Types (s : store T) (m : gmap (list Z) positive) (refs : positive -> Z) (e : env).

Lemma next_cas_ok s m lru refs : store_rep hash s m lru refs ->
  exists s', next_cas cfg s = (new_cas cfg s, s') /\ store_rep hash s' m lru refs /\ heap s' = heap s /\ total_items s' = total_items s.
Proof.
  intros R. unfold next_cas, get_cas_id, new_cas. destruct (use_cas cfg); eexists; (split; [done|]); (split; [|done]); [|done].
  destruct R as [R1 R2 R3 R4 R5 R6 R7 R8 R9]. split; try done. by eapply lru_rep_same.
Qed.

(** An update of an item that leaves its links, flags and references alone. *)
Lemma upd_plain_ok s m lru refs p i f :
  store_rep hash s m lru refs -> heap s !! p = Some i ->
  links (f i) = links i -> it_slabs_clsid (f i) = it_slabs_clsid i -> item_key (f i) = item_key i ->
  it_flags (f i) = it_flags i -> it_refcount (f i) = it_refcount i ->
  exists s', upd_item p f s = Ret s' /\ store_rep hash s' m lru refs /\ keeps_but p (heap s) (heap s') /\
    heap s' !! p = Some (f i) /\ same_globals s s'.
Proof.
  intros R Hp H1 H2 H3 H4 H5. exists (with_heap (<[p := f i]> (heap s)) s). split; [by apply upd_item_ok|].
  destruct (sr_refs _ _ _ _ _ R p i Hp) as (_ & _ & _ & Hs).
  split; [apply (store_rep_upd' hash s m lru refs p i f); try done; unfold linked, slabbed, has_flag in *; by rewrite H4|].
  split; [|split; [apply lookup_insert_eq|done]]. intros q j Hq E. simpl in E. rewrite lookup_insert_ne in E by done. by exists j.
Qed.

(** Writing into the value of an item. *)
Lemma write_ok s m lru refs p i off src n :
  store_rep hash s m lru refs -> heap s !! p = Some i -> has_flag ITEM_CHUNKED i = false ->
  n = Z.of_nat (length src) -> (off + length src <= length (it_data i))%nat ->
  exists s', write_data p off src n s = Ret s' /\ store_rep hash s' m lru refs /\ keeps_but p (heap s) (heap s') /\
    heap s' !! p = Some (set_data (splice (it_data i) off src) i) /\ same_globals s s'.
Proof.
  intros R Hp Hc -> Hl. rewrite (write_data_ok hash s m lru refs p i off src R Hp Hc Hl). eexists. split; [done|].
  destruct (upd_data_ok hash s m lru refs p i (splice (it_data i) off src) R Hp) as (_ & R' & K).
  split; [done|]. split; [done|]. split; [apply lookup_insert_eq|done].
Qed.

Lemma set_cas_fields c i : links (ITEM_set_cas c i) = links i /\ it_slabs_clsid (ITEM_set_cas c i) = it_slabs_clsid i /\
  item_key (ITEM_set_cas c i) = item_key i /\ it_flags (ITEM_set_cas c i) = it_flags i /\
  it_refcount (ITEM_set_cas c i) = it_refcount i /\ it_data (ITEM_set_cas c i) = it_data i /\
  it_nbytes (ITEM_set_cas c i) = it_nbytes i /\ it_exptime (ITEM_set_cas c i) = it_exptime i /\
  FLAGS_CONV (ITEM_set_cas c i) = FLAGS_CONV i /\ it_mac (ITEM_set_cas c i) = it_mac i /\ it_mt_index (ITEM_set_cas c i) = it_mt_index i.
Proof. unfold ITEM_set_cas. by destruct (has_flag ITEM_CAS i). Qed.

Lemma new_cas_range (s : store T) : 0 <= new_cas cfg s < 2 ^ 64.
Proof. unfold new_cas. case_match; [apply u64_range|lia]. Qed.

Lemma cas_range s i d : 0 <= ITEM_get_cas (set_data d (ITEM_set_cas (new_cas cfg s) i)) < 2 ^ 64.
Proof.
  pose proof (new_cas_range s). unfold ITEM_set_cas, ITEM_get_cas. destruct (has_flag ITEM_CAS i) eqn:E; [change (has_flag ITEM_CAS _) with (has_flag ITEM_CAS i)|];
    change (has_flag ITEM_CAS (set_data d i)) with (has_flag ITEM_CAS i); rewrite E; simpl; lia.
Qed.

(** What an item that was changed has in common with what it was. *)
Definition recounted (v v' : value) : Prop :=
  v_key v' = v_key v /\ v_exptime v' = v_exptime v /\ v_cflags v' = v_cflags v.

(** The end of the function, when the item is not asked for. *)
Definition finish_delta (cas : option Z) (p : positive) (buf : list Z) s : outcome (delta_result_type * option Z * list Z * option positive * store T) :=
  it ← get_item p s; s ← do_item_remove p s;
  Ret (OK, match cas with Some _ => Some (ITEM_get_cas it) | None => None end, buf, None, s).

Lemma finish_ok cas p buf s m lru refs : store_rep hash s m lru (set_refs p (refs p + 1) refs) -> 0 <= refs p ->
  exists s' cas', finish_delta cas p buf s = Ret (OK, cas', buf, None, s') /\ (cas = None -> cas' = None) /\ store_rep hash s' m lru refs /\ keeps (heap s) (heap s') /\ same_globals s s'.
Proof.
  intros R Hr. destruct (release hash s m lru _ p R) as (s' & E & R' & K & G); [rewrite set_refs_eq; lia|].
  destruct (store_held _ _ _ _ _ p R) as (i & Hp); [rewrite set_refs_eq; lia|].
  eexists s', _. unfold finish_delta. rewrite (get_item_ok _ _ _ Hp). cbn [mbind outcome_bind]. rewrite E. split; [done|].
  split; [by intros ->|]. split; [|done]. eapply store_rep_refs; [exact R'|]. intros q. unfold set_refs. repeat case_decide; subst; lia || done.
Qed.

Section Found.
Context (e : env) (s1 : store T) (m : gmap (list Z) positive) (lru1 : Z -> list positive) (refs : positive -> Z).
Context (k : list Z) (p : positive) (it : item) (cas : option Z) (buf : list Z).
Context (R1 : store_rep hash s1 m lru1 (set_refs p (refs p + 1) refs)) (Hr : 0 <= refs p).
Context (Hk : m !! k = Some p) (Hp : heap s1 !! p = Some it) (Hkey : item_key it = k) (Hch : has_flag ITEM_CHUNKED it = false).
Context (Hlen : Z.of_nat (length (it_data it)) = it_nbytes it).

Let res := Z.of_nat (length buf).

(** The number fits and nobody else holds the item: it is overwritten, and its authentication
    code and leaf stay as they were. *)
Lemma in_place : res + 2 <= it_nbytes it ->
  exists s' lru' v' cas', (let '(new_cas, s) := next_cas cfg s1 in
      s ← upd_item p (ITEM_set_cas new_cas) s;
      s ← write_data p 0 buf res s;
      s ← write_data p (length buf) (replicate (Z.to_nat (it_nbytes it - res - 2)) 32) (it_nbytes it - res - 2) s;
      s ← do_item_update cfg p s;
      finish_delta cas p buf s) = Ret (OK, cas', buf, None, s') /\ (cas = None -> cas' = None) /\
    store_rep hash s' m lru' refs /\ keeps_but p (heap s1) (heap s') /\ value_at s' m k = Some v' /\
    recounted (value_of it) v' /\
    (forall n, spells (it_data it) n -> v_data v' = buf ++ replicate (Z.to_nat (it_nbytes it - res - 2)) 32 ++ [13; 10]) /\
    v_nbytes v' = it_nbytes it /\ v_mac v' = it_mac it /\ v_index v' = it_mt_index it /\
    length (v_data v') = length (it_data it) /\ v_chunked v' = false /\ 0 <= v_cas v' < 2 ^ 64.
Proof.
  intros Hfit. unfold res in *. set (sp := replicate _ 32). set (nb := it_nbytes it) in *.
  assert (length sp = Z.to_nat (nb - Z.of_nat (length buf) - 2)) as Hsp by apply length_replicate.
  destruct (next_cas_ok s1 m lru1 _ R1) as (s2 & -> & R2 & H2 & _).
  destruct (set_cas_fields (new_cas cfg s1) it) as (F1 & F2 & F3 & F4 & F5 & F6 & F7 & F8 & F9 & F10 & F11).
  destruct (upd_plain_ok s2 m lru1 _ p it (ITEM_set_cas (new_cas cfg s1)) R2) as (s3 & -> & R3 & K3 & Hp3 & _); try done; [by rewrite H2|].
  cbn [mbind outcome_bind]. set (i3 := ITEM_set_cas _ it) in *. rewrite H2 in K3.
  assert (has_flag ITEM_CHUNKED i3 = false) as Hch3 by (unfold has_flag; rewrite F4; exact Hch).
  destruct (write_ok s3 m lru1 _ p i3 0 buf (Z.of_nat (length buf)) R3 Hp3 Hch3 eq_refl) as (s4 & -> & R4 & K4 & Hp4 & _); [rewrite F6; lia|].
  cbn [mbind outcome_bind]. set (d4 := splice (it_data i3) 0 buf) in *.
  assert (length d4 = length (it_data it)) as Hd4 by (unfold d4; rewrite length_splice, F6; [done|rewrite F6; lia]).
  destruct (write_ok s4 m lru1 _ p (set_data d4 i3) (length buf) sp (nb - Z.of_nat (length buf) - 2) R4 Hp4 Hch3)
    as (s5 & -> & R5 & K5 & Hp5 & _); [lia|simpl; lia|].
  cbn [mbind outcome_bind it_data set_data] in *. set (i5 := set_data _ _) in Hp5.
  destruct (do_item_update_ok hash cfg s5 m lru1 _ p i5 R5 Hp5) as (s6 & lru6 & -> & R6 & K6 & _). cbn [mbind outcome_bind].
  destruct (finish_ok cas p buf s6 m lru6 refs R6 Hr) as (s7 & cas7 & -> & C7 & R7 & K7 & _).
  destruct (sr_item _ _ _ _ _ R7 k p Hk) as (i7 & Hp7 & _). destruct (K7 p i7 Hp7) as (i6 & Hp6 & V7).
  destruct (K6 p i6 Hp6) as (x & Ex & V6). assert (x = i5) as -> by congruence.
  exists s7, lru6, (value_of i7), cas7. split; [done|]. split; [done|]. split; [done|].
  split; [eapply keeps_but_trans; [exact K3|eapply keeps_but_trans; [exact K4|eapply keeps_but_trans; [exact K5|]]]; apply keeps_keeps_but; by eapply keeps_trans|].
  split; [unfold value_at; by rewrite Hk, Hp7|]. rewrite V7, V6.
  split; [split_and!; [exact F3|exact F8|exact F9]|]. split; [|split_and!; [exact F7|exact F10|exact F11|simpl; rewrite length_splice; lia|exact Hch3|apply cas_range|apply cas_range]].
  simpl. unfold d4. rewrite F6. intros n (ds & pad & _ & _ & _ & Hd). apply splice_number; [|done|lia].
  rewrite Hd, !app_assoc. rewrite take_app_length'; [done|]. rewrite !length_app. simpl. lia.
Qed.

Context (Hb : below 2 refs) (Hc : no_crawler s1 m).
Context (Hsmall : is_large cfg k (FLAGS_CONV it) (res + 2) = false).

(** The new number goes into the new item. *)
Lemma fill_new s2 m2 lru2 refs2 new_p new :
  store_rep hash s2 m2 lru2 refs2 -> heap s2 !! new_p = Some new -> has_flag ITEM_CHUNKED new = false ->
  length (it_data new) = Z.to_nat (res + 2) ->
  exists s4, (s ← write_data new_p 0 buf res s2; write_data new_p (length buf) [13; 10] 2 s) = Ret s4 /\
    store_rep hash s4 m2 lru2 refs2 /\ keeps_but new_p (heap s2) (heap s4) /\ heap s4 !! new_p = Some (set_data (buf ++ [13; 10]) new).
Proof.
  intros R2 Hn Fc Fd. unfold res in *.
  destruct (write_ok s2 m2 lru2 _ new_p new 0 buf (Z.of_nat (length buf)) R2 Hn Fc eq_refl) as (s3 & -> & R3 & K3 & Hn3 & _); [rewrite Fd; lia|].
  cbn [mbind outcome_bind]. set (d3 := splice (it_data new) 0 buf) in *.
  assert (length d3 = (length buf + 2)%nat) as Hd3 by (unfold d3; rewrite length_splice, Fd; [|rewrite Fd]; lia).
  destruct (write_ok s3 m2 lru2 _ new_p (set_data d3 new) (length buf) [13; 10] 2 R3 Hn3 Fc eq_refl) as (s4 & -> & R4 & K4 & Hn4 & _); [simpl; lia|].
  exists s4. split; [done|]. split; [done|]. split; [by eapply keeps_but_trans|]. rewrite Hn4. simpl.
  replace (splice d3 (length buf) [13; 10]) with (buf ++ [13; 10]); [done|].
  unfold d3, splice. rewrite take_0, app_nil_l, take_app_length. f_equal. simpl app. f_equal. f_equal. symmetry.
  apply drop_ge. rewrite length_app, length_drop, Fd. simpl. lia.
Qed.

(** The new item takes the place of the old one, and both references are dropped. *)
Lemma swap_new s4 m2 lru2 new_p new :
  store_rep hash s4 m2 lru2 (set_refs new_p 1 (set_refs p (refs p + 1) refs)) -> m2 !! k = Some p -> new_p <> p -> refs new_p = 0 ->
  heap s4 !! new_p = Some new -> linked new = false -> item_key new = k -> it_refcount new = 1 ->
  exists s8 lru8 v' cas', (s ← do_item_replace cfg p new_p (hash k) s4;
      new ← get_item new_p s;
      s ← upd_item p (ITEM_set_cas (if use_cas cfg then ITEM_get_cas new else 0)) s;
      s ← do_item_remove new_p s;
      finish_delta cas p buf s) = Ret (OK, cas', buf, None, s8) /\ (cas = None -> cas' = None) /\
    store_rep hash s8 (<[k := new_p]> m2) lru8 refs /\
    (forall q i', q <> new_p -> q <> p -> heap s8 !! q = Some i' -> exists i, heap s4 !! q = Some i /\ value_of i' = value_of i) /\
    value_at s8 (<[k := new_p]> m2) k = Some v' /\ v' = relinked (new_cas cfg s4) (value_of new).
Proof.
  intros R4 Hk2 Hnp Hr0 Hn4 Fl Fk Fr. set (refs2 := set_refs new_p 1 _) in *.
  destruct (store_linked _ _ _ _ _ _ _ R4 Hk2) as (it4 & Hp4 & Kit4 & Lit4).
  destruct (do_item_replace_ok hash cfg s4 m2 lru2 _ p it4 new_p new R4 Hp4 Lit4 Hn4 Fl) as (s5 & lru5 & new5 & E5 & R5 & K5 & Hn5 & V5 & _); [congruence|lia|].
  rewrite Kit4 in E5, R5. rewrite E5. cbn [mbind outcome_bind]. rewrite (get_item_ok _ _ _ Hn5). cbn [mbind outcome_bind].
  set (c := if use_cas cfg then _ else _).
  destruct (store_held _ _ _ _ _ p R5) as (it5 & Hp5); [unfold refs2; rewrite set_refs_ne, set_refs_eq by done; lia|].
  destruct (set_cas_fields c it5) as (F1 & F2 & F3 & F4 & F5 & _).
  destruct (upd_plain_ok s5 _ lru5 _ p it5 (ITEM_set_cas c) R5 Hp5 F1 F2 F3 F4 F5) as (s6 & -> & R6 & K6 & _). cbn [mbind outcome_bind].
  destruct (release hash s6 _ lru5 _ new_p R6) as (s7 & -> & R7 & K7 & _); [unfold refs2; rewrite set_refs_eq; lia|]. cbn [mbind outcome_bind].
  destruct (finish_ok cas p buf s7 (<[k := new_p]> m2) lru5 refs) as (s8 & cas8 & -> & C8 & R8 & K8 & _); [|done|].
  { eapply store_rep_refs; [exact R7|]. intros q. unfold refs2, set_refs. repeat case_decide; subst; lia || done. }
  destruct (sr_item _ _ _ _ _ R8 k new_p (lookup_insert_eq _ _ _)) as (n8 & En8 & _).
  destruct (K8 new_p n8 En8) as (n7 & En7 & Vn8). destruct (K7 new_p n7 En7) as (n6 & En6 & Vn7). destruct (K6 new_p n6 Hnp En6) as (x & Ex & Vn6).
  exists s8, lru5, (value_of n8), cas8. split; [done|]. split; [done|]. split; [done|]. split; [|split; [unfold value_at; by rewrite lookup_insert_eq, En8|congruence]].
  intros q i8 Hq1 Hq2 E8. destruct (K8 q i8 E8) as (i7 & E7 & V8). destruct (K7 q i7 E7) as (i6 & E6 & V7).
  destruct (K6 q i6 Hq2 E6) as (i5 & E5' & V6). destruct (K5 q i5 Hq1 E5') as (i4 & E4 & V5'). exists i4. split; [done|]. congruence.
Qed.

(** Otherwise a new item takes the place of the old one, if there is memory for it. *)
Lemma replaced : exists ret cas' s' m' lru',
  ('(new_it, s) ← do_item_alloc hash cfg (holding (hash k) e) (item_key it) (FLAGS_CONV it) (it_exptime it) (res + 2) s1;
   match new_it with
   | None => s ← do_item_remove p s; Ret (EOM, cas, buf, None, s)
   | Some new_p =>
       s ← write_data new_p 0 buf res s;
       s ← write_data new_p (length buf) [13; 10] 2 s;
       s ← do_item_replace cfg p new_p (hash k) s;
       new ← get_item new_p s;
       s ← upd_item p (ITEM_set_cas (if use_cas cfg then ITEM_get_cas new else 0)) s;
       s ← do_item_remove new_p s;
       finish_delta cas p buf s
   end) = Ret (ret, cas', buf, None, s') /\ (cas = None -> cas' = None) /\ store_rep hash s' m' lru' refs /\
  (forall k', k' <> k -> value_at s' m' k' = value_at s1 m k' \/ m' !! k' = None) /\
  ((ret = EOM /\ value_at s' m' k = value_at s1 m k) \/
   (ret = OK /\ exists v', value_at s' m' k = Some v' /\ recounted (value_of it) v' /\ v_data v' = buf ++ [13; 10] /\ v_nbytes v' = res + 2 /\
     v_chunked v' = false /\ 0 <= v_cas v' < 2 ^ 64)).
Proof.
  destruct (do_item_alloc_ok hash cfg (holding (hash k) e) no_repair (item_key it) (FLAGS_CONV it) (it_exptime it) (res + 2) s1 m lru1
    (set_refs p (refs p + 1) refs)) as (r & s2 & -> & A & _); [|done..|].
  { intros q. pose proof (Hb q) as Hq. pose proof (Hb p) as Hbp. unfold set_refs, IT_REFCOUNT_LIMIT in *. case_decide; subst; lia. }
  assert (holding (hash k) e (hash k) = false) as Hlock by (unfold holding; by rewrite Z.eqb_refl, andb_false_r).
  cbn [mbind outcome_bind]. destruct r as [new_p|].
  - destruct A as (m2 & lru2 & new & R2 & [Hsub D2] & Hr0 & Hnm & K2 & _ & Hn & Hf).
    assert (new_p <> p) as Hnp by (intros ->; rewrite set_refs_eq in Hr0; lia). rewrite set_refs_ne in Hr0 by done.
    assert (m2 !! k = Some p) as Hk2 by (by rewrite D2). destruct Hf as [Fk Fn Fe Fl _ Fr _ Ff Fc Fd]. rewrite Hkey in Fk. rewrite Hkey, Hsmall in Fc, Fd.
    destruct (fill_new s2 m2 lru2 _ new_p new R2 Hn Fc Fd) as (s4 & E4 & R4 & K4 & Hn4).
    destruct (swap_new s4 m2 lru2 new_p _ R4 Hk2 Hnp Hr0 Hn4 Fl Fk Fr) as (s8 & lru8 & v' & cas8 & E8 & C8 & R8 & K8 & Hv & ->).
    exists OK, cas8, s8, (<[k := new_p]> m2), lru8. split.
    { destruct (write_data new_p 0 buf res s2) as [s3| |]; try discriminate E4. cbn [mbind outcome_bind] in E4 |- *. rewrite E4. exact E8. }
    split; [done|]. split; [done|].
    split; [|right; split; [done|]; eexists; split; [exact Hv|]; split; [split_and!; [exact (eq_trans Fk (eq_sym Hkey))|exact Fe|exact Ff]|]].
    2:{ split_and!; [done|exact Fn|exact Fc|..]; pose proof (new_cas_range s4); cbn [v_cas relinked]; destruct (v_has_cas _); lia. }
    intros k' Hk'. rewrite lookup_insert_ne by done. destruct (m2 !! k') as [q|] eqn:Hq; [left|by right].
    pose proof (lookup_weaken _ _ _ _ Hq Hsub) as Hqm.
    eapply (value_at_same hash); [exact R8|by rewrite lookup_insert_ne, Hq|]. intros x i8 Hx Ei8. assert (x = q) as -> by congruence.
    assert (q <> new_p) as Hq1 by (intros ->; by apply (Hnm k')).
    assert (q <> p) as Hq2.
    { intros ->. destruct (store_linked _ _ _ _ _ _ _ R2 Hq) as (y & Ey & Ky & _), (store_linked _ _ _ _ _ _ _ R2 Hk2) as (z & Ez & Kz & _). congruence. }
    destruct (K8 q i8 Hq1 Hq2 Ei8) as (i4 & Ei4 & V4). destruct (K4 q i4 Hq1 Ei4) as (i2 & Ei2 & V2).
    destruct (K2 q i2 Hq1 Ei2) as (i1 & Ei1 & V1). exists i1. split; [done|]. congruence.
  - destruct A as (m2 & lru2 & R2 & [Hsub D2] & K2 & _).
    destruct (release hash s2 m2 lru2 _ p R2) as (s3 & -> & R3 & K3 & _); [rewrite set_refs_eq; lia|]. cbn [mbind outcome_bind].
    assert (store_rep hash s3 m2 lru2 refs) as R3'.
    { eapply store_rep_refs; [exact R3|]. intros q. unfold set_refs. repeat case_decide; subst; lia || done. }
    assert (keeps (heap s1) (heap s3)) as K by by eapply keeps_trans.
    assert (forall k', m2 !! k' = m !! k' -> value_at s3 m2 k' = value_at s1 m k') as Hsame.
    { intros k' Hk'. eapply (value_at_same hash); [exact R3'|done|]. intros q i' _. apply K. }
    exists EOM, cas, s3, m2, lru2. split; [done|]. split; [done|]. split; [done|]. split; [|left; by auto].
    intros k' _. destruct (m2 !! k') as [q|] eqn:Hq; [left|by right]. apply Hsame. rewrite Hq. symmetry. by eapply lookup_weaken.
Qed.
End Found.

(** ** The function *)

Lemma small_item key flags n : n <= 22 -> 400 <= slab_chunk_size_max cfg -> is_large cfg key flags n = false.
Proof.
  intros Hn Hs. unfold is_large, item_total, item_make_header, u8. simpl. apply Z.ltb_ge.
  pose proof (Z.mod_pos_bound (Z.of_nat (length key) + 1) (2 ^ 8) ltac:(lia)). repeat case_match; lia.
Qed.

Lemma delta_range incr n delta : 0 <= n < 2 ^ 64 -> 0 <= delta < 2 ^ 64 -> 0 <= delta_value incr n delta < 2 ^ 64.
Proof.
  intros Hn Hd. unfold delta_value. destruct incr; [unfold u64; apply Z.mod_pos_bound; lia|]. destruct (Z.ltb_spec n delta); lia.
Qed.

(** What incr and decr leave. *)
Definition delta_result k (v : value) (n : Z) s m (ret : delta_result_type) s' m' : Prop :=
  (forall k', k' <> k -> value_at s' m' k' = value_at s m k' \/ m' !! k' = None) /\
  ((ret = EOM /\ value_at s' m' k = Some v) \/
   (ret = OK /\ exists v', value_at s' m' k = Some v' /\ recounted v v' /\ numeral (v_data v') n /\ value_ok v')).

(** A value that was overwritten in place. *)
Definition in_place_value (v : value) (n : Z) (v' : value) : Prop :=
  v_data v' = itoa_u64 n ++ replicate (Z.to_nat (v_nbytes v - Z.of_nat (length (itoa_u64 n)) - 2)) 32 ++ [13; 10] /\
  v_nbytes v' = v_nbytes v /\ v_chunked v' = false /\ 0 <= v_cas v' < 2 ^ 64.

Lemma do_add_delta_ok e k p v n incr delta s m lru refs :
  store_rep hash s m lru refs -> below 2 refs -> no_crawler s m -> m !! k = Some p -> live_at cfg s m k = Some v ->
  v_chunked v = false -> value_ok v -> spells (v_data v) n -> refused_number (v_data v) (beyond e) n = false -> 0 <= delta < 2 ^ 64 ->
  400 <= slab_chunk_size_max cfg ->
  let n' := delta_value incr n delta in
  exists ret s' m' lru', do_add_delta hash cfg e k incr delta None (hash k) false s = Ret (ret, None, itoa_u64 n', None, s') /\
    store_rep hash s' m' lru' refs /\ delta_result k v n' s m ret s' m' /\
    (refs p = 0 -> Z.of_nat (length (itoa_u64 n')) + 2 <= v_nbytes v ->
       ret = OK /\ exists v', value_at s' m' k = Some v' /\ v_mac v' = v_mac v /\ v_index v' = v_index v /\ in_place_value v n' v' /\ m' !! k = Some p).
Proof.
  intros R Hb Hc Hkp Hlive Hch [Hv1 Hv2] Hnum Href Hdelta Hslab n'.
  destruct (spells_parsed _ n (beyond e) Hnum) as (y & Hparse & Hy). destruct (Hy Href) as [-> Hn].
  destruct (do_item_get_ok hash cfg s m lru refs k (queued e) R) as (r & s1 & m1 & lru1 & E1 & R1 & K1 & _ & _ & Hk1 & Hl1 & Hm1);
    [by apply (below_le 2); [|lia]|].
  rewrite Hlive in Hl1. destruct r as [p'|]; [|done]. pose proof (Hm1 ltac:(by eexists)) as ->. assert (p' = p) as -> by congruence.
  unfold do_add_delta. rewrite E1. cbn [mbind outcome_bind]. cbn [got_refs] in R1.
  destruct (store_linked _ _ _ _ _ _ _ R1 Hk1) as (it & Hp & Hkey & Hlk). destruct (K1 p it Hp) as (x & Ex & V). rewrite Ex in Hl1. injection Hl1 as ->.
  rewrite <- V in Hch, Hv1, Hv2, Hnum, Href, Hparse. simpl in Hch, Hv1, Hv2, Hnum, Href, Hparse.
  rewrite (get_item_ok _ _ _ Hp). cbn [mbind outcome_bind]. assert (2 < length (it_data it))%nat as Hlong.
  { destruct Hnum as (ds & pad & _ & Hne & _ & ->). rewrite !length_app. destruct ds; [done|simpl; lia]. }
  rewrite (proj2 (Z.leb_gt _ _)), Hch by lia. cbn [orb]. unfold plain_data, ITEM_data. rewrite Hch. cbn [mbind outcome_bind].
  rewrite Hparse, Href. cbn [mbind outcome_bind negb]. fold n'. set (buf := itoa_u64 n').
  pose proof (delta_range incr n delta ltac:(lia) Hdelta) as Hn'. fold n' in Hn'.
  assert (length buf <= 20)%nat as Hlb by (by apply itoa_u64_length).
  assert (buf <> []) as Hbne by (unfold buf; rewrite itoa_u64_dec by done; by apply dec_digits).
  destruct (sr_refs _ _ _ _ _ R1 p it Hp) as (Er & _). rewrite set_refs_eq, Hlk in Er.
  destruct (sr_refs _ _ _ _ _ R p x Ex) as (_ & Hr0 & _).
  assert (value_at s1 m k = Some (value_of x)) as Hval by (unfold value_at; by rewrite Hkp, Hp; simpl; rewrite V).
  assert (forall k', value_at s1 m k' = value_at s m k') as Hsame.
  { intros k'. eapply (value_at_same hash); [exact R1|done|]. intros q i' _. apply K1. }
  destruct ((Z.of_nat (length buf) + 2 <=? it_nbytes it) && (it_refcount it =? 2)) eqn:Hcond.
  - apply andb_true_iff in Hcond as [Hfit%Z.leb_le Hone%Z.eqb_eq].
    destruct (in_place s1 m lru1 refs k p it None buf R1 Hr0 Hk1 Hp Hch Hv2 Hfit)
      as (s' & lru' & v' & cas' & E & C' & R' & K' & Hv' & Hrec & Hdat & Hnb & Hmac & Hidx & _ & Hch' & Hcas').
    rewrite (C' eq_refl) in E. specialize (Hdat n Hnum).
    exists OK, s', m, lru'. split; [exact E|]. split; [done|]. split; [split|].
    + intros k' Hk'. left. rewrite <- Hsame. eapply (value_at_same hash); [exact R'|done|]. intros q i' Hq. apply K'.
      intros ->. destruct (store_linked _ _ _ _ _ _ _ R Hq) as (y & Ey & Ky & _), (store_linked _ _ _ _ _ _ _ R Hkp) as (z & Ez & Kz & _). congruence.
    + right. split; [done|]. exists v'. split; [done|]. split; [by rewrite <- V|]. split; [by eexists|]. split; [lia|].
      rewrite Hdat, Hnb, !length_app, length_replicate. simpl. lia.
    + intros _ _. split; [done|]. exists v'. rewrite <- V. unfold in_place_value. simpl. rewrite Hdat. done.
  - rewrite (proj2 (Z.ltb_lt 1 (it_refcount it))) by lia.
    destruct (replaced e s1 m lru1 refs k p it None buf R1 Hr0 Hk1 Hp Hkey Hb) as (ret & cas' & s' & m' & lru' & E & C' & R' & Ho & Hres); try done.
    { by eapply no_crawler_keeps. } { apply small_item; lia. }
    rewrite (C' eq_refl) in E. exists ret, s', m', lru'. split; [exact E|]. split; [done|]. split; [split|].
    + intros k' Hk'. rewrite <- Hsame. by apply Ho.
    + destruct Hres as [[-> Hv]|[-> (v' & Hv & Hrec & Hdat & Hnb & _)]]; [left; split; [done|]; by rewrite Hv, Hval|right].
      split; [done|]. exists v'. split; [done|]. split; [by rewrite <- V|]. split; [exists 0%nat; by rewrite Hdat|].
      split; [lia|]. rewrite Hdat, Hnb, length_app. simpl. lia.
    + intros Hr Hfit. apply andb_false_iff in Hcond as [Hbad%Z.leb_gt|Hbad%Z.eqb_neq]; [|lia].
      rewrite <- V in Hfit. simpl in Hfit. fold buf in Hfit. lia.
Qed.
(** A number that is refused changes nothing. *)
Lemma do_add_delta_refused e k p v n incr delta s m lru refs :
  store_rep hash s m lru refs -> below 2 refs -> m !! k = Some p -> live_at cfg s m k = Some v ->
  v_chunked v = false -> value_ok v -> spells (v_data v) n -> refused_number (v_data v) (beyond e) n = true ->
  exists s' lru', do_add_delta hash cfg e k incr delta None (hash k) false s = Ret (NON_NUMERIC, None, [], None, s') /\
    store_rep hash s' m lru' refs /\ (forall k', value_at s' m k' = value_at s m k').
Proof.
  intros R Hb Hkp Hlive Hch [Hv1 Hv2] Hnum Href. destruct (spells_parsed _ n (beyond e) Hnum) as (y & Hparse & _).
  destruct (do_item_get_ok hash cfg s m lru refs k (queued e) R) as (r & s1 & m1 & lru1 & E1 & R1 & K1 & _ & _ & Hk1 & Hl1 & Hm1);
    [by apply (below_le 2); [|lia]|].
  rewrite Hlive in Hl1. destruct r as [p'|]; [|done]. pose proof (Hm1 ltac:(by eexists)) as ->. assert (p' = p) as -> by congruence.
  unfold do_add_delta. rewrite E1. cbn [mbind outcome_bind]. cbn [got_refs] in R1.
  destruct (store_linked _ _ _ _ _ _ _ R1 Hk1) as (it & Hp & _ & _). destruct (K1 p it Hp) as (x & Ex & V). rewrite Ex in Hl1. injection Hl1 as ->.
  rewrite <- V in Hch, Hv1, Hv2, Href, Hparse. simpl in Hch, Hv1, Hv2, Href, Hparse.
  rewrite (get_item_ok _ _ _ Hp). cbn [mbind outcome_bind].
  destruct (release hash s1 m lru1 _ p R1) as (s2 & E2 & R2 & K2 & _); [rewrite set_refs_eq; destruct (sr_refs _ _ _ _ _ R p x Ex) as (_ & ? & _); lia|].
  exists s2, lru1. split; [|split].
  - assert (((it_nbytes it <=? 2) || has_flag ITEM_CHUNKED it) = false \/ ((it_nbytes it <=? 2) || has_flag ITEM_CHUNKED it) = true) as [-> | ->]
      by (destruct (_ || _); auto); [|by rewrite E2].
    unfold plain_data, ITEM_data. rewrite Hch. cbn [mbind outcome_bind]. rewrite Hparse, Href. cbn [mbind outcome_bind negb]. by rewrite E2.
  - eapply store_rep_refs; [exact R2|]. intros q. unfold set_refs. repeat case_decide; subst; lia || done.
  - intros k'. eapply (value_at_same hash); [exact R2|done|]. intros q i' _ Ei'. destruct (K2 q i' Ei') as (i1 & Ei1 & V1'). destruct (K1 q i1 Ei1) as (i0 & Ei0 & V0).
    exists i0. split; [done|congruence].
Qed.
End Delta.
