(* ===== verification/Samples.v ===== *)
(** * A concrete store

    The instances and small states on which the theorems about the store are tried: the hash table
    of assoc.c, an allocator that never runs out, and an item that has been allocated and filled. *)

From S2P Require Import AssocFacts.
From S2P Require Import Prelude Items LruFacts ItemsFacts ItemAlloc ItemAllocFacts Store StoreFacts.
From S2P Require Import Assoc ItemTableAssoc.

Local Open Scope Z_scope.

(** An allocator that never runs out of chunks. *)
#[export] Instance fresh_slabs : SlabAllocator := fun _ ntotal _ h =>
  Some (fresh (dom h), mkItem None None 0 0 0 0 0 0 [] (replicate 16 0) 0 0 0 (replicate (Z.to_nat ntotal) 0) []).

#[export] Instance fresh_slabs_laws : SlabAllocatorLaws.
Proof.
  intros n ntotal id h p junk [= <- <-]. split; [apply not_elem_of_dom, is_fresh|]. split; [done|]. simpl.
  rewrite length_replicate. split; [lia|]. apply Forall_replicate. unfold byte_ok. lia.
Qed.

Definition sample_cfg : settings :=
  mkSettings true true false 61 0 0 1048576 524288 [96; 192; 384; 768; 1536] 100 true 0 20 40.
Definition empty_table : assoc :=
  match assoc_init 1 true ∅ with Ret a => a | _ => mkAssoc 0 [] [] false 0 ∅ (mkHashStats 0 0 false) end.
Definition empty_store : store assoc := mkStore ∅ empty_table ∅ ∅ ∅ ∅ 0 0 0 0.

Lemma empty_store_initial : initial first_byte empty_store.
Proof. split_and!; try done. by apply (assoc_init_rep first_byte 1 ∅ empty_table). Qed.

Lemma empty_store_rep : store_rep first_byte empty_store ∅ (fun _ => []) (fun _ => 0).
Proof. exact (initial_rep first_byte empty_store empty_store_initial). Qed.

(** The item of the command "set a 5 0 1" when its value "x" has been read. *)
Definition sample_item : item :=
  mkItem None None 0 0 3 1 (ITEM_CAS + ITEM_CFLAGS) 1 [97] (replicate 16 0) 0 0 5 [120; 13; 10] [].

Definition sample_refs : positive -> Z := set_refs 1 1 (fun _ => 0).

Lemma below_sample n : n <= 100 -> below n sample_refs.
Proof. intros Hn q. unfold sample_refs, set_refs, IT_REFCOUNT_LIMIT. case_decide; lia. Qed.


(** A store that holds this item for a client, and nothing else. *)
Definition loaded_store : store assoc := with_heap (<[1%positive := sample_item]> ∅) empty_store.

Lemma loaded_store_rep : store_rep first_byte loaded_store ∅ (fun _ => []) sample_refs.
Proof. by apply (store_rep_alloc first_byte empty_store ∅ (fun _ => []) (fun _ => 0) 1 sample_item); [apply empty_store_rep|..]. Qed.

(** The answers of a server that is alone with its client. *)
Definition sample_item_env : env := mkEnv (fun _ => true) true [].

Lemma loaded_store_ready comm : joins comm = false -> store_ready sample_cfg loaded_store ∅ sample_refs 1 sample_item comm.
Proof.
  intros Hj. split; [by apply below_sample|]. split; [intros k p i H; by rewrite lookup_empty in H|].
  by split_and!.
Qed.
