(* ===== verification/StoreTheorems.v ===== *)
(** * What the store guarantees

    The operations of items.c as the steps of a machine whose clients only use items they hold a
    reference to, the allocator, and the storage commands. *)

From S2P Require Import AssocFacts.
From S2P Require Import Prelude Items LruFacts ItemsFacts ItemAlloc ItemAllocFacts Util Itoa Store.
From S2P Require Import StoreFacts DeltaFacts.
From S2P Require Import Assoc ItemTableAssoc Samples.

Local Open Scope Z_scope.

Section Machine.
Context {T : Type} {table_ops : ItemTable T} {slabs : SlabAllocator} (hash : list Z -> Z).
Context {table_laws : ItemTableLaws hash T} {slab_laws : SlabAllocatorLaws} (cfg : settings).
Context (no_repair : tail_repair_time cfg = 0).
Implicit Types (s : store T) (m : gmap (list Z) positive) (refs : positive -> Z).

(** ** The operations of items.c *)

Inductive item_op :=
| OpAlloc (trylock : Z -> bool) (key : list Z) (flags exptime nbytes : Z)
| OpGet (key : list Z) (do_update queued : bool)
| OpTouch (key : list Z) (exptime : Z) (queued : bool)
| OpLink (p : positive)
| OpUnlink (p : positive)
| OpReplace (p new_p : positive)
| OpUpdate (p : positive)
| OpRemove (p : positive)
| OpPull (trylock : Z -> bool) (orig_id cur_lru total_bytes max_age : Z) (evict : bool).

Definition on_key (p : positive) (f : Z -> store T -> outcome (store T)) s : outcome (option positive * store T) :=
  it ← get_item p s; s ← f (hash (item_key it)) s; Ret (None, s).

(** The item an operation returns, if any, and the new store. *)
Definition do_op (op : item_op) s : outcome (option positive * store T) :=
  match op with
  | OpAlloc trylock key flags exptime nbytes => do_item_alloc hash cfg trylock key flags exptime nbytes s
  | OpGet key do_update queued => do_item_get cfg key (hash key) do_update queued s
  | OpTouch key exptime queued => do_item_touch cfg key exptime (hash key) queued s
  | OpLink p => on_key p (do_item_link cfg p) s
  | OpUnlink p => on_key p (do_item_unlink p) s
  | OpReplace p new_p => on_key p (do_item_replace cfg p new_p) s
  | OpUpdate p => s ← do_item_update cfg p s; Ret (None, s)
  | OpRemove p => s ← do_item_remove p s; Ret (None, s)
  | OpPull trylock orig_id cur_lru total_bytes max_age evict =>
      '(_, _, s) ← lru_pull_tail hash cfg trylock orig_id cur_lru total_bytes (if evict then LRU_PULL_EVICT else 0) max_age s;
      Ret (None, s)
  end.

(** What a client may do when it holds [refs]: it uses only items it holds, links an item once
    and only under a key that has none, and replaces a linked item by one that is not. *)
Definition allowed (op : item_op) s refs : Prop :=
  below 2 refs /\
  match op with
  | OpAlloc _ _ _ _ _ | OpGet _ _ _ | OpTouch _ _ _ | OpPull _ _ _ _ _ _ => True
  | OpUnlink p | OpUpdate p | OpRemove p => 0 < refs p
  | OpLink p => 0 < refs p /\ forall it, heap s !! p = Some it ->
      linked it = false /\ tbl_find (item_key it) (hash (item_key it)) (table s) = Ret None
  | OpReplace p q => 0 < refs p /\ 0 < refs q /\ forall it new, heap s !! p = Some it -> heap s !! q = Some new ->
      linked it = true /\ linked new = false /\ item_key new = item_key it
  end.

(** The references held afterwards: allocations and lookups give one, and a lookup may leave one
    with the queue of items to be bumped. *)
Definition refs_after (op : item_op) s (r : option positive) refs : positive -> Z :=
  match op, r with
  | OpAlloc _ _ _ _ _, Some p => set_refs p 1 refs
  | OpGet _ upd queued, Some p =>
      let refs1 := set_refs p (refs p + 1) refs in
      if upd then match heap s !! p with Some i => bump_refs cfg queued p i refs1 | None => refs1 end else refs1
  | OpTouch _ _ queued, Some p =>
      let refs1 := set_refs p (refs p + 1) refs in
      match heap s !! p with Some i => bump_refs cfg queued p i refs1 | None => refs1 end
  | OpRemove p, _ => set_refs p (refs p - 1) refs
  | _, _ => refs
  end.

Inductive reachable : store T -> (positive -> Z) -> Prop :=
| reach_init s : initial hash s -> reachable s (fun _ => 0)
| reach_step s refs op r s' : reachable s refs -> allowed op s refs -> do_op op s = Ret (r, s') ->
    reachable s' (refs_after op s r refs).

(** ** The invariant *)

(** Items are at least as long as a line break, so that none looks like a crawler. *)
Definition sized s : Prop := forall p i, heap s !! p = Some i -> 2 <= it_nbytes i.

Definition inv s refs : Prop := sized s /\ exists m lru, store_rep hash s m lru refs.

Lemma sized_keeps s s' : sized s -> keeps (heap s) (heap s') -> sized s'.
Proof. intros H K p i' E. destruct (K p i' E) as (i & Ei & V). apply (f_equal v_nbytes) in V. simpl in V. rewrite V. by apply (H p). Qed.

Lemma sized_but p s s' i : sized s -> keeps_but p (heap s) (heap s') -> heap s' !! p = Some i -> 2 <= it_nbytes i -> sized s'.
Proof.
  intros H K Hp Hi q j E. destruct (decide (q = p)) as [->|Hq]; [congruence|].
  destruct (K q j Hq E) as (x & Ex & V). apply (f_equal v_nbytes) in V. simpl in V. rewrite V. by apply (H q).
Qed.

Lemma sized_crawler s m : sized s -> no_crawler s m.
Proof. intros H k p i _. apply H. Qed.

Lemma step_keeps s s' m lru refs : sized s -> keeps (heap s) (heap s') -> store_rep hash s' m lru refs -> inv s' refs.
Proof. intros H K R. split; [by eapply sized_keeps|eauto]. Qed.

(** The result of an operation. *)
Definition fine (op : item_op) s refs : Prop :=
  exists r s', do_op op s = Ret (r, s') /\ inv s' (refs_after op s r refs).

Lemma get_fine k upd queued s m lru refs : store_rep hash s m lru refs -> sized s -> below 2 refs ->
  exists r s' m' lru', do_item_get cfg k (hash k) upd queued s = Ret (r, s') /\
    store_rep hash s' m' lru' (refs_after (OpGet k upd queued) s r refs) /\ keeps (heap s) (heap s') /\
    (forall p, r = Some p -> 0 < refs_after (OpGet k upd queued) s r refs p).
Proof.
  intros R Hs Hb. destruct (m !! k) as [p|] eqn:Hk.
  - destruct (store_linked _ _ _ _ _ _ _ R Hk) as (i & Hp & Hki & Hl).
    destruct (sr_refs _ _ _ _ _ R p i Hp) as (Er & E0 & _). specialize (Hb p). unfold IT_REFCOUNT_LIMIT in Hb. rewrite Hl in Er.
    destruct (do_item_get_some hash cfg s m lru refs k p i upd queued R Hk Hp) as (s' & lru' & E & R' & K & _); [lia|].
    destruct (live cfg i).
    + exists (Some p), s', m, lru'. simpl. rewrite Hp. split; [done|]. split; [done|]. split; [done|]. intros q [= <-].
      unfold bump_refs, set_refs. repeat case_match; repeat case_decide; lia || done.
    + by exists None, s', (base.delete k m), lru'.
  - exists None, s, m, lru. rewrite (do_item_get_none hash cfg s m lru refs) by done. split_and!; auto using keeps_refl; done.
Qed.

Lemma touch_fine k t queued s m lru refs : store_rep hash s m lru refs -> sized s -> below 2 refs ->
  fine (OpTouch k t queued) s refs.
Proof.
  intros R Hs Hb. unfold fine. cbn [do_op]. unfold do_item_touch.
  destruct (get_fine k true queued s m lru refs R Hs Hb) as (r & s' & m' & lru' & -> & R' & K & Hr). cbn [mbind outcome_bind].
  destruct r as [p|]; [|eexists _, _; split; [done|by eapply step_keeps]].
  destruct (store_held _ _ _ _ _ p R') as (i & Hp); [by apply Hr|]. rewrite (upd_item_ok _ _ _ _ Hp). cbn [mbind outcome_bind].
  eexists _, _. split; [done|]. split.
  - apply (sized_but p s' _ (set_exptime t i)); [by eapply sized_keeps| |apply lookup_insert_eq|exact (sized_keeps s s' Hs K p i Hp)].
    intros q j Hq E. simpl in E. rewrite lookup_insert_ne in E by done. by exists j.
  - exists m', lru'. apply (store_rep_upd' hash s' m' lru' _ p i (set_exptime t)); try done.
    by destruct (sr_refs _ _ _ _ _ R' p i Hp) as (_ & _ & _ & ?).
Qed.

Lemma held_present s m lru refs p : store_rep hash s m lru refs -> 0 < refs p -> exists i, heap s !! p = Some i.
Proof. intros R H. by apply (store_held _ _ _ _ _ p R). Qed.

Lemma link_fine p s m lru refs : store_rep hash s m lru refs -> sized s -> allowed (OpLink p) s refs -> fine (OpLink p) s refs.
Proof.
  intros R Hs (Hb & Hr & Ha). destruct (held_present _ _ _ _ _ R Hr) as (i & Hp). destruct (Ha i Hp) as [Hl Hf].
  rewrite (tbl_find_law _ _ _ (sr_table _ _ _ _ _ R)) in Hf. injection Hf as Hf.
  destruct (sr_refs _ _ _ _ _ R p i Hp) as (Er & _). rewrite Hl in Er. specialize (Hb p). unfold IT_REFCOUNT_LIMIT in Hb.
  destruct (do_item_link_ok hash cfg s m lru refs p i R Hp Hl Hf) as (s' & lru' & i' & E & R' & K & Hp' & V & _); [lia|].
  exists None, s'. unfold do_op, on_key. rewrite (get_item_ok _ _ _ Hp). cbn [mbind outcome_bind]. rewrite E. split; [done|].
  split; [|eauto]. apply (sized_but p s s' i' Hs K Hp'). apply (f_equal v_nbytes) in V. simpl in V. rewrite V. by apply (Hs p).
Qed.

Lemma unlink_fine p s m lru refs : store_rep hash s m lru refs -> sized s -> 0 < refs p -> fine (OpUnlink p) s refs.
Proof.
  intros R Hs Hr. destruct (held_present _ _ _ _ _ R Hr) as (i & Hp).
  unfold fine, do_op, on_key. rewrite (get_item_ok _ _ _ Hp). cbn [mbind outcome_bind].
  destruct (linked i) eqn:Hl.
  - destruct (do_item_unlink_ok hash s m lru refs p i R Hp Hl) as (s' & -> & R' & K & _).
    exists None, s'. split; [done|]. by eapply step_keeps.
  - unfold do_item_unlink. rewrite (get_item_ok _ _ _ Hp). cbn [mbind outcome_bind]. change (has_flag ITEM_LINKED i) with (linked i).
    rewrite Hl. exists None, s. split; [done|]. split; [done|]. eauto.
Qed.

Lemma replace_fine p q s m lru refs : store_rep hash s m lru refs -> sized s -> allowed (OpReplace p q) s refs ->
  fine (OpReplace p q) s refs.
Proof.
  intros R Hs (Hb & Hr & Hq & Ha). destruct (held_present _ _ _ _ _ R Hr) as (i & Hp), (held_present _ _ _ _ _ R Hq) as (j & Hj).
  destruct (Ha i j Hp Hj) as (Li & Lj & Hk).
  destruct (sr_refs _ _ _ _ _ R q j Hj) as (Er & _). rewrite Lj in Er. specialize (Hb q). unfold IT_REFCOUNT_LIMIT in Hb.
  destruct (do_item_replace_ok hash cfg s m lru refs p i q j R Hp Li Hj Lj Hk) as (s' & lru' & j' & E & R' & K & Hj' & V & _); [lia|].
  exists None, s'. unfold do_op, on_key. rewrite (get_item_ok _ _ _ Hp). cbn [mbind outcome_bind]. rewrite E. split; [done|].
  split; [|eauto]. apply (sized_but q s s' j' Hs K Hj'). apply (f_equal v_nbytes) in V. simpl in V. rewrite V. by apply (Hs q).
Qed.

Lemma alloc_fine trylock key flags exptime nbytes s m lru refs : store_rep hash s m lru refs -> sized s -> below 2 refs ->
  fine (OpAlloc trylock key flags exptime nbytes) s refs.
Proof.
  intros R Hs Hb. destruct (do_item_alloc_ok hash cfg trylock no_repair key flags exptime nbytes s m lru refs) as (r & s' & E & A & Hn);
    [by apply (below_room 2)|done|by apply sized_crawler|].
  exists r, s'. split; [done|]. destruct r as [p|].
  - destruct A as (m' & lru' & i & R' & _ & _ & _ & K & _ & Hp & Hi). split; [|simpl; eauto].
    apply (sized_but p s s' i Hs K Hp). rewrite (fi_nbytes _ _ _ _ _ _ Hi). apply Hn. by eexists.
  - destruct A as (m' & lru' & R' & _ & K & _). by eapply step_keeps.
Qed.

(** Progress and preservation. *)
Lemma op_fine op s refs : inv s refs -> allowed op s refs -> fine op s refs.
Proof.
  intros (Hs & m & lru & R) Ha. pose proof Ha as [Hb Ha']. destruct op; simpl in Ha'.
  - by eapply alloc_fine.
  - destruct (get_fine key do_update queued s m lru refs R Hs Hb) as (r & s' & m' & lru' & E & R' & K & _).
    exists r, s'. split; [done|]. by eapply step_keeps.
  - by eapply touch_fine.
  - by eapply link_fine.
  - by eapply unlink_fine.
  - by eapply replace_fine.
  - destruct (held_present _ _ _ _ _ R Ha') as (i & Hp).
    destruct (do_item_update_ok hash cfg s m lru refs p i R Hp) as (s' & lru' & E & R' & K & _).
    exists None, s'. simpl. rewrite E. split; [done|]. by eapply step_keeps.
  - destruct (release hash s m lru refs p R Ha') as (s' & E & R' & K & _).
    exists None, s'. simpl. rewrite E. split; [done|]. by eapply step_keeps.
  - destruct (lru_pull_tail_ok hash cfg trylock no_repair orig_id cur_lru total_bytes (if evict then LRU_PULL_EVICT else 0) max_age s m lru refs)
      as (n & s' & E & m' & lru' & R' & _ & K & _); [by destruct evict|by apply (below_room 2)|done|by apply sized_crawler|].
    exists None, s'. simpl. rewrite E. split; [done|]. by eapply step_keeps.
Qed.

Lemma reachable_inv s refs : reachable s refs -> inv s refs.
Proof.
  induction 1 as [s Hi|s refs op r s' _ IH Ha E].
  - split; [|eexists _, _; by apply initial_rep]. destruct Hi as [Hi _]. intros p i. by rewrite Hi.
  - destruct (op_fine op s refs IH Ha) as (r1 & s1 & E1 & I1). congruence.
Qed.

(** C7: the item store is safe.  Whatever its clients do from the start, as long as they use only
    items they hold a reference to and keep below the limit of references: the hash table, the
    LRU lists, the flags and the reference counts stay consistent; the next operation returns, so
    that it trips no assertion, touches no freed item and terminates; and an item is in memory
    exactly as long as it is linked or somebody holds it. *)
Theorem items_safe (s : store T) (refs : positive -> Z) (H : reachable s refs) :
  (exists m lru, store_rep hash s m lru refs /\
     forall p, is_Some (heap s !! p) <-> 0 < refs p \/ exists k, m !! k = Some p) /\
  forall op, allowed op s refs -> exists r s', do_op op s = Ret (r, s') /\ reachable s' (refs_after op s r refs).
Proof.
  pose proof (reachable_inv s refs H) as I. split.
  - destruct I as (_ & m & lru & R). exists m, lru. split; [done|]. intros p. split.
    + intros [i Hp]. destruct (sr_refs _ _ _ _ _ R p i Hp) as (E & _ & E1 & _). destruct (linked i) eqn:L; [right|left; lia].
      exists (item_key i). by apply (sr_flag _ _ _ _ _ R p i).
    + intros [Hr|[k Hk]]; [by destruct (held_present _ _ _ _ _ R Hr) as [i ->]|].
      by destruct (sr_item _ _ _ _ _ R k p Hk) as (i & -> & _).
  - intros op Ha. destruct (op_fine op s refs I Ha) as (r & s' & E & _). exists r, s'. split; [done|]. by eapply reach_step.
Qed.

(** ** Allocation *)

(** C13: allocation is safe.  It terminates and keeps the store consistent; the item it returns was
    not in use, belongs to the caller alone, is not linked and has the key, flags, expiry time and
    length asked for.  To make room it may take keys out of the table, but never one whose lock
    another thread or the caller itself holds, and it changes no value. *)
Theorem alloc_respects_locks (trylock : Z -> bool) (key : list Z) (flags exptime nbytes : Z) (s : store T)
    (m : gmap (list Z) positive) (lru : Z -> list positive) (refs : positive -> Z)
    (R : store_rep hash s m lru refs) (Hroom : room refs) (Hc : no_crawler s m) :
  exists r s' m' lru', do_item_alloc hash cfg trylock key flags exptime nbytes s = Ret (r, s') /\
    store_rep hash s' m' lru' (match r with Some p => set_refs p 1 refs | None => refs end) /\
    (forall k, trylock (hash k) = false -> value_at s' m' k = value_at s m k) /\
    (forall k, value_at s' m' k = value_at s m k \/ m' !! k = None) /\
    (forall p, r = Some p -> refs p = 0 /\ (forall k, m' !! k <> Some p) /\
       exists i, heap s' !! p = Some i /\ fresh_item cfg key flags exptime nbytes i).
Proof.
  destruct (do_item_alloc_ok hash cfg trylock no_repair key flags exptime nbytes s m lru refs Hroom R Hc) as (r & s' & E & A & _).
  assert (exists m' lru', store_rep hash s' m' lru' (match r with Some p => set_refs p 1 refs | None => refs end) /\
    reclaimed hash trylock m m' /\ (forall k q i', m' !! k = Some q -> heap s' !! q = Some i' -> exists i, heap s !! q = Some i /\ value_of i' = value_of i) /\
    (forall p, r = Some p -> refs p = 0 /\ (forall k, m' !! k <> Some p) /\
       exists i, heap s' !! p = Some i /\ fresh_item cfg key flags exptime nbytes i)) as (m' & lru' & R' & [D1 D2] & K & Hp).
  { destruct r as [p|].
    - destruct A as (m' & lru' & i & R' & D & Hr & Hm & K & _ & Hp & Hi). exists m', lru'. split_and!; try done.
      + intros k q i' Hk. apply K. intros ->. by apply (Hm k).
      + intros q [= <-]. eauto.
    - destruct A as (m' & lru' & R' & D & K & _). exists m', lru'. split_and!; try done. intros k q i' _. apply K. }
  assert (forall k, m' !! k = m !! k -> value_at s' m' k = value_at s m k) as Hsame.
  { intros k Hk. eapply (value_at_same hash); [exact R'|done|]. intros q i' Hq. apply (K k). congruence. }
  exists r, s', m', lru'. split_and!; try done.
  - intros k Hk. by apply Hsame, D2.
  - intros k. destruct (m' !! k) as [q|] eqn:Hk; [left|by right]. apply Hsame. rewrite Hk. symmetry. by eapply lookup_weaken.
Qed.

(** ** The storage commands *)

(** C6: the storage commands implement their specification.  For an item the connection holds,
    [do_store_item] returns, with the answer the protocol prescribes for set, add, replace, append,
    prepend and cas from the value the key had and the CAS numbers; it stores the value exactly
    when it says so, with a new CAS number, and counts it; it changes no other key, except that an
    append or prepend, which has to allocate, may evict some and may run out of memory; and the
    store stays consistent. *)
Theorem do_store_item_correct (e : env) (set_stale : bool) (s : store T) (m : gmap (list Z) positive)
    (lru : Z -> list positive) (refs : positive -> Z) (p : positive) (it : item) (comm : nread)
    (R : store_rep hash s m lru refs) (H : store_ready cfg s m refs p it comm) :
  exists ret cas s' m' lru', do_store_item hash cfg e set_stale p comm (hash (item_key it)) s = Ret (ret, cas, s') /\
    store_result hash cfg comm set_stale p (value_of it) s m refs ret cas s' m' lru'.
Proof. by apply (do_store_item_ok hash cfg no_repair e set_stale s m lru refs p it comm). Qed.

(** ** Increments and decrements *)

(** C14: incr and decr.  On a live item whose value is a decimal number [n], perhaps with leading
    zeros and blanks behind it, [add_delta] answers with the sum modulo 2^64, or with the difference,
    which stops at zero; afterwards the value of the key spells that number, with the flags and the
    expiry time it had, unless a new item was needed and there was no memory for it, in which case the
    value is unchanged.  Other keys may at most be evicted.  When the new number fits and nobody else
    holds the item it is overwritten in place, and its authentication code and leaf stay those of the
    old value.  A number of 2^64 or more is refused as not numeric and nothing changes; so is one of
    2^63 or more when a minus sign comes before the next zero byte, which the code looks for beyond
    the end of the value. *)
Theorem add_delta_correct (e : env) (k : list Z) (p : positive) (v : value) (n : Z) (incr : bool) (delta : Z)
    (s : store T) (m : gmap (list Z) positive) (lru : Z -> list positive) (refs : positive -> Z)
    (R : store_rep hash s m lru refs) (Hb : below 2 refs) (Hc : no_crawler s m)
    (Hk : m !! k = Some p) (Hlive : live_at cfg s m k = Some v) (Hplain : v_chunked v = false) (Hv : value_ok v)
    (Hnum : spells (v_data v) n) (Hdelta : 0 <= delta < 2 ^ 64) (Hslab : 400 <= slab_chunk_size_max cfg) :
  let n' := if incr then (n + delta) mod 2 ^ 64 else Z.max 0 (n - delta) in
  if refused_number (v_data v) (beyond e) n then
    exists s' lru', add_delta hash cfg e k incr delta None s = Ret (NON_NUMERIC, None, [], None, s') /\
      store_rep hash s' m lru' refs /\ (forall k', value_at s' m k' = value_at s m k')
  else
    exists ret s' m' lru', add_delta hash cfg e k incr delta None s = Ret (ret, None, itoa_u64 n', None, s') /\
      store_rep hash s' m' lru' refs /\ delta_result k v n' s m ret s' m' /\
      (refs p = 0 -> Z.of_nat (length (itoa_u64 n')) + 2 <= v_nbytes v ->
         ret = OK /\ exists v', value_at s' m' k = Some v' /\ v_mac v' = v_mac v /\ v_index v' = v_index v /\ in_place_value v n' v' /\ m' !! k = Some p).
Proof.
  intros n'. destruct (refused_number (v_data v) (beyond e) n) eqn:Href.
  - by apply (do_add_delta_refused hash cfg e k p v n incr delta s m lru refs).
  - assert (delta_value incr n delta = n') as En.
    { unfold delta_value, n'. destruct incr; [done|]. destruct (Z.ltb_spec n delta); lia. }
    pose proof (do_add_delta_ok hash cfg no_repair e k p v n incr delta s m lru refs R Hb Hc Hk Hlive Hplain Hv Hnum Href Hdelta Hslab) as H.
    cbn zeta in H. rewrite En in H. exact H.
Qed.
End Machine.

(** ** Witnesses *)

Lemma items_safe_witness : exists r s', do_op first_byte sample_cfg (OpAlloc (fun _ => true) [97] 5 0 3) empty_store = Ret (r, s') /\
  reachable first_byte sample_cfg s' (refs_after sample_cfg (OpAlloc (fun _ => true) [97] 5 0 3) empty_store r (fun _ => 0)).
Proof.
  apply (items_safe first_byte sample_cfg eq_refl empty_store (fun _ => 0)).
  - apply reach_init. exact empty_store_initial.
  - split; [|exact I]. intros q. unfold IT_REFCOUNT_LIMIT. lia.
Defined.

Lemma alloc_respects_locks_witness : exists r s', do_item_alloc first_byte sample_cfg (fun h => h =? 97) [98] 0 0 10 loaded_store = Ret (r, s') /\
  r = Some 2%positive.
Proof.
  destruct (alloc_respects_locks first_byte sample_cfg eq_refl (fun h => h =? 97) [98] 0 0 10 loaded_store ∅ (fun _ => []) sample_refs
    loaded_store_rep) as (r & s' & m' & lru' & E & _).
  - apply (below_room 2); [by apply below_sample|lia].
  - intros k p i H. by rewrite lookup_empty in H.
  - exists r, s'. split; [exact E|]. vm_compute in E. by injection E as <-.
Defined.

Lemma do_store_item_correct_witness : exists cas s' m', do_store_item first_byte sample_cfg sample_item_env false 1 NREAD_ADD 97 loaded_store = Ret (STORED, cas, s') /\
  value_at s' m' [97] = Some (relinked 1 (value_of sample_item)).
Proof.
  destruct (do_store_item_correct first_byte sample_cfg eq_refl sample_item_env false loaded_store ∅ (fun _ => []) sample_refs 1 sample_item NREAD_ADD
    loaded_store_rep (loaded_store_ready NREAD_ADD eq_refl)) as (ret & cas & s' & m' & lru' & E & _ & _ & _ & H).
  destruct H as [(-> & (v & Hv & <- & _) & _)|[H _]]; [|discriminate H]. exists cas, s', m'. split; [exact E|exact Hv].
Defined.

(** An item that holds the number 5, and a store in which it is linked. *)
Definition counter_item : item := set_data [53; 13; 10] sample_item.
Definition counter_store : store assoc := with_heap (<[1%positive := counter_item]> ∅) empty_store.

Lemma counter_linked : exists s m lru v, store_rep first_byte s m lru sample_refs /\ no_crawler s m /\ m !! [97] = Some 1%positive /\
  live_at sample_cfg s m [97] = Some v /\ v_data v = [53; 13; 10] /\ v_nbytes v = 3 /\ v_chunked v = false.
Proof.
  assert (store_rep first_byte counter_store ∅ (fun _ => []) sample_refs) as R
    by (by apply (store_rep_alloc first_byte empty_store ∅ (fun _ => []) (fun _ => 0) 1 counter_item); [apply empty_store_rep|..]).
  destruct (do_store_item_ok first_byte sample_cfg eq_refl sample_item_env false counter_store ∅ (fun _ => []) sample_refs 1 counter_item NREAD_ADD R)
    as (ret & cas & s & m & lru & E & R' & _ & Ho & H).
  { split; [by apply below_sample|]. split; [intros k p i H; by rewrite lookup_empty in H|]. by split_and!. }
  destruct H as [(_ & (v & Hv & <- & _) & Hm)|[H _]]; [|discriminate H]. specialize (Hm eq_refl).
  change (v_key (value_of counter_item)) with [97] in *.
  exists s, m, lru, (relinked (new_cas sample_cfg counter_store) (value_of counter_item)). split; [done|].
  unfold value_at in Hv. rewrite Hm in Hv. destruct (heap s !! 1%positive) as [i|] eqn:Hp; [|done]. simpl in Hv. apply (inj Some) in Hv.
  split; [|split; [done|split; [|by split_and!]]].
  - intros k p j Hk Hj. destruct (decide (k = [97])) as [->|Hne].
    + assert (j = i) as -> by congruence. assert (it_nbytes i = 3) by exact (f_equal v_nbytes Hv). lia.
    + destruct (Ho k Hne) as [Hx|[Hx _]]; [|discriminate Hx]. unfold value_at in Hx. rewrite Hk, Hj, lookup_empty in Hx. discriminate Hx.
  - unfold live_at. rewrite Hm, Hp, Hv. assert (it_exptime i = 0) as He by exact (f_equal v_exptime Hv).
    unfold live, item_is_flushed. by rewrite He.
Qed.

Lemma add_delta_correct_witness : exists s ret s', add_delta first_byte sample_cfg sample_item_env [97] true 7 None s = Ret (ret, None, [49; 50], None, s').
Proof.
  destruct counter_linked as (s & m & lru & v & R & Hc & Hm & Hl & Hd & Hn & Hch).
  pose proof (add_delta_correct first_byte sample_cfg eq_refl sample_item_env [97] 1 v 5 true 7 s m lru sample_refs R) as H.
  rewrite Hd in H. destruct H as (ret & s' & m' & lru' & E & _).
  - by apply below_sample.
  - exact Hc.
  - exact Hm.
  - exact Hl.
  - exact Hch.
  - split; [lia|]. by rewrite Hd, Hn.
  - exists [53], 0%nat. split; [constructor; [lia|constructor]|]. split; [discriminate|]. split; reflexivity.
  - lia.
  - vm_compute. discriminate.
  - exists s, ret, s'. exact E.
Defined.
