(* ===== verification/Conn.v ===== *)
(** * Connections and responses (src/memcached/memcached.c, memcached.h)

    A connection collects the answers to the commands it has read in a chain of response objects
    and sends them later; a response that carries the value of an item points into the item's
    memory and holds a reference to it until it is sent.  The state of the server is the
    connection, the store, the Merkle tree that protects it and the warnings it has printed. *)

From S2P Require Import Prelude Items Store MtArrayList MerkleTree.
From Stdlib Require Ascii String.
Import String.StringSyntax.

Local Open Scope string_scope.
Local Open Scope Z_scope.

Definition WRITE_BUFFER_SIZE : Z := 1024.
Definition MC_RESP_IOVCOUNT : Z := 4.
Definition KEY_MAX_LENGTH : Z := 250.

(** The bytes of a string literal. *)
Definition text (str : String.string) : list Z :=
  map (fun c => Z.of_nat (Ascii.nat_of_ascii c)) (String.list_ascii_of_string str).
Definition crlf : list Z := [13; 10].

Inductive conn_states :=
| conn_new_cmd | conn_waiting | conn_read | conn_parse_cmd | conn_nread | conn_swallow
| conn_closing | conn_mwrite.

(** A part of an answer: bytes of the response's own buffer or of a literal, or a pointer to the
    value of an item, which is read when the response is sent. *)
Inductive iov :=
| IovBuf (bytes : list Z)
| IovItem (p : positive) (len : Z)
| IovChunked (p : positive) (len : Z).

(** [struct _mc_resp]; [resp_wbuf] is what has been written to [wbuf] to be used later. *)
Record mc_resp := mkResp {
  resp_iov : list iov;
  resp_item : option positive;
  resp_skip : bool;
  resp_wbuf : list Z
}.

(** [struct conn]; the chain of responses from [resp_head] to [resp]. *)
Record conn := mkConn {
  c_state : conn_states;
  c_resps : list mc_resp;
  c_item : option positive;
  c_cmd : nread;
  c_rlbytes : Z;
  c_sbytes : Z;
  c_noreply : bool;
  c_set_stale : bool;
  c_mset_res : bool;
  c_cas : Z
}.

(** The warnings about the Merkle tree that go to the standard error output. *)
Inductive sev_message := UpdateFailed | VerificationFailed.

Record world (T : Type) := mkWorld {
  w_conn : conn;
  w_store : store T;
  w_tree : option mt_t;
  w_stderr : list sev_message
}.
Arguments mkWorld {T}.
Arguments w_conn {T}.
Arguments w_store {T}.
Arguments w_tree {T}.
Arguments w_stderr {T}.

Section Connection.
Context {T : Type} `{!ItemTable T}.

Definition with_conn (c : conn) (w : world T) : world T := mkWorld c (w_store w) (w_tree w) (w_stderr w).
Definition with_store (s : store T) (w : world T) : world T := mkWorld (w_conn w) s (w_tree w) (w_stderr w).
Definition with_tree (t : option mt_t) (w : world T) : world T := mkWorld (w_conn w) (w_store w) t (w_stderr w).
Definition warn (m : sev_message) (w : world T) : world T :=
  mkWorld (w_conn w) (w_store w) (w_tree w) (w_stderr w ++ [m]).

Definition upd_conn (f : conn -> conn) (w : world T) : world T := with_conn (f (w_conn w)) w.

Definition with_state (st : conn_states) (c : conn) : conn :=
  mkConn st (c_resps c) (c_item c) (c_cmd c) (c_rlbytes c) (c_sbytes c) (c_noreply c) (c_set_stale c) (c_mset_res c) (c_cas c).
Definition with_resps (l : list mc_resp) (c : conn) : conn :=
  mkConn (c_state c) l (c_item c) (c_cmd c) (c_rlbytes c) (c_sbytes c) (c_noreply c) (c_set_stale c) (c_mset_res c) (c_cas c).
Definition with_item (p : option positive) (c : conn) : conn :=
  mkConn (c_state c) (c_resps c) p (c_cmd c) (c_rlbytes c) (c_sbytes c) (c_noreply c) (c_set_stale c) (c_mset_res c) (c_cas c).
Definition with_nread (comm : nread) (n : Z) (c : conn) : conn :=
  mkConn (c_state c) (c_resps c) (c_item c) comm n (c_sbytes c) (c_noreply c) (c_set_stale c) (c_mset_res c) (c_cas c).
Definition with_sbytes (n : Z) (c : conn) : conn :=
  mkConn (c_state c) (c_resps c) (c_item c) (c_cmd c) (c_rlbytes c) n (c_noreply c) (c_set_stale c) (c_mset_res c) (c_cas c).
Definition with_noreply (b : bool) (c : conn) : conn :=
  mkConn (c_state c) (c_resps c) (c_item c) (c_cmd c) (c_rlbytes c) (c_sbytes c) b (c_set_stale c) (c_mset_res c) (c_cas c).
Definition with_mset (stale res : bool) (c : conn) : conn :=
  mkConn (c_state c) (c_resps c) (c_item c) (c_cmd c) (c_rlbytes c) (c_sbytes c) (c_noreply c) stale res (c_cas c).
Definition with_cas (n : Z) (c : conn) : conn :=
  mkConn (c_state c) (c_resps c) (c_item c) (c_cmd c) (c_rlbytes c) (c_sbytes c) (c_noreply c) (c_set_stale c) (c_mset_res c) n.

Definition conn_set_state (st : conn_states) (w : world T) : world T := upd_conn (with_state st) w.

(** An operation of the store. *)
Definition on_store (f : store T -> outcome (store T)) (w : world T) : outcome (world T) :=
  s ← f (w_store w); Ret (with_store s w).

(** ** Response objects *)

(** [c->resp] and an update of it. *)
Definition cur_resp (w : world T) : outcome mc_resp := deref (last (c_resps (w_conn w))).
Definition upd_resp (f : mc_resp -> mc_resp) (w : world T) : outcome (world T) :=
  r ← cur_resp w;
  Ret (upd_conn (fun c => with_resps (removelast (c_resps c) ++ [f r]) c) w).

Definition drop_item (p : option positive) (w : world T) : outcome (world T) :=
  match p with Some p => on_store (item_remove p) w | None => Ret w end.

Definition resp_reset (w : world T) : outcome (world T) :=
  r ← cur_resp w;
  w ← drop_item (resp_item r) w;
  upd_resp (fun _ => mkResp [] None false []) w.

Definition resp_add_iov (v : iov) (w : world T) : outcome (world T) :=
  r ← cur_resp w;
  _ ← c_assert (Z.of_nat (length (resp_iov r)) <? MC_RESP_IOVCOUNT);
  upd_resp (fun r => mkResp (resp_iov r ++ [v]) (resp_item r) (resp_skip r) (resp_wbuf r)) w.

Definition resp_add_chunked_iov (p : positive) (len : Z) (w : world T) : outcome (world T) :=
  resp_add_iov (IovChunked p len) w.

(** [room] is whether there is memory for one more response object. *)
Definition resp_start (room : bool) (w : world T) : bool * world T :=
  if negb room then (false, w) else
  (true, upd_conn (fun c => with_resps (c_resps c ++ [mkResp [] None false []]) c) w).

(** [resp_finish] of every response, as [conn_release_items] does; the item of a set command that
    was being read is dropped first. *)
Fixpoint resp_finish_all (l : list mc_resp) (w : world T) : outcome (world T) :=
  match l with
  | [] => Ret (upd_conn (with_resps []) w)
  | r :: l => w ← drop_item (resp_item r) w; resp_finish_all l w
  end.

Definition conn_release_items (w : world T) : outcome (world T) :=
  w ← drop_item (c_item (w_conn w)) w;
  resp_finish_all (c_resps (w_conn w)) (upd_conn (with_item None) w).

(** Writing [bytes] to the response's buffer and adding them to the answer. *)
Definition out_buf (bytes : list Z) (w : world T) : outcome (world T) :=
  if WRITE_BUFFER_SIZE <? Z.of_nat (length bytes) then Ub else resp_add_iov (IovBuf bytes) w.

Definition out_string (str : list Z) (w : world T) : outcome (world T) :=
  w ← resp_reset w;
  if c_noreply (w_conn w) then
    w ← upd_resp (fun r => mkResp (resp_iov r) (resp_item r) true (resp_wbuf r)) w;
    Ret (conn_set_state conn_new_cmd w)
  else
    let str := if WRITE_BUFFER_SIZE <? Z.of_nat (length str) + 2
               then text "SERVER_ERROR output line too long" else str in
    w ← out_buf (str ++ crlf) w;
    Ret (conn_set_state conn_new_cmd w).

Definition out_errstring (str : list Z) (w : world T) : outcome (world T) :=
  out_string str (upd_conn (with_noreply false) w).

(** [out_of_memory] on a connection of the text protocol. *)
Definition out_of_memory (ascii_error : list Z) (w : world T) : outcome (world T) :=
  out_string ascii_error w.

(** ** Sending *)

(** The bytes of one part, with the items as they are when it is sent. *)
Definition iov_bytes (s : store T) (v : iov) : outcome (list Z) :=
  match v with
  | IovBuf bytes => Ret bytes
  | IovItem p len => it ← get_item p s; data ← plain_data it; read_bytes data (Z.to_nat len)
  | IovChunked p len => it ← get_item p s; read_bytes (it_data it) (Z.to_nat len)
  end.

(** The bytes a response puts on the wire ([_transmit_pre] skips those marked so). *)
Definition resp_bytes (s : store T) (r : mc_resp) : outcome (list Z) :=
  if resp_skip r then Ret [] else
  parts ← mapM (iov_bytes s) (resp_iov r);
  Ret (concat parts).

(** What the client gets when the chain is sent. *)
Definition transmitted (w : world T) : outcome (list Z) :=
  parts ← mapM (resp_bytes (w_store w)) (c_resps (w_conn w));
  Ret (concat parts).

(** The responses have been sent: their references are dropped. *)
Definition finish_responses (w : world T) : outcome (world T) :=
  resp_finish_all (c_resps (w_conn w)) w.

End Connection.
