(* ===== verification/ProtoText.v ===== *)
(** * The text protocol (src/memcached/proto_text.c)

    Tokenizing and dispatching a command line, the handlers of the commands that read and write
    items, and [complete_nread_ascii], which stores a value once it has been read, computes its
    AES-CMAC and adds it to the Merkle tree; [process_get_command] checks the code of every item
    it returns against the tree. *)

From S2P Require Import Prelude Items ItemAlloc Util Itoa Base64 MtCrypto MtArrayList MerkleTree Cmac Store.
From S2P Require Import Conn.
From Stdlib Require Ascii String.
Import String.StringSyntax.

Local Open Scope string_scope.
Local Open Scope Z_scope.

Definition MAX_TOKENS : nat := 24.
Definition INT_MAX : Z := 2147483647.
Definition ITEM_KEY_BINARY : Z := 4096.
Definition REALTIME_MAXDELTA : Z := 60 * 60 * 24 * 30.

(** The key of the authentication code. *)
Definition cmac_key : list Z :=
  [0x2b; 0x7e; 0x15; 0x16; 0x28; 0xae; 0xd2; 0xa6; 0xab; 0xf7; 0x15; 0x88; 0x09; 0xcf; 0x4f; 0x3c].

(** ** Tokens *)

(** [value] is the string at the pointer, which the tokenizer terminates; [None] is null. *)
Record token := mkToken { tok_value : option (list Z); tok_length : nat }.

Definition token_of (command : list Z) (s e : nat) : token :=
  mkToken (Some (slice command s (e - s))) (e - s).

(** The loop over the characters, [n] of which are left: [s], [e] and the tokens found. *)
Fixpoint tokenize_loop (n : nat) (command : list Z) (max_tokens s e : nat) (tokens : list token)
    : nat * nat * list token :=
  match n with
  | O => (s, e, tokens)
  | S n =>
      if char_at command e =? 32 then
        if negb (s =? e)%nat then
          let tokens := tokens ++ [token_of command s e] in
          if (length tokens =? max_tokens - 1)%nat then (S e, S e, tokens)
          else tokenize_loop n command max_tokens (S e) (S e) tokens
        else tokenize_loop n command max_tokens (S e) (S e) tokens
      else tokenize_loop n command max_tokens s (S e) tokens
  end.

(** The tokens up to and including the terminal one, whose value is the rest of the line. *)
Definition tokenize_command (command : list Z) (max_tokens : nat) : list token :=
  let '(s, e, tokens) := tokenize_loop (length command) command max_tokens 0 0 [] in
  let tokens := if negb (s =? e)%nat then tokens ++ [token_of command s e] else tokens in
  tokens ++ [mkToken (if char_at command e =? 0 then None else Some (drop e command)) 0].

(** [strcmp(a, b) == 0]. *)
Definition streq (a b : list Z) : bool := bool_decide (a = b).

(** ** Recognizing commands *)

(** Handlers that are not modelled. *)
Inductive other_command :=
| OtherMget | OtherMset | OtherMdelete | OtherMarithmetic | OtherMeta | OtherStat | OtherShutdown
| OtherSlabs | OtherMemlimit | OtherFlushAll | OtherVersion | OtherQuit | OtherLruCrawler | OtherWatch
| OtherVerbosity | OtherLru | OtherExtstore.

Inductive command :=
| CmdError
| CmdClose
| CmdMetaNoop
| CmdGet (return_cas should_touch : bool)
| CmdUpdate (comm : nread) (handle_cas : bool)
| CmdArithmetic (incr : bool)
| CmdDelete
| CmdTouch
| CmdOther (o : other_command).

(** [WANT_TOKENS], [WANT_TOKENS_OR] and [WANT_TOKENS_MIN] answer with an error. *)
Definition WANT_TOKENS (n min max : nat) (c : command) : command :=
  if (n <? min)%nat || (max <? n)%nat then CmdError else c.
Definition WANT_TOKENS_OR (n a b : nat) (c : command) : command :=
  if negb (n =? a)%nat && negb (n =? b)%nat then CmdError else c.
Definition WANT_TOKENS_MIN (n min : nat) (c : command) : command :=
  if (n <? min)%nat then CmdError else c.

(** Meta commands are two characters long. *)
Definition classify_meta (c : Z) : command :=
  if c =? 103 then CmdOther OtherMget
  else if c =? 115 then CmdOther OtherMset
  else if c =? 100 then CmdOther OtherMdelete
  else if c =? 110 then CmdMetaNoop
  else if c =? 97 then CmdOther OtherMarithmetic
  else if c =? 101 then CmdOther OtherMeta
  else CmdError.

(** The commands that are recognized by their whole name; [tail] is the last token. *)
Definition classify_name (v : list Z) (n : nat) (tail : option (list Z)) : outcome command :=
  if streq v (text "replace") then Ret (WANT_TOKENS_OR n 6 7 (CmdUpdate NREAD_REPLACE false))
  else if streq v (text "prepend") then Ret (WANT_TOKENS_OR n 6 7 (CmdUpdate NREAD_PREPEND false))
  else if streq v (text "bget") then Ret (WANT_TOKENS_MIN n 3 (CmdGet false false))
  else if streq v (text "flush_all") then Ret (WANT_TOKENS n 2 4 (CmdOther OtherFlushAll))
  else if streq v (text "version") then Ret (CmdOther OtherVersion)
  else if streq v (text "quit") then Ret (CmdOther OtherQuit)
  else if streq v (text "lru_crawler") then Ret (CmdOther OtherLruCrawler)
  else if streq v (text "watch") then Ret (CmdOther OtherWatch)
  else if streq v (text "verbosity") then Ret (WANT_TOKENS_OR n 3 4 (CmdOther OtherVerbosity))
  else if streq v (text "lru") then Ret (WANT_TOKENS_MIN n 3 (CmdOther OtherLru))
  else if streq v (text "extstore") then Ret (WANT_TOKENS_MIN n 3 (CmdOther OtherExtstore))
  else
    t ← deref tail;
    Ret (if bool_decide (take 5 t = text "HTTP/") then CmdClose else CmdError).

Definition classify (tokens : list token) : outcome command :=
  let n := length tokens in
  t ← deref (tokens !! 0%nat);
  v ← deref (tok_value t);
  let first := char_at v 0 in
  if (first =? 109) && (tok_length t =? 2)%nat then Ret (classify_meta (char_at v 1))
  else if first =? 103 then
    Ret (WANT_TOKENS_MIN n 3
      (if streq v (text "get") then CmdGet false false
       else if streq v (text "gets") then CmdGet true false
       else if streq v (text "gat") then CmdGet false true
       else if streq v (text "gats") then CmdGet true true
       else CmdError))
  else if first =? 115 then
    Ret (if streq v (text "set") then WANT_TOKENS_OR n 6 7 (CmdUpdate NREAD_SET false)
         else if streq v (text "stats") then CmdOther OtherStat
         else if streq v (text "shutdown") then CmdOther OtherShutdown
         else if streq v (text "slabs") then CmdOther OtherSlabs
         else CmdError)
  else if first =? 97 then
    Ret (if streq v (text "add") then WANT_TOKENS_OR n 6 7 (CmdUpdate NREAD_ADD false)
         else if streq v (text "append") then WANT_TOKENS_OR n 6 7 (CmdUpdate NREAD_APPEND false)
         else CmdError)
  else if first =? 99 then
    Ret (if streq v (text "cas") then WANT_TOKENS_OR n 7 8 (CmdUpdate NREAD_CAS true)
         else if streq v (text "cache_memlimit") then WANT_TOKENS_OR n 3 4 (CmdOther OtherMemlimit)
         else CmdError)
  else if first =? 105 then
    Ret (if streq v (text "incr") then WANT_TOKENS_OR n 4 5 (CmdArithmetic true) else CmdError)
  else if first =? 100 then
    Ret (if streq v (text "delete") then WANT_TOKENS n 3 5 CmdDelete
         else if streq v (text "decr") then WANT_TOKENS_OR n 4 5 (CmdArithmetic false)
         else CmdError)
  else if first =? 116 then
    Ret (if streq v (text "touch") then WANT_TOKENS_OR n 4 5 CmdTouch else CmdError)
  else
    last ← deref (tokens !! (n - 2)%nat);
    classify_name v n (tok_value last).

(** ** Settings and the outside *)

Record server_settings := mkServerSettings {
  base_settings : settings;
  process_started : Z;
  meta_response_old : bool
}.

(** What the outside answers while a command line is handled: see [env]; whether there is memory
    for a response object when so many are in use; and the replies to the requests for memory of
    the Merkle tree. *)
Record senv := mkSenv {
  item_env : env;
  resp_room : nat -> bool;
  mt_reply : nat -> reply
}.

Section Protocol.
Context {T : Type} {table_ops : ItemTable T} {slabs : SlabAllocator} {node_hash : NodeHash}.
Context (hash : list Z -> Z) (srv : server_settings).

Let cfg := base_settings srv.

(** [tokens[i].value] as a string. *)
Definition token_string (tokens : list token) (i : nat) : outcome (list Z) :=
  t ← deref (tokens !! i); deref (tok_value t).

Definition start_response (e : senv) (w : world T) : bool * world T :=
  resp_start (resp_room e (length (c_resps (w_conn w)))) w.

(** ** Times (memcached.c, memcached.h) *)

Definition realtime (exptime : Z) : Z :=
  if exptime =? 0 then 0
  else if REALTIME_MAXDELTA <? exptime then
    if exptime <=? process_started srv then 1 else u32 (exptime - process_started srv)
  else u32 (exptime + current_time cfg).

Definition EXPTIME_TO_POSITIVE_TIME (exptime : Z) : Z :=
  if exptime <? 0 then REALTIME_MAXDELTA + 1 else exptime.

(** ** The end of a meta set *)

(** [META_KEY]. *)
Definition meta_key (it : item) : outcome (list Z) :=
  if has_flag ITEM_KEY_BINARY it then
    '(n, out) ← base64_encode (item_key it) (length (item_key it)) (Some (replicate 512 0)) (WRITE_BUFFER_SIZE / 2);
    out ← deref out;
    Ret ([32; 107] ++ take (Z.to_nat n) out ++ [32; 98])
  else Ret ([32; 107] ++ item_key it).

(** The loop over the flags stashed in [wbuf]; [opaque] while an opaque token is being copied. *)
Fixpoint mset_flags (it : item) (opaque : bool) (stash : list Z) : outcome (list Z) :=
  match stash with
  | [] => Ret []
  | c :: stash =>
      if opaque && negb (c =? 32) then r ← mset_flags it true stash; Ret (c :: r)
      else if opaque then mset_flags it false stash
      else if c =? 79 then r ← mset_flags it true stash; Ret ([32; 79] ++ r)
      else if c =? 107 then k ← meta_key it; r ← mset_flags it false stash; Ret (k ++ r)
      else if c =? 99 then r ← mset_flags it false stash; Ret ([32; 99] ++ itoa_u64 (ITEM_get_cas it) ++ r)
      else mset_flags it false stash
  end.

Definition mset_code (ret : store_item_type) : option (list Z) :=
  match ret with
  | STORED => Some (if meta_response_old srv then text "OK" else text "HD")
  | EXISTS => Some (text "EX")
  | NOT_FOUND => Some (text "NF")
  | NOT_STORED => Some (text "NS")
  | _ => None
  end.

Definition finalize_mset (ret : store_item_type) (w : world T) : outcome (world T) :=
  r ← cur_resp w;
  p ← deref (c_item (w_conn w));
  it ← get_item p (w_store w);
  let w := conn_set_state conn_new_cmd w in
  match mset_code ret with
  | None => out_string (text "SERVER_ERROR Unhandled storage type.") (upd_conn (with_noreply false) w)
  | Some code =>
      w ← (if bool_decide (ret = STORED) && c_noreply (w_conn w)
           then upd_resp (fun r => mkResp (resp_iov r) (resp_item r) true (resp_wbuf r)) w else Ret w);
      flags ← mset_flags it false (resp_wbuf r);
      let line := code ++ flags ++ crlf in
      if WRITE_BUFFER_SIZE <? Z.of_nat (length (resp_wbuf r) + length line) then Ub else
      resp_add_iov (IovBuf line) w
  end.

(** ** Storing the value that was read *)

(** Whether the value ends with a line break.  A large value whose last bytes are wrong trips
    the assertion [1 == 0]. *)
Definition value_terminated (it : item) : outcome bool :=
  let n := length (it_data it) in
  if has_flag ITEM_CHUNKED it then
    _ ← c_assert (0 <? n)%nat;
    let ok := bool_decide (drop (n - 2) (it_data it) = crlf) in
    _ ← c_assert ok;
    Ret ok
  else
    data ← plain_data it;
    tail ← read_bytes (drop (Z.to_nat (it_nbytes it - 2)) data) 2;
    Ret (bool_decide (tail = crlf)).

(** The authentication code goes to the item and to a new leaf of the tree.  The mutex is that of
    the tree, so that a null pointer is dereferenced when there is none. *)
Definition protect_item (e : senv) (p : positive) (w : world T) : outcome (world T) :=
  it ← get_item p (w_store w);
  let cmac_input := ITEM_data (beyond (item_env e)) it in
  mac ← AES_CMAC cmac_key cmac_input (it_nbytes it);
  s ← upd_item p (set_mac mac (it_mt_index it)) (w_store w);
  let w := with_store s w in
  _ ← deref (w_tree w);
  '(r, tree) ← mt_add (mt_reply e) (w_tree w) (Some mac) 16;
  let w := with_tree tree w in
  let w := if is_success r then w else warn UpdateFailed w in
  s ← upd_item p (set_mac mac (u32 (u32 (total_items (w_store w)) - 1))) (w_store w);
  Ret (with_store s w).

Definition reply_stored (ret : store_item_type) (w : world T) : outcome (world T) :=
  match ret with
  | STORED => out_string (text "STORED") w
  | EXISTS => out_string (text "EXISTS") w
  | NOT_FOUND => out_string (text "NOT_FOUND") w
  | NOT_STORED => out_string (text "NOT_STORED") w
  | _ => out_string (text "SERVER_ERROR Unhandled storage type.") w
  end.

Definition complete_nread_ascii (e : senv) (w : world T) : outcome (world T) :=
  let c := w_conn w in
  p ← deref (c_item c);
  it ← get_item p (w_store w);
  is_valid ← value_terminated it;
  w ← (if negb is_valid then
         let w := if c_mset_res c then upd_conn (with_noreply false) w else w in
         out_string (text "CLIENT_ERROR bad data chunk") w
       else
         '(ret, cas, s) ← store_item hash cfg (item_env e) (c_set_stale c) p (c_cmd c) (w_store w);
         let w := with_store s w in
         let w := match cas with Some n => upd_conn (with_cas n) w | None => w end in
         w ← protect_item e p w;
         if c_mset_res c then finalize_mset ret w else reply_stored ret w);
  let w := upd_conn (with_mset false false) w in
  w ← on_store (item_remove p) w;
  Ret (upd_conn (with_item None) w).

(** [read_into_chunked_item] when all the bytes of the value have arrived, on a connection of the
    text protocol: what is left of them, and whether there was memory for every chunk. *)
Fixpoint read_into_chunked_item (fuel : nat) (e : senv) (p : positive) (rbuf : list Z) (s : store T)
    : outcome (bool * list Z * store T) :=
  match fuel with
  | O => Ub
  | S fuel =>
      if (length rbuf =? 0)%nat then Ret (true, rbuf, s) else
      ch ← get_item p s;
      let unused := chunk_room ch in
      let rlbytes := Z.of_nat (length rbuf) in
      if unused =? 0 then
        '(ok, s) ← do_item_alloc_chunk hash cfg (trylock (item_env e)) p rlbytes s;
        if negb ok then Ret (false, rbuf, s) else read_into_chunked_item fuel e p rbuf s
      else
        let tocopy := Z.to_nat (Z.min rlbytes unused) in
        s ← upd_item p (fun i => set_data (it_data i ++ take tocopy rbuf) i) s;
        read_into_chunked_item fuel e p (drop tocopy rbuf) s
  end.

(** The state [conn_nread] of [drive_machine], once all the bytes of the value have arrived. *)
Definition nread_value (e : senv) (bytes : list Z) (w : world T) : outcome (world T) :=
  let c := w_conn w in
  if negb (Z.of_nat (length bytes) =? c_rlbytes c) then Ub else
  p ← deref (c_item c);
  it ← get_item p (w_store w);
  '(ok, rest, s) ← (if negb (has_flag ITEM_CHUNKED it) then
                      s ← upd_item p (set_data bytes) (w_store w); Ret (true, [], s)
                    else read_into_chunked_item (1 + 2 * length bytes) e p bytes (w_store w));
  let w := with_store s w in
  let w := upd_conn (with_nread (c_cmd c) (Z.of_nat (length rest))) w in
  if ok : bool then complete_nread_ascii e w
  else
    w ← out_of_memory (text "SERVER_ERROR Out of memory during read") w;
    let w := upd_conn (with_sbytes (Z.of_nat (length rest))) w in
    Ret (upd_conn (with_mset false false) (conn_set_state conn_swallow w)).

(** ** Commands *)

Definition set_noreply_maybe (tokens : list token) (w : world T) : outcome (world T) :=
  t ← deref (tokens !! (length tokens - 2)%nat);
  Ret (match tok_value t with
       | Some v => if streq v (text "noreply") then upd_conn (with_noreply true) w else w
       | None => w
       end).

Definition make_ascii_get_suffix (it : item) (return_cas : bool) (nbytes : Z) : list Z :=
  [32] ++ (if has_flag ITEM_CFLAGS it then itoa_u32 (it_cflags it) else [48])
  ++ [32] ++ itoa_u32 (u32 (nbytes - 2))
  ++ (if return_cas then [32] ++ itoa_u64 (ITEM_get_cas it) else []) ++ crlf.

(** One key of a get: [mt_verify] only warns, the item is returned whatever it says. *)
Definition get_one (e : senv) (key : list Z) (exptime : Z) (return_cas should_touch : bool) (w : world T)
    : outcome (world T) :=
  '(r, _, s) ← limited_get hash cfg (item_env e) key exptime should_touch true (w_store w);
  let w := with_store s w in
  match r with
  | None => Ret w
  | Some p =>
      it ← get_item p (w_store w);
      _ ← deref (w_tree w);
      v ← mt_verify (w_tree w) (Some (it_mac it)) 16 (it_mt_index it);
      let w := if is_success v then w else warn VerificationFailed w in
      let nbytes := it_nbytes it in
      w ← out_buf (text "VALUE " ++ item_key it ++ make_ascii_get_suffix it return_cas nbytes) w;
      w ← (if has_flag ITEM_CHUNKED it then resp_add_chunked_iov p nbytes w
           else resp_add_iov (IovItem p nbytes) w);
      upd_resp (fun r => mkResp (resp_iov r) (Some p) (resp_skip r) (resp_wbuf r)) w
  end.

(** The two loops over the keys: whether a key was too long, and [key_token->value] at the end.
    A turn uses up a token or takes the next tokens from the rest of the line. *)
Fixpoint get_keys (fuel : nat) (e : senv) (exptime : Z) (return_cas should_touch : bool)
    (key_tokens : list token) (w : world T) : outcome (bool * option (list Z) * world T) :=
  match fuel with
  | O => Ub
  | S fuel =>
      t ← deref (key_tokens !! 0%nat);
      if negb (tok_length t =? 0)%nat then
        key ← deref (tok_value t);
        if KEY_MAX_LENGTH <? Z.of_nat (tok_length t) then Ret (true, tok_value t, w) else
        w ← get_one e key exptime return_cas should_touch w;
        let key_tokens := drop 1 key_tokens in
        next ← deref (key_tokens !! 0%nat);
        if negb (tok_length next =? 0)%nat then
          let '(started, w) := start_response e w in
          if negb started then Ret (false, tok_value next, w)
          else get_keys fuel e exptime return_cas should_touch key_tokens w
        else get_keys fuel e exptime return_cas should_touch key_tokens w
      else
        match tok_value t with
        | None => Ret (false, None, w)
        | Some rest =>
            let key_tokens := tokenize_command rest MAX_TOKENS in
            first ← deref (key_tokens !! 0%nat);
            let '(started, w) := start_response e w in
            if negb started then Ret (false, tok_value first, w)
            else get_keys fuel e exptime return_cas should_touch key_tokens w
        end
  end.

(** Twice the length of what is left of the line bounds the tokens still to come. *)
Definition get_fuel (tokens : list token) : nat :=
  S (length tokens + 2 * length (default [] (last tokens ≫= tok_value))).

Definition process_get_command (e : senv) (tokens : list token) (return_cas should_touch : bool) (w : world T)
    : outcome (world T) :=
  let go key_tokens exptime :=
    '(fail_length, stop, w) ← get_keys (get_fuel tokens) e exptime return_cas should_touch key_tokens w;
    match stop with
    | None =>
        w ← resp_add_iov (IovBuf (text "END" ++ crlf)) w;
        Ret (conn_set_state conn_mwrite w)
    | Some _ =>
        w ← conn_release_items w;
        let '(started, w) := start_response e w in
        if negb started then Ret (conn_set_state conn_closing w)
        else if fail_length : bool then out_string (text "CLIENT_ERROR bad command line format") w
        else out_of_memory (text "SERVER_ERROR out of memory writing get response") w
    end in
  if should_touch then
    v ← token_string tokens 1;
    '(ok, exptime_int) ← safe_strtol v true;
    if negb ok then out_string (text "CLIENT_ERROR invalid exptime argument") w
    else go (drop 2 tokens) (realtime (EXPTIME_TO_POSITIVE_TIME exptime_int))
  else go (drop 1 tokens) 0.

Definition bad_format (w : world T) : outcome (world T) :=
  out_string (text "CLIENT_ERROR bad command line format") w.

(** The numbers of a storage command: flags, expiry time and length; [None] if one is malformed. *)
Definition update_numbers (tokens : list token) : outcome (option (Z * Z * Z)) :=
  v ← token_string tokens 2;
  '(ok, flags) ← safe_strtoul (Some v) true;
  if negb ok then Ret None else
  v ← token_string tokens 3;
  '(ok, exptime) ← safe_strtol v true;
  if negb ok then Ret None else
  v ← token_string tokens 4;
  '(ok, vlen) ← safe_strtol v true;
  if negb ok then Ret None else Ret (Some (flags, exptime, vlen)).

(** No item could be allocated: the data is going to be swallowed, and a set drops the item that
    was there. *)
Definition update_failed (e : senv) (key : list Z) (flags vlen : Z) (comm : nread) (w : world T)
    : outcome (world T) :=
  w ← (if negb (item_size_ok cfg (Z.of_nat (length key)) flags vlen)
       then out_string (text "SERVER_ERROR object too large for cache") w
       else out_of_memory (text "SERVER_ERROR out of memory storing object") w);
  let w := upd_conn (with_sbytes vlen) (conn_set_state conn_swallow w) in
  if bool_decide (comm = NREAD_SET) then
    '(r, s) ← item_get hash cfg (item_env e) key false (w_store w);
    let w := with_store s w in
    match r with
    | Some p => w ← on_store (item_unlink hash p) w; on_store (item_remove p) w
    | None => Ret w
    end
  else Ret w.

Definition process_update_command (e : senv) (tokens : list token) (comm : nread) (handle_cas : bool) (w : world T)
    : outcome (world T) :=
  w ← set_noreply_maybe tokens w;
  t ← deref (tokens !! 1%nat);
  if KEY_MAX_LENGTH <? Z.of_nat (tok_length t) then bad_format w else
  key ← deref (tok_value t);
  numbers ← update_numbers tokens;
  match numbers with
  | None => bad_format w
  | Some (flags, exptime_int, vlen) =>
      let exptime := realtime (EXPTIME_TO_POSITIVE_TIME exptime_int) in
      '(ok, req_cas_id) ← (if handle_cas then v ← token_string tokens 5; safe_strtoull v true else Ret (true, 0));
      if negb ok then bad_format w else
      if (vlen <? 0) || (INT_MAX - 2 <? vlen) then bad_format w else
      let vlen := vlen + 2 in
      '(r, s) ← item_alloc hash cfg (item_env e) key flags exptime vlen (w_store w);
      let w := with_store s w in
      match r with
      | None => update_failed e key flags vlen comm w
      | Some p =>
          w ← on_store (upd_item p (ITEM_set_cas req_cas_id)) w;
          it ← get_item p (w_store w);
          Ret (conn_set_state conn_nread (upd_conn (fun c => with_nread comm (it_nbytes it) (with_item (Some p) c)) w))
      end
  end.

Definition process_touch_command (e : senv) (tokens : list token) (w : world T) : outcome (world T) :=
  w ← set_noreply_maybe tokens w;
  t ← deref (tokens !! 1%nat);
  if KEY_MAX_LENGTH <? Z.of_nat (tok_length t) then bad_format w else
  key ← deref (tok_value t);
  v ← token_string tokens 2;
  '(ok, exptime_int) ← safe_strtol v true;
  if negb ok then out_string (text "CLIENT_ERROR invalid exptime argument") w else
  '(r, s) ← item_touch hash cfg (item_env e) key (realtime (EXPTIME_TO_POSITIVE_TIME exptime_int)) (w_store w);
  let w := with_store s w in
  match r with
  | Some p => w ← out_string (text "TOUCHED") w; on_store (item_remove p) w
  | None => out_string (text "NOT_FOUND") w
  end.

Definition process_arithmetic_command (e : senv) (tokens : list token) (incr : bool) (w : world T)
    : outcome (world T) :=
  w ← set_noreply_maybe tokens w;
  t ← deref (tokens !! 1%nat);
  if KEY_MAX_LENGTH <? Z.of_nat (tok_length t) then bad_format w else
  key ← deref (tok_value t);
  v ← token_string tokens 2;
  '(ok, delta) ← safe_strtoull v true;
  if negb ok then out_string (text "CLIENT_ERROR invalid numeric delta argument") w else
  '(r, _, temp, _, s) ← add_delta hash cfg (item_env e) key incr delta None (w_store w);
  let w := with_store s w in
  match r with
  | OK => out_string temp w
  | NON_NUMERIC => out_string (text "CLIENT_ERROR cannot increment or decrement non-numeric value") w
  | EOM => out_of_memory (text "SERVER_ERROR out of memory") w
  | DELTA_ITEM_NOT_FOUND => out_string (text "NOT_FOUND") w
  | DELTA_ITEM_CAS_MISMATCH => Ret w
  end.

Definition process_delete_command (e : senv) (tokens : list token) (w : world T) : outcome (world T) :=
  '(valid, w) ← (if (3 <? length tokens)%nat then
      v ← token_string tokens 2;
      let hold_is_zero := streq v (text "0") in
      w ← set_noreply_maybe tokens w;
      let sets_noreply := c_noreply (w_conn w) in
      Ret (((length tokens =? 4)%nat && (hold_is_zero || sets_noreply))
           || ((length tokens =? 5)%nat && hold_is_zero && sets_noreply), w)
    else Ret (true, w));
  if negb valid then
    out_string (text "CLIENT_ERROR bad command line format.  Usage: delete <key> [noreply]") w else
  t ← deref (tokens !! 1%nat);
  if KEY_MAX_LENGTH <? Z.of_nat (tok_length t) then bad_format w else
  key ← deref (tok_value t);
  '(r, s) ← item_get hash cfg (item_env e) key false (w_store w);
  let w := with_store s w in
  match r with
  | Some p =>
      w ← on_store (do_item_unlink p (hash key)) w;
      w ← on_store (do_item_remove p) w;
      out_string (text "DELETED") w
  | None => out_string (text "NOT_FOUND") w
  end.

(** ** The dispatcher *)

Definition run_command (e : senv) (tokens : list token) (cmd : command) (w : world T) : outcome (option (world T)) :=
  match cmd with
  | CmdError => w ← out_string (text "ERROR") w; Ret (Some w)
  | CmdClose => Ret (Some (conn_set_state conn_closing w))
  | CmdMetaNoop => w ← out_string (text "MN") w; Ret (Some (conn_set_state conn_mwrite w))
  | CmdGet return_cas should_touch => w ← process_get_command e tokens return_cas should_touch w; Ret (Some w)
  | CmdUpdate comm handle_cas => w ← process_update_command e tokens comm handle_cas w; Ret (Some w)
  | CmdArithmetic incr => w ← process_arithmetic_command e tokens incr w; Ret (Some w)
  | CmdDelete => w ← process_delete_command e tokens w; Ret (Some w)
  | CmdTouch => w ← process_touch_command e tokens w; Ret (Some w)
  | CmdOther _ => Ret None
  end.

(** The result is [None] when the handler of the command is not modelled. *)
Definition process_command (e : senv) (command : list Z) (w : world T) : outcome (option (world T)) :=
  let '(started, w) := start_response e w in
  if negb started then Ret (Some (conn_set_state conn_closing w)) else
  let tokens := tokenize_command command MAX_TOKENS in
  first ← deref (tokens !! 0%nat);
  if (length tokens <? 2)%nat || (tok_length first <? 2)%nat then run_command e tokens CmdError w else
  cmd ← classify tokens;
  run_command e tokens cmd w.

(** ** Lines *)

(** [try_read_command_ascii] on a buffer that holds a whole line: the line without its end, and
    what follows it; [None] when the line is not complete yet. *)
Fixpoint split_line (line buf : list Z) : option (list Z * list Z) :=
  match buf with
  | [] => None
  | c :: buf => if c =? 10 then Some (line, buf) else split_line (line ++ [c]) buf
  end.

Definition chomp (line : list Z) : list Z :=
  if (1 <? length line)%nat && bool_decide (last line = Some 13) then removelast line else line.

Definition is_prefix (p l : list Z) : bool := bool_decide (take (length p) l = p).

(** A line is incomplete, a buffer of more than 1024 bytes without a line is no get of many keys, or
    there is a line, which is followed by [cont]. *)
Inductive line_read := LineIncomplete | LineTooLong | LineRead (line cont : list Z).

Definition find_line (rbuf : list Z) : line_read :=
  if (length rbuf =? 0)%nat then LineIncomplete else
  match split_line [] rbuf with
  | None =>
      let spaces := length (take_while (fun c => c =? 32) rbuf) in
      let ptr := drop spaces rbuf in
      if (1024 <? length rbuf)%nat && ((100 <? spaces)%nat || negb (is_prefix (text "get ") ptr || is_prefix (text "gets ") ptr))
      then LineTooLong else LineIncomplete
  | Some (line, cont) => LineRead (c_string (chomp line)) cont
  end.

(** The result says whether a line was handled, and what is left of the buffer. *)
Definition try_read_command_ascii (e : senv) (rbuf : list Z) (w : world T)
    : outcome (option (bool * list Z * world T)) :=
  match find_line rbuf with
  | LineIncomplete => Ret (Some (false, rbuf, w))
  | LineTooLong => Ret (Some (true, rbuf, conn_set_state conn_closing w))
  | LineRead line cont =>
      r ← process_command e line w;
      match r with Some w => Ret (Some (true, cont, w)) | None => Ret None end
  end.

End Protocol.
