(* ===== verification/ProtoFacts.v ===== *)
(** * Command lines

    The tokenizer splits a line into its words, and hands the rest over when there are more than
    fit the array. *)

From S2P Require Import Prelude Util Store ProtoText.
Local Open Scope Z_scope.

(** ** Words *)

(** The words of a line, the first of which has already begun with [acc]. *)
Fixpoint words_from (acc line : list Z) : list (list Z) :=
  match line with
  | [] => if bool_decide (acc = []) then [] else [acc]
  | c :: line =>
      if c =? 32 then (if bool_decide (acc = []) then words_from [] line else acc :: words_from [] line)
      else words_from (acc ++ [c]) line
  end.

Definition words (line : list Z) : list (list Z) := words_from [] line.

Definition word_token (w : list Z) : token := mkToken (Some w) (length w).

(** A C string: no byte is zero. *)
Definition is_string (line : list Z) : Prop := Forall (fun c => c <> 0) line.

Lemma words_from_word acc line : Forall (fun c => c <> 32) acc ->
  Forall (fun w => w <> [] /\ Forall (fun c => c <> 32) w) (words_from acc line).
Proof.
  revert acc. induction line as [|c line IH]; intros acc Ha; simpl.
  - case_bool_decide; auto.
  - destruct (Z.eqb_spec c 32); [|apply IH, Forall_app; auto]. case_bool_decide; [by apply IH|]. constructor; [done|by apply IH].
Qed.

Lemma slice_snoc (l : list Z) s e c : (s <= e)%nat -> l !! e = Some c -> slice l s (S e - s) = slice l s (e - s) ++ [c].
Proof.
  intros Hs He. unfold slice. replace (S e - s)%nat with (S (e - s)) by lia.
  rewrite (take_S_r _ _ c); [done|]. rewrite lookup_drop. by replace (s + (e - s))%nat with e by lia.
Qed.

Lemma token_of_word command s e : (s <= e <= length command)%nat -> token_of command s e = word_token (slice command s (e - s)).
Proof. intros H. unfold token_of, word_token, slice. rewrite length_take, length_drop. f_equal. lia. Qed.

Lemma words_from_count acc line :
  (length (words_from acc line) <= length line + (if bool_decide (acc = []) then 0 else 1))%nat.
Proof.
  revert acc. induction line as [|c line IH]; intros acc; simpl; [by case_bool_decide|].
  destruct (c =? 32).
  - specialize (IH []). rewrite bool_decide_eq_true_2 in IH by done. case_bool_decide; simpl; lia.
  - specialize (IH (acc ++ [c])). rewrite bool_decide_eq_false_2 in IH by (by destruct acc). case_bool_decide; lia.
Qed.

Lemma words_count line : (length (words line) <= length line)%nat.
Proof. pose proof (words_from_count [] line) as H. rewrite bool_decide_eq_true_2 in H by done. unfold words. lia. Qed.

Lemma words_from_app acc v l : Forall (fun c => c <> 32) v -> words_from acc (v ++ l) = words_from (acc ++ v) l.
Proof.
  intros Hv. revert acc. induction Hv as [|c v Hc _ IH]; intros acc; [by rewrite app_nil_r|]. simpl.
  rewrite (proj2 (Z.eqb_neq c 32)) by done. by rewrite IH, <- app_assoc.
Qed.

(** ** The tokenizer *)

(** The loop either stops after [max_tokens - 1] tokens or scans the whole line. *)
Lemma tokenize_loop_ok command max n s e tokens s' e' tokens' :
  (e + n = length command)%nat -> (s <= e)%nat -> (length tokens < max - 1)%nat ->
  tokenize_loop n command max s e tokens = (s', e', tokens') ->
  (s' <= e' <= length command)%nat /\
  exists ts, (e + length ts <= e')%nat /\ tokens' = tokens ++ map word_token ts /\
    words_from (slice command s (e - s)) (drop e command) = ts ++ words_from (slice command s' (e' - s')) (drop e' command) /\
    ((s' = e' /\ length tokens' = max - 1) \/ (e' = length command /\ length tokens' < max - 1))%nat.
Proof.
  revert s e tokens. induction n as [|n IH]; intros s e tokens He Hs Hl; simpl.
  { intros [= <- <- <-]. split; [lia|]. exists []. rewrite app_nil_r. split; [simpl; lia|]. split; [done|]. split; [done|]. right. lia. }
  destruct (lookup_lt_is_Some_2 command e) as [c Hc]; [lia|].
  unfold char_at. rewrite Hc. cbn [default from_option]. rewrite (drop_S _ _ _ Hc). cbn [words_from]. unfold id. 
  destruct (Z.eqb_spec c 32) as [->|Hne].
  2:{ intros E. apply IH in E as (? & ts & Hn & -> & W & H); [|lia..]. split; [done|]. exists ts. split; [lia|]. split; [done|].
      rewrite <- W. by rewrite (slice_snoc _ _ _ c). }
  assert (slice command (S e) (S e - S e) = []) as Hnil by (by rewrite Nat.sub_diag).
  destruct (Nat.eqb_spec s e) as [->|Hse]; cbn [negb].
  { intros E. apply IH in E as (? & ts & Hn & -> & W & H); [|lia..]. split; [done|]. exists ts. split; [lia|]. split; [done|].
    rewrite Nat.sub_diag, bool_decide_eq_true_2 by done. by rewrite <- W, Hnil. }
  rewrite token_of_word by lia. set (w := slice command s (e - s)).
  assert (w <> []) as Hw.
  { intros H. apply (f_equal length) in H. unfold w, slice in H. rewrite length_take, length_drop in H. simpl in H. lia. }
  rewrite bool_decide_eq_false_2 by done. rewrite length_app. simpl length.
  destruct (Nat.eqb_spec (length tokens + 1) (max - 1)) as [Hm|Hm].
  - intros [= <- <- <-]. split; [lia|]. exists [w]. split; [simpl; lia|]. split; [done|]. rewrite Hnil. split; [done|]. left.
    rewrite length_app. simpl. lia.
  - intros E. apply IH in E as (? & ts & Hn & -> & W & H); [|rewrite ?length_app; simpl; lia..]. split; [done|]. exists (w :: ts).
    split; [simpl; lia|].
    rewrite <- app_assoc. split; [done|]. split; [|rewrite <- app_assoc in H; exact H]. rewrite Hnil in W. by rewrite W.
Qed.

Lemma tokenize_command_ok command max : is_string command -> (1 < max)%nat ->
  exists ts rest, tokenize_command command max = map word_token ts ++ [mkToken rest 0] /\
    (length ts < max)%nat /\ words command = ts ++ words (default [] rest) /\
    match rest with
    | None => True
    | Some r => (length ts = max - 1)%nat /\ r <> [] /\ exists n, (length ts <= n)%nat /\ r = drop n command
    end.
Proof.
  intros Hstr Hmax. unfold tokenize_command.
  destruct (tokenize_loop (length command) command max 0 0 []) as [[s e] tokens] eqn:E.
  apply tokenize_loop_ok in E as (Hse & ts & Hn & -> & W & H); [|simpl; lia..].
  rewrite app_nil_l in *. rewrite length_map in H. rewrite drop_0 in W. change (slice command 0 (0 - 0)) with (@nil Z) in W.
  assert ((char_at command e =? 0) = (length command <=? e)%nat) as ->.
  { unfold char_at. destruct (Nat.leb_spec (length command) e) as [Hle|Hlt]; [by rewrite lookup_ge_None_2 by lia|].
    destruct (lookup_lt_is_Some_2 command e) as [c Hc]; [lia|]. rewrite Hc. simpl.
    apply (Forall_lookup_1 _ _ _ _ Hstr) in Hc. by apply Z.eqb_neq. }
  destruct H as [[-> Hlen]|[-> Hlen]].
  - rewrite Nat.eqb_refl. cbn [negb]. rewrite Nat.sub_diag in W. change (slice command e 0) with (@nil Z) in W.
    destruct (Nat.leb_spec (length command) e) as [Hle|Hlt].
    + exists ts, None. rewrite drop_ge in W by lia. split; [done|]. split; [lia|]. split; [exact W|done].
    + exists ts, (Some (drop e command)). split; [done|]. split; [lia|]. split; [exact W|]. split; [done|]. split.
      * intros Hd. apply (f_equal length) in Hd. rewrite length_drop in Hd. simpl in Hd. lia.
      * exists e. split; [lia|done].
  - rewrite Nat.leb_refl. rewrite drop_ge in W by lia. cbn [words_from] in W. rewrite token_of_word by lia.
    destruct (Nat.eqb_spec s (length command)) as [->|Hne]; cbn [negb].
    + exists ts, None. split; [done|]. split; [lia|]. split; [|done]. rewrite Nat.sub_diag in W. exact W.
    + exists (ts ++ [slice command s (length command - s)]), None. rewrite map_app. split; [done|]. rewrite length_app. simpl length.
      split; [lia|]. split; [|done]. rewrite app_nil_r. rewrite bool_decide_eq_false_2 in W; [exact W|].
      intros Hd. apply (f_equal length) in Hd. unfold slice in Hd. rewrite length_take, length_drop in Hd. simpl in Hd. lia.
Qed.

(** The tokenizer splits a line into its words.  The tokens are the words in order, as many as
    fit with a last token of length zero, each non-empty and without spaces; the value of the last
    token is null when the whole line was scanned, and otherwise the rest of the line, which
    holds the remaining words. *)
Theorem tokenize_splits_words (line : list Z) (max : nat) (Hline : is_string line) (Hmax : (1 < max)%nat) :
  exists ts rest, tokenize_command line max = map word_token ts ++ [mkToken rest 0] /\
    (length ts < max)%nat /\ words line = ts ++ words (default [] rest) /\
    Forall (fun w => w <> [] /\ Forall (fun c => c <> 32) w) ts /\
    (forall r, rest = Some r -> (length ts = max - 1)%nat /\ exists n, (length ts <= n)%nat /\ r = drop n line).
Proof.
  destruct (tokenize_command_ok line max Hline Hmax) as (ts & rest & E & Hl & W & H).
  exists ts, rest. split_and!; try done.
  - pose proof (words_from_word [] line (Forall_nil_2 _)) as Hw. fold (words line) in Hw. rewrite W in Hw. by apply Forall_app in Hw as [? _].
  - intros r ->. by destruct H as (? & _ & ?).
Qed.

Lemma tokenize_splits_words_witness : exists ts rest, tokenize_command [103; 101; 116; 32; 32; 97; 32; 98] 3 = map word_token ts ++ [mkToken rest 0] /\
  ts = [[103; 101; 116]; [97]] /\ rest = Some [98].
Proof.
  destruct (tokenize_splits_words [103; 101; 116; 32; 32; 97; 32; 98] 3) as (ts & rest & E & _).
  - repeat constructor; discriminate.
  - lia.
  - exists ts, rest. split; [exact E|].
    assert (tokenize_command [103; 101; 116; 32; 32; 97; 32; 98] 3 = [word_token [103; 101; 116]; word_token [97]; mkToken (Some [98]) 0]) as Hc by reflexivity.
    rewrite Hc in E. destruct ts as [|t1 [|t2 [|t3 ts]]]; try discriminate E; [injection E; intros; by subst|by destruct ts].
Defined.

(** ** Lines *)

Lemma c_string_id l : is_string l -> c_string l = l.
Proof. intros H. unfold c_string. induction H as [|c l Hc _ IH]; simpl; [done|]. rewrite (proj2 (Z.eqb_neq c 0)) by done. simpl. by rewrite IH. Qed.

Lemma split_line_app acc line rest : Forall (fun c => c <> 10) line -> split_line acc (line ++ 10 :: rest) = Some (acc ++ line, rest).
Proof.
  intros H. revert acc. induction H as [|c line Hc _ IH]; intros acc; simpl; [by rewrite app_nil_r|].
  rewrite (proj2 (Z.eqb_neq c 10)) by done. by rewrite IH, <- app_assoc.
Qed.
