(* ===== verification/ServerFacts.v ===== *)
(** * The protected store

    The Merkle tree holds one leaf per stored item.  [sealed] says that the number of leaves is
    the number of items ever stored and that every item of the table carries the authentication
    code of its value and the index of the leaf made from it.  Storing a value keeps this, and a
    get of one key in a sealed state returns the stored value. *)

From S2P Require Import Prelude Items LruFacts ItemsFacts ItemAlloc ItemAllocFacts Util Itoa Store.
From S2P Require Import StoreFacts DeltaFacts MtCrypto MtArrayList MtArrayListFacts MerkleTree MerkleSpec MerkleFacts.
From S2P Require Import Aes128 Aes128Facts Cmac CmacFacts Conn ProtoText.
From Stdlib Require Ascii String.
Import String.StringSyntax.

Local Open Scope string_scope.
Local Open Scope Z_scope.

(** Conversion must not run the cipher on the constant key. *)
Local Opaque AES_CMAC cmac.

(** ** Responses *)

Section Responses.
Context {T : Type} {table_ops : ItemTable T}.
Implicit Types (w : world T).

Lemma cur_resp_ok w rs r : c_resps (w_conn w) = rs ++ [r] -> cur_resp w = Ret r.
Proof. intros H. unfold cur_resp. by rewrite H, last_snoc. Qed.

Lemma upd_resp_ok f w rs r : c_resps (w_conn w) = rs ++ [r] ->
  upd_resp f w = Ret (upd_conn (with_resps (rs ++ [f r])) w).
Proof.
  intros H. unfold upd_resp. rewrite (cur_resp_ok w rs r H). cbn [mbind outcome_bind].
  unfold upd_conn. by rewrite H, removelast_last.
Qed.

Lemma resp_add_iov_ok v w rs r : c_resps (w_conn w) = rs ++ [r] -> (length (resp_iov r) < 4)%nat ->
  resp_add_iov v w = Ret (upd_conn (with_resps (rs ++ [mkResp (resp_iov r ++ [v]) (resp_item r) (resp_skip r) (resp_wbuf r)])) w).
Proof.
  intros H Hl. unfold resp_add_iov. rewrite (cur_resp_ok w rs r H). cbn [mbind outcome_bind].
  unfold MC_RESP_IOVCOUNT. rewrite (proj2 (Z.ltb_lt _ _)) by lia. cbn [c_assert mbind outcome_bind].
  by rewrite (upd_resp_ok _ w rs r H).
Qed.

(** The answer [str], or nothing when the client asked for none. *)
Definition answer (noreply : bool) (str : list Z) : mc_resp :=
  if noreply then mkResp [] None true [] else mkResp [IovBuf (str ++ crlf)] None false [].

Lemma out_string_ok str w rs r :
  c_resps (w_conn w) = rs ++ [r] -> resp_item r = None -> (length str <= 1000)%nat ->
  out_string str w = Ret (conn_set_state conn_new_cmd (upd_conn (with_resps (rs ++ [answer (c_noreply (w_conn w)) str])) w)).
Proof.
  intros H Hi Hl. unfold out_string, resp_reset. rewrite (cur_resp_ok w rs r H). cbn [mbind outcome_bind].
  rewrite Hi. cbn [drop_item mbind outcome_bind]. rewrite (upd_resp_ok _ w rs r H). cbn [mbind outcome_bind].
  set (w1 := upd_conn _ w). assert (c_resps (w_conn w1) = rs ++ [mkResp [] None false []]) as H1 by done.
  change (c_noreply (w_conn w1)) with (c_noreply (w_conn w)).
  destruct (c_noreply (w_conn w)).
  - by rewrite (upd_resp_ok _ w1 rs _ H1).
  - unfold WRITE_BUFFER_SIZE. rewrite (proj2 (Z.ltb_ge _ _)) by lia. unfold out_buf, WRITE_BUFFER_SIZE.
    rewrite (proj2 (Z.ltb_ge _ _)) by (rewrite length_app; simpl; lia).
    by rewrite (resp_add_iov_ok _ w1 rs _ H1) by (simpl; lia).
Qed.
End Responses.

(** ** Guarded values *)

Section Server.
Context {T : Type} {table_ops : ItemTable T} {slabs : SlabAllocator} {node_hash : NodeHash} (hash : list Z -> Z).
Context {table_laws : ItemTableLaws hash T} {slab_laws : SlabAllocatorLaws} (srv : server_settings).
Context (no_repair : tail_repair_time (base_settings srv) = 0).
Implicit Types (w : world T) (m : gmap (list Z) positive) (refs : positive -> Z) (ls : list (list Z)).

Let cfg := base_settings srv.

(** The tree holds the value's code at the value's index. *)
Definition guarded ls (v : value) : Prop :=
  0 <= v_index v /\ ls !! Z.to_nat (v_index v) = Some (leaf_of (v_mac v) 16) /\ is_block (v_mac v).

(** The code is that of the value. *)
Definition authentic (v : value) : Prop := v_mac v = cmac cmac_key (v_data v).

(** A value that is kept in one piece, with its length, flags and CAS number. *)
Definition whole (v : value) : Prop :=
  value_ok v /\ v_chunked v = false /\ v_nbytes v <= 2 ^ 31 - 16 /\ bytes_ok (v_data v) /\
  0 <= v_cflags v < 2 ^ 32 /\ 0 <= v_cas v < 2 ^ 64.

Definition tree_ok ls w : Prop := exists t, w_tree w = Some t /\ mt_repr ls t.

Record sealed w m (lru : Z -> list positive) refs ls : Prop := {
  se_store : store_rep hash (w_store w) m lru refs;
  se_tree : tree_ok ls w;
  se_count : total_items (w_store w) = Z.of_nat (length ls);
  se_value : forall k v, value_at (w_store w) m k = Some v -> guarded ls v /\ authentic v /\ whole v
}.

Definition with_mac (mac : list Z) (n : Z) (v : value) : value :=
  mkValue (v_key v) (v_nbytes v) (v_exptime v) (v_has_cas v) (v_cas v) (v_cflags v) (v_data v) mac n (v_chunked v) (v_chunks v).

(** Changing the code and the leaf of an item. *)
Lemma upd_mac_ok s m lru refs p it mac n :
  store_rep hash s m lru refs -> heap s !! p = Some it ->
  upd_item p (set_mac mac n) s = Ret (with_heap (<[p := set_mac mac n it]> (heap s)) s) /\
  store_rep hash (with_heap (<[p := set_mac mac n it]> (heap s)) s) m lru refs /\
  keeps_but p (heap s) (<[p := set_mac mac n it]> (heap s)).
Proof.
  intros R Hp. split; [by apply upd_item_ok|]. split.
  - apply (store_rep_upd' hash s m lru refs p it (set_mac mac n)); try done. by destruct (sr_refs _ _ _ _ _ R p it Hp) as (_ & _ & _ & ?).
  - intros q j Hq E. rewrite lookup_insert_ne in E by done. by exists j.
Qed.

(** The bytes the code of an item is computed over: as many as its length says, from [ITEM_data] on. *)
Definition code_input (e : senv) (it : item) (msg : list Z) : Prop :=
  exists rest, ITEM_data (beyond (item_env e)) it = msg ++ rest /\ it_nbytes it = Z.of_nat (length msg) /\
    bytes_ok (msg ++ rest) /\ Z.of_nat (length msg) <= 2 ^ 31 - 16.

Lemma whole_input e it : whole (value_of it) -> code_input e it (it_data it).
Proof.
  intros ((V1 & V2) & Hc & Hlen & Hok & _). simpl in V1, V2, Hc, Hlen, Hok. exists []. rewrite app_nil_r. unfold ITEM_data. rewrite Hc.
  split; [done|]. split; [done|]. split; [done|]. lia.
Qed.

Lemma protect_item_gen e p w m lru refs ls it msg :
  store_rep hash (w_store w) m lru refs -> heap (w_store w) !! p = Some it -> code_input e it msg ->
  tree_ok ls w -> Z.of_nat (length ls) < AL_LIMIT -> (forall k, granted (mt_reply e k) = true) ->
  let mac := cmac cmac_key msg in
  let n := u32 (u32 (total_items (w_store w)) - 1) in
  exists w' it', protect_item e p w = Ret w' /\ w_conn w' = w_conn w /\ w_stderr w' = w_stderr w /\
    tree_ok (ls ++ [leaf_of mac 16]) w' /\ store_rep hash (w_store w') m lru refs /\
    keeps_but p (heap (w_store w)) (heap (w_store w')) /\ total_items (w_store w') = total_items (w_store w) /\
    heap (w_store w') !! p = Some it' /\ value_of it' = with_mac mac n (value_of it) /\ is_block mac.
Proof.
  intros R Hp (rest & Ed & Hnb & Hok & Hlen) (t & Et & Ht) Hlim Hg mac n.
  destruct (AES_CMAC_ok cmac_key msg rest) as [Emac Hmac]; [|done|done|].
  { split; [done|]. repeat constructor; unfold byte_ok; lia. }
  fold mac in Emac, Hmac. clearbody mac.
  unfold protect_item. rewrite (get_item_ok _ _ _ Hp), ret_bind. cbv zeta. rewrite Ed, Hnb, Emac, ret_bind.
  destruct (upd_mac_ok (w_store w) m lru refs p it mac (it_mt_index it) R Hp) as (-> & R1 & K1). cbn [mbind outcome_bind].
  set (s1 := with_heap _ (w_store w)) in *. change (w_tree (with_store s1 w)) with (w_tree w). rewrite Et. cbn [deref mbind outcome_bind].
  destruct Hmac as [Hmac1 Hmac2].
  destruct (mt_add_repr (mt_reply e) t ls mac 16 Ht Hlim) as (t' & -> & Ht'); [unfold HASH_LENGTH; lia|rewrite Hmac1; lia|done|done|].
  cbn [mbind outcome_bind]. unfold is_success. rewrite bool_decide_eq_true_2 by done.
  change (w_store (with_tree (Some t') (with_store s1 w))) with s1. change (total_items s1) with (total_items (w_store w)). fold n.
  assert (heap s1 !! p = Some (set_mac mac (it_mt_index it) it)) as Hp1 by apply lookup_insert_eq.
  destruct (upd_mac_ok s1 m lru refs p _ mac n R1 Hp1) as (-> & R2 & K2). cbn [mbind outcome_bind].
  eexists _, _. split; [reflexivity|]. split; [reflexivity|]. split; [reflexivity|]. split; [exists t'; split; [reflexivity|exact Ht']|].
  split; [exact R2|]. split; [exact (keeps_but_trans p _ _ _ K1 K2)|]. split; [reflexivity|].
  split; [apply lookup_insert_eq|]. split; [reflexivity|exact (conj Hmac1 Hmac2)].
Qed.

Lemma protect_item_ok e p w m lru refs ls it :
  store_rep hash (w_store w) m lru refs -> heap (w_store w) !! p = Some it -> whole (value_of it) ->
  tree_ok ls w -> Z.of_nat (length ls) < AL_LIMIT -> (forall k, granted (mt_reply e k) = true) ->
  let mac := cmac cmac_key (it_data it) in
  let n := u32 (u32 (total_items (w_store w)) - 1) in
  exists w' it', protect_item e p w = Ret w' /\ w_conn w' = w_conn w /\ w_stderr w' = w_stderr w /\
    tree_ok (ls ++ [leaf_of mac 16]) w' /\ store_rep hash (w_store w') m lru refs /\
    keeps_but p (heap (w_store w)) (heap (w_store w')) /\ total_items (w_store w') = total_items (w_store w) /\
    heap (w_store w') !! p = Some it' /\ value_of it' = with_mac mac n (value_of it) /\ is_block mac.
Proof. intros R Hp Hw Ht Hlim Hg. by apply (protect_item_gen e p w m lru refs ls it (it_data it) R Hp (whole_input e it Hw)). Qed.

(** ** Storing a value *)

(** The connection has read the value of [p] for the command [comm]. *)
Record value_read w m refs (p : positive) (it : item) (rs : list mc_resp) (r : mc_resp) : Prop := {
  vr_item : c_item (w_conn w) = Some p;
  vr_plain : c_mset_res (w_conn w) = false;
  vr_resps : c_resps (w_conn w) = rs ++ [r];
  vr_resp : resp_item r = None;
  vr_whole : whole (value_of it);
  vr_crlf : drop (Z.to_nat (it_nbytes it - 2)) (it_data it) = crlf;
  vr_ready : store_ready cfg (w_store w) m refs p it (c_cmd (w_conn w))
}.

Lemma value_terminated_ok it : whole (value_of it) -> drop (Z.to_nat (it_nbytes it - 2)) (it_data it) = crlf ->
  value_terminated it = Ret true.
Proof.
  intros ((V1 & V2) & Hc & _) Hd. simpl in V1, V2, Hc. unfold value_terminated, plain_data, ITEM_data. rewrite Hc.
  cbn [mbind outcome_bind]. rewrite Hd. done.
Qed.


(** Values of other keys survive a change of the item [p] of the key [k]. *)
Lemma others_kept s s' m lru refs lru' refs' k p :
  store_rep hash s m lru refs -> store_rep hash s' m lru' refs' -> m !! k = Some p -> keeps_but p (heap s) (heap s') ->
  forall k', k' <> k -> value_at s' m k' = value_at s m k'.
Proof.
  intros R R' Hk K k' Hk'. eapply (value_at_same hash); [exact R'|done|]. intros q i' Hq Ei'. apply (K q i'); [|done].
  intros ->. destruct (sr_item _ _ _ _ _ R k p Hk) as (x & Ex & Kx). destruct (sr_item _ _ _ _ _ R k' p Hq) as (y & Ey & Ky). congruence.
Qed.

Lemma guarded_app ls l v : guarded ls v -> guarded (ls ++ [l]) v.
Proof. intros (H1 & H2 & H3). split; [done|]. split; [|done]. by apply lookup_app_l_Some. Qed.

(** After the store: the code is computed, the leaf added and the reference dropped. *)
Section Stored.
Context (e : senv) (w : world T) (m : gmap (list Z) positive) (lru : Z -> list positive) (refs : positive -> Z) (ls : list (list Z)).
Context (p : positive) (it : item) (rs : list mc_resp) (r : mc_resp).
Context (S : sealed w m lru refs ls) (V : value_read w m refs p it rs r).
Context (Hlim : Z.of_nat (length ls) < AL_LIMIT) (Hg : forall k, granted (mt_reply e k) = true).

Let k := item_key it.
Let leaf := leaf_of (cmac cmac_key (it_data it)) 16.

(** What the client is left with. *)
Definition stored_world (P : value -> Prop) w' m' lru' : Prop :=
  sealed w' m' lru' (set_refs p (refs p - 1) refs) (ls ++ [leaf]) /\ w_stderr w' = w_stderr w /\
  c_resps (w_conn w') = rs ++ [answer (c_noreply (w_conn w)) (text "STORED")] /\
  c_state (w_conn w') = conn_new_cmd /\ c_item (w_conn w') = None /\
  (exists v, P v /\ value_at (w_store w') m' k =
     Some (with_mac (cmac cmac_key (it_data it)) (Z.of_nat (length ls)) v)) /\
  (forall k', k' <> k -> value_at (w_store w') m' k' = value_at (w_store w) m k').

Lemma protect_stored s1 m1 lru1 it1 (cas : Z) :
  store_rep hash s1 m1 lru1 refs -> m1 !! k = Some p -> heap s1 !! p = Some it1 ->
  item_key it1 = k -> it_nbytes it1 = it_nbytes it -> it_data it1 = it_data it -> has_flag ITEM_CHUNKED it1 = false ->
  FLAGS_CONV it1 = FLAGS_CONV it -> 0 <= ITEM_get_cas it1 < 2 ^ 64 ->
  total_items s1 = u64 (total_items (w_store w) + 1) ->
  (forall k', k' <> k -> value_at s1 m1 k' = value_at (w_store w) m k') ->
  exists w', (w' ← protect_item e p (upd_conn (with_cas cas) (with_store s1 w));
     w' ← reply_stored STORED w';
     w' ← on_store (item_remove p) (upd_conn (with_mset false false) w');
     Ret (upd_conn (with_item None) w')) = Ret w' /\ stored_world (eq (value_of it1)) w' m1 lru1.
Proof.
  intros R1 Hm1 Hp1 Ek En Ed Ech Ef Ecas Et Hoth. set (w1 := upd_conn (with_cas cas) (with_store s1 w)).
  pose proof (vr_whole _ _ _ _ _ _ _ V) as Hwh. pose proof (vr_ready _ _ _ _ _ _ _ V) as (_ & _ & _ & _ & Hrp & _).
  assert (whole (value_of it1)) as Hwh1.
  { destruct Hwh as ((A1 & A2) & A3 & A4 & A5 & A6 & A7). unfold whole, value_ok in *. simpl v_nbytes in *. simpl v_data in *.
    simpl v_chunked in *. simpl v_cflags in *. simpl v_cas. rewrite En, Ed, Ech, Ef. done. }
  destruct (protect_item_ok e p w1 m1 lru1 refs ls it1) as (w2 & it2 & -> & C2 & W2 & T2 & R2 & K2 & N2 & Hp2 & V2 & B2); try done; [apply S|].
  rewrite ret_bind. cbn [reply_stored]. rewrite Ed in T2, V2, B2.
  rewrite (out_string_ok (text "STORED") w2 rs r); [|by rewrite C2; apply V|apply V|vm_compute; lia]. rewrite ret_bind.
  unfold on_store, item_remove. simpl w_store. destruct (release hash (w_store w2) m1 lru1 refs p R2 Hrp) as (s3 & -> & R3 & K3 & G3).
  rewrite !ret_bind. eexists. split; [reflexivity|].
  assert (Z.of_nat (length ls) + 1 < 2 ^ 26 + 1) as Hlt by (unfold AL_LIMIT in Hlim; lia).
  assert (total_items s1 = Z.of_nat (length ls) + 1) as Et1.
  { rewrite Et, (se_count _ _ _ _ _ S). unfold u64. rewrite Z.mod_small; lia. }
  change (total_items (w_store w1)) with (total_items s1) in *. rewrite Et1 in V2, N2.
  assert (u32 (u32 (Z.of_nat (length ls) + 1) - 1) = Z.of_nat (length ls)) as Hidx.
  { unfold u32. rewrite (Z.mod_small (Z.of_nat (length ls) + 1)), Z.mod_small; lia. }
  rewrite Hidx in V2.
  destruct (sr_item _ _ _ _ _ R3 k p Hm1) as (it3 & Hp3 & _). destruct (K3 p it3 Hp3) as (x & Ex & V3).
  assert (x = it2) as -> by congruence. rewrite V2 in V3. change (w_store w1) with s1 in *.
  assert (value_at s3 m1 k = Some (with_mac (cmac cmac_key (it_data it)) (Z.of_nat (length ls)) (value_of it1))) as Hk3.
  { unfold value_at. by rewrite Hm1, Hp3, <- V3. }
  assert (forall k', k' <> k -> value_at s3 m1 k' = value_at (w_store w) m k') as Hoth3.
  { intros k' Hk'. rewrite <- (Hoth k' Hk'). apply (others_kept s1 s3 m1 lru1 refs lru1 (set_refs p (refs p - 1) refs) k p R1 R3 Hm1); [|done].
    eapply keeps_but_trans; [exact K2|by apply keeps_keeps_but]. }
  split; [|split; [exact W2|split; [simpl; by rewrite C2|split; [reflexivity|split; [reflexivity|split; [|exact Hoth3]]]]]].
  - split; simpl.
    + exact R3.
    + exact T2.
    + rewrite (proj1 G3), N2, length_app. simpl. lia.
    + intros k' v' Hv'. destruct (decide (k' = k)) as [->|Hne].
      * rewrite Hk3 in Hv'. injection Hv' as <-. split; [|split].
        -- split; [simpl; lia|]. split; [|exact B2]. simpl. rewrite Nat2Z.id. by apply list_lookup_middle.
        -- unfold authentic. simpl. by rewrite Ed.
        -- exact Hwh1.
      * rewrite Hoth3 in Hv' by done. destruct (se_value _ _ _ _ _ S k' v' Hv') as (A1 & A2 & A3). auto using guarded_app.
  - eexists. split; [reflexivity|exact Hk3].
Qed.

(** What a command that does not join values stores. *)
Lemma stored_value comm stale c v old (P : value -> Prop) wv :
  store_spec cfg comm stale c v old = (STORED, Some P) -> joins comm = false -> P wv ->
  v_cflags wv = v_cflags v /\ (v_cas wv = c \/ v_cas wv = 0).
Proof.
  intros Hs Hj HP. assert (exists x, (x = v \/ exists t, x = with_exptime t v) /\ wv = relinked c x) as (x & Hx & ->).
  { destruct old as [o|]; [rewrite store_spec_found in Hs|unfold store_spec in Hs]; destruct comm; try discriminate Hj; try discriminate Hs;
      try (injection Hs as <-; exists v; auto).
    destruct (cas_test _ _ _); try discriminate Hs; injection Hs as <-; subst wv; eexists; eauto. }
  simpl. split; [destruct Hx as [-> |[t ->]]; done|]. destruct (v_has_cas x); auto.
Qed.

Lemma complete_stored P :
  joins (c_cmd (w_conn w)) = false ->
  store_spec cfg (c_cmd (w_conn w)) (c_set_stale (w_conn w)) (new_cas cfg (w_store w)) (value_of it) (live_at cfg (w_store w) m k) = (STORED, Some P) ->
  exists w' m' lru', complete_nread_ascii hash srv e w = Ret w' /\ stored_world P w' m' lru'.
Proof.
  intros Hj Hspec. pose proof V as [V1 V2 V3 V4 V5 V6 V7]. pose proof V7 as (_ & _ & Hp & _).
  unfold complete_nread_ascii. rewrite V1. cbn [deref]. rewrite ret_bind, (get_item_ok _ _ _ Hp), ret_bind.
  rewrite (value_terminated_ok it V5 V6), ret_bind. cbn [negb]. unfold store_item. fold cfg. rewrite (get_item_ok _ _ _ Hp), ret_bind.
  destruct (do_store_item_ok hash cfg no_repair (item_env e) (c_set_stale (w_conn w)) (w_store w) m lru refs p it (c_cmd (w_conn w))
    (se_store _ _ _ _ _ S) V7) as (ret & cas & s1 & m1 & lru1 & -> & R1 & (it1 & Hp1 & P1 & P2 & P3 & P4) & Hoth & Hres).
  rewrite ret_bind. change (v_key (value_of it)) with k in *. rewrite Hspec in Hres.
  destruct Hres as [(-> & (wv & Hv & HP & -> & Ht) & Hm1)|(Hbad & _)]; [|congruence].
  rewrite V2. assert (wv = value_of it1) as -> by (unfold value_at in Hv; rewrite (Hm1 Hj), Hp1 in Hv; by injection Hv as <-).
  destruct (stored_value _ _ _ _ _ _ _ Hspec Hj HP) as [Hfl Hcas]. pose proof (new_cas_range cfg (w_store w)) as Hnew.
  destruct (protect_stored s1 m1 lru1 it1 (v_cas (value_of it1))) as (w' & E & Hw'); try done.
  - by apply Hm1.
  - rewrite P4. apply V5.
  - change (ITEM_get_cas it1) with (v_cas (value_of it1)). destruct Hcas as [-> | ->]; lia.
  - intros k' Hk'. destruct (Hoth k' Hk') as [H|[H _]]; [done|congruence].
  - exists w', m1, lru1. split; [rewrite <- E; by destruct (protect_item e p _)|].
    destruct Hw' as (H1 & H2 & H3 & H4 & H5 & (v & <- & H6) & H7). split_and!; try done. by exists (value_of it1).
Qed.
End Stored.

(** ** Any answer of a storage command *)

Definition reply_text (ret : store_item_type) : list Z :=
  match ret with
  | STORED => text "STORED" | EXISTS => text "EXISTS" | NOT_FOUND => text "NOT_FOUND" | NOT_STORED => text "NOT_STORED"
  | _ => text "SERVER_ERROR Unhandled storage type."
  end.

Lemma reply_stored_ok ret w rs r : c_resps (w_conn w) = rs ++ [r] -> resp_item r = None ->
  reply_stored ret w = Ret (conn_set_state conn_new_cmd (upd_conn (with_resps (rs ++ [answer (c_noreply (w_conn w)) (reply_text ret)])) w)).
Proof. intros H Hi. destruct ret; cbn [reply_stored reply_text]; by rewrite (out_string_ok _ w rs r H Hi) by (vm_compute; lia). Qed.

(** A value has been read for a command of the text protocol that does not join values. *)
Record awaiting w m refs (p : positive) (it : item) (rs : list mc_resp) (r : mc_resp) : Prop := {
  aw_item : c_item (w_conn w) = Some p;
  aw_plain : c_mset_res (w_conn w) = false;
  aw_resps : c_resps (w_conn w) = rs ++ [r];
  aw_resp : resp_item r = None;
  aw_crlf : value_terminated it = Ret true;
  aw_ready : store_ready cfg (w_store w) m refs p it (c_cmd (w_conn w));
  aw_comm : joins (c_cmd (w_conn w)) = false
}.

(** What the specification of the command says. *)
Definition verdict_of w m (it : item) : store_item_type * option (value -> Prop) :=
  store_spec cfg (c_cmd (w_conn w)) (c_set_stale (w_conn w)) (new_cas cfg (w_store w)) (value_of it) (live_at cfg (w_store w) m (item_key it)).

(** Whatever the command decides, the code is computed and a leaf added; only then comes the answer. *)
Definition completed w m (refs : positive -> Z) ls p it rs (msg : list Z) w' m' lru' : Prop :=
  let mac := cmac cmac_key msg in
  store_rep hash (w_store w') m' lru' (set_refs p (refs p - 1) refs) /\ tree_ok (ls ++ [leaf_of mac 16]) w' /\ w_stderr w' = w_stderr w /\
  c_resps (w_conn w') = rs ++ [answer (c_noreply (w_conn w)) (reply_text (verdict_of w m it).1)] /\
  c_state (w_conn w') = conn_new_cmd /\ c_item (w_conn w') = None /\ is_block mac /\
  (forall k', k' <> item_key it -> value_at (w_store w') m' k' = value_at (w_store w) m k') /\
  match (verdict_of w m it).2 with
  | None => value_at (w_store w') m' (item_key it) = live_at cfg (w_store w) m (item_key it) /\
      total_items (w_store w') = total_items (w_store w)
  | Some P => let n := u64 (total_items (w_store w) + 1) in
      total_items (w_store w') = n /\
      exists v, P v /\ value_at (w_store w') m' (item_key it) = Some (with_mac mac (u32 (u32 n - 1)) v)
  end.

Lemma complete_any e w m lru refs ls p it rs r msg :
  store_rep hash (w_store w) m lru refs -> tree_ok ls w -> Z.of_nat (length ls) < AL_LIMIT -> (forall k, granted (mt_reply e k) = true) ->
  awaiting w m refs p it rs r -> code_input e it msg ->
  exists w' m' lru', complete_nread_ascii hash srv e w = Ret w' /\ completed w m refs ls p it rs msg w' m' lru'.
Proof.
  intros R Ht Hlim Hg [V1 V2 V3 V4 V6 V7 Hj] Hin. pose proof V7 as (_ & _ & Hp & _ & Hrp & _). unfold completed, verdict_of. set (k := item_key it).
  unfold complete_nread_ascii. rewrite V1. cbn [deref]. rewrite ret_bind, (get_item_ok _ _ _ Hp), ret_bind, V6, ret_bind. cbn [negb].
  unfold store_item. fold cfg. rewrite (get_item_ok _ _ _ Hp), ret_bind.
  destruct (do_store_item_ok hash cfg no_repair (item_env e) (c_set_stale (w_conn w)) (w_store w) m lru refs p it (c_cmd (w_conn w)) R V7)
    as (ret & cas & s1 & m1 & lru1 & -> & R1 & (it1 & Hp1 & P1 & P2 & P3 & P4) & Hoth & Hres).
  rewrite ret_bind, V2. change (v_key (value_of it)) with k in *.
  set (w1 := match cas with Some n => upd_conn (with_cas n) (with_store s1 w) | None => with_store s1 w end).
  assert (w_store w1 = s1 /\ w_tree w1 = w_tree w /\ w_stderr w1 = w_stderr w /\ c_resps (w_conn w1) = rs ++ [r] /\ c_noreply (w_conn w1) = c_noreply (w_conn w))
    as (S1 & T1 & W1 & C1 & N1) by (unfold w1; by destruct cas).
  assert (code_input e it1 msg) as Hin1.
  { destruct Hin as (rest & A1 & A2 & A3 & A4). exists rest. simpl in P2, P3, P4. unfold ITEM_data in *. rewrite P4, P3, P2. done. }
  destruct (protect_item_gen e p w1 m1 lru1 refs ls it1 msg) as (w2 & it2 & -> & C2 & W2 & T2 & R2 & K2 & N2 & Hp2 & E2 & B2); try done.
  { by rewrite S1. } { by rewrite S1. } { destruct Ht as (t & Et & Ht). exists t. by rewrite T1. }
  rewrite S1 in K2, N2, E2. rewrite ret_bind, (reply_stored_ok ret w2 rs r) by (by rewrite ?C2 || done). rewrite ret_bind.
  unfold on_store, item_remove. simpl w_store. destruct (release hash (w_store w2) m1 lru1 refs p R2 Hrp) as (s3 & -> & R3 & K3 & G3).
  rewrite !ret_bind. eexists _, m1, lru1. split; [reflexivity|].
  assert (forall k', m1 !! k' <> Some p -> value_at s3 m1 k' = value_at s1 m1 k') as Hsame.
  { intros k' Hk'. eapply (value_at_same hash); [exact R3|done|]. intros q i' Hq Ei'. destruct (K3 q i' Ei') as (i2 & Ei2 & Vi2).
    destruct (K2 q i2) as (i1 & Ei1 & Vi1); [congruence|done|]. exists i1. split; [done|congruence]. }
  assert (forall k', k' <> k -> value_at s3 m1 k' = value_at (w_store w) m k') as Hoth3.
  { intros k' Hk'. destruct (Hoth k' Hk') as [<-|[? _]]; [|congruence]. apply Hsame. intros Hq.
    destruct (sr_item _ _ _ _ _ R1 k' p Hq) as (x & Ex & Kx). simpl in P1. congruence. }
  destruct (store_spec _ _ _ _ _ _) as [ret' spec] eqn:Es. cbn [fst snd].
  assert (ret = ret') as -> by (destruct spec; [destruct Hres as [(-> & _)|(? & _)]; [done|congruence]|by destruct Hres]).
  split; [exact R3|]. split; [exact T2|]. split; [simpl; congruence|]. split; [simpl; rewrite C2, N1; done|]. split; [done|]. split; [done|]. split; [done|]. split; [exact Hoth3|].
  destruct spec as [P|].
  - destruct Hres as [(_ & (v & Hv & HP & -> & Htot) & Hm1)|(? & _)]; [|congruence]. specialize (Hm1 Hj).
    simpl. split; [rewrite (proj1 G3), N2; exact Htot|]. exists v. split; [done|].
    destruct (sr_item _ _ _ _ _ R3 k p Hm1) as (it3 & Hp3 & _). destruct (K3 p it3 Hp3) as (x & Ex & V3'). assert (x = it2) as -> by congruence.
    unfold value_at in Hv |- *. rewrite Hm1 in *. rewrite Hp1 in Hv. rewrite Hp3. injection Hv as <-. simpl. by rewrite V3', E2, Htot.
  - destruct Hres as (_ & (-> & Hv & Htot) & Hm1). simpl. split; [by rewrite Hsame|]. by rewrite (proj1 G3), N2.
Qed.

(** ** Reading a value *)

(** The line that announces a value. *)
Definition value_line (v : value) (return_cas : bool) : list Z :=
  text "VALUE " ++ v_key v ++ [32] ++ itoa_u32 (v_cflags v) ++ [32] ++ itoa_u32 (u32 (v_nbytes v - 2))
  ++ (if return_cas then [32] ++ itoa_u64 (v_cas v) else []) ++ crlf.

Lemma suffix_line it return_cas :
  text "VALUE " ++ item_key it ++ make_ascii_get_suffix it return_cas (it_nbytes it) = value_line (value_of it) return_cas.
Proof.
  unfold make_ascii_get_suffix, value_line. simpl v_cflags. unfold FLAGS_CONV. simpl v_key. simpl v_nbytes. simpl v_cas.
  destruct (has_flag ITEM_CFLAGS it); reflexivity.
Qed.

Lemma value_line_fits v return_cas : (length (v_key v) <= 250)%nat -> 0 <= v_cflags v < 2 ^ 32 -> 0 <= v_cas v < 2 ^ 64 ->
  Z.of_nat (length (value_line v return_cas)) <= 1024.
Proof.
  intros Hk Hf Hc. unfold value_line. rewrite !length_app. pose proof (itoa_u32_length _ Hf). pose proof (itoa_u64_length _ Hc).
  pose proof (itoa_u32_length (u32 (v_nbytes v - 2)) ltac:(unfold u32; apply Z.mod_pos_bound; lia)).
  change (length (text "VALUE ")) with 6%nat. change (length crlf) with 2%nat.
  destruct return_cas; rewrite ?length_app; simpl length; lia.
Qed.

(** The references a get takes: the response's, and that of the bump queue. *)
Definition get_refs (e : senv) (p : positive) (it : item) refs : positive -> Z :=
  bump_refs cfg (queued (item_env e)) p it (set_refs p (refs p + 1) refs).

Lemma get_refs_le e p it refs : get_refs e p it refs p <= refs p + 2.
Proof. unfold get_refs, bump_refs. destruct (_ && _ && _ && _ && _); rewrite ?set_refs_eq; lia. Qed.

Section Get.
Context (e : senv) (w : world T) (m : gmap (list Z) positive) (lru : Z -> list positive) (refs : positive -> Z).
Context (k : list Z) (p : positive) (it : item) (rs : list mc_resp) (wb : list Z) (return_cas : bool) (verdict : mt_error_t).
Context (R : store_rep hash (w_store w) m lru refs) (Hb : below 3 refs) (Hk : m !! k = Some p).
Context (Hp : heap (w_store w) !! p = Some it) (Hlive : live cfg it = true).
Context (Hkey : (length k <= 250)%nat) (Hwhole : whole (value_of it)).
Context (Hresps : c_resps (w_conn w) = rs ++ [mkResp [] None false wb]).
Context (Htree : is_Some (w_tree w)) (Hver : mt_verify (w_tree w) (Some (it_mac it)) 16 (it_mt_index it) = Ret verdict).

(** The item is returned whatever the verdict; a bad one is reported. *)
Lemma get_one_ok : exists w' lru',
  get_one hash srv e k 0 return_cas false w = Ret w' /\
  store_rep hash (w_store w') m lru' (get_refs e p it refs) /\ keeps (heap (w_store w)) (heap (w_store w')) /\
  same_globals (w_store w) (w_store w') /\ w_tree w' = w_tree w /\
  w_stderr w' = w_stderr w ++ (if is_success verdict then [] else [VerificationFailed]) /\
  c_resps (w_conn w') = rs ++ [mkResp [IovBuf (value_line (value_of it) return_cas); IovItem p (it_nbytes it)] (Some p) false wb] /\
  resp_bytes (w_store w') (mkResp [IovBuf (value_line (value_of it) return_cas); IovItem p (it_nbytes it)] (Some p) false wb)
    = Ret (value_line (value_of it) return_cas ++ it_data it).
Proof.
  destruct (store_linked _ _ _ _ _ _ _ R Hk) as (x & Ex & Kx & Lx). assert (x = it) as -> by congruence.
  destruct (sr_refs _ _ _ _ _ R p it Hp) as (Er & E0 & _). rewrite Lx in Er. pose proof (Hb p) as Hbp. unfold IT_REFCOUNT_LIMIT in Hbp.
  destruct (do_item_get_some hash cfg (w_store w) m lru refs k p it true (queued (item_env e)) R Hk Hp) as (s1 & lru1 & E1 & R1 & K1 & G1); [lia|].
  rewrite Hlive in E1, R1. fold (get_refs e p it refs) in R1.
  destruct (store_linked _ _ _ _ _ _ _ R1 Hk) as (it1 & Hp1 & _ & L1). destruct (K1 p it1 Hp1) as (x & Ex1 & V1).
  assert (x = it) as -> by congruence.
  destruct (sr_refs _ _ _ _ _ R1 p it1 Hp1) as (Er1 & _). rewrite L1 in Er1. pose proof (get_refs_le e p it refs) as Hle.
  pose proof Hwhole as ((W1 & W2) & W3 & W4 & W5 & W6 & W7).
  unfold get_one, limited_get, item_get. fold cfg. rewrite E1, ret_bind, (get_item_ok _ _ _ Hp1), ret_bind.
  unfold IT_REFCOUNT_LIMIT. rewrite (proj2 (Z.ltb_ge _ _)) by lia. rewrite ret_bind.
  change (w_store (with_store s1 w)) with s1. rewrite (get_item_ok _ _ _ Hp1), ret_bind. destruct Htree as [t Ht].
  assert (deref (w_tree (with_store s1 w)) = Ret t) as Hd by (simpl; by rewrite Ht). rewrite Hd, ret_bind.
  change (w_tree (with_store s1 w)) with (w_tree w).
  assert (it_mac it1 = it_mac it /\ it_mt_index it1 = it_mt_index it /\ it_nbytes it1 = it_nbytes it /\ it_data it1 = it_data it) as (F1 & F2 & F3 & F4).
  { split_and!; [exact (f_equal v_mac V1)|exact (f_equal v_index V1)|exact (f_equal v_nbytes V1)|exact (f_equal v_data V1)]. }
  assert (has_flag ITEM_CHUNKED it1 = false) as Hch by (rewrite <- W3, <- V1; done).
  rewrite F1, F2, Hver, ret_bind, suffix_line, V1.
  set (w1 := if is_success verdict then with_store s1 w else warn VerificationFailed (with_store s1 w)).
  assert (w_conn w1 = w_conn w /\ w_store w1 = s1 /\ w_tree w1 = w_tree w) as (C1 & S1 & T1) by (unfold w1; by destruct (is_success verdict)).
  unfold out_buf, WRITE_BUFFER_SIZE. rewrite (proj2 (Z.ltb_ge _ _)) by (apply value_line_fits; [|done..]; simpl; by rewrite Kx).
  rewrite (resp_add_iov_ok _ w1 rs (mkResp [] None false wb)); [|by rewrite C1|simpl; lia]. rewrite ret_bind, Hch.
  set (w2 := upd_conn _ w1). rewrite (resp_add_iov_ok _ w2 rs (mkResp [IovBuf (value_line (value_of it) return_cas)] None false wb));
    [|done|simpl; lia]. rewrite ret_bind.
  set (w3 := upd_conn _ w2). rewrite (upd_resp_ok _ w3 rs (mkResp [IovBuf (value_line (value_of it) return_cas); IovItem p (it_nbytes it1)] None false wb)) by done.
  rewrite F3. eexists _, lru1. split; [reflexivity|]. change (w_store (upd_conn _ w3)) with (w_store w1). rewrite S1.
  split; [exact R1|]. split; [exact K1|]. split; [exact G1|]. split; [exact T1|].
  split; [unfold w3, w2, w1; simpl; by destruct (is_success verdict); [rewrite app_nil_r|]|]. split; [reflexivity|].
  unfold resp_bytes. cbn [resp_skip resp_iov mapM iov_bytes]. rewrite (get_item_ok _ _ _ Hp1). cbn [mret outcome_ret mbind outcome_bind].
  unfold plain_data, ITEM_data. rewrite Hch. cbn [mbind outcome_bind]. unfold read_bytes. simpl in W2. rewrite F4.
  rewrite (proj2 (Nat.leb_le _ _)) by lia. cbn [mbind outcome_bind mret outcome_ret]. rewrite take_ge by lia. simpl. by rewrite app_nil_r.
Qed.
End Get.
End Server.
