(* ===== verification/GetFacts.v ===== *)
(** * The get command on any number of keys

    The loop over the keys of a line, through as many token arrays as the line needs: every key
    adds one response, a key that has a live item gets its value, and the responses keep showing
    the values they were made for because they hold references to the items. *)

From S2P Require Import Prelude Items LruFacts ItemsFacts ItemAlloc ItemAllocFacts Util Itoa Store StoreFacts.
From S2P Require Import MtCrypto MtArrayList MtArrayListFacts MerkleTree MerkleSpec MerkleFacts MerkleTheorems.
From S2P Require Import Aes128 Cmac CmacFacts Conn ProtoText ProtoFacts ServerFacts.
From Stdlib Require Ascii String.
Import String.StringSyntax.

Local Open Scope string_scope.
Local Open Scope Z_scope.

Local Opaque AES_CMAC cmac mt_verify.

Section Get.
Context {T : Type} {table_ops : ItemTable T} {slabs : SlabAllocator} {node_hash : NodeHash} (hash : list Z -> Z).
Context {table_laws : ItemTableLaws hash T} {slab_laws : SlabAllocatorLaws} (srv : server_settings).
Implicit Types (s : store T) (w : world T) (m : gmap (list Z) positive) (refs : positive -> Z) (ls : list (list Z)).

Let cfg := base_settings srv.

(** ** Responses that show values *)

Definition blank (wb : list Z) : mc_resp := mkResp [] None false wb.
Definition filled (line : list Z) (p : positive) (n : Z) (wb : list Z) : mc_resp :=
  mkResp [IovBuf line; IovItem p n] (Some p) false wb.

(** The response sends [b], and holds what it needs for that. *)
Definition shows s refs (r : mc_resp) (b : list Z) : Prop :=
  (exists wb, r = blank wb /\ b = []) \/
  (exists line p i wb, r = filled line p (it_nbytes i) wb /\ 0 < refs p /\ heap s !! p = Some i /\
     has_flag ITEM_CHUNKED i = false /\ Z.of_nat (length (it_data i)) = it_nbytes i /\ b = line ++ it_data i).

Lemma shows_stable s s' m' lru' refs refs' r b :
  shows s refs r b -> keeps (heap s) (heap s') -> store_rep hash s' m' lru' refs' -> (forall p, refs p <= refs' p) ->
  shows s' refs' r b.
Proof.
  intros [H|(line & p & i & wb & -> & Hr & Hp & Hc & Hl & ->)] K R' Hle; [by left|right].
  destruct (store_held _ _ _ _ _ p R') as (i' & Hp'); [specialize (Hle p); lia|].
  destruct (K p i' Hp') as (x & Ex & V). assert (x = i) as -> by congruence.
  assert (it_nbytes i' = it_nbytes i /\ it_data i' = it_data i /\ has_flag ITEM_CHUNKED i' = has_flag ITEM_CHUNKED i) as (F1 & F2 & F3).
  { split_and!; [exact (f_equal v_nbytes V)|exact (f_equal v_data V)|exact (f_equal v_chunked V)]. }
  exists line, p, i', wb. rewrite F1, F2, F3. specialize (Hle p). split_and!; try done. lia.
Qed.

Lemma shows_bytes s refs r b : shows s refs r b -> resp_bytes s r = Ret b.
Proof.
  intros [(wb & -> & ->)|(line & p & i & wb & -> & _ & Hp & Hc & Hl & ->)]; [done|].
  unfold resp_bytes, filled. cbn [resp_skip resp_iov mapM iov_bytes]. rewrite (get_item_ok _ _ _ Hp). cbn [mret outcome_ret mbind outcome_bind].
  unfold plain_data, ITEM_data. rewrite Hc. cbn [mbind outcome_bind]. unfold read_bytes.
  rewrite (proj2 (Nat.leb_le _ _)) by lia. cbn [mbind outcome_bind mret outcome_ret]. rewrite take_ge by lia. simpl. by rewrite app_nil_r.
Qed.

(** ** One key *)

(** A value that has not expired, on a server that was never flushed. *)
Definition shown (v : value) : bool := (v_exptime v =? 0) || (current_time cfg <? v_exptime v).

Definition reply_for s m (return_cas : bool) (k : list Z) : list Z :=
  match live_at cfg s m k with Some v => value_line v return_cas ++ v_data v | None => [] end.

Context (never_flushed : oldest_live cfg = 0).

Lemma live_at_value s m k :
  live_at cfg s m k = match value_at s m k with Some v => if shown v then Some v else None | None => None end.
Proof.
  unfold live_at, value_at. destruct (m !! k) as [p|]; [|done]. destruct (heap s !! p) as [i|]; [|done].
  simpl. unfold live, item_is_flushed. by rewrite never_flushed.
Qed.

Lemma reply_same s s' m m' rc : (forall k, live_at cfg s' m' k = live_at cfg s m k) ->
  forall k, reply_for s' m' rc k = reply_for s m rc k.
Proof. intros H k. unfold reply_for. by rewrite H. Qed.

(** The step of one key: [w'] has the values of [w] and the references have grown by two at most. *)
Definition got w m refs w' m' refs' (lru' : Z -> list positive) ls : Prop :=
  sealed hash w' m' lru' refs' ls /\ keeps (heap (w_store w)) (heap (w_store w')) /\
  (forall k, live_at cfg (w_store w') m' k = live_at cfg (w_store w) m k) /\
  (forall p, refs p <= refs' p <= refs p + 2) /\ w_stderr w' = w_stderr w.

Lemma sealed_sub w w' m m' lru lru' refs refs' ls :
  sealed hash w m lru refs ls -> store_rep hash (w_store w') m' lru' refs' -> keeps (heap (w_store w)) (heap (w_store w')) ->
  m' ⊆ m -> same_globals (w_store w) (w_store w') -> w_tree w' = w_tree w -> sealed hash w' m' lru' refs' ls.
Proof.
  intros S R K Hm G Ht. split; [done| | |].
  - destruct (se_tree _ _ _ _ _ _ S) as (t & Et & Hr). exists t. by rewrite Ht.
  - rewrite (proj1 G). apply S.
  - intros k v Hv. unfold value_at in Hv. destruct (m' !! k) as [p|] eqn:Hk; [|done].
    apply (se_value _ _ _ _ _ _ S k v). unfold value_at. rewrite (lookup_weaken _ _ _ _ Hk Hm).
    destruct (heap (w_store w') !! p) as [i'|] eqn:Hp; [|done]. destruct (K p i' Hp) as (i & -> & V). simpl in *. by rewrite <- V.
Qed.

Section One.
Context (e : senv) (w : world T) (m : gmap (list Z) positive) (lru : Z -> list positive) (refs : positive -> Z) (ls : list (list Z)).
Context (k : list Z) (rs : list mc_resp) (wb : list Z) (return_cas : bool).
Context (S : sealed hash w m lru refs ls) (Hb : below 3 refs).
Context (Hkey : (length k <= 250)%nat) (Hresps : c_resps (w_conn w) = rs ++ [blank wb]).

Lemma get_one_miss : live_at cfg (w_store w) m k = None ->
  exists w' m' lru', get_one hash srv e k 0 return_cas false w = Ret w' /\ got w m refs w' m' refs lru' ls /\ w_conn w' = w_conn w.
Proof.
  intros Hlive. unfold get_one, limited_get, item_get. fold cfg.
  assert (exists s' m' lru', do_item_get cfg k (hash k) true (queued (item_env e)) (w_store w) = Ret (None, s') /\
    store_rep hash s' m' lru' refs /\ keeps (heap (w_store w)) (heap s') /\ same_globals (w_store w) s' /\ m' ⊆ m /\
    m' !! k = None /\ (forall k', k' <> k -> m' !! k' = m !! k')) as (s' & m' & lru' & -> & R' & K & G & Hm & Hk' & Ho).
  { pose proof (se_store _ _ _ _ _ _ S) as R. destruct (m !! k) as [p|] eqn:Hk.
    - destruct (store_linked _ _ _ _ _ _ _ R Hk) as (i & Hp & Hki & Hl). unfold live_at in Hlive. rewrite Hk, Hp in Hlive.
      destruct (sr_refs _ _ _ _ _ R p i Hp) as (Er & _). rewrite Hl in Er. pose proof (Hb p) as Hbp. unfold IT_REFCOUNT_LIMIT in Hbp.
      destruct (do_item_get_some hash cfg (w_store w) m lru refs k p i true (queued (item_env e)) R Hk Hp) as (s' & lru' & E & R' & K & G); [lia|].
      destruct (live cfg i); [discriminate Hlive|]. exists s', (base.delete k m), lru'. split_and!; try done; [by destruct G..| | |].
      + apply delete_subseteq.
      + apply lookup_delete_eq.
      + intros k' Hk'. by apply lookup_delete_ne.
    - exists (w_store w), m, lru. rewrite (do_item_get_none hash cfg (w_store w) m lru refs) by done. split_and!; auto using keeps_refl; done. }
  rewrite !ret_bind. exists (with_store s' w), m', lru'. split; [reflexivity|]. split; [|reflexivity].
  split; [by eapply sealed_sub|]. split; [done|]. split; [|split; [intros; lia|done]].
  intros k'. simpl. destruct (decide (k' = k)) as [->|Hne].
  - rewrite Hlive. unfold live_at. by rewrite Hk'.
  - rewrite !live_at_value. replace (value_at s' m' k') with (value_at (w_store w) m k'); [done|]. symmetry.
    eapply (value_at_same hash); [exact R'|by apply Ho|]. intros q i' _. apply K.
Qed.

Lemma get_one_hit v : live_at cfg (w_store w) m k = Some v ->
  exists w' lru' refs' r, get_one hash srv e k 0 return_cas false w = Ret w' /\ got w m refs w' m refs' lru' ls /\
    c_resps (w_conn w') = rs ++ [r] /\ shows (w_store w') refs' r (value_line v return_cas ++ v_data v).
Proof.
  intros Hlive. unfold live_at in Hlive. destruct (m !! k) as [p|] eqn:Hk; [|done].
  destruct (heap (w_store w) !! p) as [it|] eqn:Hp; [|done]. destruct (live cfg it) eqn:Hl; [|done]. injection Hlive as <-.
  assert (value_at (w_store w) m k = Some (value_of it)) as Hv by (unfold value_at; by rewrite Hk, Hp).
  destruct (se_value _ _ _ _ _ _ S k _ Hv) as (Hg & _ & Hwhole). destruct (se_tree _ _ _ _ _ _ S) as (t & Et & Ht).
  assert (mt_verify (w_tree w) (Some (it_mac it)) 16 (it_mt_index it) = Ret MT_SUCCESS) as Hver.
  { destruct Hg as (H0 & Hls & Hm1 & Hm2). simpl in *. rewrite Et, <- (Z2Nat.id (it_mt_index it)) by done.
    apply (mt_verify_complete t ls); try done. rewrite Hm1. lia. }
  assert (is_Some (w_tree w)) as Hsome by (by eexists).
  destruct (get_one_ok hash srv e w m lru refs k p it rs wb return_cas MT_SUCCESS (se_store _ _ _ _ _ _ S) Hb Hk Hp Hl Hkey Hwhole Hresps Hsome Hver)
    as (w' & lru' & E & R' & K & G & T' & W & C & _).
  assert (get_refs srv e p it refs p = refs p + 1 \/ get_refs srv e p it refs p = refs p + 2) as Hrefs.
  { unfold get_refs, bump_refs. destruct (_ && _ && _ && _ && _); rewrite ?set_refs_eq; lia. }
  assert (forall q, q <> p -> get_refs srv e p it refs q = refs q) as Hother.
  { intros q Hq. unfold get_refs, bump_refs. destruct (_ && _ && _ && _ && _); by rewrite ?set_refs_ne. }
  destruct (sr_refs _ _ _ _ _ (se_store _ _ _ _ _ _ S) p it Hp) as (_ & Hr0 & _).
  destruct (store_held _ _ _ _ _ p R') as (i' & Hp'); [lia|]. destruct (K p i' Hp') as (x & Ex & V). assert (x = it) as -> by congruence.
  destruct Hwhole as ((W1 & W2) & W3 & _).
  exists w', lru', (get_refs srv e p it refs), (filled (value_line (value_of it) return_cas) p (it_nbytes i') wb).
  assert (it_nbytes i' = it_nbytes it) as Fn by exact (f_equal v_nbytes V). assert (it_data i' = it_data it) as Fd by exact (f_equal v_data V).
  split; [done|]. split; [|split; [by rewrite C, Fn|]].
  - split; [by eapply sealed_sub|]. split; [done|]. split; [|split; [|by rewrite W, app_nil_r]].
    + intros k'. rewrite !live_at_value. replace (value_at (w_store w') m k') with (value_at (w_store w) m k'); [done|]. symmetry.
      eapply (value_at_same hash); [exact R'|done|]. intros q j _. apply K.
    + intros q. destruct (decide (q = p)) as [->|Hq]; [lia|]. rewrite Hother by done. lia.
  - right. exists (value_line (value_of it) return_cas), p, i', wb. split; [done|]. split; [lia|]. split; [done|].
    split; [rewrite <- W3, <- V; done|]. rewrite Fn, Fd. done.
Qed.

(** Either way the response shows the reply to the key. *)
Lemma get_one_any : exists w' m' lru' refs' r, get_one hash srv e k 0 return_cas false w = Ret w' /\ got w m refs w' m' refs' lru' ls /\
  c_resps (w_conn w') = rs ++ [r] /\ shows (w_store w') refs' r (reply_for (w_store w) m return_cas k).
Proof.
  unfold reply_for. destruct (live_at cfg (w_store w) m k) as [v|] eqn:Hlive.
  - destruct (get_one_hit v Hlive) as (w' & lru' & refs' & r & H). by exists w', m, lru', refs', r.
  - destruct (get_one_miss Hlive) as (w' & m' & lru' & E & H & C). exists w', m', lru', refs, (blank wb).
    split; [done|]. split; [done|]. split; [by rewrite C|]. left. by exists wb.
Qed.
End One.

(** ** All keys *)

Lemma sealed_conn f w m lru refs ls : sealed hash w m lru refs ls -> sealed hash (upd_conn f w) m lru refs ls.
Proof. intros [S1 S2 S3 S4]. by split. Qed.

Lemma start_response_ok e w : (forall n, resp_room e n = true) ->
  start_response e w = (true, upd_conn (fun c => with_resps (c_resps c ++ [blank []]) c) w).
Proof. intros H. unfold start_response, resp_start. by rewrite H. Qed.

Definition ok_key (k : list Z) : Prop := (0 < length k <= 250)%nat.

(** The rest of a line that is still to be split. *)
Definition ok_rest (rest : option (list Z)) : Prop :=
  match rest with Some r => r <> [] /\ is_string r | None => True end.

(** The keys of a token array and of the rest. *)
Definition all_keys (ks : list (list Z)) (rest : option (list Z)) : list (list Z) := ks ++ words (default [] rest).

(** What the loop does: it adds responses that together show the replies to the keys. *)
Definition all_got w m refs ls (rs : list mc_resp) (b : list Z) (w' : world T) : Prop :=
  exists m' lru' refs' rs' bs, sealed hash w' m' lru' refs' ls /\ w_stderr w' = w_stderr w /\
    keeps (heap (w_store w)) (heap (w_store w')) /\ (forall p, refs p <= refs' p) /\
    c_resps (w_conn w') = rs ++ rs' /\ rs' <> [] /\ Forall2 (shows (w_store w') refs') rs' bs /\ concat bs = b.

(** One more response in front. *)
Lemma all_got_cons w w1 m m1 refs refs1 ls rs r b0 b w' :
  all_got w1 m1 refs1 ls (rs ++ [r]) b w' -> shows (w_store w1) refs1 r b0 ->
  keeps (heap (w_store w)) (heap (w_store w1)) -> (forall p, refs p <= refs1 p) -> w_stderr w1 = w_stderr w ->
  all_got w m refs ls rs (b0 ++ b) w'.
Proof.
  intros (m' & lru' & refs' & rs' & bs & S' & W & K & Hle & C & _ & F & <-) Hr K1 Hle1 W1.
  exists m', lru', refs', (r :: rs'), (b0 :: bs). split; [done|]. split; [congruence|]. split; [by eapply keeps_trans|].
  split; [intros p; specialize (Hle p); specialize (Hle1 p); lia|]. split; [by rewrite C, <- app_assoc|]. split; [done|].
  split; [|done]. constructor; [|done]. eapply shows_stable; [exact Hr|done|apply S'|done].
Qed.

Lemma all_got_step w w1 m m1 refs refs1 ls rs b w' :
  all_got w1 m1 refs1 ls rs b w' -> keeps (heap (w_store w)) (heap (w_store w1)) -> (forall p, refs p <= refs1 p) ->
  w_stderr w1 = w_stderr w -> all_got w m refs ls rs b w'.
Proof.
  intros (m' & lru' & refs' & rs' & bs & S' & W & K & Hle & H) K1 Hle1 W1. exists m', lru', refs', rs', bs.
  split; [done|]. split; [congruence|]. split; [by eapply keeps_trans|]. split; [|done].
  intros p. specialize (Hle p). specialize (Hle1 p). lia.
Qed.

Section Loop.
Context (e : senv) (return_cas : bool) (ls : list (list Z)) (Hroom : forall n, resp_room e n = true).

Lemma get_keys_ok fuel w m lru refs rs r0 b0 ks rest :
  sealed hash w m lru refs ls -> below (3 + 2 * Z.of_nat (length (all_keys ks rest))) refs ->
  c_resps (w_conn w) = rs ++ [r0] -> shows (w_store w) refs r0 b0 -> (ks <> [] -> exists wb, r0 = blank wb) ->
  Forall ok_key (all_keys ks rest) -> ok_rest rest -> (length ks + 2 * length (default [] rest) < fuel)%nat ->
  exists w', get_keys hash srv fuel e 0 return_cas false (map word_token ks ++ [mkToken rest 0]) w = Ret (false, None, w') /\
    all_got w m refs ls rs (b0 ++ concat (map (reply_for (w_store w) m return_cas) (all_keys ks rest))) w'.
Proof.
  revert w m lru refs rs r0 b0 ks rest. induction fuel as [|fuel IH]; intros w m lru refs rs r0 b0 ks rest S Hb C Hr0 Hblank Hok Hrest Hfuel; [lia|].
  cbn [get_keys]. destruct ks as [|k ks].
  - cbn [map app lookup list_lookup deref]. rewrite ret_bind. cbn [tok_length tok_value Nat.eqb negb].
    destruct rest as [r|].
    2:{ exists w. split; [done|]. exists m, lru, refs, [r0], [b0]. unfold all_keys. simpl. rewrite !app_nil_r.
        split_and!; try done; auto using keeps_refl. }
    destruct Hrest as [Hr Hstr]. destruct (tokenize_command_ok r MAX_TOKENS Hstr ltac:(unfold MAX_TOKENS; lia)) as (ks & rest & Et & Hlen & Hw & Hrest).
    rewrite Et. unfold all_keys in Hb, Hok |- *. cbn [app default from_option] in Hb, Hok |- *. unfold id in *. rewrite Hw in Hb, Hok |- *.
    fold (all_keys ks rest) in Hb, Hok |- *.
    destruct (lookup_lt_is_Some_2 (map word_token ks ++ [mkToken rest 0]) 0) as [first Hfirst]; [rewrite length_app; simpl; lia|].
    rewrite Hfirst. cbn [deref]. rewrite ret_bind, (start_response_ok e w Hroom). cbn [negb].
    set (w1 := upd_conn _ w).
    destruct (IH w1 m lru refs (rs ++ [r0]) (blank []) [] ks rest) as (w' & E & G).
    + by apply sealed_conn.
    + exact Hb.
    + simpl. by rewrite C.
    + left. by exists [].
    + by exists [].
    + exact Hok.
    + destruct rest as [r'|]; [|done]. destruct Hrest as (_ & Hne & n & _ & ->). split; [done|]. by apply Forall_drop.
    + cbn [default from_option length Nat.add] in Hfuel. unfold id in Hfuel. pose proof (words_count r) as Hc. destruct r as [|c0 r0']; [done|].
      destruct rest as [r'|]; simpl default.
      * destruct Hrest as (Hl & Hne & n & Hn & ->). unfold MAX_TOKENS in Hl. unfold id. rewrite length_drop.
        assert (length (drop n (c0 :: r0')) <> 0)%nat as Hd by (intros H; by apply Hne, nil_length_inv).
        rewrite length_drop in Hd. lia.
      * rewrite Hw in Hc. rewrite length_app in Hc. simpl in *. lia.
    + exists w'. split; [exact E|]. apply (all_got_cons w w1 m m refs refs ls rs r0 b0 _ w'); try done. apply keeps_refl.
  - destruct (Hblank ltac:(done)) as [wb ->]. assert (b0 = []) as -> by (destruct Hr0 as [(? & _ & ->)|(? & ? & ? & ? & [=] & _)]; done).
    rewrite app_nil_l. unfold all_keys in Hb, Hok |- *. cbn [app map] in Hb, Hok |- *. fold (all_keys ks rest) in Hb, Hok |- *.
    inversion Hok as [|? ? [Hk1 Hk2] Hoks]; subst.
    cbn [lookup list_lookup deref]. rewrite ret_bind. cbn [word_token tok_length tok_value].
    rewrite (proj2 (Nat.eqb_neq (length k) 0)) by lia. cbn [negb deref]. rewrite ret_bind.
    unfold KEY_MAX_LENGTH. rewrite (proj2 (Z.ltb_ge _ _)) by lia. simpl length in Hb.
    destruct (get_one_any e w m lru refs ls k rs wb return_cas S (below_le _ 3 _ Hb ltac:(lia)) Hk2 C)
      as (w1 & m1 & lru1 & refs1 & r & -> & (S1 & K1 & L1 & Hr1 & W1) & C1 & Hs1).
    rewrite ret_bind. cbn [drop]. rewrite !drop_0.
    assert (below (3 + 2 * Z.of_nat (length (all_keys ks rest))) refs1) as Hb1.
    { intros q. specialize (Hb q). specialize (Hr1 q). lia. }
    assert (forall p, refs p <= refs1 p) as Hle by (intros p; specialize (Hr1 p); lia).
    rewrite (map_ext _ _ (reply_same (w_store w1) (w_store w) m1 m return_cas (fun k => eq_sym (L1 k)))).
    rewrite <- (reply_same (w_store w) (w_store w1) m m1 return_cas L1 k) in Hs1 |- *.
    cbn [concat]. destruct ks as [|k2 ks].
    + cbn [map app lookup list_lookup deref]. rewrite ret_bind. cbn [tok_length Nat.eqb negb].
      destruct (IH w1 m1 lru1 refs1 rs r (reply_for (w_store w1) m1 return_cas k) [] rest) as (w' & E & G); try done.
      { simpl in Hfuel |- *. lia. }
      exists w'. split; [exact E|]. by apply (all_got_step w w1 m m1 refs refs1).
    + cbn [map app lookup list_lookup deref]. rewrite ret_bind. cbn [word_token tok_length].
      inversion Hoks as [|? ? [Hk3 Hk4] _]; subst. rewrite (proj2 (Nat.eqb_neq (length k2) 0)) by lia. cbn [negb].
      rewrite (start_response_ok e w1 Hroom). cbn [negb]. set (w2 := upd_conn _ w1).
      destruct (IH w2 m1 lru1 refs1 (rs ++ [r]) (blank []) [] (k2 :: ks) rest) as (w' & E & G).
      * by apply sealed_conn.
      * exact Hb1.
      * simpl. by rewrite C1.
      * left. by exists [].
      * by exists [].
      * exact Hoks.
      * exact Hrest.
      * simpl in Hfuel |- *. lia.
      * exists w'. split; [exact E|]. by apply (all_got_cons w w2 m m1 refs refs1 ls rs r).
Qed.
End Loop.

(** ** The end of the line *)

Lemma resp_bytes_snoc s iovs p wb l bytes :
  resp_bytes s (mkResp iovs p false wb) = Ret bytes ->
  resp_bytes s (mkResp (iovs ++ [IovBuf l]) p false wb) = Ret (bytes ++ l).
Proof.
  unfold resp_bytes. cbn [resp_skip resp_iov]. revert bytes. induction iovs as [|v iovs IH]; intros bytes; cbn [app mapM].
  - intros [= <-]. cbn [iov_bytes mbind outcome_bind mret outcome_ret]. simpl. by rewrite app_nil_r.
  - destruct (iov_bytes s v) as [b| |]; cbn [mbind outcome_bind mret outcome_ret]; try discriminate.
    destruct (mapM (iov_bytes s) iovs) as [bs| |]; cbn [mbind outcome_bind mret outcome_ret]; try discriminate.
    intros [= <-]. specialize (IH (concat bs) eq_refl).
    destruct (mapM (iov_bytes s) (iovs ++ [IovBuf l])) as [bs'| |]; cbn [mbind outcome_bind mret outcome_ret] in *; try discriminate.
    injection IH as IH. simpl. by rewrite IH, app_assoc.
Qed.

Lemma mapM_Ret {A B} (f : A -> outcome B) l bs : Forall2 (fun x b => f x = Ret b) l bs -> mapM f l = Ret bs.
Proof. induction 1 as [|x b l bs H _ IH]; [done|]. cbn [mapM]. rewrite H. cbn [mbind outcome_bind]. by rewrite IH. Qed.

(** The line that ends the answer goes to the last response. *)
Lemma shows_end s refs rs r bs b : Forall2 (shows s refs) (rs ++ [r]) (bs ++ [b]) ->
  (length (resp_iov r) < 4)%nat /\
  mapM (resp_bytes s) (rs ++ [mkResp (resp_iov r ++ [IovBuf (text "END" ++ crlf)]) (resp_item r) (resp_skip r) (resp_wbuf r)])
    = Ret (bs ++ [b ++ text "END" ++ crlf]).
Proof.
  intros F. apply Forall2_app_inv in F as [F Hr]; [|apply Forall2_length in F; rewrite !length_app in F; simpl in F; lia].
  inversion Hr as [|? ? ? ? Hs _]; subst. pose proof (shows_bytes _ _ _ _ Hs) as Hb.
  assert (resp_skip r = false /\ length (resp_iov r) < 4)%nat as [Hk Hl].
  { destruct Hs as [(? & -> & _)|(? & ? & ? & ? & -> & _)]; split; simpl; lia || done. }
  split; [done|]. apply mapM_Ret, Forall2_app.
  - eapply Forall2_impl; [exact F|]. intros x y. apply shows_bytes.
  - constructor; [|constructor]. rewrite Hk. apply resp_bytes_snoc. rewrite <- Hb. destruct r. simpl in *. by rewrite Hk.
Qed.

Lemma process_get_all e w m lru refs ls rs wb line cmd keys return_cas :
  is_string line -> words line = cmd :: keys -> Forall ok_key keys -> sealed hash w m lru refs ls ->
  below (3 + 2 * Z.of_nat (length keys)) refs -> c_resps (w_conn w) = rs ++ [blank wb] -> (forall n, resp_room e n = true) ->
  exists w' m' lru' refs' rs' parts, process_get_command hash srv e (tokenize_command line MAX_TOKENS) return_cas false w = Ret w' /\
    sealed hash w' m' lru' refs' ls /\ w_stderr w' = w_stderr w /\ c_state (w_conn w') = conn_mwrite /\
    c_resps (w_conn w') = rs ++ rs' /\ mapM (resp_bytes (w_store w')) rs' = Ret parts /\
    concat parts = concat (map (reply_for (w_store w) m return_cas) keys) ++ text "END" ++ crlf.
Proof.
  intros Hstr Hw Hok S Hb C Hroom.
  destruct (tokenize_command_ok line MAX_TOKENS Hstr ltac:(unfold MAX_TOKENS; lia)) as (ts & rest & -> & Hlen & Hws & Hrest).
  destruct ts as [|t ks].
  { destruct rest as [r|]; [destruct Hrest as (Hl & _); discriminate Hl|]. rewrite Hw in Hws. discriminate Hws. }
  rewrite Hw in Hws. simpl app in Hws. injection Hws as _ ->. fold (all_keys ks rest) in *.
  unfold process_get_command. cbn [map app drop]. rewrite drop_0.
  assert (last (word_token t :: map word_token ks ++ [mkToken rest 0]) = Some (mkToken rest 0)) as Hlast by (rewrite app_comm_cons; apply last_snoc).
  destruct (get_keys_ok e return_cas ls Hroom (get_fuel (word_token t :: map word_token ks ++ [mkToken rest 0])) w m lru refs rs (blank wb) [] ks rest)
    as (w1 & -> & m1 & lru1 & refs1 & rs1 & bs & S1 & W1 & K1 & _ & C1 & Hne & F & Hbs); try done.
  { left. by exists wb. } { by exists wb. }
  { destruct rest as [r|]; [|done]. destruct Hrest as (_ & Hr & n & _ & ->). split; [done|]. by apply Forall_drop. }
  { unfold get_fuel. rewrite Hlast. cbn [mbind option_bind tok_value length]. rewrite length_app, length_map. simpl. lia. }
  rewrite ret_bind. destruct (exists_last Hne) as (rs2 & r & ->). rewrite app_assoc in C1.
  destruct bs as [|b bs _] using rev_ind; [apply Forall2_length in F; rewrite length_app in F; simpl in F; lia|].
  destruct (shows_end _ _ _ _ _ _ F) as [Hl HM]. rewrite (resp_add_iov_ok _ w1 (rs ++ rs2) r C1 Hl), ret_bind.
  eexists _, m1, lru1, refs1, _, _. split; [reflexivity|]. split; [by apply sealed_conn, sealed_conn|]. split; [exact W1|]. split; [reflexivity|].
  split; [simpl; by rewrite <- app_assoc|]. split; [exact HM|]. rewrite concat_app in Hbs |- *. simpl in *. rewrite app_nil_r in *.
  by rewrite app_assoc, Hbs.
Qed.
End Get.
