(* ===== verification/ChunkFacts.v ===== *)
(** * Large values

    The value of an item that is too large for one slab chunk is read into a chain of chunks.
    The chain takes the value in full or the memory runs out; but [complete_nread_ascii] then computes
    the authentication code over the memory behind the item's header, which is not the value. *)

From S2P Require Import Prelude Items LruFacts ItemsFacts ItemAlloc ItemAllocFacts Store StoreFacts.
From S2P Require Import MtCrypto MtArrayList MerkleTree MerkleSpec Aes128Facts Cmac CmacFacts Conn ProtoText ServerFacts.
From S2P Require Import Assoc AssocFacts ItemTableAssoc Samples MtCryptoFacts MtArrayListFacts MerkleTheorems.
From Stdlib Require Ascii String.
Import String.StringSyntax.

Local Open Scope string_scope.
Local Open Scope Z_scope.

Local Opaque AES_CMAC cmac.

Section Large.
Context {T : Type} {table_ops : ItemTable T} {slabs : SlabAllocator} {node_hash : NodeHash} (hash : list Z -> Z).
Context {table_laws : ItemTableLaws hash T} {slab_laws : SlabAllocatorLaws} (srv : server_settings).
Context (no_repair : tail_repair_time (base_settings srv) = 0).
Implicit Types (w : world T) (m : gmap (list Z) positive) (refs : positive -> Z).

Let cfg := base_settings srv.
Context (Hmax : 48 < slab_chunk_size_max cfg).

(** ** Reading into chunks *)

(** The turns that are left: a byte costs at most one turn to copy it and one to get a chunk. *)
Definition read_turns (len room : Z) : Z := if len =? 0 then 0 else if room =? 0 then 2 * len else 2 * len - 1.

Lemma read_chunks_ok fuel e p rbuf s m lru refs i :
  store_rep hash s m lru refs -> no_crawler s m -> room refs -> 0 < refs p -> heap s !! p = Some i -> 2 <= it_nbytes i ->
  0 <= chunk_room i -> read_turns (Z.of_nat (length rbuf)) (chunk_room i) < Z.of_nat fuel ->
  exists ok rest s' d c, read_into_chunked_item hash srv fuel e p rbuf s = Ret (ok, rest, s') /\
    grown hash (trylock (item_env e)) p s m refs s' (filled d c (value_of i)) /\
    d ++ rest = it_data i ++ rbuf /\ (ok = true -> rest = []).
Proof.
  intros R Hc Hroom Hr. revert rbuf s m lru i R Hc.
  induction fuel as [|fuel IH]; intros rbuf s m lru i R Hc Hp Hn Hi Hf; unfold read_turns in Hf.
  { repeat case_match; lia. }
  cbn [read_into_chunked_item]. destruct (Nat.eqb_spec (length rbuf) 0) as [Hz|Hz].
  { exists true, rbuf, s, (it_data i), (it_chunks i). split; [done|]. split; [by eapply (grown_here _ _ _ s m lru)|].
    split; [done|]. intros _. by apply nil_length_inv. }
  rewrite (proj2 (Z.eqb_neq (Z.of_nat (length rbuf)) 0)) in Hf by lia.
  rewrite (get_item_ok _ _ _ Hp). cbn [mbind outcome_bind]. fold cfg. destruct (Z.eqb_spec (chunk_room i) 0) as [H0|H0].
  - destruct (do_item_alloc_chunk_ok hash cfg (trylock (item_env e)) no_repair p (Z.of_nat (length rbuf)) s m lru refs i)
      as (ok & s1 & -> & Hg); try done.
    cbn [mbind outcome_bind]. destruct ok; cbn [negb].
    2:{ exists false, rbuf, s1, (it_data i), (it_chunks i). done. }
    destruct Hg as (m1 & lru1 & i1 & R1 & D1 & K1 & G1 & Hp1 & V1).
    assert (2 <= it_nbytes i1) as Hn1 by (apply (f_equal v_nbytes) in V1; simpl in V1; lia).
    assert (chunk_room i1 = Z.min (Z.of_nat (length rbuf)) (slab_chunk_size_max cfg - 48)) as Hr1.
    { change (chunk_room i1) with (v_room (value_of i1)). rewrite V1. unfold v_room. simpl. rewrite sum_snoc.
      unfold chunk_room in H0. lia. }
    destruct (IH rbuf s1 m1 lru1 i1 R1) as (ok & rest & s2 & d & c & E & Hg & Hd & Hok); try done.
    { by apply (no_crawler_but p s m s1 m1 i1); [..|apply D1|done|]. }
    { lia. }
    { unfold read_turns. rewrite Hr1. rewrite !(proj2 (Z.eqb_neq _ 0)) by lia. lia. }
    exists ok, rest, s2, d, c. split; [done|]. rewrite V1 in Hg. split; [by eapply grown_step|].
    split; [|done]. rewrite Hd. f_equal. exact (f_equal v_data V1).
  - set (n := Z.to_nat (Z.min (Z.of_nat (length rbuf)) (chunk_room i))).
    assert (0 < n <= length rbuf)%nat as Hnn by (unfold n; lia).
    rewrite (upd_item_ok _ _ _ _ Hp). cbn [mbind outcome_bind].
    destruct (grown_upd hash (trylock (item_env e)) p s m lru refs i (it_data i ++ take n rbuf) (it_chunks i) R Hp)
      as (m1 & lru1 & i1 & R1 & D1 & K1 & G1 & Hp1 & V1).
    assert (2 <= it_nbytes i1) as Hn1 by (apply (f_equal v_nbytes) in V1; simpl in V1; lia).
    assert (chunk_room i1 = chunk_room i - Z.of_nat n) as Hr1.
    { change (chunk_room i1) with (v_room (value_of i1)). rewrite V1. unfold v_room, chunk_room. simpl.
      rewrite length_app, length_take. lia. }
    destruct (IH (drop n rbuf) _ m1 lru1 i1 R1) as (ok & rest & s2 & d & c & E & Hg & Hd & Hok); try done.
    { by apply (no_crawler_but p s m _ m1 i1); [..|apply D1|done|]. }
    { unfold n in *. lia. }
    { unfold read_turns. rewrite length_drop. repeat case_match; lia. }
    exists ok, rest, s2, d, c. split; [exact E|]. rewrite V1 in Hg. split; [by eapply grown_step|].
    split; [|done]. rewrite Hd. apply (f_equal v_data) in V1. simpl in V1. by rewrite V1, <- app_assoc, take_drop.
Qed.

(** ** Storing a large value *)

(** The connection waits for the value [bytes] of the large item [p]. *)
Record large_awaited w m refs (p : positive) (it : item) (bytes : list Z) (rs : list mc_resp) (r : mc_resp) : Prop := {
  la_item : c_item (w_conn w) = Some p;
  la_plain : c_mset_res (w_conn w) = false;
  la_heap : heap (w_store w) !! p = Some it;
  la_chunked : has_flag ITEM_CHUNKED it = true;
  la_empty : it_data it = [] /\ it_chunks it = [];
  la_len : c_rlbytes (w_conn w) = Z.of_nat (length bytes) /\ it_nbytes it = Z.of_nat (length bytes);
  la_crlf : exists d, bytes = d ++ crlf;
  la_resps : c_resps (w_conn w) = rs ++ [r] /\ resp_item r = None;
  la_held : linked it = false /\ 0 < refs p /\ below 2 refs;
  la_table : no_crawler (w_store w) m;
  la_cmd : joins (c_cmd (w_conn w)) = false
}.

Lemma chunked_terminated it d : has_flag ITEM_CHUNKED it = true -> it_data it = d ++ crlf -> value_terminated it = Ret true.
Proof.
  intros Hc Hd. unfold value_terminated. rewrite Hc, Hd, length_app. change (length crlf) with 2%nat.
  rewrite (proj2 (Nat.ltb_lt _ _)) by lia. cbn [c_assert mbind outcome_bind].
  replace (length d + 2 - 2)%nat with (length d) by lia. rewrite drop_app_length. by rewrite bool_decide_eq_true_2.
Qed.

(** When there is less memory behind the header than the value is long, computing the code leaves it. *)
Lemma complete_short e w m lru refs p it :
  store_rep hash (w_store w) m lru refs -> store_ready cfg (w_store w) m refs p it (c_cmd (w_conn w)) ->
  c_item (w_conn w) = Some p -> has_flag ITEM_CHUNKED it = true -> value_terminated it = Ret true ->
  Z.of_nat (length (beyond (item_env e))) < it_nbytes it <= 2 ^ 31 - 16 ->
  complete_nread_ascii hash srv e w = Ub.
Proof.
  intros R Hready Hi Hc Hd Hs. pose proof Hready as (_ & _ & Hp & _).
  unfold complete_nread_ascii. rewrite Hi. cbn [deref]. rewrite ret_bind, (get_item_ok _ _ _ Hp), ret_bind, Hd, ret_bind. cbn [negb].
  unfold store_item. fold cfg. rewrite (get_item_ok _ _ _ Hp), ret_bind.
  destruct (do_store_item_ok hash cfg no_repair (item_env e) (c_set_stale (w_conn w)) (w_store w) m lru refs p it (c_cmd (w_conn w))
    R Hready) as (ret & cas & s1 & m1 & lru1 & -> & R1 & (it1 & Hp1 & P1 & P2 & P3 & P4) & _).
  rewrite ret_bind. set (w1 := match cas with Some _ => _ | None => _ end).
  assert (w_store w1 = s1) as Es by (unfold w1; by destruct cas).
  assert (protect_item e p w1 = Ub) as ->; [|done].
  unfold protect_item. rewrite Es, (get_item_ok _ _ _ Hp1), ret_bind. unfold ITEM_data. rewrite P4, P2. simpl v_chunked. simpl v_nbytes. rewrite Hc.
  rewrite <- (Z2Nat.id (it_nbytes it)) by lia. rewrite AES_CMAC_short; [done| |lia|lia]. split; [done|]. repeat constructor; unfold byte_ok; lia.
Qed.

Lemma large_read_ok e w m lru refs p it bytes rs r :
  store_rep hash (w_store w) m lru refs -> large_awaited w m refs p it bytes rs r ->
  exists ok rest s1 m1 lru1 it1, read_into_chunked_item hash srv (1 + 2 * length bytes) e p bytes (w_store w) = Ret (ok, rest, s1) /\
    store_rep hash s1 m1 lru1 refs /\ heap s1 !! p = Some it1 /\ has_flag ITEM_CHUNKED it1 = true /\
    it_data it1 ++ rest = bytes /\ (ok = true -> rest = []) /\
    store_ready cfg s1 m1 refs p it1 (c_cmd (w_conn w)) /\ it_nbytes it1 = it_nbytes it /\ item_key it1 = item_key it.
Proof.
  intros R [A1 Amset A2 A3 [A4 A5] [A6 A7] [d Hd] A8 (A9 & A10 & A11) A12 A13].
  assert (2 <= it_nbytes it) as Hn by (rewrite A7, Hd, length_app; simpl; lia).
  destruct (read_chunks_ok (1 + 2 * length bytes) e p bytes (w_store w) m lru refs it)
    as (ok & rest & s1 & d1 & c & E & (m1 & lru1 & it1 & R1 & D1 & K1 & G1 & Hp1 & V1) & Hall & Hok); try done.
  { by apply (below_room 2). }
  { unfold chunk_room. by rewrite A4, A5. }
  { unfold read_turns. repeat case_match; lia. }
  rewrite A4, app_nil_l in Hall.
  exists ok, rest, s1, m1, lru1, it1. split; [done|]. split; [done|]. split; [done|].
  split; [rewrite <- A3; exact (f_equal v_chunked V1)|].
  split; [rewrite <- Hall; f_equal; exact (f_equal v_data V1)|]. split; [done|].
  assert (item_key it1 = item_key it) as Ek by exact (f_equal v_key V1). split; [|split; [exact (f_equal v_nbytes V1)|done]].
  split; [done|]. split; [|split; [done|split; [|split; [done|by rewrite A13]]]].
  - apply (no_crawler_but p (w_store w) m s1 m1 it1); try done; [apply D1|].
    assert (it_nbytes it1 = it_nbytes it) as -> by exact (f_equal v_nbytes V1). done.
  - destruct (linked it1) eqn:L; [|done]. apply (sr_flag _ _ _ _ _ R1 p it1 Hp1) in L. rewrite Ek in L.
    assert (linked it = true) as H; [|congruence]. apply (sr_flag _ _ _ _ _ R p it A2). eapply lookup_weaken; [exact L|apply D1].
Qed.

(** C38: a large value is never protected.  When the value of a storage command is too large for
    one slab chunk, the server reads it into a chain of chunks.  Either the memory runs out, and it
    says so and swallows exactly the bytes it could not keep; or the chain holds the value in full,
    line break included.  Then, whatever the command decides, the leaf that is added to the tree is
    made from the code of the memory behind the item's header, whatever the value is, and a set stores
    the value with this code.  If less memory than the value is long can be read there, computing the
    code reads outside it: undefined behaviour. *)
Theorem large_value_unprotected (e : senv) (w : world T) (m : gmap (list Z) positive) (lru : Z -> list positive)
    (refs : positive -> Z) (ls : list (list Z)) (p : positive) (it : item) (bytes : list Z) (rs : list mc_resp) (r : mc_resp)
    (R : store_rep hash (w_store w) m lru refs) (A : large_awaited w m refs p it bytes rs r) (Ht : ServerFacts.tree_ok ls w)
    (Hlim : Z.of_nat (length ls) < AL_LIMIT) (Hg : forall k, granted (mt_reply e k) = true)
    (Hmem : bytes_ok (beyond (item_env e))) (Hsize : Z.of_nat (length bytes) <= 2 ^ 31 - 16) :
  exists ok rest s1 it1, read_into_chunked_item hash srv (1 + 2 * length bytes) e p bytes (w_store w) = Ret (ok, rest, s1) /\
    heap s1 !! p = Some it1 /\ it_data it1 ++ rest = bytes /\
    if ok then
      let code := cmac cmac_key (take (length bytes) (beyond (item_env e))) in
      rest = [] /\ value_terminated it1 = Ret true /\
      if (length bytes <=? length (beyond (item_env e)))%nat then
        exists w' m' lru', nread_value hash srv e bytes w = Ret w' /\
          store_rep hash (w_store w') m' lru' (set_refs p (refs p - 1) refs) /\ ServerFacts.tree_ok (ls ++ [leaf_of code 16]) w' /\
          (c_cmd (w_conn w) = NREAD_SET -> exists v, value_at (w_store w') m' (item_key it) = Some v /\ v_data v = bytes /\ v_mac v = code)
      else nread_value hash srv e bytes w = Ub
    else exists w', nread_value hash srv e bytes w = Ret w' /\ c_state (w_conn w') = conn_swallow /\
      c_sbytes (w_conn w') = Z.of_nat (length rest) /\ w_store w' = s1 /\
      c_resps (w_conn w') = rs ++ [answer (c_noreply (w_conn w)) (text "SERVER_ERROR Out of memory during read")].
Proof.
  destruct (large_read_ok e w m lru refs p it bytes rs r R A) as (ok & rest & s1 & m1 & lru1 & it1 & E & R1 & Hp1 & Hc1 & Hall & Hok & Hready & Hnb & Hkey).
  destruct A as [A1 Amset A2 A3 A4 [A6 A7] [d Hd] [A8 A8'] A9 A12 A13].
  exists ok, rest, s1, it1. split; [done|]. split; [done|]. split; [done|].
  assert (forall X, (let '(ok, rest, s) := (ok, rest, s1) in
      let w' := with_store s w in let w' := upd_conn (with_nread (c_cmd (w_conn w)) (Z.of_nat (length rest))) w' in
      if ok : bool then complete_nread_ascii hash srv e w'
      else w ← out_of_memory (text "SERVER_ERROR Out of memory during read") w';
        let w := upd_conn (with_sbytes (Z.of_nat (length rest))) w in Ret (upd_conn (with_mset false false) (conn_set_state conn_swallow w))) = X ->
    nread_value hash srv e bytes w = X) as Hread.
  { intros X <-. unfold nread_value. rewrite A6, Z.eqb_refl. cbn [negb]. rewrite A1. cbn [deref]. rewrite ret_bind, (get_item_ok _ _ _ A2), ret_bind, A3.
    cbn [negb]. by rewrite E, ret_bind. }
  cbv zeta beta iota in Hread. destruct ok.
  - specialize (Hok eq_refl). subst rest. rewrite app_nil_r in Hall. split; [done|].
    assert (value_terminated it1 = Ret true) as Hterm by (apply (chunked_terminated it1 d); [done|congruence]). split; [done|].
    set (w1 := upd_conn _ _) in Hread. destruct (Nat.leb_spec (length bytes) (length (beyond (item_env e)))) as [Hl|Hl].
    + destruct (complete_any hash srv no_repair e w1 m1 lru1 refs ls p it1 rs r (take (length bytes) (beyond (item_env e))))
        as (w' & m' & lru' & E' & R' & T' & _ & _ & _ & _ & _ & _ & Hres); try done.
      { exists (drop (length bytes) (beyond (item_env e))). unfold ITEM_data. rewrite Hc1, take_drop, length_take, Nat.min_l, Hnb, A7 by lia. done. }
      exists w', m', lru'. split; [by apply Hread|]. split; [done|]. split; [done|]. intros Hset.
      assert (verdict_of srv w1 m1 it1 = (STORED, Some (eq (relinked (new_cas cfg (w_store w1)) (value_of it1))))) as Hver.
      { unfold verdict_of. fold cfg. change (c_cmd (w_conn w1)) with (c_cmd (w_conn w)). rewrite Hset. unfold store_spec. by destruct (live_at _ _ _ _). }
      rewrite Hver in Hres. cbn [snd] in Hres. destruct Hres as (_ & v & <- & Hv). rewrite Hkey in Hv. eexists. split; [exact Hv|]. split; [exact Hall|reflexivity].
    + apply Hread. apply (complete_short e w1 m1 lru1 refs p it1); try done. lia.
  - unfold out_of_memory in Hread. rewrite (out_string_ok _ _ rs r) in Hread; [|done|done|vm_compute; lia]. rewrite ret_bind in Hread.
    eexists. split; [by apply Hread|]. done.
Qed.
End Large.

(** ** A server with small chunks *)

Definition small_cfg : settings :=
  mkSettings true true false 61 0 0 1048576 120 [96; 120; 384; 768; 1536] 100 true 0 20 40.
Definition small_srv : server_settings := mkServerSettings small_cfg 0 false.
(** Behind the header lie 200 bytes of other memory. *)
Definition small_env : senv := mkSenv (mkEnv (fun _ => true) true (replicate 200 7)) (fun _ => true) (fun _ => sample_reply).

(** The item of the command "set a 0 0 148", and the server that waits for its value. *)
Definition large_item : item :=
  mkItem None None 0 0 150 1 (ITEM_CAS + ITEM_CHUNKED) 3 [97] (replicate 16 0) 0 0 0 [] [].
Definition large_store : store assoc := with_heap (<[1%positive := large_item]> ∅) empty_store.
Definition large_world : world assoc :=
  mkWorld (mkConn conn_nread [mkResp [] None false []] (Some 1%positive) NREAD_SET 150 0 false false false 0)
    large_store (Some empty_mt) [].
Definition large_value : list Z := replicate 148 120 ++ crlf.

Lemma large_store_rep : store_rep first_byte large_store ∅ (fun _ => []) sample_refs.
Proof. by apply (store_rep_alloc first_byte empty_store ∅ (fun _ => []) (fun _ => 0) 1 large_item); [apply empty_store_rep|..]. Qed.

Lemma large_value_awaited : large_awaited large_world ∅ sample_refs 1 large_item large_value [] (mkResp [] None false []).
Proof.
  split; try done.
  - by exists (replicate 148 120).
  - split; [reflexivity|]. split; [reflexivity|]. by apply below_sample.
Qed.

Lemma large_chunks_taken :
  fmap (fun x => x.1.1) (read_into_chunked_item first_byte small_srv 301 small_env 1 large_value large_store) = Ret true.
Proof. vm_compute. reflexivity. Qed.

Lemma large_value_unprotected_witness : exists w' (m' : gmap (list Z) positive) v,
  nread_value first_byte small_srv small_env large_value large_world = Ret w' /\
  ServerFacts.tree_ok [leaf_of (cmac cmac_key (replicate 150 7)) 16] w' /\
  value_at (w_store w') m' [97] = Some v /\ v_data v = large_value /\ v_mac v = cmac cmac_key (replicate 150 7).
Proof.
  destruct (large_value_unprotected first_byte small_srv eq_refl eq_refl small_env large_world ∅ (fun _ => []) sample_refs [] 1
    large_item large_value [] (mkResp [] None false []) large_store_rep large_value_awaited) as (ok & rest & s1 & it1 & E & _ & _ & H).
  - exists empty_mt. split; [reflexivity|apply empty_mt_repr].
  - reflexivity.
  - intros k. reflexivity.
  - apply Forall_replicate. unfold byte_ok. lia.
  - vm_compute. discriminate.
  - pose proof large_chunks_taken as Hok. change (1 + 2 * length large_value)%nat with 301%nat in E. change (w_store large_world) with large_store in E.
    rewrite E in Hok. injection Hok as ->. destruct H as (_ & _ & w' & m' & lru' & E' & _ & T' & Hv). destruct (Hv eq_refl) as (v & H1 & H2 & H3).
    exists w', m', v. split; [exact E'|]. split; [exact T'|]. split; [exact H1|]. split; [exact H2|exact H3].
Defined.
