(* ===== verification/ServerTheorems.v ===== *)
(** * What the protection gives, and what it does not

    The theorems about the composition of the store, the authentication code and the Merkle tree
    in the text protocol. *)

From S2P Require Import AssocFacts.
From S2P Require Import Prelude Items LruFacts ItemsFacts ItemAlloc ItemAllocFacts Util Itoa Store StoreFacts.
From S2P Require Import MtCrypto MtCryptoFacts MtArrayList MtArrayListFacts MerkleTree MerkleSpec MerkleFacts.
From S2P Require Import MerkleTheorems Aes128 Aes128Facts Cmac CmacFacts Conn ProtoText ProtoFacts ServerFacts.
From S2P Require Import GetFacts DeltaFacts.
From S2P Require Import Assoc ItemTableAssoc Samples.
From Stdlib Require Ascii String.
Import String.StringSyntax.

Local Open Scope string_scope.
Local Open Scope Z_scope.

Local Opaque AES_CMAC cmac mt_verify.

(** ** A get of one key *)

(** The tokens of a line of two words. *)
Definition two_tokens (a b : list Z) : list token :=
  [mkToken (Some a) (length a); mkToken (Some b) (length b); mkToken None 0].

Section Server.
Context {T : Type} {table_ops : ItemTable T} {slabs : SlabAllocator} {node_hash : NodeHash} (hash : list Z -> Z).
Context {table_laws : ItemTableLaws hash T} {slab_laws : SlabAllocatorLaws} (srv : server_settings).
Context (no_repair : tail_repair_time (base_settings srv) = 0).
Implicit Types (w : world T) (m : gmap (list Z) positive) (refs : positive -> Z) (ls : list (list Z)).

Let cfg := base_settings srv.

(** What the client is sent for a value. *)
Definition value_reply (v : value) (return_cas : bool) : list Z :=
  value_line v return_cas ++ v_data v ++ text "END" ++ crlf.

(** A connection that is ready to answer a get. *)
Definition get_ready w (k : list Z) (rs : list mc_resp) (wb : list Z) : Prop :=
  (0 < length k <= 250)%nat /\ c_resps (w_conn w) = rs ++ [mkResp [] None false wb].

(** A get of the key of a live item returns it, whatever the tree says of it. *)
Lemma process_get_ok e w m lru refs k p it rs wb return_cas verdict :
  store_rep hash (w_store w) m lru refs -> below 3 refs -> m !! k = Some p ->
  heap (w_store w) !! p = Some it -> live cfg it = true -> whole (value_of it) -> get_ready w k rs wb ->
  is_Some (w_tree w) -> mt_verify (w_tree w) (Some (it_mac it)) 16 (it_mt_index it) = Ret verdict ->
  exists w' lru' r, process_get_command hash srv e (two_tokens (text "get") k) return_cas false w = Ret w' /\
    store_rep hash (w_store w') m lru' (get_refs srv e p it refs) /\ keeps (heap (w_store w)) (heap (w_store w')) /\
    same_globals (w_store w) (w_store w') /\ w_tree w' = w_tree w /\
    w_stderr w' = w_stderr w ++ (if is_success verdict then [] else [VerificationFailed]) /\
    c_resps (w_conn w') = rs ++ [r] /\ resp_item r = Some p /\ c_state (w_conn w') = conn_mwrite /\
    resp_bytes (w_store w') r = Ret (value_reply (value_of it) return_cas).
Proof.
  intros R Hb Hk Hp Hlive Hwhole [Hkl Hresps] Ht Hver.
  destruct (get_one_ok hash srv e w m lru refs k p it rs wb return_cas verdict) as (w1 & lru1 & E1 & R1 & K1 & G1 & T1 & W1 & C1 & B1); try done; [lia|].
  unfold process_get_command, two_tokens, get_fuel. cbn [length last mbind option_bind tok_value default]. 
  cbn [Nat.mul Nat.add drop get_keys lookup list_lookup deref]. rewrite ret_bind. cbn [tok_length tok_value].
  rewrite (proj2 (Nat.eqb_neq (length k) 0)) by lia. cbn [negb deref]. rewrite ret_bind.
  unfold KEY_MAX_LENGTH. rewrite (proj2 (Z.ltb_ge _ _)) by lia. rewrite E1, ret_bind. cbn [drop list_lookup deref]. rewrite ret_bind.
  cbn [tok_length tok_value Nat.eqb negb]. rewrite ret_bind. cbn [tok_length Nat.eqb negb tok_value]. rewrite ret_bind.
  rewrite (resp_add_iov_ok _ w1 rs _ C1) by (simpl; lia). rewrite ret_bind.
  eexists _, lru1, _. split; [reflexivity|]. split; [exact R1|]. split; [exact K1|]. split; [exact G1|]. split; [exact T1|].
  split; [exact W1|]. split; [reflexivity|]. split; [reflexivity|]. split; [reflexivity|].
  unfold value_reply. rewrite app_assoc. cbn [resp_iov resp_item resp_skip resp_wbuf].
  by apply (resp_bytes_snoc _ [IovBuf (value_line (value_of it) return_cas); IovItem p (it_nbytes it)]).
Qed.

Lemma live_at_some w m k v : live_at cfg (w_store w) m k = Some v ->
  exists p it, m !! k = Some p /\ heap (w_store w) !! p = Some it /\ live cfg it = true /\ value_of it = v /\
    value_at (w_store w) m k = Some v.
Proof.
  unfold live_at, value_at. destruct (m !! k) as [p|]; [|done]. destruct (heap (w_store w) !! p) as [it|] eqn:E; [|done].
  destruct (live cfg it) eqn:L; [|done]. intros [= <-]. by exists p, it.
Qed.

Lemma guarded_verifies w ls v : tree_ok ls w -> guarded ls v ->
  is_Some (w_tree w) /\ mt_verify (w_tree w) (Some (v_mac v)) 16 (v_index v) = Ret MT_SUCCESS.
Proof.
  intros (t & Et & Ht) (H0 & Hl & Hm1 & Hm2). split; [by exists t|]. rewrite Et.
  rewrite <- (Z2Nat.id (v_index v)) by done. apply (mt_verify_complete t ls); try done.
  rewrite Hm1. lia.
Qed.

Lemma sealed_keeps w w' m lru lru' refs refs' ls :
  sealed hash w m lru refs ls -> store_rep hash (w_store w') m lru' refs' -> keeps (heap (w_store w)) (heap (w_store w')) ->
  same_globals (w_store w) (w_store w') -> w_tree w' = w_tree w -> sealed hash w' m lru' refs' ls.
Proof.
  intros S R K G Ht. split; [done| | |].
  - destruct (se_tree _ _ _ _ _ _ S) as (t & Et & Hr). exists t. by rewrite Ht.
  - rewrite (proj1 G). apply S.
  - intros k v Hv. apply (se_value _ _ _ _ _ _ S k v). rewrite <- Hv. symmetry.
    eapply (value_at_same hash); [exact R|done|]. intros q i' _. apply K.
Qed.

(** A get in a sealed state. *)
Lemma sealed_get e w m lru refs ls k v rs wb return_cas :
  sealed hash w m lru refs ls -> below 3 refs -> live_at cfg (w_store w) m k = Some v -> get_ready w k rs wb ->
  exists w' lru' refs' r, process_get_command hash srv e (two_tokens (text "get") k) return_cas false w = Ret w' /\
    sealed hash w' m lru' refs' ls /\ w_stderr w' = w_stderr w /\
    c_resps (w_conn w') = rs ++ [r] /\ resp_bytes (w_store w') r = Ret (value_reply v return_cas) /\
    v_mac v = cmac cmac_key (v_data v).
Proof.
  intros S Hb Hlive Hr. destruct (live_at_some w m k v Hlive) as (p & it & Hk & Hp & Hl & <- & Hv).
  destruct (se_value _ _ _ _ _ _ S k _ Hv) as (Hg & Ha & Hw).
  destruct (guarded_verifies w ls (value_of it) (se_tree _ _ _ _ _ _ S) Hg) as [Ht Hver].
  destruct (process_get_ok e w m lru refs k p it rs wb return_cas MT_SUCCESS (se_store _ _ _ _ _ _ S) Hb Hk Hp Hl Hw Hr Ht Hver)
    as (w' & lru' & r & E & R & K & G & T' & W & C & _ & _ & B).
  exists w', lru', (get_refs srv e p it refs), r. split; [done|]. split; [by eapply sealed_keeps|].
  split; [by rewrite W, app_nil_r|]. done.
Qed.

(** C1: the seal is kept.  When the value of a storage command has been read and the command
    stores it, [complete_nread_ascii] computes its AES-CMAC, adds it to the tree and answers
    STORED without a warning; the number of leaves is again the number of items stored, every
    item of the table carries the code of its value and the index of its leaf, the key has the
    new value and no other key is touched. *)
Theorem store_keeps_seal (e : senv) (w : world T) (m : gmap (list Z) positive) (lru : Z -> list positive)
    (refs : positive -> Z) (ls : list (list Z)) (p : positive) (it : item) (rs : list mc_resp) (r : mc_resp) (P : value -> Prop)
    (S : sealed hash w m lru refs ls) (V : value_read srv w m refs p it rs r)
    (Hlim : Z.of_nat (length ls) < AL_LIMIT) (Hg : forall k, granted (mt_reply e k) = true)
    (Hj : joins (c_cmd (w_conn w)) = false)
    (Hspec : store_spec cfg (c_cmd (w_conn w)) (c_set_stale (w_conn w)) (new_cas cfg (w_store w)) (value_of it)
       (live_at cfg (w_store w) m (item_key it)) = (STORED, Some P)) :
  exists w' m' lru', complete_nread_ascii hash srv e w = Ret w' /\
    sealed hash w' m' lru' (set_refs p (refs p - 1) refs) (ls ++ [leaf_of (cmac cmac_key (it_data it)) 16]) /\
    w_stderr w' = w_stderr w /\
    c_resps (w_conn w') = rs ++ [answer (c_noreply (w_conn w)) (text "STORED")] /\
    (exists v, P v /\ value_at (w_store w') m' (item_key it) =
       Some (with_mac (cmac cmac_key (it_data it)) (Z.of_nat (length ls)) v)) /\
    (forall k', k' <> item_key it -> value_at (w_store w') m' k' = value_at (w_store w) m k').
Proof.
  destruct (complete_stored hash srv no_repair e w m lru refs ls p it rs r S V Hlim Hg P Hj Hspec)
    as (w' & m' & lru' & E & H1 & H2 & H3 & _ & _ & H6 & H7). by exists w', m', lru'.
Qed.

(** C2: a get of any number of keys.  On a server that was never flushed, in a sealed state, the
    handler of a line "get k1 ... kn" returns, however many token arrays the keys take; the answer
    is the values of the keys that have a live item, in the order of the keys, and the final line;
    nothing is reported, the state stays sealed and the connection goes on to send. *)
Theorem get_returns_all_values (e : senv) (w : world T) (m : gmap (list Z) positive) (lru : Z -> list positive)
    (refs : positive -> Z) (ls : list (list Z)) (rs : list mc_resp) (wb line cmd : list Z) (keys : list (list Z)) (return_cas : bool)
    (Hflush : oldest_live cfg = 0) (Hline : is_string line) (Hwords : words line = cmd :: keys) (Hkeys : Forall ok_key keys)
    (S : sealed hash w m lru refs ls) (Hb : below (3 + 2 * Z.of_nat (length keys)) refs)
    (Hr : c_resps (w_conn w) = rs ++ [blank wb]) (Hroom : forall n, resp_room e n = true) :
  exists w' m' lru' refs' rs' parts,
    process_get_command hash srv e (tokenize_command line MAX_TOKENS) return_cas false w = Ret w' /\
    sealed hash w' m' lru' refs' ls /\ w_stderr w' = w_stderr w /\ c_state (w_conn w') = conn_mwrite /\
    c_resps (w_conn w') = rs ++ rs' /\ mapM (resp_bytes (w_store w')) rs' = Ret parts /\
    concat parts = concat (map (reply_for srv (w_store w) m return_cas) keys) ++ text "END" ++ crlf.
Proof. by apply (process_get_all hash srv Hflush e w m lru refs ls rs wb line cmd keys return_cas). Qed.

(** C5: what is set is what a get returns.  On a server that was never flushed, the value of a set
    command that does not expire at once comes back to a get of its key, with the flags and the
    length it was set with, and without a warning. *)
Theorem set_then_get (e1 e2 : senv) (w : world T) (m : gmap (list Z) positive) (lru : Z -> list positive)
    (refs : positive -> Z) (ls : list (list Z)) (p : positive) (it : item) (rs : list mc_resp) (r : mc_resp)
    (S : sealed hash w m lru refs ls) (V : value_read srv w m refs p it rs r) (Hb : below 3 refs)
    (Hlim : Z.of_nat (length ls) < AL_LIMIT) (Hg : forall k, granted (mt_reply e1 k) = true)
    (Hset : c_cmd (w_conn w) = NREAD_SET) (Hroom : forall n, resp_room e2 n = true)
    (Hflush : oldest_live cfg = 0) (Hexp : it_exptime it = 0 \/ current_time cfg < it_exptime it)
    (Hkey : (0 < length (item_key it) <= 250)%nat) :
  exists w1 w2 a, complete_nread_ascii hash srv e1 w = Ret w1 /\
    process_get_command hash srv e2 (two_tokens (text "get") (item_key it)) false false (start_response e2 w1).2 = Ret w2 /\
    w_stderr w2 = w_stderr w /\ last (c_resps (w_conn w2)) = Some a /\
    resp_bytes (w_store w2) a = Ret (text "VALUE " ++ item_key it ++ [32] ++ itoa_u32 (FLAGS_CONV it) ++ [32]
      ++ itoa_u32 (u32 (it_nbytes it - 2)) ++ crlf ++ it_data it ++ text "END" ++ crlf).
Proof.
  destruct (complete_stored hash srv no_repair e1 w m lru refs ls p it rs r S V Hlim Hg
    (eq (relinked (new_cas cfg (w_store w)) (value_of it)))) as (w1 & m1 & lru1 & E1 & S1 & W1 & C1 & _ & _ & (v & <- & Hv) & _).
  { by rewrite Hset. }
  { rewrite Hset. unfold store_spec. by destruct (live_at _ _ _ _). }
  set (c := new_cas cfg (w_store w)) in *. set (v1 := with_mac _ _ _) in Hv.
  assert (below 3 (set_refs p (refs p - 1) refs)) as Hb1 by (apply below_set; [done|specialize (Hb p); lia]).
  set (w1' := (start_response e2 w1).2).
  assert (w1' = upd_conn (fun c => with_resps (c_resps c ++ [mkResp [] None false []]) c) w1) as Ew.
  { unfold w1', start_response, resp_start. by rewrite Hroom. }
  assert (live_at cfg (w_store w1') m1 (item_key it) = Some v1) as Hl.
  { rewrite Ew. unfold value_at in Hv. unfold live_at. simpl w_store. destruct (m1 !! item_key it) as [q|]; [|done].
    destruct (heap (w_store w1) !! q) as [j|]; [|done]. simpl in Hv. apply (inj Some) in Hv. rewrite Hv.
    assert (it_exptime j = it_exptime it) as Hej by (apply (f_equal v_exptime) in Hv; exact Hv).
    unfold live, item_is_flushed. rewrite Hflush, Hej. cbn [Z.eqb orb negb andb].
    destruct Hexp as [-> | Hexp]; [done|]. by rewrite (proj2 (Z.ltb_lt _ _)), orb_true_r. }
  assert (sealed hash w1' m1 lru1 (set_refs p (refs p - 1) refs) (ls ++ [leaf_of (cmac cmac_key (it_data it)) 16])) as S1'.
  { rewrite Ew. destruct S1 as [A1 A2 A3 A4]. by split. }
  destruct (sealed_get e2 w1' m1 lru1 _ _ (item_key it) v1 (c_resps (w_conn w1)) [] false S1' Hb1 Hl) as (w2 & lru2 & refs2 & a & E2 & _ & W2 & C2 & B2 & _).
  { split; [done|]. by rewrite Ew. }
  exists w1, w2, a. split; [done|]. split; [done|]. split; [rewrite W2, Ew; exact W1|]. split; [by rewrite C2, last_snoc|].
  rewrite B2. unfold value_reply, value_line, v1. simpl v_key. simpl v_cflags. simpl v_nbytes. simpl v_data.
  by rewrite <- !app_assoc.
Qed.

(** C35: a value changed in memory is served silently.  If the bytes of an item's value are replaced
    by others of the same length in a sealed state, a get returns the new bytes and reports
    nothing: the tree is asked about the stored code only, never about the code of the bytes. *)
Theorem altered_value_is_served (e : senv) (w : world T) (m : gmap (list Z) positive) (lru : Z -> list positive)
    (refs : positive -> Z) (ls : list (list Z)) (k : list Z) (p : positive) (it : item) (d : list Z)
    (rs : list mc_resp) (wb : list Z)
    (S : sealed hash w m lru refs ls) (Hb : below 3 refs) (Hk : m !! k = Some p) (Hp : heap (w_store w) !! p = Some it)
    (Hl : live cfg it = true) (Hd : length d = length (it_data it)) (Hok : bytes_ok d) (Hr : get_ready w k rs wb) :
  let altered := with_store (with_heap (<[p := set_data d it]> (heap (w_store w))) (w_store w)) w in
  exists w' r, process_get_command hash srv e (two_tokens (text "get") k) false false altered = Ret w' /\
    w_stderr w' = w_stderr w /\ c_resps (w_conn w') = rs ++ [r] /\
    resp_bytes (w_store w') r = Ret (value_line (value_of it) false ++ d ++ text "END" ++ crlf).
Proof.
  intros altered. assert (value_at (w_store w) m k = Some (value_of it)) as Hv by (unfold value_at; by rewrite Hk, Hp).
  destruct (se_value _ _ _ _ _ _ S k _ Hv) as (Hg & Ha & ((W1 & W2) & W3)).
  destruct (guarded_verifies w ls (value_of it) (se_tree _ _ _ _ _ _ S) Hg) as [Ht Hver].
  destruct (upd_data_ok hash (w_store w) m lru refs p it d (se_store _ _ _ _ _ _ S) Hp) as (_ & R & _).
  destruct (process_get_ok e altered m lru refs k p (set_data d it) rs wb false MT_SUCCESS R Hb Hk)
    as (w' & lru' & r & E & _ & _ & _ & _ & W & C & _ & _ & B); try done.
  { apply lookup_insert_eq. }
  { destruct W3 as (A1 & A2 & A3 & A4). split; [split; [done|simpl; by rewrite Hd]|]. done. }
  exists w', r. split; [done|]. split; [by rewrite W, app_nil_r|]. split; [done|]. by rewrite B.
Qed.

(** The tree's verdict does not stop a get.  When the tree refuses the code of an item, the
    get reports it on the standard error output and returns the value all the same. *)
Theorem unverified_value_is_served (e : senv) (w : world T) (m : gmap (list Z) positive) (lru : Z -> list positive)
    (refs : positive -> Z) (k : list Z) (p : positive) (it : item) (rs : list mc_resp) (wb : list Z) (verdict : mt_error_t)
    (R : store_rep hash (w_store w) m lru refs) (Hb : below 3 refs) (Hk : m !! k = Some p)
    (Hp : heap (w_store w) !! p = Some it) (Hl : live cfg it = true) (Hw : whole (value_of it)) (Hr : get_ready w k rs wb)
    (Ht : is_Some (w_tree w)) (Hver : mt_verify (w_tree w) (Some (it_mac it)) 16 (it_mt_index it) = Ret verdict)
    (Hbad : verdict <> MT_SUCCESS) :
  exists w' r, process_get_command hash srv e (two_tokens (text "get") k) false false w = Ret w' /\
    w_stderr w' = w_stderr w ++ [VerificationFailed] /\ c_resps (w_conn w') = rs ++ [r] /\
    resp_bytes (w_store w') r = Ret (value_reply (value_of it) false).
Proof.
  destruct (process_get_ok e w m lru refs k p it rs wb false verdict R Hb Hk Hp Hl Hw Hr Ht Hver)
    as (w' & lru' & r & E & _ & _ & _ & _ & W & C & _ & _ & B).
  exists w', r. split; [done|]. split; [|done]. rewrite W. unfold is_success. by rewrite bool_decide_eq_false_2.
Qed.
(** ** What refused commands leave in the tree *)

Lemma sealed_no_crawler w m lru refs ls : sealed hash w m lru refs ls -> no_crawler (w_store w) m.
Proof.
  intros S k p i Hk Hp. destruct (se_value _ _ _ _ _ _ S k (value_of i)) as (_ & _ & ((H & _) & _)); [unfold value_at; by rewrite Hk, Hp|].
  simpl in H. lia.
Qed.

Lemma value_read_awaiting w m refs p it rs r : value_read srv w m refs p it rs r -> joins (c_cmd (w_conn w)) = false ->
  awaiting srv w m refs p it rs r.
Proof. intros [V1 V2 V3 V4 V5 V6 V7] Hj. split; try done. by apply value_terminated_ok. Qed.

Lemma leaf_of_inj a b : is_block a -> is_block b -> leaf_of a 16 = leaf_of b 16 -> a = b.
Proof.
  intros [La _] [Lb _]. unfold leaf_of. change (Z.to_nat 16) with 16%nat. rewrite !take_ge by lia. intros H. apply app_inj_1 in H as [? _]; [done|lia].
Qed.

(** The answer of the tree about the code [mac] when the leaf at the index is made from [mac0]: it
    accepts the same code, and another one only if two different pairs of nodes on the ways up have
    the same hash. *)
Definition answers_for (ls : list (list Z)) (off : nat) (mac0 mac : list Z) (v : mt_error_t) : Prop :=
  (v = MT_SUCCESS \/ v = MT_ERR_ROOT_MISMATCH) /\ (mac = mac0 -> v = MT_SUCCESS) /\
  (v = MT_SUCCESS -> mac = mac0 \/ path_collision ls 0 off (leaf_of mac 16) (leaf_of mac0 16) (MerkleSpec.top (length ls))).

Lemma tree_answers w ls off mac0 mac : tree_ok ls w -> ls !! off = Some (leaf_of mac0 16) -> is_block mac0 -> is_block mac ->
  exists v, mt_verify (w_tree w) (Some mac) 16 (Z.of_nat off) = Ret v /\ answers_for ls off mac0 mac v.
Proof.
  intros (t & Et & Ht) Hl B0 B. pose proof B as [L1 L2]. pose proof (lookup_lt_Some _ _ _ Hl) as Hlt. rewrite Et.
  eexists. split; [apply (mt_verify_path t ls); [done|done|unfold HASH_LENGTH; lia|rewrite L1; lia|done]|]. split; [case_decide; auto|]. split.
  - intros ->. pose proof (mt_verify_complete t ls mac0 16 off Ht ltac:(unfold HASH_LENGTH; lia) ltac:(rewrite L1; lia) L2 Hl) as E.
    rewrite (mt_verify_path t ls) in E by (done || (unfold HASH_LENGTH; lia) || (rewrite L1; lia)). by injection E.
  - intros Hv. destruct (mt_verify_sound t ls mac 16 off Ht Hlt ltac:(unfold HASH_LENGTH; lia) ltac:(rewrite L1; lia) L2) as (h & Hh & H).
    { rewrite (mt_verify_path t ls) by (done || (unfold HASH_LENGTH; lia) || (rewrite L1; lia)). by rewrite Hv. }
    rewrite Hl in Hh. injection Hh as <-. destruct H as [H|H]; [left|by right]. symmetry. by apply leaf_of_inj.
Qed.

(** The world in which the value of the next set command has been read, no item having been stored and
    no leaf added since [w1]. *)
Record next_set w1 w2 m2 (lru2 : Z -> list positive) refs2 (p2 : positive) (it2 : item) (rs2 : list mc_resp) (r2 : mc_resp) : Prop := {
  ns_store : store_rep hash (w_store w2) m2 lru2 refs2;
  ns_tree : w_tree w2 = w_tree w1;
  ns_count : total_items (w_store w2) = total_items (w_store w1);
  ns_read : value_read srv w2 m2 refs2 p2 it2 rs2 r2;
  ns_set : c_cmd (w_conn w2) = NREAD_SET;
  ns_below : below 3 refs2;
  ns_key : (0 < length (item_key it2) <= 250)%nat;
  ns_lives : it_exptime it2 = 0 \/ current_time cfg < it_exptime it2
}.

(** C36: a refused command spoils the protection of the next item.  When a storage command is refused
    in a sealed state, the client is told so and nothing is stored, but the tree has a leaf more than
    items were stored.  The next set command stores its value, but under the index of that leaf: a get
    returns the value, and what the tree is asked is whether the code of this value is the code of the
    refused one.  So the get reports a failed verification, unless the two codes are equal or the tree
    was deceived by a collision of its hash. *)
Theorem refused_store_spoils_next_set (e1 e2 e3 : senv) (w : world T) (m : gmap (list Z) positive) (lru : Z -> list positive)
    (refs : positive -> Z) (ls : list (list Z)) (p : positive) (it : item) (rs : list mc_resp) (r : mc_resp)
    (S : sealed hash w m lru refs ls) (V : value_read srv w m refs p it rs r)
    (Hlim : Z.of_nat (length ls) + 1 < AL_LIMIT)
    (Hg1 : forall k, granted (mt_reply e1 k) = true) (Hg2 : forall k, granted (mt_reply e2 k) = true) (Hroom : forall n, resp_room e3 n = true)
    (Hflush : oldest_live cfg = 0) (Hj : joins (c_cmd (w_conn w)) = false) (Hrefused : (verdict_of srv w m it).2 = None) :
  let mac1 := cmac cmac_key (it_data it) in
  exists w1, complete_nread_ascii hash srv e1 w = Ret w1 /\
    c_resps (w_conn w1) = rs ++ [answer (c_noreply (w_conn w)) (reply_text (verdict_of srv w m it).1)] /\
    tree_ok (ls ++ [leaf_of mac1 16]) w1 /\ total_items (w_store w1) = Z.of_nat (length ls) /\
    forall w2 m2 lru2 refs2 p2 it2 rs2 r2, next_set w1 w2 m2 lru2 refs2 p2 it2 rs2 r2 ->
      let mac2 := cmac cmac_key (it_data it2) in
      let ls2 := ls ++ [leaf_of mac1 16; leaf_of mac2 16] in
      exists w3 w4 a verdict, complete_nread_ascii hash srv e2 w2 = Ret w3 /\ tree_ok ls2 w3 /\
        process_get_command hash srv e3 (two_tokens (text "get") (item_key it2)) false false (start_response e3 w3).2 = Ret w4 /\
        last (c_resps (w_conn w4)) = Some a /\ resp_bytes (w_store w4) a = Ret (value_reply (value_of it2) false) /\
        w_stderr w4 = w_stderr w2 ++ (if is_success verdict then [] else [VerificationFailed]) /\
        answers_for ls2 (length ls) mac1 mac2 verdict.
Proof.
  intros mac1. pose proof (vr_whole _ _ _ _ _ _ _ _ V) as Hw1.
  destruct (complete_any hash srv no_repair e1 w m lru refs ls p it rs r (it_data it) (se_store _ _ _ _ _ _ S) (se_tree _ _ _ _ _ _ S) ltac:(lia) Hg1
    (value_read_awaiting _ _ _ _ _ _ _ V Hj) (whole_input e1 it Hw1)) as (w1 & m1 & lru1 & E1 & _ & T1 & _ & C1 & _ & _ & B1 & _ & H1).
  fold mac1 in T1, B1. rewrite Hrefused in H1. destruct H1 as [_ N1]. rewrite (se_count _ _ _ _ _ _ S) in N1.
  exists w1. split; [done|]. split; [done|]. split; [done|]. split; [done|]. clear E1 C1.
  intros w2 m2 lru2 refs2 p2 it2 rs2 r2 [R2 Ht2 Hn2 V2 Hset Hb2 Hkey Hexp] mac2 ls2. pose proof (vr_whole _ _ _ _ _ _ _ _ V2) as Hw2.
  assert (tree_ok (ls ++ [leaf_of mac1 16]) w2) as T2 by (destruct T1 as (t & Et & Hr); exists t; by rewrite Ht2).
  assert (joins (c_cmd (w_conn w2)) = false) as Hj2 by by rewrite Hset.
  destruct (complete_any hash srv no_repair e2 w2 m2 lru2 refs2 _ p2 it2 rs2 r2 (it_data it2) R2 T2 ltac:(rewrite length_app; simpl; lia) Hg2
    (value_read_awaiting _ _ _ _ _ _ _ V2 Hj2) (whole_input e2 it2 Hw2)) as (w3 & m3 & lru3 & E3 & R3 & T3 & W3 & C3 & _ & _ & B3 & _ & H3).
  fold mac2 in T3, B3, H3. rewrite <- app_assoc in T3. change ([leaf_of mac1 16] ++ [leaf_of mac2 16]) with [leaf_of mac1 16; leaf_of mac2 16] in T3. fold ls2 in T3.
  assert (verdict_of srv w2 m2 it2 = (STORED, Some (eq (relinked (new_cas cfg (w_store w2)) (value_of it2))))) as Hver.
  { unfold verdict_of. fold cfg. rewrite Hset. unfold store_spec. by destruct (live_at _ _ _ _). }
  rewrite Hver in H3. cbn [snd] in H3. destruct H3 as (_ & v & <- & Hv). rewrite Hn2, N1 in Hv.
  assert (u32 (u32 (u64 (Z.of_nat (length ls) + 1)) - 1) = Z.of_nat (length ls)) as Hidx.
  { unfold AL_LIMIT in Hlim. rewrite u64_id, (u32_id (_ + 1)), u32_id by lia. lia. }
  rewrite Hidx in Hv. set (v3 := with_mac _ _ _) in Hv.
  destruct (tree_answers w3 ls2 (length ls) mac1 mac2 T3) as (verdict & Hmt & Hans); [unfold ls2; by apply list_lookup_middle|done|done|].
  set (w3' := (start_response e3 w3).2).
  assert (w3' = upd_conn (fun c => with_resps (c_resps c ++ [mkResp [] None false []]) c) w3) as Ew.
  { unfold w3', start_response, resp_start. by rewrite Hroom. }
  unfold value_at in Hv. destruct (m3 !! item_key it2) as [q|] eqn:Hq; [|done]. destruct (heap (w_store w3) !! q) as [j|] eqn:Hqh; [|done].
  simpl in Hv. apply (inj Some) in Hv.
  destruct (process_get_ok e3 w3' m3 lru3 (set_refs p2 (refs2 p2 - 1) refs2) (item_key it2) q j (c_resps (w_conn w3)) [] false verdict)
    as (w4 & lru4 & a & E4 & _ & _ & _ & _ & W4 & C4 & _ & _ & B4).
  - by rewrite Ew.
  - apply below_set; [done|specialize (Hb2 p2); lia].
  - done.
  - by rewrite Ew.
  - assert (it_exptime j = it_exptime it2) as He by exact (f_equal v_exptime Hv).
    unfold live, item_is_flushed. fold cfg. rewrite Hflush, He. cbn [Z.eqb orb negb andb].
    destruct Hexp as [-> | Hexp]; [done|]. by rewrite (proj2 (Z.ltb_lt _ _)), orb_true_r.
  - rewrite Hv. destruct Hw2 as (A1 & A2 & A3 & A4 & A5 & A6). pose proof (new_cas_range cfg (w_store w2)). split; [done|]. split; [done|]. split; [done|]. split; [done|].
    split; [done|]. unfold v3. cbn [v_cas with_mac relinked]. destruct (v_has_cas _); lia.
  - split; [done|]. by rewrite Ew.
  - rewrite Ew. destruct T3 as (t & Et & _). by exists t.
  - rewrite Ew. change (w_tree (upd_conn _ w3)) with (w_tree w3).
    assert (it_mac j = mac2 /\ it_mt_index j = Z.of_nat (length ls)) as [-> ->] by (split; [exact (f_equal v_mac Hv)|exact (f_equal v_index Hv)]). exact Hmt.
  - exists w3, w4, a, verdict. split; [done|]. split; [done|]. split; [done|]. split; [by rewrite C4, last_snoc|].
    split; [rewrite B4, Hv; reflexivity|]. split; [rewrite W4, Ew; simpl; by rewrite W3|done].
Qed.

(** ** What an increment does to the protection *)

(** The tokens of a line of three words. *)
Definition three_tokens (a b c : list Z) : list token :=
  [mkToken (Some a) (length a); mkToken (Some b) (length b); mkToken (Some c) (length c); mkToken None 0].

Lemma digits_not_noreply d : 0 <= d < 2 ^ 64 -> streq (itoa_u64 d) (text "noreply") = false.
Proof.
  intros Hd. rewrite itoa_u64_dec by done. destruct (dec_digits d Hd) as (D & _ & _). unfold streq. apply bool_decide_eq_false. intros E. rewrite E in D.
  apply Forall_inv in D. vm_compute in D. by destruct D as [_ []].
Qed.

Lemma arithmetic_ok e w k delta rs r n s' : 0 <= delta < 2 ^ 64 -> (0 < length k <= 250)%nat -> 0 <= n < 2 ^ 64 ->
  c_resps (w_conn w) = rs ++ [r] -> resp_item r = None ->
  add_delta hash cfg (item_env e) k true delta None (w_store w) = Ret (OK, None, itoa_u64 n, None, s') ->
  exists w', process_arithmetic_command hash srv e (three_tokens (text "incr") k (itoa_u64 delta)) true w = Ret w' /\
    w_store w' = s' /\ w_tree w' = w_tree w /\ w_stderr w' = w_stderr w /\
    c_resps (w_conn w') = rs ++ [answer (c_noreply (w_conn w)) (itoa_u64 n)].
Proof.
  intros Hd Hk Hn Hr Hi E. unfold process_arithmetic_command, set_noreply_maybe, three_tokens, token_string. cbn [length Nat.sub lookup list_lookup deref].
  rewrite !ret_bind. cbn [tok_value]. rewrite digits_not_noreply by done. rewrite ?ret_bind. cbn [tok_length tok_value deref]. unfold KEY_MAX_LENGTH.
  rewrite (proj2 (Z.ltb_ge _ _)) by lia. rewrite ?ret_bind. cbn [tok_value deref]. rewrite ?ret_bind.
  pose proof (proj1 (strto_round_trip [] eq_refl) delta Hd (or_intror eq_refl)) as P. rewrite app_nil_r in P. rewrite P, ret_bind. cbn [negb].
  fold cfg. rewrite E, ret_bind. pose proof (itoa_u64_length n Hn).
  rewrite (out_string_ok (itoa_u64 n) (with_store s' w) rs r Hr Hi) by lia. by eexists.
Qed.

(** C37: an increment leaves the code of the old value.  When a client increments the number that an
    item of a sealed state holds, nobody else has the item and the sum fits in its place, the sum is
    the answer and the new value of the item; a get returns it and reports nothing; but the code the
    item carries is still that of the value before. *)
Theorem incremented_value_is_unprotected (e1 e2 : senv) (w : world T) (m : gmap (list Z) positive) (lru : Z -> list positive)
    (refs : positive -> Z) (ls : list (list Z)) (k : list Z) (p : positive) (it : item) (n delta : Z) (rs : list mc_resp) (r : mc_resp)
    (S : sealed hash w m lru refs ls) (Hb : below 3 refs) (Hm : m !! k = Some p) (Hp : heap (w_store w) !! p = Some it) (Hfree : refs p = 0)
    (Hflush : oldest_live cfg = 0) (Hexp : it_exptime it = 0 \/ current_time cfg < it_exptime it)
    (Hnum : spells (it_data it) n) (Hok : refused_number (it_data it) (beyond (item_env e1)) n = false) (Hdelta : 0 <= delta < 2 ^ 64)
    (Hfit : Z.of_nat (length (itoa_u64 ((n + delta) mod 2 ^ 64))) + 2 <= it_nbytes it) (Hslab : 400 <= slab_chunk_size_max cfg)
    (Hkey : (0 < length k <= 250)%nat) (Hr : c_resps (w_conn w) = rs ++ [r]) (Hi : resp_item r = None) (Hroom : forall n, resp_room e2 n = true) :
  let sum := (n + delta) mod 2 ^ 64 in
  exists w1 w2 a d it', process_arithmetic_command hash srv e1 (three_tokens (text "incr") k (itoa_u64 delta)) true w = Ret w1 /\
    c_resps (w_conn w1) = rs ++ [answer (c_noreply (w_conn w)) (itoa_u64 sum)] /\
    process_get_command hash srv e2 (two_tokens (text "get") k) false false (start_response e2 w1).2 = Ret w2 /\
    numeral d sum /\ last (c_resps (w_conn w2)) = Some a /\
    resp_bytes (w_store w2) a = Ret (value_line (value_of it) false ++ d ++ text "END" ++ crlf) /\ w_stderr w2 = w_stderr w /\
    heap (w_store w1) !! p = Some it' /\ it_data it' = d /\ it_mac it' = cmac cmac_key (it_data it).
Proof.
  intros sum. assert (value_at (w_store w) m k = Some (value_of it)) as Hv by (unfold value_at; by rewrite Hm, Hp).
  destruct (se_value _ _ _ _ _ _ S k _ Hv) as (Hgd & Hau & Hwh). pose proof Hwh as ((A1 & A2) & A3 & A4 & A5 & A6 & A7).
  assert (forall j, it_exptime j = it_exptime it -> live cfg j = true) as Hlv.
  { intros j Hj. unfold live, item_is_flushed. rewrite Hflush, Hj. cbn [Z.eqb orb negb andb].
    destruct Hexp as [-> | H]; [done|]. by rewrite (proj2 (Z.ltb_lt _ _)), orb_true_r. }
  assert (live_at cfg (w_store w) m k = Some (value_of it)) as Hl by (unfold live_at; by rewrite Hm, Hp, Hlv).
  destruct (do_add_delta_ok hash cfg no_repair (item_env e1) k p (value_of it) n true delta (w_store w) m lru refs (se_store _ _ _ _ _ _ S)
    (below_le 3 2 _ Hb ltac:(lia)) (sealed_no_crawler _ _ _ _ _ S) Hm Hl A3 (conj A1 A2) Hnum Hok Hdelta Hslab) as (ret & s' & m' & lru' & E & R' & (_ & Hres) & Hin).
  change (delta_value true n delta) with sum in *. destruct (Hin Hfree Hfit) as (-> & v' & Hv' & Hmac & Hidx & (Hd' & Hnb & Hch & Hcas) & Hm').
  clear Hin. assert (0 <= sum < 2 ^ 64) as Hsum by (unfold sum; apply Z.mod_pos_bound; lia).
  destruct (arithmetic_ok e1 w k delta rs r sum s' Hdelta Hkey Hsum Hr Hi E) as (w1 & E1 & S1 & T1 & W1 & C1).
  unfold value_at in Hv'. rewrite Hm' in Hv'. destruct (heap s' !! p) as [it'|] eqn:Hp'; [|done]. simpl in Hv'. apply (inj Some) in Hv'. subst v'.
  assert (item_key it' = item_key it /\ it_exptime it' = it_exptime it /\ FLAGS_CONV it' = FLAGS_CONV it) as (F1 & F2 & F3).
  { destruct Hres as [[? _]|(_ & v2 & Hv2 & (G1 & G2 & G3) & _)]; [done|]. unfold value_at in Hv2. rewrite Hm', Hp' in Hv2. injection Hv2 as <-. done. }
  set (w1' := (start_response e2 w1).2).
  assert (w1' = upd_conn (fun c => with_resps (c_resps c ++ [mkResp [] None false []]) c) w1) as Ew.
  { unfold w1', start_response, resp_start. by rewrite Hroom. }
  destruct (guarded_verifies w ls (value_of it) (se_tree _ _ _ _ _ _ S) Hgd) as [Ht Hver].
  set (d := itoa_u64 sum ++ replicate (Z.to_nat (it_nbytes it - Z.of_nat (length (itoa_u64 sum)) - 2)) 32 ++ [13; 10]) in *.
  simpl in Hmac, Hidx, Hd', Hnb, Hch, Hcas. assert (it_data it' = d) as Hdd by exact Hd'.
  assert (Z.of_nat (length d) = it_nbytes it) as Hlen by (unfold d; rewrite !length_app, length_replicate; fold sum in Hfit; simpl length; lia).
  assert (bytes_ok d) as Hbd.
  { unfold d. rewrite itoa_u64_dec by done. destruct (dec_digits sum Hsum) as (D & _ & _). apply bytes_ok_app. split; [|apply bytes_ok_app; split].
    - eapply Forall_impl; [exact D|]. simpl. unfold byte_ok. lia.
    - apply Forall_replicate. unfold byte_ok. lia.
    - repeat constructor; unfold byte_ok; lia. }
  destruct (process_get_ok e2 w1' m' lru' refs k p it' (c_resps (w_conn w1)) [] false MT_SUCCESS) as (w2 & lru2 & a & E2 & _ & _ & _ & _ & W2 & C2 & _ & _ & B2).
  - rewrite Ew. simpl. by rewrite S1.
  - done.
  - done.
  - rewrite Ew. simpl. by rewrite S1.
  - by apply Hlv.
  - split; [split; simpl; [rewrite Hnb; exact A1|rewrite Hdd, Hnb; exact Hlen]|]. simpl. rewrite Hch, Hnb, Hdd, F3. done.
  - split; [done|]. by rewrite Ew.
  - rewrite Ew. simpl. by rewrite T1.
  - rewrite Ew. simpl. rewrite T1, Hmac, Hidx. exact Hver.
  - exists w1, w2, a, d, it'. split; [done|]. split; [done|]. split; [done|]. split; [by eexists|]. split; [by rewrite C2, last_snoc|].
    split; [|split; [rewrite W2, Ew; simpl; by rewrite app_nil_r, W1|split; [by rewrite S1|split; [done|rewrite Hmac; exact Hau]]]].
    rewrite B2. unfold value_reply, value_line. simpl. by rewrite F1, F3, Hnb, Hdd.
Qed.
End Server.

(** ** A server to run *)

Definition sample_srv : server_settings := mkServerSettings sample_cfg 0 false.
Definition sample_env : senv := mkSenv sample_item_env (fun _ => true) (fun _ => sample_reply).

Definition sample_conn : conn := mkConn conn_new_cmd [] None NREAD_SET 0 0 false false false 0.
Definition sample_world : world assoc := mkWorld sample_conn empty_store (Some empty_mt) [].

(** A request: a command line and, for a storage command, the value that follows it. *)
Definition request (w : world assoc) (line data : list Z) : outcome (world assoc) :=
  r ← process_command first_byte sample_srv sample_env line w;
  w ← deref r;
  match c_state (w_conn w) with
  | conn_nread => nread_value first_byte sample_srv sample_env (data ++ crlf) w
  | _ => Ret w
  end.

Definition session : list (list Z * list Z) -> outcome (world assoc) :=
  foldl (fun w r => w ← w; request w r.1 r.2) (Ret sample_world).

(** The lines a session gets back. *)
Definition lines (l : list (list Z)) : list Z := concat (map (fun s => s ++ crlf) l).

(** Two sessions: an add that is refused makes the get of the next item report a failure, and what
    append makes carries no code of its value, here the zeros of fresh memory. *)
Example refused_add_session :
  exists w, session [(text "set a 0 0 1", text "x"); (text "add a 0 0 1", text "y"); (text "set b 0 0 1", text "z");
                     (text "get b", [])] = Ret w /\
    w_stderr w = [VerificationFailed] /\
    transmitted w = Ret (lines [text "STORED"; text "NOT_STORED"; text "STORED"; text "VALUE b 0 1"; text "z"; text "END"]).
Proof. eexists. split; [vm_compute; reflexivity|]. split; vm_compute; reflexivity. Qed.

Example append_session :
  exists w, session [(text "set a 0 0 1", text "x"); (text "append a 0 0 1", text "y"); (text "get a", [])] = Ret w /\
     w_stderr w = [VerificationFailed] /\
     transmitted w = Ret (lines [text "STORED"; text "STORED"; text "VALUE a 0 2"; text "xy"; text "END"]).
Proof. eexists. split; [vm_compute; reflexivity|]. split; vm_compute; reflexivity. Qed.

(** ** Witnesses *)

(** The world after the line of the command "set a 5 0 1" and its value have been read. *)
Definition read_conn : conn :=
  mkConn conn_nread [mkResp [] None false []] (Some 1%positive) NREAD_SET 0 0 false false false 0.
Definition read_world : world assoc :=
  mkWorld read_conn loaded_store (Some empty_mt) [].
Lemma sample_item_whole : whole (value_of sample_item).
Proof.
  split; [vm_compute; split; [discriminate|reflexivity]|]. split; [reflexivity|]. split; [vm_compute; discriminate|].
  split; [|split; vm_compute; split; congruence]. vm_compute. repeat constructor; discriminate.
Qed.

Lemma read_world_sealed : sealed first_byte read_world ∅ (fun _ => []) sample_refs [].
Proof.
  split.
  - apply loaded_store_rep.
  - exists empty_mt. split; [done|]. apply empty_mt_repr.
  - done.
  - intros k v H. unfold value_at in H. by rewrite lookup_empty in H.
Qed.

Lemma read_world_read : value_read sample_srv read_world ∅ sample_refs 1 sample_item [] (mkResp [] None false []).
Proof.
  split; try done; [apply sample_item_whole|]. by apply loaded_store_ready.
Qed.

Lemma sample_spec old : store_spec sample_cfg NREAD_SET false (new_cas sample_cfg (w_store read_world)) (value_of sample_item) old =
  (STORED, Some (eq (relinked (new_cas sample_cfg (w_store read_world)) (value_of sample_item)))).
Proof. by destruct old. Qed.

Lemma store_keeps_seal_witness :
  exists w' m' lru', complete_nread_ascii first_byte sample_srv sample_env read_world = Ret w' /\
    sealed first_byte w' m' lru' (set_refs 1 0 sample_refs) [leaf_of (cmac cmac_key (text "x" ++ crlf)) 16].
Proof.
  destruct (store_keeps_seal first_byte sample_srv eq_refl sample_env read_world ∅ (fun _ => []) sample_refs [] 1 sample_item
    [] (mkResp [] None false []) _ read_world_sealed read_world_read eq_refl (fun _ => eq_refl) eq_refl (sample_spec _))
    as (w' & m' & lru' & E & S & _).
  exists w', m', lru'. split; [exact E|exact S].
Defined.

(** The world after the set, ready for the next command. *)
Definition stored_sample : world assoc :=
  match complete_nread_ascii first_byte sample_srv sample_env read_world with
  | Ret w => (start_response sample_env w).2
  | _ => read_world
  end.

Lemma stored_sample_sealed : exists m lru refs ls p it,
  sealed first_byte stored_sample m lru refs ls /\ below 9 refs /\ m !! text "a" = Some p /\
  heap (w_store stored_sample) !! p = Some it /\ live sample_cfg it = true /\ length (it_data it) = 3%nat /\ it_mt_index it = 0 /\
  get_ready stored_sample (text "a") [answer false (text "STORED")] [].
Proof.
  destruct (complete_stored first_byte sample_srv eq_refl sample_env read_world ∅ (fun _ => []) sample_refs [] 1 sample_item
    [] (mkResp [] None false []) read_world_sealed read_world_read eq_refl (fun _ => eq_refl) _ eq_refl (sample_spec _))
    as (w' & m' & lru' & E & [A1 A2 A3 A4] & _ & C & _ & _ & (v & <- & Hv) & _).
  assert (stored_sample = (start_response sample_env w').2) as Es by (unfold stored_sample; rewrite E; reflexivity).
  unfold value_at in Hv. destruct (m' !! item_key sample_item) as [p|] eqn:Hm; [|discriminate Hv].
  destruct (heap (w_store w') !! p) as [it|] eqn:Hp; [|discriminate Hv]. simpl in Hv. apply (inj Some) in Hv.
  exists m', lru', (set_refs 1 0 sample_refs), [leaf_of (cmac cmac_key (text "x" ++ crlf)) 16], p, it. rewrite Es.
  split; [by split|]. split; [apply below_set; [by apply below_sample|vm_compute; discriminate]|]. split; [exact Hm|]. split; [exact Hp|].
  split; [|split; [|split]].
  - assert (it_exptime it = 0) as He by exact (f_equal v_exptime Hv). unfold live, item_is_flushed. by rewrite He.
  - assert (it_data it = text "x" ++ crlf) as -> by exact (f_equal v_data Hv). reflexivity.
  - exact (f_equal v_index Hv).
  - split; [vm_compute; lia|]. simpl. rewrite C. reflexivity.
Qed.

Lemma set_then_get_witness :
  exists w1 w2 a, complete_nread_ascii first_byte sample_srv sample_env read_world = Ret w1 /\
    process_get_command first_byte sample_srv sample_env (two_tokens (text "get") (text "a")) false false (start_response sample_env w1).2 = Ret w2 /\
    w_stderr w2 = [] /\ last (c_resps (w_conn w2)) = Some a /\ resp_bytes (w_store w2) a = Ret (lines [text "VALUE a 5 1"; text "x"; text "END"]).
Proof.
  exact (set_then_get first_byte sample_srv eq_refl sample_env sample_env read_world ∅ (fun _ => []) sample_refs [] 1 sample_item
    [] (mkResp [] None false []) read_world_sealed read_world_read (below_sample 3 ltac:(lia)) eq_refl (fun _ => eq_refl) eq_refl (fun _ => eq_refl)
    eq_refl (or_introl eq_refl) ltac:(vm_compute; lia)).
Defined.

Lemma altered_value_is_served_witness : exists (m : gmap (list Z) positive) p it, m !! text "a" = Some p /\ heap (w_store stored_sample) !! p = Some it /\
  exists w' r, process_get_command first_byte sample_srv sample_env (two_tokens (text "get") (text "a")) false false
      (with_store (with_heap (<[p := set_data (text "y" ++ crlf) it]> (heap (w_store stored_sample))) (w_store stored_sample)) stored_sample) = Ret w' /\
    w_stderr w' = w_stderr stored_sample /\ last (c_resps (w_conn w')) = Some r.
Proof.
  destruct stored_sample_sealed as (m & lru & refs & ls & p & it & S & Hb & Hm & Hp & Hl & Hd & _ & Hr).
  exists m, p, it. split; [exact Hm|]. split; [exact Hp|].
  destruct (altered_value_is_served first_byte sample_srv sample_env stored_sample m lru refs ls (text "a") p it (text "y" ++ crlf)
    [answer false (text "STORED")] [] S (below_le 9 3 _ Hb ltac:(lia)) Hm Hp Hl) as (w' & r & E & W & C & _).
  - by rewrite Hd.
  - vm_compute. repeat constructor; discriminate.
  - exact Hr.
  - exists w', r. split; [exact E|]. split; [exact W|]. by rewrite C.
Defined.

(** The same world with another tree. *)
Lemma other_tree (w : world assoc) (t : mt_t) (k : list Z) rs wb m lru refs ls :
  sealed first_byte w m lru refs ls -> get_ready w k rs wb ->
  store_rep first_byte (w_store (with_tree (Some t) w)) m lru refs /\ get_ready (with_tree (Some t) w) k rs wb /\
  heap (w_store (with_tree (Some t) w)) = heap (w_store w) /\ w_stderr (with_tree (Some t) w) = w_stderr w /\
  w_tree (with_tree (Some t) w) = Some t.
Proof. intros S Hr. split; [apply S|]. done. Qed.

Lemma unverified_value_is_served_witness :
  exists w' r, process_get_command first_byte sample_srv sample_env (two_tokens (text "get") (text "a")) false false
      (with_tree (Some empty_mt) stored_sample) = Ret w' /\
    w_stderr w' = w_stderr stored_sample ++ [VerificationFailed] /\ last (c_resps (w_conn w')) = Some r.
Proof.
  destruct stored_sample_sealed as (m & lru & refs & ls & p & it & S & Hb & Hm & Hp & Hl & _ & Hi & Hr).
  assert (value_at (w_store stored_sample) m (text "a") = Some (value_of it)) as Hv by (unfold value_at; by rewrite Hm, Hp).
  destruct (other_tree stored_sample empty_mt _ _ _ _ _ _ _ S Hr) as (R' & Hr' & Eh & Ew & Et).
  destruct (se_value _ _ _ _ _ _ S (text "a") _ Hv) as (_ & _ & Hwh).
  rewrite <- Eh in Hp. rewrite <- Ew. clear S Hr Hv Eh Ew. generalize dependent (with_tree (Some empty_mt) stored_sample).
  intros w Hp R' Hr' Et.
  destruct (unverified_value_is_served first_byte sample_srv sample_env w m lru refs (text "a") p it
    [answer false (text "STORED")] [] MT_ERR_ILLEGAL_PARAM R' (below_le 9 3 _ Hb ltac:(lia)) Hm Hp Hl Hwh Hr') as (w' & r & E & W & C & _).
  - by exists empty_mt.
  - rewrite Et, Hi. exact (mt_verify_refused empty_mt [] (it_mac it) 16 0 empty_mt_repr eq_refl).
  - discriminate.
  - exists w', r. split; [exact E|]. split; [exact W|]. by rewrite C.
Defined.

Lemma get_returns_all_values_witness :
  exists w' rs' parts, process_get_command first_byte sample_srv sample_env (tokenize_command (text "get b a") MAX_TOKENS) false false stored_sample = Ret w' /\
    c_resps (w_conn w') = [answer false (text "STORED")] ++ rs' /\ mapM (resp_bytes (w_store w')) rs' = Ret parts.
Proof.
  destruct stored_sample_sealed as (m & lru & refs & ls & p & it & S & Hb & _ & _ & _ & _ & _ & Hr).
  destruct (get_returns_all_values first_byte sample_srv sample_env stored_sample m lru refs ls [answer false (text "STORED")] []
    (text "get b a") (text "get") [text "b"; text "a"] false) as (w' & m' & lru' & refs' & rs' & parts & E & _ & _ & _ & C & M & _).
  - reflexivity.
  - vm_compute. repeat constructor; discriminate.
  - reflexivity.
  - vm_compute. repeat constructor.
  - exact S.
  - apply (below_le 9); [exact Hb|simpl; lia].
  - exact (proj2 Hr).
  - reflexivity.
  - exists w', rs', parts. split; [exact E|]. split; [exact C|exact M].
Defined.

(** A replace of a key that does not exist has been read, with the value "x". *)
Definition replace_world : world assoc :=
  mkWorld (mkConn conn_nread [mkResp [] None false []] (Some 1%positive) NREAD_REPLACE 0 0 false false false 0) loaded_store (Some empty_mt) [].

Lemma replace_world_sealed : sealed first_byte replace_world ∅ (fun _ => []) sample_refs [].
Proof. destruct read_world_sealed as [A1 A2 A3 A4]. by split. Qed.

Lemma replace_world_read : value_read sample_srv replace_world ∅ sample_refs 1 sample_item [] (mkResp [] None false []).
Proof. split; try done; [apply sample_item_whole|]. by apply loaded_store_ready. Qed.

(** Another value for the same key. *)
Definition item_with (c : Z) : item := set_data [c; 13; 10] sample_item.
Definition store_with (c : Z) : store assoc := with_heap (<[1%positive := item_with c]> ∅) empty_store.

Lemma store_with_rep c : store_rep first_byte (store_with c) ∅ (fun _ => []) sample_refs.
Proof. by apply (store_rep_alloc first_byte empty_store ∅ (fun _ => []) (fun _ => 0) 1 (item_with c)); [apply empty_store_rep|..]. Qed.

Lemma world_with_read c tree : byte_ok c ->
  value_read sample_srv (mkWorld read_conn (store_with c) tree []) ∅ sample_refs 1 (item_with c) [] (mkResp [] None false []).
Proof.
  intros Hc. split; try done.
  - destruct sample_item_whole as (A1 & A2 & A3 & A4 & A5 & A6). split; [done|]. split; [done|]. split; [done|]. split; [|done].
    repeat constructor; unfold byte_ok in *; lia.
  - split; [by apply below_sample|]. split; [intros k p i H; by rewrite lookup_empty in H|]. by split_and!.
Qed.

Lemma refused_store_spoils_next_set_witness : exists w1 w3 w4 a verdict,
  complete_nread_ascii first_byte sample_srv sample_env replace_world = Ret w1 /\
  c_resps (w_conn w1) = [answer false (text "NOT_STORED")] /\
  complete_nread_ascii first_byte sample_srv sample_env (mkWorld read_conn (store_with 121) (w_tree w1) []) = Ret w3 /\
  process_get_command first_byte sample_srv sample_env (two_tokens (text "get") (text "a")) false false (start_response sample_env w3).2 = Ret w4 /\
  last (c_resps (w_conn w4)) = Some a /\ w_stderr w4 = (if is_success verdict then [] else [VerificationFailed]) /\
  answers_for [leaf_of (cmac cmac_key (text "x" ++ crlf)) 16; leaf_of (cmac cmac_key (text "y" ++ crlf)) 16] 0
    (cmac cmac_key (text "x" ++ crlf)) (cmac cmac_key (text "y" ++ crlf)) verdict.
Proof.
  destruct (refused_store_spoils_next_set first_byte sample_srv eq_refl sample_env sample_env sample_env replace_world ∅ (fun _ => []) sample_refs [] 1
    sample_item [] (mkResp [] None false []) replace_world_sealed replace_world_read eq_refl (fun _ => eq_refl) (fun _ => eq_refl) (fun _ => eq_refl)
    eq_refl eq_refl eq_refl) as (w1 & E1 & C1 & _ & N1 & H).
  destruct (H (mkWorld read_conn (store_with 121) (w_tree w1) []) ∅ (fun _ => []) sample_refs 1%positive (item_with 121) [] (mkResp [] None false []))
    as (w3 & w4 & a & verdict & E3 & _ & E4 & C4 & _ & W4 & A4).
  - split.
    + apply store_with_rep.
    + reflexivity.
    + rewrite N1. reflexivity.
    + apply world_with_read. unfold byte_ok. lia.
    + reflexivity.
    + apply below_sample. lia.
    + vm_compute. lia.
    + left. reflexivity.
  - exists w1, w3, w4, a, verdict. split; [exact E1|]. split; [exact C1|]. split; [exact E3|]. split; [exact E4|]. split; [exact C4|]. split; [exact W4|exact A4].
Defined.

Lemma no_refs q : set_refs 1 0 sample_refs q = 0.
Proof. unfold set_refs, sample_refs, set_refs. repeat case_decide; done. Qed.

(** The counter 5 has been set. *)
Lemma counter_sealed : exists w m lru refs ls p it r,
  sealed first_byte w m lru refs ls /\ below 3 refs /\ (forall q, refs q = 0) /\ m !! text "a" = Some p /\ heap (w_store w) !! p = Some it /\
  it_data it = text "5" ++ crlf /\ it_nbytes it = 3 /\ it_exptime it = 0 /\ c_resps (w_conn w) = [] ++ [r] /\ resp_item r = None.
Proof.
  assert (sealed first_byte (mkWorld read_conn (store_with 53) (Some empty_mt) []) ∅ (fun _ => []) sample_refs []) as S0.
  { split; [apply store_with_rep|exists empty_mt; split; [done|apply empty_mt_repr]|done|].
    intros k v H. unfold value_at in H. by rewrite lookup_empty in H. }
  destruct (complete_stored first_byte sample_srv eq_refl sample_env _ ∅ (fun _ => []) sample_refs [] 1 (item_with 53)
    [] (mkResp [] None false []) S0 (world_with_read 53 _ ltac:(unfold byte_ok; lia)) eq_refl (fun _ => eq_refl)
    (eq (relinked (new_cas sample_cfg (store_with 53)) (value_of (item_with 53)))) eq_refl) as (w & m & lru & E & S & _ & C & _ & _ & (v & <- & Hv) & _).
  { unfold store_spec. by destruct (live_at _ _ _ _). }
  unfold value_at in Hv. change (item_key (item_with 53)) with (text "a") in Hv. revert Hv. generalize (cmac cmac_key (it_data (item_with 53))). intros mac Hv.
  destruct (m !! text "a") as [p|] eqn:Hm; [|discriminate Hv].
  destruct (heap (w_store w) !! p) as [it|] eqn:Hp; [|discriminate Hv]. simpl in Hv. apply (inj Some) in Hv.
  exists w, m, lru, (set_refs 1 0 sample_refs), [leaf_of (cmac cmac_key (text "5" ++ crlf)) 16], p, it, (answer false (text "STORED")).
  split; [exact S|]. split; [apply below_set; [by apply below_sample|vm_compute; discriminate]|].
  split; [exact no_refs|]. split; [exact Hm|]. split; [exact Hp|].
  split; [exact (f_equal v_data Hv)|]. split; [exact (f_equal v_nbytes Hv)|]. split; [exact (f_equal v_exptime Hv)|]. split; [exact C|reflexivity].
Qed.

Lemma incremented_value_is_unprotected_witness : exists w w1 w2 p it',
  process_arithmetic_command first_byte sample_srv sample_env (three_tokens (text "incr") (text "a") (itoa_u64 1)) true w = Ret w1 /\
  process_get_command first_byte sample_srv sample_env (two_tokens (text "get") (text "a")) false false (start_response sample_env w1).2 = Ret w2 /\
  w_stderr w2 = w_stderr w /\ heap (w_store w1) !! p = Some it' /\ numeral (it_data it') 6 /\ it_mac it' = cmac cmac_key (text "5" ++ crlf).
Proof.
  destruct counter_sealed as (w & m & lru & refs & ls & p & it & r & S & Hb & H0 & Hm & Hp & Hd & Hn & He & Hr & Hi).
  destruct (incremented_value_is_unprotected first_byte sample_srv eq_refl sample_env sample_env w m lru refs ls (text "a") p it 5 1 [] r S Hb Hm Hp (H0 p) eq_refl
    (or_introl He)) as (w1 & w2 & a & d & it' & E1 & _ & E2 & Nd & _ & _ & W2 & Hp' & Hd' & Hmac).
  - rewrite Hd. exists [53], 0%nat. split; [constructor; [lia|constructor]|]. split; [discriminate|]. split; reflexivity.
  - rewrite Hd. reflexivity.
  - lia.
  - rewrite Hn. vm_compute. discriminate.
  - vm_compute. discriminate.
  - vm_compute. lia.
  - exact Hr.
  - exact Hi.
  - intros k. reflexivity.
  - exists w, w1, w2, p, it'. split; [exact E1|]. split; [exact E2|]. split; [exact W2|]. split; [exact Hp'|]. split; [rewrite Hd'; exact Nd|]. rewrite Hmac, Hd. reflexivity.
Defined.
