(* ===== verification/ProtoMeta.v ===== *)
(** * The meta commands (src/memcached/proto_text.c)

    [mg], [ms], [md], [ma] and [me]: their flags are parsed first, then looked at again one by one
    when the answer is put together.  A meta get can create the item it misses, and hands out at
    most one token to recache an item that is stale or about to expire.  [finalize_mset], which ends
    a meta set, is with [complete_nread_ascii] in ProtoText. *)

From S2P Require Import Prelude Items ItemAlloc Util Itoa Base64 MtCrypto MtArrayList MerkleTree Cmac Store.
From S2P Require Import Conn ProtoText.
From Stdlib Require Ascii String.
Import String.StringSyntax.

Local Open Scope string_scope.
Local Open Scope Z_scope.

Definition MFLAG_MAX_OPT_LENGTH : nat := 20.
Definition MFLAG_MAX_OPAQUE_LENGTH : nat := 32.

(** ** Flags *)

(** [struct _meta_flags]. *)
Record meta_flags := mkFlags {
  of_has_error : bool;
  of_no_update : bool;
  of_locked : bool;
  of_vivify : bool;
  of_la : bool;
  of_hit : bool;
  of_value : bool;
  of_set_stale : bool;
  of_no_reply : bool;
  of_has_cas : bool;
  of_new_ttl : bool;
  of_key_binary : bool;
  of_mode : Z;
  of_exptime : Z;
  of_autoviv_exptime : Z;
  of_recache_time : Z;
  of_client_flags : Z;
  of_req_cas_id : Z;
  of_delta : Z;
  of_initial : Z
}.

Definition no_flags : meta_flags :=
  mkFlags false false false false false false false false false false false false 0 0 0 0 0 0 0 0.

Definition set_has_error (o : meta_flags) : meta_flags :=
  mkFlags
    true (of_no_update o) (of_locked o) (of_vivify o) (of_la o) (of_hit o) (of_value o) (of_set_stale o)
    (of_no_reply o) (of_has_cas o) (of_new_ttl o) (of_key_binary o) (of_mode o) (of_exptime o)
    (of_autoviv_exptime o) (of_recache_time o) (of_client_flags o) (of_req_cas_id o) (of_delta o) (of_initial
    o).
Definition set_no_update (o : meta_flags) : meta_flags :=
  mkFlags
    (of_has_error o) true (of_locked o) (of_vivify o) (of_la o) (of_hit o) (of_value o) (of_set_stale o)
    (of_no_reply o) (of_has_cas o) (of_new_ttl o) (of_key_binary o) (of_mode o) (of_exptime o)
    (of_autoviv_exptime o) (of_recache_time o) (of_client_flags o) (of_req_cas_id o) (of_delta o) (of_initial
    o).
Definition set_locked (o : meta_flags) : meta_flags :=
  mkFlags
    (of_has_error o) (of_no_update o) true (of_vivify o) (of_la o) (of_hit o) (of_value o) (of_set_stale o)
    (of_no_reply o) (of_has_cas o) (of_new_ttl o) (of_key_binary o) (of_mode o) (of_exptime o)
    (of_autoviv_exptime o) (of_recache_time o) (of_client_flags o) (of_req_cas_id o) (of_delta o) (of_initial
    o).
Definition set_vivify (o : meta_flags) : meta_flags :=
  mkFlags
    (of_has_error o) (of_no_update o) (of_locked o) true (of_la o) (of_hit o) (of_value o) (of_set_stale o)
    (of_no_reply o) (of_has_cas o) (of_new_ttl o) (of_key_binary o) (of_mode o) (of_exptime o)
    (of_autoviv_exptime o) (of_recache_time o) (of_client_flags o) (of_req_cas_id o) (of_delta o) (of_initial
    o).
Definition set_la (o : meta_flags) : meta_flags :=
  mkFlags
    (of_has_error o) (of_no_update o) (of_locked o) (of_vivify o) true (of_hit o) (of_value o) (of_set_stale
    o) (of_no_reply o) (of_has_cas o) (of_new_ttl o) (of_key_binary o) (of_mode o) (of_exptime o)
    (of_autoviv_exptime o) (of_recache_time o) (of_client_flags o) (of_req_cas_id o) (of_delta o) (of_initial
    o).
Definition set_value (o : meta_flags) : meta_flags :=
  mkFlags
    (of_has_error o) (of_no_update o) (of_locked o) (of_vivify o) (of_la o) (of_hit o) true (of_set_stale o)
    (of_no_reply o) (of_has_cas o) (of_new_ttl o) (of_key_binary o) (of_mode o) (of_exptime o)
    (of_autoviv_exptime o) (of_recache_time o) (of_client_flags o) (of_req_cas_id o) (of_delta o) (of_initial
    o).
Definition set_set_stale (o : meta_flags) : meta_flags :=
  mkFlags
    (of_has_error o) (of_no_update o) (of_locked o) (of_vivify o) (of_la o) (of_hit o) (of_value o) true
    (of_no_reply o) (of_has_cas o) (of_new_ttl o) (of_key_binary o) (of_mode o) (of_exptime o)
    (of_autoviv_exptime o) (of_recache_time o) (of_client_flags o) (of_req_cas_id o) (of_delta o) (of_initial
    o).
Definition set_no_reply (o : meta_flags) : meta_flags :=
  mkFlags
    (of_has_error o) (of_no_update o) (of_locked o) (of_vivify o) (of_la o) (of_hit o) (of_value o)
    (of_set_stale o) true (of_has_cas o) (of_new_ttl o) (of_key_binary o) (of_mode o) (of_exptime o)
    (of_autoviv_exptime o) (of_recache_time o) (of_client_flags o) (of_req_cas_id o) (of_delta o) (of_initial
    o).
Definition set_key_binary (o : meta_flags) : meta_flags :=
  mkFlags
    (of_has_error o) (of_no_update o) (of_locked o) (of_vivify o) (of_la o) (of_hit o) (of_value o)
    (of_set_stale o) (of_no_reply o) (of_has_cas o) (of_new_ttl o) true (of_mode o) (of_exptime o)
    (of_autoviv_exptime o) (of_recache_time o) (of_client_flags o) (of_req_cas_id o) (of_delta o) (of_initial
    o).
Definition set_mode (v : Z) (o : meta_flags) : meta_flags :=
  mkFlags
    (of_has_error o) (of_no_update o) (of_locked o) (of_vivify o) (of_la o) (of_hit o) (of_value o)
    (of_set_stale o) (of_no_reply o) (of_has_cas o) (of_new_ttl o) (of_key_binary o) v (of_exptime o)
    (of_autoviv_exptime o) (of_recache_time o) (of_client_flags o) (of_req_cas_id o) (of_delta o) (of_initial
    o).
Definition set_ttl (v : Z) (o : meta_flags) : meta_flags :=
  mkFlags
    (of_has_error o) (of_no_update o) (of_locked o) (of_vivify o) (of_la o) (of_hit o) (of_value o)
    (of_set_stale o) (of_no_reply o) (of_has_cas o) true (of_key_binary o) (of_mode o) v (of_autoviv_exptime
    o) (of_recache_time o) (of_client_flags o) (of_req_cas_id o) (of_delta o) (of_initial o).
Definition set_autoviv (v : Z) (o : meta_flags) : meta_flags :=
  mkFlags
    (of_has_error o) (of_no_update o) (of_locked o) (of_vivify o) (of_la o) (of_hit o) (of_value o)
    (of_set_stale o) (of_no_reply o) (of_has_cas o) (of_new_ttl o) (of_key_binary o) (of_mode o) (of_exptime
    o) v (of_recache_time o) (of_client_flags o) (of_req_cas_id o) (of_delta o) (of_initial o).
Definition set_recache (v : Z) (o : meta_flags) : meta_flags :=
  mkFlags
    (of_has_error o) (of_no_update o) (of_locked o) (of_vivify o) (of_la o) (of_hit o) (of_value o)
    (of_set_stale o) (of_no_reply o) (of_has_cas o) (of_new_ttl o) (of_key_binary o) (of_mode o) (of_exptime
    o) (of_autoviv_exptime o) v (of_client_flags o) (of_req_cas_id o) (of_delta o) (of_initial o).
Definition set_client_flags (v : Z) (o : meta_flags) : meta_flags :=
  mkFlags
    (of_has_error o) (of_no_update o) (of_locked o) (of_vivify o) (of_la o) (of_hit o) (of_value o)
    (of_set_stale o) (of_no_reply o) (of_has_cas o) (of_new_ttl o) (of_key_binary o) (of_mode o) (of_exptime
    o) (of_autoviv_exptime o) (of_recache_time o) v (of_req_cas_id o) (of_delta o) (of_initial o).
Definition set_req_cas (b : bool) (v : Z) (o : meta_flags) : meta_flags :=
  mkFlags
    (of_has_error o) (of_no_update o) (of_locked o) (of_vivify o) (of_la o) (of_hit o) (of_value o)
    (of_set_stale o) (of_no_reply o) b (of_new_ttl o) (of_key_binary o) (of_mode o) (of_exptime o)
    (of_autoviv_exptime o) (of_recache_time o) (of_client_flags o) v (of_delta o) (of_initial o).
Definition set_delta (v : Z) (o : meta_flags) : meta_flags :=
  mkFlags
    (of_has_error o) (of_no_update o) (of_locked o) (of_vivify o) (of_la o) (of_hit o) (of_value o)
    (of_set_stale o) (of_no_reply o) (of_has_cas o) (of_new_ttl o) (of_key_binary o) (of_mode o) (of_exptime
    o) (of_autoviv_exptime o) (of_recache_time o) (of_client_flags o) (of_req_cas_id o) v (of_initial o).
Definition set_initial (v : Z) (o : meta_flags) : meta_flags :=
  mkFlags
    (of_has_error o) (of_no_update o) (of_locked o) (of_vivify o) (of_la o) (of_hit o) (of_value o)
    (of_set_stale o) (of_no_reply o) (of_has_cas o) (of_new_ttl o) (of_key_binary o) (of_mode o) (of_exptime
    o) (of_autoviv_exptime o) (of_recache_time o) (of_client_flags o) (of_req_cas_id o) (of_delta o) v.

(** The characters of the flags. *)
Definition is_flag (c : String.string) (o : Z) : bool := bool_decide (text c = [o]).

Definition bad_token : list Z := text "CLIENT_ERROR bad token in command line format".

(** What a flag does to the options, the error message and the token of the key. *)
Record preparse := mkPreparse { pp_of : meta_flags; pp_errstr : list Z; pp_key : token }.

Definition on_flags (f : meta_flags -> meta_flags) (s : preparse) : preparse :=
  mkPreparse (f (pp_of s)) (pp_errstr s) (pp_key s).
Definition flag_error (err : list Z) (s : preparse) : preparse :=
  mkPreparse (set_has_error (pp_of s)) err (pp_key s).

(** The string of the key token: its value up to its length. *)
Definition key_string (t : token) : outcome (list Z) :=
  v ← deref (tok_value t); read_bytes v (tok_length t).

(** [base64_decode] of a key in place: the new contents and length. *)
Definition decode_key (t : token) : outcome token :=
  v ← deref (tok_value t);
  '(ret, out) ← base64_decode v (tok_length t) (Some v) (Z.of_nat (tok_length t));
  out ← deref out;
  Ret (mkToken (Some out) (Z.to_nat ret)).

Section Meta.
Context {T : Type} {table_ops : ItemTable T} {slabs : SlabAllocator} {node_hash : NodeHash}.
Context (hash : list Z -> Z) (srv : server_settings).

Let cfg := base_settings srv.

(** A time given with a flag. *)
Definition flag_time (arg : list Z) : outcome (option Z) :=
  '(ok, tmp_int) ← safe_strtol arg true;
  Ret (if ok : bool then Some (realtime srv (EXPTIME_TO_POSITIVE_TIME tmp_int)) else None).

(** One flag, whose first character is [o]; [None] for an unknown one. *)
Definition preparse_flag (t : token) (v : list Z) (o : Z) (s : preparse) : outcome (option preparse) :=
  let arg := drop 1 v in
  if is_flag "b" o then
    key ← decode_key (pp_key s);
    let s := if (tok_length key =? 0)%nat then flag_error (text "CLIENT_ERROR error decoding key") s else s in
    Ret (Some (mkPreparse (set_key_binary (pp_of s)) (pp_errstr s) key))
  else if is_flag "N" o then
    r ← flag_time arg;
    let s := on_flags (fun f => set_vivify (set_locked f)) s in
    Ret (Some (match r with Some n => on_flags (set_autoviv n) s | None => flag_error bad_token s end))
  else if is_flag "T" o then
    r ← flag_time arg;
    let s := on_flags set_locked s in
    Ret (Some (match r with Some n => on_flags (set_ttl n) s | None => flag_error bad_token s end))
  else if is_flag "R" o then
    r ← flag_time arg;
    let s := on_flags set_locked s in
    Ret (Some (match r with Some n => on_flags (set_recache n) s | None => flag_error bad_token s end))
  else if is_flag "l" o then Ret (Some (on_flags (fun f => set_locked (set_la f)) s))
  else if is_flag "O" o || is_flag "k" o || is_flag "s" o || is_flag "t" o || is_flag "c" o || is_flag "f" o then
    Ret (Some s)
  else if is_flag "v" o then Ret (Some (on_flags set_value s))
  else if is_flag "h" o then Ret (Some (on_flags set_locked s))
  else if is_flag "u" o then Ret (Some (on_flags set_no_update s))
  else if is_flag "q" o then Ret (Some (on_flags set_no_reply s))
  else if is_flag "F" o then
    '(ok, n) ← safe_strtoul (Some arg) true;
    let s := on_flags (set_client_flags n) s in
    Ret (Some (if ok : bool then s else on_flags set_has_error s))
  else if is_flag "C" o then
    '(ok, n) ← safe_strtoull arg true;
    Ret (Some (if ok : bool then on_flags (set_req_cas true n) s
               else flag_error bad_token (on_flags (fun f => set_req_cas (of_has_cas f) n f) s)))
  else if is_flag "M" o then
    Ret (Some (if negb (tok_length t =? 2)%nat then flag_error (text "CLIENT_ERROR incorrect length for M token") s
               else on_flags (set_mode (char_at v 1)) s))
  else if is_flag "J" o then
    '(ok, n) ← safe_strtoull arg true;
    let s := on_flags (set_initial n) s in
    Ret (Some (if ok : bool then s else flag_error (text "CLIENT_ERROR invalid numeric initial value") s))
  else if is_flag "D" o then
    '(ok, n) ← safe_strtoull arg true;
    let s := on_flags (set_delta n) s in
    Ret (Some (if ok : bool then s else flag_error (text "CLIENT_ERROR invalid numeric delta value") s))
  else if is_flag "I" o then Ret (Some (on_flags set_set_stale s))
  else Ret None.

(** The loop, over the tokens from the first flag on; [seen] has the characters of those before. *)
Fixpoint preparse_loop (tokens : list token) (seen : list Z) (s : preparse) : outcome (bool * preparse) :=
  match tokens with
  | [] => Ub
  | t :: tokens =>
      if (tok_length t =? 0)%nat then Ret (negb (of_has_error (pp_of s)), s) else
      v ← deref (tok_value t);
      let o := char_at v 0 in
      if (127 <=? o) || bool_decide (o ∈ seen) then
        Ret (false, mkPreparse (pp_of s) (text "CLIENT_ERROR duplicate flag") (pp_key s)) else
      r ← preparse_flag t v o s;
      match r with
      | None => Ret (false, mkPreparse (pp_of s) (text "CLIENT_ERROR invalid flag") (pp_key s))
      | Some s => preparse_loop tokens (o :: seen) s
      end
  end.

(** [_meta_flag_preparse]: whether the flags are well formed. *)
Definition meta_flag_preparse (tokens : list token) (start : nat) (fl : meta_flags) (errstr : list Z)
    : outcome (bool * preparse) :=
  key ← deref (tokens !! 1%nat);
  preparse_loop (drop start tokens) [] (mkPreparse fl errstr key).

(** ** Parts of an answer *)

(** [META_CHAR] and [META_KEY]. *)
Definition META_CHAR (c : String.string) : list Z := 32 :: text c.

Definition META_KEY (key : list Z) (bin : bool) : outcome (list Z) :=
  if bin then
    '(n, out) ← base64_encode key (length key) (Some (replicate 512 0)) (WRITE_BUFFER_SIZE / 2);
    out ← deref out;
    Ret (META_CHAR "k" ++ take (Z.to_nat n) out ++ META_CHAR "b")
  else Ret (META_CHAR "k" ++ key).

(** The flags of a command line: the tokens between the key and the terminal one. *)
Definition flag_tokens (tokens : list token) : list token := take (length tokens - 3) (drop 2 tokens).

Definition opaque_too_long : list Z := text "CLIENT_ERROR opaque token too long".

(** The loop that only gives back the opaque token and the key; [inl] is the error message. *)
Fixpoint echo_flags (flags : list token) (key : list Z) (bin : bool) (line : list Z) : outcome (list Z + list Z) :=
  match flags with
  | [] => Ret (inr line)
  | t :: flags =>
      v ← deref (tok_value t);
      let o := char_at v 0 in
      if is_flag "O" o then
        if (MFLAG_MAX_OPAQUE_LENGTH <? tok_length t)%nat then Ret (inl opaque_too_long)
        else echo_flags flags key bin (line ++ [32] ++ v)
      else if is_flag "k" o then k ← META_KEY key bin; echo_flags flags key bin (line ++ k)
      else echo_flags flags key bin line
  end.

(** The remaining time of an item. *)
Definition ttl_string (it : item) : list Z :=
  if it_exptime it =? 0 then text "-1" else itoa_u32 (u32 (it_exptime it - current_time cfg)).

(** ** Fetching (thread.c, memcached.c) *)

Definition item_get_locked (e : env) (key : list Z) (do_update : bool) (s : store T)
    : outcome (option positive * store T) :=
  do_item_get cfg key (hash key) do_update (queued e) s.

Definition limited_get_locked (e : env) (key : list Z) (do_update : bool) (s : store T)
    : outcome (option positive * bool * store T) :=
  '(r, s) ← item_get_locked e key do_update s;
  match r with
  | None => Ret (None, false, s)
  | Some p =>
      it ← get_item p s;
      if IT_REFCOUNT_LIMIT <? it_refcount it then s ← do_item_remove p s; Ret (None, true, s)
      else Ret (Some p, false, s)
  end.

(** ** mg *)

Definition bad_line : list Z := text "CLIENT_ERROR bad command line format".

(** A miss with the flag N makes an empty item; the lock of the key is held. *)
Definition mget_vivify (e : env) (key : list Z) (s : store T) : outcome (option positive * store T) :=
  let hv := hash key in
  '(r, s) ← do_item_alloc hash cfg (holding hv e) key 0 (realtime srv 0) 2 s;
  match r with
  | None => Ret (None, s)
  | Some p =>
      s ← write_data p 0 crlf 2 s;
      s ← do_item_link cfg p hv s;
      Ret (Some p, s)
  end.

(** The parts of the answer that show the item; [None] for a flag that shows nothing. *)
Definition show_flag (it : item) (o : Z) : outcome (option (list Z)) :=
  if is_flag "s" o then Ret (Some (META_CHAR "s" ++ itoa_u32 (u32 (it_nbytes it - 2))))
  else if is_flag "t" o then Ret (Some (META_CHAR "t" ++ ttl_string it))
  else if is_flag "c" o then Ret (Some (META_CHAR "c" ++ itoa_u64 (ITEM_get_cas it)))
  else if is_flag "f" o then
    Ret (Some (META_CHAR "f" ++ (if has_flag ITEM_CFLAGS it then itoa_u32 (it_cflags it) else [48])))
  else if is_flag "l" o then Ret (Some (META_CHAR "l" ++ itoa_u32 (u32 (current_time cfg - it_time it))))
  else if is_flag "h" o then Ret (Some (META_CHAR "h" ++ (if has_flag ITEM_FETCHED it then [49] else [48])))
  else if is_flag "k" o then k ← META_KEY (item_key it) (has_flag ITEM_KEY_BINARY it); Ret (Some k)
  else Ret None.

(** The supplied time is later than the item's expiry, and nobody was told to recache it. *)
Definition wins_recache (fl : meta_flags) (created : bool) (it : item) : bool :=
  negb (has_flag ITEM_TOKEN_SENT it) && negb created && negb (it_exptime it =? 0)
  && (it_exptime it <? of_recache_time fl).

(** The loop over the flags: the error message, or whether the client won a token and the answer. *)
Fixpoint mget_flags (flags : list token) (fl : meta_flags) (created : bool) (p : positive) (won_token : bool)
    (line : list Z) (s : store T) : outcome ((list Z + bool * list Z) * store T) :=
  match flags with
  | [] => Ret (inr (won_token, line), s)
  | t :: flags =>
      v ← deref (tok_value t);
      let o := char_at v 0 in
      it ← get_item p s;
      if is_flag "T" o then
        s ← upd_item p (set_exptime (of_exptime fl)) s;
        mget_flags flags fl created p won_token line s
      else if is_flag "N" o then
        if created then
          s ← upd_item p (set_exptime (of_autoviv_exptime fl)) s;
          mget_flags flags fl created p true line s
        else mget_flags flags fl created p won_token line s
      else if is_flag "R" o then
        mget_flags flags fl created p (won_token || wins_recache fl created it) line s
      else if is_flag "O" o then
        if (MFLAG_MAX_OPAQUE_LENGTH <? tok_length t)%nat then Ret (inl opaque_too_long, s)
        else mget_flags flags fl created p won_token (line ++ [32] ++ v) s
      else
        part ← show_flag it o;
        mget_flags flags fl created p won_token (line ++ default [] part) s
  end.

(** The client of a stale item wins the token unless it was sent before. *)
Definition mget_wins (it : item) (won_token : bool) : bool :=
  won_token || (has_flag ITEM_STALE it && negb (has_flag ITEM_TOKEN_SENT it)).

Definition token_marks (it : item) (won_token : bool) : list Z :=
  (if has_flag ITEM_TOKEN_SENT it then META_CHAR "Z" else [])
  ++ (if has_flag ITEM_STALE it then META_CHAR "X" else [])
  ++ (if mget_wins it won_token then META_CHAR "W" else []).

Definition mget_head (fl : meta_flags) (it : item) : list Z :=
  if of_value fl then text "VA " ++ itoa_u32 (u32 (it_nbytes it - 2))
  else if meta_response_old srv then text "OK" else text "HD".

(** The answer for the item [p], which holds a reference to it. *)
Definition mget_answer (e : senv) (tokens : list token) (fl : meta_flags) (created : bool) (p : positive) (w : world T)
    : outcome (world T) :=
  it ← get_item p (w_store w);
  '(r, s) ← mget_flags (flag_tokens tokens) fl created p false (mget_head fl it) (w_store w);
  let w := with_store s w in
  match r with
  | inl errstr => w ← on_store (do_item_remove p) w; out_errstring errstr w
  | inr (won_token, line) =>
      it ← get_item p (w_store w);
      let line := line ++ token_marks it won_token ++ crlf in
      w ← (if mget_wins it won_token then on_store (upd_item p (raise_flag ITEM_TOKEN_SENT)) w else Ret w);
      if WRITE_BUFFER_SIZE <? Z.of_nat (length line) + 1 then Ub else
      w ← resp_add_iov (IovBuf line) w;
      w ← (if of_value fl then
             if has_flag ITEM_CHUNKED it then resp_add_chunked_iov p (it_nbytes it) w
             else resp_add_iov (IovItem p (it_nbytes it)) w
           else Ret w);
      w ← upd_resp (fun r => mkResp (resp_iov r) (Some p) (resp_skip r) (resp_wbuf r)) w;
      w ← (if of_locked fl && negb (of_no_update fl)
           then on_store (do_item_bump cfg (queued (item_env e)) p) w else Ret w);
      Ret (conn_set_state conn_new_cmd w)
  end.

(** What follows the parsing of the flags. *)
Definition mget_fetch (e : senv) (tokens : list token) (fl : meta_flags) (key : list Z) (w : world T) : outcome (world T) :=
  '(r, overflow, s) ← (if negb (of_locked fl)
                       then limited_get hash cfg (item_env e) key 0 false (negb (of_no_update fl)) (w_store w)
                       else limited_get_locked (item_env e) key false (w_store w));
  let w := with_store s w in
  if overflow : bool then out_errstring (text "SERVER_ERROR refcount overflow during fetch") w else
  match r with
  | Some p => mget_answer e tokens fl false p w
  | None =>
      '(r, s) ← (if of_vivify fl then mget_vivify (item_env e) key (w_store w) else Ret (None, w_store w));
      let w := with_store s w in
      match r with
      | Some p => mget_answer e tokens fl true p w
      | None => out_string (text "EN") w
      end
  end.

Definition process_mget_command (e : senv) (tokens : list token) (w : world T) : outcome (world T) :=
  if (length tokens <? 3)%nat then out_string (text "ERROR") w else
  t ← deref (tokens !! 1%nat);
  if KEY_MAX_LENGTH <? Z.of_nat (tok_length t) then out_errstring bad_line w else
  if (length tokens =? 3)%nat then out_errstring bad_line w else
  if (MFLAG_MAX_OPT_LENGTH <? length tokens)%nat then out_errstring (text "CLIENT_ERROR options flags are too long") w else
  '(ok, pp) ← meta_flag_preparse tokens 2 no_flags bad_line;
  if negb ok then out_errstring (pp_errstr pp) w else
  let w := upd_conn (with_noreply (of_no_reply (pp_of pp))) w in
  key ← key_string (pp_key pp);
  mget_fetch e tokens (pp_of pp) key w.

(** ** ms *)

(** The flags that the answer needs are noted in the write buffer; the error message, if an opaque
    token is too long, and the notes. *)
Fixpoint mset_stash (flags : list token) (errstr : option (list Z)) (stash : list Z)
    : outcome (option (list Z) * list Z) :=
  match flags with
  | [] => Ret (errstr, stash)
  | t :: flags =>
      v ← deref (tok_value t);
      let o := char_at v 0 in
      if is_flag "O" o then
        if (MFLAG_MAX_OPAQUE_LENGTH <? tok_length t)%nat then mset_stash flags (Some opaque_too_long) stash
        else mset_stash flags errstr (stash ++ [32] ++ v)
      else if is_flag "k" o then mset_stash flags errstr (stash ++ META_CHAR "k")
      else if is_flag "c" o then mset_stash flags errstr (stash ++ META_CHAR "c")
      else mset_stash flags errstr stash
  end.

(** The mode switch. *)
Definition mset_mode (mode : Z) : option nread :=
  if mode =? 0 then Some NREAD_SET
  else if is_flag "E" mode then Some NREAD_ADD
  else if is_flag "A" mode then Some NREAD_APPEND
  else if is_flag "P" mode then Some NREAD_PREPEND
  else if is_flag "R" mode then Some NREAD_REPLACE
  else if is_flag "S" mode then Some NREAD_SET
  else None.

Definition mset_comm (fl : meta_flags) (comm : nread) : nread :=
  if of_has_cas fl && (bool_decide (comm = NREAD_SET) || bool_decide (comm = NREAD_REPLACE)) then NREAD_CAS else comm.

(** The data line is going to be swallowed. *)
Definition mset_error (vlen : Z) (errstr : list Z) (w : world T) : outcome (world T) :=
  w ← out_errstring errstr (upd_conn (with_sbytes vlen) w);
  Ret (conn_set_state conn_swallow w).

(** No item could be allocated: the one that was there is dropped. *)
Definition mset_failed (e : senv) (key : list Z) (fl : meta_flags) (vlen : Z) (w : world T) : outcome (world T) :=
  let errstr := if negb (item_size_ok cfg (Z.of_nat (length key)) (of_client_flags fl) vlen)
                then text "SERVER_ERROR object too large for cache"
                else text "SERVER_ERROR out of memory storing object" in
  '(r, s) ← item_get_locked (item_env e) key false (w_store w);
  let w := with_store s w in
  w ← match r with
      | Some p => w ← on_store (do_item_unlink p (hash key)) w; on_store (do_item_remove p) w
      | None => Ret w
      end;
  mset_error vlen errstr w.

(** The connection is going to read the value into the item [p]. *)
Definition mset_begin (fl : meta_flags) (comm : nread) (stash : list Z) (p : positive) (w : world T)
    : outcome (world T) :=
  w ← on_store (upd_item p (ITEM_set_cas (of_req_cas_id fl))) w;
  it ← get_item p (w_store w);
  let w := upd_conn (fun c => with_nread comm (it_nbytes it) (with_item (Some p) c)) w in
  w ← (if of_key_binary fl then on_store (upd_item p (raise_flag ITEM_KEY_BINARY)) w else Ret w);
  let stale := (of_set_stale fl && bool_decide (comm = NREAD_CAS)) || c_set_stale (w_conn w) in
  if WRITE_BUFFER_SIZE <? Z.of_nat (length stash) then Ub else
  w ← upd_resp (fun r => mkResp (resp_iov r) (resp_item r) (resp_skip r) stash) w;
  Ret (conn_set_state conn_nread (upd_conn (with_mset stale true) w)).

Definition process_mset_command (e : senv) (tokens : list token) (w : world T) : outcome (world T) :=
  if (length tokens <? 3)%nat then out_string (text "ERROR") w else
  t ← deref (tokens !! 1%nat);
  if KEY_MAX_LENGTH <? Z.of_nat (tok_length t) then out_errstring bad_line w else
  if (length tokens =? 3)%nat then out_errstring bad_line w else
  if (MFLAG_MAX_OPT_LENGTH <? length tokens)%nat then out_errstring (text "CLIENT_ERROR options flags too long") w else
  v ← token_string tokens 2;
  '(ok, vlen) ← safe_strtol v true;
  if negb ok then out_errstring bad_line w else
  if (vlen <? 0) || (INT_MAX - 2 <? vlen) then out_errstring bad_line w else
  let vlen := vlen + 2 in
  '(ok, pp) ← meta_flag_preparse tokens 3 no_flags bad_line;
  if negb ok then mset_error vlen (pp_errstr pp) w else
  let fl := pp_of pp in
  key ← key_string (pp_key pp);
  let w := upd_conn (with_noreply (of_no_reply fl)) w in
  '(err, stash) ← mset_stash (flag_tokens tokens) None [];
  match mset_mode (of_mode fl), err with
  | None, _ => mset_error vlen (text "CLIENT_ERROR invalid mode for ms M token") w
  | Some _, Some errstr => mset_error vlen errstr w
  | Some comm, None =>
      let comm := mset_comm fl comm in
      '(r, s) ← item_alloc hash cfg (item_env e) key (of_client_flags fl) (of_exptime fl) vlen (w_store w);
      let w := with_store s w in
      match r with
      | None => mset_failed e key fl vlen w
      | Some p => mset_begin fl comm stash p w
      end
  end.

(** ** md *)

Definition meta_ok : list Z := if meta_response_old srv then text "OK " else text "HD ".

(** What happens to the item that was found, and the status code.  The CAS number is compared with
    the local variable [req_cas_id], which is 0, and not with the one of the flag. *)
Definition mdelete_item (fl : meta_flags) (key : list Z) (p : positive) (w : world T) : outcome (list Z * world T) :=
  let req_cas_id := 0 in
  let skip w := if c_noreply (w_conn w)
                then upd_resp (fun r => mkResp (resp_iov r) (resp_item r) true (resp_wbuf r)) w else Ret w in
  it ← get_item p (w_store w);
  if of_has_cas fl && negb (ITEM_get_cas it =? req_cas_id) then Ret (text "EX ", w)
  else if of_set_stale fl then
    s ← (if of_new_ttl fl then upd_item p (set_exptime (of_exptime fl)) (w_store w) else Ret (w_store w));
    s ← upd_item p (fun i => clear_flag ITEM_TOKEN_SENT (raise_flag ITEM_STALE i)) s;
    let '(cas, s) := next_cas cfg s in
    s ← upd_item p (ITEM_set_cas cas) s;
    w ← skip (with_store s w);
    Ret (meta_ok, w)
  else
    w ← on_store (do_item_unlink p (hash key)) w;
    w ← skip w;
    Ret (meta_ok, w).

Definition process_mdelete_command (e : senv) (tokens : list token) (w : world T) : outcome (world T) :=
  if (length tokens <? 3)%nat then out_string (text "ERROR") w else
  t ← deref (tokens !! 1%nat);
  if KEY_MAX_LENGTH <? Z.of_nat (tok_length t) then out_string bad_line w else
  if (MFLAG_MAX_OPT_LENGTH <? length tokens)%nat then out_string (text "CLIENT_ERROR options flags too long") w else
  '(ok, pp) ← meta_flag_preparse tokens 2 no_flags bad_line;
  if negb ok then out_errstring (text "CLIENT_ERROR invalid or duplicate flag") w else
  let fl := pp_of pp in
  let w := upd_conn (with_noreply (of_no_reply fl)) w in
  key ← key_string (pp_key pp);
  r ← echo_flags (flag_tokens tokens) key (of_key_binary fl) [];
  match r with
  | inl errstr => out_errstring errstr w
  | inr line =>
      '(r, s) ← item_get_locked (item_env e) key false (w_store w);
      let w := with_store s w in
      '(code, w) ← match r with
                   | None => Ret (text "NF ", w)
                   | Some p =>
                       '(code, w) ← mdelete_item fl key p w;
                       w ← on_store (do_item_remove p) w;
                       Ret (code, w)
                   end;
      w ← out_buf (code ++ line ++ crlf) w;
      Ret (conn_set_state conn_new_cmd w)
  end.

(** ** ma *)

(** The mode switch: whether to increment. *)
Definition marithmetic_mode (mode : Z) : option bool :=
  if mode =? 0 then Some true
  else if is_flag "I" mode || is_flag "+" mode then Some true
  else if is_flag "D" mode || is_flag "-" mode then Some false
  else None.

(** A miss with the flag N makes an item with the initial value; the lock of the key is held.  The
    result says whether there was memory, the item, and whether it was stored. *)
Definition marithmetic_vivify (e : env) (key : list Z) (tmpbuf : list Z) (w : world T)
    : outcome (option (positive * bool) * world T) :=
  let hv := hash key in
  let vlen := Z.of_nat (length tmpbuf) in
  '(r, s) ← do_item_alloc hash cfg (holding hv e) key 0 0 (vlen + 2) (w_store w);
  match r with
  | None => Ret (None, with_store s w)
  | Some p =>
      s ← write_data p 0 tmpbuf vlen s;
      s ← write_data p (length tmpbuf) crlf 2 s;
      '(ret, cas, s) ← do_store_item hash cfg e (c_set_stale (w_conn w)) p NREAD_ADD hv s;
      let w := with_store s w in
      let w := match cas with Some n => upd_conn (with_cas n) w | None => w end in
      Ret (Some (p, bool_decide (ret <> NOT_STORED)), w)
  end.

(** The loop over the flags when there is an item. *)
Fixpoint marithmetic_flags (flags : list token) (fl : meta_flags) (key : list Z) (created : bool) (p : positive)
    (line : list Z) (s : store T) : outcome ((list Z + list Z) * store T) :=
  match flags with
  | [] => Ret (inr line, s)
  | t :: flags =>
      v ← deref (tok_value t);
      let o := char_at v 0 in
      it ← get_item p s;
      if is_flag "c" o then
        marithmetic_flags flags fl key created p (line ++ META_CHAR "c" ++ itoa_u64 (ITEM_get_cas it)) s
      else if is_flag "t" o then marithmetic_flags flags fl key created p (line ++ META_CHAR "t" ++ ttl_string it) s
      else if is_flag "T" o then
        s ← upd_item p (set_exptime (of_exptime fl)) s; marithmetic_flags flags fl key created p line s
      else if is_flag "N" o then
        s ← (if created then upd_item p (set_exptime (of_autoviv_exptime fl)) s else Ret s);
        marithmetic_flags flags fl key created p line s
      else if is_flag "O" o then
        if (MFLAG_MAX_OPAQUE_LENGTH <? tok_length t)%nat then Ret (inl opaque_too_long, s)
        else marithmetic_flags flags fl key created p (line ++ [32] ++ v) s
      else if is_flag "k" o then
        k ← META_KEY key (of_key_binary fl); marithmetic_flags flags fl key created p (line ++ k) s
      else marithmetic_flags flags fl key created p line s
  end.

(** The answer: [head] is what stands in the buffer when there is no item. *)
Definition marithmetic_answer (tokens : list token) (fl : meta_flags) (key tmpbuf head : list Z)
    (it : option (positive * bool)) (w : world T) : outcome (world T) :=
  '(r, w) ← match it with
            | Some (p, created) =>
                let start := if of_value fl then text "VA " ++ itoa_u32 (u32 (Z.of_nat (length tmpbuf)))
                             else if meta_response_old srv then text "OK" else text "HD" in
                '(r, s) ← marithmetic_flags (flag_tokens tokens) fl key created p start (w_store w);
                w ← on_store (do_item_remove p) (with_store s w);
                Ret (match r with
                     | inl errstr => inl errstr
                     | inr line => inr (if of_value fl then line ++ crlf ++ tmpbuf else line)
                     end, w)
            | None =>
                r ← echo_flags (flag_tokens tokens) key (of_key_binary fl) head;
                Ret (r, w)
            end;
  match r with
  | inl errstr => out_errstring errstr w
  | inr line => w ← out_buf (line ++ crlf) w; Ret (conn_set_state conn_new_cmd w)
  end.

Definition process_marithmetic_command (e : senv) (tokens : list token) (w : world T) : outcome (world T) :=
  if (length tokens <? 3)%nat then out_string (text "ERROR") w else
  t ← deref (tokens !! 1%nat);
  if KEY_MAX_LENGTH <? Z.of_nat (tok_length t) then out_string bad_line w else
  if (MFLAG_MAX_OPT_LENGTH <? length tokens)%nat then out_string (text "CLIENT_ERROR options flags too long") w else
  '(ok, pp) ← meta_flag_preparse tokens 2 (set_initial 0 (set_delta 1 no_flags)) bad_line;
  if negb ok then out_errstring (text "CLIENT_ERROR invalid or duplicate flag") w else
  let fl := pp_of pp in
  let w := upd_conn (with_noreply (of_no_reply fl)) w in
  key ← key_string (pp_key pp);
  match marithmetic_mode (of_mode fl) with
  | None => out_errstring (text "CLIENT_ERROR invalid mode for ma M token") w
  | Some incr =>
      '(r, _, tmpbuf, it, s) ← do_add_delta hash cfg (item_env e) key incr (of_delta fl) (Some (of_req_cas_id fl))
                                 (hash key) true (w_store w);
      let w := with_store s w in
      match r with
      | OK =>
          w ← (if c_noreply (w_conn w)
               then upd_resp (fun r => mkResp (resp_iov r) (resp_item r) true (resp_wbuf r)) w else Ret w);
          marithmetic_answer tokens fl key tmpbuf [] ((fun p => (p, false)) <$> it) w
      | NON_NUMERIC => out_errstring (text "CLIENT_ERROR cannot increment or decrement non-numeric value") w
      | EOM => out_errstring (text "SERVER_ERROR out of memory") w
      | DELTA_ITEM_NOT_FOUND =>
          if of_vivify fl then
            let tmpbuf := itoa_u64 (of_initial fl) in
            '(it, w) ← marithmetic_vivify (item_env e) key tmpbuf w;
            match it with
            | None => out_errstring (text "SERVER_ERROR Out of memory allocating new item") w
            | Some _ => marithmetic_answer tokens fl key tmpbuf [] it w
            end
          else marithmetic_answer tokens fl key tmpbuf (text "NF ") None w
      | DELTA_ITEM_CAS_MISMATCH => marithmetic_answer tokens fl key tmpbuf (text "EX ") None w
      end
  end.

(** ** me *)

Definition print_int (z : Z) : list Z := if z <? 0 then 45 :: itoa_u64 (- z) else itoa_u64 z.

(** What [snprintf] prints about the item. *)
Definition meta_info (it : item) : list Z :=
  text "exp=" ++ print_int (if it_exptime it =? 0 then -1 else i32 (current_time cfg - it_exptime it))
  ++ text " la=" ++ itoa_u64 (u32 (current_time cfg - it_time it))
  ++ text " cas=" ++ itoa_u64 (ITEM_get_cas it)
  ++ text " fetch=" ++ (if has_flag ITEM_FETCHED it then text "yes" else text "no")
  ++ text " cls=" ++ itoa_u32 (ITEM_clsid it)
  ++ text " size=" ++ itoa_u64 (ITEM_ntotal it) ++ crlf.

Definition process_meta_command (e : senv) (tokens : list token) (w : world T) : outcome (world T) :=
  if (length tokens <? 3)%nat then out_string bad_line w else
  t ← deref (tokens !! 1%nat);
  if KEY_MAX_LENGTH <? Z.of_nat (tok_length t) then out_string bad_line w else
  flag ← deref (tokens !! 2%nat);
  let first := char_at (default [] (tok_value flag)) 0 in
  let binary := (4 <=? length tokens)%nat && (tok_length flag =? 1)%nat && is_flag "b" first in
  t ← (if binary then decode_key t else Ret t);
  if binary && (tok_length t =? 0)%nat then out_string bad_line w else
  key ← key_string t;
  '(r, _, s) ← limited_get hash cfg (item_env e) key 0 false false (w_store w);
  let w := with_store s w in
  match r with
  | None => out_string (text "EN") w
  | Some p =>
      it ← get_item p (w_store w);
      key ← (if has_flag ITEM_KEY_BINARY it then
               '(n, out) ← base64_encode (item_key it) (length (item_key it))
                             (Some (replicate (Z.to_nat (WRITE_BUFFER_SIZE - 3)) 0)) (WRITE_BUFFER_SIZE - 3);
               out ← deref out;
               Ret (take (Z.to_nat n) out)
             else Ret (item_key it));
      let info := meta_info it in
      if WRITE_BUFFER_SIZE - (Z.of_nat (length (item_key it)) + 12) <=? Z.of_nat (length info) then Ub else
      w ← on_store (item_remove p) w;
      w ← out_buf (text "ME " ++ key ++ [32] ++ info) w;
      Ret (conn_set_state conn_new_cmd w)
  end.

(** ** The dispatcher, with the meta commands *)

Definition run_meta (e : senv) (tokens : list token) (o : other_command) (w : world T) : outcome (option (world T)) :=
  match o with
  | OtherMget => w ← process_mget_command e tokens w; Ret (Some w)
  | OtherMset => w ← process_mset_command e tokens w; Ret (Some w)
  | OtherMdelete => w ← process_mdelete_command e tokens w; Ret (Some w)
  | OtherMarithmetic => w ← process_marithmetic_command e tokens w; Ret (Some w)
  | OtherMeta => w ← process_meta_command e tokens w; Ret (Some w)
  | _ => Ret None
  end.

(** [process_command] with the meta commands. *)
Definition process_command_meta (e : senv) (command : list Z) (w : world T) : outcome (option (world T)) :=
  let '(started, w) := start_response e w in
  if negb started then Ret (Some (conn_set_state conn_closing w)) else
  let tokens := tokenize_command command MAX_TOKENS in
  first ← deref (tokens !! 0%nat);
  if (length tokens <? 2)%nat || (tok_length first <? 2)%nat then run_command hash srv e tokens CmdError w else
  cmd ← classify tokens;
  match cmd with CmdOther o => run_meta e tokens o w | _ => run_command hash srv e tokens cmd w end.

End Meta.
