(* ===== verification/MetaFacts.v ===== *)
(** * Facts about the meta commands

    Parsing the flags of a line always returns and lets a flag through only once, so that the
    answer to a meta get fits the write buffer; a meta get keeps the store consistent whatever its
    flags are, and hands out the token to recache an item to one client only. *)

From S2P Require Import Prelude Items LruFacts ItemsFacts ItemAlloc ItemAllocFacts Util Itoa Base64.
From S2P Require Import Store StoreFacts DeltaFacts MtCrypto MtArrayList MerkleTree Aes128 Cmac CmacFacts Conn ProtoText.
From S2P Require Import ProtoFacts ServerFacts ProtoMeta.
From Stdlib Require Ascii String.
Import String.StringSyntax.

Local Open Scope string_scope.
Local Open Scope Z_scope.

(** ** Parsing *)

Lemma safe_strtol_ret v : exists ok n, safe_strtol v true = Ret (ok, n).
Proof. unfold safe_strtol. cbn [c_assert]. rewrite ret_bind. repeat case_match; eauto. Qed.

Lemma safe_strtoull_ret v : exists ok n, safe_strtoull v true = Ret (ok, n).
Proof. unfold safe_strtoull. cbn [c_assert]. rewrite ret_bind. repeat case_match; eauto. Qed.

Lemma safe_strtoul_ret v : exists ok n, safe_strtoul (Some v) true = Ret (ok, n).
Proof. unfold safe_strtoul. cbn [c_assert deref]. rewrite !ret_bind. repeat case_match; eauto. Qed.

(** The token of a key, as it was read or decoded. *)
Definition key_token_ok (t : token) : Prop :=
  exists v, tok_value t = Some v /\ (tok_length t <= length v)%nat /\ (tok_length t <= 250)%nat.

Lemma key_string_ok t : key_token_ok t -> exists k, key_string t = Ret k /\ (length k <= 250)%nat.
Proof.
  intros (v & E & H1 & H2). unfold key_string. rewrite E. cbn [deref]. rewrite ret_bind. rewrite read_bytes_ok by done.
  eexists. split; [done|]. rewrite length_take. lia.
Qed.

Lemma decode_key_ok t : key_token_ok t -> exists t', decode_key t = Ret t' /\ key_token_ok t'.
Proof.
  intros (v & E & H1 & H2). unfold decode_key. rewrite E. cbn [deref]. rewrite ret_bind.
  assert (base64_decode v (tok_length t) (Some v) (Z.of_nat (tok_length t)) =
    base64_decode (take (tok_length t) v) (length (take (tok_length t) v)) (Some v) (Z.of_nat (tok_length t))) as ->.
  { unfold base64_decode. rewrite !read_bytes_ok by (rewrite ?length_take; lia). by rewrite (take_ge (take _ v)) by lia. }
  destruct (base64_decode_ok (take (tok_length t) v) v (Z.of_nat (tok_length t))) as (ret & v' & -> & Hr & Hl); [lia|].
  rewrite ret_bind. cbn [deref]. rewrite ret_bind. eexists. split; [done|]. exists v'. simpl. split; [done|]. lia.
Qed.

Section Parsing.
Context (srv : server_settings).

Lemma flag_time_ret v : exists r, flag_time srv v = Ret r.
Proof. unfold flag_time. destruct (safe_strtol_ret v) as (ok & n & ->). rewrite ret_bind. eauto. Qed.

(** What parsing keeps: a key token, and a message that is short enough to be sent. *)
Definition preparse_inv (s : preparse) : Prop := key_token_ok (pp_key s) /\ (length (pp_errstr s) <= 100)%nat.

Lemma flag_error_inv err f s : preparse_inv s -> (length err <= 100)%nat -> preparse_inv (flag_error err (on_flags f s)).
Proof. by intros [H1 H2] He. Qed.

Lemma preparse_flag_ok t v o s : preparse_inv s ->
  exists r, preparse_flag srv t v o s = Ret r /\ forall s', r = Some s' -> preparse_inv s'.
Proof.
  intros Hk. unfold preparse_flag.
  destruct (is_flag "b" o).
  { destruct (decode_key_ok _ (proj1 Hk)) as (k & -> & Hk'). rewrite ret_bind. eexists. split; [done|]. intros s' [= <-].
    split; [done|]. case_match; [vm_compute; lia|apply Hk]. }
  destruct (flag_time_ret (drop 1 v)) as (r & ->), (safe_strtoul_ret (drop 1 v)) as (ok1 & n1 & ->),
    (safe_strtoull_ret (drop 1 v)) as (ok2 & n2 & ->). rewrite !ret_bind.
  assert (forall f, preparse_inv (on_flags f s)) as Hf by done.
  assert (forall err, (length err <= 100)%nat -> preparse_inv (flag_error err s)) as He by (by destruct Hk).
  repeat first [case_match; [eexists; split; [reflexivity|intros s' [= <-]; repeat case_match;
    first [done|apply flag_error_inv; [done|vm_compute; lia]|apply He; vm_compute; lia]]|]].
  eexists. split; [reflexivity|]. done.
Qed.

(** The characters of the flags of a line that is accepted are all different. *)
Lemma preparse_loop_ok ws rest seen s : Forall (fun w => w <> []) ws -> preparse_inv s ->
  exists ok s', preparse_loop srv (map word_token ws ++ [mkToken rest 0]) seen s = Ret (ok, s') /\ preparse_inv s' /\
    (ok = true -> NoDup (map (fun w => char_at w 0) ws) /\ Forall (fun w => char_at w 0 ∉ seen) ws).
Proof.
  revert seen s. induction ws as [|w ws IH]; intros seen s Hne Hk; cbn [map app preparse_loop tok_length Nat.eqb].
  { eexists _, _. split; [done|]. split; [done|]. intros _. split; constructor. }
  apply Forall_cons in Hne as [Hw Hne]. cbn [word_token tok_length tok_value].
  rewrite (proj2 (Nat.eqb_neq _ _)) by (intros H; by apply nil_length_inv in H). cbn [deref]. rewrite ret_bind.
  assert (forall err, (length err <= 100)%nat -> preparse_inv (mkPreparse (pp_of s) err (pp_key s))) as He by (by destruct Hk).
  destruct ((127 <=? char_at w 0) || bool_decide (char_at w 0 ∈ seen)) eqn:Hdup.
  { eexists _, _. split; [done|]. split; [apply He; vm_compute; lia|done]. }
  destruct (preparse_flag_ok (word_token w) w (char_at w 0) s Hk) as (r & -> & Hr). rewrite ret_bind.
  destruct r as [s1|]; [|eexists _, _; split; [done|]; split; [apply He; vm_compute; lia|done]].
  destruct (IH (char_at w 0 :: seen) s1 Hne (Hr _ eq_refl)) as (ok & s' & -> & Hk' & Hok).
  exists ok, s'. split; [done|]. split; [done|]. intros H. destruct (Hok H) as [Hnd Hns].
  apply orb_false_iff in Hdup as [_ Hdup%bool_decide_eq_false]. split.
  - constructor; [|done]. rewrite list_elem_of_fmap. intros (w' & E & Hin). rewrite Forall_forall in Hns. apply (Hns w' Hin). rewrite E. by left.
  - constructor; [done|]. eapply Forall_impl; [exact Hns|]. intros x Hx Hin. apply Hx. by right.
Qed.

Lemma preparse_ok ws rest key start fl err : Forall (fun w => w <> []) ws -> (length key <= 250)%nat -> ws !! 1%nat = Some key ->
  (start <= length ws)%nat -> (length err <= 100)%nat ->
  exists ok s', meta_flag_preparse srv (map word_token ws ++ [mkToken rest 0]) start fl err = Ret (ok, s') /\ preparse_inv s' /\
    (ok = true -> NoDup (map (fun w => char_at w 0) (drop start ws))).
Proof.
  intros Hne Hk Hkey Hs He. unfold meta_flag_preparse.
  rewrite lookup_app_l by (rewrite length_map; by apply lookup_lt_Some in Hkey). rewrite list_lookup_fmap, Hkey. cbn [fmap option_fmap option_map deref].
  rewrite ret_bind, drop_app_le by (rewrite length_map; lia). rewrite <- fmap_drop.
  change (word_token <$> drop start ws) with (map word_token (drop start ws)).
  destruct (preparse_loop_ok (drop start ws) rest [] (mkPreparse fl err (word_token key))) as (ok & s' & -> & H1 & H2).
  - by apply Forall_drop.
  - split; [|done]. exists key. simpl. split; [done|]. lia.
  - exists ok, s'. split; [done|]. split; [done|]. intros H. by apply H2.
Qed.
End Parsing.

(** ** The length of an answer *)

(** The most that a flag adds to an answer, by its character. *)
Definition flag_costs : list (Z * nat) :=
  [(107, 340%nat); (79, 33%nat); (115, 22%nat); (116, 22%nat); (102, 22%nat); (108, 22%nat); (99, 22%nat); (104, 3%nat)].

Definition cost_in (table : list (Z * nat)) (o : Z) : nat :=
  foldr (fun e n => if o =? e.1 then (e.2 + n)%nat else n) 0%nat table.
Definition flag_cost : Z -> nat := cost_in flag_costs.

Definition costs (table : list (Z * nat)) (os : list Z) : nat := foldr (fun o n => cost_in table o + n)%nat 0%nat os.

Lemma costs_cons c n table os : (costs ((c, n) :: table) os = n * length (filter (fun o => o = c) os) + costs table os)%nat.
Proof.
  induction os as [|o os IH]; [simpl; lia|]. cbn [costs foldr]. fold (costs ((c, n) :: table) os) (costs table os). rewrite IH.
  cbn [cost_in foldr fst snd]. fold (cost_in table o). destruct (Z.eqb_spec o c) as [->|Hne].
  - rewrite filter_cons_True by done. cbn [length]. lia.
  - rewrite filter_cons_False by done. lia.
Qed.

Lemma count_nodup (os : list Z) c : NoDup os -> (length (filter (fun o => o = c) os) <= 1)%nat.
Proof.
  induction 1 as [|o os Hn Hnd IH]; [simpl; lia|]. rewrite filter_cons. destruct (decide (o = c)) as [->|]; [|done].
  assert (filter (fun o => o = c) os = []) as ->; [|simpl; lia].
  clear IH. induction Hnd as [|x xs Hx Hxs IH]; [done|]. rewrite filter_cons_False; [apply IH; set_solver|]. intros ->. set_solver.
Qed.

(** Different flags cost no more than all of them together. *)
Lemma costs_nodup table os : NoDup os -> (costs table os <= foldr (fun e n => e.2 + n) 0 table)%nat.
Proof.
  intros Hnd. induction table as [|[c n] table IH]; [induction os as [|o os IHo]; [done|]; apply IHo; by inversion Hnd|].
  rewrite costs_cons. cbn [foldr fst snd]. pose proof (count_nodup os c Hnd). nia.
Qed.

(** What the answer needs of a value: its fields are in the range of their C types. *)
Record plain_value (v : value) : Prop := {
  pv_key : (length (v_key v) <= 250)%nat;
  pv_cflags : 0 <= v_cflags v < 2 ^ 32;
  pv_cas : 0 <= v_cas v < 2 ^ 64
}.

Lemma META_KEY_ok k bin : (length k <= 250)%nat -> exists b, META_KEY k bin = Ret b /\ (length b <= 340)%nat.
Proof.
  intros Hk. unfold META_KEY. destruct bin; [|eexists; split; [done|rewrite length_app; simpl; lia]].
  pose proof (base64_encode_ok k [] (replicate 512 0) (WRITE_BUFFER_SIZE / 2)) as E. rewrite app_nil_r in E.
  rewrite E; [|lia| |rewrite length_replicate; vm_compute; discriminate].
  - rewrite ret_bind. cbn [deref]. rewrite ret_bind. eexists. split; [done|]. rewrite !length_app, length_take. simpl (length (META_CHAR _)).
    unfold quads. rewrite Nat2Z.id. pose proof (Nat.Div0.div_le_mono (length k + 2) 252 3 ltac:(lia)). change (252 / 3)%nat with 84%nat in *. lia.
  - unfold encode_olen, WRITE_BUFFER_SIZE. rewrite (u64_id (_ * 4)) by lia. rewrite (u64_id (_ / 3 + 4)) by zdm.
    rewrite (u64_id (_ + _ / 72)) by zdm. rewrite u64_id by zdm. change (1024 / 2) with 512. zdm.
Qed.

(** The part a flag shows against what it may cost. *)
Ltac show_cost H :=
  injection H as <-; eexists; split; [reflexivity|]; cbn [default from_option id];
  match goal with |- context [flag_cost ?n] => let x := eval vm_compute in (flag_cost n) in change (flag_cost n) with x end;
  rewrite ?length_app;
  repeat match goal with |- context [length (META_CHAR ?c)] => change (length (META_CHAR c)) with 2%nat end;
  first [lia|repeat case_match; cbn [length]; lia].

Section Answers.
Context {T : Type} {table_ops : ItemTable T} (srv : server_settings).
Implicit Types (s : store T).

Let cfg := base_settings srv.

Lemma ttl_length i : (length (ttl_string srv i) <= 20)%nat.
Proof. unfold ttl_string. destruct (_ =? 0); [simpl; lia|]. apply itoa_u32_length, u32_range. Qed.

Lemma show_flag_ok i o : plain_value (value_of i) ->
  exists part, show_flag srv i o = Ret part /\ (length (default [] part) <= flag_cost o)%nat.
Proof.
  intros [Hk Hf Hc]. simpl in Hk, Hf, Hc. unfold FLAGS_CONV in Hf. unfold show_flag, is_flag.
  pose proof (itoa_u32_length (u32 (it_nbytes i - 2)) (u32_range _)). pose proof (ttl_length i).
  pose proof (itoa_u64_length _ Hc). 
  assert (length (if has_flag ITEM_CFLAGS i then itoa_u32 (it_cflags i) else [48%Z]) <= 20)%nat
    by (destruct (has_flag ITEM_CFLAGS i); [by apply itoa_u32_length|simpl; lia]).
  pose proof (itoa_u32_length (u32 (current_time (base_settings srv) - it_time i)) (u32_range _)).
  destruct (META_KEY_ok (item_key i) (has_flag ITEM_KEY_BINARY i) Hk) as (b & -> & Hb). rewrite ret_bind.
  repeat (let Ho := fresh "Ho" in case_bool_decide as Ho; [show_cost Ho|]).
  eexists. split; [reflexivity|]. simpl. lia.
Qed.

Lemma set_exptime_same i : set_exptime (it_exptime i) i = i.
Proof. by destruct i. Qed.

Lemma with_heap_id s p i : heap s !! p = Some i -> with_heap (<[p := i]> (heap s)) s = s.
Proof. intros H. rewrite insert_id by done. by destruct s. Qed.

(** The loop over the flags changes at most the expiry time of the item; a client wins a token only
    for an item that was made for it or whose token was not sent. *)
Lemma mget_flags_ok fl created p i ws s won line :
  heap s !! p = Some i -> plain_value (value_of i) ->
  exists r t, mget_flags srv (map word_token ws) fl created p won line s =
      Ret (r, with_heap (<[p := set_exptime t i]> (heap s)) s) /\
    (Forall (fun w => char_at w 0 <> 84) ws -> created = false -> t = it_exptime i) /\
    (forall won' line', r = inr (won', line') ->
       (length line' <= length line + costs flag_costs (map (fun w => char_at w 0) ws))%nat /\
       (won' = true -> won = true \/ created = true \/ has_flag ITEM_TOKEN_SENT i = false)) /\
    (forall err, r = inl err -> err = opaque_too_long).
Proof.
  revert s i won line. induction ws as [|w ws IH]; intros s i won line Hp Hi; cbn [map mget_flags].
  { exists (inr (won, line)), (it_exptime i). rewrite set_exptime_same, with_heap_id by done. split; [done|]. split; [done|].
    split; [|done]. intros won' line' [= <- <-]. simpl. split; [lia|auto]. }
  cbn [word_token tok_value tok_length deref]. rewrite ret_bind, (get_item_ok _ _ _ Hp), ret_bind.
  assert (forall x won1, exists r t, mget_flags srv (map word_token ws) fl created p won1 line (with_heap (<[p := set_exptime x i]> (heap s)) s) =
      Ret (r, with_heap (<[p := set_exptime t i]> (heap s)) s) /\
    (forall won' line', r = inr (won', line') ->
       (length line' <= length line + costs flag_costs (char_at w 0 :: map (fun w => char_at w 0) ws))%nat /\
       (won' = true -> won1 = true \/ created = true \/ has_flag ITEM_TOKEN_SENT i = false)) /\
    (forall err, r = inl err -> err = opaque_too_long)) as Hstep.
  { intros x won1. destruct (IH (with_heap (<[p := set_exptime x i]> (heap s)) s) (set_exptime x i) won1 line) as (r & t & E & _ & Hr & He);
      [apply lookup_insert_eq|by destruct Hi; split|].
    exists r, t. split; [rewrite E; f_equal; f_equal; unfold with_heap; cbn [heap]; by rewrite insert_insert_eq|]. split; [|exact He].
    intros won' line' ->. destruct (Hr _ _ eq_refl) as [H1 H2]. cbn [costs foldr]. fold (costs flag_costs (map (fun w => char_at w 0) ws)).
    split; [lia|]. exact H2. }
  assert (forall won1 add, (length add <= flag_cost (char_at w 0))%nat ->
     (won1 = true -> won = true \/ created = true \/ has_flag ITEM_TOKEN_SENT i = false) ->
     exists r t, mget_flags srv (map word_token ws) fl created p won1 (line ++ add) s =
        Ret (r, with_heap (<[p := set_exptime t i]> (heap s)) s) /\
     (Forall (fun w => char_at w 0 <> 84) (w :: ws) -> created = false -> t = it_exptime i) /\
     (forall won' line', r = inr (won', line') ->
       (length line' <= length line + costs flag_costs (char_at w 0 :: map (fun w => char_at w 0) ws))%nat /\
       (won' = true -> won = true \/ created = true \/ has_flag ITEM_TOKEN_SENT i = false)) /\
     (forall err, r = inl err -> err = opaque_too_long)) as Hadd.
  { intros won1 add Hlen Hwon. destruct (IH s i won1 (line ++ add) Hp Hi) as (r & t & E & Ht & Hr & He). exists r, t. split; [done|].
    split; [intros H; apply Ht; by inversion H|]. split; [|exact He]. intros won' line' ->. destruct (Hr _ _ eq_refl) as [H1 H2]. cbn [costs foldr]. fold (costs flag_costs (map (fun w => char_at w 0) ws)).
    rewrite length_app in H1. unfold flag_cost in Hlen. split; [lia|]. intros Hw. destruct (H2 Hw) as [?|?]; auto. }
  assert (forall c, (length (@nil Z) <= flag_cost c)%nat) as H0 by (intros; simpl; lia).
  unfold is_flag. case_bool_decide as HT.
  { assert (84 = char_at w 0) as HT' by (by injection HT). rewrite (upd_item_ok _ _ _ _ Hp), ret_bind. destruct (Hstep (of_exptime fl) won) as (r & t & E & Hr).
    exists r, t. split; [exact E|]. split; [intros H; inversion H; congruence|exact Hr]. }
  case_bool_decide as HN.
  { destruct created eqn:Hc.
    - rewrite (upd_item_ok _ _ _ _ Hp), ret_bind. destruct (Hstep (of_autoviv_exptime fl) true) as (r & t & E & Hr).
      exists r, t. split; [exact E|]. split; [done|]. destruct Hr as [Hr He]. split; [|exact He].
      intros won' line' ->. destruct (Hr _ _ eq_refl) as [H1 H2]. split; [exact H1|]. auto.
    - destruct (Hadd won [] (H0 _)) as (r & t & E & H); [by left|]. rewrite app_nil_r in E. by exists r, t. }
  case_bool_decide as HR.
  { destruct (Hadd (won || wins_recache fl created i) [] (H0 _)) as (r & t & E & H); [|rewrite app_nil_r in E; by exists r, t].
    intros [->|Hw]%orb_true_iff; [by left|]. right. right. unfold wins_recache in Hw. by destruct (has_flag ITEM_TOKEN_SENT i). }
  case_bool_decide as HO.
  { assert (79 = char_at w 0) as HO' by (by injection HO). case_match eqn:Hlong.
    - exists (inl opaque_too_long), (it_exptime i). rewrite set_exptime_same, with_heap_id by done. split; [done|]. split; [done|]. split; [done|]. by intros err [= <-].
    - apply (Hadd won ([32] ++ w)); [|by left]. apply Nat.ltb_ge in Hlong. unfold MFLAG_MAX_OPAQUE_LENGTH in Hlong.
      rewrite <- HO'. change (flag_cost 79) with 33%nat. simpl. lia. }
  destruct (show_flag_ok i (char_at w 0) Hi) as (part & -> & Hpart). rewrite ret_bind. apply (Hadd won (default [] part) Hpart). by left.
Qed.
End Answers.

(** ** The answer to a meta get *)

Lemma flag_tokens_ok ws rest : (2 <= length ws)%nat -> flag_tokens (map word_token ws ++ [mkToken rest 0]) = map word_token (drop 2 ws).
Proof.
  intros Hl. unfold flag_tokens. rewrite length_app, length_map. cbn [length]. rewrite drop_app_le by (rewrite length_map; lia).
  rewrite take_app_le by (rewrite length_drop, length_map; lia). rewrite take_ge by (rewrite length_drop, length_map; lia).
  change (drop 2 (word_token <$> ws) = word_token <$> drop 2 ws). symmetry. apply fmap_drop.
Qed.

(** The response of a hit. *)
Definition hit_resp (fl : meta_flags) (p : positive) (v : value) (line wb : list Z) : mc_resp :=
  mkResp (IovBuf line :: (if of_value fl then [if v_chunked v then IovChunked p (v_nbytes v) else IovItem p (v_nbytes v)] else []))
    (Some p) false wb.

Section Hit.
Context {T : Type} {table_ops : ItemTable T} {slabs : SlabAllocator} {node_hash : NodeHash} (hash : list Z -> Z).
Context {table_laws : ItemTableLaws hash T} {slab_laws : SlabAllocatorLaws} (srv : server_settings).
Implicit Types (s : store T) (w : world T) (m : gmap (list Z) positive) (refs : positive -> Z).

Let cfg := base_settings srv.

Lemma out_errstring_ok str w rs r :
  c_resps (w_conn w) = rs ++ [r] -> resp_item r = None -> (length str <= 1000)%nat ->
  exists w', out_errstring str w = Ret w' /\ c_resps (w_conn w') = rs ++ [answer false str] /\
    w_store w' = w_store w /\ w_tree w' = w_tree w /\ w_stderr w' = w_stderr w.
Proof.
  intros H Hi Hl. unfold out_errstring. rewrite (out_string_ok str _ rs r) by done. eexists. split; [reflexivity|]. done.
Qed.

Lemma mget_head_length fl i : (length (mget_head srv fl i) <= 23)%nat.
Proof.
  unfold mget_head. destruct (of_value fl); [|destruct (meta_response_old srv); simpl; lia].
  rewrite length_app. pose proof (itoa_u32_length (u32 (it_nbytes i - 2)) (u32_range _)). simpl. lia.
Qed.

Lemma token_marks_length i won : (length (token_marks i won) <= 6)%nat.
Proof. unfold token_marks. repeat case_match; simpl; lia. Qed.

Context (e : senv) (w : world T) (m : gmap (list Z) positive) (lru : Z -> list positive) (refs : positive -> Z).
Context (ws : list (list Z)) (rest : option (list Z)) (fl : meta_flags) (created : bool) (p : positive) (i : item).
Context (rs : list mc_resp) (wb : list Z).
Context (R : store_rep hash (w_store w) m lru refs) (Hp : heap (w_store w) !! p = Some i) (Hi : plain_value (value_of i)).
Context (Hheld : 0 < refs p) (Hb : below 1 refs) (Hws : (2 <= length ws)%nat).
Context (Hnd : NoDup (map (fun x : list Z => char_at x 0) (drop 2 ws))).
Context (Hresps : c_resps (w_conn w) = rs ++ [mkResp [] None false wb]).

(** The store when the flags have been handled. *)
Let touched (t : Z) : store T := with_heap (<[p := set_exptime t i]> (heap (w_store w))) (w_store w).

Lemma touched_ok t : store_rep hash (touched t) m lru refs /\ keeps_but p (heap (w_store w)) (heap (touched t)) /\
  heap (touched t) !! p = Some (set_exptime t i).
Proof.
  split; [|split; [|apply lookup_insert_eq]].
  - apply (store_rep_upd' hash (w_store w) m lru refs p i (set_exptime t)); try done. by destruct (sr_refs _ _ _ _ _ R p i Hp) as (_ & _ & _ & ?).
  - intros q j Hq E. simpl in E. rewrite lookup_insert_ne in E by done. by exists j.
Qed.

Lemma mget_answer_ok : exists w' lru' refs' t,
  mget_answer srv e (map word_token ws ++ [mkToken rest 0]) fl created p w = Ret w' /\
  store_rep hash (w_store w') m lru' refs' /\ w_tree w' = w_tree w /\ w_stderr w' = w_stderr w /\
  keeps_but p (heap (w_store w)) (heap (w_store w')) /\ same_globals (w_store w) (w_store w') /\
  (forall q, q <> p -> refs' q = refs q) /\
  (Forall (fun x : list Z => char_at x 0 <> 84) (drop 2 ws) -> created = false -> t = it_exptime i) /\
  (forall i', heap (w_store w') !! p = Some i' -> value_of i' = with_exptime t (value_of i)) /\
  ((exists err, c_resps (w_conn w') = rs ++ [answer false err] /\ refs' p = refs p - 1 /\
      exists s', mget_flags srv (map word_token (drop 2 ws)) fl created p false (mget_head srv fl i) (w_store w) = Ret (inl err, s')) \/
   (exists line, c_resps (w_conn w') = rs ++ [hit_resp fl p (value_of i) line wb] /\
      refs p <= refs' p <= refs p + (if of_locked fl then 1 else 0) /\ (length line <= 550)%nat /\
      exists won start s', mget_flags srv (map word_token (drop 2 ws)) fl created p false (mget_head srv fl i) (w_store w) = Ret (inr (won, start), s') /\
        line = start ++ token_marks (set_exptime t i) won ++ crlf)).
Proof.
  unfold mget_answer. rewrite (get_item_ok _ _ _ Hp), ret_bind, flag_tokens_ok by done.
  destruct (mget_flags_ok srv fl created p i (drop 2 ws) (w_store w) false (mget_head srv fl i) Hp Hi) as (r & t & Efl & Ht & Hr & He). rewrite Efl.
  rewrite ret_bind. fold (touched t). destruct (touched_ok t) as (R1 & K1 & Hp1). set (i1 := set_exptime t i) in *.
  destruct r as [err|[won line]].
  { rewrite (He err eq_refl). unfold on_store. change (w_store (with_store (touched t) w)) with (touched t).
    destruct (release hash (touched t) m lru refs p R1 Hheld) as (s2 & -> & R2 & K2 & G2). rewrite !ret_bind.
    destruct (out_errstring_ok opaque_too_long (with_store s2 (with_store (touched t) w)) rs _ Hresps eq_refl) as (w' & -> & C & S & Tr & E);
      [vm_compute; lia|].
    exists w', lru, (set_refs p (refs p - 1) refs), t. rewrite S. split; [done|]. split; [exact R2|]. split; [exact Tr|]. split; [exact E|].
    split; [eapply keeps_but_trans; [exact K1|by apply keeps_keeps_but]|]. split; [exact G2|]. split; [intros; by apply set_refs_ne|].
    split; [exact Ht|]. split; [intros i' Hi'; destruct (K2 p i' Hi') as (x & Ex & ->); assert (x = i1) as -> by congruence; done|].
    left. eexists. split; [exact C|]. split; [apply set_refs_eq|]. rewrite <- (He err eq_refl). by eexists. }
  destruct (Hr _ _ eq_refl) as [Hlen _]. change (w_store (with_store (touched t) w)) with (touched t).
  rewrite (get_item_ok _ _ _ Hp1), ret_bind. set (line' := line ++ token_marks i1 won ++ crlf).
  assert (length line' <= 550)%nat as Hl.
  { unfold line'. rewrite !length_app. pose proof (token_marks_length i1 won). pose proof (mget_head_length fl i).
    pose proof (costs_nodup flag_costs _ Hnd) as Hc. change (foldr (fun e n => (e.2 + n)%nat) 0%nat flag_costs) with 486%nat in Hc.
    change (length crlf) with 2%nat. lia. }
  assert (exists s2, (if mget_wins i1 won then on_store (upd_item p (raise_flag ITEM_TOKEN_SENT)) (with_store (touched t) w)
      else Ret (with_store (touched t) w)) = Ret (with_store s2 w) /\ store_rep hash s2 m lru refs /\
      keeps (heap (touched t)) (heap s2) /\ same_globals (touched t) s2) as (s2 & -> & R2 & K2 & G2).
  { destruct (mget_wins i1 won); [|exists (touched t); auto using keeps_refl, same_globals_refl].
    destruct (invisible_upd hash _ (touched t) m lru refs p i1 (invisible_raise 9 ltac:(lia)) R1 Hp1) as (s2 & E & R2 & K2 & G2 & _).
    exists s2. unfold on_store. change (w_store (with_store (touched t) w)) with (touched t). change ITEM_TOKEN_SENT with (2 ^ 9). rewrite E, ret_bind. done. }
  rewrite ret_bind. unfold WRITE_BUFFER_SIZE. rewrite (proj2 (Z.ltb_ge _ _)) by lia.
  rewrite (resp_add_iov_ok _ (with_store s2 w) rs _ Hresps) by (simpl; lia). rewrite ret_bind.
  set (w3 := upd_conn _ (with_store s2 w)). assert (c_resps (w_conn w3) = rs ++ [mkResp [IovBuf line'] None false wb]) as C3 by done.
  assert (exists w4, (if of_value fl then if has_flag ITEM_CHUNKED i1 then resp_add_chunked_iov p (it_nbytes i1) w3
      else resp_add_iov (IovItem p (it_nbytes i1)) w3 else Ret w3) = Ret w4 /\ w_store w4 = s2 /\ w_tree w4 = w_tree w /\ w_stderr w4 = w_stderr w /\
      c_resps (w_conn w4) = rs ++ [mkResp (resp_iov (hit_resp fl p (value_of i) line' wb)) None false wb]) as (w4 & -> & S4 & T4 & E4 & C4).
  { unfold resp_add_chunked_iov, hit_resp. cbn [resp_iov]. change (v_chunked (value_of i)) with (has_flag ITEM_CHUNKED i1).
    change (v_nbytes (value_of i)) with (it_nbytes i1).
    destruct (of_value fl); [|by exists w3]. destruct (has_flag ITEM_CHUNKED i1); rewrite (resp_add_iov_ok _ w3 rs _ C3) by (simpl; lia); by eexists. }
  rewrite ret_bind, (upd_resp_ok _ w4 rs _ C4), ret_bind. cbn [resp_iov resp_item resp_skip resp_wbuf].
  destruct (store_held _ _ _ _ _ p R2 Hheld) as (i2 & Hp2). destruct (K2 p i2 Hp2) as (x & Ex & V2). assert (x = i1) as -> by congruence.
  destruct (sr_refs _ _ _ _ _ R2 p i2 Hp2) as (Er & _). pose proof (Hb p) as Hbp. unfold IT_REFCOUNT_LIMIT in Hbp.
  set (w5 := upd_conn _ w4).
  assert (exists s5 lru5 refs5, (if of_locked fl && negb (of_no_update fl) then on_store (do_item_bump cfg (queued (item_env e)) p) w5 else Ret w5)
      = Ret (with_store s5 w5) /\ store_rep hash s5 m lru5 refs5 /\ keeps (heap s2) (heap s5) /\ same_globals s2 s5 /\
      (forall q, q <> p -> refs5 q = refs q) /\ refs p <= refs5 p <= refs p + (if of_locked fl then 1 else 0)) as (s5 & lru5 & refs5 & E5 & R5 & K5 & G5 & Q5 & P5).
  { destruct (of_locked fl && negb (of_no_update fl)) eqn:El.
    - unfold on_store. change (w_store w5) with (w_store w4). rewrite S4.
      destruct (do_item_bump_ok hash cfg (queued (item_env e)) s2 m lru refs p i2 R2 Hp2) as (s5 & lru5 & -> & R5 & K5 & G5); [case_match; lia|].
      exists s5, lru5, (bump_refs cfg (queued (item_env e)) p i2 refs). rewrite ret_bind. split; [done|]. split; [done|]. split; [done|]. split; [done|].
      apply andb_true_iff in El as [-> _]. unfold bump_refs. destruct (_ && _ && _ && _ && _); [|split; [done|lia]]. rewrite set_refs_eq. split; [|lia]. intros. by apply set_refs_ne.
    - exists s2, lru, refs. split; [unfold with_store; change (w_conn w5) with (w_conn w5); replace s2 with (w_store w5) by exact S4; by destruct w5|].
      split_and!; auto using keeps_refl, same_globals_refl; destruct (of_locked fl); lia. }
  fold cfg. rewrite E5, ret_bind.
  destruct (store_held _ _ _ _ _ p R5) as (i5 & Hp5); [lia|]. destruct (K5 p i5 Hp5) as (y & Ey & V5). assert (y = i2) as -> by congruence.
  eexists _, lru5, refs5, t. split; [reflexivity|]. split; [exact R5|]. split; [exact T4|]. split; [exact E4|].
  split; [eapply keeps_but_trans; [exact K1|]; apply keeps_keeps_but; by eapply keeps_trans|].
  split; [eapply same_globals_trans; [exact G2|exact G5]|]. split; [exact Q5|]. split; [exact Ht|].
  split; [intros i' Hi'; assert (i' = i5) as -> by (simpl in Hi'; congruence); by rewrite V5, V2|]. right.
  exists line'. split; [reflexivity|]. split; [exact P5|]. split; [exact Hl|]. by exists won, line, (touched t).
Qed.
End Hit.

(** ** Fetching and creating *)

Section Fetch.
Context {T : Type} {table_ops : ItemTable T} {slabs : SlabAllocator} (hash : list Z -> Z).
Context {table_laws : ItemTableLaws hash T} {slab_laws : SlabAllocatorLaws} (cfg : settings).
Context (no_repair : tail_repair_time cfg = 0).
Implicit Types (s : store T) (m : gmap (list Z) positive) (refs : positive -> Z).

(** What a lookup does to the store: [upd] says whether it bumps the item. *)
Definition fetched (k : list Z) s m refs (upd : bool) (r : option positive) s' m' lru' refs' : Prop :=
  store_rep hash s' m' lru' refs' /\ keeps (heap s) (heap s') /\ same_globals s s' /\ m' ⊆ m /\
  (forall k', k' <> k -> m' !! k' = m !! k') /\ m' !! k = r /\
  live_at cfg s m k = match r with Some p => value_of <$> heap s !! p | None => None end /\
  (forall q, r <> Some q -> refs' q = refs q) /\
  (forall p, r = Some p -> m' = m /\ refs p + 1 <= refs' p <= refs p + (if upd then 2 else 1)).

Lemma fetch_ok s m lru refs k (upd queued : bool) : store_rep hash s m lru refs -> below 3 refs ->
  exists r s' m' lru' refs', do_item_get cfg k (hash k) upd queued s = Ret (r, s') /\ fetched k s m refs upd r s' m' lru' refs'.
Proof.
  intros R Hb. unfold fetched, live_at. destruct (m !! k) as [p|] eqn:Hk.
  - destruct (store_linked _ _ _ _ _ _ _ R Hk) as (i & Hp & Hki & Hl). rewrite Hp.
    destruct (sr_refs _ _ _ _ _ R p i Hp) as (Er & E0 & _). specialize (Hb p). unfold IT_REFCOUNT_LIMIT in Hb. rewrite Hl in Er.
    destruct (do_item_get_some hash cfg s m lru refs k p i upd queued R Hk Hp) as (s' & lru' & E & R' & K & G); [lia|].
    destruct (live cfg i).
    + exists (Some p), s', m, lru', (if upd then bump_refs cfg queued p i (set_refs p (refs p + 1) refs) else set_refs p (refs p + 1) refs).
      rewrite Hp. split; [done|]. split_and!; try done; try by destruct G.
      * intros q Hq. assert (q <> p) by congruence. unfold bump_refs. repeat case_match; by rewrite ?set_refs_ne.
      * intros p' [= <-]. split; [done|]. unfold bump_refs. destruct upd; [|rewrite set_refs_eq; lia].
        destruct (_ && _ && _ && _ && _); rewrite ?set_refs_eq; lia.
    + exists None, s', (base.delete k m), lru', refs. split; [done|]. split_and!; try done; try by destruct G.
      * apply delete_subseteq.
      * intros k' Hk'. by rewrite lookup_delete_ne.
      * apply lookup_delete_eq.
  - exists None, s, m, lru, refs. rewrite (do_item_get_none hash cfg s m lru refs) by done.
    split; [done|]. split_and!; auto using keeps_refl; done.
Qed.

(** Values in the range of their types, long enough to be no crawlers, with all their bytes. *)
Definition tidy_value (v : value) : Prop :=
  plain_value v /\ 2 <= v_nbytes v /\ (v_chunked v = false -> Z.of_nat (length (v_data v)) = v_nbytes v).
Definition tidy s m : Prop := forall k v, value_at s m k = Some v -> tidy_value v.

Lemma tidy_exptime t v : tidy_value v -> tidy_value (with_exptime t v).
Proof. by intros [[] ?]. Qed.

Lemma tidy_no_crawler s m : tidy s m -> no_crawler s m.
Proof. intros H k p i Hk Hp. destruct (H k (value_of i)) as (_ & ? & _); [unfold value_at; by rewrite Hk, Hp|done]. Qed.

Lemma tidy_keeps s s' m m' : tidy s m -> keeps (heap s) (heap s') -> m' ⊆ m -> tidy s' m'.
Proof.
  intros H K Hm k v Hv. apply (H k v). unfold value_at in *. destruct (m' !! k) as [p|] eqn:Hk; [|done].
  rewrite (lookup_weaken _ _ _ _ Hk Hm). destruct (heap s' !! p) as [i'|] eqn:Hp; [|done]. destruct (K p i' Hp) as (i & -> & V). simpl in *. by rewrite <- V.
Qed.

(** One item has changed, and its new value is in order. *)
Lemma tidy_but s s' m m' p : tidy s m -> keeps_but p (heap s) (heap s') -> (forall k q, m' !! k = Some q -> q <> p -> m !! k = Some q) ->
  (forall i', heap s' !! p = Some i' -> tidy_value (value_of i')) -> tidy s' m'.
Proof.
  intros H K Hm Hi k v Hv. unfold value_at in Hv. destruct (m' !! k) as [q|] eqn:Hk; [|done].
  destruct (heap s' !! q) as [i'|] eqn:Hq; [|done]. injection Hv as <-. destruct (decide (q = p)) as [->|Hne]; [by apply Hi|].
  destruct (K q i' Hne Hq) as (i & Ei & ->). apply (H k). unfold value_at. by rewrite (Hm k q Hk Hne), Ei.
Qed.
End Fetch.

(** ** The whole command *)

Section Mget.
Context {T : Type} {table_ops : ItemTable T} {slabs : SlabAllocator} {node_hash : NodeHash} (hash : list Z -> Z).
Context {table_laws : ItemTableLaws hash T} {slab_laws : SlabAllocatorLaws} (srv : server_settings).
Context (no_repair : tail_repair_time (base_settings srv) = 0).
Implicit Types (s : store T) (w : world T) (m : gmap (list Z) positive) (refs : positive -> Z).

Let cfg := base_settings srv.
Context (Hslab : 400 <= slab_chunk_size_max cfg).

(** The item a miss creates, if there is memory. *)
Definition vivified (k : list Z) s m refs (r : option positive) s' m' lru' : Prop :=
  m' ⊆ m /\
  match r with
  | None => store_rep hash s' m' lru' refs /\ keeps (heap s) (heap s') /\ same_globals s s'
  | Some p => store_rep hash s' (<[k := p]> m') lru' (set_refs p 1 refs) /\ keeps_but p (heap s) (heap s') /\ refs p = 0 /\
      (forall k', m' !! k' <> Some p) /\ total_items s' = u64 (total_items s + 1) /\
      exists i, heap s' !! p = Some i /\ tidy_value (value_of i) /\ it_data i = crlf
  end.

Lemma vivify_ok e k s m lru refs : store_rep hash s m lru refs -> below 3 refs -> tidy s m -> m !! k = None -> (length k <= 250)%nat ->
  exists r s' m' lru', mget_vivify hash srv e k s = Ret (r, s') /\ vivified k s m refs r s' m' lru'.
Proof.
  intros R Hb Ht Hk Hlen. unfold mget_vivify, vivified. fold cfg.
  destruct (do_item_alloc_ok hash cfg (holding (hash k) e) no_repair k 0 (realtime srv 0) 2 s m lru refs (below_room 3 refs Hb ltac:(lia)) R
    (tidy_no_crawler s m Ht)) as (r & s1 & -> & A & _). rewrite ret_bind.
  destruct r as [p|]; [|destruct A as (m1 & lru1 & R1 & [D1 _] & K1 & G1); exists None, s1, m1, lru1; split_and!; try done; apply G1].
  destruct A as (m1 & lru1 & i & R1 & [D1 _] & Hr0 & Hm1 & K1 & G1 & Hp1 & [F1 F2 F3 F4 F5 F6 F7 F8 F9 F10 F11]).
  rewrite (small_item cfg k 0 2) in F9, F10 by (done || lia).
  destruct (write_ok hash s1 m1 lru1 _ p i 0 crlf 2 R1 Hp1 F9 eq_refl) as (s2 & -> & R2 & K2 & Hp2 & G2); [rewrite F10; simpl; lia|].
  rewrite ret_bind. set (i2 := set_data _ i) in Hp2.
  assert (it_data i2 = crlf) as Hd2.
  { unfold i2, splice. simpl. rewrite drop_ge by (rewrite F10; simpl; lia). done. }
  destruct (do_item_link_ok hash cfg s2 m1 lru1 (set_refs p 1 refs) p i2 R2 Hp2) as (s3 & lru3 & i3 & E3 & R3 & K3 & Hp3 & V3 & T3).
  { done. }
  { change (item_key i2) with (item_key i). rewrite F1. destruct (m1 !! k) as [x|] eqn:E; [|done]. rewrite (lookup_weaken _ _ _ _ E D1) in Hk. done. }
  { change (it_refcount i2) with (it_refcount i). lia. }
  change (item_key i2) with (item_key i) in E3, R3. rewrite F1 in E3, R3. rewrite E3, ret_bind.
  exists (Some p), s3, m1, lru3. split; [done|]. split; [done|]. split; [exact R3|].
  split; [eapply keeps_but_trans; [exact K1|eapply keeps_but_trans; [exact K2|exact K3]]|]. split; [done|]. split; [done|].
  split; [by rewrite T3, (proj1 G2), (proj1 G1)|]. exists i3. split; [exact Hp3|].
  pose proof (new_cas_range cfg s2).
  split; [|rewrite <- Hd2; exact (f_equal v_data V3)]. rewrite V3. split; [split; simpl|split; [simpl|]].
  - by rewrite F1.
  - change (FLAGS_CONV i2) with (FLAGS_CONV i). rewrite F8. lia.
  - case_match; lia.
  - rewrite F2. lia.
  - intros _. change (Z.of_nat (length (it_data i2)) = it_nbytes i). by rewrite Hd2, F2.
Qed.

Section Fetched.
Context (e : senv) (w : world T) (m : gmap (list Z) positive) (lru : Z -> list positive) (refs : positive -> Z).
Context (ws : list (list Z)) (rest : option (list Z)) (fl : meta_flags) (k : list Z) (rs : list mc_resp) (wb : list Z).
Context (R : store_rep hash (w_store w) m lru refs) (Hb : below 3 refs) (Ht : tidy (w_store w) m) (Hk : (length k <= 250)%nat).
Context (Hws : (2 <= length ws)%nat) (Hnd : NoDup (map (fun x : list Z => char_at x 0) (drop 2 ws))).
Context (Hresps : c_resps (w_conn w) = rs ++ [mkResp [] None false wb]).

(** The lookup, with or without the lock: the limit on references is not reached. *)
Lemma mget_lookup : exists r s' m' lru' refs',
  (if negb (of_locked fl) then limited_get hash cfg (item_env e) k 0 false (negb (of_no_update fl)) (w_store w)
   else limited_get_locked hash srv (item_env e) k false (w_store w)) = Ret (r, false, s') /\
  fetched hash cfg k (w_store w) m refs (negb (of_locked fl)) r s' m' lru' refs'.
Proof.
  unfold limited_get, limited_get_locked, item_get, item_get_locked. fold cfg.
  set (upd := negb (of_locked fl) && negb (of_no_update fl)).
  assert (forall b, b = upd -> exists r s' m' lru' refs', do_item_get cfg k (hash k) b (queued (item_env e)) (w_store w) = Ret (r, s') /\
    fetched hash cfg k (w_store w) m refs (negb (of_locked fl)) r s' m' lru' refs' /\
    forall p it, r = Some p -> heap s' !! p = Some it -> it_refcount it <= IT_REFCOUNT_LIMIT) as Hget.
  { intros b ->. destruct (fetch_ok hash cfg (w_store w) m lru refs k upd (queued (item_env e)) R Hb) as (r & s' & m' & lru' & refs' & E & F).
    exists r, s', m', lru', refs'. split; [done|]. destruct F as (F1 & F2 & F3 & F4 & F5 & F6 & F7 & F8 & F9). split.
    - split_and!; try done. intros p Hp. destruct (F9 p Hp) as [? H]. split; [done|]. unfold upd in H. by destruct (of_locked fl), (of_no_update fl); simpl in *; lia.
    - intros p it Hp Hit. destruct (F9 p Hp) as [-> H]. destruct (sr_refs _ _ _ _ _ F1 p it Hit) as (Er & _).
      specialize (Hb p). unfold IT_REFCOUNT_LIMIT in *. destruct (linked it), upd; lia. }
  assert (forall b, b = upd -> exists r s' m' lru' refs',
    ('(r, s) ← do_item_get cfg k (hash k) b (queued (item_env e)) (w_store w);
     match r with
     | Some p => it ← get_item p s; if IT_REFCOUNT_LIMIT <? it_refcount it then s ← do_item_remove p s; Ret (None, true, s) else Ret (Some p, false, s)
     | None => Ret (None, false, s) end) = Ret (r, false, s') /\
    fetched hash cfg k (w_store w) m refs (negb (of_locked fl)) r s' m' lru' refs') as Hlim.
  { intros b Hbu. destruct (Hget b Hbu) as (r & s' & m' & lru' & refs' & -> & F & Hc). rewrite ret_bind. exists r, s', m', lru', refs'.
    destruct r as [p|]; [|done]. destruct F as (F1 & F2). destruct F2 as (F2 & F3 & F4 & F5 & F6 & F7).
    destruct (sr_item _ _ _ _ _ F1 k p F6) as (it & Hit & _). rewrite (get_item_ok _ _ _ Hit), ret_bind.
    rewrite (proj2 (Z.ltb_ge _ _)) by (by eapply Hc). done. }
  unfold upd in Hlim. destruct (of_locked fl); cbn [negb andb] in *; [by apply Hlim|]. by apply Hlim.
Qed.

(** What a meta get leaves: a consistent store, the tree and the reports as they were, and one
    response that holds a reference to the item it shows. *)
Definition mget_done w' : Prop := exists m' lru' refs' r,
  store_rep hash (w_store w') m' lru' refs' /\ tidy (w_store w') m' /\ (forall q, refs q <= refs' q <= refs q + 2) /\
  w_tree w' = w_tree w /\ w_stderr w' = w_stderr w /\ c_resps (w_conn w') = rs ++ [r] /\
  (forall p, resp_item r = Some p -> refs p < refs' p).

Lemma mget_fetch_ok : exists w', mget_fetch hash srv e (map word_token ws ++ [mkToken rest 0]) fl k w = Ret w' /\ mget_done w'.
Proof.
  unfold mget_fetch. destruct mget_lookup as (r & s1 & m1 & lru1 & refs1 & E1 & F1 & K1 & G1 & D1 & O1 & L1 & _ & N1 & P1). fold cfg.
  rewrite E1, ret_bind. assert (tidy s1 m1) as Ht1 by (by eapply tidy_keeps).
  assert (forall p i s2 m2 lru2 refs2 created, store_rep hash s2 m2 lru2 refs2 -> heap s2 !! p = Some i -> tidy s2 m2 -> m2 !! k = Some p ->
    (forall q, q <> p -> refs2 q = refs q) -> refs p + 1 <= refs2 p <= refs p + (if of_locked fl then 1 else 2) ->
    exists w', mget_answer srv e (map word_token ws ++ [mkToken rest 0]) fl created p (with_store s2 w) = Ret w' /\ mget_done w') as Hans.
  { intros p i s2 m2 lru2 refs2 created R2 Hp2 Ht2 Hk2 Hq2 Hr2. pose proof (Ht2 k (value_of i) ltac:(unfold value_at; by rewrite Hk2, Hp2)) as Htv. pose proof (proj1 Htv) as Hpl.
    destruct (sr_refs _ _ _ _ _ R2 p i Hp2) as (_ & Hr0 & _).
    assert (0 <= refs p) as Hrp. { destruct (heap (w_store w) !! p) as [x|] eqn:Ex; [apply (sr_refs _ _ _ _ _ R p x Ex)|by rewrite (sr_free _ _ _ _ _ R p Ex)]. }
    destruct (mget_answer_ok hash srv e (with_store s2 w) m2 lru2 refs2 ws rest fl created p i rs wb R2 Hp2 Hpl) as
      (w' & lru' & refs' & t & E & R' & T' & S' & K' & G' & Q' & _ & V' & Hres); try done; [lia| |].
    { intros q. specialize (Hb q). destruct (decide (q = p)) as [->|Hne]; [|rewrite Hq2 by done; lia]. destruct (of_locked fl); lia. }
    exists w'. split; [exact E|]. assert (forall q, q <> p -> refs' q = refs q) as Hq' by (intros; rewrite Q', Hq2; done).
    assert (tidy (w_store w') m2) as Ht'.
    { eapply tidy_but; [exact Ht2|exact K'|done|]. intros i' Hi'. rewrite (V' i' Hi').
      by apply tidy_exptime. }
    assert (refs p <= refs' p <= refs p + 2) as Hp'.
    { destruct Hres as [(_ & _ & P' & _)|(_ & _ & P' & _)]; destruct (of_locked fl); lia. }
    assert (forall q, refs q <= refs' q <= refs q + 2) as Hall by (intros q; destruct (decide (q = p)) as [->|Hne]; [done|rewrite Hq' by done; lia]).
    destruct Hres as [(err & C' & P' & _)|(line & C' & P' & _)].
    - exists m2, lru', refs', (answer false err). split_and!; try done.
    - exists m2, lru', refs', (hit_resp fl p (value_of i) line wb). split_and!; try done. intros p' [= <-]. lia. }
  destruct r as [p|].
  { destruct (P1 p eq_refl) as [-> Hr]. destruct (sr_item _ _ _ _ _ F1 k p L1) as (i & Hi & _).
    apply (Hans p i s1 m lru1 refs1 false); try done; [intros q Hq; apply N1; congruence|]. destruct (of_locked fl); simpl in Hr; lia. }
  assert (forall q, refs1 q = refs q) as Hrefs by (intros; by apply N1).
  assert (store_rep hash s1 m1 lru1 refs) as R1 by (by eapply store_rep_refs). clear refs1 F1 N1 P1 Hrefs.
  assert (exists r s2 m2 lru2, (if of_vivify fl then mget_vivify hash srv (item_env e) k (w_store (with_store s1 w)) else Ret (None, w_store (with_store s1 w)))
      = Ret (r, s2) /\ vivified k s1 m1 refs r s2 m2 lru2) as (r & s2 & m2 & lru2 & -> & D2 & V2).
  { change (w_store (with_store s1 w)) with s1. destruct (of_vivify fl); [by apply (vivify_ok _ k s1 m1 lru1)|].
    exists None, s1, m1, lru1. split; [done|]. split; [done|]. auto using keeps_refl, same_globals_refl. }
  rewrite ret_bind. destruct r as [p|].
  - destruct V2 as (R2 & K2 & Hr2 & Hm2 & _ & i & Hi & Htv & _).
    apply (Hans p i s2 (<[k := p]> m2) lru2 (set_refs p 1 refs)); try done.
    + eapply tidy_but; [exact Ht1|exact K2| |intros i' Hi'; assert (i' = i) as -> by congruence; done].
      intros k' q. destruct (decide (k' = k)) as [->|Hne]; [rewrite lookup_insert_eq; congruence|]. rewrite lookup_insert_ne by done.
      intros Hq _. by apply (lookup_weaken _ _ _ _ Hq).
    + apply lookup_insert_eq.
    + intros q Hq. by apply set_refs_ne.
    + rewrite set_refs_eq. destruct (of_locked fl); lia.
  - destruct V2 as (R2 & K2 & G2). rewrite (out_string_ok (text "EN") (with_store s2 (with_store s1 w)) rs _ Hresps eq_refl) by (vm_compute; lia).
    eexists. split; [reflexivity|]. exists m2, lru2, refs. eexists. split; [exact R2|]. split; [by eapply tidy_keeps|].
    split; [intros; lia|]. split; [done|]. split; [done|]. split; [reflexivity|]. intros p'. by destruct (c_noreply _).
Qed.
End Fetched.

(** A meta get of any line. *)
Lemma process_mget_ok e w m lru refs ws rest rs wb :
  store_rep hash (w_store w) m lru refs -> below 3 refs -> tidy (w_store w) m -> Forall (fun x => x <> []) ws ->
  c_resps (w_conn w) = rs ++ [mkResp [] None false wb] ->
  exists w', process_mget_command hash srv e (map word_token ws ++ [mkToken rest 0]) w = Ret w' /\ mget_done w refs rs w'.
Proof.
  intros R Hb Ht Hne Hresps.
  assert (forall str f, (length str <= 100)%nat -> (forall c, c_resps (f c) = c_resps c) ->
    exists w', out_string str (upd_conn f w) = Ret w' /\ mget_done w refs rs w') as Hout.
  { intros str f Hl Hf. rewrite (out_string_ok str (upd_conn f w) rs (mkResp [] None false wb)); [|simpl; by rewrite Hf|done|lia].
    eexists. split; [reflexivity|]. exists m, lru, refs. eexists. split; [exact R|]. split; [done|]. split; [intros; lia|].
    split; [done|]. split; [done|]. split; [reflexivity|]. intros p'. by destruct (c_noreply _). }
  assert (forall str, (length str <= 100)%nat -> exists w', out_errstring str w = Ret w' /\ mget_done w refs rs w') as Herr
    by (intros str Hl; by apply Hout).
  unfold process_mget_command. rewrite length_app, length_map. cbn [length].
  destruct (Nat.ltb_spec (length ws + 1) 3) as [|H3].
  { destruct (Hout (text "ERROR") (fun c => c)) as (w' & E & Hd); [vm_compute; lia|done|]. exists w'. split; [|done]. rewrite <- E. f_equal. by destruct w. }
  destruct ws as [|cmd [|key flags]]; [simpl in H3; lia..|]. cbn [map app lookup list_lookup deref]. rewrite ret_bind. cbn [word_token tok_length].
  unfold KEY_MAX_LENGTH. destruct (Z.ltb_spec 250 (Z.of_nat (length key))); [apply Herr; vm_compute; lia|].
  destruct (_ =? 3)%nat; [apply Herr; vm_compute; lia|]. destruct (_ <? _)%nat; [apply Herr; vm_compute; lia|].
  destruct (preparse_ok srv (cmd :: key :: flags) rest key 2 no_flags bad_line) as (ok & pp & E & (Hkt & Hel) & Hnd); try done; [lia|simpl; lia|vm_compute; lia|].
  cbn [map app] in E. rewrite E, ret_bind. destruct ok; cbn [negb]; [|apply Herr; lia]. destruct (key_string_ok _ Hkt) as (k & -> & Hk). rewrite ret_bind.
  destruct (mget_fetch_ok e (upd_conn (with_noreply (of_no_reply (pp_of pp))) w) m lru refs (cmd :: key :: flags) rest (pp_of pp) k rs wb) as (w' & E' & H'); try done.
  { simpl. lia. } { by apply Hnd. }
  exists w'. split; [exact E'|exact H'].
Qed.
End Mget.
