(* ===== verification/MetaTheorems.v ===== *)
(** * What the meta commands do to the protection

    Meta gets are safe on any line but never ask the Merkle tree; the items the meta commands create
    have no leaf; a meta delete ignores the CAS number it is given. *)

From S2P Require Import AssocFacts.
From S2P Require Import Prelude Items LruFacts ItemsFacts ItemAlloc ItemAllocFacts Util Itoa Store StoreFacts.
From S2P Require Import DeltaFacts MtCrypto MtCryptoFacts MtArrayList MtArrayListFacts MerkleTree MerkleSpec MerkleFacts MerkleTheorems.
From S2P Require Import Aes128 Cmac CmacFacts Conn ProtoText ProtoFacts ServerFacts GetFacts ServerTheorems ProtoMeta MetaFacts.
From S2P Require Import Assoc ItemTableAssoc Samples.
From Stdlib Require Ascii String.
Import String.StringSyntax.

Local Open Scope string_scope.
Local Open Scope Z_scope.

Local Opaque AES_CMAC cmac mt_verify.

Section Meta.
Context {T : Type} {table_ops : ItemTable T} {slabs : SlabAllocator} {node_hash : NodeHash} (hash : list Z -> Z).
Context {table_laws : ItemTableLaws hash T} {slab_laws : SlabAllocatorLaws} (srv : server_settings).
Implicit Types (w : world T) (m : gmap (list Z) positive) (refs : positive -> Z).

Let cfg := base_settings srv.

(** C20: meta gets are safe.  On a consistent store, whatever the line of a meta get is, the handler
    returns: no assertion fails, the answer fits the write buffer however the flags are combined,
    the store stays consistent, every item keeps a reference as long as the response shows it, and
    neither the tree nor the reports change. *)
Theorem mget_safe (e : senv) (w : world T) (m : gmap (list Z) positive) (lru : Z -> list positive) (refs : positive -> Z)
    (line wb : list Z) (rs : list mc_resp) (Hrepair : tail_repair_time cfg = 0) (Hslab : 400 <= slab_chunk_size_max cfg)
    (Hline : is_string line) (R : store_rep hash (w_store w) m lru refs) (Hb : below 3 refs) (Ht : tidy (w_store w) m)
    (Hr : c_resps (w_conn w) = rs ++ [blank wb]) :
  exists w' m' lru' refs' r,
    process_mget_command hash srv e (tokenize_command line MAX_TOKENS) w = Ret w' /\
    store_rep hash (w_store w') m' lru' refs' /\ tidy (w_store w') m' /\ (forall q, refs q <= refs' q <= refs q + 2) /\
    w_tree w' = w_tree w /\ w_stderr w' = w_stderr w /\ c_resps (w_conn w') = rs ++ [r] /\
    (forall p, resp_item r = Some p -> refs p < refs' p).
Proof.
  destruct (tokenize_command_ok line MAX_TOKENS Hline) as (ts & rest & -> & _ & Hw & _); [unfold MAX_TOKENS; lia|].
  destruct (process_mget_ok hash srv Hrepair Hslab e w m lru refs ts rest rs wb R Hb Ht) as (w' & E & m' & lru' & refs' & r & H); [|done|].
  - pose proof (words_from_word [] line (Forall_nil_2 _)) as Hf. fold (words line) in Hf. rewrite Hw in Hf.
    apply Forall_app in Hf as [Hf _]. eapply Forall_impl; [exact Hf|]. by intros x [].
  - by exists w', m', lru', refs', r.
Qed.

(** The tokens of a line of words. *)
Definition line_tokens (ws : list (list Z)) : list token := map word_token ws ++ [mkToken None 0].

Lemma whole_plain it : whole (value_of it) -> (length (item_key it) <= 250)%nat -> plain_value (value_of it).
Proof. intros (_ & _ & _ & _ & H1 & H2) Hk. by split. Qed.

(** C34: meta gets bypass the tree.  The meta get of a live item returns its bytes and reports
    nothing, whatever the tree is, even if there is none: neither the code of the item nor its
    leaf is looked at. *)
Theorem meta_get_skips_verification (e : senv) (w : world T) (m : gmap (list Z) positive) (lru : Z -> list positive)
    (refs : positive -> Z) (k : list Z) (p : positive) (it : item) (wb : list Z) (rs : list mc_resp)
    (R : store_rep hash (w_store w) m lru refs) (Hb : below 3 refs) (Hk : m !! k = Some p)
    (Hp : heap (w_store w) !! p = Some it) (Hl : live cfg it = true) (Hw : whole (value_of it)) (Hr : get_ready w k rs wb) :
  exists w' r marks, process_mget_command hash srv e (line_tokens [text "mg"; k; text "v"]) w = Ret w' /\
    w_stderr w' = w_stderr w /\ c_resps (w_conn w') = rs ++ [r] /\ (length marks <= 6)%nat /\
    resp_bytes (w_store w') r = Ret (text "VA " ++ itoa_u32 (u32 (it_nbytes it - 2)) ++ marks ++ crlf ++ it_data it).
Proof.
  destruct Hr as [Hkl Hresps]. set (fl := set_value no_flags). set (w1 := upd_conn (with_noreply false) w).
  destruct (store_linked _ _ _ _ _ _ _ R Hk) as (x & Ex & Kx & _). assert (x = it) as -> by congruence.
  assert (process_mget_command hash srv e (line_tokens [text "mg"; k; text "v"]) w = mget_fetch hash srv e (line_tokens [text "mg"; k; text "v"]) fl k w1) as ->.
  { unfold process_mget_command, line_tokens. cbn [map app length Nat.ltb Nat.leb lookup list_lookup deref]. rewrite ret_bind.
    cbn [word_token tok_length]. unfold KEY_MAX_LENGTH. rewrite (proj2 (Z.ltb_ge _ _)) by lia. cbn [Nat.eqb].
    assert (meta_flag_preparse srv [word_token (text "mg"); word_token k; word_token (text "v"); mkToken None 0] 2 no_flags bad_line =
      Ret (true, mkPreparse fl bad_line (word_token k))) as -> by reflexivity.
    rewrite ret_bind. cbn [negb pp_of pp_key]. unfold key_string. cbn [word_token tok_value tok_length deref]. rewrite ret_bind, read_bytes_ok by lia.
    rewrite take_ge by lia. by rewrite ret_bind. }
  unfold mget_fetch. destruct (mget_lookup hash srv e w1 m lru refs [text "mg"; k] fl k R Hb) as (r & s1 & m1 & lru1 & refs1 & -> & F1 & K1 & G1 & D1 & O1 & L1 & V1 & N1 & P1);
    [lia|simpl; lia|].
  rewrite ret_bind. fold cfg in V1. unfold live_at in V1. change (w_store w1) with (w_store w) in *. rewrite Hk, Hp, Hl in V1. destruct r as [p'|]; [|done].
  destruct (P1 p' eq_refl) as [-> Hr1]. assert (p' = p) as -> by congruence. destruct (sr_item _ _ _ _ _ F1 k p Hk) as (i & Hi & Ki).
  destruct (K1 p i Hi) as (x & Ex' & Vi). assert (x = it) as -> by congruence.
  destruct (sr_refs _ _ _ _ _ R p it Hp) as (_ & Hr0 & _).
  destruct (mget_answer_ok hash srv e (with_store s1 w1) m lru1 refs1 [text "mg"; k; text "v"] None fl false p i rs wb F1 Hi)
    as (w' & lru' & refs' & t & E & R' & T' & S' & K' & G' & Q' & Ht & V' & Hres); try done.
  { rewrite Vi. apply whole_plain; [done|by rewrite Kx; lia]. } { lia. }
  { intros q. specialize (Hb q). destruct (decide (q = p)) as [->|Hne]; [simpl in Hr1; lia|rewrite N1 by congruence; lia]. }
  { simpl. lia. } { repeat constructor; set_solver. }
  assert (mget_flags srv (map word_token (drop 2 [text "mg"; k; text "v"])) fl false p false (mget_head srv fl i) (w_store (with_store s1 w1)) =
    Ret (inr (false, mget_head srv fl i ++ []), s1)) as Ef.
  { cbn [drop map mget_flags word_token tok_value deref]. rewrite ret_bind. change (w_store (with_store s1 w1)) with s1.
    rewrite (get_item_ok _ _ _ Hi), ret_bind. reflexivity. }
  destruct Hres as [(err & C' & _ & s' & Ef')|(line & C' & P' & _ & won & start & s' & Ef' & ->)]; rewrite Ef in Ef'; [discriminate Ef'|].
  injection Ef' as <- <- <-. pose proof Hw as ((W1 & W2) & W3 & _).
  destruct (store_held _ _ _ _ _ p R') as (i' & Hi'); [lia|]. specialize (V' i' Hi').
  assert (it_nbytes i = it_nbytes it /\ it_nbytes i' = it_nbytes it /\ it_data i' = it_data it /\ has_flag ITEM_CHUNKED i' = false) as (A1 & A2 & A3 & A4).
  { split_and!; [exact (f_equal v_nbytes Vi)|etrans; [exact (f_equal v_nbytes V')|exact (f_equal v_nbytes Vi)]|
      etrans; [exact (f_equal v_data V')|exact (f_equal v_data Vi)]|etrans; [exact (f_equal v_chunked V')|etrans; [exact (f_equal v_chunked Vi)|exact W3]]]. }
  eexists w', _, (token_marks (set_exptime t i) false). split; [exact E|]. split; [exact S'|]. split; [exact C'|]. split; [apply token_marks_length|].
  rewrite Vi. unfold hit_resp. rewrite W3. cbn [of_value fl set_value v_nbytes value_of].
  unfold resp_bytes. cbn [resp_skip resp_iov mapM iov_bytes]. rewrite (get_item_ok _ _ _ Hi'). cbn [mret outcome_ret mbind outcome_bind].
  unfold plain_data, ITEM_data. rewrite A4. cbn [mbind outcome_bind]. unfold read_bytes. simpl in W2. rewrite A3.
  rewrite (proj2 (Nat.leb_le _ _)) by lia. cbn [mbind outcome_bind mret outcome_ret]. rewrite take_ge by lia.
  unfold mget_head. cbn [of_value fl set_value concat]. rewrite A1, !app_nil_r. by rewrite <- !app_assoc.
Qed.
(** A meta delete never matches a CAS number.  For a live item that has one, the meta delete
    with the flag C answers EX and keeps the item, whatever number the client gives, the item's own
    included: the handler compares with a variable that stays 0. *)
Theorem mdelete_never_matches (e : senv) (w : world T) (m : gmap (list Z) positive) (lru : Z -> list positive)
    (refs : positive -> Z) (k arg : list Z) (n : Z) (v : value) (wb : list Z) (rs : list mc_resp)
    (R : store_rep hash (w_store w) m lru refs) (Hb : below 0 refs) (Hl : live_at cfg (w_store w) m k = Some v)
    (Hcas : v_cas v <> 0) (Hn : safe_strtoull arg true = Ret (true, n)) (Hr : get_ready w k rs wb) :
  exists w' lru', process_mdelete_command hash srv e (line_tokens [text "md"; k; 67 :: arg]) w = Ret w' /\
    store_rep hash (w_store w') m lru' refs /\ (forall k', value_at (w_store w') m k' = value_at (w_store w) m k') /\
    c_resps (w_conn w') = rs ++ [mkResp [IovBuf (text "EX " ++ crlf)] None false wb].
Proof.
  destruct Hr as [Hkl Hresps]. set (fl := set_req_cas true n no_flags).
  destruct (do_item_get_ok hash cfg (w_store w) m lru refs k (queued (item_env e)) R Hb) as (r & s1 & m1 & lru1 & E1 & R1 & K1 & G1 & _ & Hk1 & Hl1 & Hm1).
  rewrite Hl in Hl1. destruct r as [p|]; [|done]. rewrite (Hm1 ltac:(by eexists)) in *. clear m1 Hm1. cbn [got_refs] in R1.
  destruct (sr_item _ _ _ _ _ R1 k p Hk1) as (it & Hp & _). destruct (K1 p it Hp) as (x & Ex & V). rewrite Ex in Hl1. injection Hl1 as ->.
  assert (ITEM_get_cas it <> 0) as Hc by (rewrite <- V in Hcas; exact Hcas).
  destruct (sr_refs _ _ _ _ _ R p x Ex) as (_ & Hr0 & _).
  destruct (release hash s1 m lru1 _ p R1) as (s2 & E2 & R2 & K2 & G2); [rewrite set_refs_eq; lia|].
  unfold process_mdelete_command, line_tokens. cbn [map app length Nat.ltb Nat.leb lookup list_lookup deref]. rewrite ret_bind.
  cbn [word_token tok_length]. unfold KEY_MAX_LENGTH. rewrite (proj2 (Z.ltb_ge _ _)) by lia. cbn [Nat.ltb Nat.leb MFLAG_MAX_OPT_LENGTH].
  assert (meta_flag_preparse srv [word_token (text "md"); word_token k; word_token (67 :: arg); mkToken None 0] 2 no_flags bad_line =
    Ret (true, mkPreparse fl bad_line (word_token k))) as ->.
  { unfold meta_flag_preparse. cbn [lookup list_lookup deref drop]. rewrite ret_bind. cbn [preparse_loop word_token tok_length tok_value length Nat.eqb deref].
    rewrite ret_bind. cbn [char_at lookup list_lookup default from_option id]. 
    change ((127 <=? 67) || bool_decide (67 ∈ @nil Z)) with false. cbn match.
    assert (forall s, preparse_flag srv (word_token (67 :: arg)) (67 :: arg) 67 s = Ret (Some (on_flags (set_req_cas true n) s))) as Hflag.
    { intros s. change (preparse_flag srv (word_token (67 :: arg)) (67 :: arg) 67 s) with ('(ok, n) ← safe_strtoull arg true;
        Ret (Some (if ok : bool then on_flags (set_req_cas true n) s else flag_error bad_token (on_flags (fun f => set_req_cas (of_has_cas f) n f) s)))).
      by rewrite Hn. }
    change (mkToken (Some (67 :: arg)) (S (length arg))) with (word_token (67 :: arg)). rewrite Hflag, ret_bind. reflexivity. }
  rewrite ret_bind. cbn [negb pp_of pp_key]. unfold key_string. cbn [word_token tok_value tok_length deref]. rewrite ret_bind, read_bytes_ok by lia.
  rewrite take_ge, ret_bind by lia.
  change (flag_tokens _) with [word_token (67 :: arg)]. cbn [echo_flags word_token tok_value deref]. rewrite ret_bind.
  cbn [char_at lookup list_lookup default from_option id]. change (is_flag "O" 67) with false. change (is_flag "k" 67) with false. cbn match. rewrite ret_bind.
  unfold item_get_locked. fold cfg. cbn [w_store upd_conn with_conn]. rewrite E1, ret_bind. unfold mdelete_item. cbn [w_store with_store].
  rewrite (get_item_ok _ _ _ Hp), ret_bind. cbn [of_has_cas fl set_req_cas]. rewrite (proj2 (Z.eqb_neq _ _) Hc). cbn [negb andb]. rewrite ret_bind.
  unfold on_store. cbn [w_store with_store]. rewrite E2, !ret_bind. unfold out_buf, WRITE_BUFFER_SIZE.
  rewrite (proj2 (Z.ltb_ge _ _)) by (vm_compute; discriminate). rewrite (resp_add_iov_ok _ _ rs (mkResp [] None false wb)); [|exact Hresps|simpl; lia]. rewrite ret_bind.
  eexists _, lru1. split; [reflexivity|]. cbn [w_store conn_set_state upd_conn with_conn with_store].
  assert (store_rep hash s2 m lru1 refs) as R2'.
  { eapply store_rep_refs; [exact R2|]. intros q. rewrite set_refs_eq. unfold set_refs. case_decide; [subst; lia|done]. }
  split; [exact R2'|]. split; [|reflexivity]. intros k'. eapply (value_at_same hash); [exact R2'|done|]. intros q i' _ Hq.
  destruct (K2 q i' Hq) as (j & Ej & ->). by apply K1.
Qed.
(** A tree has one list of leaves' length. *)
Lemma tree_size_unique ls ls' w : tree_ok ls w -> tree_ok ls' w -> length ls = length ls'.
Proof.
  intros (t & Et & Ht) (t' & Et' & Ht'). assert (t' = t) as -> by congruence.
  pose proof (mr_elems _ _ Ht). pose proof (mr_elems _ _ Ht'). lia.
Qed.

(** An item that a meta get creates is outside the protection.  When a meta get with the flag N
    misses in a sealed state and there is memory, the new item is counted as stored but gets no
    leaf: the state is not sealed any more, whatever the tables and leaves are taken to be. *)
Theorem vivified_item_breaks_seal (e : senv) (w : world T) (m : gmap (list Z) positive) (lru : Z -> list positive)
    (refs : positive -> Z) (ls : list (list Z)) (k : list Z) (s' : store T) (p : positive)
    (Hrepair : tail_repair_time cfg = 0) (Hslab : 400 <= slab_chunk_size_max cfg)
    (S : sealed hash w m lru refs ls) (Hb : below 3 refs) (Ht : tidy (w_store w) m) (Hk : m !! k = None) (Hlen : (length k <= 250)%nat)
    (Hlim : Z.of_nat (length ls) < AL_LIMIT) (E : mget_vivify hash srv (item_env e) k (w_store w) = Ret (Some p, s')) :
  total_items s' = Z.of_nat (length ls) + 1 /\
  forall m' lru' refs' ls', ~ sealed hash (with_store s' w) m' lru' refs' ls'.
Proof.
  destruct (vivify_ok hash srv Hrepair Hslab (item_env e) k (w_store w) m lru refs (se_store _ _ _ _ _ _ S) Hb Ht Hk Hlen)
    as (r & s1 & m1 & lru1 & E1 & _ & V). rewrite E in E1. injection E1 as <- <-. destruct V as (_ & _ & _ & _ & Htot & _).
  rewrite (se_count _ _ _ _ _ _ S), u64_id in Htot by (unfold AL_LIMIT in Hlim; lia). split; [done|].
  intros m' lru' refs' ls' S'. pose proof (se_count _ _ _ _ _ _ S') as Hc. cbn [w_store with_store] in Hc.
  rewrite (tree_size_unique ls ls' w (se_tree _ _ _ _ _ _ S) (se_tree _ _ _ _ _ _ S')) in Htot. lia.
Qed.
End Meta.

(** ** Sessions *)

Definition meta_request (w : world assoc) (line data : list Z) : outcome (world assoc) :=
  r ← process_command_meta first_byte sample_srv sample_env line w;
  w ← deref r;
  match c_state (w_conn w) with
  | conn_nread => nread_value first_byte sample_srv sample_env (data ++ crlf) w
  | _ => Ret w
  end.

Definition meta_session : list (list Z * list Z) -> outcome (world assoc) :=
  foldl (fun w r => w ← w; meta_request w r.1 r.2) (Ret sample_world).

(** After a meta get has created an item, the next item that is set fails its verification. *)
Example vivified_item_spoils_next_set :
  exists w, meta_session [(text "mg a N30", []); (text "set b 0 0 1", text "x"); (text "get b", [])] = Ret w /\
    w_stderr w = [VerificationFailed] /\
    transmitted w = Ret (lines [text "HD W"; text "STORED"; text "VALUE b 0 1"; text "x"; text "END"]).
Proof. eexists. split; [vm_compute; reflexivity|]. split; vm_compute; reflexivity. Qed.

(** When a number grows by a digit its item is replaced, and a new time to live that comes with the
    increment goes to the item that was replaced: the answer shows it, the next get the old one. *)
Example marithmetic_loses_ttl :
  exists w, meta_session [(text "ms a 1 T100", text "9"); (text "ma a T200 t v", []); (text "mg a t v", [])] = Ret w /\
    transmitted w = Ret (lines [text "HD"; text "VA 2 t200"; text "10"; text "VA 2 t100"; text "10"]).
Proof. eexists. split; [vm_compute; reflexivity|]. vm_compute; reflexivity. Qed.

(** A key that was given in base64 and created by a miss is given back raw. *)
Example vivified_key_not_binary :
  exists w, meta_session [(text "mg YWM= b N30 k", []); (text "ms YWI= 1 b k", text "9")] = Ret w /\
    transmitted w = Ret (lines [text "HD kac W"; text "HD kYWI= b"]).
Proof. eexists. split; [vm_compute; reflexivity|]. vm_compute; reflexivity. Qed.

(** Of the clients that see a stale item, one is told to recache it. *)
Example one_recache_token :
  exists w, meta_session [(text "ms a 1", text "x"); (text "md a I T30", []); (text "mg a v", []); (text "mg a v", [])] = Ret w /\
    transmitted w = Ret (lines [text "HD"; text "HD "; text "VA 1 X W"; text "x"; text "VA 1 Z X"; text "x"]).
Proof. eexists. split; [vm_compute; reflexivity|]. vm_compute; reflexivity. Qed.

(** ** Witnesses *)

Lemma empty_tidy (s : store assoc) : tidy s ∅.
Proof. intros k v. unfold value_at. by rewrite lookup_empty. Qed.

Lemma below_no_refs n : n <= 100 -> below n (fun _ => 0).
Proof. intros Hn q. unfold IT_REFCOUNT_LIMIT. lia. Qed.

(** The world of a new connection that has started to answer. *)
Definition fresh_world : world assoc := (start_response sample_env sample_world).2.

Lemma mget_safe_witness : exists w' m' lru' refs' r,
  process_mget_command first_byte sample_srv sample_env (tokenize_command (text "mg a N30 v Oabc") MAX_TOKENS) fresh_world = Ret w' /\
  store_rep first_byte (w_store w') m' lru' refs' /\ c_resps (w_conn w') = [] ++ [r].
Proof.
  destruct (mget_safe first_byte sample_srv sample_env fresh_world ∅ (fun _ => []) (fun _ => 0) (text "mg a N30 v Oabc") [] [])
    as (w' & m' & lru' & refs' & r & E & R & _ & _ & _ & _ & C & _).
  - reflexivity.
  - vm_compute. discriminate.
  - vm_compute. repeat constructor; discriminate.
  - exact empty_store_rep.
  - by apply below_no_refs.
  - intros k v. unfold value_at. by rewrite lookup_empty.
  - reflexivity.
  - exists w', m', lru', refs', r. split; [exact E|]. split; [exact R|exact C].
Defined.

(** The same world with another tree, or none. *)
Lemma swapped_tree (w : world assoc) (t : option mt_t) (k : list Z) rs wb m lru refs ls :
  sealed first_byte w m lru refs ls -> get_ready w k rs wb ->
  store_rep first_byte (w_store (with_tree t w)) m lru refs /\ get_ready (with_tree t w) k rs wb /\
  heap (w_store (with_tree t w)) = heap (w_store w) /\ w_stderr (with_tree t w) = w_stderr w.
Proof. intros S Hr. split; [apply S|]. done. Qed.

Lemma meta_get_skips_verification_witness :
  exists w' r, process_mget_command first_byte sample_srv sample_env (line_tokens [text "mg"; text "a"; text "v"])
      (with_tree None stored_sample) = Ret w' /\ w_stderr w' = w_stderr stored_sample /\ last (c_resps (w_conn w')) = Some r.
Proof.
  destruct stored_sample_sealed as (m & lru & refs & ls & p & it & S & Hb & Hm & Hp & Hl & _ & _ & Hr).
  assert (value_at (w_store stored_sample) m (text "a") = Some (value_of it)) as Hv by (unfold value_at; by rewrite Hm, Hp).
  destruct (swapped_tree stored_sample None _ _ _ _ _ _ _ S Hr) as (R' & Hr' & Eh & Ew).
  destruct (se_value _ _ _ _ _ _ S (text "a") _ Hv) as (_ & _ & Hwh).
  rewrite <- Eh in Hp. rewrite <- Ew. clear S Hr Hv Eh Ew. generalize dependent (with_tree None stored_sample). intros w Hp R' Hr'.
  destruct (meta_get_skips_verification first_byte sample_srv sample_env w m lru refs (text "a") p it []
    [answer false (text "STORED")] R' (below_le 9 3 _ Hb ltac:(lia)) Hm Hp Hl Hwh Hr') as (w' & r & marks & E & W & C & _).
  exists w', r. split; [exact E|]. split; [exact W|]. by rewrite C.
Defined.

Lemma heap_all (f : item -> bool) (h : gmap positive item) p it :
  forallb (fun x => f x.2) (map_to_list h) = true -> h !! p = Some it -> f it = true.
Proof.
  intros Hall H. rewrite forallb_forall in Hall. apply (Hall (p, it)). apply list_elem_of_In, elem_of_map_to_list, H.
Qed.

Lemma sample_cas : forallb (fun x => ITEM_get_cas x.2 =? 1) (map_to_list (heap (w_store stored_sample))) = true.
Proof. vm_compute. reflexivity. Qed.

Lemma mdelete_never_matches_witness :
  exists w', process_mdelete_command first_byte sample_srv sample_env (line_tokens [text "md"; text "a"; text "C1"]) stored_sample = Ret w' /\
    last (c_resps (w_conn w')) = Some (mkResp [IovBuf (text "EX " ++ crlf)] None false []).
Proof.
  destruct stored_sample_sealed as (m & lru & refs & ls & p & it & S & Hb & Hm & Hp & Hl & _ & _ & Hr).
  pose proof (heap_all (fun i => ITEM_get_cas i =? 1) _ p it sample_cas Hp) as Hc. cbn beta in Hc. apply Z.eqb_eq in Hc.
  assert (live_at sample_cfg (w_store stored_sample) m (text "a") = Some (value_of it)) as Hlive by (unfold live_at; by rewrite Hm, Hp, Hl).
  destruct (mdelete_never_matches first_byte sample_srv sample_env stored_sample m lru refs (text "a") (text "1") 1 (value_of it) []
    [answer false (text "STORED")] (se_store _ _ _ _ _ _ S) (below_le 9 0 _ Hb ltac:(lia)) Hlive) as (w' & lru' & E & _ & _ & C).
  - change (v_cas (value_of it)) with (ITEM_get_cas it). rewrite Hc. discriminate.
  - reflexivity.
  - exact Hr.
  - exists w'. split; [exact E|]. by rewrite C.
Defined.

Lemma sample_world_sealed : sealed first_byte sample_world ∅ (fun _ => []) (fun _ => 0) [].
Proof.
  split; [exact empty_store_rep|exists empty_mt; split; [done|apply empty_mt_repr]|done|].
  intros k v H. unfold value_at in H. by rewrite lookup_empty in H.
Qed.

Lemma vivified_item_breaks_seal_witness : exists p s',
  mget_vivify first_byte sample_srv (item_env sample_env) (text "a") (w_store sample_world) = Ret (Some p, s') /\
  forall m' lru' refs' ls', ~ sealed first_byte (with_store s' sample_world) m' lru' refs' ls'.
Proof.
  assert (exists p s', mget_vivify first_byte sample_srv (item_env sample_env) (text "a") (w_store sample_world) = Ret (Some p, s')) as (p & s' & E)
    by (eexists _, _; vm_compute; reflexivity).
  exists p, s'. split; [exact E|].
  destruct (vivified_item_breaks_seal first_byte sample_srv sample_env sample_world ∅ (fun _ => []) (fun _ => 0) [] (text "a") s' p
    eq_refl ltac:(vm_compute; discriminate) sample_world_sealed (below_no_refs 3 ltac:(lia)) (empty_tidy _)) as [_ H].
  - reflexivity.
  - vm_compute. lia.
  - reflexivity.
  - exact E.
  - exact H.
Defined.
