(* ===== verification/ProtoAdmin.v ===== *)
(** * Commands that control the server (src/memcached/proto_text.c)

    [flush_all] hides every item by moving the times below which items count as flushed; [verbosity],
    [version], [quit] and [shutdown] are short.  They change the settings, which the other handlers
    only read, so that each of them returns the settings with the world. *)

From S2P Require Import Prelude Items ItemAlloc Util MtCrypto MtArrayList MerkleTree Store Conn ProtoText ProtoMeta.
From Stdlib Require Ascii String.
Import String.StringSyntax.

Local Open Scope string_scope.
Local Open Scope Z_scope.

Definition MAX_VERBOSITY_LEVEL : Z := 2.

(** The signals [shutdown] raises. *)
Inductive signal := SIGINT | SIGUSR1.

(** The settings these commands read and write, the version that the build puts in, and what they
    do to the connection and the process: [close_after_write] and the signals raised. *)
Record control := mkControl {
  ct_srv : server_settings;
  ct_flush_enabled : bool;
  ct_shutdown_command : bool;
  ct_verbose : Z;
  ct_version : list Z;
  ct_close_after_write : bool;
  ct_raised : list signal
}.

Definition set_srv (srv : server_settings) (c : control) : control :=
  mkControl srv (ct_flush_enabled c) (ct_shutdown_command c) (ct_verbose c) (ct_version c) (ct_close_after_write c) (ct_raised c).
Definition set_verbose (v : Z) (c : control) : control :=
  mkControl (ct_srv c) (ct_flush_enabled c) (ct_shutdown_command c) v (ct_version c) (ct_close_after_write c) (ct_raised c).
Definition set_close_after_write (c : control) : control :=
  mkControl (ct_srv c) (ct_flush_enabled c) (ct_shutdown_command c) (ct_verbose c) (ct_version c) true (ct_raised c).
Definition raise_signal (g : signal) (c : control) : control :=
  mkControl (ct_srv c) (ct_flush_enabled c) (ct_shutdown_command c) (ct_verbose c) (ct_version c) (ct_close_after_write c) (ct_raised c ++ [g]).

Definition set_oldest (live cas : Z) (s : settings) : settings :=
  mkSettings (use_cas s) (lru_segmented s) (temp_lru s) (temporary_ttl s) live cas (item_size_max s) (slab_chunk_size_max s)
    (slabclass_sizes s) (current_time s) (evict_to_free s) (tail_repair_time s) (hot_lru_pct s) (warm_lru_pct s).

Section Admin.
Context {T : Type} {table_ops : ItemTable T}.

(** The new times: [new_oldest] is when the flush takes effect. *)
Definition flush_from (new_oldest : Z) (srv : server_settings) (s : store T) : server_settings * store T :=
  let cfg := base_settings srv in
  let '(cfg, s) :=
    if use_cas cfg then
      let oldest_live := u32 (new_oldest - 1) in
      if oldest_live <=? current_time cfg then
        let '(cas, s) := get_cas_id s in (set_oldest oldest_live cas cfg, s)
      else (set_oldest oldest_live (oldest_cas cfg) cfg, s)
    else (set_oldest new_oldest (oldest_cas cfg) cfg, s) in
  (mkServerSettings cfg (process_started srv) (meta_response_old srv), s).

Definition process_flush_all_command (tokens : list token) (c : control) (w : world T) : outcome (control * world T) :=
  w ← set_noreply_maybe tokens w;
  if negb (ct_flush_enabled c) then w ← out_string (text "CLIENT_ERROR flush_all not allowed") w; Ret (c, w) else
  '(ok, exptime) ← (if negb (length tokens =? (if c_noreply (w_conn w) then 3 else 2))%nat
                    then v ← token_string tokens 1; safe_strtol v true else Ret (true, 0));
  if negb ok then w ← out_string (text "CLIENT_ERROR invalid exptime argument") w; Ret (c, w) else
  let srv := ct_srv c in
  let new_oldest := if 0 <? exptime then realtime srv exptime else current_time (base_settings srv) in
  let '(srv, s) := flush_from new_oldest srv (w_store w) in
  w ← out_string (text "OK") (with_store s w);
  Ret (set_srv srv c, w).

Definition process_verbosity_command (tokens : list token) (c : control) (w : world T) : outcome (control * world T) :=
  w ← set_noreply_maybe tokens w;
  v ← token_string tokens 1;
  '(ok, level) ← safe_strtoul (Some v) true;
  if negb ok then w ← bad_format w; Ret (c, w) else
  w ← out_string (text "OK") w;
  Ret (set_verbose (if MAX_VERBOSITY_LEVEL <? level then MAX_VERBOSITY_LEVEL else level) c, w).

Definition process_version_command (c : control) (w : world T) : outcome (control * world T) :=
  w ← out_string (text "VERSION " ++ ct_version c) w; Ret (c, w).

Definition process_quit_command (c : control) (w : world T) : outcome (control * world T) :=
  Ret (set_close_after_write c, conn_set_state conn_mwrite w).

Definition process_shutdown_command (tokens : list token) (c : control) (w : world T) : outcome (control * world T) :=
  if negb (ct_shutdown_command c) then w ← out_string (text "ERROR: shutdown not enabled") w; Ret (c, w) else
  if (length tokens =? 2)%nat then Ret (raise_signal SIGINT c, conn_set_state conn_closing w) else
  graceful ← (if (length tokens =? 3)%nat then v ← token_string tokens 1; Ret (streq v (text "graceful")) else Ret false);
  if graceful : bool then Ret (raise_signal SIGUSR1 c, conn_set_state conn_closing w)
  else w ← out_string (text "CLIENT_ERROR invalid shutdown mode") w; Ret (c, w).

(** ** The dispatcher, with these commands *)

Context {slabs : SlabAllocator} {node_hash : NodeHash} (hash : list Z -> Z).

Definition run_admin (tokens : list token) (o : other_command) (c : control) (w : world T) : option (outcome (control * world T)) :=
  match o with
  | OtherFlushAll => Some (process_flush_all_command tokens c w)
  | OtherVersion => Some (process_version_command c w)
  | OtherQuit => Some (process_quit_command c w)
  | OtherShutdown => Some (process_shutdown_command tokens c w)
  | OtherVerbosity => Some (process_verbosity_command tokens c w)
  | _ => None
  end.

(** [process_command] with the meta commands and the commands of this file; the result is [None] when
    the handler is not modelled. *)
Definition process_command_admin (e : senv) (command : list Z) (c : control) (w : world T) : outcome (option (control * world T)) :=
  let srv := ct_srv c in
  let '(started, w) := start_response e w in
  if negb started then Ret (Some (c, conn_set_state conn_closing w)) else
  let tokens := tokenize_command command MAX_TOKENS in
  first ← deref (tokens !! 0%nat);
  cmd ← (if (length tokens <? 2)%nat || (tok_length first <? 2)%nat then Ret CmdError else classify tokens);
  let keep r := r ← r; Ret (match r with Some w => Some (c, w) | None => None end) in
  match cmd with
  | CmdOther o =>
      match run_admin tokens o c w with
      | Some r => r ← r; Ret (Some r)
      | None => keep (run_meta hash srv e tokens o w)
      end
  | _ => keep (run_command hash srv e tokens cmd w)
  end.

End Admin.
