(* ===== verification/ProtoBin.v ===== *)
(** * The binary protocol (src/memcached/proto_bin.c, protocol_binary.h)

    A request is a header of 24 bytes, the extras of the command, the key and the value.  The header
    and the handlers of all commands but [STAT] are modelled; the SASL library is a parameter.  The
    handlers share the store with the text protocol, but none of them computes an authentication
    code or looks at the Merkle tree. *)

From S2P Require Import Prelude Items ItemAlloc Util Itoa MtArrayList MerkleTree Store Conn ProtoText ProtoMeta ProtoAdmin.
From Stdlib Require Ascii String.
Import String.StringSyntax.

Local Open Scope string_scope.
Local Open Scope Z_scope.

(** ** Constants (protocol_binary.h) *)

Definition PROTOCOL_BINARY_REQ : Z := 0x80.
Definition PROTOCOL_BINARY_RES : Z := 0x81.
Definition BIN_MAX_EXTLEN : nat := 20.
Definition MAX_SASL_MECH_LEN : Z := 32.

Definition RESPONSE_SUCCESS : Z := 0x00.
Definition RESPONSE_KEY_ENOENT : Z := 0x01.
Definition RESPONSE_KEY_EEXISTS : Z := 0x02.
Definition RESPONSE_E2BIG : Z := 0x03.
Definition RESPONSE_EINVAL : Z := 0x04.
Definition RESPONSE_NOT_STORED : Z := 0x05.
Definition RESPONSE_DELTA_BADVAL : Z := 0x06.
Definition RESPONSE_AUTH_ERROR : Z := 0x20.
Definition RESPONSE_AUTH_CONTINUE : Z := 0x21.
Definition RESPONSE_UNKNOWN_COMMAND : Z := 0x81.
Definition RESPONSE_ENOMEM : Z := 0x82.

Definition CMD_GET : Z := 0x00.
Definition CMD_SET : Z := 0x01.
Definition CMD_ADD : Z := 0x02.
Definition CMD_REPLACE : Z := 0x03.
Definition CMD_DELETE : Z := 0x04.
Definition CMD_INCREMENT : Z := 0x05.
Definition CMD_DECREMENT : Z := 0x06.
Definition CMD_QUIT : Z := 0x07.
Definition CMD_FLUSH : Z := 0x08.
Definition CMD_GETQ : Z := 0x09.
Definition CMD_NOOP : Z := 0x0a.
Definition CMD_VERSION : Z := 0x0b.
Definition CMD_GETK : Z := 0x0c.
Definition CMD_GETKQ : Z := 0x0d.
Definition CMD_APPEND : Z := 0x0e.
Definition CMD_PREPEND : Z := 0x0f.
Definition CMD_STAT : Z := 0x10.
Definition CMD_SETQ : Z := 0x11.
Definition CMD_ADDQ : Z := 0x12.
Definition CMD_REPLACEQ : Z := 0x13.
Definition CMD_DELETEQ : Z := 0x14.
Definition CMD_INCREMENTQ : Z := 0x15.
Definition CMD_DECREMENTQ : Z := 0x16.
Definition CMD_QUITQ : Z := 0x17.
Definition CMD_FLUSHQ : Z := 0x18.
Definition CMD_APPENDQ : Z := 0x19.
Definition CMD_PREPENDQ : Z := 0x1a.
Definition CMD_TOUCH : Z := 0x1c.
Definition CMD_GAT : Z := 0x1d.
Definition CMD_GATQ : Z := 0x1e.
Definition CMD_GATK : Z := 0x23.
Definition CMD_GATKQ : Z := 0x24.
Definition CMD_SASL_LIST_MECHS : Z := 0x20.
Definition CMD_SASL_AUTH : Z := 0x21.
Definition CMD_SASL_STEP : Z := 0x22.

(** ** The header *)

(** [n] bytes of an integer, the highest one first. *)
Fixpoint be_store (n : nat) (z : Z) : list Z :=
  match n with O => [] | S n => be_store n (z / 256) ++ [z mod 256] end.

(** [protocol_binary_request_header]; [opaque] is kept as it is, in the client's byte order. *)
Record bin_header := mkHeader {
  bh_magic : Z;
  bh_opcode : Z;
  bh_keylen : Z;
  bh_extlen : Z;
  bh_datatype : Z;
  bh_reserved : Z;
  bh_bodylen : Z;
  bh_opaque : list Z;
  bh_cas : Z
}.

(** The header in the first 24 bytes of the read buffer, in host order. *)
Definition read_header (rbuf : list Z) : bin_header :=
  mkHeader (be_load (slice rbuf 0 1)) (be_load (slice rbuf 1 1)) (be_load (slice rbuf 2 2)) (be_load (slice rbuf 4 1))
    (be_load (slice rbuf 5 1)) (be_load (slice rbuf 6 2)) (be_load (slice rbuf 8 4)) (slice rbuf 12 4) (be_load (slice rbuf 16 8)).

(** The bytes of a response header. *)
Definition response_header (opcode status extlen keylen bodylen : Z) (opaque : list Z) (cas : Z) : list Z :=
  be_store 1 PROTOCOL_BINARY_RES ++ be_store 1 opcode ++ be_store 2 keylen ++ be_store 1 extlen ++ be_store 1 0
  ++ be_store 2 status ++ be_store 4 bodylen ++ opaque ++ be_store 8 cas.

(** ** The connection *)

Inductive bin_substates := bin_no_state | bin_read_set_value | bin_reading_sasl_auth_data.

(** What a connection keeps for this protocol; [b_cmd] is the opcode, with the quiet ones replaced. *)
Record bin_conn := mkBin {
  b_header : bin_header;
  b_cmd : Z;
  b_substate : bin_substates;
  b_close_after_write : bool;
  b_authenticated : bool;
  b_sasl_started : bool
}.

Definition set_cmd (n : Z) (b : bin_conn) : bin_conn :=
  mkBin (b_header b) n (b_substate b) (b_close_after_write b) (b_authenticated b) (b_sasl_started b).
Definition set_substate (st : bin_substates) (b : bin_conn) : bin_conn :=
  mkBin (b_header b) (b_cmd b) st (b_close_after_write b) (b_authenticated b) (b_sasl_started b).
Definition set_close (b : bin_conn) : bin_conn :=
  mkBin (b_header b) (b_cmd b) (b_substate b) true (b_authenticated b) (b_sasl_started b).
Definition set_authenticated (v : bool) (b : bin_conn) : bin_conn :=
  mkBin (b_header b) (b_cmd b) (b_substate b) (b_close_after_write b) v (b_sasl_started b).
Definition set_sasl_started (v : bool) (b : bin_conn) : bin_conn :=
  mkBin (b_header b) (b_cmd b) (b_substate b) (b_close_after_write b) (b_authenticated b) v.

(** ** The SASL library *)

Inductive sasl_result := SASL_OK | SASL_CONTINUE | SASL_OTHER.

(** The answers of the library: the list of mechanisms, and the result and output of starting and
    going on with an exchange. *)
Record sasl_lib := mkSasl {
  sasl_listmech : option (list Z);
  sasl_server_start : list Z -> option (list Z) -> sasl_result * list Z;
  sasl_server_step : option (list Z) -> sasl_result * list Z
}.

(** The error texts of [write_bin_error]; other codes trip an assertion. *)
Definition bin_error_text (err : Z) : option (list Z) :=
  if err =? RESPONSE_ENOMEM then Some (text "Out of memory")
  else if err =? RESPONSE_UNKNOWN_COMMAND then Some (text "Unknown command")
  else if err =? RESPONSE_KEY_ENOENT then Some (text "Not found")
  else if err =? RESPONSE_EINVAL then Some (text "Invalid arguments")
  else if err =? RESPONSE_KEY_EEXISTS then Some (text "Data exists for key.")
  else if err =? RESPONSE_E2BIG then Some (text "Too large.")
  else if err =? RESPONSE_DELTA_BADVAL then Some (text "Non-numeric server-side value for incr or decr")
  else if err =? RESPONSE_NOT_STORED then Some (text "Not stored.")
  else if err =? RESPONSE_AUTH_ERROR then Some (text "Auth failure.")
  else None.

Section Binary.
Context {T : Type} {table_ops : ItemTable T} {slabs : SlabAllocator}.
Context (hash : list Z -> Z) (ctl : control) (use_sasl : bool) (lib : sasl_lib).

Let srv := ct_srv ctl.
Let cfg := base_settings srv.

(** ** Answers *)

(** [add_bin_header]; [cas] is [c->cas], or what the caller writes there afterwards. *)
Definition add_bin_header (b : bin_conn) (err hdr_len key_len body_len cas : Z) (w : world T) : outcome (world T) :=
  w ← resp_reset w;
  resp_add_iov (IovBuf (response_header (bh_opcode (b_header b)) err hdr_len key_len body_len (bh_opaque (b_header b)) cas)) w.

Definition write_bin_error (b : bin_conn) (err : Z) (errstr : option (list Z)) (swallow : Z) (w : world T) : outcome (world T) :=
  errstr ← match errstr with
           | Some str => Ret str
           | None => match bin_error_text err with Some str => Ret str | None => Abort end
           end;
  let len := Z.of_nat (length errstr) in
  w ← add_bin_header b err 0 0 len (c_cas (w_conn w)) w;
  w ← (if 0 <? len then resp_add_iov (IovBuf errstr) w else Ret w);
  if 0 <? swallow then Ret (conn_set_state conn_swallow (upd_conn (with_sbytes swallow) w))
  else Ret (conn_set_state conn_mwrite w).

(** [out_of_memory] on a connection of the binary protocol: the prefix of the message is cut off. *)
Definition bin_out_of_memory (b : bin_conn) (ascii_error : list Z) (w : world T) : outcome (world T) :=
  let prefix := text "SERVER_ERROR " in
  let msg := if is_prefix prefix ascii_error then drop (length prefix) ascii_error else ascii_error in
  write_bin_error b RESPONSE_ENOMEM (Some msg) 0 w.

Definition handle_binary_protocol_error (b : bin_conn) (w : world T) : outcome (bin_conn * world T) :=
  w ← write_bin_error b RESPONSE_EINVAL None 0 w; Ret (set_close b, w).

(** [write_bin_response]; [cmd] is [c->cmd]: a get is answered even if it is quiet. *)
Definition write_bin_response (b : bin_conn) (cmd : Z) (d : list Z) (hlen keylen : Z) (w : world T) : outcome (world T) :=
  w ← (if negb (c_noreply (w_conn w)) || (cmd =? CMD_GET) || (cmd =? CMD_GETK) then
         let dlen := Z.of_nat (length d) in
         w ← add_bin_header b 0 hlen keylen dlen (c_cas (w_conn w)) w;
         if 0 <? dlen then resp_add_iov (IovBuf d) w else Ret w
       else Ret w);
  Ret (conn_set_state conn_new_cmd w).

Definition write_bin_miss_response (b : bin_conn) (key : list Z) (w : world T) : outcome (world T) :=
  let nkey := Z.of_nat (length key) in
  if negb (nkey =? 0) then
    w ← add_bin_header b RESPONSE_KEY_ENOENT 0 nkey nkey (c_cas (w_conn w)) w;
    if WRITE_BUFFER_SIZE <? 24 + nkey then Ub else
    w ← resp_add_iov (IovBuf key) w;
    Ret (conn_set_state conn_new_cmd w)
  else write_bin_error b RESPONSE_KEY_ENOENT None 0 w.

(** ** incr and decr *)

(** A miss creates the item with the initial value. *)
Definition bin_incr_create (e : senv) (b : bin_conn) (key : list Z) (initial expiration : Z) (w : world T) : outcome (world T) :=
  let tmpbuf := itoa_u64 initial in
  let res := Z.of_nat (length tmpbuf) in
  '(r, s) ← item_alloc hash cfg (item_env e) key 0 (realtime srv expiration) (res + 2) (w_store w);
  let w := with_store s w in
  match r with
  | None => bin_out_of_memory b (text "SERVER_ERROR Out of memory allocating new item") w
  | Some p =>
      s ← write_data p 0 tmpbuf res (w_store w);
      s ← write_data p (length tmpbuf) crlf 2 s;
      '(ret, cas, s) ← store_item hash cfg (item_env e) (c_set_stale (w_conn w)) p NREAD_ADD s;
      let w := with_store s w in
      let w := match cas with Some n => upd_conn (with_cas n) w | None => w end in
      w ← (if bool_decide (ret <> NOT_STORED) then
             it ← get_item p (w_store w);
             write_bin_response b (b_cmd b) (be_store 8 initial) 0 0 (upd_conn (with_cas (ITEM_get_cas it)) w)
           else write_bin_error b RESPONSE_NOT_STORED None 0 w);
      on_store (item_remove p) w
  end.

Definition complete_incr_bin (e : senv) (b : bin_conn) (ext key : list Z) (w : world T) : outcome (world T) :=
  ext ← read_bytes ext 20;
  let delta := be_load (slice ext 0 8) in
  let initial := be_load (slice ext 8 8) in
  let expiration := be_load (slice ext 16 4) in
  '(r, cas, tmpbuf, _, s) ← add_delta hash cfg (item_env e) key (b_cmd b =? CMD_INCREMENT) delta
                              (Some (bh_cas (b_header b))) (w_store w);
  let w := with_store s w in
  match r with
  | OK =>
      let value := (strtoull 10 tmpbuf).1.1 in
      let cas := default 0 cas in
      let w := if negb (cas =? 0) then upd_conn (with_cas cas) w else w in
      write_bin_response b (b_cmd b) (be_store 8 value) 0 0 w
  | NON_NUMERIC => write_bin_error b RESPONSE_DELTA_BADVAL None 0 w
  | EOM => bin_out_of_memory b (text "SERVER_ERROR Out of memory incrementing value") w
  | DELTA_ITEM_NOT_FOUND =>
      if negb (expiration =? 0xffffffff) then bin_incr_create e b key initial expiration w
      else write_bin_error b RESPONSE_KEY_ENOENT None 0 w
  | DELTA_ITEM_CAS_MISMATCH => write_bin_error b RESPONSE_KEY_EEXISTS None 0 w
  end.

(** ** Storing a value that was read *)

(** The final line break, which this protocol does not send, is put behind the value.  There is room
    for it in the last chunk of a large item. *)
Definition bin_terminate (p : positive) (s : store T) : outcome (store T) :=
  it ← get_item p s;
  if negb (has_flag ITEM_CHUNKED it) then
    write_data p (Z.to_nat (it_nbytes it - 2)) crlf 2 s
  else
    if chunk_room it =? 0 then Ub else
    _ ← c_assert (2 <=? chunk_room it);
    upd_item p (fun i => set_data (it_data i ++ crlf) i) s.

(** The status of a value that was not stored. *)
Definition bin_refused (comm : nread) : Z :=
  match comm with
  | NREAD_ADD => RESPONSE_KEY_EEXISTS
  | NREAD_REPLACE => RESPONSE_KEY_ENOENT
  | _ => RESPONSE_NOT_STORED
  end.

(** [c->cmd] is one of the [NREAD] numbers here, none of which is the opcode of a get. *)
Definition complete_update_bin (e : senv) (b : bin_conn) (w : world T) : outcome (world T) :=
  let c := w_conn w in
  p ← deref (c_item c);
  s ← bin_terminate p (w_store w);
  '(ret, cas, s) ← store_item hash cfg (item_env e) (c_set_stale c) p (c_cmd c) s;
  let w := with_store s w in
  let w := match cas with Some n => upd_conn (with_cas n) w | None => w end in
  w ← match ret with
      | STORED => write_bin_response b 1 [] 0 0 w
      | EXISTS => write_bin_error b RESPONSE_KEY_EEXISTS None 0 w
      | NOT_FOUND => write_bin_error b RESPONSE_KEY_ENOENT None 0 w
      | NOT_STORED | TOO_LARGE | NO_MEMORY => write_bin_error b (bin_refused (c_cmd c)) None 0 w
      end;
  w ← on_store (item_remove p) w;
  Ret (upd_conn (with_item None) w).

(** ** get, getk, touch, gat and gatk *)

(** The answer for the item [p]: the header, the flags, the key and the value without its line break. *)
Definition bin_get_hit (b : bin_conn) (key : list Z) (p : positive) (w : world T) : outcome (world T) :=
  let cmd := b_cmd b in
  let should_return_key := (cmd =? CMD_GETK) || (cmd =? CMD_GATK) in
  let should_return_value := negb (cmd =? CMD_TOUCH) in
  let nkey := Z.of_nat (length key) in
  it ← get_item p (w_store w);
  let bodylen := u32 (4 + (it_nbytes it - 2)) in
  let bodylen := if cmd =? CMD_TOUCH then u32 (bodylen - (it_nbytes it - 2))
                 else if should_return_key then u32 (bodylen + nkey) else bodylen in
  let keylen := if negb (cmd =? CMD_TOUCH) && should_return_key then nkey else 0 in
  w ← add_bin_header b 0 4 keylen bodylen (ITEM_get_cas it) w;
  w ← resp_add_iov (IovBuf (be_store 4 (FLAGS_CONV it))) w;
  w ← (if should_return_key then k ← read_bytes (item_key it) (length key); resp_add_iov (IovBuf k) w else Ret w);
  w ← (if should_return_value then
         if has_flag ITEM_CHUNKED it then resp_add_chunked_iov p (it_nbytes it - 2) w
         else resp_add_iov (IovItem p (it_nbytes it - 2)) w
       else Ret w);
  upd_resp (fun r => mkResp (resp_iov r) (Some p) (resp_skip r) (resp_wbuf r)) (conn_set_state conn_new_cmd w).

Definition process_bin_get_or_touch (e : senv) (b : bin_conn) (ext key : list Z) (w : world T) : outcome (world T) :=
  let cmd := b_cmd b in
  let should_touch := (cmd =? CMD_TOUCH) || (cmd =? CMD_GAT) || (cmd =? CMD_GATK) in
  let should_return_key := (cmd =? CMD_GETK) || (cmd =? CMD_GATK) in
  '(r, s) ← (if should_touch then
               ext ← read_bytes ext 4;
               item_touch hash cfg (item_env e) key (realtime srv (be_load ext)) (w_store w)
             else item_get hash cfg (item_env e) key true (w_store w));
  let w := with_store s w in
  match r with
  | Some p => bin_get_hit b key p w
  | None =>
      if c_noreply (w_conn w) then Ret (conn_set_state conn_new_cmd w)
      else write_bin_miss_response b (if should_return_key then key else []) w
  end.

(** ** SASL *)

(** The length of the body without the key, an [int] made from unsigned numbers. *)
Definition bin_value_length (b : bin_conn) : Z := i32 (bh_bodylen (b_header b) - bh_keylen (b_header b)).

Definition bin_list_sasl_mechs (b : bin_conn) (w : world T) : outcome (bin_conn * world T) :=
  if negb use_sasl then
    w ← write_bin_error b RESPONSE_UNKNOWN_COMMAND None (bin_value_length b) w; Ret (b, w)
  else
    let b := set_authenticated false b in
    match sasl_listmech lib with
    | None => w ← write_bin_error b RESPONSE_AUTH_ERROR None 0 w; Ret (b, w)
    | Some mechs => w ← write_bin_response b (b_cmd b) mechs 0 0 w; Ret (b, w)
    end.

Definition process_bin_sasl_auth (e : senv) (b : bin_conn) (key : list Z) (w : world T) : outcome (bin_conn * world T) :=
  if negb use_sasl then
    w ← write_bin_error b RESPONSE_UNKNOWN_COMMAND None (bin_value_length b) w; Ret (b, w)
  else
    _ ← c_assert (bh_extlen (b_header b) =? 0);
    let vlen := bin_value_length b in
    if MAX_SASL_MECH_LEN <? Z.of_nat (length key) then
      w ← write_bin_error b RESPONSE_EINVAL None vlen w; Ret (b, conn_set_state conn_swallow w)
    else
      nbytes ← c_int (vlen + 2);
      '(r, s) ← item_alloc hash cfg (item_env e) key 0 0 nbytes (w_store w);
      let w := with_store s w in
      let fail := w ← write_bin_error b RESPONSE_ENOMEM None vlen w; Ret (conn_set_state conn_swallow w) in
      match r with
      | None => w ← fail; Ret (b, w)
      | Some p =>
          it ← get_item p (w_store w);
          if has_flag ITEM_CHUNKED it then w ← fail; w ← on_store (do_item_remove p) w; Ret (b, w)
          else
            let w := upd_conn (fun c => with_nread (c_cmd c) vlen (with_item (Some p) c)) w in
            Ret (set_substate bin_reading_sasl_auth_data b, conn_set_state conn_nread w)
      end.

Definition process_bin_complete_sasl_auth (b : bin_conn) (w : world T) : outcome (bin_conn * world T) :=
  _ ← c_assert use_sasl;
  p ← deref (c_item (w_conn w));
  let b := set_authenticated false b in
  it ← get_item p (w_store w);
  let nkey := bh_keylen (b_header b) in
  let vlen := bin_value_length b in
  let invalid := w ← write_bin_error b RESPONSE_EINVAL None vlen w; Ret (b, conn_set_state conn_swallow w) in
  if Z.of_nat (length (item_key it)) <? nkey then invalid else
  mech ← read_bytes (item_key it) (Z.to_nat nkey);
  if it_nbytes it <? vlen then invalid else
  challenge ← (if vlen =? 0 then Ret None
               else data ← plain_data it; c ← read_bytes data (Z.to_nat vlen); Ret (Some c));
  '(result, out, b) ←
    (if b_cmd b =? CMD_SASL_AUTH then
       let '(result, out) := sasl_server_start lib (c_string mech) challenge in
       Ret (result, out, set_sasl_started (match result with SASL_OTHER => false | _ => true end) b)
     else if b_cmd b =? CMD_SASL_STEP then
       if negb (b_sasl_started b) then Ret (SASL_OTHER, [], b)
       else let '(result, out) := sasl_server_step lib challenge in Ret (result, out, b)
     else Abort);
  match result with
  | SASL_OK =>
      let b := set_authenticated true b in
      w ← write_bin_response b (b_cmd b) (text "Authenticated") 0 0 w; Ret (b, w)
  | SASL_CONTINUE =>
      let outlen := Z.of_nat (length out) in
      w ← add_bin_header b RESPONSE_AUTH_CONTINUE 0 0 outlen (c_cas (w_conn w)) w;
      w ← (if 0 <? outlen then resp_add_iov (IovBuf out) w else Ret w);
      Ret (b, conn_set_state conn_mwrite w)
  | SASL_OTHER => w ← write_bin_error b RESPONSE_AUTH_ERROR None 0 w; Ret (b, w)
  end.

Definition authenticated (b : bin_conn) : bool :=
  let cmd := b_cmd b in
  if (cmd =? CMD_SASL_LIST_MECHS) || (cmd =? CMD_SASL_AUTH) || (cmd =? CMD_SASL_STEP) || (cmd =? CMD_VERSION)
  then true else b_authenticated b.

(** ** set, add, replace, append and prepend *)

(** The item is ready for the value; [comm] is the new [c->cmd]. *)
Definition bin_begin_value (b : bin_conn) (comm : nread) (vlen : Z) (p : positive) (w : world T) : outcome (bin_conn * world T) :=
  let w := upd_conn (fun c => with_nread comm vlen (with_item (Some p) c)) w in
  Ret (set_substate bin_read_set_value b, conn_set_state conn_nread w).

(** No item could be allocated; the message about the memory leaves the length to be swallowed to
    the caller. *)
Definition bin_update_failed (b : bin_conn) (key : list Z) (flags vlen nbytes : Z) (w : world T) : outcome (world T) :=
  if negb (item_size_ok cfg (Z.of_nat (length key)) flags nbytes) then write_bin_error b RESPONSE_E2BIG None vlen w
  else
    w ← bin_out_of_memory b (text "SERVER_ERROR Out of memory allocating item") w;
    Ret (upd_conn (with_sbytes vlen) w).

Definition process_bin_update (e : senv) (b : bin_conn) (ext key : list Z) (w : world T) : outcome (bin_conn * world T) :=
  ext ← read_bytes ext 8;
  let flags := be_load (slice ext 0 4) in
  let expiration := be_load (slice ext 4 4) in
  let vlen := i32 (bh_bodylen (b_header b) - (bh_keylen (b_header b) + bh_extlen (b_header b))) in
  nbytes ← c_int (vlen + 2);
  '(r, s) ← item_alloc hash cfg (item_env e) key flags (realtime srv expiration) nbytes (w_store w);
  let w := with_store s w in
  match r with
  | None =>
      w ← bin_update_failed b key flags vlen nbytes w;
      w ← (if b_cmd b =? CMD_SET then
             '(r, s) ← item_get hash cfg (item_env e) key false (w_store w);
             let w := with_store s w in
             match r with
             | Some p => w ← on_store (item_unlink hash p) w; on_store (item_remove p) w
             | None => Ret w
             end
           else Ret w);
      Ret (b, conn_set_state conn_swallow w)
  | Some p =>
      w ← on_store (upd_item p (ITEM_set_cas (bh_cas (b_header b)))) w;
      comm ← (if b_cmd b =? CMD_ADD then Ret NREAD_ADD
              else if b_cmd b =? CMD_SET then Ret NREAD_SET
              else if b_cmd b =? CMD_REPLACE then Ret NREAD_REPLACE
              else Abort);
      it ← get_item p (w_store w);
      bin_begin_value b (if negb (ITEM_get_cas it =? 0) then NREAD_CAS else comm) vlen p w
  end.

Definition process_bin_append_prepend (e : senv) (b : bin_conn) (key : list Z) (w : world T) : outcome (bin_conn * world T) :=
  let vlen := bin_value_length b in
  nbytes ← c_int (vlen + 2);
  '(r, s) ← item_alloc hash cfg (item_env e) key 0 0 nbytes (w_store w);
  let w := with_store s w in
  match r with
  | None => w ← bin_update_failed b key 0 vlen nbytes w; Ret (b, conn_set_state conn_swallow w)
  | Some p =>
      w ← on_store (upd_item p (ITEM_set_cas (bh_cas (b_header b)))) w;
      comm ← (if b_cmd b =? CMD_APPEND then Ret NREAD_APPEND
              else if b_cmd b =? CMD_PREPEND then Ret NREAD_PREPEND
              else Abort);
      bin_begin_value b comm vlen p w
  end.

(** ** flush and delete *)

Definition process_bin_flush (b : bin_conn) (ext : list Z) (w : world T) : outcome (control * world T) :=
  if negb (ct_flush_enabled ctl) then w ← write_bin_error b RESPONSE_AUTH_ERROR None 0 w; Ret (ctl, w) else
  exptime ← (if bh_extlen (b_header b) =? 4 then ext ← read_bytes ext 4; Ret (be_load ext) else Ret 0);
  let new_oldest := if 0 <? exptime then realtime srv exptime else current_time cfg in
  let '(srv', s) := flush_from new_oldest srv (w_store w) in
  w ← write_bin_response b (b_cmd b) [] 0 0 (with_store s w);
  Ret (set_srv srv' ctl, w).

Definition process_bin_delete (e : senv) (b : bin_conn) (key : list Z) (w : world T) : outcome (world T) :=
  '(r, s) ← item_get_locked hash srv (item_env e) key false (w_store w);
  let w := with_store s w in
  match r with
  | None => write_bin_error b RESPONSE_KEY_ENOENT None 0 w
  | Some p =>
      it ← get_item p (w_store w);
      let cas := bh_cas (b_header b) in
      w ← (if (cas =? 0) || (cas =? ITEM_get_cas it) then
             w ← on_store (do_item_unlink p (hash key)) w;
             write_bin_response b (b_cmd b) [] 0 0 w
           else write_bin_error b RESPONSE_KEY_EEXISTS None 0 w);
      on_store (do_item_remove p) w
  end.

(** ** The dispatcher *)

(** The opcodes of the quiet commands, and what they stand for. *)
Definition quiet_commands : list (Z * Z) :=
  [(CMD_SETQ, CMD_SET); (CMD_ADDQ, CMD_ADD); (CMD_REPLACEQ, CMD_REPLACE); (CMD_DELETEQ, CMD_DELETE);
   (CMD_INCREMENTQ, CMD_INCREMENT); (CMD_DECREMENTQ, CMD_DECREMENT); (CMD_QUITQ, CMD_QUIT); (CMD_FLUSHQ, CMD_FLUSH);
   (CMD_APPENDQ, CMD_APPEND); (CMD_PREPENDQ, CMD_PREPEND); (CMD_GETQ, CMD_GET); (CMD_GETKQ, CMD_GETK);
   (CMD_GATQ, CMD_GAT); (CMD_GATKQ, CMD_GATK)].

Definition find_quiet (cmd : Z) : option Z :=
  foldr (fun q r => if cmd =? q.1 then Some q.2 else r) None quiet_commands.

(** What the second [switch] decides: a handler, a malformed request, an unknown command. *)
Inductive bin_action :=
| BinVersion | BinFlush | BinNoop | BinUpdate | BinGetOrTouch | BinDelete | BinIncr | BinAppend | BinStat | BinQuit
| BinSaslList | BinSaslAuth | BinProtocolError | BinUnknown.

Definition bin_switch (cmd extlen keylen bodylen : Z) : bin_action :=
  let accept (ok : bool) (a : bin_action) := if ok then a else BinProtocolError in
  let empty := (extlen =? 0) && (keylen =? 0) && (bodylen =? 0) in
  if cmd =? CMD_VERSION then accept empty BinVersion
  else if cmd =? CMD_FLUSH then accept ((keylen =? 0) && (bodylen =? extlen) && ((extlen =? 0) || (extlen =? 4))) BinFlush
  else if cmd =? CMD_NOOP then accept empty BinNoop
  else if (cmd =? CMD_SET) || (cmd =? CMD_ADD) || (cmd =? CMD_REPLACE) then
    accept ((extlen =? 8) && negb (keylen =? 0) && (keylen + 8 <=? bodylen)) BinUpdate
  else if (cmd =? CMD_GETQ) || (cmd =? CMD_GET) || (cmd =? CMD_GETKQ) || (cmd =? CMD_GETK) then
    accept ((extlen =? 0) && (bodylen =? keylen) && (0 <? keylen)) BinGetOrTouch
  else if cmd =? CMD_DELETE then accept ((0 <? keylen) && (extlen =? 0) && (bodylen =? keylen)) BinDelete
  else if (cmd =? CMD_INCREMENT) || (cmd =? CMD_DECREMENT) then
    accept ((0 <? keylen) && (extlen =? 20) && (bodylen =? keylen + extlen)) BinIncr
  else if (cmd =? CMD_APPEND) || (cmd =? CMD_PREPEND) then accept ((0 <? keylen) && (extlen =? 0)) BinAppend
  else if cmd =? CMD_STAT then accept (extlen =? 0) BinStat
  else if cmd =? CMD_QUIT then accept ((keylen =? 0) && (extlen =? 0) && (bodylen =? 0)) BinQuit
  else if cmd =? CMD_SASL_LIST_MECHS then accept empty BinSaslList
  else if (cmd =? CMD_SASL_AUTH) || (cmd =? CMD_SASL_STEP) then accept ((extlen =? 0) && negb (keylen =? 0)) BinSaslAuth
  else if (cmd =? CMD_TOUCH) || (cmd =? CMD_GAT) || (cmd =? CMD_GATQ) || (cmd =? CMD_GATK) || (cmd =? CMD_GATKQ) then
    accept ((extlen =? 4) && negb (keylen =? 0)) BinGetOrTouch
  else BinUnknown.

(** What the switch does for each request but the one for statistics, for which the result is [None]:
    [process_bin_stat] is not modelled. *)
Definition run_bin (e : senv) (b : bin_conn) (ext key : list Z) (a : bin_action) (w : world T)
    : outcome (option (control * bin_conn * world T)) :=
  let only r := w ← r; Ret (Some (ctl, b, w)) in
  let both r := '(b, w) ← r; Ret (Some (ctl, b, w)) in
  match a with
  | BinVersion => only (write_bin_response b (b_cmd b) (ct_version ctl) 0 0 w)
  | BinFlush => '(ctl, w) ← process_bin_flush b ext w; Ret (Some (ctl, b, w))
  | BinNoop => w ← write_bin_response b (b_cmd b) [] 0 0 w; Ret (Some (ctl, b, conn_set_state conn_mwrite w))
  | BinUpdate => both (process_bin_update e b ext key w)
  | BinGetOrTouch => only (process_bin_get_or_touch e b ext key w)
  | BinDelete => only (process_bin_delete e b key w)
  | BinIncr => only (complete_incr_bin e b ext key w)
  | BinAppend => both (process_bin_append_prepend e b key w)
  | BinStat => Ret None
  | BinQuit => w ← write_bin_response b (b_cmd b) [] 0 0 w; Ret (Some (ctl, set_close b, conn_set_state conn_mwrite w))
  | BinSaslList => both (bin_list_sasl_mechs b w)
  | BinSaslAuth => both (process_bin_sasl_auth e b key w)
  | BinProtocolError => both (handle_binary_protocol_error b w)
  | BinUnknown => only (write_bin_error b RESPONSE_UNKNOWN_COMMAND None (i32 (bh_bodylen (b_header b))) w)
  end.

Definition dispatch_bin_command (e : senv) (b : bin_conn) (ext key : list Z) (w : world T)
    : outcome (option (control * bin_conn * world T)) :=
  let h := b_header b in
  let extlen := bh_extlen h in
  let keylen := bh_keylen h in
  let bodylen := bh_bodylen h in
  let refuse err := w ← write_bin_error b err None 0 w; Ret (Some (ctl, set_close b, w)) in
  if (bodylen <? keylen) || (bodylen <? keylen + extlen) then refuse RESPONSE_UNKNOWN_COMMAND else
  if use_sasl && negb (authenticated b) then refuse RESPONSE_AUTH_ERROR else
  let w := upd_conn (with_noreply true) w in
  if KEY_MAX_LENGTH <? keylen then '(b, w) ← handle_binary_protocol_error b w; Ret (Some (ctl, b, w)) else
  let '(b, w) := match find_quiet (b_cmd b) with
                 | Some cmd => (set_cmd cmd b, w)
                 | None => (b, upd_conn (with_noreply false) w)
                 end in
  run_bin e b ext key (bin_switch (b_cmd b) extlen keylen bodylen) w.

(** ** Packets *)

(** The result of a read: more bytes are needed, the connection is closing, or a request was
    handled and the rest of the buffer is left; [BinUnmodelled] for statistics, which are not modelled. *)
Inductive bin_read :=
| BinMore
| BinClosing (w : world T)
| BinHandled (ctl : control) (b : bin_conn) (rbuf : list Z) (w : world T)
| BinUnmodelled.

Definition try_read_command_binary (e : senv) (b : bin_conn) (rbuf : list Z) (w : world T) : outcome bin_read :=
  if (length rbuf <? 24)%nat then Ret BinMore else
  let h := read_header rbuf in
  if negb (bh_magic h =? PROTOCOL_BINARY_REQ) then Ret (BinClosing (conn_set_state conn_closing w)) else
  let extlen := Z.to_nat (bh_extlen h) in
  let keylen := Z.to_nat (bh_keylen h) in
  if (length rbuf <? keylen + extlen + 24)%nat then Ret BinMore else
  let '(started, w) := start_response e w in
  if negb started then Ret (BinClosing (conn_set_state conn_closing w)) else
  let b := mkBin h (bh_opcode h) (b_substate b) (b_close_after_write b) (b_authenticated b) (b_sasl_started b) in
  let w := upd_conn (with_cas 0) w in
  let ext := slice rbuf 24 (Nat.min extlen BIN_MAX_EXTLEN) in
  let key := slice rbuf (24 + extlen) keylen in
  r ← dispatch_bin_command e b ext key w;
  Ret (match r with
       | Some (ctl, b, w) => BinHandled ctl b (drop (24 + extlen + keylen) rbuf) w
       | None => BinUnmodelled
       end).

(** [read_into_chunked_item] on a connection of this protocol: two bytes more are allocated for the
    line break.  When a single byte is left in the last chunk, another chunk is taken for it, and
    that byte is not used: the size that is kept is that of the part in use. *)
Fixpoint bin_read_chunks (fuel : nat) (e : senv) (p : positive) (rbuf : list Z) (s : store T)
    : outcome (bool * list Z * store T) :=
  match fuel with
  | O => Ub
  | S fuel =>
      if (length rbuf =? 0)%nat then Ret (true, rbuf, s) else
      ch ← get_item p s;
      let unused := chunk_room ch in
      let rlbytes := Z.of_nat (length rbuf) in
      if unused =? 0 then
        '(ok, s) ← do_item_alloc_chunk hash cfg (trylock (item_env e)) p (rlbytes + 2) s;
        if negb ok then Ret (false, rbuf, s) else bin_read_chunks fuel e p rbuf s
      else
        let tocopy := Z.to_nat (Z.min rlbytes unused) in
        s ← upd_item p (fun i => set_data (it_data i ++ take tocopy rbuf) i) s;
        bin_read_chunks fuel e p (drop tocopy rbuf) s
  end.

(** The size of the last chunk becomes that of its part in use. *)
Definition close_last_chunk (i : item) : item :=
  match rev (it_chunks i) with
  | [] => i
  | n :: l => set_chunks (rev l ++ [n - chunk_room i]) i
  end.

Definition bin_read_into_chunked_item (e : senv) (p : positive) (bytes : list Z) (s : store T)
    : outcome (bool * list Z * store T) :=
  '(ok, rest, s) ← bin_read_chunks (1 + 2 * length bytes) e p bytes s;
  if negb ok then Ret (false, rest, s) else
  ch ← get_item p s;
  if 2 <=? chunk_room ch then Ret (true, rest, s) else
  s ← upd_item p close_last_chunk s;
  '(ok, s) ← do_item_alloc_chunk hash cfg (trylock (item_env e)) p 2 s;
  Ret (ok, rest, s).

(** [complete_nread_binary]. *)
Definition complete_nread_binary (e : senv) (b : bin_conn) (w : world T) : outcome (bin_conn * world T) :=
  match b_substate b with
  | bin_read_set_value => w ← complete_update_bin e b w; Ret (b, w)
  | bin_reading_sasl_auth_data =>
      '(b, w) ← process_bin_complete_sasl_auth b w;
      match c_item (w_conn w) with
      | Some p => w ← on_store (do_item_remove p) w; Ret (b, upd_conn (with_item None) w)
      | None => Ret (b, w)
      end
  | bin_no_state => Abort
  end.

(** The state [conn_nread] of [drive_machine], once all the bytes of the value have arrived. *)
Definition bin_nread_value (e : senv) (b : bin_conn) (bytes : list Z) (w : world T) : outcome (bin_conn * world T) :=
  let c := w_conn w in
  if c_rlbytes c <? 0 then Ret (b, conn_set_state conn_closing w) else
  if negb (Z.of_nat (length bytes) =? c_rlbytes c) then Ub else
  p ← deref (c_item c);
  it ← get_item p (w_store w);
  '(ok, rest, s) ← (if (length bytes =? 0)%nat then Ret (true, [], w_store w)
                    else if negb (has_flag ITEM_CHUNKED it) then
                      s ← write_data p 0 bytes (Z.of_nat (length bytes)) (w_store w); Ret (true, [], s)
                    else bin_read_into_chunked_item e p bytes (w_store w));
  let w := with_store s w in
  let w := upd_conn (with_nread (c_cmd c) (Z.of_nat (length rest))) w in
  if ok : bool then complete_nread_binary e b w
  else
    w ← bin_out_of_memory b (text "SERVER_ERROR Out of memory during read") w;
    let w := upd_conn (with_sbytes (Z.of_nat (length rest))) w in
    Ret (b, upd_conn (with_mset false false) (conn_set_state conn_swallow w)).

End Binary.
