(* ===== verification/DeltaSafe.v ===== *)
(** * Increments of any value

    Whatever the value of an item is, [do_add_delta] returns and leaves a consistent store whose
    values are in order, for any CAS number the caller compares. *)

From S2P Require Import Prelude Items LruFacts ItemsFacts ItemAlloc ItemAllocFacts Util Itoa.
From S2P Require Import Store StoreFacts DeltaFacts Conn ProtoText ProtoMeta MetaFacts.

Local Open Scope Z_scope.

Lemma strtoull_range base str : 0 <= (strtoull base str).1.1 < 2 ^ 64.
Proof. unfold strtoull. case_match; [|simpl; lia]. repeat case_match; simpl; (apply u64_range || lia). Qed.

Lemma safe_strtoull_range str : exists ok n, safe_strtoull str true = Ret (ok, n) /\ 0 <= n < 2 ^ 64.
Proof.
  unfold safe_strtoull. cbn [c_assert]. rewrite ret_bind. pose proof (strtoull_range 10 str) as H.
  destruct (strtoull 10 str) as [[ull endptr] er]. simpl in H. repeat case_match; eexists _, _; (split; [done|]); lia.
Qed.

Section Delta.
Context {T : Type} {table_ops : ItemTable T} {slabs : SlabAllocator} (hash : list Z -> Z).
Context {table_laws : ItemTableLaws hash T} {slab_laws : SlabAllocatorLaws} (cfg : settings).
Context (no_repair : tail_repair_time cfg = 0) (Hslab : 400 <= slab_chunk_size_max cfg).
Implicit Types (s : store T) (m : gmap (list Z) positive) (refs : positive -> Z).

(** A value that keeps the key and the client's flags of one in order. *)
Lemma tidy_recounted v v' : tidy_value v -> recounted v v' -> 0 <= v_cas v' < 2 ^ 64 -> 2 <= v_nbytes v' ->
  Z.of_nat (length (v_data v')) = v_nbytes v' -> tidy_value v'.
Proof. intros [[H1 H2 H3] H4] (E1 & E2 & E3) Hc Hn Hl. split; [|done]. split; [by rewrite E1|by rewrite E3|done]. Qed.

(** The values of the other keys stay or go. *)
Lemma tidy_others k v' s m s' m' : tidy s m -> (forall k', k' <> k -> value_at s' m' k' = value_at s m k' \/ m' !! k' = None) ->
  value_at s' m' k = Some v' -> tidy_value v' -> tidy s' m'.
Proof.
  intros Ht Ho Hv Hv' k' v Hk'. destruct (decide (k' = k)) as [->|Hne]; [by simplify_eq|].
  destruct (Ho k' Hne) as [E|E]; [rewrite E in Hk'; by apply (Ht k')|]. unfold value_at in Hk'. by rewrite E in Hk'.
Qed.

Lemma do_add_delta_safe e k incr delta cas s m lru refs :
  store_rep hash s m lru refs -> below 3 refs -> tidy s m -> 0 <= delta < 2 ^ 64 ->
  exists ret cas' buf s' m' lru', do_add_delta hash cfg e k incr delta cas (hash k) false s = Ret (ret, cas', buf, None, s') /\
    store_rep hash s' m' lru' refs /\ tidy s' m' /\ (ret = DELTA_ITEM_NOT_FOUND -> m' !! k = None).
Proof.
  intros R Hb Ht Hd. unfold do_add_delta.
  destruct (fetch_ok hash cfg s m lru refs k false (queued e) R Hb) as (r & s1 & m1 & lru1 & refs1 & -> & F1 & K1 & G1 & D1 & O1 & L1 & _ & N1 & P1).
  rewrite ret_bind. assert (tidy s1 m1) as Ht1 by (by eapply tidy_keeps). destruct r as [p|].
  2:{ eexists _, _, _, s1, m1, lru1. split; [reflexivity|]. split; [|done]. eapply store_rep_refs; [exact F1|]. intros q. symmetry. by apply N1. }
  destruct (P1 p eq_refl) as [-> Hp1]. destruct (store_linked _ _ _ _ _ _ _ F1 L1) as (it & Hp & Hkey & Hlk).
  assert (store_rep hash s1 m lru1 (set_refs p (refs p + 1) refs)) as R1.
  { eapply store_rep_refs; [exact F1|]. intros q. unfold set_refs. case_decide; [subst; lia|]. symmetry. apply N1. congruence. }
  assert (tidy_value (value_of it)) as Hv by (apply (Ht1 k); unfold value_at; by rewrite L1, Hp).
  assert (0 <= refs p) as Hr0. { destruct (K1 p it Hp) as (x & Ex & _). apply (sr_refs _ _ _ _ _ R p x Ex). }
  rewrite (get_item_ok _ _ _ Hp), ret_bind.
  assert (forall (ret : delta_result_type) (cas : option Z) (buf : list Z), ret <> DELTA_ITEM_NOT_FOUND -> exists ret' cas' buf' s' m' lru', (s ← do_item_remove p s1; Ret (ret, cas, buf, @None positive, s)) = Ret (ret', cas', buf', None, s') /\
    store_rep hash s' m' lru' refs /\ tidy s' m' /\ (ret' = DELTA_ITEM_NOT_FOUND -> m' !! k = None)) as Hrel.
  { intros ret c buf Hret. destruct (release hash s1 m lru1 _ p R1) as (s2 & -> & R2 & K2 & _); [rewrite set_refs_eq; lia|]. rewrite ret_bind.
    eexists _, _, _, s2, m, lru1. split; [reflexivity|]. split; [|split; [by eapply tidy_keeps|done]].
    eapply store_rep_refs; [exact R2|]. intros q. unfold set_refs. repeat case_decide; subst; lia || done. }
  destruct ((it_nbytes it <=? 2) || has_flag ITEM_CHUNKED it) eqn:Hsize; [by apply Hrel|]. apply orb_false_iff in Hsize as [Hn2%Z.leb_gt Hch].
  case_match; [by apply Hrel|]. unfold plain_data, ITEM_data. rewrite Hch, ret_bind.
  destruct (safe_strtoull_range (c_string (it_data it ++ beyond e))) as (ok & n & -> & Hn). rewrite ret_bind. destruct ok; cbn [negb]; [|by apply Hrel].
  set (buf := itoa_u64 _). cbv zeta.
  assert (length buf <= 20)%nat as Hlb by (apply itoa_u64_length; by apply delta_range).
  destruct (sr_refs _ _ _ _ _ R1 p it Hp) as (Er & _). rewrite set_refs_eq, Hlk in Er.
  destruct Hv as (Hpl & Hv2 & Hlen). specialize (Hlen Hch). simpl in Hv2, Hlen.
  destruct ((Z.of_nat (length buf) + 2 <=? it_nbytes it) && (it_refcount it =? 2)) eqn:Hcond.
  - apply andb_true_iff in Hcond as [Hfit%Z.leb_le _].
    destruct (in_place hash cfg s1 m lru1 refs k p it cas buf R1 Hr0 L1 Hp Hch Hlen Hfit)
      as (s' & lru' & v' & cas' & E & _ & R' & K' & Hv' & Hrec & _ & Hnb & _ & _ & Hld & Hc' & Hcr).
    exists OK, cas', buf, s', m, lru'. split; [exact E|]. split; [done|]. split; [|done]. eapply tidy_but; [exact Ht1|exact K'|done|].
    intros i' Hi'. unfold value_at in Hv'. rewrite L1, Hi' in Hv'. injection Hv' as <-.
    eapply tidy_recounted; [|exact Hrec|done|rewrite Hnb; lia|rewrite Hld, Hnb; exact Hlen]. done.
  - rewrite (proj2 (Z.ltb_lt 1 (it_refcount it))) by lia.
    destruct (replaced hash cfg no_repair e s1 m lru1 refs k p it cas buf R1 Hr0 L1 Hp Hkey) as (ret & cas' & s' & m' & lru' & E & _ & R' & Ho & Hres).
    { apply (below_le 3); [done|lia]. } { by apply tidy_no_crawler. } { apply small_item; lia. }
    exists ret, cas', buf, s', m', lru'. split; [exact E|]. split; [done|].
    assert (exists v', value_at s' m' k = Some v' /\ tidy_value v') as (v' & Hv' & Htv).
    { destruct Hres as [[_ Hv]|[_ (v' & Hv & Hrec & Hdat & Hnb & Hc' & Hcr)]].
      - exists (value_of it). rewrite Hv. unfold value_at. by rewrite L1, Hp.
      - exists v'. split; [done|]. eapply tidy_recounted; [|exact Hrec|done|lia|rewrite Hdat, Hnb, length_app; simpl; lia]. done. }
    split; [by eapply tidy_others|]. by destruct Hres as [[-> _]|[-> _]].
Qed.
End Delta.
