(* ===== verification/BinFacts.v ===== *)
(** * Facts about the binary protocol

    The layout of the headers, and the safety of the handlers: whatever bytes a client sends, a
    request is answered, the store stays consistent and the Merkle tree is not touched. *)

From S2P Require Import Prelude Items LruFacts ItemsFacts ItemAlloc ItemAllocFacts Util Itoa.
From S2P Require Import Store StoreFacts DeltaFacts MtCrypto MtArrayList MerkleTree Aes128 Cmac CmacFacts Conn ProtoText.
From S2P Require Import ProtoFacts ServerFacts ProtoMeta MetaFacts DeltaSafe ProtoAdmin ProtoBin.
From Stdlib Require Ascii String.
Import String.StringSyntax.

Local Open Scope string_scope.
Local Open Scope Z_scope.

(** ** Byte order *)

Lemma length_be_store n z : length (be_store n z) = n.
Proof. revert z. induction n as [|n IH]; intros z; [done|]. cbn [be_store]. rewrite length_app, IH. simpl. lia. Qed.

Lemma be_load_snoc l x : be_load (l ++ [x]) = 256 * be_load l + x.
Proof. unfold be_load. by rewrite foldl_app. Qed.

Lemma be_load_app l1 l2 : be_load (l1 ++ l2) = be_load l1 * 256 ^ Z.of_nat (length l2) + be_load l2.
Proof.
  induction l2 as [|x l2 IH] using rev_ind; [rewrite app_nil_r; change (be_load []) with 0; simpl; lia|].
  rewrite app_assoc, !be_load_snoc, IH, length_app, Nat2Z.inj_add, Z.pow_add_r by lia. simpl. lia.
Qed.

Lemma be_load_store n z : 0 <= z < 256 ^ Z.of_nat n -> be_load (be_store n z) = z.
Proof.
  revert z. induction n as [|n IH]; intros z Hz; [change (0 = z); simpl in Hz; lia|]. cbn [be_store].
  rewrite Nat2Z.inj_succ, Z.pow_succ_r in Hz by lia. rewrite be_load_snoc.
  rewrite IH by (Z.to_euclidean_division_equations; nia). pose proof (Z.div_mod z 256). lia.
Qed.

Lemma be_load_range l : bytes_ok l -> 0 <= be_load l < 256 ^ Z.of_nat (length l).
Proof.
  induction l as [|x l IH] using rev_ind; [intros; change (be_load []) with 0; simpl; lia|]. intros [H1 H2]%Forall_app. rewrite be_load_snoc, length_app.
  apply Forall_cons_1 in H2 as [H2 _]. unfold byte_ok in H2. specialize (IH H1). simpl length.
  rewrite Nat2Z.inj_add, Z.pow_add_r by lia. change (256 ^ Z.of_nat 1) with 256. lia.
Qed.

Lemma i32_range z : - 2 ^ 31 <= i32 z < 2 ^ 31.
Proof. unfold i32. pose proof (Z.mod_pos_bound (z + 2 ^ 31) (2 ^ 32) ltac:(lia)). lia. Qed.

(** A field of at most [n] bytes. *)
Lemma field_range l i n : bytes_ok l -> 0 <= be_load (slice l i n) < 256 ^ Z.of_nat n.
Proof.
  intros Hl. pose proof (be_load_range (slice l i n) ltac:(by apply Forall_take, Forall_drop)) as H.
  assert (length (slice l i n) <= n)%nat as Hn by (unfold slice; rewrite length_take; lia).
  pose proof (Z.pow_le_mono_r 256 (Z.of_nat (length (slice l i n))) (Z.of_nat n)). lia.
Qed.

(** ** Answers *)

Section Answers.
Context {T : Type} {table_ops : ItemTable T}.
Implicit Types (w : world T).

Lemma add_bin_header_ok b err hdr_len key_len body_len cas w rs r :
  c_resps (w_conn w) = rs ++ [r] -> resp_item r = None ->
  add_bin_header b err hdr_len key_len body_len cas w = Ret (upd_conn (with_resps (rs ++ [mkResp
    [IovBuf (response_header (bh_opcode (b_header b)) err hdr_len key_len body_len (bh_opaque (b_header b)) cas)] None false []])) w).
Proof.
  intros H Hi. unfold add_bin_header, resp_reset. rewrite (cur_resp_ok w rs r H), ret_bind, Hi. cbn [drop_item].
  rewrite ret_bind, (upd_resp_ok _ w rs r H), ret_bind.
  rewrite (resp_add_iov_ok _ (upd_conn _ w) rs (mkResp [] None false [])) by (simpl; done || lia). reflexivity.
Qed.

(** The connection has an answer without an item, and nothing else has changed. *)
Definition bin_answered w rs w' : Prop :=
  w_store w' = w_store w /\ w_tree w' = w_tree w /\ w_stderr w' = w_stderr w /\ c_item (w_conn w') = c_item (w_conn w) /\
  exists r, c_resps (w_conn w') = rs ++ [r] /\ resp_item r = None.

Lemma write_bin_error_ok b err errstr swallow w rs r :
  c_resps (w_conn w) = rs ++ [r] -> resp_item r = None -> is_Some errstr \/ is_Some (bin_error_text err) ->
  exists w', write_bin_error b err errstr swallow w = Ret w' /\ bin_answered w rs w' /\
    c_sbytes (w_conn w') = (if 0 <? swallow then swallow else c_sbytes (w_conn w)) /\
    c_state (w_conn w') = (if 0 <? swallow then conn_swallow else conn_mwrite).
Proof.
  intros H Hi He. unfold write_bin_error.
  assert (exists str, match errstr with Some str => Ret str | None => match bin_error_text err with Some str => Ret str | None => Abort end end = Ret str) as (str & ->).
  { destruct errstr as [s|]; [by eexists|]. destruct He as [[]|[s ->]]; [done|]. by eexists. }
  rewrite ret_bind, (add_bin_header_ok b err _ _ _ _ w rs r H Hi), ret_bind.
  set (w1 := upd_conn _ w). assert (exists w2, (if 0 <? Z.of_nat (length str) then resp_add_iov (IovBuf str) w1 else Ret w1) = Ret w2 /\
    bin_answered w rs w2 /\ c_sbytes (w_conn w2) = c_sbytes (w_conn w)) as (w2 & -> & (A1 & A2 & A3 & A4 & r2 & A5 & A6) & Hs).
  { destruct (0 <? Z.of_nat (length str)).
    - rewrite (resp_add_iov_ok _ w1 rs _ eq_refl) by (simpl; lia). eexists. split; [reflexivity|]. split; [|done]. split_and!; try done. by eexists.
    - exists w1. split; [done|]. split; [|done]. split_and!; try done. by eexists. }
  rewrite ret_bind. destruct (0 <? swallow).
  - eexists. split; [reflexivity|]. split; [|done]. split_and!; try done. by exists r2.
  - eexists. split; [reflexivity|]. split; [|done]. split_and!; try done. by exists r2.
Qed.

Lemma write_bin_response_ok b cmd d hlen keylen w rs r :
  c_resps (w_conn w) = rs ++ [r] -> resp_item r = None ->
  exists w', write_bin_response b cmd d hlen keylen w = Ret w' /\ bin_answered w rs w'.
Proof.
  intros H Hi. unfold write_bin_response. destruct (_ || _ || _).
  - rewrite (add_bin_header_ok b _ _ _ _ _ w rs r H Hi), ret_bind. set (w1 := upd_conn _ w).
    destruct (0 <? Z.of_nat (length d)).
    + rewrite (resp_add_iov_ok _ w1 rs _ eq_refl) by (simpl; lia). rewrite ret_bind. eexists. split; [reflexivity|]. split_and!; try done. by eexists.
    + rewrite ret_bind. eexists. split; [reflexivity|]. split_and!; try done. by eexists.
  - rewrite ret_bind. eexists. split; [reflexivity|]. split_and!; try done. by exists r.
Qed.

Lemma write_bin_miss_ok b key w rs r : c_resps (w_conn w) = rs ++ [r] -> resp_item r = None -> (length key <= 250)%nat ->
  exists w', write_bin_miss_response b key w = Ret w' /\ bin_answered w rs w'.
Proof.
  intros H Hi Hk. unfold write_bin_miss_response. destruct (negb _).
  - rewrite (add_bin_header_ok b _ _ _ _ _ w rs r H Hi), ret_bind. unfold WRITE_BUFFER_SIZE. rewrite (proj2 (Z.ltb_ge _ _)) by lia.
    set (w1 := upd_conn _ w). rewrite (resp_add_iov_ok _ w1 rs _ eq_refl) by (simpl; lia). rewrite ret_bind.
    eexists. split; [reflexivity|]. split_and!; try done. by eexists.
  - destruct (write_bin_error_ok b RESPONSE_KEY_ENOENT None 0 w rs r H Hi) as (w' & E & A & _); [right; by eexists|]. by exists w'.
Qed.

Lemma bin_out_of_memory_ok b msg w rs r : c_resps (w_conn w) = rs ++ [r] -> resp_item r = None ->
  exists w', bin_out_of_memory b msg w = Ret w' /\ bin_answered w rs w'.
Proof.
  intros H Hi. unfold bin_out_of_memory. destruct (write_bin_error_ok b RESPONSE_ENOMEM (Some (if is_prefix (text "SERVER_ERROR ") msg
    then drop (length (text "SERVER_ERROR ")) msg else msg)) 0 w rs r H Hi) as (w' & E & A & _); [left; by eexists|]. by exists w'.
Qed.

Lemma bin_answered_trans w w1 w2 rs : bin_answered w rs w1 -> bin_answered w1 rs w2 -> bin_answered w rs w2.
Proof. intros (A1 & A2 & A3 & A4 & _) (B1 & B2 & B3 & B4 & B5). split_and!; congruence || done. Qed.
End Answers.

(** ** Handlers *)

(** The item a connection is to read a value into: it is not linked, nobody else has it, and it has
    room for the value and the line break. *)
Definition awaited {T} (w : world T) (p : positive) : Prop := exists it, heap (w_store w) !! p = Some it /\
  linked it = false /\ it_nbytes it = c_rlbytes (w_conn w) + 2 /\ 0 <= c_rlbytes (w_conn w) /\ plain_value (value_of it) /\
  (has_flag ITEM_CHUNKED it = false -> Z.of_nat (length (it_data it)) = it_nbytes it) /\
  (has_flag ITEM_CHUNKED it = true -> it_data it = [] /\ it_chunks it = []).

(** What a handler leaves when it has started on [w]: a consistent store, the tree and the reports
    as they were, one response, which holds a reference to the item it shows, and maybe an item of
    the connection's own, which waits for its value. *)
Definition bin_done {T} {table_ops : ItemTable T} (hash : list Z -> Z) {table_laws : ItemTableLaws hash T} (w : world T)
    (refs : positive -> Z) (rs : list mc_resp) (w' : world T) : Prop :=
  exists m' lru' refs' r, store_rep hash (w_store w') m' lru' refs' /\ tidy (w_store w') m' /\
    (forall q, refs q <= refs' q <= refs q + 2) /\ w_tree w' = w_tree w /\ w_stderr w' = w_stderr w /\
    c_resps (w_conn w') = rs ++ [r] /\ (forall p, resp_item r = Some p -> refs p < refs' p) /\
    (forall p, c_item (w_conn w') = Some p -> refs p < refs' p /\ resp_item r = None /\ awaited w' p).

Section Handlers.
Context {T : Type} {table_ops : ItemTable T} {slabs : SlabAllocator} (hash : list Z -> Z).
Context {table_laws : ItemTableLaws hash T} {slab_laws : SlabAllocatorLaws} (ctl : control) (lib : sasl_lib).

Let srv := ct_srv ctl.
Let cfg := base_settings srv.

Context (no_repair : tail_repair_time cfg = 0).
Implicit Types (s : store T) (w : world T) (m : gmap (list Z) positive) (refs : positive -> Z).

Context (e : senv) (b : bin_conn) (w : world T) (m : gmap (list Z) positive) (lru : Z -> list positive) (refs : positive -> Z).
Context (rs : list mc_resp) (r0 : mc_resp) (ext key : list Z).
Context (R : store_rep hash (w_store w) m lru refs) (Hb : below 3 refs) (Ht : tidy (w_store w) m).
Context (Hr : c_resps (w_conn w) = rs ++ [r0]) (Hi : resp_item r0 = None) (Hk : (length key <= 250)%nat).
Context (Hc : c_item (w_conn w) = None).

Let done w' : Prop := bin_done hash w refs rs w'.

(** An answer on top of a consistent store. *)
Lemma answered_done w1 w' m1 lru1 refs1 :
  bin_answered w1 rs w' -> c_item (w_conn w1) = None -> w_tree w1 = w_tree w -> w_stderr w1 = w_stderr w -> store_rep hash (w_store w1) m1 lru1 refs1 ->
  tidy (w_store w1) m1 -> (forall q, refs q <= refs1 q <= refs q + 2) -> done w'.
Proof.
  intros (A1 & A2 & A3 & A4 & r & A5 & A6) H0 H1 H2 R1 T1 Hq. exists m1, lru1, refs1, r. rewrite A1, A2, A3, A4, A6, H0. by split_and!.
Qed.

Lemma answered_here w' : bin_answered w rs w' -> done w'.
Proof. intros A. apply (answered_done w w' m lru refs); try done. intros; lia. Qed.

Lemma held_nonneg q : 0 <= refs q.
Proof. destruct (heap (w_store w) !! q) as [x|] eqn:Ex; [apply (sr_refs _ _ _ _ _ R q x Ex)|by rewrite (sr_free _ _ _ _ _ R q Ex)]. Qed.

Lemma bin_get_hit_ok s1 m1 lru1 refs1 p it :
  store_rep hash s1 m1 lru1 refs1 -> tidy s1 m1 -> heap s1 !! p = Some it -> item_key it = key ->
  (forall q, refs q <= refs1 q <= refs q + 2) -> refs p < refs1 p ->
  exists w', bin_get_hit b key p (with_store s1 w) = Ret w' /\ done w'.
Proof.
  intros R1 T1 Hp Hkey Hq Hheld. unfold bin_get_hit. change (w_store (with_store s1 w)) with s1. rewrite (get_item_ok _ _ _ Hp), ret_bind.
  rewrite (add_bin_header_ok _ _ _ _ _ _ (with_store s1 w) rs r0 Hr Hi), ret_bind. set (hdr := response_header _ _ _ _ _ _ _).
  set (w1 := upd_conn _ _). rewrite (resp_add_iov_ok _ w1 rs _ eq_refl) by (simpl; lia). rewrite ret_bind.
  set (w2 := upd_conn _ w1). set (keyed := (b_cmd b =? CMD_GETK) || (b_cmd b =? CMD_GATK)).
  assert (exists w3 l3, (if keyed then k ← read_bytes (item_key it) (length key); resp_add_iov (IovBuf k) w2 else Ret w2) = Ret w3 /\
    c_resps (w_conn w3) = rs ++ [mkResp l3 None false []] /\ (length l3 <= 3)%nat /\ w_store w3 = s1 /\ w_tree w3 = w_tree w /\ w_stderr w3 = w_stderr w /\ c_item (w_conn w3) = None)
    as (w3 & l3 & -> & C3 & L3 & S3 & T3 & E3 & I3).
  { destruct keyed; [|exists w2; eexists; split; [reflexivity|]; split_and!; try done; simpl; lia].
    rewrite Hkey, read_bytes_ok, ret_bind by lia. rewrite (resp_add_iov_ok _ w2 rs _ eq_refl) by (simpl; lia).
    eexists _, _. split; [reflexivity|]. split; [reflexivity|]. split; [simpl; lia|done]. }
  rewrite ret_bind.
  assert (exists w4 l4, (if negb (b_cmd b =? CMD_TOUCH) then if has_flag ITEM_CHUNKED it then resp_add_chunked_iov p (it_nbytes it - 2) w3
      else resp_add_iov (IovItem p (it_nbytes it - 2)) w3 else Ret w3) = Ret w4 /\
    c_resps (w_conn w4) = rs ++ [mkResp l4 None false []] /\ w_store w4 = s1 /\ w_tree w4 = w_tree w /\ w_stderr w4 = w_stderr w /\ c_item (w_conn w4) = None)
    as (w4 & l4 & -> & C4 & S4 & T4 & E4 & I4).
  { unfold resp_add_chunked_iov. destruct (negb _); [|by exists w3, l3].
    destruct (has_flag ITEM_CHUNKED it); rewrite (resp_add_iov_ok _ w3 rs _ C3) by (simpl; lia); by eexists _, _. }
  rewrite ret_bind. rewrite (upd_resp_ok _ (conn_set_state conn_new_cmd w4) rs _ C4). eexists. split; [reflexivity|].
  exists m1, lru1, refs1, (mkResp l4 (Some p) false []). simpl. rewrite S4, T4, E4, I4. split_and!; try done. by intros p' [= <-].
Qed.

Lemma get_or_touch_ok :
  (((b_cmd b =? CMD_TOUCH) || (b_cmd b =? CMD_GAT) || (b_cmd b =? CMD_GATK)) = true -> (4 <= length ext)%nat) ->
  exists w', process_bin_get_or_touch hash ctl e b ext key w = Ret w' /\ done w'.
Proof.
  intros Hext. unfold process_bin_get_or_touch. fold srv cfg. set (touch := (b_cmd b =? CMD_TOUCH) || (b_cmd b =? CMD_GAT) || (b_cmd b =? CMD_GATK)) in *.
  destruct (fetch_ok hash cfg (w_store w) m lru refs key true (queued (item_env e)) R Hb) as (r & s1 & m1 & lru1 & refs1 & E & F1 & K1 & G1 & D1 & O1 & L1 & _ & N1 & P1).
  assert (tidy s1 m1) as T1 by (by eapply tidy_keeps).
  assert (forall q, refs q <= refs1 q <= refs q + 2) as Hq.
  { intros q. destruct (decide (r = Some q)) as [->|Hne]; [destruct (P1 q eq_refl); lia|rewrite N1 by done; lia]. }
  assert (exists s2, (if touch then ext ← read_bytes ext 4; item_touch hash cfg (item_env e) key (realtime srv (be_load ext)) (w_store w)
      else item_get hash cfg (item_env e) key true (w_store w)) = Ret (r, s2) /\ store_rep hash s2 m1 lru1 refs1 /\ tidy s2 m1)
    as (s2 & -> & R2 & T2).
  { unfold item_touch, item_get, do_item_touch. destruct touch; [|by exists s1].
    rewrite read_bytes_ok, ret_bind by (by apply Hext). rewrite E, ret_bind. destruct r as [p|]; [|by exists s1].
    destruct (sr_item _ _ _ _ _ F1 key p L1) as (it & Hp & Hkey).
    destruct (upd_plain_ok hash s1 m1 lru1 refs1 p it (set_exptime (realtime srv (be_load (take 4 ext)))) F1 Hp) as (s2 & -> & R2 & K2 & Hp2 & _); try done.
    rewrite ret_bind. exists s2. split; [done|]. split; [done|]. eapply tidy_but; [exact T1|exact K2|done|].
    intros i' Hi'. rewrite Hp2 in Hi'. injection Hi' as <-. apply (tidy_exptime _ (value_of it)), (T1 key). unfold value_at. by rewrite L1, Hp. }
  rewrite ret_bind. destruct r as [p|].
  - destruct (sr_item _ _ _ _ _ R2 key p L1) as (it & Hp & Hkey). destruct (P1 p eq_refl) as [-> Hrp].
    apply (bin_get_hit_ok s2 m lru1 refs1 p it); try done. lia.
  - destruct (c_noreply _).
    + eexists. split; [reflexivity|]. apply (answered_done (with_store s2 w) _ m1 lru1 refs1); try done. split_and!; try done. by exists r0.
    + destruct (write_bin_miss_ok b (if (b_cmd b =? CMD_GETK) || (b_cmd b =? CMD_GATK) then key else []) (with_store s2 w) rs r0 Hr Hi)
        as (w' & -> & A); [case_match; [done|simpl; lia]|].
      exists w'. split; [done|]. by apply (answered_done (with_store s2 w) _ m1 lru1 refs1).
Qed.

Lemma bin_delete_ok : exists w', process_bin_delete hash ctl e b key w = Ret w' /\ done w'.
Proof.
  unfold process_bin_delete, item_get_locked. fold srv cfg.
  destruct (fetch_ok hash cfg (w_store w) m lru refs key false (queued (item_env e)) R Hb) as (r & s1 & m1 & lru1 & refs1 & E & F1 & K1 & G1 & D1 & O1 & L1 & _ & N1 & P1).
  rewrite E, ret_bind. assert (tidy s1 m1) as T1 by (by eapply tidy_keeps). destruct r as [p|].
  2:{ destruct (write_bin_error_ok b RESPONSE_KEY_ENOENT None 0 (with_store s1 w) rs r0 Hr Hi) as (w' & -> & A & _); [right; by eexists|].
      exists w'. split; [done|]. apply (answered_done (with_store s1 w) _ m1 lru1 refs1); try done. intros q. rewrite N1 by done. lia. }
  destruct (P1 p eq_refl) as [-> Hrp]. destruct (store_linked _ _ _ _ _ _ _ F1 L1) as (it & Hp & Hkey & Hl).
  change (w_store (with_store s1 w)) with s1. rewrite (get_item_ok _ _ _ Hp), ret_bind.
  assert (exists w2 m2 lru2, (if (bh_cas (b_header b) =? 0) || (bh_cas (b_header b) =? ITEM_get_cas it) then
      w ← on_store (do_item_unlink p (hash key)) (with_store s1 w); write_bin_response b (b_cmd b) [] 0 0 w
      else write_bin_error b RESPONSE_KEY_EEXISTS None 0 (with_store s1 w)) = Ret w2 /\ bin_answered (with_store (w_store w2) w) rs w2 /\
      store_rep hash (w_store w2) m2 lru2 refs1 /\ tidy (w_store w2) m2) as (w2 & m2 & lru2 & -> & A2 & R2 & T2).
  { pose proof (held_nonneg p) as Hp0. destruct (_ || _).
    - destruct (do_item_unlink_ok hash s1 m lru1 refs1 p it F1 Hp Hl) as (s2 & E2 & R2 & K2 & G2). rewrite Hkey in E2, R2.
      unfold on_store. change (w_store (with_store s1 w)) with s1. rewrite E2, !ret_bind.
      destruct (write_bin_response_ok b (b_cmd b) [] 0 0 (with_store s2 (with_store s1 w)) rs r0 Hr Hi) as (w' & -> & A).
      exists w', (base.delete key m). eexists. split; [done|]. destruct A as (A1 & A2 & A3 & A4 & A5). rewrite A1.
      split; [by split_and!|]. split; [exact R2|]. eapply tidy_keeps; [exact T1|exact K2|apply delete_subseteq].
    - destruct (write_bin_error_ok b RESPONSE_KEY_EEXISTS None 0 (with_store s1 w) rs r0 Hr Hi) as (w' & -> & A & _); [right; by eexists|].
      exists w', m, lru1. split; [done|]. destruct A as (A1 & A2 & A3 & A4 & A5). rewrite A1. by split_and!. }
  rewrite ret_bind. pose proof (held_nonneg p) as Hp0. destruct (release hash (w_store w2) m2 lru2 refs1 p R2) as (s3 & E3 & R3 & K3 & G3); [lia|].
  unfold on_store. rewrite E3, ret_bind. eexists. split; [reflexivity|]. destruct A2 as (A1 & A2 & A3 & A4 & A5).
  apply (answered_done (with_store s3 w2) _ m2 lru2 (set_refs p (refs1 p - 1) refs1)); try done; [by rewrite <- Hc|..].
  - by eapply tidy_keeps.
  - intros q. unfold set_refs. case_decide; [subst; lia|]. rewrite N1 by congruence. lia.
Qed.

(** The answer is written after the store has changed; [f] is what happens to the connection. *)
Lemma answer_on s1 m1 lru1 refs1 f w' :
  (forall c, c_item (f c) = c_item c) -> bin_answered (upd_conn f (with_store s1 w)) rs w' ->
  store_rep hash s1 m1 lru1 refs1 -> tidy s1 m1 -> (forall q, refs q <= refs1 q <= refs q + 2) -> done w'.
Proof. intros Hf A R1 T1 Hq. apply (answered_done (upd_conn f (with_store s1 w)) w' m1 lru1 refs1); try done. simpl. by rewrite Hf. Qed.

(** *** incr and decr *)

Context (Hslab : 400 <= slab_chunk_size_max cfg).

(** The item a miss creates is stored, since the key has none. *)
Lemma incr_create_ok s1 m1 lru1 initial expiration :
  store_rep hash s1 m1 lru1 refs -> tidy s1 m1 -> m1 !! key = None -> 0 <= initial < 2 ^ 64 ->
  exists w', bin_incr_create hash ctl e b key initial expiration (with_store s1 w) = Ret w' /\ done w'.
Proof.
  intros R1 T1 Hm Hin. unfold bin_incr_create. fold srv cfg. set (buf := itoa_u64 initial). unfold item_alloc.
  assert (length buf <= 20)%nat as Hlb by (by apply itoa_u64_length). change (w_store (with_store s1 w)) with s1.
  destruct (do_item_alloc_ok hash cfg (trylock (item_env e)) no_repair key 0 (realtime srv expiration) (Z.of_nat (length buf) + 2) s1 m1 lru1 refs
    (below_room 3 refs Hb ltac:(lia)) R1 (tidy_no_crawler s1 m1 T1)) as (r & s2 & -> & A & _). rewrite ret_bind.
  destruct r as [p|].
  2:{ destruct A as (m2 & lru2 & R2 & [D2 _] & K2 & _).
      destruct (bin_out_of_memory_ok b (text "SERVER_ERROR Out of memory allocating new item") (with_store s2 (with_store s1 w)) rs r0 Hr Hi) as (w' & -> & A').
      exists w'. split; [done|]. apply (answered_done (with_store s2 (with_store s1 w)) w' m2 lru2 refs); try done; [by eapply tidy_keeps|intros; lia]. }
  destruct A as (m2 & lru2 & i & R2 & [D2 _] & Hr0 & Hm2 & K2 & G2 & Hp2 & [F1 F2 F3 F4 F5 F6 F7 F8 F9 F10 F11]).
  rewrite small_item in F9, F10 by (done || lia). change (w_store (with_store s2 (with_store s1 w))) with s2.
  destruct (fill_new hash i buf s2 m2 lru2 _ p i R2 Hp2 F9 F10) as (s4 & E4 & R4 & K4 & Hp4).
  destruct (write_data p 0 buf (Z.of_nat (length buf)) s2) as [s3| |]; try discriminate E4. cbn [mbind outcome_bind] in E4. rewrite ret_bind.
  unfold crlf. rewrite E4, ret_bind. set (i4 := set_data _ i) in Hp4.
  unfold store_item, do_store_item. rewrite (get_item_ok _ _ _ Hp4), !ret_bind. change (item_key i4) with (item_key i). rewrite F1.
  assert (m2 !! key = None) as Hm2k. { destruct (m2 !! key) as [x|] eqn:E; [|done]. by rewrite (lookup_weaken _ _ _ _ E D2) in Hm. }
  rewrite (do_item_get_none hash cfg s4 m2 lru2 _ key false _ R4 Hm2k), ret_bind.
  destruct (do_item_link_ok hash cfg s4 m2 lru2 _ p i4 R4 Hp4) as (s5 & lru5 & i5 & E5 & R5 & K5 & Hp5 & V5 & _).
  { done. } { change (item_key i4) with (item_key i). by rewrite F1. } { change (it_refcount i4) with (it_refcount i). lia. }
  change (item_key i4) with (item_key i) in E5, R5. rewrite F1 in E5, R5. rewrite E5, ret_bind, (get_item_ok _ _ _ Hp5), !ret_bind.
  rewrite bool_decide_true by done. set (w5 := upd_conn _ (with_store s5 _)). change (w_store w5) with s5. rewrite (get_item_ok _ _ _ Hp5), ret_bind.
  destruct (write_bin_response_ok b (b_cmd b) (be_store 8 initial) 0 0 (upd_conn (with_cas (ITEM_get_cas i5)) w5) rs r0 Hr Hi) as (w6 & -> & A6).
  rewrite ret_bind. assert (w_store w6 = s5) as S6 by (apply A6). unfold on_store, item_remove. rewrite S6.
  destruct (release hash s5 _ lru5 _ p R5) as (s7 & -> & R7 & K7 & _); [rewrite set_refs_eq; lia|]. rewrite ret_bind. eexists. split; [reflexivity|].
  destruct A6 as (B1 & B2 & B3 & B4 & B5). apply (answered_done (with_store s7 w6) _ (<[key := p]> m2) lru5 (set_refs p (set_refs p 1 refs p - 1) (set_refs p 1 refs))); try done.
  - simpl. by rewrite B4.
  - assert (tidy s5 (<[key := p]> m2)) as T5; [|by eapply tidy_keeps].
    eapply tidy_but; [exact T1|eapply keeps_but_trans; [exact K2|eapply keeps_but_trans; [exact K4|exact K5]]| |].
    + intros k' q Hq Hne. destruct (decide (k' = key)) as [->|Hk']; [rewrite lookup_insert_eq in Hq; congruence|].
      rewrite lookup_insert_ne in Hq by done. by eapply lookup_weaken.
    + intros i' Hi'. assert (i' = i5) as -> by congruence. rewrite V5. pose proof (new_cas_range cfg s4). split; [split; simpl|split; [simpl|]].
      * by rewrite F1.
      * change (FLAGS_CONV i4) with (FLAGS_CONV i). rewrite F8. lia.
      * case_match; lia.
      * rewrite F2. lia.
      * intros _. change (Z.of_nat (length (buf ++ [13; 10])) = it_nbytes i). rewrite length_app, F2. simpl. lia.
  - intros q. unfold set_refs. repeat case_decide; subst; lia.
Qed.

Lemma incr_ok : (20 <= length ext)%nat -> bytes_ok ext -> exists w', complete_incr_bin hash ctl e b ext key w = Ret w' /\ done w'.
Proof.
  intros Hext Hbytes. unfold complete_incr_bin. rewrite read_bytes_ok, ret_bind by done. fold srv cfg. set (x := take 20 ext).
  assert (bytes_ok x) as Hx by (by apply Forall_take).
  pose proof (fun i => field_range x i 8 Hx) as Hrange. change (256 ^ Z.of_nat 8) with (2 ^ 64) in Hrange.
  unfold add_delta. set (c := Some (bh_cas (b_header b))).
  destruct (do_add_delta_safe hash cfg no_repair Hslab (item_env e) key (b_cmd b =? CMD_INCREMENT) (be_load (slice x 0 8)) c (w_store w) m lru refs R Hb Ht (Hrange 0%nat))
    as (ret & cas' & buf & s1 & m1 & lru1 & -> & R1 & T1 & Hnf). rewrite ret_bind.
  assert (forall q, refs q <= refs q <= refs q + 2) as Hq by (intros; lia).
  assert (forall err, is_Some (bin_error_text err) -> exists w', write_bin_error b err None 0 (with_store s1 w) = Ret w' /\ done w') as Herr.
  { intros err He. destruct (write_bin_error_ok b err None 0 (with_store s1 w) rs r0 Hr Hi) as (w' & E & A & _); [by right|].
    exists w'. split; [done|]. by apply (answer_on s1 m1 lru1 refs (fun c => c) w'). }
  destruct ret.
  - set (w1 := if negb (default 0 cas' =? 0) then _ else _).
    assert (exists f, (forall c, c_item (f c) = c_item c) /\ (forall c, c_resps (f c) = c_resps c) /\ w1 = upd_conn f (with_store s1 w)) as (f & Hf & Hf' & ->).
    { unfold w1. destruct (negb _); [by exists (with_cas (default 0 cas'))|exists (fun c => c); split; [done|]; split; [done|by destruct w]]. }
    destruct (write_bin_response_ok b (b_cmd b) (be_store 8 (strtoull 10 buf).1.1) 0 0 (upd_conn f (with_store s1 w)) rs r0) as (w' & -> & A); [simpl; by rewrite Hf'|done|].
    exists w'. split; [done|]. by apply (answer_on s1 m1 lru1 refs f w').
  - apply Herr. by eexists.
  - destruct (bin_out_of_memory_ok b (text "SERVER_ERROR Out of memory incrementing value") (with_store s1 w) rs r0 Hr Hi) as (w' & -> & A).
    exists w'. split; [done|]. by apply (answer_on s1 m1 lru1 refs (fun c => c) w').
  - destruct (negb _); [|apply Herr; by eexists]. apply (incr_create_ok s1 m1 lru1); try done. by apply Hnf.
  - apply Herr. by eexists.
Qed.

(** *** set, add, replace, append and prepend *)

(** The new item, with the CAS number of the request, is ready for the value. *)
Lemma await_ok s1 m1 lru1 p i flags exptime vlen : store_rep hash s1 m1 lru1 (set_refs p 1 refs) -> m1 ⊆ m -> refs p = 0 ->
  keeps_but p (heap (w_store w)) (heap s1) -> heap s1 !! p = Some i -> fresh_item cfg key flags exptime (vlen + 2) i ->
  0 <= vlen -> 0 <= flags < 2 ^ 32 -> 0 <= bh_cas (b_header b) < 2 ^ 64 ->
  exists w1 it, on_store (upd_item p (ITEM_set_cas (bh_cas (b_header b)))) (with_store s1 w) = Ret w1 /\ get_item p (w_store w1) = Ret it /\
    forall comm, exists b' w', bin_begin_value b comm vlen p w1 = Ret (b', w') /\ done w'.
Proof.
  intros R1 Hm Hr0 K1 Hp [F1 F2 F3 F4 F5 F6 F7 F8 F9 F10 F11] Hv Hf Hcas. set (c := bh_cas (b_header b)) in *.
  destruct (set_cas_fields c i) as (S1 & S2 & S3 & S4 & S5 & S6 & S7 & S8 & S9 & S10 & S11).
  destruct (upd_plain_ok hash s1 m1 lru1 _ p i (ITEM_set_cas c) R1 Hp S1 S2 S3 S4 S5) as (s2 & E2 & R2 & K2 & Hp2 & _).
  exists (with_store s2 w). eexists. unfold on_store. change (w_store (with_store s1 w)) with s1. rewrite E2, ret_bind.
  split; [done|]. split; [by apply get_item_ok|]. intros comm. eexists _, _. split; [reflexivity|].
  set (i2 := ITEM_set_cas c i) in *. assert (has_flag ITEM_CHUNKED i2 = is_large cfg key flags (vlen + 2)) as Hch by (unfold has_flag in *; by rewrite S4).
  assert (plain_value (value_of i2)) as Hpl.
  { split; simpl; [by rewrite S3, F1|rewrite S9, F8; lia|]. unfold i2, ITEM_get_cas, ITEM_set_cas. destruct (has_flag ITEM_CAS i) eqn:E;
      [change (has_flag ITEM_CAS (set_cas c i)) with (has_flag ITEM_CAS i)|]; rewrite E; simpl; lia. }
  assert (has_flag ITEM_CHUNKED i2 = false -> Z.of_nat (length (it_data i2)) = it_nbytes i2) as Hlen.
  { rewrite Hch. intros Hl. rewrite S6, S7, F2, F10, Hl. lia. }
  exists m1, lru1, (set_refs p 1 refs), r0. split_and!; try done.
  - eapply tidy_but; [exact Ht|eapply keeps_but_trans; [exact K1|exact K2]| |].
    + intros k q Hq _. by eapply lookup_weaken.
    + intros i' Hi'. assert (i' = i2) as -> by (simpl in Hi'; congruence). split; [done|]. split; [simpl; rewrite S7, F2; lia|exact Hlen].
  - intros q. unfold set_refs. case_decide; subst; lia.
  - intros p'. by rewrite Hi.
  - intros p' [= <-]. rewrite set_refs_eq, Hr0. split; [lia|]. split; [done|]. exists i2. split; [exact Hp2|].
    split; [unfold linked, has_flag in *; by rewrite S4|]. split; [rewrite S7, F2; reflexivity|]. split; [done|]. split; [done|]. split; [done|].
    rewrite Hch. intros Hl. rewrite S6. split; [|unfold i2, ITEM_set_cas; destruct (has_flag ITEM_CAS i); exact F11].
    rewrite Hl in F10. by apply nil_length_inv.
Qed.

Lemma update_failed_ok flags vlen nbytes w1 : c_resps (w_conn w1) = rs ++ [r0] ->
  exists w', bin_update_failed ctl b key flags vlen nbytes w1 = Ret w' /\ bin_answered w1 rs w'.
Proof.
  intros H1. unfold bin_update_failed. destruct (negb _).
  - destruct (write_bin_error_ok b RESPONSE_E2BIG None vlen w1 rs r0 H1 Hi) as (w' & E & A & _); [right; by eexists|]. by exists w'.
  - destruct (bin_out_of_memory_ok b (text "SERVER_ERROR Out of memory allocating item") w1 rs r0 H1 Hi) as (w' & -> & A).
    rewrite ret_bind. eexists. split; [reflexivity|]. destruct A as (A1 & A2 & A3 & A4 & A5). repeat (split; [done|]). exact A5.
Qed.

(** A set that failed takes the old value out. *)
Lemma drop_old_ok w1 m1 lru1 : bin_answered (with_store (w_store w1) w) rs w1 -> store_rep hash (w_store w1) m1 lru1 refs -> tidy (w_store w1) m1 ->
  exists w', ('(r, s) ← item_get hash cfg (item_env e) key false (w_store w1);
      match r with
      | Some p => w ← on_store (item_unlink hash p) (with_store s w1); on_store (item_remove p) w
      | None => Ret (with_store s w1)
      end) = Ret w' /\
    forall st, done (conn_set_state st w').
Proof.
  intros (A1 & A2 & A3 & A4 & r1 & A5 & A6) R1 T1. unfold item_get.
  destruct (fetch_ok hash cfg (w_store w1) m1 lru1 refs key false (queued (item_env e)) R1 Hb) as (r & s2 & m2 & lru2 & refs2 & -> & F2 & K2 & G2 & D2 & O2 & L2 & _ & N2 & P2).
  rewrite ret_bind. assert (tidy s2 m2) as T2 by (by eapply tidy_keeps).
  assert (forall s' m' lru' st, store_rep hash s' m' lru' refs -> tidy s' m' -> done (conn_set_state st (with_store s' w1))) as Hdone.
  { intros s' m' lru' st R' T'. exists m', lru', refs, r1. simpl. rewrite A2, A3, A6, A4. simpl. rewrite Hc. split_and!; try done; intros; lia. }
  destruct r as [p|].
  - destruct (P2 p eq_refl) as [-> Hp2]. destruct (store_linked _ _ _ _ _ _ _ F2 L2) as (it & Hp & Hkey & Hl). pose proof (held_nonneg p) as Hp0.
    unfold on_store, item_unlink, item_remove. change (w_store (with_store s2 w1)) with s2. rewrite (get_item_ok _ _ _ Hp), ret_bind.
    destruct (do_item_unlink_ok hash s2 m1 lru2 refs2 p it F2 Hp Hl) as (s3 & -> & R3 & K3 & _). rewrite !ret_bind.
    change (w_store (with_store s3 (with_store s2 w1))) with s3.
    destruct (release hash s3 _ _ refs2 p R3) as (s4 & -> & R4 & K4 & _); [lia|]. rewrite ret_bind. eexists. split; [reflexivity|].
    intros st. eapply Hdone; [eapply store_rep_refs; [exact R4|]|].
    + intros q. unfold set_refs. case_decide; [subst; lia|]. symmetry. apply N2. congruence.
    + eapply tidy_keeps; [exact T2|eapply keeps_trans; [exact K3|exact K4]|apply delete_subseteq].
  - eexists. split; [reflexivity|]. intros st. eapply Hdone; [|exact T2]. eapply store_rep_refs; [exact F2|]. intros q. symmetry. by apply N2.
Qed.

Lemma update_ok : (8 <= length ext)%nat -> bytes_ok ext -> 0 <= bh_cas (b_header b) < 2 ^ 64 ->
  i32 (bh_bodylen (b_header b) - (bh_keylen (b_header b) + bh_extlen (b_header b))) + 2 < 2 ^ 31 ->
  (b_cmd b =? CMD_SET) || (b_cmd b =? CMD_ADD) || (b_cmd b =? CMD_REPLACE) = true ->
  exists b' w', process_bin_update hash ctl e b ext key w = Ret (b', w') /\ done w'.
Proof.
  intros Hext Hbytes Hcas Hv Hcmd. unfold process_bin_update. fold srv cfg. rewrite read_bytes_ok, ret_bind by done. set (x := take 8 ext).
  assert (bytes_ok x) as Hx by (by apply Forall_take). pose proof (field_range x 0 4 Hx) as Hf. change (256 ^ Z.of_nat 4) with (2 ^ 32) in Hf.
  set (flags := be_load (slice x 0 4)) in *. set (vlen := i32 _) in *. pose proof (i32_range (bh_bodylen (b_header b) - (bh_keylen (b_header b) + bh_extlen (b_header b)))) as Hlo.
  fold vlen in Hlo. rewrite c_int_ok, ret_bind by lia. unfold item_alloc. set (et := realtime srv _).
  destruct (do_item_alloc_ok hash cfg (trylock (item_env e)) no_repair key flags et (vlen + 2) (w_store w) m lru refs
    (below_room 3 refs Hb ltac:(lia)) R (tidy_no_crawler _ m Ht)) as (r & s1 & -> & A & Hn2). rewrite ret_bind. destruct r as [p|].
  - destruct A as (m1 & lru1 & i & R1 & [D1 _] & Hr0 & Hm1 & K1 & G1 & Hp1 & F). specialize (Hn2 ltac:(by eexists)).
    destruct (await_ok s1 m1 lru1 p i flags et vlen R1 D1 Hr0 K1 Hp1 F) as (w1 & it & -> & E1 & Hb1); [lia|lia|done|]. rewrite ret_bind, E1.
    assert (exists comm, (if b_cmd b =? CMD_ADD then Ret NREAD_ADD else if b_cmd b =? CMD_SET then Ret NREAD_SET
      else if b_cmd b =? CMD_REPLACE then Ret NREAD_REPLACE else Abort) = Ret comm) as (comm & ->).
    { destruct (b_cmd b =? CMD_ADD), (b_cmd b =? CMD_SET), (b_cmd b =? CMD_REPLACE); try done; by eexists. }
    rewrite !ret_bind. apply Hb1.
  - destruct A as (m1 & lru1 & R1 & [D1 _] & K1 & _). assert (tidy s1 m1) as T1 by (by eapply tidy_keeps).
    destruct (update_failed_ok flags vlen (vlen + 2) (with_store s1 w) Hr) as (w2 & -> & A2). rewrite ret_bind.
    assert (w_store w2 = s1) as S2 by apply A2. rewrite <- S2 in R1, T1.
    destruct (b_cmd b =? CMD_SET).
    + destruct (drop_old_ok w2 m1 lru1) as (w' & -> & Hd); [by rewrite S2|done|done|]. rewrite ret_bind. eexists _, _. split; [reflexivity|]. apply Hd.
    + rewrite ret_bind. eexists _, _. split; [reflexivity|]. rewrite S2 in R1, T1.
      apply (answer_on s1 m1 lru1 refs (fun c => c)); try done. intros; lia.
Qed.

Lemma append_ok : 0 <= bh_cas (b_header b) < 2 ^ 64 -> bin_value_length b + 2 < 2 ^ 31 ->
  (b_cmd b =? CMD_APPEND) || (b_cmd b =? CMD_PREPEND) = true ->
  exists b' w', process_bin_append_prepend hash ctl e b key w = Ret (b', w') /\ done w'.
Proof.
  intros Hcas Hv Hcmd. unfold process_bin_append_prepend. fold srv cfg. set (vlen := bin_value_length b) in *.
  assert (- 2 ^ 31 <= vlen) as Hlo by apply i32_range. rewrite c_int_ok, ret_bind by lia. unfold item_alloc.
  destruct (do_item_alloc_ok hash cfg (trylock (item_env e)) no_repair key 0 0 (vlen + 2) (w_store w) m lru refs
    (below_room 3 refs Hb ltac:(lia)) R (tidy_no_crawler _ m Ht)) as (r & s1 & -> & A & Hn2). rewrite ret_bind. destruct r as [p|].
  - destruct A as (m1 & lru1 & i & R1 & [D1 _] & Hr0 & Hm1 & K1 & G1 & Hp1 & F). specialize (Hn2 ltac:(by eexists)).
    destruct (await_ok s1 m1 lru1 p i 0 0 vlen R1 D1 Hr0 K1 Hp1 F) as (w1 & it & -> & E1 & Hb1); [lia|lia|done|]. rewrite ret_bind.
    assert (exists comm, (if b_cmd b =? CMD_APPEND then Ret NREAD_APPEND else if b_cmd b =? CMD_PREPEND then Ret NREAD_PREPEND else Abort) = Ret comm) as (comm & ->).
    { destruct (b_cmd b =? CMD_APPEND), (b_cmd b =? CMD_PREPEND); try done; by eexists. }
    rewrite ret_bind. apply Hb1.
  - destruct A as (m1 & lru1 & R1 & [D1 _] & K1 & _). assert (tidy s1 m1) as T1 by (by eapply tidy_keeps).
    destruct (update_failed_ok 0 vlen (vlen + 2) (with_store s1 w) Hr) as (w2 & -> & A2). rewrite ret_bind. eexists _, _. split; [reflexivity|].
    apply (answer_on s1 m1 lru1 refs (fun c => c)); try done. intros; lia.
Qed.

(** *** flush *)

Lemma flush_from_ok t : exists srv' s', flush_from t srv (w_store w) = (srv', s') /\ store_rep hash s' m lru refs /\ heap s' = heap (w_store w).
Proof.
  unfold flush_from. fold cfg. destruct (use_cas cfg); [|by eexists _, _]. destruct (_ <=? _); [|by eexists _, _].
  unfold get_cas_id. eexists _, _. split; [reflexivity|]. split; [|done]. destruct R as [R1 R2 R3 R4 R5 R6 R7 R8 R9]. split; try done. by eapply lru_rep_same.
Qed.

Lemma flush_ok : ((bh_extlen (b_header b) =? 4) = true -> (4 <= length ext)%nat) ->
  exists ctl' w', process_bin_flush ctl b ext w = Ret (ctl', w') /\ done w'.
Proof.
  intros Hext. unfold process_bin_flush. fold srv cfg. destruct (negb _).
  { destruct (write_bin_error_ok b RESPONSE_AUTH_ERROR None 0 w rs r0 Hr Hi) as (w' & -> & A & _); [right; by eexists|]. rewrite ret_bind.
    eexists _, _. split; [reflexivity|]. by apply answered_here. }
  assert (exists t, (if bh_extlen (b_header b) =? 4 then ext ← read_bytes ext 4; Ret (be_load ext) else Ret 0) = Ret t) as (t & ->).
  { destruct (_ =? 4); [|by eexists]. rewrite read_bytes_ok, ret_bind by (by apply Hext). by eexists. }
  rewrite ret_bind. destruct (flush_from_ok (if 0 <? t then realtime srv t else current_time cfg)) as (srv' & s' & -> & R' & H').
  destruct (write_bin_response_ok b (b_cmd b) [] 0 0 (with_store s' w) rs r0 Hr Hi) as (w' & -> & A). rewrite ret_bind.
  eexists _, _. split; [reflexivity|]. apply (answer_on s' m lru refs (fun c => c) w'); try done; [|intros; lia].
  eapply tidy_keeps; [exact Ht|rewrite H'; apply keeps_refl|done].
Qed.
End Handlers.
