(* ===== verification/BinTheorems.v ===== *)
(** * Theorems about the binary protocol

    Any bytes a client sends are handled safely; what the protocol stores and shows is outside the
    protection of the Merkle tree. *)

From S2P Require Import AssocFacts.
From S2P Require Import Prelude Items LruFacts ItemsFacts ItemAlloc ItemAllocFacts Util Itoa.
From S2P Require Import Store StoreFacts DeltaFacts MtCrypto MtCryptoFacts MtArrayList MtArrayListFacts MerkleTree MerkleSpec MerkleFacts MerkleTheorems.
From S2P Require Import Aes128 Cmac CmacFacts Conn ProtoText ProtoFacts ServerFacts GetFacts ServerTheorems ProtoMeta MetaFacts MetaTheorems.
From S2P Require Import DeltaSafe ProtoAdmin ProtoBin BinFacts Assoc ItemTableAssoc Samples.
From Stdlib Require Ascii String.
Import String.StringSyntax.

Local Open Scope string_scope.
Local Open Scope Z_scope.

(** ** Requests *)

(** The commands a handler is called for, and the extras they have. *)
Definition bin_switched (cmd extlen : Z) (a : bin_action) : Prop :=
  match a with
  | BinFlush => extlen = 0 \/ extlen = 4
  | BinUpdate => extlen = 8 /\ (cmd =? CMD_SET) || (cmd =? CMD_ADD) || (cmd =? CMD_REPLACE) = true
  | BinGetOrTouch => (cmd =? CMD_TOUCH) || (cmd =? CMD_GAT) || (cmd =? CMD_GATK) = true -> extlen = 4
  | BinIncr => extlen = 20
  | BinAppend => extlen = 0 /\ (cmd =? CMD_APPEND) || (cmd =? CMD_PREPEND) = true
  | BinStat => cmd = CMD_STAT
  | _ => True
  end.

Lemma bin_switch_ok cmd extlen keylen bodylen : bin_switched cmd extlen (bin_switch cmd extlen keylen bodylen).
Proof.
  unfold bin_switch. cbv zeta.
  repeat match goal with |- bin_switched _ _ (if ?c then _ else _) => destruct c eqn:? end; cbn [bin_switched]; try done;
    unfold CMD_VERSION, CMD_FLUSH, CMD_NOOP, CMD_SET, CMD_ADD, CMD_REPLACE, CMD_GET, CMD_GETQ, CMD_GETK, CMD_GETKQ, CMD_DELETE, CMD_INCREMENT,
      CMD_DECREMENT, CMD_APPEND, CMD_PREPEND, CMD_STAT, CMD_QUIT, CMD_SASL_LIST_MECHS, CMD_SASL_AUTH, CMD_SASL_STEP, CMD_TOUCH, CMD_GAT, CMD_GATQ,
      CMD_GATK, CMD_GATKQ in *; lia.
Qed.

Section Requests.
Context {T : Type} {table_ops : ItemTable T} {slabs : SlabAllocator} (hash : list Z -> Z).
Context {table_laws : ItemTableLaws hash T} {slab_laws : SlabAllocatorLaws} (ctl : control) (lib : sasl_lib).

Let srv := ct_srv ctl.
Let cfg := base_settings srv.

Context (no_repair : tail_repair_time cfg = 0) (Hslab : 400 <= slab_chunk_size_max cfg).
Implicit Types (s : store T) (w : world T) (m : gmap (list Z) positive) (refs : positive -> Z).

(** The length of the value a header announces. *)
Definition value_length (h : bin_header) : Z := i32 (bh_bodylen h - (bh_keylen h + bh_extlen h)).

Section Dispatch.
Context (e : senv) (b : bin_conn) (w : world T) (m : gmap (list Z) positive) (lru : Z -> list positive) (refs : positive -> Z).
Context (rs : list mc_resp) (r0 : mc_resp) (ext key : list Z).
Context (R : store_rep hash (w_store w) m lru refs) (Hb : below 3 refs) (Ht : tidy (w_store w) m).
Context (Hr : c_resps (w_conn w) = rs ++ [r0]) (Hi : resp_item r0 = None) (Hk : (length key <= 250)%nat).
Context (Hc : c_item (w_conn w) = None) (Hext : bytes_ok ext) (Hlen : length ext = Nat.min (Z.to_nat (bh_extlen (b_header b))) 20).
Context (Hcas : 0 <= bh_cas (b_header b) < 2 ^ 64) (Hv : value_length (b_header b) + 2 < 2 ^ 31).

(** A handler that only answers. *)
Lemma bin_state_done st w' : bin_answered w rs w' -> bin_done hash w refs rs (conn_set_state st w').
Proof. intros (A1 & A2 & A3 & A4 & A5). apply (answered_here hash w m lru refs rs key R Ht Hk Hc). by split_and!. Qed.

Lemma run_bin_ok a : bin_switched (b_cmd b) (bh_extlen (b_header b)) a ->
  (run_bin hash ctl false lib e b ext key a w = Ret None /\ b_cmd b = CMD_STAT) \/
  exists ctl' b' w', run_bin hash ctl false lib e b ext key a w = Ret (Some (ctl', b', w')) /\ bin_done hash w refs rs w'.
Proof.
  intros Ha.
  assert (forall d, exists w', write_bin_response b (b_cmd b) d 0 0 w = Ret w' /\ bin_answered w rs w') as Hresp
    by (intros d; by apply (write_bin_response_ok b (b_cmd b) d 0 0 w rs r0)).
  assert (forall err n, is_Some (bin_error_text err) -> exists w', write_bin_error b err None n w = Ret w' /\ bin_answered w rs w') as Herr.
  { intros err n He. destruct (write_bin_error_ok b err None n w rs r0 Hr Hi) as (w' & E & A & _); [by right|]. by exists w'. }
  pose proof (answered_here hash w m lru refs rs key R Ht Hk Hc) as Hans.
  destruct a; cbn [bin_switched] in Ha; try (by left); right; cbn [run_bin].
  - destruct (Hresp (ct_version ctl)) as (w' & -> & A). rewrite ret_bind. eauto 10.
  - destruct (flush_ok hash ctl b w m lru refs rs r0 ext key R Ht Hr Hi Hk Hc) as (ctl' & w' & -> & Hd); [intros ?%Z.eqb_eq; lia|]. rewrite ret_bind. eauto 10.
  - destruct (Hresp []) as (w' & -> & A). rewrite ret_bind. eauto 10 using bin_state_done.
  - destruct (update_ok hash ctl no_repair e b w m lru refs rs r0 ext key R Hb Ht Hr Hi Hk Hc) as (b' & w' & -> & Hd); try done; [lia|apply Ha|]. rewrite ret_bind. eauto 10.
  - destruct (get_or_touch_ok hash ctl e b w m lru refs rs r0 ext key R Hb Ht Hr Hi Hk Hc) as (w' & -> & Hd); [intros H; specialize (Ha H); lia|]. rewrite ret_bind. eauto 10.
  - destruct (bin_delete_ok hash ctl e b w m lru refs rs r0 key R Hb Ht Hr Hi Hk Hc) as (w' & -> & Hd). rewrite ret_bind. eauto 10.
  - destruct (incr_ok hash ctl no_repair e b w m lru refs rs r0 ext key R Hb Ht Hr Hi Hk Hc Hslab) as (w' & -> & Hd); [lia|done|]. rewrite ret_bind. eauto 10.
  - destruct (append_ok hash ctl no_repair e b w m lru refs rs r0 key R Hb Ht Hr Hi Hk Hc) as (b' & w' & -> & Hd); [done| |apply Ha|rewrite ret_bind; eauto 10].
    destruct Ha as [Ha _]. unfold value_length in Hv. unfold bin_value_length. by rewrite Ha, Z.add_0_r in Hv.
  - destruct (Hresp []) as (w' & -> & A). rewrite ret_bind. eauto 10 using bin_state_done.
  - unfold bin_list_sasl_mechs. cbn [negb]. destruct (Herr RESPONSE_UNKNOWN_COMMAND (bin_value_length b)) as (w' & -> & A); [by eexists|]. rewrite !ret_bind. eauto 10.
  - unfold process_bin_sasl_auth. cbn [negb]. destruct (Herr RESPONSE_UNKNOWN_COMMAND (bin_value_length b)) as (w' & -> & A); [by eexists|]. rewrite !ret_bind. eauto 10.
  - unfold handle_binary_protocol_error. destruct (Herr RESPONSE_EINVAL 0) as (w' & -> & A); [by eexists|]. rewrite !ret_bind. eauto 10.
  - destruct (Herr RESPONSE_UNKNOWN_COMMAND (i32 (bh_bodylen (b_header b)))) as (w' & -> & A); [by eexists|]. rewrite ret_bind. eauto 10.
Qed.
End Dispatch.

Lemma quiet_not_stat cmd c : find_quiet cmd = Some c -> c <> CMD_STAT.
Proof.
  unfold find_quiet, quiet_commands. cbn [foldr fst snd]. intros H.
  repeat match goal with H : (if ?c then _ else _) = _ |- _ => destruct c; [injection H as <-; discriminate|] end. done.
Qed.

Lemma dispatch_ok e b w m lru refs rs r0 ext key :
  store_rep hash (w_store w) m lru refs -> below 3 refs -> tidy (w_store w) m -> c_resps (w_conn w) = rs ++ [r0] -> resp_item r0 = None ->
  c_item (w_conn w) = None -> bytes_ok ext -> length ext = Nat.min (Z.to_nat (bh_extlen (b_header b))) 20 ->
  Z.of_nat (length key) = bh_keylen (b_header b) -> 0 <= bh_cas (b_header b) < 2 ^ 64 -> value_length (b_header b) + 2 < 2 ^ 31 ->
  (dispatch_bin_command hash ctl false lib e b ext key w = Ret None /\ b_cmd b = CMD_STAT) \/
  exists ctl' b' w', dispatch_bin_command hash ctl false lib e b ext key w = Ret (Some (ctl', b', w')) /\ bin_done hash w refs rs w'.
Proof.
  intros R Hb Ht Hr Hi Hc Hext Hlen Hkl Hcas Hv.
  assert (forall f err (b' : bin_conn), is_Some (bin_error_text err) -> (forall c, c_resps (f c) = c_resps c) -> (forall c, c_item (f c) = c_item c) ->
    exists ctl' b'' w', (w ← write_bin_error b err None 0 (upd_conn f w); Ret (Some (ctl, b', w))) = Ret (Some (ctl', b'', w')) /\ bin_done hash w refs rs w') as Herr.
  { intros f err b' He Hf1 Hf2. destruct (write_bin_error_ok b err None 0 (upd_conn f w) rs r0) as (w' & -> & A & _); [simpl; by rewrite Hf1|done|by right|].
    rewrite ret_bind. eexists _, _, _. split; [reflexivity|]. destruct A as (A1 & A2 & A3 & A4 & r & A5 & A6). simpl in *. rewrite Hf2, Hc in A4.
    exists m, lru, refs, r. rewrite A1, A2, A3, A4, A6. split_and!; try done. intros; lia. }
  unfold dispatch_bin_command. destruct (_ || _).
  { right. destruct (Herr (fun c => c) RESPONSE_UNKNOWN_COMMAND (set_close b)) as (c' & b' & w' & E & Hd); [by eexists|done|done|].
    exists c', b', w'. split; [|done]. by destruct w. }
  cbn [andb]. unfold KEY_MAX_LENGTH. destruct (Z.ltb_spec 250 (bh_keylen (b_header b))).
  { right. unfold handle_binary_protocol_error. destruct (Herr (with_noreply true) RESPONSE_EINVAL (set_close b)) as (c' & b' & w' & E & Hd); [by eexists|done|done|].
    exists c', b', w'. split; [|done]. by destruct (write_bin_error b RESPONSE_EINVAL None 0 (upd_conn (with_noreply true) w)). }
  assert ((length key <= 250)%nat) as Hk by lia.
  destruct (find_quiet (b_cmd b)) as [cmd|] eqn:Eq.
  - destruct (run_bin_ok e (set_cmd cmd b) (upd_conn (with_noreply true) w) m lru refs rs r0 ext key R Hb Ht Hr Hi Hk Hc Hext Hlen Hcas Hv
      (bin_switch cmd (bh_extlen (b_header b)) (bh_keylen (b_header b)) (bh_bodylen (b_header b))) (bin_switch_ok _ _ _ _)) as [[_ Hst]|Hok]; [|by right].
    by destruct (quiet_not_stat _ _ Eq).
  - exact (run_bin_ok e b (upd_conn (with_noreply false) (upd_conn (with_noreply true) w)) m lru refs rs r0 ext key R Hb Ht Hr Hi Hk Hc Hext Hlen Hcas Hv
      (bin_switch (b_cmd b) (bh_extlen (b_header b)) (bh_keylen (b_header b)) (bh_bodylen (b_header b))) (bin_switch_ok _ _ _ _)).
Qed.

(** C18: the binary protocol is safe, with SASL off.  Whatever bytes a connection has received, except
    a request for statistics and one whose value, with the two bytes of the line break, has 2^31 bytes
    or more, and as long as the counts of references are three below their limit,
    [try_read_command_binary] returns: it trips no assertion, reads no byte outside the buffer and
    touches no freed item.  It asks for more bytes, it closes the connection with the store as it was,
    or it handles the request: then the buffer has become shorter, the hash table, the LRU lists and
    the reference counts are consistent, and the Merkle tree and the standard error output are as they
    were. *)
Theorem bin_safe (e : senv) (b : bin_conn) (rbuf : list Z) (w : world T) (m : gmap (list Z) positive) (lru : Z -> list positive)
    (refs : positive -> Z) (R : store_rep hash (w_store w) m lru refs) (Hb : below 3 refs) (Ht : tidy (w_store w) m)
    (Hc : c_item (w_conn w) = None) (Hbytes : bytes_ok rbuf) (Hv : value_length (read_header rbuf) + 2 < 2 ^ 31)
    (Hstat : bh_opcode (read_header rbuf) <> CMD_STAT) :
  exists r, try_read_command_binary hash ctl false lib e b rbuf w = Ret r /\
    match r with
    | BinMore => Z.of_nat (length rbuf) < 24 + bh_extlen (read_header rbuf) + bh_keylen (read_header rbuf)
    | BinClosing w' => w_store w' = w_store w /\ w_tree w' = w_tree w /\ c_state (w_conn w') = conn_closing
    | BinHandled ctl' b' rest w' => bin_done hash w refs (c_resps (w_conn w)) w' /\ (length rest + 24 <= length rbuf)%nat
    | BinUnmodelled => False
    end.
Proof.
  unfold try_read_command_binary. set (h := read_header rbuf) in *.
  assert (0 <= bh_extlen h /\ 0 <= bh_keylen h) as [He Hkl] by (split; apply field_range; done).
  pose proof (field_range rbuf 16 8 Hbytes) as Hcas. change (256 ^ Z.of_nat 8) with (2 ^ 64) in Hcas.
  destruct (Nat.ltb_spec (length rbuf) 24); [exists BinMore; split; [done|cbv iota; fold h; lia]|]. destruct (negb _); [by eexists|].
  destruct (Nat.ltb_spec (length rbuf) (Z.to_nat (bh_keylen h) + Z.to_nat (bh_extlen h) + 24)); [exists BinMore; split; [done|cbv iota; fold h; lia]|].
  unfold start_response, resp_start. destruct (resp_room e _); cbn [negb]; [|by eexists].
  set (w1 := upd_conn (with_cas 0) _). set (b1 := mkBin h (bh_opcode h) _ _ _ _). set (ext := slice rbuf 24 _). set (key := slice rbuf (24 + _) _).
  destruct (dispatch_ok e b1 w1 m lru refs (c_resps (w_conn w)) (mkResp [] None false []) ext key) as [[-> Hst]|(ctl' & b' & w' & -> & Hd)]; try done.
  - by apply Forall_take, Forall_drop.
  - unfold ext, slice, BIN_MAX_EXTLEN. rewrite length_take, length_drop. change (b_header b1) with h. lia.
  - unfold key, slice. rewrite length_take, length_drop. change (b_header b1) with h. lia.
  - rewrite ret_bind. eexists. split; [reflexivity|]. split; [exact Hd|]. rewrite length_drop. lia.
Qed.

(** ** Values *)

(** The store with an item replaced. *)
Definition put (p : positive) (i : item) s : store T := with_heap (<[p := i]> (heap s)) s.

(** The bytes of a value go in front of the line break. *)
Lemma fill_value s m lru refs p it bytes :
  store_rep hash s m lru refs -> heap s !! p = Some it -> has_flag ITEM_CHUNKED it = false ->
  Z.of_nat (length (it_data it)) = it_nbytes it -> it_nbytes it = Z.of_nat (length bytes) + 2 ->
  exists s1, (if (length bytes =? 0)%nat then Ret (true, @nil Z, s)
     else s ← write_data p 0 bytes (Z.of_nat (length bytes)) s; Ret (true, [], s)) = Ret (true, [], s1) /\
    bin_terminate p s1 = Ret (put p (set_data (bytes ++ crlf) it) s) /\
    store_rep hash (put p (set_data (bytes ++ crlf) it) s) m lru refs /\
    keeps_but p (heap s) (heap (put p (set_data (bytes ++ crlf) it) s)).
Proof.
  intros R Hp Hch Hlen Hnb. unfold put.
  assert (exists d1, (if (length bytes =? 0)%nat then Ret (true, @nil Z, s)
      else s ← write_data p 0 bytes (Z.of_nat (length bytes)) s; Ret (true, [], s)) = Ret (true, [], put p (set_data d1 it) s) /\
    length d1 = (length bytes + 2)%nat /\ take (length bytes) d1 = bytes) as (d1 & E1 & L1 & T1).
  { destruct (Nat.eqb_spec (length bytes) 0) as [H0|H0].
    - exists (it_data it). apply nil_length_inv in H0 as ->. split; [|simpl in *; split; [lia|done]]. unfold put.
      replace (set_data (it_data it) it) with it by (by destruct it). by rewrite (with_heap_id _ _ _ Hp).
    - exists (splice (it_data it) 0 bytes). rewrite (write_data_ok hash s m lru refs p it 0 bytes R Hp Hch), ret_bind by lia. split; [done|].
      split; [rewrite length_splice; lia|]. unfold splice. by rewrite take_0, app_nil_l, take_app_length. }
  exists (put p (set_data d1 it) s). split; [done|]. destruct (upd_data_ok hash s m lru refs p it d1 R Hp) as (_ & R1 & _).
  destruct (upd_data_ok hash s m lru refs p it (bytes ++ crlf) R Hp) as (_ & R2 & K2). split; [|by split].
  assert (heap (put p (set_data d1 it) s) !! p = Some (set_data d1 it)) as Hp1 by apply lookup_insert_eq.
  unfold bin_terminate. rewrite (get_item_ok _ _ _ Hp1), ret_bind. change (has_flag ITEM_CHUNKED (set_data d1 it)) with (has_flag ITEM_CHUNKED it). rewrite Hch.
  cbn [negb]. change (it_nbytes (set_data d1 it)) with (it_nbytes it). replace (Z.to_nat (it_nbytes it - 2)) with (length bytes) by lia.
  pose proof (write_data_ok hash (put p (set_data d1 it) s) m lru refs p _ (length bytes) crlf R1 Hp1 Hch) as E2.
  change (Z.of_nat (length crlf)) with 2 in E2. rewrite E2 by (simpl; lia).
  unfold put, with_heap. simpl. rewrite insert_insert_eq. unfold splice. rewrite T1, (drop_ge d1) by (rewrite L1; simpl; lia). by rewrite app_nil_r.
Qed.

Section Value.
Context (e : senv) (b : bin_conn) (w : world T) (m : gmap (list Z) positive) (lru : Z -> list positive) (refs : positive -> Z).
Context (rs : list mc_resp) (r0 : mc_resp) (p : positive) (it : item) (bytes : list Z).
Context (R : store_rep hash (w_store w) m lru refs) (Hb : below 3 refs) (Ht : tidy (w_store w) m).
Context (Hr : c_resps (w_conn w) = rs ++ [r0]) (Hi : resp_item r0 = None) (Hsub : b_substate b = bin_read_set_value).
Context (Hc : c_item (w_conn w) = Some p) (Hheld : 0 < refs p) (Hp : heap (w_store w) !! p = Some it) (Hlk : linked it = false).
Context (Hch : has_flag ITEM_CHUNKED it = false) (Hpl : plain_value (value_of it)) (Hlen : Z.of_nat (length (it_data it)) = it_nbytes it).
Context (Hrl : c_rlbytes (w_conn w) = Z.of_nat (length bytes)) (Hnb : it_nbytes it = Z.of_nat (length bytes) + 2).
Context (Hj : joins (c_cmd (w_conn w)) = false).

Let v0 : value := value_of (set_data (bytes ++ crlf) it).

(** What the store and the answer are afterwards. *)
Definition bin_stored w' : Prop :=
  w_tree w' = w_tree w /\ w_stderr w' = w_stderr w /\ c_item (w_conn w') = None /\
  (exists r, c_resps (w_conn w') = rs ++ [r] /\ resp_item r = None) /\
  exists m' lru', store_rep hash (w_store w') m' lru' (set_refs p (refs p - 1) refs) /\ tidy (w_store w') m' /\
    (forall k, k <> item_key it -> value_at (w_store w') m' k = value_at (w_store w) m k) /\
    match store_spec cfg (c_cmd (w_conn w)) (c_set_stale (w_conn w)) (new_cas cfg (w_store w)) v0 (live_at cfg (w_store w) m (item_key it)) with
    | (_, None) => value_at (w_store w') m' (item_key it) = live_at cfg (w_store w) m (item_key it) /\ total_items (w_store w') = total_items (w_store w)
    | (_, Some P) => total_items (w_store w') = u64 (total_items (w_store w) + 1) /\ exists v, value_at (w_store w') m' (item_key it) = Some v /\ P v
    end.

(** What is stored is in order. *)
Lemma spec_tidy v comm stale c old ret P : joins comm = false -> 0 <= c < 2 ^ 64 -> tidy_value v ->
  store_spec cfg comm stale c v old = (ret, Some P) -> forall v', P v' -> tidy_value v'.
Proof.
  intros Hjn Hcr Hv Hs v' HP. assert (exists t, v' = relinked c v \/ v' = relinked c (with_exptime t v)) as (t & Hv').
  { unfold store_spec in Hs. destruct old as [o|], comm; try discriminate Hs; try discriminate Hjn; repeat case_match; try discriminate Hs;
      injection Hs as <- <-; subst v'; eauto. }
  destruct Hv as [[H1 H2 H3] H4]. destruct Hv' as [->| ->]; (split; [split; simpl; try done; case_match; lia|done]).
Qed.

Lemma live_tidy s k v : tidy s m -> live_at cfg s m k = Some v -> tidy_value v.
Proof.
  intros T1 H. apply (T1 k). unfold live_at in H. unfold value_at. destruct (m !! k) as [q|]; [|done]. destruct (heap s !! q) as [i|]; [|done].
  by destruct (live cfg i).
Qed.

Lemma bin_value_ok : exists b' w', bin_nread_value hash ctl false lib e b bytes w = Ret (b', w') /\ bin_stored w'.
Proof.
  unfold bin_nread_value. rewrite Hrl, (proj2 (Z.ltb_ge _ 0)), Z.eqb_refl by lia. cbn [negb]. rewrite Hc. cbn [deref]. rewrite ret_bind.
  rewrite (get_item_ok _ _ _ Hp), ret_bind, Hch. cbn [negb].
  destruct (fill_value (w_store w) m lru refs p it bytes R Hp Hch Hlen Hnb) as (s1 & -> & E2 & R2 & K2). rewrite ret_bind.
  set (w1 := upd_conn _ (with_store s1 w)). unfold complete_nread_binary. rewrite Hsub. unfold complete_update_bin.
  change (c_item (w_conn w1)) with (c_item (w_conn w)). rewrite Hc. cbn [deref]. rewrite ret_bind. change (w_store w1) with s1. rewrite E2, ret_bind.
  set (it2 := set_data (bytes ++ crlf) it) in *. set (s2 := put p it2 (w_store w)) in *.
  assert (heap s2 !! p = Some it2) as Hp2 by apply lookup_insert_eq. assert (tidy_value v0) as Htv.
  { split; [by destruct Hpl|]. split; [change (2 <= it_nbytes it); lia|]. intros _. change (Z.of_nat (length (bytes ++ crlf)) = it_nbytes it). rewrite length_app. simpl. lia. }
  assert (tidy s2 m) as T2.
  { eapply tidy_but; [exact Ht|exact K2|done|]. intros i' Hi'. assert (i' = it2) as -> by congruence. done. }
  unfold store_item. rewrite (get_item_ok _ _ _ Hp2), ret_bind.
  change (c_set_stale (w_conn w1)) with (c_set_stale (w_conn w)). change (c_cmd (w_conn w1)) with (c_cmd (w_conn w)).
  destruct (do_store_item_ok hash cfg no_repair (item_env e) (c_set_stale (w_conn w)) s2 m lru refs p it2 (c_cmd (w_conn w)) R2) as
    (ret & cas & s3 & m3 & lru3 & E3 & R3 & Hpay & Hoth & Hres).
  { split; [by apply (below_le 3); [|lia]|]. split; [by apply tidy_no_crawler|]. split; [done|]. split; [done|]. split; [done|]. by rewrite Hj. }
  fold srv cfg. rewrite E3, ret_bind. change (v_key (value_of it2)) with (item_key it) in Hoth, Hres. change (value_of it2) with v0 in Hres. clear E3.
  set (w3 := match cas with Some n => _ | None => _ end).
  assert (w_store w3 = s3 /\ w_tree w3 = w_tree w /\ w_stderr w3 = w_stderr w /\ c_resps (w_conn w3) = rs ++ [r0]) as (W1 & W2 & W3 & W4)
    by (unfold w3; by destruct cas).
  assert (exists w4, match ret with
      | STORED => write_bin_response b 1 [] 0 0 w3
      | EXISTS => write_bin_error b RESPONSE_KEY_EEXISTS None 0 w3
      | NOT_FOUND => write_bin_error b RESPONSE_KEY_ENOENT None 0 w3
      | NOT_STORED | TOO_LARGE | NO_MEMORY => write_bin_error b (bin_refused (c_cmd (w_conn w))) None 0 w3
      end = Ret w4 /\ bin_answered w3 rs w4) as (w4 & -> & A1 & A2 & A3 & A4 & A5).
  { assert (forall err, is_Some (bin_error_text err) -> exists w4, write_bin_error b err None 0 w3 = Ret w4 /\ bin_answered w3 rs w4) as Herr.
    { intros err He. destruct (write_bin_error_ok b err None 0 w3 rs r0 W4 Hi) as (w' & E & A & _); [by right|]. by exists w'. }
    destruct ret; try (apply Herr; by eexists); try (by apply (write_bin_response_ok b 1 [] 0 0 w3 rs r0)); apply Herr; destruct (c_cmd (w_conn w)); by eexists. }
  rewrite ret_bind. unfold on_store, item_remove. rewrite A1, W1.
  destruct (release hash s3 m3 lru3 refs p R3 Hheld) as (s5 & -> & R5 & K5 & G5). rewrite !ret_bind. eexists _, _. split; [reflexivity|].
  assert (forall k, value_at s5 m3 k = value_at s3 m3 k) as Hsame.
  { intros k. eapply (value_at_same hash); [exact R5|done|]. intros q i' _. apply K5. }
  assert (forall k, value_at s2 m k = value_at (w_store w) m k) as Hsame2.
  { intros k. eapply (value_at_same hash); [exact R2|done|]. intros q i' Hq. apply K2. intros ->.
    destruct (store_linked _ _ _ _ _ _ _ R Hq) as (x & Ex & _ & Lx). congruence. }
  assert (live_at cfg s2 m (item_key it) = live_at cfg (w_store w) m (item_key it)) as Hlive.
  { unfold live_at. destruct (m !! item_key it) as [q|] eqn:Hq; [|done]. simpl. rewrite lookup_insert_ne; [done|]. intros <-.
    destruct (store_linked _ _ _ _ _ _ _ R Hq) as (x & Ex & _ & Lx). congruence. }
  rewrite Hlive in Hres. change (new_cas cfg s2) with (new_cas cfg (w_store w)) in Hres. change (total_items s2) with (total_items (w_store w)) in Hres.
  assert (forall k, k <> item_key it -> value_at s5 m3 k = value_at (w_store w) m k) as Hothers.
  { intros k Hk. rewrite Hsame. destruct (Hoth k Hk) as [->|[Hbad _]]; [apply Hsame2|congruence]. }
  split; [simpl; by rewrite A2, W2|]. split; [simpl; by rewrite A3, W3|]. split; [done|]. split; [exact A5|].
  exists m3, lru3. cbn [w_store upd_conn with_conn with_store]. split; [exact R5|].
  enough ((forall v, value_at s5 m3 (item_key it) = Some v -> tidy_value v) /\
    match store_spec cfg (c_cmd (w_conn w)) (c_set_stale (w_conn w)) (new_cas cfg (w_store w)) v0 (live_at cfg (w_store w) m (item_key it)) with
    | (_, None) => value_at s5 m3 (item_key it) = live_at cfg (w_store w) m (item_key it) /\ total_items s5 = total_items (w_store w)
    | (_, Some P) => total_items s5 = u64 (total_items (w_store w) + 1) /\ exists v, value_at s5 m3 (item_key it) = Some v /\ P v
    end) as [Hkey Hspec].
  { split; [|done]. intros k v Hk. destruct (decide (k = item_key it)) as [->|Hne]; [by apply Hkey|]. rewrite Hothers in Hk by done. by apply (Ht k). }
  rewrite Hsame, (proj1 G5). destruct (store_spec _ _ _ _ _ _) as [rt [P|]] eqn:Es.
  - destruct Hres as [(_ & (v & Hv & HP & _ & Htot) & _)|(Hbad & _)]; [|congruence]. split; [|split; [exact Htot|by exists v]].
    intros v' Hv'. assert (v' = v) as -> by congruence. eapply spec_tidy; [exact Hj|apply (new_cas_range cfg (w_store w))|exact Htv|exact Es|exact HP].
  - destruct Hres as [_ [(_ & Hv & Htot) _]]. rewrite Hlive in Hv. rewrite Hv. split; [|by split]. intros v. by apply live_tidy.
Qed.
End Value.

(** The state of a connection that has read the value of a storage command other than append and
    prepend into an item of its own. *)
Record bin_ready (b : bin_conn) w m refs (rs : list mc_resp) (p : positive) (it : item) (bytes : list Z) : Prop := {
  br_tidy : tidy (w_store w) m;
  br_below : below 3 refs;
  br_resps : exists r, c_resps (w_conn w) = rs ++ [r] /\ resp_item r = None;
  br_substate : b_substate b = bin_read_set_value;
  br_item : c_item (w_conn w) = Some p;
  br_held : 0 < refs p;
  br_heap : heap (w_store w) !! p = Some it;
  br_linked : linked it = false;
  br_chunked : has_flag ITEM_CHUNKED it = false;
  br_plain : plain_value (value_of it);
  br_data : Z.of_nat (length (it_data it)) = it_nbytes it;
  br_length : c_rlbytes (w_conn w) = Z.of_nat (length bytes) /\ it_nbytes it = Z.of_nat (length bytes) + 2;
  br_joins : joins (c_cmd (w_conn w)) = false
}.

Lemma bin_ready_stored e b w m lru refs rs p it bytes : store_rep hash (w_store w) m lru refs -> bin_ready b w m refs rs p it bytes ->
  exists b' w', bin_nread_value hash ctl false lib e b bytes w = Ret (b', w') /\ bin_stored w m refs rs p it bytes w'.
Proof.
  intros R [B1 B2 (r0 & B3 & B4) B5 B6 B7 B8 B9 B10 B11 B12 [B13 B14] B15].
  by apply (bin_value_ok e b w m lru refs rs r0 p it bytes).
Qed.

(** C19: storing through the binary protocol.  When the value of a set, add, replace or cas has
    arrived, the machine adds the line break that the protocol leaves out and stores the item as
    [do_store_item] prescribes: the result agrees with the specification of the storage commands, no
    other key is touched, the answer is written and the connection gives up its item; the tree and
    the standard error output are as they were. *)
Theorem bin_store_correct (e : senv) (b : bin_conn) (w : world T) (m : gmap (list Z) positive) (lru : Z -> list positive)
    (refs : positive -> Z) (rs : list mc_resp) (p : positive) (it : item) (bytes : list Z)
    (R : store_rep hash (w_store w) m lru refs) (B : bin_ready b w m refs rs p it bytes) :
  exists b' w' m' lru', bin_nread_value hash ctl false lib e b bytes w = Ret (b', w') /\
    w_tree w' = w_tree w /\ w_stderr w' = w_stderr w /\ c_item (w_conn w') = None /\
    store_rep hash (w_store w') m' lru' (set_refs p (refs p - 1) refs) /\ tidy (w_store w') m' /\
    (forall k, k <> item_key it -> value_at (w_store w') m' k = value_at (w_store w) m k) /\
    match store_spec cfg (c_cmd (w_conn w)) (c_set_stale (w_conn w)) (new_cas cfg (w_store w)) (value_of (set_data (bytes ++ crlf) it))
            (live_at cfg (w_store w) m (item_key it)) with
    | (_, None) => value_at (w_store w') m' (item_key it) = live_at cfg (w_store w) m (item_key it) /\ total_items (w_store w') = total_items (w_store w)
    | (_, Some P) => total_items (w_store w') = u64 (total_items (w_store w) + 1) /\ exists v, value_at (w_store w') m' (item_key it) = Some v /\ P v
    end.
Proof.
  destruct (bin_ready_stored e b w m lru refs rs p it bytes R B) as (b' & w' & E & S1 & S2 & S3 & _ & m' & lru' & S4).
  by exists b', w', m', lru'.
Qed.

(** C33: a value that is stored through the binary protocol is not protected.  In a sealed state, a
    set of the binary protocol stores the value and counts it, but adds no leaf: the state is not
    sealed any more, whatever the tables and leaves are taken to be. *)
Theorem binary_set_breaks_seal {node_hash : NodeHash} (e : senv) (b : bin_conn) (w : world T) (m : gmap (list Z) positive) (lru : Z -> list positive)
    (refs : positive -> Z) (ls : list (list Z)) (rs : list mc_resp) (p : positive) (it : item) (bytes : list Z)
    (S : sealed hash w m lru refs ls) (B : bin_ready b w m refs rs p it bytes) (Hset : c_cmd (w_conn w) = NREAD_SET)
    (Hlim : Z.of_nat (length ls) < AL_LIMIT) :
  exists b' w', bin_nread_value hash ctl false lib e b bytes w = Ret (b', w') /\
    total_items (w_store w') = Z.of_nat (length ls) + 1 /\
    forall m' lru' refs' ls', ~ sealed hash w' m' lru' refs' ls'.
Proof.
  destruct (bin_ready_stored e b w m lru refs rs p it bytes (se_store _ _ _ _ _ _ S) B) as (b' & w' & E & Htree & _ & _ & _ & m1 & lru1 & _ & _ & _ & Hres).
  exists b', w'. split; [exact E|]. rewrite Hset in Hres.
  assert (total_items (w_store w') = u64 (total_items (w_store w) + 1)) as Htot by (unfold store_spec in Hres; destruct (live_at _ _ _ _); apply Hres).
  rewrite (se_count _ _ _ _ _ _ S), u64_id in Htot by (unfold AL_LIMIT in Hlim; lia). split; [done|].
  intros m' lru' refs' ls' S'. pose proof (se_count _ _ _ _ _ _ S') as Hc.
  assert (tree_ok ls' w) as T' by (destruct (se_tree _ _ _ _ _ _ S') as (t & Et & Ht); exists t; by rewrite <- Htree).
  pose proof (tree_size_unique ls ls' w (se_tree _ _ _ _ _ _ S) T'). lia.
Qed.
End Requests.

(** ** Witnesses *)

Definition bin_control : control := mkControl sample_srv true false 0 [] false [].
Definition bin_library : sasl_lib := mkSasl None (fun _ _ => (SASL_OTHER, [])) (fun _ => (SASL_OTHER, [])).
Definition bin_start : bin_conn := mkBin (mkHeader 0 0 0 0 0 0 0 [] 0) 0 bin_read_set_value false false false.

(** A set of the key "a" with the value "x", and the first bytes of what follows. *)
Definition sample_packet : list Z :=
  [0x80; 1; 0; 1; 8; 0; 0; 0; 0; 0; 0; 10; 0; 0; 0; 7; 0; 0; 0; 0; 0; 0; 0; 0] ++ replicate 8 0 ++ text "ax" ++ [0x80; 10].

Lemma bin_safe_witness : exists r, try_read_command_binary first_byte bin_control false bin_library sample_env bin_start sample_packet sample_world = Ret r /\
  match r with
  | BinHandled _ _ rest w' => (length rest + 24 <= length sample_packet)%nat /\ c_item (w_conn w') <> None
  | _ => False
  end.
Proof.
  destruct (bin_safe first_byte bin_control bin_library eq_refl ltac:(vm_compute; discriminate) sample_env bin_start sample_packet sample_world
    ∅ (fun _ => []) (fun _ => 0) empty_store_rep (below_no_refs 3 ltac:(lia)) (empty_tidy _)) as (r & E & Hr).
  - reflexivity.
  - vm_compute. repeat constructor; discriminate.
  - vm_compute. reflexivity.
  - vm_compute. discriminate.
  - exists r. split; [exact E|]. assert (exists c b rest w', r = BinHandled c b rest w' /\ c_item (w_conn w') <> None) as (c & b & rest & w' & -> & Hi).
    { assert (exists c b rest w', try_read_command_binary first_byte bin_control false bin_library sample_env bin_start sample_packet sample_world
        = Ret (BinHandled c b rest w') /\ c_item (w_conn w') <> None) as (c & b & rest & w' & E' & Hi)
        by (eexists _, _, _, _; split; [vm_compute; reflexivity|vm_compute; discriminate]).
      rewrite E in E'. injection E' as ->. by exists c, b, rest, w'. }
    split; [exact (proj2 Hr)|exact Hi].
Defined.

(** The world in which the value of the sample item is about to be read. *)
Definition bin_world : world assoc := upd_conn (with_nread NREAD_SET 1) read_world.

Lemma bin_world_ready : bin_ready bin_start bin_world ∅ sample_refs [] 1 sample_item (text "y").
Proof.
  constructor; try reflexivity.
  - intros k v. unfold value_at. by rewrite lookup_empty.
  - by apply below_sample.
  - by exists (mkResp [] None false []).
  - split; [vm_compute; lia|vm_compute; split; [discriminate|reflexivity]..].
  - split; reflexivity.
Qed.

Lemma bin_store_correct_witness : exists b' w' m' lru', bin_nread_value first_byte bin_control false bin_library sample_env bin_start (text "y") bin_world = Ret (b', w') /\
  store_rep first_byte (w_store w') m' lru' (set_refs 1 (sample_refs 1%positive - 1) sample_refs).
Proof.
  destruct (bin_store_correct first_byte bin_control bin_library eq_refl sample_env bin_start bin_world ∅ (fun _ => []) sample_refs [] 1 sample_item (text "y")
    loaded_store_rep bin_world_ready) as (b' & w' & m' & lru' & E & _ & _ & _ & R & _).
  exists b', w', m', lru'. split; [exact E|exact R].
Defined.

Lemma binary_set_breaks_seal_witness : exists b' w', bin_nread_value first_byte bin_control false bin_library sample_env bin_start (text "y") bin_world = Ret (b', w') /\
  forall m' lru' refs' ls', ~ sealed first_byte w' m' lru' refs' ls'.
Proof.
  destruct (binary_set_breaks_seal first_byte bin_control bin_library eq_refl sample_env bin_start bin_world ∅ (fun _ => []) sample_refs [] [] 1 sample_item (text "y"))
    as (b' & w' & E & _ & H).
  - exact (sealed_conn first_byte _ read_world _ _ _ _ read_world_sealed).
  - exact bin_world_ready.
  - reflexivity.
  - reflexivity.
  - exists b', w'. split; [exact E|exact H].
Defined.
