(* ===== verification/FlushTheorems.v ===== *)
(** * What flush_all hides

    A flush hides every item that is in the store and no item that is stored later; without CAS
    numbers it also hides what is stored in the rest of the second. *)

From S2P Require Import AssocFacts.
From S2P Require Import Prelude Items LruFacts ItemsFacts ItemAlloc ItemAllocFacts Util Itoa Store StoreFacts.
From S2P Require Import DeltaFacts MtCrypto MtCryptoFacts MtArrayList MerkleTree Conn ProtoText ProtoFacts ServerFacts GetFacts.
From S2P Require Import ServerTheorems ProtoMeta MetaTheorems ProtoAdmin Assoc ItemTableAssoc Samples.
From Stdlib Require Ascii String.
Import String.StringSyntax.

Local Open Scope string_scope.
Local Open Scope Z_scope.

Section Flush.
Context {T : Type} {table_ops : ItemTable T} (hash : list Z -> Z) {table_laws : ItemTableLaws hash T}.
Implicit Types (s : store T) (w : world T) (m : gmap (list Z) positive) (refs : positive -> Z).

(** Every item of the table has a CAS number that was handed out. *)
Definition numbered s m : Prop := forall k v, value_at s m k = Some v -> 0 < v_cas v <= cas_id s.

Definition ct_cfg (c : control) : settings := base_settings (ct_srv c).

(** The settings at a later time. *)
Definition at_time (t : Z) (cfg : settings) : settings :=
  mkSettings (use_cas cfg) (lru_segmented cfg) (temp_lru cfg) (temporary_ttl cfg) (oldest_live cfg) (oldest_cas cfg) (item_size_max cfg)
    (slab_chunk_size_max cfg) (slabclass_sizes cfg) t (evict_to_free cfg) (tail_repair_time cfg) (hot_lru_pct cfg) (warm_lru_pct cfg).

(** Every item of the table was used for the last time in the past. *)
Definition past (t : Z) s m : Prop := forall k p i, m !! k = Some p -> heap s !! p = Some i -> it_time i <= t.

Lemma not_live s m k cfg : (forall p i, m !! k = Some p -> heap s !! p = Some i -> item_is_flushed cfg i = true) -> live_at cfg s m k = None.
Proof.
  intros H. unfold live_at. destruct (m !! k) as [p|] eqn:Hk; [|done]. destruct (heap s !! p) as [i|] eqn:Hp; [|done].
  unfold ItemsFacts.live. by rewrite (H p i).
Qed.

Lemma flushed_by_cas s m k cfg : numbered s m -> oldest_live cfg <> 0 -> oldest_live cfg <= current_time cfg -> cas_id s < oldest_cas cfg ->
  live_at cfg s m k = None.
Proof.
  intros Hn H0 Ht Hc. apply not_live. intros p i Hk Hp.
  destruct (Hn k (value_of i)) as [H1 H2]; [unfold value_at; by rewrite Hk, Hp|]. simpl in H1, H2.
  unfold item_is_flushed. rewrite (proj2 (Z.eqb_neq _ _) H0), (proj2 (Z.ltb_ge _ _)) by lia. cbn [orb].
  rewrite (proj2 (Z.eqb_neq (oldest_cas cfg) 0)), (proj2 (Z.eqb_neq (ITEM_get_cas i) 0)), (proj2 (Z.ltb_lt (ITEM_get_cas i) (oldest_cas cfg))) by lia.
  by rewrite orb_true_r.
Qed.

Lemma flushed_by_time s m k cfg : past (oldest_live cfg) s m -> oldest_live cfg <> 0 -> oldest_live cfg <= current_time cfg ->
  live_at cfg s m k = None.
Proof.
  intros Hp H0 Ht. apply not_live. intros p i Hk Hi. unfold item_is_flushed. rewrite (proj2 (Z.eqb_neq _ _) H0), (proj2 (Z.ltb_ge _ _)) by lia.
  cbn [orb]. by rewrite (proj2 (Z.leb_le _ _) (Hp k p i Hk Hi)).
Qed.

(** A set of a key that has no live item links the item, with the time and the next CAS number. *)
Lemma set_absent cfg e s m lru refs p it : tail_repair_time cfg = 0 ->
  store_rep hash s m lru refs -> store_ready cfg s m refs p it NREAD_SET -> live_at cfg s m (item_key it) = None ->
  exists cas s' m' lru' i', do_store_item hash cfg e false p NREAD_SET (hash (item_key it)) s = Ret (STORED, cas, s') /\
    store_rep hash s' m' lru' refs /\ m' !! item_key it = Some p /\ heap s' !! p = Some i' /\
    it_time i' = current_time cfg /\ value_of i' = relinked (new_cas cfg s) (value_of it) /\
    (forall k, k <> item_key it -> value_at s' m' k = value_at s m k).
Proof.
  intros Hnr R Hready Hlive. pose proof Hready as (Hb & _ & Hp & Hl & Hr & _).
  destruct (do_store_item_ok hash cfg Hnr e false s m lru refs p it NREAD_SET R Hready) as (ret & cas & s' & m' & lru' & E & R' & _ & Hoth & Hres).
  simpl v_key in Hres. rewrite Hlive in Hres. cbn [store_spec] in Hres. destruct Hres as [(-> & (v & _ & Hv) & Hm')|(? & _)]; [|discriminate].
  specialize (Hm' eq_refl). destruct (sr_item _ _ _ _ _ R' _ _ Hm') as (i' & Hi' & Ki').
  exists cas, s', m', lru', i'. split; [done|]. split; [done|]. split; [done|]. split; [done|].
  revert E. unfold do_store_item. rewrite (get_item_ok _ _ _ Hp), ret_bind.
  destruct (do_item_get_ok hash cfg s m lru refs (item_key it) (queued e) R) as (r & s1 & m1 & lru1 & -> & R1 & K1 & G1 & Hs1 & Hk1 & Hlv & _);
    [by apply (below_le 2); [|lia]|]. rewrite ret_bind.
  assert (r = None) as ->.
  { destruct r as [q|]; [|done]. rewrite Hlive in Hlv. destruct (sr_item _ _ _ _ _ R1 _ _ Hk1) as (x & Ex & _). destruct (K1 q x Ex) as (y & Ey & _).
    by rewrite Ey in Hlv. }
  change (got_refs None refs) with refs in R1.
  destruct (held_item hash s m lru refs s1 m1 lru1 refs p it R Hp Hl R1) as (it1 & Hp1 & V1 & Hl1 & _); [done|apply K1|by rewrite Hk1|].
  assert (item_key it1 = item_key it) as Ek by exact (f_equal v_key V1).
  destruct (sr_refs _ _ _ _ _ R1 p it1 Hp1) as (Er & _). rewrite Hl1 in Er. specialize (Hb p). unfold IT_REFCOUNT_LIMIT in Hb.
  destruct (do_item_link_timed hash cfg s1 m1 lru1 refs p it1 R1 Hp1 Hl1) as (s2 & lru2 & i2 & E2 & _ & _ & Hp2 & V2 & _ & T2); [by rewrite Ek|lia|].
  rewrite Ek in E2. rewrite E2, ret_bind, (get_item_ok _ _ _ Hp2), ret_bind. intros [= _ ->].
  assert (i2 = i') as -> by congruence. split; [done|]. split; [rewrite V2, V1; unfold new_cas; by rewrite (proj2 G1)|].
  intros k Hk. destruct (Hoth k Hk) as [H|[? _]]; [done|discriminate].
Qed.

(** What a set at time [t] makes visible after a flush at time [t0]. *)
Definition seen_after (cfg : settings) (t0 t : Z) : bool := use_cas cfg || (t0 <? t).

(** The flush itself: the times it sets, and that it changes no item. *)
Lemma flush_all_ok c w m lru refs rs wb :
  ct_flush_enabled c = true -> store_rep hash (w_store w) m lru refs -> c_resps (w_conn w) = rs ++ [blank wb] -> c_noreply (w_conn w) = false ->
  2 <= current_time (ct_cfg c) < 2 ^ 32 -> 0 <= cas_id (w_store w) < 2 ^ 64 - 2 ->
  exists c' w', process_flush_all_command (line_tokens [text "flush_all"]) c w = Ret (c', w') /\
    c_resps (w_conn w') = rs ++ [answer false (text "OK")] /\ store_rep hash (w_store w') m lru refs /\ heap (w_store w') = heap (w_store w) /\
    current_time (ct_cfg c') = current_time (ct_cfg c) /\ use_cas (ct_cfg c') = use_cas (ct_cfg c) /\ tail_repair_time (ct_cfg c') = tail_repair_time (ct_cfg c) /\
    (if use_cas (ct_cfg c) then oldest_live (ct_cfg c') = current_time (ct_cfg c) - 1 /\ oldest_cas (ct_cfg c') = cas_id (w_store w) + 1 /\ cas_id (w_store w') = cas_id (w_store w) + 1
     else oldest_live (ct_cfg c') = current_time (ct_cfg c)).
Proof.
  intros Hen R Hr Hq Htime Hid. unfold process_flush_all_command, line_tokens. cbn [map app]. unfold set_noreply_maybe. cbn [length Nat.sub lookup list_lookup deref]. rewrite ret_bind.
  cbn [word_token tok_value]. change (streq (text "flush_all") (text "noreply")) with false. cbn match. rewrite ret_bind. rewrite Hen. cbn [negb].
  rewrite Hq. cbn [Nat.eqb negb]. rewrite ret_bind. cbn [negb Z.ltb Z.compare]. unfold flush_from. fold (ct_cfg c).
  destruct (use_cas (ct_cfg c)) eqn:Hcas.
  - rewrite u32_id, (proj2 (Z.leb_le _ _)) by lia.
    destruct (get_cas_id (w_store w)) as [n s1] eqn:E1. assert (n = cas_id (w_store w) + 1 /\ cas_id s1 = n /\ heap s1 = heap (w_store w)) as (Hn1 & Hc1 & Hh1).
    { injection E1 as <- <-. split; [apply u64_id; lia|done]. }
    rewrite (out_string_ok (text "OK") (with_store s1 w) rs (blank wb) Hr eq_refl) by (vm_compute; lia). rewrite ret_bind.
    eexists _, _. split; [reflexivity|]. split; [simpl; by rewrite Hq|]. split.
    { injection E1 as <- <-. destruct R as [R1 R2 R3 R4 R5 R6 R7 R8 R9]. split; try done. by eapply lru_rep_same. }
    split; [exact Hh1|]. split; [done|]. split; [exact Hcas|]. split; [done|]. split; [done|]. split; [done|]. simpl. congruence.
  - rewrite (out_string_ok (text "OK") (with_store (w_store w) w) rs (blank wb) Hr eq_refl) by (vm_compute; lia). rewrite ret_bind.
    eexists _, _. split; [reflexivity|]. split; [simpl; by rewrite Hq|]. split; [exact R|]. split; [done|]. split; [done|]. split; [exact Hcas|]. done.
Qed.

(** C22: flush_all hides everything there is.  On a server that has run for two seconds, the command
    answers OK and changes no item; afterwards no lookup finds any of the items that were in the
    table, now or later.  A set that follows at time [t] succeeds, and its value is found: always when
    the server uses CAS numbers, which tell it from what was flushed; without them only when the
    second of the flush is over, so that an item set within that second is lost. *)
Theorem flush_all_hides_all (c : control) (w : world T) (m : gmap (list Z) positive) (lru : Z -> list positive)
    (refs : positive -> Z) (rs : list mc_resp) (wb : list Z)
    (Hen : ct_flush_enabled c = true) (Hnr : tail_repair_time (ct_cfg c) = 0) (Htime : 2 <= current_time (ct_cfg c) < 2 ^ 32)
    (R : store_rep hash (w_store w) m lru refs) (Hpast : past (current_time (ct_cfg c)) (w_store w) m)
    (Hn : use_cas (ct_cfg c) = true -> numbered (w_store w) m) (Hid : 0 <= cas_id (w_store w) < 2 ^ 64 - 2)
    (Hr : c_resps (w_conn w) = rs ++ [blank wb]) (Hq : c_noreply (w_conn w) = false) :
  exists c' w', process_flush_all_command (line_tokens [text "flush_all"]) c w = Ret (c', w') /\
    c_resps (w_conn w') = rs ++ [answer false (text "OK")] /\ store_rep hash (w_store w') m lru refs /\
    (forall k, value_at (w_store w') m k = value_at (w_store w) m k) /\
    (forall t k, current_time (ct_cfg c) <= t -> live_at (at_time t (ct_cfg c')) (w_store w') m k = None) /\
    (forall e t p it, current_time (ct_cfg c) <= t -> it_exptime it = 0 \/ t < it_exptime it ->
       store_ready (at_time t (ct_cfg c')) (w_store w') m refs p it NREAD_SET ->
       exists cas s' m' lru', do_store_item hash (at_time t (ct_cfg c')) e false p NREAD_SET (hash (item_key it)) (w_store w') = Ret (STORED, cas, s') /\
         store_rep hash s' m' lru' refs /\
         live_at (at_time t (ct_cfg c')) s' m' (item_key it) =
           if seen_after (ct_cfg c) (current_time (ct_cfg c)) t then Some (relinked (new_cas (ct_cfg c) (w_store w')) (value_of it)) else None).
Proof.
  destruct (flush_all_ok c w m lru refs rs wb Hen R Hr Hq Htime Hid) as (c' & w' & E & Hc & R' & Hh & Ht & Hu & Hn' & Hold).
  assert (forall t k, current_time (ct_cfg c) <= t -> live_at (at_time t (ct_cfg c')) (w_store w') m k = None) as Hidden.
  { intros t k Hle. unfold live_at. rewrite Hh. fold (live_at (at_time t (ct_cfg c')) (w_store w) m k).
    destruct (use_cas (ct_cfg c)); [destruct Hold as (H1 & H2 & _); apply flushed_by_cas|apply flushed_by_time]; simpl; try rewrite Hold; auto; lia. }
  exists c', w'. split; [done|]. split; [done|]. split; [done|]. split; [intros k; unfold value_at; by rewrite Hh|]. split; [done|].
  intros e t p it Hle Hexp Hready.
  destruct (set_absent (at_time t (ct_cfg c')) e (w_store w') m lru refs p it) as (cas & s' & m' & lru' & i' & E' & R2 & Hm' & Hp' & T' & V' & _);
    [simpl; congruence|done|done|by apply Hidden|].
  exists cas, s', m', lru'. split; [done|]. split; [done|]. unfold live_at. rewrite Hm', Hp', V'.
  assert (new_cas (at_time t (ct_cfg c')) (w_store w') = new_cas (ct_cfg c) (w_store w')) as Hnc by (unfold new_cas; simpl; by rewrite Hu). rewrite Hnc.
  assert (it_exptime i' = it_exptime it) as He by exact (f_equal v_exptime V').
  assert (ItemsFacts.live (at_time t (ct_cfg c')) i' = seen_after (ct_cfg c) (current_time (ct_cfg c)) t) as ->; [|done].
  unfold ItemsFacts.live. rewrite He. assert ((it_exptime it =? 0) || (current_time (at_time t (ct_cfg c')) <? it_exptime it) = true) as ->.
  { simpl. destruct Hexp as [-> | Hexp]; [done|]. by rewrite (proj2 (Z.ltb_lt _ _)), orb_true_r. }
  rewrite andb_true_r. assert (ITEM_get_cas i' = v_cas (relinked (new_cas (ct_cfg c) (w_store w')) (value_of it))) as Hcas by (rewrite <- Hnc; exact (f_equal v_cas V')).
  simpl in T'. unfold item_is_flushed, seen_after. simpl. rewrite T', Hcas. unfold new_cas. simpl.
  destruct (use_cas (ct_cfg c)).
  - destruct Hold as (-> & -> & ->). rewrite u64_id by lia. rewrite (proj2 (Z.leb_gt t _)) by lia. cbn [orb].
    destruct ((current_time (ct_cfg c) - 1 =? 0) || _); [done|]. destruct (has_flag ITEM_CAS it); [|by rewrite andb_false_r].
    rewrite (proj2 (Z.ltb_ge _ (cas_id (w_store w) + 1))) by lia. by rewrite andb_false_r.
  - rewrite Hold, (proj2 (Z.eqb_neq _ 0)), (proj2 (Z.ltb_ge t _)) by lia. cbn [orb].
    assert ((if has_flag ITEM_CAS it then 0 else 0) = 0) as -> by (by destruct (has_flag ITEM_CAS it)). cbn [Z.eqb negb andb]. rewrite andb_false_r, orb_false_r.
    destruct (Z.leb_spec t (current_time (ct_cfg c))), (Z.ltb_spec (current_time (ct_cfg c)) t); lia || done.
Qed.
End Flush.

(** ** Witness *)

Lemma sample_times : forallb (fun x => (0 <? ITEM_get_cas x.2) && (ITEM_get_cas x.2 <=? cas_id (w_store stored_sample))) (map_to_list (heap (w_store stored_sample))) = true.
Proof. vm_compute. reflexivity. Qed.

Lemma sample_numbered m : numbered (w_store stored_sample) m.
Proof.
  intros k v. unfold value_at. destruct (m !! k) as [p|]; [|done]. destruct (heap _ !! p) as [i|] eqn:Hp; [|done]. intros [= <-].
  pose proof (heap_all (fun x => (0 <? ITEM_get_cas x) && (ITEM_get_cas x <=? cas_id (w_store stored_sample))) _ p i sample_times Hp) as H.
  cbn beta in H. simpl. lia.
Qed.

Lemma sample_cas_id : (0 <=? cas_id (w_store stored_sample)) && (cas_id (w_store stored_sample) <? 2 ^ 64 - 2) = true.
Proof. vm_compute. reflexivity. Qed.

Lemma sample_noreply : c_noreply (w_conn stored_sample) = false.
Proof. vm_compute. reflexivity. Qed.

Lemma sample_old : forallb (fun x => it_time x.2 <=? 100) (map_to_list (heap (w_store stored_sample))) = true.
Proof. vm_compute. reflexivity. Qed.

Lemma sample_past m : past 100 (w_store stored_sample) m.
Proof.
  intros k p i _ Hp. pose proof (heap_all (fun x => it_time x <=? 100) _ p i sample_old Hp) as H. cbn beta in H. lia.
Qed.

Definition sample_control : control := mkControl sample_srv true false 0 [] false [].

(** The item that was stored is hidden; a set in the same second, here into an empty table, is seen. *)
Lemma flush_all_hides_all_witness :
  (exists c' w' (m : gmap (list Z) positive),
    process_flush_all_command (line_tokens [text "flush_all"]) sample_control stored_sample = Ret (c', w') /\
    m !! text "a" <> None /\ live_at (at_time 100 (ct_cfg c')) (w_store w') m (text "a") = None) /\
  (exists c' w' cas s' m', process_flush_all_command (line_tokens [text "flush_all"]) sample_control read_world = Ret (c', w') /\
    do_store_item first_byte (at_time 100 (ct_cfg c')) sample_item_env false 1 NREAD_SET (first_byte (text "a")) (w_store w') = Ret (STORED, cas, s') /\
    live_at (at_time 100 (ct_cfg c')) s' m' (text "a") <> None).
Proof.
  split.
  - destruct stored_sample_sealed as (m & lru & refs & ls & p & it & S & Hb & Hm & Hp & _ & _ & _ & Hr & Hresps).
    pose proof sample_cas_id as Hid. pose proof (sample_numbered m) as Hn. pose proof sample_noreply as Hq.
    destruct (flush_all_hides_all first_byte sample_control stored_sample m lru refs [answer false (text "STORED")] [])
      as (c' & w' & E & _ & _ & _ & Hl & _).
    + reflexivity.
    + reflexivity.
    + vm_compute. split; [discriminate|reflexivity].
    + exact (se_store _ _ _ _ _ _ S).
    + exact (sample_past m).
    + intros _. exact Hn.
    + lia.
    + exact Hresps.
    + exact Hq.
    + exists c', w', m. split; [exact E|]. split; [rewrite Hm; discriminate|]. apply Hl. vm_compute. discriminate.
  - destruct (flush_all_hides_all first_byte sample_control read_world ∅ (fun _ => []) sample_refs [] []) as (c' & w' & E & _ & _ & _ & _ & H).
    + reflexivity.
    + reflexivity.
    + vm_compute. split; [discriminate|reflexivity].
    + exact loaded_store_rep.
    + intros k p i Hk. rewrite lookup_empty in Hk. discriminate Hk.
    + intros _ k v Hk. unfold value_at in Hk. rewrite lookup_empty in Hk. discriminate Hk.
    + vm_compute. split; [discriminate|reflexivity].
    + reflexivity.
    + reflexivity.
    + assert (Ret (c', w') = Ret (set_srv (mkServerSettings (set_oldest 99 1 sample_cfg) 0 false) sample_control, w') /\ heap (w_store w') = heap loaded_store) as [Ec Eh].
      { rewrite <- E. split; [|]; injection E as <- <-; reflexivity. }
      injection Ec as ->.
      destruct (H sample_item_env 100 1%positive sample_item) as (cas & s' & m' & lru' & E' & _ & Hv).
      * vm_compute. discriminate.
      * left. reflexivity.
      * destruct (loaded_store_ready NREAD_SET eq_refl) as (A1 & _ & A3 & A4 & A5 & _). split; [exact A1|].
        split; [intros k p i Hk; rewrite lookup_empty in Hk; discriminate Hk|]. rewrite Eh. split; [exact A3|]. split; [exact A4|]. split; [exact A5|discriminate].
      * eexists _, w', cas, s', m'. split; [exact E|]. split; [exact E'|]. change (text "a") with (item_key sample_item). rewrite Hv. discriminate.
Defined.
