(* ===== verification/Authfile.v ===== *)
(** * The file of users (src/memcached/authfile.c)

    The file is read line by line into one buffer, each line over the end of the one before; an entry
    keeps where its user and its password are.  [authfile_load] is given what the file system answers:
    that the file cannot be opened, that its size is not known, or its bytes; [mem] says whether
    [calloc] has memory. *)

From S2P Require Import Prelude.
From S2P Require Import Util.

Definition MAX_ENTRY_LEN : nat := 256.
Definition MAX_ENTRIES : nat := 8.

Inductive authfile_ret := AUTHFILE_OK | AUTHFILE_OOM | AUTHFILE_STATFAIL | AUTHFILE_OPENFAIL | AUTHFILE_MALFORMED.

#[export] Instance authfile_ret_eq_dec : EqDecision authfile_ret.
Proof. solve_decision. Defined.

(** Offsets into the buffer; [plen] may not have been written. *)
Record auth_t := mkAuth { user : nat; ulen : nat; pass : nat; plen : option nat }.

(** [main_auth_data], [main_auth_entries] and [entry_cnt]. *)
Record auth_state := mkAuthState { main_auth_data : list Z; main_auth_entries : list auth_t }.

Inductive file_answer := NotOpened | NoStat | Contents (bytes : list Z).

(** ** Reading a line *)

(** At most [n] characters, up to and with a newline. *)
Fixpoint take_line (n : nat) (l : list Z) : list Z :=
  match n, l with
  | S n, c :: l => if c =? 10 then [c] else c :: take_line n l
  | _, _ => []
  end.

(** [fgets] to offset [cur] of the buffer, [n] its second argument: whether it returned a line, the
    rest of the file and the buffer. *)
Definition fgets (data : option (list Z)) (cur n : nat) (rest : list Z) : outcome (bool * list Z * option (list Z)) :=
  match n with
  | O => Ret (false, rest, data)
  | 1%nat => d ← deref data; d ← write_bytes d cur [0]; Ret (true, rest, Some d)
  | S (S n) =>
      match rest with
      | [] => Ret (false, rest, data)
      | _ =>
          let line := take_line (S n) rest in
          d ← deref data; d ← write_bytes d cur (line ++ [0]);
          Ret (true, drop (length line) rest, Some d)
      end
  end.

(** The inner loop: [colon] is where the user ends, once it has been found; the result is the entry,
    if there is one, and the last [x]. *)
Fixpoint scan_entry (k x cur : nat) (data : list Z) (colon : option nat) : outcome (option (nat * option nat) * nat) :=
  match k with
  | O => Ret ((fun u => (u, None)) <$> colon, x)
  | S k =>
      c ← deref (data !! (cur + x)%nat);
      match colon with
      | None => if c =? 0 then Ret (None, x) else scan_entry k (S x) cur data (if c =? 58 then Some x else None)
      | Some u =>
          if (c =? 10) || (c =? 13) || (c =? 0) then Ret (Some (u, Some (x - (u + 1))%nat), x)
          else scan_entry k (S x) cur data colon
      end
  end.

(** The loop over the lines; [None] is a malformed line.  It ends after [MAX_ENTRIES] entries. *)
Fixpoint load_loop (fuel size : nat) (rest : list Z) (data : option (list Z)) (cur : nat) (entries : list auth_t)
    : outcome (option (option (list Z) * list auth_t)) :=
  match fuel with
  | O => Ub
  | S fuel =>
      '(got, rest, data) ← fgets data cur (Nat.min (size - cur) MAX_ENTRY_LEN) rest;
      if negb got then Ret (Some (data, entries)) else
      d ← deref data;
      '(found, x) ← scan_entry MAX_ENTRY_LEN 0 cur d None;
      match found with
      | None => Ret None
      | Some (u, p) =>
          let entries := entries ++ [mkAuth cur u (cur + u + 1) p] in
          if (length entries =? MAX_ENTRIES)%nat then Ret (Some (data, entries)) else
          c ← deref (d !! (cur + x)%nat);
          if c =? 0 then Ret (Some (data, entries)) else load_loop fuel size rest data (cur + x) entries
      end
  end.

Definition authfile_load (mem : bool) (file : file_answer) (st : auth_state) : outcome (authfile_ret * auth_state) :=
  match file with
  | NotOpened => Ret (AUTHFILE_OPENFAIL, st)
  | NoStat => Ret (AUTHFILE_STATFAIL, st)
  | Contents bytes =>
      let size := length bytes in
      let data := if mem then Some (replicate (size + 1) 0) else None in
      r ← load_loop MAX_ENTRIES size bytes data 0 [];
      match r with
      | None => Ret (AUTHFILE_MALFORMED, st)
      | Some (data, entries) => Ret (AUTHFILE_OK, mkAuthState (default [] data) entries)
      end
  end.

(** ** Checking a password *)

Fixpoint check_entries (data : list Z) (entries : list auth_t) (u p : list Z) : outcome bool :=
  match entries with
  | [] => Ret false
  | e :: entries =>
      if negb (length u =? ulen e)%nat then check_entries data entries u p else
      pl ← deref (plen e);
      if negb (length p =? pl)%nat then check_entries data entries u p else
      same ← safe_memcmp u (drop (user e) data) (ulen e);
      if negb same then check_entries data entries u p else
      same ← safe_memcmp p (drop (pass e) data) pl;
      if negb same then check_entries data entries u p else Ret true
  end.

(** The strings without their terminators. *)
Definition authfile_check (st : auth_state) (u p : list Z) : outcome bool :=
  check_entries (main_auth_data st) (main_auth_entries st) u p.
