(* ===== verification/ProtoAuth.v ===== *)
(** * Logging in through the text protocol (src/memcached/proto_text.c)

    With a file of users, a new connection can only log in, by a set command whose value is the user
    and the password; [try_read_command_asciiauth] is its handler until that has succeeded. *)

From S2P Require Import Prelude Items Store Util MtArrayList MerkleTree Conn ProtoText Authfile.
From Stdlib Require Ascii String.
Import String.StringSyntax.

Local Open Scope string_scope.
Local Open Scope Z_scope.

(** [c->sasl_started] and [c->authenticated]. *)
Record login := mkLogin { l_started : bool; l_authenticated : bool }.

Section Login.
Context {T : Type} {table_ops : ItemTable T}.
Context (users : auth_state).

(** [c->resp], with a new response object when there is none. *)
Definition have_resp (e : senv) (w : world T) : bool * world T :=
  if (length (c_resps (w_conn w)) =? 0)%nat then start_response e w else (true, w).

(** An answer; [false] when there is no memory for it and the connection is closed. *)
Definition login_answer (e : senv) (str : list Z) (w : world T) : outcome (world T) :=
  let '(ok, w) := have_resp e w in
  if ok then out_string str w else Ret (conn_set_state conn_closing w).

(** [strncmp(p, CRLF, 2) == 0] at offset [k] of some memory. *)
Definition ends_line (mem : list Z) (k : Z) : outcome bool :=
  if k <? 0 then Ub else
  a ← deref (mem !! Z.to_nat k);
  if a =? 13 then b ← deref (mem !! S (Z.to_nat k)); Ret (b =? 10) else Ret false.

(** The second half: [before] are the bytes of the buffer in front of [c->rcurr], [rbuf] those from
    there on.  The result says whether the buffer held the whole value. *)
Definition login_value (e : senv) (before rbuf : list Z) (l : login) (w : world T) : outcome (bool * login * list Z * world T) :=
  let n := c_rlbytes (w_conn w) in
  if Z.of_nat (length rbuf) <? n then Ret (false, l, rbuf, w) else
  let '(ok, w) := have_resp e w in
  if negb ok then Ret (true, l, rbuf, conn_set_state conn_closing w) else
  let mem := before ++ rbuf in
  let cont := Z.of_nat (length before) in
  if cont + n <? 0 then Ub else
  let rest := drop (Z.to_nat (cont + n)) mem in
  let l := mkLogin false (l_authenticated l) in
  fine ← ends_line mem (cont + n - 2);
  if negb fine then w ← out_string (text "CLIENT_ERROR bad command line termination") w; Ret (true, l, rest, w) else
  if n <? 2 then Ub else
  let tokens := tokenize_command (c_string (take (Z.to_nat (n - 2)) rbuf)) MAX_TOKENS in
  if (length tokens <? 3)%nat then
    w ← out_string (text "CLIENT_ERROR bad authentication token format") w; Ret (true, l, rest, w)
  else
    t0 ← deref (tokens !! 0%nat); t1 ← deref (tokens !! 1%nat);
    u ← deref (tok_value t0); p ← deref (tok_value t1);
    good ← authfile_check users u p;
    if good : bool then w ← out_string (text "STORED") w; Ret (true, mkLogin false true, rest, w)
    else w ← out_string (text "CLIENT_ERROR authentication failure") w; Ret (true, l, rest, w).

(** The size in a set command, if that is what the line is. *)
Definition login_size (tokens : list token) : outcome (option Z) :=
  if (length tokens <? 6)%nat then Ret None else
  t0 ← deref (tokens !! 0%nat); v ← deref (tok_value t0);
  if negb (bool_decide (v = text "set")) then Ret None else
  t4 ← deref (tokens !! 4%nat);
  '(ok, size) ← safe_strtoul (tok_value t4) true;
  Ret (if ok : bool then Some size else None).

Definition try_read_command_asciiauth (e : senv) (l : login) (rbuf : list Z) (w : world T) : outcome (bool * login * list Z * world T) :=
  if l_started l then login_value e [] rbuf l w else
  if (length rbuf <? 2)%nat then Ret (false, l, rbuf, w) else
  match split_line [] rbuf with
  | None =>
      if (1024 <? length rbuf)%nat then Ret (true, l, rbuf, conn_set_state conn_closing w) else Ret (false, l, rbuf, w)
  | Some (line, cont) =>
      size ← login_size (tokenize_command (c_string line) MAX_TOKENS);
      match size with
      | None => w ← login_answer e (text "CLIENT_ERROR unauthenticated") w; Ret (true, l, cont, w)
      | Some size =>
          let w := upd_conn (fun c => with_nread (c_cmd c) (i32 (u32 (size + 2))) c) w in
          login_value e (line ++ [0]) cont (mkLogin true (l_authenticated l)) w
      end
  end.

End Login.
