(* ===== verification/Drive.v ===== *)
(** * The state machine of a connection (src/memcached/memcached.c, drive_machine)

    An event on the socket of a client enters the machine, which goes from state to state until it
    has to wait for the socket again.  The states of a connection that serves requests over TCP are
    modelled, with both protocols and with the handler for logging in: reading, parsing, reading a
    value, swallowing, writing and closing.  What the socket, libevent and the allocator of read
    buffers answer comes from outside, errors included.  Connections over UDP, TLS, listening sockets
    and queues of storage requests are not modelled. *)

From S2P Require Import Prelude Items ItemAlloc Util MtCrypto MtArrayList MerkleTree Store Conn ProtoText ProtoMeta ProtoAdmin ProtoBin.
From S2P Require Import Authfile ProtoAuth.
From Stdlib Require Ascii String.
Import String.StringSyntax.

Local Open Scope string_scope.
Local Open Scope Z_scope.

(** ** The outside *)

(** What a call of [read] answers: bytes, of which it takes as many as were asked for, the end of the
    stream, that it would block, or another error. *)
Inductive read_reply := RdBytes (b : Z) (l : list Z) | RdEof | RdAgain | RdError.

(** What a call of [sendmsg] answers: it takes so many bytes, it would block, or it fails. *)
Inductive send_reply := SdTook (n : nat) | SdAgain | SdError.

(** [event_del] and [event_add]. *)
Inductive event_reply := EvSet | EvDelFailed | EvAddFailed.

(** The answers to come, and whether the event of the connection waits for room to write.  When no
    answer is left, a socket would block and everything else succeeds. *)
Record io := mkIo {
  io_reads : list read_reply;
  io_sends : list send_reply;
  io_events : list event_reply;
  io_allocs : list bool;
  io_ev_write : bool
}.

Definition with_reads (l : list read_reply) (o : io) : io := mkIo l (io_sends o) (io_events o) (io_allocs o) (io_ev_write o).
Definition with_sends (l : list send_reply) (o : io) : io := mkIo (io_reads o) l (io_events o) (io_allocs o) (io_ev_write o).

Inductive read_result := Got (bytes : list Z) | Eof | Again | Failed.

(** [c->read(c, buf, n)]; a read of no bytes returns 0, as the end of the stream does. *)
Definition net_read (n : nat) (o : io) : read_result * io :=
  if (n =? 0)%nat then (Eof, o) else
  match io_reads o with
  | [] => (Again, o)
  | RdBytes b l :: rest =>
      (Got (take n (b :: l)), with_reads (match drop n (b :: l) with [] => rest | b :: l => RdBytes b l :: rest end) o)
  | RdEof :: rest => (Eof, with_reads rest o)
  | RdAgain :: rest => (Again, with_reads rest o)
  | RdError :: rest => (Failed, with_reads rest o)
  end.

Definition net_alloc (o : io) : bool * io :=
  match io_allocs o with
  | [] => (true, o)
  | b :: rest => (b, mkIo (io_reads o) (io_sends o) (io_events o) rest (io_ev_write o))
  end.

Definition update_event (write : bool) (o : io) : bool * io :=
  if Bool.eqb (io_ev_write o) write then (true, o) else
  match io_events o with
  | [] => (true, mkIo (io_reads o) (io_sends o) [] (io_allocs o) write)
  | EvSet :: rest => (true, mkIo (io_reads o) (io_sends o) rest (io_allocs o) write)
  | EvDelFailed :: rest => (false, mkIo (io_reads o) (io_sends o) rest (io_allocs o) (io_ev_write o))
  | EvAddFailed :: rest => (false, mkIo (io_reads o) (io_sends o) rest (io_allocs o) write)
  end.

(** ** The read buffer *)

Definition READ_BUFFER_SIZE : nat := Z.to_nat 16384.

(** The bytes from [rcurr] on, [rsize] and [rbuf_malloced]; the size is 0 when there is no buffer. *)
Record rbuffer := mkRbuffer { rb_bytes : list Z; rb_size : nat; rb_malloced : bool }.

Definition rbuf_release (rb : rbuffer) : rbuffer :=
  if (length (rb_bytes rb) =? 0)%nat then mkRbuffer [] 0 false else rb.

Definition rbuf_alloc (rb : rbuffer) (o : io) : bool * rbuffer * io :=
  if (rb_size rb =? 0)%nat then
    let '(ok, o) := net_alloc o in
    if ok then (true, mkRbuffer (rb_bytes rb) READ_BUFFER_SIZE (rb_malloced rb), o) else (false, rb, o)
  else (true, rb, o).

Definition rbuf_switch_to_malloc (rb : rbuffer) (o : io) : bool * rbuffer * io :=
  let '(ok, o) := net_alloc o in
  if ok then (true, mkRbuffer (rb_bytes rb) (rb_size rb * 2) true, o) else (false, rb, o).

(** ** The machine *)

Inductive protocol := ascii_prot | binary_prot | negotiating_prot.

(** A connection with the world around it: its protocol, the state of logging in while that is its
    handler, the read buffer, how much of the value has been read ([c->ritem]), what has been sent,
    how much of the first response has been, the requests it may still handle in this event, and
    whether it was closed. *)
Record machine (T : Type) := mkMachine {
  mc_control : control;
  mc_bin : bin_conn;
  mc_protocol : protocol;
  mc_login : option login;
  mc_rbuf : rbuffer;
  mc_ritem : nat;
  mc_io : io;
  mc_world : world T;
  mc_sent : list Z;
  mc_offset : nat;
  mc_nreqs : Z;
  mc_closed : bool
}.
Arguments mkMachine {T}.
Arguments mc_control {T}.
Arguments mc_bin {T}.
Arguments mc_protocol {T}.
Arguments mc_login {T}.
Arguments mc_rbuf {T}.
Arguments mc_ritem {T}.
Arguments mc_io {T}.
Arguments mc_world {T}.
Arguments mc_sent {T}.
Arguments mc_offset {T}.
Arguments mc_nreqs {T}.
Arguments mc_closed {T}.

Section Drive.
Context {T : Type} {table_ops : ItemTable T} {slabs : SlabAllocator} {node_hash : NodeHash}.
Context (hash : list Z -> Z) (use_sasl : bool) (lib : sasl_lib) (users : auth_state).

Definition on_world (w : world T) (m : machine T) : machine T :=
  mkMachine (mc_control m) (mc_bin m) (mc_protocol m) (mc_login m) (mc_rbuf m) (mc_ritem m) (mc_io m) w (mc_sent m) (mc_offset m) (mc_nreqs m) (mc_closed m).
Definition on_rbuf (rb : rbuffer) (m : machine T) : machine T :=
  mkMachine (mc_control m) (mc_bin m) (mc_protocol m) (mc_login m) rb (mc_ritem m) (mc_io m) (mc_world m) (mc_sent m) (mc_offset m) (mc_nreqs m) (mc_closed m).
Definition on_ritem (n : nat) (m : machine T) : machine T :=
  mkMachine (mc_control m) (mc_bin m) (mc_protocol m) (mc_login m) (mc_rbuf m) n (mc_io m) (mc_world m) (mc_sent m) (mc_offset m) (mc_nreqs m) (mc_closed m).
Definition on_io (o : io) (m : machine T) : machine T :=
  mkMachine (mc_control m) (mc_bin m) (mc_protocol m) (mc_login m) (mc_rbuf m) (mc_ritem m) o (mc_world m) (mc_sent m) (mc_offset m) (mc_nreqs m) (mc_closed m).
Definition on_protocol (p : protocol) (m : machine T) : machine T :=
  mkMachine (mc_control m) (mc_bin m) p (mc_login m) (mc_rbuf m) (mc_ritem m) (mc_io m) (mc_world m) (mc_sent m) (mc_offset m) (mc_nreqs m) (mc_closed m).
Definition on_login (l : option login) (m : machine T) : machine T :=
  mkMachine (mc_control m) (mc_bin m) (mc_protocol m) l (mc_rbuf m) (mc_ritem m) (mc_io m) (mc_world m) (mc_sent m) (mc_offset m) (mc_nreqs m) (mc_closed m).
Definition on_handler (c : control) (b : bin_conn) (m : machine T) : machine T :=
  mkMachine c b (mc_protocol m) (mc_login m) (mc_rbuf m) (mc_ritem m) (mc_io m) (mc_world m) (mc_sent m) (mc_offset m) (mc_nreqs m) (mc_closed m).
Definition on_sent (bytes : list Z) (offset : nat) (m : machine T) : machine T :=
  mkMachine (mc_control m) (mc_bin m) (mc_protocol m) (mc_login m) (mc_rbuf m) (mc_ritem m) (mc_io m) (mc_world m) (mc_sent m ++ bytes) offset (mc_nreqs m) (mc_closed m).
Definition on_nreqs (n : Z) (m : machine T) : machine T :=
  mkMachine (mc_control m) (mc_bin m) (mc_protocol m) (mc_login m) (mc_rbuf m) (mc_ritem m) (mc_io m) (mc_world m) (mc_sent m) (mc_offset m) n (mc_closed m).
Definition on_closed (m : machine T) : machine T :=
  mkMachine (mc_control m) (mc_bin m) (mc_protocol m) (mc_login m) (mkRbuffer [] 0 false) (mc_ritem m) (mc_io m) (mc_world m) (mc_sent m) (mc_offset m) (mc_nreqs m) true.
Definition in_state (st : conn_states) (m : machine T) : machine T := on_world (conn_set_state st (mc_world m)) m.
Definition on_bytes (bytes : list Z) (m : machine T) : machine T := on_rbuf (mkRbuffer bytes (rb_size (mc_rbuf m)) (rb_malloced (mc_rbuf m))) m.

(** One turn of the loop: the machine goes on, it waits for an event, or it has met a request whose
    handler is not modelled. *)
Inductive turn := Go (m : machine T) | Stop (m : machine T) | Unmodelled.

(** The connection waits for an event, or is closed if that cannot be set. *)
Definition wait_for (write : bool) (m : machine T) : turn :=
  let '(ok, o) := update_event write (mc_io m) in
  if ok then Stop (on_io o m) else Go (in_state conn_closing (on_io o m)).

Definition out_of_memory_on (str : list Z) (m : machine T) : outcome (world T) :=
  match mc_protocol m with
  | binary_prot => bin_out_of_memory (mc_bin m) str (mc_world m)
  | _ => out_of_memory str (mc_world m)
  end.

(** ** Reading requests *)

(** [c->try_read_command]: whether a request was handled; [None] when its handler is not modelled. *)
Definition try_read_ascii (e : senv) (m : machine T) : outcome (option (bool * machine T)) :=
  let rb := mc_rbuf m in
  match find_line (rb_bytes rb) with
  | LineIncomplete =>
      if (1024 <? length (rb_bytes rb))%nat && negb (rb_malloced rb) then
        let '(ok, rb, o) := rbuf_switch_to_malloc rb (mc_io m) in
        let m := on_rbuf rb (on_io o m) in
        Ret (Some (if ok then (false, m) else (true, in_state conn_closing m)))
      else Ret (Some (false, m))
  | LineTooLong => Ret (Some (true, in_state conn_closing m))
  | LineRead line cont =>
      r ← process_command_admin hash e line (mc_control m) (mc_world m);
      Ret (match r with
           | Some (c, w) => Some (true, on_world w (on_bytes cont (on_handler c (mc_bin m) m)))
           | None => None
           end)
  end.

(** The handler until the client has logged in. *)
Definition try_read_auth (e : senv) (l : login) (m : machine T) : outcome (option (bool * machine T)) :=
  '(handled, l, rest, w) ← try_read_command_asciiauth users e l (rb_bytes (mc_rbuf m)) (mc_world m);
  Ret (Some (handled, on_world w (on_bytes rest (on_login (if l_authenticated l then None else Some l) m)))).

Definition try_read_binary (e : senv) (m : machine T) : outcome (option (bool * machine T)) :=
  r ← try_read_command_binary hash (mc_control m) use_sasl lib e (mc_bin m) (rb_bytes (mc_rbuf m)) (mc_world m);
  Ret (match r with
       | BinMore => Some (false, m)
       | BinClosing w => Some (true, on_world w m)
       | BinHandled c b rest w => Some (true, on_world w (on_bytes rest (on_handler c b m)))
       | BinUnmodelled => None
       end).

(** The first byte of a new connection tells its protocol. *)
Definition try_read_command_negotiate (e : senv) (m : machine T) : outcome (option (bool * machine T)) :=
  _ ← c_assert (0 <? length (rb_bytes (mc_rbuf m)))%nat;
  if char_at (rb_bytes (mc_rbuf m)) 0 =? PROTOCOL_BINARY_REQ then try_read_binary e (on_protocol binary_prot m)
  else try_read_ascii e (on_protocol ascii_prot m).

Definition try_read_command (e : senv) (m : machine T) : outcome (option (bool * machine T)) :=
  match mc_protocol m with
  | ascii_prot => match mc_login m with Some l => try_read_auth e l m | None => try_read_ascii e m end
  | binary_prot => try_read_binary e m
  | negotiating_prot => try_read_command_negotiate e m
  end.

(** ** The network *)

Inductive try_read_result := READ_DATA_RECEIVED | READ_NO_DATA_RECEIVED | READ_ERROR | READ_MEMORY_ERROR.

(** The loop of [try_read_network].  A buffer from [malloc] that is full is doubled, four times at
    most; then there are at most six turns. *)
Fixpoint read_loop (fuel : nat) (num_allocs : nat) (gotdata : try_read_result) (rb : rbuffer) (o : io) : outcome (try_read_result * rbuffer * io) :=
  match fuel with
  | O => Ub
  | S fuel =>
      let full := (rb_size rb <=? length (rb_bytes rb))%nat && rb_malloced rb in
      if full && (num_allocs =? 4)%nat then Ret (gotdata, rb, o) else
      let '(ok, o) := if full then net_alloc o else (true, o) in
      if negb ok then Ret (READ_MEMORY_ERROR, mkRbuffer [] (rb_size rb) (rb_malloced rb), o) else
      let rb := if full then mkRbuffer (rb_bytes rb) (rb_size rb * 2) (rb_malloced rb) else rb in
      let num_allocs := if full then S num_allocs else num_allocs in
      let avail := (rb_size rb - length (rb_bytes rb))%nat in
      match net_read avail o with
      | (Got bytes, o) =>
          let rb := mkRbuffer (rb_bytes rb ++ bytes) (rb_size rb) (rb_malloced rb) in
          if (length bytes =? avail)%nat && rb_malloced rb then read_loop fuel num_allocs READ_DATA_RECEIVED rb o
          else Ret (READ_DATA_RECEIVED, rb, o)
      | (Again, o) => Ret (gotdata, rb, o)
      | (Eof, o) | (Failed, o) => Ret (READ_ERROR, rb, o)
      end
  end.

(** The message about the memory is written to [c->resp]. *)
Definition try_read_network (m : machine T) : outcome (try_read_result * machine T) :=
  '(r, rb, o) ← read_loop 6 0 READ_NO_DATA_RECEIVED (mc_rbuf m) (mc_io m);
  let m := on_io o (on_rbuf rb m) in
  match r with
  | READ_MEMORY_ERROR =>
      w ← out_of_memory_on (text "SERVER_ERROR out of memory reading request") m;
      Ret (r, on_handler (mc_control m) (set_close (mc_bin m)) (on_world w m))
  | _ => Ret (r, m)
  end.

(** ** The states *)

Definition has_resps (m : machine T) : bool := negb (length (c_resps (w_conn (mc_world m))) =? 0)%nat.

(** [reset_cmd_handler]. *)
Definition reset_cmd_handler (m : machine T) : outcome (machine T) :=
  w ← drop_item (c_item (w_conn (mc_world m))) (mc_world m);
  let m := on_handler (mc_control m) (set_substate bin_no_state (mc_bin m)) (on_world (upd_conn (with_item None) w) m) in
  Ret (in_state (if (0 <? length (rb_bytes (mc_rbuf m)))%nat then conn_parse_cmd else if has_resps m then conn_mwrite else conn_waiting) m).

Definition drive_waiting (m : machine T) : turn :=
  let m := on_rbuf (rbuf_release (mc_rbuf m)) m in
  let '(ok, o) := update_event false (mc_io m) in
  if ok then Stop (in_state conn_read (on_io o m)) else Go (in_state conn_closing (on_io o m)).

Definition drive_read (m : machine T) : outcome turn :=
  let '(ok, rb, o) := rbuf_alloc (mc_rbuf m) (mc_io m) in
  let m := on_rbuf rb (on_io o m) in
  if negb ok then Ret (Go (in_state conn_closing m)) else
  '(r, m) ← try_read_network m;
  Ret (Go (match r with
           | READ_NO_DATA_RECEIVED => in_state conn_waiting m
           | READ_DATA_RECEIVED => in_state conn_parse_cmd m
           | READ_ERROR => in_state conn_closing m
           | READ_MEMORY_ERROR => m
           end)).

(** A handler that is going to read a value has it start at the beginning of the item. *)
Definition drive_parse_cmd (e : senv) (m : machine T) : outcome turn :=
  r ← try_read_command e (on_world (upd_conn (with_noreply false) (mc_world m)) m);
  Ret (match r with
       | None => Unmodelled
       | Some (true, m) => Go (on_ritem 0 m)
       | Some (false, m) => Go (in_state (if has_resps m then conn_mwrite else conn_waiting) m)
       end).

Definition drive_new_cmd (m : machine T) : outcome turn :=
  let m := on_nreqs (mc_nreqs m - 1) m in
  if 0 <=? mc_nreqs m then m ← reset_cmd_handler m; Ret (Go m)
  else if has_resps m then Ret (Go (in_state conn_mwrite m))
  else if (0 <? length (rb_bytes (mc_rbuf m)))%nat then Ret (wait_for true m)
  else Ret (Stop m).

(** [read_into_chunked_item]: the result of the last read, how many bytes are to come, and the buffer. *)
Inductive chunk_result := ChunkGot | ChunkEof | ChunkAgain | ChunkError | ChunkNoMemory.

Fixpoint read_chunks (fuel : nat) (cfg : settings) (e : senv) (spare : Z) (p : positive) (rlbytes : Z) (rbuf : list Z) (o : io) (s : store T)
    : outcome (chunk_result * Z * list Z * io * store T) :=
  match fuel with
  | O => Ub
  | S fuel =>
      if negb (0 <? rlbytes) then Ret (ChunkGot, rlbytes, rbuf, o, s) else
      ch ← get_item p s;
      let unused := chunk_room ch in
      let take_in n bytes rbuf o := s ← upd_item p (fun i => set_data (it_data i ++ bytes) i) s; read_chunks fuel cfg e spare p (rlbytes - n) rbuf o s in
      if unused =? 0 then
        '(ok, s) ← do_item_alloc_chunk hash cfg (trylock (item_env e)) p (rlbytes + spare) s;
        if negb ok then Ret (ChunkNoMemory, rlbytes, rbuf, o, s) else read_chunks fuel cfg e spare p rlbytes rbuf o s
      else if (0 <? length rbuf)%nat then
        let tocopy := Z.to_nat (Z.min (Z.min (Z.of_nat (length rbuf)) rlbytes) unused) in
        take_in (Z.of_nat tocopy) (take tocopy rbuf) (drop tocopy rbuf) o
      else
        match net_read (Z.to_nat (Z.min unused rlbytes)) o with
        | (Got bytes, o) => take_in (Z.of_nat (length bytes)) bytes rbuf o
        | (Eof, o) => Ret (ChunkEof, rlbytes, rbuf, o, s)
        | (Again, o) => Ret (ChunkAgain, rlbytes, rbuf, o, s)
        | (Failed, o) => Ret (ChunkError, rlbytes, rbuf, o, s)
        end
  end.

Definition net_read_into_chunked_item (e : senv) (m : machine T) (p : positive) : outcome (chunk_result * machine T) :=
  let w := mc_world m in
  let n := c_rlbytes (w_conn w) in
  let cfg := base_settings (ct_srv (mc_control m)) in
  let bin := match mc_protocol m with binary_prot => true | _ => false end in
  '(r, n, rbuf, o, s) ← read_chunks (1 + 2 * Z.to_nat n) cfg e (if bin then 2 else 0) p n (rb_bytes (mc_rbuf m)) (mc_io m) (w_store w);
  '(r, s) ← (match r return outcome (chunk_result * store T) with
             | ChunkGot =>
                 if negb bin then Ret (r, s) else
                 ch ← get_item p s;
                 if 2 <=? chunk_room ch then Ret (r, s) else
                 s ← upd_item p close_last_chunk s;
                 '(ok, s) ← do_item_alloc_chunk hash cfg (trylock (item_env e)) p 2 s;
                 Ret (if (ok : bool) then r else ChunkNoMemory, s)
             | _ => Ret (r, s)
             end);
  Ret (r, on_io o (on_bytes rbuf (on_world (upd_conn (fun c => with_nread (c_cmd c) n c) (with_store s w)) m))).

(** [complete_nread]. *)
Definition complete_nread (e : senv) (m : machine T) : outcome turn :=
  match mc_protocol m with
  | ascii_prot => w ← complete_nread_ascii hash (ct_srv (mc_control m)) e (mc_world m); Ret (Go (on_world w m))
  | binary_prot =>
      '(b, w) ← complete_nread_binary hash (mc_control m) use_sasl lib e (mc_bin m) (mc_world m);
      Ret (Go (on_world w (on_handler (mc_control m) b m)))
  | negotiating_prot => Abort
  end.

(** [n] bytes go to the place of the value where [c->ritem] points. *)
Definition copy_in (p : positive) (bytes : list Z) (m : machine T) : outcome (machine T) :=
  let n := length bytes in
  s ← write_data p (mc_ritem m) bytes (Z.of_nat n) (w_store (mc_world m));
  let w := upd_conn (fun c => with_nread (c_cmd c) (c_rlbytes c - Z.of_nat n) c) (with_store s (mc_world m)) in
  Ret (on_ritem (mc_ritem m + n) (on_world w m)).

(** What a read that has brought nothing leads to, while a value is read or swallowed. *)
Definition read_ended (r : read_result) (m : machine T) : turn :=
  match r with
  | Again => wait_for false m
  | _ => Go (in_state conn_closing m)
  end.

Definition drive_nread (e : senv) (m : machine T) : outcome turn :=
  let rlbytes := c_rlbytes (w_conn (mc_world m)) in
  if rlbytes =? 0 then complete_nread e m else
  if rlbytes <? 0 then Ret (Go (in_state conn_closing m)) else
  p ← deref (c_item (w_conn (mc_world m)));
  it ← get_item p (w_store (mc_world m));
  if negb (has_flag ITEM_CHUNKED it) then
    let tocopy := Nat.min (length (rb_bytes (mc_rbuf m))) (Z.to_nat rlbytes) in
    let left := rb_bytes (mc_rbuf m) in
    m ← (if (0 <? length left)%nat then m ← copy_in p (take tocopy left) m; Ret (on_bytes (drop tocopy left) m) else Ret m);
    let rlbytes := c_rlbytes (w_conn (mc_world m)) in
    if rlbytes =? 0 then Ret (Go m) else
    match net_read (Z.to_nat rlbytes) (mc_io m) with
    | (Got bytes, o) => m ← copy_in p bytes (on_io o m); Ret (Go m)
    | (r, o) => Ret (read_ended r (on_io o m))
    end
  else
    '(r, m) ← net_read_into_chunked_item e m p;
    match r with
    | ChunkGot => Ret (Go m)
    | ChunkEof => Ret (read_ended Eof m)
    | ChunkAgain => Ret (read_ended Again m)
    | ChunkError => Ret (read_ended Failed m)
    | ChunkNoMemory =>
        w ← out_of_memory_on (text "SERVER_ERROR Out of memory during read") m;
        let w := upd_conn (with_sbytes (c_rlbytes (w_conn (mc_world m)))) w in
        Ret (Go (on_world (upd_conn (with_mset false false) (conn_set_state conn_swallow w)) m))
    end.

(** Bytes that nobody wants, first from the buffer, then from the socket. *)
Definition drive_swallow (m : machine T) : turn :=
  let sbytes := c_sbytes (w_conn (mc_world m)) in
  if sbytes <=? 0 then Go (in_state conn_new_cmd m) else
  let less n := on_world (upd_conn (with_sbytes (sbytes - Z.of_nat n)) (mc_world m)) in
  let left := rb_bytes (mc_rbuf m) in
  if (0 <? length left)%nat then
    let tocopy := Nat.min (length left) (Z.to_nat sbytes) in
    Go (less tocopy (on_bytes (drop tocopy left) m))
  else
    match net_read (Nat.min (rb_size (mc_rbuf m)) (Z.to_nat sbytes)) (mc_io m) with
    | (Got bytes, o) => Go (less (length bytes) (on_io o m))
    | (r, o) => read_ended r (on_io o m)
    end.

(** ** Sending *)

(** [resp_finish] of the responses that are sent. *)
Fixpoint finish_each (l : list mc_resp) (w : world T) : outcome (world T) :=
  match l with
  | [] => Ret w
  | r :: l => w ← drop_item (resp_item r) w; finish_each l w
  end.

(** [_transmit_post] after [res] bytes have gone out: the responses that are finished, those that are
    left, and how much of the first of them has been sent now; with each response, the bytes it still
    had to send. *)
Fixpoint sent_resps (l : list (mc_resp * nat)) (res : nat) : list mc_resp * list mc_resp * nat :=
  match l with
  | [] => ([], [], 0%nat)
  | (r, n) :: l =>
      if resp_skip r then let '(f, k, o) := sent_resps l res in (r :: f, k, o)
      else if (n <=? res)%nat then let '(f, k, o) := sent_resps l (res - n) in (r :: f, k, o)
      else ([], r :: l.*1, res)
  end.

(** The bytes each response still has to send; of the first, some have gone out before. *)
Definition to_send (offset : nat) (parts : list (list Z)) : list nat :=
  match parts with
  | [] => []
  | b :: parts => (length b - offset)%nat :: map length parts
  end.

Inductive transmit_result := TRANSMIT_COMPLETE | TRANSMIT_INCOMPLETE | TRANSMIT_SOFT_ERROR | TRANSMIT_HARD_ERROR.

(** [transmit], where the vectors of a response are its bytes (Transmit has them one by one, with the
    limit on their number, which only makes [sendmsg] take less). *)
Definition transmit_resps (m : machine T) : outcome (transmit_result * machine T) :=
  let w := mc_world m in
  let resps := c_resps (w_conn w) in
  let finish bytes n m :=
    parts ← mapM (resp_bytes (w_store w)) resps;
    let '(finished, kept, o) := sent_resps (zip resps (to_send (mc_offset m) parts)) n in
    w ← finish_each finished w;
    let w := upd_conn (with_resps kept) w in
    let offset := if (length finished =? 0)%nat then (mc_offset m + o)%nat else o in
    Ret (if (length kept =? 0)%nat then TRANSMIT_COMPLETE else TRANSMIT_INCOMPLETE, on_sent bytes offset (on_world w m)) in
  parts ← mapM (resp_bytes (w_store w)) resps;
  if forallb (fun r => resp_skip r || (length (resp_iov r) =? 0)%nat) resps then finish [] 0%nat m else
  let msg := drop (mc_offset m) (concat parts) in
  let blocks o :=
    let '(ok, o) := update_event true o in
    Ret (if ok then (TRANSMIT_SOFT_ERROR, on_io o m) else (TRANSMIT_HARD_ERROR, in_state conn_closing (on_io o m))) in
  match io_sends (mc_io m) with
  | [] => blocks (mc_io m)
  | SdTook n :: rest => finish (take n msg) (Nat.min n (length msg)) (on_io (with_sends rest (mc_io m)) m)
  | SdAgain :: rest => blocks (with_sends rest (mc_io m))
  | SdError :: rest => Ret (TRANSMIT_HARD_ERROR, in_state conn_closing (on_io (with_sends rest (mc_io m)) m))
  end.

Definition drive_mwrite (m : machine T) : outcome turn :=
  '(r, m) ← transmit_resps m;
  match r with
  | TRANSMIT_COMPLETE =>
      w ← conn_release_items (mc_world m);
      let close := ct_close_after_write (mc_control m) || b_close_after_write (mc_bin m) in
      Ret (Go (in_state (if close then conn_closing else conn_new_cmd) (on_world w m)))
  | TRANSMIT_INCOMPLETE | TRANSMIT_HARD_ERROR => Ret (Go m)
  | TRANSMIT_SOFT_ERROR => Ret (Stop m)
  end.

(** [conn_close]. *)
Definition conn_close (m : machine T) : outcome (machine T) :=
  w ← conn_release_items (mc_world m);
  Ret (on_closed (on_world w m)).

Definition drive_step (e : senv) (m : machine T) : outcome turn :=
  match c_state (w_conn (mc_world m)) with
  | conn_waiting => Ret (drive_waiting m)
  | conn_read => drive_read m
  | conn_parse_cmd => drive_parse_cmd e m
  | conn_new_cmd => drive_new_cmd m
  | conn_nread => drive_nread e m
  | conn_swallow => Ret (drive_swallow m)
  | conn_mwrite => drive_mwrite m
  | conn_closing => m ← conn_close m; Ret (Stop m)
  end.

(** The loop; [OutOfFuel] is no behaviour of the code. *)
Inductive driven := Waits (m : machine T) | NotModelled | OutOfFuel.

Fixpoint drive_loop (fuel : nat) (e : senv) (m : machine T) : outcome driven :=
  match fuel with
  | O => Ret OutOfFuel
  | S fuel =>
      t ← drive_step e m;
      match t with
      | Go m => drive_loop fuel e m
      | Stop m => Ret (Waits m)
      | Unmodelled => Ret NotModelled
      end
  end.

(** Every turn uses up bytes or answers from outside, or leads to a later state of the request. *)
Definition state_rank (m : machine T) : nat :=
  match c_state (w_conn (mc_world m)) with
  | conn_nread => 10
  | conn_swallow => 9
  | conn_new_cmd => if has_resps m then 8 else 5
  | conn_parse_cmd => if has_resps m then 7 else 4
  | conn_mwrite => 6
  | conn_read => 3
  | conn_waiting => 2
  | conn_closing => 1
  end.

Definition reply_size (r : read_reply) : nat := match r with RdBytes _ l => S (length l) | _ => 0 end.
Definition reads_size (l : list read_reply) : nat := foldr (fun r n => reply_size r + n)%nat 0%nat l.
Definition drive_bytes (m : machine T) : nat :=
  (length (rb_bytes (mc_rbuf m)) + 2 * reads_size (io_reads (mc_io m)) + length (io_sends (mc_io m)))%nat.
Definition drive_measure (m : machine T) : nat := (16 * drive_bytes m + state_rank m)%nat.

(** [drive_machine] on an event; the default of [reqs_per_event] is 20. *)
Definition drive_machine (reqs_per_event : Z) (e : senv) (m : machine T) : outcome driven :=
  drive_loop (S (drive_measure m)) e (on_nreqs reqs_per_event m).

End Drive.
