(* ===== verification/DriveTheorems.v ===== *)
(** * The state machine of a connection: how values arrive, and that an event comes to an end

    Every turn of [drive_machine] uses up bytes of the client or answers from outside, or leads to a
    later state of the same request, so that the fuel of the loop is enough.  A value is received
    however it is cut into pieces, which is what makes it right to hand a handler the whole value, as
    [nread_value] and [bin_nread_value] do; a connection that breaks gives back its references.  Sessions
    run through the machine from the bytes of the client to the bytes of the answers. *)

From S2P Require Import AssocFacts.
From S2P Require Import Prelude Items LruFacts ItemsFacts ItemAlloc ItemAllocFacts Util Itoa Store StoreFacts.
From S2P Require Import MtCrypto MtCryptoFacts MtArrayList MerkleTree Aes128 Cmac Conn ProtoText ProtoMeta ProtoAdmin ProtoBin Authfile ProtoAuth Drive.
From S2P Require Import MerkleTheorems ServerTheorems Assoc ItemTableAssoc Samples.
From Stdlib Require Ascii String.
Import String.StringSyntax.

Local Open Scope string_scope.
Local Open Scope Z_scope.

Local Opaque AES_CMAC.

Ltac yields_bind_any := eapply yields_bind; [apply yields_any|]; intros ? _.
Ltac yields_case :=
  match goal with
  | |- yields (Ret _) _ => apply yields_ret
  | |- yields Ub _ => apply yields_ub
  | |- yields Abort _ => apply yields_abort
  | |- yields (if ?c then _ else _) _ => destruct c
  | |- yields (match ?x with _ => _ end) _ => destruct x
  end.

Section States.
Context {T : Type} {table_ops : ItemTable T} {slabs : SlabAllocator} {node_hash : NodeHash}.
Context (hash : list Z -> Z) (use_sasl : bool) (lib : sasl_lib).
Implicit Types (w : world T) (m : machine T).

(** The connection has gone on from reading a value. *)
Definition not_reading w : Prop := c_state (w_conn w) <> conn_nread.
Definition same_state w w' : Prop := c_state (w_conn w') = c_state (w_conn w).

Lemma upd_resp_state f w : yields (upd_resp f w) (same_state w).
Proof. unfold upd_resp. yields_bind_any. by apply yields_ret. Qed.

Lemma resp_add_iov_state v w : yields (resp_add_iov v w) (same_state w).
Proof. unfold resp_add_iov. do 2 yields_bind_any. apply upd_resp_state. Qed.

Lemma on_store_state f w : yields (on_store f w) (same_state w).
Proof. unfold on_store. yields_bind_any. by apply yields_ret. Qed.

Lemma out_string_state str w : yields (out_string str w) not_reading.
Proof.
  unfold out_string. yields_bind_any. yields_case; yields_bind_any; by apply yields_ret.
Qed.

Lemma finalize_mset_state srv ret w : yields (finalize_mset srv ret w) not_reading.
Proof.
  unfold finalize_mset. do 3 yields_bind_any. yields_case; [|apply out_string_state].
  eapply yields_bind with (Q := not_reading).
  - yields_case; [|by apply yields_ret]. intros w' H. apply upd_resp_state in H. unfold not_reading. by rewrite H.
  - intros w' Hw'. yields_bind_any. yields_case; [apply yields_ub|]. intros w'' H. apply resp_add_iov_state in H. unfold not_reading. by rewrite H.
Qed.

Lemma complete_nread_ascii_state srv e w : yields (complete_nread_ascii hash srv e w) not_reading.
Proof.
  unfold complete_nread_ascii. do 3 yields_bind_any. eapply yields_bind with (Q := not_reading).
  - yields_case; [apply out_string_state|]. yields_bind_any. do 2 yields_case. yields_bind_any. yields_case; [apply finalize_mset_state|].
    unfold reply_stored. yields_case; apply out_string_state.
  - intros w1 H1. eapply yields_bind; [apply on_store_state|]. intros w2 H2. apply yields_ret. unfold not_reading. simpl. by rewrite H2.
Qed.

Lemma write_bin_error_state b err str swallow w : yields (write_bin_error b err str swallow w) not_reading.
Proof. unfold write_bin_error. do 3 yields_bind_any. yields_case; by apply yields_ret. Qed.

Lemma write_bin_response_state b cmd d hlen keylen w : yields (write_bin_response b cmd d hlen keylen w) not_reading.
Proof. unfold write_bin_response. yields_bind_any. by apply yields_ret. Qed.

Lemma complete_update_bin_state ctl e b w : yields (complete_update_bin hash ctl e b w) not_reading.
Proof.
  unfold complete_update_bin. do 3 yields_bind_any. do 2 yields_case. eapply yields_bind with (Q := not_reading).
  - yields_case; (apply write_bin_response_state || apply write_bin_error_state).
  - intros w1 H1. eapply yields_bind; [apply on_store_state|]. intros w2 H2. apply yields_ret. unfold not_reading. simpl. by rewrite H2.
Qed.

Lemma complete_sasl_state b w : yields (process_bin_complete_sasl_auth use_sasl lib b w) (fun r => not_reading r.2).
Proof.
  unfold process_bin_complete_sasl_auth.
  assert (forall b' v, yields (w ← write_bin_error b' RESPONSE_EINVAL None v w; Ret (b', conn_set_state conn_swallow w)) (fun r => not_reading r.2)) as Hinv
    by (intros b' v; yields_bind_any; by apply yields_ret).
  do 3 yields_bind_any. yields_case; [apply Hinv|]. yields_bind_any. yields_case; [apply Hinv|]. do 2 yields_bind_any. do 3 yields_case.
  - eapply yields_bind; [apply write_bin_response_state|]. intros. by apply yields_ret.
  - do 2 yields_bind_any. by apply yields_ret.
  - eapply yields_bind; [apply write_bin_error_state|]. intros. by apply yields_ret.
Qed.

Lemma complete_nread_binary_state ctl e b w : yields (complete_nread_binary hash ctl use_sasl lib e b w) (fun r => not_reading r.2).
Proof.
  unfold complete_nread_binary. yields_case; [apply yields_abort| |].
  - eapply yields_bind; [apply complete_update_bin_state|]. intros. by apply yields_ret.
  - eapply yields_bind; [apply complete_sasl_state|]. intros [b' w'] H. yields_case; [|by apply yields_ret].
    eapply yields_bind; [apply on_store_state|]. intros w2 H2. apply yields_ret. unfold not_reading. simpl. by rewrite H2.
Qed.
End States.

(** ** Answers from outside *)

Lemma net_read_size n o r o' : net_read n o = (r, o') -> io_sends o' = io_sends o /\
  match r with
  | Got bytes => (0 < length bytes <= n)%nat /\ (reads_size (io_reads o') + length bytes = reads_size (io_reads o))%nat
  | _ => (reads_size (io_reads o') <= reads_size (io_reads o))%nat
  end.
Proof.
  unfold net_read. destruct (Nat.eqb_spec n 0) as [->|Hn]; [by intros [= <- <-]|].
  destruct (io_reads o) as [|[b l| | |] rest] eqn:E; intros [= <- <-]; cbn [with_reads io_reads io_sends reads_size foldr]; rewrite ?E; try by split.
  split; [done|]. rewrite length_take. cbn [length reply_size]. split; [lia|].
  pose proof (length_drop (b :: l) n) as Hd. cbn [length] in Hd. destruct (drop n (b :: l)) as [|b' l'] eqn:Ed; cbn [length foldr reply_size] in *; fold (reads_size rest); lia.
Qed.

Lemma net_alloc_size o b o' : net_alloc o = (b, o') -> io_sends o' = io_sends o /\ io_reads o' = io_reads o.
Proof. unfold net_alloc. destruct (io_allocs o); by intros [= <- <-]. Qed.

Lemma update_event_size write o b o' : update_event write o = (b, o') -> io_sends o' = io_sends o /\ io_reads o' = io_reads o.
Proof. unfold update_event. destruct (Bool.eqb _ _); [by intros [= <- <-]|]. destruct (io_events o) as [|[] ?]; by intros [= <- <-]. Qed.

(** The bytes in the buffer, and twice those that are still to be read. *)
Definition unread (bytes : list Z) (o : io) : nat := (length bytes + 2 * reads_size (io_reads o))%nat.

Lemma read_loop_size fuel : forall k got rb o, yields (read_loop fuel k got rb o) (fun '(r, rb', o') =>
  io_sends o' = io_sends o /\ (unread (rb_bytes rb') o' <= unread (rb_bytes rb) o)%nat /\
  (r = READ_DATA_RECEIVED -> got = READ_DATA_RECEIVED \/ (unread (rb_bytes rb') o' < unread (rb_bytes rb) o)%nat) /\
  (r = READ_MEMORY_ERROR -> (0 < rb_size rb)%nat -> got = READ_MEMORY_ERROR \/ (unread (rb_bytes rb') o' < unread (rb_bytes rb) o)%nat)).
Proof.
  unfold unread. induction fuel as [|fuel IH]; intros k got rb o; cbn [read_loop]; [apply yields_ub|].
  set (full := (rb_size rb <=? length (rb_bytes rb))%nat && rb_malloced rb). destruct (full && _); [apply yields_ret; auto|].
  destruct (if full then net_alloc o else (true, o)) as [ok o1] eqn:Ea.
  assert (io_sends o1 = io_sends o /\ io_reads o1 = io_reads o) as [S1 R1] by (destruct full; [by eapply net_alloc_size|by injection Ea as <- <-]).
  destruct ok; cbn [negb].
  2:{ apply yields_ret. cbn [rb_bytes length]. rewrite S1, R1. split; [done|]. split; [lia|]. split; [done|]. intros _ Hs. right.
      destruct full eqn:Ef; [|done]. apply andb_prop in Ef as [Ef%Nat.leb_le _]. lia. }
  set (rb1 := if full then mkRbuffer (rb_bytes rb) (rb_size rb * 2) (rb_malloced rb) else rb).
  assert (rb_bytes rb1 = rb_bytes rb) as Hb1 by (unfold rb1; by destruct full). rewrite Hb1.
  destruct (net_read (rb_size rb1 - length (rb_bytes rb)) o1) as [r o2] eqn:En. destruct (net_read_size _ _ _ _ En) as [S2 R2]. rewrite R1 in R2.
  destruct r as [bytes| | |]; try (apply yields_ret; cbn beta iota; rewrite S2, S1, Hb1; split; [done|]; split; [lia|]; split; intros He; first [discriminate He|by left|intros _; by left]).
  yields_case.
  - intros [[r rb'] o'] H. apply IH in H as (H1 & H2 & _). cbn [rb_bytes] in H2. rewrite length_app in H2. split; [congruence|]. split; [lia|]. split; intros; right; lia.
  - apply yields_ret. cbn [rb_bytes]. rewrite length_app, S2, S1. split; [done|]. split; [lia|]. split; [intros; right; lia|done].
Qed.

(** ** Turns *)

Section Turns.
Context {T : Type} {table_ops : ItemTable T} {slabs : SlabAllocator} {node_hash : NodeHash}.
Context (hash : list Z -> Z) (use_sasl : bool) (lib : sasl_lib) (users : auth_state).
Implicit Types (w : world T) (m : machine T).

Lemma split_line_shorter line buf l cont : split_line line buf = Some (l, cont) -> (length l + S (length cont) = length line + length buf)%nat.
Proof.
  revert line. induction buf as [|c buf IH]; intros line H; [done|]. simpl in *. destruct (c =? 10); [injection H as <- <-; lia|].
  specialize (IH _ H). rewrite length_app in IH. simpl in IH. lia.
Qed.

(** What a handler does to the buffers. *)
Definition same_io m m' : Prop := io_sends (mc_io m') = io_sends (mc_io m) /\ io_reads (mc_io m') = io_reads (mc_io m).
Definition read_outcome m (r : option (bool * machine T)) : Prop :=
  match r with
  | Some (true, m') => same_io m m' /\
      ((length (rb_bytes (mc_rbuf m')) < length (rb_bytes (mc_rbuf m)))%nat \/
       (length (rb_bytes (mc_rbuf m')) <= length (rb_bytes (mc_rbuf m)))%nat /\ c_state (w_conn (mc_world m')) = conn_closing)
  | Some (false, m') => same_io m m' /\ (length (rb_bytes (mc_rbuf m')) <= length (rb_bytes (mc_rbuf m)))%nat /\ has_resps m' = has_resps m
  | None => True
  end.

Lemma try_read_ascii_ok e m : yields (try_read_ascii hash e m) (read_outcome m).
Proof.
  unfold try_read_ascii. destruct (find_line (rb_bytes (mc_rbuf m))) as [| |line cont] eqn:E.
  - destruct (_ && _); [|by apply yields_ret]. unfold rbuf_switch_to_malloc. destruct (net_alloc (mc_io m)) as [ok o] eqn:Ea.
    destruct (net_alloc_size _ _ _ Ea) as [E1 E2]. destruct ok; apply yields_ret; [done|]. split; [done|by right].
  - apply yields_ret. split; [done|by right].
  - eapply yields_bind; [apply yields_any|]. intros [[c w]|] _; apply yields_ret; [|done]. split; [done|]. left. cbn [mc_rbuf on_world on_bytes on_rbuf rb_bytes].
    unfold find_line in E. destruct (_ =? _)%nat; [done|]. destruct (split_line [] _) as [[l' c']|] eqn:Es; [|by destruct (_ && _)].
    injection E as _ ->. apply split_line_shorter in Es. cbn [length] in Es. lia.
Qed.

Lemma login_value_bytes e before rbuf l w : yields (login_value users e before rbuf l w) (fun '(handled, _, rest, w') =>
  if handled : bool then (length rest + 2 <= length before + length rbuf)%nat \/ (rest = rbuf /\ c_state (w_conn w') = conn_closing)
  else rest = rbuf /\ c_resps (w_conn w') = c_resps (w_conn w)).
Proof.
  unfold login_value. destruct (Z.ltb_spec (Z.of_nat (length rbuf)) (c_rlbytes (w_conn w))); [by apply yields_ret|]. destruct (have_resp e w) as [[] w1]; cbn [negb]; [|apply yields_ret; by right].
  destruct (Z.ltb_spec (Z.of_nat (length before) + c_rlbytes (w_conn w)) 0); [apply yields_ub|].
  assert (forall (x : outcome (world T)) (l' : login), 2 <= Z.of_nat (length before) + c_rlbytes (w_conn w) ->
    yields (w2 ← x; Ret (true, l', drop (Z.to_nat (Z.of_nat (length before) + c_rlbytes (w_conn w))) (before ++ rbuf), w2)) (fun '(handled, _, rest, w') =>
      if handled : bool then (length rest + 2 <= length before + length rbuf)%nat \/ (rest = rbuf /\ c_state (w_conn w') = conn_closing)
      else rest = rbuf /\ c_resps (w_conn w') = c_resps (w_conn w))) as Hend.
  { intros x l' H2. eapply yields_bind; [apply yields_any|]. intros w' _. apply yields_ret. left. rewrite length_drop, length_app. lia. }
  eapply yields_bind with (Q := fun _ => 2 <= Z.of_nat (length before) + c_rlbytes (w_conn w)).
  { unfold ends_line. destruct (Z.ltb_spec (Z.of_nat (length before) + c_rlbytes (w_conn w) - 2) 0); [apply yields_ub|]. intros ? _. lia. }
  intros fine H2. destruct fine; cbn [negb]; [|by apply Hend]. destruct (_ <? 2); [apply yields_ub|]. destruct (_ <? 3)%nat; [by apply Hend|].
  do 5 yields_bind_any. yields_case; by apply Hend.
Qed.

Lemma try_read_auth_ok e l m : yields (try_read_auth users e l m) (read_outcome m).
Proof.
  unfold try_read_auth. eapply yields_bind with (Q := fun '((handled, _, rest, w') : bool * login * list Z * world T) =>
    if handled : bool then (length rest < length (rb_bytes (mc_rbuf m)))%nat \/ ((length rest <= length (rb_bytes (mc_rbuf m)))%nat /\ c_state (w_conn w') = conn_closing)
    else (length rest <= length (rb_bytes (mc_rbuf m)))%nat /\ c_resps (w_conn w') = c_resps (w_conn (mc_world m))).
  - set (rbuf := rb_bytes (mc_rbuf m)). set (w := mc_world m). unfold try_read_command_asciiauth. destruct (l_started l).
    { intros [[[h l'] rest] w'] H. apply login_value_bytes in H. cbn [length] in H. destruct h; [destruct H as [H|[-> H]]; [left; lia|right; split; [lia|done]]|]. by destruct H as [-> ->]. }
    destruct (_ <? 2)%nat; [by apply yields_ret|]. destruct (split_line [] rbuf) as [[line cont]|] eqn:Es.
    + apply split_line_shorter in Es. cbn [length] in Es. yields_bind_any. yields_case.
      * intros [[[h l'] rest] w'] H. apply login_value_bytes in H. rewrite length_app in H. cbn [length] in H.
        destruct h; [destruct H as [H|[-> H]]; left; lia|]. destruct H as [-> ->]. split; [lia|done].
      * eapply yields_bind; [apply yields_any|]. intros w' _. apply yields_ret. left. lia.
    + destruct (_ <? _)%nat; apply yields_ret; [by right|done].
  - intros [[[h l'] rest] w'] H. apply yields_ret. destruct h; cbn [read_outcome]; (split; [done|]).
    + exact H.
    + destruct H as [H1 H2]. split; [exact H1|]. unfold has_resps. cbn [mc_world on_world]. by rewrite H2.
Qed.

Lemma try_read_binary_ok e m : yields (try_read_binary hash use_sasl lib e m) (read_outcome m).
Proof.
  unfold try_read_binary, try_read_command_binary. set (rbuf := rb_bytes (mc_rbuf m)). destruct (Nat.ltb_spec (length rbuf) 24); [by apply yields_ret|].
  destruct (negb _); [apply yields_ret; split; [done|by right]|]. destruct (_ <? _)%nat; [by apply yields_ret|].
  destruct (start_response e (mc_world m)) as [started w1]. destruct (negb started); [apply yields_ret; split; [done|by right]|].
  eapply yields_bind with (Q := fun r => match r with
    | BinMore => False | BinClosing _ => False | BinHandled _ _ rest _ => (length rest < length rbuf)%nat | BinUnmodelled => True end).
  - eapply yields_bind; [apply yields_any|]. intros r _. apply yields_ret. destruct r as [[[ctl' b'] w']|]; [|done]. rewrite length_drop. lia.
  - intros r Hr. apply yields_ret. destruct r; try done. split; [done|]. by left.
Qed.

Lemma try_read_ok e m : yields (try_read_command hash use_sasl lib users e m) (read_outcome m).
Proof.
  unfold try_read_command. destruct (mc_protocol m); [destruct (mc_login m); [apply try_read_auth_ok|apply try_read_ascii_ok]|apply try_read_binary_ok|].
  unfold try_read_command_negotiate. yields_bind_any. destruct (_ =? _).
  - exact (try_read_binary_ok e (on_protocol binary_prot m)).
  - exact (try_read_ascii_ok e (on_protocol ascii_prot m)).
Qed.

Lemma resp_finish_all_resps l w : yields (resp_finish_all l w) (fun w' => c_resps (w_conn w') = []).
Proof. revert w. induction l as [|r l IH]; intros w; simpl; [by apply yields_ret|]. yields_bind_any. apply IH. Qed.

Lemma release_resps w : yields (conn_release_items w) (fun w' => c_resps (w_conn w') = []).
Proof. unfold conn_release_items. yields_bind_any. apply resp_finish_all_resps. Qed.

(** A turn that goes on makes the measure smaller. *)
Definition progress m (t : turn (T := T)) : Prop := match t with Go m' => (drive_measure m' < drive_measure m)%nat | _ => True end.

Lemma rank_le m : (state_rank m <= 10)%nat.
Proof. unfold state_rank. repeat case_match; lia. Qed.

Lemma fewer_bytes m m' : (drive_bytes m' < drive_bytes m)%nat -> (drive_measure m' < drive_measure m)%nat.
Proof. intros H. unfold drive_measure. pose proof (rank_le m'). lia. Qed.

Lemma later_state m m' : (drive_bytes m' <= drive_bytes m)%nat -> (state_rank m' < state_rank m)%nat -> (drive_measure m' < drive_measure m)%nat.
Proof. unfold drive_measure. lia. Qed.

(** Closing is the last state. *)
Lemma closing_later m m' : (drive_bytes m' <= drive_bytes m)%nat -> c_state (w_conn (mc_world m)) <> conn_closing -> c_state (w_conn (mc_world m')) = conn_closing ->
  (drive_measure m' < drive_measure m)%nat.
Proof. intros Hb Hs Hc. apply later_state; [done|]. unfold state_rank. rewrite Hc. repeat case_match; done || lia. Qed.

Lemma same_bytes m m' : same_io m m' -> (length (rb_bytes (mc_rbuf m')) <= length (rb_bytes (mc_rbuf m)))%nat -> (drive_bytes m' <= drive_bytes m)%nat.
Proof. intros [E1 E2] H. unfold drive_bytes. rewrite E1, E2. lia. Qed.

Lemma wait_progress write m m' : (drive_bytes m' <= drive_bytes m)%nat -> c_state (w_conn (mc_world m)) <> conn_closing -> progress m (wait_for write m').
Proof.
  intros Hb Hs. unfold wait_for. destruct (update_event write (mc_io m')) as [ok o] eqn:E. destruct ok; [done|]. cbn [progress].
  apply closing_later; [|done|done]. etrans; [|exact Hb]. apply same_bytes; [|done]. by eapply update_event_size.
Qed.

Lemma read_ended_progress r m m' : (drive_bytes m' <= drive_bytes m)%nat -> c_state (w_conn (mc_world m)) <> conn_closing -> progress m (read_ended r m').
Proof. intros Hb Hs. destruct r; [by apply closing_later|by apply closing_later|by apply wait_progress|by apply closing_later]. Qed.

Lemma read_progress m : c_state (w_conn (mc_world m)) = conn_read -> yields (drive_read m) (progress m).
Proof.
  intros Hs. unfold drive_read. destruct (rbuf_alloc (mc_rbuf m) (mc_io m)) as [[ok rb] o] eqn:Ea.
  assert (rb_bytes rb = rb_bytes (mc_rbuf m) /\ io_sends o = io_sends (mc_io m) /\ io_reads o = io_reads (mc_io m) /\ (ok = true -> 0 < rb_size rb)%nat) as (B1 & B2 & B3 & B4).
  { unfold rbuf_alloc in Ea. destruct (Nat.eqb_spec (rb_size (mc_rbuf m)) 0).
    - destruct (net_alloc (mc_io m)) as [ok' o'] eqn:En. apply net_alloc_size in En as [N1 N2]. destruct ok'; injection Ea as <- <- <-; [|done].
      split; [done|]. split; [done|]. split; [done|]. intros _. unfold READ_BUFFER_SIZE. cbn [rb_size]. lia.
    - injection Ea as <- <- <-. split; [done|]. split; [done|]. split; [done|]. intros _. lia. }
  destruct ok; cbn [negb]; [|apply yields_ret, closing_later; [apply same_bytes; [done|cbn; by rewrite B1]|by rewrite Hs|done]].
  unfold try_read_network. cbn [mc_rbuf mc_io on_rbuf on_io]. eapply yields_bind with (Q := fun '(r, m') => (drive_bytes m' <= drive_bytes m)%nat /\
    (r = READ_DATA_RECEIVED \/ r = READ_MEMORY_ERROR -> (drive_bytes m' < drive_bytes m)%nat)).
  - eapply yields_bind; [apply read_loop_size|]. intros [[r rb'] o'] (L1 & L2 & L3 & L4). unfold unread in *. rewrite B1, B3 in *.
    assert (forall x : machine T, mc_rbuf x = rb' -> mc_io x = o' -> (drive_bytes x <= drive_bytes m)%nat /\
      (r = READ_DATA_RECEIVED \/ r = READ_MEMORY_ERROR -> (drive_bytes x < drive_bytes m)%nat)) as Hx.
    { intros x Ex Eo. unfold drive_bytes. rewrite Ex, Eo, L1, B2. split; [lia|]. intros [E|E].
      - destruct (L3 E) as [[=]|]. lia.
      - destruct (L4 E (B4 eq_refl)) as [[=]|]. lia. }
    destruct r; try (apply yields_ret; by apply Hx). eapply yields_bind; [apply yields_any|]. intros w _. apply yields_ret. by apply Hx.
  - intros [r m'] [H1 H2]. apply yields_ret. destruct r; cbn [progress]; [apply fewer_bytes; auto| |by apply closing_later; [|rewrite Hs|]|apply fewer_bytes; auto].
    apply later_state; [done|]. unfold state_rank. rewrite Hs. cbn. lia.
Qed.

Lemma read_chunks_size fuel cfg e spare p : forall n rbuf o s, yields (read_chunks hash fuel cfg e spare p n rbuf o s) (fun '(r, _, rbuf', o', _) =>
  io_sends o' = io_sends o /\ (unread rbuf' o' <= unread rbuf o)%nat /\ (r = ChunkGot -> 0 < n -> (unread rbuf' o' < unread rbuf o)%nat)).
Proof.
  unfold unread. induction fuel as [|fuel IH]; intros n rbuf o s; cbn [read_chunks]; [apply yields_ub|].
  destruct (Z.ltb_spec 0 n); cbn [negb]; [|apply yields_ret; split; [done|]; split; [done|lia]]. yields_bind_any.
  assert (forall (k : Z) bytes rbuf1 o1, io_sends o1 = io_sends o -> (k = 0 -> rbuf1 = rbuf /\ o1 = o) ->
    (k <> 0 -> (length rbuf1 + 2 * reads_size (io_reads o1) < length rbuf + 2 * reads_size (io_reads o))%nat) ->
    yields (s ← upd_item p (fun i => set_data (it_data i ++ bytes) i) s; read_chunks hash fuel cfg e spare p (n - k) rbuf1 o1 s) (fun '(r, _, rbuf', o', _) =>
      io_sends o' = io_sends o /\ (length rbuf' + 2 * reads_size (io_reads o') <= length rbuf + 2 * reads_size (io_reads o))%nat /\
      (r = ChunkGot -> 0 < n -> (length rbuf' + 2 * reads_size (io_reads o') < length rbuf + 2 * reads_size (io_reads o))%nat))) as Htake.
  { intros k bytes rbuf1 o1 Ho Hk0 Hk1. eapply yields_bind; [apply yields_any|]. intros s' _ [[[[r n'] rbuf'] o'] s''] Hr. apply IH in Hr as (R1 & R2 & R3).
    split; [congruence|]. destruct (Z.eq_dec k 0) as [->|Hk]; [destruct (Hk0 eq_refl) as [-> ->]; split; [done|]; intros; apply R3; [done|lia]|].
    specialize (Hk1 Hk). split; [lia|intros; lia]. }
  yields_case.
  - eapply yields_bind; [apply yields_any|]. intros [ok s'] _. destruct ok; cbn [negb]; [apply IH|apply yields_ret; done].
  - destruct (Nat.ltb_spec 0 (length rbuf)).
    + apply Htake; [done| |]; set (t := Z.to_nat _); intros Hk; [replace t with 0%nat by lia; done|]. rewrite length_drop. lia.
    + destruct (net_read _ o) as [r o1] eqn:En. apply net_read_size in En as [E1 E2]. destruct r as [bytes| | |]; try (apply yields_ret; split; [done|]; split; [lia|done]).
      apply Htake; [done|lia|]. intros _. lia.
Qed.

Lemma complete_progress e m : c_state (w_conn (mc_world m)) = conn_nread -> yields (complete_nread hash use_sasl lib e m) (progress m).
Proof.
  intros Hs. assert (forall m', same_io m m' -> mc_rbuf m' = mc_rbuf m -> not_reading (mc_world m') -> progress m (Go m')) as Hlater.
  { intros m' Hio Hrb H. apply later_state; [apply same_bytes; [done|by rewrite Hrb]|]. unfold not_reading, state_rank in *. rewrite Hs. repeat case_match; done || lia. }
  unfold complete_nread. destruct (mc_protocol m); [| |apply yields_abort].
  - eapply yields_bind; [apply complete_nread_ascii_state|]. intros w H. apply yields_ret. by apply Hlater.
  - eapply yields_bind; [apply complete_nread_binary_state|]. intros [b w] H. apply yields_ret. by apply Hlater.
Qed.

Lemma copy_in_io p bytes m : yields (copy_in p bytes m) (fun m' => mc_io m' = mc_io m /\ mc_rbuf m' = mc_rbuf m).
Proof. unfold copy_in. yields_bind_any. by apply yields_ret. Qed.

Lemma chunked_size e m p : 0 < c_rlbytes (w_conn (mc_world m)) -> yields (net_read_into_chunked_item hash e m p) (fun '(r, m') =>
  (drive_bytes m' <= drive_bytes m)%nat /\ (r = ChunkGot -> (drive_bytes m' < drive_bytes m)%nat)).
Proof.
  intros Hn. unfold net_read_into_chunked_item. eapply yields_bind; [apply read_chunks_size|]. intros [[[[r n] rbuf] o] s] (E1 & E2 & E3). unfold unread in *.
  eapply yields_bind with (Q := fun '(r', _) => r' = ChunkGot -> r = ChunkGot).
  - destruct r; try (apply yields_ret; by auto). by intros [] _.
  - intros [r' s'] Hr. apply yields_ret. unfold drive_bytes. cbn [mc_io mc_rbuf on_io on_bytes on_rbuf on_world rb_bytes]. rewrite E1. split; [lia|].
    intros E. specialize (E3 (Hr E) Hn). lia.
Qed.

Lemma nread_progress e m : c_state (w_conn (mc_world m)) = conn_nread -> yields (drive_nread hash use_sasl lib e m) (progress m).
Proof.
  intros Hs. unfold drive_nread. destruct (Z.eqb_spec (c_rlbytes (w_conn (mc_world m))) 0) as [|Hrl]; [by apply complete_progress|].
  destruct (Z.ltb_spec (c_rlbytes (w_conn (mc_world m))) 0); [apply yields_ret, closing_later; [done|by rewrite Hs|done]|]. do 2 yields_bind_any. yields_case.
  - eapply yields_bind with (Q := fun m' => mc_io m' = mc_io m /\ ((length (rb_bytes (mc_rbuf m')) < length (rb_bytes (mc_rbuf m)))%nat \/ mc_rbuf m' = mc_rbuf m /\ c_rlbytes (w_conn (mc_world m')) <> 0)).
    + destruct (Nat.ltb_spec 0 (length (rb_bytes (mc_rbuf m)))); [|apply yields_ret; by auto]. eapply yields_bind; [apply copy_in_io|]. intros m1 [E1 E2]. apply yields_ret.
      split; [exact E1|left]. cbn [mc_rbuf on_bytes on_rbuf rb_bytes]. rewrite length_drop. lia.
    + intros m1 [E1 E2]. assert (drive_bytes m1 <= drive_bytes m)%nat as Hle by (apply same_bytes; [by split; rewrite E1|]; destruct E2 as [E2|[-> _]]; [lia|done]).
      destruct (Z.eqb_spec (c_rlbytes (w_conn (mc_world m1))) 0) as [H0|H0].
      { apply yields_ret, fewer_bytes. destruct E2 as [E2|[_ []]]; [|done]. unfold drive_bytes. rewrite E1. lia. }
      destruct (net_read _ (mc_io m1)) as [r o] eqn:En. apply net_read_size in En as [N1 N2].
      assert (drive_bytes (on_io o m1) <= drive_bytes m1)%nat as Hle2 by (unfold drive_bytes; cbn [mc_io mc_rbuf on_io]; rewrite N1; destruct r; lia).
      destruct r as [bytes| | |]; try (apply yields_ret, read_ended_progress; [lia|by rewrite Hs]).
      eapply yields_bind; [apply copy_in_io|]. intros m2 [F1 F2]. apply yields_ret, fewer_bytes. eapply Nat.lt_le_trans; [|exact Hle]. unfold drive_bytes. rewrite F1, F2. cbn [mc_io mc_rbuf on_io]. rewrite N1. lia.
  - eapply yields_bind; [apply chunked_size; lia|]. intros [r m1] [Hle Hlt]. destruct r; try (apply yields_ret, read_ended_progress; [done|by rewrite Hs]).
    + apply yields_ret, fewer_bytes. by apply Hlt.
    + eapply yields_bind; [apply yields_any|]. intros w' _. apply yields_ret, later_state; [done|]. unfold state_rank. rewrite Hs. cbn. lia.
Qed.

(** Responses without anything to send are all finished. *)
Lemma nothing_sent resps parts (s : store T) offset : mapM (resp_bytes s) resps = Ret parts -> forallb (fun r => resp_skip r || (length (resp_iov r) =? 0)%nat) resps = true ->
  exists l, sent_resps (zip resps (to_send offset parts)) 0 = (l, [], 0%nat).
Proof.
  intros Hp Hf. assert (forall ns, length ns = length resps -> Forall (fun n => n = 0%nat) ns -> exists l, sent_resps (zip resps ns) 0 = (l, [], 0%nat)) as Hz.
  { clear Hp Hf parts. induction resps as [|r resps IH]; intros [|n ns] Hl Hn; try done; cbn [zip zip_with sent_resps]; [by eexists|]. apply Forall_cons in Hn as [-> Hn].
    destruct (IH ns) as [l E]; [by injection Hl|done|]. rewrite E. destruct (resp_skip r); [|cbn [Nat.leb Nat.sub]; rewrite E]; by eexists. }
  assert (Forall (fun b => b = []) parts /\ length parts = length resps) as [H0 Hl].
  { clear Hz offset. revert parts Hp. induction resps as [|r resps IH]; intros parts Hp; cbn in Hp; [injection Hp as <-; done|].
    cbn [forallb] in Hf. apply andb_prop in Hf as [Hr Hf]. assert (resp_bytes s r = Ret []) as Er.
    { unfold resp_bytes. destruct (resp_skip r); [done|]. cbn [orb] in Hr. destruct (resp_iov r); [done|discriminate Hr]. }
    rewrite Er, ret_bind in Hp. destruct (mapM (resp_bytes s) resps) as [parts'| |]; try discriminate Hp. rewrite ret_bind in Hp. injection Hp as <-.
    destruct (IH Hf parts' eq_refl) as [I1 I2]. split; [by constructor|cbn; by rewrite I2]. }
  apply Hz.
  - rewrite <- Hl. destruct parts; [done|]. cbn [to_send length]. by rewrite length_map.
  - destruct parts as [|b parts]; [constructor|]. apply Forall_cons in H0 as [-> H0]. cbn [to_send]. constructor; [done|]. apply Forall_map. eapply Forall_impl; [exact H0|]. by intros ? ->.
Qed.

Lemma mwrite_progress m : c_state (w_conn (mc_world m)) = conn_mwrite -> yields (drive_mwrite m) (progress m).
Proof.
  intros Hs. unfold drive_mwrite. eapply yields_bind with (Q := fun '(r, m') => match r with
    | TRANSMIT_COMPLETE => (drive_bytes m' <= drive_bytes m)%nat
    | TRANSMIT_INCOMPLETE => (drive_bytes m' < drive_bytes m)%nat
    | TRANSMIT_SOFT_ERROR => True
    | TRANSMIT_HARD_ERROR => (drive_bytes m' <= drive_bytes m)%nat /\ c_state (w_conn (mc_world m')) = conn_closing end).
  - unfold transmit_resps. set (resps := c_resps (w_conn (mc_world m))). destruct (mapM _ resps) as [parts| |] eqn:Ep; [|intros ? Hb; discriminate Hb|intros ? Hb; discriminate Hb]. rewrite ret_bind.
    destruct (forallb _ resps) eqn:Ef.
    + rewrite ret_bind. destruct (nothing_sent _ _ _ (mc_offset m) Ep Ef) as [l ->]. eapply yields_bind; [apply yields_any|]. intros w _. apply yields_ret. exact (Nat.le_refl (drive_bytes m)).
    + assert (forall o, io_reads o = io_reads (mc_io m) -> (length (io_sends o) <= length (io_sends (mc_io m)))%nat ->
        yields (let '(ok, o) := update_event true o in Ret (if ok : bool then (TRANSMIT_SOFT_ERROR, on_io o m) else (TRANSMIT_HARD_ERROR, in_state conn_closing (on_io o m))))
          (fun '(r, m') => match r with
            | TRANSMIT_COMPLETE => (drive_bytes m' <= drive_bytes m)%nat
            | TRANSMIT_INCOMPLETE => (drive_bytes m' < drive_bytes m)%nat
            | TRANSMIT_SOFT_ERROR => True
            | TRANSMIT_HARD_ERROR => (drive_bytes m' <= drive_bytes m)%nat /\ c_state (w_conn (mc_world m')) = conn_closing end)) as Hblock.
      { intros o H1 H2. destruct (update_event true o) as [ok o'] eqn:Eu. apply update_event_size in Eu as [U1 U2]. apply yields_ret. destruct ok; [done|]. split; [|done].
        unfold drive_bytes. cbn [mc_io mc_rbuf on_io in_state on_world]. rewrite U1, U2, H1. lia. }
      destruct (io_sends (mc_io m)) as [|[n| |] rest] eqn:Ei.
      * apply Hblock; [done|by rewrite Ei].
      * rewrite ret_bind. destruct (sent_resps _ _) as [[f k] off]. eapply yields_bind; [apply yields_any|]. intros w _. apply yields_ret.
        assert (forall w' b f', (drive_bytes (on_sent b f' (on_world w' (on_io (with_sends rest (mc_io m)) m))) < drive_bytes m)%nat) as Hlt
          by (intros; unfold drive_bytes; cbn [mc_io mc_rbuf on_io on_world on_sent with_sends io_sends io_reads]; rewrite Ei; cbn [length]; lia).
        destruct (_ =? 0)%nat; [apply Nat.lt_le_incl|]; apply Hlt.
      * apply Hblock; [done|cbn; lia].
      * apply yields_ret. split; [|done]. unfold drive_bytes. cbn [mc_io mc_rbuf on_io in_state on_world with_sends io_sends io_reads]. rewrite Ei. cbn [length]. lia.
  - intros [r m'] H. destruct r; [|by apply yields_ret, fewer_bytes|by apply yields_ret|apply yields_ret; destruct H as [H1 H2]; by apply closing_later; [|rewrite Hs|]].
    eapply yields_bind; [apply release_resps|]. intros w Hw. apply yields_ret, later_state; [done|]. unfold state_rank, has_resps. rewrite Hs. destruct (_ || _); simpl; rewrite ?Hw; simpl; lia.
Qed.

Lemma step_progress e m : yields (drive_step hash use_sasl lib users e m) (progress m).
Proof.
  unfold drive_step. destruct (c_state (w_conn (mc_world m))) eqn:Hs.
  - unfold drive_new_cmd. destruct (0 <=? mc_nreqs (on_nreqs (mc_nreqs m - 1) m)).
    + eapply yields_bind with (Q := fun m' => (drive_measure m' < drive_measure m)%nat); [|intros m' H; by apply yields_ret].
      unfold reset_cmd_handler. eapply yields_bind with (Q := fun w => c_resps (w_conn w) = c_resps (w_conn (mc_world m))).
      { unfold drop_item. case_match; [|by apply yields_ret]. unfold on_store. yields_bind_any. by apply yields_ret. }
      intros w Hw. apply yields_ret. apply later_state; [done|]. unfold state_rank, has_resps. rewrite Hs. simpl. rewrite Hw.
      destruct (_ <? _)%nat; simpl; rewrite ?Hw; destruct (length (c_resps (w_conn (mc_world m))) =? 0)%nat; simpl; lia.
    + destruct (has_resps _) eqn:Hh; [apply yields_ret|].
      * apply later_state; [done|]. unfold state_rank. rewrite Hs. change (has_resps m) with (has_resps (on_nreqs (mc_nreqs m - 1) m)). rewrite Hh. simpl. lia.
      * destruct (_ <? _)%nat; apply yields_ret; [apply wait_progress; [done|by rewrite Hs]|done].
  - apply yields_ret. unfold drive_waiting. destruct (update_event _ _) as [ok o] eqn:Eu. apply update_event_size in Eu as [U1 U2]. destruct ok; [done|].
    apply closing_later; [|by rewrite Hs|done]. apply same_bytes; [done|]. cbn [mc_rbuf in_state on_world on_io on_rbuf]. unfold rbuf_release. destruct (_ =? _)%nat; cbn; lia.
  - by apply read_progress.
  - unfold drive_parse_cmd. eapply yields_bind; [apply try_read_ok|]. intros r Hr. apply yields_ret. destruct r as [[[] m']|]; [|simpl|done].
    + destruct Hr as (Hio & [Hlt|[Hle Hst]]).
      * apply fewer_bytes. destruct Hio as [E1 E2]. cbn [mc_io on_world] in E1, E2. unfold drive_bytes. cbn [mc_io mc_rbuf on_ritem on_world] in *. rewrite E1, E2. lia.
      * apply closing_later; [by apply same_bytes|by rewrite Hs|done].
    + destruct Hr as (Hio & Hle & Hh). apply later_state; [by apply same_bytes|]. unfold state_rank. rewrite Hs.
      change (has_resps (on_world _ m)) with (has_resps m) in Hh. rewrite Hh. destruct (has_resps m); simpl; lia.
  - by apply nread_progress.
  - apply yields_ret. unfold drive_swallow. destruct (Z.leb_spec (c_sbytes (w_conn (mc_world m))) 0).
    + apply later_state; [done|]. unfold state_rank. rewrite Hs. simpl. case_match; lia.
    + destruct (Nat.ltb_spec 0 (length (rb_bytes (mc_rbuf m)))).
      { apply fewer_bytes. unfold drive_bytes. cbn [mc_io mc_rbuf on_bytes on_rbuf on_world rb_bytes]. rewrite length_drop. lia. }
      destruct (net_read _ _) as [r o] eqn:En. apply net_read_size in En as [N1 N2].
      assert (drive_bytes (on_io o m) <= drive_bytes m)%nat as Hle by (unfold drive_bytes; cbn [mc_io mc_rbuf on_io]; rewrite N1; destruct r; lia).
      destruct r as [bytes| | |]; try (apply read_ended_progress; [done|by rewrite Hs]).
      apply fewer_bytes. unfold drive_bytes. cbn [mc_io mc_rbuf on_io on_world]. rewrite N1. lia.
  - yields_bind_any. by apply yields_ret.
  - by apply mwrite_progress.
Qed.

Lemma drive_loop_ends fuel e m : (drive_measure m < fuel)%nat -> drive_loop hash use_sasl lib users fuel e m <> Ret OutOfFuel.
Proof.
  revert m. induction fuel as [|fuel IH]; intros m Hf; [lia|]. simpl. pose proof (step_progress e m) as Hp.
  destruct (drive_step hash use_sasl lib users e m) as [t| |]; try done. rewrite ret_bind. specialize (Hp t eq_refl). destruct t as [m'| |]; try done.
  apply IH. simpl in Hp. lia.
Qed.

(** The fuel of [drive_machine] is enough: for a connection in any state, whatever the outside answers,
    the loop makes at most 16 turns for each byte in the buffer and each answer of [sendmsg], twice as
    many for each byte that is still to be read, and ten more. *)
Theorem drive_machine_rests (reqs_per_event : Z) (e : senv) (m : machine T) :
  drive_machine hash use_sasl lib users reqs_per_event e m <> Ret OutOfFuel /\ (drive_measure m <= 16 * drive_bytes m + 10)%nat.
Proof.
  split; [|unfold drive_measure; pose proof (rank_le m); lia]. unfold drive_machine. apply drive_loop_ends. unfold drive_measure.
  change (state_rank (on_nreqs reqs_per_event m)) with (state_rank m). change (drive_bytes (on_nreqs reqs_per_event m)) with (drive_bytes m). lia.
Qed.
End Turns.

(** The loop over the network ends before its fuel does. *)
Lemma read_loop_returns fuel : forall k got rb o, (k <= 4)%nat ->
  (6 <= fuel + k)%nat \/ (5 <= fuel + k)%nat /\ (rb_size rb <=? length (rb_bytes rb))%nat && rb_malloced rb = true ->
  exists r, read_loop fuel k got rb o = Ret r.
Proof.
  induction fuel as [|fuel IH]; intros k got rb o Hk Hf; [lia|]. cbn [read_loop]. set (full := (rb_size rb <=? length (rb_bytes rb))%nat && rb_malloced rb) in *.
  destruct (full && (k =? 4)%nat) eqn:E4; [by eexists|]. destruct (if full then net_alloc o else (true, o)) as [[] o1]; cbn [negb]; [|by eexists].
  set (rb1 := if full then _ else rb). destruct (net_read _ o1) as [[bytes| | |] o2]; try by eexists.
  destruct ((length bytes =? _)%nat && _) eqn:Ec; [|by eexists]. apply andb_prop in Ec as [Ec%Nat.eqb_eq Em]. apply IH.
  - destruct full; [|done]. cbn [andb] in E4. apply Nat.eqb_neq in E4. lia.
  - right. cbn [rb_size rb_bytes rb_malloced] in *. split; [destruct full; [lia|]; destruct Hf as [Hf|[_ [=]]]; lia|].
    rewrite Em, andb_true_r. apply Nat.leb_le. rewrite length_app. lia.
Qed.

(** A connection that has no response pending, which is how a connection comes to read, is reading the
    keys of a long get, and there is no memory to double its buffer: the message about that is written
    to a response object through a null pointer. *)
Theorem read_out_of_memory_crashes {T : Type} {table_ops : ItemTable T} {slabs : SlabAllocator} {node_hash : NodeHash}
    (hash : list Z -> Z) (use_sasl : bool) (lib : sasl_lib) (users : auth_state) (e : senv) (m : machine T) (allocs : list bool)
    (Hs : c_state (w_conn (mc_world m)) = conn_read) (Hr : c_resps (w_conn (mc_world m)) = []) (Hp : mc_protocol m = ascii_prot)
    (Hb : rb_malloced (mc_rbuf m) = true) (Hf : (0 < rb_size (mc_rbuf m) <= length (rb_bytes (mc_rbuf m)))%nat) (Ha : io_allocs (mc_io m) = false :: allocs) :
  drive_step hash use_sasl lib users e m = Ub.
Proof.
  assert (forall fuel, read_loop (S fuel) 0 READ_NO_DATA_RECEIVED (mc_rbuf m) (mc_io m) =
    Ret (READ_MEMORY_ERROR, mkRbuffer [] (rb_size (mc_rbuf m)) true, (net_alloc (mc_io m)).2)) as E.
  { intros fuel. cbn [read_loop]. rewrite (proj2 (Nat.leb_le (rb_size (mc_rbuf m)) (length (rb_bytes (mc_rbuf m))))), Hb by lia. cbn [andb Nat.eqb].
    unfold net_alloc. rewrite Ha. reflexivity. }
  unfold drive_step. rewrite Hs. unfold drive_read, rbuf_alloc. rewrite (proj2 (Nat.eqb_neq (rb_size (mc_rbuf m)) 0)) by lia. cbn [negb]. unfold try_read_network.
  change (mc_rbuf (on_rbuf _ _)) with (mc_rbuf m). change (mc_io (on_rbuf _ _)) with (mc_io m). rewrite E, ret_bind. unfold out_of_memory_on. cbn [mc_protocol on_io on_rbuf].
  rewrite Hp. unfold out_of_memory, out_string, resp_reset, cur_resp. cbn [mc_world on_io on_rbuf]. rewrite Hr. reflexivity.
Qed.

(** ** Values *)

Section Values.
Context {T : Type} {table_ops : ItemTable T} {slabs : SlabAllocator} {node_hash : NodeHash}.
Context (hash : list Z -> Z) {table_laws : ItemTableLaws hash T} (use_sasl : bool) (lib : sasl_lib) (users : auth_state).
Implicit Types (w : world T) (m : machine T).

(** Bytes as reads bring them, and the bytes of all answers. *)
Definition piece (x : Z * list Z) : read_reply := RdBytes x.1 x.2.
Definition piece_bytes (x : Z * list Z) : list Z := x.1 :: x.2.
Definition reply_bytes (r : read_reply) : list Z := match r with RdBytes b l => b :: l | _ => [] end.
Definition still_to_read m : list Z := rb_bytes (mc_rbuf m) ++ concat (map reply_bytes (io_reads (mc_io m))).

(** The connection is reading the value of a storage command into item [p]: [got] is there, and [n]
    bytes are to come. *)
Record reading m (p : positive) (it : item) (got : list Z) (n : nat) : Prop := {
  rd_state : c_state (w_conn (mc_world m)) = conn_nread;
  rd_item : c_item (w_conn (mc_world m)) = Some p;
  rd_heap : heap (w_store (mc_world m)) !! p = Some it;
  rd_plain : has_flag ITEM_CHUNKED it = false;
  rd_ritem : mc_ritem m = length got;
  rd_got : take (length got) (it_data it) = got;
  rd_room : (length got + n <= length (it_data it))%nat;
  rd_left : c_rlbytes (w_conn (mc_world m)) = Z.of_nat n
}.

Section Pieces.
Context (p : positive) (it : item) (got : list Z) (m : machine T).

(** The machine when [bytes] more have come in: [n] are missing, and the buffer holds [rb]. *)
Definition after (bytes : list Z) (n : nat) (rb : list Z) (o : io) : machine T :=
  let w := mc_world m in
  let s := with_heap (<[p := set_data (splice (it_data it) (length got) bytes) it]> (heap (w_store w))) (w_store w) in
  on_io o (on_bytes rb (on_ritem (length got + length bytes) (on_world (upd_conn (fun c => with_nread (c_cmd c) (Z.of_nat n) c) (with_store s w)) m))).

Lemma after_nothing n : reading m p it got n -> after [] n (rb_bytes (mc_rbuf m)) (mc_io m) = m.
Proof.
  intros [R1 R2 R3 R4 R5 R6 R7 R8]. unfold after. rewrite splice_nil. assert (set_data (it_data it) it = it) as -> by (by destruct it).
  rewrite insert_id by done. cbn [length]. rewrite Nat.add_0_r, <- R5, <- R8.
  destruct m as [? ? ? ? [] ? ? [[] [] ? ?] ? ? ? ?]. reflexivity.
Qed.

Lemma write_plain s q i off src : heap s !! q = Some i -> has_flag ITEM_CHUNKED i = false -> (off + length src <= length (it_data i))%nat ->
  write_data q off src (Z.of_nat (length src)) s = Ret (with_heap (<[q := set_data (splice (it_data i) off src) i]> (heap s)) s : store T).
Proof.
  intros Hp Hc Hl. unfold write_data. rewrite (get_item_ok _ _ _ Hp), ret_bind. unfold read_bytes. rewrite Nat2Z.id, Nat.leb_refl, ret_bind, take_ge by lia.
  unfold plain_data, ITEM_data. rewrite Hc, ret_bind, write_bytes_ok, ret_bind by done. by apply upd_item_ok.
Qed.

Context (n0 : nat) (Hr : reading m p it got n0).

Lemma copy_after bytes n rb o more : (length bytes + (length more + n) = n0)%nat ->
  copy_in p more (after bytes (length more + n) rb o) = Ret (after (bytes ++ more) n rb o).
Proof.
  destruct Hr as [R1 R2 R3 R4 R5 R6 R7 R8]. intros Hn. unfold copy_in. set (d := splice (it_data it) (length got) bytes).
  assert (length d = length (it_data it)) as Hd by (apply length_splice; lia).
  rewrite (write_plain _ p (set_data d it)); [|apply lookup_insert_eq|done|cbn [mc_ritem after on_io on_bytes on_rbuf on_ritem it_data set_data]; lia].
  rewrite ret_bind. f_equal. unfold after. cbn [mc_ritem on_io on_bytes on_rbuf on_ritem on_world mc_world it_data set_data].
  cbn. unfold d. rewrite splice_app by lia. rewrite insert_insert_eq, length_app, Nat.add_assoc.
  replace (Z.of_nat n) with (Z.of_nat (length more + n) - Z.of_nat (length more)) by lia. reflexivity.
Qed.

Lemma reading_after bytes n rb o : (length bytes + n = n0)%nat -> reading (after bytes n rb o) p (set_data (splice (it_data it) (length got) bytes) it) (got ++ bytes) n.
Proof.
  destruct Hr as [R1 R2 R3 R4 R5 R6 R7 R8]. intros Hn. split; [done|done|apply lookup_insert_eq|done|by rewrite length_app| | |done]; cbn [it_data set_data].
  - unfold splice. rewrite R6, app_assoc, take_app_length. done.
  - rewrite length_splice, length_app; lia.
Qed.

(** A turn. *)
Lemma nread_turn e bytes n rb o : (length bytes + n = n0)%nat -> (0 < n)%nat ->
  drive_step hash use_sasl lib users e (after bytes n rb o) =
    if (n <=? length rb)%nat then Ret (Go (after (bytes ++ take n rb) 0 (drop n rb) o))
    else match net_read (n - length rb) o with
         | (Got more, o') => m' ← copy_in p more (after (bytes ++ rb) (n - length rb) [] o'); Ret (Go m')
         | (r, o') => Ret (read_ended r (after (bytes ++ rb) (n - length rb) [] o'))
         end.
Proof.
  destruct (Hr) as [R1 R2 R3 R4 R5 R6 R7 R8]. intros Hn H0. unfold drive_step.
  assert (c_state (w_conn (mc_world (after bytes n rb o))) = conn_nread) as -> by exact R1. unfold drive_nread.
  assert (c_rlbytes (w_conn (mc_world (after bytes n rb o))) = Z.of_nat n) as -> by reflexivity.
  rewrite (proj2 (Z.eqb_neq _ _)), (proj2 (Z.ltb_ge _ _)) by lia.
  assert (c_item (w_conn (mc_world (after bytes n rb o))) = Some p) as -> by exact R2. cbn [deref]. rewrite ret_bind.
  rewrite (get_item_ok p _ (set_data (splice (it_data it) (length got) bytes) it)) by apply lookup_insert_eq. rewrite ret_bind.
  assert (has_flag ITEM_CHUNKED (set_data (splice (it_data it) (length got) bytes) it) = false) as -> by exact R4. cbn [negb].
  assert (rb_bytes (mc_rbuf (after bytes n rb o)) = rb) as -> by reflexivity. rewrite Nat2Z.id. set (k := Nat.min (length rb) n).
  assert ((if (0 <? length rb)%nat then m ← copy_in p (take k rb) (after bytes n rb o); Ret (on_bytes (drop k rb) m) else Ret (after bytes n rb o)) =
    Ret (after (bytes ++ take k rb) (n - k) (drop k rb) o)) as ->.
  { destruct (Nat.ltb_spec 0 (length rb)).
    - assert (length (take k rb) = k) as Hk by (rewrite length_take; lia). pose proof (copy_after bytes (n - k) rb o (take k rb)) as Hc.
      rewrite Hk in Hc. replace (k + (n - k))%nat with n in Hc by lia. rewrite Hc by lia. by rewrite ret_bind.
    - destruct rb; [|cbn in *; lia]. subst k. cbn [length Nat.min take drop]. by rewrite app_nil_r, Nat.sub_0_r. }
  rewrite ret_bind. assert (c_rlbytes (w_conn (mc_world (after (bytes ++ take k rb) (n - k) (drop k rb) o))) = Z.of_nat (n - k)) as -> by reflexivity.
  destruct (Nat.leb_spec n (length rb)).
  - assert (k = n) as -> by lia. rewrite Nat.sub_diag. reflexivity.
  - assert (k = length rb) as -> by lia. rewrite take_ge, drop_ge by lia. rewrite (proj2 (Z.eqb_neq _ _)), Nat2Z.id by lia.
    assert (mc_io (after (bytes ++ rb) (n - length rb) [] o) = o) as -> by reflexivity.
    destruct (net_read (n - length rb) o) as [r o']. destruct r; reflexivity.
Qed.

Lemma loop_go fuel e m1 m2 : drive_step hash use_sasl lib users e m1 = Ret (Go m2) ->
  drive_loop hash use_sasl lib users (S fuel) e m1 = drive_loop hash use_sasl lib users fuel e m2.
Proof. intros E. cbn [drive_loop]. rewrite E, ret_bind. reflexivity. Qed.

(** A read that brings a piece, or the front of it. *)
Lemma read_piece k x rest o : (0 < k)%nat -> io_reads o = piece x :: rest ->
  exists reads', net_read k o = (Got (take k (piece_bytes x)), with_reads reads' o) /\
    concat (map reply_bytes reads') = drop k (piece_bytes x) ++ concat (map reply_bytes rest) /\ ((length (piece_bytes x) <= k)%nat -> reads' = rest).
Proof.
  intros Hk E. unfold net_read. rewrite (proj2 (Nat.eqb_neq _ _)), E by lia. cbn [piece]. eexists. split; [reflexivity|]. unfold piece_bytes.
  destruct (drop k (x.1 :: x.2)) as [|b l] eqn:Ed; [done|]. split; [done|]. intros Hl. rewrite drop_ge in Ed by done. discriminate Ed.
Qed.

Lemma arrived_pieces front tail : concat (map reply_bytes (map piece front ++ tail)) = concat (map piece_bytes front) ++ concat (map reply_bytes tail).
Proof. induction front as [|x front IH]; [done|]. cbn [map app concat]. by rewrite IH, app_assoc. Qed.

(** All the bytes come. *)
Lemma pieces_complete e tail front : forall bytes n rb o, (length bytes + n = n0)%nat -> (0 < n)%nat -> io_reads o = map piece front ++ tail ->
  (n <= length (rb ++ concat (map piece_bytes front)))%nat ->
  exists k rb' reads', (k <= S (length front))%nat /\
    (forall fuel, drive_loop hash use_sasl lib users (k + fuel) e (after bytes n rb o) =
      drive_loop hash use_sasl lib users fuel e (after (bytes ++ take n (rb ++ concat (map piece_bytes front))) 0 rb' (with_reads reads' o))) /\
    rb' ++ concat (map reply_bytes reads') = drop n (rb ++ concat (map piece_bytes front)) ++ concat (map reply_bytes tail).
Proof.
  induction front as [|x front IH]; intros bytes n rb o Hn H0 Ho Hl; pose proof (nread_turn e bytes n rb o Hn H0) as Ht.
  all: destruct (Nat.leb_spec n (length rb)) as [Hle|Hlt];
    [exists 1%nat, (drop n rb), (io_reads o); split; [lia|]; split; [intros fuel; rewrite (loop_go _ _ _ _ Ht), take_app_le by done; by destruct o|];
     by rewrite drop_app_le, Ho, arrived_pieces, app_assoc by done|].
  - rewrite app_nil_r in Hl. lia.
  - destruct (read_piece (n - length rb) x (map piece front ++ tail) o) as (reads' & En & Er & Efull); [lia|done|]. rewrite En in Ht.
    set (more := take (n - length rb) (piece_bytes x)) in *. assert (length more = Nat.min (n - length rb) (length (piece_bytes x))) as Hm by apply length_take.
    pose proof (copy_after (bytes ++ rb) (n - length rb - length more) [] (with_reads reads' o) more) as Hc.
    replace (length more + (n - length rb - length more))%nat with (n - length rb)%nat in Hc by lia. rewrite Hc, ret_bind in Ht by (rewrite length_app; lia). clear Hc.
    cbn [map concat] in Hl |- *. rewrite take_app_ge, take_app, drop_app_ge, drop_app, <- app_assoc by lia. fold more.
    destruct (Nat.leb_spec (n - length rb) (length (piece_bytes x))) as [Hx|Hx].
    + exists 1%nat, [], reads'. split; [lia|]. split.
      * intros fuel. rewrite (loop_go _ _ _ _ Ht), Hm. replace (n - length rb - Nat.min _ _)%nat with 0%nat by lia.
        replace (n - length rb - length (piece_bytes x))%nat with 0%nat by lia. by rewrite take_0, app_nil_r, app_assoc.
      * cbn [app]. rewrite Er. replace (n - length rb - length (piece_bytes x))%nat with 0%nat by lia. by rewrite drop_0, arrived_pieces, ?app_assoc.
    + assert (more = piece_bytes x) as Hmx by (unfold more; rewrite take_ge by lia; done). rewrite Hmx in *. rewrite (Efull ltac:(lia)) in *.
      destruct (IH (((bytes ++ rb) ++ piece_bytes x)) (n - length rb - length (piece_bytes x))%nat [] (with_reads (map piece front ++ tail) o)) as (k & rb' & rd & K1 & K2 & K3);
        [rewrite !length_app; lia|lia|done|rewrite !length_app in *; cbn [length]; lia|].
      exists (S k), rb', rd. split; [cbn; lia|]. split.
      * intros fuel. cbn [Nat.add]. rewrite (loop_go _ _ _ _ Ht), K2. cbn [app]. by rewrite <- !app_assoc.
      * rewrite K3. cbn [app]. by rewrite (drop_ge (piece_bytes x)) by lia.
Qed.

(** They do not all come. *)
Lemma pieces_end e tail front : forall bytes n rb o, (length bytes + n = n0)%nat -> io_reads o = map piece front ++ tail -> reply_bytes (default RdAgain (head tail)) = [] ->
  (length (rb ++ concat (map piece_bytes front)) < n)%nat ->
  let k := (n - length (rb ++ concat (map piece_bytes front)))%nat in
  exists r o', net_read k (with_reads tail o) = (r, o') /\ (forall b, r <> Got b) /\
    forall fuel, drive_loop hash use_sasl lib users (length front + S fuel) e (after bytes n rb o) =
      match read_ended r (after (bytes ++ rb ++ concat (map piece_bytes front)) k [] o') with
      | Go m' => drive_loop hash use_sasl lib users fuel e m'
      | Stop m' => Ret (Waits m')
      | Unmodelled => Ret NotModelled
      end.
Proof.
  induction front as [|x front IH]; intros bytes n rb o Hn Ho Htail Hl k; subst k; assert (0 < n)%nat as H0 by lia; pose proof (nread_turn e bytes n rb o Hn H0) as Ht;
    rewrite length_app in Hl; rewrite (proj2 (Nat.leb_gt n (length rb))) in Ht by lia.
  - cbn [map concat app] in *. rewrite app_nil_r in *. assert (with_reads tail o = o) as -> by (rewrite <- Ho; by destruct o).
    destruct (net_read (n - length rb) o) as [r o'] eqn:En. assert (forall b, r <> Got b) as Hg.
    { intros b ->. unfold net_read in En. rewrite (proj2 (Nat.eqb_neq _ _)), Ho in En by lia. destruct tail as [|[] ?]; discriminate En || discriminate Htail. }
    exists r, o'. split; [done|]. split; [done|]. intros fuel. cbn [length Nat.add drive_loop]. rewrite Ht. destruct r; [by destruct (Hg bytes0)|rewrite ret_bind; reflexivity..].
  - destruct (read_piece (n - length rb) x (map piece front ++ tail) o) as (reads' & En & Er & Efull); [lia|done|]. rewrite En in Ht.
    cbn [map concat] in Hl. rewrite length_app in Hl. rewrite take_ge in Ht by lia. rewrite (Efull ltac:(lia)) in Ht.
    pose proof (copy_after (bytes ++ rb) (n - length rb - length (piece_bytes x)) [] (with_reads (map piece front ++ tail) o) (piece_bytes x)) as Hc.
    replace (length (piece_bytes x) + (n - length rb - length (piece_bytes x)))%nat with (n - length rb)%nat in Hc by lia. rewrite Hc, ret_bind in Ht by (rewrite length_app; lia).
    destruct (IH ((bytes ++ rb) ++ piece_bytes x) (n - length rb - length (piece_bytes x))%nat [] (with_reads (map piece front ++ tail) o)) as (r & o' & K1 & K2 & K3);
      [rewrite !length_app; lia|done|done|cbn [app length]; lia|].
    exists r, o'. cbn [app map concat] in *. rewrite !length_app. replace (n - (length rb + (length (piece_bytes x) + length (concat (map piece_bytes front)))))%nat
      with (n - length rb - length (piece_bytes x) - length (concat (map piece_bytes front)))%nat by lia. split; [exact K1|]. split; [exact K2|].
    intros fuel. cbn [length Nat.add]. rewrite (loop_go _ _ _ _ Ht), K3. by rewrite <- !app_assoc.
Qed.
End Pieces.

(** ** Closing *)

(** The references a connection holds: to the item it reads, and to those of its responses. *)
Definition held_by (q : positive) (o : option positive) : Z := if bool_decide (o = Some q) then 1 else 0.
Definition conn_refs (c : conn) (q : positive) : Z := held_by q (c_item c) + foldr (fun r k => held_by q (resp_item r) + k) 0 (c_resps c).

Lemma drop_item_ok w M lru refs o : (forall q, 0 <= refs q) -> store_rep hash (w_store w) M lru (fun q => refs q + held_by q o) ->
  exists s', drop_item o w = Ret (with_store s' w) /\ store_rep hash s' M lru refs.
Proof.
  intros H0 R. destruct o as [p|]; cbn [drop_item].
  - destruct (release hash (w_store w) M lru _ p R) as (s' & E & R' & _); [unfold held_by; rewrite bool_decide_true by done; specialize (H0 p); lia|].
    unfold on_store, item_remove. rewrite E, ret_bind. exists s'. split; [done|]. eapply store_rep_refs; [exact R'|]. intros q. unfold set_refs, held_by.
    destruct (decide (q = p)) as [->|Hq]; [rewrite bool_decide_true by done; lia|]. rewrite bool_decide_false by congruence. lia.
  - exists (w_store w). split; [by destruct w|]. eapply store_rep_refs; [exact R|]. intros q. unfold held_by. rewrite bool_decide_false by done. lia.
Qed.

Lemma finish_all_ok l : forall w M lru refs, (forall q, 0 <= refs q) -> store_rep hash (w_store w) M lru (fun q => refs q + foldr (fun r k => held_by q (resp_item r) + k) 0 l) ->
  exists s', resp_finish_all l w = Ret (upd_conn (with_resps []) (with_store s' w)) /\ store_rep hash s' M lru refs.
Proof.
  induction l as [|r l IH]; intros w M lru refs H0 R; cbn [resp_finish_all foldr] in *.
  - exists (w_store w). split; [by destruct w|]. eapply store_rep_refs; [exact R|]. intros q. cbn beta. lia.
  - assert (forall q, 0 <= foldr (fun r k => held_by q (resp_item r) + k) 0 l) as Hl.
    { clear. intros q. induction l as [|r l IH]; cbn [foldr]; [done|]. unfold held_by at 1. destruct (bool_decide _); lia. }
    destruct (drop_item_ok w M lru (fun q => refs q + foldr (fun r k => held_by q (resp_item r) + k) 0 l) (resp_item r)) as (s1 & -> & R1);
      [intros q; specialize (H0 q); specialize (Hl q); lia|eapply store_rep_refs; [exact R|]; intros q; cbn beta; lia|]. rewrite ret_bind.
    destruct (IH (with_store s1 w) M lru refs H0 R1) as (s2 & -> & R2). by exists s2.
Qed.

(** A connection that is closed gives all its references back. *)
Lemma close_ok m M lru refs : (forall q, 0 <= refs q) -> store_rep hash (w_store (mc_world m)) M lru (fun q => refs q + conn_refs (w_conn (mc_world m)) q) ->
  exists m', conn_close m = Ret m' /\ mc_closed m' = true /\ mc_sent m' = mc_sent m /\ store_rep hash (w_store (mc_world m')) M lru refs.
Proof.
  intros H0 R. unfold conn_close, conn_release_items. set (c := w_conn (mc_world m)) in *.
  assert (forall q, 0 <= foldr (fun r k => held_by q (resp_item r) + k) 0 (c_resps c)) as Hl.
  { intros q. induction (c_resps c) as [|r l IH]; cbn [foldr]; [done|]. unfold held_by at 1. destruct (bool_decide _); lia. }
  destruct (drop_item_ok (mc_world m) M lru (fun q => refs q + foldr (fun r k => held_by q (resp_item r) + k) 0 (c_resps c)) (c_item c)) as (s1 & -> & R1);
    [intros q; specialize (H0 q); specialize (Hl q); lia|eapply store_rep_refs; [exact R|]; intros q; unfold conn_refs; cbn beta; lia|]. rewrite ret_bind.
  change (c_resps (w_conn (with_store s1 (mc_world m)))) with (c_resps c).
  destruct (finish_all_ok (c_resps c) (upd_conn (with_item None) (with_store s1 (mc_world m))) M lru refs H0 R1) as (s2 & -> & R2). rewrite ret_bind.
  eexists. split; [reflexivity|]. split; [done|]. split; [done|exact R2].
Qed.

(** ** The whole value *)

(** What the connection does with a value that is there at once. *)
Definition whole_value e (bytes : list Z) m : outcome (machine T) :=
  let w := upd_conn (fun c => with_nread (c_cmd c) (Z.of_nat (length bytes)) c) (mc_world m) in
  match mc_protocol m with
  | ascii_prot => w ← nread_value hash (ct_srv (mc_control m)) e bytes w; Ret (on_world w m)
  | binary_prot => '(b, w) ← bin_nread_value hash (mc_control m) use_sasl lib e (mc_bin m) bytes w; Ret (on_world w (on_handler (mc_control m) b m))
  | negotiating_prot => Abort
  end.

(** [rest] is what the machine reads next; everything else is as in [m]. *)
Definition reads_next m (rest : list Z) m' : Prop :=
  exists rb reads n, rb ++ concat (map reply_bytes reads) = rest /\ m' = on_io (with_reads reads (mc_io m)) (on_bytes rb (on_ritem n m)).

Lemma closed_after e m p it got n0 bytes n o M lru refs (run : nat -> outcome driven) : reading m p it got n0 -> (forall q, 0 <= refs q) ->
  store_rep hash (w_store (mc_world m)) M lru (fun q => refs q + conn_refs (w_conn (mc_world m)) q) -> (length bytes + n = n0)%nat ->
  (forall fuel, run (S fuel) = drive_loop hash use_sasl lib users (S fuel) e (in_state conn_closing (after p it got m bytes n [] o))) ->
  exists m1, (forall fuel, run (S fuel) = Ret (Waits m1)) /\ mc_closed m1 = true /\ mc_sent m1 = mc_sent m /\ store_rep hash (w_store (mc_world m1)) M lru refs.
Proof.
  intros Hr H0 R Hn Hrun. destruct (upd_data_ok hash _ _ _ _ p it (splice (it_data it) (length got) bytes) R (rd_heap _ _ _ _ _ Hr)) as (_ & R' & _).
  destruct (close_ok (in_state conn_closing (after p it got m bytes n [] o)) M lru refs H0 R') as (m1 & E & C1 & C2 & C3).
  exists m1. split; [|done]. intros fuel. rewrite Hrun. cbn [drive_loop]. unfold drive_step. cbn [in_state on_world mc_world conn_set_state upd_conn with_conn w_conn with_state c_state].
  change (on_world _ (after p it got m bytes n [] o)) with (in_state conn_closing (after p it got m bytes n [] o)). rewrite E, !ret_bind. reflexivity.
Qed.

Lemma bind_go {A} (C : outcome A) (f : A -> machine T) fuel e :
  (t ← (a ← C; Ret (Go (f a))); match t with Go m => drive_loop hash use_sasl lib users fuel e m | Stop m => Ret (Waits m) | Unmodelled => Ret NotModelled end) =
  (m ← (a ← C; Ret (f a)); drive_loop hash use_sasl lib users fuel e m).
Proof. by destruct C. Qed.

Lemma bind_go2 {A B} (C : outcome (A * B)) (f : A -> B -> machine T) fuel e :
  (t ← ('(a, b) ← C; Ret (Go (f a b))); match t with Go m => drive_loop hash use_sasl lib users fuel e m | Stop m => Ret (Waits m) | Unmodelled => Ret NotModelled end) =
  (m ← ('(a, b) ← C; Ret (f a b)); drive_loop hash use_sasl lib users fuel e m).
Proof. by destruct C as [[]| |]. Qed.

Lemma complete_whole e m p it got n v rb reads : reading m p it got n -> length v = n -> (0 < n)%nat -> (mc_protocol m = ascii_prot -> length (it_data it) = (length got + n)%nat) ->
  exists m1, m1 = on_io (with_reads reads (mc_io m)) (on_bytes rb (on_ritem (length got + n) m)) /\ forall fuel,
    drive_loop hash use_sasl lib users (S fuel) e (after p it got m v 0 rb (with_reads reads (mc_io m))) =
    m2 ← whole_value e (got ++ v) m1; drive_loop hash use_sasl lib users fuel e m2.
Proof.
  intros [R1 R2 R3 R4 R5 R6 R7 R8] <- Hn Hfull. eexists. split; [reflexivity|]. intros fuel. cbn [drive_loop]. set (m1 := on_io _ _).
  unfold drive_step. assert (c_state (w_conn (mc_world (after p it got m v 0 rb (with_reads reads (mc_io m))))) = conn_nread) as -> by exact R1.
  unfold drive_nread. assert (c_rlbytes (w_conn (mc_world (after p it got m v 0 rb (with_reads reads (mc_io m))))) = 0) as -> by reflexivity. cbn [Z.eqb].
  unfold complete_nread, whole_value. change (mc_protocol (after _ _ _ _ _ _ _ _)) with (mc_protocol m). change (mc_protocol m1) with (mc_protocol m).
  change (mc_world m1) with (mc_world m). change (mc_control m1) with (mc_control m). change (mc_bin m1) with (mc_bin m). set (W := upd_conn _ (mc_world m)).
  assert (splice (it_data it) (length got) v = got ++ v ++ drop (length got + length v) (it_data it)) as Hsp by (unfold splice; by rewrite R6).
  destruct (mc_protocol m).
  - rewrite drop_ge, app_nil_r in Hsp by (rewrite Hfull; [lia|done]). unfold nread_value.
    assert (c_rlbytes (w_conn W) = Z.of_nat (length (got ++ v))) as -> by reflexivity. rewrite Z.eqb_refl. cbn [negb].
    assert (c_item (w_conn W) = Some p) as -> by exact R2. cbn [deref]. rewrite ret_bind, (get_item_ok p _ it), ret_bind, R4 by exact R3. cbn [negb].
    rewrite (upd_item_ok p _ _ it), !ret_bind by exact R3. rewrite <- Hsp. cbv iota.
    exact (bind_go (complete_nread_ascii hash (ct_srv (mc_control m)) e (mc_world (after p it got m v 0 rb (with_reads reads (mc_io m))))) (fun w => on_world w m1) fuel e).
  - unfold bin_nread_value. assert (c_rlbytes (w_conn W) = Z.of_nat (length (got ++ v))) as -> by reflexivity.
    rewrite (proj2 (Z.ltb_ge _ 0)), Z.eqb_refl by lia. cbn [negb]. assert (c_item (w_conn W) = Some p) as -> by exact R2. cbn [deref].
    rewrite ret_bind, (get_item_ok p _ it), ret_bind, R4 by exact R3. cbn [negb]. rewrite (proj2 (Nat.eqb_neq _ 0)) by (rewrite length_app; lia).
    rewrite (write_plain _ p it); [|exact R3|done|rewrite length_app; lia]. rewrite !ret_bind.
    assert (splice (it_data it) 0 (got ++ v) = splice (it_data it) (length got) v) as -> by (rewrite Hsp; unfold splice; by rewrite take_0, length_app, <- app_assoc).
    cbv iota.
    exact (bind_go2 (complete_nread_binary hash (mc_control m) use_sasl lib e (mc_bin m) (mc_world (after p it got m v 0 rb (with_reads reads (mc_io m)))))
      (fun b w => on_world w (on_handler (mc_control m) b m1)) fuel e).
  - reflexivity.
Qed.

(** C21: a value is received however it arrives, in both protocols.  While [drive_machine] reads the
    value of a storage command into an item that is not large, the bytes that are in the buffer already
    and those that any number of reads bring, in pieces of any size, are put together.  If they
    complete the value, the machine gets, within one turn for each piece and two more, to where it
    would be if the whole value had been there at once, and what follows the value is what it reads
    next.  If they do not and the socket would block, it waits for the socket with all these bytes in
    the item, ready to go on.  If the stream ends or fails instead, the connection is closed, with
    nothing sent and all its references given back. *)
Theorem value_arrives (e : senv) (m : machine T) (p : positive) (it : item) (got : list Z) (n : nat) (front : list (Z * list Z)) (tail : list read_reply)
    (M : gmap (list Z) positive) (lru : Z -> list positive) (refs : positive -> Z)
    (Hr : reading m p it got n) (Hn : (0 < n)%nat) (Hfull : mc_protocol m = ascii_prot -> length (it_data it) = (length got + n)%nat)
    (Hio : io_reads (mc_io m) = map piece front ++ tail) (Hev : io_ev_write (mc_io m) = false)
    (R : store_rep hash (w_store (mc_world m)) M lru (fun q => refs q + conn_refs (w_conn (mc_world m)) q)) (Hrefs : forall q, 0 <= refs q) :
  let stream := rb_bytes (mc_rbuf m) ++ concat (map piece_bytes front) in
  let run := fun fuel m => drive_loop hash use_sasl lib users fuel e m in
  ((n <= length stream)%nat ->
    exists k m1, (k <= length front + 2)%nat /\ reads_next m (drop n stream ++ concat (map reply_bytes tail)) m1 /\
      forall fuel, run (k + fuel)%nat m = m2 ← whole_value e (got ++ take n stream) m1; run fuel m2) /\
  ((length stream < n)%nat ->
    match default RdAgain (head tail) with
    | RdBytes _ _ => True
    | RdAgain => exists m1 it1, (forall fuel, run (length front + S fuel)%nat m = Ret (Waits m1)) /\
        reading m1 p it1 (got ++ stream) (n - length stream) /\ still_to_read m1 = concat (map reply_bytes tail)
    | RdEof | RdError => exists m1, (forall fuel, run (length front + S (S fuel))%nat m = Ret (Waits m1)) /\
        mc_closed m1 = true /\ mc_sent m1 = mc_sent m /\ store_rep hash (w_store (mc_world m1)) M lru refs
    end).
Proof.
  intros stream run. assert (after p it got m [] n (rb_bytes (mc_rbuf m)) (mc_io m) = m) as Hm by (by apply after_nothing). split.
  - intros Hl. destruct (pieces_complete p it got m n Hr e tail front [] n (rb_bytes (mc_rbuf m)) (mc_io m) eq_refl Hn Hio Hl) as (k & rb & reads & K1 & K2 & K3).
    rewrite Hm in K2. cbn [app] in K2. fold stream in K2, K3.
    destruct (complete_whole e m p it got n (take n stream) rb reads Hr) as (m1 & -> & E1); [rewrite length_take; lia|done|done|].
    exists (k + 1)%nat. eexists. split; [lia|]. split; [by exists rb, reads, (length got + n)%nat|]. intros fuel. unfold run. rewrite <- Nat.add_assoc, K2. apply E1.
  - intros Hl. destruct (default RdAgain (head tail)) as [b l| | |] eqn:Et; [done|..];
      destruct (pieces_end p it got m n Hr e tail front [] n (rb_bytes (mc_rbuf m)) (mc_io m) eq_refl Hio) as (r & o' & E1 & E2 & E3); try (by rewrite Et); try done;
      rewrite Hm in E3; cbn [app] in E3; fold stream in E1, E3; unfold net_read in E1; rewrite (proj2 (Nat.eqb_neq _ _)) in E1 by lia; cbn [io_reads with_reads] in E1.
    + apply (closed_after e m p it got n stream (n - length stream) o' M lru refs (fun f => run (length front + S f)%nat m) Hr Hrefs R); [lia|]. intros fuel. unfold run. rewrite E3.
      destruct tail as [|? tail]; [discriminate Et|]. cbn in Et. subst. by injection E1 as <- <-.
    + set (m1 := after p it got m stream (n - length stream) [] o'). exists m1, (set_data (splice (it_data it) (length got) stream) it).
      assert (r = Again /\ io_ev_write o' = false /\ concat (map reply_bytes (io_reads o')) = concat (map reply_bytes tail)) as (-> & Ho & Hb).
      { destruct tail as [|? tail]; [by injection E1 as <- <-|]. cbn in Et. subst. by injection E1 as <- <-. }
      split; [|split; [apply reading_after with n; [done|lia]|exact Hb]]. intros fuel. unfold run. rewrite E3. cbn [read_ended]. unfold wait_for, update_event.
      change (mc_io (after p it got m stream (n - length stream) [] o')) with o'. rewrite Ho. reflexivity.
    + apply (closed_after e m p it got n stream (n - length stream) o' M lru refs (fun f => run (length front + S f)%nat m) Hr Hrefs R); [lia|]. intros fuel. unfold run. rewrite E3.
      destruct tail as [|? tail]; [discriminate Et|]. cbn in Et. subst. by injection E1 as <- <-.
Qed.
End Values.

(** ** Sessions *)

Definition sample_control : control := mkControl sample_srv true false 0 (text "1.6.9") false [].
Definition no_sasl : sasl_lib := mkSasl None (fun _ _ => (SASL_OTHER, [])) (fun _ => (SASL_OTHER, [])).
Definition new_bin : bin_conn := mkBin (mkHeader 0 0 0 0 0 0 0 [] 0) 0 bin_no_state false false false.

Definition no_users : auth_state := mkAuthState [] [].
Definition bytes_reply (bytes : list Z) : list read_reply := match bytes with [] => [] | b :: l => [RdBytes b l] end.

(** A new connection to the server: what its socket brings, and a socket that takes what it is given. *)
Definition new_machine (reads : list read_reply) (ctl : control) (w : world assoc) : machine assoc :=
  mkMachine ctl new_bin negotiating_prot None (mkRbuffer [] 0 false) 0 (mkIo reads (replicate 50 (SdTook 2000)) [] [] false)
    (conn_set_state conn_read (with_conn sample_conn w)) [] 0 0 false.

(** A client connects and sends [bytes]: what it gets back, and what is left of the server. *)
Definition serve (bytes : list Z) (st : control * list (list Z) * world assoc) : outcome (control * list (list Z) * world assoc) :=
  let '(ctl, out, w) := st in
  r ← drive_machine first_byte false no_sasl no_users 20 sample_env (new_machine (bytes_reply bytes) ctl w);
  match r with
  | Waits m => Ret (mc_control m, out ++ [mc_sent m], mc_world m)
  | _ => Abort
  end.

Definition serve_all (clients : list (list Z)) : outcome (control * list (list Z) * world assoc) :=
  foldl (fun st bytes => st ← st; serve bytes st) (Ret (sample_control, [], sample_world)) clients.

(** The warnings and the answers of a session of several clients, one after the other. *)
Definition observed (clients : list (list Z)) : outcome (list sev_message * list (list Z)) :=
  '(_, out, w) ← serve_all clients; Ret (w_stderr w, out).

Definition bin_request (opcode : Z) (ext key value : list Z) : list Z :=
  be_store 1 PROTOCOL_BINARY_REQ ++ be_store 1 opcode ++ be_store 2 (Z.of_nat (length key)) ++ be_store 1 (Z.of_nat (length ext)) ++ be_store 1 0
  ++ be_store 2 0 ++ be_store 4 (Z.of_nat (length ext + length key + length value)) ++ be_store 4 7 ++ be_store 8 0 ++ ext ++ key ++ value.

(** The two protocols do not go together.  One client sets a key through the binary protocol; a
    second one, through the text protocol, gets it, sets another key and gets that: both values are
    returned, and both verifications fail, although nobody has touched the memory of the server. *)
Theorem binary_set_spoils_text :
  exists first, observed [bin_request CMD_SET (replicate 8 0) (text "a") (text "x");
                          lines [text "get a"; text "set b 0 0 1"; text "y"; text "get b"]] =
    Ret ([VerificationFailed; VerificationFailed],
         [first; lines [text "VALUE a 0 1"; text "x"; text "END"; text "STORED"; text "VALUE b 0 1"; text "y"; text "END"]]).
Proof. eexists. vm_compute. reflexivity. Qed.

(** An unknown command of the binary protocol takes bytes of the next one.  When an unknown
    command has no key, it is answered and so are the two commands after it; with a key of three bytes
    the connection is closed without a single answer: the key has been read already, but its length
    counts among the bytes that are swallowed. *)
Theorem unknown_command_loses_connection :
  let noop := bin_request CMD_NOOP [] [] [] in
  (exists answers, observed [bin_request 0x50 [] [] [] ++ noop ++ noop] = Ret ([], [answers]) /\ length answers = (24 + 15 + 24 + 24)%nat) /\
  observed [bin_request 0x50 [] (text "abc") [] ++ noop ++ noop] = Ret ([], [[]]).
Proof. split; [eexists; split; vm_compute; reflexivity|vm_compute; reflexivity]. Qed.

(** A flush in the future takes back the flush before it.  After a flush_all a get misses; but
    when a flush_all with a delay follows, the item that was flushed is returned again, since there
    is only one time of the last flush. *)
Theorem delayed_flush_revives :
  observed [lines [text "set a 0 0 1"; text "x"; text "flush_all"; text "get a"]] =
    Ret ([], [lines [text "STORED"; text "OK"; text "END"]]) /\
  observed [lines [text "set a 0 0 1"; text "x"; text "flush_all"; text "flush_all 100"; text "get a"]] =
    Ret ([], [lines [text "STORED"; text "OK"; text "OK"; text "VALUE a 0 1"; text "x"; text "END"]]).
Proof. split; vm_compute; reflexivity. Qed.

(** A session of the text protocol from bytes to bytes: pipelined commands and a quit, after which
    nothing is read. *)
Example text_session :
  observed [lines [text "set a 5 0 3"; text "abc"; text "incr a 1"; text "append a 0 0 1"; text "d"; text "get a b"; text "quit"; text "get a"]] =
    Ret ([VerificationFailed], [lines [text "STORED"; text "CLIENT_ERROR cannot increment or decrement non-numeric value"; text "STORED";
      text "VALUE a 5 4"; text "abcd"; text "END"]]).
Proof. vm_compute. reflexivity. Qed.

(** The binary protocol from bytes to bytes: what is set is what a get returns, with its CAS number. *)
Example binary_session :
  exists stored, observed [bin_request CMD_SET ([0; 0; 0; 9] ++ replicate 4 0) (text "a") (text "xyz") ++ bin_request CMD_GETK [] (text "a") []] =
    Ret ([], [stored ++ response_header CMD_GETK 0 4 1 8 [0; 0; 0; 7] 1 ++ [0; 0; 0; 9] ++ text "a" ++ text "xyz"]) /\ length stored = 24%nat.
Proof. exists (response_header CMD_SET 0 0 0 0 [0; 0; 0; 7] 1). split; vm_compute; reflexivity. Qed.

(** One event after the other on the same connection. *)
Fixpoint events (n : nat) (m : machine assoc) : outcome (machine assoc) :=
  match n with
  | O => Ret m
  | S n => r ← drive_machine first_byte false no_sasl no_users 20 sample_env m; match r with Waits m => events n m | _ => Abort end
  end.

(** A client that hangs up in the middle of a value: the value before came in two pieces, and the
    socket took the answer in two parts; of the second item nothing is left. *)
Example broken_session :
  exists m1 m2, events 1 (on_io (mkIo (bytes_reply (text "set a 0 0 3" ++ crlf ++ text "ab") ++ bytes_reply (text "c" ++ crlf ++ text "set b 0 0 9" ++ crlf ++ text "xy") ++ [RdEof])
                                      [SdTook 3; SdTook 100] [] [] false) (new_machine [] sample_control sample_world)) = Ret m1 /\
    mc_closed m1 = false /\ mc_sent m1 = text "STORED" ++ crlf /\
    events 1 m1 = Ret m2 /\ mc_closed m2 = true /\ mc_sent m2 = mc_sent m1 /\ size (heap (w_store (mc_world m2))) = 1%nat.
Proof. eexists _, _. split; [vm_compute; reflexivity|]. split; [reflexivity|]. split; [reflexivity|]. split; [vm_compute; reflexivity|]. by vm_compute. Qed.

(** The connection of [read_world], with the value "x" and its line break still to come. *)
Definition reading_machine (reads : list read_reply) : machine assoc :=
  mkMachine sample_control new_bin ascii_prot None (mkRbuffer [] READ_BUFFER_SIZE false) 0 (mkIo reads [] [] [] false)
    (upd_conn (with_nread NREAD_SET 3) read_world) [] 0 0 false.

Lemma reading_sample reads : reading (reading_machine reads) 1 sample_item [] 3.
Proof. split; reflexivity. Qed.

Lemma value_arrives_witness :
  (exists k m1, reads_next (reading_machine [RdBytes 120 [13]; RdBytes 10 [7]]) [7] m1 /\
    forall fuel, drive_loop first_byte false no_sasl no_users (k + fuel) sample_env (reading_machine [RdBytes 120 [13]; RdBytes 10 [7]]) =
      m2 ← whole_value first_byte false no_sasl sample_env [120; 13; 10] m1; drive_loop first_byte false no_sasl no_users fuel sample_env m2) /\
  (exists m1, drive_loop first_byte false no_sasl no_users 3 sample_env (reading_machine [RdBytes 120 [13]; RdEof]) = Ret (Waits m1) /\
    mc_closed m1 = true /\ store_rep first_byte (w_store (mc_world m1)) ∅ (fun _ => []) (fun _ => 0)).
Proof.
  assert (forall reads, store_rep first_byte (w_store (mc_world (reading_machine reads))) ∅ (fun _ => []) (fun q => 0 + conn_refs (w_conn (mc_world (reading_machine reads))) q)) as R.
  { intros reads. eapply store_rep_refs; [exact loaded_store_rep|]. intros q. unfold conn_refs, held_by, sample_refs, set_refs. cbn.
    destruct (decide (q = 1%positive)) as [->|Hq]; [reflexivity|]. by rewrite !bool_decide_false by congruence. }
  split.
  - destruct (value_arrives first_byte false no_sasl no_users sample_env (reading_machine [RdBytes 120 [13]; RdBytes 10 [7]]) 1 sample_item [] 3
      [(120, [13]); (10, [7])] [] ∅ (fun _ => []) (fun _ => 0) (reading_sample _)) as [H _]; [lia|reflexivity|reflexivity|reflexivity|apply R|done|].
    destruct H as (k & m1 & _ & H1 & H2); [cbn; lia|]. exists k, m1. split; [exact H1|exact H2].
  - destruct (value_arrives first_byte false no_sasl no_users sample_env (reading_machine [RdBytes 120 [13]; RdEof]) 1 sample_item [] 3
      [(120, [13])] [RdEof] ∅ (fun _ => []) (fun _ => 0) (reading_sample _)) as [_ H]; [lia|reflexivity|reflexivity|reflexivity|apply R|done|].
    destruct H as (m1 & H1 & H2 & _ & H4); [cbn; lia|]. exists m1. split; [exact (H1 0%nat)|]. split; [exact H2|exact H4].
Defined.
