(* ===== verification/Crc32c.v ===== *)
(** * CRC-32C (src/memcached/crc32c.c)

    The checksum of the external storage.  The file has four implementations of it: a software one
    for each byte order, which takes eight bytes at a time through tables, one for the crc32
    instruction of x86 processors, which runs three checksums side by side and joins them through
    tables made by squaring matrices over GF(2), and one for the instructions of arm64.  [buf] is the memory from the
    buffer on, [addr] its address and [len] the number of bytes; a read beyond the memory is
    undefined.  The instructions of the processors are parameters.  The last section is the
    reference: the checksum bit by bit. *)

From S2P Require Import Prelude.

Definition POLY : Z := 0x82f63b78.

(** [~x] of a 32-bit word. *)
Definition not32 (x : Z) : Z := Z.lxor x 0xffffffff.

(** ** Matrices over GF(2): 32 words each *)

(** The loop [while (vec)]; a word has at most 32 bits. *)
Fixpoint gf2_times_loop (fuel : nat) (mat : list Z) (vec sum : Z) : outcome Z :=
  if vec =? 0 then Ret sum else
  match fuel with
  | O => Ub
  | S fuel =>
      sum ← (if Z.odd vec then x ← deref (mat !! 0%nat); Ret (Z.lxor sum x) else Ret sum);
      gf2_times_loop fuel (drop 1 mat) (Z.shiftr vec 1) sum
  end.

Definition gf2_matrix_times (mat : list Z) (vec : Z) : outcome Z := gf2_times_loop 32 mat vec 0.

Definition gf2_matrix_square (mat : list Z) : outcome (list Z) :=
  mapM (fun n => x ← deref (mat !! n); gf2_matrix_times mat x) (seq 0 32).

(** The operator for one zero bit. *)
Definition zero_bit_op : list Z := POLY :: map (fun n => Z.shiftl 1 (Z.of_nat n)) (seq 0 31).

(** The loop [do ... while (len)]: [odd] is the operator so far, [len] has at most 64 bits. *)
Fixpoint zeros_op_loop (fuel : nat) (odd : list Z) (len : Z) : outcome (list Z) :=
  match fuel with
  | O => Ub
  | S fuel =>
      even ← gf2_matrix_square odd;
      let len := Z.shiftr len 1 in
      if len =? 0 then Ret even else
      odd ← gf2_matrix_square even;
      let len := Z.shiftr len 1 in
      if len =? 0 then Ret odd else zeros_op_loop fuel odd len
  end.

Definition crc32c_zeros_op (len : Z) : outcome (list Z) :=
  even ← gf2_matrix_square zero_bit_op;
  odd ← gf2_matrix_square even;
  zeros_op_loop 33 odd len.

(** Four tables of 256 words. *)
Definition crc32c_zeros (len : Z) : outcome (list (list Z)) :=
  op ← crc32c_zeros_op len;
  mapM (fun k => mapM (fun n => gf2_matrix_times op (u32 (Z.shiftl (Z.of_nat n) (8 * Z.of_nat k)))) (seq 0 256)) (seq 0 4).

(** [tables[k][n]]. *)
Definition entry (tables : list (list Z)) (k : nat) (n : Z) : outcome Z :=
  t ← deref (tables !! k); deref (t !! Z.to_nat n).

Definition crc32c_shift (zeros : list (list Z)) (crc : Z) : outcome Z :=
  a ← entry zeros 0 (Z.land crc 0xff);
  b ← entry zeros 1 (Z.land (Z.shiftr crc 8) 0xff);
  c ← entry zeros 2 (Z.land (Z.shiftr crc 16) 0xff);
  d ← entry zeros 3 (Z.shiftr crc 24);
  Ret (Z.lxor (Z.lxor (Z.lxor a b) c) d).

Definition LONG : nat := 8192.
Definition SHORT : nat := 256.

(** ** The instructions of the processors *)

(** One byte, and eight bytes of memory: the new checksum. *)
Class CrcUnit := {
  crc_byte_unit : Z -> Z -> Z;
  crc_word_unit : Z -> list Z -> Z
}.

(** How many bytes there are up to an address that is a multiple of eight: the turns of
    [while (len && (next & 7) != 0)]. *)
Fixpoint leading (addr len : nat) : nat :=
  match len with
  | O => 0
  | S len => if (addr mod 8 =? 0)%nat then 0 else S (leading (S addr) len)
  end.

Section Hardware.
Context {unit_ops : CrcUnit}.

(** [n] times the instruction for a byte, from offset [i] on. *)
Fixpoint unit_bytes (buf : list Z) (i n : nat) (crc : Z) : outcome Z :=
  match n with
  | O => Ret crc
  | S n => b ← deref (buf !! i); unit_bytes buf (S i) n (crc_byte_unit crc b)
  end.

(** The instruction for eight bytes at offset [i]. *)
Definition unit_word (buf : list Z) (i : nat) (crc : Z) : outcome Z :=
  bs ← read_bytes (drop i buf) 8; Ret (crc_word_unit crc bs).

Fixpoint unit_words (buf : list Z) (i n : nat) (crc : Z) : outcome Z :=
  match n with
  | O => Ret crc
  | S n => crc ← unit_word buf i crc; unit_words buf (i + 8) n crc
  end.

(** Three checksums at a distance of [size] bytes; [n] turns. *)
Fixpoint unit_three (buf : list Z) (size i n : nat) (s : Z * Z * Z) : outcome (Z * Z * Z) :=
  match n with
  | O => Ret s
  | S n =>
      let '(crc0, crc1, crc2) := s in
      crc0 ← unit_word buf i crc0;
      crc1 ← unit_word buf (i + size) crc1;
      crc2 ← unit_word buf (i + 2 * size) crc2;
      unit_three buf size (i + 8) n (crc0, crc1, crc2)
  end.

(** The loop [while (len >= size * 3)]; the result is the rest of the length, the offset and the
    checksum. *)
Fixpoint three_way (fuel : nat) (zeros : list (list Z)) (buf : list Z) (size i len : nat) (crc0 : Z)
    : outcome (nat * nat * Z) :=
  if (len <? size * 3)%nat then Ret (i, len, crc0) else
  match fuel with
  | O => Ub
  | S fuel =>
      '(crc0, crc1, crc2) ← unit_three buf size i (size / 8) (crc0, 0, 0);
      x ← crc32c_shift zeros crc0;
      let crc0 := Z.lxor x crc1 in
      x ← crc32c_shift zeros crc0;
      let crc0 := Z.lxor x crc2 in
      three_way fuel zeros buf size (i + 3 * size) (len - size * 3) crc0
  end.

(** x86-64. *)
Definition crc32c_hw (crc : Z) (addr : nat) (buf : list Z) (len : nat) : outcome Z :=
  crc32c_long ← crc32c_zeros (Z.of_nat LONG);
  crc32c_short ← crc32c_zeros (Z.of_nat SHORT);
  let lead := leading addr len in
  crc0 ← unit_bytes buf 0 lead (not32 crc);
  '(i, len, crc0) ← three_way len crc32c_long buf LONG lead (len - lead) crc0;
  '(i, len, crc0) ← three_way len crc32c_short buf SHORT i len crc0;
  crc0 ← unit_words buf i (len / 8) crc0;
  crc0 ← unit_bytes buf (i + 8 * (len / 8)) (len mod 8) crc0;
  Ret (not32 crc0).

(** arm64: [while (len >= 64)] with eight instructions, then [while (len >= 8)]. *)
Definition crc32c_hw_arm (crc : Z) (addr : nat) (buf : list Z) (len : nat) : outcome Z :=
  let lead := leading addr len in
  crc ← unit_bytes buf 0 lead (not32 crc);
  let len := (len - lead)%nat in
  crc ← unit_words buf lead (8 * (len / 64)) crc;
  crc ← unit_words buf (lead + 64 * (len / 64)) ((len mod 64) / 8) crc;
  crc ← unit_bytes buf (lead + 64 * (len / 64) + 8 * ((len mod 64) / 8)) ((len mod 64) mod 8) crc;
  Ret (not32 crc).

End Hardware.

(** ** The tables of the software *)

(** [crc = crc & 1 ? (crc >> 1) ^ POLY : crc >> 1]. *)
Definition crc_bit (crc : Z) : Z :=
  if Z.odd crc then Z.lxor (Z.shiftr crc 1) POLY else Z.shiftr crc 1.

Definition table_bits (n : Z) : Z :=
  crc_bit (crc_bit (crc_bit (crc_bit (crc_bit (crc_bit (crc_bit (crc_bit n))))))).

(** The first table, [crc32c_table_little[0]] and [crc32c_table_big_byte]. *)
Definition crc32c_table_byte : list Z := map table_bits (map Z.of_nat (seq 0 256)).

(** [crc = table[0][crc & 0xff] ^ (crc >> 8)]. *)
Definition table_step (table : list Z) (crc : Z) : outcome Z :=
  x ← deref (table !! Z.to_nat (Z.land crc 0xff)); Ret (Z.lxor x (Z.shiftr crc 8)).

(** The table number [k] from the first one, by [k] steps. *)
Fixpoint table_steps (table : list Z) (k : nat) (crc : Z) : outcome Z :=
  match k with O => Ret crc | S k => crc ← table_step table crc; table_steps table k crc end.

Definition crc32c_init_sw_little : outcome (list (list Z)) :=
  mapM (fun k => mapM (table_steps crc32c_table_byte k) crc32c_table_byte) (seq 0 8).

Definition swap (x : Z) : Z :=
  let x := Z.lor (Z.land (u64 (Z.shiftl x 8)) 0xff00ff00ff00ff00) (Z.land (Z.shiftr x 8) 0xff00ff00ff00ff) in
  let x := Z.lor (Z.land (u64 (Z.shiftl x 16)) 0xffff0000ffff0000) (Z.land (Z.shiftr x 16) 0xffff0000ffff) in
  Z.lor (u64 (Z.shiftl x 32)) (Z.shiftr x 32).

Definition crc32c_init_sw_big : outcome (list (list Z)) :=
  mapM (fun k => mapM (fun n => crc ← table_steps crc32c_table_byte k n; Ret (swap crc)) crc32c_table_byte) (seq 0 8).

(** ** The software *)

(** [n] times [crc = table[(crc ^ *next++) & 0xff] ^ (crc >> 8)]. *)
Fixpoint table_bytes (table buf : list Z) (i n : nat) (crc : Z) : outcome Z :=
  match n with
  | O => Ret crc
  | S n =>
      b ← deref (buf !! i);
      x ← deref (table !! Z.to_nat (Z.land (Z.lxor crc b) 0xff));
      table_bytes table buf (S i) n (Z.lxor x (Z.shiftr crc 8))
  end.

(** The eight lookups of a word: byte [j] of it in the table that [order] gives for it. *)
Definition table_word (tables : list (list Z)) (order : nat -> nat) (crcw : Z) : outcome Z :=
  let byte j := Z.land (Z.shiftr crcw (8 * Z.of_nat j)) 0xff in
  x0 ← entry tables (order 0%nat) (byte 0%nat);
  x1 ← entry tables (order 1%nat) (byte 1%nat);
  x2 ← entry tables (order 2%nat) (byte 2%nat);
  x3 ← entry tables (order 3%nat) (byte 3%nat);
  x4 ← entry tables (order 4%nat) (byte 4%nat);
  x5 ← entry tables (order 5%nat) (byte 5%nat);
  x6 ← entry tables (order 6%nat) (byte 6%nat);
  x7 ← entry tables (order 7%nat) (Z.shiftr crcw 56);
  Ret (Z.lxor (Z.lxor (Z.lxor (Z.lxor (Z.lxor (Z.lxor (Z.lxor x0 x1) x2) x3) x4) x5) x6) x7).

(** [n] words from offset [i] on; [ld] reads one. *)
Fixpoint table_words (tables : list (list Z)) (order : nat -> nat) (ld : list Z -> Z) (buf : list Z) (i n : nat) (crcw : Z)
    : outcome Z :=
  match n with
  | O => Ret crcw
  | S n =>
      bs ← read_bytes (drop i buf) 8;
      crcw ← table_word tables order (Z.lxor crcw (ld bs));
      table_words tables order ld buf (i + 8) n crcw
  end.

Definition crc32c_sw_little (crc : Z) (addr : nat) (buf : list Z) (len : nat) : outcome Z :=
  tables ← crc32c_init_sw_little;
  first ← deref (tables !! 0%nat);
  let lead := leading addr len in
  crc ← table_bytes first buf 0 lead (not32 crc);
  let len := (len - lead)%nat in
  crc ← (if (8 <=? len)%nat then
           crcw ← table_words tables (fun j => 7 - j)%nat le_load buf lead (len / 8) crc; Ret (u32 crcw)
         else Ret crc);
  crc ← table_bytes first buf (lead + 8 * (len / 8)) (len mod 8) crc;
  Ret (not32 crc).

Definition crc32c_sw_big (crc : Z) (addr : nat) (buf : list Z) (len : nat) : outcome Z :=
  tables ← crc32c_init_sw_big;
  let lead := leading addr len in
  crc ← table_bytes crc32c_table_byte buf 0 lead (not32 crc);
  let len := (len - lead)%nat in
  crc ← (if (8 <=? len)%nat then
           crcw ← table_words tables (fun j => j) be_load buf lead (len / 8) (swap crc); Ret (u32 (swap crcw))
         else Ret crc);
  crc ← table_bytes crc32c_table_byte buf (lead + 8 * (len / 8)) (len mod 8) crc;
  Ret (not32 crc).

Definition crc32c_sw (little : bool) : Z -> nat -> list Z -> nat -> outcome Z :=
  if little then crc32c_sw_little else crc32c_sw_big.

(** ** The reference *)

(** A byte goes into the low bits of the register, which is then shifted out bit by bit. *)
Definition crc_byte (crc b : Z) : Z := Nat.iter 8 crc_bit (Z.lxor crc b).

Definition crc_bytes (crc : Z) (bs : list Z) : Z := fold_left crc_byte bs crc.

Definition crc32c_spec (crc : Z) (bs : list Z) : Z := not32 (crc_bytes (not32 crc) bs).

(** What the manuals of the processors say of their instructions. *)
Class CrcUnitLaws (unit_ops : CrcUnit) : Prop := {
  crc_byte_unit_ok : forall crc b, 0 <= crc < 2 ^ 32 -> byte_ok b -> crc_byte_unit crc b = crc_byte crc b;
  crc_word_unit_ok : forall crc bs, 0 <= crc < 2 ^ 32 -> bytes_ok bs -> length bs = 8%nat -> crc_word_unit crc bs = crc_bytes crc bs
}.
