(* ===== verification/Crc32cFacts.v ===== *)
(** * CRC-32C: the four implementations compute the reference

    A turn of the register is linear over GF(2), so that a word, a table or a matrix can be taken
    apart into bits and bytes and the parts shifted separately. *)

From S2P Require Import Prelude.
From S2P Require Import Crc32c.

Local Open Scope c_scope.

(** ** The register *)

Definition shift_bits (n : nat) : Z -> Z := Nat.iter n crc_bit.

Lemma crc_bit_alt a : crc_bit a = Z.shiftr a 1 ⊕ (if Z.odd a then POLY else 0).
Proof. unfold crc_bit. destruct (Z.odd a); [done|]. by rewrite Z.lxor_0_r. Qed.

Lemma crc_bit_xor a b : crc_bit (a ⊕ b) = crc_bit a ⊕ crc_bit b.
Proof.
  rewrite !crc_bit_alt, Z.shiftr_lxor, <- !Z.bit0_odd, Z.lxor_spec.
  destruct (Z.testbit a 0), (Z.testbit b 0); simpl; xor_solve.
Qed.

Lemma crc_bit_shiftl y : crc_bit (Z.shiftl y 1) = y.
Proof.
  rewrite crc_bit_alt, <- Z.bit0_odd, Z.shiftl_spec_low, Z.lxor_0_r by lia.
  rewrite Z.shiftr_shiftl_l by lia. apply Z.shiftl_0_r.
Qed.

Lemma crc_bit_range a : 0 <= a < 2 ^ 32 -> 0 <= crc_bit a < 2 ^ 32.
Proof.
  intros Ha. rewrite crc_bit_alt. apply lxor_bound; [lia| |destruct (Z.odd a); unfold POLY; lia].
  rewrite Z.shiftr_div_pow2 by lia. zdm.
Qed.

Lemma shift_bits_add m n a : shift_bits m (shift_bits n a) = shift_bits (m + n) a.
Proof. unfold shift_bits. by rewrite Nat.iter_add. Qed.

Lemma shift_bits_xor n a b : shift_bits n (a ⊕ b) = shift_bits n a ⊕ shift_bits n b.
Proof. induction n as [|n IH]; [done|]. simpl. by rewrite IH, crc_bit_xor. Qed.

Lemma shift_bits_0 n : shift_bits n 0 = 0.
Proof. induction n as [|n IH]; [done|]. simpl. by rewrite IH. Qed.

Lemma shift_bits_range n a : 0 <= a < 2 ^ 32 -> 0 <= shift_bits n a < 2 ^ 32.
Proof. intros Ha. induction n as [|n IH]; [done|]. by apply crc_bit_range. Qed.

(** Zeros that come in from below are shifted out first. *)
Lemma shift_bits_shiftl n y : shift_bits n (Z.shiftl y (Z.of_nat n)) = y.
Proof.
  induction n as [|n IH]; [apply Z.shiftl_0_r|]. unfold shift_bits. rewrite Nat.iter_succ_r.
  replace (Z.of_nat (S n)) with (Z.of_nat n + 1) by lia. rewrite <- Z.shiftl_shiftl, crc_bit_shiftl by lia. exact IH.
Qed.

Lemma shift_bits_high m n y : (n <= m)%nat -> shift_bits m (Z.shiftl y (Z.of_nat n)) = shift_bits (m - n) y.
Proof. intros H. replace m with ((m - n) + n)%nat at 1 by lia. by rewrite <- shift_bits_add, shift_bits_shiftl. Qed.

(** A word is its low bits and the rest. *)
Lemma low_split n c : 0 <= n -> Z.land c (Z.ones n) ⊕ Z.shiftl (Z.shiftr c n) n = c.
Proof.
  intros Hn. apply Z.bits_inj'. intros i Hi. rewrite Z.lxor_spec, Z.land_spec, Z.shiftl_spec by lia.
  destruct (Z.lt_ge_cases i n).
  - rewrite Z.ones_spec_low, (Z.testbit_neg_r _ (i - n)), andb_true_r, xorb_false_r by lia. done.
  - rewrite Z.ones_spec_high, Z.shiftr_spec, andb_false_r, xorb_false_l by lia. f_equal. lia.
Qed.

Lemma low_byte_split c : Z.land c 255 ⊕ Z.shiftl (Z.shiftr c 8) 8 = c.
Proof. by apply (low_split 8). Qed.

Lemma shift_bits_byte c : shift_bits 8 (Z.land c 255) ⊕ Z.shiftr c 8 = shift_bits 8 c.
Proof.
  rewrite <- (low_byte_split c) at 3. rewrite shift_bits_xor. f_equal. symmetry. apply (shift_bits_shiftl 8).
Qed.

(** ** Bytes *)

Lemma le_load_cons b bs : byte_ok b -> le_load (b :: bs) = b ⊕ Z.shiftl (le_load bs) 8.
Proof.
  intros Hb. change (le_load (b :: bs)) with (b + 256 * le_load bs). rewrite Z.shiftl_mul_pow2 by lia.
  rewrite (Z.mul_comm 256). symmetry. rewrite <- Z.add_nocarry_lxor; [done|].
  apply Z.bits_inj'. intros i Hi. rewrite Z.land_spec, Z.bits_0. destruct (Z.lt_ge_cases i 8).
  - rewrite Z.mul_pow2_bits_low by lia. apply andb_false_r.
  - by rewrite (testbit_above b 8 i) by (unfold byte_ok in Hb; lia).
Qed.

(** The checksum of some bytes shifts them, as one number, through the register. *)
Lemma crc_bytes_load c bs : bytes_ok bs -> crc_bytes c bs = shift_bits (8 * length bs) (c ⊕ le_load bs).
Proof.
  intros Hb. revert c. induction Hb as [|b bs Hb Hbs IH]; intros c; [cbn; by rewrite Z.lxor_0_r|].
  change (crc_bytes c (b :: bs)) with (crc_bytes (shift_bits 8 (c ⊕ b)) bs). rewrite IH.
  replace (8 * length (b :: bs))%nat with (8 * length bs + 8)%nat by (cbn [length]; lia).
  rewrite le_load_cons, <- shift_bits_add by done. f_equal. rewrite <- Z.lxor_assoc, (shift_bits_xor 8 (c ⊕ b)). f_equal.
  symmetry. apply (shift_bits_shiftl 8).
Qed.

Lemma crc_bytes_app c bs bs' : crc_bytes c (bs ++ bs') = crc_bytes (crc_bytes c bs) bs'.
Proof. apply fold_left_app. Qed.

Lemma crc_byte_range c b : 0 <= c < 2 ^ 32 -> byte_ok b -> 0 <= crc_byte c b < 2 ^ 32.
Proof. intros Hc Hb. apply (shift_bits_range 8). apply lxor_bound; unfold byte_ok in Hb; lia. Qed.

Lemma crc_bytes_range c bs : 0 <= c < 2 ^ 32 -> bytes_ok bs -> 0 <= crc_bytes c bs < 2 ^ 32.
Proof. intros Hc Hb. revert c Hc. induction Hb as [|b bs Hb _ IH]; intros c Hc; [done|]. apply IH. by apply crc_byte_range. Qed.

(** Two checksums are joined by shifting the first one by as many zeros as the second part has. *)
Lemma crc_bytes_join c bs : bytes_ok bs -> crc_bytes c bs = shift_bits (8 * length bs) c ⊕ crc_bytes 0 bs.
Proof. intros Hb. by rewrite !crc_bytes_load, shift_bits_xor, Z.lxor_0_l by done. Qed.

Lemma not32_range c : 0 <= c < 2 ^ 32 -> 0 <= not32 c < 2 ^ 32.
Proof. intros Hc. apply lxor_bound; lia. Qed.

Lemma not32_twice c : not32 (not32 c) = c.
Proof. apply lxor_twice. Qed.

Lemma slice_cat {A} (l : list A) i n m : slice l i n ++ slice l (i + n) m = slice l i (n + m).
Proof. unfold slice. rewrite <- drop_drop. apply take_take_drop. Qed.

Lemma slice_cat0 {A} (l : list A) n m : slice l 0 n ++ slice l n m = slice l 0 (n + m).
Proof. exact (slice_cat l 0 n m). Qed.

(** ** Tables *)

Lemma table_byte_lookup n : 0 <= n < 256 -> crc32c_table_byte !! Z.to_nat n = Some (shift_bits 8 n).
Proof.
  intros Hn. unfold crc32c_table_byte. rewrite !list_lookup_fmap, lookup_seq_lt by lia. simpl. f_equal.
  by rewrite Z2Nat.id by lia.
Qed.

Lemma land_255 c : 0 <= Z.land c 255 < 256.
Proof. change 255 with (Z.ones 8). rewrite Z.land_ones by lia. apply Z.mod_pos_bound. lia. Qed.

Lemma table_step_ok c : table_step crc32c_table_byte c = Ret (shift_bits 8 c).
Proof. unfold table_step. rewrite table_byte_lookup by apply land_255. cbn [deref]. by rewrite ret_bind, shift_bits_byte. Qed.

Lemma table_steps_ok k c : table_steps crc32c_table_byte k c = Ret (shift_bits (8 * k) c).
Proof.
  revert c. induction k as [|k IH]; intros c; [done|]. cbn [table_steps]. rewrite table_step_ok, ret_bind, IH, shift_bits_add.
  do 2 f_equal. lia.
Qed.

(** The tables as lists of functions. *)
Definition tabulate (m n : nat) (f : nat -> Z -> Z) : list (list Z) :=
  map (fun k => map (fun i => f k (Z.of_nat i)) (seq 0 n)) (seq 0 m).

Lemma entry_tabulate m f k i : (k < m)%nat -> 0 <= i < 256 -> entry (tabulate m 256 f) k i = Ret (f k i).
Proof.
  intros Hk Hi. unfold entry, tabulate. rewrite list_lookup_fmap, lookup_seq_lt by lia. cbn [fmap option_fmap option_map deref].
  rewrite ret_bind, list_lookup_fmap, lookup_seq_lt by lia. cbn [fmap option_fmap option_map deref]. do 2 f_equal. lia.
Qed.

Lemma table_byte_map : crc32c_table_byte = map (fun i => shift_bits 8 (Z.of_nat i)) (seq 0 256).
Proof. unfold crc32c_table_byte. rewrite map_map. done. Qed.

Lemma mapM_table (f : nat -> Z -> outcome Z) (g : nat -> Z -> Z) :
  (forall k n, f k n = Ret (g k n)) ->
  mapM (fun k => mapM (f k) crc32c_table_byte) (seq 0 8) = Ret (tabulate 8 256 (fun k i => g k (shift_bits 8 i))).
Proof.
  intros Hf. apply mapM_ret. intros k _. rewrite (mapM_ret _ (g k)) by (intros; apply Hf).
  by rewrite table_byte_map, map_map.
Qed.

Lemma init_little_ok : crc32c_init_sw_little = Ret (tabulate 8 256 (fun k i => shift_bits (8 * k) (shift_bits 8 i))).
Proof. apply (mapM_table (table_steps crc32c_table_byte) (fun k => shift_bits (8 * k))). intros. apply table_steps_ok. Qed.

Lemma init_big_ok : crc32c_init_sw_big = Ret (tabulate 8 256 (fun k i => swap (shift_bits (8 * k) (shift_bits 8 i)))).
Proof.
  assert (forall k n, (crc ← table_steps crc32c_table_byte k n; Ret (swap crc)) = Ret (swap (shift_bits (8 * k) n))) as H
    by (intros; by rewrite table_steps_ok).
  exact (mapM_table (fun k n => crc ← table_steps crc32c_table_byte k n; Ret (swap crc)) (fun k n => swap (shift_bits (8 * k) n)) H).
Qed.

(** ** Bytes and words through the tables *)

Lemma table_bytes_ok buf i n crc : (i + n <= length buf)%nat -> bytes_ok buf ->
  table_bytes crc32c_table_byte buf i n crc = Ret (crc_bytes crc (slice buf i n)).
Proof.
  revert i crc. induction n as [|n IH]; intros i crc Hi Hb; [done|]. cbn [table_bytes].
  destruct (lookup_lt_is_Some_2 buf i ltac:(lia)) as [b Eb]. rewrite Eb. cbn [deref]. rewrite ret_bind.
  rewrite table_byte_lookup by apply land_255. cbn [deref]. rewrite ret_bind, IH by (done || lia). f_equal.
  unfold slice. rewrite (drop_S _ _ _ Eb). cbn [take]. change (crc_bytes crc (b :: take n (drop (S i) buf))) with (crc_bytes (shift_bits 8 (crc ⊕ b)) (take n (drop (S i) buf))).
  f_equal. rewrite <- (shift_bits_byte (crc ⊕ b)). f_equal.
  rewrite Z.shiftr_lxor, (Z.shiftr_div_pow2 b), Z.div_small, Z.lxor_0_r; [done| |lia].
  exact (Forall_lookup_1 _ _ _ _ Hb Eb).
Qed.

(** A 64-bit word is its eight bytes. *)
Definition byte_of (w : Z) (j : nat) : Z := Z.land (Z.shiftr w (8 * Z.of_nat j)) 255.

Lemma word_bytes w : 0 <= w < 2 ^ 64 ->
  w = byte_of w 0 ⊕ Z.shiftl (byte_of w 1) 8 ⊕ Z.shiftl (byte_of w 2) 16 ⊕ Z.shiftl (byte_of w 3) 24
      ⊕ Z.shiftl (byte_of w 4) 32 ⊕ Z.shiftl (byte_of w 5) 40 ⊕ Z.shiftl (byte_of w 6) 48 ⊕ Z.shiftl (Z.shiftr w 56) 56.
Proof.
  intros Hw.
  assert (forall j, Z.shiftr w (8 * Z.of_nat j) = byte_of w j ⊕ Z.shiftl (Z.shiftr w (8 * Z.of_nat (S j))) 8) as Hs.
  { intros j. rewrite <- (low_byte_split (Z.shiftr w (8 * Z.of_nat j))) at 1. unfold byte_of. f_equal. f_equal.
    rewrite Z.shiftr_shiftr by lia. f_equal. lia. }
  rewrite <- (Z.shiftr_0_r w) at 1. change 0 with (8 * Z.of_nat 0) at 1.
  do 7 (rewrite Hs at 1; rewrite ?Z.shiftl_lxor, ?Z.shiftl_shiftl by lia). change (8 * Z.of_nat 7) with 56. simpl Z.add.
  by rewrite !Z.lxor_assoc.
Qed.

Lemma word_top w : 0 <= w < 2 ^ 64 -> 0 <= Z.shiftr w 56 < 256.
Proof. intros Hw. rewrite Z.shiftr_div_pow2 by lia. zdm. Qed.

Lemma byte_of_range w j : 0 <= byte_of w j < 256.
Proof. apply land_255. Qed.

(** Eight lookups of a word shift it by 64 bits. *)
Lemma shift_word w : 0 <= w < 2 ^ 64 ->
  shift_bits 64 w =
  shift_bits 64 (byte_of w 0) ⊕ shift_bits 56 (byte_of w 1) ⊕ shift_bits 48 (byte_of w 2) ⊕ shift_bits 40 (byte_of w 3)
  ⊕ shift_bits 32 (byte_of w 4) ⊕ shift_bits 24 (byte_of w 5) ⊕ shift_bits 16 (byte_of w 6) ⊕ shift_bits 8 (Z.shiftr w 56).
Proof.
  intros Hw. rewrite (word_bytes w Hw) at 1. rewrite !shift_bits_xor.
  repeat apply (f_equal2 Z.lxor); try reflexivity;
    [apply (shift_bits_high 64 8)|apply (shift_bits_high 64 16)|apply (shift_bits_high 64 24)|apply (shift_bits_high 64 32)
    |apply (shift_bits_high 64 40)|apply (shift_bits_high 64 48)|apply (shift_bits_high 64 56)]; lia.
Qed.

Lemma table_word_little w : 0 <= w < 2 ^ 64 ->
  table_word (tabulate 8 256 (fun k i => shift_bits (8 * k) (shift_bits 8 i))) (fun j => 7 - j)%nat w = Ret (shift_bits 64 w).
Proof.
  intros Hw. unfold table_word. rewrite !entry_tabulate, !ret_bind by (apply land_255 || by apply word_top || lia).
  by rewrite shift_word, !shift_bits_add.
Qed.

(** ** Swapped words *)

(** A property of the 64 positions of a bit. *)
Lemma position_forall (f : Z -> bool) : forallb f (map Z.of_nat (seq 0 64)) = true -> forall i, 0 <= i < 64 -> f i = true.
Proof.
  intros H i Hi. rewrite forallb_forall in H. apply H, in_map_iff. exists (Z.to_nat i). rewrite in_seq. lia.
Qed.

(** One stage of the swap: under the first mask a bit comes from [k] positions below, elsewhere from
    [k] positions above. *)
Definition moved (k m1 i : Z) : Z := if Z.testbit m1 i then i - k else i + k.

Lemma stage_bit k m1 m2 x i : 0 <= k -> 0 <= i < 64 ->
  forallb (fun i => Bool.eqb (Z.testbit m2 i) (negb (Z.testbit m1 i))) (map Z.of_nat (seq 0 64)) = true ->
  Z.testbit (Z.lor (Z.land (u64 (Z.shiftl x k)) m1) (Z.land (Z.shiftr x k) m2)) i = Z.testbit x (moved k m1 i).
Proof.
  intros Hk Hi Hm. unfold u64, moved.
  rewrite Z.lor_spec, !Z.land_spec, Z.mod_pow2_bits_low, Z.shiftl_spec, Z.shiftr_spec by lia.
  rewrite (proj1 (eqb_true_iff _ _) (position_forall _ Hm i Hi)).
  destruct (Z.testbit m1 i); simpl; by rewrite ?andb_true_r, ?andb_false_r, ?orb_false_r.
Qed.

Lemma stage_range k m1 m2 x : 0 <= m1 < 2 ^ 64 -> 0 <= m2 < 2 ^ 64 ->
  0 <= Z.lor (Z.land (u64 (Z.shiftl x k)) m1) (Z.land (Z.shiftr x k) m2) < 2 ^ 64.
Proof.
  intros H1 H2. rewrite (Z.land_comm _ m1), (Z.land_comm _ m2). apply lor_bound; [lia| |]; by apply land_bound.
Qed.

Lemma halves_bit x i : 0 <= x < 2 ^ 64 -> 0 <= i < 64 ->
  Z.testbit (Z.lor (u64 (Z.shiftl x 32)) (Z.shiftr x 32)) i = Z.testbit x (if i <? 32 then i + 32 else i - 32).
Proof.
  intros Hx Hi. unfold u64. rewrite Z.lor_spec, Z.mod_pow2_bits_low, Z.shiftl_spec, Z.shiftr_spec by lia. destruct (Z.ltb_spec i 32).
  - by rewrite (Z.testbit_neg_r _ (i - 32)) by lia.
  - rewrite (testbit_above x 64 (i + 32)), orb_false_r by lia. done.
Qed.

(** Where the bit of the swapped word comes from. *)
Definition swapped (i : Z) : Z :=
  moved 8 0xff00ff00ff00ff00 (moved 16 0xffff0000ffff0000 (if i <? 32 then i + 32 else i - 32)).

Lemma swap_bit x i : 0 <= i < 64 -> Z.testbit (swap x) i = Z.testbit x (8 * (7 - i / 8) + i mod 8).
Proof.
  intros Hi.
  assert (0 <= moved 16 0xffff0000ffff0000 (if i <? 32 then i + 32 else i - 32) < 64 /\ swapped i = 8 * (7 - i / 8) + i mod 8) as [Hr <-].
  { assert (((0 <=? moved 16 0xffff0000ffff0000 (if i <? 32 then i + 32 else i - 32)) &&
             (moved 16 0xffff0000ffff0000 (if i <? 32 then i + 32 else i - 32) <? 64)) && (swapped i =? 8 * (7 - i / 8) + i mod 8) = true) as H.
    { revert i Hi. refine (position_forall _ _). vm_compute. reflexivity. }
    lia. }
  unfold swap. rewrite halves_bit by (done || (apply stage_range; lia)).
  rewrite stage_bit by ((destruct (Z.ltb_spec i 32); lia) || (vm_compute; reflexivity)).
  rewrite stage_bit by (done || lia || (vm_compute; reflexivity)). done.
Qed.

Lemma swap_range x : 0 <= swap x < 2 ^ 64.
Proof.
  unfold swap. match goal with |- context [Z.shiftr ?y 32] => set (x1 := y) end.
  assert (0 <= x1 < 2 ^ 64) by (apply stage_range; lia). apply lor_bound; [lia|apply u64_range|].
  rewrite Z.shiftr_div_pow2 by lia. zdm.
Qed.

(** Equality of words with 64 bits. *)
Lemma words_equal x y : 0 <= x < 2 ^ 64 -> 0 <= y < 2 ^ 64 -> (forall i, 0 <= i < 64 -> Z.testbit x i = Z.testbit y i) -> x = y.
Proof.
  intros Hx Hy H. apply Z.bits_inj'. intros i Hi. destruct (Z.lt_ge_cases i 64); [by apply H|].
  by rewrite !(testbit_above _ 64 i) by lia.
Qed.

Lemma swap_xor x y : swap (x ⊕ y) = swap x ⊕ swap y.
Proof.
  apply words_equal; [apply swap_range|apply lxor_bound; [lia|apply swap_range..]|].
  intros i Hi. by rewrite Z.lxor_spec, !swap_bit, Z.lxor_spec by lia.
Qed.

Lemma swap_swap x : 0 <= x < 2 ^ 64 -> swap (swap x) = x.
Proof.
  intros Hx. apply words_equal; [apply swap_range|done|]. intros i Hi. rewrite swap_bit, swap_bit by zdm. f_equal. zdm.
Qed.

Lemma byte_of_swap x j : (j < 8)%nat -> byte_of (swap x) j = byte_of x (7 - j).
Proof.
  intros Hj. unfold byte_of. change 255 with (Z.ones 8). apply Z.bits_inj'. intros i Hi. rewrite !Z.land_spec, !Z.shiftr_spec by lia.
  destruct (Z.lt_ge_cases i 8).
  - rewrite swap_bit by lia. do 2 f_equal. zdm.
  - by rewrite Z.ones_spec_high, !andb_false_r by lia.
Qed.

(** ** Words in memory *)

Lemma le_load_range bs : bytes_ok bs -> 0 <= le_load bs < 256 ^ Z.of_nat (length bs).
Proof.
  intros Hb. induction Hb as [|b bs Hb _ IH]; [by split|]. change (le_load (b :: bs)) with (b + 256 * le_load bs).
  cbn [length]. rewrite Nat2Z.inj_succ, Z.pow_succ_r by lia. unfold byte_ok in Hb. lia.
Qed.

Lemma le_load_bit bs i : bytes_ok bs -> 0 <= i -> Z.testbit (le_load bs) i = Z.testbit (default 0 (bs !! Z.to_nat (i / 8))) (i mod 8).
Proof.
  intros Hb. revert i. induction Hb as [|b bs Hb _ IH]; intros i Hi; [by rewrite lookup_nil, !Z.bits_0|].
  rewrite le_load_cons, Z.lxor_spec, Z.shiftl_spec by done. destruct (Z.lt_ge_cases i 8).
  - rewrite (Z.testbit_neg_r _ (i - 8)), xorb_false_r, Z.div_small, Z.mod_small by lia. done.
  - rewrite (testbit_above b 8), xorb_false_l, IH by (unfold byte_ok in Hb; lia).
    replace (Z.to_nat (i / 8)) with (S (Z.to_nat ((i - 8) / 8))) by zdm. cbn [lookup list_lookup]. f_equal. zdm.
Qed.

Lemma be_load_reverse bs : be_load bs = le_load (reverse bs).
Proof.
  induction bs as [|b bs IH] using rev_ind; [done|]. rewrite reverse_app, reverse_singleton.
  change (le_load ([b] ++ reverse bs)) with (b + 256 * le_load (reverse bs)). rewrite <- IH. unfold be_load. rewrite foldl_app. simpl. lia.
Qed.

Lemma word_range bs : bytes_ok bs -> length bs = 8%nat -> 0 <= le_load bs < 2 ^ 64.
Proof. intros Hb Hl. pose proof (le_load_range bs Hb) as H. by rewrite Hl in H. Qed.

Lemma be_load_swap bs : bytes_ok bs -> length bs = 8%nat -> be_load bs = swap (le_load bs).
Proof.
  intros Hb Hl. rewrite be_load_reverse. assert (bytes_ok (reverse bs)) as Hr by by apply Forall_reverse.
  apply words_equal; [apply word_range; [done|by rewrite length_reverse]|apply swap_range|].
  intros i Hi. rewrite swap_bit, !le_load_bit by (done || zdm).
  rewrite reverse_lookup by (rewrite Hl; zdm). rewrite Hl. f_equal; [do 2 f_equal; zdm|zdm].
Qed.

(** ** Words through the tables *)

Lemma top_byte w : 0 <= w < 2 ^ 64 -> Z.shiftr w 56 = byte_of w 7.
Proof.
  intros Hw. unfold byte_of. change (8 * Z.of_nat 7) with 56. change 255 with (Z.ones 8).
  rewrite Z.land_ones, Z.mod_small by (done || by apply word_top). done.
Qed.

Lemma lxor8_rev a b c d e f g h : a ⊕ b ⊕ c ⊕ d ⊕ e ⊕ f ⊕ g ⊕ h = h ⊕ g ⊕ f ⊕ e ⊕ d ⊕ c ⊕ b ⊕ a.
Proof. xor_solve. Qed.

Lemma table_word_big w : 0 <= w < 2 ^ 64 ->
  table_word (tabulate 8 256 (fun k i => swap (shift_bits (8 * k) (shift_bits 8 i)))) (fun j => j) (swap w) = Ret (swap (shift_bits 64 w)).
Proof.
  intros Hw. unfold table_word. rewrite !entry_tabulate, !ret_bind by (apply land_255 || (apply word_top, swap_range) || lia).
  f_equal. rewrite shift_word, !swap_xor, !shift_bits_add by done. rewrite (top_byte (swap w)), (top_byte w) by (done || apply swap_range).
  fold (byte_of (swap w) 0) (byte_of (swap w) 1) (byte_of (swap w) 2) (byte_of (swap w) 3) (byte_of (swap w) 4) (byte_of (swap w) 5) (byte_of (swap w) 6).
  rewrite !byte_of_swap by lia. apply lxor8_rev.
Qed.

Lemma crc_word c bs : bytes_ok bs -> length bs = 8%nat -> shift_bits 64 (c ⊕ le_load bs) = crc_bytes c bs.
Proof. intros Hb Hl. by rewrite crc_bytes_load, Hl by done. Qed.

Lemma word_xor_range c bs : 0 <= c < 2 ^ 32 -> bytes_ok bs -> length bs = 8%nat -> 0 <= c ⊕ le_load bs < 2 ^ 64.
Proof. intros Hc Hb Hl. apply lxor_bound; [lia|lia|by apply word_range]. Qed.

Lemma slice_ok l i n : bytes_ok l -> bytes_ok (slice l i n).
Proof. intros H. by apply bytes_ok_take, bytes_ok_drop. Qed.

Lemma length_slice {A} (l : list A) i n : (i + n <= length l)%nat -> length (slice l i n) = n.
Proof. intros H. unfold slice. rewrite length_take, length_drop. lia. Qed.

Lemma read_slice l i n : (i + n <= length l)%nat -> read_bytes (drop i l) n = Ret (slice l i n).
Proof. intros H. apply read_bytes_ok. rewrite length_drop. lia. Qed.

(** Words one after the other: [enc] is how the register is kept between them. *)
Lemma table_words_ok tables order ld (enc : Z -> Z) buf i n c :
  (forall c bs, 0 <= c < 2 ^ 32 -> bytes_ok bs -> length bs = 8%nat ->
     table_word tables order (enc c ⊕ ld bs) = Ret (enc (crc_bytes c bs))) ->
  0 <= c < 2 ^ 32 -> bytes_ok buf -> (i + 8 * n <= length buf)%nat ->
  table_words tables order ld buf i n (enc c) = Ret (enc (crc_bytes c (slice buf i (8 * n)))).
Proof.
  intros Hw Hc Hb. revert i c Hc. induction n as [|n IH]; intros i c Hc Hi; [done|]. cbn [table_words].
  rewrite read_slice, ret_bind by lia. rewrite Hw, ret_bind by (done || (by apply slice_ok) || (apply length_slice; lia)).
  rewrite IH by (lia || (apply crc_bytes_range; [done|by apply slice_ok])). rewrite <- crc_bytes_app, slice_cat. do 4 f_equal. lia.
Qed.

Lemma table_words_little buf i n c : 0 <= c < 2 ^ 32 -> bytes_ok buf -> (i + 8 * n <= length buf)%nat ->
  table_words (tabulate 8 256 (fun k i => shift_bits (8 * k) (shift_bits 8 i))) (fun j => 7 - j)%nat le_load buf i n c
  = Ret (crc_bytes c (slice buf i (8 * n))).
Proof.
  apply (table_words_ok _ _ _ (fun c => c)). intros. by rewrite table_word_little, crc_word by (done || by apply word_xor_range).
Qed.

Lemma table_words_big buf i n c : 0 <= c < 2 ^ 32 -> bytes_ok buf -> (i + 8 * n <= length buf)%nat ->
  table_words (tabulate 8 256 (fun k i => swap (shift_bits (8 * k) (shift_bits 8 i)))) (fun j => j) be_load buf i n (swap c)
  = Ret (swap (crc_bytes c (slice buf i (8 * n)))).
Proof.
  apply table_words_ok. intros. rewrite be_load_swap, <- swap_xor by done.
  by rewrite table_word_big, crc_word by (done || by apply word_xor_range).
Qed.

(** ** The software *)

Lemma leading_le addr len : (leading addr len <= len)%nat.
Proof. revert addr. induction len as [|len IH]; intros addr; simpl; [lia|]. destruct (_ =? _)%nat; [lia|]. pose proof (IH (S addr)). lia. Qed.

(** The parts of the buffer, one after the other. *)
Lemma three_parts c buf len lead : (lead <= len)%nat ->
  crc_bytes (crc_bytes (crc_bytes c (slice buf 0 lead)) (slice buf lead (8 * ((len - lead) / 8))))
    (slice buf (lead + 8 * ((len - lead) / 8)) ((len - lead) mod 8)) = crc_bytes c (take len buf).
Proof.
  intros Hl. rewrite <- !crc_bytes_app, slice_cat. rewrite (slice_cat0 buf lead). f_equal. unfold slice.
  rewrite drop_0. f_equal. pose proof (Nat.div_mod (len - lead) 8). lia.
Qed.

Lemma crc_range c buf i n : 0 <= c < 2 ^ 32 -> bytes_ok buf -> 0 <= crc_bytes c (slice buf i n) < 2 ^ 32.
Proof. intros Hc Hb. apply crc_bytes_range; [done|by apply slice_ok]. Qed.

Section Software.
Context (crc : Z) (addr : nat) (buf : list Z) (len : nat).
Hypothesis crc_ok : 0 <= crc < 2 ^ 32.
Hypothesis buf_ok : bytes_ok buf.
Hypothesis len_ok : (len <= length buf)%nat.

Let lead := leading addr len.
Let rest := (len - lead)%nat.

Lemma rest_ok : (lead + 8 * (rest / 8) + rest mod 8 = len)%nat.
Proof. pose proof (Nat.div_mod rest 8). pose proof (leading_le addr len). unfold rest in *. fold lead in H0. lia. Qed.

Lemma sw_little_ok : crc32c_sw_little crc addr buf len = Ret (crc32c_spec crc (take len buf)).
Proof.
  unfold crc32c_sw_little. rewrite init_little_ok, ret_bind. fold lead rest. pose proof rest_ok as Hrest.
  assert (tabulate 8 256 (fun k i => shift_bits (8 * k) (shift_bits 8 i)) !! 0%nat = Some crc32c_table_byte) as -> by (by rewrite table_byte_map).
  cbn [deref]. rewrite ret_bind, table_bytes_ok, ret_bind by (done || lia).
  set (c1 := crc_bytes (not32 crc) (slice buf 0 lead)). assert (0 <= c1 < 2 ^ 32) as Hc1 by (apply crc_range; [by apply not32_range|done]).
  assert ((if (8 <=? rest)%nat
           then crcw ← table_words (tabulate 8 256 (fun k i => shift_bits (8 * k) (shift_bits 8 i))) (fun j => 7 - j)%nat le_load buf lead (rest / 8) c1;
                Ret (u32 crcw) else Ret c1) = Ret (crc_bytes c1 (slice buf lead (8 * (rest / 8))))) as ->.
  { destruct (Nat.leb_spec 8 rest); [|by rewrite Nat.div_small by lia].
    rewrite table_words_little, ret_bind, u32_id by (lia || done || by apply crc_range). done. }
  rewrite ret_bind, table_bytes_ok, ret_bind by (done || lia). unfold crc32c_spec. do 2 f_equal. apply three_parts, leading_le.
Qed.

Lemma sw_big_ok : crc32c_sw_big crc addr buf len = Ret (crc32c_spec crc (take len buf)).
Proof.
  unfold crc32c_sw_big. rewrite init_big_ok, ret_bind. fold lead rest. pose proof rest_ok as Hrest.
  rewrite table_bytes_ok, ret_bind by (done || lia).
  set (c1 := crc_bytes (not32 crc) (slice buf 0 lead)). assert (0 <= c1 < 2 ^ 32) as Hc1 by (apply crc_range; [by apply not32_range|done]).
  assert ((if (8 <=? rest)%nat
           then crcw ← table_words (tabulate 8 256 (fun k i => swap (shift_bits (8 * k) (shift_bits 8 i)))) (fun j => j) be_load buf lead (rest / 8) (swap c1);
                Ret (u32 (swap crcw)) else Ret c1) = Ret (crc_bytes c1 (slice buf lead (8 * (rest / 8))))) as ->.
  { destruct (Nat.leb_spec 8 rest); [|by rewrite Nat.div_small by lia].
    pose proof (crc_range c1 buf lead (8 * (rest / 8)) Hc1 buf_ok). rewrite table_words_big, ret_bind, swap_swap, u32_id by (lia || done). done. }
  rewrite ret_bind, table_bytes_ok, ret_bind by (done || lia). unfold crc32c_spec. do 2 f_equal. apply three_parts, leading_le.
Qed.
End Software.

(** ** Matrices *)

(** [mat] has the images of the powers of two under a linear map. *)
Definition represents (mat : list Z) (f : Z -> Z) : Prop :=
  length mat = 32%nat /\ forall i, (i < 32)%nat -> mat !! i = Some (f (Z.shiftl 1 (Z.of_nat i))).

Section Matrix.
Context (f : Z -> Z).
Hypothesis f_xor : forall a b, f (a ⊕ b) = f a ⊕ f b.
Hypothesis f_zero : f 0 = 0.

Lemma shiftl_bit0 v i : 0 <= i -> Z.shiftl v i = Z.shiftl (Z.shiftr v 1) (i + 1) ⊕ (if Z.odd v then Z.shiftl 1 i else 0).
Proof.
  intros Hi. rewrite Z.add_comm, <- (Z.shiftl_shiftl _ 1) by lia.
  replace (if Z.odd v then Z.shiftl 1 i else 0) with (Z.shiftl (Z.land v (Z.ones 1)) i).
  - by rewrite <- Z.shiftl_lxor, Z.lxor_comm, low_split by lia.
  - rewrite Z.land_ones, (Zmod_odd v : v mod 2 ^ 1 = _) by lia. destruct (Z.odd v); [done|apply Z.shiftl_0_l].
Qed.

Lemma times_loop_ok mat i v sum : represents mat f -> (i <= 32)%nat -> 0 <= v < 2 ^ Z.of_nat (32 - i) ->
  gf2_times_loop (32 - i) (drop i mat) v sum = Ret (sum ⊕ f (Z.shiftl v (Z.of_nat i))).
Proof.
  intros [Hl Hm] Hi. remember (32 - i)%nat as n eqn:Hn. revert i v sum Hi Hn. induction n as [|n IH]; intros i v sum Hi Hn Hv; cbn [gf2_times_loop].
  - assert (v = 0) as -> by (simpl in Hv; lia). by rewrite Z.shiftl_0_l, f_zero, Z.lxor_0_r.
  - destruct (Z.eqb_spec v 0) as [->|Hv0]; [by rewrite Z.shiftl_0_l, f_zero, Z.lxor_0_r|].
    rewrite lookup_drop, Nat.add_0_r, Hm, drop_drop by lia. cbn [deref]. rewrite ret_bind.
    pose proof (shiftl_bit0 v (Z.of_nat i) ltac:(lia)) as Ev.
    assert (0 <= Z.shiftr v 1 < 2 ^ Z.of_nat n) as Hv1.
    { rewrite Nat2Z.inj_succ, Z.pow_succ_r in Hv by lia. rewrite Z.shiftr_div_pow2 by lia. zdm. }
    replace (Z.of_nat i + 1) with (Z.of_nat (i + 1)) in Ev by lia. rewrite Ev, f_xor. destruct (Z.odd v); rewrite ret_bind, IH by lia; f_equal; rewrite ?f_zero; xor_solve.
Qed.

Lemma matrix_times_ok mat v : represents mat f -> 0 <= v < 2 ^ 32 -> gf2_matrix_times mat v = Ret (f v).
Proof.
  intros Hm Hv. pose proof (times_loop_ok mat 0 v 0 Hm ltac:(lia) Hv) as H. rewrite Z.lxor_0_l, Z.shiftl_0_r in H. exact H.
Qed.

Lemma matrix_square_ok mat : represents mat f -> (forall i, (i < 32)%nat -> 0 <= f (Z.shiftl 1 (Z.of_nat i)) < 2 ^ 32) ->
  exists mat', gf2_matrix_square mat = Ret mat' /\ represents mat' (fun v => f (f v)).
Proof.
  intros Hm Hr. exists (map (fun n => f (f (Z.shiftl 1 (Z.of_nat n)))) (seq 0 32)). split.
  - apply mapM_ret. intros n Hn%elem_of_seq. rewrite (proj2 Hm) by lia. cbn [deref]. rewrite ret_bind. apply matrix_times_ok; [done|]. apply Hr. lia.
  - split; [by rewrite length_fmap|]. intros i Hi. by rewrite list_lookup_fmap, lookup_seq_lt by lia.
Qed.
End Matrix.

Lemma represents_ext mat f g : (forall v, f v = g v) -> represents mat f -> represents mat g.
Proof. intros H [Hl Hm]. split; [done|]. intros i Hi. by rewrite Hm, H. Qed.

Lemma power_range i : (i < 32)%nat -> 0 <= Z.shiftl 1 (Z.of_nat i) < 2 ^ 32.
Proof. intros Hi. rewrite Z.shiftl_1_l. split; [apply Z.pow_nonneg; lia|]. apply Z.pow_lt_mono_r; lia. Qed.

(** Squaring the matrix of a shift doubles its distance. *)
Lemma square_shift mat n : represents mat (shift_bits n) ->
  exists mat', gf2_matrix_square mat = Ret mat' /\ represents mat' (shift_bits (2 * n)).
Proof.
  intros Hm. destruct (matrix_square_ok (shift_bits n) (shift_bits_xor n) (shift_bits_0 n) mat Hm) as (mat' & E & H).
  { intros i Hi. by apply shift_bits_range, power_range. }
  exists mat'. split; [done|]. revert H. apply represents_ext. intros v. rewrite shift_bits_add. f_equal. lia.
Qed.

Lemma zero_bit_ok : represents zero_bit_op (shift_bits 1).
Proof.
  split; [done|]. intros [|i] Hi; [done|]. change (zero_bit_op !! S i) with (map (fun n => Z.shiftl 1 (Z.of_nat n)) (seq 0 31) !! i). rewrite list_lookup_fmap, lookup_seq_lt by lia.
  cbn [fmap option_fmap option_map]. f_equal. symmetry. rewrite Nat2Z.inj_succ, <- Z.add_1_r, <- Z.shiftl_shiftl by lia. apply crc_bit_shiftl.
Qed.

Lemma log2_quarter len : 4 <= len -> Z.to_nat (Z.log2 len) = S (S (Z.to_nat (Z.log2 (Z.shiftr (Z.shiftr len 1) 1)))).
Proof.
  intros H. assert (0 < Z.shiftr (Z.shiftr len 1) 1) by (rewrite Z.shiftr_shiftr, Z.shiftr_div_pow2 by lia; zdm).
  rewrite !Z.log2_shiftr by (try (rewrite Z.shiftr_div_pow2 by lia; zdm); lia). pose proof (Z.log2_le_mono 4 len H) as H4. change (Z.log2 4) with 2 in H4. lia.
Qed.

Lemma zeros_op_loop_ok fuel odd n len : represents odd (shift_bits n) -> 0 <= len < 4 ^ Z.of_nat fuel -> (0 < fuel)%nat ->
  exists op, zeros_op_loop fuel odd len = Ret op /\ represents op (shift_bits (2 * n * 2 ^ Z.to_nat (Z.log2 len))).
Proof.
  revert odd n len. induction fuel as [|fuel IH]; intros odd n len Ho Hl Hf; [lia|]. cbn [zeros_op_loop].
  destruct (square_shift odd n Ho) as (even & -> & He). rewrite ret_bind.
  destruct (Z.eqb_spec (Z.shiftr len 1) 0) as [H1|H1].
  { exists even. split; [done|]. rewrite Z.shiftr_div_pow2 in H1 by lia. assert (len = 0 \/ len = 1) as [-> | ->] by zdm; simpl; by rewrite Nat.mul_1_r. }
  destruct (square_shift even _ He) as (odd2 & -> & Ho2). rewrite ret_bind.
  destruct (Z.eqb_spec (Z.shiftr (Z.shiftr len 1) 1) 0) as [H2|H2].
  { exists odd2. split; [done|]. rewrite Z.shiftr_shiftr, Z.shiftr_div_pow2 in H2 by lia. rewrite Z.shiftr_div_pow2 in H1 by lia.
    assert (len = 2 \/ len = 3) as [-> | ->] by (change (2 ^ (1 + 1)) with 4 in H2; change (2 ^ 1) with 2 in H1; zdm);
      (revert Ho2; apply represents_ext; intros v; f_equal; simpl; lia). }
  rewrite Z.shiftr_shiftr, Z.shiftr_div_pow2 in H2 by lia. change (2 ^ (1 + 1)) with 4 in H2. assert (4 <= len) as H4 by zdm.
  rewrite Nat2Z.inj_succ, Z.pow_succ_r in Hl by lia.
  destruct (IH odd2 (2 * (2 * n))%nat (Z.shiftr (Z.shiftr len 1) 1)) as (op & E & H); [done| | |].
  { rewrite Z.shiftr_shiftr, Z.shiftr_div_pow2 by lia. zdm. }
  { destruct fuel; [simpl in Hl; lia|lia]. }
  exists op. split; [done|]. revert H. apply represents_ext. intros v. f_equal. rewrite (log2_quarter len H4). rewrite !Nat.pow_succ_r'. lia.
Qed.

(** The operator for [len] zero bytes, [len] rounded down to a power of two. *)
Lemma zeros_op_ok len : 0 <= len < 2 ^ 64 ->
  exists op, crc32c_zeros_op len = Ret op /\ represents op (shift_bits (8 * 2 ^ Z.to_nat (Z.log2 len))).
Proof.
  intros Hl. unfold crc32c_zeros_op. destruct (square_shift _ _ zero_bit_ok) as (even & -> & He). rewrite ret_bind.
  destruct (square_shift _ _ He) as (odd & -> & Ho). rewrite ret_bind.
  apply (zeros_op_loop_ok 33 odd 4 len Ho); [lia|lia].
Qed.

(** The tables for a power of two. *)
Definition shift_tables (n : nat) : list (list Z) :=
  tabulate 4 256 (fun k i => shift_bits n (Z.shiftl i (8 * Z.of_nat k))).

Lemma zeros_ok k : (k < 64)%nat -> crc32c_zeros (2 ^ Z.of_nat k) = Ret (shift_tables (8 * 2 ^ k)).
Proof.
  intros Hk. unfold crc32c_zeros. destruct (zeros_op_ok (2 ^ Z.of_nat k)) as (op & -> & Hop).
  { split; [apply Z.pow_nonneg; lia|apply Z.pow_lt_mono_r; lia]. }
  rewrite Z.log2_pow2, Nat2Z.id in Hop by lia. rewrite ret_bind. apply mapM_ret. intros j Hj%elem_of_seq. apply mapM_ret. intros i Hi%elem_of_seq.
  assert (0 <= Z.shiftl (Z.of_nat i) (8 * Z.of_nat j) < 2 ^ 32) as Hr.
  { rewrite Z.shiftl_mul_pow2 by lia. assert (2 ^ (8 * Z.of_nat j) <= 2 ^ 24) by (apply Z.pow_le_mono_r; lia).
    assert (0 < 2 ^ (8 * Z.of_nat j)) by (apply Z.pow_pos_nonneg; lia). nia. }
  rewrite u32_id by done. apply (matrix_times_ok (shift_bits (8 * 2 ^ k))); [apply shift_bits_xor|apply shift_bits_0|done|done].
Qed.

Lemma word32_bytes w : 0 <= w < 2 ^ 32 ->
  w = byte_of w 0 ⊕ Z.shiftl (byte_of w 1) 8 ⊕ Z.shiftl (byte_of w 2) 16 ⊕ Z.shiftl (Z.shiftr w 24) 24.
Proof.
  intros Hw. pose proof (word_bytes w ltac:(lia)) as E.
  assert (forall j, 32 <= j -> Z.shiftr w j = 0) as Hz by (intros j Hj; apply Z.shiftr_eq_0; [lia|]; destruct (Z.eq_dec w 0) as [-> |]; [simpl; lia|]; apply Z.log2_lt_pow2; [lia|]; eapply Z.lt_le_trans; [apply Hw|apply Z.pow_le_mono_r; lia]).
  assert (byte_of w 3 = Z.shiftr w 24) as H3.
  { unfold byte_of. change (8 * Z.of_nat 3) with 24. change 255 with (Z.ones 8). rewrite Z.land_ones, Z.mod_small; [done| |done].
    rewrite Z.shiftr_div_pow2 by lia. zdm. }
  unfold byte_of in E at 5 6 7. rewrite !(Hz (_ * _)), (Hz 56), !Z.land_0_l, !Z.shiftl_0_l, !Z.lxor_0_r, H3 in E by lia. exact E.
Qed.

Lemma shift_tables_ok n w : 0 <= w < 2 ^ 32 -> crc32c_shift (shift_tables n) w = Ret (shift_bits n w).
Proof.
  intros Hw. unfold crc32c_shift, shift_tables.
  rewrite !entry_tabulate, !ret_bind by (apply land_255 || (rewrite Z.shiftr_div_pow2 by lia; zdm) || lia).
  f_equal. rewrite (word32_bytes w Hw) at 5. rewrite !shift_bits_xor. by rewrite Z.shiftl_0_r.
Qed.

Section HardwareFacts.
Context {unit_ops : CrcUnit} {unit_laws : CrcUnitLaws unit_ops}.
Context (buf : list Z).
Hypothesis buf_ok : bytes_ok buf.

Lemma unit_bytes_ok i n c : 0 <= c < 2 ^ 32 -> (i + n <= length buf)%nat -> unit_bytes buf i n c = Ret (crc_bytes c (slice buf i n)).
Proof.
  revert i c. induction n as [|n IH]; intros i c Hc Hi; [done|]. cbn [unit_bytes].
  destruct (lookup_lt_is_Some_2 buf i ltac:(lia)) as [b Eb]. rewrite Eb. cbn [deref]. rewrite ret_bind.
  assert (byte_ok b) as Hb by exact (Forall_lookup_1 _ _ _ _ buf_ok Eb).
  rewrite crc_byte_unit_ok, IH by (done || lia || by apply crc_byte_range). unfold slice. by rewrite (drop_S _ _ _ Eb).
Qed.

Lemma unit_word_ok i c : 0 <= c < 2 ^ 32 -> (i + 8 <= length buf)%nat -> unit_word buf i c = Ret (crc_bytes c (slice buf i 8)).
Proof.
  intros Hc Hi. unfold unit_word. rewrite read_slice, ret_bind by done. by rewrite crc_word_unit_ok by (done || (by apply slice_ok) || by apply length_slice).
Qed.

Lemma unit_words_ok i n c : 0 <= c < 2 ^ 32 -> (i + 8 * n <= length buf)%nat -> unit_words buf i n c = Ret (crc_bytes c (slice buf i (8 * n))).
Proof.
  revert i c. induction n as [|n IH]; intros i c Hc Hi; [done|]. cbn [unit_words]. rewrite unit_word_ok, ret_bind by (done || lia).
  rewrite IH by (lia || by apply crc_range). rewrite <- crc_bytes_app, slice_cat. do 3 f_equal. lia.
Qed.

Lemma unit_three_ok size i n c0 c1 c2 : 0 <= c0 < 2 ^ 32 -> 0 <= c1 < 2 ^ 32 -> 0 <= c2 < 2 ^ 32 -> (i + 2 * size + 8 * n <= length buf)%nat ->
  unit_three buf size i n (c0, c1, c2) =
  Ret (crc_bytes c0 (slice buf i (8 * n)), crc_bytes c1 (slice buf (i + size) (8 * n)), crc_bytes c2 (slice buf (i + 2 * size) (8 * n))).
Proof.
  revert i c0 c1 c2. induction n as [|n IH]; intros i c0 c1 c2 H0 H1 H2 Hi; [done|]. cbn [unit_three].
  rewrite !unit_word_ok, !ret_bind by (done || lia).
  rewrite IH by (lia || by apply crc_range). replace (i + 8 + size)%nat with (i + size + 8)%nat by lia.
  replace (i + 8 + 2 * size)%nat with (i + 2 * size + 8)%nat by lia. rewrite <- !crc_bytes_app, !slice_cat. by replace (8 + 8 * n)%nat with (8 * S n)%nat by lia.
Qed.

(** Three checksums of neighbouring blocks make the checksum of all of them. *)
Lemma three_way_ok fuel size i len c : (len <= fuel)%nat -> (0 < size)%nat -> (size mod 8 = 0)%nat -> 0 <= c < 2 ^ 32 -> (i + len <= length buf)%nat ->
  exists n, (n <= len)%nat /\ three_way fuel (shift_tables (8 * size)) buf size i len c = Ret (i + n, len - n, crc_bytes c (slice buf i n))%nat.
Proof.
  intros Hf Hs Hs8. revert i len c Hf. induction fuel as [|fuel IH]; intros i len c Hf Hc Hi; cbn [three_way];
    destruct (Nat.ltb_spec len (size * 3)); try lia.
  1, 2: exists 0%nat; rewrite Nat.add_0_r, Nat.sub_0_r; split; [lia|done].
  assert (8 * (size / 8) = size)%nat as Hsz by (pose proof (Nat.div_mod size 8); lia).
  rewrite unit_three_ok, ret_bind, Hsz by (done || lia). cbn beta iota.
  assert (forall a b, 0 <= a < 2 ^ 32 -> 0 <= b < 2 ^ 32 -> 0 <= a ⊕ b < 2 ^ 32) as Hx by (intros; apply lxor_bound; lia).
  assert (forall j, length (slice buf (i + j) size) = size \/ (i + j + size > length buf)%nat) as Hlen.
  { intros j. destruct (Nat.le_gt_cases (i + j + size) (length buf)); [left; by apply length_slice|right; lia]. }
  rewrite shift_tables_ok, ret_bind by (by apply crc_range).
  assert (shift_bits (8 * size) (crc_bytes c (slice buf i size)) ⊕ crc_bytes 0 (slice buf (i + size) size) = crc_bytes c (slice buf i (size + size))) as ->.
  { destruct (Hlen size) as [E|E]; [|lia]. rewrite <- slice_cat, crc_bytes_app, (crc_bytes_join (crc_bytes c _) (slice buf (i + size) size)), E by (by apply slice_ok). done. }
  rewrite shift_tables_ok, ret_bind by (by apply crc_range).
  assert (shift_bits (8 * size) (crc_bytes c (slice buf i (size + size))) ⊕ crc_bytes 0 (slice buf (i + 2 * size) size) = crc_bytes c (slice buf i (3 * size))) as ->.
  { destruct (Hlen (2 * size)%nat) as [E|E]; [|lia]. replace (3 * size)%nat with (2 * size + size)%nat by lia.
    rewrite <- (slice_cat buf i (2 * size)), crc_bytes_app, (crc_bytes_join (crc_bytes c _) (slice buf (i + 2 * size) size)), E by (by apply slice_ok). by replace (size + size)%nat with (2 * size)%nat by lia. }
  destruct (IH (i + 3 * size)%nat (len - size * 3)%nat (crc_bytes c (slice buf i (3 * size)))) as (n & Hn & E); [lia|by apply crc_range|lia|].
  exists (3 * size + n)%nat. split; [lia|]. rewrite E, <- crc_bytes_app, slice_cat. by rewrite Nat.add_assoc, (Nat.sub_add_distr len), (Nat.mul_comm 3).
Qed.

Context (crc : Z) (addr len : nat).
Hypothesis crc_ok : 0 <= crc < 2 ^ 32.
Hypothesis len_ok : (len <= length buf)%nat.

Lemma hw_ok : crc32c_hw crc addr buf len = Ret (crc32c_spec crc (take len buf)).
Proof.
  unfold crc32c_hw. rewrite (zeros_ok 13 ltac:(lia) : crc32c_zeros (Z.of_nat LONG) = _), ret_bind.
  rewrite (zeros_ok 8 ltac:(lia) : crc32c_zeros (Z.of_nat SHORT) = _), ret_bind.
  pose proof (leading_le addr len) as Hl. set (lead := leading addr len) in *.
  rewrite unit_bytes_ok, ret_bind by (lia || by apply not32_range).
  destruct (three_way_ok len LONG lead (len - lead) (crc_bytes (not32 crc) (slice buf 0 lead))) as (n1 & Hn1 & E1);
    [lia|by apply Nat.ltb_lt|done|apply crc_range; [by apply not32_range|done]|lia|].
  change (8 * 2 ^ 13)%nat with (8 * LONG)%nat. rewrite E1, ret_bind. cbn beta iota. rewrite <- crc_bytes_app. rewrite (slice_cat0 buf lead n1).
  destruct (three_way_ok (len - lead - n1) SHORT (lead + n1) (len - lead - n1) (crc_bytes (not32 crc) (slice buf 0 (lead + n1)))) as (n2 & Hn2 & E2);
    [lia|by apply Nat.ltb_lt|done|apply crc_range; [by apply not32_range|done]|lia|].
  change (8 * 2 ^ 8)%nat with (8 * SHORT)%nat. rewrite E2, ret_bind. cbn beta iota. rewrite <- crc_bytes_app. rewrite (slice_cat0 buf (lead + n1) n2).
  set (i := (lead + n1 + n2)%nat). set (rest := (len - lead - n1 - n2)%nat). pose proof (Nat.div_mod rest 8) as Hd.
  rewrite unit_words_ok, ret_bind by (lia || (apply crc_range; [by apply not32_range|done])).
  rewrite unit_bytes_ok, ret_bind by (lia || (do 2 (apply crc_range; [|done]); by apply not32_range)).
  rewrite <- !crc_bytes_app, slice_cat. rewrite (slice_cat0 buf i). unfold crc32c_spec, slice. rewrite drop_0. do 4 f_equal. lia.
Qed.

Lemma hw_arm_ok : crc32c_hw_arm crc addr buf len = Ret (crc32c_spec crc (take len buf)).
Proof.
  unfold crc32c_hw_arm. pose proof (leading_le addr len) as Hl. set (lead := leading addr len) in *. set (rest := (len - lead)%nat).
  pose proof (Nat.div_mod rest 64) as Hd. pose proof (Nat.div_mod (rest mod 64) 8) as Hd8.
  rewrite unit_bytes_ok, ret_bind by (lia || by apply not32_range).
  rewrite unit_words_ok, ret_bind by (lia || (apply crc_range; [by apply not32_range|done])).
  rewrite unit_words_ok, ret_bind by (lia || (do 2 (apply crc_range; [|done]); by apply not32_range)).
  rewrite unit_bytes_ok, ret_bind by (lia || (do 3 (apply crc_range; [|done]); by apply not32_range)).
  replace (8 * (8 * (rest / 64)))%nat with (64 * (rest / 64))%nat by lia.
  rewrite <- !crc_bytes_app, !slice_cat. unfold crc32c_spec, slice. rewrite drop_0. do 4 f_equal. lia.
Qed.
End HardwareFacts.

(** ** The theorem *)

(** C25: all implementations of the checksum agree with the reference.  On every buffer, at every
    alignment and for every length, the tables of the software for both byte orders, the three-way
    code for x86 and the code for arm64 return the checksum that is defined bit by bit and read
    nothing beyond the buffer; and a checksum can be continued: the checksum of the first part,
    handed in with the second part, gives that of both. *)
Theorem crc32c_correct {unit_ops : CrcUnit} {unit_laws : CrcUnitLaws unit_ops} (little : bool) (crc : Z) (addr : nat) (buf : list Z) (len : nat)
    (Hcrc : 0 <= crc < 2 ^ 32) (Hbuf : bytes_ok buf) (Hlen : (len <= length buf)%nat) :
  crc32c_sw little crc addr buf len = Ret (crc32c_spec crc (take len buf)) /\
  crc32c_hw crc addr buf len = Ret (crc32c_spec crc (take len buf)) /\
  crc32c_hw_arm crc addr buf len = Ret (crc32c_spec crc (take len buf)) /\
  (forall k, (k <= len)%nat -> crc32c_spec (crc32c_spec crc (take k buf)) (slice buf k (len - k)) = crc32c_spec crc (take len buf)).
Proof.
  split; [|split; [by apply hw_ok|split; [by apply hw_arm_ok|]]].
  - destruct little; [by apply sw_little_ok|by apply sw_big_ok].
  - intros k Hk. unfold crc32c_spec. rewrite not32_twice, <- crc_bytes_app. change (take k buf) with (slice buf 0 k).
    rewrite (slice_cat0 buf k). unfold slice. rewrite drop_0. do 3 f_equal. lia.
Qed.

(** The instructions, as the manuals define them. *)
#[local] Instance manual_unit : CrcUnit := { crc_byte_unit := crc_byte; crc_word_unit := crc_bytes }.

#[local] Instance manual_unit_laws : CrcUnitLaws manual_unit.
Proof. by split. Qed.

Definition nine_digits : list Z := [49; 50; 51; 52; 53; 54; 55; 56; 57].

Lemma nine_digits_ok : bytes_ok nine_digits.
Proof. unfold nine_digits, bytes_ok, byte_ok. repeat constructor; lia. Qed.

Lemma crc32c_correct_witness :
  crc32c_spec 0 nine_digits = 0xe3069283 /\ crc32c_sw true 0 5 nine_digits 9 = Ret 0xe3069283 /\
  crc32c_sw false 0 5 nine_digits 9 = Ret 0xe3069283 /\ crc32c_hw 0 5 nine_digits 9 = Ret 0xe3069283.
Proof.
  assert (crc32c_spec 0 (take 9 nine_digits) = 0xe3069283) as E by (vm_compute; reflexivity).
  destruct (crc32c_correct true 0 5 nine_digits 9 ltac:(lia) nine_digits_ok ltac:(simpl; lia)) as (H1 & H2 & _).
  destruct (crc32c_correct false 0 5 nine_digits 9 ltac:(lia) nine_digits_ok ltac:(simpl; lia)) as (H3 & _).
  rewrite E in H1, H2, H3. exact (conj E (conj H1 (conj H3 H2))).
Defined.
