(* ===== verification/AuthFacts.v ===== *)
(** * The file of users: what is written is what is checked *)

From S2P Require Import Prelude.
From S2P Require Import Util.
From S2P Require Import Util.
From S2P Require Import Authfile.
From S2P Require Import Conn.
From Stdlib Require Ascii String.
Import String.StringSyntax.

Local Open Scope string_scope.
Local Open Scope Z_scope.

(** ** A file *)

(** A line without its newline. *)
Definition line_of (p : list Z * list Z) : list Z := p.1 ++ 58 :: p.2.

(** The lines of some users; the last one has a newline if [tail] says so. *)
Fixpoint auth_file (tail : bool) (ps : list (list Z * list Z)) : list Z :=
  match ps with
  | [] => []
  | p :: ps => line_of p ++ (match ps with [] => if tail then [10] else [] | _ => [10] end) ++ auth_file tail ps
  end.

Record entry_ok (p : list Z * list Z) : Prop := {
  eo_user : Forall (fun c => c <> 0 /\ c <> 58 /\ c <> 10) p.1;
  eo_pass : Forall (fun c => c <> 0 /\ c <> 10 /\ c <> 13) p.2;
  eo_short : (length (line_of p) <= 254)%nat
}.

(** The lines behind each other, as the buffer keeps them, and where the entries are. *)
Definition packed (ps : list (list Z * list Z)) : list Z := concat (map line_of ps).

Fixpoint entries_of (off : nat) (ps : list (list Z * list Z)) : list auth_t :=
  match ps with
  | [] => []
  | p :: ps => mkAuth off (length p.1) (off + length p.1 + 1) (Some (length p.2)) :: entries_of (off + length (line_of p)) ps
  end.

Lemma length_line p : length (line_of p) = (length p.1 + 1 + length p.2)%nat.
Proof. unfold line_of. rewrite length_app. simpl. lia. Qed.

Lemma packed_snoc ps p : packed (ps ++ [p]) = packed ps ++ line_of p.
Proof. unfold packed. rewrite map_app, concat_app. simpl. by rewrite app_nil_r. Qed.

Lemma entries_snoc ps p off : entries_of off (ps ++ [p]) =
  entries_of off ps ++ [mkAuth (off + length (packed ps)) (length p.1) (off + length (packed ps) + length p.1 + 1) (Some (length p.2))].
Proof.
  revert off. induction ps as [|q ps IH]; intros off; simpl; [by rewrite Nat.add_0_r|]. f_equal. rewrite IH. unfold packed. simpl.
  rewrite length_app. by replace (off + length (line_of q) + length (concat (map line_of ps)))%nat
    with (off + (length (line_of q) + length (concat (map line_of ps))))%nat by lia.
Qed.

Lemma length_entries off ps : length (entries_of off ps) = length ps.
Proof. revert off. induction ps as [|p ps IH]; intros off; simpl; [done|]. by rewrite IH. Qed.

(** ** Scanning a line *)

Lemma at_drop (data : list Z) n c l : drop n data = c :: l -> data !! n = Some c.
Proof. intros E. pose proof (lookup_drop data n 0) as H. rewrite E, Nat.add_0_r in H. by rewrite <- H. Qed.

Lemma drop_next (data : list Z) n c l : drop n data = c :: l -> drop (S n) data = l.
Proof. intros E. rewrite <- Nat.add_1_r, <- drop_drop, E. done. Qed.

Lemma scan_user us k x cur data l : Forall (fun c => c <> 0 /\ c <> 58 /\ c <> 10) us -> (length us < k)%nat ->
  drop (cur + x) data = us ++ 58 :: l ->
  scan_entry k x cur data None = scan_entry (k - length us - 1) (x + length us + 1) cur data (Some (x + length us)%nat).
Proof.
  intros Hu. revert k x. induction Hu as [|c us (H0 & H58 & _) _ IH]; intros k x Hk E; destruct k as [|k]; simpl in Hk; try lia; cbn [scan_entry].
  - rewrite (at_drop _ _ _ _ E). cbn [deref]. rewrite ret_bind. simpl. rewrite Nat.sub_0_r, Nat.add_0_r. by replace (x + 1)%nat with (S x) by lia.
  - rewrite (at_drop _ _ _ _ E). cbn [deref]. rewrite ret_bind. rewrite (proj2 (Z.eqb_neq c 0)), (proj2 (Z.eqb_neq c 58)) by done.
    rewrite IH; [|lia|rewrite Nat.add_succ_r; exact (drop_next _ _ _ _ E)].
    cbn [length]. by replace (x + S (length us))%nat with (S x + length us)%nat by lia.
Qed.

Lemma scan_pass ps k x cur data u c l : Forall (fun c => c <> 0 /\ c <> 10 /\ c <> 13) ps -> (length ps < k)%nat ->
  (c = 10 \/ c = 0) -> drop (cur + x) data = ps ++ c :: l ->
  scan_entry k x cur data (Some u) = Ret (Some (u, Some (x + length ps - (u + 1))%nat), (x + length ps)%nat).
Proof.
  intros Hp. revert k x. induction Hp as [|b ps (H0 & H10 & H13) _ IH]; intros k x Hk Hc E; destruct k as [|k]; simpl in Hk; try lia; cbn [scan_entry].
  - rewrite (at_drop _ _ _ _ E). cbn [deref]. rewrite ret_bind, Nat.add_0_r. by destruct Hc as [-> | ->].
  - rewrite (at_drop _ _ _ _ E). cbn [deref]. rewrite ret_bind.
    rewrite (proj2 (Z.eqb_neq b 10)), (proj2 (Z.eqb_neq b 13)), (proj2 (Z.eqb_neq b 0)) by done. cbn [orb].
    rewrite IH; [|lia|done|rewrite Nat.add_succ_r; exact (drop_next _ _ _ _ E)].
    cbn [length]. by replace (x + S (length ps))%nat with (S x + length ps)%nat by lia.
Qed.

Lemma scan_line_ok p pre c l : entry_ok p -> (c = 10 \/ c = 0) ->
  scan_entry MAX_ENTRY_LEN 0 (length pre) (pre ++ line_of p ++ c :: l) None =
  Ret (Some (length p.1, Some (length p.2)), length (line_of p)).
Proof.
  intros Hp Hc. pose proof (eo_short _ Hp) as Hs. rewrite length_line in Hs |- *.
  assert (drop (length pre + 0) (pre ++ line_of p ++ c :: l) = p.1 ++ 58 :: p.2 ++ c :: l) as E.
  { rewrite Nat.add_0_r, drop_app_length. unfold line_of. by rewrite <- app_assoc. }
  unfold MAX_ENTRY_LEN. rewrite (scan_user p.1 256 0 _ _ _ (eo_user _ Hp) ltac:(lia) E).
  rewrite (scan_pass p.2 _ _ _ _ _ c l (eo_pass _ Hp)); [|lia|done|].
  - by replace (0 + length p.1 + 1 + length p.2 - (0 + length p.1 + 1))%nat with (length p.2) by lia.
  - replace (length pre + (0 + length p.1 + 1))%nat with (length pre + 0 + (length p.1 + 1))%nat by lia.
    rewrite <- drop_drop, E. rewrite (cons_middle 58), app_assoc, drop_app_length'; [done|]. rewrite length_app. simpl. lia.
Qed.

(** ** Reading the lines *)

Lemma take_line_all l n rest : Forall (fun c => c <> 10) l -> (length l < n)%nat -> take_line n (l ++ 10 :: rest) = l ++ [10].
Proof.
  intros Hl. revert n. induction Hl as [|c l Hc _ IH]; intros [|n] Hn; simpl in Hn; try lia; cbn [take_line app].
  - done.
  - rewrite (proj2 (Z.eqb_neq c 10)) by done. by rewrite IH by lia.
Qed.

Lemma take_line_short l n : Forall (fun c => c <> 10) l -> take_line n l = take n l.
Proof.
  intros Hl. revert n. induction Hl as [|c l Hc _ IH]; intros [|n]; cbn [take_line take]; try done.
  rewrite (proj2 (Z.eqb_neq c 10)) by done. by rewrite IH.
Qed.

Lemma take_line_cut l n rest : Forall (fun c => c <> 10) l -> (n <= length l)%nat -> take_line n (l ++ rest) = take n l.
Proof.
  intros Hl. revert n. induction Hl as [|c l Hc _ IH]; intros [|n] Hn; simpl in Hn; try lia; cbn [take_line take app]; try done.
  rewrite (proj2 (Z.eqb_neq c 10)) by done. by rewrite IH by lia.
Qed.

Lemma line_no_newline p : entry_ok p -> Forall (fun c => c <> 10) (line_of p).
Proof.
  intros [Hu Hp _]. apply Forall_app. split; [eapply Forall_impl; [|exact Hu]; simpl; tauto|].
  constructor; [done|]. eapply Forall_impl; [|exact Hp]. simpl. tauto.
Qed.

(** One turn of the loop: a line is read with its newline or, when it is the last, without. *)
Lemma fgets_line p pre junk nl n rest : entry_ok p -> (length (line_of p) + length nl < n)%nat -> (length (line_of p) + 2 <= length junk)%nat ->
  (nl = [10] \/ nl = [] /\ (rest = [] \/ n = S (length (line_of p)))) ->
  exists c junk', fgets (Some (pre ++ junk)) (length pre) n (line_of p ++ nl ++ rest) =
    Ret (true, rest, Some (pre ++ line_of p ++ c :: junk')) /\ c = (match nl with [] => 0 | _ => 10 end) /\
    length (line_of p ++ c :: junk') = length junk.
Proof.
  intros Hp Hn Hj Hnl. assert (n >= 2)%nat as Hn2 by (rewrite length_line in Hn; lia). destruct n as [|[|n]]; try lia. cbn [fgets].
  destruct (line_of p ++ nl ++ rest) as [|b bs] eqn:Ebs; [apply (f_equal length) in Ebs; rewrite !length_app, length_line in Ebs; simpl in Ebs; lia|].
  rewrite <- Ebs. clear b bs Ebs. pose proof (line_no_newline p Hp) as Hno.
  assert (take_line (S n) (line_of p ++ nl ++ rest) = line_of p ++ nl) as ->.
  { destruct Hnl as [-> |[-> [-> | Hcut]]].
    - apply (take_line_all (line_of p)); [done|simpl in Hn; lia].
    - rewrite !app_nil_r, take_line_short by done. apply take_ge. simpl in Hn. lia.
    - rewrite app_nil_r. simpl app. rewrite take_line_cut by (done || lia). apply take_ge. lia. }
  cbn [deref]. rewrite ret_bind. assert (nl = [10] \/ nl = []) as Hcase by tauto. clear Hnl Hn.
  rewrite write_bytes_ok, ret_bind by (rewrite !length_app; simpl; destruct Hcase as [-> | ->]; simpl; lia).
  rewrite splice_append, <- (app_assoc pre), (app_assoc (line_of p) nl rest), drop_app_length.
  destruct Hcase as [-> | ->].
  - exists 10, (0 :: drop (length (line_of p) + 2) junk). rewrite <- !app_assoc. simpl app. rewrite !length_app. simpl. split; [|split; [done|]].
    + by replace (length (line_of p) + 2)%nat with (length (line_of p) + 1 + 1)%nat by lia.
    + rewrite length_drop. lia.
  - exists 0, (drop (length (line_of p) + 1) junk). rewrite app_nil_r, <- !app_assoc. simpl app. rewrite !length_app. simpl. split; [done|split; [done|]].
    rewrite length_drop. lia.
Qed.

Lemma auth_file_cons tail p ps : exists nl, auth_file tail (p :: ps) = line_of p ++ nl ++ auth_file tail ps /\
  (nl = [10] \/ nl = [] /\ ps = [] /\ tail = false) /\ (ps <> [] -> nl = [10]) /\ (tail = true -> nl = [10]).
Proof.
  cbn [auth_file]. destruct ps as [|q ps], tail; eexists; (split; [reflexivity|]); split_and!; auto; done.
Qed.

Lemma fgets_eof data cur n : (2 <= n)%nat -> fgets data cur n [] = Ret (false, [], data).
Proof. destruct n as [|[|n]]; [lia|lia|done]. Qed.

(** A turn that reads the line of [p], which ends in [nl]. *)
Lemma load_turn ds p size nl rest junk f : entry_ok p -> (length ds + S f = 8)%nat ->
  (length (line_of p) + length nl < Nat.min (size - length (packed ds)) MAX_ENTRY_LEN)%nat ->
  (nl = [10] \/ nl = [] /\ (rest = [] \/ Nat.min (size - length (packed ds)) MAX_ENTRY_LEN = S (length (line_of p)))) ->
  (length (line_of p) + 2 <= length junk)%nat ->
  exists junk', length (packed (ds ++ [p]) ++ junk') = length (packed ds ++ junk) /\
    load_loop (S f) size (line_of p ++ nl ++ rest) (Some (packed ds ++ junk)) (length (packed ds)) (entries_of 0 ds) =
    if (match nl with [] => true | _ => false end) || (f =? 0)%nat
    then Ret (Some (Some (packed (ds ++ [p]) ++ junk'), entries_of 0 (ds ++ [p])))
    else load_loop f size rest (Some (packed (ds ++ [p]) ++ junk')) (length (packed (ds ++ [p]))) (entries_of 0 (ds ++ [p])).
Proof.
  intros Hp Hf Hn Hnl Hj. destruct (fgets_line p (packed ds) junk nl _ rest Hp Hn Hj Hnl) as (c & junk' & E & Hc & Hl).
  exists (c :: junk'). rewrite packed_snoc, <- app_assoc. split; [rewrite !length_app in *; simpl in *; lia|]. cbn [load_loop].
  rewrite E, ret_bind. cbn [negb deref]. rewrite ret_bind.
  rewrite scan_line_ok by (done || (destruct nl; [by right|by left])). rewrite ret_bind.
  assert (entries_of 0 ds ++ [mkAuth (length (packed ds)) (length p.1) (length (packed ds) + length p.1 + 1) (Some (length p.2))] = entries_of 0 (ds ++ [p])) as ->
    by (by rewrite entries_snoc).
  rewrite length_entries, length_app. cbn [length]. unfold MAX_ENTRIES.
  destruct (Nat.eqb_spec (length ds + 1) 8), (Nat.eqb_spec f 0); try lia; [by rewrite orb_true_r|]. rewrite orb_false_r.
  rewrite (at_drop _ _ c junk'). 2: { rewrite <- drop_drop, drop_app_length. apply drop_app_length. }
  cbn [deref]. rewrite ret_bind, length_app. destruct nl; rewrite Hc; done.
Qed.

(** The rest of the loop, after the lines [ds] have been read. *)
Lemma load_loop_ok tail ds ps size junk :
  Forall entry_ok ps -> (length ds < 8)%nat -> (ps = [] -> 2 <= length ds)%nat ->
  (ps <> [] -> 1 <= length ds \/ tail = true \/ 2 <= length ps)%nat ->
  size = (length (packed ds) + length ds + length (auth_file tail ps))%nat -> length (packed ds ++ junk) = (size + 1)%nat ->
  exists junk', load_loop (8 - length ds) size (auth_file tail ps) (Some (packed ds ++ junk)) (length (packed ds)) (entries_of 0 ds) =
    Ret (Some (Some (packed (ds ++ take (8 - length ds) ps) ++ junk'), entries_of 0 (ds ++ take (8 - length ds) ps))).
Proof.
  intros Hps. revert ds junk. induction Hps as [|p ps Hp Hps IH]; intros ds junk Hd He Hn Hsz Hj.
  - exists junk. rewrite take_nil, app_nil_r. specialize (He eq_refl). simpl in Hsz. destruct (8 - length ds)%nat eqn:E8; [lia|]. cbn [load_loop auth_file].
    by rewrite fgets_eof, ret_bind by (unfold MAX_ENTRY_LEN; lia).
  - clear He. specialize (Hn ltac:(done)). destruct (auth_file_cons tail p ps) as (nl & Ef & Hnl & Hmore & Htail). rewrite Ef in *.
    destruct (8 - length ds)%nat as [|f] eqn:E8; [lia|]. rewrite !length_app in Hsz, Hj. pose proof (eo_short _ Hp) as Hs. cbn [take].
    assert (ps <> [] -> 0 < length (auth_file tail ps))%nat as Hpos.
    { destruct ps as [|q ps]; [done|]. intros _. cbn [auth_file]. rewrite length_app, length_line. lia. }
    destruct (decide (ds = [] /\ ps = [])) as [[-> ->]|Hmany].
    + assert (tail = true) as -> by (destruct Hn as [Hn|[Hn|Hn]]; [simpl in Hn; lia|done|simpl in Hn; lia]). assert (nl = [10]) as -> by auto.
      cbn [length packed map concat auth_file app] in *.
      assert (Nat.min (size - length (packed [])) MAX_ENTRY_LEN = S (length (line_of p))) as Hmin by (unfold MAX_ENTRY_LEN; cbn [length packed map concat]; lia).
      destruct (load_turn [] p size [] [10] junk f) as (junk' & _ & E); [done|cbn [length]; lia|rewrite Hmin; cbn [length]; lia|right; split; [done|by right]|lia|].
      exists junk'. rewrite take_nil. exact E.
    + assert (ps = [] -> 1 <= length ds)%nat as Hone by (intros ->; destruct ds; [by destruct Hmany|simpl; lia]).
      destruct (load_turn ds p size nl (auth_file tail ps) junk f) as (junk' & Hl & E); [done|lia| | | |].
      { unfold MAX_ENTRY_LEN. destruct Hnl as [-> |(-> & -> & ->)]; cbn [length auth_file app] in *; [|specialize (Hone eq_refl); lia].
        destruct ps; [specialize (Hone eq_refl)|specialize (Hpos ltac:(done))]; cbn [length] in *; lia. }
      { destruct Hnl as [-> |(-> & -> & ->)]; [by left|right; split; [done|by left]]. }
      { destruct Hnl as [-> |(-> & -> & ->)]; cbn [length auth_file app] in *; [|specialize (Hone eq_refl); lia].
        destruct ps; [specialize (Hone eq_refl)|specialize (Hpos ltac:(done))]; cbn [length] in *; lia. }
      rewrite E. destruct nl as [|x nl]; cbn [orb].
      { exists junk'. destruct Hnl as [[=]|(_ & -> & _)]. by rewrite take_nil. }
      destruct (Nat.eqb_spec f 0) as [-> |Hf0]; [exists junk'; by rewrite take_0|].
      destruct (IH (ds ++ [p]) junk') as (junk'' & E'').
      * rewrite length_app. simpl. lia.
      * intros ->. specialize (Hone eq_refl). rewrite length_app. simpl. lia.
      * intros _. left. rewrite length_app. simpl. lia.
      * rewrite packed_snoc, !length_app. destruct Hnl as [[= -> ->]|([=] & _)]. cbn [length app] in Hsz, Hj |- *. lia.
      * rewrite Hl, !length_app. destruct Hnl as [[= -> ->]|([=] & _)]. cbn [length app] in Hsz, Hj |- *. lia.
      * exists junk''. rewrite length_app in E''. cbn [length] in E''. replace (8 - (length ds + 1))%nat with f in E'' by lia.
        rewrite <- app_assoc in E''. exact E''.
Qed.

(** ** Checking *)

Lemma same_part (l pre x post : list Z) : length l = length x -> safe_memcmp l (drop (length pre) (pre ++ x ++ post)) (length x) = Ret (bool_decide (l = x)).
Proof.
  intros Hl. rewrite drop_app_length, safe_memcmp_correct by (rewrite ?length_app; lia).
  rewrite take_app_length. rewrite take_ge by lia. done.
Qed.

Lemma check_entries_ok pre ps junk u p :
  check_entries (pre ++ packed ps ++ junk) (entries_of (length pre) ps) u p = Ret (bool_decide ((u, p) ∈ ps)).
Proof.
  revert pre. induction ps as [|q ps IH]; intros pre; [done|]. cbn [entries_of check_entries ulen plen user pass].
  assert (pre ++ packed (q :: ps) ++ junk = (pre ++ line_of q) ++ packed ps ++ junk) as Ed by (unfold packed; simpl; by rewrite <- !app_assoc).
  assert (check_entries (pre ++ packed (q :: ps) ++ junk) (entries_of (length pre + length (line_of q)) ps) u p = Ret (bool_decide ((u, p) ∈ ps))) as Hnext.
  { rewrite Ed, <- length_app. apply IH. }
  assert ((u, p) <> q -> Ret (bool_decide ((u, p) ∈ ps)) = Ret (bool_decide ((u, p) ∈ q :: ps))) as Hskip.
  { intros Hq. f_equal. apply bool_decide_ext. rewrite elem_of_cons. tauto. }
  destruct (Nat.eqb_spec (length u) (length q.1)) as [Eu|Eu]; cbn [negb]; [|rewrite Hnext; apply Hskip; intros E; subst q; done].
  cbn [deref]. rewrite ret_bind. destruct (Nat.eqb_spec (length p) (length q.2)) as [Ep|Ep]; cbn [negb]; [|rewrite Hnext; apply Hskip; intros E; subst q; done].
  assert (pre ++ packed (q :: ps) ++ junk = pre ++ q.1 ++ 58 :: q.2 ++ packed ps ++ junk) as E1.
  { rewrite Ed. unfold line_of. by rewrite <- !app_assoc. }
  rewrite E1 at 1. rewrite same_part, ret_bind by done. destruct (decide (u = q.1)) as [->|Hu]; [|rewrite bool_decide_false by done; cbn [negb]; rewrite Hnext; apply Hskip; intros E; subst q; done].
  rewrite bool_decide_true by done. cbn [negb].
  assert (pre ++ packed (q :: ps) ++ junk = (pre ++ q.1 ++ [58]) ++ q.2 ++ packed ps ++ junk) as E2 by (rewrite E1, <- !app_assoc; done).
  replace (length pre + length q.1 + 1)%nat with (length (pre ++ q.1 ++ [58])) by (rewrite !length_app; simpl; lia).
  rewrite E2 at 1. rewrite same_part, ret_bind by done. destruct (decide (p = q.2)) as [->|Hp].
  - rewrite bool_decide_true by done. cbn [negb]. f_equal. symmetry. apply bool_decide_true. destruct q. left.
  - rewrite bool_decide_false by done. cbn [negb]. rewrite Hnext. apply Hskip. intros E. apply Hp. by rewrite <- E.
Qed.

(** ** The theorems *)

(** C24: the file of users.  From a file with one line for each user, the first eight are loaded and
    the old ones forgotten: a user and a password are accepted if and only if they stand on one of
    these lines.  The last line may do without its newline, except when it is the only one. *)
Theorem authfile_correct (tail : bool) (ps : list (list Z * list Z)) (st : auth_state)
    (Hps : Forall entry_ok ps) (Hne : ps <> []) (Htail : tail = true \/ (2 <= length ps)%nat) :
  exists st', authfile_load true (Contents (auth_file tail ps)) st = Ret (AUTHFILE_OK, st') /\
    forall u p, authfile_check st' u p = Ret (bool_decide ((u, p) ∈ take 8 ps)).
Proof.
  destruct (load_loop_ok tail [] ps (length (auth_file tail ps)) (replicate (length (auth_file tail ps) + 1) 0)) as (junk & E); try done.
  - simpl. lia.
  - intros _. by right.
  - by rewrite length_app, length_replicate.
  - unfold authfile_load. cbn [length packed map concat app entries_of Nat.sub] in E. unfold MAX_ENTRIES. rewrite E.
    rewrite ret_bind. eexists. split; [reflexivity|]. intros u p. unfold authfile_check. cbn [main_auth_data main_auth_entries default].
    exact (check_entries_ok [] (take 8 ps) junk u p).
Qed.

(** A file of one line without a newline loses the last character of the password: [fgets] is
    given one byte too little.  With a password of one character the user gets in without any. *)
Theorem single_line_truncated (u p : list Z) (c : Z) (st : auth_state) (H : entry_ok (u, p ++ [c])) :
  exists st', authfile_load true (Contents (auth_file false [(u, p ++ [c])])) st = Ret (AUTHFILE_OK, st') /\
    authfile_check st' u p = Ret true /\ authfile_check st' u (p ++ [c]) = Ret false.
Proof.
  assert (entry_ok (u, p)) as Hp.
  { destruct H as [H1 H2 H3]. split; [done|by apply Forall_app in H2 as [? _]|]. rewrite length_line in *. simpl in *. rewrite length_app in H3. lia. }
  assert (auth_file false [(u, p ++ [c])] = line_of (u, p) ++ [] ++ [c]) as Ef.
  { cbn [auth_file]. unfold line_of. simpl. by rewrite !app_nil_r, <- app_assoc. }
  pose proof (eo_short _ H) as Hs. rewrite length_line in Hs. cbn [fst snd] in Hs. rewrite length_app in Hs. cbn [length] in Hs.
  assert (length (auth_file false [(u, p ++ [c])]) = S (length (line_of (u, p)))) as El by (rewrite Ef, !length_app; simpl; lia).
  pose proof (length_line (u, p)) as Hl. cbn [fst snd] in Hl.
  destruct (load_turn [] (u, p) (S (length (line_of (u, p)))) [] [c] (replicate (S (length (line_of (u, p))) + 1) 0) 7) as (junk & _ & E).
  - done.
  - done.
  - unfold MAX_ENTRY_LEN. cbn [length packed map concat]. lia.
  - right. split; [done|]. right. unfold MAX_ENTRY_LEN. cbn [length packed map concat]. lia.
  - rewrite length_replicate. lia.
  - unfold authfile_load. rewrite El, Ef. cbn [length packed map concat app entries_of orb] in E. unfold MAX_ENTRIES. cbn [app]. rewrite E, ret_bind.
    eexists. split; [reflexivity|]. unfold authfile_check. cbn [main_auth_data main_auth_entries default].
    split; (etransitivity; [exact (check_entries_ok [] [(u, p)] junk u _)|]); f_equal.
    + apply bool_decide_true. left.
    + apply bool_decide_false. rewrite list_elem_of_singleton. intros [= E']. apply (f_equal length) in E'. rewrite length_app in E'. simpl in E'. lia.
Qed.

(** A file of one line that ends in CR LF is refused: what is left of it is taken for another line. *)
Example crlf_line_refused :
  authfile_load true (Contents (text "me:secret" ++ [13; 10])) (mkAuthState [] []) = Ret (AUTHFILE_MALFORMED, mkAuthState [] []).
Proof. reflexivity. Qed.

(** ** Samples *)

Definition sample_users : list (list Z * list Z) := [(text "alice", text "apple"); (text "bob", text "pear:tree")].

Lemma sample_users_ok : Forall entry_ok sample_users.
Proof. unfold sample_users. repeat constructor; vm_compute; repeat constructor; lia. Qed.

Lemma authfile_correct_witness : exists st',
  authfile_load true (Contents (text "alice:apple" ++ [10] ++ text "bob:pear:tree")) (mkAuthState [] []) = Ret (AUTHFILE_OK, st') /\
  authfile_check st' (text "bob") (text "pear:tree") = Ret true /\ authfile_check st' (text "bob") (text "apple") = Ret false.
Proof.
  destruct (authfile_correct false sample_users (mkAuthState [] []) sample_users_ok ltac:(done) ltac:(right; simpl; lia)) as (st' & E & H).
  exists st'. split; [exact E|]. split; [exact (H (text "bob") (text "pear:tree"))|exact (H (text "bob") (text "apple"))].
Defined.

Lemma single_line_truncated_witness : exists st',
  authfile_load true (Contents (text "me:x")) (mkAuthState [] []) = Ret (AUTHFILE_OK, st') /\
  authfile_check st' (text "me") [] = Ret true /\ authfile_check st' (text "me") (text "x") = Ret false.
Proof.
  apply (single_line_truncated (text "me") [] 120 (mkAuthState [] [])). constructor; vm_compute; repeat constructor; lia.
Defined.
