(* ===== verification/AuthTheorems.v ===== *)
(** * Theorems about logging in

    Until a user and a password of the file have been given, nothing but the answers of a connection
    changes; and the length that a client announces can take the server outside its buffer. *)

From S2P Require Import Prelude Items Store Util MtArrayList MerkleTree Conn ProtoText ProtoFacts.
From S2P Require Import Assoc ItemTableAssoc ServerFacts MetaFacts ServerTheorems Authfile AuthFacts ProtoAuth Samples.
From Stdlib Require Ascii String.
Import String.StringSyntax.

Local Open Scope string_scope.
Local Open Scope Z_scope.

Section Gate.
Context {T : Type} {table_ops : ItemTable T}.
Implicit Types (w : world T).

(** The responses of a connection that has not logged in show no items. *)
Definition no_items w : Prop := Forall (fun r => resp_item r = None) (c_resps (w_conn w)).

(** Only the connection has changed. *)
Definition shut w w' : Prop := w_store w' = w_store w /\ w_tree w' = w_tree w /\ w_stderr w' = w_stderr w /\ no_items w'.

Lemma have_resp_ok e w : no_items w -> exists ok w1, have_resp e w = (ok, w1) /\ shut w w1 /\ c_rlbytes (w_conn w1) = c_rlbytes (w_conn w) /\
  (ok = true -> exists rs r, c_resps (w_conn w1) = rs ++ [r]).
Proof.
  intros H. unfold have_resp. destruct (Nat.eqb_spec (length (c_resps (w_conn w))) 0) as [E|E].
  - unfold start_response, resp_start. destruct (resp_room e _); cbn [negb]; eexists _, _; (split; [reflexivity|]).
    + split; [|split; [done|]]; [|intros _; eexists _, _; reflexivity].
      split_and!; try done. unfold no_items. cbn. apply Forall_app. split; [exact H|]. by constructor.
    + split; [|split; [done|discriminate]]. by split_and!.
  - exists true, w. split; [done|]. split; [by split_and!|]. split; [done|]. intros _.
    destruct (exists_last (l := c_resps (w_conn w))) as (rs & r & Er); [by intros E'; rewrite E' in E|]. by exists rs, r.
Qed.

Lemma answer_shut str w rs r : no_items w -> c_resps (w_conn w) = rs ++ [r] -> (length str <= 1000)%nat ->
  exists w', out_string str w = Ret w' /\ shut w w' /\ c_resps (w_conn w') = rs ++ [answer (c_noreply (w_conn w)) str].
Proof.
  intros H E Hl. unfold no_items in H. rewrite E in H. apply Forall_app in H as [H1 H2]. inversion_clear H2 as [|? ? Hr _].
  eexists. split; [exact (out_string_ok str w rs r E Hr Hl)|]. split; [|done].
  split_and!; try done. unfold no_items. cbn. apply Forall_app. split; [done|]. constructor; [|done]. unfold answer. by destruct (c_noreply (w_conn w)).
Qed.

Lemma shut_trans w1 w2 w3 : shut w1 w2 -> shut w2 w3 -> shut w1 w3.
Proof. unfold shut. intros (A1 & A2 & A3 & _) (B1 & B2 & B3 & B4). split_and!; congruence || done. Qed.

Lemma ends_line_ok mem k : 0 <= k -> (Z.to_nat k + 2 <= length mem)%nat ->
  ends_line mem k = Ret (bool_decide (take 2 (drop (Z.to_nat k) mem) = crlf)).
Proof.
  intros Hk Hl. unfold ends_line. rewrite (proj2 (Z.ltb_ge _ _)) by lia.
  destruct (lookup_lt_is_Some_2 mem (Z.to_nat k) ltac:(lia)) as [a Ea]. destruct (lookup_lt_is_Some_2 mem (S (Z.to_nat k)) ltac:(lia)) as [b Eb].
  rewrite Ea, Eb. cbn [deref]. rewrite !ret_bind. rewrite (drop_S mem a _ Ea), (drop_S mem b _ Eb). cbn [take].
  destruct (Z.eqb_spec a 13) as [->|Ha]; [destruct (Z.eqb_spec b 10) as [->|Hb]|]; f_equal; symmetry; rewrite ?bool_decide_eq_true, ?bool_decide_eq_false; unfold crlf; congruence.
Qed.

Lemma c_string_ok l : is_string (c_string l).
Proof.
  unfold c_string. induction l as [|c l IH]; simpl; [constructor|]. destruct (Z.eqb_spec c 0); simpl; by constructor.
Qed.

(** The first tokens are the first words. *)
Lemma tokens_words line n : (n < length (tokenize_command (c_string line) MAX_TOKENS) - 1)%nat ->
  exists v, words (c_string line) !! n = Some v /\ tokenize_command (c_string line) MAX_TOKENS !! n = Some (word_token v).
Proof.
  intros Hn. destruct (tokenize_command_ok (c_string line) MAX_TOKENS (c_string_ok line) ltac:(unfold MAX_TOKENS; lia)) as (ts & rest & E & _ & W & _).
  rewrite E, length_app, length_map in *. simpl in Hn. destruct (lookup_lt_is_Some_2 ts n ltac:(lia)) as [v Ev]. exists v.
  rewrite W. rewrite lookup_app_l by (apply lookup_lt_Some in Ev; lia). split; [done|].
  rewrite lookup_app_l by (rewrite length_map; lia). rewrite list_lookup_fmap, Ev. done.
Qed.

Lemma words_tokens line n v : words (c_string line) !! n = Some v -> (n < 23)%nat ->
  (n < length (tokenize_command (c_string line) MAX_TOKENS) - 1)%nat.
Proof.
  intros Hv Hn. destruct (tokenize_command_ok (c_string line) MAX_TOKENS (c_string_ok line) ltac:(unfold MAX_TOKENS; lia)) as (ts & rest & E & _ & W & Hrest).
  rewrite E, length_app, length_map. simpl. rewrite W in Hv. destruct rest as [rest|].
  - destruct Hrest as (H & _). rewrite H. unfold MAX_TOKENS. simpl. lia.
  - rewrite app_nil_r in Hv. apply lookup_lt_Some in Hv. lia.
Qed.

Context (users : auth_state) (ps : list (list Z * list Z)).
Hypothesis users_ok : forall u p, authfile_check users u p = Ret (bool_decide ((u, p) ∈ ps)).

(** A value with its line break whose first two words are a user and his password. *)
Definition accepted (block : list Z) : Prop :=
  exists u p, drop (length block - 2) block = crlf /\ words (c_string (take (length block - 2) block)) !! 0%nat = Some u /\
    words (c_string (take (length block - 2) block)) !! 1%nat = Some p /\ (u, p) ∈ ps.

(** What a turn of the handler does: it lets the client in exactly when the value has arrived and is accepted. *)
Definition gated e (block : option (list Z)) l w (r : bool * login * list Z * world T) : Prop :=
  let '(handled, l', rest, w') := r in
  shut w w' /\ (l_authenticated l' = true <-> l_authenticated l = true \/
    (have_resp e w).1 = true /\ exists b, block = Some b /\ accepted b).

(** The first [n] bytes of the buffer, when they have arrived. *)
Definition arrived (n : Z) (rbuf : list Z) : option (list Z) :=
  if n <=? Z.of_nat (length rbuf) then Some (take (Z.to_nat n) rbuf) else None.

Lemma login_value_ok e before rbuf l w : no_items w -> 2 <= c_rlbytes (w_conn w) ->
  exists r, login_value users e before rbuf l w = Ret r /\ gated e (arrived (c_rlbytes (w_conn w)) rbuf) l w r.
Proof.
  intros H Hn. unfold login_value, arrived. set (n := c_rlbytes (w_conn w)) in *.
  destruct (Z.ltb_spec (Z.of_nat (length rbuf)) n) as [Hs|Hs].
  { rewrite (proj2 (Z.leb_gt _ _)) by lia. eexists. split; [reflexivity|]. split; [by split_and!|]. split; [by left|]. by intros [|(_ & b & ? & _)]. }
  rewrite (proj2 (Z.leb_le _ _)) by lia. set (block := take (Z.to_nat n) rbuf).
  assert (length block = Z.to_nat n) as Hb by (unfold block; rewrite length_take; lia).
  unfold gated. destruct (have_resp_ok e w H) as (ok & w1 & -> & Hw1 & Hr1 & Hresp). cbn [fst]. destruct ok; cbn [negb].
  2: { eexists. split; [reflexivity|]. split; [destruct Hw1 as (A1 & A2 & A3 & A4); by split_and!|]. split; [by left|]. by intros [|[? _]]. }
  destruct (Hresp eq_refl) as (rs & r & Er). clear Hresp. rewrite (proj2 (Z.ltb_ge _ 0)) by lia.
  rewrite ends_line_ok by (rewrite ?length_app; lia). rewrite ret_bind.
  replace (Z.to_nat (Z.of_nat (length before) + n - 2)) with (length before + Z.to_nat (n - 2))%nat by lia.
  assert (take 2 (drop (length before + Z.to_nat (n - 2)) (before ++ rbuf)) = drop (length block - 2) block) as ->.
  { rewrite drop_app_add'; [|done]. unfold block at 2. rewrite Hb, skipn_firstn_comm. f_equal; [lia|f_equal; lia]. }
  assert (take (Z.to_nat (n - 2)) rbuf = take (length block - 2) block) as ->.
  { unfold block at 2. rewrite take_take. f_equal. lia. }
  assert (forall str l', (length str <= 1000)%nat -> (l_authenticated l' = true <-> l_authenticated l = true \/ accepted block) ->
    forall rest : list Z, exists r : bool * login * list Z * world T, (w0 ← out_string str w1; Ret (true, l', rest, w0)) = Ret r /\
      (let '(_, l', _, w') := r in shut w w' /\ (l_authenticated l' = true <-> l_authenticated l = true \/ true = true /\ exists b, Some block = Some b /\ accepted b))) as Hans.
  { intros str l' Hl Hauth rest. destruct (answer_shut str w1 rs r) as (w2 & -> & Hw2 & _); [apply Hw1|done|done|]. rewrite ret_bind.
    eexists. split; [reflexivity|]. split; [by eapply shut_trans|]. rewrite Hauth. split; [intros [|]; eauto|]. intros [|(_ & b & [= <-] & ?)]; auto. }
  case_bool_decide as Hfine; cbn [negb].
  2: { apply Hans; [vm_compute; lia|]. split; [by left|]. by intros [|(u & p & ? & _)]. }
  rewrite (proj2 (Z.ltb_ge n 2)) by lia. set (line := take (length block - 2) block) in *.
  destruct (Nat.ltb_spec (length (tokenize_command (c_string line) MAX_TOKENS)) 3) as [Ht|Ht].
  { apply Hans; [vm_compute; lia|]. split; [by left|]. intros [|(u & p & _ & _ & Wp & _)]; [done|]. pose proof (words_tokens line 1 p Wp ltac:(lia)) as Hlt. revert Ht Hlt. generalize (length (tokenize_command (c_string line) MAX_TOKENS)). lia. }
  destruct (tokens_words line 0 ltac:(lia)) as (u & Wu & Tu). destruct (tokens_words line 1 ltac:(lia)) as (p & Wp & Tp).
  rewrite Tu, Tp. cbn [deref]. rewrite !ret_bind. cbn [word_token tok_value deref]. rewrite !ret_bind, users_ok, ret_bind. case_bool_decide as Hin.
  - apply Hans; [vm_compute; lia|]. split; [|done]. intros _. right. by exists u, p.
  - apply Hans; [vm_compute; lia|]. split; [by left|]. intros [|(u' & p' & _ & Wu' & Wp' & Hin')]; [done|].
    exfalso. apply Hin. fold line in Wu', Wp'. congruence.
Qed.

Lemma safe_strtoul_range v : exists ok n, safe_strtoul (Some v) true = Ret (ok, n) /\ 0 <= n < 2 ^ 32.
Proof.
  unfold safe_strtoul. cbn [c_assert deref]. rewrite !ret_bind.
  repeat case_match; eexists _, _; (split; [reflexivity|]); try apply u32_range; lia.
Qed.

Lemma login_size_ok line : exists r, login_size (tokenize_command (c_string line) MAX_TOKENS) = Ret r /\ (forall n, r = Some n -> 0 <= n < 2 ^ 32).
Proof.
  unfold login_size. destruct (Nat.ltb_spec (length (tokenize_command (c_string line) MAX_TOKENS)) 6) as [Hl|Hl]; [by eexists|].
  destruct (tokens_words line 0 ltac:(lia)) as (v & _ & ->). destruct (tokens_words line 4 ltac:(lia)) as (d & _ & ->).
  cbn [deref]. rewrite !ret_bind. cbn [word_token tok_value deref]. rewrite ret_bind.
  destruct (negb _); [by eexists|]. destruct (safe_strtoul_range d) as (ok & n & E & Hn).
  rewrite E, ret_bind. eexists. split; [reflexivity|]. destruct ok; [by intros ? [= <-]|done].
Qed.

(** The value of the set command the client logs in with, line break included, once it has arrived:
    either the command has been read before, or its line is the first of the buffer. *)
Definition login_block (l : login) (rbuf : list Z) w : option (list Z) :=
  if l_started l then arrived (c_rlbytes (w_conn w)) rbuf else
  if (length rbuf <? 2)%nat then None else
  match split_line [] rbuf with
  | Some (line, cont) =>
      match login_size (tokenize_command (c_string line) MAX_TOKENS) with Ret (Some n) => arrived (n + 2) cont | _ => None end
  | None => None
  end.

(** The handler has returned, and the connection is logged in exactly with good reason. *)
Definition kept_out e (block : option (list Z)) w (r : outcome (bool * login * list Z * world T)) : Prop :=
  exists handled l' rest w', r = Ret (handled, l', rest, w') /\ shut w w' /\
    (l_authenticated l' = true <-> (have_resp e w).1 = true /\ exists b, block = Some b /\ accepted b).

Lemma gated_out e block l0 w w0 r : l_authenticated l0 = false -> shut w w0 -> (have_resp e w0).1 = (have_resp e w).1 ->
  gated e block l0 w0 r -> kept_out e block w (Ret r).
Proof.
  destruct r as [[[h l'] rest] w']. intros H0 Hs Hh [H1 H2]. exists h, l', rest, w'. split; [done|]. split; [by eapply shut_trans|].
  rewrite H2, Hh, H0. split; [by intros [|]|by right].
Qed.

Lemma out_without_block e w h l rest : l_authenticated l = false -> no_items w ->
  forall w', shut w w' -> kept_out e None w (Ret (h, l, rest, w')).
Proof.
  intros Hl Hw w' Hs. exists h, l, rest, w'. split; [done|]. split; [done|]. rewrite Hl. split; [done|]. by intros (_ & b & ? & _).
Qed.

(** C23: the gate.  On a connection that has not logged in, the handler always returns, provided
    that the length the client announces fits a signed integer: the store, the tree and the reports
    are untouched, whatever bytes have arrived.  The connection counts as logged in afterwards if and
    only if the value of a set command has arrived in the buffer, as long as announced and ended by a
    line break, its first two words are a user of the file and his password, and there was memory
    for a response. *)
Theorem login_gate (e : senv) (l : login) (rbuf : list Z) w (Hw : no_items w) (Hl : l_authenticated l = false)
    (Hstart : l_started l = true -> 2 <= c_rlbytes (w_conn w))
    (Hsize : forall line cont n, split_line [] rbuf = Some (line, cont) ->
       login_size (tokenize_command (c_string line) MAX_TOKENS) = Ret (Some n) -> n + 2 < 2 ^ 31) :
  exists handled l' rest w', try_read_command_asciiauth users e l rbuf w = Ret (handled, l', rest, w') /\ shut w w' /\
    (l_authenticated l' = true <-> (have_resp e w).1 = true /\ exists block, login_block l rbuf w = Some block /\ accepted block).
Proof.
  change (kept_out e (login_block l rbuf w) w (try_read_command_asciiauth users e l rbuf w)).
  assert (shut w w) as Hsame by by split_and!.
  unfold try_read_command_asciiauth, login_block. destruct (l_started l) eqn:Es.
  { destruct (login_value_ok e [] rbuf l w Hw (Hstart eq_refl)) as (r & -> & H). by eapply gated_out. }
  destruct (length rbuf <? 2)%nat; [by apply out_without_block|].
  destruct (split_line [] rbuf) as [[line cont]|] eqn:Esp.
  2: { destruct (1024 <? length rbuf)%nat; by apply out_without_block. }
  destruct (login_size_ok line) as (r & Er & Hr). rewrite Er, ret_bind. destruct r as [n|].
  - specialize (Hr n eq_refl). specialize (Hsize line cont n eq_refl Er).
    set (w0 := upd_conn _ w). assert (c_rlbytes (w_conn w0) = n + 2) as Hn0.
    { change (c_rlbytes (w_conn w0)) with (i32 (u32 (n + 2))). rewrite u32_id, i32_id by lia. done. }
    destruct (login_value_ok e (line ++ [0]) cont (mkLogin true (l_authenticated l)) w0) as (r & -> & H); [done|lia|].
    rewrite Hn0 in H. eapply (gated_out e _ (mkLogin true (l_authenticated l)) w w0); [exact Hl|done| |exact H].
    unfold have_resp, w0. cbn. by destruct (length (c_resps (w_conn w)) =? 0)%nat; [unfold start_response, resp_start; cbn; destruct (resp_room e _)|].
  - unfold login_answer. destruct (have_resp_ok e w Hw) as (ok & w1 & E1 & Hw1 & _ & Hresp). rewrite E1. destruct ok.
    + destruct (Hresp eq_refl) as (rs & r & Er'). destruct (answer_shut (text "CLIENT_ERROR unauthenticated") w1 rs r) as (w2 & -> & Hw2 & _); [apply Hw1|done|vm_compute; lia|].
      rewrite ret_bind. apply out_without_block; [done|done|by eapply shut_trans].
    + rewrite ret_bind. by apply out_without_block.
Qed.

(** A length of 2^31 and more takes the server outside its buffer.  The length is 32 bits wide and
    without a sign, the number of bytes to read has one: when a client that has not logged in
    announces such a length, the handler goes back by that much and reads there. *)
Theorem login_negative_length (e : senv) (l : login) (rbuf : list Z) w (line cont : list Z) (n : Z)
    (Hs : l_started l = false) (Hline : split_line [] rbuf = Some (line, cont)) (Hlen : (2 <= length rbuf)%nat)
    (Hn : login_size (tokenize_command (c_string line) MAX_TOKENS) = Ret (Some n))
    (Hbig : 2 ^ 31 <= n + 2 < 2 ^ 32 - Z.of_nat (length line) - 1) (Hroom : forall k, resp_room e k = true) :
  try_read_command_asciiauth users e l rbuf w = Ub.
Proof.
  unfold try_read_command_asciiauth. rewrite Hs, (proj2 (Nat.ltb_ge _ _)), Hline, Hn, ret_bind by lia.
  set (w0 := upd_conn _ w). assert (c_rlbytes (w_conn w0) = n + 2 - 2 ^ 32) as Hn0.
  { change (c_rlbytes (w_conn w0)) with (i32 (u32 (n + 2))). rewrite u32_id by lia. unfold i32. zdm. }
  unfold login_value. rewrite Hn0, (proj2 (Z.ltb_ge _ _)) by lia.
  assert (exists w1, have_resp e w0 = (true, w1)) as [w1 ->].
  { unfold have_resp. destruct (_ =? _)%nat; [|by eexists]. unfold start_response, resp_start. rewrite Hroom. by eexists. }
  cbn [negb]. rewrite (proj2 (Z.ltb_lt _ 0)); [done|]. rewrite length_app. simpl length. lia.
Qed.

(** A word: not empty, and without spaces and zeros. *)
Definition login_word (v : list Z) : Prop := v <> [] /\ Forall (fun c => c <> 32 /\ c <> 0) v.

Lemma words_pair u p : login_word u -> login_word p -> words (u ++ 32 :: p) = [u; p].
Proof.
  intros [Hu Fu] [Hp Fp]. unfold words. rewrite words_from_app by (eapply Forall_impl; [exact Fu|]; simpl; tauto). simpl.
  rewrite bool_decide_false by done. f_equal. rewrite <- (app_nil_r p) at 1. rewrite words_from_app by (eapply Forall_impl; [exact Fp|]; simpl; tauto).
  simpl. by rewrite bool_decide_false.
Qed.

(** Logging in.  When the set command and its value have arrived, the client gets in and is
    answered STORED if user and password are in the file, and is told that they are not otherwise;
    what follows the value stays in the buffer. *)
Theorem login_correct (e : senv) (l : login) w (line u p rest : list Z) (rs : list mc_resp) (r : mc_resp)
    (Hw : no_items w) (Hs : l_started l = false) (Hr : c_resps (w_conn w) = rs ++ [r]) (Hq : c_noreply (w_conn w) = false)
    (Hline : Forall (fun c => c <> 10) line) (Hu : login_word u) (Hp : login_word p)
    (Hsize : login_size (tokenize_command (c_string line) MAX_TOKENS) = Ret (Some (Z.of_nat (length (u ++ 32 :: p)))))
    (Hlen : Z.of_nat (length (u ++ 32 :: p)) + 2 < 2 ^ 31) :
  exists w', try_read_command_asciiauth users e l (line ++ [10] ++ (u ++ 32 :: p) ++ crlf ++ rest) w =
      Ret (true, mkLogin false (bool_decide ((u, p) ∈ ps) || l_authenticated l), rest, w') /\
    c_resps (w_conn w') = rs ++ [answer false (if bool_decide ((u, p) ∈ ps) then text "STORED" else text "CLIENT_ERROR authentication failure")].
Proof.
  set (value := u ++ 32 :: p) in *. assert (is_string value) as Hstr.
  { destruct Hu as [_ Fu], Hp as [_ Fp]. apply Forall_app. split; [eapply Forall_impl; [exact Fu|]; simpl; tauto|].
    constructor; [done|]. eapply Forall_impl; [exact Fp|]; simpl; tauto. }
  unfold try_read_command_asciiauth. rewrite Hs, (proj2 (Nat.ltb_ge _ _)) by (rewrite !length_app; unfold crlf; simpl; lia).
  change (line ++ [10] ++ value ++ crlf ++ rest) with (line ++ 10 :: value ++ crlf ++ rest). rewrite split_line_app by done. cbn [app].
  rewrite Hsize, ret_bind. set (n := Z.of_nat (length value)) in *. set (w0 := upd_conn _ w).
  assert (c_rlbytes (w_conn w0) = n + 2) as Hn0.
  { change (c_rlbytes (w_conn w0)) with (i32 (u32 (n + 2))). rewrite u32_id, i32_id by (unfold n in *; lia). done. }
  unfold login_value. rewrite Hn0, (proj2 (Z.ltb_ge _ _)) by (rewrite !length_app; unfold crlf, n; simpl; lia).
  assert (have_resp e w0 = (true, w0)) as ->.
  { unfold have_resp. change (c_resps (w_conn w0)) with (c_resps (w_conn w)). rewrite Hr, length_app, Nat.add_1_r. done. }
  cbn [negb]. rewrite (proj2 (Z.ltb_ge _ 0)) by (unfold n; lia).
  replace (Z.to_nat (Z.of_nat (length (line ++ [0])) + (n + 2))) with (length ((line ++ [0]) ++ value ++ crlf))
    by (unfold n, crlf; rewrite !length_app; simpl; lia).
  rewrite (app_assoc value crlf rest), (app_assoc (line ++ [0]) (value ++ crlf) rest), drop_app_length.
  assert (ends_line (((line ++ [0]) ++ value ++ crlf) ++ rest) (Z.of_nat (length (line ++ [0])) + (n + 2) - 2) = Ret true) as ->.
  { unfold ends_line. rewrite (proj2 (Z.ltb_ge _ _)) by (unfold n; lia).
    replace (Z.to_nat _) with (length ((line ++ [0]) ++ value)) by (unfold n; rewrite !length_app; simpl; lia).
    replace (((line ++ [0]) ++ value ++ crlf) ++ rest) with (((line ++ [0]) ++ value) ++ 13 :: 10 :: rest) by (by rewrite <- !app_assoc).
    rewrite (list_lookup_middle ((line ++ [0]) ++ value) (10 :: rest) 13 _ eq_refl). cbn [deref]. rewrite ret_bind. cbn [Z.eqb Pos.eqb].
    replace (((line ++ [0]) ++ value) ++ 13 :: 10 :: rest) with ((((line ++ [0]) ++ value) ++ [13]) ++ 10 :: rest) by (by rewrite <- !app_assoc).
    rewrite list_lookup_middle by (rewrite !length_app; simpl; lia). done. }
  rewrite ret_bind. cbn [negb]. rewrite (proj2 (Z.ltb_ge _ 2)) by (unfold n; lia).
  replace (Z.to_nat (n + 2 - 2)) with (length value) by (unfold n; lia). rewrite <- (app_assoc value), take_app_length, c_string_id by done.
  destruct (tokenize_command_ok value MAX_TOKENS Hstr ltac:(unfold MAX_TOKENS; lia)) as (ts & tl & Et & _ & W & Hrest).
  unfold value in W at 1. rewrite words_pair in W by done.
  assert (ts = [u; p]) as ->.
  { destruct tl as [tl|]; [|by rewrite app_nil_r in W]. destruct Hrest as (H & _). apply (f_equal length) in W. rewrite length_app, H in W. unfold MAX_TOKENS in W. simpl in W. lia. }
  rewrite Et. cbn [map app length Nat.ltb Nat.leb lookup list_lookup deref]. rewrite !ret_bind. cbn [word_token tok_value deref]. rewrite !ret_bind, users_ok, ret_bind.
  case_bool_decide; cbn [orb].
  - destruct (answer_shut (text "STORED") w0 rs r) as (w' & -> & _ & Hw'); [done|done|vm_compute; lia|]. rewrite ret_bind.
    exists w'. split; [done|]. change (c_noreply (w_conn w0)) with (c_noreply (w_conn w)) in Hw'. by rewrite Hq in Hw'.
  - destruct (answer_shut (text "CLIENT_ERROR authentication failure") w0 rs r) as (w' & -> & _ & Hw'); [done|done|vm_compute; lia|]. rewrite ret_bind.
    exists w'. split; [done|]. change (c_noreply (w_conn w0)) with (c_noreply (w_conn w)) in Hw'. by rewrite Hq in Hw'.
Qed.
End Gate.

(** ** Samples *)

Definition login_world : world assoc := (start_response sample_env sample_world).2.
Definition sample_state : auth_state := mkAuthState (packed sample_users) (entries_of 0 sample_users).

Lemma sample_state_ok u p : authfile_check sample_state u p = Ret (bool_decide ((u, p) ∈ sample_users)).
Proof. pose proof (check_entries_ok [] sample_users [] u p) as H. rewrite app_nil_r in H. exact H. Qed.

Definition login_line : list Z := text "set x 0 0 13" ++ [13].

Lemma login_line_ok : login_size (tokenize_command (c_string login_line) MAX_TOKENS) = Ret (Some 13).
Proof. vm_compute. reflexivity. Qed.

Lemma login_bytes : Forall (fun c => c <> 10) login_line /\ login_word (text "bob") /\ login_word (text "pear:tree").
Proof.
  split; [vm_compute; repeat (constructor; [discriminate|]); constructor|].
  split; (split; [done|vm_compute; repeat (constructor; [split; discriminate|]); constructor]).
Qed.

Lemma login_world_ok : no_items login_world /\ c_resps (w_conn login_world) = [] ++ [mkResp [] None false []] /\ c_noreply (w_conn login_world) = false.
Proof. split; [|split; reflexivity]. by constructor. Qed.

Lemma login_correct_witness : exists w',
  try_read_command_asciiauth sample_state sample_env (mkLogin false false) (login_line ++ [10] ++ (text "bob" ++ 32 :: text "pear:tree") ++ crlf ++ []) login_world
    = Ret (true, mkLogin false true, [], w') /\
  c_resps (w_conn w') = [] ++ [answer false (text "STORED")].
Proof.
  destruct login_world_ok as (H1 & H2 & H3). destruct login_bytes as (Hl & Hu & Hp).
  exact (login_correct sample_state sample_users sample_state_ok sample_env (mkLogin false false) login_world login_line (text "bob") (text "pear:tree") [] []
    (mkResp [] None false []) H1 eq_refl H2 H3 Hl Hu Hp login_line_ok ltac:(vm_compute; reflexivity)).
Defined.

(** A get is refused; a user and his password in two parts of a set command are let in. *)
Lemma login_gate_witness :
  (exists handled l' rest w',
    try_read_command_asciiauth sample_state sample_env (mkLogin false false) (text "get secret" ++ crlf) login_world = Ret (handled, l', rest, w') /\
    shut login_world w' /\ l_authenticated l' = false) /\
  (exists handled l' rest w',
    try_read_command_asciiauth sample_state sample_env (mkLogin false false) (login_line ++ [10] ++ text "bob pear:tree" ++ crlf) login_world = Ret (handled, l', rest, w') /\
    l_authenticated l' = true).
Proof.
  split.
  - destruct (login_gate sample_state sample_users sample_state_ok sample_env (mkLogin false false) (text "get secret" ++ crlf) login_world
      (proj1 login_world_ok) eq_refl) as (h & l' & rest & w' & E & H & Ha).
    + discriminate.
    + intros line cont n E. assert (Some (text "get secret" ++ [13], []) = Some (line, cont)) as E2 by (rewrite <- E; vm_compute; reflexivity).
      injection E2 as <- <-. intros E3. vm_compute in E3. discriminate E3.
    + exists h, l', rest, w'. split; [exact E|]. split; [exact H|]. apply not_true_is_false. intros Ht. apply Ha in Ht as (_ & b & Hb & _).
      vm_compute in Hb. discriminate Hb.
  - destruct (login_gate sample_state sample_users sample_state_ok sample_env (mkLogin false false) (login_line ++ [10] ++ text "bob pear:tree" ++ crlf) login_world
      (proj1 login_world_ok) eq_refl) as (h & l' & rest & w' & E & H & Ha).
    + discriminate.
    + intros line cont n E. assert (Some (login_line, text "bob pear:tree" ++ crlf) = Some (line, cont)) as E2 by (rewrite <- E; vm_compute; reflexivity).
      injection E2 as <- <-. intros E3. rewrite login_line_ok in E3. injection E3 as <-. reflexivity.
    + exists h, l', rest, w'. split; [exact E|]. apply Ha. split; [reflexivity|]. exists (text "bob pear:tree" ++ crlf). split; [vm_compute; reflexivity|].
      exists (text "bob"), (text "pear:tree"). split; [reflexivity|]. split; [reflexivity|]. split; [reflexivity|]. apply list_elem_of_In. vm_compute. tauto.
Defined.

Lemma login_negative_length_witness :
  try_read_command_asciiauth sample_state sample_env (mkLogin false false) (text "set x 0 0 4000000000" ++ crlf) login_world = Ub.
Proof.
  apply (login_negative_length sample_state sample_env (mkLogin false false) (text "set x 0 0 4000000000" ++ crlf) login_world
    (text "set x 0 0 4000000000" ++ [13]) [] 4000000000 eq_refl); [vm_compute; reflexivity|vm_compute; lia|vm_compute; reflexivity|vm_compute; split; congruence|].
  intros k. reflexivity.
Defined.
