(* ===== verification/StatsPrefix.v ===== *)
(** * Statistics by prefix (src/memcached/stats_prefix.c)

    A hash table of 256 chains counts what is done with the keys of each prefix, the part of a key up
    to a delimiter.  A pointer to an entry is its chain and its place there; [mem] and the like say
    whether there is memory. *)

From S2P Require Import Prelude Util Itoa Conn.
From Stdlib Require Ascii String.
Import String.StringSyntax.

Local Open Scope string_scope.
Local Open Scope Z_scope.

Definition PREFIX_HASH_SIZE : Z := 256.

(** [prefix_len] is the length of [prefix]. *)
Record PREFIX_STATS := mkPrefix {
  prefix : list Z;
  num_gets : Z;
  num_sets : Z;
  num_deletes : Z;
  num_hits : Z
}.

Record prefix_table := mkPrefixTable {
  prefix_stats : list (list PREFIX_STATS);
  prefix_delimiter : Z;
  num_prefixes : Z;
  total_prefix_size : Z
}.

Definition no_chains : list (list PREFIX_STATS) := replicate (Z.to_nat PREFIX_HASH_SIZE) [].

Definition stats_prefix_init (delimiter : Z) (t : prefix_table) : prefix_table :=
  mkPrefixTable no_chains delimiter (num_prefixes t) (total_prefix_size t).

Definition stats_prefix_clear (t : prefix_table) : prefix_table := mkPrefixTable no_chains (prefix_delimiter t) 0 0.

(** How far the first loop goes: the characters before the delimiter, if there is one among the [n]
    first characters and before the end of the string. *)
Fixpoint prefix_length (n : nat) (delim : Z) (key : list Z) : outcome (option nat) :=
  match n with
  | O => Ret None
  | S n =>
      match key with
      | [] => Ub
      | c :: key =>
          if c =? 0 then Ret None
          else if c =? delim then Ret (Some 0%nat)
          else r ← prefix_length n delim key; Ret (option_map S r)
      end
  end.

(** [strncmp(s, key, n) == 0] for a string [s] of which [s] are the characters. *)
Definition strncmp_zero (s key : list Z) (n : nat) : bool := bool_decide (take n s = take n key) && (n <=? length s)%nat.

(** The loop over a chain: the place of the first match. *)
Fixpoint find_prefix (chain : list PREFIX_STATS) (key : list Z) (n : nat) : option nat :=
  match chain with
  | [] => None
  | p :: chain => if strncmp_zero (prefix p) key n then Some 0%nat else option_map S (find_prefix chain key n)
  end.

Section Prefix.
Context (hash : list Z -> Z).

Definition stats_prefix_find (mem mem_copy : bool) (key : list Z) (nkey : nat) (t : prefix_table)
    : outcome (option (nat * nat) * prefix_table) :=
  n ← prefix_length nkey (prefix_delimiter t) key;
  match n with
  | None => Ret (None, t)
  | Some n =>
      let hashval := Z.to_nat (hash (take n key) mod PREFIX_HASH_SIZE) in
      chain ← deref (prefix_stats t !! hashval);
      match find_prefix chain key n with
      | Some i => Ret (Some (hashval, i), t)
      | None =>
          if negb (mem && mem_copy) then Ret (None, t) else
          let p := mkPrefix (take n key) 0 0 0 0 in
          num ← c_int (num_prefixes t + 1);
          size ← c_int (total_prefix_size t + Z.of_nat n);
          Ret (Some (hashval, 0%nat), mkPrefixTable (<[hashval := p :: chain]> (prefix_stats t)) (prefix_delimiter t) num size)
      end
  end.

(** An update of the entry at a pointer. *)
Definition upd_prefix (f : PREFIX_STATS -> PREFIX_STATS) (at_ : nat * nat) (t : prefix_table) : outcome prefix_table :=
  chain ← deref (prefix_stats t !! at_.1);
  p ← deref (chain !! at_.2);
  Ret (mkPrefixTable (<[at_.1 := <[at_.2 := f p]> chain]> (prefix_stats t)) (prefix_delimiter t) (num_prefixes t) (total_prefix_size t)).

Definition record_prefix (f : PREFIX_STATS -> PREFIX_STATS) (mem mem_copy : bool) (key : list Z) (nkey : nat) (t : prefix_table)
    : outcome prefix_table :=
  '(pfs, t) ← stats_prefix_find mem mem_copy key nkey t;
  match pfs with Some at_ => upd_prefix f at_ t | None => Ret t end.

Definition add_get (is_hit : bool) (p : PREFIX_STATS) : PREFIX_STATS :=
  mkPrefix (prefix p) (u64 (num_gets p + 1)) (num_sets p) (num_deletes p) (if is_hit then u64 (num_hits p + 1) else num_hits p).
Definition add_delete (p : PREFIX_STATS) : PREFIX_STATS :=
  mkPrefix (prefix p) (num_gets p) (num_sets p) (u64 (num_deletes p + 1)) (num_hits p).
Definition add_set (p : PREFIX_STATS) : PREFIX_STATS :=
  mkPrefix (prefix p) (num_gets p) (u64 (num_sets p + 1)) (num_deletes p) (num_hits p).

Definition stats_prefix_record_get (mem mem_copy : bool) (key : list Z) (nkey : nat) (is_hit : bool) : prefix_table -> outcome prefix_table :=
  record_prefix (add_get is_hit) mem mem_copy key nkey.
Definition stats_prefix_record_delete : bool -> bool -> list Z -> nat -> prefix_table -> outcome prefix_table := record_prefix add_delete.
Definition stats_prefix_record_set : bool -> bool -> list Z -> nat -> prefix_table -> outcome prefix_table := record_prefix add_set.

End Prefix.

(** ** The dump *)

Definition format_length : Z := Z.of_nat (length (text "PREFIX %s get %llu hit %llu set %llu del %llu" ++ crlf)).

(** What [snprintf] prints for an entry. *)
Definition prefix_line (p : PREFIX_STATS) : list Z :=
  text "PREFIX " ++ prefix p ++ text " get " ++ itoa_u64 (num_gets p) ++ text " hit " ++ itoa_u64 (num_hits p)
  ++ text " set " ++ itoa_u64 (num_sets p) ++ text " del " ++ itoa_u64 (num_deletes p) ++ crlf.

Definition dump_size (t : prefix_table) : Z :=
  format_length + total_prefix_size t + num_prefixes t * (format_length - 2 + 4 * (20 - 4)) + 6.

(** The loop over all entries, with its assertion; [out] is what has been written. *)
Fixpoint dump_entries (size : Z) (l : list PREFIX_STATS) (out : list Z) : outcome (list Z) :=
  match l with
  | [] => Ret out
  | p :: l =>
      let out := out ++ prefix_line p in
      _ ← c_assert (Z.of_nat (length out) <? size);
      dump_entries size l out
  end.

(** The text, of [length] bytes; its terminator must fit too. *)
Definition stats_prefix_dump (mem : bool) (t : prefix_table) : outcome (option (list Z)) :=
  let size := dump_size t in
  if negb mem then Ret None else
  out ← dump_entries size (concat (prefix_stats t)) [];
  let out := out ++ text "END" ++ crlf in
  if size <? Z.of_nat (length out) + 1 then Ub else Ret (Some out).
