(* ===== verification/StatsPrefixFacts.v ===== *)
(** * Statistics by prefix: the table counts each prefix, unless one starts with another

    The abstract state is a finite map from prefixes to their counters. *)

From stdpp Require Import gmap.
From S2P Require Import Prelude Util Itoa Conn StatsPrefix Murmur3.
From Stdlib Require Ascii String.
Import String.StringSyntax.

Local Open Scope string_scope.
Local Open Scope Z_scope.

(** ** The specification *)

(** The prefix of a key: what stands before the first delimiter. *)
Definition key_prefix (delim : Z) (key : list Z) : option (list Z) :=
  if bool_decide (delim ∈ key) then Some (take_while (fun c => negb (c =? delim)) key) else None.

Inductive prefix_op := RecordGet (key : list Z) (is_hit : bool) | RecordSet (key : list Z) | RecordDelete (key : list Z).

Definition op_key (op : prefix_op) : list Z :=
  match op with RecordGet key _ => key | RecordSet key => key | RecordDelete key => key end.

Definition op_count (op : prefix_op) : PREFIX_STATS -> PREFIX_STATS :=
  match op with RecordGet _ is_hit => add_get is_hit | RecordSet _ => add_set | RecordDelete _ => add_delete end.

Definition empty_counts (p : list Z) : PREFIX_STATS := mkPrefix p 0 0 0 0.

Definition spec_count (delim : Z) (M : gmap (list Z) PREFIX_STATS) (op : prefix_op) : gmap (list Z) PREFIX_STATS :=
  match key_prefix delim (op_key op) with
  | Some p => <[p := op_count op (default (empty_counts p) (M !! p))]> M
  | None => M
  end.

Section Facts.
Context (hash : list Z -> Z).

Definition run_op (t : prefix_table) (op : prefix_op) : outcome prefix_table :=
  match op with
  | RecordGet key is_hit => stats_prefix_record_get hash true true key (length key) is_hit t
  | RecordSet key => stats_prefix_record_set hash true true key (length key) t
  | RecordDelete key => stats_prefix_record_delete hash true true key (length key) t
  end.

Fixpoint run_ops (ops : list prefix_op) (t : prefix_table) : outcome prefix_table :=
  match ops with [] => Ret t | op :: ops => t ← run_op t op; run_ops ops t end.

Definition slot (p : list Z) : nat := Z.to_nat (hash p mod PREFIX_HASH_SIZE).

(** No prefix of one chain starts with another one. *)
Definition separated (ps : list (list Z)) : Prop :=
  forall p q, p ∈ ps -> q ∈ ps -> slot p = slot q -> p `prefix_of` q -> p = q.

(** ** The invariant *)

Definition counters_ok (r : PREFIX_STATS) : Prop :=
  0 <= num_gets r < 2 ^ 64 /\ 0 <= num_hits r < 2 ^ 64 /\ 0 <= num_sets r < 2 ^ 64 /\ 0 <= num_deletes r < 2 ^ 64.

Definition sum_lengths (l : list PREFIX_STATS) : Z := foldr (fun r n => Z.of_nat (length (prefix r)) + n) 0 l.

Record prefix_rep (t : prefix_table) (M : gmap (list Z) PREFIX_STATS) : Prop := {
  pr_length : length (prefix_stats t) = 256%nat;
  pr_slot : forall i chain r, prefix_stats t !! i = Some chain -> r ∈ chain -> i = slot (prefix r);
  pr_all : concat (prefix_stats t) ≡ₚ (map_to_list M).*2;
  pr_key : forall p r, M !! p = Some r -> prefix r = p /\ counters_ok r;
  pr_num : num_prefixes t = Z.of_nat (length (concat (prefix_stats t)));
  pr_total : total_prefix_size t = sum_lengths (concat (prefix_stats t))
}.

Lemma sum_lengths_perm l l' : l ≡ₚ l' -> sum_lengths l = sum_lengths l'.
Proof. induction 1; simpl; lia. Qed.

Lemma rep_in t M r : prefix_rep t M -> r ∈ concat (prefix_stats t) <-> M !! prefix r = Some r.
Proof.
  intros R. rewrite (pr_all _ _ R). rewrite list_elem_of_fmap. split.
  - intros ([p r'] & -> & H%elem_of_map_to_list). simpl. by destruct (pr_key _ _ R p r' H) as [-> _].
  - intros H. exists (prefix r, r). by rewrite elem_of_map_to_list.
Qed.

Lemma slot_lt p : (slot p < 256)%nat.
Proof. unfold slot, PREFIX_HASH_SIZE. pose proof (Z.mod_pos_bound (hash p) 256). lia. Qed.

Lemma rep_chain t M p : prefix_rep t M -> exists chain, prefix_stats t !! slot p = Some chain.
Proof. intros R. apply lookup_lt_is_Some_2. rewrite (pr_length _ _ R). apply slot_lt. Qed.

Lemma chain_in t M i chain r : prefix_rep t M -> prefix_stats t !! i = Some chain -> r ∈ chain -> M !! prefix r = Some r.
Proof.
  intros R Hc Hr. apply (rep_in t M r R). apply list_elem_of_In, in_concat. exists chain. split; apply list_elem_of_In; [by eapply list_elem_of_lookup_2|done].
Qed.

(** ** Looking for a prefix *)

Lemma prefix_length_ok delim key : Forall (fun c => c <> 0) key ->
  prefix_length (length key) delim key = Ret (length <$> key_prefix delim key) /\
  (forall p, key_prefix delim key = Some p -> take (length p) key = p /\ (length p <= length key)%nat).
Proof.
  intros Hk. unfold key_prefix. induction Hk as [|c key Hc _ [IH1 IH2]]; [done|]. cbn [length prefix_length take_while].
  rewrite (proj2 (Z.eqb_neq c 0)) by done. destruct (Z.eqb_spec c delim) as [-> |Hd]; cbn [negb].
  - rewrite bool_decide_true by left. split; [done|]. intros p [= <-]. simpl. split; [done|lia].
  - rewrite IH1, ret_bind. assert (bool_decide (delim ∈ c :: key) = bool_decide (delim ∈ key)) as -> by (apply bool_decide_ext; rewrite elem_of_cons; intuition congruence).
    case_bool_decide; (split; [done|]); [|done]. intros p [= <-]. destruct (IH2 _ eq_refl) as [E L]. cbn [length take]. by rewrite E; split; [|lia].
Qed.

Lemma find_prefix_hit chain key n p r : take n key = p -> length p = n -> r ∈ chain -> prefix r = p ->
  (forall r', r' ∈ chain -> p `prefix_of` prefix r' -> prefix r' = p) ->
  exists i r', find_prefix chain key n = Some i /\ chain !! i = Some r' /\ prefix r' = p.
Proof.
  intros Ek El Hr Hp Hu. induction chain as [|q chain IH]; [by apply not_elem_of_nil in Hr|]. cbn [find_prefix].
  unfold strncmp_zero. rewrite Ek. destruct (decide (take n (prefix q) = p)) as [E|E].
  - assert (prefix q = p) as Hq by (apply Hu; [left|]; exists (drop n (prefix q)); by rewrite <- E, take_drop).
    rewrite bool_decide_true, Hq, (proj2 (Nat.leb_le _ _)) by (done || lia). exists 0%nat, q. done.
  - rewrite bool_decide_false by done. cbn [andb]. destruct IH as (i & r' & -> & H); [|intros; apply Hu; [by right|done]|].
    + apply elem_of_cons in Hr as [-> |]; [|done]. exfalso. apply E. rewrite Hp. apply take_ge. lia.
    + exists (S i), r'. done.
Qed.

Lemma find_prefix_miss chain key n p : take n key = p -> length p = n ->
  (forall r', r' ∈ chain -> ~ p `prefix_of` prefix r') -> find_prefix chain key n = None.
Proof.
  intros Ek El Hu. induction chain as [|q chain IH]; [done|]. cbn [find_prefix]. unfold strncmp_zero. rewrite Ek, bool_decide_false; cbn [andb].
  - rewrite IH; [done|]. intros r' Hr'. apply Hu. by right.
  - intros E. apply (Hu q); [left|]. exists (drop n (prefix q)). by rewrite <- E, take_drop.
Qed.

(** ** Changing the table *)

(** A chain in the middle of the table. *)
Lemma table_split (l : list (list PREFIX_STATS)) h chain : l !! h = Some chain ->
  exists before after, length before = h /\ l = before ++ chain :: after /\ (forall chain', <[h := chain']> l = before ++ chain' :: after).
Proof.
  intros H. exists (take h l), (drop (S h) l). assert (h < length l)%nat by (by eapply lookup_lt_Some).
  split; [rewrite length_take; lia|]. split; [symmetry; by apply take_drop_middle|].
  intros chain'. apply insert_take_drop. lia.
Qed.

Lemma count_ok op r : counters_ok r -> prefix (op_count op r) = prefix r /\ counters_ok (op_count op r).
Proof.
  intros (H1 & H2 & H3 & H4). destruct op as [key hit|key|key]; (split; [done|]); cbn; unfold counters_ok; cbn;
    pose proof (u64_range (num_gets r + 1)); pose proof (u64_range (num_hits r + 1)); pose proof (u64_range (num_sets r + 1)); pose proof (u64_range (num_deletes r + 1)).
  all: try (destruct hit); lia.
Qed.

Lemma map_values_insert (M : gmap (list Z) PREFIX_STATS) p r r' rest : M !! p = Some r -> r :: rest ≡ₚ (map_to_list M).*2 ->
  r' :: rest ≡ₚ (map_to_list (<[p := r']> M)).*2.
Proof.
  intros Hp H. rewrite <- insert_delete_eq, map_to_list_insert by apply lookup_delete_eq. cbn. constructor.
  rewrite <- (insert_delete_id M p r Hp), map_to_list_insert in H by apply lookup_delete_eq. cbn in H. by apply Permutation_cons_inv in H.
Qed.

(** Counting at an entry that is there. *)
Lemma upd_prefix_ok op t M h i chain r : prefix_rep t M -> prefix_stats t !! h = Some chain -> chain !! i = Some r ->
  exists t', upd_prefix (op_count op) (h, i) t = Ret t' /\ prefix_rep t' (<[prefix r := op_count op r]> M) /\
    prefix_delimiter t' = prefix_delimiter t.
Proof.
  intros R Hc Hi. unfold upd_prefix. cbn [fst snd]. rewrite Hc. cbn [deref]. rewrite ret_bind, Hi. cbn [deref]. rewrite ret_bind.
  eexists. split; [reflexivity|]. split; [|done].
  assert (M !! prefix r = Some r) as HM by (eapply chain_in; [exact R|exact Hc|by eapply list_elem_of_lookup_2]).
  destruct (pr_key _ _ R _ _ HM) as [_ Hok]. destruct (count_ok op r Hok) as [Epre Hok'].
  destruct (table_split _ _ _ Hc) as (before & after & Hl & E & Eins).
  assert (exists c1 c2, chain = c1 ++ r :: c2 /\ <[i := op_count op r]> chain = c1 ++ op_count op r :: c2) as (c1 & c2 & Ec & Ec').
  { exists (take i chain), (drop (S i) chain). split; [symmetry; by apply take_drop_middle|].
    assert (i < length chain)%nat by (by eapply lookup_lt_Some).
    apply insert_take_drop. lia. }
  set (l' := <[h := <[i := op_count op r]> chain]> (prefix_stats t)).
  assert (concat (prefix_stats t) ≡ₚ r :: (concat before ++ c1 ++ c2 ++ concat after)) as P1.
  { rewrite E, concat_app. simpl. rewrite Ec. rewrite <- app_assoc. simpl. rewrite (app_assoc c1), !Permutation_middle. rewrite <- !app_assoc. done. }
  assert (concat l' ≡ₚ op_count op r :: (concat before ++ c1 ++ c2 ++ concat after)) as P2.
  { unfold l'. rewrite Eins, Ec', concat_app. simpl. rewrite <- app_assoc. simpl. rewrite (app_assoc c1), !Permutation_middle. rewrite <- !app_assoc. done. }
  split; cbn [prefix_stats num_prefixes total_prefix_size prefix_delimiter]; fold l'.
  - unfold l'. rewrite length_insert. apply (pr_length _ _ R).
  - intros j ch q Hj Hq. unfold l' in Hj. apply list_lookup_insert_Some in Hj as [(-> & <- & _)|[_ Hj]]; [|by eapply (pr_slot _ _ R)].
    rewrite Ec' in Hq. apply elem_of_app in Hq as [Hq|Hq]; [|apply elem_of_cons in Hq as [-> |Hq]].
    + apply (pr_slot _ _ R j chain q Hc). rewrite Ec. apply elem_of_app. by left.
    + rewrite Epre. apply (pr_slot _ _ R j chain r Hc). by eapply list_elem_of_lookup_2.
    + apply (pr_slot _ _ R j chain q Hc). rewrite Ec. apply elem_of_app. right. by right.
  - rewrite P2. apply (map_values_insert M (prefix r) r); [done|]. by rewrite <- P1, (pr_all _ _ R).
  - intros p q Hq. apply lookup_insert_Some in Hq as [[<- <-]|[_ Hq]]; [by rewrite Epre|by apply (pr_key _ _ R)].
  - rewrite P2, (pr_num _ _ R), P1. done.
  - rewrite (sum_lengths_perm _ _ P2), (pr_total _ _ R), (sum_lengths_perm _ _ P1). simpl. by rewrite Epre.
Qed.

(** A new entry in front of its chain. *)
Lemma add_prefix_ok t M p chain num size : prefix_rep t M -> prefix_stats t !! slot p = Some chain -> M !! p = None ->
  num = num_prefixes t + 1 -> size = total_prefix_size t + Z.of_nat (length p) ->
  prefix_rep (mkPrefixTable (<[slot p := empty_counts p :: chain]> (prefix_stats t)) (prefix_delimiter t) num size) (<[p := empty_counts p]> M).
Proof.
  intros R Hc HM -> ->. destruct (table_split _ _ _ Hc) as (before & after & Hl & E & Eins).
  set (l' := <[slot p := empty_counts p :: chain]> (prefix_stats t)).
  assert (concat l' ≡ₚ empty_counts p :: concat (prefix_stats t)) as P.
  { unfold l'. rewrite Eins, E, !concat_app. simpl. symmetry. apply Permutation_middle. }
  split; cbn [prefix_stats num_prefixes total_prefix_size prefix_delimiter]; fold l'.
  - unfold l'. rewrite length_insert. apply (pr_length _ _ R).
  - intros j ch q Hj Hq. unfold l' in Hj. apply list_lookup_insert_Some in Hj as [(<- & <- & _)|[_ Hj]]; [|by eapply (pr_slot _ _ R)].
    apply elem_of_cons in Hq as [-> |Hq]; [done|by eapply (pr_slot _ _ R)].
  - rewrite P, map_to_list_insert by done. cbn. by rewrite (pr_all _ _ R).
  - intros q r Hq. apply lookup_insert_Some in Hq as [[<- <-]|[_ Hq]]; [|by apply (pr_key _ _ R)]. split; [done|]. unfold counters_ok. cbn. lia.
  - rewrite P. simpl. rewrite (pr_num _ _ R). lia.
  - rewrite (sum_lengths_perm _ _ P), (pr_total _ _ R). simpl. lia.
Qed.

(** ** Operations *)

Definition op_prefix (delim : Z) (op : prefix_op) : list Z := default [] (key_prefix delim (op_key op)).

Lemma run_op_ok op t M : prefix_rep t M -> Forall (fun c => c <> 0) (op_key op) ->
  (forall p, key_prefix (prefix_delimiter t) (op_key op) = Some p -> separated (p :: (map_to_list M).*1)) ->
  num_prefixes t + 1 < 2 ^ 31 -> total_prefix_size t + Z.of_nat (length (op_key op)) < 2 ^ 31 ->
  exists t', run_op t op = Ret t' /\ prefix_rep t' (spec_count (prefix_delimiter t) M op) /\ prefix_delimiter t' = prefix_delimiter t /\
    num_prefixes t' <= num_prefixes t + 1 /\ total_prefix_size t' <= total_prefix_size t + Z.of_nat (length (op_key op)).
Proof.
  intros R Hk Hsep Hnum Hsize.
  assert (run_op t op = record_prefix hash (op_count op) true true (op_key op) (length (op_key op)) t) as -> by (by destruct op).
  unfold record_prefix, stats_prefix_find, spec_count.
  destruct (prefix_length_ok (prefix_delimiter t) (op_key op) Hk) as [-> Hpre]. rewrite ret_bind.
  destruct (key_prefix (prefix_delimiter t) (op_key op)) as [p|]; cbn [fmap option_fmap option_map].
  2: { rewrite ret_bind. exists t. split; [done|]. split; [done|]. split; [done|]. lia. }
  destruct (Hpre p eq_refl) as [Ep Lp]. specialize (Hsep p eq_refl). rewrite Ep. fold (slot p).
  destruct (rep_chain t M p R) as [chain Hc]. rewrite Hc. cbn [deref]. rewrite ret_bind.
  assert (forall r', r' ∈ chain -> p `prefix_of` prefix r' -> prefix r' = p) as Hu.
  { intros r' Hr' Hpr. symmetry. apply Hsep; [left| |by apply (pr_slot _ _ R _ _ _ Hc)|done]. right. apply list_elem_of_fmap.
    exists (prefix r', r'). split; [done|]. apply elem_of_map_to_list. by eapply chain_in. }
  assert (0 <= num_prefixes t) as Hn0 by (rewrite (pr_num _ _ R); lia).
  assert (0 <= total_prefix_size t) as Ht0 by (rewrite (pr_total _ _ R); induction (concat (prefix_stats t)); simpl; lia).
  destruct (M !! p) as [r|] eqn:EM; cbn [default].
  - assert (r ∈ concat (prefix_stats t)) as Hin by (apply (rep_in t M r R); destruct (pr_key _ _ R p r EM) as [-> _]; done).
    destruct (pr_key _ _ R p r EM) as [Er _]. assert (r ∈ chain) as Hrc.
    { apply list_elem_of_In, in_concat in Hin as (ch & Hch%list_elem_of_In & Hr%list_elem_of_In). apply list_elem_of_lookup_1 in Hch as [j Hj].
      pose proof (pr_slot _ _ R j ch r Hj Hr) as Es. rewrite Er in Es. subst j. rewrite Hc in Hj. by injection Hj as ->. }
    destruct (find_prefix_hit chain (op_key op) (length p) p r Ep eq_refl Hrc Er Hu) as (i & r' & Ef & Hi & Er'). rewrite Ef, ret_bind.
    assert (r' = r) as ->. { pose proof (chain_in t M _ _ r' R Hc ltac:(by eapply list_elem_of_lookup_2)) as H. rewrite Er', EM in H. by injection H. }
    destruct (upd_prefix_ok op t M (slot p) i chain r R Hc Hi) as (t' & E & R' & Hd). rewrite Er in R'. exists t'. split; [exact E|]. split; [done|]. split; [done|].
    unfold upd_prefix in E. cbn [fst snd] in E. rewrite Hc in E. cbn [deref] in E. rewrite ret_bind, Hi in E. cbn [deref] in E. rewrite ret_bind in E. injection E as <-. cbn. lia.
  - rewrite (find_prefix_miss chain (op_key op) (length p) p Ep eq_refl).
    2: { intros r' Hr' Hpr. specialize (Hu r' Hr' Hpr). pose proof (chain_in t M _ _ r' R Hc Hr') as H. by rewrite Hu, EM in H. }
    cbn [andb negb]. rewrite !c_int_ok, !ret_bind by lia.
    set (t1 := mkPrefixTable _ _ _ _). assert (prefix_rep t1 (<[p := empty_counts p]> M)) as R1 by (by eapply add_prefix_ok).
    destruct (upd_prefix_ok op t1 _ (slot p) 0 (empty_counts p :: chain) (empty_counts p) R1) as (t' & E & R' & Hd).
    { cbn [t1 prefix_stats]. apply list_lookup_insert_eq. rewrite (pr_length _ _ R). apply slot_lt. }
    { done. }
    cbn [prefix empty_counts] in R'. rewrite insert_insert_eq in R'. exists t'. split; [exact E|]. split; [exact R'|]. split; [done|].
    pose proof (pr_num _ _ R') as N1. pose proof (pr_num _ _ R1) as N2. pose proof (pr_total _ _ R') as N3.
    unfold upd_prefix in E. destruct (deref _) in E; [|done|done]. rewrite ret_bind in E. destruct (deref _) in E; [|done|done]. rewrite ret_bind in E. injection E as <-. cbn. lia.
Qed.

Lemma separated_sub ps qs : qs ⊆ ps -> separated ps -> separated qs.
Proof. intros H Hs p q Hp Hq. apply Hs; by apply H. Qed.

Definition total_keys (ops : list prefix_op) : Z := foldr (fun op n => Z.of_nat (length (op_key op)) + n) 0 ops.

Lemma spec_prefixes delim M op : (map_to_list (spec_count delim M op)).*1 ⊆ (map_to_list M).*1 ++ option_list (key_prefix delim (op_key op)).
Proof.
  intros q. rewrite elem_of_app, !list_elem_of_fmap. intros ([q' r] & -> & H%elem_of_map_to_list). unfold spec_count in H. cbn.
  destruct (key_prefix delim (op_key op)) as [p|]; [|left; exists (q', r); by rewrite elem_of_map_to_list].
  apply lookup_insert_Some in H as [[<- _]|[_ H]]; [right; by left|]. left. exists (q', r). by rewrite elem_of_map_to_list.
Qed.

Lemma run_ops_ok delim ops t M : prefix_rep t M -> prefix_delimiter t = delim -> Forall (fun op => Forall (fun c => c <> 0) (op_key op)) ops ->
  separated ((map_to_list M).*1 ++ omap (fun op => key_prefix delim (op_key op)) ops) ->
  num_prefixes t + Z.of_nat (length ops) < 2 ^ 31 -> total_prefix_size t + total_keys ops < 2 ^ 31 ->
  exists t', run_ops ops t = Ret t' /\ prefix_rep t' (fold_left (spec_count delim) ops M).
Proof.
  intros R Hd Hk. revert t M R Hd. induction Hk as [|op ops Hop Hk IH]; intros t M R Hd Hs Hn Ht; [by exists t|]. cbn [run_ops fold_left].
  assert (0 <= total_keys ops) by (clear; induction ops; simpl; lia). cbn [length total_keys foldr] in Hn, Ht. fold (total_keys ops) in Ht.
  destruct (run_op_ok op t M R Hop) as (t1 & -> & R1 & Hd1 & Hn1 & Ht1); [|lia|lia|].
  { rewrite Hd. intros p Hp. eapply separated_sub; [|exact Hs]. intros q Hq. cbn [omap list_omap]. rewrite Hp. apply elem_of_cons in Hq as [-> |Hq]; apply elem_of_app; [right; left|by left]. }
  rewrite ret_bind, Hd in *. apply IH; [done|congruence| |lia|lia]. eapply separated_sub; [|exact Hs].
  intros q Hq. cbn [omap list_omap]. apply elem_of_app in Hq as [Hq|Hq].
  - apply spec_prefixes, elem_of_app in Hq as [Hq|Hq]; apply elem_of_app; [by left|right]. destruct (key_prefix delim (op_key op)); [|by apply not_elem_of_nil in Hq].
    apply list_elem_of_singleton in Hq as ->. left.
  - apply elem_of_app. right. destruct (key_prefix delim (op_key op)); [by right|done].
Qed.
End Facts.

(** ** The dump *)

Lemma prefix_line_length r : counters_ok r -> Z.of_nat (length (prefix_line r)) <= Z.of_nat (length (prefix r)) + (format_length - 2 + 4 * (20 - 4)).
Proof.
  intros (H1 & H2 & H3 & H4). unfold prefix_line. rewrite !length_app.
  pose proof (itoa_u64_length _ H1). pose proof (itoa_u64_length _ H2). pose proof (itoa_u64_length _ H3). pose proof (itoa_u64_length _ H4).
  change format_length with 47. cbn [text length map String.list_ascii_of_string crlf]. lia.
Qed.

Lemma dump_entries_ok size l out : Forall counters_ok l ->
  Z.of_nat (length out) + sum_lengths l + Z.of_nat (length l) * (format_length - 2 + 4 * (20 - 4)) < size ->
  dump_entries size l out = Ret (out ++ concat (map prefix_line l)) /\
  Z.of_nat (length (concat (map prefix_line l))) <= sum_lengths l + Z.of_nat (length l) * (format_length - 2 + 4 * (20 - 4)).
Proof.
  intros Hl. revert out. induction Hl as [|r l Hr Hl IH]; intros out Hs; [simpl; rewrite app_nil_r; split; [done|lia]|].
  pose proof (prefix_line_length r Hr) as Hline. cbn [dump_entries map concat]. cbn [sum_lengths foldr length] in Hs |- *. fold (sum_lengths l) in *.
  assert (0 <= sum_lengths l) by (clear; induction l; simpl; lia). change format_length with 47 in *.
  destruct (IH (out ++ prefix_line r)) as [E L]; [rewrite length_app; lia|].
  rewrite (proj2 (Z.ltb_lt _ _)) by (rewrite length_app; lia). cbn [c_assert]. rewrite ret_bind, E, <- app_assoc. split; [done|]. rewrite length_app. lia.
Qed.

Lemma dump_ok hash t M : prefix_rep hash t M ->
  stats_prefix_dump true t = Ret (Some (concat (map prefix_line (concat (prefix_stats t))) ++ text "END" ++ crlf)).
Proof.
  intros R. unfold stats_prefix_dump. cbn [negb].
  assert (Forall counters_ok (concat (prefix_stats t))) as Hok.
  { apply Forall_forall. intros r Hr%list_elem_of_In. apply (rep_in hash t M r R) in Hr. by destruct (pr_key _ _ _ R _ _ Hr). }
  destruct (dump_entries_ok (dump_size t) _ [] Hok) as [E L].
  { unfold dump_size. rewrite (pr_num _ _ _ R), (pr_total _ _ _ R). change format_length with 47. simpl length. lia. }
  rewrite E, ret_bind, app_nil_l. rewrite (proj2 (Z.ltb_ge _ _)); [done|].
  unfold dump_size. rewrite (pr_num _ _ _ R), (pr_total _ _ _ R), !length_app. change format_length with 47 in *. cbn [text length map String.list_ascii_of_string crlf]. lia.
Qed.

(** ** The theorems *)

Definition no_prefixes (delim : Z) : prefix_table := stats_prefix_init delim (mkPrefixTable [] 0 0 0).

Lemma no_prefixes_rep hash delim : prefix_rep hash (no_prefixes delim) ∅.
Proof.
  assert (concat no_chains = []) as E by (vm_compute; reflexivity).
  split; cbn [no_prefixes stats_prefix_init prefix_stats num_prefixes total_prefix_size].
  - vm_compute. reflexivity.
  - intros i chain r Hi Hr. unfold no_chains in Hi. apply lookup_replicate in Hi as [-> _]. by apply not_elem_of_nil in Hr.
  - by rewrite E, map_to_list_empty.
  - intros p r H. by rewrite lookup_empty in H.
  - by rewrite E.
  - by rewrite E.
Qed.

(** Statistics by prefix are right when no prefix starts with another one of the same chain.
    After any sequence of recorded commands the table holds exactly the counters of each prefix; the
    dump prints a line for each of them, and its buffer, whose size is an estimate, is large enough:
    neither the assertion fails nor does the last line go beyond the end. *)
Theorem prefix_stats_correct (hash : list Z -> Z) (delim : Z) (ops : list prefix_op)
    (Hkeys : Forall (fun op => Forall (fun c => c <> 0) (op_key op)) ops)
    (Hsep : separated hash (omap (fun op => key_prefix delim (op_key op)) ops))
    (Hnum : Z.of_nat (length ops) < 2 ^ 31) (Hsize : total_keys ops < 2 ^ 31) :
  exists t' l, run_ops hash ops (no_prefixes delim) = Ret t' /\ l ≡ₚ (map_to_list (fold_left (spec_count delim) ops ∅)).*2 /\
    stats_prefix_dump true t' = Ret (Some (concat (map prefix_line l) ++ text "END" ++ crlf)).
Proof.
  destruct (run_ops_ok hash delim ops (no_prefixes delim) ∅ (no_prefixes_rep hash delim) eq_refl Hkeys) as (t' & E & R); [by rewrite map_to_list_empty|done|done|].
  exists t', (concat (prefix_stats t')). split; [done|]. split; [apply (pr_all _ _ _ R)|]. by eapply dump_ok.
Qed.

(** MurmurHash3 of a key. *)
Definition murmur (key : list Z) : Z := match MurmurHash3_x86_32 key (length key) with Ret h => h | _ => 0 end.

(** A prefix can be taken for another one.  With MurmurHash3, the prefixes [item] and [item203] are
    in one chain; when [item203] has been counted first, what is done with the keys of [item] is
    counted there, because only the characters of the shorter one are compared. *)
Theorem prefix_taken_for_another :
  (t ← run_ops murmur [RecordSet (text "item203:x"); RecordGet (text "item:x") true] (no_prefixes 58); stats_prefix_dump true t) =
    Ret (Some (text "PREFIX item203 get 1 hit 1 set 1 del 0" ++ crlf ++ text "END" ++ crlf)).
Proof. vm_compute. reflexivity. Qed.

(** ** Samples *)

Definition sample_prefix_ops : list prefix_op := [RecordSet (text "item:1"); RecordGet (text "item:1") true; RecordGet (text "user:1") false; RecordGet (text "plain") true].

Lemma prefix_stats_correct_witness : exists t' l,
  run_ops murmur sample_prefix_ops (no_prefixes 58) = Ret t' /\
  stats_prefix_dump true t' = Ret (Some (concat (map prefix_line l) ++ text "END" ++ crlf)) /\ length l = 2%nat.
Proof.
  destruct (prefix_stats_correct murmur 58 sample_prefix_ops) as (t' & l & E & P & D).
  - vm_compute. repeat (constructor; [repeat (constructor; [discriminate|]); constructor|]). constructor.
  - assert (omap (fun op => key_prefix 58 (op_key op)) sample_prefix_ops = [text "item"; text "item"; text "user"]) as -> by (vm_compute; reflexivity).
    intros p q Hp Hq Hs Hpq. apply list_elem_of_In in Hp, Hq. destruct Hpq as [k ->]. simpl in Hp, Hq.
    destruct Hp as [<-|[<-|[<-|[]]]], Hq as [E|[E|[E|[]]]]; try (vm_compute in E; discriminate E); try (apply (f_equal length) in E; rewrite length_app in E; destruct k; [by rewrite app_nil_r|simpl in E; lia]).
  - vm_compute. reflexivity.
  - vm_compute. reflexivity.
  - exists t', l. split; [exact E|]. split; [exact D|]. rewrite P. vm_compute. reflexivity.
Defined.
