(* ===== verification/ObjCache.v ===== *)
(** * The object cache (src/memcached/cache.c)

    A free list in front of malloc, with a limit on the number of objects, for response objects and
    read buffers.  An address stands for the block malloc gave; the words in front of and behind the
    object are the red zones of a debugging build.  Each operation takes the mutex for itself; [malloc]
    is the address malloc answers with. *)

From S2P Require Import Prelude.
From stdpp Require Import list gmap.
Local Open Scope Z_scope.

Definition redzone_pattern : Z := 0xdeadbeefcafedeed.

(** What the program can do wrong with an object is to write into its red zones. *)
Record block := mkBlock { red_pre : Z; red_post : Z }.

Record cache_t := mkCache {
  blocks : gmap positive block;
  head : list positive;
  total : Z;
  freecurr : Z;
  limit : Z
}.

Definition cache_create : cache_t := mkCache ∅ [] 0 0 0.

Definition cache_set_limit (n : Z) (c : cache_t) : cache_t := mkCache (blocks c) (head c) (total c) (freecurr c) n.

(** The red zones of an object that is given out. *)
Definition protect (p : positive) (c : cache_t) : outcome (option positive * cache_t) :=
  _ ← deref (blocks c !! p);
  Ret (Some p, mkCache (<[p := mkBlock redzone_pattern redzone_pattern]> (blocks c)) (head c) (total c) (freecurr c) (limit c)).

Definition do_cache_alloc (malloc : option positive) (c : cache_t) : outcome (option positive * cache_t) :=
  if 0 <? freecurr c then
    p ← deref (hd_error (head c));
    protect p (mkCache (blocks c) (tl (head c)) (total c) (freecurr c - 1) (limit c))
  else if (limit c =? 0) || (total c <? limit c) then
    match malloc with
    | None => Ret (None, c)
    | Some p =>
        n ← c_int (total c + 1);
        protect p (mkCache (<[p := mkBlock 0 0]> (blocks c)) (head c) n (freecurr c) (limit c))
    end
  else Ret (None, c).

(** A damaged red zone raises SIGABRT. *)
Definition do_cache_free (p : positive) (c : cache_t) : outcome cache_t :=
  b ← deref (blocks c !! p);
  _ ← c_assert (red_post b =? redzone_pattern);
  _ ← c_assert (red_pre b =? redzone_pattern);
  if negb (limit c =? 0) && (limit c <? total c) then
    Ret (mkCache (delete p (blocks c)) (head c) (total c - 1) (freecurr c) (limit c))
  else Ret (mkCache (blocks c) (head c ++ [p]) (total c) (freecurr c + 1) (limit c)).

(** Every free object is given back; the others are not the cache's business any more. *)
Fixpoint free_all (l : list positive) (m : gmap positive block) : outcome (gmap positive block) :=
  match l with
  | [] => Ret m
  | p :: l => _ ← deref (m !! p); free_all l (delete p m)
  end.

Definition cache_destroy (c : cache_t) : outcome (gmap positive block) := free_all (head c) (blocks c).

(** ** The invariant *)

(** [used] are the objects that clients hold. *)
Record cache_rep (c : cache_t) (used : gset positive) : Prop := {
  cr_nodup : NoDup (head c);
  cr_free : freecurr c = Z.of_nat (length (head c));
  cr_disjoint : forall p, p ∈ head c -> p ∉ used;
  cr_blocks : forall p, is_Some (blocks c !! p) <-> p ∈ head c \/ p ∈ used;
  cr_used : forall p b, p ∈ used -> blocks c !! p = Some b -> b = mkBlock redzone_pattern redzone_pattern;
  cr_total : total c = Z.of_nat (length (head c)) + Z.of_nat (size used);
  cr_small : total c < 2 ^ 31
}.

(** What clients do: they allocate, give back what they hold, and set the limit.  malloc gives
    addresses that are not in use. *)
Inductive cache_step : cache_t * gset positive -> cache_t * gset positive -> Prop :=
| StepAlloc c used malloc p c' : (forall q, malloc = Some q -> blocks c !! q = None) -> total c + 1 < 2 ^ 31 ->
    do_cache_alloc malloc c = Ret (p, c') -> cache_step (c, used) (c', match p with Some p => {[p]} ∪ used | None => used end)
| StepFree c used p c' : p ∈ used -> do_cache_free p c = Ret c' -> cache_step (c, used) (c', used ∖ {[p]})
| StepLimit c used n : cache_step (c, used) (cache_set_limit n c, used).

Inductive cache_reaches : cache_t * gset positive -> Prop :=
| ReachStart : cache_reaches (cache_create, ∅)
| ReachStep s s' : cache_reaches s -> cache_step s s' -> cache_reaches s'.

Lemma create_rep : cache_rep cache_create ∅.
Proof.
  split; cbn; try done; try set_solver.
  - constructor.
  - intros p. rewrite lookup_empty. split; [by intros [? [=]]|set_solver].
Qed.

(** What an allocation gives: an object nobody has, or nothing, for a reason. *)
Definition allocated (malloc : option positive) (c : cache_t) (used : gset positive) (r : option positive) (c' : cache_t) : Prop :=
  match r with
  | Some p => p ∉ used /\ cache_rep c' ({[p]} ∪ used)
  | None => c' = c /\ head c = [] /\ (malloc = None \/ limit c <> 0 /\ limit c <= total c)
  end.

Lemma protect_rep c used p : cache_rep (mkCache (blocks c) (p :: head c) (total c) (freecurr c + 1) (limit c)) used ->
  exists c', protect p c = Ret (Some p, c') /\ p ∉ used /\ cache_rep c' ({[p]} ∪ used) /\ total c' = total c /\ limit c' = limit c.
Proof.
  intros R. assert (is_Some (blocks c !! p)) as [b Hb] by (apply (cr_blocks _ _ R p); left; left).
  assert (p ∉ used) as Hp by (apply (cr_disjoint _ _ R); left).
  unfold protect. rewrite Hb. cbn [deref]. rewrite ret_bind. eexists. split; [reflexivity|]. split; [done|]. split; [|done].
  pose proof (cr_nodup _ _ R) as Hn. cbn in Hn. apply NoDup_cons in Hn as [Hnp Hn].
  pose proof (cr_free _ _ R) as Hf. pose proof (cr_total _ _ R) as Ht. cbn [head freecurr total length] in Hf, Ht. split; cbn.
  - done.
  - lia.
  - intros q Hq. pose proof (cr_disjoint _ _ R q ltac:(by right)). assert (q <> p) by (intros ->; done). set_solver.
  - intros q. pose proof (cr_blocks _ _ R q) as Hq. cbn in Hq. destruct (decide (q = p)) as [-> |Hqp]; [rewrite lookup_insert_eq|rewrite lookup_insert_ne by done].
    + split; [set_solver|by eexists].
    + rewrite Hq, elem_of_cons. set_solver.
  - intros q b' Hq. destruct (decide (q = p)) as [-> |Hqp]; [rewrite lookup_insert_eq; by intros [= <-]|rewrite lookup_insert_ne by done].
    intros E. apply (cr_used _ _ R q); [set_solver|done].
  - rewrite size_union by set_solver. rewrite size_singleton. lia.
  - exact (cr_small _ _ R).
Qed.

(** A block from malloc, before it is given out. *)
Lemma new_block_rep c used p : cache_rep c used -> head c = [] -> blocks c !! p = None -> total c + 1 < 2 ^ 31 ->
  cache_rep (mkCache (<[p := mkBlock 0 0]> (blocks c)) [p] (total c + 1) (freecurr c + 1) (limit c)) used.
Proof.
  intros R Eh Hm Hs. destruct R as [Rn Rf Rd Rb Ru Rt Rs]. rewrite Eh in *.
  assert (p ∉ used) as Hpu by (intros Hp; assert (is_Some (blocks c !! p)) as [? ?] by (apply Rb; by right); congruence).
  split; cbn in *.
  - apply NoDup_singleton.
  - lia.
  - intros q ->%list_elem_of_singleton. done.
  - intros q. rewrite list_elem_of_singleton. destruct (decide (q = p)) as [-> |Hqp].
    + rewrite lookup_insert_eq. split; [by left|by eexists].
    + rewrite lookup_insert_ne, Rb by done. set_solver.
  - intros q b Hq. destruct (decide (q = p)) as [-> |Hqp]; [done|]. rewrite lookup_insert_ne by done. by apply Ru.
  - lia.
  - lia.
Qed.

Lemma alloc_rep c used malloc : cache_rep c used -> (forall q, malloc = Some q -> blocks c !! q = None) -> total c + 1 < 2 ^ 31 ->
  exists r c', do_cache_alloc malloc c = Ret (r, c') /\ allocated malloc c used r c' /\
    (limit c <> 0 -> total c <= limit c -> total c' <= limit c).
Proof.
  intros R Hm Hs. unfold do_cache_alloc. pose proof (cr_free _ _ R) as Hf. pose proof (cr_total _ _ R) as Ht.
  destruct (Z.ltb_spec 0 (freecurr c)) as [Hp|Hz].
  - destruct (head c) as [|p l] eqn:Eh; [simpl in Hf; lia|]. cbn [hd_error deref tl]. rewrite ret_bind.
    destruct (protect_rep (mkCache (blocks c) l (total c) (freecurr c - 1) (limit c)) used p) as (c' & -> & Hpu & R' & Ht' & Hl').
    { cbn. destruct R. rewrite Eh in *. cbn [length] in *. split; cbn [head freecurr blocks total limit length]; try done; lia. }
    exists (Some p), c'. cbn in Ht'. rewrite Ht'. done.
  - assert (head c = []) as Eh by (destruct (head c); [done|simpl in Hf; lia]).
    destruct ((limit c =? 0) || (total c <? limit c)) eqn:El.
    2: { exists None, c. split; [done|]. split; [|done]. split; [done|]. split; [done|]. right. lia. }
    destruct malloc as [p|]; [|exists None, c; split; [done|]; split; [|done]; split; [done|]; split; [done|by left]].
    rewrite c_int_ok, ret_bind by lia. rewrite Eh.
    destruct (protect_rep (mkCache (<[p := mkBlock 0 0]> (blocks c)) [] (total c + 1) (freecurr c) (limit c)) used p) as (c' & -> & Hpu & R' & Ht' & Hl').
    { cbn. by apply new_block_rep; [| |apply Hm|]. }
    exists (Some p), c'. cbn in Ht'. rewrite Ht'. split; [done|]. split; [done|]. lia.
Qed.

Lemma free_rep c used p : cache_rep c used -> p ∈ used -> exists c', do_cache_free p c = Ret c' /\ cache_rep c' (used ∖ {[p]}).
Proof.
  intros R Hp. assert (is_Some (blocks c !! p)) as [b Hb] by (apply (cr_blocks _ _ R); by right).
  unfold do_cache_free. rewrite Hb. cbn [deref]. rewrite ret_bind. rewrite (cr_used _ _ R p b Hp Hb). cbn [red_pre red_post].
  rewrite Z.eqb_refl. cbn [c_assert]. rewrite !ret_bind. assert (p ∉ head c) as Hnh by (intros H; by apply (cr_disjoint _ _ R) in H).
  assert (size used = S (size (used ∖ {[p]}))) as Hsz.
  { rewrite size_difference by set_solver. rewrite size_singleton. assert (size used <> 0)%nat by (intros E%size_empty_inv; set_solver). lia. }
  destruct R as [Rn Rf Rd Rb Ru Rt Rs]. destruct (_ && _); eexists; (split; [reflexivity|]); split; cbn.
  - done.
  - done.
  - set_solver.
  - intros q. destruct (decide (q = p)) as [-> |Hqp]; [rewrite lookup_delete_eq; split; [by intros [? [=]]|set_solver]|rewrite lookup_delete_ne, Rb by done; set_solver].
  - intros q b' Hq. destruct (decide (q = p)) as [-> |Hqp]; [set_solver|]. rewrite lookup_delete_ne by done. apply Ru. set_solver.
  - lia.
  - lia.
  - apply NoDup_app. split; [done|]. split; [set_solver|apply NoDup_singleton].
  - rewrite length_app. simpl. lia.
  - intros q [Hq|Hq%list_elem_of_singleton]%elem_of_app; [|subst q; set_solver]. apply Rd in Hq. set_solver.
  - intros q. rewrite Rb, elem_of_app, list_elem_of_singleton. destruct (decide (q = p)); set_solver.
  - intros q b' Hq. apply Ru. set_solver.
  - rewrite length_app. simpl. lia.
  - done.
Qed.

Lemma reaches_rep s : cache_reaches s -> cache_rep s.1 s.2.
Proof.
  induction 1 as [|s s' _ IH Hstep]; [apply create_rep|]. destruct Hstep as [c used malloc p c' Hm Hs E|c used p c' Hp E|c used n]; cbn in *.
  - destruct (alloc_rep c used malloc IH Hm Hs) as (r & c1 & E' & Ha & _). rewrite E in E'. injection E' as <- <-. destruct p; [apply Ha|]. by destruct Ha as [-> _].
  - destruct (free_rep c used p IH Hp) as (c1 & E' & R). rewrite E in E'. by injection E' as <-.
  - by destruct IH.
Qed.

(** Destroying the cache leaves the objects that clients still hold. *)
Lemma free_all_ok l m : NoDup l -> (forall p, p ∈ l -> is_Some (m !! p)) -> exists m', free_all l m = Ret m' /\ forall p, m' !! p = if decide (p ∈ l) then None else m !! p.
Proof.
  intros Hn. revert m. induction Hn as [|p l Hp Hn IH]; intros m Hm; [exists m; split; [done|]; intros p; by rewrite decide_False by apply not_elem_of_nil|].
  destruct (Hm p ltac:(left)) as [b Hb]. cbn [free_all]. rewrite Hb. cbn [deref]. rewrite ret_bind. destruct (IH (delete p m)) as (m' & -> & H).
  { intros q Hq. rewrite lookup_delete_ne by (by intros ->). apply Hm. by right. }
  exists m'. split; [done|]. intros q. rewrite H. destruct (decide (q = p)) as [-> |Hqp].
  - rewrite (decide_True (P := p ∈ p :: l)) by left. by rewrite decide_False, lookup_delete_eq.
  - rewrite lookup_delete_ne by done. destruct (decide (q ∈ l)); [by rewrite decide_True by (by right)|rewrite decide_False; [done|]].
    rewrite elem_of_cons. tauto.
Qed.

(** The object cache.  Whatever clients allocate, give back and set as limit, an allocation
    returns an object that nobody holds, or nothing, and then no object is free and malloc has refused or the limit is
    reached; giving back what one holds never meets a damaged red zone; an allocation does not go past the limit; and
    the cache can be destroyed, which leaves what clients hold. *)
Theorem cache_safe (c : cache_t) (used : gset positive) (H : cache_reaches (c, used)) :
  (forall malloc, (forall q, malloc = Some q -> blocks c !! q = None) -> total c + 1 < 2 ^ 31 ->
     exists r c', do_cache_alloc malloc c = Ret (r, c') /\ allocated malloc c used r c' /\ (limit c <> 0 -> total c <= limit c -> total c' <= limit c)) /\
  (forall p, p ∈ used -> exists c', do_cache_free p c = Ret c') /\
  (exists m, cache_destroy c = Ret m /\ forall p, is_Some (m !! p) <-> p ∈ used).
Proof.
  apply reaches_rep in H as R. cbn in R. split; [intros malloc; by apply alloc_rep|].
  split; [intros p Hp; destruct (free_rep c used p R Hp) as (c' & E & _); by exists c'|].
  destruct (free_all_ok (head c) (blocks c) (cr_nodup _ _ R)) as (m & E & Hm); [intros p Hp; apply (cr_blocks _ _ R); by left|].
  exists m. split; [done|]. intros p. rewrite Hm. destruct (decide (p ∈ head c)) as [Hp|Hp].
  - apply (cr_disjoint _ _ R) in Hp. split; [by intros [? [=]]|done].
  - rewrite (cr_blocks _ _ R). tauto.
Qed.

Lemma cache_safe_witness : exists c used, cache_reaches (c, used) /\ size used = 1%nat /\ exists m, cache_destroy c = Ret m /\ forall p, is_Some (m !! p) <-> p ∈ used.
Proof.
  assert (cache_reaches (mkCache (<[1%positive := mkBlock redzone_pattern redzone_pattern]> (<[1%positive := mkBlock 0 0]> ∅)) [] 1 0 0, {[1%positive]} ∪ ∅)) as H.
  { eapply ReachStep; [apply ReachStart|]. apply (StepAlloc _ _ (Some 1%positive) (Some 1%positive)); [intros q _; apply lookup_empty|done|]. reflexivity. }
  eexists _, _. split; [exact H|]. split; [reflexivity|]. exact (proj2 (proj2 (cache_safe _ _ H))).
Defined.
