(* ===== verification/Transmit.v ===== *)
(** * Sending responses (src/memcached/memcached.c)

    The responses of a connection are sent by [transmit], as many at a time as fit an array of
    vectors, and however much of them the socket takes: what has been sent is cut off the front of
    the vectors.  The value of a large item is spread over chunks; its vector only counts the bytes
    that are left.  The functions for UDP send one response in packets.  An [iov_base] is the memory
    from the pointer on; the items do not change while they are being sent. *)

From S2P Require Import Prelude.

Definition IOV_MAX : nat := 1024.
Definition UDP_MAX_PAYLOAD_SIZE : Z := 1400.
Definition UDP_HEADER_SIZE : Z := 8.
Definition UDP_DATA_SIZE : Z := 1392.
Definition USHRT_MAX : Z := 65535.

Record tiov := mkTiov { iov_base : list Z; iov_len : Z }.

(** [struct _mc_resp], as far as sending goes; [t_chunks] are the data of the chunks of the item. *)
Record tresp := mkTresp {
  t_iov : list tiov;
  t_tosend : Z;
  t_skip : bool;
  t_chunked_iov : nat;
  t_chunked_total : Z;
  t_chunks : list (list Z);
  t_request_id : Z;
  t_udp_sequence : Z;
  t_udp_total : Z
}.

Definition set_iov (l : list tiov) (tosend : Z) (r : tresp) : tresp :=
  mkTresp l tosend (t_skip r) (t_chunked_iov r) (t_chunked_total r) (t_chunks r) (t_request_id r) (t_udp_sequence r) (t_udp_total r).
Definition set_udp (seq total : Z) (r : tresp) : tresp :=
  mkTresp (t_iov r) (t_tosend r) (t_skip r) (t_chunked_iov r) (t_chunked_total r) (t_chunks r) (t_request_id r) seq total.

(** ** Filling the array: [iovs] are the bytes of the vectors so far *)

(** The bytes of a vector. *)
Definition iov_read (v : tiov) : outcome (list Z) := read_bytes (iov_base v) (Z.to_nat (iov_len v)).

(** The loop over the chunks. *)
Fixpoint chunk_iovs (chunks : list (list Z)) (done todo : Z) (iovs : list (list Z)) : list (list Z) :=
  match chunks with
  | [] => iovs
  | ch :: chunks =>
      let used := Z.of_nat (length ch) in
      if negb ((0 <? todo) && (length iovs <? IOV_MAX - 1)%nat) then iovs
      else if used =? 0 then chunk_iovs chunks done todo iovs
      else if used <=? done then chunk_iovs chunks (done - used) todo iovs
      else
        let skip := done in
        let len := if todo <? used - skip then todo else used - skip in
        chunk_iovs chunks 0 (todo - (used - skip)) (iovs ++ [take (Z.to_nat len) (drop (Z.to_nat skip) ch)])
  end.

(** The loop over the vectors of a response with chunks, from the one with number [x] on. *)
Fixpoint chunked_iovs (r : tresp) (x : nat) (l : list tiov) (iovs : list (list Z)) : outcome (list (list Z)) :=
  match l with
  | [] => Ret iovs
  | v :: l =>
      iovs ← (if (x =? t_chunked_iov r)%nat
              then Ret (chunk_iovs (t_chunks r) (t_chunked_total r - iov_len v) (iov_len v) iovs)
              else bytes ← iov_read v; Ret (iovs ++ [bytes]));
      if (IOV_MAX - 1 <=? length iovs)%nat then Ret iovs else chunked_iovs r (S x) l iovs
  end.

Fixpoint transmit_pre (one_resp : bool) (resps : list tresp) (iovs : list (list Z)) : outcome (list (list Z)) :=
  match resps with
  | [] => Ret iovs
  | r :: resps =>
      if negb (length iovs + length (t_iov r) <? IOV_MAX - 1)%nat then Ret iovs
      else if t_skip r then transmit_pre one_resp resps iovs
      else
        iovs ← (if negb (t_chunked_iov r =? 0)%nat then chunked_iovs r 0 (t_iov r) iovs
                else bs ← mapM iov_read (t_iov r); Ret (iovs ++ bs));
        if one_resp then Ret iovs else transmit_pre one_resp resps iovs
  end.

(** ** Cutting off what has been sent *)

(** The loop over the vectors of a response: the vectors, [tosend] and [res] after it. *)
Fixpoint post_iovs (chunked : nat) (x : nat) (l : list tiov) (tosend res : Z) : list tiov * Z * Z :=
  match l with
  | [] => ([], tosend, res)
  | v :: l =>
      if iov_len v <=? res then
        let '(l, tosend, res) := post_iovs chunked (S x) l (tosend - iov_len v) (res - iov_len v) in
        (mkTiov (iov_base v) 0 :: l, tosend, res)
      else
        let base := if (chunked =? 0)%nat || negb (x =? chunked)%nat then drop (Z.to_nat res) (iov_base v) else iov_base v in
        (mkTiov base (iov_len v - res) :: l, tosend - res, 0)
  end.

(** The responses that are left, and those that [resp_finish] has given back. *)
Fixpoint transmit_post (resps : list tresp) (res : Z) : list tresp * list tresp :=
  match resps with
  | [] => ([], [])
  | r :: resps =>
      if t_skip r then let '(kept, finished) := transmit_post resps res in (kept, r :: finished)
      else if t_tosend r <=? res then let '(kept, finished) := transmit_post resps (res - t_tosend r) in (kept, r :: finished)
      else
        let '(l, tosend, res) := post_iovs (t_chunked_iov r) 0 (t_iov r) (t_tosend r) res in
        let r := set_iov l tosend r in
        if tosend =? 0 then let '(kept, finished) := transmit_post resps res in (kept, r :: finished)
        else (r :: resps, [])
  end.

(** ** Sending *)

Inductive transmit_result := TRANSMIT_COMPLETE | TRANSMIT_INCOMPLETE | TRANSMIT_SOFT_ERROR | TRANSMIT_HARD_ERROR.

(** What [sendmsg] answers: it took so many bytes, it would block and the event could be set, or
    something failed. *)
Inductive send_answer := Sent (n : Z) | WouldBlock | SendFailed.

(** A call: the result, the bytes that went out, the responses that are left and those finished. *)
Record transmitted := mkTransmitted {
  tr_result : transmit_result;
  tr_sent : list Z;
  tr_left : list tresp;
  tr_finished : list tresp
}.

(** [sendmsg] is given the bytes of the message. *)
Definition transmit (sendmsg : list Z -> send_answer) (resps : list tresp) : outcome transmitted :=
  iovs ← transmit_pre false resps [];
  if (length iovs =? 0)%nat then
    let '(kept, finished) := transmit_post resps 0 in Ret (mkTransmitted TRANSMIT_COMPLETE [] kept finished)
  else
    let msg := concat iovs in
    match sendmsg msg with
    | Sent n =>
        let '(kept, finished) := transmit_post resps n in
        Ret (mkTransmitted (if (length kept =? 0)%nat then TRANSMIT_COMPLETE else TRANSMIT_INCOMPLETE) (take (Z.to_nat n) msg) kept finished)
    | WouldBlock => Ret (mkTransmitted TRANSMIT_SOFT_ERROR [] resps [])
    | SendFailed => Ret (mkTransmitted TRANSMIT_HARD_ERROR [] resps [])
    end.

(** ** UDP *)

(** The number of packets, when it is not known yet. *)
Definition udp_total_of (r : tresp) : Z :=
  if t_udp_total r =? 0 then
    let total := u32 (t_tosend r / UDP_DATA_SIZE) in
    let total := if t_tosend r mod UDP_DATA_SIZE =? 0 then total else u32 (total + 1) in
    u16 (if USHRT_MAX <? total then USHRT_MAX else total)
  else t_udp_total r.

(** The eight bytes and the response with its counters; the low byte of what is written counts. *)
Definition build_udp_header (r : tresp) : list Z * tresp :=
  let two z := [u8 (z / 256); u8 (z mod 256)] in
  (two (t_request_id r) ++ two (t_udp_sequence r) ++ two (udp_total_of r) ++ [0; 0],
   set_udp (u16 (t_udp_sequence r + 1)) (udp_total_of r) r).

(** The vectors clipped to the size of a packet; [len] is the length of those before. *)
Fixpoint clip_iovs (iovs : list (list Z)) (len : Z) : list (list Z) :=
  match iovs with
  | [] => []
  | v :: iovs =>
      if UDP_MAX_PAYLOAD_SIZE <=? len + Z.of_nat (length v) then [take (Z.to_nat (UDP_MAX_PAYLOAD_SIZE - len)) v]
      else v :: clip_iovs iovs (len + Z.of_nat (length v))
  end.

Definition transmit_udp (sendmsg : list Z -> send_answer) (resps : list tresp) : outcome transmitted :=
  match resps with
  | [] => Ret (mkTransmitted TRANSMIT_COMPLETE [] [] [])
  | r :: rest =>
      if t_skip r then Ret (mkTransmitted TRANSMIT_INCOMPLETE [] rest [r]) else
      let '(hdr, r) := build_udp_header r in
      iovs ← transmit_pre true (r :: rest) [hdr];
      let msg := concat (clip_iovs iovs 0) in
      match sendmsg msg with
      | Sent n =>
          let '(kept, finished) := transmit_post (r :: rest) (n - UDP_HEADER_SIZE) in
          Ret (mkTransmitted (if (length kept =? 0)%nat then TRANSMIT_COMPLETE else TRANSMIT_INCOMPLETE) (take (Z.to_nat n) msg) kept finished)
      | WouldBlock => Ret (mkTransmitted TRANSMIT_SOFT_ERROR [] (r :: rest) [])
      | SendFailed => Ret (mkTransmitted TRANSMIT_HARD_ERROR [] (r :: rest) [])
      end
  end.
