(* ===== verification/TransmitFacts.v ===== *)
(** * Sending responses: nothing is lost, repeated or reordered

    However little the socket takes at a time, what goes out is the concatenation of the responses. *)

From S2P Require Import Prelude Transmit.

(** ** What is left of a response *)

(** A large value from a position on. *)
Definition chunked_rest (r : tresp) (v : tiov) : list Z :=
  slice (concat (t_chunks r)) (Z.to_nat (t_chunked_total r - iov_len v)) (Z.to_nat (iov_len v)).

Definition is_chunked (r : tresp) (x : nat) : bool := negb (t_chunked_iov r =? 0)%nat && (x =? t_chunked_iov r)%nat.

Definition iov_rest (r : tresp) (x : nat) (v : tiov) : list Z :=
  if is_chunked r x then chunked_rest r v else take (Z.to_nat (iov_len v)) (iov_base v).

Fixpoint iovs_rest (r : tresp) (x : nat) (l : list tiov) : list Z :=
  match l with [] => [] | v :: l => iov_rest r x v ++ iovs_rest r (S x) l end.

Definition resp_rest (r : tresp) : list Z := if t_skip r then [] else iovs_rest r 0 (t_iov r).

Definition pending (resps : list tresp) : list Z := concat (map resp_rest resps).

Definition iov_ok (r : tresp) (x : nat) (v : tiov) : Prop :=
  0 <= iov_len v /\
  if is_chunked r x then iov_len v <= t_chunked_total r <= Z.of_nat (length (concat (t_chunks r)))
  else iov_len v <= Z.of_nat (length (iov_base v)).

Fixpoint iovs_ok (r : tresp) (x : nat) (l : list tiov) : Prop :=
  match l with [] => True | v :: l => iov_ok r x v /\ iovs_ok r (S x) l end.

Fixpoint total_len (l : list tiov) : Z := match l with [] => 0 | v :: l => iov_len v + total_len l end.

(** A response as the handlers fill it and as [transmit] leaves it. *)
Record tresp_ok (r : tresp) : Prop := {
  to_iovs : iovs_ok r 0 (t_iov r);
  to_count : (length (t_iov r) <= 4)%nat;
  to_chunked : (t_chunked_iov r < 4)%nat;
  to_tosend : t_skip r = false -> t_tosend r = total_len (t_iov r)
}.

Lemma iov_rest_length r x v : iov_ok r x v -> Z.of_nat (length (iov_rest r x v)) = iov_len v.
Proof.
  unfold iov_ok, iov_rest, chunked_rest, slice. destruct (is_chunked r x); intros [H0 H]; rewrite length_take; [rewrite length_drop|]; lia.
Qed.

Lemma iovs_rest_length r x l : iovs_ok r x l -> Z.of_nat (length (iovs_rest r x l)) = total_len l.
Proof.
  revert x. induction l as [|v l IH]; intros x; [done|]. intros [Hv Hl]. simpl. rewrite length_app, Nat2Z.inj_add, iov_rest_length, IH by done. done.
Qed.

Lemma total_len_nonneg r x l : iovs_ok r x l -> 0 <= total_len l.
Proof. intros H. rewrite <- (iovs_rest_length r x l H). lia. Qed.

Lemma resp_rest_length r : tresp_ok r -> t_skip r = false -> Z.of_nat (length (resp_rest r)) = t_tosend r.
Proof. intros R Hs. unfold resp_rest. rewrite Hs, (to_tosend _ R Hs). apply iovs_rest_length, (to_iovs _ R). Qed.

(** ** Filling the array *)

(** The vectors are the old ones and some of the bytes that follow, all of them if there was room.
    [most] new vectors may be empty. *)
Definition fills (most : nat) (iovs iovs' : list (list Z)) (bytes : list Z) : Prop :=
  exists added rest, concat iovs' = concat iovs ++ added /\ added ++ rest = bytes /\ (length iovs <= length iovs' <= IOV_MAX - 1)%nat /\
    ((length iovs' < IOV_MAX - 1)%nat -> rest = []) /\ (length iovs' <= length iovs + most + length added)%nat.

Lemma fills_nothing most iovs : (length iovs <= IOV_MAX - 1)%nat -> fills most iovs iovs [].
Proof. intros H. exists [], []. rewrite app_nil_r. split_and!; done || lia. Qed.

Lemma fills_full most iovs bytes : length iovs = (IOV_MAX - 1)%nat -> fills most iovs iovs bytes.
Proof. intros H. exists [], bytes. rewrite app_nil_r. split_and!; done || lia. Qed.

(** One part after the other; nothing more is added once the array is full. *)
Lemma fills_trans m1 m2 iovs iovs1 iovs2 b1 b2 : fills m1 iovs iovs1 b1 ->
  ((length iovs1 < IOV_MAX - 1)%nat -> fills m2 iovs1 iovs2 b2) -> (length iovs1 = (IOV_MAX - 1)%nat -> iovs2 = iovs1) ->
  fills (m1 + m2) iovs iovs2 (b1 ++ b2).
Proof.
  intros (a1 & r1 & E1 & F1 & L1 & C1 & M1) H2 Hfull. destruct (Nat.lt_ge_cases (length iovs1) (IOV_MAX - 1)) as [Hlt|Hge].
  - destruct (H2 Hlt) as (a2 & r2 & E2 & F2 & L2 & C2 & M2). rewrite (C1 Hlt), app_nil_r in F1. subst a1. exists (b1 ++ a2), r2.
    rewrite E2, E1, <- !app_assoc, F2, length_app. split_and!; done || lia.
  - rewrite Hfull by lia. exists a1, (r1 ++ b2). rewrite E1, app_assoc, F1. split_and!; done || lia.
Qed.

Lemma chunk_iovs_ok chunks done todo iovs : 0 <= done -> done + todo <= Z.of_nat (length (concat chunks)) -> (length iovs <= IOV_MAX - 1)%nat ->
  fills 0 iovs (chunk_iovs chunks done todo iovs) (slice (concat chunks) (Z.to_nat done) (Z.to_nat todo)).
Proof.
  revert done todo iovs. induction chunks as [|ch chunks IH]; intros done todo iovs Hd Hl Hi; cbn [chunk_iovs].
  { unfold slice. cbn [concat]. rewrite drop_nil, take_nil. by apply fills_nothing. }
  destruct (Z.ltb_spec 0 todo) as [Ht|Ht]; cbn [andb negb].
  2: { unfold slice. replace (Z.to_nat todo) with 0%nat by lia. rewrite take_0. by apply fills_nothing. }
  destruct (Nat.ltb_spec (length iovs) (IOV_MAX - 1)) as [Hm|Hm]; cbn [negb]; [|apply fills_full; lia].
  cbn [concat] in Hl |- *. rewrite length_app in Hl. destruct (Z.eqb_spec (Z.of_nat (length ch)) 0) as [E0|E0].
  { destruct ch; [|cbn [length] in E0; lia]. cbn [app]. apply IH; cbn [length] in Hl; lia. }
  destruct (Z.leb_spec (Z.of_nat (length ch)) done) as [Hu|Hu].
  { unfold slice. rewrite drop_app_ge by lia. replace (Z.to_nat done - length ch)%nat with (Z.to_nat (done - Z.of_nat (length ch))) by lia. apply IH; lia. }
  set (seg := take _ (drop (Z.to_nat done) ch)).
  assert (0 < length seg)%nat as Hseg by (unfold seg; rewrite length_take, length_drop; destruct (Z.ltb_spec todo (Z.of_nat (length ch) - done)); lia).
  destruct (IH 0 (todo - (Z.of_nat (length ch) - done)) (iovs ++ [seg])) as (added & rest & E1 & E2 & E3 & E4 & E5); [lia|lia|rewrite length_app; cbn [length]; lia|].
  exists (seg ++ added), rest. rewrite length_app in E3, E5. cbn [length] in E3, E5. rewrite E1, concat_app. cbn [concat]. rewrite app_nil_r, <- !app_assoc, E2.
  split; [done|]. split; [|rewrite length_app; split; [lia|split; [done|lia]]]. unfold slice, seg. rewrite drop_app_le, drop_0 by lia.
  destruct (Z.ltb_spec todo (Z.of_nat (length ch) - done)).
  - rewrite take_app_le by (rewrite length_drop; lia). replace (Z.to_nat (todo - (Z.of_nat (length ch) - done))) with 0%nat by lia. by rewrite take_0, app_nil_r.
  - rewrite take_app_ge by (rewrite length_drop; lia). rewrite length_drop. rewrite (take_ge (drop _ ch)) by (rewrite length_drop; lia). do 2 f_equal. lia.
Qed.

Lemma iov_read_ok v : 0 <= iov_len v <= Z.of_nat (length (iov_base v)) -> iov_read v = Ret (take (Z.to_nat (iov_len v)) (iov_base v)).
Proof. intros H. apply read_bytes_ok. lia. Qed.

Lemma chunked_iovs_ok r x l iovs : t_chunked_iov r <> 0%nat -> iovs_ok r x l -> (length iovs < IOV_MAX - 1)%nat ->
  exists iovs', chunked_iovs r x l iovs = Ret iovs' /\ fills (length l) iovs iovs' (iovs_rest r x l).
Proof.
  intros Hc. revert x iovs. induction l as [|v l IH]; intros x iovs Hl Hi; cbn [chunked_iovs].
  { exists iovs. split; [done|]. apply fills_nothing. lia. }
  destruct Hl as [[Hv0 Hv] Hl]. cbn [iovs_rest].
  assert (exists iovs1, (if (x =? t_chunked_iov r)%nat then Ret (chunk_iovs (t_chunks r) (t_chunked_total r - iov_len v) (iov_len v) iovs)
      else bytes ← iov_read v; Ret (iovs ++ [bytes])) = Ret iovs1 /\ fills 1 iovs iovs1 (iov_rest r x v)) as (iovs1 & -> & H1).
  { unfold iov_rest, is_chunked in *. rewrite (proj2 (Nat.eqb_neq _ _) Hc) in *. cbn [negb andb] in *. destruct (x =? t_chunked_iov r)%nat.
    - eexists. split; [reflexivity|]. destruct (chunk_iovs_ok (t_chunks r) (t_chunked_total r - iov_len v) (iov_len v) iovs) as (a & b & H); [lia|lia|lia|].
      exists a, b. destruct H as (A & B & C & D & E). split_and!; done || lia.
    - rewrite iov_read_ok by lia. rewrite ret_bind. eexists. split; [reflexivity|]. exists (take (Z.to_nat (iov_len v)) (iov_base v)), [].
      rewrite concat_app, !length_app. cbn [concat length]. rewrite !app_nil_r. split_and!; done || lia. }
  rewrite ret_bind. destruct (Nat.leb_spec (IOV_MAX - 1) (length iovs1)) as [Hf|Hf].
  - exists iovs1. split; [done|]. apply (fills_trans 1 (length l) iovs iovs1); [done|lia|done].
  - destruct (IH (S x) iovs1 Hl Hf) as (iovs2 & -> & H2). exists iovs2. split; [done|]. apply (fills_trans 1 (length l) iovs iovs1); [done|done|lia].
Qed.

Lemma plain_iovs_ok r x l : t_chunked_iov r = 0%nat -> iovs_ok r x l ->
  exists bs, mapM iov_read l = Ret bs /\ concat bs = iovs_rest r x l /\ length bs = length l.
Proof.
  intros Hc. revert x. induction l as [|v l IH]; intros x Hl; [by exists []|]. destruct Hl as [[Hv0 Hv] Hl]. cbn [mapM iovs_rest].
  unfold iov_rest, is_chunked in *. rewrite Hc in *. cbn [Nat.eqb negb andb] in *. rewrite iov_read_ok, ret_bind by lia.
  destruct (IH (S x) Hl) as (bs & -> & E & L). rewrite ret_bind. eexists. split; [reflexivity|]. cbn [concat length]. by rewrite E, L.
Qed.

(** The vectors of one response. *)
Lemma resp_iovs_ok r iovs : tresp_ok r -> t_skip r = false -> (length iovs + length (t_iov r) < IOV_MAX - 1)%nat ->
  exists iovs', (if negb (t_chunked_iov r =? 0)%nat then chunked_iovs r 0 (t_iov r) iovs else bs ← mapM iov_read (t_iov r); Ret (iovs ++ bs)) = Ret iovs' /\
    fills 4 iovs iovs' (resp_rest r).
Proof.
  intros R Hs Hi. unfold resp_rest. rewrite Hs. pose proof (to_count _ R) as H4. destruct (Nat.eqb_spec (t_chunked_iov r) 0) as [Hc|Hc]; cbn [negb].
  - destruct (plain_iovs_ok r 0 (t_iov r) Hc (to_iovs _ R)) as (bs & -> & E & L). rewrite ret_bind. eexists. split; [reflexivity|].
    exists (iovs_rest r 0 (t_iov r)), []. rewrite concat_app, length_app, E, L, app_nil_r. split_and!; done || lia.
  - destruct (chunked_iovs_ok r 0 (t_iov r) iovs Hc (to_iovs _ R) ltac:(lia)) as (iovs' & -> & a & b & H1 & H2 & H3 & H5 & H6).
    exists iovs'. split; [done|]. exists a, b. split_and!; done || lia.
Qed.

Lemma transmit_pre_ok resps iovs : Forall tresp_ok resps -> (length iovs <= IOV_MAX - 1)%nat ->
  exists iovs' added rest, transmit_pre false resps iovs = Ret iovs' /\ concat iovs' = concat iovs ++ added /\ added ++ rest = pending resps.
Proof.
  intros Hr. revert iovs. induction Hr as [|r resps R Hr IH]; intros iovs Hi; cbn [transmit_pre].
  { exists iovs, [], []. by rewrite app_nil_r. }
  unfold pending. cbn [map concat]. fold (pending resps). destruct (Nat.ltb_spec (length iovs + length (t_iov r)) (IOV_MAX - 1)) as [Hm|Hm]; cbn [negb].
  2: { exists iovs, [], (resp_rest r ++ pending resps). by rewrite app_nil_r. }
  destruct (t_skip r) eqn:Hs.
  { unfold resp_rest. rewrite Hs. by apply IH. }
  destruct (resp_iovs_ok r iovs R Hs Hm) as (iovs1 & -> & a1 & r1 & E1 & F1 & L1 & C1 & M1). rewrite ret_bind. cbn beta iota.
  destruct (Nat.lt_ge_cases (length iovs1) (IOV_MAX - 1)) as [Hlt|Hge].
  - destruct (IH iovs1 ltac:(lia)) as (iovs2 & a2 & r2 & -> & E2 & F2). rewrite (C1 Hlt), app_nil_r in F1. subst a1.
    exists iovs2, (resp_rest r ++ a2), r2. split; [done|]. rewrite E2, E1, <- !app_assoc, F2. done.
  - exists iovs1, a1, (r1 ++ pending resps). split; [|rewrite E1, app_assoc, F1; done].
    destruct resps as [|r' resps]; [done|]. cbn [transmit_pre]. by rewrite (proj2 (Nat.ltb_ge _ _)) by lia.
Qed.

(** Something is sent whenever there is something to send. *)
Definition filled (r : tresp) : Prop := t_skip r = false -> 0 < t_tosend r.

Lemma transmit_pre_progress resps : Forall tresp_ok resps -> Forall filled resps -> pending resps <> [] ->
  exists iovs, transmit_pre false resps [] = Ret iovs /\ concat iovs <> [].
Proof.
  intros Hr Hf Hp. induction Hr as [|r resps R Hr IH]; [done|]. inversion_clear Hf as [|? ? Hfr Hfs]. cbn [transmit_pre].
  pose proof (to_count _ R) as H4. rewrite (proj2 (Nat.ltb_lt _ _)) by (unfold IOV_MAX; cbn [length]; lia). cbn [negb]. unfold pending in Hp. cbn [map concat] in Hp.
  destruct (t_skip r) eqn:Hs; [unfold resp_rest in Hp; rewrite Hs in Hp; by apply IH|].
  destruct (resp_iovs_ok r [] R Hs) as (iovs1 & -> & a1 & r1 & E1 & F1 & L1 & C1 & M1); [unfold IOV_MAX; cbn [length]; lia|]. rewrite ret_bind. cbn beta iota.
  assert (a1 <> []) as Ha.
  { intros ->. destruct (Nat.lt_ge_cases (length iovs1) (IOV_MAX - 1)) as [Hlt|Hge]; [|unfold IOV_MAX in Hge; cbn [length] in M1; lia].
    rewrite (C1 Hlt) in F1. pose proof (resp_rest_length r R Hs) as Hl. rewrite <- F1 in Hl. specialize (Hfr Hs). cbn [app length] in Hl. lia. }
  destruct (transmit_pre_ok resps iovs1 Hr ltac:(lia)) as (iovs2 & a2 & r2 & -> & E2 & _). exists iovs2. split; [done|].
  rewrite E2, E1. cbn [concat app]. by destruct a1.
Qed.

(** ** Cutting off *)

Lemma post_iovs_ok r x l tosend res : iovs_ok r x l -> 0 <= res < total_len l ->
  exists l', post_iovs (t_chunked_iov r) x l tosend res = (l', tosend - res, 0) /\ iovs_ok r x l' /\
    iovs_rest r x l' = drop (Z.to_nat res) (iovs_rest r x l) /\ total_len l' = total_len l - res /\ length l' = length l.
Proof.
  revert x tosend res. induction l as [|v l IH]; intros x tosend res Hl Hr; [cbn [total_len] in Hr; lia|]. destruct Hl as [Hv Hl]. cbn [post_iovs total_len] in *.
  pose proof (iov_rest_length r x v Hv) as Hlen. destruct Hv as [Hv0 Hv]. destruct (Z.leb_spec (iov_len v) res) as [Hle|Hgt].
  - destruct (IH (S x) (tosend - iov_len v) (res - iov_len v) Hl ltac:(lia)) as (l' & -> & O & E & T & L). eexists. split; [f_equal; f_equal; lia|].
    cbn [iovs_ok iovs_rest total_len length iov_len]. split; [|split; [|split; [lia|lia]]].
    + split; [|done]. unfold iov_ok in *. cbn [iov_len iov_base]. destruct (is_chunked r x); split; lia.
    + rewrite drop_app_ge by lia. replace (Z.to_nat res - length (iov_rest r x v))%nat with (Z.to_nat (res - iov_len v)) by lia. rewrite E.
      unfold iov_rest at 1, chunked_rest, slice. cbn [iov_len iov_base]. change (Z.to_nat 0) with 0%nat. by destruct (is_chunked r x).
  - eexists. split; [reflexivity|]. cbn [iovs_ok iovs_rest total_len length iov_len]. split; [|split; [|split; [lia|done]]].
    + split; [|done]. unfold iov_ok, is_chunked in *. cbn [iov_len iov_base]. destruct (t_chunked_iov r =? 0)%nat, (x =? t_chunked_iov r)%nat; cbn [negb andb orb] in *; rewrite ?length_drop; lia.
    + rewrite drop_app_le by lia. f_equal. unfold iov_rest, chunked_rest, slice, is_chunked in *. cbn [iov_len iov_base].
      destruct (t_chunked_iov r =? 0)%nat, (x =? t_chunked_iov r)%nat; cbn [negb andb orb] in *.
      1, 2, 4: rewrite skipn_firstn_comm; f_equal; lia.
      rewrite skipn_firstn_comm, drop_drop. f_equal; [lia|]. f_equal. lia.
Qed.

Lemma set_iov_rest a b r x l : iovs_rest (set_iov a b r) x l = iovs_rest r x l.
Proof. revert x. induction l as [|v l IH]; intros x; [done|]. cbn [iovs_rest]. rewrite IH. done. Qed.

Lemma set_iov_ok a b r x l : iovs_ok r x l -> iovs_ok (set_iov a b r) x l.
Proof. revert x. induction l as [|v l IH]; intros x; [done|]. intros [Hv Hl]. split; [exact Hv|by apply IH]. Qed.

Lemma pending_cons r resps : pending (r :: resps) = resp_rest r ++ pending resps.
Proof. done. Qed.

Lemma pending_skip r resps : t_skip r = true -> pending (r :: resps) = pending resps.
Proof. intros Hs. rewrite pending_cons. unfold resp_rest. by rewrite Hs. Qed.

Lemma transmit_post_ok resps res : Forall tresp_ok resps -> Forall filled resps -> 0 <= res <= Z.of_nat (length (pending resps)) ->
  exists kept finished, transmit_post resps res = (kept, finished) /\ pending kept = drop (Z.to_nat res) (pending resps) /\
    Forall tresp_ok kept /\ Forall filled kept /\ (kept = [] \/ pending kept <> []) /\ (length finished + length kept = length resps)%nat.
Proof.
  intros Hr. revert res. induction Hr as [|r resps R Hr IH]; intros res Hf Hres.
  { exists [], []. cbn [pending map concat length] in Hres |- *. rewrite drop_nil. split_and!; auto. }
  inversion_clear Hf as [|? ? Hfr Hfs]. cbn [transmit_post].
  destruct (t_skip r) eqn:Hs.
  { rewrite (pending_skip r resps Hs) in *. destruct (IH res Hfs Hres) as (kept & fin & -> & E & O & F & N & L). eexists _, _. split; [reflexivity|].
    split_and!; try done. cbn [length]. lia. }
  rewrite pending_cons, length_app in *. pose proof (resp_rest_length r R Hs) as Hlen. specialize (Hfr Hs).
  destruct (Z.leb_spec (t_tosend r) res) as [Hle|Hgt].
  - destruct (IH (res - t_tosend r) Hfs ltac:(lia)) as (kept & fin & -> & E & O & F & N & L). eexists _, _. split; [reflexivity|].
    rewrite drop_app_ge by lia. replace (Z.to_nat res - length (resp_rest r))%nat with (Z.to_nat (res - t_tosend r)) by lia. split_and!; try done. cbn [length]. lia.
  - destruct (post_iovs_ok r 0 (t_iov r) (t_tosend r) res (to_iovs _ R)) as (l' & -> & O & E & T & L); [rewrite <- (to_tosend _ R Hs); lia|].
    rewrite (proj2 (Z.eqb_neq _ 0)) by lia. eexists _, _. split; [reflexivity|].
    assert (resp_rest (set_iov l' (t_tosend r - res) r) = drop (Z.to_nat res) (resp_rest r)) as Hrest by (unfold resp_rest; cbn [t_skip set_iov t_iov]; rewrite Hs, set_iov_rest; exact E).
    split; [rewrite pending_cons, Hrest, drop_app_le by lia; done|].
    assert (0 < length (resp_rest (set_iov l' (t_tosend r - res) r)))%nat by (rewrite Hrest, length_drop; lia).
    split_and!.
    + constructor; [|done]. destruct R as [R1 R2 R3 R4]. split; cbn [t_iov set_iov t_chunked_iov t_skip t_tosend]; [by apply set_iov_ok|lia|done|]. intros _. rewrite T, <- R4 by done. done.
    + constructor; [|done]. intros _. cbn [t_tosend set_iov]. lia.
    + right. rewrite pending_cons. destruct (resp_rest (set_iov _ _ _)); [cbn [length] in *; lia|done].
    + done.
Qed.

(** ** A call *)

(** The socket takes no more than it is given. *)
Definition honest (sendmsg : list Z -> send_answer) : Prop := forall msg n, sendmsg msg = Sent n -> 0 <= n <= Z.of_nat (length msg).

Lemma pending_empty resps : Forall tresp_ok resps -> Forall filled resps -> forall iovs, transmit_pre false resps [] = Ret iovs -> concat iovs = [] -> pending resps = [].
Proof.
  intros Hok Hf iovs E Ei. destruct (pending resps) eqn:Ep; [done|]. destruct (transmit_pre_progress resps Hok Hf) as (iovs' & E' & H); [by rewrite Ep|].
  rewrite E in E'. by injection E' as <-.
Qed.

Lemma all_skipped resps iovs : Forall tresp_ok resps -> Forall filled resps -> pending resps = [] -> transmit_pre false resps iovs = Ret iovs.
Proof.
  intros Hok. induction Hok as [|r resps R Hr IH]; intros Hf Hp; [done|]. inversion_clear Hf as [|? ? Hfr Hfs]. cbn [transmit_pre].
  rewrite pending_cons in Hp. apply app_eq_nil in Hp as [Hp Hps]. destruct (negb _); [done|]. destruct (t_skip r) eqn:Hs; [by apply IH|].
  pose proof (resp_rest_length r R Hs) as Hl. rewrite Hp in Hl. specialize (Hfr Hs). cbn [length] in Hl. lia.
Qed.

(** One call, whatever the socket answers. *)
Lemma transmit_step sendmsg resps : Forall tresp_ok resps -> Forall filled resps -> honest sendmsg ->
  exists t, transmit sendmsg resps = Ret t /\ tr_sent t ++ pending (tr_left t) = pending resps /\
    Forall tresp_ok (tr_left t) /\ Forall filled (tr_left t) /\ (tr_result t = TRANSMIT_COMPLETE <-> tr_left t = []) /\
    (tr_left t = [] \/ pending (tr_left t) <> []) /\
    ((forall msg, msg <> [] -> exists n, sendmsg msg = Sent n /\ 0 < n) ->
       (tr_result t = TRANSMIT_COMPLETE \/ tr_result t = TRANSMIT_INCOMPLETE) /\ (pending resps <> [] -> tr_sent t <> [])).
Proof.
  intros Hok Hf Hsend. unfold transmit. destruct (transmit_pre_ok resps [] Hok ltac:(cbn [length]; lia)) as (iovs & added & rest & E & E1 & E2). rewrite E, ret_bind.
  cbn [concat app] in E1. destruct (Nat.eqb_spec (length iovs) 0) as [H0|H0].
  - assert (pending resps = []) as Hp by (apply (pending_empty resps Hok Hf iovs E); by destruct iovs).
    destruct (transmit_post_ok resps 0 Hok Hf ltac:(lia)) as (kept & fin & -> & Ek & O & F & N & L). eexists. split; [reflexivity|]. cbn [tr_sent tr_left tr_result].
    change (Z.to_nat 0) with 0%nat in Ek. rewrite drop_0 in Ek. destruct N as [-> |N]; [|by rewrite Ek in N]. rewrite Hp. split_and!; auto; done.
  - assert (added <> []) as Hadd.
    { intros ->. assert (pending resps = []) as Hp by (by apply (pending_empty resps Hok Hf iovs E)). rewrite all_skipped in E by done. injection E as <-. done. }
    assert (resps <> []) as Hne by (intros ->; cbn [transmit_pre] in E; injection E as <-; done). rewrite E1.
    assert (pending resps <> []) as Hpn by (intros Ep; rewrite Ep in E2; by apply app_eq_nil in E2 as [-> _]).
    destruct (sendmsg added) as [n| |] eqn:Es.
    + assert (0 <= n <= Z.of_nat (length added)) as Hn by (by apply Hsend).
      destruct (transmit_post_ok resps n Hok Hf) as (kept & fin & -> & Ek & O & F & N & L); [rewrite <- E2, length_app; lia|]. eexists. split; [reflexivity|].
      cbn [tr_sent tr_left tr_result]. split; [rewrite Ek, <- E2, drop_app_le by lia; rewrite app_assoc, take_drop; done|].
      split; [done|]. split; [done|]. split; [destruct kept; split; done|]. split; [done|].
      intros Hprog. split; [destruct kept; cbn [length Nat.eqb]; auto|]. intros _. destruct (Hprog added Hadd) as (n' & Es' & Hn'). rewrite Es in Es'. injection Es' as <-.
      intros Et. apply (f_equal length) in Et. rewrite length_take in Et. cbn [length] in Et. destruct added; [done|]. cbn [length] in Et. lia.
    + eexists. split; [reflexivity|]. cbn [tr_sent tr_left tr_result]. split_and!; try done; [by right|]. intros Hprog. destruct (Hprog added Hadd) as (n & ? & _). congruence.
    + eexists. split; [reflexivity|]. cbn [tr_sent tr_left tr_result]. split_and!; try done; [by right|]. intros Hprog. destruct (Hprog added Hadd) as (n & ? & _). congruence.
Qed.

(** ** Until everything is sent *)

(** The turns of [drive_machine] in the state [conn_mwrite]: another call as long as one is incomplete.
    The result is what has gone out, and what is left. *)
Fixpoint transmit_all (fuel : nat) (socket : nat -> list Z -> send_answer) (resps : list tresp) : outcome (list Z * list tresp) :=
  match fuel with
  | O => Ret ([], resps)
  | S fuel =>
      t ← transmit (socket fuel) resps;
      match tr_result t with
      | TRANSMIT_INCOMPLETE => '(out, rest) ← transmit_all fuel socket (tr_left t); Ret (tr_sent t ++ out, rest)
      | _ => Ret (tr_sent t, tr_left t)
      end
  end.

(** C11: responses are sent as they are.  However many bytes the socket takes at a time and whatever
    errors it meets, what has gone out is a beginning of the concatenation of the responses, and what is
    left to send is the rest of it; and when the socket takes at least one byte of every message,
    all is sent after as many calls as there are bytes. *)
Theorem transmit_sends_all (fuel : nat) (socket : nat -> list Z -> send_answer) (resps : list tresp)
    (Hok : Forall tresp_ok resps) (Hf : Forall filled resps) (Hsock : forall k, honest (socket k)) :
  exists out rest, transmit_all fuel socket resps = Ret (out, rest) /\ out ++ pending rest = pending resps /\
    ((forall k msg, msg <> [] -> exists n, socket k msg = Sent n /\ 0 < n) -> (length (pending resps) < fuel)%nat -> out = pending resps /\ rest = []).
Proof.
  revert resps Hok Hf. induction fuel as [|fuel IH]; intros resps Hok Hf; cbn [transmit_all].
  { exists [], resps. split_and!; [done|done|lia]. }
  destruct (transmit_step (socket fuel) resps Hok Hf (Hsock fuel)) as (t & -> & E & O & F & C & N & P). rewrite ret_bind.
  assert (tr_result t <> TRANSMIT_INCOMPLETE -> exists out rest, Ret (tr_sent t, tr_left t) = Ret (out, rest) /\ out ++ pending rest = pending resps /\
    ((forall k msg, msg <> [] -> exists n, socket k msg = Sent n /\ 0 < n) -> (length (pending resps) < S fuel)%nat -> out = pending resps /\ rest = [])) as Hstop.
  { intros Hi. eexists _, _. split; [reflexivity|]. split; [done|]. intros Hprog _. destruct (P (Hprog fuel)) as [[Hc|Hc] _]; [|done].
    apply C in Hc. rewrite Hc in *. cbn [pending map concat] in E. rewrite app_nil_r in E. done. }
  destruct (tr_result t) eqn:Er; try (by apply Hstop).
  destruct (IH (tr_left t) O F) as (out & rest & -> & E' & H). rewrite ret_bind. exists (tr_sent t ++ out), rest. split; [done|].
  rewrite <- app_assoc, E', E. split; [done|]. intros Hprog Hlen.
  assert (tr_sent t <> []) as Hs.
  { apply (P (Hprog fuel)). intros Hp. rewrite Hp in E. apply app_eq_nil in E as [_ E]. destruct N as [N|N]; [|done]. apply C in N. congruence. }
  assert (0 < length (tr_sent t))%nat by (destruct (tr_sent t); [done|cbn [length]; lia]).
  destruct (H Hprog) as [-> ->]; [apply (f_equal length) in E; rewrite length_app in E; lia|]. done.
Qed.

(** ** UDP *)

(** The bytes of the clipped vectors: the first ones of all of them. *)
Lemma clip_iovs_ok iovs len : 0 <= len <= UDP_MAX_PAYLOAD_SIZE ->
  concat (clip_iovs iovs len) = take (Z.to_nat (UDP_MAX_PAYLOAD_SIZE - len)) (concat iovs).
Proof.
  revert len. induction iovs as [|v iovs IH]; intros len Hl; cbn [clip_iovs concat]; [by rewrite take_nil|].
  destruct (Z.leb_spec UDP_MAX_PAYLOAD_SIZE (len + Z.of_nat (length v))).
  - cbn [concat]. rewrite app_nil_r, take_app_le by lia. done.
  - cbn [concat]. rewrite IH by lia. rewrite take_app_ge by lia. f_equal. f_equal. lia.
Qed.

(** The number of packets of a response. *)
Definition packets (n : Z) : Z := n / UDP_DATA_SIZE + (if n mod UDP_DATA_SIZE =? 0 then 0 else 1).

Definition udp_header (id seq total : Z) : list Z :=
  [u8 (id / 256); u8 (id mod 256); u8 (seq / 256); u8 (seq mod 256); u8 (total / 256); u8 (total mod 256); 0; 0].

(** Packet [i] of a response whose bytes are [bytes]. *)
Definition udp_packet (id : Z) (bytes : list Z) (i : nat) : list Z :=
  udp_header id (Z.of_nat i) (packets (Z.of_nat (length bytes))) ++ slice bytes (Z.to_nat UDP_DATA_SIZE * i) (Z.to_nat UDP_DATA_SIZE).

(** Packets until the response is finished; the socket takes whole packets. *)
Fixpoint udp_all (fuel : nat) (resps : list tresp) : outcome (list (list Z) * list tresp) :=
  match fuel with
  | O => Ret ([], resps)
  | S fuel =>
      t ← transmit_udp (fun msg => Sent (Z.of_nat (length msg))) resps;
      match tr_result t with
      | TRANSMIT_INCOMPLETE => '(out, rest) ← udp_all fuel (tr_left t); Ret (tr_sent t :: out, rest)
      | _ => Ret ([tr_sent t], tr_left t)
      end
  end.

Lemma set_udp_rest a b r x l : iovs_rest (set_udp a b r) x l = iovs_rest r x l.
Proof. revert x. induction l as [|v l IH]; intros x; [done|]. cbn [iovs_rest]. rewrite IH. done. Qed.

Lemma set_udp_iovs a b r x l : iovs_ok r x l -> iovs_ok (set_udp a b r) x l.
Proof. revert x. induction l as [|v l IH]; intros x; [done|]. intros [Hv Hl]. split; [exact Hv|by apply IH]. Qed.

Lemma set_udp_ok a b r : tresp_ok r -> tresp_ok (set_udp a b r).
Proof. intros [R1 R2 R3 R4]. split; try done. by apply set_udp_iovs. Qed.

(** A packet of a plain response: its header and the next bytes; the counters go on. *)
Lemma transmit_udp_step r total : tresp_ok r -> t_skip r = false -> t_chunked_iov r = 0%nat -> 0 < t_tosend r ->
  total = (if t_udp_total r =? 0 then packets (t_tosend r) else t_udp_total r) -> 0 < total <= USHRT_MAX -> t_tosend r < 2 ^ 32 ->
  0 <= t_udp_sequence r < USHRT_MAX ->
  let sent := Z.min (t_tosend r) UDP_DATA_SIZE in
  exists t, transmit_udp (fun msg => Sent (Z.of_nat (length msg))) [r] = Ret t /\
    tr_sent t = udp_header (t_request_id r) (t_udp_sequence r) total ++ take (Z.to_nat sent) (resp_rest r) /\
    (if t_tosend r <=? UDP_DATA_SIZE then tr_result t = TRANSMIT_COMPLETE /\ tr_left t = []
     else tr_result t = TRANSMIT_INCOMPLETE /\ exists r', tr_left t = [r'] /\ tresp_ok r' /\ t_skip r' = false /\ t_chunked_iov r' = 0%nat /\
       t_tosend r' = t_tosend r - UDP_DATA_SIZE /\ t_udp_total r' = total /\ t_udp_sequence r' = t_udp_sequence r + 1 /\
       t_request_id r' = t_request_id r /\ resp_rest r' = drop (Z.to_nat UDP_DATA_SIZE) (resp_rest r)).
Proof.
  intros R Hs Hc Hpos Htot Hr Hsmall Hseq sent. unfold transmit_udp. rewrite Hs.
  assert (build_udp_header r = (udp_header (t_request_id r) (t_udp_sequence r) total, set_udp (t_udp_sequence r + 1) total r)) as ->.
  { unfold build_udp_header. assert (udp_total_of r = total) as ->.
    { subst total. unfold udp_total_of. destruct (t_udp_total r =? 0); [|done]. unfold packets, UDP_DATA_SIZE, USHRT_MAX in *. cbn zeta.
      assert (0 <= t_tosend r / 1392 < 2 ^ 31) by zdm. rewrite (u32_id (t_tosend r / 1392)) by lia.
      revert Hr. destruct (t_tosend r mod 1392 =? 0); intros Hr; rewrite ?u32_id by lia; rewrite (proj2 (Z.ltb_ge _ _)) by lia; unfold u16; rewrite Z.mod_small by lia; lia. }
    replace (u16 (t_udp_sequence r + 1)) with (t_udp_sequence r + 1) by (unfold u16, USHRT_MAX in *; rewrite Z.mod_small; lia). done. }
  set (r1 := set_udp (t_udp_sequence r + 1) total r). assert (tresp_ok r1) as R1 by (by apply set_udp_ok).
  assert (resp_rest r1 = resp_rest r) as Hrest by (unfold resp_rest, r1; cbn [set_udp t_skip t_iov]; fold (set_udp (t_udp_sequence r + 1) total r); by rewrite set_udp_rest).
  set (hdr := udp_header (t_request_id r) (t_udp_sequence r) total).
  assert (exists iovs, transmit_pre true [r1] [hdr] = Ret iovs /\ concat iovs = hdr ++ resp_rest r) as (iovs & -> & Ei).
  { cbn [transmit_pre]. pose proof (to_count _ R1) as H4. rewrite (proj2 (Nat.ltb_lt _ _)) by (unfold IOV_MAX; cbn [length]; lia). cbn [negb].
    change (t_skip r1) with (t_skip r). change (t_chunked_iov r1) with (t_chunked_iov r). rewrite Hs, Hc. cbn [Nat.eqb negb].
    destruct (plain_iovs_ok r1 0 (t_iov r1) Hc (to_iovs _ R1)) as (bs & -> & E & _). rewrite !ret_bind. eexists. split; [reflexivity|].
    rewrite concat_app. cbn [concat]. rewrite app_nil_r, E, <- Hrest. unfold resp_rest. change (t_skip r1) with (t_skip r). by rewrite Hs. }
  rewrite ret_bind, clip_iovs_ok, Ei by (unfold UDP_MAX_PAYLOAD_SIZE; lia).
  pose proof (resp_rest_length r R Hs) as Hlen.
  assert (take (Z.to_nat (UDP_MAX_PAYLOAD_SIZE - 0)) (hdr ++ resp_rest r) = hdr ++ take (Z.to_nat sent) (resp_rest r)) as ->.
  { rewrite take_app_ge by (change (length hdr) with 8%nat; unfold UDP_MAX_PAYLOAD_SIZE; lia). f_equal. unfold sent, UDP_DATA_SIZE. replace (Z.to_nat (UDP_MAX_PAYLOAD_SIZE - 0) - length hdr)%nat with (Z.to_nat 1392) by (change (length hdr) with 8%nat; unfold UDP_MAX_PAYLOAD_SIZE; lia).
    destruct (Z.le_gt_cases (t_tosend r) 1392); [rewrite Z.min_l by lia; by rewrite !take_ge by lia|by rewrite Z.min_r by lia]. }
  set (msg := hdr ++ take (Z.to_nat sent) (resp_rest r)).
  assert (Z.of_nat (length msg) = 8 + sent) as Hmsg by (unfold msg, sent, UDP_DATA_SIZE in *; rewrite length_app, length_take; change (length hdr) with 8%nat; lia).
  rewrite Hmsg. replace (8 + sent - UDP_HEADER_SIZE) with sent by (unfold UDP_HEADER_SIZE; lia).
  replace (take (Z.to_nat (8 + sent)) msg) with msg by (symmetry; apply take_ge; lia).
  assert (Forall filled [r1]) as Hf1 by (constructor; [|done]; intros _; exact Hpos).
  assert (pending [r1] = resp_rest r) as Hp1 by (cbn [pending map concat]; by rewrite app_nil_r, Hrest).
  destruct (transmit_post_ok [r1] sent) as (kept & fin & Ep & Ek & O & F & N & L); [by constructor|done|rewrite Hp1; unfold sent, UDP_DATA_SIZE; lia|].
  rewrite Hp1 in Ek. destruct (Z.leb_spec (t_tosend r) UDP_DATA_SIZE) as [Hle|Hgt].
  - unfold sent in *. rewrite Z.min_l in * by lia. rewrite drop_ge in Ek by lia. destruct N as [-> |N]; [|by rewrite Ek in N].
    rewrite Ep. eexists. split; [reflexivity|]. done.
  - unfold sent in *. rewrite Z.min_r in * by lia.
    cbn [transmit_post] in Ep |- *. change (t_skip r1) with (t_skip r) in *. rewrite Hs in *. change (t_tosend r1) with (t_tosend r) in *.
    rewrite (proj2 (Z.leb_gt _ _)) in * by lia. change (t_iov r1) with (t_iov r) in *.
    destruct (post_iovs (t_chunked_iov r1) 0 (t_iov r) (t_tosend r) UDP_DATA_SIZE) as [[l' tosend'] res'] eqn:Epost.
    destruct (post_iovs_ok r1 0 (t_iov r) (t_tosend r) UDP_DATA_SIZE) as (l2 & E2 & _); [exact (to_iovs _ R1)|rewrite <- (to_tosend _ R Hs); unfold UDP_DATA_SIZE in *; lia|].
    rewrite Epost in E2. injection E2 as -> -> ->. rewrite (proj2 (Z.eqb_neq _ 0)) in * by lia. injection Ep as <- <-.
    eexists. split; [reflexivity|]. cbn [tr_sent tr_result tr_left length Nat.eqb]. split; [done|]. split; [done|]. eexists. split; [reflexivity|].
    inversion_clear O as [|? ? Or _]. split; [exact Or|]. cbn [pending map concat] in Ek. rewrite app_nil_r in Ek. split_and!; try done.
Qed.

Lemma packets_step n : UDP_DATA_SIZE < n -> packets n = packets (n - UDP_DATA_SIZE) + 1 /\ 0 < packets (n - UDP_DATA_SIZE).
Proof.
  unfold packets, UDP_DATA_SIZE. intros Hn.
  assert ((n - 1392) / 1392 = n / 1392 - 1) as -> by zdm. assert ((n - 1392) mod 1392 = n mod 1392) as -> by zdm.
  destruct (Z.eqb_spec (n mod 1392) 0); [split; [lia|zdm]|split; [lia|zdm]].
Qed.

Lemma packets_last n : 0 < n <= UDP_DATA_SIZE -> packets n = 1.
Proof. unfold packets, UDP_DATA_SIZE. intros Hn. destruct (Z.eqb_spec (n mod 1392) 0); zdm. Qed.

Lemma udp_all_ok fuel r total m : tresp_ok r -> t_skip r = false -> t_chunked_iov r = 0%nat -> 0 < t_tosend r < 2 ^ 32 ->
  total = (if t_udp_total r =? 0 then packets (t_tosend r) else t_udp_total r) -> 0 < total <= USHRT_MAX ->
  0 <= t_udp_sequence r -> packets (t_tosend r) = Z.of_nat m -> t_udp_sequence r + Z.of_nat m <= USHRT_MAX -> (m <= fuel)%nat ->
  udp_all fuel [r] = Ret (map (fun j => udp_header (t_request_id r) (t_udp_sequence r + Z.of_nat j) total
                                        ++ slice (resp_rest r) (Z.to_nat UDP_DATA_SIZE * j) (Z.to_nat UDP_DATA_SIZE)) (seq 0 m), []).
Proof.
  revert r m. induction fuel as [|fuel IH]; intros r m R Hs Hc Hn Ht Htot Hseq Hm Hend Hf.
  { exfalso. destruct (Z.le_gt_cases (t_tosend r) UDP_DATA_SIZE) as [H|H]; [rewrite packets_last in Hm by lia; lia|]. destruct (packets_step _ H). lia. }
  cbn [udp_all]. pose proof (resp_rest_length r R Hs) as Hlen.
  assert (0 < Z.of_nat m) as Hm0 by (destruct (Z.le_gt_cases (t_tosend r) UDP_DATA_SIZE) as [H|H]; [rewrite packets_last in Hm by lia; lia|destruct (packets_step _ H); lia]).
  destruct (transmit_udp_step r total R Hs Hc ltac:(lia) Ht Htot ltac:(lia) ltac:(lia)) as (t & -> & Esent & Hres). rewrite ret_bind.
  destruct (Z.leb_spec (t_tosend r) UDP_DATA_SIZE) as [Hle|Hgt].
  - destruct Hres as [-> ->]. rewrite packets_last in Hm by lia. assert (m = 1%nat) as -> by lia. cbn [seq map]. rewrite Esent, Z.add_0_r, Nat.mul_0_r, Z.min_l by lia.
    unfold slice. rewrite drop_0, !take_ge by lia. done.
  - destruct Hres as (-> & r' & -> & R' & Hs' & Hc' & Hn' & Ht' & Hseq' & Hid' & Hrest'). destruct (packets_step _ Hgt) as [Hp Hp'].
    destruct m as [|m]; [lia|]. rewrite (IH r' m R' Hs' Hc'); [|unfold UDP_DATA_SIZE in *; lia| |done|lia|rewrite Hn'; lia|lia|lia].
    2: { rewrite Ht'. by rewrite (proj2 (Z.eqb_neq _ 0)) by lia. }
    rewrite ret_bind. cbn [seq map]. rewrite Esent, Z.add_0_r, Nat.mul_0_r, Z.min_r by lia. do 2 f_equal.
    rewrite <- seq_shift, map_map. f_equal. apply map_ext. intros j. rewrite Hid', Hseq', Hrest'. unfold slice. rewrite drop_drop.
    replace (t_udp_sequence r + 1 + Z.of_nat j) with (t_udp_sequence r + Z.of_nat (S j)) by lia.
    by replace (Z.to_nat UDP_DATA_SIZE + Z.to_nat UDP_DATA_SIZE * j)%nat with (Z.to_nat UDP_DATA_SIZE * S j)%nat by lia.
Qed.

(** UDP.  A response of at most 65535 packets goes out in packets of 1392 bytes each, the last one
    with what is left; each has the number of the request, its own number, counted from 0, and the
    number of all packets, so that a client can put the response together. *)
Theorem udp_packets_correct (r : tresp) (R : tresp_ok r) (Hs : t_skip r = false) (Hc : t_chunked_iov r = 0%nat)
    (Hn : 0 < t_tosend r <= USHRT_MAX * UDP_DATA_SIZE) (Hseq : t_udp_sequence r = 0) (Ht : t_udp_total r = 0) :
  udp_all (Z.to_nat (packets (t_tosend r))) [r] =
    Ret (map (udp_packet (t_request_id r) (resp_rest r)) (seq 0 (Z.to_nat (packets (t_tosend r)))), []).
Proof.
  assert (0 < packets (t_tosend r) <= USHRT_MAX) as Hp.
  { unfold packets, USHRT_MAX, UDP_DATA_SIZE in *. destruct (Z.eqb_spec (t_tosend r mod 1392) 0); zdm. }
  rewrite (udp_all_ok _ r (packets (t_tosend r)) (Z.to_nat (packets (t_tosend r))) R Hs Hc); [|unfold USHRT_MAX, UDP_DATA_SIZE in Hn; lia| |done|lia|lia|lia|lia].
  2: { by rewrite Ht. }
  f_equal. f_equal. apply map_ext. intros j. unfold udp_packet. rewrite (resp_rest_length r R Hs), Hseq. done.
Qed.

(** ** Samples *)

(** A value in three chunks behind a line, with a line break after it; and a command that is not answered. *)
Definition sample_chunked : tresp :=
  mkTresp [mkTiov [1; 2; 3; 9] 3; mkTiov [] 5; mkTiov [8] 1] 9 false 1 5 [[4; 5]; []; [6; 7; 4; 0]] 0 0 0.
Definition sample_skipped : tresp := mkTresp [] 0 true 0 0 [] 0 0 0.

Lemma sample_resps_ok : Forall tresp_ok [sample_skipped; sample_chunked] /\ Forall filled [sample_skipped; sample_chunked].
Proof.
  split.
  - constructor; [|constructor; [|constructor]].
    + split; cbn; [done|lia|lia|done].
    + split; cbn; [unfold iov_ok; cbn; lia|lia|lia|done].
  - constructor; [done|]. constructor; [by intros _|constructor].
Qed.

(** One byte at a time. *)
Lemma transmit_sends_all_witness :
  transmit_all 10 (fun _ msg => Sent (Z.min 1 (Z.of_nat (length msg)))) [sample_skipped; sample_chunked] = Ret ([1; 2; 3; 4; 5; 6; 7; 4; 8], []).
Proof.
  destruct (transmit_sends_all 10 (fun _ msg => Sent (Z.min 1 (Z.of_nat (length msg)))) [sample_skipped; sample_chunked]) as (out & rest & E & _ & H).
  - apply sample_resps_ok.
  - apply sample_resps_ok.
  - intros k msg n [= <-]. lia.
  - destruct H as [Ho Hr]; [|vm_compute; lia|rewrite E, Ho, Hr; reflexivity]. intros k msg Hm. exists 1. destruct msg; [by destruct (Hm eq_refl)|]. split; [f_equal; cbn [length]; lia|lia].
Defined.

Definition sample_long : tresp := mkTresp [mkTiov (replicate 2000 7) 2000] 2000 false 0 0 [] 3 0 0.

Lemma sample_long_ok : tresp_ok sample_long.
Proof.
  split; [|cbn; lia|cbn; lia|done]. unfold sample_long. cbn [t_iov iovs_ok]. split; [|done].
  unfold iov_ok. change (is_chunked _ 0) with false. cbn [iov_len iov_base]. rewrite length_replicate. lia.
Qed.

Lemma udp_packets_correct_witness :
  udp_all 2 [sample_long] = Ret ([udp_packet 3 (resp_rest sample_long) 0; udp_packet 3 (resp_rest sample_long) 1], []).
Proof.
  assert (0 < t_tosend sample_long <= USHRT_MAX * UDP_DATA_SIZE) as Hn by (vm_compute; split; [done|intros [=]]).
  pose proof (udp_packets_correct sample_long sample_long_ok eq_refl eq_refl Hn eq_refl eq_refl) as E.
  change (Z.to_nat (packets (t_tosend sample_long))) with 2%nat in E. exact E.
Defined.

(** A packet that could not be sent at once has lost its number: the counter goes on before the send. *)
Example udp_retry_skips_number :
  (t ← transmit_udp (fun _ => WouldBlock) [mkTresp [mkTiov [65; 66] 2] 2 false 0 0 [] 3 0 0];
   t ← transmit_udp (fun msg => Sent (Z.of_nat (length msg))) (tr_left t);
   Ret (tr_sent t)) = Ret (udp_header 3 1 1 ++ [65; 66]).
Proof. reflexivity. Qed.
