(* ===== verification/Bumps.v ===== *)
(** * The queue of bumped items (src/memcached/items.c)

    A worker that hits an item of the COLD LRU a second time does not move it: it puts a pointer to
    the item into a buffer of its thread, with a reference, and the maintainer moves it later.  The
    buffers are those of bipbuffer.c; an entry is a pointer of eight bytes, the hash value of the key
    and four bytes of padding, which keep what the memory held. *)

From S2P Require Import Prelude Items Bipbuffer.
Local Open Scope Z_scope.

Definition LRU_BUMP_BUF_SIZE : Z := 8192.

(** [sizeof(lru_bump_entry)]. *)
Definition bump_entry_size : Z := 16.

Record lru_bump_buf := mkBumpBuf { bump_buf : bipbuf_t; bump_dropped : Z }.

(** An integer in [n] bytes of a little-endian machine. *)
Fixpoint le_store (n : nat) (z : Z) : list Z :=
  match n with
  | O => []
  | S n => z mod 256 :: le_store n (z / 256)
  end.

(** What the assignments to [be->it] and [be->hv] write. *)
Definition lru_bump_entry (p : positive) (hv : Z) : list Z := le_store 8 (Zpos p) ++ le_store 4 hv.

(** The buffers of the threads, the newest first ([lru_bump_buf_link_q]). *)
Definition item_lru_bump_buf_create (mem granted : bool) (fill : nat -> Z) (bufs : list lru_bump_buf) : bool * list lru_bump_buf :=
  if negb mem then (false, bufs) else
  match bipbuf_new granted fill (bump_entry_size * LRU_BUMP_BUF_SIZE) with
  | None => (false, bufs)
  | Some buf => (true, mkBumpBuf buf 0 :: bufs)
  end.

Section Bumps.
Context {T : Type} `{!ItemTable T} (cfg : settings).

Definition lru_bump_async (b : lru_bump_buf) (p : positive) (hv : Z) (s : store T) : outcome (bool * lru_bump_buf * store T) :=
  s ← refcount_incr p s;
  '(ret, b) ←
    match bipbuf_request (bump_buf b) bump_entry_size with
    | Some be =>
        buf ← store_at (bump_buf b) be (lru_bump_entry p hv);
        let '(n, buf) := bipbuf_push buf bump_entry_size in
        Ret (if n =? 0 then (false, mkBumpBuf buf (u64 (bump_dropped b + 1))) else (true, mkBumpBuf buf (bump_dropped b)))
    | None => Ret (false, mkBumpBuf (bump_buf b) (u64 (bump_dropped b + 1)))
    end;
  s ← (if negb ret then refcount_decr p s else Ret s);
  Ret (ret, b, s).

(** [do_item_bump] with the buffer of the thread. *)
Definition do_item_bump_async (b : lru_bump_buf) (p : positive) (hv : Z) (s : store T) : outcome (lru_bump_buf * store T) :=
  it ← get_item p s;
  if lru_segmented cfg then
    if has_flag ITEM_ACTIVE it then Ret (b, s)
    else if has_flag ITEM_FETCHED it then
      s ← upd_item p (raise_flag ITEM_ACTIVE) s;
      if negb (ITEM_lruid it =? COLD_LRU) then s ← upd_item p (set_time (current_time cfg)) s; Ret (b, s)
      else
        '(ret, b, s) ← lru_bump_async b p hv s;
        s ← (if negb ret then upd_item p (clear_flag ITEM_ACTIVE) s else Ret s);
        Ret (b, s)
    else s ← upd_item p (raise_flag ITEM_FETCHED) s; Ret (b, s)
  else
    s ← upd_item p (raise_flag ITEM_FETCHED) s;
    s ← do_item_update cfg p s;
    Ret (b, s).

(** The loop over the entries: [be] is the offset of the next one. *)
Fixpoint bump_entries (fuel : nat) (me : bipbuf_t) (be todo : Z) (s : store T) : outcome (store T) :=
  if todo =? 0 then Ret s else
  match fuel with
  | O => Ub
  | S fuel =>
      bytes ← read_bytes (drop (Z.to_nat be) (bb_data me)) 12;
      match le_load (take 8 bytes) with
      | Zpos p =>
          s ← do_item_update cfg p s;
          s ← do_item_remove p s;
          bump_entries fuel me (be + bump_entry_size) (u32 (todo - bump_entry_size)) s
      | _ => Ub
      end
  end.

(** There are at most as many entries as bytes. *)
Fixpoint lru_maintainer_bumps (bufs : list lru_bump_buf) (s : store T) : outcome (bool * list lru_bump_buf * store T) :=
  match bufs with
  | [] => Ret (false, [], s)
  | b :: bufs =>
      match bipbuf_peek_all (bump_buf b) with
      | None => '(bumped, bufs, s) ← lru_maintainer_bumps bufs s; Ret (bumped, b :: bufs, s)
      | Some (be, size) =>
          s ← bump_entries (Z.to_nat size) (bump_buf b) be size s;
          let '(_, buf) := bipbuf_poll (bump_buf b) size in
          '(_, bufs, s) ← lru_maintainer_bumps bufs s;
          Ret (true, mkBumpBuf buf (bump_dropped b) :: bufs, s)
      end
  end.

End Bumps.

Definition lru_total_bumps_dropped (bufs : list lru_bump_buf) : Z :=
  fold_left (fun total b => u64 (total + bump_dropped b)) bufs 0.
