(* ===== verification/BumpFacts.v ===== *)
(** * No reference is lost in the queue of bumped items

    Each entry of a buffer stands for one reference to its item: workers add entries, the maintainer
    takes them out, and the count of every item is that of its other holders and of its entries. *)

From S2P Require Import AssocFacts.
From S2P Require Import Prelude Items LruFacts ItemsFacts Bipbuffer Bumps.
From S2P Require Import Assoc ItemTableAssoc Samples.
Local Open Scope Z_scope.

(** ** Entries and bytes *)

(** An entry: the item, the hash value and the padding. *)
Record entry := mkEntry { e_item : positive; e_hv : Z; e_pad : list Z }.

Definition entry_bytes (e : entry) : list Z := lru_bump_entry (e_item e) (e_hv e) ++ e_pad e.

Record entry_ok (e : entry) : Prop := { eo_pad : length (e_pad e) = 4%nat; eo_item : Zpos (e_item e) < 2 ^ 64 }.

Lemma length_le_store n z : length (le_store n z) = n.
Proof. revert z. induction n as [|n IH]; intros z; [done|]. cbn [le_store length]. by rewrite IH. Qed.

Lemma le_load_store n z : 0 <= z < 256 ^ Z.of_nat n -> le_load (le_store n z) = z.
Proof.
  revert z. induction n as [|n IH]; intros z Hz; [simpl in *; lia|]. cbn [le_store].
  change (le_load (z mod 256 :: le_store n (z / 256))) with (z mod 256 + 256 * le_load (le_store n (z / 256))).
  rewrite Nat2Z.inj_succ, Z.pow_succ_r in Hz by lia. rewrite IH.
  - pose proof (Z.div_mod z 256). lia.
  - split; [apply Z.div_pos; lia|apply Z.div_lt_upper_bound; lia].
Qed.

Lemma length_entry p hv : length (lru_bump_entry p hv) = 12%nat.
Proof. unfold lru_bump_entry. by rewrite length_app, !length_le_store. Qed.

Lemma length_entry_bytes e : entry_ok e -> length (entry_bytes e) = 16%nat.
Proof. intros [H _]. unfold entry_bytes. rewrite length_app, length_entry. lia. Qed.

Lemma entry_pointer e rest : entry_ok e -> le_load (take 8 (take 12 (entry_bytes e ++ rest))) = Zpos (e_item e).
Proof.
  intros [_ H]. rewrite take_take. change (8 `min` 12)%nat with 8%nat. unfold entry_bytes, lru_bump_entry.
  rewrite <- !app_assoc, take_app_le, take_ge by (rewrite length_le_store; lia). apply le_load_store. simpl. lia.
Qed.

Lemma length_bump_entries es : Forall entry_ok es -> length (concat (map entry_bytes es)) = (16 * length es)%nat.
Proof. induction 1 as [|e es He _ IH]; [done|]. cbn [map concat length]. rewrite length_app, length_entry_bytes, IH by done. lia. Qed.

Lemma take_entries k es : Forall entry_ok es -> take (16 * k) (concat (map entry_bytes es)) = concat (map entry_bytes (take k es)).
Proof.
  intros H. revert k. induction H as [|e es He _ IH]; intros k; [cbn [map concat]; by rewrite !take_nil|]. destruct k as [|k]; [by rewrite Nat.mul_0_r|].
  cbn [map concat take]. rewrite take_app_ge by (rewrite length_entry_bytes by done; lia). rewrite length_entry_bytes by done.
  f_equal. rewrite <- IH. f_equal. lia.
Qed.

Lemma drop_entries k es : Forall entry_ok es -> drop (16 * k) (concat (map entry_bytes es)) = concat (map entry_bytes (drop k es)).
Proof.
  intros H. revert k. induction H as [|e es He _ IH]; intros k; [cbn [map concat]; by rewrite !drop_nil|]. destruct k as [|k]; [by rewrite Nat.mul_0_r|].
  cbn [map concat drop]. rewrite drop_app_ge by (rewrite length_entry_bytes by done; lia). rewrite length_entry_bytes by done.
  rewrite <- IH. f_equal. lia.
Qed.

(** ** Buffers of entries *)

Record holds (me : bipbuf_t) (es : list entry) : Prop := {
  h_ok : bip_ok me;
  h_size : bb_size me = bump_entry_size * LRU_BUMP_BUF_SIZE;
  h_start : a_start me mod 16 = 0;
  h_end : a_end me mod 16 = 0;
  h_b : b_end me mod 16 = 0;
  h_queue : queue me = concat (map entry_bytes es);
  h_entries : Forall entry_ok es
}.

Lemma new_holds granted fill me : bipbuf_new granted fill (bump_entry_size * LRU_BUMP_BUF_SIZE) = Some me -> holds me [].
Proof.
  assert (bump_entry_size * LRU_BUMP_BUF_SIZE < 2 ^ 31) as Hn by done. assert (0 <= bump_entry_size * LRU_BUMP_BUF_SIZE) as H0 by done.
  intros E. assert (bb_size me = bump_entry_size * LRU_BUMP_BUF_SIZE /\ bip_ok me /\ a_start me = 0 /\ a_end me = 0 /\ b_end me = 0) as (E0 & Ok & E1 & E2 & E3).
  { revert E Hn H0. generalize (bump_entry_size * LRU_BUMP_BUF_SIZE). intros n E Hn H0. unfold bipbuf_new in E. destruct granted; [|discriminate].
    injection E as <-. cbn [bipbuf_init bb_size a_start a_end b_end]. split; [done|]. split; [|done].
    split; cbn [bipbuf_init bb_size a_start a_end b_end b_inuse bb_data]; [lia|rewrite length_map, length_seq; lia|lia|done|done]. }
  split; [done|done|by rewrite E1|by rewrite E2|by rewrite E3| |constructor].
  unfold queue, region_a, region_b. by rewrite E1, E2, E3.
Qed.

Lemma advance_aligned me : a_start me mod 16 = 0 -> a_end me mod 16 = 0 -> b_end me mod 16 = 0 ->
  let me' := check_for_switch_to_b (advance_end me bump_entry_size) in
  a_start me' mod 16 = 0 /\ a_end me' mod 16 = 0 /\ b_end me' mod 16 = 0 /\ bb_size me' = bb_size me.
Proof.
  intros H1 H2 H3. unfold check_for_switch_to_b, advance_end, u32, bump_entry_size.
  destruct (b_inuse me), (_ <? _); cbn [a_start a_end b_end bb_size]; split_and!; try done; zdm.
Qed.

(** Writing the first bytes of what is there already, followed by the rest, is writing all of it. *)
Lemma splice_pad (d x : list Z) off n : (off + length x + n <= length d)%nat ->
  splice d off x = splice d off (x ++ slice d (off + length x) n).
Proof.
  intros H. unfold splice. f_equal. rewrite <- app_assoc. f_equal. unfold slice.
  rewrite length_app, length_take, length_drop, Nat.min_l, Nat.add_assoc, <- (drop_drop d n) by lia. by rewrite take_drop.
Qed.

Lemma push_entry me es p hv : holds me es -> Zpos p < 2 ^ 64 -> 16 <= bipbuf_unused me ->
  exists off me1 me' pad, bipbuf_request me bump_entry_size = Some off /\ store_at me off (lru_bump_entry p hv) = Ret me1 /\
    bipbuf_push me1 bump_entry_size = (16, me') /\ holds me' (es ++ [mkEntry p hv pad]).
Proof.
  intros [Hok Hsize H1 H2 H3 Hq He] Hp Hroom. unfold bipbuf_request, bump_entry_size. rewrite (proj2 (Z.ltb_ge _ _)) by lia.
  set (off := if b_inuse me then b_end me else a_end me).
  destruct (unused_spec me Hok) as [Eu _]. pose proof Hok as [Ks Kd Ka Kb _].
  assert (0 <= off /\ off + 16 <= bb_size me) as Hoff by (unfold off; destruct (b_inuse me); lia).
  set (x := lru_bump_entry p hv). assert (length x = 12%nat) as Hx by apply length_entry.
  set (pad := slice (bb_data me) (Z.to_nat off + length x) 4).
  assert (length pad = 4%nat) as Hpad by (unfold pad, slice; rewrite length_take, length_drop; lia).
  pose proof (bipbuf_offer_spec me (x ++ pad) 16 Hok) as HO. rewrite length_app in HO.
  specialize (HO ltac:(lia) ltac:(lia)). rewrite (proj2 (Z.ltb_ge _ _)) in HO by lia. destruct HO as (me' & EO & Ok' & Q').
  assert (take (Z.to_nat 16) (x ++ pad) = x ++ pad) as Et by (apply take_ge; rewrite length_app; lia).
  rewrite Et in Q'. unfold bipbuf_offer in EO. rewrite (proj2 (Z.ltb_ge _ _)) in EO by lia. cbn [Z.ltb Z.compare] in EO.
  rewrite read_bytes_ok, ret_bind, Et in EO by (rewrite length_app; lia). fold off in EO.
  assert (store_at me off x = store_at me off (x ++ pad)) as Es.
  { unfold store_at. rewrite !write_bytes_ok by (rewrite ?length_app; lia). rewrite !ret_bind. do 2 f_equal.
    apply splice_pad. lia. }
  rewrite <- Es in EO. set (me1 := mkBip (bb_size me) (a_start me) (a_end me) (b_end me) (b_inuse me) (splice (bb_data me) (Z.to_nat off) x)).
  assert (store_at me off x = Ret me1) as E1 by (unfold store_at; by rewrite write_bytes_ok by lia).
  rewrite E1, ret_bind in EO. exists off, me1, me', pad. split; [done|]. split; [done|]. unfold bipbuf_push.
  change (bipbuf_unused me1) with (bipbuf_unused me).
  rewrite (proj2 (Z.ltb_ge _ _)) by lia. injection EO as <-. split; [done|].
  destruct (advance_aligned me1 H1 H2 H3) as (A1 & A2 & A3 & A4). unfold bump_entry_size in A1, A2, A3, A4.
  split; [done|by rewrite A4|done|done|done| |].
  - rewrite Q', Hq, map_app, concat_app. cbn [map concat]. by rewrite app_nil_r.
  - apply Forall_app. split; [done|]. constructor; [|done]. by split.
Qed.

(** The maintainer takes out all of the first region. *)
Lemma poll_region me es : holds me es -> bipbuf_is_empty me = false ->
  exists k me', bipbuf_poll me (a_end me - a_start me) = (Some (a_start me), me') /\ holds me' (drop k es) /\ (0 < k)%nat /\
    a_end me - a_start me = Z.of_nat (16 * k) /\ bytes_at me (a_start me) (a_end me - a_start me) = concat (map entry_bytes (take k es)) /\
    (b_inuse me = false -> drop k es = []) /\ b_inuse me' = false.
Proof.
  intros [Hok Hsize H1 H2 H3 Hq He] Hne. pose proof Hok as [Ks Kd Ka Kb _]. unfold bipbuf_is_empty in Hne. apply Z.eqb_neq in Hne.
  destruct (bipbuf_poll_spec me (a_end me - a_start me) Hok) as (me' & E & Ok' & Hb & Q'); [lia|].
  set (k := Z.to_nat ((a_end me - a_start me) / 16)). assert (a_end me - a_start me = Z.of_nat (16 * k)) as Hk by (unfold k; zdm).
  exists k, me'. split; [done|]. rewrite Hk, Nat2Z.id, Hq in Hb, Q'. rewrite take_entries in Hb by done. rewrite drop_entries in Q' by done.
  assert (b_inuse me' = false /\ a_start me' mod 16 = 0 /\ a_end me' mod 16 = 0 /\ b_end me' mod 16 = 0 /\ bb_size me' = bb_size me) as (B0 & B1 & B2 & B3 & B4).
  { unfold bipbuf_poll, bipbuf_is_empty in E. rewrite (proj2 (Z.eqb_neq _ _)) in E by lia.
    rewrite u32_id, (proj2 (Z.ltb_ge _ _)), (proj2 (Z.eqb_eq _ _)) in E by lia. injection E as <-. unfold check_for_switch_to_b.
    destruct (b_inuse me); cbn [bb_size a_start a_end b_end b_inuse].
    - rewrite (proj2 (Z.ltb_ge _ _)); [done|]. unfold u32, u64. change (2 ^ 32) with 4294967296. change (2 ^ 64) with 18446744073709551616. zdm.
    - rewrite Kb. rewrite (proj2 (Z.ltb_ge _ _)); [done|]. unfold u32, u64. change (2 ^ 32) with 4294967296. change (2 ^ 64) with 18446744073709551616. zdm. }
  split; [|split; [lia|split; [done|split; [by rewrite Hk|split; [|done]]]]].
  - split; [done|congruence|done..|]. by apply Forall_drop.
  - intros Hb0. rewrite Hb0 in Kb. assert (length (queue me) = 16 * k)%nat as Hl.
    { rewrite <- Nat2Z.inj_iff, <- used_spec by done. unfold bipbuf_used. rewrite Kb, Z.add_0_r, !u32_id, i32_id by (rewrite ?u32_id; lia). lia. }
    rewrite Hq, length_bump_entries in Hl by done. apply drop_ge. lia.
Qed.

(** ** References *)

(** The entries for an item. *)
Definition queued (q : positive) (es : list entry) : Z := Z.of_nat (length (filter (fun e => e_item e = q) es)).

Lemma queued_app q a b : queued q (a ++ b) = queued q a + queued q b.
Proof. unfold queued. rewrite filter_app, length_app. lia. Qed.
Lemma queued_cons q e es : queued q (e :: es) = (if decide (e_item e = q) then 1 else 0) + queued q es.
Proof. unfold queued. rewrite filter_cons. case_decide; cbn [length]; lia. Qed.
Lemma queued_length q es : 0 <= queued q es <= Z.of_nat (length es).
Proof. unfold queued. pose proof (length_filter (fun e => e_item e = q) es). lia. Qed.

Section Bumps.
Context {T : Type} {table_ops : ItemTable T} (hash : list Z -> Z) {table_laws : ItemTableLaws hash T} (cfg : settings).
Implicit Types (s : store T) (m : gmap (list Z) positive) (refs : positive -> Z).

(** What a step does to the buffers and the references: each new entry has one, each entry taken out
    has given one back. *)
Definition moved s m refs (es : list entry) s' (es' : list entry) : Prop :=
  exists lru', store_rep hash s' m lru' (fun q => refs q + queued q es' - queued q es) /\ keeps (heap s) (heap s') /\ same_globals s s'.

Lemma moved_intro s m refs lru' es s' es' refs' :
  store_rep hash s' m lru' refs' -> (forall q, refs' q = refs q + queued q es' - queued q es) ->
  keeps (heap s) (heap s') -> same_globals s s' -> moved s m refs es s' es'.
Proof. intros R H K G. exists lru'. split; [|done]. by eapply store_rep_refs. Qed.

Lemma moved_trans s m refs es s1 es1 s2 es2 :
  moved s m refs es s1 es1 -> (forall refs1 lru1, store_rep hash s1 m lru1 refs1 -> (forall q, refs1 q = refs q + queued q es1 - queued q es) -> moved s1 m refs1 es1 s2 es2) ->
  moved s m refs es s2 es2.
Proof.
  intros (lru1 & R1 & K1 & G1) H. destruct (H _ _ R1 (fun _ => eq_refl)) as (lru2 & R2 & K2 & G2).
  eapply moved_intro; [exact R2| |by eapply keeps_trans|by eapply same_globals_trans]. intros q. cbn beta. lia.
Qed.

(** ** Queueing *)

Lemma bump_async_ok b es p hv s m lru refs i :
  holds (bump_buf b) es -> store_rep hash s m lru refs -> heap s !! p = Some i -> it_refcount i + 1 < 2 ^ 16 -> Zpos p < 2 ^ 64 ->
  exists ret b' s' es' i', lru_bump_async b p hv s = Ret (ret, b', s') /\ holds (bump_buf b') es' /\ heap s' !! p = Some i' /\
    moved s m refs es s' es' /\ (length es' <= length es + 1)%nat.
Proof.
  intros Hb R Hp Hi Haddr. unfold lru_bump_async.
  destruct (refcount_incr_ok hash s m lru refs p i R Hp Hi) as (s1 & -> & R1 & K1 & G1 & Eh). rewrite ret_bind.
  assert (heap s1 !! p = Some (set_refcount (it_refcount i + 1) i)) as Hp1 by (rewrite Eh; apply lookup_insert_eq).
  destruct (Z.leb_spec 16 (bipbuf_unused (bump_buf b))) as [Hroom|Hfull].
  - destruct (push_entry _ _ p hv Hb Haddr Hroom) as (off & me1 & me' & pad & -> & -> & Ep & Hh).
    rewrite ret_bind, Ep. cbn [Z.eqb]. rewrite ret_bind. cbn [negb]. rewrite ret_bind.
    eexists true, (mkBumpBuf me' _), s1, _, _. split; [reflexivity|]. split; [exact Hh|]. split; [done|]. split; [|rewrite length_app; simpl; lia].
    eapply moved_intro; [exact R1| |done|done]. intros q. rewrite queued_app, queued_cons. cbn [e_item].
    destruct (decide (p = q)) as [<-|]; [rewrite set_refs_eq|rewrite set_refs_ne by done]; change (queued _ []) with 0; lia.
  - unfold bipbuf_request, bump_entry_size. rewrite (proj2 (Z.ltb_lt _ _)) by lia. rewrite ret_bind. cbn [negb].
    destruct (sr_refs _ _ _ _ _ R p i Hp) as (E & E0 & E1 & _).
    destruct (refcount_decr_ok hash s1 m lru _ p _ R1 Hp1) as (s2 & -> & R2 & K2 & G2 & Hp2); [rewrite set_refs_eq; lia|simpl; lia|]. rewrite ret_bind.
    eexists false, (mkBumpBuf _ _), s2, es, _. split; [reflexivity|]. split; [exact Hb|]. split; [done|]. split; [|lia].
    eapply moved_intro; [exact R2| |by eapply keeps_trans|by eapply same_globals_trans]. intros q.
    destruct (decide (q = p)) as [->|]; [rewrite !set_refs_eq|rewrite !set_refs_ne by done]; lia.
Qed.

Lemma moved_refl s m lru refs es : store_rep hash s m lru refs -> moved s m refs es s es.
Proof. intros R. eapply moved_intro; [exact R|intros q; lia|apply keeps_refl|apply same_globals_refl]. Qed.

Lemma moved_invisible f s m lru refs es p i : invisible f -> store_rep hash s m lru refs -> heap s !! p = Some i ->
  exists s', upd_item p f s = Ret s' /\ moved s m refs es s' es /\ store_rep hash s' m lru refs /\ heap s' !! p = Some (f i).
Proof.
  intros Hf R Hp. destruct (invisible_upd hash f s m lru refs p i Hf R Hp) as (s1 & E & R1 & K & G & Hp1). exists s1.
  split; [done|]. split; [|done]. eapply moved_intro; [exact R1|intros q; lia|done|done].
Qed.

Lemma item_bump_async_ok b es p hv s m lru refs i :
  holds (bump_buf b) es -> store_rep hash s m lru refs -> heap s !! p = Some i -> it_refcount i + 1 < 2 ^ 16 -> Zpos p < 2 ^ 64 ->
  exists b' s' es', do_item_bump_async cfg b p hv s = Ret (b', s') /\ holds (bump_buf b') es' /\ moved s m refs es s' es' /\ (length es' <= length es + 1)%nat.
Proof.
  intros Hb R Hp Hi Haddr. unfold do_item_bump_async. rewrite (get_item_ok _ _ _ Hp), ret_bind, ACTIVE_pow, FETCHED_pow.
  assert (forall f s', upd_item p f s = Ret s' -> invisible f -> exists b' s2 es', (s ← upd_item p f s; Ret (b, s)) = Ret (b', s2) /\
    holds (bump_buf b') es' /\ moved s m refs es s2 es' /\ (length es' <= length es + 1)%nat) as Hupd.
  { intros f s' E Hf. destruct (moved_invisible f s m lru refs es p i Hf R Hp) as (s1 & E1 & M & _). rewrite E1, ret_bind.
    exists b, s1, es. split; [done|]. split; [done|]. split; [done|lia]. }
  destruct (lru_segmented cfg).
  - destruct (has_flag (2 ^ 4) i); [exists b, s, es; split; [done|]; split; [done|]; split; [by eapply moved_refl|lia]|].
    destruct (has_flag (2 ^ 3) i); [|eapply Hupd; [by apply upd_item_ok|apply invisible_raise; lia]].
    destruct (moved_invisible _ s m lru refs es p i (invisible_raise 4 ltac:(lia)) R Hp) as (s1 & -> & M1 & R1 & Hp1). rewrite ret_bind.
    destruct (negb (ITEM_lruid i =? COLD_LRU)).
    + destruct (moved_invisible _ s1 m lru refs es p _ (invisible_time (current_time cfg)) R1 Hp1) as (s2 & -> & M2 & _). rewrite ret_bind.
      exists b, s2, es. split; [done|]. split; [done|]. split; [|lia]. apply (moved_trans _ _ _ _ s1 es); [done|].
      intros refs1 lru1 R1' H1. destruct M2 as (l2 & R2 & K2 & G2). eapply moved_intro; [exact R2|intros q; cbn beta; specialize (H1 q); lia|done|done].
    + destruct (bump_async_ok b es p hv s1 m lru refs _ Hb R1 Hp1 Hi Haddr) as (ret & b' & s2 & es' & i2 & -> & Hb' & Hp2 & M2 & Hl). rewrite ret_bind.
      assert (moved s m refs es s2 es') as M12.
      { apply (moved_trans _ _ _ _ s1 es); [done|]. intros refs1 lru1 _ H1. destruct M2 as (l2 & R2 & K2 & G2).
        eapply moved_intro; [exact R2|intros q; cbn beta; specialize (H1 q); lia|done|done]. }
      destruct ret; cbn [negb]; [rewrite ret_bind; by exists b', s2, es'|].
      destruct M12 as (l2 & R2 & K2 & G2).
      destruct (moved_invisible _ s2 m l2 _ es' p _ (invisible_clear 4 ltac:(lia)) R2 Hp2) as (s3 & -> & M3 & R3 & Hp3). rewrite ret_bind.
      exists b', s3, es'. split; [done|]. split; [done|]. split; [|done]. destruct M3 as (l3 & R3' & K3 & G3).
      eapply moved_intro; [exact R3'|intros q; cbn beta; lia|by eapply keeps_trans|by eapply same_globals_trans].
  - destruct (moved_invisible _ s m lru refs es p i (invisible_raise 3 ltac:(lia)) R Hp) as (s1 & -> & M1 & R1 & Hp1). rewrite ret_bind.
    destruct (do_item_update_ok hash cfg s1 m lru refs p _ R1 Hp1) as (s2 & lru2 & -> & R2 & K2 & G2). rewrite ret_bind.
    exists b, s2, es. split; [done|]. split; [done|]. split; [|lia]. destruct M1 as (l1 & _ & K1 & G1).
    eapply moved_intro; [exact R2|intros q; lia|by eapply keeps_trans|by eapply same_globals_trans].
Qed.

(** ** Draining *)

Lemma update_remove_ok p s m lru refs : store_rep hash s m lru refs -> 0 < refs p ->
  exists s1 s' lru', do_item_update cfg p s = Ret s1 /\ do_item_remove p s1 = Ret s' /\
    store_rep hash s' m lru' (set_refs p (refs p - 1) refs) /\ keeps (heap s) (heap s') /\ same_globals s s'.
Proof.
  intros R Hr. destruct (store_held hash s m lru refs p R Hr) as (i & Hp).
  destruct (do_item_update_ok hash cfg s m lru refs p i R Hp) as (s1 & lru1 & E1 & R1 & K1 & G1).
  destruct (store_held hash s1 m lru1 refs p R1 Hr) as (i1 & Hp1).
  destruct (do_item_remove_ok hash s1 m lru1 refs p i1 R1 Hp1 Hr) as (s2 & E2 & R2 & K2 & G2).
  exists s1, s2, lru1. eauto 10 using keeps_trans, same_globals_trans.
Qed.

Lemma bump_entries_ok me es : forall fuel be s m lru refs, Forall entry_ok es -> 0 <= be -> (length es <= fuel)%nat ->
  16 * Z.of_nat (length es) < 2 ^ 32 -> slice (bb_data me) (Z.to_nat be) (16 * length es) = concat (map entry_bytes es) ->
  store_rep hash s m lru refs -> (forall q, queued q es <= refs q) ->
  exists s', bump_entries cfg fuel me be (16 * Z.of_nat (length es)) s = Ret s' /\ moved s m refs es s' [].
Proof.
  induction es as [|e es IH]; intros fuel be s m lru refs He Hbe Hfuel Hsmall Hdata R Hq.
  { exists s. destruct fuel; (split; [reflexivity|by eapply moved_refl]). }
  inversion_clear He as [|? ? He1 He2]. destruct fuel as [|fuel]; [simpl in Hfuel; lia|]. cbn [length] in *. cbn [map concat] in Hdata.
  assert (length (slice (bb_data me) (Z.to_nat be) (16 * S (length es))) = 16 * S (length es))%nat as Hlen.
  { rewrite Hdata, length_app, length_entry_bytes, length_bump_entries by done. lia. }
  unfold slice in Hlen, Hdata. rewrite length_take, length_drop in Hlen.
  cbn [bump_entries]. rewrite (proj2 (Z.eqb_neq _ _)) by lia. rewrite read_bytes_ok, ret_bind by (rewrite length_drop; lia).
  assert (take 12 (drop (Z.to_nat be) (bb_data me)) = take 12 (entry_bytes e ++ concat (map entry_bytes es))) as ->.
  { rewrite <- Hdata, take_take. f_equal. lia. }
  rewrite entry_pointer by done. pose proof (Hq (e_item e)) as He. rewrite queued_cons, decide_True in He by done.
  pose proof (queued_length (e_item e) es). destruct (update_remove_ok (e_item e) s m lru refs R) as (s1 & s2 & lru2 & -> & E2 & R2 & K2 & G2); [lia|].
  rewrite ret_bind, E2, ret_bind. unfold bump_entry_size. rewrite u32_id by lia.
  replace (16 * Z.of_nat (S (length es)) - 16) with (16 * Z.of_nat (length es)) by lia.
  destruct (IH fuel (be + 16) s2 m lru2 (set_refs (e_item e) (refs (e_item e) - 1) refs) He2) as (s3 & -> & M3); [lia|lia|lia| |done| |].
  - unfold slice. replace (Z.to_nat (be + 16)) with (Z.to_nat be + 16)%nat by lia. rewrite <- drop_drop.
    apply (f_equal (drop 16)) in Hdata. rewrite (drop_app_le (entry_bytes e)), (drop_ge (entry_bytes e)) in Hdata by (rewrite length_entry_bytes by done; lia).
    rewrite app_nil_l in Hdata. rewrite <- Hdata, skipn_firstn_comm. f_equal. lia.
  - intros q. specialize (Hq q). rewrite queued_cons in Hq.
    destruct (decide (q = e_item e)) as [->|]; [rewrite set_refs_eq; lia|rewrite set_refs_ne by done; case_decide; lia].
  - exists s3. split; [done|]. destruct M3 as (lru3 & R3 & K3 & G3).
    eapply moved_intro; [exact R3| |by eapply keeps_trans|by eapply same_globals_trans]. intros q. cbn beta. rewrite queued_cons.
    destruct (decide (q = e_item e)) as [->|]; [rewrite set_refs_eq, decide_True by done|rewrite set_refs_ne, decide_False by done]; lia.
Qed.

Definition all_hold (bufs : list lru_bump_buf) (pends : list (list entry)) : Prop := Forall2 (fun b es => holds (bump_buf b) es) bufs pends.
Definition one_region (bufs : list lru_bump_buf) : Prop := Forall (fun b => b_inuse (bump_buf b) = false) bufs.

Lemma holds_empty me es : holds me es -> bipbuf_is_empty me = true -> es = [] /\ b_inuse me = false.
Proof.
  intros H E. split.
  - apply (empty_queue me (h_ok _ _ H)) in E. rewrite (h_queue _ _ H) in E. apply (f_equal length) in E.
    rewrite length_bump_entries in E by apply (h_entries _ _ H). destruct es; [done|simpl in E; lia].
  - apply Z.eqb_eq in E. by apply (bip_nonempty _ (h_ok _ _ H)).
Qed.

Lemma maintainer_bumps_ok bufs : forall pends s m lru refs, all_hold bufs pends -> store_rep hash s m lru refs ->
  (forall q, queued q (concat pends) <= refs q) ->
  exists bumped bufs' s' pends', lru_maintainer_bumps cfg bufs s = Ret (bumped, bufs', s') /\ all_hold bufs' pends' /\
    moved s m refs (concat pends) s' (concat pends') /\ one_region bufs' /\ (one_region bufs -> concat pends' = []) /\
    (length (concat pends') <= length (concat pends))%nat /\ length bufs' = length bufs.
Proof.
  induction bufs as [|b bufs IH]; intros pends s m lru refs H R Hq; cbn [lru_maintainer_bumps].
  { inversion_clear H. exists false, [], s, []. split_and!; try done; [constructor|by eapply moved_refl|constructor]. }
  inversion H as [|? es ? pends0 Hb Hrest]; subst. clear H. cbn [concat] in Hq |- *.
  unfold bipbuf_peek_all. destruct (bipbuf_is_empty (bump_buf b)) eqn:Ee.
  - destruct (holds_empty _ _ Hb Ee) as [-> Hin]. destruct (IH pends0 s m lru refs Hrest R Hq) as (bumped & bufs' & s' & pends' & -> & H' & M & O & N & L & Hn).
    rewrite ret_bind. exists bumped, (b :: bufs'), s', ([] :: pends'). split; [done|]. split; [by constructor|]. split; [done|].
    split; [by constructor|]. split; [|split; [done|cbn [length]; lia]]. intros Ho. inversion_clear Ho. cbn [concat app]. by apply N.
  - destruct (poll_region _ _ Hb Ee) as (k & me' & Ep & Hh & Hk & Esz & Ebytes & Hdr & Hin).
    pose proof (h_ok _ _ Hb) as [Ks Kd Ka _ _]. rewrite u32_id by lia. rewrite Esz in *. rewrite Nat2Z.id.
    assert (length (take k es) = k) as Hlk.
    { pose proof (f_equal length Ebytes) as E. rewrite length_bump_entries, length_bytes_at, Nat2Z.id in E by (try apply Forall_take, (h_entries _ _ Hb); lia). lia. }
    assert (forall q, queued q (take k es) + queued q (drop k es) = queued q es) as Hsplit by (intros q; by rewrite <- queued_app, take_drop).
    destruct (bump_entries_ok (bump_buf b) (take k es) (16 * k) (a_start (bump_buf b)) s m lru refs) as (s1 & E1 & M1);
      [apply Forall_take, (h_entries _ _ Hb)|lia|lia|rewrite Hlk; lia| |done| |].
    { rewrite <- Ebytes, Hlk. unfold bytes_at. by rewrite Nat2Z.id. }
    { intros q. specialize (Hq q). rewrite queued_app in Hq. pose proof (queued_length q (drop k es)). pose proof (queued_length q (concat pends0)). specialize (Hsplit q). lia. }
    rewrite Hlk in E1. replace (Z.of_nat (16 * k)) with (16 * Z.of_nat k) in * by lia. rewrite E1, ret_bind, Ep.
    destruct M1 as (lru1 & R1 & K1 & G1). destruct (IH pends0 s1 m lru1 _ Hrest R1) as (bumped & bufs' & s' & pends' & -> & H' & M & O & N & L & Hn).
    { intros q. specialize (Hq q). rewrite queued_app in Hq. specialize (Hsplit q). pose proof (queued_length q (drop k es)). change (queued q []) with 0. lia. }
    rewrite ret_bind. exists true, (mkBumpBuf me' (bump_dropped b) :: bufs'), s', (drop k es :: pends').
    split; [done|]. split; [by constructor|]. split; [|split; [by constructor|split; [|split; [|cbn [length]; lia]]]].
    + destruct M as (lru2 & R2 & K2 & G2). eapply moved_intro; [exact R2| |by eapply keeps_trans|by eapply same_globals_trans].
      intros q. cbn [concat]. rewrite !queued_app. specialize (Hsplit q). change (queued q []) with 0. lia.
    + intros Ho. inversion_clear Ho as [|? ? Hb0 Ho']. cbn [concat]. rewrite (Hdr Hb0). by apply N.
    + cbn [concat]. rewrite !length_app, length_drop. lia.
Qed.

(** ** Workers and the maintainer *)

(** A worker of thread [n] hits an item, or the maintainer empties the buffers. *)
Inductive bump_op := BumpItem (n : nat) (p : positive) | Drain.

Definition bump_step (op : bump_op) (bufs : list lru_bump_buf) s : outcome (list lru_bump_buf * store T) :=
  match op with
  | BumpItem n p =>
      b ← deref (bufs !! n); it ← get_item p s;
      '(b, s) ← do_item_bump_async cfg b p (hash (item_key it)) s;
      Ret (<[n := b]> bufs, s)
  | Drain => '(_, bufs, s) ← lru_maintainer_bumps cfg bufs s; Ret (bufs, s)
  end.

Fixpoint bump_run (ops : list bump_op) (bufs : list lru_bump_buf) s : outcome (list lru_bump_buf * store T) :=
  match ops with
  | [] => Ret (bufs, s)
  | op :: ops => '(bufs, s) ← bump_step op bufs s; bump_run ops bufs s
  end.

(** Workers hit items that are in the table or that somebody holds. *)
Definition bump_allowed (n : nat) m (held : positive -> Z) (op : bump_op) : Prop :=
  match op with
  | BumpItem k p => (k < n)%nat /\ Zpos p < 2 ^ 64 /\ (0 < held p \/ exists key, m !! key = Some p)
  | Drain => True
  end.

Lemma concat_insert (pends : list (list entry)) n es es' : pends !! n = Some es ->
  (forall q, queued q (concat (<[n := es']> pends)) = queued q (concat pends) - queued q es + queued q es') /\
  (length (concat (<[n := es']> pends)) + length es = length (concat pends) + length es')%nat.
Proof.
  revert n. induction pends as [|x pends IH]; intros [|n] E; try done.
  - injection E as ->. cbn [insert list_insert concat]. split; [intros q; rewrite !queued_app; lia|rewrite !length_app; lia].
  - change (<[S n := es']> (x :: pends)) with (x :: <[n := es']> pends). cbn [concat]. destruct (IH n E) as [H1 H2]. split; [intros q; rewrite !queued_app, H1; lia|rewrite !length_app; lia].
Qed.

Lemma bump_step_ok op bufs pends s m lru held : all_hold bufs pends -> store_rep hash s m lru (fun q => held q + queued q (concat pends)) ->
  bump_allowed (length bufs) m held op -> (forall q, 0 <= held q /\ held q + Z.of_nat (length (concat pends)) + 2 < 2 ^ 16) ->
  exists bufs' s' pends' lru', bump_step op bufs s = Ret (bufs', s') /\ length bufs' = length bufs /\ all_hold bufs' pends' /\
    store_rep hash s' m lru' (fun q => held q + queued q (concat pends')) /\ keeps (heap s) (heap s') /\
    (length (concat pends') <= length (concat pends) + 1)%nat.
Proof.
  intros H R Ha Hroom. destruct op as [n p|]; cbn [bump_step].
  - destruct Ha as (Hn & Haddr & Hp). destruct (lookup_lt_is_Some_2 bufs n Hn) as [b Eb].
    destruct (Forall2_lookup_l _ _ _ _ _ H Eb) as (es & Ees & Hb). rewrite Eb. cbn [deref]. rewrite ret_bind.
    assert (exists i, heap s !! p = Some i) as [i Hi].
    { destruct Hp as [Hp|[k Hk]]; [|destruct (sr_item _ _ _ _ _ R k p Hk) as (i & Hi & _); by exists i].
      apply (store_held hash s m lru _ p R). pose proof (queued_length p (concat pends)). lia. }
    rewrite (get_item_ok _ _ _ Hi), ret_bind. destruct (sr_refs _ _ _ _ _ R p i Hi) as (E & _). cbn beta in E.
    pose proof (queued_length p (concat pends)). specialize (Hroom p) as Hrp.
    destruct (item_bump_async_ok b es p (hash (item_key i)) s m lru _ i Hb R Hi) as (b' & s' & es' & -> & Hb' & (lru' & R' & K & G) & Hl); [destruct (linked i); lia|done|].
    rewrite ret_bind. destruct (concat_insert pends n es es' Ees) as [Hc1 Hc2].
    exists (<[n := b']> bufs), s', (<[n := es']> pends), lru'. split; [done|]. split; [by rewrite length_insert|].
    split; [by apply Forall2_insert|]. split; [|split; [done|lia]].
    eapply store_rep_refs; [exact R'|]. intros q. cbn beta. rewrite Hc1. lia.
  - destruct (maintainer_bumps_ok bufs pends s m lru _ H R) as (bumped & bufs' & s' & pends' & -> & H' & (lru' & R' & K & G) & _ & _ & Hl & Hn);
      [intros q; cbn beta; specialize (Hroom q); lia|]. rewrite ret_bind.
    exists bufs', s', pends', lru'. split; [done|]. split; [done|]. split; [done|]. split; [|split; [done|lia]].
    eapply store_rep_refs; [exact R'|]. intros q. cbn beta. lia.
Qed.

Lemma bump_run_ok ops : forall bufs pends s m lru held, all_hold bufs pends ->
  store_rep hash s m lru (fun q => held q + queued q (concat pends)) -> Forall (bump_allowed (length bufs) m held) ops ->
  (forall q, 0 <= held q /\ held q + Z.of_nat (length (concat pends) + length ops) + 2 < 2 ^ 16) ->
  exists bufs' s' pends' lru', bump_run ops bufs s = Ret (bufs', s') /\ all_hold bufs' pends' /\
    store_rep hash s' m lru' (fun q => held q + queued q (concat pends')) /\ keeps (heap s) (heap s').
Proof.
  induction ops as [|op ops IH]; intros bufs pends s m lru held H R Ha Hroom; cbn [bump_run].
  { exists bufs, s, pends, lru. split_and!; try done. apply keeps_refl. }
  inversion_clear Ha as [|? ? Ha1 Ha2]. cbn [length] in Hroom.
  destruct (bump_step_ok op bufs pends s m lru held H R Ha1) as (bufs1 & s1 & pends1 & lru1 & -> & Hn & H1 & R1 & K1 & L1);
    [intros q; specialize (Hroom q); lia|]. rewrite ret_bind. rewrite <- Hn in Ha2.
  destruct (IH bufs1 pends1 s1 m lru1 held H1 R1 Ha2) as (bufs2 & s2 & pends2 & lru2 & E & H2 & R2 & K2); [intros q; specialize (Hroom q); lia|].
  exists bufs2, s2, pends2, lru2. eauto using keeps_trans.
Qed.

Lemma concat_replicate_nil n : concat (replicate n (@nil entry)) = [].
Proof. by induction n. Qed.

Lemma concat_nil_replicate (l : list (list entry)) : concat l = [] -> l = replicate (length l) [].
Proof. induction l as [|x l IH]; [done|]. cbn [concat]. intros [-> E]%app_nil. cbn [length replicate]. f_equal. by apply IH. Qed.

Lemma drain_twice bufs pends s m lru held : all_hold bufs pends -> (forall q, 0 <= held q) ->
  store_rep hash s m lru (fun q => held q + queued q (concat pends)) ->
  exists bufs2 s2 lru2, bump_run [Drain; Drain] bufs s = Ret (bufs2, s2) /\ all_hold bufs2 (replicate (length bufs2) []) /\
      length bufs2 = length bufs /\ store_rep hash s2 m lru2 held /\ keeps (heap s) (heap s2).
Proof.
  intros H Hpos R. cbn [bump_run bump_step].
  destruct (maintainer_bumps_ok bufs pends s m lru _ H R) as (bumped1 & bufs1 & s1 & pends1 & -> & H1 & (lru1 & R1 & K1 & G1) & O1 & _ & _ & N1);
    [intros q; cbn beta; specialize (Hpos q); lia|]. rewrite !ret_bind.
  destruct (maintainer_bumps_ok bufs1 pends1 s1 m lru1 _ H1 R1) as (bumped2 & bufs2 & s2 & pends2 & -> & H2 & (lru2 & R2 & K2 & G2) & _ & N & _ & N2);
    [intros q; cbn beta; specialize (Hpos q); lia|]. rewrite !ret_bind.
  specialize (N O1). exists bufs2, s2, lru2. split; [done|].
  rewrite (Forall2_length _ _ _ H2), <- (concat_nil_replicate pends2 N), <- (Forall2_length _ _ _ H2). split; [done|]. split; [congruence|].
  split; [|by eapply keeps_trans]. eapply store_rep_refs; [exact R2|]. intros q. cbn beta. rewrite N. change (queued q []) with 0. lia.
Qed.

(** C28: the queue of bumped items loses no reference.  Whatever items the workers hit, and whenever
    the maintainer empties the buffers, no step fails, the table and the values stay as they are, and
    the references of every item are those of its other holders and one for each of its entries; two
    more rounds of the maintainer empty all buffers and give all of these back. *)
Theorem bump_queue_safe (bufs : list lru_bump_buf) (s : store T) (m : gmap (list Z) positive) (lru : Z -> list positive) (held : positive -> Z)
    (ops : list bump_op) (R : store_rep hash s m lru held)
    (Hbufs : Forall (fun b => exists fill, bipbuf_new true fill (bump_entry_size * LRU_BUMP_BUF_SIZE) = Some (bump_buf b)) bufs)
    (Hops : Forall (bump_allowed (length bufs) m held) ops)
    (Hroom : forall q, held q + Z.of_nat (length ops) + 2 < 2 ^ 16) :
  exists bufs' s' pends lru', bump_run ops bufs s = Ret (bufs', s') /\ all_hold bufs' pends /\
    store_rep hash s' m lru' (fun q => held q + queued q (concat pends)) /\ keeps (heap s) (heap s') /\
    exists bufs2 s2 lru2, bump_run [Drain; Drain] bufs' s' = Ret (bufs2, s2) /\ all_hold bufs2 (replicate (length bufs2) []) /\
      length bufs2 = length bufs' /\ store_rep hash s2 m lru2 held /\ keeps (heap s') (heap s2).
Proof.
  assert (forall q, 0 <= held q) as Hpos.
  { intros q. destruct (heap s !! q) as [i|] eqn:Eq; [by apply (sr_refs _ _ _ _ _ R q i Eq)|by rewrite (sr_free _ _ _ _ _ R q Eq)]. }
  destruct (bump_run_ok ops bufs (replicate (length bufs) []) s m lru held) as (bufs' & s' & pends & lru' & E & H' & R' & K').
  - apply Forall2_replicate_r; [done|]. eapply Forall_impl; [exact Hbufs|]. intros b [fill Hb]. by eapply new_holds.
  - eapply store_rep_refs; [exact R|]. intros q. rewrite concat_replicate_nil. change (queued q []) with 0. lia.
  - done.
  - intros q. rewrite concat_replicate_nil. split; [done|exact (Hroom q)].
  - exists bufs', s', pends, lru'. split; [done|]. split; [done|]. split; [done|]. split; [done|]. by eapply drain_twice.
Qed.
End Bumps.

(** ** Samples *)

(** An item of the COLD LRU that has been fetched once. *)
Definition fetched_item : item := set_flags (Z.lor (it_flags sample_item) ITEM_FETCHED) (set_slabs_clsid (Z.lor 1 COLD_LRU) sample_item).
Definition fetched_store : store assoc := with_heap (<[1%positive := fetched_item]> ∅) empty_store.

Lemma fetched_store_rep : store_rep first_byte fetched_store ∅ (fun _ => []) sample_refs.
Proof. by apply (store_rep_alloc first_byte empty_store ∅ (fun _ => []) (fun _ => 0) 1 fetched_item); [apply empty_store_rep|..]. Qed.

Definition new_bump_buf : lru_bump_buf :=
  mkBumpBuf (bipbuf_init (bump_entry_size * LRU_BUMP_BUF_SIZE)
    (map (fun i => u8 ((fun _ => 0) i)) (seq 0 (Z.to_nat (bump_entry_size * LRU_BUMP_BUF_SIZE))))) 0.

Lemma bump_queue_safe_witness : exists bufs' s', bump_run first_byte sample_cfg [BumpItem 0 1; BumpItem 0 1] [new_bump_buf] fetched_store = Ret (bufs', s') /\
  exists bufs2 s2 lru2, bump_run first_byte sample_cfg [Drain; Drain] bufs' s' = Ret (bufs2, s2) /\ store_rep first_byte s2 ∅ lru2 sample_refs.
Proof.
  destruct (bump_queue_safe first_byte sample_cfg [new_bump_buf] fetched_store ∅ (fun _ => []) sample_refs [BumpItem 0 1; BumpItem 0 1] fetched_store_rep)
    as (bufs' & s' & pends & lru' & E & _ & _ & _ & bufs2 & s2 & lru2 & E2 & _ & _ & R2 & _).
  - constructor; [|constructor]. exists (fun _ => 0). reflexivity.
  - constructor; [|constructor; [|constructor]]; (split; [simpl; lia|split; [lia|left; reflexivity]]).
  - intros q. unfold sample_refs, set_refs. case_decide; simpl; lia.
  - exists bufs', s'. split; [exact E|]. exists bufs2, s2, lru2. split; [exact E2|exact R2].
Defined.
