(* ===== verification/Crawler.v ===== *)
(** * The LRU crawler (src/memcached/crawler.c, items.c)

    A crawler is a fake item that a background thread moves from the tail of an LRU to its head, one
    item at a time; the item it has passed is looked at, and dropped when it has expired.  A crawler
    shares the fields of items up to the key length, so that other code that walks the list can tell
    it by them.  That part of a crawler is in the heap of items while the crawler is switched on
    ([it_flags] is 1), at an address of its own; the rest is in the record [crawler].  The module that
    reclaims expired items is modelled, the one that dumps metadata to a client is not. *)

From S2P Require Import Prelude Items ItemAlloc Util.
Local Open Scope Z_scope.

Definition POWER_LARGEST : Z := 256.

(** [LRU_CRAWLER_CAP_REMAINING] is -1, compared as an [uint32_t]. *)
Definition LRU_CRAWLER_CAP_REMAINING : Z := 2 ^ 32 - 1.

Inductive crawler_run_type := CRAWLER_AUTOEXPIRE | CRAWLER_EXPIRED.
Inductive crawler_result_type := CRAWLER_OK | CRAWLER_RUNNING | CRAWLER_BADCLASS | CRAWLER_NOTSTARTED | CRAWLER_ERROR.

Record crawler := mkCrawler { remaining : Z; reclaimed : Z; unfetched : Z; checked : Z }.

Record crawlerstats_t := mkCrawlerstats {
  histo : list Z;
  ttl_hourplus : Z;
  noexp : Z;
  cs_reclaimed : Z;
  seen : Z;
  cs_start_time : Z;
  cs_end_time : Z;
  run_complete : bool
}.

(** What [do_item_stats_add_crawl] adds up per LRU. *)
Record crawl_itemstats := mkCrawlItemstats { crawler_reclaimed : Z; expired_unfetched : Z; crawler_items_checked : Z }.

(** The data of a run ([start_time] of the whole run is not used by anything modelled). *)
Record crawler_expired_data := mkExpiredData { crawlerstats : gmap Z crawlerstats_t; d_end_time : Z; crawl_complete : bool }.

(** The crawlers, the data of the run, and the variables of crawler.c. *)
Record crawl := mkCrawl {
  crawlers : gmap Z crawler;
  crawler_count : Z;
  expired_data : crawler_expired_data;
  itemstats : gmap Z crawl_itemstats;
  lru_crawler_running : bool;
  lru_crawler_starts : Z;
  active_crawler_type : crawler_run_type;
  block_ae_until : Z;
  do_run_lru_crawler_thread : bool
}.

Definition set_crawlers (m : gmap Z crawler) (n : Z) (c : crawl) : crawl :=
  mkCrawl m n (expired_data c) (itemstats c) (lru_crawler_running c) (lru_crawler_starts c) (active_crawler_type c) (block_ae_until c) (do_run_lru_crawler_thread c).
Definition set_expired_data (d : crawler_expired_data) (c : crawl) : crawl :=
  mkCrawl (crawlers c) (crawler_count c) d (itemstats c) (lru_crawler_running c) (lru_crawler_starts c) (active_crawler_type c) (block_ae_until c) (do_run_lru_crawler_thread c).
Definition set_itemstats (m : gmap Z crawl_itemstats) (c : crawl) : crawl :=
  mkCrawl (crawlers c) (crawler_count c) (expired_data c) m (lru_crawler_running c) (lru_crawler_starts c) (active_crawler_type c) (block_ae_until c) (do_run_lru_crawler_thread c).
Definition set_running (b : bool) (n : Z) (c : crawl) : crawl :=
  mkCrawl (crawlers c) (crawler_count c) (expired_data c) (itemstats c) b n (active_crawler_type c) (block_ae_until c) (do_run_lru_crawler_thread c).
Definition set_type (t : crawler_run_type) (c : crawl) : crawl :=
  mkCrawl (crawlers c) (crawler_count c) (expired_data c) (itemstats c) (lru_crawler_running c) (lru_crawler_starts c) t (block_ae_until c) (do_run_lru_crawler_thread c).
Definition set_block (t : Z) (c : crawl) : crawl :=
  mkCrawl (crawlers c) (crawler_count c) (expired_data c) (itemstats c) (lru_crawler_running c) (lru_crawler_starts c) (active_crawler_type c) t (do_run_lru_crawler_thread c).

Definition crawler_run_type_eqb (a b : crawler_run_type) : bool :=
  match a, b with CRAWLER_AUTOEXPIRE, CRAWLER_AUTOEXPIRE | CRAWLER_EXPIRED, CRAWLER_EXPIRED => true | _, _ => false end.

Section Crawler.
Context {T : Type} `{!ItemTable T} (hash : list Z -> Z) (cfg : settings).

(** The address of [crawlers[i]]. *)
Context (crawler_addr : Z -> positive).

(** ** The crawlers in the lists (items.c) *)

Definition do_item_linktail_q (p : positive) (s : store T) : outcome (store T) :=
  it ← get_item p s;
  _ ← c_assert (it_flags it =? 1);
  _ ← c_assert (it_nbytes it =? 0);
  let id := it_slabs_clsid it in
  let head := heads s !! id in
  let tail := tails s !! id in
  _ ← c_assert (negb (opt_is tail p));
  _ ← c_assert (Bool.eqb (is_null head) (is_null tail));
  s ← upd_item p (fun i => set_next None (set_prev tail i)) s;
  s ← match tail with
      | Some q =>
          iq ← get_item q s;
          _ ← c_assert (is_null (it_next iq));
          upd_item q (set_next (Some p)) s
      | None => Ret s
      end;
  Ret (with_lru (if is_null head then <[id := p]> (heads s) else heads s) (<[id := p]> (tails s)) (sizes s) (sizes_bytes s) s).

Definition do_item_unlinktail_q (p : positive) (s : store T) : outcome (store T) :=
  it ← get_item p s;
  let id := it_slabs_clsid it in
  let head := heads s !! id in
  let tail := tails s !! id in
  _ ← c_assert (negb (opt_is head p) || is_null (it_prev it));
  let heads' := if opt_is head p then assign id (it_next it) (heads s) else heads s in
  _ ← c_assert (negb (opt_is tail p) || is_null (it_next it));
  let tails' := if opt_is tail p then assign id (it_prev it) (tails s) else tails s in
  _ ← c_assert (negb (opt_is (it_next it) p));
  _ ← c_assert (negb (opt_is (it_prev it) p));
  s ← upd_link (it_next it) (set_prev (it_prev it)) s;
  s ← upd_link (it_prev it) (set_next (it_next it)) s;
  Ret (with_lru heads' tails' (sizes s) (sizes_bytes s) s).

(** A step of the crawler [p]: the item it has passed, or nothing when it was at the head. *)
Definition do_item_crawl_q (p : positive) (s : store T) : outcome (option positive * store T) :=
  it ← get_item p s;
  _ ← c_assert (it_flags it =? 1);
  _ ← c_assert (it_nbytes it =? 0);
  let id := it_slabs_clsid it in
  let head := heads s !! id in
  let tail := tails s !! id in
  match it_prev it with
  | None =>
      _ ← c_assert (opt_is head p);
      match it_next it with
      | Some n =>
          i_n ← get_item n s;
          _ ← c_assert (opt_is (it_prev i_n) p);
          s ← upd_item n (set_prev None) s;
          Ret (None, with_lru (<[id := n]> (heads s)) (tails s) (sizes s) (sizes_bytes s) s)
      | None => Ret (None, s)
      end
  | Some q =>
      _ ← c_assert (negb (opt_is (it_prev it) p));
      let heads' := if opt_is head q then <[id := p]> (heads s) else heads s in
      let tails' := if opt_is tail p then <[id := q]> (tails s) else tails s in
      _ ← c_assert (negb (opt_is (it_next it) p));
      s ← match it_next it with
          | Some n =>
              iq ← get_item q s;
              _ ← c_assert (opt_is (it_next iq) p);
              s ← upd_item q (set_next (Some n)) s;
              upd_item n (set_prev (Some q)) s
          | None => upd_item q (set_next None) s
          end;
      iq ← get_item q s;
      s ← upd_item p (fun i => set_prev (it_prev iq) (set_next (Some q) i)) s;
      s ← upd_item q (set_prev (Some p)) s;
      s ← upd_link (it_prev iq) (set_next (Some p)) s;
      it ← get_item p s;
      _ ← c_assert (negb (opt_is (it_next it) p));
      _ ← c_assert (negb (opt_is (it_prev it) p));
      Ret (it_next it, with_lru heads' tails' (sizes s) (sizes_bytes s) s)
  end.

(** ** The module for expired items *)

Definition no_stats (t : Z) : crawlerstats_t := mkCrawlerstats (replicate 61 0) 0 0 0 0 t 0 false.

Definition stats_of (i : Z) (c : crawl) : crawlerstats_t := default (no_stats 0) (crawlerstats (expired_data c) !! i).
Definition set_stats (i : Z) (t : crawlerstats_t) (c : crawl) : crawl :=
  let d := expired_data c in set_expired_data (mkExpiredData (<[i := t]> (crawlerstats d)) (d_end_time d) (crawl_complete d)) c.
Definition crawler_of (i : Z) (c : crawl) : crawler := default (mkCrawler 0 0 0 0) (crawlers c !! i).

(** New data, with nothing counted (it is allocated, [data] being null; that the allocation fails is
    not modelled). *)
Definition crawler_expired_init (c : crawl) : crawl :=
  set_expired_data (mkExpiredData (list_to_map (map (fun i => (i, no_stats (current_time cfg))) (seqZ 0 POWER_LARGEST))) 0 false) c.

Definition crawler_expired_doneclass (i : Z) (c : crawl) : crawl :=
  let d := stats_of i c in
  set_stats i (mkCrawlerstats (histo d) (ttl_hourplus d) (noexp d) (cs_reclaimed d) (seen d) (cs_start_time d) (current_time cfg) true) c.

Definition crawler_expired_finalize (c : crawl) : crawl :=
  set_expired_data (mkExpiredData (crawlerstats (expired_data c)) (current_time cfg) true) c.

Definition count_reclaimed (d : crawlerstats_t) : crawlerstats_t :=
  mkCrawlerstats (histo d) (ttl_hourplus d) (noexp d) (u64 (cs_reclaimed d + 1)) (seen d) (cs_start_time d) (cs_end_time d) (run_complete d).

(** What the module notes about an item that stays. *)
Definition count_seen (exptime : Z) (d : crawlerstats_t) : crawlerstats_t :=
  let ttl_remain := u32 (exptime - current_time cfg) in
  let seen := u64 (seen d + 1) in
  if exptime =? 0 then
    mkCrawlerstats (histo d) (ttl_hourplus d) (u64 (noexp d + 1)) (cs_reclaimed d) seen (cs_start_time d) (cs_end_time d) (run_complete d)
  else if 3599 <? ttl_remain then
    mkCrawlerstats (histo d) (u64 (ttl_hourplus d + 1)) (noexp d) (cs_reclaimed d) seen (cs_start_time d) (cs_end_time d) (run_complete d)
  else
    let bucket := Z.to_nat (ttl_remain / 60) in
    mkCrawlerstats (if (bucket <=? 60)%nat then alter (fun n => u64 (n + 1)) bucket (histo d) else histo d)
      (ttl_hourplus d) (noexp d) (cs_reclaimed d) seen (cs_start_time d) (cs_end_time d) (run_complete d).

(** Whether an item is to be dropped. *)
Definition is_expired (it : item) : bool :=
  (negb (it_exptime it =? 0) && (it_exptime it <? current_time cfg)) || item_is_flushed cfg it.

Definition crawler_expired_eval (i : Z) (search : positive) (hv : Z) (c : crawl) (s : store T) : outcome (crawl * store T) :=
  it ← get_item search s;
  let d := stats_of i c in
  if is_expired it then
    let w := crawler_of i c in
    let late := negb (has_flag ITEM_FETCHED it) && negb (item_is_flushed cfg it) in
    let w := mkCrawler (remaining w) (u64 (reclaimed w + 1)) (if late then u64 (unfetched w + 1) else unfetched w) (checked w) in
    let c := set_stats i (count_reclaimed d) (set_crawlers (<[i := w]> (crawlers c)) (crawler_count c) c) in
    s ← do_item_unlink_nolock search hv s;
    s ← do_item_remove search s;
    Ret (c, s)
  else
    s ← refcount_decr search s;
    Ret (set_stats i (count_seen (it_exptime it) d) c, s).

(** ** The thread *)

Definition do_item_stats_add_crawl (i : Z) (w : crawler) (c : crawl) : crawl :=
  let t := default (mkCrawlItemstats 0 0 0) (itemstats c !! i) in
  set_itemstats (<[i := mkCrawlItemstats (u64 (crawler_reclaimed t + reclaimed w)) (u64 (expired_unfetched t + unfetched w))
                          (u64 (crawler_items_checked t + checked w))]> (itemstats c)) c.

(** The crawler of class [i] is switched off and leaves its list. *)
Definition lru_crawler_class_done (i : Z) (c : crawl) (s : store T) : outcome (crawl * store T) :=
  let p := crawler_addr i in
  s ← upd_item p (set_flags 0) s;
  s ← do_item_unlinktail_q p s;
  let s := with_heap (base.delete p (heap s)) s in
  let c := set_crawlers (crawlers c) (crawler_count c - 1) c in
  Ret (crawler_expired_doneclass i (do_item_stats_add_crawl i (crawler_of i c) c), s).

(** [crawlers[i].it_flags != 1]. *)
Definition is_off (i : Z) (s : store T) : bool :=
  match heap s !! crawler_addr i with Some it => negb (it_flags it =? 1) | None => true end.

(** What the thread does for class [i]; [item_trylock] are the locks it gets. *)
Definition crawl_class (item_trylock : Z -> bool) (i : Z) (c : crawl) (s : store T) : outcome (crawl * store T) :=
  if is_off i s then Ret (c, s) else
  '(search, s) ← do_item_crawl_q (crawler_addr i) s;
  match search with
  | None => lru_crawler_class_done i c s
  | Some search =>
      let w := crawler_of i c in
      let left := u32 (remaining w - 1) in
      let limited := negb (remaining w =? 0) in
      let c := if limited then set_crawlers (<[i := mkCrawler left (reclaimed w) (unfetched w) (checked w)]> (crawlers c)) (crawler_count c) c else c in
      if limited && (left <? 1) then lru_crawler_class_done i c s else
      it ← get_item search s;
      let hv := hash (item_key it) in
      if negb (item_trylock hv) then Ret (c, s) else
      s ← refcount_incr search s;
      it ← get_item search s;
      if negb (it_refcount it =? 2) then s ← refcount_decr search s; Ret (c, s) else
      let w := crawler_of i c in
      let c := set_crawlers (<[i := mkCrawler (remaining w) (reclaimed w) (unfetched w) (u64 (checked w + 1))]> (crawlers c)) (crawler_count c) c in
      crawler_expired_eval i search hv c s
  end.

Fixpoint crawl_classes (item_trylock : Z -> bool) (ids : list Z) (c : crawl) (s : store T) : outcome (crawl * store T) :=
  match ids with
  | [] => Ret (c, s)
  | i :: ids => '(c, s) ← crawl_class item_trylock i c s; crawl_classes item_trylock ids c s
  end.

(** The loop [while (crawler_count)]; every turn moves each crawler past an item or ends it, so that
    one turn more than there are items is enough.  [locks n] are the locks the thread gets when there
    are [n] turns left. *)
Fixpoint crawl_loop (fuel : nat) (locks : nat -> Z -> bool) (c : crawl) (s : store T) : outcome (crawl * store T) :=
  if crawler_count c =? 0 then Ret (c, s) else
  match fuel with
  | O => Ub
  | S fuel =>
      '(c, s) ← crawl_classes (locks fuel) (seqZ 1 (POWER_LARGEST - 1)) c s;
      crawl_loop fuel locks c s
  end.

(** The thread from one signal to the next. *)
Definition item_crawler_thread (locks : nat -> Z -> bool) (c : crawl) (s : store T) : outcome (crawl * store T) :=
  '(c, s) ← crawl_loop (1 + size (heap s)) locks c s;
  Ret (set_running false (lru_crawler_starts c) (crawler_expired_finalize c), s).

(** ** Starting *)

(** [crawlers[i].it_flags == 0]. *)
Definition is_idle (i : Z) (s : store T) : bool :=
  match heap s !! crawler_addr i with Some it => it_flags it =? 0 | None => true end.

Definition do_lru_crawler_start (id remaining : Z) (c : crawl) (s : store T) : outcome (Z * crawl * store T) :=
  if is_idle id s then
    let p := crawler_addr id in
    let remaining := if remaining =? LRU_CRAWLER_CAP_REMAINING then count_at (sizes s) id else remaining in
    let remaining := if remaining =? 0 then 0 else u32 (remaining + 1) in
    let it := mkItem None None 0 0 0 0 1 id [] [] 0 0 0 [] [] in
    s ← do_item_linktail_q p (with_heap (<[p := it]> (heap s)) s);
    Ret (1, set_crawlers (<[id := mkCrawler remaining 0 0 0]> (crawlers c)) (crawler_count c + 1) c, s)
  else Ret (0, c, s).

(** The loop over the classes. *)
Fixpoint start_classes (todo : Z -> bool) (ids : list Z) (remaining : Z) (starts : Z) (c : crawl) (s : store T) : outcome (Z * crawl * store T) :=
  match ids with
  | [] => Ret (starts, c, s)
  | i :: ids =>
      if todo i then
        '(n, c, s) ← do_lru_crawler_start i remaining c s;
        start_classes todo ids remaining (starts + n) c s
      else start_classes todo ids remaining starts c s
  end.

(** [todo] is null for a crawl of the hash table, which only the dump of metadata supports. *)
Definition lru_crawler_start (todo : option (Z -> bool)) (remaining : Z) (type : crawler_run_type) (c : crawl) (s : store T)
    : outcome (Z * crawl * store T) :=
  let auto := crawler_run_type_eqb type CRAWLER_AUTOEXPIRE in
  if negb (do_run_lru_crawler_thread c) then Ret (-2, c, s)
  else if lru_crawler_running c && negb (auto && crawler_run_type_eqb (active_crawler_type c) CRAWLER_AUTOEXPIRE) then
    Ret (-1, set_block (u32 (current_time cfg + 60)) c, s)
  else if auto && (current_time cfg <? block_ae_until c) then Ret (-1, c, s)
  else
    match todo with
    | None => Ret (-2, c, s)
    | Some todo =>
        let c := if negb (lru_crawler_running c) then crawler_expired_init (set_type type c) else c in
        '(starts, c, s) ← start_classes todo (seqZ 1 (POWER_LARGEST - 1)) remaining 0 c s;
        Ret (starts, if negb (starts =? 0) then set_running true (u64 (lru_crawler_starts c + 1)) c else c, s)
    end.

(** *** The command *)

(** [strtok_r(slabs, ",", &b)] until it returns null; [word] is the word that is being read. *)
Fixpoint comma_words (l word : list Z) : list (list Z) :=
  match l with
  | [] => if (length word =? 0)%nat then [] else [word]
  | ch :: l =>
      if ch =? 44 then (if (length word =? 0)%nat then comma_words l [] else word :: comma_words l [])
      else comma_words l (word ++ [ch])
  end.

(** The numbers of the classes, or nothing when one of the words is not such a number. *)
Fixpoint crawl_ids (words : list (list Z)) : outcome (option (list Z)) :=
  match words with
  | [] => Ret (Some [])
  | w :: words =>
      '(ok, sid) ← safe_strtoul (Some w) true;
      if negb ok || (sid <? 1) || (64 <=? sid) then Ret None else
      ids ← crawl_ids words;
      Ret (option_map (cons sid) ids)
  end.

(** The words are "all" and "hash". *)
Definition lru_crawler_crawl (slabs : list Z) (type : crawler_run_type) (remaining : Z) (c : crawl) (s : store T)
    : outcome (crawler_result_type * crawl * store T) :=
  todo ← (if bool_decide (slabs = [97; 108; 108]) then Ret (Some (Some (fun _ => true)))
          else if bool_decide (slabs = [104; 97; 115; 104]) then Ret (Some None)
          else
            ids ← crawl_ids (comma_words slabs []);
            Ret (option_map (fun ids => Some (fun i => existsb (fun sid => (i =? Z.lor sid TEMP_LRU) || (i =? Z.lor sid HOT_LRU)
                                                              || (i =? Z.lor sid WARM_LRU) || (i =? Z.lor sid COLD_LRU)) ids)) ids));
  match todo with
  | None => Ret (CRAWLER_BADCLASS, c, s)
  | Some todo =>
      '(starts, c, s) ← lru_crawler_start todo remaining type c s;
      Ret (if starts =? -1 then CRAWLER_RUNNING else if starts =? -2 then CRAWLER_ERROR
           else if negb (starts =? 0) then CRAWLER_OK else CRAWLER_NOTSTARTED, c, s)
  end.

End Crawler.
