(* ===== verification/CrawlLists.v ===== *)
(** * Crawlers are invisible to the other operations

    [sim] relates a store with crawlers in its lists to the same store without them: the items are
    the same but for their links, and a list without its crawler is the list.  The operations on items
    do the same to both. *)

From S2P Require Import Prelude Items LruFacts ItemsFacts ItemAlloc Crawler.
Local Open Scope Z_scope.

Section Sim.
Context {T : Type} {table_ops : ItemTable T} (hash : list Z -> Z) {table_laws : ItemTableLaws hash T} (cfg : settings).
Context (crawler_addr : Z -> positive) {addr_inj : Inj (=) (=) crawler_addr}.
Implicit Types (s : store T) (m : gmap (list Z) positive) (refs : positive -> Z) (lru full : Z -> list positive) (on : Z -> bool).

(** One member of a list that is not counted. *)
Definition extra_of on : Z -> Z := fun id => if on id then 1 else 0.

Definition not_crawler (p : positive) : Prop := forall id, p <> crawler_addr id.

Record crawler_item (id : Z) (c : item) : Prop := {
  ci_nbytes : it_nbytes c = 0;
  ci_flags : it_flags c = 1;
  ci_class : it_slabs_clsid c = id;
  ci_key : item_key c = []
}.

(** [on] are the crawlers that are switched on, [full] the lists with them. *)
Record sim on s0 lru s full : Prop := {
  sm_lru0 : lru_rep s0 lru;
  sm_lru : lru_rep_with (extra_of on) s full;
  sm_rest : rest_eq s0 s;
  sm_none : forall id, heap s0 !! crawler_addr id = None;
  sm_body : forall q, not_crawler q -> body <$> heap s !! q = body <$> heap s0 !! q;
  sm_crawler : forall id, if on id then exists c, heap s !! crawler_addr id = Some c /\ crawler_item id c else heap s !! crawler_addr id = None;
  sm_filter : forall id, remove_ptr (crawler_addr id) (full id) = lru id;
  sm_mem : forall id, on id = true -> crawler_addr id ∈ full id
}.

Lemma sim_not_crawler on s0 lru s full p i0 : sim on s0 lru s full -> heap s0 !! p = Some i0 -> not_crawler p.
Proof. intros S Hp id ->. by rewrite (sm_none _ _ _ _ _ S) in Hp. Qed.

Lemma sim_get on s0 lru s full p i0 : sim on s0 lru s full -> heap s0 !! p = Some i0 ->
  exists i, heap s !! p = Some i /\ body i = body i0.
Proof.
  intros S Hp. pose proof (sm_body _ _ _ _ _ S p (sim_not_crawler _ _ _ _ _ _ _ S Hp)) as E. rewrite Hp in E.
  destruct (heap s !! p) as [i|]; [|done]. exists i. split; [done|]. by apply (inj Some).
Qed.

Lemma sim_in on s0 lru s full p id : sim on s0 lru s full -> not_crawler p -> p ∈ full id <-> p ∈ lru id.
Proof. intros S Hp. rewrite <- (sm_filter _ _ _ _ _ S id), elem_of_remove_ptr. split; [intros H; split; [done|apply Hp]|tauto]. Qed.

(** A later pair of states in which the crawlers are as they were. *)
Lemma sim_build on s0 lru s full s0' lru' s' full' :
  sim on s0 lru s full -> lru_rep s0' lru' -> lru_rep_with (extra_of on) s' full' -> rest_eq s0' s' ->
  (forall id, heap s0' !! crawler_addr id = None) ->
  (forall q, not_crawler q -> body <$> heap s' !! q = body <$> heap s0' !! q) ->
  (forall id, body <$> heap s' !! crawler_addr id = body <$> heap s !! crawler_addr id) ->
  (forall id, remove_ptr (crawler_addr id) (full' id) = lru' id) ->
  (forall id, crawler_addr id ∈ full id -> crawler_addr id ∈ full' id) -> sim on s0' lru' s' full'.
Proof.
  intros S H1 H2 H3 H4 H5 H6 H7 H8. split; try done.
  - intros id. pose proof (sm_crawler _ _ _ _ _ S id) as Hc. specialize (H6 id). destruct (on id).
    + destruct Hc as (c & Ec & [C1 C2 C3 C4]). rewrite Ec in H6. destruct (heap s' !! crawler_addr id) as [c'|]; [|done].
      exists c'. split; [done|]. apply (inj Some) in H6.
      split; [apply (f_equal it_nbytes) in H6|apply (f_equal it_flags) in H6|apply (f_equal it_slabs_clsid) in H6|apply (f_equal item_key) in H6]; simpl in H6; congruence.
    + rewrite Hc in H6. by destruct (heap s' !! crawler_addr id).
  - intros id Hon. by apply H8, (sm_mem _ _ _ _ _ S).
Qed.

(** ** The steps that operations are made of *)

Definition same_body (f : item -> item) : Prop := forall x y, body x = body y -> body (f x) = body (f y).

(** An assignment to fields other than the links and the class. *)
Lemma sim_upd on s0 lru s full p i0 i f : sim on s0 lru s full -> heap s0 !! p = Some i0 -> heap s !! p = Some i -> body i = body i0 ->
  same_body f -> (forall x, links (f x) = links x) -> (forall x, it_slabs_clsid (f x) = it_slabs_clsid x) ->
  sim on (with_heap (<[p := f i0]> (heap s0)) s0) lru (with_heap (<[p := f i]> (heap s)) s) full.
Proof.
  intros S Hp Hi B Hf Hl Hc. pose proof (sim_not_crawler _ _ _ _ _ _ _ S Hp) as Hn.
  eapply sim_build; [exact S|apply lru_rep_upd; [apply S|done..]|apply lru_rep_upd; [apply S|done..]|apply S| | | |apply S|done]; cbn [heap with_heap].
  - intros id. rewrite lookup_insert_ne by apply Hn. apply S.
  - intros q Hq. destruct (decide (q = p)) as [->|]; [rewrite !lookup_insert_eq; simpl; f_equal; by apply Hf|rewrite !lookup_insert_ne by done; by apply S].
  - intros id. by rewrite lookup_insert_ne by apply Hn.
Qed.

(** The class of an item that is in no list. *)
Lemma sim_upd_free on s0 lru s full p i0 i f : sim on s0 lru s full -> heap s0 !! p = Some i0 -> heap s !! p = Some i -> body i = body i0 ->
  (forall id, p ∉ lru id) -> same_body f ->
  sim on (with_heap (<[p := f i0]> (heap s0)) s0) lru (with_heap (<[p := f i]> (heap s)) s) full.
Proof.
  intros S Hp Hi B Hfree Hf. pose proof (sim_not_crawler _ _ _ _ _ _ _ S Hp) as Hn.
  eapply sim_build; [exact S| | |apply S| | | |apply S|done]; cbn [heap with_heap].
  - eapply lru_rep_frame; [apply S|done..|]. intros id q Hq. cbn [heap with_heap].
    rewrite lookup_insert_ne; [done|]. intros ->. by apply (Hfree id).
  - eapply lru_rep_frame; [apply S|done..|]. intros id q Hq. cbn [heap with_heap].
    rewrite lookup_insert_ne; [done|]. intros ->. apply (Hfree id). by apply (sim_in _ _ _ _ _ _ id S Hn).
  - intros id. rewrite lookup_insert_ne by apply Hn. apply S.
  - intros q Hq. destruct (decide (q = p)) as [->|]; [rewrite !lookup_insert_eq; simpl; f_equal; by apply Hf|rewrite !lookup_insert_ne by done; by apply S].
  - intros id. by rewrite lookup_insert_ne by apply Hn.
Qed.

Lemma sim_delete on s0 lru s full p i0 : sim on s0 lru s full -> heap s0 !! p = Some i0 -> (forall id, p ∉ lru id) ->
  sim on (with_heap (base.delete p (heap s0)) s0) lru (with_heap (base.delete p (heap s)) s) full.
Proof.
  intros S Hp Hfree. pose proof (sim_not_crawler _ _ _ _ _ _ _ S Hp) as Hn.
  eapply sim_build; [exact S|apply lru_rep_delete; [apply S|done]| |apply S| | | |apply S|done]; cbn [heap with_heap].
  - apply lru_rep_delete; [apply S|]. intros id H. apply (Hfree id). by apply (sim_in _ _ _ _ _ _ id S Hn).
  - intros id. rewrite lookup_delete_ne by apply Hn. apply S.
  - intros q Hq. destruct (decide (q = p)) as [->|]; [by rewrite !lookup_delete_eq|rewrite !lookup_delete_ne by done; by apply S].
  - intros id. by rewrite lookup_delete_ne by apply Hn.
Qed.

(** The table and the counters. *)
Lemma sim_globals on s0 lru s full s0' s' : sim on s0 lru s full -> rest_eq s0' s' ->
  heap s0' = heap s0 -> heads s0' = heads s0 -> tails s0' = tails s0 -> sizes s0' = sizes s0 ->
  heap s' = heap s -> heads s' = heads s -> tails s' = tails s -> sizes s' = sizes s -> sim on s0' lru s' full.
Proof.
  intros S Hr H1 H2 H3 H4 H5 H6 H7 H8. eapply sim_build; [exact S|by eapply lru_rep_same; [apply S|..]|by eapply lru_rep_same; [apply S|..]|done| | | |apply S|done].
  - intros id. rewrite H1. apply S.
  - intros q Hq. rewrite H1, H5. by apply S.
  - intros id. by rewrite H5.
Qed.

Lemma remove_ptr_comm p q l : remove_ptr p (remove_ptr q l) = remove_ptr q (remove_ptr p l).
Proof. unfold remove_ptr. rewrite !list_filter_filter. apply list_filter_iff. tauto. Qed.

Lemma remove_ptr_cons p q l : q <> p -> remove_ptr p (q :: l) = q :: remove_ptr p l.
Proof. intros. unfold remove_ptr. by rewrite filter_cons_True. Qed.

Lemma body_eq_none h h' q : body_eq h h' -> h !! q = None -> h' !! q = None.
Proof. intros B H. specialize (B q). rewrite H in B. by destruct (h' !! q). Qed.

Lemma rest_eq_sim s0 s s0' s' : rest_eq s0 s -> rest_eq s0 s0' -> rest_eq s s' -> rest_eq s0' s'.
Proof. unfold rest_eq. intros (?&?&?&?&?) (?&?&?&?&?) (?&?&?&?&?). repeat split; congruence. Qed.

Lemma sim_unlink_q on s0 lru s full p i0 : sim on s0 lru s full -> heap s0 !! p = Some i0 -> p ∈ lru (it_slabs_clsid i0) ->
  let id := it_slabs_clsid i0 in
  exists s0' s', do_item_unlink_q p s0 = Ret s0' /\ do_item_unlink_q p s = Ret s' /\
    sim on s0' (set_lru id (remove_ptr p (lru id)) lru) s' (set_lru id (remove_ptr p (full id)) full) /\ body_eq (heap s0) (heap s0') /\ rest_eq s0 s0'.
Proof.
  intros S Hp Hin id. fold id in Hin. pose proof (sim_not_crawler _ _ _ _ _ _ _ S Hp) as Hn. destruct (sim_get _ _ _ _ _ _ _ S Hp) as (i & Hi & B).
  assert (it_slabs_clsid i = id) as Hid by (apply (f_equal it_slabs_clsid) in B; exact B).
  destruct (do_item_unlink_q_ok s0 lru p i0 (sm_lru0 _ _ _ _ _ S) Hp Hin) as (s0' & E0 & L0 & B0 & R0).
  destruct (do_item_unlink_q_ok s full p i (sm_lru _ _ _ _ _ S) Hi) as (s' & E & L & B' & R'); [rewrite Hid; by apply (sim_in _ _ _ _ _ _ id S Hn)|].
  rewrite Hid in L. exists s0', s'. split; [done|]. split; [done|]. split; [|done].
  eapply sim_build; [exact S|exact L0|exact L|by eapply rest_eq_sim; [apply S|..]| | | | |].
  - intros id'. eapply body_eq_none; [exact B0|apply S].
  - intros q Hq. rewrite (B' q), (B0 q). by apply S.
  - intros id'. apply B'.
  - intros id'. lru_case id' id; [|apply S]. rewrite remove_ptr_comm. f_equal. apply S.
  - intros id' H. lru_case id' id; [|done]. apply elem_of_remove_ptr. split; [done|]. intros E'. by apply (Hn id).
Qed.

Lemma sim_link_q on s0 lru s full p i0 : sim on s0 lru s full -> heap s0 !! p = Some i0 -> has_flag ITEM_SLABBED i0 = false -> (forall id, p ∉ lru id) ->
  let id := it_slabs_clsid i0 in
  exists s0' s', do_item_link_q p s0 = Ret s0' /\ do_item_link_q p s = Ret s' /\
    sim on s0' (set_lru id (p :: lru id) lru) s' (set_lru id (p :: full id) full) /\ body_eq (heap s0) (heap s0') /\ rest_eq s0 s0'.
Proof.
  intros S Hp Hslab Hfree id. pose proof (sim_not_crawler _ _ _ _ _ _ _ S Hp) as Hn. destruct (sim_get _ _ _ _ _ _ _ S Hp) as (i & Hi & B).
  assert (it_slabs_clsid i = id) as Hid by (apply (f_equal it_slabs_clsid) in B; exact B).
  destruct (do_item_link_q_ok s0 lru p i0 (sm_lru0 _ _ _ _ _ S) Hp Hslab Hfree) as (s0' & E0 & L0 & B0 & R0).
  destruct (do_item_link_q_ok s full p i (sm_lru _ _ _ _ _ S) Hi) as (s' & E & L & B' & R').
  { by rewrite (has_flag_body _ _ _ B). }
  { intros id' H. apply (Hfree id'). by apply (sim_in _ _ _ _ _ _ id' S Hn). }
  rewrite Hid in L. exists s0', s'. split; [done|]. split; [done|]. split; [|done].
  eapply sim_build; [exact S|exact L0|exact L|by eapply rest_eq_sim; [apply S|..]| | | | |].
  - intros id'. eapply body_eq_none; [exact B0|apply S].
  - intros q Hq. rewrite (B' q), (B0 q). by apply S.
  - intros id'. apply B'.
  - intros id'. lru_case id' id; [|apply S]. rewrite remove_ptr_cons by apply Hn. f_equal. apply S.
  - intros id' H. lru_case id' id; [|done]. by right.
Qed.

(** ** The operations *)

Lemma sim_fields i i0 : body i = body i0 -> it_refcount i = it_refcount i0 /\ it_slabs_clsid i = it_slabs_clsid i0 /\ item_key i = item_key i0 /\
  it_flags i = it_flags i0 /\ it_time i = it_time i0 /\ it_exptime i = it_exptime i0.
Proof.
  intros B. split_and!; [apply (f_equal it_refcount) in B|apply (f_equal it_slabs_clsid) in B|apply (f_equal item_key) in B|apply (f_equal it_flags) in B|
    apply (f_equal it_time) in B|apply (f_equal it_exptime) in B]; exact B.
Qed.

Lemma same_body_refcount f : same_body (fun i => set_refcount (f (it_refcount i)) i).
Proof. intros x y H. apply (f_equal (fun i => body (set_refcount (f (it_refcount i)) i))) in H. exact H. Qed.
Lemma same_body_time t : same_body (set_time t).
Proof. intros x y H. apply (f_equal (fun i => body (set_time t i))) in H. exact H. Qed.
Lemma same_body_exptime t : same_body (set_exptime t).
Proof. intros x y H. apply (f_equal (fun i => body (set_exptime t i))) in H. exact H. Qed.
Lemma same_body_raise f : same_body (raise_flag f).
Proof. intros x y H. apply (f_equal (fun i => body (raise_flag f i))) in H. exact H. Qed.
Lemma same_body_clear f : same_body (clear_flag f).
Proof. intros x y H. apply (f_equal (fun i => body (clear_flag f i))) in H. exact H. Qed.
Lemma same_body_set_cas v : same_body (ITEM_set_cas v).
Proof. intros x y H. unfold ITEM_set_cas. rewrite (has_flag_body _ _ _ H). destruct (has_flag ITEM_CAS y); [|done]. apply (f_equal (fun i => body (set_cas v i))) in H. exact H. Qed.
Lemma same_body_comp f g : same_body f -> same_body g -> same_body (fun i => f (g i)).
Proof. intros Hf Hg x y H. by apply Hf, Hg. Qed.

Lemma set_cas_links v x : links (ITEM_set_cas v x) = links x /\ it_slabs_clsid (ITEM_set_cas v x) = it_slabs_clsid x.
Proof. unfold ITEM_set_cas. by destruct (has_flag ITEM_CAS x). Qed.

Lemma get_upd s p i : get_item p (with_heap (<[p := i]> (heap s)) s) = Ret i.
Proof. unfold get_item. cbn [heap with_heap]. by rewrite lookup_insert_eq. Qed.

(** Neither end of a list is an item that is in no list. *)
Lemma sim_not_end on s0 lru s full p i0 id : sim on s0 lru s full -> heap s0 !! p = Some i0 -> (forall id, p ∉ lru id) ->
  opt_is (heads s0 !! id) p = false /\ opt_is (tails s0 !! id) p = false /\ opt_is (heads s !! id) p = false /\ opt_is (tails s !! id) p = false.
Proof.
  intros S Hp Hfree. pose proof (sim_not_crawler _ _ _ _ _ _ _ S Hp) as Hn.
  assert (p ∉ full id) as Hf by (intros H; apply (Hfree id); by apply (sim_in _ _ _ _ _ _ id S Hn)).
  unfold opt_is. rewrite (lru_heads _ _ (sm_lru0 _ _ _ _ _ S)), (lru_tails _ _ (sm_lru0 _ _ _ _ _ S)), (lru_heads _ _ (sm_lru _ _ _ _ _ S)), (lru_tails _ _ (sm_lru _ _ _ _ _ S)).
  split_and!; apply bool_decide_eq_false; intros E;
    [apply head_Some_elem_of in E|apply last_Some in E as [l E]|apply head_Some_elem_of in E|apply last_Some in E as [l E]];
    [by apply (Hfree id)|apply (Hfree id); rewrite E; set_solver|done|apply Hf; rewrite E; set_solver].
Qed.

Lemma sim_remove on s0 lru s full p i0 : sim on s0 lru s full -> heap s0 !! p = Some i0 -> slabbed i0 = false -> 0 < it_refcount i0 < 2 ^ 16 ->
  (it_refcount i0 = 1 -> linked i0 = false /\ forall id, p ∉ lru id) ->
  exists s0' s', do_item_remove p s0 = Ret s0' /\ do_item_remove p s = Ret s' /\ sim on s0' lru s' full.
Proof.
  intros S Hp Hslab Hrc Hlast. destruct (sim_get _ _ _ _ _ _ _ S Hp) as (i & Hi & B). destruct (sim_fields _ _ B) as (F1 & _).
  unfold do_item_remove. rewrite (get_item_ok _ _ _ Hp), (get_item_ok _ _ _ Hi), !ret_bind, (has_flag_body _ _ _ B).
  change (has_flag ITEM_SLABBED i0) with (slabbed i0). rewrite Hslab, F1, (proj2 (Z.ltb_lt 0 _)) by lia. cbn [negb c_assert]. rewrite !ret_bind.
  unfold refcount_decr. rewrite (upd_item_ok _ _ _ _ Hp), (upd_item_ok _ _ _ _ Hi), !ret_bind, !get_upd, !ret_bind.
  pose proof (sim_upd _ _ _ _ _ _ _ _ _ S Hp Hi B (same_body_refcount (fun n => u16 (n - 1))) (fun _ => eq_refl) (fun _ => eq_refl)) as S1.
  cbn beta in S1. cbn [it_refcount set_refcount]. rewrite F1 in *. set (n := u16 (it_refcount i0 - 1)) in *. set (s1 := with_heap _ s0) in *. set (s1' := with_heap _ s) in *.
  destruct (Z.eqb_spec n 0) as [Hz|Hz]; [|by exists s1, s1'].
  assert (it_refcount i0 = 1) as H1 by (unfold n, u16 in Hz; rewrite Z.mod_small in Hz by lia; lia). destruct (Hlast H1) as [Hlink Hfree].
  assert (heap s1 !! p = Some (set_refcount n i0)) as Hp1 by apply lookup_insert_eq.
  destruct (sim_not_end _ _ _ _ _ _ _ (it_slabs_clsid i0) S1 Hp1 Hfree) as (N1 & N2 & N3 & N4).
  destruct (sim_fields _ _ B) as (_ & F2 & _).
  assert (heap s1' !! p = Some (set_refcount n i)) as Hi1 by apply lookup_insert_eq.
  unfold item_free. rewrite (get_item_ok _ _ _ Hp1), (get_item_ok _ _ _ Hi1), !ret_bind. cbn [it_slabs_clsid set_refcount it_refcount]. rewrite F2.
  change (has_flag ITEM_LINKED (set_refcount n ?x)) with (linked x). unfold linked. rewrite (has_flag_body _ _ _ B). fold (linked i0).
  rewrite Hlink, N1, N2, N3, N4, Hz. cbn [negb c_assert Z.eqb]. rewrite !ret_bind.
  eexists _, _. split; [reflexivity|]. split; [reflexivity|]. by eapply sim_delete.
Qed.

(** Only the item itself is touched. *)
Lemma remove_frame p s s' : do_item_remove p s = Ret s' -> forall q, q <> p -> heap s' !! q = heap s !! q.
Proof.
  unfold do_item_remove, refcount_decr, upd_item, item_free, get_item. destruct (heap s !! p) as [i|] eqn:Hp; cbn [deref]; [|done]. rewrite !ret_bind.
  do 2 (match goal with |- context [c_assert ?b] => destruct b; cbn [c_assert]; [rewrite !ret_bind|done] end). cbn [heap with_heap]. rewrite lookup_insert_eq. cbn [deref].
  rewrite !ret_bind. destruct (_ =? 0) in |- *.
  - repeat (match goal with |- context [c_assert ?b] => destruct b; cbn [c_assert]; [rewrite !ret_bind|done] end). intros [= <-] q Hq. cbn [heap with_heap]. by rewrite lookup_delete_ne, lookup_insert_ne.
  - intros [= <-] q Hq. cbn [heap with_heap]. by rewrite lookup_insert_ne.
Qed.

(** All items but one are as they were, links aside. *)
Definition but_one (p : positive) s s' : Prop := forall q, q <> p -> body <$> heap s' !! q = body <$> heap s !! q.

Lemma sim_unlink on s0 m lru refs s full p i0 : store_rep hash s0 m lru refs -> sim on s0 lru s full -> heap s0 !! p = Some i0 -> linked i0 = true ->
  exists s0' s' lru' full', do_item_unlink p (hash (item_key i0)) s0 = Ret s0' /\ do_item_unlink p (hash (item_key i0)) s = Ret s' /\ sim on s0' lru' s' full' /\
    store_rep hash s0' (base.delete (item_key i0) m) lru' refs /\ keeps (heap s0) (heap s0') /\ same_globals s0 s0' /\ but_one p s0 s0' /\
    let id := it_slabs_clsid i0 in lru' = set_lru id (remove_ptr p (lru id)) lru /\ full' = set_lru id (remove_ptr p (full id)) full.
Proof.
  intros R S Hp Hl. destruct (do_item_unlink_ok hash s0 m lru refs p i0 R Hp Hl) as (sx & Ex & Rx & Kx & Gx).
  destruct (sim_get _ _ _ _ _ _ _ S Hp) as (i & Hi & B). destruct (sim_fields _ _ B) as (F1 & F2 & F3 & F4 & _).
  destruct (sr_refs _ _ _ _ _ R p i0 Hp) as (Erc & Er0 & Hrc & Hslab). rewrite Hl in Erc.
  pose proof (proj1 (sr_flag _ _ _ _ _ R p i0 Hp) Hl) as Hm.
  destruct (tbl_delete_law _ _ _ _ (sr_table _ _ _ _ _ R) Hm) as (t & Et & Rt).
  revert Ex. unfold do_item_unlink. rewrite (get_item_ok _ _ _ Hp), (get_item_ok _ _ _ Hi), !ret_bind, (has_flag_body _ _ _ B).
  change (has_flag ITEM_LINKED i0) with (linked i0). rewrite Hl, (upd_item_ok _ _ _ _ Hp), (upd_item_ok _ _ _ _ Hi), !ret_bind, !get_upd, !ret_bind.
  pose proof (sim_upd _ _ _ _ _ _ _ _ _ S Hp Hi B (same_body_clear ITEM_LINKED) (fun _ => eq_refl) (fun _ => eq_refl)) as S1.
  destruct (sm_rest _ _ _ _ _ S) as (Q1 & Q2 & Q3 & Q4 & Q5).
  cbn [table with_counts with_heap item_key clear_flag set_flags curr_items curr_bytes total_items]. rewrite F3, Q1, Et, !ret_bind.
  set (s2 := with_table t (with_counts _ _ _ (with_heap _ s0))). set (s2' := with_table t (with_counts _ _ _ (with_heap _ s))).
  assert (sim on s2 lru s2' full) as S2.
  { eapply sim_globals; [exact S1| |done..]. unfold rest_eq, s2, s2'. cbn [table with_table with_counts curr_items curr_bytes total_items cas_id with_heap].
    rewrite Q2, Q3, Q4, Q5. split_and!; try done. do 2 f_equal. unfold ITEM_ntotal.
    assert (body (clear_flag ITEM_LINKED i) = body (clear_flag ITEM_LINKED i0)) as B1 by (by apply same_body_clear).
    rewrite !(has_flag_body _ _ _ B1). apply (f_equal (fun x => 80 + Z.of_nat (length (item_key x)) + 1 + it_nbytes x)) in B1. simpl in B1. simpl. lia. }
  assert (heap s2 !! p = Some (clear_flag ITEM_LINKED i0)) as Hp2 by apply lookup_insert_eq.
  destruct (sim_unlink_q _ _ _ _ _ _ _ S2 Hp2) as (s3 & s3' & -> & -> & S3 & B3 & R3); [exact (sr_member _ _ _ _ _ R p i0 Hp Hl)|].
  rewrite !ret_bind. destruct (body_eq_some _ _ _ _ (body_eq_sym _ _ B3) Hp2) as (i3 & Hp3 & B3p). destruct (body_fields _ _ B3p) as (L3 & Sl3 & _ & N3 & C3).
  destruct (clear_linked i0) as (C1 & C2 & _).
  intros E. destruct (sim_remove _ _ _ _ _ _ _ S3 Hp3) as (s4 & s4' & E4 & E4' & S4); [congruence|rewrite <- N3; exact Hrc| |].
  { intros _. split; [congruence|]. intros id Hin. assert (p ∈ lru id) as Hin'.
    { cbn [it_slabs_clsid clear_flag set_flags] in Hin. lru_case id (it_slabs_clsid i0); [by apply elem_of_remove_ptr in Hin as [_ []]|done]. }
    pose proof (lru_disjoint _ _ _ _ _ (sr_lru _ _ _ _ _ R) Hin' (sr_member _ _ _ _ _ R p i0 Hp Hl)) as ->.
    cbn [it_slabs_clsid clear_flag set_flags] in Hin. rewrite set_lru_eq in Hin. by apply elem_of_remove_ptr in Hin as [_ []]. }
  rewrite E4 in E. injection E as <-. eexists s4, s4', _, _. split; [exact E4|]. split; [exact E4'|]. split; [exact S4|]. split; [exact Rx|]. split; [done|]. split; [done|].
  split; [|done]. intros q Hq. rewrite (remove_frame _ _ _ E4 q Hq), (B3 q). unfold s2. cbn [heap with_table with_counts with_heap]. by rewrite lookup_insert_ne.
Qed.

Lemma sim_incr on s0 m lru refs s full p i0 : store_rep hash s0 m lru refs -> sim on s0 lru s full -> heap s0 !! p = Some i0 -> it_refcount i0 + 1 < 2 ^ 16 ->
  exists s0' s', refcount_incr p s0 = Ret s0' /\ refcount_incr p s = Ret s' /\ sim on s0' lru s' full /\
    store_rep hash s0' m lru (set_refs p (refs p + 1) refs) /\ keeps (heap s0) (heap s0') /\ same_globals s0 s0' /\
    heap s0' !! p = Some (set_refcount (it_refcount i0 + 1) i0).
Proof.
  intros R S Hp Hi0. destruct (refcount_incr_ok hash s0 m lru refs p i0 R Hp Hi0) as (sx & Ex & Rx & Kx & Gx & Hx).
  destruct (sim_get _ _ _ _ _ _ _ S Hp) as (i & Hi & B). pose proof Ex as Ex'. unfold refcount_incr in Ex |- *. rewrite (upd_item_ok _ _ _ _ Hp) in Ex |- *. injection Ex as Ex.
  rewrite (upd_item_ok _ _ _ _ Hi). eexists _, _. split; [reflexivity|]. split; [reflexivity|].
  split; [by apply (sim_upd _ _ _ _ _ _ _ _ _ S Hp Hi B (same_body_refcount (fun n => u16 (n + 1))))|]. rewrite Ex. split_and!; try done.
  rewrite Hx. apply lookup_insert_eq.
Qed.

Lemma sim_decr on s0 m lru refs s full p i0 : store_rep hash s0 m lru refs -> sim on s0 lru s full -> heap s0 !! p = Some i0 -> 0 < refs p -> 1 < it_refcount i0 ->
  exists s0' s', refcount_decr p s0 = Ret s0' /\ refcount_decr p s = Ret s' /\ sim on s0' lru s' full /\
    store_rep hash s0' m lru (set_refs p (refs p - 1) refs) /\ keeps (heap s0) (heap s0') /\ same_globals s0 s0'.
Proof.
  intros R S Hp Hr Hi0. destruct (refcount_decr_ok hash s0 m lru refs p i0 R Hp Hr Hi0) as (sx & Ex & Rx & Kx & Gx & Hx).
  destruct (sim_get _ _ _ _ _ _ _ S Hp) as (i & Hi & B). unfold refcount_decr in Ex |- *. rewrite (upd_item_ok _ _ _ _ Hp) in Ex |- *. injection Ex as Ex.
  rewrite (upd_item_ok _ _ _ _ Hi). eexists _, _. split; [reflexivity|]. split; [reflexivity|].
  split; [by apply (sim_upd _ _ _ _ _ _ _ _ _ S Hp Hi B (same_body_refcount (fun n => u16 (n - 1))))|]. by rewrite Ex.
Qed.

(** Giving back a reference. *)
Lemma sim_release on s0 m lru refs s full p i0 : store_rep hash s0 m lru refs -> sim on s0 lru s full -> heap s0 !! p = Some i0 -> 0 < refs p ->
  exists s0' s', do_item_remove p s0 = Ret s0' /\ do_item_remove p s = Ret s' /\ sim on s0' lru s' full /\
    store_rep hash s0' m lru (set_refs p (refs p - 1) refs) /\ keeps (heap s0) (heap s0') /\ same_globals s0 s0'.
Proof.
  intros R S Hp Hr. destruct (do_item_remove_ok hash s0 m lru refs p i0 R Hp Hr) as (sx & Ex & Rx & Kx & Gx).
  destruct (sr_refs _ _ _ _ _ R p i0 Hp) as (Erc & Er0 & Hrc & Hslab).
  destruct (sim_remove _ _ _ _ _ _ _ S Hp Hslab Hrc) as (s1 & s1' & E1 & E1' & S1).
  { intros H1. assert (linked i0 = false) as Hl by (destruct (linked i0); [lia|done]). split; [done|].
    intros id Hin. destruct (sr_linked _ _ _ _ _ R id p Hin) as (j & Ej & Lj). congruence. }
  rewrite Ex in E1. injection E1 as <-. by exists sx, s1'.
Qed.

End Sim.

(** ** Crawlers move through the LRU lists

    The three functions for crawlers of items.c on the lists: a crawler is put at the tail, swaps
    places with its predecessor, and leaves. *)

(** ** Lists *)

(** A new element anywhere. *)
Lemma linked_list_insert h h' a q b :
  linked_list h (a ++ b) -> NoDup (a ++ q :: b) -> links <$> h' !! q = Some (last a, head b) ->
  (forall p, p ∈ a ++ b -> links <$> h' !! p =
     (fun lk => (if bool_decide (head b = Some p) then Some q else lk.1,
                 if bool_decide (last a = Some p) then Some q else lk.2)) <$> (links <$> h !! p)) ->
  linked_list h' (a ++ q :: b).
Proof.
  intros H Hnd Hq Hl l1 p l2 E.
  assert (forall x, x ∈ a -> x ∈ b -> False) as Hab by (intros x Ha Hb; apply NoDup_app in Hnd as (_ & Hd & _); apply (Hd x Ha); set_solver).
  apply app_eq_inv in E as [(k & -> & E)|(k & -> & E)].
  - destruct k as [|x k]; [rewrite app_nil_r in *; injection E as -> ->; done|]. injection E as -> E. subst l2.
    rewrite Hl by set_solver. rewrite (H l1 x (k ++ b)) by (by rewrite <- app_assoc). simpl.
    rewrite bool_decide_eq_false_2 by (intros Hb; apply head_Some_elem_of in Hb; apply (Hab x); set_solver).
    destruct k as [|y k]; [rewrite last_snoc, bool_decide_eq_true_2 by done; done|].
    rewrite bool_decide_eq_false_2; [done|]. intros Hlast. change (x :: y :: k) with ([x] ++ y :: k) in Hlast. rewrite app_assoc, last_app_cons in Hlast.
    apply last_Some in Hlast as [k' Hk]. apply NoDup_app in Hnd as (Hnd & _). apply NoDup_app in Hnd as (_ & _ & Hnd).
    apply NoDup_cons_1_1 in Hnd. apply Hnd. rewrite Hk. set_solver.
  - destruct k as [|x k]; [rewrite app_nil_r in *; injection E as -> ->; done|]. injection E as -> E. subst b.
    rewrite Hl by set_solver. rewrite (H (a ++ k) p l2) by (by rewrite <- app_assoc). simpl.
    rewrite (bool_decide_eq_false_2 (last a = Some p)) by (intros Ha; apply last_Some in Ha as [a' ->]; apply (Hab p); set_solver).
    destruct k as [|y k]; [simpl; rewrite app_nil_r, bool_decide_eq_true_2, last_snoc by done; done|].
    rewrite bool_decide_eq_false_2, !last_app_cons, last_cons_cons; [done|].
    simpl. intros [= ->]. apply NoDup_app in Hnd as (_ & _ & Hnd). apply NoDup_cons_1_2, NoDup_cons_1_1 in Hnd. set_solver.
Qed.

Section Lists.
Context {T : Type} {table_ops : ItemTable T}.
Implicit Types (s : store T) (full : Z -> list positive).

(** One list changes, and with it the number of its members that are not counted. *)
Lemma lru_rep_change ex ex' s s' full id l' : lru_rep_with ex s full ->
  (forall id', heads s' !! id' = head (set_lru id l' full id')) -> (forall id', tails s' !! id' = last (set_lru id l' full id')) ->
  NoDup l' -> linked_list (heap s') l' -> (forall q, q ∈ l' -> it_slabs_clsid <$> heap s' !! q = Some id) ->
  (forall id' q, id' <> id -> q ∈ full id' -> links <$> heap s' !! q = links <$> heap s !! q /\ it_slabs_clsid <$> heap s' !! q = it_slabs_clsid <$> heap s !! q) ->
  sizes s' = sizes s -> ex' id - ex id = Z.of_nat (length l') - Z.of_nat (length (full id)) -> (forall id', id' <> id -> ex' id' = ex id') ->
  lru_rep_with ex' s' (set_lru id l' full).
Proof.
  intros R H1 H2 H3 H4 H5 H6 H7 H8 H9. split; [done|done|..]; intros id'.
  - lru_case id' id; [done|apply R].
  - lru_case id' id; [done|]. eapply linked_list_frame; [apply R|]. intros q Hq. by apply (H6 id').
  - intros q Hq. lru_case id' id; [by apply H5|]. destruct (H6 id' q) as [_ ->]; [done|done|by apply R].
  - rewrite H7, (lru_sizes _ _ R). lru_case id' id; [f_equal; lia|by rewrite H9].
Qed.

(** Links after an assignment. *)
Lemma links_insert (h : gmap positive item) p i q : links <$> <[p := i]> h !! q = if decide (q = p) then Some (links i) else links <$> h !! q.
Proof. case_decide as E; [by rewrite E, lookup_insert_eq|by rewrite lookup_insert_ne]. Qed.

Lemma clsid_body_eq (h h' : gmap positive item) q id : body_eq h h' -> it_slabs_clsid <$> h !! q = Some id -> it_slabs_clsid <$> h' !! q = Some id.
Proof. intros B <-. by apply body_eq_clsid. Qed.

Lemma body_eq_link (h h' : gmap positive item) p i f : body_eq h h' -> h' !! p = Some i -> body (f i) = body i -> body_eq h (<[p := f i]> h').
Proof. intros B Hp Hf. eapply body_eq_trans; [exact B|by apply body_eq_insert]. Qed.

(** ** Joining at the tail *)

Lemma linktail_ok ex s full p it : lru_rep_with ex s full -> heap s !! p = Some it -> it_flags it = 1 -> it_nbytes it = 0 -> (forall id, p ∉ full id) ->
  let id := it_slabs_clsid it in
  exists s', do_item_linktail_q p s = Ret s' /\ body_eq (heap s) (heap s') /\ rest_eq s s' /\
    forall ex', ex' id = ex id + 1 -> (forall id', id' <> id -> ex' id' = ex id') -> lru_rep_with ex' s' (set_lru id (full id ++ [p]) full).
Proof.
  intros R Hp Hf Hb Hnew id. unfold do_item_linktail_q. rewrite (get_item_ok _ _ _ Hp), ret_bind, Hf, Hb. cbn [Z.eqb Pos.eqb c_assert]. rewrite !ret_bind. fold id.
  rewrite (lru_heads _ _ R), (lru_tails _ _ R), head_null_last_null, Bool.eqb_reflx. unfold opt_is.
  assert (last (full id) <> Some p) as Hlast by (intros E; apply last_Some in E as [l E]; apply (Hnew id); rewrite E; set_solver).
  rewrite (bool_decide_eq_false_2 _ Hlast). cbn [negb c_assert]. rewrite !ret_bind, (upd_item_ok _ _ _ _ Hp), ret_bind.
  set (h1 := <[p := set_next None (set_prev (last (full id)) it)]> (heap s)).
  assert (body_eq (heap s) h1) as B1 by (by apply (body_eq_insert _ _ _ (fun i => set_next None (set_prev (last (full id)) i)))).
  assert (NoDup (full id ++ [p])) as Hnd.
  { apply NoDup_app. split; [apply R|]. split; [intros q Hq ->%list_elem_of_singleton; by apply (Hnew id)|apply NoDup_singleton]. }
  assert (exists h2, (match last (full id) with
      | Some q => iq ← get_item q (with_heap h1 s); _ ← c_assert (is_null (it_next iq)); upd_item q (set_next (Some p)) (with_heap h1 s)
      | None => Ret (with_heap h1 s) end) = Ret (with_heap h2 s) /\ body_eq (heap s) h2 /\
    (forall q, links <$> h2 !! q = if decide (q = p) then Some (last (full id), None)
       else (fun lk => (lk.1, if bool_decide (last (full id) = Some q) then Some p else lk.2)) <$> (links <$> heap s !! q))) as (h2 & -> & B2 & L2).
  { destruct (last (full id)) as [q|] eqn:Eq.
    - assert (q ∈ full id) as Hin by (apply last_Some in Eq as [l ->]; set_solver).
      destruct (lru_member_some _ _ _ _ R Hin) as [iq Hiq]. assert (q <> p) as Hqp by (intros ->; done).
      assert (h1 !! q = Some iq) as Hq1 by (unfold h1; by rewrite lookup_insert_ne).
      rewrite (get_item_ok q (with_heap h1 s) iq Hq1), ret_bind.
      assert (links iq = (it_prev iq, None)) as Hlk.
      { apply last_Some in Eq as [l El]. pose proof (lru_lists _ _ R id l q [] El) as Hl. rewrite Hiq in Hl. injection Hl as _ Hn. unfold links. by rewrite Hn. }
      injection Hlk as Hn. unfold is_null. rewrite bool_decide_eq_true_2 by done. cbn [c_assert]. rewrite ret_bind, (upd_item_ok q _ (with_heap h1 s) iq Hq1).
      eexists. split; [done|]. cbn [heap with_heap]. split; [by apply (body_eq_link _ _ _ _ (set_next (Some p)))|].
      intros q'. rewrite links_insert. unfold h1. destruct (decide (q' = q)) as [->|Hq'].
      + rewrite decide_False by done. rewrite Hiq. simpl. rewrite bool_decide_eq_true_2 by done. done.
      + rewrite links_insert. case_decide; [done|]. rewrite bool_decide_eq_false_2 by congruence. by destruct (heap s !! q').
    - exists h1. split; [done|]. split; [done|]. intros q. unfold h1. rewrite links_insert. case_decide; [done|]. by destruct (heap s !! q). }
  rewrite ret_bind. eexists. split; [done|]. split; [done|]. split; [by repeat split|]. intros ex' He1 He2.
  eapply lru_rep_change; [exact R| | |done| | | |done| |done]; cbn [heap heads tails with_lru with_heap sizes].
  - intros id'. unfold is_null. lru_case id' id.
    + case_bool_decide as El; [apply last_None in El; rewrite El, lookup_insert_eq; done|].
      rewrite (lru_heads _ _ R). destruct (full id); [done|done].
    + case_bool_decide; [rewrite lookup_insert_ne by done|]; apply R.
  - intros id'. lru_case id' id; [by rewrite lookup_insert_eq, last_snoc|rewrite lookup_insert_ne by done; apply R].
  - apply (linked_list_insert (heap s)); [rewrite app_nil_r; apply R|done|rewrite L2, decide_True by done; done|].
    intros q Hq. rewrite app_nil_r in Hq. rewrite L2, decide_False by (intros ->; by apply (Hnew id)). by destruct (heap s !! q).
  - intros q Hq. apply elem_of_app in Hq as [Hq|Hq%list_elem_of_singleton].
    + eapply clsid_body_eq; [exact B2|by apply R].
    + subst q. eapply clsid_body_eq; [exact B2|]. by rewrite Hp.
  - intros id' q Hne Hq. split; [|by apply body_eq_clsid]. rewrite L2, decide_False by (intros ->; by apply (Hnew id')).
    rewrite bool_decide_eq_false_2; [by destruct (heap s !! q) as [[]|]|]. intros E. apply Hne.
    apply last_Some in E as [l E]. eapply lru_disjoint; [exact R|exact Hq|rewrite E; set_solver].
  - rewrite length_app. simpl. lia.
Qed.

(** ** Leaving *)

Lemma lru_rep_resize ex ex' s s' full : lru_rep_with ex s full -> heap s' = heap s -> heads s' = heads s -> tails s' = tails s ->
  (forall id, count_at (sizes s') id = u32 (Z.of_nat (length (full id)) - ex' id)) -> lru_rep_with ex' s' full.
Proof. intros R H1 H2 H3 H4. split; try done; rewrite ?H1, ?H2, ?H3; apply R. Qed.

Lemma upd_link_heap q f s s1 : upd_link q f s = Ret s1 -> exists h, s1 = with_heap h s.
Proof.
  unfold upd_link, upd_item, get_item. destruct q as [q|]; [|intros [= <-]; exists (heap s); by destruct s].
  destruct (heap s !! q); [|done]. intros [= <-]. by eexists.
Qed.

(** It is [do_item_unlink_q] without the counters. *)
Lemma unlink_q_tail p s it s' : get_item p s = Ret it -> do_item_unlink_q p s = Ret s' ->
  exists s1, do_item_unlinktail_q p s = Ret s1 /\ heap s1 = heap s' /\ heads s1 = heads s' /\ tails s1 = tails s' /\ sizes s1 = sizes s /\ rest_eq s s1.
Proof.
  intros Hp. unfold do_item_unlink_q, do_item_unlinktail_q. rewrite Hp, !ret_bind.
  do 4 (match goal with |- context [c_assert ?b] => destruct b; cbn [c_assert]; [rewrite !ret_bind|intros E; discriminate E] end).
  destruct (upd_link (it_next it) _ s) as [s1| |] eqn:E1; [rewrite !ret_bind|intros E; discriminate E..].
  destruct (upd_link (it_prev it) _ s1) as [s2| |] eqn:E2; [rewrite !ret_bind|intros E; discriminate E..]. intros [= <-].
  destruct (upd_link_heap _ _ _ _ E1) as [h1 ->]. destruct (upd_link_heap _ _ _ _ E2) as [h2 ->].
  eexists. split; [reflexivity|]. split_and!; done.
Qed.

Lemma unlinktail_ok ex s full p it : lru_rep_with ex s full -> heap s !! p = Some it -> p ∈ full (it_slabs_clsid it) ->
  let id := it_slabs_clsid it in
  exists s', do_item_unlinktail_q p s = Ret s' /\ body_eq (heap s) (heap s') /\ rest_eq s s' /\
    forall ex', ex' id = ex id - 1 -> (forall id', id' <> id -> ex' id' = ex id') -> lru_rep_with ex' s' (set_lru id (remove_ptr p (full id)) full).
Proof.
  intros R Hp Hin id. destruct (do_item_unlink_q_ok s full p it R Hp Hin) as (s1 & E1 & L1 & B1 & _).
  destruct (unlink_q_tail p s it s1 (get_item_ok _ _ _ Hp) E1) as (s' & E & H1 & H2 & H3 & H4 & Hr).
  exists s'. split; [done|]. split; [by rewrite H1|]. split; [done|]. intros ex' He1 He2. fold id in L1, Hin.
  eapply lru_rep_resize; [exact L1|done..|]. intros id'. rewrite H4, (lru_sizes _ _ R). lru_case id' id; [|by rewrite He2].
  apply list_elem_of_split in Hin as (a & b & El). pose proof (lru_nodup _ _ R id) as Hnd. rewrite El in *. rewrite remove_ptr_split by done.
  rewrite <- (length_remove a p b). f_equal. lia.
Qed.

(** ** A step towards the head *)

Lemma swap_nodup (a b : list positive) x c : NoDup (a ++ x :: c :: b) -> NoDup (a ++ c :: x :: b).
Proof. intros H. assert (a ++ c :: x :: b ≡ₚ a ++ x :: c :: b) as -> by (apply Permutation_app_head; constructor). done. Qed.

(** Both ends after the swap. *)
Lemma swap_ends (a b : list positive) x c : NoDup (a ++ x :: c :: b) ->
  head (a ++ c :: x :: b) = (if bool_decide (head (a ++ x :: c :: b) = Some x) then Some c else head (a ++ x :: c :: b)) /\
  last (a ++ c :: x :: b) = (if bool_decide (last (a ++ x :: c :: b) = Some c) then Some x else last (a ++ x :: c :: b)).
Proof.
  intros Hnd. split.
  - destruct a as [|y a]; simpl; [by rewrite bool_decide_eq_true_2|]. rewrite bool_decide_eq_false_2; [done|]. intros [= ->].
    apply NoDup_cons_1_1 in Hnd. set_solver.
  - rewrite !last_app_cons, !last_cons_cons. destruct b as [|y b]; [by rewrite bool_decide_eq_true_2|]. rewrite !last_cons_cons.
    rewrite bool_decide_eq_false_2; [done|]. intros E. apply last_Some in E as [l E].
    apply NoDup_app in Hnd as (_ & _ & Hnd). apply NoDup_cons_1_2, NoDup_cons_1_1 in Hnd. apply Hnd. rewrite E. set_solver.
Qed.

(** The first half of a step: the crawler [c] is taken out from behind [x]. *)
Lemma crawl_out ex s full id a x c b it : lru_rep_with ex s full -> full id = a ++ x :: c :: b -> heap s !! c = Some it ->
  exists h1, match head b with
      | Some n => iq ← get_item x s; _ ← c_assert (opt_is (it_next iq) c); s ← upd_item x (set_next (Some n)) s; upd_item n (set_prev (Some x)) s
      | None => upd_item x (set_next None) s end = Ret (with_heap h1 s) /\ body_eq (heap s) h1 /\ h1 !! c = Some it /\
    (forall q, links <$> h1 !! q = (fun lk => (if bool_decide (head b = Some q) then Some x else lk.1,
                                               if bool_decide (Some x = Some q) then head b else lk.2)) <$> (links <$> heap s !! q)).
Proof.
  intros R El Hc. pose proof (lru_nodup _ _ R id) as Hnd. rewrite El in Hnd.
  assert (x ∈ full id) as Hx by (rewrite El; set_solver). destruct (lru_member_some _ _ _ _ R Hx) as [ix Hix].
  pose proof (lru_lists _ _ R id a x (c :: b) El) as Hlx. rewrite Hix in Hlx. injection Hlx as _ Hxn. simpl in Hxn.
  apply NoDup_app in Hnd as (_ & _ & Hnd). apply NoDup_cons in Hnd as [Hxc Hnd]. apply NoDup_cons in Hnd as [Hcb Hnd].
  assert (c <> x) as Hcx by (intros ->; apply Hxc; by left).
  destruct (head b) as [n|] eqn:Eb.
  - assert (n ∈ b) as Hn by (by apply head_Some_elem_of). assert (n <> x /\ n <> c) as [Hnx Hnc] by (split; intros ->; [apply Hxc; by right|done]).
    assert (n ∈ full id) as Hnf by (rewrite El; set_solver). destruct (lru_member_some _ _ _ _ R Hnf) as [i_n Hin].
    rewrite (get_item_ok _ _ _ Hix), ret_bind. unfold opt_is. rewrite Hxn, bool_decide_eq_true_2 by done. cbn [c_assert]. rewrite ret_bind, (upd_item_ok _ _ _ _ Hix), ret_bind.
    rewrite (upd_item_ok n _ _ i_n) by (cbn [heap with_heap]; by rewrite lookup_insert_ne). eexists. split; [done|]. cbn [heap with_heap].
    split; [eapply body_eq_link; [by apply (body_eq_insert _ _ _ (set_next (Some n)))|by rewrite lookup_insert_ne|done]|].
    split; [by rewrite !lookup_insert_ne|]. intros q. rewrite !links_insert. destruct (decide (q = n)) as [->|]; [|destruct (decide (q = x)) as [->|]].
    + rewrite (bool_decide_eq_true_2 (Some n = Some n)), (bool_decide_eq_false_2 (Some x = Some n)), Hin by congruence. done.
    + rewrite (bool_decide_eq_false_2 (Some n = Some x)), (bool_decide_eq_true_2 (Some x = Some x)), Hix by congruence. done.
    + rewrite !bool_decide_eq_false_2 by congruence. by destruct (heap s !! q) as [[]|].
  - rewrite (upd_item_ok _ _ _ _ Hix). eexists. split; [done|]. split; [by apply (body_eq_insert _ _ _ (set_next None))|].
    split; [by rewrite lookup_insert_ne|]. intros q. rewrite links_insert. destruct (decide (q = x)) as [->|].
    + rewrite (bool_decide_eq_true_2 (Some x = Some x)), Hix by done. done.
    + rewrite (bool_decide_eq_false_2 (Some x = Some q)) by congruence. by destruct (heap s !! q) as [[]|].
Qed.

(** The second half: it is put in before [x]. *)
Lemma crawl_in s h1 a x c it y : h1 !! c = Some it -> c <> x -> last a <> Some c -> last a <> Some x ->
  h1 !! x = Some y -> it_prev y = last a -> (forall q, last a = Some q -> exists i, h1 !! q = Some i) ->
  exists h2, (s ← upd_item c (fun i => set_prev (it_prev y) (set_next (Some x) i)) (with_heap h1 s);
              s ← upd_item x (set_prev (Some c)) s; upd_link (it_prev y) (set_next (Some c)) s) = Ret (with_heap h2 s) /\ body_eq h1 h2 /\
    h2 !! c = Some (set_prev (last a) (set_next (Some x) it)) /\
    (forall q, q <> c -> links <$> h2 !! q = (fun lk => (if bool_decide (Some x = Some q) then Some c else lk.1,
                                               if bool_decide (last a = Some q) then Some c else lk.2)) <$> (links <$> h1 !! q)).
Proof.
  intros Hc Hcx Hac Hax Hx Ey Ha. rewrite (upd_item_ok c _ (with_heap h1 s) it Hc), ret_bind. cbn [heap with_heap].
  rewrite (upd_item_ok x _ _ y) by (cbn [heap with_heap]; by rewrite lookup_insert_ne). rewrite ret_bind. cbn [heap with_heap]. rewrite Ey.
  set (h2 := <[x := set_prev (Some c) y]> (<[c := set_prev (last a) (set_next (Some x) it)]> h1)).
  assert (body_eq h1 h2) as B2.
  { unfold h2. eapply (body_eq_link _ _ x y (set_prev (Some c))); [|by rewrite lookup_insert_ne|done].
    by apply (body_eq_insert h1 c it (fun i => set_prev (last a) (set_next (Some x) i))). }
  assert (h2 !! c = Some (set_prev (last a) (set_next (Some x) it))) as Hc2 by (unfold h2; by rewrite lookup_insert_ne, lookup_insert_eq).
  assert (forall q, q <> c -> links <$> h2 !! q = (fun lk => (if bool_decide (Some x = Some q) then Some c else lk.1, lk.2)) <$> (links <$> h1 !! q)) as L2.
  { intros q Hq. unfold h2. rewrite !links_insert. destruct (decide (q = x)) as [->|]; [rewrite (bool_decide_eq_true_2 (Some x = Some x)), Hx by done; done|].
    rewrite decide_False, (bool_decide_eq_false_2 (Some x = Some q)) by congruence. by destruct (h1 !! q) as [[]|]. }
  destruct (last a) as [z|] eqn:Ez; cbn [upd_link].
  - destruct (Ha z eq_refl) as [iz Hz]. assert (h2 !! z = Some iz) as Hz2 by (unfold h2; by rewrite !lookup_insert_ne by congruence).
    change (with_heap h2 _) with (with_heap h2 s). rewrite (upd_item_ok z _ (with_heap h2 s) iz Hz2). eexists. split; [done|]. cbn [heap with_heap].
    split; [by apply (body_eq_link _ _ _ _ (set_next (Some c)))|]. split; [rewrite lookup_insert_ne by congruence; done|].
    intros q Hq. rewrite links_insert. destruct (decide (q = z)) as [->|].
    + rewrite Hz. cbn [fmap option_fmap option_map]. rewrite (bool_decide_eq_true_2 (Some z = Some z)), (bool_decide_eq_false_2 (Some x = Some z)) by congruence. done.
    + rewrite L2, (bool_decide_eq_false_2 (Some z = Some q)) by congruence. by destruct (h1 !! q) as [[]|].
  - exists h2. split; [done|]. split; [done|]. split; [done|]. intros q Hq. rewrite L2 by done. by destruct (h1 !! q) as [[]|].
Qed.

Lemma crawl_step_ok ex s full id a x c b it : lru_rep_with ex s full -> full id = a ++ x :: c :: b -> heap s !! c = Some it ->
  it_flags it = 1 -> it_nbytes it = 0 ->
  exists s', do_item_crawl_q c s = Ret (Some x, s') /\ body_eq (heap s) (heap s') /\ rest_eq s s' /\ lru_rep_with ex s' (set_lru id (a ++ c :: x :: b) full).
Proof.
  intros R El Hc Hf Hb. pose proof (lru_nodup _ _ R id) as Hnd. rewrite El in Hnd.
  assert (it_slabs_clsid it = id) as Hid by (pose proof (lru_class _ _ R id c) as H; rewrite El, Hc in H; specialize (H ltac:(set_solver)); by injection H).
  pose proof (lru_lists _ _ R id (a ++ [x]) c b) as Hlc. rewrite <- app_assoc, last_snoc, Hc in Hlc. specialize (Hlc El). injection Hlc as Hprev Hnext.
  pose proof (lru_lists _ _ R id a x (c :: b) El) as Hlx.
  assert (c <> x /\ last a <> Some c /\ last a <> Some x /\ head b <> Some c /\ head b <> Some x) as (N1 & N2 & N3 & N4 & N5).
  { clear -Hnd. apply NoDup_app in Hnd as (_ & Hd & Hnd). apply NoDup_cons in Hnd as [Hx Hnd]. apply NoDup_cons in Hnd as [Hcb _].
    split_and!; [intros ->; apply Hx; by left| | | |]; intros E; [apply last_Some in E as [l ->]|apply last_Some in E as [l ->]|apply head_Some_elem_of in E|apply head_Some_elem_of in E];
      [eapply (Hd c)|eapply (Hd x)| |]; set_solver. }
  destruct (crawl_out ex s full id a x c b it R El Hc) as (h1 & E1 & B1 & Hc1 & L1).
  assert (x ∈ full id) as Hxf by (rewrite El; set_solver). destruct (lru_member_some _ _ _ _ R Hxf) as [ix Hix].
  destruct (body_eq_some _ _ _ _ (body_eq_sym _ _ B1) Hix) as (y & Hy & _).
  assert (it_prev y = last a) as Ey.
  { pose proof (L1 x) as H. rewrite Hy, Hlx in H. simpl in H. rewrite (bool_decide_eq_false_2 _ N5) in H. by injection H. }
  destruct (crawl_in s h1 a x c it y Hc1 N1 N2 N3 Hy Ey) as (h2 & E2 & B2 & Hc2 & L2).
  { intros q Hq. assert (q ∈ full id) as Hqf by (rewrite El; apply last_Some in Hq as [l ->]; set_solver).
    destruct (lru_member_some _ _ _ _ R Hqf) as [iq Hiq]. destruct (body_eq_some _ _ _ _ (body_eq_sym _ _ B1) Hiq) as (j & Hj & _). by exists j. }
  assert (body_eq (heap s) h2) as B12 by (by eapply body_eq_trans).
  unfold do_item_crawl_q. rewrite (get_item_ok _ _ _ Hc), ret_bind, Hf, Hb. cbn [Z.eqb Pos.eqb c_assert]. rewrite !ret_bind, Hid, Hprev, Hnext.
  assert (opt_is (Some x) c = false) as O1 by (apply bool_decide_eq_false_2; congruence). assert (opt_is (head b) c = false) as O2 by (by apply bool_decide_eq_false_2).
  assert (opt_is (last a) c = false) as O3 by (by apply bool_decide_eq_false_2).
  rewrite O1, O2. cbn [negb c_assert]. rewrite !ret_bind, E1, ret_bind.
  rewrite (get_item_ok x (with_heap h1 s) y Hy), ret_bind.
  revert E2. destruct (upd_item c _ (with_heap h1 s)) as [sa| |]; [rewrite !ret_bind|discriminate..].
  destruct (upd_item x (set_prev (Some c)) sa) as [sb| |]; [rewrite !ret_bind|discriminate..]. intros ->. rewrite ret_bind.
  rewrite (get_item_ok c (with_heap h2 s) _ Hc2), ret_bind. cbn [it_next it_prev set_prev set_next].
  rewrite O1, O3. cbn [negb c_assert]. rewrite !ret_bind.
  eexists. split; [reflexivity|]. split; [exact B12|]. split; [by repeat split|].
  destruct (swap_ends a b x c Hnd) as [Sh Sl].
  eapply lru_rep_change; [exact R| | |by apply swap_nodup| | | |done| |done]; cbn [heap heads tails with_lru with_heap sizes].
  - intros id'. unfold opt_is. rewrite (lru_heads _ _ R), El. lru_case id' id.
    + rewrite Sh. destruct (bool_decide _); [by rewrite lookup_insert_eq|by rewrite (lru_heads _ _ R), El].
    + destruct (bool_decide _); [rewrite lookup_insert_ne by done|]; apply R.
  - intros id'. unfold opt_is. rewrite (lru_tails _ _ R), El. lru_case id' id.
    + rewrite Sl. destruct (decide (last (a ++ x :: c :: b) = Some c)) as [E|E]; [by rewrite !(bool_decide_eq_true_2 _ E), lookup_insert_eq|by rewrite !(bool_decide_eq_false_2 _ E), (lru_tails _ _ R), El].
    + destruct (decide (last (a ++ x :: c :: b) = Some c)) as [E|E]; [rewrite (bool_decide_eq_true_2 _ E), lookup_insert_ne by done|rewrite (bool_decide_eq_false_2 _ E)]; apply R.
  - apply (linked_list_insert h1); [|by apply swap_nodup|by rewrite Hc2|].
    + replace (a ++ x :: b) with ((a ++ [x]) ++ b) by (by rewrite <- app_assoc).
      apply (linked_list_remove (heap s) h1 (a ++ [x]) c b); [rewrite <- app_assoc; simpl; rewrite <- El; apply R|by rewrite <- app_assoc|].
      intros q _. rewrite L1, last_snoc. done.
    + intros q Hq. rewrite L2; [done|]. intros ->. clear -Hnd Hq. apply NoDup_app in Hnd as (_ & Hd & Hnd). apply NoDup_cons in Hnd as [Hx Hnd]. apply NoDup_cons in Hnd as [Hcb _].
      apply elem_of_app in Hq as [Hq|Hq]; [apply (Hd c Hq); set_solver|]. apply elem_of_cons in Hq as [->|Hq]; [apply Hx; by left|done].
  - intros q Hq. eapply clsid_body_eq; [exact B12|]. apply R. rewrite El. set_solver.
  - intros id' q Hne Hq. split; [|by apply body_eq_clsid].
    assert (q ∉ a ++ x :: c :: b) as Hnq by (rewrite <- El; intros H; apply Hne; by eapply lru_disjoint).
    rewrite L2, L1 by set_solver.
    rewrite (bool_decide_eq_false_2 (Some x = Some q)) by set_solver.
    rewrite (bool_decide_eq_false_2 (last a = Some q)) by (intros H; apply last_Some in H as [l ->]; set_solver).
    rewrite (bool_decide_eq_false_2 (head b = Some q)) by (intros H; apply head_Some_elem_of in H; set_solver). by destruct (heap s !! q) as [[]|].
  - rewrite El, !length_app. simpl. lia.
Qed.

(** ** The end of a crawl *)

(** At the head: the crawler is popped off, and leaving after that changes nothing more. *)
Lemma crawl_end_ok ex s full id c b it : lru_rep_with ex s full -> full id = c :: b -> heap s !! c = Some it -> it_flags it = 1 -> it_nbytes it = 0 ->
  exists s1, do_item_crawl_q c s = Ret (None, s1) /\
    exists s2, (s ← upd_item c (set_flags 0) s1; do_item_unlinktail_q c s) = Ret s2 /\ rest_eq s s2 /\
      (forall q, q <> c -> body <$> heap s2 !! q = body <$> heap s !! q) /\
      forall ex', ex' id = ex id - 1 -> (forall id', id' <> id -> ex' id' = ex id') -> lru_rep_with ex' s2 (set_lru id b full).
Proof.
  intros R El Hc Hf Hb. pose proof (lru_nodup _ _ R id) as Hnd. rewrite El in Hnd. apply NoDup_cons in Hnd as [Hcb Hnd].
  assert (it_slabs_clsid it = id) as Hid by (pose proof (lru_class _ _ R id c) as H; rewrite El, Hc in H; specialize (H ltac:(set_solver)); by injection H).
  pose proof (lru_lists _ _ R id [] c b El) as Hl. rewrite Hc in Hl. injection Hl as Hprev Hnext. simpl in Hprev.
  unfold do_item_crawl_q. rewrite (get_item_ok _ _ _ Hc), ret_bind, Hf, Hb. cbn [Z.eqb Pos.eqb c_assert]. rewrite !ret_bind, Hid, Hprev, Hnext, (lru_heads _ _ R), El.
  assert (forall q, opt_is (Some q) q = true) as Hself by (intros q; by apply bool_decide_eq_true_2). cbn [head]. rewrite Hself. cbn [c_assert]. rewrite ret_bind.
  destruct b as [|n b]; cbn [head].
  - eexists. split; [reflexivity|]. rewrite (upd_item_ok _ _ _ _ Hc), ret_bind. set (sf := with_heap _ s).
    assert (lru_rep_with ex sf full) as Rf by (by apply lru_rep_upd).
    assert (heap sf !! c = Some (set_flags 0 it)) as Hcf by apply lookup_insert_eq.
    destruct (unlinktail_ok ex sf full c _ Rf Hcf) as (s2 & E2 & B2 & Q2 & L2); [cbn [it_slabs_clsid set_flags]; rewrite Hid, El; by left|].
    cbn [it_slabs_clsid set_flags] in L2. rewrite Hid, El in L2. exists s2. split; [exact E2|]. split; [exact Q2|]. split.
    + intros q Hq. rewrite (B2 q). unfold sf. cbn [heap with_heap]. by rewrite lookup_insert_ne.
    + intros ex' H1 H2. specialize (L2 ex' H1 H2). unfold remove_ptr in L2. rewrite filter_cons_False in L2 by (by intros []). exact L2.
  - assert (n <> c) as Hnc by (intros ->; apply Hcb; by left). assert (n ∈ full id) as Hnf by (rewrite El; set_solver).
    destruct (lru_member_some _ _ _ _ R Hnf) as [i_n Hin]. pose proof (lru_lists _ _ R id [c] n b El) as Hln. rewrite Hin in Hln. injection Hln as Hnp Hnn. simpl in Hnp.
    rewrite (get_item_ok _ _ _ Hin), ret_bind, Hnp, Hself. cbn [c_assert]. rewrite ret_bind, (upd_item_ok _ _ _ _ Hin), ret_bind.
    eexists. split; [reflexivity|]. cbn [heads tails sizes sizes_bytes with_heap]. set (s1 := with_lru _ _ _ _ _).
    assert (heap s1 !! c = Some it) as Hc1 by (unfold s1; cbn [heap with_heap with_lru]; by rewrite lookup_insert_ne). rewrite (upd_item_ok _ _ _ _ Hc1), ret_bind.
    unfold do_item_unlinktail_q. rewrite get_upd, ret_bind. cbn [it_slabs_clsid it_prev it_next set_flags heads tails with_heap]. rewrite Hid, Hprev, Hnext.
    assert (heads s1 !! id = Some n) as Eh by apply lookup_insert_eq. rewrite Eh.
    assert (opt_is (Some n) c = false) as O1 by (apply bool_decide_eq_false_2; congruence). cbn [head]. rewrite O1.
    assert (opt_is (tails s !! id) c = false) as O2.
    { apply bool_decide_eq_false_2. rewrite (lru_tails _ _ R), El, last_cons_cons. intros E. apply last_Some in E as [l E]. apply Hcb. rewrite E. set_solver. }
    change (tails s1) with (tails s). rewrite O2. change (opt_is None c) with false. cbn [negb orb c_assert]. rewrite !ret_bind.
    cbn [upd_link]. set (s1f := with_heap _ s1). assert (heap s1f !! n = Some (set_prev None i_n)) as Hn1.
    { unfold s1f, s1. cbn [heap with_heap with_lru]. rewrite lookup_insert_ne by done. by rewrite lookup_insert_eq. }
    rewrite (upd_item_ok _ _ _ _ Hn1), !ret_bind. eexists. split; [reflexivity|]. split; [by repeat split|].
    assert (forall q, q <> c -> body <$> heap (with_heap (<[n := set_prev None (set_prev None i_n)]> (heap s1f)) s1f) !! q = body <$> heap s !! q) as HB.
    { intros q Hq. cbn [heap with_heap]. destruct (decide (q = n)) as [->|]; [by rewrite lookup_insert_eq, Hin|].
      unfold s1f, s1. cbn [heap with_heap with_lru]. by rewrite !lookup_insert_ne by done. }
    split; [exact HB|]. intros ex' H1 H2.
    assert (forall q, q <> c -> links <$> heap (with_heap (<[n := set_prev None (set_prev None i_n)]> (heap s1f)) s1f) !! q = (if decide (q = n) then Some (None, it_next i_n) else links <$> heap s !! q)) as HL.
    { intros q Hq. cbn [heap with_heap]. rewrite links_insert. case_decide; [done|]. unfold s1f, s1. cbn [heap with_heap with_lru]. by rewrite !lookup_insert_ne by done. }
    assert (forall q, q <> c -> it_slabs_clsid <$> heap (with_heap (<[n := set_prev None (set_prev None i_n)]> (heap s1f)) s1f) !! q = it_slabs_clsid <$> heap s !! q) as HC.
    { intros q Hq. pose proof (HB q Hq) as E. destruct (heap (with_heap _ s1f) !! q) as [u|], (heap s !! q) as [v|]; try done. cbn in E |- *. injection E. intros. congruence. }
    eapply lru_rep_change; [exact R| | |done| | | |done| |done].
    + intros id'. transitivity (<[id := n]> (heads s) !! id'); [reflexivity|]. lru_case id' id; [by rewrite lookup_insert_eq|rewrite lookup_insert_ne by done; apply R].
    + intros id'. transitivity (tails s !! id'); [reflexivity|]. lru_case id' id; [by rewrite (lru_tails _ _ R), El|apply R].
    + apply (linked_list_remove (heap s) _ [] c (n :: b)); [cbn [app]; rewrite <- El; apply R|cbn [app]; by constructor|].
      intros q Hq. cbn [app] in Hq. rewrite HL by (intros ->; done). cbn [head last]. change (bool_decide (@None positive = Some q)) with false. destruct (decide (q = n)) as [->|].
      * rewrite (bool_decide_eq_true_2 (Some n = Some n)), Hin by done. done.
      * rewrite (bool_decide_eq_false_2 (Some n = Some q)) by congruence. by destruct (heap s !! q) as [[]|].
    + intros q Hq. rewrite HC by (intros ->; done). apply R. rewrite El. by right.
    + intros id' q Hne Hq. assert (q ∉ c :: n :: b) as Hnq by (rewrite <- El; intros H; apply Hne; by eapply lru_disjoint).
      rewrite HL, HC, decide_False by set_solver. done.
    + rewrite El. simpl. lia.
Qed.

End Lists.
