(* ===== verification/CrawlerFacts.v ===== *)
(** * The crawler reclaims what has expired, and nothing else *)

From S2P Require Import Prelude Items LruFacts ItemsFacts ItemAlloc AssocFacts Assoc ItemTableAssoc Samples.
From S2P Require Import Crawler CrawlLists.
Local Open Scope Z_scope.

Section Crawl.
Context {T : Type} {table_ops : ItemTable T} (hash : list Z -> Z) {table_laws : ItemTableLaws hash T} (cfg : settings).
Context (crawler_addr : Z -> positive) {addr_inj : Inj (=) (=) crawler_addr}.
Implicit Types (s : store T) (m : gmap (list Z) positive) (refs : positive -> Z) (lru full : Z -> list positive) (on : Z -> bool).

Notation sim := (sim crawler_addr).

Definition set_on (id : Z) (b : bool) on : Z -> bool := fun id' => if decide (id' = id) then b else on id'.

Lemma set_on_eq id b on : set_on id b on id = b.
Proof. unfold set_on. by rewrite decide_True. Qed.
Lemma set_on_ne id id' b on : id' <> id -> set_on id b on id' = on id'.
Proof. intros. unfold set_on. by rewrite decide_False. Qed.

Lemma sim_is_off on s0 lru s full id : sim on s0 lru s full -> is_off crawler_addr id s = negb (on id).
Proof.
  intros S. unfold is_off. pose proof (sm_crawler _ _ _ _ _ _ S id) as H. destruct (on id); [|by rewrite H].
  destruct H as (c & -> & [_ Hf _ _]). by rewrite Hf.
Qed.

Lemma sim_is_idle on s0 lru s full id : sim on s0 lru s full -> is_idle crawler_addr id s = negb (on id).
Proof.
  intros S. unfold is_idle. pose proof (sm_crawler _ _ _ _ _ _ S id) as H. destruct (on id); [|by rewrite H].
  destruct H as (c & -> & [_ Hf _ _]). by rewrite Hf.
Qed.

(** ** Switching on *)

Lemma sim_start on s0 lru s full id : sim on s0 lru s full -> on id = false ->
  let p := crawler_addr id in
  exists s', do_item_linktail_q p (with_heap (<[p := mkItem None None 0 0 0 0 1 id [] [] 0 0 0 [] []]> (heap s)) s) = Ret s' /\
    sim (set_on id true on) s0 lru s' (set_lru id (full id ++ [p]) full).
Proof.
  intros S Hoff p. pose proof (sm_crawler _ _ _ _ _ _ S id) as Hn. rewrite Hoff in Hn. fold p in Hn.
  set (it := mkItem _ _ _ _ _ _ _ _ _ _ _ _ _ _ _). set (s1 := with_heap _ s).
  assert (forall id', p ∉ full id') as Hnew.
  { intros id' H. destruct (lru_member_some _ _ _ _ (sm_lru _ _ _ _ _ _ S) H) as [i Hi]. congruence. }
  assert (lru_rep_with (extra_of on) s1 full) as R1.
  { eapply lru_rep_frame; [apply S|done..|]. intros id' q Hq. unfold s1. cbn [heap with_heap]. rewrite lookup_insert_ne; [done|]. intros <-. by apply (Hnew id'). }
  destruct (linktail_ok _ s1 full p it R1) as (s' & E & B & Q & L); [apply lookup_insert_eq|done|done|done|]. cbn [it_slabs_clsid it] in L.
  exists s'. split; [done|]. split.
  - apply S.
  - apply L; unfold extra_of; [rewrite set_on_eq, Hoff; lia|intros id' Hne; by rewrite set_on_ne].
  - eapply rest_eq_trans; [apply S|exact Q].
  - apply S.
  - intros q Hq. rewrite (B q). unfold s1. cbn [heap with_heap]. rewrite lookup_insert_ne by (apply not_eq_sym, Hq). by apply S.
  - intros id'. destruct (decide (id' = id)) as [->|Hne].
    + rewrite set_on_eq. pose proof (B p) as E1. unfold s1 in E1. cbn [heap with_heap] in E1. rewrite lookup_insert_eq in E1. fold p.
      destruct (heap s' !! p) as [c|]; [|done]. exists c. split; [done|]. apply (inj Some) in E1.
      split; [apply (f_equal it_nbytes) in E1|apply (f_equal it_flags) in E1|apply (f_equal it_slabs_clsid) in E1|apply (f_equal item_key) in E1]; exact E1.
    + rewrite set_on_ne by done. pose proof (B (crawler_addr id')) as E1. unfold s1 in E1. cbn [heap with_heap] in E1.
      rewrite lookup_insert_ne in E1 by (intros H; apply Hne; by apply (inj crawler_addr)). pose proof (sm_crawler _ _ _ _ _ _ S id') as Hc. destruct (on id').
      * destruct Hc as (c & Ec & [C1 C2 C3 C4]). rewrite Ec in E1. destruct (heap s' !! crawler_addr id') as [c'|]; [|done]. exists c'. split; [done|]. apply (inj Some) in E1.
        split; [apply (f_equal it_nbytes) in E1|apply (f_equal it_flags) in E1|apply (f_equal it_slabs_clsid) in E1|apply (f_equal item_key) in E1]; simpl in E1; congruence.
      * rewrite Hc in E1. by destruct (heap s' !! crawler_addr id').
  - intros id'. lru_case id' id; [|apply S]. unfold remove_ptr. rewrite filter_app, (filter_cons_False _ p []) by (by intros []). cbn [filter list_filter]. rewrite app_nil_r. apply S.
  - intros id' Hon. lru_case id' id; [set_solver|]. rewrite set_on_ne in Hon by done. by apply S.
Qed.

(** ** Moving *)

(** [l] is what lies ahead of the crawler. *)
Definition ahead full (id : Z) (l : list positive) : Prop := exists b, full id = l ++ crawler_addr id :: b.

Lemma sim_ahead on s0 lru s full id : sim on s0 lru s full -> on id = true -> exists l, ahead full id l.
Proof. intros S Hon. destruct (list_elem_of_split _ _ (sm_mem _ _ _ _ _ _ S id Hon)) as (l & b & E). by exists l, b. Qed.

Lemma body_crawler (h h' : gmap positive item) (p : positive) id : body <$> h' !! p = body <$> h !! p ->
  (exists c, h !! p = Some c /\ crawler_item id c) -> exists c, h' !! p = Some c /\ crawler_item id c.
Proof.
  intros E (c & Ec & [C1 C2 C3 C4]). rewrite Ec in E. destruct (h' !! p) as [c'|]; [|done]. exists c'. split; [done|]. apply (inj Some) in E.
  split; [apply (f_equal it_nbytes) in E|apply (f_equal it_flags) in E|apply (f_equal it_slabs_clsid) in E|apply (f_equal item_key) in E]; simpl in E; congruence.
Qed.

Lemma sim_step on s0 lru s full id a x : sim on s0 lru s full -> on id = true -> ahead full id (a ++ [x]) ->
  exists s' full', do_item_crawl_q (crawler_addr id) s = Ret (Some x, s') /\ sim on s0 lru s' full' /\ ahead full' id a /\ (forall id', id' <> id -> full' id' = full id') /\
    x ∈ lru id /\ exists i0, heap s0 !! x = Some i0.
Proof.
  intros S Hon (b & El). rewrite <- app_assoc in El. cbn [app] in El. pose proof (sm_crawler _ _ _ _ _ _ S id) as Hc. rewrite Hon in Hc. destruct Hc as (c & Hc & C).
  destruct (crawl_step_ok _ s full id a x _ b c (sm_lru _ _ _ _ _ _ S) El Hc (ci_flags _ _ C) (ci_nbytes _ _ C)) as (s' & E & B & Q & L).
  pose proof (lru_nodup _ _ (sm_lru _ _ _ _ _ _ S) id) as Hnd. rewrite El in Hnd.
  assert (x <> crawler_addr id) as Hx by (intros ->; apply NoDup_app in Hnd as (_ & _ & Hnd); apply NoDup_cons in Hnd as [Hnd _]; set_solver).
  exists s', (set_lru id (a ++ crawler_addr id :: x :: b) full). split; [done|]. split; [|split; [exists (x :: b); by rewrite set_lru_eq|split; [intros; by rewrite set_lru_ne|]]].
  - eapply sim_build; [exact S|apply S|exact L| |apply S| | | |].
    + eapply rest_eq_trans; [apply S|exact Q].
    + intros q Hq. rewrite (B q). by apply S.
    + intros id'. apply B.
    + intros id'. lru_case id' id; [|apply S]. rewrite <- (sm_filter _ _ _ _ _ _ S id), El. rewrite remove_ptr_split by (by apply swap_nodup).
      replace (a ++ x :: crawler_addr id :: b) with ((a ++ [x]) ++ crawler_addr id :: b) by (by rewrite <- app_assoc).
      rewrite remove_ptr_split by (by rewrite <- app_assoc). by rewrite <- app_assoc.
    + intros id' H. lru_case id' id; [set_solver|done].
  - assert (x ∈ lru id) as Hin by (rewrite <- (sm_filter _ _ _ _ _ _ S id), elem_of_remove_ptr, El; split; [set_solver|done]).
    split; [done|]. by apply (lru_member_some _ _ _ _ (sm_lru0 _ _ _ _ _ _ S) Hin).
Qed.

(** ** Switching off *)

Lemma sim_off on s0 lru s full s2 full2 id : sim on s0 lru s full -> on id = true ->
  rest_eq s s2 -> (forall q, q <> crawler_addr id -> body <$> heap s2 !! q = body <$> heap s !! q) -> lru_rep_with (extra_of (set_on id false on)) s2 full2 ->
  full2 id = remove_ptr (crawler_addr id) (full id) -> (forall id', id' <> id -> full2 id' = full id') ->
  sim (set_on id false on) s0 lru (with_heap (base.delete (crawler_addr id) (heap s2)) s2) full2.
Proof.
  intros S Hon Q B L F1 F2. assert (forall id', crawler_addr id ∉ full2 id') as Hnot.
  { intros id' H. destruct (decide (id' = id)) as [->|Hne]; [rewrite F1 in H; by apply elem_of_remove_ptr in H as [_ []]|].
    rewrite F2 in H by done. apply Hne. eapply (lru_disjoint s full); [apply S|exact H|by apply S]. }
  split.
  - apply S.
  - by apply lru_rep_delete.
  - eapply rest_eq_trans; [apply S|exact Q].
  - apply S.
  - intros q Hq. cbn [heap with_heap]. rewrite lookup_delete_ne by (apply not_eq_sym, Hq). rewrite B by apply Hq. by apply S.
  - intros id'. cbn [heap with_heap]. destruct (decide (id' = id)) as [->|Hne]; [rewrite set_on_eq; apply lookup_delete_eq|].
    rewrite set_on_ne by done. assert (crawler_addr id <> crawler_addr id') as Ha by (intros H; apply Hne; by apply (inj crawler_addr) in H).
    rewrite lookup_delete_ne by done. pose proof (B (crawler_addr id') (not_eq_sym Ha)) as E. pose proof (sm_crawler _ _ _ _ _ _ S id') as Hc.
    destruct (on id'); [by eapply body_crawler|]. rewrite Hc in E. by destruct (heap s2 !! crawler_addr id').
  - intros id'. destruct (decide (id' = id)) as [->|Hne]; [|rewrite F2 by done; apply S].
    rewrite F1, remove_ptr_absent; [apply S|]. intros H. by apply elem_of_remove_ptr in H as [_ []].
  - intros id' Hon'. destruct (decide (id' = id)) as [->|Hne]; [by rewrite set_on_eq in Hon'|]. rewrite set_on_ne in Hon' by done. rewrite F2 by done. by apply S.
Qed.

(** What [lru_crawler_class_done] notes. *)
Definition noted_done (id : Z) (c : crawl) : crawl := 
  let c := set_crawlers (crawlers c) (crawler_count c - 1) c in crawler_expired_doneclass cfg id (do_item_stats_add_crawl id (crawler_of id c) c).

(** A crawler that leaves before it has reached the head. *)
Lemma sim_done on s0 lru s full id c : sim on s0 lru s full -> on id = true ->
  exists s' full', lru_crawler_class_done cfg crawler_addr id c s = Ret (noted_done id c, s') /\ sim (set_on id false on) s0 lru s' full' /\ (forall id', id' <> id -> full' id' = full id').
Proof.
  intros S Hon. pose proof (sm_crawler _ _ _ _ _ _ S id) as Hc. rewrite Hon in Hc. destruct Hc as (it & Hc & C).
  unfold lru_crawler_class_done. rewrite (upd_item_ok _ _ _ _ Hc), ret_bind. set (sf := with_heap _ s).
  assert (lru_rep_with (extra_of on) sf full) as Rf by (apply lru_rep_upd; [apply S|done..]).
  destruct (unlinktail_ok _ sf full (crawler_addr id) (set_flags 0 it) Rf) as (s2 & E2 & B2 & Q2 & L2); [apply lookup_insert_eq|cbn [it_slabs_clsid set_flags]; rewrite (ci_class _ _ C); by apply S|].
  cbn [it_slabs_clsid set_flags] in L2. rewrite (ci_class _ _ C) in L2. rewrite E2, ret_bind. eexists _, _. split; [reflexivity|].
  split; [eapply sim_off; [exact S|done|exact Q2| |apply L2| |]|].
  - intros q Hq. rewrite (B2 q). unfold sf. cbn [heap with_heap]. by rewrite lookup_insert_ne.
  - unfold extra_of. rewrite set_on_eq, Hon. lia.
  - intros id' Hne. unfold extra_of. by rewrite set_on_ne.
  - by rewrite set_lru_eq.
  - intros id' Hne. by rewrite set_lru_ne.
  - intros id' Hne. by rewrite set_lru_ne.
Qed.

(** A crawler at the head. *)
Lemma sim_end on s0 lru s full id c : sim on s0 lru s full -> on id = true -> ahead full id [] ->
  exists s1, do_item_crawl_q (crawler_addr id) s = Ret (None, s1) /\ exists s' full', lru_crawler_class_done cfg crawler_addr id c s1 = Ret (noted_done id c, s') /\
    sim (set_on id false on) s0 lru s' full' /\ (forall id', id' <> id -> full' id' = full id').
Proof.
  intros S Hon (b & El). cbn [app] in El. pose proof (sm_crawler _ _ _ _ _ _ S id) as Hc. rewrite Hon in Hc. destruct Hc as (it & Hc & C).
  destruct (crawl_end_ok _ s full id _ b it (sm_lru _ _ _ _ _ _ S) El Hc (ci_flags _ _ C) (ci_nbytes _ _ C)) as (s1 & E1 & s2 & E2 & Q2 & B2 & L2).
  exists s1. split; [done|]. unfold lru_crawler_class_done. revert E2. destruct (upd_item (crawler_addr id) (set_flags 0) s1) as [sf| |]; [rewrite !ret_bind|discriminate..]. intros ->.
  rewrite ret_bind. eexists _, (set_lru id b full). split; [reflexivity|]. split; [eapply sim_off; [exact S|done|exact Q2|exact B2|apply L2| |]|].
  - unfold extra_of. rewrite set_on_eq, Hon. lia.
  - intros id' Hne. unfold extra_of. by rewrite set_on_ne.
  - rewrite set_lru_eq, El. symmetry. pose proof (lru_nodup _ _ (sm_lru _ _ _ _ _ _ S) id) as Hnd. rewrite El in Hnd. exact (remove_ptr_split [] _ b Hnd).
  - intros id' Hne. by rewrite set_lru_ne.
  - intros id' Hne. by rewrite set_lru_ne.
Qed.

(** ** Looking at an item *)

(** A reference that is taken and given back leaves no trace. *)
Lemma incr_decr s p i : heap s !! p = Some i -> 0 <= it_refcount i -> it_refcount i + 1 < 2 ^ 16 ->
  exists s1, refcount_incr p s = Ret s1 /\ heap s1 !! p = Some (set_refcount (it_refcount i + 1) i) /\ refcount_decr p s1 = Ret s.
Proof.
  intros Hp H0 H1. unfold refcount_incr. rewrite (upd_item_ok _ _ _ _ Hp). eexists. split; [reflexivity|].
  assert (u16 (it_refcount i + 1) = it_refcount i + 1) as -> by (apply Z.mod_small; lia). split; [apply lookup_insert_eq|].
  unfold refcount_decr. rewrite (upd_item_ok _ _ _ (set_refcount (it_refcount i + 1) i)) by apply lookup_insert_eq. cbn [heap with_heap it_refcount set_refcount].
  replace (it_refcount i + 1 - 1) with (it_refcount i) by lia. assert (u16 (it_refcount i) = it_refcount i) as -> by (apply Z.mod_small; lia).
  rewrite insert_insert_eq. rewrite insert_id; [by destruct s|]. rewrite Hp. by destruct i.
Qed.

Lemma is_expired_body i i0 : body i = body i0 -> is_expired cfg i = is_expired cfg i0.
Proof.
  intros B. apply (f_equal (fun x => (it_exptime x, it_time x, it_flags x, it_cas x))) in B. cbn in B. injection B as B1 B2 B3 B4.
  unfold is_expired, item_is_flushed, ITEM_get_cas, has_flag. by rewrite B1, B2, B3, B4.
Qed.

(** What the module does to the store: the item is dropped if it has expired. *)
Lemma eval_expired on s0 m lru refs s full p i0 id c : store_rep hash s0 m lru refs -> sim on s0 lru s full -> heap s0 !! p = Some i0 -> linked i0 = true -> it_refcount i0 = 1 ->
  is_expired cfg i0 = true ->
  exists s1 c' s' s0' full', refcount_incr p s = Ret s1 /\ crawler_expired_eval cfg id p (hash (item_key i0)) c s1 = Ret (c', s') /\
    let cls := it_slabs_clsid i0 in let lru' := set_lru cls (remove_ptr p (lru cls)) lru in
    sim on s0' lru' s' full' /\ full' = set_lru cls (remove_ptr p (full cls)) full /\ store_rep hash s0' (base.delete (item_key i0) m) lru' refs /\
    heap s0' !! p = None /\ but_one p s0 s0' /\ crawler_count c' = crawler_count c /\ (forall id', remaining (crawler_of id' c') = remaining (crawler_of id' c)).
Proof.
  intros R S Hp Hl Hrc He. destruct (sr_refs _ _ _ _ _ R p i0 Hp) as (Er & Er0 & _). rewrite Hl in Er.
  destruct (sim_incr hash crawler_addr _ _ _ _ _ _ _ _ _ R S Hp) as (t1 & s1 & Ei0 & E1 & S1 & R1 & K1 & G1 & Hp1); [lia|].
  destruct (sim_get _ _ _ _ _ _ _ _ S1 Hp1) as (i1 & Hi1 & B1).
  destruct (sim_unlink hash crawler_addr _ _ _ _ _ _ _ _ _ R1 S1 Hp1 Hl) as (t2 & s2 & lru2 & full2 & Eu0 & E2 & S2 & R2 & K2 & G2 & F2 & -> & ->).
  cbn [item_key set_refcount it_slabs_clsid] in *.
  assert (exists i2, heap t2 !! p = Some i2) as [i2 Hp2] by (apply (store_held hash t2 _ _ _ p R2); rewrite set_refs_eq; lia).
  destruct (sim_release hash crawler_addr _ _ _ _ _ _ _ _ _ R2 S2 Hp2) as (t3 & s3 & Er3 & E3 & S3 & R3 & K3 & G3); [rewrite set_refs_eq; lia|].
  exists s1. assert (is_expired cfg i1 = true) as He1 by (rewrite <- He; exact (is_expired_body _ _ B1)).
  unfold crawler_expired_eval. rewrite (get_item_ok _ _ _ Hi1), ret_bind, He1. unfold do_item_unlink_nolock. rewrite E2, ret_bind, E3, ret_bind.
  eexists _, s3, t3, _. split; [exact E1|]. split; [reflexivity|]. cbn zeta. split; [exact S3|]. split; [done|].
  assert (store_rep hash t3 (base.delete (item_key i0) m) (set_lru (it_slabs_clsid i0) (remove_ptr p (lru (it_slabs_clsid i0))) lru) refs) as R4.
  { eapply store_rep_refs; [exact R3|]. intros q. unfold set_refs. repeat case_decide; subst; lia || done. }
  split; [exact R4|]. split; [|split; [|split; [done|]]].
  - destruct (heap t3 !! p) as [i3|] eqn:Hp3; [|done]. exfalso. destruct (sr_refs _ _ _ _ _ R4 p i3 Hp3) as (E4 & _ & E5 & _).
    assert (linked i3 = true) as Hl3 by (destruct (linked i3); [done|lia]). apply (sr_flag _ _ _ _ _ R4 p i3 Hp3) in Hl3.
    destruct (K3 p i3 Hp3) as (j2 & Hj2 & V2). destruct (K2 p j2 Hj2) as (j1 & Hj1 & V1). rewrite Hp1 in Hj1. injection Hj1 as <-.
    apply (f_equal v_key) in V1, V2. cbn in V1, V2. rewrite V2, V1, lookup_delete_eq in Hl3. done.
  - intros q Hq. rewrite (remove_frame _ _ _ Er3 q Hq), (F2 q Hq). unfold refcount_incr in Ei0. rewrite (upd_item_ok _ _ _ _ Hp) in Ei0. injection Ei0 as <-. cbn [heap with_heap]. by rewrite lookup_insert_ne.
  - intros id'. unfold crawler_of. cbn [crawlers set_stats set_expired_data set_crawlers]. destruct (decide (id' = id)) as [->|]; [by rewrite lookup_insert_eq|by rewrite lookup_insert_ne].
Qed.

(** ** A whole crawl

    The classes [todo] of the store [s_init] are crawled without a limit and without other commands in
    between; [trylock] are the locks the crawler gets. *)

Section Run.
Context (s_init : store T) (m_init : gmap (list Z) positive) (refs : positive -> Z) (todo : Z -> bool) (trylock : Z -> bool).

(** The items that are due: linked in a class that is crawled, expired or flushed, held by nobody, and
    not locked. *)
Definition reclaimable (p : positive) : bool :=
  match heap s_init !! p with
  | Some i => linked i && todo (it_slabs_clsid i) && (1 <=? it_slabs_clsid i) && (it_slabs_clsid i <? POWER_LARGEST)
              && is_expired cfg i && (it_refcount i =? 1) && trylock (hash (item_key i))
  | None => false
  end.

Definition count_on on : Z := Z.of_nat (length (filter (fun id => on id = true) (seqZ 1 (POWER_LARGEST - 1)))).

(** The crawler of class [id] is on and has fewer than [bound id] items ahead of it; all items that are
    due are gone or ahead of a crawler. *)
Record running on (bound : Z -> nat) (c : crawl) s0 m lru s full : Prop := {
  rn_rep : store_rep hash s0 m lru refs;
  rn_sim : sim on s0 lru s full;
  rn_body : forall q, body <$> heap s0 !! q = body <$> heap s_init !! q \/ reclaimable q = true /\ heap s0 !! q = None;
  rn_map : forall k p, m !! k = Some p <-> m_init !! k = Some p /\ is_Some (heap s0 !! p);
  rn_due : forall id x, x ∈ lru id -> reclaimable x = true -> exists l, on id = true /\ ahead full id l /\ x ∈ l;
  rn_on : forall id, on id = true -> todo id = true /\ 1 <= id < POWER_LARGEST /\ remaining (crawler_of id c) = 0 /\ exists l, ahead full id l /\ (length l < bound id)%nat;
  rn_count : crawler_count c = count_on on
}.

Lemma ahead_inj on s0 lru s full id l l' : sim on s0 lru s full -> ahead full id l -> ahead full id l' -> l = l'.
Proof.
  intros S (b & E) (b' & E'). pose proof (lru_nodup _ _ (sm_lru _ _ _ _ _ _ S) id) as Hnd. rewrite E in E'. rewrite E in Hnd. clear E S. revert l' E'.
  induction l as [|x l IH]; intros [|y l'] E'; [done| | |]; cbn [app] in *; injection E' as Ex E'.
  - subst y. apply NoDup_cons in Hnd as [Hnd _]. exfalso. apply Hnd. rewrite E'. set_solver.
  - subst x. apply NoDup_cons in Hnd as [Hnd _]. exfalso. apply Hnd. set_solver.
  - apply NoDup_cons in Hnd as [_ Hnd]. f_equal; [done|]. by apply IH.
Qed.

Lemma count_off on id : on id = true -> 1 <= id < POWER_LARGEST -> count_on (set_on id false on) = count_on on - 1.
Proof.
  intros Hon Hid. unfold count_on. assert (id ∈ seqZ 1 (POWER_LARGEST - 1)) as Hin by (apply elem_of_seqZ; unfold POWER_LARGEST in *; lia).
  pose proof (NoDup_seqZ 1 (POWER_LARGEST - 1)) as Hnd. apply list_elem_of_split in Hin as (a & b & E). rewrite E in *. clear E.
  apply NoDup_app in Hnd as (_ & Hd & Hnd). apply NoDup_cons in Hnd as [Hb _].
  assert (forall l : list Z, id ∉ l -> filter (fun id' => set_on id false on id' = true) l = filter (fun id' => on id' = true) l) as Hf.
  { intros l Hl. induction l as [|x l IH]; [done|]. rewrite !filter_cons. rewrite IH by set_solver. rewrite set_on_ne by set_solver. done. }
  rewrite !filter_app, !filter_cons, set_on_eq. rewrite (decide_False (P := false = true)) by done. rewrite decide_True by done.
  rewrite !Hf by (try done; intros H; apply (Hd id H); by left). rewrite !length_app. cbn [length]. lia.
Qed.

(** [reclaimable] is what the thread finds out about an item. *)
Lemma reclaimable_found on bound c s0 m lru s full id x i0 : running on bound c s0 m lru s full -> on id = true -> x ∈ lru id -> heap s0 !! x = Some i0 ->
  linked i0 = true /\ it_slabs_clsid i0 = id /\ reclaimable x = is_expired cfg i0 && (it_refcount i0 =? 1) && trylock (hash (item_key i0)).
Proof.
  intros N Hon Hin Hx. destruct (sr_linked _ _ _ _ _ (rn_rep _ _ _ _ _ _ _ _ N) id x Hin) as (j & Hj & Lj). rewrite Hx in Hj. injection Hj as <-. split; [done|].
  pose proof (lru_class _ _ (sm_lru0 _ _ _ _ _ _ (rn_sim _ _ _ _ _ _ _ _ N)) id x Hin) as Hc. rewrite Hx in Hc. injection Hc as Hc. split; [done|].
  destruct (rn_body _ _ _ _ _ _ _ _ N x) as [E|[_ E]]; [|congruence]. rewrite Hx in E. unfold reclaimable. destruct (heap s_init !! x) as [i|]; [|done]. apply (inj Some) in E.
  destruct (body_fields _ _ E) as (El & _ & Ek & Er & Ec). destruct (rn_on _ _ _ _ _ _ _ _ N id Hon) as (Ht & Hid & _).
  rewrite <- El, <- Ec, <- Ek, <- Er, Lj, Hc, Ht, (is_expired_body _ _ E), (proj2 (Z.leb_le 1 id)), (proj2 (Z.ltb_lt id _)) by lia. done.
Qed.

Context (Hroom : forall q, refs q + 2 < 2 ^ 16).

Definition less_at (i : Z) (bound : Z -> nat) : Z -> nat := fun id => if decide (id = i) then (bound id - 1)%nat else bound id.

(** The crawler of class [i] has passed an item that stays. *)
Lemma running_kept on bound c c' s0 m lru s full s1 full1 i a x : running on bound c s0 m lru s full -> on i = true -> ahead full i (a ++ [x]) ->
  sim on s0 lru s1 full1 -> ahead full1 i a -> (forall id', id' <> i -> full1 id' = full id') -> reclaimable x = false ->
  crawler_count c' = crawler_count c -> (forall id, remaining (crawler_of id c') = remaining (crawler_of id c)) ->
  running on (less_at i bound) c' s0 m lru s1 full1.
Proof.
  intros N Hon Ha S1 Ha1 Hf Hx Hc Hr. pose proof (rn_sim _ _ _ _ _ _ _ _ N) as S. split; try apply N; [done| | |by rewrite Hc; apply N].
  - intros id y Hy Hd. destruct (rn_due _ _ _ _ _ _ _ _ N id y Hy Hd) as (l & H1 & H2 & H3). destruct (decide (id = i)) as [->|Hne].
    + exists a. split; [done|]. split; [done|]. rewrite (ahead_inj _ _ _ _ _ _ _ _ S H2 Ha) in H3. apply elem_of_app in H3 as [H3|H3%list_elem_of_singleton]; [done|congruence].
    + exists l. split; [done|]. split; [|done]. unfold ahead in *. by rewrite Hf.
  - intros id Hid. destruct (rn_on _ _ _ _ _ _ _ _ N id Hid) as (H1 & H2 & H3 & l & H4 & H5). split; [done|]. split; [done|]. split; [by rewrite Hr|]. unfold less_at.
    destruct (decide (id = i)) as [->|Hne]; [|exists l; split; [unfold ahead in *; by rewrite Hf|done]].
    exists a. split; [done|]. rewrite (ahead_inj _ _ _ _ _ _ _ _ S H4 Ha), length_app in H5. cbn [length] in H5. lia.
Qed.

(** It has reached the head and is off. *)
Lemma running_end on bound c s0 m lru s full s' full' i : running on bound c s0 m lru s full -> on i = true -> ahead full i [] ->
  sim (set_on i false on) s0 lru s' full' -> (forall id', id' <> i -> full' id' = full id') ->
  running (set_on i false on) (less_at i bound) (noted_done i c) s0 m lru s' full'.
Proof.
  intros N Hon Ha S' Hf. pose proof (rn_sim _ _ _ _ _ _ _ _ N) as S. destruct (rn_on _ _ _ _ _ _ _ _ N i Hon) as (_ & Hi & _). split; try apply N; [done| | |].
  - intros id y Hy Hd. destruct (rn_due _ _ _ _ _ _ _ _ N id y Hy Hd) as (l & H1 & H2 & H3). destruct (decide (id = i)) as [->|Hne].
    + rewrite (ahead_inj _ _ _ _ _ _ _ _ S H2 Ha) in H3. by apply elem_of_nil in H3.
    + exists l. rewrite set_on_ne by done. split; [done|]. split; [|done]. unfold ahead in *. by rewrite Hf.
  - intros id Hid. destruct (decide (id = i)) as [->|Hne]; [by rewrite set_on_eq in Hid|]. rewrite set_on_ne in Hid by done.
    destruct (rn_on _ _ _ _ _ _ _ _ N id Hid) as (H1 & H2 & H3 & l & H4 & H5). split; [done|]. split; [done|]. split; [done|]. exists l.
    unfold less_at. rewrite decide_False by done. split; [unfold ahead in *; by rewrite Hf|done].
  - rewrite count_off by done. rewrite <- (rn_count _ _ _ _ _ _ _ _ N). done.
Qed.

(** It has passed an item that is gone now. *)
Lemma running_dropped on bound c c' s0 m lru s full s1 full1 i a x i0 s0' s' full' : running on bound c s0 m lru s full -> on i = true -> ahead full i (a ++ [x]) ->
  sim on s0 lru s1 full1 -> ahead full1 i a -> (forall id', id' <> i -> full1 id' = full id') -> reclaimable x = true -> x ∈ lru i -> heap s0 !! x = Some i0 -> linked i0 = true ->
  let lru' := set_lru i (remove_ptr x (lru i)) lru in
  sim on s0' lru' s' full' -> full' = set_lru i (remove_ptr x (full1 i)) full1 -> store_rep hash s0' (base.delete (item_key i0) m) lru' refs ->
  heap s0' !! x = None -> but_one x s0 s0' -> crawler_count c' = crawler_count c -> (forall id, remaining (crawler_of id c') = remaining (crawler_of id c)) ->
  running on (less_at i bound) c' s0' (base.delete (item_key i0) m) lru' s' full'.
Proof.
  intros N Hon Ha S1 Ha1 Hf Hx Hin Hx0 Hl lru' S' Ef R' Hnone Hbut Hc Hr. pose proof (rn_sim _ _ _ _ _ _ _ _ N) as S. pose proof (rn_rep _ _ _ _ _ _ _ _ N) as R.
  assert (not_crawler crawler_addr x) as Hnc by (by eapply sim_not_crawler).
  assert (forall l, ahead full1 i l -> x ∉ l -> ahead full' i l) as Hah.
  { intros l (b & E) Hxl. exists (remove_ptr x b). rewrite Ef, set_lru_eq, E. unfold remove_ptr. rewrite filter_app, filter_cons_True by (apply not_eq_sym, Hnc). f_equal. by apply remove_ptr_absent. }
  assert (x ∉ a) as Hxa.
  { destruct Ha as (b & E). pose proof (lru_nodup _ _ (sm_lru _ _ _ _ _ _ S) i) as Hnd. rewrite E in Hnd. apply NoDup_app in Hnd as (Hnd & _). apply NoDup_app in Hnd as (_ & Hd & _). intros H. apply (Hd x H). set_solver. }
  split; [exact R'|exact S'| | | | |by rewrite Hc; apply N].
  - intros q. destruct (decide (q = x)) as [->|Hq]; [by right|]. pose proof (Hbut q Hq) as Eq. destruct (rn_body _ _ _ _ _ _ _ _ N q) as [E|[E1 E2]]; [left; congruence|].
    right. split; [done|]. rewrite E2 in Eq. by destruct (heap s0' !! q).
  - intros k p. rewrite lookup_delete_Some, (rn_map _ _ _ _ _ _ _ _ N). assert (p <> x -> is_Some (heap s0' !! p) <-> is_Some (heap s0 !! p)) as His.
    { intros Hp. pose proof (Hbut p Hp) as E. destruct (heap s0' !! p), (heap s0 !! p); try done; split; by intros []. }
    pose proof (proj1 (sr_flag _ _ _ _ _ R x i0 Hx0) Hl) as Hm. split.
    + intros (Hk & Hm1 & Hs). split; [done|]. apply His; [|done]. intros ->. assert (m !! k = Some x) as Hk' by (by apply (rn_map _ _ _ _ _ _ _ _ N)).
      destruct (sr_item _ _ _ _ _ R k x Hk') as (j & Hj & Kj). congruence.
    + intros (Hm1 & Hs). assert (p <> x) as Hp by (intros ->; rewrite Hnone in Hs; by destruct Hs). rewrite His in Hs by done. split; [|done]. intros <-.
      assert (m !! item_key i0 = Some p) as Hk' by (by apply (rn_map _ _ _ _ _ _ _ _ N)). congruence.
  - intros id y Hy Hd. assert (y ∈ lru id /\ y <> x) as [Hy1 Hy2].
    { unfold lru' in Hy. lru_case id i; [by apply elem_of_remove_ptr in Hy|]. split; [done|]. intros ->. by pose proof (lru_disjoint _ _ _ _ _ (sr_lru _ _ _ _ _ R) Hy Hin). }
    destruct (rn_due _ _ _ _ _ _ _ _ N id y Hy1 Hd) as (l & H1 & H2 & H3). destruct (decide (id = i)) as [->|Hne].
    + exists a. split; [done|]. split; [by apply Hah|]. rewrite (ahead_inj _ _ _ _ _ _ _ _ S H2 Ha) in H3. apply elem_of_app in H3 as [H3|H3%list_elem_of_singleton]; [done|congruence].
    + exists l. split; [done|]. split; [|done]. unfold ahead in *. by rewrite Ef, set_lru_ne, Hf.
  - intros id Hid. destruct (rn_on _ _ _ _ _ _ _ _ N id Hid) as (H1 & H2 & H3 & l & H4 & H5). split; [done|]. split; [done|]. split; [by rewrite Hr|]. unfold less_at.
    destruct (decide (id = i)) as [->|Hne]; [|exists l; split; [unfold ahead in *; by rewrite Ef, set_lru_ne, Hf|done]].
    exists a. split; [by apply Hah|]. rewrite (ahead_inj _ _ _ _ _ _ _ _ S H4 Ha), length_app in H5. cbn [length] in H5. lia.
Qed.

Lemma crawl_class_ok on bound c s0 m lru s full i : running on bound c s0 m lru s full ->
  exists on' c' s0' m' lru' s' full', crawl_class hash cfg crawler_addr trylock i c s = Ret (c', s') /\ running on' (less_at i bound) c' s0' m' lru' s' full'.
Proof.
  intros N. pose proof (rn_sim _ _ _ _ _ _ _ _ N) as S. pose proof (rn_rep _ _ _ _ _ _ _ _ N) as R. unfold crawl_class. rewrite (sim_is_off _ _ _ _ _ i S).
  destruct (on i) eqn:Hon; cbn [negb]; cycle 1.
  { exists on, c, s0, m, lru, s, full. split; [done|]. split; try apply N. intros id Hid. destruct (rn_on _ _ _ _ _ _ _ _ N id Hid) as (H1 & H2 & H3 & l & H4 & H5).
    split; [done|]. split; [done|]. split; [done|]. exists l. split; [done|]. unfold less_at. rewrite decide_False; [done|congruence]. }
  destruct (rn_on _ _ _ _ _ _ _ _ N i Hon) as (_ & _ & Hrem & l & Ha & _). destruct l as [|x a _] using rev_ind.
  { destruct (sim_end _ _ _ _ _ _ c S Hon Ha) as (s1 & -> & s' & full' & E' & S' & Hf). rewrite ret_bind, E'. eexists _, _, s0, m, lru, s', full'. split; [reflexivity|]. by eapply running_end. }
  destruct (sim_step _ _ _ _ _ _ _ _ S Hon Ha) as (s1 & full1 & -> & S1 & Ha1 & Hf & Hin & i0 & Hx0). rewrite ret_bind, Hrem. cbn [Z.eqb negb andb].
  destruct (sim_get _ _ _ _ _ _ _ _ S1 Hx0) as (i1 & Hi1 & B1). destruct (sim_fields _ _ B1) as (F1 & _ & F3 & _).
  destruct (reclaimable_found _ _ _ _ _ _ _ _ _ _ _ N Hon Hin Hx0) as (Hl & Hcls & Hrec).
  rewrite (get_item_ok _ _ _ Hi1), ret_bind, F3. destruct (trylock (hash (item_key i0))); cbn [negb] in *; cycle 1.
  { rewrite andb_false_r in Hrec. exists on, c, s0, m, lru, s1, full1. split; [done|]. by eapply running_kept. }
  rewrite andb_true_r in Hrec. destruct (sr_refs _ _ _ _ _ R x i0 Hx0) as (Er & Er0 & _). rewrite Hl in Er. specialize (Hroom x) as Hrx.
  destruct (incr_decr s1 x i1 Hi1) as (s2 & E2 & Hi2 & D2); [lia|lia|]. rewrite E2, ret_bind, (get_item_ok _ _ _ Hi2), ret_bind. cbn [it_refcount set_refcount]. rewrite F1.
  destruct (Z.eqb_spec (it_refcount i0) 1) as [Hr1|Hr1]; cycle 1.
  { rewrite andb_false_r in Hrec. rewrite (proj2 (Z.eqb_neq _ _)) by lia. cbn [negb]. rewrite D2, ret_bind. exists on, c, s0, m, lru, s1, full1. split; [done|]. by eapply running_kept. }
  rewrite andb_true_r in Hrec. rewrite Hr1. cbn [Z.add Z.eqb Pos.add Pos.eqb negb]. set (c1 := set_crawlers _ _ c).
  assert (crawler_count c1 = crawler_count c /\ forall id, remaining (crawler_of id c1) = remaining (crawler_of id c)) as [Hc1 Hc2].
  { split; [done|]. intros id. unfold c1, crawler_of. cbn [crawlers set_crawlers]. destruct (decide (id = i)) as [->|]; [by rewrite lookup_insert_eq|by rewrite lookup_insert_ne]. }
  destruct (is_expired cfg i0) eqn:He.
  - destruct (eval_expired _ _ _ _ _ _ _ _ _ i c1 R S1 Hx0 Hl Hr1 He) as (s2' & c' & s' & s0' & full' & E2' & E' & S' & Ef & R' & Hnone & Hbut & C1 & C2).
    rewrite E2 in E2'. injection E2' as <-. rewrite E'. rewrite Hcls in *. eexists on, c', s0', _, _, s', full'. split; [reflexivity|].
    eapply running_dropped; try done. intros id. by rewrite C2.
  - unfold crawler_expired_eval. rewrite (get_item_ok _ _ _ Hi2), ret_bind.
    assert (is_expired cfg (set_refcount (it_refcount i1 + 1) i1) = false) as -> by (rewrite <- He; exact (is_expired_body _ _ B1)).
    rewrite D2, ret_bind. eexists on, _, s0, m, lru, s1, full1. split; [reflexivity|]. by eapply running_kept.
Qed.

Lemma crawl_classes_ok ids : forall on bound c s0 m lru s full, running on bound c s0 m lru s full ->
  exists on' c' s0' m' lru' s' full', crawl_classes hash cfg crawler_addr trylock ids c s = Ret (c', s') /\ running on' (fun id => bound id - (if decide (id ∈ ids) then 1 else 0))%nat c' s0' m' lru' s' full'.
Proof.
  induction ids as [|i ids IH]; intros on bound c s0 m lru s full N; cbn [crawl_classes].
  { exists on, c, s0, m, lru, s, full. split; [done|]. split; try apply N. intros id Hid. destruct (rn_on _ _ _ _ _ _ _ _ N id Hid) as (H1 & H2 & H3 & l & H4 & H5).
    split; [done|]. split; [done|]. split; [done|]. exists l. split; [done|]. rewrite decide_False by set_solver. lia. }
  destruct (crawl_class_ok _ _ _ _ _ _ _ _ i N) as (on1 & c1 & t1 & m1 & lru1 & s1 & full1 & -> & N1). rewrite ret_bind.
  destruct (IH _ _ _ _ _ _ _ _ N1) as (on2 & c2 & t2 & m2 & lru2 & s2 & full2 & -> & N2). exists on2, c2, t2, m2, lru2, s2, full2. split; [done|].
  split; try apply N2. intros id Hid. destruct (rn_on _ _ _ _ _ _ _ _ N2 id Hid) as (H1 & H2 & H3 & l & H4 & H5). split; [done|]. split; [done|]. split; [done|]. exists l. split; [done|].
  unfold less_at in H5. destruct (decide (id = i)) as [->|Hne].
  - rewrite (decide_True (P := i ∈ i :: ids)) by set_solver. destruct (decide (i ∈ ids)); lia.
  - destruct (decide (id ∈ ids)); [rewrite decide_True by set_solver|rewrite decide_False by set_solver]; lia.
Qed.

Lemma none_on on bound c s0 m lru s full : running on bound c s0 m lru s full -> (forall id, bound id = 0%nat) -> forall id, on id = false.
Proof. intros N Hb id. destruct (on id) eqn:E; [|done]. destruct (rn_on _ _ _ _ _ _ _ _ N id E) as (_ & _ & _ & l & _ & H). rewrite Hb in H. lia. Qed.

Lemma count_none on : (forall id, on id = false) -> count_on on = 0.
Proof.
  intros H. unfold count_on. generalize (seqZ 1 (POWER_LARGEST - 1)). intros l. induction l as [|x l IH]; [done|]. rewrite filter_cons, H, decide_False by done. exact IH.
Qed.

Lemma count_zero on : count_on on = 0 -> forall id, 1 <= id < POWER_LARGEST -> on id = false.
Proof.
  unfold count_on. intros H id Hid. destruct (on id) eqn:E; [|done]. assert (id ∈ filter (fun id => on id = true) (seqZ 1 (POWER_LARGEST - 1))) as Hin.
  { apply list_elem_of_filter. split; [done|]. apply elem_of_seqZ. unfold POWER_LARGEST in *. lia. }
  destruct (filter _ _); [by apply elem_of_nil in Hin|simpl in H; lia].
Qed.

Lemma crawl_loop_ok n : forall fuel on bound c s0 m lru s full, running on bound c s0 m lru s full -> (forall id, bound id <= n)%nat -> (n <= fuel)%nat ->
  exists on' bound' c' s0' m' lru' s' full', crawl_loop hash cfg crawler_addr fuel (fun _ => trylock) c s = Ret (c', s') /\ running on' bound' c' s0' m' lru' s' full' /\ crawler_count c' = 0.
Proof.
  induction n as [|n IH]; intros fuel on bound c s0 m lru s full N Hb Hf.
  { assert (crawler_count c = 0) as H0. { rewrite (rn_count _ _ _ _ _ _ _ _ N). apply count_none. eapply none_on; [exact N|]. intros id. specialize (Hb id). lia. }
    exists on, bound, c, s0, m, lru, s, full. destruct fuel; cbn [crawl_loop]; rewrite H0; done. }
  destruct fuel as [|fuel]; [lia|]. cbn [crawl_loop]. destruct (Z.eqb_spec (crawler_count c) 0) as [H0|H0]; [by exists on, bound, c, s0, m, lru, s, full|].
  destruct (crawl_classes_ok (seqZ 1 (POWER_LARGEST - 1)) _ _ _ _ _ _ _ _ N) as (on1 & c1 & t1 & m1 & lru1 & s1 & full1 & -> & N1). rewrite ret_bind.
  eapply (IH fuel on1 (fun id => if on1 id then (bound id - 1)%nat else 0%nat)); [|intros id; specialize (Hb id); destruct (on1 id); lia|lia].
  split; try apply N1. intros id Hid. destruct (rn_on _ _ _ _ _ _ _ _ N1 id Hid) as (H1 & H2 & H3 & l & H4 & H5). split; [done|]. split; [done|]. split; [done|]. exists l. split; [done|].
  rewrite Hid. rewrite decide_True in H5 by (apply elem_of_seqZ; unfold POWER_LARGEST in *; lia). lia.
Qed.

(** ** The start *)

Lemma count_ext on on' : (forall id, on id = on' id) -> count_on on = count_on on'.
Proof. intros H. unfold count_on. do 2 f_equal. apply list_filter_iff. intros id. by rewrite H. Qed.

Lemma count_start on id : on id = false -> 1 <= id < POWER_LARGEST -> count_on (set_on id true on) = count_on on + 1.
Proof.
  intros Hoff Hid. pose proof (count_off (set_on id true on) id (set_on_eq _ _ _) Hid) as H.
  rewrite (count_ext (set_on id false (set_on id true on)) on) in H; [lia|]. intros id'. destruct (decide (id' = id)) as [->|]; [by rewrite set_on_eq|by rewrite !set_on_ne].
Qed.

(** The crawlers that are on are at the tails. *)
Record started lru on (c : crawl) s full : Prop := {
  st_sim : sim on s_init lru s full;
  st_full : forall id, full id = if on id then lru id ++ [crawler_addr id] else lru id;
  st_on : forall id, on id = true -> todo id = true /\ 1 <= id < POWER_LARGEST /\ remaining (crawler_of id c) = 0;
  st_count : crawler_count c = count_on on;
  st_run : do_run_lru_crawler_thread c = true
}.

Lemma start_classes_ok lru ids : forall on c s full starts, started lru on c s full -> NoDup ids -> (forall id, id ∈ ids -> on id = false /\ 1 <= id < POWER_LARGEST) ->
  exists starts' c' s' full' on', start_classes crawler_addr todo ids 0 starts c s = Ret (starts', c', s') /\ started lru on' c' s' full' /\
    forall id, on' id = on id || (todo id && bool_decide (id ∈ ids)).
Proof.
  induction ids as [|i ids IH]; intros on c s full starts A Hnd Hids; cbn [start_classes].
  { exists starts, c, s, full, on. split; [done|]. split; [done|]. intros id. rewrite bool_decide_eq_false_2 by set_solver. by rewrite andb_false_r, orb_false_r. }
  apply NoDup_cons in Hnd as [Hi Hnd]. destruct (Hids i) as [Hoff Hr]; [by left|]. destruct (todo i) eqn:Ht; cycle 1.
  { destruct (IH on c s full starts A Hnd) as (st & c' & s' & full' & on' & E & A' & Ho); [intros id Hid; apply Hids; by right|].
    exists st, c', s', full', on'. split; [done|]. split; [done|]. intros id. rewrite Ho. destruct (decide (id = i)) as [->|Hne].
    - by rewrite Ht.
    - do 2 f_equal. apply bool_decide_ext. set_solver. }
  pose proof (st_sim _ _ _ _ _ A) as S. destruct (sim_start _ _ _ _ _ i S Hoff) as (s1 & E1 & S1).
  unfold do_lru_crawler_start. rewrite (sim_is_idle _ _ _ _ _ i S), Hoff. cbn [negb Z.eqb LRU_CRAWLER_CAP_REMAINING]. change (0 =? LRU_CRAWLER_CAP_REMAINING) with false. cbn [Z.eqb].
  rewrite E1, !ret_bind. set (c1 := set_crawlers _ _ c).
  destruct (IH (set_on i true on) c1 s1 (set_lru i (full i ++ [crawler_addr i]) full) (starts + 1)) as (st & c' & s' & full' & on' & E & A' & Ho).
  - split; [done| | | |apply A].
    + intros id. destruct (decide (id = i)) as [->|]; [by rewrite set_lru_eq, set_on_eq, (st_full _ _ _ _ _ A), Hoff|rewrite set_lru_ne, set_on_ne by done; apply A].
    + intros id. unfold c1, crawler_of. cbn [crawlers set_crawlers]. destruct (decide (id = i)) as [->|]; [intros _; rewrite lookup_insert_eq; cbn; by split; [|split]|].
      rewrite set_on_ne, lookup_insert_ne by done. apply A.
    + rewrite count_start by done. rewrite <- (st_count _ _ _ _ _ A). done.
  - done.
  - intros id Hid. destruct (Hids id) as [H1 H2]; [by right|]. rewrite set_on_ne by (intros ->; done). done.
  - exists st, c', s', full', on'. split; [done|]. split; [done|]. intros id. rewrite Ho. destruct (decide (id = i)) as [->|Hne].
    + rewrite set_on_eq, Ht, (bool_decide_eq_true_2 (i ∈ i :: ids)) by (by left). cbn [andb]. by rewrite !orb_true_r, orb_true_l.
    + rewrite set_on_ne by done. do 2 f_equal. apply bool_decide_ext. set_solver.
Qed.

Lemma nodup_size (l : list positive) (h : gmap positive item) : NoDup l -> (forall x, x ∈ l -> is_Some (h !! x)) -> (length l <= size h)%nat.
Proof.
  intros Hnd H. rewrite <- size_dom, <- (size_list_to_set (C := gset positive) l Hnd). apply subseteq_size. intros x Hx%elem_of_list_to_set. by apply elem_of_dom, H.
Qed.

(** Once started, the crawl can begin. *)
Lemma started_running lru on c s full : store_rep hash s_init m_init lru refs -> started lru on c s full -> (forall id, on id = todo id && bool_decide (id ∈ seqZ 1 (POWER_LARGEST - 1))) ->
  running on (fun id => S (length (lru id))) c s_init m_init lru s full.
Proof.
  intros R A Ho. split; [done|apply A|by left| | | |apply A].
  - intros k p. split; [|by intros []]. intros Hk. split; [done|]. destruct (sr_item _ _ _ _ _ R k p Hk) as (i & Hi & _). by exists i.
  - intros id x Hx Hd. exists (lru id). assert (on id = true) as Hon.
    { pose proof (lru_class _ _ (sr_lru _ _ _ _ _ R) id x Hx) as Hc. unfold reclaimable in Hd. destruct (heap s_init !! x) as [i|]; [|done]. injection Hc as Hc. rewrite Hc in Hd.
      repeat (apply andb_prop in Hd as [Hd ?]). rewrite Ho. apply andb_true_intro. split; [done|]. apply bool_decide_eq_true_2, elem_of_seqZ. unfold POWER_LARGEST in *. lia. }
    split; [done|]. split; [|done]. exists []. rewrite (st_full _ _ _ _ _ A), Hon. done.
  - intros id Hon. destruct (st_on _ _ _ _ _ A id Hon) as (H1 & H2 & H3). split; [done|]. split; [done|]. split; [done|]. exists (lru id). split; [|lia]. exists []. rewrite (st_full _ _ _ _ _ A), Hon. done.
Qed.

(** When all crawlers are off, the store is as it would be without them. *)
Lemma all_off on s0 m lru s full : store_rep hash s0 m lru refs -> sim on s0 lru s full -> (forall id, on id = false) -> body_eq (heap s0) (heap s) /\ store_rep hash s m full refs.
Proof.
  intros R S Hoff. assert (forall id, heap s !! crawler_addr id = None) as Hn by (intros id; pose proof (sm_crawler _ _ _ _ _ _ S id) as H; by rewrite Hoff in H).
  assert (body_eq (heap s0) (heap s)) as B.
  { intros q. destruct (heap s0 !! q) as [i|] eqn:E0.
    - rewrite (sm_body _ _ _ _ _ _ S q), E0; [done|]. intros id ->. by rewrite (sm_none _ _ _ _ _ _ S) in E0.
    - destruct (heap s !! q) as [i|] eqn:E; [|done]. exfalso. assert (not_crawler crawler_addr q) as Hq by (intros id ->; congruence).
      pose proof (sm_body _ _ _ _ _ _ S q Hq) as H. rewrite E, E0 in H. done. }
  split; [done|]. assert (forall id q, q ∈ full id <-> q ∈ lru id) as Hmem.
  { intros id q. rewrite <- (sm_filter _ _ _ _ _ _ S id), elem_of_remove_ptr. split; [|tauto]. intros H. split; [done|]. intros ->.
    destruct (lru_member_some _ _ _ _ (sm_lru _ _ _ _ _ _ S) H) as [i Hi]. congruence. }
  destruct (sm_rest _ _ _ _ _ _ S) as (Q1 & Q2 & _).
  apply (store_rep_build hash s m full refs (heap s0)).
  - rewrite Q1. apply R.
  - eapply lru_rep_resize; [apply (sm_lru _ _ _ _ _ _ S)|done..|]. intros id. rewrite (lru_sizes _ _ (sm_lru _ _ _ _ _ _ S)). unfold extra_of. by rewrite Hoff.
  - done.
  - apply R.
  - apply R.
  - intros p i Hp Hl. apply Hmem. exact (sr_member _ _ _ _ _ R p i Hp Hl).
  - intros id p Hp. apply Hmem in Hp. exact (sr_linked _ _ _ _ _ R id p Hp).
  - apply R.
  - apply R.
  - rewrite Q2. apply R.
Qed.

(** The crawlers are off: no item is left that is due. *)
Lemma none_due on bound c s0 m lru s full q : running on bound c s0 m lru s full -> (forall id, on id = false) -> reclaimable q = true -> heap s0 !! q = None.
Proof.
  intros N Hoff Hq. destruct (heap s0 !! q) as [i|] eqn:E; [|done]. exfalso. destruct (rn_body _ _ _ _ _ _ _ _ N q) as [B|[_ B]]; [|congruence].
  pose proof Hq as Hq'. unfold reclaimable in Hq. destruct (heap s_init !! q) as [j|] eqn:Ej; [|done]. rewrite E in B. apply (inj Some) in B. destruct (body_fields _ _ B) as (El & _).
  repeat (apply andb_prop in Hq as [Hq _]). rewrite Hq in El. pose proof (sr_member _ _ _ _ _ (rn_rep _ _ _ _ _ _ _ _ N) q i E El) as Hin.
  destruct (rn_due _ _ _ _ _ _ _ _ N _ q Hin Hq') as (l & Hon & _). by rewrite Hoff in Hon.
Qed.

Lemma due_map on bound c s0 m lru lru' s full : store_rep hash s_init m_init lru refs -> running on bound c s0 m lru' s full -> (forall id, on id = false) ->
  m = filter (fun kp => reclaimable kp.2 = false) m_init.
Proof.
  intros R N Hoff. apply map_eq. intros k. apply option_eq. intros p. rewrite (rn_map _ _ _ _ _ _ _ _ N), map_lookup_filter_Some. cbn [snd]. split; intros [Hk Hp]; (split; [done|]).
  - destruct (reclaimable p) eqn:E; [|done]. rewrite (none_due _ _ _ _ _ _ _ _ p N Hoff E) in Hp. by destruct Hp.
  - destruct (rn_body _ _ _ _ _ _ _ _ N p) as [B|[B _]]; [|congruence]. destruct (sr_item _ _ _ _ _ R k p Hk) as (i & Hi & _). rewrite Hi in B. by destruct (heap s0 !! p).
Qed.

Lemma started_none lru c : store_rep hash s_init m_init lru refs -> (forall id, heap s_init !! crawler_addr id = None) -> crawler_count c = 0 -> do_run_lru_crawler_thread c = true ->
  started lru (fun _ => false) c s_init lru.
Proof.
  intros R Hn Hc Hr. split; [|done..|by rewrite Hc, count_none|done]. split; [apply R|apply R|by repeat split|done|done|done| |done].
  intros id. apply remove_ptr_absent. intros H. destruct (sr_linked _ _ _ _ _ R _ _ H) as (i & Hi & _). by rewrite Hn in Hi.
Qed.

(** C27: a crawl that is started on an idle crawler ends, and has then dropped all items of the classes
    it was given that had expired or were flushed, except those that are held or locked; it has kept
    every other item and left no crawler in the lists. *)
Theorem crawl_reclaims_expired lru (c : crawl) : store_rep hash s_init m_init lru refs -> (forall id, heap s_init !! crawler_addr id = None) ->
  crawler_count c = 0 -> lru_crawler_running c = false -> do_run_lru_crawler_thread c = true ->
  exists starts c1 s1 c2 s2 lru2,
    lru_crawler_start cfg crawler_addr (Some todo) 0 CRAWLER_EXPIRED c s_init = Ret (starts, c1, s1) /\
    item_crawler_thread hash cfg crawler_addr (fun _ => trylock) c1 s1 = Ret (c2, s2) /\
    store_rep hash s2 (filter (fun kp => reclaimable kp.2 = false) m_init) lru2 refs /\
    (forall q, if reclaimable q then heap s2 !! q = None else body <$> heap s2 !! q = body <$> heap s_init !! q) /\
    (forall id, heap s2 !! crawler_addr id = None) /\ crawler_count c2 = 0 /\ lru_crawler_running c2 = false.
Proof.
  intros R Hn Hc Hr Hd. set (c0 := crawler_expired_init cfg (set_type CRAWLER_EXPIRED c)).
  assert (started lru (fun _ => false) c0 s_init lru) as A0 by (by apply started_none).
  destruct (start_classes_ok lru (seqZ 1 (POWER_LARGEST - 1)) _ _ _ _ 0 A0) as (starts & c1 & s1 & full1 & on1 & E1 & A1 & Ho1).
  { apply NoDup_seqZ. } { intros id Hid. apply elem_of_seqZ in Hid. split; [done|]. unfold POWER_LARGEST in *. lia. }
  set (c1' := if negb (starts =? 0) then set_running true (u64 (lru_crawler_starts c1 + 1)) c1 else c1).
  assert (started lru on1 c1' s1 full1) as A1' by (unfold c1'; destruct (starts =? 0); [done|]; split; apply A1).
  pose proof (started_running _ _ _ _ _ R A1' Ho1) as N1.
  destruct (crawl_loop_ok (1 + size (heap s1)) (1 + size (heap s1)) _ _ _ _ _ _ _ _ N1) as (on2 & b2 & c2 & t2 & m2 & lru2 & s2 & full2 & E2 & N2 & Hc2); [|done|].
  { intros id. apply le_n_S. transitivity (length (full1 id)).
    - rewrite (st_full _ _ _ _ _ A1). destruct (on1 id); rewrite ?length_app; lia.
    - apply nodup_size; [apply (lru_nodup _ _ (sm_lru _ _ _ _ _ _ (st_sim _ _ _ _ _ A1)))|]. intros x Hx. exact (lru_member_some _ _ _ _ (sm_lru _ _ _ _ _ _ (st_sim _ _ _ _ _ A1)) Hx). }
  assert (forall id, on2 id = false) as Hoff.
  { intros id. destruct (on2 id) eqn:E; [|done]. destruct (rn_on _ _ _ _ _ _ _ _ N2 id E) as (_ & Hid & _). rewrite (rn_count _ _ _ _ _ _ _ _ N2) in Hc2. pose proof (count_zero _ Hc2 id Hid). congruence. }
  destruct (all_off _ _ _ _ _ _ (rn_rep _ _ _ _ _ _ _ _ N2) (rn_sim _ _ _ _ _ _ _ _ N2) Hoff) as [B2 R2].
  rewrite (due_map _ _ _ _ _ _ _ _ _ R N2 Hoff) in R2. exists starts, c1', s1, (set_running false (lru_crawler_starts c2) (crawler_expired_finalize cfg c2)), s2, full2.
  split; [|split; [|split; [exact R2|split; [|split; [|done]]]]].
  - unfold lru_crawler_start. rewrite Hd, Hr. cbn [negb andb crawler_run_type_eqb]. fold c0. by rewrite E1, ret_bind.
  - unfold item_crawler_thread. by rewrite E2, ret_bind.
  - intros q. specialize (B2 q). destruct (reclaimable q) eqn:Eq.
    + rewrite (none_due _ _ _ _ _ _ _ _ q N2 Hoff Eq) in B2. by destruct (heap s2 !! q).
    + rewrite B2. destruct (rn_body _ _ _ _ _ _ _ _ N2 q) as [|[]]; congruence.
  - intros id. pose proof (sm_crawler _ _ _ _ _ _ (rn_sim _ _ _ _ _ _ _ _ N2) id) as H. by rewrite Hoff in H.
Qed.
End Run.
End Crawl.

(** ** Samples *)

(** A store with one item, which has expired. *)
Definition stale_item : item := set_slabs_clsid (Z.lor 1 COLD_LRU) (mkItem None None 0 50 3 1 (ITEM_CAS + ITEM_CFLAGS) 1 [97] (replicate 16 0) 0 0 5 [120; 13; 10] []).
Definition stale_store : store assoc :=
  match (s ← do_item_link sample_cfg 1 (first_byte [97]) (with_heap (<[1%positive := stale_item]> ∅) empty_store); do_item_remove 1 s) with Ret s => s | _ => empty_store end.

Lemma stale_store_rep : exists lru, store_rep first_byte stale_store {[ [97] := 1%positive ]} lru (fun _ => 0).
Proof.
  assert (store_rep first_byte (with_heap (<[1%positive := stale_item]> ∅) empty_store) ∅ (fun _ => []) sample_refs) as R0
    by (by apply (store_rep_alloc first_byte empty_store ∅ (fun _ => []) (fun _ => 0) 1 stale_item); [apply empty_store_rep|..]).
  destruct (do_item_link_ok first_byte sample_cfg _ _ _ _ 1 stale_item R0) as (s1 & lru1 & i1 & E1 & R1 & _ & H1 & _); [done..|].
  destruct (do_item_remove_ok first_byte _ _ _ _ 1 i1 R1 H1) as (s2 & E2 & R2 & _); [done|].
  exists lru1. replace stale_store with s2; [|unfold stale_store; change [97] with (item_key stale_item); by rewrite E1, ret_bind, E2].
  eapply store_rep_refs; [exact R2|]. intros q. unfold sample_refs, set_refs. by repeat case_decide.
Qed.

Definition sample_addr (id : Z) : positive := Pos.succ (encode id).
#[export] Instance sample_addr_inj : Inj (=) (=) sample_addr.
Proof. intros a b H%Pos.succ_inj. by apply (inj encode) in H. Qed.

Definition idle_crawl : crawl := mkCrawl ∅ 0 (mkExpiredData ∅ 0 false) ∅ false 0 CRAWLER_AUTOEXPIRE 0 true.

Lemma crawl_reclaims_expired_witness : exists starts c1 s1 c2 s2,
  lru_crawler_start sample_cfg sample_addr (Some (fun _ => true)) 0 CRAWLER_EXPIRED idle_crawl stale_store = Ret (starts, c1, s1) /\
  item_crawler_thread first_byte sample_cfg sample_addr (fun _ _ => true) c1 s1 = Ret (c2, s2) /\ heap s2 !! 1%positive = None /\
  exists lru, store_rep first_byte s2 ∅ lru (fun _ => 0).
Proof.
  destruct stale_store_rep as [lru R].
  destruct (crawl_reclaims_expired first_byte sample_cfg sample_addr stale_store {[ [97] := 1%positive ]} (fun _ => 0) (fun _ => true) (fun _ => true) (fun _ => eq_refl) lru idle_crawl R)
    as (starts & c1 & s1 & c2 & s2 & lru2 & E1 & E2 & R2 & H2 & _); [|done|done|done|].
  - intros id. assert (heap stale_store = {[ 1%positive := default stale_item (heap stale_store !! 1%positive) ]}) as -> by (vm_compute; reflexivity).
    apply lookup_singleton_None. unfold sample_addr. apply not_eq_sym, Pos.succ_not_1.
  - assert (reclaimable first_byte sample_cfg stale_store (fun _ => true) (fun _ => true) 1 = true) as Hr by (vm_compute; reflexivity).
    exists starts, c1, s1, c2, s2. split; [exact E1|]. split; [exact E2|]. specialize (H2 1%positive). rewrite Hr in H2. split; [exact H2|].
    exists lru2. rewrite map_filter_singleton_False in R2; [exact R2|]. cbn [snd]. rewrite Hr. discriminate.
Defined.
