(* ===== verification/SlabAutomove.v ===== *)
(** * The slab automover (src/memcached/slab_automove.c)

    Once a second the maintainer asks which slab class is to give a page away and to whom, from the
    evictions, the age of the last item, the free chunks and the pages of each class, over a window of
    the last runs.  The figures are an argument.  Floating-point numbers are those of IEEE 754, as
    Rocq's library defines them: [float] has 24 bits of precision, [double] 53. *)

From S2P Require Import Prelude.
From stdpp Require Import list.
From Stdlib Require Import SpecFloat.
Local Open Scope Z_scope.

(** ** Numbers *)

Definition to_float (z : Z) : spec_float := binary_normalize 24 128 z 0 false.
Definition float_add : spec_float -> spec_float -> spec_float := SFadd 24 128.
Definition float_div : spec_float -> spec_float -> spec_float := SFdiv 24 128.
Definition to_double (z : Z) : spec_float := binary_normalize 53 1024 z 0 false.
Definition double_mul : spec_float -> spec_float -> spec_float := SFmul 53 1024.

(** 2.5 and 0.25. *)
Definition MIN_PAGES_FOR_RECLAIM : spec_float := S754_finite false (5 * 2 ^ 50) (-51).
Definition quarter : spec_float := S754_finite false (2 ^ 52) (-54).
Definition MIN_PAGES_FOR_SOURCE : Z := 2.
Definition MAX_NUMBER_OF_SLAB_CLASSES : nat := 64.

(** ** State *)

Record window_data := mkWindow { age : Z; dirty : Z; evicted_ratio : spec_float; evicted_seen : Z }.
Definition zero_window : window_data := mkWindow 0 0 (S754_zero false) 0.

(** [item_stats_automove] and [slab_stats_automove] of a class. *)
Record item_stats_automove := mkIam { evicted : Z; outofmemory : Z; iam_age : Z }.
Record slab_stats_automove := mkSam { chunks_per_page : Z; free_chunks : Z; total_pages : Z }.

Record slab_automove := mkAutomove {
  windows : list window_data;
  window_size : Z;
  window_cur : Z;
  max_age_ratio : spec_float;
  iam_before : list item_stats_automove;
  sam_before : list slab_stats_automove
}.

Definition no_iam : item_stats_automove := mkIam 0 0 0.
Definition no_sam : slab_stats_automove := mkSam 0 0 0.
Definition iam_at (l : list item_stats_automove) (n : Z) : item_stats_automove := default no_iam (l !! Z.to_nat n).
Definition sam_at (l : list slab_stats_automove) (n : Z) : slab_stats_automove := default no_sam (l !! Z.to_nat n).

(** [mem] are the replies of calloc; the settings give the size of the window and the ratio. *)
Definition slab_automove_init (mem1 mem2 : bool) (size : Z) (ratio : spec_float) (iam : list item_stats_automove) (sam : list slab_stats_automove) : option slab_automove :=
  if negb mem1 then None
  else if negb mem2 then None
  else Some (mkAutomove (replicate (Z.to_nat (u32 (size * 64))) zero_window) size 0 ratio iam sam).

(** ** A run *)

Fixpoint window_sum (wd : list window_data) (w : window_data) : window_data :=
  match wd with
  | [] => w
  | d :: wd => window_sum wd (mkWindow (u64 (age w + age d)) (u64 (dirty w + dirty d)) (float_add (evicted_ratio w) (evicted_ratio d)) (u64 (evicted_seen w + evicted_seen d)))
  end.

Definition evicted_delta (before after : list item_stats_automove) (n : Z) : Z := u64 (evicted (iam_at after n) - evicted (iam_at before n)).

Definition evicted_total (before after : list item_stats_automove) : Z :=
  fold_left (fun t n => u64 (t + evicted_delta before after n)) (seqZ 1 63) 0.

(** The entry of this run in the window of class [n]. *)
Definition new_window (a : slab_automove) (iam : list item_stats_automove) (sam : list slab_stats_automove) (total n : Z) : window_data :=
  let delta := evicted_delta (iam_before a) iam n in
  let evicting := 0 <? delta in
  let is_dirty := evicting || (0 <? outofmemory (iam_at iam n) - outofmemory (iam_at (iam_before a) n))
                  || (0 <? total_pages (sam_at sam n) - total_pages (sam_at (sam_before a) n)) in
  mkWindow (iam_age (iam_at iam n)) (if is_dirty then 1 else 0) (if evicting then float_div (to_float delta) (to_float total) else S754_zero false) (if evicting then 1 else 0).

(** [a->sam_after[n].free_chunks > a->sam_after[n].chunks_per_page * MIN_PAGES_FOR_RECLAIM]. *)
Definition has_spare_pages (s : slab_stats_automove) : bool :=
  SFltb (double_mul (to_double (chunks_per_page s)) MIN_PAGES_FOR_RECLAIM) (to_double (free_chunks s)).

(** What the loop has found so far. *)
Record candidates := mkCand { oldest : Z; oldest_age : Z; youngest : Z; youngest_age : Z; youngest_evicting : bool }.

(** The body of the loop for class [n]: the windows, the candidates, and whether the loop ends here. *)
Definition automove_class (a : slab_automove) (iam : list item_stats_automove) (sam : list slab_stats_automove) (total cur n : Z)
    (ws : list window_data) (c : candidates) : outcome (list window_data * candidates * bool) :=
  if window_size a =? 0 then Ub else
  let w_offset := n * window_size a in
  let i := Z.to_nat (w_offset + cur mod window_size a) in
  if (i <? length ws)%nat then
    let ws := <[i := zero_window]> ws in
    let w_sum := window_sum (take (Z.to_nat (window_size a)) (drop (Z.to_nat w_offset) ws)) zero_window in
    let wd := new_window a iam sam total n in
    let ws := <[i := wd]> ws in
    let avg := age w_sum / window_size a in
    let s := sam_at sam n in
    if has_spare_pages s && (dirty w_sum =? 0) then Ret (ws, c, true) else
    let c := if (oldest_age c <? avg) && (MIN_PAGES_FOR_SOURCE <? total_pages s)
             then mkCand n avg (youngest c) (youngest_age c) (youngest_evicting c) else c in
    let c := if (avg <? youngest_age c) && ((window_size a / 2 <? evicted_seen w_sum) || SFltb quarter (float_div (evicted_ratio w_sum) (to_float (window_size a))))
             then mkCand (oldest c) (oldest_age c) n avg (negb (evicted_seen wd =? 0)) else c in
    Ret (ws, c, false)
  else Ub.

(** The loop; the class at which it has ended early, or -1. *)
Fixpoint automove_loop (a : slab_automove) (iam : list item_stats_automove) (sam : list slab_stats_automove) (total cur : Z) (ns : list Z)
    (ws : list window_data) (c : candidates) : outcome (list window_data * candidates * Z) :=
  match ns with
  | [] => Ret (ws, c, -1)
  | n :: ns =>
      '(ws, c, stop) ← automove_class a iam sam total cur n ws c;
      if (stop : bool) then Ret (ws, c, n) else automove_loop a iam sam total cur ns ws c
  end.

Definition slab_automove_run (a : slab_automove) (iam : list item_stats_automove) (sam : list slab_stats_automove) : outcome (Z * Z * slab_automove) :=
  let total := evicted_total (iam_before a) iam in
  let cur := u32 (window_cur a + 1) in
  '(ws, c, stop) ← automove_loop a iam sam total cur (seqZ 1 63) (windows a) (mkCand (-1) 0 (-1) (2 ^ 64 - 1) false);
  let '(src, dst) := if stop =? -1 then (-1, -1) else (stop, 0) in
  let a' := mkAutomove ws (window_size a) cur (max_age_ratio a) iam sam in
  if negb (youngest c =? -1) && negb (oldest c =? -1) && (window_size a <? cur)
     && SFltb (to_double (youngest_age c)) (double_mul (to_double (oldest_age c)) (max_age_ratio a)) && youngest_evicting c
  then Ret (oldest c, youngest c, a')
  else Ret (src, dst, a').

(** ** Decisions *)

Record automove_ok (a : slab_automove) : Prop := {
  ao_size : 1 <= window_size a < 2 ^ 25;
  ao_windows : length (windows a) = Z.to_nat (64 * window_size a);
  ao_cur : 0 <= window_cur a
}.

Lemma init_ok size ratio iam sam a : 1 <= size < 2 ^ 25 -> slab_automove_init true true size ratio iam sam = Some a -> automove_ok a.
Proof.
  intros Hs [= <-]. split; cbn [windows window_size window_cur]; [done| |done]. rewrite length_replicate.
  assert (u32 (size * 64) = 64 * size) as -> by (unfold u32; rewrite Z.mod_small; lia). done.
Qed.

(** The reasons for taking a page from a class or giving it one. *)
Definition class_number (n : Z) : Prop := 1 <= n < 64.

Record cand_ok (a : slab_automove) (iam : list item_stats_automove) (sam : list slab_stats_automove) (c : candidates) : Prop := {
  co_oldest : oldest c = -1 \/ (class_number (oldest c) /\ MIN_PAGES_FOR_SOURCE < total_pages (sam_at sam (oldest c)) /\ 0 < oldest_age c);
  co_oldest_age : 0 <= oldest_age c;
  co_youngest : youngest c = -1 \/ (class_number (youngest c) /\ (youngest_evicting c = true -> 0 < evicted_delta (iam_before a) iam (youngest c)))
}.

Lemma oldest_step a iam sam c n avg : class_number n -> cand_ok a iam sam c ->
  cand_ok a iam sam (if (oldest_age c <? avg) && (MIN_PAGES_FOR_SOURCE <? total_pages (sam_at sam n)) then mkCand n avg (youngest c) (youngest_age c) (youngest_evicting c) else c).
Proof.
  intros Hn C. destruct (Z.ltb_spec (oldest_age c) avg) as [Ha|]; cbn [andb]; [|done]. destruct (Z.ltb_spec MIN_PAGES_FOR_SOURCE (total_pages (sam_at sam n))) as [Hp|]; [|done].
  destruct C as [C1 C2 C3]. split; cbn [oldest oldest_age youngest youngest_evicting]; [right; split; [done|]; split; [done|lia]|lia|done].
Qed.

Lemma youngest_step a iam sam total c n avg (b : bool) : class_number n -> cand_ok a iam sam c ->
  cand_ok a iam sam (if b then mkCand (oldest c) (oldest_age c) n avg (negb (evicted_seen (new_window a iam sam total n) =? 0)) else c).
Proof.
  intros Hn C. destruct b; [|done]. destruct C as [C1 C2 C3]. split; cbn [oldest oldest_age youngest youngest_evicting]; [done|done|]. right. split; [done|].
  unfold new_window. cbn [evicted_seen]. destruct (Z.ltb_spec 0 (evicted_delta (iam_before a) iam n)); [done|discriminate].
Qed.

Lemma automove_class_ok a iam sam total cur n ws c : automove_ok a -> length ws = length (windows a) -> class_number n -> cand_ok a iam sam c ->
  exists ws' c' stop, automove_class a iam sam total cur n ws c = Ret (ws', c', stop) /\ length ws' = length ws /\ cand_ok a iam sam c' /\
    (stop = true -> has_spare_pages (sam_at sam n) = true).
Proof.
  intros [A1 A2 A3] Hl Hn C. unfold automove_class. rewrite (proj2 (Z.eqb_neq _ 0)) by lia.
  pose proof (Z.mod_pos_bound cur (window_size a)) as Hm. set (i := Z.to_nat (n * window_size a + cur mod window_size a)).
  assert (i < length ws)%nat as Hi by (unfold i; rewrite Hl, A2; unfold class_number in Hn; nia). rewrite (proj2 (Nat.ltb_lt _ _)) by done.
  set (w_sum := window_sum _ _). destruct (has_spare_pages (sam_at sam n) && (dirty w_sum =? 0)) eqn:Es.
  - apply andb_prop in Es as [Es _]. eexists _, c, true. split; [reflexivity|]. by rewrite !length_insert.
  - eexists _, _, false. split; [reflexivity|]. rewrite !length_insert. split; [done|]. split; [|done]. apply youngest_step; [done|]. by apply oldest_step.
Qed.

Lemma automove_loop_ok a iam sam total cur ns : forall ws c, automove_ok a -> length ws = length (windows a) -> Forall class_number ns -> cand_ok a iam sam c ->
  exists ws' c' stop, automove_loop a iam sam total cur ns ws c = Ret (ws', c', stop) /\ length ws' = length ws /\ cand_ok a iam sam c' /\
    (stop = -1 \/ (class_number stop /\ has_spare_pages (sam_at sam stop) = true)).
Proof.
  induction ns as [|n ns IH]; intros ws c A Hl Hns C; cbn [automove_loop]; [exists ws, c, (-1); by auto|]. apply Forall_cons in Hns as [Hn Hns].
  destruct (automove_class_ok a iam sam total cur n ws c A Hl Hn C) as (ws1 & c1 & stop & -> & L1 & C1 & S1). rewrite ret_bind. destruct stop.
  { exists ws1, c1, n. split; [done|]. split; [done|]. split; [done|]. right. split; [done|by apply S1]. }
  destruct (IH ws1 c1 A) as (ws2 & c2 & stop & E & L2 & C2 & S2); [congruence|done|done|]. exists ws2, c2, stop. split; [done|]. split; [congruence|done].
Qed.

(** Every run decides, within the arrays, and with reason: there is nothing to do; or a class that has more than
    two and a half pages of free chunks gives a page to the pool; or, once the window has filled, a
    class with more than two pages gives one to another that has evicted items since the last run and
    whose items are younger by the ratio. *)
Theorem automove_decides (a : slab_automove) (iam : list item_stats_automove) (sam : list slab_stats_automove) (A : automove_ok a) :
  exists src dst a', slab_automove_run a iam sam = Ret (src, dst, a') /\ automove_ok a' /\ iam_before a' = iam /\ sam_before a' = sam /\
    ((src = -1 /\ dst = -1) \/
     (class_number src /\ dst = 0 /\ has_spare_pages (sam_at sam src) = true) \/
     (class_number src /\ class_number dst /\ MIN_PAGES_FOR_SOURCE < total_pages (sam_at sam src) /\ 0 < evicted_delta (iam_before a) iam dst /\ window_size a < window_cur a' /\
      exists old young, 0 < old /\ SFltb (to_double young) (double_mul (to_double old) (max_age_ratio a)) = true)).
Proof.
  unfold slab_automove_run. set (cur := u32 (window_cur a + 1)). assert (0 <= cur) as Hcur by (unfold cur, u32; apply Z.mod_pos_bound; lia).
  destruct (automove_loop_ok a iam sam (evicted_total (iam_before a) iam) cur (seqZ 1 63) (windows a) (mkCand (-1) 0 (-1) (2 ^ 64 - 1) false) A eq_refl) as (ws & c & stop & -> & L & C & S).
  { apply Forall_seqZ. intros x Hx. unfold class_number. lia. } { split; [by left|cbn; lia|by left]. }
  rewrite ret_bind. assert (automove_ok (mkAutomove ws (window_size a) cur (max_age_ratio a) iam sam)) as A'.
  { destruct A as [A1 A2 A3]. split; cbn [windows window_size window_cur]; [done|congruence|done]. }
  assert (exists src dst, (if stop =? -1 then (-1, -1) else (stop, 0)) = (src, dst) /\
    ((src = -1 /\ dst = -1) \/ (class_number src /\ dst = 0 /\ has_spare_pages (sam_at sam src) = true))) as (src & dst & -> & Hsd).
  { destruct S as [->|[S1 S2]]; [by exists (-1), (-1); auto|]. rewrite (proj2 (Z.eqb_neq stop (-1))) by (unfold class_number in S1; lia). exists stop, 0. auto. }
  destruct (_ && youngest_evicting c) eqn:E; [|exists src, dst; eexists; split; [reflexivity|]; split; [done|]; split; [done|]; split; [done|]; tauto].
  apply andb_prop in E as [E E5]. apply andb_prop in E as [E E4]. apply andb_prop in E as [E E3]. apply andb_prop in E as [E1 E2].
  apply negb_true_iff, Z.eqb_neq in E1, E2. destruct C as [C1 _ C3]. destruct C1 as [C1|(P1 & P2 & P3)]; [done|]. destruct C3 as [C3|(Q1 & Q2)]; [done|].
  eexists _, _, _. split; [reflexivity|]. split; [done|]. split; [done|]. split; [done|]. right. right. split; [done|]. split; [done|]. split; [done|]. split; [by apply Q2|].
  split; [cbn [window_cur]; lia|]. by exists (oldest_age c), (youngest_age c).
Qed.

(** ** Samples *)

Definition quiet_sam (free : Z) : slab_stats_automove := mkSam 100 free 4.

(** A class that gives a page to the pool hides the evictions of the classes behind it: the figures of the
    last run are replaced for all of them, but their windows are not written. *)
Example evictions_lost : exists a a', slab_automove_init true true 3 (S754_finite false (2 ^ 52) (-53)) (replicate 64 no_iam) (replicate 64 (quiet_sam 0)) = Some a /\
  slab_automove_run a (replicate 2 no_iam ++ replicate 62 (mkIam 10 0 7)) (<[1%nat := quiet_sam 1000]> (replicate 64 (quiet_sam 0))) = Ret (1, 0, a') /\
  evicted_delta (iam_before a) (iam_before a') 2 = 10 /\ Forall (fun w => evicted_seen w = 0) (windows a').
Proof.
  eexists _, _. split; [reflexivity|]. split; [vm_compute; reflexivity|]. split; [vm_compute; reflexivity|]. apply (bool_decide_unpack _). vm_compute. exact I.
Qed.

Lemma automove_decides_witness : exists a src dst a', slab_automove_init true true 3 (S754_finite false (2 ^ 52) (-53)) (replicate 64 no_iam) (replicate 64 (quiet_sam 0)) = Some a /\
  slab_automove_run a (replicate 64 no_iam) (<[5%nat := quiet_sam 251]> (replicate 64 (quiet_sam 250))) = Ret (src, dst, a') /\ src = 5 /\ dst = 0 /\ automove_ok a'.
Proof.
  destruct (slab_automove_init true true 3 (S754_finite false (2 ^ 52) (-53)) (replicate 64 no_iam) (replicate 64 (quiet_sam 0))) as [a|] eqn:Ea; [|discriminate].
  destruct (automove_decides a (replicate 64 no_iam) (<[5%nat := quiet_sam 251]> (replicate 64 (quiet_sam 250)))) as (src & dst & a' & E & A' & _).
  - eapply init_ok; [|exact Ea]. lia.
  - exists a, src, dst, a'. split; [reflexivity|]. split; [exact E|].
    assert (match slab_automove_run a (replicate 64 no_iam) (<[5%nat := quiet_sam 251]> (replicate 64 (quiet_sam 250))) with Ret (x, y, _) => (x, y) | _ => (0, 0) end = (5, 0)) as Ec
      by (injection Ea as <-; vm_compute; reflexivity).
    rewrite E in Ec. injection Ec as -> ->. split; [reflexivity|]. split; [reflexivity|exact A'].
Defined.
