(* ===== verification/Maintainer.v ===== *)
(** * The LRU maintainer (src/memcached/items.c)

    A thread that goes over the slab classes again and again: it moves items between the LRUs of a
    class and drops expired ones ([lru_maintainer_juggle]), drains the queues of bumps, and decides
    once a second which LRUs the crawler is to visit.  Each class has its own pause, which grows while
    there is nothing to do.  The products of the age of the COLD LRU with the two floating-point
    factors of the settings are functions.  It also asks the slab automover (SlabAutomove) for a page to
    move; the call of [slabs_reassign] is a result, and moving the page is not modelled. *)

From S2P Require Import Prelude SlabAutomove Items ItemAlloc Bipbuffer Bumps Crawler.
From Stdlib Require Import SpecFloat.
Local Open Scope Z_scope.

Definition MAX_MAINTCRAWL_WAIT : Z := 60 * 60.
Definition MAX_LRU_MAINTAINER_SLEEP : Z := 1000000.
Definition MIN_LRU_MAINTAINER_SLEEP : Z := 1000.

Section Maintainer.
Context {T : Type} `{!ItemTable T} (hash : list Z -> Z) (cfg : settings).
Context (hot_age_of warm_age_of : Z -> Z).

(** ** Juggling *)

(** The reclaims from the TEMP LRU, of which [n] turns are left; [locks n] are the locks it gets. *)
Fixpoint pull_temp (locks : nat -> Z -> bool) (n : nat) (slabs_clsid did_moves : Z) (s : store T) : outcome (Z * store T) :=
  match n with
  | O => Ret (did_moves, s)
  | S n =>
      '(r, _, s) ← lru_pull_tail hash cfg (locks n) slabs_clsid TEMP_LRU 0 0 0 s;
      if r <=? 0 then Ret (did_moves, s) else pull_temp locks n slabs_clsid (did_moves + 1) s
  end.

(** Bytes of the three LRUs, and how old the last item of COLD is. *)
Definition juggle_sizes (slabs_clsid : Z) (s : store T) : outcome (Z * Z) :=
  let cold := Z.lor slabs_clsid COLD_LRU in
  cold_age ← match tails s !! cold with
             | Some p => it ← get_item p s; Ret (u32 (current_time cfg - it_time it))
             | None => Ret 0
             end;
  Ret (u64 (u64 (count_at (sizes_bytes s) cold + count_at (sizes_bytes s) (Z.lor slabs_clsid HOT_LRU))
            + count_at (sizes_bytes s) (Z.lor slabs_clsid WARM_LRU)), cold_age).

Fixpoint juggle_loop (locks : nat -> Z -> bool) (n : nat) (slabs_clsid total_bytes hot_age warm_age did_moves : Z) (s : store T) : outcome (Z * store T) :=
  match n with
  | O => Ret (did_moves, s)
  | S n =>
      '(hot, _, s) ← lru_pull_tail hash cfg (locks n) slabs_clsid HOT_LRU total_bytes LRU_PULL_CRAWL_BLOCKS hot_age s;
      '(do_more, s) ← (if negb (hot =? 0) then Ret (1, s) else
                        '(warm, _, s) ← lru_pull_tail hash cfg (locks n) slabs_clsid WARM_LRU total_bytes LRU_PULL_CRAWL_BLOCKS warm_age s;
                        Ret (if negb (warm =? 0) then 1 else 0, s));
      '(do_more, s) ← (if lru_segmented cfg then
                         '(cold, _, s) ← lru_pull_tail hash cfg (locks n) slabs_clsid COLD_LRU total_bytes LRU_PULL_CRAWL_BLOCKS 0 s;
                         Ret (do_more + cold, s)
                       else Ret (do_more, s));
      if do_more =? 0 then Ret (did_moves, s) else juggle_loop locks n slabs_clsid total_bytes hot_age warm_age (did_moves + 1) s
  end.

Definition lru_maintainer_juggle (locks : nat -> Z -> bool) (slabs_clsid : Z) (s : store T) : outcome (Z * store T) :=
  '(did_moves, s) ← (if temp_lru cfg then pull_temp locks 500 slabs_clsid 0 s else Ret (0, s));
  '(total_bytes, hot_age, warm_age) ← (if lru_segmented cfg then
                                          '(total_bytes, cold_age) ← juggle_sizes slabs_clsid s;
                                          Ret (total_bytes, hot_age_of cold_age, warm_age_of cold_age)
                                        else Ret (0, 0, 0));
  juggle_loop locks 500 slabs_clsid total_bytes hot_age warm_age did_moves s.

(** ** The pauses *)

Definition next_backoff (did_moves backoff : Z) : Z :=
  if did_moves =? 0 then
    let b := if negb (backoff =? 0) then u32 (backoff + backoff / 8) else MIN_LRU_MAINTAINER_SLEEP in
    if MAX_LRU_MAINTAINER_SLEEP <? b then MAX_LRU_MAINTAINER_SLEEP else b
  else if 0 <? backoff then
    let b := backoff / 2 in
    if b <? MIN_LRU_MAINTAINER_SLEEP then 0 else b
  else backoff.

(** The loop over the classes from [i] on; [classes] has [next_juggles] and [backoff_juggles] of each. *)
Fixpoint juggle_classes (locks : Z -> nat -> Z -> bool) (i : Z) (classes : list (Z * Z)) (last_sleep to_sleep : Z) (s : store T)
    : outcome (list (Z * Z) * Z * store T) :=
  match classes with
  | [] => Ret ([], to_sleep, s)
  | (next, backoff) :: classes =>
      let next := if last_sleep <? next then next - last_sleep else 0 in
      if 0 <? next then
        '(rest, sleep, s) ← juggle_classes locks (i + 1) classes last_sleep (if next <? to_sleep then next else to_sleep) s;
        Ret ((next, backoff) :: rest, sleep, s)
      else
        '(did_moves, s) ← lru_maintainer_juggle (locks i) i s;
        let backoff := next_backoff did_moves backoff in
        '(rest, sleep, s) ← juggle_classes locks (i + 1) classes last_sleep (if backoff <? to_sleep then backoff else to_sleep) s;
        Ret ((backoff, backoff) :: rest, sleep, s)
  end.

(** ** When to crawl *)

(** Of an LRU: when the crawler may come next, and how long it waits between runs. *)
Record crawl_plan := mkPlan { next_crawls : Z; next_crawl_wait : Z }.

(** The loop over the histogram, from minute [x] on: the wait and the reclaims counted. *)
Fixpoint adjust_wait (histo : list Z) (x : Z) (low_watermark available wait : Z) : Z * Z :=
  match histo with
  | [] => (wait, available)
  | h :: histo =>
      let available := u64 (available + h) in
      if low_watermark <? available then
        (if wait <? x * 60 then u32 (wait + 60) else if 60 <=? wait then wait - 60 else wait, available)
      else adjust_wait histo (x + 1) low_watermark available wait
  end.

(** A run over the LRU is complete: when the next one is due. *)
Definition plan_after (d : crawlerstats_t) (p : crawl_plan) : crawl_plan :=
  let possible_reclaims := u64 (seen d - noexp d) in
  let low_watermark := u64 (possible_reclaims / 100 + 1) in
  let '(wait, available) := adjust_wait (take 60 (histo d)) 0 low_watermark 0 (next_crawl_wait p) in
  let wait := if available =? 0 then u32 (wait + 60) else wait in
  let wait := if MAX_MAINTCRAWL_WAIT <? wait then MAX_MAINTCRAWL_WAIT else wait in
  mkPlan (u32 (current_time cfg + wait + 5)) wait.

Definition clear_complete (d : crawlerstats_t) : crawlerstats_t :=
  mkCrawlerstats (histo d) (ttl_hourplus d) (noexp d) (cs_reclaimed d) (seen d) (cs_start_time d) (cs_end_time d) false.

(** The loop over the LRUs: the LRUs to crawl, the largest number of their items, and the plans. *)
Fixpoint crawler_check_loop (ids : list Z) (stats : gmap Z crawlerstats_t) (plans : gmap Z crawl_plan) (tocrawl_limit : Z) (todo : list Z) (s : store T)
    : gmap Z crawlerstats_t * gmap Z crawl_plan * Z * list Z :=
  match ids with
  | [] => (stats, plans, tocrawl_limit, todo)
  | i :: ids =>
      let d := default (no_stats 0) (stats !! i) in
      let p := default (mkPlan 0 0) (plans !! i) in
      let '(stats, p) := if run_complete d then (<[i := clear_complete d]> stats, plan_after d p) else (stats, p) in
      if next_crawls p <? current_time cfg then
        let tocrawl_limit := Z.max tocrawl_limit (count_at (sizes s) i) in
        crawler_check_loop ids stats (<[i := mkPlan (u32 (current_time cfg + 5)) (next_crawl_wait p)]> plans) tocrawl_limit (todo ++ [i]) s
      else crawler_check_loop ids stats (<[i := p]> plans) tocrawl_limit todo s
  end.

(** What [lru_crawler_start] is called with, if at all; [tocrawl] is the setting [lru_crawler_tocrawl]. *)
Definition lru_maintainer_crawler_check (tocrawl : Z) (stats : gmap Z crawlerstats_t) (plans : gmap Z crawl_plan) (s : store T)
    : gmap Z crawlerstats_t * gmap Z crawl_plan * option (list Z * Z) :=
  let '(stats, plans, tocrawl_limit, todo) := crawler_check_loop (seqZ 1 (POWER_LARGEST - 1)) stats plans 0 [] s in
  (stats, plans, if (length todo =? 0)%nat then None
                 else Some (todo, if negb (tocrawl =? 0) && (tocrawl <? tocrawl_limit) then tocrawl else tocrawl_limit)).

(** ** A turn of the thread *)

Record maintainer := mkMaintainer {
  mt_classes : list (Z * Z);
  mt_to_sleep : Z;
  mt_bufs : list lru_bump_buf;
  mt_last_crawler_check : Z;
  mt_stats : gmap Z crawlerstats_t;
  mt_plans : gmap Z crawl_plan;
  mt_am : option slab_automove;
  mt_last_ratio : spec_float;
  mt_last_automove_check : Z
}.

(** What the automover is given: the settings, the replies of calloc when it starts anew, and the
    figures of the classes it then reads first and those it reads when it runs. *)
Record automove_env := mkAutomoveEnv {
  am_setting : Z;
  am_ratio : spec_float;
  am_window : Z;
  am_mem1 : bool;
  am_mem2 : bool;
  am_first : list item_stats_automove * list slab_stats_automove;
  am_now : list item_stats_automove * list slab_stats_automove
}.

(** A changed ratio makes the automover start anew; [free] and [run] read through the pointer that
    [init] has given. *)
Definition renew_automove (e : automove_env) (last_ratio : spec_float) (am : option slab_automove) : outcome (option slab_automove) :=
  if negb (SFeqb last_ratio (am_ratio e)) then
    match am with
    | None => Ub
    | Some _ => Ret (slab_automove_init (am_mem1 e) (am_mem2 e) (am_window e) (am_ratio e) (am_first e).1 (am_first e).2)
    end
  else Ret am.

(** The thread asks the automover once a second, and again at once after a page for the global pool:
    the state after it, how long to sleep, and what [slabs_reassign] is called with, if at all. *)
Definition automove_check (e : automove_env) (t : maintainer) : outcome (maintainer * option (Z * Z)) :=
  if (am_setting e =? 1) && negb (mt_last_automove_check t =? current_time cfg) then
    am ← renew_automove e (mt_last_ratio t) (mt_am t);
    match am with
    | None => Ub
    | Some a =>
        '(src, dst, a) ← slab_automove_run a (am_now e).1 (am_now e).2;
        let moved := if negb (src =? -1) && negb (dst =? -1) then Some (src, dst) else None in
        let last_automove_check := if negb (dst =? 0) then current_time cfg else mt_last_automove_check t in
        let to_sleep := if negb (dst =? 0) then mt_to_sleep t else 1000 in
        Ret (mkMaintainer (mt_classes t) to_sleep (mt_bufs t) (mt_last_crawler_check t) (mt_stats t) (mt_plans t) (Some a) (am_ratio e) last_automove_check, moved)
    end
  else Ret (t, None).

(** What the thread does after a pause, the crawl it asks for, and the page it asks to move. *)
Definition lru_maintainer_pass (locks : Z -> nat -> Z -> bool) (lru_crawler : bool) (tocrawl : Z) (e : automove_env) (t : maintainer) (s : store T)
    : outcome (maintainer * option (list Z * Z) * option (Z * Z) * store T) :=
  let last_sleep := if 1000 <? mt_to_sleep t then mt_to_sleep t else 1000 in
  '(classes, to_sleep, s) ← juggle_classes locks 1 (mt_classes t) last_sleep MAX_LRU_MAINTAINER_SLEEP s;
  '(bumped, bufs, s) ← (if lru_segmented cfg then lru_maintainer_bumps cfg (mt_bufs t) s else Ret (false, mt_bufs t, s));
  let to_sleep := if bumped && (1000 <? to_sleep) then 1000 else to_sleep in
  let '(check, stats, plans, crawl) :=
    if lru_crawler && negb (mt_last_crawler_check t =? current_time cfg) then
      let '(stats, plans, crawl) := lru_maintainer_crawler_check tocrawl (mt_stats t) (mt_plans t) s in (current_time cfg, stats, plans, crawl)
    else (mt_last_crawler_check t, mt_stats t, mt_plans t, None) in
  '(t, moved) ← automove_check e (mkMaintainer classes to_sleep bufs check stats plans (mt_am t) (mt_last_ratio t) (mt_last_automove_check t));
  Ret (t, crawl, moved, s).

(** The thread at its start. *)
Definition maintainer_init (bufs : list lru_bump_buf) (e : automove_env) : maintainer :=
  mkMaintainer (replicate 63 (0, 0)) MIN_LRU_MAINTAINER_SLEEP bufs 0 ∅ ∅
    (slab_automove_init (am_mem1 e) (am_mem2 e) (am_window e) (am_ratio e) (am_first e).1 (am_first e).2) (am_ratio e) 0.

End Maintainer.
