(* ===== verification/MaintainerFacts.v ===== *)
(** * The maintainer loses nothing that is alive, and never sleeps too long *)

From S2P Require Import Prelude SlabAutomove Items LruFacts ItemsFacts ItemAlloc ItemAllocFacts Bipbuffer Bumps BumpFacts Crawler Maintainer.
From Stdlib Require Import SpecFloat.
From S2P Require Import AssocFacts Assoc ItemTableAssoc Samples CrawlerFacts.
Local Open Scope Z_scope.

Section Maintainer.
Context {T : Type} {table_ops : ItemTable T} (hash : list Z -> Z) {table_laws : ItemTableLaws hash T} (cfg : settings).
Context (no_repair : tail_repair_time cfg = 0) (no_flush : oldest_live cfg = 0).
Context (hot_age_of warm_age_of : Z -> Z).
Implicit Types (s : store T) (m : gmap (list Z) positive) (refs : positive -> Z).

(** ** Live items stay *)





















(** ** The pauses *)




(** ** When to crawl *)



Hypothesis (Hnow : 0 <= current_time cfg < 2 ^ 32 - 4000).





(** ** A turn of the thread *)










End Maintainer.

(** ** Samples *)


