(* ===== verification/Client.v ===== *)
(** * The clients (src/src/client)

    load.c fills the server with random pairs and writes the keys to a file; multithread.c reads the
    keys, builds a get and a set request for each operation ahead of time, and sends them from its
    threads.  After every set, a thread gives up one of its encrypted virtual machines through the
    helper module, and makes new ones when all of them are used up.

    Memory from malloc holds [None] where nothing has been written.  The results of [rand] are a list;
    a result of [None] stands for a run that would need more of them.  The options come as getopt
    hands them out.  The firmware's replies are handles, given as a function of the number of guests
    launched so far; what a thread asks of kernel and firmware is a list of calls. *)

From S2P Require Import Prelude Util Conn.
From Stdlib Require Ascii String.
Import String.StringSyntax.

Local Open Scope string_scope.
Local Open Scope Z_scope.

(** ** Options (util.c) *)

Definition MAX_IP_ADDR : nat := 32.

Record Arg := mkArg {
  ipaddr : list Z;
  port_num : Z;
  num_threads : Z;
  max_key_size : Z;
  max_val_size : Z;
  run_inst_size : Z;
  get_ratio : Z
}.

(** glibc's [atoi] is [strtol] cut to an int. *)
Definition atoi (str : list Z) : Z := let '(n, _, _) := strtol 10 str in i32 n.

(** [memcpy(dst, src, strlen(src))] into an array. *)
Definition memcpy_string (dst src : list Z) : outcome (list Z) :=
  if (length src <=? length dst)%nat then Ret (src ++ drop (length src) dst) else Ub.

(** One option; [None] when the program exits. *)
Definition parse_one (opt : Z) (optarg : list Z) (a : Arg) : outcome (option Arg) :=
  let n := atoi optarg in
  if opt =? 104 then Ret None
  else if opt =? 105 then
    ip ← memcpy_string (ipaddr a) optarg;
    Ret (Some (mkArg ip (port_num a) (num_threads a) (max_key_size a) (max_val_size a) (run_inst_size a) (get_ratio a)))
  else if opt =? 112 then
    Ret (Some (mkArg (ipaddr a) n (num_threads a) (max_key_size a) (max_val_size a) (run_inst_size a) (get_ratio a)))
  else if opt =? 107 then
    Ret (Some (mkArg (ipaddr a) (port_num a) (num_threads a) n (max_val_size a) (run_inst_size a) (get_ratio a)))
  else if opt =? 118 then
    Ret (Some (mkArg (ipaddr a) (port_num a) (num_threads a) (max_key_size a) n (run_inst_size a) (get_ratio a)))
  else if opt =? 116 then
    Ret (Some (mkArg (ipaddr a) (port_num a) n (max_key_size a) (max_val_size a) (run_inst_size a) (get_ratio a)))
  else if opt =? 110 then
    Ret (Some (mkArg (ipaddr a) (port_num a) (num_threads a) (max_key_size a) (max_val_size a) n (get_ratio a)))
  else if opt =? 114 then
    Ret (Some (mkArg (ipaddr a) (port_num a) (num_threads a) (max_key_size a) (max_val_size a) (run_inst_size a) n))
  else Ret (Some a).

Fixpoint parse_opts (opts : list (Z * list Z)) (a : Arg) : outcome (option Arg) :=
  match opts with
  | [] => Ret (Some a)
  | (opt, optarg) :: opts =>
      r ← parse_one opt optarg a;
      match r with Some a => parse_opts opts a | None => Ret None end
  end.

Definition parse (argc : Z) (opts : list (Z * list Z)) (a : Arg) : outcome (option Arg) :=
  if argc =? 1 then Ret None else parse_opts opts a.

(** The defaults of multithread.c; load.c starts from zeros. *)
Definition configuration_init : Arg :=
  let ip := text "127.0.0.1" in
  mkArg (ip ++ replicate (MAX_IP_ADDR - length ip) 0) 11211 4 16 64 (-1) 100.
Definition load_arg : Arg := mkArg (replicate MAX_IP_ADDR 0) 0 0 0 0 0 0.

(** The string that [inet_addr(arg.ipaddr)] reads. *)
Definition server_address (a : Arg) : outcome (list Z) :=
  if bool_decide (0 ∈ ipaddr a) then Ret (take_while (fun c => negb (c =? 0)) (ipaddr a)) else Ub.

(** ** Buffers *)

Notation buffer := (list (option Z)).

(** malloc refuses what is a negative size as an int, and the first write through the null pointer is
    undefined. *)
Definition malloc_buf (n : Z) : outcome buffer := if n <? 0 then Ub else Ret (replicate (Z.to_nat n) None).

Definition poke (i c : Z) (b : buffer) : outcome buffer :=
  if (0 <=? i) && (i <? Z.of_nat (length b)) then Ret (<[Z.to_nat i := Some c]> b) else Ub.

Fixpoint poke_all (i : Z) (cs : list Z) (b : buffer) : outcome buffer :=
  match cs with
  | [] => Ret b
  | c :: cs => b ← poke i c b; poke_all (i + 1) cs b
  end.

(** [strncpy(dst, src, n)] *)
Fixpoint strncpy (n : nat) (src : buffer) : outcome (list Z) :=
  match n with
  | O => Ret []
  | S n' =>
      match src with
      | Some c :: src => if c =? 0 then Ret (replicate n 0) else l ← strncpy n' src; Ret (c :: l)
      | _ => Ub
      end
  end.

Definition BUF_SIZE : Z := 8192.

(** The bytes that are written to the socket: the request goes through the buffer [buf_in]. *)
Definition send_request (cmd : buffer) (len : Z) : outcome (list Z) :=
  if len <=? BUF_SIZE then strncpy (Z.to_nat len) cmd else Ub.

(** ** A set request with room for key and value *)

(** How many digits the size has; [None] is the value [digits] had before. *)
Definition count_digits (max_val_size : Z) : option Z :=
  if Z.quot max_val_size 100 =? 0 then Some 2
  else if Z.quot max_val_size 1000 =? 0 then Some 3
  else if Z.quot max_val_size 10000 =? 0 then Some 4
  else None.

Definition size_text (max_val_size : Z) : list Z :=
  if max_val_size =? 16 then text "16"
  else if max_val_size =? 64 then text "64"
  else if max_val_size =? 128 then text "128"
  else if max_val_size =? 256 then text "256"
  else if max_val_size =? 512 then text "512"
  else if max_val_size =? 1024 then text "1024"
  else if max_val_size =? 2048 then text "2048"
  else if max_val_size =? 4096 then text "4096"
  else [].

(** The sizes are taken to be small enough for the sum to be an int. *)
Definition cmd_len_of (a : Arg) (digits : Z) : Z := 13 + max_key_size a + digits + max_val_size a.

Definition set_template (a : Arg) (digits : Z) : outcome buffer :=
  let cmd_len := cmd_len_of a digits in
  b ← malloc_buf cmd_len;
  b ← poke_all 0 (text "set ") b;
  b ← poke_all 20 (text " 0 0 ") b;
  b ← poke_all 25 (size_text (max_val_size a)) b;
  b ← poke_all (25 + digits) crlf b;
  poke_all (cmd_len - 2) crlf b.

(** ** load.c *)

(** [rand() & 0x7f] until it lies between [lo] and [hi]. *)
Fixpoint draw (lo hi : Z) (rands : list Z) : option (Z * list Z) :=
  match rands with
  | [] => None
  | r :: rands =>
      let tmp := Z.land r 127 in
      if (tmp <? lo) || (hi <? tmp) then draw lo hi rands else Some (tmp, rands)
  end.

(** The loops that draw [n] characters and put them at [off], [off + 1], ... of the request. *)
Fixpoint draw_chars (n : nat) (lo hi off : Z) (b : buffer) (rands : list Z) : outcome (option (list Z * buffer * list Z)) :=
  match n with
  | O => Ret (Some ([], b, rands))
  | S n =>
      match draw lo hi rands with
      | None => Ret None
      | Some (tmp, rands) =>
          b ← poke off tmp b;
          r ← draw_chars n lo hi (off + 1) b rands;
          Ret (option_map (fun '(l, b, rands) => (tmp :: l, b, rands)) r)
      end
  end.

(** A turn of the loop that fills the server: the line for the file of keys, the bytes sent, and the
    request buffer for the next turn. *)
Definition load_pair (a : Arg) (digits : Z) (b : buffer) (rands : list Z) : outcome (option (list Z * list Z * buffer * list Z)) :=
  r ← draw_chars (Z.to_nat (max_key_size a)) 48 57 4 b rands;
  match r with
  | None => Ret None
  | Some (key, b, rands) =>
      r ← draw_chars (Z.to_nat (max_val_size a)) 33 126 (27 + digits) b rands;
      match r with
      | None => Ret None
      | Some (val, b, rands) =>
          sent ← send_request b (cmd_len_of a digits);
          Ret (Some (key ++ [10], sent, b, rands))
      end
  end.

(** The loop, [n] turns of it: the file of keys and the requests. *)
Fixpoint load_pairs (n : nat) (a : Arg) (digits : Z) (b : buffer) (rands : list Z) : outcome (option (list (list Z) * list (list Z))) :=
  match n with
  | O => Ret (Some ([], []))
  | S n =>
      r ← load_pair a digits b rands;
      match r with
      | None => Ret None
      | Some (line, sent, b, rands) =>
          r ← load_pairs n a digits b rands;
          Ret (option_map (fun '(lines, reqs) => (line :: lines, sent :: reqs)) r)
      end
  end.

Definition load (num_load : nat) (a : Arg) (rands : list Z) : outcome (option (list (list Z) * list (list Z))) :=
  digits ← deref (count_digits (max_val_size a));
  b ← set_template a digits;
  load_pairs num_load a digits b rands.

(** ** multithread.c: the requests *)

Definition get_template : outcome buffer :=
  b ← malloc_buf 22;
  b ← poke_all 0 (text "get ") b;
  poke_all 20 crlf b.

(** The loop of [gen_test] over the characters of a key, which writes key and value to the requests. *)
Fixpoint fill_requests (n : nat) (k digits : Z) (key val : list Z) (get set : buffer) : outcome (buffer * buffer) :=
  match n with
  | O => Ret (get, set)
  | S n =>
      c ← deref (key !! Z.to_nat k);
      get ← poke (k + 4) c get;
      set ← poke (k + 4) c set;
      v ← deref (val !! Z.to_nat k);
      set ← poke (k + digits + 27) v set;
      fill_requests n (k + 1) digits key val get set
  end.

(** The requests of one operation as [file_to_memory] prepares them. *)
Definition prepare_requests (a : Arg) (digits : Z) : outcome (buffer * buffer) :=
  set ← set_template a digits;
  get ← get_template;
  Ret (get, set).

(** What [gen_test] makes of them: [key] is the line of the file, [val] has [max_val_size] random
    characters. *)
Definition gen_test_one (a : Arg) (digits : Z) (key val : list Z) : outcome (buffer * buffer) :=
  '(get, set) ← prepare_requests a digits;
  fill_requests (Z.to_nat (max_key_size a)) 0 digits key val get set.

(** ** multithread.c: the virtual machines of a thread *)

Definition MAX_VM : Z := 32.

(** What is asked of the kernel and the firmware; [j] is the number of the machine in its thread. *)
Inductive sev_call :=
| CallDeactivate (handle : Z)
| CallWbinvd
| CallClose (fd : Z)
| CallInit (j : nat)
| CallLaunchStart (j : nat) (handle : Z)
| CallLaunchUpdate (j : nat) (len : Z)
| CallLaunchMeasure (j : nat) (len : Z)
| CallLaunchFinish (j : nat).

(** The machines of a thread: their handles and descriptors, the one to give up next, and the number of
    guests launched so far. *)
Record vm_pool := mkPool { handles : list Z; vcpufds : list Z; vm_count : Z; launched : nat }.

Section Machines.
(** The handle of the [n]-th guest, and what [sev_vm_init] returns for it, a variable nobody sets. *)
Context (new_handle indeterminate : nat -> Z).

(** [sev_vm_init] to [sev_vm_finish] for one machine. *)
Definition launch_calls (j : nat) (n : nat) : list sev_call :=
  [CallInit j; CallLaunchStart j (new_handle n); CallLaunchUpdate j 4096; CallLaunchMeasure j 48; CallLaunchFinish j].

Fixpoint relaunch (todo : nat) (j : nat) (p : vm_pool) : outcome (vm_pool * list sev_call) :=
  match todo with
  | O => Ret (p, [])
  | S todo =>
      old ← deref (vcpufds p !! j);
      let n := launched p in
      let p := mkPool (<[j := new_handle n]> (handles p)) (<[j := indeterminate n]> (vcpufds p)) (vm_count p) (S n) in
      '(p, calls) ← relaunch todo (S j) p;
      Ret (p, CallClose old :: launch_calls j n ++ calls)
  end.

(** What follows a set. *)
Definition give_up_vm (num_threads : Z) (p : vm_pool) : outcome (vm_pool * list sev_call) :=
  if num_threads =? 0 then Ub else
  let pool_size := Z.quot MAX_VM num_threads in
  h ← (if vm_count p <? 0 then Ub else deref (handles p !! Z.to_nat (vm_count p)));
  if vm_count p =? pool_size - 1 then
    '(p, calls) ← relaunch (Z.to_nat pool_size) 0 p;
    Ret (mkPool (handles p) (vcpufds p) 0 (launched p), CallDeactivate h :: CallWbinvd :: calls)
  else Ret (mkPool (handles p) (vcpufds p) (vm_count p + 1) (launched p), [CallDeactivate h]).

(** Why a thread ends: it is done, or a call has failed.  A failure to open a device ends the program. *)
Inductive worker_end := Finished | NotConnected | NoHelper | WriteFailed | ReadFailed | NoSevDevice.

(** An operation: the random number, the requests as [gen_test] has left them, and whether [write],
    [read] and the opening of the device succeed.  What [read] returns is not looked at. *)
Record operation := mkOperation { op_rand : Z; op_requests : buffer * buffer; op_write : bool; op_read : bool; op_sev : bool }.

(** The memory of a request: where nothing has been written it is what malloc has left there. *)
Fixpoint memory_of (leftover : list Z) (b : buffer) : buffer :=
  match b with
  | [] => []
  | c :: b => Some (default (default 0 (head leftover)) c) :: memory_of (tail leftover) b
  end.

(** A turn of the loop: [tmp = rand() % 100] decides which request is sent. *)
Definition client_step (a : Arg) (digits : Z) (leftover : list Z) (op : operation) (p : vm_pool) : outcome (list Z * vm_pool * list sev_call * option worker_end) :=
  let '(get, set) := op_requests op in
  let is_get := Z.rem (op_rand op) 100 <? get_ratio a in
  sent ← (if is_get then send_request (memory_of leftover get) 22 else send_request (memory_of leftover set) (cmd_len_of a digits));
  if negb (op_write op) then Ret (sent, p, [], Some WriteFailed) else
  if negb (op_read op) then Ret (sent, p, [], Some ReadFailed) else
  if is_get then Ret (sent, p, [], None) else
  if negb (op_sev op) then Ret (sent, p, [], Some NoSevDevice) else
  '(p, calls) ← give_up_vm (num_threads a) p;
  Ret (sent, p, calls, None).

(** The loop of a thread over its operations: the requests given to [write], the machines, the calls. *)
Fixpoint client_loop (a : Arg) (digits : Z) (leftover : list Z) (ops : list operation) (p : vm_pool) : outcome (list (list Z) * vm_pool * list sev_call * worker_end) :=
  match ops with
  | [] => Ret ([], p, [], Finished)
  | op :: ops =>
      '(sent, p, calls, stop) ← client_step a digits leftover op p;
      match stop with
      | Some r => Ret ([sent], p, calls, r)
      | None =>
          '(more, p, more_calls, r) ← client_loop a digits leftover ops p;
          Ret (sent :: more, p, calls ++ more_calls, r)
      end
  end.

Definition client_worker (a : Arg) (digits : Z) (leftover : list Z) (connected helper : bool) (ops : list operation) (p : vm_pool)
    : outcome (list (list Z) * vm_pool * list sev_call * worker_end) :=
  if negb connected then Ret ([], p, [], NotConnected) else
  if negb helper then Ret ([], p, [], NoHelper) else
  client_loop a digits leftover ops p.

(** The machines of a thread at the start ([vm_init]): the [j]-th one has been launched as the
    [first + j]-th guest. *)
Definition vm_init (num_threads : Z) (first : nat) : vm_pool :=
  let n := Z.to_nat (Z.quot MAX_VM num_threads) in
  mkPool (map new_handle (seq first n)) (map indeterminate (seq first n)) 0 (first + n).
Definition vm_init_calls (num_threads : Z) (first : nat) : list sev_call :=
  let n := Z.to_nat (Z.quot MAX_VM num_threads) in
  concat (map (fun j => take 2 (launch_calls j (first + j))) (seq 0 n)) ++ concat (map (fun j => drop 2 (launch_calls j (first + j))) (seq 0 n)).
End Machines.
