(* ===== verification/ClientFacts.v ===== *)
(** * What the clients send, and what becomes of their virtual machines

    The requests of load.c are the set commands they are meant to be, and the server reads from them
    the key, the length and the value; those of multithread.c are only for values of 16 bytes.  The
    calls of a thread respect the life cycle of an encrypted guest. *)

From S2P Require Import Prelude Util Store Conn ProtoText ProtoFacts Client.
From stdpp Require Import list.
From Stdlib Require Ascii String.
Import String.StringSyntax.

Local Open Scope string_scope.
Local Open Scope Z_scope.

(** ** Buffers *)

(** A buffer that has been written throughout. *)
Notation written l := (Some <$> (l : list Z)).

Lemma poke_middle (l : buffer) o (r : buffer) c i : i = Z.of_nat (length l) -> poke i c (l ++ o :: r) = Ret (l ++ Some c :: r).
Proof.
  intros ->. unfold poke. rewrite length_app. cbn [length]. rewrite (proj2 (Z.leb_le _ _)), (proj2 (Z.ltb_lt _ _)) by lia. cbn [andb].
  rewrite Nat2Z.id, insert_app_r_alt by lia. by rewrite Nat.sub_diag.
Qed.

Lemma strncpy_written l : Forall (fun c => c <> 0) l -> strncpy (length l) (written l) = Ret l.
Proof. induction 1 as [|c l Hc _ IH]; [done|]. cbn [length strncpy fmap list_fmap]. rewrite (proj2 (Z.eqb_neq c 0)), IH by done. done. Qed.

Lemma strncpy_unwritten l r n : Forall (fun c => c <> 0) l -> (length l < n)%nat -> strncpy n (written l ++ None :: r) = Ub.
Proof.
  intros H. revert n. induction H as [|c l Hc _ IH]; intros [|n] Hn; cbn [length] in Hn; try lia; [done|].
  cbn [strncpy fmap list_fmap app]. rewrite (proj2 (Z.eqb_neq c 0)), IH by (done || lia). done.
Qed.

Lemma send_written l n : Forall (fun c => c <> 0) l -> n = Z.of_nat (length l) -> n <= BUF_SIZE -> send_request (written l) n = Ret l.
Proof. intros Hl -> Hn. unfold send_request. rewrite (proj2 (Z.leb_le _ _)), Nat2Z.id by done. by apply strncpy_written. Qed.

(** ** Drawing characters *)

(** The random numbers that give a decimal digit, which serves for keys and for values. *)
Definition is_drawn (r : Z) : bool := (48 <=? Z.land r 127) && (Z.land r 127 <=? 57).
Definition supply (rands : list Z) : nat := length (filter (fun r => is_drawn r = true) rands).

Lemma draw_ok lo hi rands n : lo <= 48 -> 57 <= hi -> (n < supply rands)%nat ->
  exists tmp rands', draw lo hi rands = Some (tmp, rands') /\ lo <= tmp <= hi /\ (n <= supply rands')%nat.
Proof.
  intros Hlo Hhi. unfold supply. induction rands as [|r rands IH]; [cbn; lia|]. rewrite filter_cons. cbn [draw]. intros Hn.
  destruct ((Z.land r 127 <? lo) || (hi <? Z.land r 127)) eqn:E.
  - apply IH. rewrite decide_False in Hn; [done|]. unfold is_drawn. intros [H1 H2]%andb_prop. apply orb_prop in E as [E|E]; lia.
  - apply orb_false_iff in E as [E1 E2]. exists (Z.land r 127), rands. split; [done|]. split; [lia|]. destruct (decide _); cbn [length] in Hn; lia.
Qed.

Lemma draw_chars_ok lo hi n : forall (l old r : buffer) off rands m, lo <= 48 -> 57 <= hi -> off = Z.of_nat (length l) -> length old = n -> (m + n <= supply rands)%nat ->
  exists cs rands', draw_chars n lo hi off (l ++ old ++ r) rands = Ret (Some (cs, l ++ written cs ++ r, rands')) /\
    length cs = n /\ Forall (fun c => lo <= c <= hi) cs /\ (m <= supply rands')%nat.
Proof.
  induction n as [|n IH]; intros l old r off rands m Hlo Hhi Hoff Hold Hm; cbn [draw_chars].
  { destruct old; [|done]. exists [], rands. split; [done|]. split; [done|]. split; [constructor|lia]. }
  destruct old as [|o old]; [done|]. injection Hold as Hold. destruct (draw_ok lo hi rands (m + n) Hlo Hhi) as (tmp & rands1 & -> & Ht & Hm1); [lia|].
  cbn [app]. rewrite poke_middle, ret_bind by done.
  destruct (IH (l ++ [Some tmp]) old r (off + 1) rands1 m) as (cs & rands' & E & Hcs & Hr & Hm'); [done|done|rewrite length_app; cbn [length]; lia|done|lia|].
  rewrite <- app_assoc in E. cbn [app] in E. rewrite E, ret_bind. exists (tmp :: cs), rands'. cbn [option_map fmap list_fmap]. rewrite <- app_assoc.
  split; [done|]. split; [cbn; lia|]. by split; [constructor|].
Qed.

(** ** Requests *)

(** The sizes of values for which there is a text. *)
Definition value_sizes : list Z := [16; 64; 128; 256; 512; 1024; 2048; 4096].

Definition set_line (key : list Z) (v : Z) : list Z := text "set " ++ key ++ text " 0 0 " ++ size_text v.
Definition set_request (key val : list Z) (v : Z) : list Z := set_line key v ++ crlf ++ val ++ crlf.
Definition get_request (key : list Z) : list Z := text "get " ++ key ++ crlf.

Definition set_digits (v : Z) : Z := Z.of_nat (length (size_text v)).

(** The parts of a set request around the key and the value. *)
Definition set_middle (v : Z) : list Z := text " 0 0 " ++ size_text v ++ crlf.

Lemma set_request_parts key val v : set_request key val v = text "set " ++ key ++ set_middle v ++ val ++ crlf.
Proof. unfold set_request, set_line, set_middle. by rewrite <- !app_assoc. Qed.

Lemma template_ok a : max_key_size a = 16 -> max_val_size a ∈ value_sizes -> let v := max_val_size a in
  count_digits v = Some (set_digits v) /\
  set_template a (set_digits v) = Ret (written (text "set ") ++ replicate 16 None ++ written (set_middle v) ++ replicate (Z.to_nat v) None ++ written crlf).
Proof.
  intros Hk Hv. cbn zeta. unfold set_template, cmd_len_of. rewrite Hk. revert Hv. generalize (max_val_size a). intros v Hv. unfold value_sizes in Hv.
  repeat (apply elem_of_cons in Hv as [->|Hv]; [split; vm_compute; reflexivity|]). by apply elem_of_nil in Hv.
Qed.

(** A property of all characters of texts, keys and values. *)
Ltac string_chars :=
  rewrite !Forall_app; split_and!;
  first [eapply Forall_impl; [eassumption|]; cbn beta; intros; lia | apply (bool_decide_unpack _); vm_compute; exact I].

Lemma value_size_cases v (P : Z -> Prop) : v ∈ value_sizes -> Forall P value_sizes -> P v.
Proof. intros Hv H. induction H as [|x l Hx _ IH]; [by apply elem_of_nil in Hv|]. apply elem_of_cons in Hv as [->|Hv]; auto. Qed.

Lemma value_size_bounds v : v ∈ value_sizes -> 16 <= v <= 4096 /\ 2 <= set_digits v <= 4 /\ Forall (fun c => 48 <= c <= 57) (size_text v).
Proof.
  intros Hv. apply (value_size_cases v (fun v => 16 <= v <= 4096 /\ 2 <= set_digits v <= 4 /\ Forall (fun c => 48 <= c <= 57) (size_text v)) Hv).
  apply (bool_decide_unpack _). vm_compute. exact I.
Qed.

Definition is_key (key : list Z) : Prop := length key = 16%nat /\ Forall (fun c => 48 <= c <= 57) key.
Definition is_value (v : Z) (val : list Z) : Prop := length val = Z.to_nat v /\ Forall (fun c => 33 <= c <= 126) val.

Lemma set_middle_length v : length (set_middle v) = (7 + length (size_text v))%nat.
Proof. unfold set_middle. rewrite !length_app. change (length (text " 0 0 ")) with 5%nat. change (length crlf) with 2%nat. lia. Qed.

Lemma set_request_length key val v : is_key key -> is_value v val -> 0 <= v -> Z.of_nat (length (set_request key val v)) = 29 + set_digits v + v.
Proof.
  intros [Hk _] [Hv _] H0. rewrite set_request_parts, !length_app, set_middle_length, Hk, Hv. unfold set_digits. cbn. lia.
Qed.

Lemma set_request_string key val v : v ∈ value_sizes -> is_key key -> is_value v val -> Forall (fun c => c <> 0) (set_request key val v).
Proof.
  intros Hv [_ Fk] [_ Fv]. destruct (value_size_bounds v Hv) as (_ & _ & Fs). unfold set_request, set_line.
  string_chars.
Qed.

(** The request buffer of load.c, whatever key and value were in it last. *)
Definition load_buf (v : Z) (b : buffer) : Prop :=
  exists old_key old_val : buffer, length old_key = 16%nat /\ length old_val = Z.to_nat v /\ b = written (text "set ") ++ old_key ++ written (set_middle v) ++ old_val ++ written crlf.

Lemma load_pair_ok a b rands m : max_key_size a = 16 -> max_val_size a ∈ value_sizes -> let v := max_val_size a in
  load_buf v b -> (m + (16 + Z.to_nat v) <= supply rands)%nat ->
  exists key val b' rands', load_pair a (set_digits v) b rands = Ret (Some (key ++ [10], set_request key val v, b', rands')) /\
    is_key key /\ is_value v val /\ load_buf v b' /\ (m <= supply rands')%nat.
Proof.
  intros Ha Hv v (ok & ov & Lk & Lv & ->) Hm. destruct (value_size_bounds v Hv) as (Bv & Bd & _). unfold load_pair. rewrite Ha.
  destruct (draw_chars_ok 48 57 16 (written (text "set ")) ok (written (set_middle v) ++ ov ++ written crlf) 4 rands (m + Z.to_nat v)) as (key & rands1 & E1 & Lkey & Fkey & M1);
    [lia|lia|done|done|lia|]. change (Z.to_nat 16) with 16%nat. rewrite E1, ret_bind. fold v.
  replace (written (text "set ") ++ written key ++ written (set_middle v) ++ ov ++ written crlf) with (written (text "set " ++ key ++ set_middle v) ++ ov ++ written crlf)
    by (by rewrite !fmap_app, <- !app_assoc).
  destruct (draw_chars_ok 33 126 (Z.to_nat v) (written (text "set " ++ key ++ set_middle v)) ov (written crlf) (27 + set_digits v) rands1 m) as (val & rands2 & E2 & Lval & Fval & M2);
    [lia|lia|rewrite length_fmap, !length_app, set_middle_length, Lkey; unfold set_digits; cbn; lia|done|lia|]. rewrite E2, ret_bind.
  replace (written (text "set " ++ key ++ set_middle v) ++ written val ++ written crlf) with (written (set_request key val v)) by (by rewrite set_request_parts, !fmap_app, <- !app_assoc).
  assert (is_key key) as Kk by done. assert (is_value v val) as Kv by done.
  rewrite send_written, ret_bind; [|by apply set_request_string|rewrite set_request_length by (done || lia); unfold cmd_len_of; fold v; lia|unfold cmd_len_of, BUF_SIZE; fold v; lia].
  eexists key, val, _, rands2. split; [reflexivity|]. split; [done|]. split; [done|]. split; [|done].
  exists (written key), (written val). rewrite !length_fmap. split; [done|]. split; [done|]. by rewrite set_request_parts, !fmap_app.
Qed.

(** ** What the server reads *)

(** The server finds a set command for the key and a value of [v] bytes, and what follows the line is
    the value with its line end. *)
Definition server_reads (req key val : list Z) (v : Z) : Prop :=
  exists line, find_line req = LineRead line (val ++ crlf) /\ let ts := tokenize_command line MAX_TOKENS in
    classify ts = Ret (CmdUpdate NREAD_SET false) /\ ts !! 1%nat = Some (word_token key) /\ update_numbers ts = Ret (Some (0, 0, v)).

Lemma words_word w l : w <> [] -> Forall (fun c => c <> 32) w -> words (w ++ 32 :: l) = w :: words l.
Proof. intros Hw Fw. unfold words. rewrite words_from_app by done. cbn. by rewrite bool_decide_false. Qed.

Lemma words_last w : w <> [] -> Forall (fun c => c <> 32) w -> words w = [w].
Proof. intros Hw Fw. unfold words. rewrite <- (app_nil_r w) at 1. rewrite words_from_app by done. cbn. by rewrite bool_decide_false. Qed.

Lemma tokenize_words line ts : is_string line -> words line = ts -> (length ts < MAX_TOKENS - 1)%nat -> tokenize_command line MAX_TOKENS = map word_token ts ++ [mkToken None 0].
Proof.
  intros Hs <- Hl. destruct (tokenize_command_ok line MAX_TOKENS Hs) as (ts & rest & -> & Ht & W & Hr); [vm_compute; lia|]. rewrite W in *. destruct rest as [r|].
  - destruct Hr as (Hn & _). rewrite length_app in Hl. lia.
  - cbn [default]. change (words []) with (@nil (list Z)). by rewrite app_nil_r.
Qed.

Lemma set_request_read key val v : v ∈ value_sizes -> is_key key -> server_reads (set_request key val v) key val v.
Proof.
  intros Hv [Lk Fk]. destruct (value_size_bounds v Hv) as (Bv & Bd & Fs). exists (set_line key v).
  assert (Forall (fun c => c <> 0 /\ c <> 10) (set_line key v)) as Hl.
  { unfold set_line. string_chars. }
  assert (is_string (set_line key v)) as Hz by (eapply Forall_impl; [exact Hl|]; cbn beta; tauto).
  assert (words (set_line key v) = [text "set"; key; text "0"; text "0"; size_text v]) as W.
  { unfold set_line. change (text "set ") with (text "set" ++ [32]). change (text " 0 0 ") with (32 :: text "0" ++ [32] ++ text "0" ++ [32]). rewrite <- !app_assoc. cbn [app].
    rewrite words_word by (try done; repeat constructor; discriminate). rewrite words_word; [|by destruct key|eapply Forall_impl; [exact Fk|]; cbn beta; intros; lia].
    rewrite <- !app_assoc. cbn [app]. rewrite (words_word (text "0")) by (try done; repeat constructor; discriminate). rewrite <- app_assoc. cbn [app].
    rewrite (words_word (text "0")) by (try done; repeat constructor; discriminate).
    rewrite words_last; [done| |eapply Forall_impl; [exact Fs|]; cbn beta; intros; lia]. intros E. unfold set_digits in Bd. rewrite E in Bd. cbn in Bd. lia. }
  split.
  - unfold find_line. rewrite (proj2 (Nat.eqb_neq _ 0)) by (unfold set_request, set_line; rewrite !length_app; cbn; lia).
    unfold set_request. change (crlf ++ val ++ crlf) with ([13] ++ 10 :: val ++ crlf). rewrite app_assoc, split_line_app.
    + cbn [app]. f_equal. unfold chomp. rewrite length_app, (proj2 (Nat.ltb_lt _ _)) by (unfold set_line; rewrite !length_app; cbn; lia).
      rewrite last_snoc, bool_decide_true by done. cbn [andb]. rewrite removelast_last. by apply c_string_id.
    + apply Forall_app. split; [eapply Forall_impl; [exact Hl|]; cbn beta; tauto|]. by repeat constructor.
  - cbn zeta. rewrite (tokenize_words _ _ Hz W) by (cbn; lia). split; [done|]. split; [done|].
    clear - Hv. apply (value_size_cases v (fun v => update_numbers (map word_token [text "set"; key; text "0"; text "0"; size_text v] ++ [mkToken None 0]) = Ret (Some (0, 0, v))) Hv).
    repeat (constructor; [reflexivity|]). constructor.
Qed.

(** ** load.c *)

(** A line of the file of keys, and the request that was sent for it. *)
Definition pair_sent (v : Z) (line req : list Z) : Prop :=
  exists key val, line = key ++ [10] /\ is_key key /\ is_value v val /\ req = set_request key val v /\ server_reads req key val v.

Lemma load_pairs_ok a n : forall b rands, max_key_size a = 16 -> max_val_size a ∈ value_sizes -> let v := max_val_size a in
  load_buf v b -> (n * (16 + Z.to_nat v) <= supply rands)%nat ->
  exists lines reqs, load_pairs n a (set_digits v) b rands = Ret (Some (lines, reqs)) /\ length reqs = n /\ Forall2 (pair_sent v) lines reqs.
Proof.
  induction n as [|n IH]; intros b rands Ha Hv v Hb Hm; cbn [load_pairs].
  { exists [], []. split; [done|]. split; [done|constructor]. }
  destruct (load_pair_ok a b rands (n * (16 + Z.to_nat v)) Ha Hv Hb) as (key & val & b' & rands' & E & Kk & Kv & Hb' & Hm'); [fold v; lia|].
  fold v in E. rewrite E, ret_bind. destruct (IH b' rands' Ha Hv Hb' Hm') as (lines & reqs & E' & Hl & F). fold v in E'. rewrite E', ret_bind.
  exists ((key ++ [10]) :: lines), (set_request key val v :: reqs). split; [done|]. split; [cbn; lia|]. constructor; [|done].
  exists key, val. split; [done|]. split; [done|]. split; [done|]. split; [done|]. by apply set_request_read.
Qed.

(** C29: with keys of 16 bytes and values of one of the sizes it knows, load.c sends for every key it writes to
    the file one set request with that key and a value of that size, and the server reads exactly this
    command, key, length and value from it; it ends as soon as [rand] has given a digit often enough. *)
Theorem load_requests_correct (n : nat) (a : Arg) (rands : list Z) (Hkey : max_key_size a = 16) (Hval : max_val_size a ∈ value_sizes)
    (Hrand : (n * (16 + Z.to_nat (max_val_size a)) <= supply rands)%nat) :
  exists lines reqs, load n a rands = Ret (Some (lines, reqs)) /\ length reqs = n /\ Forall2 (pair_sent (max_val_size a)) lines reqs.
Proof.
  destruct (template_ok a Hkey Hval) as [Ed Et]. unfold load. rewrite Ed. cbn [deref]. rewrite ret_bind, Et, ret_bind.
  apply load_pairs_ok; [done|done| |done]. exists (replicate 16 None), (replicate (Z.to_nat (max_val_size a)) None). by rewrite !length_replicate.
Qed.

(** ** multithread.c: the requests *)

Lemma fill_requests_ok n : forall k digits key val gl (go gr : buffer) sl (so sm vo sr : buffer),
  (Z.to_nat k + n <= length key)%nat -> (Z.to_nat k + n <= length val)%nat -> 0 <= k ->
  length go = n -> length so = n -> length vo = n ->
  k + 4 = Z.of_nat (length (gl : buffer)) -> k + 4 = Z.of_nat (length (sl : buffer)) -> k + digits + 27 = Z.of_nat (length (sl ++ so ++ sm)) ->
  let ks := written (take n (drop (Z.to_nat k) key)) in let vs := written (take n (drop (Z.to_nat k) val)) in
  fill_requests n k digits key val (gl ++ go ++ gr) (sl ++ so ++ sm ++ vo ++ sr) = Ret (gl ++ ks ++ gr, sl ++ ks ++ sm ++ vs ++ sr).
Proof.
  induction n as [|n IH]; intros k digits key val gl go gr sl so sm vo sr Hk Hv H0 Lg Ls Lv Pg Ps Pv; cbn zeta.
  { destruct go, so, vo; try done. }
  destruct go as [|g go], so as [|o so], vo as [|u vo]; try done. injection Lg as Lg. injection Ls as Ls. injection Lv as Lv.
  cbn [fill_requests]. destruct (lookup_lt_is_Some_2 key (Z.to_nat k)) as [c Hc]; [lia|]. destruct (lookup_lt_is_Some_2 val (Z.to_nat k)) as [x Hx]; [lia|].
  rewrite Hc. cbn [deref]. rewrite ret_bind. cbn [app]. rewrite (poke_middle gl), ret_bind by done. rewrite (poke_middle sl), ret_bind by done. rewrite Hx. cbn [deref]. rewrite ret_bind.
  replace (sl ++ Some c :: so ++ sm ++ u :: vo ++ sr) with ((sl ++ Some c :: so ++ sm) ++ u :: vo ++ sr) by (rewrite <- !app_assoc; cbn [app]; by rewrite <- app_assoc).
  rewrite poke_middle, ret_bind by (rewrite Pv, !length_app; cbn [length]; rewrite length_app; lia).
  specialize (IH (k + 1) digits key val (gl ++ [Some c]) go gr (sl ++ [Some c]) so (sm ++ [Some x]) vo sr). cbn zeta in IH.
  replace (Z.to_nat (k + 1)) with (S (Z.to_nat k)) in IH by lia. rewrite (drop_S _ _ _ Hc), (drop_S _ _ _ Hx). cbn [take fmap list_fmap].
  rewrite <- !app_assoc in *. cbn [app] in *. rewrite <- ?app_assoc. rewrite IH; [done|lia|lia|lia|done|done|done|rewrite length_app; cbn [length]; lia|rewrite length_app; cbn [length]; lia|].
  rewrite !length_app in *. cbn [length] in *. rewrite ?length_app in *. cbn [length]. lia.
Qed.

(** The set request whose value has only been written as far as the key is long. *)
Definition short_request (key val : list Z) (v : Z) : buffer :=
  written (text "set " ++ key ++ set_middle v ++ take 16 val) ++ replicate (Z.to_nat v - 16) None ++ written crlf.

Lemma gen_test_ok a key val : max_key_size a = 16 -> max_val_size a ∈ value_sizes -> let v := max_val_size a in is_key key -> is_value v val -> forall tail,
  gen_test_one a (set_digits v) (key ++ tail) val = Ret (written (get_request key), short_request key val v).
Proof.
  intros Ha Hv v [Lk _] [Lv _] tail. destruct (value_size_bounds v Hv) as (Bv & _). unfold gen_test_one.
  assert (get_template = Ret (written (text "get ") ++ replicate 16 None ++ written crlf)) as Eg by (vm_compute; reflexivity).
  destruct (template_ok a Ha Hv) as [_ Et]. fold v in Et. unfold prepare_requests. rewrite Et, ret_bind, Eg, !ret_bind, Ha. change (Z.to_nat 16) with 16%nat.
  replace (Z.to_nat v) with (16 + (Z.to_nat v - 16))%nat by lia. rewrite replicate_add, <- (app_assoc (replicate 16 None)).
  rewrite fill_requests_ok; rewrite ?length_app, ?length_replicate, ?length_fmap, ?set_middle_length, ?Lk, ?Lv; try done; try (cbn; lia); cycle 1.
  { unfold set_digits. change (length (text "set ")) with 4%nat. lia. }
  change (Z.to_nat 0) with 0%nat. rewrite !drop_0, take_app_le, (take_ge key) by lia. unfold get_request, short_request. f_equal. rewrite !fmap_app, <- !app_assoc.
  by replace (16 + (Z.to_nat v - 16) - 16)%nat with (Z.to_nat v - 16)%nat by lia.
Qed.

(** C31: with keys of 16 bytes, the get requests of multithread.c name the key; its set requests are
    the commands they are meant to be for values of 16 bytes, but for every other size [gen_test]
    writes only the first 16 bytes of the value and the thread sends memory nobody has written. *)
Theorem worker_requests (a : Arg) (key val tail : list Z) (Hkey : max_key_size a = 16) (Hval : max_val_size a ∈ value_sizes)
    (Kkey : is_key key) (Kval : is_value (max_val_size a) val) :
  let v := max_val_size a in
  exists get set, gen_test_one a (set_digits v) (key ++ tail) val = Ret (get, set) /\ send_request get 22 = Ret (get_request key) /\
    send_request set (cmd_len_of a (set_digits v)) = (if v =? 16 then Ret (set_request key val v) else Ub).
Proof.
  intros v. exists (written (get_request key)), (short_request key val v). split; [by apply gen_test_ok|]. destruct Kkey as [Lk Fk]. destruct Kval as [Lv Fv]. fold v in Lv.
  destruct (value_size_bounds v Hval) as (Bv & Bd & Fs). split.
  - apply send_written; [unfold get_request; string_chars|unfold get_request; rewrite !length_app, Lk; done|done].
  - assert (Forall (fun c => c <> 0) (text "set " ++ key ++ set_middle v ++ take 16 val)) as Hz.
    { assert (Forall (fun c => 33 <= c <= 126) (take 16 val)) as Ft by (by apply Forall_take). unfold set_middle. string_chars. }
    unfold short_request. destruct (Z.eqb_spec v 16) as [Ev|Ev].
    + rewrite Ev in *. change (Z.to_nat 16 - 16)%nat with 0%nat. cbn [replicate app]. rewrite take_ge by (rewrite Lv; done).
      rewrite <- fmap_app. replace ((text "set " ++ key ++ set_middle 16 ++ val) ++ crlf) with (set_request key val 16) by (by rewrite set_request_parts, <- !app_assoc).
      assert (16 ∈ value_sizes) as H16 by (by left). assert (is_key key) as Kk by done. assert (is_value 16 val) as Kv by done.
      apply send_written; [by apply set_request_string|rewrite set_request_length by done; unfold cmd_len_of; fold v; rewrite Ev, Hkey; lia|].
      unfold cmd_len_of, BUF_SIZE. fold v. rewrite Ev, Hkey. vm_compute. discriminate.
    + unfold send_request, BUF_SIZE. rewrite (proj2 (Z.leb_le _ _)) by (unfold cmd_len_of; fold v; lia).
      destruct (Z.to_nat v - 16)%nat as [|n] eqn:En; [lia|]. cbn [replicate app]. apply strncpy_unwritten; [done|].
      rewrite !length_app, set_middle_length, length_take, Lk, Lv. unfold cmd_len_of. fold v. unfold set_digits in *. change (length (text "set ")) with 4%nat. lia.
Qed.

(** ** The life of a guest

    The firmware knows a guest from the start of its launch; a guest that has been deactivated leaves
    its memory key in the caches, and its machine may be set up again only after they are flushed. *)






Section Machines.
Context (new_handle indeterminate : nat -> Z).












(** *** Requests *)











(** With more than 32 threads a thread has no machine, and its first set reads outside its arrays. *)
Lemma too_many_threads (t : Z) first : MAX_VM < t -> give_up_vm new_handle indeterminate t (vm_init new_handle indeterminate t first) = Ub.
Proof.
  intros Ht. unfold give_up_vm, vm_init. rewrite (Z.quot_small MAX_VM t) by (unfold MAX_VM in *; lia). rewrite (proj2 (Z.eqb_neq t 0)) by (unfold MAX_VM in *; lia). done.
Qed.
End Machines.

(** ** The address of the server *)

(** The option [-i] copies its argument without the zero that ends it: an address that is shorter than the
    default keeps the end of the default. *)
Lemma short_address_keeps_tail (ip : list Z) : (length ip < 9)%nat -> Forall (fun c => c <> 0) ip ->
  exists a, parse 3 [(105, ip)] configuration_init = Ret (Some a) /\ server_address a = Ret (ip ++ drop (length ip) (text "127.0.0.1")).
Proof.
  intros Hl Hz. unfold parse. cbn [Z.eqb parse_opts]. unfold parse_one. cbn [Z.eqb]. unfold memcpy_string.
  rewrite (proj2 (Nat.leb_le _ _)) by (change (length (ipaddr configuration_init)) with 32%nat; lia). rewrite !ret_bind. eexists. split; [reflexivity|]. unfold server_address. cbn [ipaddr].
  change (ipaddr configuration_init) with (text "127.0.0.1" ++ replicate 23 0). rewrite drop_app_le by (change (length (text "127.0.0.1")) with 9%nat; lia).
  rewrite bool_decide_true by (rewrite !elem_of_app; right; right; by left).
  assert (Forall (fun c => c <> 0) (ip ++ drop (length ip) (text "127.0.0.1"))) as Hs.
  { apply Forall_app. split; [done|]. apply Forall_drop. apply (bool_decide_unpack _). vm_compute. exact I. }
  rewrite app_assoc. f_equal. induction Hs as [|c l Hc _ IH]; [done|]. cbn [app take_while]. rewrite (proj2 (Z.eqb_neq c 0)) by done. cbn [negb]. by rewrite IH.
Qed.

Example address_of_another_host : exists a, parse 3 [(105, text "10.0.0.2")] configuration_init = Ret (Some a) /\ server_address a = Ret (text "10.0.0.21").
Proof. eexists. split; [reflexivity|]. vm_compute. reflexivity. Qed.

(** ** Samples *)

Definition sample_arg (v : Z) : Arg := mkArg (ipaddr configuration_init) 11211 4 16 v 100 50.
Definition sample_key : list Z := text "0123456789012345".

Lemma load_requests_correct_witness : exists lines reqs, load 1 (sample_arg 64) (replicate 100 4147) = Ret (Some (lines, reqs)) /\
  Forall2 (pair_sent 64) lines reqs /\ reqs = [set_request (replicate 16 51) (replicate 64 51) 64].
Proof.
  destruct (load_requests_correct 1 (sample_arg 64) (replicate 100 4147)) as (lines & reqs & E & _ & F).
  - reflexivity.
  - right. left.
  - vm_compute. lia.
  - exists lines, reqs. split; [exact E|]. split; [exact F|].
    assert (load 1 (sample_arg 64) (replicate 100 4147) = Ret (Some ([replicate 16 51 ++ [10]], [set_request (replicate 16 51) (replicate 64 51) 64]))) as Ec by (vm_compute; reflexivity).
    rewrite Ec in E. congruence.
Defined.

Lemma worker_requests_witness : exists get set, gen_test_one (sample_arg 64) 2 (sample_key ++ text "x") (replicate 64 120) = Ret (get, set) /\
  send_request get 22 = Ret (text "get 0123456789012345" ++ crlf) /\ send_request set 95 = Ub.
Proof.
  destruct (worker_requests (sample_arg 64) sample_key (replicate 64 120) (text "x")) as (get & set & E & Eg & Es).
  - reflexivity.
  - right. left.
  - split; [reflexivity|]. apply (bool_decide_unpack _). vm_compute. exact I.
  - split; [reflexivity|]. apply (bool_decide_unpack _). vm_compute. exact I.
  - exists get, set. split; [exact E|]. split; [exact Eg|exact Es].
Defined.


