(* ===== verification/SevHelper.v ===== *)
(** * The helper module (src/src/module/sev_helper.c)

    A device whose ioctls pass requests on to the SEV firmware: an attestation report for a guest,
    deactivating a guest, and flushing the caches.  What the kernel and the firmware answer is given
    as a record of replies; memory from kmalloc that is not freed, file references that are not
    dropped, and what is copied to the caller are part of the state. *)

From S2P Require Import Prelude.
From stdpp Require Import list.
Local Open Scope Z_scope.

Definition EBADF : Z := 9.
Definition ENOMEM : Z := 12.
Definition EFAULT : Z := 14.
Definition EINVAL : Z := 22.

(** From linux/psp-sev.h. *)
Definition SEV_FW_BLOB_MAX_SIZE : Z := 16384.

(** ** State *)

(** What has been copied to the caller. *)
Inductive user_write :=
| WriteBlob (addr : Z) (bytes : list Z)
| WriteParams (len : Z)
| WriteCmd
| WriteValue (v : Z).

(** Commands the firmware was given. *)
Inductive fw_command :=
| FwAttest (handle : Z) (len : Z) (mnonce : list Z)
| FwDeactivate (handle : Z)
| FwDecommission (handle : Z)
| FwWbinvd
| FwDfFlush.

Record kernel := mkKernel { blobs : Z; file_refs : Z; user : list user_write; firmware : list fw_command; value : Z }.

Definition add_blobs (n : Z) (k : kernel) : kernel := mkKernel (blobs k + n) (file_refs k) (user k) (firmware k) (value k).
Definition add_file_ref (k : kernel) : kernel := mkKernel (blobs k) (file_refs k + 1) (user k) (firmware k) (value k).
Definition to_user (w : user_write) (k : kernel) : kernel := mkKernel (blobs k) (file_refs k) (user k ++ [w]) (firmware k) (value k).
Definition to_firmware (c : fw_command) (k : kernel) : kernel := mkKernel (blobs k) (file_refs k) (user k) (firmware k ++ [c]) (value k).
Definition set_value (v : Z) (k : kernel) : kernel := mkKernel (blobs k) (file_refs k) (user k) (firmware k) v.

(** ** Attestation *)

Record sev_helper_attestation_report := mkReport { rp_fd : Z; rp_handle : Z; rp_mnonce : list Z; rp_uaddr : Z; rp_len : Z }.

(** [params] is [None] when it cannot be read; kmalloc gives memory with arbitrary contents or
    nothing; the firmware writes its report to the beginning of the blob and sets [data.len]. *)
Record attest_env := mkAttestEnv {
  params : option sev_helper_attestation_report;
  kmalloc : option (list Z);
  fd_is_open : bool;
  fw_result : Z;
  fw_report : list Z;
  fw_len : Z;
  copy_blob_ok : bool;
  copy_params_ok : bool
}.

(** What is left to do once the command has been issued: the labels [done] and [e_free_blob]. *)
Definition attest_free (blob : option (list Z)) (ret : Z) (k : kernel) : Z * kernel :=
  (ret, if blob then add_blobs (-1) k else k).

Definition attest_done (e : attest_env) (len' : Z) (blob : option (list Z)) (ret : Z) (k : kernel) : Z * kernel :=
  if copy_params_ok e then attest_free blob ret (to_user (WriteParams len') k) else attest_free blob (- EFAULT) k.

(** From the label [cmd] on; [len] and [mnonce] are those of [data]. *)
Definition attest_cmd (e : attest_env) (p : sev_helper_attestation_report) (len : Z) (mnonce : list Z) (blob : option (list Z)) (k : kernel) : Z * kernel :=
  if negb (fd_is_open e) then (- EBADF, k) else
  let k := to_firmware (FwAttest (rp_handle p) len mnonce) (add_file_ref k) in
  let blob := option_map (fun b => fw_report e ++ drop (length (fw_report e)) b) blob in
  let ret := fw_result e in
  if rp_len p =? 0 then attest_done e (fw_len e) blob ret k
  else if negb (ret =? 0) then attest_free blob ret k
  else
    match blob with
    | Some b => if copy_blob_ok e then attest_done e (fw_len e) blob ret (to_user (WriteBlob (rp_uaddr p) b) k) else attest_done e (fw_len e) blob (- EFAULT) k
    | None => attest_done e (fw_len e) blob ret k
    end.

Definition sev_attest (e : attest_env) (k : kernel) : Z * kernel :=
  match params e with
  | None => (- EFAULT, k)
  | Some p =>
      if rp_len p =? 0 then attest_cmd e p 0 [] None k
      else if rp_uaddr p =? 0 then attest_cmd e p 0 [] None k
      else if SEV_FW_BLOB_MAX_SIZE <? rp_len p then (- EINVAL, k)
      else
        match kmalloc e with
        | None => (- ENOMEM, k)
        | Some b => attest_cmd e p (rp_len p) (rp_mnonce p) (Some b) (add_blobs 1 k)
        end
  end.

(** ** Deactivation *)

Definition sev_deactivate (handle : option Z) (k : kernel) : Z * kernel :=
  match handle with
  | None => (- EFAULT, k)
  | Some h => (0, to_firmware (FwDecommission h) (to_firmware (FwDeactivate h) k))
  end.

Definition sev_wbinvd (k : kernel) : kernel := to_firmware FwDfFlush (to_firmware FwWbinvd k).

(** ** The ioctl *)

Inductive ioctl_cmd := WR_VALUE | RD_VALUE | SEV_ATTEST | SEV_DEACTIVATE | SEV_WBINVD | OtherCmd.

Record ioctl_env := mkIoctlEnv {
  cmd_readable : bool;
  new_value : option Z;
  value_writable : bool;
  attest : attest_env;
  deactivate : option Z;
  cmd_writable : bool
}.

(** The result is undefined when [ret] is returned and nothing has been assigned to it. *)
Definition etx_ioctl (e : ioctl_env) (cmd : ioctl_cmd) (k : kernel) : outcome (Z * kernel) :=
  if negb (cmd_readable e) then Ret (- EFAULT, k) else
  let '(ret, k) :=
    match cmd with
    | WR_VALUE => (None, match new_value e with Some v => set_value v k | None => k end)
    | RD_VALUE => (None, if value_writable e then to_user (WriteValue (value k)) k else k)
    | SEV_ATTEST => let '(ret, k) := sev_attest (attest e) k in (Some ret, k)
    | SEV_DEACTIVATE => let '(ret, k) := sev_deactivate (deactivate e) k in (Some ret, k)
    | SEV_WBINVD => (None, sev_wbinvd k)
    | OtherCmd => (None, k)
    end in
  let '(ret, k) := if cmd_writable e then (ret, to_user WriteCmd k) else (Some (- EFAULT), k) in
  ret ← deref ret;
  Ret (ret, k).

(** ** Loading and unloading *)

(** What is registered with the kernel. *)
Record driver := mkDriver { dv_region : bool; dv_cdev : bool; dv_class : bool; dv_device : bool }.

Record init_env := mkInitEnv { region_ok : bool; cdev_ok : bool; class_ok : bool; device_ok : bool }.

(** The labels [r_class] and [r_device]. *)
Definition undo_region (d : driver) : driver := mkDriver false (dv_cdev d) (dv_class d) (dv_device d).
Definition undo_class (d : driver) : driver := mkDriver (dv_region d) (dv_cdev d) false (dv_device d).

Definition etx_driver_init (e : init_env) : Z * driver :=
  if negb (region_ok e) then (-1, mkDriver false false false false)
  else if negb (cdev_ok e) then (-1, undo_region (mkDriver true false false false))
  else if negb (class_ok e) then (-1, undo_region (mkDriver true true false false))
  else if negb (device_ok e) then (-1, undo_region (undo_class (mkDriver true true true false)))
  else (0, mkDriver true true true true).

Definition etx_driver_exit (d : driver) : driver := mkDriver false false false false.

(** ** What a request leaves behind *)

(** The requests that reach the firmware. *)
Definition issued (e : attest_env) : bool :=
  match params e with
  | None => false
  | Some p => ((rp_len p =? 0) || (rp_uaddr p =? 0) || ((rp_len p <=? SEV_FW_BLOB_MAX_SIZE) && bool_decide (is_Some (kmalloc e)))) && fd_is_open e
  end.

(** The requests for which memory is allocated. *)
Definition allocates (e : attest_env) : bool :=
  match params e with
  | None => false
  | Some p => negb (rp_len p =? 0) && negb (rp_uaddr p =? 0) && (rp_len p <=? SEV_FW_BLOB_MAX_SIZE) && bool_decide (is_Some (kmalloc e))
  end.

(** The three parts of the statement about leaks, once the path is known. *)
Ltac leaks := cbn; unfold EBADF, EFAULT, EINVAL, ENOMEM; split_and!; intros; split_and?; solve [lia | done].

(** The memory of an attestation request is released on every path but one, that of a file
    descriptor which is not open; and every request that reaches the firmware leaves a reference to
    the file behind, whatever the firmware answers. *)
Theorem attest_leaks (e : attest_env) (k : kernel) :
  blobs (sev_attest e k).2 = blobs k + (if allocates e && negb (fd_is_open e) then 1 else 0) /\
  file_refs (sev_attest e k).2 = file_refs k + (if issued e then 1 else 0) /\
  (issued e = false -> (sev_attest e k).1 < 0 /\ user (sev_attest e k).2 = user k).
Proof.
  unfold sev_attest, allocates, issued. destruct (params e) as [p|]; [|leaks].
  assert (forall len nonce blob k, let r := attest_cmd e p len nonce blob k in
    blobs r.2 = (if fd_is_open e then blobs k - (if blob then 1 else 0) else blobs k) /\ file_refs r.2 = file_refs k + (if fd_is_open e then 1 else 0) /\
    (fd_is_open e = false -> r.1 < 0 /\ user r.2 = user k)) as Hcmd.
  { intros len nonce blob k0. unfold attest_cmd. destruct (fd_is_open e); cbn [negb]; [|leaks].
    unfold attest_done, attest_free. destruct blob; cbn [option_map]; destruct (rp_len p =? 0), (fw_result e =? 0), (copy_blob_ok e), (copy_params_ok e); leaks. }
  destruct (rp_len p =? 0); cbn [negb orb andb].
  { specialize (Hcmd 0 [] None k). cbn zeta in Hcmd. destruct (fd_is_open e); cbn [negb andb] in *; destruct Hcmd as (H1 & H2 & H3); split_and!; try lia; done. }
  destruct (rp_uaddr p =? 0); cbn [negb orb andb].
  { specialize (Hcmd 0 [] None k). cbn zeta in Hcmd. destruct (fd_is_open e); cbn [negb andb] in *; destruct Hcmd as (H1 & H2 & H3); split_and!; try lia; done. }
  rewrite Z.leb_antisym. destruct (SEV_FW_BLOB_MAX_SIZE <? rp_len p); cbn [negb andb]; [leaks|].
  destruct (kmalloc e) as [b|]; [rewrite bool_decide_true by (by eexists)|rewrite bool_decide_false by (by intros []); leaks].
  specialize (Hcmd (rp_len p) (rp_mnonce p) (Some b) (add_blobs 1 k)). cbn zeta in Hcmd. cbn [blobs file_refs user add_blobs] in Hcmd.
  destruct (fd_is_open e); cbn [negb andb] in *; destruct Hcmd as (H1 & H2 & H3); split_and!; try lia; done.
Qed.

(** A report that is shorter than the caller's buffer is copied together with the memory behind it,
    which nobody has cleared. *)
Lemma attest_copies_stale_memory (e : attest_env) (k : kernel) p b : params e = Some p -> 0 < rp_len p <= SEV_FW_BLOB_MAX_SIZE -> rp_uaddr p <> 0 ->
  kmalloc e = Some b -> fd_is_open e = true -> fw_result e = 0 -> copy_blob_ok e = true ->
  WriteBlob (rp_uaddr p) (fw_report e ++ drop (length (fw_report e)) b) ∈ user (sev_attest e k).2.
Proof.
  intros Hp Hl Hu Hb Ho Hr Hc. unfold sev_attest, attest_cmd. rewrite Hp, Hb, Ho, Hr, Hc. rewrite (proj2 (Z.eqb_neq (rp_len p) 0)), (proj2 (Z.eqb_neq (rp_uaddr p) 0)) by lia.
  rewrite (proj2 (Z.ltb_ge _ _)) by lia. cbn [negb Z.eqb option_map]. unfold attest_done, attest_free. destruct (copy_params_ok e); cbn; rewrite ?elem_of_app; [left|]; rewrite ?elem_of_app; right; by left.
Qed.

(** Only attesting and deactivating give a result; the other requests return a variable that was
    never assigned, unless the request cannot be written back. *)
Lemma ioctl_result (e : ioctl_env) cmd k : cmd_readable e = true ->
  (exists ret k', etx_ioctl e cmd k = Ret (ret, k')) <-> cmd = SEV_ATTEST \/ cmd = SEV_DEACTIVATE \/ cmd_writable e = false.
Proof.
  intros Hr. unfold etx_ioctl. rewrite Hr. cbn [negb]. destruct cmd, (cmd_writable e); cbn; try (destruct (sev_attest _ _)); try (destruct (sev_deactivate _ _)); cbn; naive_solver.
Qed.

(** A failed load leaves the device registered when the class or the device node cannot be made. *)
Lemma failed_init_keeps_cdev (e : init_env) : (etx_driver_init e).1 <> 0 -> dv_cdev (etx_driver_init e).2 = region_ok e && cdev_ok e /\ dv_region (etx_driver_init e).2 = false.
Proof. unfold etx_driver_init. destruct (region_ok e), (cdev_ok e), (class_ok e), (device_ok e); cbn; done. Qed.

(** A request for a guest under a descriptor that is not open: the memory of the report is lost. *)
Lemma attest_leaks_witness : let e := mkAttestEnv (Some (mkReport 7 1 (replicate 16 0) 4096 256)) (Some (replicate 256 170)) false 0 [] 0 true true in
  blobs (sev_attest e (mkKernel 0 0 [] [] 0)).2 = 1 /\ (sev_attest e (mkKernel 0 0 [] [] 0)).1 < 0.
Proof.
  intros e. destruct (attest_leaks e (mkKernel 0 0 [] [] 0)) as (Hb & _ & Hi).
  split; [rewrite Hb; vm_compute; reflexivity|]. destruct Hi as [Hi _]; [vm_compute; reflexivity|exact Hi].
Defined.
