(* ===== verification/Workers.v ===== *)
(** * Handing connections to the workers (src/memcached/thread.c)

    The main thread accepts connections and puts each on the queue of a worker; side threads put
    connections back, and the worker is woken through a counter (an eventfd).  The worker reads the
    counter and takes as many items from its queue.  The queue operations hold the queue's lock and
    are atomic here, but putting an item on a queue and counting it are two steps, between which
    everybody else may go on: [step] interleaves them.  A worker that took the item [queue_stop] ends
    the run it is in and does not start another.  What a worker then does with an item is not part of
    this file: it is only recorded that it has taken it.  A worker that waits for [worker_hang_lock],
    after [queue_pause], is one that takes no step. *)

From S2P Require Import Prelude.
From stdpp Require Import list.
Local Open Scope Z_scope.

Inductive conn_queue_item_modes := queue_new_conn | queue_pause | queue_timeout | queue_redispatch | queue_stop | queue_return_io.

(** What a new connection is made with: the state and the transport by their numbers, the TLS object
    by its address. *)
Record conn_args := mkConnArgs { init_state : Z; event_flags : Z; read_buffer_size : Z; transport : Z; ssl : Z }.

(** An item; a field that the use at hand does not set is [None], the pending request stands for its
    address.  The field [c] of the source is never set, and the link is the list's. *)
Record CQ_ITEM := mkCqItem { mode : conn_queue_item_modes; sfd : option Z; args : option conn_args; io : option Z }.

Definition new_conn_item (fd : Z) (a : conn_args) : CQ_ITEM := mkCqItem queue_new_conn (Some fd) (Some a) None.
Definition fd_item (fd : Z) (m : conn_queue_item_modes) : CQ_ITEM := mkCqItem m (Some fd) None None.
Definition io_item (p : Z) : CQ_ITEM := mkCqItem queue_return_io None None (Some p).
Definition is_stop (x : CQ_ITEM) : bool := match mode x with queue_stop => true | _ => false end.

(** A worker: its queue, the counter, how many threads have put an item on the queue and not counted
    it yet, how many items the worker is still going to take in this run, what it has taken, whether
    its event loop ends after this run, and the id of the queue of the network card it serves. *)
Record worker := mkWorker {
  ev_queue : list CQ_ITEM;
  notify_count : Z;
  notifying : Z;
  ev_left : Z;
  taken : list CQ_ITEM;
  loopexit : bool;
  napi_id : Z
}.

Definition cq_init : list CQ_ITEM := [].
Definition new_worker : worker := mkWorker cq_init 0 0 0 [] false 0.

Definition cq_push (x : CQ_ITEM) (w : worker) : worker :=
  mkWorker (ev_queue w ++ [x]) (notify_count w) (notifying w) (ev_left w) (taken w) (loopexit w) (napi_id w).

Definition cq_pop (w : worker) : option CQ_ITEM * worker :=
  match ev_queue w with
  | [] => (None, w)
  | x :: q => (Some x, mkWorker q (notify_count w) (notifying w) (ev_left w) (taken w) (loopexit w) (napi_id w))
  end.

(** The two halves of [notify_worker].  When the write to the descriptor fails, [ok] is false: a message is
    printed, and the item stays on the queue uncounted. *)
Definition notify_push (x : CQ_ITEM) (w : worker) : worker :=
  let w := cq_push x w in mkWorker (ev_queue w) (notify_count w) (notifying w + 1) (ev_left w) (taken w) (loopexit w) (napi_id w).
Definition notify_write (ok : bool) (w : worker) : worker :=
  mkWorker (ev_queue w) (if ok then notify_count w + 1 else notify_count w) (notifying w - 1) (ev_left w) (taken w) (loopexit w) (napi_id w).

(** [thread_libevent_process]: reading the counter, which is then zero, and a turn of the loop. *)
Definition process_read (w : worker) : worker :=
  mkWorker (ev_queue w) 0 (notifying w) (notify_count w) (taken w) (loopexit w) (napi_id w).
Definition process_turn (w : worker) : worker :=
  match cq_pop w with
  | (None, w) => mkWorker (ev_queue w) (notify_count w) (notifying w) 0 (taken w) (loopexit w) (napi_id w)
  | (Some x, w) => mkWorker (ev_queue w) (notify_count w) (notifying w) (ev_left w - 1) (taken w ++ [x]) (loopexit w || is_stop x) (napi_id w)
  end.

(** The whole function, when nobody interrupts it. *)
Fixpoint process_loop (n : nat) (w : worker) : worker :=
  match n with
  | O => w
  | S n => if 0 <? ev_left w then process_loop n (process_turn w) else w
  end.
Definition thread_libevent_process (w : worker) : worker := process_loop (Z.to_nat (notify_count w)) (process_read w).

(** ** Choosing a worker *)

Record dispatcher := mkDispatcher { threads : list worker; last_thread : Z; last_thread_by_napi_id : Z }.

Definition set_napi (id : Z) (w : worker) : worker := mkWorker (ev_queue w) (notify_count w) (notifying w) (ev_left w) (taken w) (loopexit w) id.

Definition select_thread_round_robin (d : dispatcher) : outcome (Z * dispatcher) :=
  let n := Z.of_nat (length (threads d)) in
  if n =? 0 then Ub else
  let tid := Z.rem (last_thread d + 1) n in
  Ret (tid, mkDispatcher (threads d) tid (last_thread_by_napi_id d)).

Definition reset_threads_napi_id (d : dispatcher) : dispatcher :=
  mkDispatcher (map (set_napi 0) (threads d)) (last_thread d) (-1).

(** The loop after the label [select], from thread [i] on. *)
Fixpoint select_napi (napi : Z) (i : nat) (ws : list worker) (last : Z) : option (nat * bool) :=
  match ws with
  | [] => None
  | w :: ws =>
      if last <? Z.of_nat i then Some (i, true)
      else if napi_id w =? napi then Some (i, false)
      else select_napi napi (S i) ws last
  end.

Definition select_once (napi : Z) (d : dispatcher) : option (Z * dispatcher) :=
  match select_napi napi 0 (threads d) (last_thread_by_napi_id d) with
  | Some (i, true) => Some (Z.of_nat i, mkDispatcher (alter (set_napi napi) i (threads d)) (last_thread d) (Z.of_nat i))
  | Some (i, false) => Some (Z.of_nat i, d)
  | None => None
  end.

(** [None] is a socket without an id.  After a reset the first thread is free, so that the label is
    reached twice at most. *)
Definition select_thread_by_napi_id (napi : option Z) (d : dispatcher) : outcome (Z * dispatcher) :=
  match napi with
  | None => select_thread_round_robin d
  | Some id =>
      if id =? 0 then select_thread_round_robin d else
      match select_once id d with
      | Some r => Ret r
      | None => deref (select_once id (reset_threads_napi_id d))
      end
  end.

(** [dispatch_conn_new] up to the counting: [napi] is [None] when the setting is off, and [mem] tells
    whether there is memory for the item; without it the socket is closed. *)
Definition dispatch_conn_new (napi : option (option Z)) (mem : bool) (fd : Z) (a : conn_args) (d : dispatcher) : outcome (option Z * dispatcher) :=
  '(tid, d) ← match napi with None => select_thread_round_robin d | Some id => select_thread_by_napi_id id d end;
  if mem then
    Ret (Some tid, mkDispatcher (alter (notify_push (new_conn_item fd a)) (Z.to_nat tid) (threads d)) (last_thread d) (last_thread_by_napi_id d))
  else Ret (None, d).

(** The other ways to a queue: a connection goes back to its worker, which is also told of a timeout,
    of a pause and of the end; a pending request goes back, unless there is no memory for the item.
    [notify_worker_fd] tries until there is memory. *)
Definition notify_worker_fd (tid : nat) (fd : Z) (m : conn_queue_item_modes) (d : dispatcher) : dispatcher :=
  mkDispatcher (alter (notify_push (fd_item fd m)) tid (threads d)) (last_thread d) (last_thread_by_napi_id d).
Definition redispatch_conn (tid : nat) (fd : Z) : dispatcher -> dispatcher := notify_worker_fd tid fd queue_redispatch.
Definition timeout_conn (tid : nat) (fd : Z) : dispatcher -> dispatcher := notify_worker_fd tid fd queue_timeout.
Definition pause_thread (tid : nat) : dispatcher -> dispatcher := notify_worker_fd tid 0 queue_pause.
Definition stop_thread (tid : nat) : dispatcher -> dispatcher := notify_worker_fd tid 0 queue_stop.
Definition return_io_pending (mem : bool) (tid : nat) (p : Z) (d : dispatcher) : dispatcher :=
  if mem then mkDispatcher (alter (notify_push (io_item p)) tid (threads d)) (last_thread d) (last_thread_by_napi_id d) else d.

(** ** All threads together *)

Inductive action :=
| ADispatch (napi : option (option Z)) (mem : bool) (fd : Z) (a : conn_args)
| ARedispatch (tid : nat) (fd : Z)
| ATimeout (tid : nat) (fd : Z)
| APause (tid : nat)
| AStop (tid : nat)
| AReturnIo (mem : bool) (tid : nat) (p : Z)
| AWrite (tid : nat)
| ARead (tid : nat)
| ATurn (tid : nat).

Definition with_threads (ws : list worker) (d : dispatcher) : dispatcher := mkDispatcher ws (last_thread d) (last_thread_by_napi_id d).

(** A step of one of the threads. *)
Inductive step (d : dispatcher) : action -> dispatcher -> Prop :=
| step_dispatch napi mem fd a r d' : dispatch_conn_new napi mem fd a d = Ret (r, d') -> step d (ADispatch napi mem fd a) d'
| step_redispatch tid fd : (tid < length (threads d))%nat -> step d (ARedispatch tid fd) (redispatch_conn tid fd d)
| step_timeout tid fd : (tid < length (threads d))%nat -> step d (ATimeout tid fd) (timeout_conn tid fd d)
| step_pause tid : (tid < length (threads d))%nat -> step d (APause tid) (pause_thread tid d)
| step_stop tid : (tid < length (threads d))%nat -> step d (AStop tid) (stop_thread tid d)
| step_return_io mem tid p : (tid < length (threads d))%nat -> step d (AReturnIo mem tid p) (return_io_pending mem tid p d)
| step_write tid w : threads d !! tid = Some w -> 0 < notifying w -> step d (AWrite tid) (with_threads (<[tid := notify_write true w]> (threads d)) d)
| step_read tid w : threads d !! tid = Some w -> ev_left w = 0 -> loopexit w = false -> 0 < notify_count w -> step d (ARead tid) (with_threads (<[tid := process_read w]> (threads d)) d)
| step_turn tid w : threads d !! tid = Some w -> 0 < ev_left w -> step d (ATurn tid) (with_threads (<[tid := process_turn w]> (threads d)) d).

Inductive steps : dispatcher -> list action -> dispatcher -> Prop :=
| steps_nil d : steps d [] d
| steps_cons d1 a d2 l d3 : step d1 a d2 -> steps d2 l d3 -> steps d1 (a :: l) d3.

Definition thread_init (n : nat) : dispatcher := mkDispatcher (replicate n new_worker) (-1) (-1).

(** ** Choosing *)

Lemma round_robin_ok d : (0 < length (threads d))%nat -> -1 <= last_thread d ->
  exists tid, select_thread_round_robin d = Ret (tid, mkDispatcher (threads d) tid (last_thread_by_napi_id d)) /\
    tid = (last_thread d + 1) mod Z.of_nat (length (threads d)) /\ 0 <= tid < Z.of_nat (length (threads d)).
Proof.
  intros Hn Hl. unfold select_thread_round_robin. rewrite (proj2 (Z.eqb_neq _ 0)) by lia. eexists. split; [reflexivity|].
  rewrite Z.rem_mod_nonneg by lia. split; [done|]. apply Z.mod_pos_bound. lia.
Qed.

Lemma select_napi_range napi ws last : forall i j b, select_napi napi i ws last = Some (j, b) -> (i <= j < i + length ws)%nat.
Proof.
  induction ws as [|w ws IH]; intros i j b; cbn [select_napi length]; [done|]. destruct (last <? Z.of_nat i); [intros [= <- _]; lia|].
  destruct (napi_id w =? napi); [intros [= <- _]; lia|]. intros H. apply IH in H. lia.
Qed.

(** What choosing a worker changes: nothing but the ids of the workers. *)
Definition same_work (ws ws' : list worker) : Prop := map (set_napi 0) ws' = map (set_napi 0) ws.

Lemma set_napi_twice a b w : set_napi a (set_napi b w) = set_napi a w.
Proof. done. Qed.

Lemma same_work_alter napi i ws : same_work ws (alter (set_napi napi) i ws).
Proof. unfold same_work. revert i. induction ws as [|w ws IH]; intros [|i]; cbn; try done. f_equal. apply IH. Qed.

Lemma same_work_reset ws : same_work ws (map (set_napi 0) ws).
Proof. unfold same_work. rewrite map_map. apply map_ext. done. Qed.

Lemma same_work_length ws ws' : same_work ws ws' -> length ws' = length ws.
Proof. intros H. apply (f_equal length) in H. by rewrite !length_map in H. Qed.

Definition well_formed (d : dispatcher) : Prop := (0 < length (threads d))%nat /\ -1 <= last_thread d.

Lemma select_once_ok napi d tid d' : select_once napi d = Some (tid, d') -> 0 <= tid < Z.of_nat (length (threads d)) /\ same_work (threads d) (threads d') /\ last_thread d' = last_thread d.
Proof.
  unfold select_once. destruct (select_napi _ _ _ _) as [[i []]|] eqn:E; [..|done]; intros [= <- <-]; apply select_napi_range in E; (split; [lia|]); split; try done.
  apply same_work_alter.
Qed.

Lemma select_ok napi d : well_formed d ->
  exists tid d', (match napi with None => select_thread_round_robin d | Some id => select_thread_by_napi_id id d end) = Ret (tid, d') /\
    0 <= tid < Z.of_nat (length (threads d)) /\ same_work (threads d) (threads d') /\ well_formed d'.
Proof.
  intros [Hn Hl]. destruct (round_robin_ok d Hn Hl) as (rr & Err & _ & Hrr).
  assert (exists tid d', select_thread_round_robin d = Ret (tid, d') /\ 0 <= tid < Z.of_nat (length (threads d)) /\ same_work (threads d) (threads d') /\ well_formed d') as HR.
  { eexists rr, _. split; [exact Err|]. split; [done|]. split; [done|]. split; cbn; lia. }
  destruct napi as [[id|]|]; [|done..]. unfold select_thread_by_napi_id. destruct (id =? 0); [done|].
  destruct (select_once id d) as [[tid d']|] eqn:E.
  { destruct (select_once_ok _ _ _ _ E) as (H1 & H2 & H3). exists tid, d'. split; [done|]. split; [done|]. split; [done|]. split; [by rewrite (same_work_length _ _ H2)|by rewrite H3]. }
  destruct (select_once id (reset_threads_napi_id d)) as [[tid d']|] eqn:E2.
  { destruct (select_once_ok _ _ _ _ E2) as (H1 & H2 & H3). cbn in H1, H2, H3. rewrite length_map in H1. exists tid, d'. split; [done|]. split; [done|].
    assert (same_work (threads d) (threads d')) as H4 by (unfold same_work in *; rewrite H2; apply same_work_reset). split; [done|]. split; [by rewrite (same_work_length _ _ H4)|by rewrite H3]. }
  exfalso. unfold select_once, reset_threads_napi_id in E2. cbn in E2. destruct (threads d); [cbn in Hn; lia|done].
Qed.

(** ** No item is lost, and nobody sleeps through one *)

(** An item on the queue is counted, about to be counted, or about to be taken. *)
Record worker_ok (w : worker) : Prop := {
  wk_count : 0 <= notify_count w;
  wk_notifying : 0 <= notifying w;
  wk_left : 0 <= ev_left w;
  wk_awake : Z.of_nat (length (ev_queue w)) <= notify_count w + notifying w + ev_left w;
  wk_stop : loopexit w = existsb is_stop (taken w)
}.

(** All items a worker was ever given. *)
Definition given (w : worker) : list CQ_ITEM := taken w ++ ev_queue w.

(** The items that were put on queues: each is with one worker, and each worker has its items in the
    order in which they came. *)
Record delivered (items : list CQ_ITEM) (ws : list worker) : Prop := {
  de_ok : Forall worker_ok ws;
  de_order : Forall (fun w => given w `sublist_of` items) ws;
  de_once : concat (map given ws) ≡ₚ items
}.

Lemma focus {A} (l : list A) i x : l !! i = Some x -> exists a b, l = a ++ x :: b /\ i = length a /\ (forall f, alter f i l = a ++ f x :: b) /\ (forall y, <[i := y]> l = a ++ y :: b).
Proof.
  intros H. exists (take i l), (drop (S i) l). pose proof (lookup_lt_Some _ _ _ H) as Hi. assert (i = length (take i l)) as Ei by (rewrite length_take; lia).
  pose proof (take_drop_middle l i x H) as E. split; [done|]. split; [done|]. split.
  - intros f. rewrite <- E at 1. rewrite Ei at 1. rewrite <- (Nat.add_0_r (length (take i l))). by rewrite alter_app_r.
  - intros y. rewrite <- E at 1. rewrite Ei at 1. rewrite insert_app_r_alt by lia. by rewrite Nat.sub_diag.
Qed.

Lemma delivered_push items ws tid x : delivered items ws -> (tid < length ws)%nat -> delivered (items ++ [x]) (alter (notify_push x) tid ws).
Proof.
  intros [D1 D2 D3] Ht. destruct (lookup_lt_is_Some_2 ws tid Ht) as [w Hw]. destruct (focus _ _ _ Hw) as (a & b & -> & _ & Ea & _). rewrite Ea.
  apply Forall_app in D1 as [A1 [W1 B1]%Forall_cons]. apply Forall_app in D2 as [A2 [W2 B2]%Forall_cons].
  assert (given (notify_push x w) = given w ++ [x]) as Eg by (unfold given; cbn; by rewrite app_assoc).
  assert (forall l, l `sublist_of` items -> l `sublist_of` items ++ [x]) as Hw2 by (intros l H; by apply sublist_inserts_r).
  split.
  - apply Forall_app. split; [done|]. constructor; [|done]. destruct W1 as [H1 H2 H3 H4 H5]. split; cbn; [lia..| |done]. rewrite length_app. cbn. lia.
  - apply Forall_app. split; [eapply Forall_impl; [exact A2|]; intros; by apply Hw2|]. constructor; [|eapply Forall_impl; [exact B2|]; intros; by apply Hw2]. rewrite Eg. by apply sublist_app.
  - rewrite map_app, concat_app in *. cbn [map concat] in *. rewrite Eg, <- D3, <- !app_assoc. f_equiv. f_equiv. apply Permutation_app_comm.
Qed.

Lemma delivered_update items ws tid w w' : delivered items ws -> ws !! tid = Some w -> worker_ok w' -> given w' = given w -> delivered items (<[tid := w']> ws).
Proof.
  intros [D1 D2 D3] Hw Hok Hg. destruct (focus _ _ _ Hw) as (a & b & -> & _ & _ & Ea). rewrite Ea.
  apply Forall_app in D1 as [A1 [_ B1]%Forall_cons]. apply Forall_app in D2 as [A2 [W2 B2]%Forall_cons]. split.
  - apply Forall_app. split; [done|]. by constructor.
  - apply Forall_app. split; [done|]. constructor; [by rewrite Hg|done].
  - rewrite map_app, concat_app in *. cbn [map concat] in *. by rewrite Hg.
Qed.

Lemma delivered_same items ws ws' : same_work ws ws' -> delivered items ws -> delivered items ws'.
Proof.
  unfold same_work. intros E [D1 D2 D3].
  assert (forall P : worker -> Prop, (forall w, P (set_napi 0 w) <-> P w) -> Forall P ws -> Forall P ws') as HP.
  { intros P H F. assert (Forall P (map (set_napi 0) ws')) as F' by (rewrite E; apply Forall_map; eapply Forall_impl; [exact F|]; intros w Hw; by apply H).
    rewrite Forall_map in F'. eapply Forall_impl; [exact F'|]. intros w Hw. by apply H. }
  split; [apply HP; [|done]|apply HP; [|done]|].
  - intros w. split; intros [H1 H2 H3 H4 H5]; by split.
  - done.
  - assert (map given ws' = map given ws) as ->; [|done]. apply (f_equal (map given)) in E. rewrite !map_map in E. exact E.
Qed.

(** *** What each step does *)

Definition items_of (a : action) : list CQ_ITEM :=
  match a with
  | ADispatch _ true fd a => [new_conn_item fd a]
  | ARedispatch _ fd => [fd_item fd queue_redispatch]
  | ATimeout _ fd => [fd_item fd queue_timeout]
  | APause _ => [fd_item 0 queue_pause]
  | AStop _ => [fd_item 0 queue_stop]
  | AReturnIo true _ p => [io_item p]
  | _ => []
  end.

Lemma turn_ok w : worker_ok w -> 0 < ev_left w -> worker_ok (process_turn w) /\ given (process_turn w) = given w.
Proof.
  intros [H1 H2 H3 H4 H5] Hl. unfold process_turn, cq_pop, given. destruct (ev_queue w) as [|x q] eqn:E; cbn.
  - rewrite E in *. cbn in H4. split; [split; cbn; rewrite ?E; cbn; lia || done|done].
  - cbn in H4. split; [split; cbn; [lia..|]|by rewrite <- app_assoc]. rewrite existsb_app, H5. cbn. by rewrite orb_false_r.
Qed.

(** When nobody interrupts it, a run takes as many items as were counted, or all there are. *)
Lemma process_loop_takes n : forall w, ev_left w = Z.of_nat n ->
  taken (process_loop n w) = taken w ++ take n (ev_queue w) /\ ev_queue (process_loop n w) = drop n (ev_queue w) /\ ev_left (process_loop n w) = 0.
Proof.
  induction n as [|n IH]; intros w Hl; cbn [process_loop]; [rewrite take_0, app_nil_r; done|]. rewrite Hl, (proj2 (Z.ltb_lt _ _)) by lia.
  unfold process_turn, cq_pop. destruct (ev_queue w) as [|x q] eqn:E.
  - destruct n; cbn [process_loop ev_left ev_queue taken]; rewrite ?E, ?app_nil_r; done.
  - destruct (IH (mkWorker q (notify_count w) (notifying w) (ev_left w - 1) (taken w ++ [x]) (loopexit w || is_stop x) (napi_id w))) as (H1 & H2 & H3); [cbn; lia|].
    cbn [ev_queue notify_count notifying ev_left taken loopexit napi_id] in *. rewrite H1, H2, H3. cbn. by rewrite <- app_assoc.
Qed.

Lemma process_takes w : 0 <= notify_count w ->
  let n := Z.to_nat (notify_count w) in let w' := thread_libevent_process w in
  taken w' = taken w ++ take n (ev_queue w) /\ ev_queue w' = drop n (ev_queue w) /\ ev_left w' = 0.
Proof. intros H. apply (process_loop_takes (Z.to_nat (notify_count w)) (process_read w)). cbn. lia. Qed.

(** What a step that puts [xs] on queues, and one of a single worker, must keep. *)
Definition keeps (items : list CQ_ITEM) (d : dispatcher) (xs : list CQ_ITEM) (d' : dispatcher) : Prop :=
  well_formed d' /\ length (threads d') = length (threads d) /\ delivered (items ++ xs) (threads d').

Lemma keeps_push items d x tid : well_formed d -> delivered items (threads d) -> (tid < length (threads d))%nat ->
  keeps items d [x] (mkDispatcher (alter (notify_push x) tid (threads d)) (last_thread d) (last_thread_by_napi_id d)).
Proof.
  intros [Hw1 Hw2] D Ht. unfold keeps, well_formed. cbn. rewrite length_alter. split; [done|]. split; [done|]. by apply delivered_push.
Qed.

Lemma keeps_worker items d tid w w' : well_formed d -> delivered items (threads d) -> threads d !! tid = Some w -> worker_ok w' -> given w' = given w ->
  keeps items d [] (with_threads (<[tid := w']> (threads d)) d).
Proof.
  intros [Hw1 Hw2] D Et H1 H2. unfold keeps, well_formed. rewrite app_nil_r. cbn. rewrite length_insert. split; [done|]. split; [done|]. by eapply delivered_update.
Qed.

Lemma step_delivers items d a d' : well_formed d -> delivered items (threads d) -> step d a d' -> keeps items d (items_of a) d'.
Proof.
  intros Hw D S. assert (forall tid w, threads d !! tid = Some w -> worker_ok w) as Hok by (intros tid w Et; exact (Forall_lookup_1 _ _ _ _ (de_ok _ _ D) Et)).
  destruct S as [napi mem fd a r d' E|tid fd Ht|tid fd Ht|tid Ht|tid Ht|mem tid p Ht|tid w Et Hn|tid w Et Hl Hx Hn|tid w Et Hl].
  - unfold dispatch_conn_new in E. destruct (select_ok napi d Hw) as (tid & d1 & E1 & Ht & Hs & Hw1). rewrite E1, ret_bind in E.
    pose proof (same_work_length _ _ Hs) as Hlen. pose proof (delivered_same _ _ _ Hs D) as D1. destruct mem; injection E as _ <-; cbn [items_of].
    + unfold keeps. rewrite <- Hlen. apply keeps_push; [done|done|lia].
    + unfold keeps. by rewrite app_nil_r.
  - by apply keeps_push.
  - by apply keeps_push.
  - by apply keeps_push.
  - by apply keeps_push.
  - destruct mem; [by apply keeps_push|]. unfold keeps. cbn. by rewrite app_nil_r.
  - destruct (Hok _ _ Et). eapply keeps_worker; [done..| |done]. split; cbn; lia || done.
  - destruct (Hok _ _ Et). eapply keeps_worker; [done..| |done]. split; cbn; lia || done.
  - destruct (turn_ok w (Hok _ _ Et) Hl). by eapply keeps_worker.
Qed.

Lemma steps_deliver items d l d' : well_formed d -> delivered items (threads d) -> steps d l d' ->
  well_formed d' /\ length (threads d') = length (threads d) /\ delivered (items ++ concat (map items_of l)) (threads d').
Proof.
  intros Hw D S. revert items Hw D. induction S as [d|d1 a d2 l d3 H1 _ IH]; intros items Hw D; [by rewrite app_nil_r|].
  destruct (step_delivers items d1 a d2 Hw D H1) as (W2 & L2 & D2). destruct (IH _ W2 D2) as (W3 & L3 & D3). split; [done|]. split; [congruence|].
  cbn [map concat]. by rewrite app_assoc.
Qed.

(** *** The workers come to rest *)

(** The steps of workers and of threads that have put an item on a queue, as opposed to new items. *)
Definition internal (a : action) : bool := match a with AWrite _ | ARead _ | ATurn _ => true | _ => false end.

Definition worker_effort (w : worker) : nat := Z.to_nat (3 * notifying w + 2 * notify_count w + ev_left w).
Definition effort (ws : list worker) : nat := sum_list_with worker_effort ws.

Lemma effort_update ws tid w w' : ws !! tid = Some w -> (worker_effort w' < worker_effort w)%nat -> (effort (<[tid := w']> ws) < effort ws)%nat.
Proof. intros Hw H. destruct (focus _ _ _ Hw) as (a & b & -> & _ & _ & ->). unfold effort. rewrite !sum_list_with_app. cbn. lia. Qed.

Lemma internal_effort items d a d' : delivered items (threads d) -> step d a d' -> internal a = true -> (effort (threads d') < effort (threads d))%nat.
Proof.
  intros D S. destruct S as [| | | | | |tid w Et Hn|tid w Et Hl Hx Hn|tid w Et Hl]; try done; intros _; cbn [threads with_threads].
  all: pose proof (Forall_lookup_1 _ _ _ _ (de_ok _ _ D) Et) as [H1 H2 H3 H4 H5]; eapply effort_update; [exact Et|]; unfold worker_effort, process_turn, cq_pop; cbn; try lia.
  destruct (ev_queue w); cbn; lia.
Qed.

(** Nobody has anything to do: nobody is about to count an item or to take one, and a counter that is
    not zero is that of a worker that has left its event loop. *)
Definition at_rest (w : worker) : Prop := notifying w = 0 /\ ev_left w = 0 /\ (notify_count w = 0 \/ loopexit w = true).

Lemma rest_or_step d : Forall worker_ok (threads d) -> Forall at_rest (threads d) \/ exists a d', step d a d' /\ internal a = true.
Proof.
  intros F. destruct (decide (Forall at_rest (threads d))) as [|H]; [by left|]. right. apply not_Forall_Exists in H; [|intros w; unfold at_rest; apply _].
  apply Exists_exists in H as (w & Hw & Hr). apply list_elem_of_lookup in Hw as [tid Et]. pose proof (Forall_lookup_1 _ _ _ _ F Et) as [H1 H2 H3 H4 H5]. cbn in Hr.
  destruct (decide (0 < notifying w)); [eexists _, _; split; [by eapply step_write|done]|]. destruct (decide (0 < ev_left w)); [eexists _, _; split; [by eapply step_turn|done]|].
  destruct (loopexit w) eqn:El; [exfalso; apply Hr; split; [lia|]; split; [lia|by right]|].
  destruct (decide (0 < notify_count w)); [eexists _, _; split; [eapply step_read; [done|lia|done..]|done]|]. exfalso. apply Hr. split; [lia|]. split; [lia|]. left. lia.
Qed.

Lemma internal_no_items a : internal a = true -> items_of a = [].
Proof. by destruct a. Qed.

Lemma comes_to_rest items n : forall d, well_formed d -> delivered items (threads d) -> (effort (threads d) < n)%nat ->
  exists l d', steps d l d' /\ Forall (fun a => internal a = true) l /\ Forall at_rest (threads d').
Proof.
  induction n as [|n IH]; intros d Hw D Hn; [lia|]. destruct (rest_or_step d (de_ok _ _ D)) as [H|(a & d1 & S1 & Ha)]; [exists [], d; split; [constructor|done]|].
  destruct (step_delivers items d a d1 Hw D S1) as (W1 & _ & D1). pose proof (internal_effort items d a d1 D S1 Ha) as He.
  rewrite (internal_no_items a Ha), app_nil_r in D1. destruct (IH d1 W1 D1) as (l & d' & S' & F & R); [lia|].
  exists (a :: l), d'. split; [by econstructor|]. split; [by constructor|done].
Qed.

Lemma rest_in_time items l : forall d d', well_formed d -> delivered items (threads d) -> steps d l d' -> Forall (fun a => internal a = true) l -> (length l + effort (threads d') <= effort (threads d))%nat.
Proof.
  intros d d' Hw D S. induction S as [d|d1 a d2 l d3 H1 _ IH]; intros F; [cbn; lia|]. apply Forall_cons in F as [Ha F].
  destruct (step_delivers items d1 a d2 Hw D H1) as (W2 & _ & D2). rewrite (internal_no_items a Ha), app_nil_r in D2.
  pose proof (internal_effort items d1 a d2 D H1 Ha). specialize (IH W2 D2 F). cbn. lia.
Qed.

Lemma internal_list_no_items l : Forall (fun a => internal a = true) l -> concat (map items_of l) = [].
Proof. induction 1 as [|a l Ha _ IH]; [done|]. cbn. by rewrite IH, (internal_no_items a Ha). Qed.

(** At rest, a worker that was not told to stop has taken all its items. *)
Lemma rest_worker w : worker_ok w -> at_rest w -> existsb is_stop (taken w) = false -> ev_queue w = [].
Proof. intros [H1 H2 H3 H4 H5] (R1 & R2 & R3) Hs. apply nil_length_inv. destruct R3 as [R3|R3]; [lia|congruence]. Qed.

Lemma rest_all items ws : delivered items ws -> Forall at_rest ws -> Forall (fun x => is_stop x = false) items -> concat (map taken ws) ≡ₚ items.
Proof.
  intros [D1 D2 D3] R Hs. assert (Forall (fun w => ev_queue w = []) ws) as Hq.
  { apply Forall_forall. intros w Hw. apply rest_worker; [by apply (proj1 (Forall_forall _ _) D1)|by apply (proj1 (Forall_forall _ _) R)|].
    pose proof (proj1 (Forall_forall _ _) D2 w Hw) as Hl. cbn in Hl. apply not_true_is_false. intros He. apply existsb_exists in He as (x & Hx & Ex).
    rewrite (proj1 (Forall_forall _ _) Hs x) in Ex; [done|]. eapply elem_of_submseteq; [|by apply sublist_submseteq, Hl].
    unfold given. apply elem_of_app. left. by apply list_elem_of_In. }
  rewrite <- D3. clear - Hq. induction Hq as [|w ws Hw _ IH]; [done|]. cbn. unfold given. rewrite Hw, app_nil_r, IH. done.
Qed.

Lemma thread_init_ok n : (0 < n)%nat -> well_formed (thread_init n) /\ delivered [] (threads (thread_init n)).
Proof.
  intros Hn. split; [split; cbn; rewrite ?length_replicate; lia|]. split; cbn; [apply Forall_replicate; by split|apply Forall_replicate; constructor|].
  clear. induction n; [done|]. cbn. done.
Qed.

(** C32: whatever the main thread, the side threads and the workers do, in whatever order, every item
    that was put on a queue is with exactly one worker, every worker takes its items in the order in
    which they came, and a worker has no item on its queue that it will not be told of.  When no new
    items come, the threads come to rest after a bounded number of steps, whatever their order: they
    do not get stuck before, a worker that is at rest and was not told to stop has an empty queue,
    and all items have been taken if no worker was told to stop.  The writes to the descriptors of the
    workers are those that succeed. *)
Theorem dispatch_delivers (n : nat) (acts : list action) (d : dispatcher) (Hn : (0 < n)%nat) (Hrun : steps (thread_init n) acts d) :
  let items := concat (map items_of acts) in
  delivered items (threads d) /\
  (exists more d', steps d more d' /\ Forall (fun a => internal a = true) more /\ Forall at_rest (threads d')) /\
  (forall more d', steps d more d' -> Forall (fun a => internal a = true) more ->
    (length more <= effort (threads d))%nat /\
    (Forall at_rest (threads d') \/ exists a d'', step d' a d'' /\ internal a = true) /\
    (forall w, In w (threads d') -> at_rest w -> existsb is_stop (taken w) = false -> ev_queue w = []) /\
    (Forall at_rest (threads d') -> Forall (fun x => is_stop x = false) items -> concat (map taken (threads d')) ≡ₚ items)).
Proof.
  intros items. destruct (thread_init_ok n Hn) as [W0 D0]. destruct (steps_deliver [] _ _ _ W0 D0 Hrun) as (W & _ & D). cbn [app] in D. fold items in D.
  split; [done|]. split; [by eapply (comes_to_rest items (S (effort (threads d)))); [..|lia]|]. intros more d' S F.
  pose proof (rest_in_time items more d d' W D S F) as Ht. destruct (steps_deliver items d more d' W D S) as (_ & _ & D').
  rewrite (internal_list_no_items more F), app_nil_r in D'. split; [lia|]. split; [apply rest_or_step, D'|]. split; [|by apply rest_all].
  intros w Hw. apply rest_worker. apply (proj1 (List.Forall_forall _ _) (de_ok _ _ D')), Hw.
Qed.

(** A write to the descriptor that fails loses the item: a worker that waits goes on waiting, with the
    item on its queue. *)
Lemma failed_write_strands (x : CQ_ITEM) (w : worker) : at_rest w -> ev_queue w = [] ->
  at_rest (notify_write false (notify_push x w)) /\ ev_queue (notify_write false (notify_push x w)) = [x].
Proof. intros (R1 & R2 & R3) Hq. cbn. rewrite Hq. split; [|done]. split; cbn; [lia|done]. Qed.

(** Two workers: a connection each, and the second worker takes its item before the first is told. *)
Definition sample_args : conn_args := mkConnArgs 1 2 2048 1 0.
Definition sample_actions : list action :=
  [ADispatch None true 30 sample_args; ADispatch (Some (Some 7)) true 31 sample_args; ADispatch None true 32 sample_args; AWrite 1; ARead 1; ATurn 1].
Definition sample_worker (q t : list CQ_ITEM) (c n : Z) (id : Z) : worker := mkWorker q c n 0 t false id.
Definition sample_end : dispatcher :=
  mkDispatcher [sample_worker [new_conn_item 30 sample_args; new_conn_item 31 sample_args] [] 0 2 7; sample_worker [] [new_conn_item 32 sample_args] 0 0 0] 1 0.

Local Ltac by_evaluation := vm_compute; reflexivity.
Local Ltac run_step :=
  eapply steps_cons; [first [eapply step_dispatch; by_evaluation | eapply step_redispatch; cbn; lia | eapply step_stop; cbn; lia
    | eapply step_write; by_evaluation | eapply step_read; by_evaluation | eapply step_turn; by_evaluation]|].

Lemma sample_steps : steps (thread_init 2) sample_actions sample_end.
Proof. unfold sample_actions. do 6 run_step. vm_compute. constructor. Qed.

Lemma dispatch_delivers_witness : exists more d', steps sample_end more d' /\ concat (map taken (threads d')) ≡ₚ concat (map items_of sample_actions).
Proof.
  destruct (dispatch_delivers 2 sample_actions sample_end ltac:(lia) sample_steps) as (_ & (more & d' & S & F & R) & H).
  exists more, d'. split; [exact S|]. apply (H more d' S F); [exact R|]. vm_compute. repeat constructor.
Defined.

(** A worker that was told to stop leaves what came later on its queue. *)
Example stopped_worker_leaves_items :
  let rest := mkDispatcher [mkWorker [fd_item 30 queue_redispatch] 1 0 0 [fd_item 0 queue_stop] true 0] (-1) (-1) in
  steps (thread_init 1) [AStop 0; AWrite 0; ARead 0; ATurn 0; ARedispatch 0 30; AWrite 0] rest /\ Forall at_rest (threads rest).
Proof. cbv zeta. split; [do 6 run_step; vm_compute; constructor|]. cbn. constructor; [|constructor]. split; [done|]. split; [done|]. by right. Qed.
